(* ===== verification/_CoqProject ===== *)
-Q . S2P
Prelude.v
Json.v
PamGlob.v
PamRules.v
IpMatch.v
UrlSafety.v
Calendar.v
Doubles.v
Money.v
Quotes.v
SecretCrypto.v
BillingStore.v
Invoices.v
Contracts.v
Stripe.v
QuoteStore.v
QuoteService.v
QuoteLifecycle.v
QuoteAccept.v
QuoteSystem.v
QuoteTheorems.v
BillingSystem.v
BillingTheorems.v
ContractTheorems.v
ContractBehaviour.v
BillingBehaviour.v
Commerce.v
CommerceTheorems.v
AcceptTheorems.v
CommerceBehaviour.v
Assurance.v
Tenant.v
Permissions.v
Auth.v
GuardrailTables.v
ApprovalText.v
Guardrails.v
RateLimit.v
ResultSecrets.v
IntentStore.v
IntentRelease.v
IntentCreate.v
IntentHandlers.v
IntentInvariants.v
IntentSystem.v
Elevations.v
ElevationSystem.v
IntentTheorems.v
ElevationTheorems.v
ElevationBehaviour.v
IntentBehaviour.v
CommandTypes.v
CommandStore.v
Commands.v
CommandSystem.v
CommandInvariants.v
CommandTokens.v
CommandTheorems.v
CommandBehaviour.v
CommandRaces.v
DeskStore.v
Tickets.v
TicketSystem.v
TicketTheorems.v
TicketBehaviour.v
TimeEntries.v
TimeTheorems.v
WorkSystem.v
WorkRuns.v
WorkReopened.v
