(* ===== verification/Prelude.v ===== *)
(** * BL4CK, verified: approvals, elevations, commands, service desk and billing

    BL4CK is a remote-management platform for service providers. This library
    models six of its cores: the approval of dangerous tool calls, the elevation
    of privileges on customers' machines, the queue of commands to their agents, the
    guards on network addresses, the service desk, and the billing of customers from
    quote to payment. Paths below are relative to [src/apps/api/src] unless they begin
    with [packages/].

    ** The parts and how they interact

    _Intents._ A call of a tool is classified by the guardrail
    ([services/aiGuardrails.ts]) from the tool's tier, the action tables and the
    caller's role. A Tier-3 call reaches [createActionIntent]
    ([services/actionIntents/intentService.ts]), which digests the canonical form
    of the arguments ([packages/shared/src/canonicalize]), resolves who may decide
    ([intentApprovers.ts]), and in one transaction inserts the intent, one
    approval row per approver and an outbox row. An approver decides over
    [routes/approvals.ts], which asks for live permissions
    ([services/permissions.ts]) and a proof of possession
    ([services/authenticatorAssurance.ts]), and mirrors the first decision onto
    the intent together with the outbox row. The publisher
    ([jobs/intentOutboxPublisher.ts]) turns outbox rows into jobs; the release
    worker ([jobs/intentReleaseWorker.ts]) or the waiting chat session
    ([services/aiAgentSdk.ts]) claims the intent, revalidates it
    ([revalidateRelease.ts], [actorContext.ts]), runs the tool, seals any
    credential ([secretBearingTools.ts], [resultSecrets.ts],
    [services/secretCrypto.ts]) and stores the result. The requester reveals
    the credential once ([routes/actionIntents.ts]). Reapers
    ([jobs/intentExpiryReaper.ts], [jobs/approvalExpiryReaper.ts]) close what
    expired, hung or was never revealed. Every hand-over is a row update with a
    status condition; there are no locks, and any process may stop at any time.

    _Elevations._ An agent ([routes/agents/elevationRequests.ts]), a tool
    ([services/aiToolsPam.ts]), tool-action governance
    ([services/pamToolActionGovernance.ts]) or a remediation
    ([routes/remediationSuggestions.ts]) asks for privileges on a device. Software
    policies ([services/pamBridge.ts]) and rules ([services/pamRuleEngine.ts])
    decide at once or leave the row pending for technicians, who answer in
    [routes/pam.ts] or on their phones over the same approval rows as intents. An
    approved row can be actuated ([routes/devices/actuateElevation.ts]) or revoked;
    [jobs/pamJobs.ts] closes windows and stale requests.

    _Commands._ [services/commandQueue.ts] stores a command for a device and, where a
    socket is open, sends it at once; otherwise the agent collects it with its next
    poll ([routes/agents/commands.ts]). Both claim the row first
    ([services/commandDispatch.ts]) and decrypt its credentials
    ([services/sensitiveCommandPayload.ts]). Results come back over either channel
    ([routes/agents/commands.ts], [routes/agentWs.ts]);
    [jobs/staleCommandReaper.ts] closes what outlived its deadline;
    [services/tenantOffboarding.ts] replaces what is queued by uninstalls.

    _Addresses._ [services/ipAllowlist.ts] admits callers of a partner by address;
    [services/urlSafety.ts] and [services/ssrfGuard.ts] keep outgoing requests away
    from internal addresses.

    _Service desk._ [services/ticketService.ts] creates tickets, moves them through their
    statuses and keeps their feed; customers write over [routes/portal/tickets.ts] and by
    mail ([services/inboundEmail/inboundEmailService.ts]); [jobs/ticketSlaWorker.ts] stamps
    and announces missed targets. Technicians record time and parts on tickets
    ([services/timeEntryService.ts]); billing drafts its invoices from that work and marks
    it billed, so the two share the tables of work. A device that moves to another
    organization takes its tickets and their work along ([routes/devices/moveOrg.ts]).

    _Billing._ [services/invoiceService.ts] keeps draft invoices, assembles them
    from unbilled work, issues, takes payments on and voids them;
    [services/contractService.ts] bills the periods of recurring contracts through
    it, [services/contractRenewal.ts] extends terms, and [jobs/contractWorker.ts]
    runs both daily. A quote ([services/quoteService.ts]) is edited as a draft, sent
    ([quoteLifecycle.ts], with an undo window in [jobs/quoteSendQueue.ts]), viewed,
    and declined, expired or accepted; [services/quoteAcceptService.ts] turns an
    accepted quote into an issued invoice and draft contracts in one transaction.
    Invoices are paid by hand or through Stripe: [services/invoiceCheckout.ts] opens
    a session on the partner's own account, and [services/stripeSettle.ts], the
    webhook or [jobs/stripeReconcileSweep.ts] record the capture through
    [services/stripeReconcile.ts]. Amounts are computed in [services/invoiceMath.ts] and
    [packages/shared/src/utils/quoteMath.ts], periods in [services/contractMath.ts].

    ** Files

    - [Prelude]: results and guards, JavaScript string operations, decimal
      text, SQL updates and selects on maps, the tactics and the hint base.
    - [Json]: JavaScript values, [sortValue] and [canonicalizeArguments].
    - [PamGlob], [PamRules]: [services/pamBridge.ts], [pamRuleEngine.ts] and the
      rule rows of [db/schema/pam.ts].
    - [IpMatch]: [services/ipMatch.ts], [ipAllowlist.ts]. [UrlSafety]:
      [services/urlSafety.ts], and [services/ssrfGuard.ts] in its module [Guard].
    - [Calendar]: [services/contractMath.ts] on dates as text, with the day count
      of the language's [Date].
    - [Doubles]: rounding to 53 bits and its error bounds. [Money]:
      [services/invoiceMath.ts]. [Quotes]: [packages/shared/src/utils/quoteMath.ts],
      [depositMath.ts] and the totals of [services/quoteAcceptService.ts].
    - [BillingStore]: the billing tables as one store. [Invoices]: one function
      per call of [services/invoiceService.ts], with [invoiceAssembly.ts],
      [invoiceNumbers.ts] and catalog prices. [Contracts]: the same for
      [services/contractService.ts], [contractRenewal.ts], [contractQuantities.ts]
      and [jobs/contractWorker.ts].
    - [Stripe]: the mapping and account tables with their constraints, checkout,
      captures, refunds, webhook events and the sweep.
    - [QuoteStore]: the quote tables. [QuoteService]: drafts. [QuoteLifecycle]: send,
      undo, views, declines, expiry. [QuoteAccept]: the acceptance, on both stores.
    - [QuoteSystem]: the calls on quotes as steps; the class [Lifecycle] says which
      moves of the status the late writes of views and declines allow, with one
      instance for calls in order and one for calls that overlap. [QuoteTheorems]:
      what holds in every reachable state.
    - [Commerce]: billing, quotes and Stripe as one system ([commerce_step]) and its
      refinement to [bill_step]. [CommerceTheorems], [AcceptTheorems]: acceptance.
      [CommerceBehaviour]: terms, checkouts, refusals, the undo window, late views, a
      history.
    - [BillingSystem]: the calls as steps on the store ([invoice_step],
      [contract_step]); [bill_step] adds billing runs that read a contract,
      are overtaken, and write later. Each call is a sequence of elementary
      changes, and invariants are proved on those.
    - [BillingTheorems], [ContractTheorems]: what holds in every reachable store.
      [ContractBehaviour], [BillingBehaviour]: jobs, catch-up, overlaps, and a
      concrete history.
    - [CommandTypes]: type tables, deadlines, payload credentials. [CommandStore]: the
      table and one definition per statement. [Commands]: the operations as
      processes, one statement or send per step. [CommandSystem]: all of them
      interleaved, with crashes and the statements of other services.
      [CommandInvariants], [CommandTokens]: the life cycle of a row, and claims as
      tokens that are never duplicated. [CommandTheorems]: what holds under every
      interleaving. [CommandBehaviour]: expiry, drain, credentials. [CommandRaces]:
      concrete races and the witnesses.
    - [DeskStore]: the tables of the desk and its directory. [Tickets]: every call of
      [services/ticketService.ts] as a read that ends in a plan and the write of the
      plan, with [ticketSla.ts], [ticketConfigService.ts], [ticketFormService.ts],
      [ticketNumbers.ts], and the sweep. [TicketSystem]: calls that overlap between read
      and write. [TicketTheorems]: what holds under every interleaving.
      [TicketBehaviour]: the pause ledger, races, the witnesses.
    - [TimeEntries]: [services/timeEntryService.ts]. [TimeTheorems]: every call as a
      sequence of elementary changes of the rows, scope, timesheets. [WorkSystem]: the
      desk, time tracking and [bill_step] on one database ([work_step]). [WorkRuns]:
      concrete runs, and what goes wrong in them. [WorkReopened]: work that is opened
      for billing again by hand.
    - [Assurance]: [packages/shared/src/utils/assuranceLevel.ts],
      [services/authenticatorPolicy.ts], [authenticatorAssurance.ts],
      [mobileHwKey.ts], [approverWebAuthn.ts].
    - [Tenant]: the directory tables ([db/schema/users.ts], [orgs.ts]), the
      row-level-security predicates, [services/tenantStatus.ts].
    - [Permissions]: [services/permissions.ts], [permissionMatching.ts],
      [actionIntents/intentApprovers.ts].
    - [Auth]: [middleware/auth.ts] (principals and closures) and
      [resolveWritableToolOrgId] of [services/aiTools.ts].
    - [GuardrailTables], [ApprovalText], [Guardrails]:
      [services/aiGuardrails.ts], its tables entry by entry, the approval
      descriptions, the tier gate and the RBAC check.
    - [RateLimit]: [services/rate-limit.ts].
    - [SecretCrypto]: [services/secretCrypto.ts].
    - [ResultSecrets]: [actionIntents/secretBearingTools.ts],
      [resultSecrets.ts].
    - [IntentStore]: the rows of [db/schema/actionIntents.ts], [approvals.ts] and
      [elevations.ts] with the CHECK constraints of the migrations,
      [transitionIntent], the reapers and the publisher as functions on the store.
    - [IntentRelease]: [actorContext.ts], [revalidateRelease.ts],
      [durableRelease.ts], the headless tool lists, the treatment of results.
    - [IntentCreate]: [createActionIntent], split where the code awaits: the
      preparation and the transaction.
    - [IntentHandlers]: the handlers as processes. A value of [Proc] is a
      program point with its live variables; [proc_step] runs one database
      statement or transaction, or one external call, and either goes on or
      answers. What a step reads from outside (clocks, directory, tool
      registry, policy, tool outcome, whether a best-effort statement fails,
      which of several rows an unordered SELECT returns) is its [Env].
    - [IntentInvariants]: the specification of the life cycle as a relation on
      rows, the store invariant, and its preservation.
    - [IntentSystem]: all processes over one store. [sys_step] starts a process,
      runs a step of any process in any environment, crashes one, or runs a
      job; [reachable] is the closure from an empty store; the invariant of a
      process at each program point; the claim token argument.
    - [Elevations]: the handlers of elevations as processes of the same kind, and
      their reapers. [ElevationSystem]: their steps interleaved with all of
      [sys_step], over the same store, and the invariant of rows and audit trail.
    - [IntentTheorems], [ElevationTheorems]: the theorems about every reachable
      state. [IntentBehaviour], [ElevationBehaviour]: what single handlers do on
      their branches, and concrete traces.

    ** What the theorems show

    - Intents (C1, C2, C10, C21): the tool of an intent runs at most once
      under any interleaving, retry and crash; every run was approved with
      four eyes, or by a sole approver with a hardware factor, and
      revalidated; the stored life cycle refines a small state machine.
    - Credentials and assurance (C29, C35): a credential a tool returns is
      stored sealed or not at all; a level of assurance is recorded only with
      its proof.
    - Elevations (C13, C14): the life cycle refines a state machine; a grant
      is bounded and somebody other than its subject, a policy or a rule is
      accountable for it.
    - PAM rules (C27, C30): withholding data never creates a match; the glob
      matcher decides its language.
    - Addresses (C26, C31): requests are pinned to addresses outside the
      blocked ranges of IPv4 and IPv6; the allowlist admits exactly its
      ranges.
    - Billing (C3, C9, C12, C28, C34): what is paid and what is left agree
      with the payments; a period is billed once; issued invoices are frozen;
      billing catches up; rows are well formed.
    - Quotes and Stripe (C4, C5, C7, C23, C24): quotes, acceptance, checkouts,
      captures and refunds refine the billing system, for calls in the order
      the next section says, so what holds of billing holds of them; a quote
      is billed once, for what it showed, with every line; its stored totals
      are those of its lines; a charge is recorded once.
    - Amounts and dates (C32, C33): the period search is right and ends;
      rounding in doubles against exact half-up rounding.
    - Device commands (C8, C11, C22, C25, C36): under every interleaving of
      callers, agents and jobs a command is handed over at most once, gets one
      outcome and follows a small life cycle; it goes to the agent of its own
      device, with the payload it was given; overdue commands are closed;
      credentials are stored encrypted and arrive as given.
    - Service desk (C6, C15, C16, C17, C18, C19, C20): under overlapping calls
      the stamps of a ticket say what its status says and it moves along the
      table; a missed target is announced once; the paused minutes are those
      of the pauses; time entries are consistent, follow their ticket, also
      when its device moves, and stay in the caller's scope; with billing on
      the same database, work is billed once.
    - Divergences (C37, C38, C39, C40): behaviours that differ from what the
      code or its comments intend, each proved for all states that meet the
      conditions its theorem names.

    ** Parameters, bounds and fuel

    SHA-256, AES-256-GCM, the signature checks of WebAuthn and of mobile keys,
    JSON parsing, name resolution, the rendering of intake forms, the local time of a zone, the tool registry,
    the tool descriptions and the tools themselves are parameters; what is needed
    of them is a named hypothesis, with an instance in the witnesses. Instants are
    integers in milliseconds; the clocks of the API processes and of the database
    are independent and need not be monotone. [HANDLER_FUEL] is 8: [rank] is at
    most 8 at every program point and falls with each step, so running a handler
    alone with that fuel always answers ([handlers_answer]). The decimal printer [dec]
    carries a fuel that exceeds the number of digits. The batch sizes
    [MAX_REAP_PER_RUN] (500), [MAX_PUBLISH_PER_RUN] (200) and [MAX_PER_RUN] are the
    code's.

    Dates are text of the form YYYY-MM-DD. Contracts start in the years 1667 to
    9916 and the billing clock is between 1970 and 9917, so that every date a
    computation passes through has four digits of year; inside these bounds the
    walk over periods ends before its [RUNAWAY_GUARD] of 100000 steps
    (C32), which is its fuel. Doubles are rationals rounded to 53 bits, ties to
    even, without overflow and subnormals, which amounts in these ranges do not
    reach; the theorems on rounding ask for amounts below 2^43 cents. Payments are
    positive with two decimals, as the request schema asks. Billing calls run one
    at a time, except billing runs, which overlap freely, and in the lemmas
    [overlapping_issues_bill_twice] and [overlapping_payments_exceed_the_balance],
    which show what issues and payments do when they overlap;
    C6 and C17 take issues, and all calls
    of the desk, one after the other. Ticket calls overlap freely in C15 (but for assignments) and
    C16; C20 takes them in order. Ids of new rows are random:
    a new time entry or part has an id that no invoice line names. Amounts of work
    larger than their columns are not modelled as errors. Calls on quotes run one at
    a time, except view stamps and declines by a user, which write what they decided
    on an older row; C4 takes those in order, C37 shows what
    they can do. Captures of one session run one at a time and the refunds of one
    charge in order. Stripe amounts are at most 99999999 minor units, Stripe's own
    limit. Of the command queue each statement commits on its own; deadlines are exact
    rationals of minutes; redaction and the validation of structured results are
    arbitrary functions. Cascades of parent lines run for as many rounds as there are lines.

    ** Not modelled

    Audit rows other than those of elevations, logs, metrics, push notifications
    and e-mail; the revocation of an OAuth client on a report; the polling of
    [waitForIntentDecision]; HTTP parsing and rate limits of the routes; the memo
    caches of [secretCrypto.ts]; retention of Redis keys beyond their expiry; the
    tool implementations; of the chat session, its plan steps, its own writes to
    the execution ledger, and the map from a session to its pending intent (a
    session completes one call at a time here); what the handlers of single types do
    with a command's result, results without a command, the reapers of other tables,
    desktop sessions beyond the re-arm of their stop;
    images, cover pages, rendered documents and the hash of an acceptance; the
    triage feedback, ticket mailboxes and the configuration of statuses, the billing
    summary and export of the desk; the signed links of quotes; the webhook's signature; billing settings, price
    estimates and read-only lists. The rest of the API, the front ends, the desktop
    programs and the Go agent are not modelled.

    ** Planned extensions, in order

    The waiting loop of [waitForIntentDecision]; registration of approver devices; the partner's Stripe key on top of
    [SecretCrypto]. *)
From stdpp Require Import base gmap strings list option sorting.
From Stdlib Require Import ZArith Lia Ascii.

#[export] Set Default Goal Selector "!".

(** ** Scope and notations of the development *)

Declare Scope bl4ck_scope.
Delimit Scope bl4ck_scope with bl4ck.
Open Scope Z_scope.
Open Scope bl4ck_scope.

(** The outcome of fallible code: a value, or the error the source throws or
    returns. *)
Inductive result (E A : Type) : Type :=
| Ok (a : A)
| Err (e : E).
Arguments Ok {E A} a.
Arguments Err {E A} e.

Definition rbind {E A B} (m : result E A) (k : A -> result E B) : result E B :=
  match m with Ok a => k a | Err e => Err e end.

Notation "'let!' x ':=' m 'in' k" := (rbind m (fun x => k))
  (at level 10, x pattern, m at level 100, k at level 200)
  : bl4ck_scope.

(** [check b e] is the guard [if (!b) throw e] (or an early error return). *)
Definition check {E} (b : bool) (e : E) : result E unit :=
  if b then Ok tt else Err e.

(** ** JavaScript values that are tested for truthiness *)

(** [truthy s]: a string that is neither null, undefined nor empty. *)
Definition truthy (s : option string) : bool :=
  match s with Some (String _ _) => true | _ => false end.

(** [a === b] on optional strings ([null] is one value here). *)
Definition opt_eqb (a b : option string) : bool := bool_decide (a = b).

(** ** The string operations of the language that the sources use *)

(** A string is a sequence of 8-bit code units: exact for ASCII text. *)
Definition ascii_lower (c : ascii) : ascii :=
  let n := nat_of_ascii c in
  if (65 <=? n)%nat && (n <=? 90)%nat then ascii_of_nat (n + 32) else c.

(** [s.toLowerCase()] *)
Fixpoint toLowerCase (s : string) : string :=
  match s with
  | EmptyString => EmptyString
  | String c s' => String (ascii_lower c) (toLowerCase s')
  end.

(** [s.startsWith(p)] *)
Fixpoint startsWith (p s : string) : bool :=
  match p, s with
  | EmptyString, _ => true
  | String a p', String b s' => bool_decide (a = b) && startsWith p' s'
  | String _ _, EmptyString => false
  end.

(** [s.includes(p)] *)
Fixpoint includes (p s : string) : bool :=
  startsWith p s ||
  match s with
  | EmptyString => false
  | String _ s' => includes p s'
  end.

(** [s.slice(n)] for a non-negative [n]. *)
Fixpoint str_drop (n : nat) (s : string) : string :=
  match n, s with
  | O, _ => s
  | S n', String _ s' => str_drop n' s'
  | S _, EmptyString => EmptyString
  end.

(** [s.slice(0, n)] *)
Fixpoint str_take (n : nat) (s : string) : string :=
  match n, s with
  | O, _ => EmptyString
  | S n', String c s' => String c (str_take n' s')
  | S _, EmptyString => EmptyString
  end.

(** [s.indexOf(p)]: the first position where [p] occurs. *)
Fixpoint indexOf (p s : string) : option nat :=
  if startsWith p s then Some O
  else match s with
       | EmptyString => None
       | String _ s' => S <$> indexOf p s'
       end.

(** [s.trim()] on ASCII white space. *)
Definition is_space (c : ascii) : bool :=
  let n := nat_of_ascii c in (n =? 32)%nat || ((9 <=? n)%nat && (n <=? 13)%nat).

Fixpoint trim_left (s : string) : string :=
  match s with
  | String c s' => if is_space c then trim_left s' else s
  | EmptyString => EmptyString
  end.

Fixpoint trim_right (s : string) : string :=
  match s with
  | EmptyString => EmptyString
  | String c s' => match trim_right s' with
                   | EmptyString => if is_space c then EmptyString else String c EmptyString
                   | r => String c r
                   end
  end.

Definition trim (s : string) : string := trim_right (trim_left s).

(** [s.split(c)] for a one-character separator: always at least one part. *)
Fixpoint str_split (sep : ascii) (s : string) : list string :=
  match s with
  | EmptyString => [EmptyString]
  | String c s' =>
      if bool_decide (c = sep) then EmptyString :: str_split sep s'
      else match str_split sep s' with
           | p :: ps => String c p :: ps
           | [] => [String c EmptyString]
           end
  end.

Fixpoint str_join (sep : string) (l : list string) : string :=
  match l with
  | [] => EmptyString
  | [x] => x
  | x :: l' => (x ++ sep ++ str_join sep l')%string
  end.

Fixpoint str_forallb (f : ascii -> bool) (s : string) : bool :=
  match s with
  | EmptyString => true
  | String c s' => f c && str_forallb f s'
  end.

(** Decimal digits: [String(n)] for a non-negative integer, and the value of a
    run of digits, as [Number] reads it. *)
Definition is_digit (c : ascii) : bool :=
  let n := nat_of_ascii c in (48 <=? n)%nat && (n <=? 57)%nat.

(** [[0-9a-f]] and [[0-9a-fA-F]]. *)
Definition is_hex_lower (c : ascii) : bool :=
  let n := nat_of_ascii c in is_digit c || ((97 <=? n)%nat && (n <=? 102)%nat).

Definition is_hex (c : ascii) : bool := is_hex_lower (ascii_lower c).

Fixpoint digits_value (s : string) (acc : Z) : Z :=
  match s with
  | EmptyString => acc
  | String c s' => digits_value s' (acc * 10 + Z.of_nat (nat_of_ascii c - 48))
  end.

Definition digit_char (d : Z) : ascii := ascii_of_nat (48 + Z.to_nat d).

Fixpoint dec_loop (fuel : nat) (n : Z) (acc : string) : string :=
  match fuel with
  | O => acc
  | S f =>
      let acc' := String (digit_char (n mod 10)) acc in
      if n <? 10 then acc' else dec_loop f (n / 10) acc'
  end.

(** The fuel, one more than the bit length, exceeds the number of digits. *)
Definition dec (n : Z) : string := dec_loop (S (Z.to_nat (Z.log2 n))) n EmptyString.

(** [Number(s)] on a non-empty run of digits; [None] stands for anything else. *)
Definition parse_dec (s : string) : option Z :=
  match s with
  | EmptyString => None
  | String _ _ => if str_forallb is_digit s then Some (digits_value s 0) else None
  end.

(** ** The relational-store operations of the sources *)

(** [UPDATE t SET f WHERE p]: every row that satisfies [p] is replaced. *)
Definition sql_update {A} (p : A -> bool) (f : A -> A) (t : gmap string A) : gmap string A :=
  (fun r => if p r then f r else r) <$> t.

(** [SELECT * FROM t WHERE p], in an unspecified but fixed order. *)
Definition sql_rows {A} (t : gmap string A) : list A := (map_to_list t).*2.

Definition sql_select {A} (p : A -> bool) (t : gmap string A) : list A :=
  List.filter p (sql_rows t).

(** [... LIMIT 1] without [ORDER BY]: the database returns any one of the
    matching rows. The index [h] is the database's choice. *)
Definition select1 {A} (h : nat) (l : list A) : option A := l !! (h mod length l)%nat.

(** [true] when some row satisfies [p]. *)
Definition sql_exists {A} (p : A -> bool) (t : gmap string A) : bool :=
  existsb p (sql_rows t).

(** ** Tactics *)

(** Turn boolean connectives and decisions in the hypotheses into Props. *)
Ltac bool_hyps :=
  repeat match goal with
  | H : _ && _ = true |- _ => apply andb_true_iff in H; destruct H
  | H : _ || _ = false |- _ => apply orb_false_iff in H; destruct H
  | H : negb _ = true |- _ => apply negb_true_iff in H
  | H : negb _ = false |- _ => apply negb_false_iff in H
  | H : bool_decide _ = true |- _ => apply bool_decide_eq_true in H
  | H : bool_decide _ = false |- _ => apply bool_decide_eq_false in H
  | H : (_ <? _)%Z = true |- _ => apply Z.ltb_lt in H
  | H : (_ <? _)%Z = false |- _ => apply Z.ltb_ge in H
  | H : (_ <=? _)%Z = true |- _ => apply Z.leb_le in H
  | H : (_ <=? _)%Z = false |- _ => apply Z.leb_gt in H
  | H : (_ =? _)%Z = true |- _ => apply Z.eqb_eq in H
  | H : (_ =? _)%Z = false |- _ => apply Z.eqb_neq in H
  | H : (_ && true)%bool = _ |- _ => rewrite andb_true_r in H
  end.

(** Case analysis on every match of the goal or of hypothesis [H]. *)
Ltac destr_goal := repeat (case_match; simpl in *; simplify_eq).
Ltac destr_in H :=
  repeat match type of H with
  | context [match ?x with _ => _ end] =>
      let E := fresh "E" in destruct x eqn:E; simpl in H; simplify_eq
  end.

(** ** Generic lemmas *)

Section store_lemmas.
Context {A : Type}.
Implicit Types (t : gmap string A) (p : A -> bool) (f : A -> A).

Lemma lookup_sql_update p f t k :
  sql_update p f t !! k = (fun r => if p r then f r else r) <$> t !! k.
Proof. unfold sql_update. by rewrite lookup_fmap. Qed.

Lemma sql_update_Some p f t k r :
  sql_update p f t !! k = Some r ->
  exists r0, t !! k = Some r0 /\ (r = r0 /\ p r0 = false \/ r = f r0 /\ p r0 = true).
Proof.
  rewrite lookup_sql_update. intros (r0 & Hk & ->)%fmap_Some.
  exists r0. destruct (p r0); auto.
Qed.

Lemma sql_update_lookup_Some p f t k r :
  t !! k = Some r -> sql_update p f t !! k = Some (if p r then f r else r).
Proof. intros H. by rewrite lookup_sql_update, H. Qed.

Lemma sql_update_lookup_None p f t k :
  t !! k = None -> sql_update p f t !! k = None.
Proof. intros H. by rewrite lookup_sql_update, H. Qed.

Lemma dom_sql_update p f t : dom (sql_update p f t) = dom t.
Proof. unfold sql_update. by rewrite dom_fmap_L. Qed.

Lemma sql_rows_elem t r : r ∈ sql_rows t <-> exists k, t !! k = Some r.
Proof.
  unfold sql_rows. rewrite list_elem_of_fmap. split.
  - intros ([k r'] & -> & H). exists k. by apply elem_of_map_to_list in H.
  - intros (k & H). exists (k, r). split; [done|]. by apply elem_of_map_to_list.
Qed.

Lemma list_filter_elem p l (x : A) : x ∈ List.filter p l <-> x ∈ l /\ p x = true.
Proof. rewrite !list_elem_of_In. apply filter_In. Qed.

Lemma sql_select_elem p t r :
  r ∈ sql_select p t <-> (exists k, t !! k = Some r) /\ p r = true.
Proof. unfold sql_select. by rewrite list_filter_elem, sql_rows_elem. Qed.

Lemma sql_exists_true p t :
  sql_exists p t = true <-> exists k r, t !! k = Some r /\ p r = true.
Proof.
  unfold sql_exists. rewrite existsb_exists. split.
  - intros (r & H & Hp). apply list_elem_of_In, sql_rows_elem in H as [k H]. eauto.
  - intros (k & r & H & Hp). exists r. split; [|done].
    apply list_elem_of_In, sql_rows_elem. eauto.
Qed.

Lemma sql_exists_false p t :
  sql_exists p t = false <-> forall k r, t !! k = Some r -> p r = false.
Proof.
  rewrite <- not_true_iff_false, sql_exists_true. split.
  - intros H k r Hk. apply not_true_iff_false. naive_solver.
  - intros H (k & r & Hk & Hp). specialize (H k r Hk). congruence.
Qed.

Lemma select1_elem h (l : list A) x : select1 h l = Some x -> x ∈ l.
Proof. intros H. apply list_elem_of_lookup. eauto. Qed.

Lemma select1_None h (l : list A) : select1 h l = None <-> l = [].
Proof.
  unfold select1. rewrite lookup_ge_None. split; [|intros ->; simpl; lia].
  destruct l as [|x l]; [done|]. intros H.
  pose proof (Nat.mod_upper_bound h (length (x :: l))). simpl in *. lia.
Qed.

End store_lemmas.

(** Occurrences of an element, for at-most-once arguments. *)
Definition count_if {A} (p : A -> bool) (l : list A) : nat := length (List.filter p l).

Section count_lemmas.
Context {A : Type}.
Implicit Types (p q : A -> bool) (l : list A).

Lemma count_if_app p l1 l2 : count_if p (l1 ++ l2) = (count_if p l1 + count_if p l2)%nat.
Proof. unfold count_if. by rewrite List.filter_app, length_app. Qed.

Lemma count_if_cons p x l : count_if p (x :: l) = ((if p x then 1 else 0) + count_if p l)%nat.
Proof. unfold count_if. simpl. by destruct (p x). Qed.

Lemma count_if_pos p l : (0 < count_if p l)%nat <-> exists x, x ∈ l /\ p x = true.
Proof.
  unfold count_if. split.
  - destruct (List.filter p l) as [|x l'] eqn:E; simpl; [lia|]. intros _.
    exists x. apply list_filter_elem. rewrite E. apply list_elem_of_here.
  - intros (x & Hx). apply list_filter_elem in Hx.
    destruct (List.filter p l); [by apply not_elem_of_nil in Hx|simpl; lia].
Qed.

Lemma count_if_middle p l1 x l2 :
  count_if p (l1 ++ x :: l2) = ((if p x then 1 else 0) + count_if p (l1 ++ l2))%nat.
Proof. rewrite !count_if_app, count_if_cons. lia. Qed.

Lemma count_if_zero p l : (forall x, x ∈ l -> p x = false) -> count_if p l = 0%nat.
Proof.
  induction l as [|x l IH]; intros H; [done|]. rewrite count_if_cons, (H x) by set_solver.
  cbn. apply IH. set_solver.
Qed.

End count_lemmas.

(** ** Strings *)

Lemma str_forallb_impl (f g : ascii -> bool) s :
  (forall c, f c = true -> g c = true) -> str_forallb f s = true -> str_forallb g s = true.
Proof.
  intros Hfg. induction s as [|c s IH]; cbn [str_forallb]; [done|]. intros H. bool_hyps.
  by rewrite Hfg, IH.
Qed.

Lemma str_take_app s t : str_take (String.length s) (s ++ t)%string = s.
Proof. induction s; simpl; congruence || by destruct t. Qed.

Lemma str_drop_app s t n :
  str_drop (String.length s + n) (s ++ t)%string = str_drop n t.
Proof. induction s; simpl; auto. Qed.

(** The first colon of a text that starts with a colon-free part. *)
Lemma indexOf_colon s t :
  str_forallb (fun c => negb (bool_decide (c = ":"%char))) s = true ->
  indexOf ":" (s ++ ":" ++ t)%string = Some (String.length s).
Proof.
  induction s as [|c s IH]; [done|]. intros H. cbn [str_forallb] in H. bool_hyps.
  change ((String c s ++ ":" ++ t)%string) with (String c (s ++ ":" ++ t)).
  cbn [indexOf startsWith]. rewrite bool_decide_eq_false_2 by congruence. cbn [andb]. by rewrite IH.
Qed.

(** A part without the separator is kept whole. *)
Definition lacks (sep : ascii) (s : string) : bool := str_forallb (fun c => negb (bool_decide (c = sep))) s.

Lemma split_lacks sep s : lacks sep s = true -> str_split sep s = [s].
Proof.
  unfold lacks. induction s as [|c s IH]; [done|]. cbn [str_forallb str_split]. intros H. bool_hyps.
  rewrite bool_decide_eq_false_2, IH by done. done.
Qed.

Lemma split_part sep s t :
  lacks sep s = true -> str_split sep (s ++ String sep t)%string = s :: str_split sep t.
Proof.
  unfold lacks. induction s as [|c s IH]; cbn [str_forallb].
  - intros _. change (("" ++ String sep t)%string) with (String sep t). cbn [str_split].
    by rewrite bool_decide_eq_true_2.
  - intros H. bool_hyps. change ((String c s ++ String sep t)%string) with (String c (s ++ String sep t)).
    cbn [str_split]. rewrite bool_decide_eq_false_2, IH by done. done.
Qed.

(** ** Decimal round trip *)

Lemma digit_no_colon c : is_digit c = true -> negb (bool_decide (c = ":"%char)) = true.
Proof. intros H. case_bool_decide; [by subst c|done]. Qed.

Lemma nat_of_digit_char d : 0 <= d < 10 -> nat_of_ascii (digit_char d) = (48 + Z.to_nat d)%nat.
Proof. intros H. unfold digit_char. apply nat_ascii_embedding. lia. Qed.

Lemma is_digit_digit_char d : 0 <= d < 10 -> is_digit (digit_char d) = true.
Proof.
  intros H. unfold is_digit. rewrite nat_of_digit_char by done.
  apply andb_true_iff. rewrite !Nat.leb_le. lia.
Qed.

Lemma dec_loop_value f n acc :
  0 <= n < 10 ^ Z.of_nat f -> digits_value (dec_loop f n acc) 0 = digits_value acc n.
Proof.
  revert n acc. induction f as [|f IH]; intros n acc Hn.
  { simpl. replace n with 0 by lia. done. }
  cbn [dec_loop].
  pose proof (Z.mod_pos_bound n 10 ltac:(lia)) as Hm.
  pose proof (Z.div_mod n 10 ltac:(lia)) as Hd.
  assert (Hdig : Z.of_nat (nat_of_ascii (digit_char (n mod 10)) - 48) = n mod 10).
  { rewrite nat_of_digit_char by done. lia. }
  destruct (Z.ltb_spec n 10).
  - cbn [digits_value]. rewrite Hdig. f_equal. rewrite Z.mod_small by lia. lia.
  - rewrite IH.
    + cbn [digits_value]. rewrite Hdig. f_equal. lia.
    + split; [apply Z.div_pos; lia|]. apply Z.div_lt_upper_bound; [lia|].
      rewrite Nat2Z.inj_succ, Z.pow_succ_r in Hn by lia. lia.
Qed.

Lemma dec_loop_digits f n acc :
  0 <= n -> str_forallb is_digit acc = true -> str_forallb is_digit (dec_loop f n acc) = true.
Proof.
  revert n acc. induction f as [|f IH]; intros n acc Hn Hacc; [done|]. cbn [dec_loop].
  assert (Hc : str_forallb is_digit (String (digit_char (n mod 10)) acc) = true).
  { cbn [str_forallb]. rewrite is_digit_digit_char by (apply Z.mod_pos_bound; lia). done. }
  destruct (n <? 10); [done|]. apply IH; [apply Z.div_pos; lia|done].
Qed.

Lemma dec_loop_nonempty f n acc : (0 < f)%nat \/ acc <> EmptyString -> dec_loop f n acc <> EmptyString.
Proof.
  revert n acc. induction f as [|f IH]; intros n acc H; cbn [dec_loop]; [destruct H; [lia|done]|].
  destruct (n <? 10); [done|]. by apply IH; right.
Qed.

Lemma dec_fuel n : 0 <= n -> n < 10 ^ Z.of_nat (S (Z.to_nat (Z.log2 n))).
Proof.
  intros Hn. rewrite Nat2Z.inj_succ, Z2Nat.id by apply Z.log2_nonneg.
  destruct (Z.eq_dec n 0) as [->|]; [done|].
  apply Z.lt_le_trans with (2 ^ Z.succ (Z.log2 n)).
  - apply Z.log2_spec. lia.
  - apply Z.pow_le_mono_l. lia.
Qed.

Lemma parse_dec_dec n : 0 <= n -> parse_dec (dec n) = Some n.
Proof.
  intros Hn. unfold parse_dec, dec.
  assert (Hd := dec_loop_digits (S (Z.to_nat (Z.log2 n))) n EmptyString Hn eq_refl).
  assert (Hv := dec_loop_value _ n EmptyString (conj Hn (dec_fuel n Hn))).
  assert (Hne := dec_loop_nonempty (S (Z.to_nat (Z.log2 n))) n EmptyString ltac:(left; lia)).
  destruct (dec_loop _ _ _) eqn:E; [done|]. by rewrite Hd, Hv.
Qed.

Lemma dec_is_digits n : 0 <= n -> str_forallb is_digit (dec n) = true.
Proof. intros Hn. by apply dec_loop_digits. Qed.

Lemma digits_lack sep s : is_digit sep = false -> str_forallb is_digit s = true -> lacks sep s = true.
Proof.
  intros Hx. apply str_forallb_impl. intros c Hc. case_bool_decide; [|done]. subst c. by rewrite Hx in Hc.
Qed.

Lemma rbind_Ok {E A B} (m : result E A) (k : A -> result E B) b :
  rbind m k = Ok b -> exists a, m = Ok a /\ k a = Ok b.
Proof. destruct m; simpl; [eauto|discriminate]. Qed.

Lemma check_Ok {E} b (e : E) u : check b e = Ok u -> b = true.
Proof. by destruct b. Qed.

Lemma check_Err {E} b (e e' : E) : check b e = Err e' -> b = false /\ e' = e.
Proof. destruct b; simpl; [discriminate|]. by inversion 1. Qed.

Lemma filter_none {A} (p : A -> bool) (l : list A) : (forall x, x ∈ l -> p x = false) -> List.filter p l = [].
Proof.
  intros H. destruct (List.filter p l) as [|x r] eqn:E; [done|].
  assert (Hx : x ∈ List.filter p l) by (rewrite E; left). apply list_filter_elem in Hx as [Hx Hp]. by rewrite H in Hp.
Qed.

#[export] Instance filter_permutation {A} (p : A -> bool) : Proper (Permutation ==> Permutation) (List.filter p).
Proof.
  induction 1 as [|x l l' _ IH|x y l|l1 l2 l3 _ IH1 _ IH2]; cbn; [done|by destruct (p x); rewrite IH| |by rewrite IH1].
  destruct (p x), (p y); try done. apply Permutation_swap.
Qed.

Lemma filter_fst_sub {A} (p : nat * A -> bool) (l : list (nat * A)) k : k ∈ (List.filter p l).*1 -> k ∈ l.*1.
Proof. intros (r & -> & [H _]%list_filter_elem)%list_elem_of_fmap. by apply list_elem_of_fmap_2. Qed.

Lemma alter_present `{Countable K} {A} (f : A -> A) (k : K) (m : gmap K A) x : m !! k = Some x -> alter f k m = <[k := f x]> m.
Proof.
  intros Hx. apply map_eq. intros j. destruct (decide (j = k)) as [->|Hj].
  - by rewrite lookup_alter_eq, lookup_insert_eq, Hx.
  - by rewrite lookup_alter_ne, lookup_insert_ne.
Qed.

(** Peel the guards of a successful computation. *)
Ltac result_ok H :=
  repeat match type of H with
  | rbind _ _ = Ok _ =>
      let a := fresh "a" in let Ha := fresh "Hg" in
      apply rbind_Ok in H as (a & Ha & H)
  end;
  repeat match goal with
  | G : check _ _ = Ok _ |- _ => apply check_Ok in G
  end.

Create HintDb bl4ck.
#[export] Hint Resolve sql_update_lookup_Some sql_update_lookup_None : bl4ck.

Create Rewrite HintDb bl4ck_rw.
#[export] Hint Rewrite @lookup_sql_update @count_if_app @count_if_cons : bl4ck_rw.
