(* ===== verification/Json.v ===== *)
(** * JSON values and the canonical form an approval is bound to

    packages/shared/src/canonicalize/index.ts: [sortValue],
    [canonicalizeArguments] and [computeArgumentDigest]. The file models the
    JavaScript values the canonicaliser walks, the property order of ordinary
    objects, the assignment [out[key] = v] and [JSON.stringify]. SHA-256 is not
    modelled: the digest is a parameter of the results that mention it.

    Theorems: the canonical form does not depend on the order in which the
    members of an object were written, at any depth; and it ignores a member
    named [__proto__]. *)

From stdpp Require Import base strings list sorting.
From Stdlib Require Import ZArith Lia Ascii.
From S2P Require Import Prelude.

Set Warnings "-register-all".

(** ** Values *)

(** A value of type [unknown] as the canonicaliser can meet it. A finite number
    is represented by the text [Number.prototype.toString] gives it; [JOther]
    stands for a function, a symbol or a bigint. An object is the list of its
    own members in own-property order; cyclic structures have no representation
    here. *)
Inductive json : Type :=
| JUndef
| JNull
| JBool (b : bool)
| JNum (text : string)
| JStr (s : string)
| JArr (items : list json)
| JObj (members : list (string * json))
| JOther.

Section json_induction.
Variable P : json -> Prop.
Hypothesis HUndef : P JUndef.
Hypothesis HNull : P JNull.
Hypothesis HBool : forall b, P (JBool b).
Hypothesis HNum : forall t, P (JNum t).
Hypothesis HStr : forall s, P (JStr s).
Hypothesis HArr : forall l, Forall P l -> P (JArr l).
Hypothesis HObj : forall l, Forall (fun kv => P kv.2) l -> P (JObj l).
Hypothesis HOther : P JOther.

Fixpoint json_ind' (j : json) : P j :=
  match j with
  | JUndef => HUndef
  | JNull => HNull
  | JBool b => HBool b
  | JNum t => HNum t
  | JStr s => HStr s
  | JArr l => HArr l ((fix go (l : list json) : Forall P l :=
      match l with
      | [] => Forall_nil_2 _
      | x :: l' => Forall_cons_2 _ _ _ (json_ind' x) (go l')
      end) l)
  | JObj l => HObj l ((fix go (l : list (string * json)) : Forall (fun kv => P kv.2) l :=
      match l with
      | [] => Forall_nil_2 _
      | x :: l' => Forall_cons_2 _ _ _ (json_ind' x.2) (go l')
      end) l)
  | JOther => HOther
  end.
End json_induction.

(** [input.action], [result.userId], ...: the value of a member. *)
Fixpoint json_get (k : string) (l : list (string * json)) : json :=
  match l with
  | [] => JUndef
  | (k', v) :: l' => if bool_decide (k' = k) then v else json_get k l'
  end.

(** [Boolean(v)] *)
Definition js_truthy (v : json) : bool :=
  match v with
  | JUndef | JNull => false
  | JBool b => b
  | JNum t => negb (bool_decide (t = "0") || bool_decide (t = "NaN"))
  | JStr s => negb (bool_decide (s = ""))
  | JArr _ | JObj _ | JOther => true
  end.

(** [String(v)], also the property key a value is converted to. [JOther] has no
    one text: the model uses a placeholder. *)
Fixpoint js_String (v : json) : string :=
  match v with
  | JUndef => "undefined"
  | JNull => "null"
  | JBool b => if b then "true" else "false"
  | JNum t => t
  | JStr s => s
  | JArr l => str_join "," (map (fun x => match x with JUndef | JNull => EmptyString
                                                     | _ => js_String x end) l)
  | JObj _ => "[object Object]"
  | JOther => "[function]"
  end.

(** ** Ordinary objects *)

(** A key that is an array index: its members come first, in numeric order,
    whatever the order of insertion (OrdinaryOwnPropertyKeys). *)
Definition array_index (k : string) : option Z :=
  match k with
  | EmptyString => None
  | String c rest =>
      if str_forallb is_digit k
         && (bool_decide (c <> "0"%char) || bool_decide (rest = EmptyString))
         && (digits_value k 0 <? 4294967295)
      then Some (digits_value k 0) else None
  end.

(** The code-unit order of [Array.prototype.sort] on strings. *)
Fixpoint str_leb (a b : string) : bool :=
  match a, b with
  | EmptyString, _ => true
  | String _ _, EmptyString => false
  | String x a', String y b' =>
      if bool_decide (x = y) then str_leb a' b'
      else (N_of_ascii x <? N_of_ascii y)%N
  end.

Definition key_le (x y : string * json) : Prop := str_leb x.1 y.1 = true.
Definition index_le (x y : string * json) : Prop :=
  match array_index x.1, array_index y.1 with
  | Some a, Some b => a <= b
  | Some _, None => True
  | None, Some _ => False
  | None, None => True
  end.

#[export] Instance key_le_dec : RelDecision key_le.
Proof. intros x y. unfold key_le. apply _. Defined.

#[export] Instance index_le_dec : RelDecision index_le.
Proof. intros x y. unfold index_le. destruct (array_index x.1), (array_index y.1); apply _. Defined.

Definition is_index (kv : string * json) : bool :=
  match array_index kv.1 with Some _ => true | None => false end.

(** The own members in the order [Object.keys] and [JSON.stringify] visit them. *)
Definition own_order (l : list (string * json)) : list (string * json) :=
  merge_sort index_le (List.filter is_index l) ++ List.filter (fun kv => negb (is_index kv)) l.

(** [out[key] = v] on an ordinary object. The key [__proto__] reaches the
    inherited accessor, which replaces the prototype or does nothing: it never
    creates a member. *)
Fixpoint assign_prop (k : string) (v : json) (out : list (string * json)) : list (string * json) :=
  match out with
  | [] => [(k, v)]
  | (k', v') :: out' =>
      if bool_decide (k' = k) then (k, v) :: out' else (k', v') :: assign_prop k v out'
  end.

Definition set_prop (out : list (string * json)) (kv : string * json) : list (string * json) :=
  if bool_decide (kv.1 = "__proto__") then out else assign_prop kv.1 kv.2 out.

Definition is_undef (j : json) : bool := match j with JUndef => true | _ => false end.

(** ** [sortValue] *)

(** The recursion of [sortValue]: primitives unchanged, arrays item by item, an
    object rebuilt by assigning its defined members in key order. *)
Fixpoint sortValue (v : json) : json :=
  match v with
  | JArr l => JArr (map sortValue l)
  | JObj l =>
      let members := map (fun kv => (kv.1, sortValue kv.2)) l in
      let defined := List.filter (fun kv => negb (is_undef kv.2)) members in
      JObj (own_order (fold_left set_prop (merge_sort key_le defined) []))
  | _ => v
  end.

(** [true] when no function, symbol or bigint occurs: otherwise [sortValue]
    throws a [TypeError]. *)
Fixpoint serializable (v : json) : bool :=
  match v with
  | JOther => false
  | JArr l => forallb serializable l
  | JObj l => forallb (fun kv => serializable kv.2) l
  | _ => true
  end.

(** ** [JSON.stringify] *)

Definition hex_digit (n : nat) : ascii :=
  ascii_of_nat (if (n <? 10)%nat then 48 + n else 87 + n).

Definition quote_char : ascii := ascii_of_nat 34.
Definition backslash : ascii := ascii_of_nat 92.

Definition escape_char (c : ascii) : string :=
  let n := nat_of_ascii c in
  if (n =? 34)%nat then String backslash (String quote_char EmptyString)
  else if (n =? 92)%nat then String backslash (String backslash EmptyString)
  else if (n =? 8)%nat then String backslash "b"
  else if (n =? 9)%nat then String backslash "t"
  else if (n =? 10)%nat then String backslash "n"
  else if (n =? 12)%nat then String backslash "f"
  else if (n =? 13)%nat then String backslash "r"
  else if (n <? 32)%nat then
    String backslash ("u00" ++ String (hex_digit (n / 16)) (String (hex_digit (n mod 16)) EmptyString))
  else String c EmptyString.

Fixpoint escape (s : string) : string :=
  match s with
  | EmptyString => EmptyString
  | String c s' => (escape_char c ++ escape s')%string
  end.

Definition quote (s : string) : string :=
  String quote_char (escape s ++ String quote_char EmptyString)%string.

Fixpoint stringify (v : json) : string :=
  match v with
  | JUndef | JNull | JOther => "null"
  | JBool true => "true"
  | JBool false => "false"
  | JNum t => t
  | JStr s => quote s
  | JArr l => ("[" ++ str_join "," (map stringify l) ++ "]")%string
  | JObj l =>
      let members := map (fun kv => if is_undef kv.2 then []
                                    else [(quote kv.1 ++ ":" ++ stringify kv.2)%string]) l in
      ("{" ++ str_join "," (concat members) ++ "}")%string
  end.

Inductive CanonError : Type := NotSerializable.

(** [canonicalizeArguments(input)] *)
Definition canonicalizeArguments (input : list (string * json)) : result CanonError string :=
  if serializable (JObj input) then Ok (stringify (sortValue (JObj input)))
  else Err NotSerializable.

(** Members with distinct keys, at every depth: what [JSON.parse] yields. *)
Inductive wf_json : json -> Prop :=
| wf_undef : wf_json JUndef
| wf_null : wf_json JNull
| wf_bool b : wf_json (JBool b)
| wf_num t : wf_json (JNum t)
| wf_str s : wf_json (JStr s)
| wf_arr l : Forall wf_json l -> wf_json (JArr l)
| wf_obj l : NoDup l.*1 -> Forall (fun kv => wf_json kv.2) l -> wf_json (JObj l)
| wf_other : wf_json JOther.

(** Equal up to the order of object members, at every depth. *)
Inductive json_equiv : json -> json -> Prop :=
| eq_undef : json_equiv JUndef JUndef
| eq_null : json_equiv JNull JNull
| eq_bool b : json_equiv (JBool b) (JBool b)
| eq_num t : json_equiv (JNum t) (JNum t)
| eq_str s : json_equiv (JStr s) (JStr s)
| eq_arr l l' : Forall2 json_equiv l l' -> json_equiv (JArr l) (JArr l')
| eq_obj l m l' :
    l ≡ₚ m ->
    Forall2 (fun x y => x.1 = y.1 /\ json_equiv x.2 y.2) m l' ->
    json_equiv (JObj l) (JObj l')
| eq_other : json_equiv JOther JOther.

(** ** The key order *)

Lemma str_leb_cons x a y b :
  str_leb (String x a) (String y b) = true <->
  (x = y /\ str_leb a b = true) \/ (x <> y /\ (N_of_ascii x < N_of_ascii y)%N).
Proof.
  cbn [str_leb]. case_bool_decide; rewrite ?N.ltb_lt; tauto.
Qed.

Lemma N_of_ascii_inj x y : N_of_ascii x = N_of_ascii y -> x = y.
Proof. intros E%(f_equal ascii_of_N). by rewrite !ascii_N_embedding in E. Qed.

Lemma str_leb_total a b : str_leb a b = true \/ str_leb b a = true.
Proof.
  revert b. induction a as [|x a IH]; intros [|y b]; auto.
  rewrite !str_leb_cons. destruct (decide (x = y)) as [->|Hne].
  - destruct (IH b); auto.
  - destruct (N.lt_total (N_of_ascii x) (N_of_ascii y)) as [?|[E|?]]; auto.
    by apply N_of_ascii_inj in E.
Qed.

Lemma str_leb_antisymm a b : str_leb a b = true -> str_leb b a = true -> a = b.
Proof.
  revert b. induction a as [|x a IH]; intros [|y b]; try done.
  rewrite !str_leb_cons. intros [[-> H1]|[? ?]] [[? H2]|[? ?]]; try done.
  - f_equal. auto.
  - lia.
Qed.

Lemma str_leb_trans a b c : str_leb a b = true -> str_leb b c = true -> str_leb a c = true.
Proof.
  revert b c. induction a as [|x a IH]; intros [|y b] [|z c]; try done.
  rewrite !str_leb_cons. intros [[-> H1]|[? ?]] [[-> H2]|[? ?]]; eauto.
  right. split; [|lia]. intros ->. lia.
Qed.

#[export] Instance key_le_trans : Transitive key_le.
Proof. intros x y z. apply str_leb_trans. Qed.

#[export] Instance key_le_total : Total key_le.
Proof. intros x y. apply str_leb_total. Qed.

(** ** Lists with distinct keys *)

Lemma distinct_keys_eq (l : list (string * json)) x y :
  NoDup l.*1 -> x ∈ l -> y ∈ l -> x.1 = y.1 -> x = y.
Proof.
  induction l as [|[k v] l IH]; intros Hnd Hx Hy E; [by apply not_elem_of_nil in Hx|].
  inversion Hnd as [|? ? Hk Hnd']; subst.
  assert (Hin : forall z, z ∈ l -> z.1 <> k).
  { intros z Hz <-. apply Hk. by apply list_elem_of_fmap_2. }
  apply elem_of_cons in Hx as [->|Hx], Hy as [->|Hy]; auto.
  - by destruct (Hin y Hy).
  - by destruct (Hin x Hx).
Qed.

Lemma sorted_distinct_unique l1 l2 :
  NoDup l1.*1 -> Sorted key_le l1 -> Sorted key_le l2 -> l1 ≡ₚ l2 -> l1 = l2.
Proof.
  intros Hnd H1 H2 Hp.
  apply (Sorted_unique_strong key_le); try done.
  intros x y Hx Hy Hxy Hyx. apply (distinct_keys_eq l1); try done.
  - by rewrite Hp.
  - by apply str_leb_antisymm.
Qed.

Lemma merge_sort_distinct l1 l2 :
  NoDup l1.*1 -> l1 ≡ₚ l2 -> merge_sort key_le l1 = merge_sort key_le l2.
Proof.
  intros Hnd Hp. apply sorted_distinct_unique.
  - by rewrite (merge_sort_Permutation key_le l1).
  - apply (Sorted_merge_sort key_le).
  - apply (Sorted_merge_sort key_le).
  - by rewrite !merge_sort_Permutation.
Qed.

Lemma filter_keys_NoDup (p : string * json -> bool) l :
  NoDup l.*1 -> NoDup (List.filter p l).*1.
Proof.
  induction l as [|[k v] l IH]; simpl; [done|]. intros Hnd. inversion Hnd; subst.
  destruct (p (k, v)); simpl; [|auto]. apply NoDup_cons. split; [|auto].
  rewrite list_elem_of_fmap. intros ([k' v'] & -> & Hin%list_filter_elem).
  destruct Hin as [Hin _]. apply H1. by apply (list_elem_of_fmap_2 fst _ (_, v')) in Hin.
Qed.

Lemma filter_perm {A} (p : A -> bool) l l' : l ≡ₚ l' -> List.filter p l ≡ₚ List.filter p l'.
Proof.
  induction 1; simpl; repeat case_match; auto using perm_swap.
  by etrans.
Qed.

Lemma sorted_members_keys (l : list (string * json)) :
  (map (fun kv => (kv.1, sortValue kv.2)) l).*1 = l.*1.
Proof. induction l as [|[k v] l IH]; [done|]. exact (f_equal (cons k) IH). Qed.

(** ** Key order does not matter *)

Lemma sortValue_equiv a b : wf_json a -> json_equiv a b -> sortValue a = sortValue b.
Proof.
  revert b. induction a as [| |b0|t0|s0|l IH|l IH|] using json_ind';
    intros b Hwf Heq; inversion Heq as [| | | | |? l' Hall|? m l' Hperm Hall|]; subst; try done.
  - inversion Hwf as [| | | | |? Hwf'| |]; subst. simpl. f_equal.
    clear Heq Hwf. induction Hall as [|x y l l' Hxy Hall IHl]; [done|].
    inversion IH; inversion Hwf'; subst. simpl. f_equal; auto.
  - inversion Hwf as [| | | | | |? Hnd Hwf'|]; subst. simpl. do 3 f_equal.
    assert (Hm : map (fun kv => (kv.1, sortValue kv.2)) m
                 = map (fun kv => (kv.1, sortValue kv.2)) l').
    { rewrite Hperm in IH, Hwf'. clear Heq Hwf Hnd Hperm.
      induction Hall as [|[k v] [k' v'] m l' [Hk Hv] Hall IHl]; [done|].
      inversion IH; inversion Hwf'; simpl in *; subst. f_equal; [f_equal|]; auto. }
    apply merge_sort_distinct.
    + apply filter_keys_NoDup. by rewrite sorted_members_keys.
    + apply filter_perm. rewrite <- Hm. by apply Permutation_map.
Qed.

Lemma serializable_equiv a b : json_equiv a b -> serializable a = serializable b.
Proof.
  revert b. induction a as [| |b0|t0|s0|l IH|l IH|] using json_ind';
    intros b Heq; inversion Heq as [| | | | |? l' Hall|? m l' Hperm Hall|]; subst; try done; simpl.
  - clear Heq. induction Hall as [|x y l l' Hxy Hall IHl]; [done|].
    inversion IH; subst. simpl. f_equal; auto.
  - trans (forallb (fun kv : string * json => serializable kv.2) m).
    + apply eq_iff_eq_true. rewrite !forallb_forall. setoid_rewrite <- list_elem_of_In.
      split; intros Hf x Hx; apply Hf; [by rewrite Hperm|by rewrite <- Hperm].
    + rewrite Hperm in IH. clear Heq Hperm.
      induction Hall as [|x y m l' [Hk Hv] Hall IHl]; [done|].
      inversion IH; subst. simpl. f_equal; auto.
Qed.

(** The canonical form of an argument object is the same for every order in
    which its members, and those of the objects inside it, were written. *)
Lemma canonicalize_key_order (a b : list (string * json)) :
  wf_json (JObj a) -> json_equiv (JObj a) (JObj b) ->
  canonicalizeArguments a = canonicalizeArguments b.
Proof.
  intros Hwf Heq. unfold canonicalizeArguments.
  by rewrite (serializable_equiv _ _ Heq), (sortValue_equiv _ _ Hwf Heq).
Qed.

(** ** The member [__proto__] is not bound *)

Lemma fold_set_prop_filter l acc :
  fold_left set_prop l acc =
  fold_left set_prop (List.filter (fun kv => negb (bool_decide (kv.1 = "__proto__"))) l) acc.
Proof.
  revert acc. induction l as [|kv l IH]; intros acc; simpl; [done|].
  unfold set_prop at 2. case_bool_decide as Hp; simpl; rewrite <- IH; [done|].
  unfold set_prop at 3. by rewrite bool_decide_eq_false_2.
Qed.

Lemma Sorted_filter {A} (R : relation A) `{!Transitive R} (p : A -> bool) l :
  Sorted R l -> Sorted R (List.filter p l).
Proof.
  intros H%Sorted_StronglySorted; [|done]. apply StronglySorted_Sorted.
  induction H as [|x l Hs IH Hf]; simpl; [constructor|].
  case_match; [|done]. constructor; [done|].
  apply Forall_forall. intros y [Hy _]%list_filter_elem. by apply (Forall_forall (R x) l).
Qed.

Lemma sortValue_proto l1 v l2 :
  NoDup (l1 ++ l2).*1 ->
  sortValue (JObj (l1 ++ ("__proto__", v) :: l2)) = sortValue (JObj (l1 ++ l2)).
Proof.
  intros Hnd. cbn [sortValue]. f_equal. f_equal.
  rewrite (fold_set_prop_filter (merge_sort _ _)), (fold_set_prop_filter (merge_sort _ (List.filter _ (map _ (l1 ++ l2))))).
  f_equal. set (np := fun kv : string * json => negb (bool_decide (kv.1 = "__proto__"))).
  set (df := fun kv : string * json => negb (is_undef kv.2)).
  set (sv := fun kv : string * json => (kv.1, sortValue kv.2)).
  assert (Heq : List.filter np (List.filter df (map sv (l1 ++ ("__proto__", v) :: l2)))
                = List.filter np (List.filter df (map sv (l1 ++ l2)))).
  { rewrite !map_app, !List.filter_app. f_equal. cbn [map List.filter].
    by destruct (df (sv ("__proto__", v))). }
  apply sorted_distinct_unique.
  - rewrite (filter_perm np _ _ (merge_sort_Permutation key_le _)), Heq.
    apply filter_keys_NoDup, filter_keys_NoDup. by rewrite sorted_members_keys.
  - apply Sorted_filter; [apply _|]. apply (Sorted_merge_sort key_le).
  - apply Sorted_filter; [apply _|]. apply (Sorted_merge_sort key_le).
  - by rewrite !(filter_perm np _ _ (merge_sort_Permutation key_le _)), Heq.
Qed.

(** An own member named [__proto__] leaves no trace in the canonical form, so
    two argument objects that differ in it get the same digest. *)
Lemma canonicalize_ignores_proto l1 v l2 :
  NoDup (l1 ++ l2).*1 -> serializable v = true ->
  canonicalizeArguments (l1 ++ ("__proto__", v) :: l2) = canonicalizeArguments (l1 ++ l2).
Proof.
  intros Hnd Hs. unfold canonicalizeArguments. rewrite sortValue_proto by done.
  cbn [serializable]. by rewrite !forallb_app; cbn [forallb snd]; rewrite Hs.
Qed.

(** ** Witnesses *)

Lemma canonicalize_key_order_witness :
  canonicalizeArguments [("b", JNum "1"); ("a", JObj [("y", JNull); ("x", JStr "q")])]
  = canonicalizeArguments [("a", JObj [("x", JStr "q"); ("y", JNull)]); ("b", JNum "1")].
Proof.
  apply canonicalize_key_order.
  - constructor; [by apply (bool_decide_unpack _)|].
    repeat constructor; by apply (bool_decide_unpack _).
  - apply eq_obj with (m := [("a", JObj [("y", JNull); ("x", JStr "q")]); ("b", JNum "1")]);
      [apply perm_swap|].
    repeat constructor. apply eq_obj with (m := [("x", JStr "q"); ("y", JNull)]); [apply perm_swap|].
    repeat constructor.
Defined.

Lemma canonicalize_ignores_proto_witness :
  canonicalizeArguments [("user", JStr "u1"); ("__proto__", JObj [("force", JBool true)])]
  = canonicalizeArguments [("user", JStr "u1")].
Proof.
  apply (canonicalize_ignores_proto [("user", JStr "u1")] (JObj [("force", JBool true)]) []);
    [by apply (bool_decide_unpack _)|done].
Defined.
