(* ===== verification/PamGlob.v ===== *)
(** * Path globs of privileged-access rules

    [matchPathGlob] of services/pamBridge.ts: the tokenizer and the dynamic
    program over (token, text position), against an independent definition of
    the glob language on the characters of the pattern. *)

From stdpp Require Import base gmap strings list option sets.
From Stdlib Require Import ZArith Lia Ascii.
From S2P Require Import Prelude.

Definition star : ascii := "*"%char.
Definition slash : ascii := "/"%char.

(** [s.replace(/\\/g, '/').toLowerCase()] *)
Definition norm_char (c : ascii) : ascii :=
  ascii_lower (if bool_decide (c = "\"%char) then slash else c).

Definition norm (s : string) : list ascii := norm_char <$> String.list_ascii_of_string s.

Inductive Tok : Type :=
| Star (crossesSlash : bool)
| Lit (ch : ascii).

(** The token of a run of [count] stars, none when there is no run. *)
Definition flush (count : nat) : list Tok :=
  match count with
  | O => []
  | S O => [Star false]
  | S (S _) => [Star true]
  end.

(** The tokenizer; [count] is the length of the run of stars being read. *)
Fixpoint tokenize (count : nat) (g : list ascii) : list Tok :=
  match g with
  | [] => flush count
  | c :: g' => if bool_decide (c = star) then tokenize (S count) g'
               else flush count ++ Lit c :: tokenize 0 g'
  end.

(** A row of the table: entry [ti] says whether the remaining tokens match
    [t[ti..]]; its length is one more than the text's. *)
Definition at0 (row : list bool) : bool := match row with b :: _ => b | [] => false end.

Fixpoint last_row (t : list ascii) : list bool :=
  match t with [] => [true] | _ :: t' => false :: last_row t' end.

(** [next] of a star token, filled from the end of the text. *)
Fixpoint star_row (crossesSlash : bool) (t : list ascii) (dp : list bool) : list bool :=
  match t with
  | [] => [at0 dp]
  | c :: t' =>
      let next := star_row crossesSlash t' (tail dp) in
      (at0 dp || ((crossesSlash || negb (bool_decide (c = slash))) && at0 next)) :: next
  end.

(** [next] of a literal token. *)
Fixpoint lit_row (ch : ascii) (t : list ascii) (dp : list bool) : list bool :=
  match t with
  | [] => [false]
  | c :: t' => (bool_decide (ch = c) && at0 (tail dp)) :: lit_row ch t' (tail dp)
  end.

Definition step_row (t : list ascii) (tok : Tok) (dp : list bool) : list bool :=
  match tok with
  | Star crossesSlash => star_row crossesSlash t dp
  | Lit ch => lit_row ch t dp
  end.

Definition table (toks : list Tok) (t : list ascii) : list bool :=
  foldr (step_row t) (last_row t) toks.

Definition matchPathGlob (glob path : string) : bool :=
  at0 (table (tokenize 0 (norm glob)) (norm path)).

(** ** The glob language *)

(** What a pattern matches, character by character: a lone star stands for any
    text inside one path segment, a run of two or more for any text at all, and
    every other character for itself. *)
Inductive glob_matches : list ascii -> list ascii -> Prop :=
| glob_end : glob_matches [] []
| glob_char c g t : c <> star -> glob_matches g t -> glob_matches (c :: g) (c :: t)
| glob_run n g u t :
    head g <> Some star -> (n = 0%nat -> slash ∉ u) ->
    glob_matches g t -> glob_matches (replicate (S n) star ++ g) (u ++ t).

(** The same for tokens. *)
Inductive toks_match : list Tok -> list ascii -> Prop :=
| toks_end : toks_match [] []
| toks_lit c ks t : toks_match ks t -> toks_match (Lit c :: ks) (c :: t)
| toks_star x ks u t : (x = false -> slash ∉ u) -> toks_match ks t -> toks_match (Star x :: ks) (u ++ t).

(** ** The table computes matching of suffixes *)

Fixpoint suffixes (t : list ascii) : list (list ascii) :=
  t :: match t with [] => [] | _ :: t' => suffixes t' end.

(** [row] answers [toks_match ks] on every suffix of [t]. *)
Definition row_ok (ks : list Tok) (t : list ascii) (row : list bool) : Prop :=
  Forall2 (fun b s => b = true <-> toks_match ks s) row (suffixes t).

Lemma row_ok_inv ks t row :
  row_ok ks t row ->
  (at0 row = true <-> toks_match ks t) /\
  match t with [] => True | _ :: t' => row_ok ks t' (tail row) end.
Proof. unfold row_ok. intros H. destruct t; inversion H; subst; simpl; auto. Qed.

Lemma row_ok_nil ks (b : bool) : (b = true <-> toks_match ks []) -> row_ok ks [] [b].
Proof. intros H. repeat constructor; apply H. Qed.

Lemma row_ok_cons ks c t (b : bool) row :
  (b = true <-> toks_match ks (c :: t)) -> row_ok ks t row -> row_ok ks (c :: t) (b :: row).
Proof. intros Hb Hr. constructor; done. Qed.

Lemma last_row_ok t : row_ok [] t (last_row t).
Proof.
  induction t as [|c t IH]; simpl.
  - apply row_ok_nil. split; [intros _; constructor|done].
  - apply row_ok_cons; [|done]. split; [done|inversion 1].
Qed.

Lemma lit_row_ok ch ks t dp : row_ok ks t dp -> row_ok (Lit ch :: ks) t (lit_row ch t dp).
Proof.
  revert dp. induction t as [|c t IH]; intros dp (_ & H)%row_ok_inv; cbn [lit_row].
  - apply row_ok_nil. split; [done|inversion 1].
  - apply row_ok_cons; [|by apply IH]. apply row_ok_inv in H as [H _].
    rewrite andb_true_iff, bool_decide_eq_true, H. split.
    + intros [-> ?]. by constructor.
    + by inversion 1; subst.
Qed.

(** A star at a position: it matches nothing here, or absorbs one character. *)
Lemma toks_star_nil x ks : toks_match (Star x :: ks) [] <-> toks_match ks [].
Proof.
  split; [|intros H; apply (toks_star x ks [] []); [set_solver|done]].
  inversion 1 as [| |y k u t Hu Hm E1 E2]; subst. by apply app_eq_nil in E2 as [-> ->].
Qed.

Lemma toks_star_cons x ks c t :
  toks_match (Star x :: ks) (c :: t) <->
  toks_match ks (c :: t) \/ (x = true \/ c <> slash) /\ toks_match (Star x :: ks) t.
Proof.
  split.
  - inversion 1 as [| |y k u s Hu Hm E1 E2]; subst. destruct u as [|d u]; simpl in E2; simplify_eq.
    + by left.
    + right. split.
      * destruct x; [by left|right]. specialize (Hu eq_refl). set_solver.
      * constructor; [|done]. intros ->. specialize (Hu eq_refl). set_solver.
  - intros [H|[Hx H]]; [apply (toks_star x ks [] (c :: t)); [set_solver|done]|].
    inversion H as [| |y k u s Hu Hm E1 E2]; subst.
    apply (toks_star x ks (c :: u) s); [|done]. intros ->. specialize (Hu eq_refl).
    destruct Hx; [done|set_solver].
Qed.

Lemma star_row_ok x ks t dp : row_ok ks t dp -> row_ok (Star x :: ks) t (star_row x t dp).
Proof.
  revert dp. induction t as [|c t IH]; intros dp (Hh & H)%row_ok_inv; cbn [star_row].
  - apply row_ok_nil. by rewrite toks_star_nil.
  - apply IH in H. apply row_ok_cons; [|done]. apply row_ok_inv in H as [Ht _].
    by rewrite toks_star_cons, orb_true_iff, andb_true_iff, orb_true_iff, negb_true_iff,
      bool_decide_eq_false, Hh, Ht.
Qed.

Lemma table_ok ks t : row_ok ks t (table ks t).
Proof.
  induction ks as [|[x|c] ks IH]; simpl;
    [apply last_row_ok|by apply star_row_ok|by apply lit_row_ok].
Qed.

(** ** The tokenizer *)

Lemma tokenize_run n g :
  head g <> Some star -> tokenize 0 (replicate n star ++ g) = flush n ++ tokenize 0 g.
Proof.
  assert (Hrun : forall m k, tokenize k (replicate m star ++ g) = tokenize (m + k) g).
  { induction m as [|m IH]; intros k; [done|]. cbn. rewrite IH. f_equal. lia. }
  intros Hg. rewrite Hrun, Nat.add_0_r. destruct g as [|c g]; simpl; [by rewrite app_nil_r|].
  rewrite bool_decide_eq_false_2; [done|]. intros ->. by apply Hg.
Qed.

Lemma tokenize_lit c g : c <> star -> tokenize 0 (c :: g) = Lit c :: tokenize 0 g.
Proof. intros H. simpl. by rewrite bool_decide_eq_false_2. Qed.

(** Every pattern is a literal followed by a pattern, or a maximal run. *)
Lemma split_run g : exists n g', g = replicate n star ++ g' /\ head g' <> Some star.
Proof.
  induction g as [|c g (n & g' & -> & Hg)]; [by exists 0%nat, []|].
  destruct (decide (c = star)) as [->|Hc].
  - by exists (S n), g'.
  - exists 0%nat, (c :: replicate n star ++ g'). split; [done|]. simpl. congruence.
Qed.

Lemma flush_run n ks t :
  toks_match (flush (S n) ++ ks) t <-> exists u s, t = u ++ s /\ (n = 0%nat -> slash ∉ u) /\ toks_match ks s.
Proof.
  destruct n as [|n]; simpl; (split;
    [inversion 1; subst; eexists _, _; split; [done|]; naive_solver
    |intros (u & s & -> & Hu & Hm); constructor; [|done]; naive_solver]).
Qed.

Lemma tokenize_sound g t : glob_matches g t -> toks_match (tokenize 0 g) t.
Proof.
  induction 1 as [|c g t Hc _ IH|n g u t Hg Hu _ IH].
  - constructor.
  - rewrite tokenize_lit by done. by constructor.
  - rewrite tokenize_run by done. apply flush_run. eauto.
Qed.

Lemma tokenize_complete g t : toks_match (tokenize 0 g) t -> glob_matches g t.
Proof.
  remember (length g) as n eqn:Hn. revert g t Hn. induction (lt_wf n) as [n _ IH]. intros g t -> Hm.
  destruct (split_run g) as ([|k] & g' & -> & Hg).
  - destruct g' as [|c g']; simpl in Hm; [inversion Hm; constructor|].
    rewrite bool_decide_eq_false_2 in Hm by (intros ->; by apply Hg). inversion Hm; subst.
    constructor; [intros ->; by apply Hg|]. apply (IH (length g')); [simpl; lia|done..].
  - rewrite tokenize_run in Hm by done. apply flush_run in Hm as (u & s & -> & Hu & Hm).
    apply glob_run; [done..|]. apply (IH (length g')); [|done..].
    rewrite length_app, length_replicate. lia.
Qed.

(** ** The matcher *)

(** C30: The dynamic program decides the glob language: for every pattern and
    every path, after both are lower-cased and their backslashes read as
    slashes, the matcher answers yes exactly when the pattern matches the whole
    path. *)
Theorem glob_matcher_is_exact glob path :
  matchPathGlob glob path = true <-> glob_matches (norm glob) (norm path).
Proof.
  unfold matchPathGlob. destruct (row_ok_inv _ _ _ (table_ok (tokenize 0 (norm glob)) (norm path))) as [-> _].
  split; [apply tokenize_complete|apply tokenize_sound].
Qed.

(** The work is one row per token, each one entry longer than the path: no
    pattern makes it grow faster than |glob| * (|path| + 1). *)
Lemma star_row_length x t dp : length (star_row x t dp) = S (length t).
Proof. revert dp. induction t as [|c t IH]; intros dp; simpl; [done|by rewrite IH]. Qed.

Lemma lit_row_length ch t dp : length (lit_row ch t dp) = S (length t).
Proof. revert dp. induction t as [|c t IH]; intros dp; simpl; [done|by rewrite IH]. Qed.

Lemma tokenize_length k g : (length (tokenize k g) <= length g + k)%nat.
Proof.
  revert k. assert (Hf : forall k, (length (flush k) <= k)%nat) by (intros [|[|k]]; simpl; lia).
  induction g as [|c g IH]; intros k; simpl; [apply Hf|].
  case_bool_decide; [specialize (IH (S k)); lia|].
  rewrite length_app. simpl. specialize (IH 0%nat). specialize (Hf k). lia.
Qed.

Lemma literal_glob_is_equality glob path :
  star ∉ norm glob -> matchPathGlob glob path = true <-> norm path = norm glob.
Proof.
  intros Hs. destruct (row_ok_inv _ _ _ (table_ok (tokenize 0 (norm glob)) (norm path))) as [H _].
  unfold matchPathGlob. rewrite H. clear H. revert Hs. generalize (norm path).
  induction (norm glob) as [|c g IH]; intros t Hs; simpl.
  - split; [by inversion 1|intros ->; constructor].
  - rewrite bool_decide_eq_false_2 by set_solver. simpl. split.
    + inversion 1; subst. f_equal. apply IH; [set_solver|done].
    + intros ->. constructor. apply IH; [set_solver|done].
Qed.
