(* ===== verification/PamRules.v ===== *)
(** * Deciding a privileged-access request

    The software-policy bridge (services/pamBridge.ts, [matchPoliciesAgainst]),
    the rule engine (services/pamRuleEngine.ts), the signer-group normaliser
    (db/schema/pam.ts) and the shape check of the rule routes (routes/pam.ts).
    All of them are pure functions of rows that were already loaded. Reading a
    wall clock in a time zone ([Intl.DateTimeFormat]) is a parameter. *)

From stdpp Require Import base gmap strings list option sorting.
From Stdlib Require Import ZArith Lia Ascii Btauto.
From S2P Require Import Prelude Json PamGlob.

(** ** The software-policy bridge *)

Inductive PolicyMode : Type := allowlist | blocklist | audit.
#[export] Instance PolicyMode_eq_dec : EqDecision PolicyMode.
Proof. solve_decision. Defined.

Inductive MatchedField : Type := f_hash | f_signer | f_publisher | f_path.
#[export] Instance MatchedField_eq_dec : EqDecision MatchedField.
Proof. solve_decision. Defined.

(** [SoftwarePolicyExecutableRule] *)
Record ExecutableRule : Type := {
  er_name : string;
  er_sha256 : option string;
  er_signer : option string;
  er_publisher : option string;
  er_pathGlob : option string;
}.

(** [LoadedPolicy]; the rule array comes from a jsonb column and may hold nulls. *)
Record LoadedPolicy : Type := {
  lp_id : string;
  lp_mode : PolicyMode;
  lp_priority : Z;
  lp_executable : option (list (option ExecutableRule));
}.

Record PamBridgeInput : Type := {
  bi_path : string;
  bi_hash : option string;
  bi_signer : option string;
  bi_publisher : option string;
}.

(** Both sides present and not empty, and equal after [f]. *)
Definition both_eq (f : string -> string) (a b : option string) : bool :=
  truthy a && truthy b && opt_eqb (f <$> a) (f <$> b).

Definition matchRule (input : PamBridgeInput) (rule : ExecutableRule) : option MatchedField :=
  if both_eq toLowerCase (er_sha256 rule) (bi_hash input) then Some f_hash
  else if both_eq (fun s => toLowerCase (trim s)) (er_signer rule) (bi_signer input) then Some f_signer
  else if both_eq (fun s => toLowerCase (trim s)) (er_publisher rule) (bi_publisher input) then Some f_publisher
  else match er_pathGlob rule with
       | Some (String _ _ as glob) =>
           if truthy (Some (bi_path input)) && matchPathGlob glob (bi_path input) then Some f_path else None
       | _ => None
       end.

Definition FIELD_PRECEDENCE (f : MatchedField) : Z :=
  match f with f_hash => 0 | f_signer => 1 | f_publisher => 2 | f_path => 3 end.

Record Hit : Type := {
  hit_policy : LoadedPolicy;
  hit_ruleIndex : nat;
  hit_rule : ExecutableRule;
  hit_field : MatchedField;
}.

Fixpoint ruleHits (input : PamBridgeInput) (policy : LoadedPolicy) (i : nat)
    (rules : list (option ExecutableRule)) : list Hit :=
  match rules with
  | [] => []
  | None :: rs => ruleHits input policy (S i) rs
  | Some rule :: rs =>
      match matchRule input rule with
      | None => ruleHits input policy (S i) rs
      | Some field => {| hit_policy := policy; hit_ruleIndex := i; hit_rule := rule; hit_field := field |}
                      :: ruleHits input policy (S i) rs
      end
  end.

Definition policyHits (input : PamBridgeInput) (policy : LoadedPolicy) : list Hit :=
  ruleHits input policy 0 (default [] (lp_executable policy)).

(** [allowHits], [blockHits] and [auditHits]. *)
Definition hitsOf (mode : PolicyMode) (input : PamBridgeInput) (policies : list LoadedPolicy) : list Hit :=
  List.filter (fun h => bool_decide (lp_mode (hit_policy h) = mode)) (mjoin (policyHits input <$> policies)).

Definition stronger (candidate best : Hit) : bool :=
  (FIELD_PRECEDENCE (hit_field candidate) <? FIELD_PRECEDENCE (hit_field best))
  || ((FIELD_PRECEDENCE (hit_field candidate) =? FIELD_PRECEDENCE (hit_field best))
      && (lp_priority (hit_policy best) <? lp_priority (hit_policy candidate))).

Definition pickStrongestHit (hits : list Hit) : option Hit :=
  match hits with
  | [] => None
  | h :: hs => Some (fold_left (fun best c => if stronger c best then c else best) hs h)
  end.

Record PamBridgeVerdict : Type := {
  bv_match : option PolicyMode;
  bv_binding : option Hit;
  bv_auditMatches : list (string * string * MatchedField);
}.

(** The binding hit carries the policy id, rule index, rule name and field that
    the source copies into the verdict. *)
Definition matchPoliciesAgainst (input : PamBridgeInput) (policies : list LoadedPolicy) : PamBridgeVerdict :=
  let auditMatches := (fun h => (lp_id (hit_policy h), er_name (hit_rule h), hit_field h))
                        <$> hitsOf audit input policies in
  match pickStrongestHit (hitsOf blocklist input policies) with
  | Some h => {| bv_match := Some blocklist; bv_binding := Some h; bv_auditMatches := auditMatches |}
  | None =>
      match pickStrongestHit (hitsOf allowlist input policies) with
      | Some h => {| bv_match := Some allowlist; bv_binding := Some h; bv_auditMatches := auditMatches |}
      | None => {| bv_match := None; bv_binding := None; bv_auditMatches := auditMatches |}
      end
  end.

(** ** Signer groups *)

(** [/^[0-9a-f]{64}$/] *)
Definition thumbprint_re (s : string) : bool :=
  (String.length s =? 64)%nat && str_forallb is_hex_lower s.

(** A canonical entry; at least one field is set in what the normaliser makes. *)
Record SignerGroupEntry : Type := {
  sg_subjectCn : option string;
  sg_thumbprint : option string;
}.

(** One element of the stored array. *)
Definition normalizeEntry (el : json) : option SignerGroupEntry :=
  match el with
  | JStr s => let cn := trim s in
      if truthy (Some cn) then Some {| sg_subjectCn := Some cn; sg_thumbprint := None |} else None
  | JObj m =>
      let cn := match json_get "subjectCn" m with JStr s => trim s | _ => EmptyString end in
      let tpRaw := match json_get "thumbprint" m with JStr s => toLowerCase (trim s) | _ => EmptyString end in
      if truthy (Some tpRaw) then
        if thumbprint_re tpRaw
        then Some {| sg_subjectCn := if truthy (Some cn) then Some cn else None; sg_thumbprint := Some tpRaw |}
        else None
      else if truthy (Some cn) then Some {| sg_subjectCn := Some cn; sg_thumbprint := None |}
      else None
  (* an array is an object with neither member *)
  | _ => None
  end.

Definition normalizeSignerGroupEntries (raw : json) : list SignerGroupEntry :=
  match raw with JArr items => omap normalizeEntry items | _ => [] end.

(** ** Rules and candidates *)

Inductive PamVerdict : Type := auto_approve | auto_deny | require_approval | ignore.
#[export] Instance PamVerdict_eq_dec : EqDecision PamVerdict.
Proof. solve_decision. Defined.

Inductive NegateKey : Type :=
| k_signer | k_signerThumbprint | k_signerGroup | k_hash | k_pathGlob | k_parentImage
| k_commandLine | k_user | k_adGroup | k_toolName | k_riskTier.
#[export] Instance NegateKey_eq_dec : EqDecision NegateKey.
Proof. solve_decision. Defined.

Record PamRuleTimeWindow : Type := {
  tw_start : string;
  tw_end : string;
  tw_days : option (list Z);
  tw_timezone : option string;
}.

(** A row of [pam_rules]. *)
Record PamRule : Type := {
  ru_id : string;
  ru_orgId : string;
  ru_siteId : option string;
  ru_name : string;
  ru_enabled : bool;
  ru_priority : Z;
  ru_matchSigner : option string;
  ru_matchSignerThumbprint : option string;
  ru_matchSignerGroupId : option string;
  ru_matchHash : option string;
  ru_matchPathGlob : option string;
  ru_matchParentImage : option string;
  ru_matchCommandLine : option string;
  ru_matchUser : option string;
  ru_matchAdGroup : option string;
  ru_matchToolName : option string;
  ru_matchRiskTier : option Z;
  ru_matchNegate : option (list NegateKey);
  ru_timeWindow : option PamRuleTimeWindow;
  ru_verdict : PamVerdict;
  ru_approvalDurationMinutes : option Z;
  ru_createdAt : Z;
}.

Record PamRuleCandidate : Type := {
  ca_path : option string;
  ca_hash : option string;
  ca_signer : option string;
  ca_thumbprint : option string;
  ca_username : string;
  ca_parentImage : option string;
  ca_commandLine : option string;
  ca_adGroups : option (list string);
  ca_toolName : option string;
  ca_riskTier : option Z;
  ca_at : Z;
}.

Record PamRuleMatch : Type := {
  rm_ruleId : string;
  rm_ruleName : string;
  rm_verdict : PamVerdict;
  rm_approvalDurationMinutes : option Z;
}.

Definition eqCi (a b : string) : bool := bool_decide (toLowerCase a = toLowerCase b).

Definition thumbprintEq (pinned candidate : option string) : bool :=
  match pinned, candidate with
  | Some (String _ _ as p), Some (String _ _ as c) =>
      thumbprint_re (toLowerCase p) && thumbprint_re (toLowerCase c)
      && bool_decide (toLowerCase p = toLowerCase c)
  | _, _ => false
  end.

Definition signerEntryMatches (entry : SignerGroupEntry) (candidate : PamRuleCandidate) : bool :=
  if negb (truthy (sg_subjectCn entry)) && negb (truthy (sg_thumbprint entry)) then false
  else if truthy (sg_thumbprint entry) && negb (thumbprintEq (sg_thumbprint entry) (ca_thumbprint candidate))
  then false
  else match sg_subjectCn entry with
       | Some (String _ _ as cn) =>
           match ca_signer candidate with
           | None => false
           | Some signer => eqCi cn signer
           end
       | _ => true
       end.

Definition hasAnyCriteria (r : PamRule) : bool :=
  truthy (ru_matchSigner r) || truthy (ru_matchSignerThumbprint r) || truthy (ru_matchSignerGroupId r)
  || truthy (ru_matchHash r) || truthy (ru_matchPathGlob r) || truthy (ru_matchParentImage r)
  || truthy (ru_matchCommandLine r) || truthy (ru_matchUser r) || truthy (ru_matchAdGroup r)
  || truthy (ru_matchToolName r) || bool_decide (ru_matchRiskTier r <> None).

Definition hasToolActionCriterion (r : PamRule) : bool :=
  truthy (ru_matchToolName r) || bool_decide (ru_matchRiskTier r <> None).

(** ** Time windows *)

(** [/^(\d{1,2}):(\d{2})$/] and the range check: minutes since midnight. *)
Definition parse_hhmm (s : string) : option Z :=
  match str_split ":" s with
  | [h; m] =>
      if ((String.length h =? 1)%nat || (String.length h =? 2)%nat) && (String.length m =? 2)%nat
         && str_forallb is_digit h && str_forallb is_digit m
      then let h := digits_value h 0 in let m := digits_value m 0 in
           if (23 <? h) || (59 <? m) then None else Some (h * 60 + m)
      else None
  | _ => None
  end.

Section engine.

(** The weekday (0 is Sunday) and the minute of the day that
    [Intl.DateTimeFormat] shows for an instant in a time zone; [None] when the
    zone is not known, or the parts are not usable. *)
Variable localTime : string -> Z -> option (Z * Z).

Definition isWithinTimeWindow (w : PamRuleTimeWindow) (at_ : Z) : bool :=
  match parse_hhmm (tw_start w), parse_hhmm (tw_end w) with
  | Some start, Some end_ =>
      match localTime (default "UTC"%string (tw_timezone w)) at_ with
      | None => false
      | Some (weekday, minutes) =>
          if match tw_days w with
             | Some ((_ :: _) as days) => negb (bool_decide (weekday ∈ days))
             | _ => false
             end then false
          else if start <=? end_ then (start <=? minutes) && (minutes <=? end_)
          else (start <=? minutes) || (minutes <=? end_)
      end
  | _, _ => false
  end.

(** ** Matching one rule *)

Definition negated (r : PamRule) (key : NegateKey) : bool := bool_decide (key ∈ default [] (ru_matchNegate r)).

(** [satisfied(key, present, positive)]: absent data satisfies nothing. *)
Definition satisfied {D} (r : PamRule) (key : NegateKey) (data : option D) (test : D -> bool) : bool :=
  match data with
  | None => false
  | Some d => if negated r key then negb (test d) else test d
  end.

(** [if (rule.matchX) { if (!satisfied(...)) return false; }] *)
Definition criterion (m : option string) (sat : string -> bool) : bool :=
  match m with Some (String _ _ as s) => sat s | _ => true end.

(** The members of a group, present when the candidate has any signer signal
    and the group is known and not empty. *)
Definition groupData (groups : gmap string (list SignerGroupEntry)) (c : PamRuleCandidate) (gid : string)
  : option (list SignerGroupEntry) :=
  match groups !! gid with
  | Some ((_ :: _) as members) =>
      if bool_decide (ca_signer c <> None) || bool_decide (ca_thumbprint c <> None) then Some members else None
  | _ => None
  end.

Definition ruleMatches (groups : gmap string (list SignerGroupEntry)) (r : PamRule) (c : PamRuleCandidate) : bool :=
  hasAnyCriteria r
  && criterion (ru_matchHash r) (fun s => satisfied r k_hash (ca_hash c) (eqCi s))
  && criterion (ru_matchSigner r) (fun s => satisfied r k_signer (ca_signer c) (eqCi s))
  && criterion (ru_matchSignerThumbprint r) (fun s =>
       satisfied r k_signerThumbprint (ca_thumbprint c) (fun d => thumbprintEq (Some s) (Some d)))
  && criterion (ru_matchSignerGroupId r) (fun gid =>
       satisfied r k_signerGroup (groupData groups c gid) (existsb (fun e => signerEntryMatches e c)))
  && criterion (ru_matchPathGlob r) (fun g => satisfied r k_pathGlob (ca_path c) (matchPathGlob g))
  && criterion (ru_matchParentImage r) (fun g => satisfied r k_parentImage (ca_parentImage c) (matchPathGlob g))
  && criterion (ru_matchCommandLine r) (fun s =>
       satisfied r k_commandLine (ca_commandLine c) (fun d => includes (toLowerCase s) (toLowerCase d)))
  && criterion (ru_matchUser r) (fun s => satisfied r k_user (Some (ca_username c)) (eqCi s))
  && criterion (ru_matchAdGroup r) (fun s =>
       satisfied r k_adGroup (ca_adGroups c) (existsb (fun g => eqCi g s)))
  && criterion (ru_matchToolName r) (fun s => satisfied r k_toolName (ca_toolName c) (eqCi s))
  && match ru_matchRiskTier r with
     | Some t => satisfied r k_riskTier (ca_riskTier c) (Z.eqb t)
     | None => true
     end
  && match ru_timeWindow r with
     | Some w => isWithinTimeWindow w (ca_at c)
     | None => true
     end.

(** ** Choosing a rule *)

(** The comparator of the sort, [<= 0]. [localeCompare] is the code-unit order,
    as it is on the lower-case UUIDs of the id column. *)
Definition rule_le (a b : PamRule) : Prop :=
  ru_priority a < ru_priority b
  \/ ru_priority a = ru_priority b
     /\ (ru_createdAt a < ru_createdAt b
         \/ ru_createdAt a = ru_createdAt b /\ str_leb (ru_id a) (ru_id b) = true).

#[export] Instance rule_le_dec : RelDecision rule_le.
Proof. intros a b. unfold rule_le. apply _. Defined.

Definition toMatch (r : PamRule) : PamRuleMatch :=
  {| rm_ruleId := ru_id r; rm_ruleName := ru_name r; rm_verdict := ru_verdict r;
     rm_approvalDurationMinutes := ru_approvalDurationMinutes r |}.

Definition governs (groups : gmap string (list SignerGroupEntry)) (c : PamRuleCandidate) (r : PamRule) : bool :=
  ru_enabled r && ruleMatches groups r c.

(** The loop returns at the first enabled rule that matches. *)
Definition evaluatePamRules (groups : gmap string (list SignerGroupEntry)) (rules : list PamRule)
    (c : PamRuleCandidate) : option PamRuleMatch :=
  toMatch <$> List.find (governs groups c) (merge_sort rule_le rules).

(** No signer groups are passed for tool actions. *)
Definition evaluatePamToolActionRules (rules : list PamRule) (c : PamRuleCandidate) : option PamRuleMatch :=
  evaluatePamRules ∅ (List.filter hasToolActionCriterion rules) c.

End engine.

(** ** The shape check of the rule routes *)

Inductive ShapeError : Type := NoCriterion | MixedCriteria | GroupAndSigner | ToolActionIgnore.

Definition hasExecutableShapeCriteria (r : PamRule) : bool :=
  truthy (ru_matchSigner r) || truthy (ru_matchSignerThumbprint r) || truthy (ru_matchSignerGroupId r)
  || truthy (ru_matchHash r) || truthy (ru_matchPathGlob r) || truthy (ru_matchParentImage r)
  || truthy (ru_matchCommandLine r).

(** [ruleCriteriaFields.some(...) || hasToolActionCriteria(rule)] *)
Definition hasAnyCriterion (r : PamRule) : bool :=
  hasExecutableShapeCriteria r || truthy (ru_matchUser r) || truthy (ru_matchAdGroup r)
  || hasToolActionCriterion r.

Definition validateRuleShape (r : PamRule) : option ShapeError :=
  if negb (hasAnyCriterion r) then Some NoCriterion
  else if hasExecutableShapeCriteria r && hasToolActionCriterion r then Some MixedCriteria
  else if (truthy (ru_matchSigner r) || truthy (ru_matchSignerThumbprint r)) && truthy (ru_matchSignerGroupId r)
  then Some GroupAndSigner
  else if hasToolActionCriterion r && bool_decide (ru_verdict r = ignore) then Some ToolActionIgnore
  else None.

(** ** Facts *)

(** *** The bridge *)

Lemma hitsOf_elem mode input policies h :
  h ∈ hitsOf mode input policies ->
  hit_policy h ∈ policies /\ lp_mode (hit_policy h) = mode /\
  exists rules, lp_executable (hit_policy h) = Some rules
                /\ rules !! hit_ruleIndex h = Some (Some (hit_rule h))
                /\ matchRule input (hit_rule h) = Some (hit_field h).
Proof.
  unfold hitsOf. rewrite list_filter_elem. intros [Hh Hm]. bool_hyps.
  apply list_elem_of_join in Hh as (hs & Hh & (p & -> & Hp)%list_elem_of_fmap).
  unfold policyHits in Hh.
  assert (Hgen : forall rs i, h ∈ ruleHits input p i rs ->
    hit_policy h = p /\ (exists k, hit_ruleIndex h = (i + k)%nat /\ rs !! k = Some (Some (hit_rule h)))
    /\ matchRule input (hit_rule h) = Some (hit_field h)).
  { induction rs as [|o rs IH]; intros i Hin; [by apply not_elem_of_nil in Hin|].
    assert (Hrest : h ∈ ruleHits input p (S i) rs ->
      hit_policy h = p /\ (exists k, hit_ruleIndex h = (i + k)%nat /\ (o :: rs) !! k = Some (Some (hit_rule h)))
      /\ matchRule input (hit_rule h) = Some (hit_field h)).
    { intros (E1 & (k & Ek & Hk) & E3)%IH. split_and!; [done| |done]. exists (S k). split; [lia|done]. }
    cbn [ruleHits] in Hin. destruct o as [rule|]; [|by apply Hrest].
    destruct (matchRule input rule) as [field|] eqn:Em; [|by apply Hrest].
    apply elem_of_cons in Hin as [->|Hin]; [|by apply Hrest].
    cbn. split_and!; [done| |done]. exists 0%nat. split; [lia|done]. }
  apply Hgen in Hh as (Ep & (k & Ek & Hk) & Ef). rewrite Ep in *. split_and!; [done..|].
  destruct (lp_executable p) as [rules|]; [|by cbn in Hk].
  exists rules. rewrite Ek. done.
Qed.

Lemma hitsOf_complete mode input policies p rules i rule field :
  p ∈ policies -> lp_mode p = mode -> lp_executable p = Some rules ->
  rules !! i = Some (Some rule) -> matchRule input rule = Some field ->
  exists h, h ∈ hitsOf mode input policies /\ hit_policy h = p /\ hit_rule h = rule /\ hit_field h = field.
Proof.
  intros Hp Hm Hr Hi Hf.
  assert (Hgen : forall rs j k, rs !! k = Some (Some rule) ->
    {| hit_policy := p; hit_ruleIndex := j + k; hit_rule := rule; hit_field := field |}
      ∈ ruleHits input p j rs).
  { induction rs as [|o rs IH]; intros j k Hk; [done|]. destruct k as [|k]; simpl in Hk.
    - simplify_eq. cbn [ruleHits]. rewrite Hf, Nat.add_0_r. apply list_elem_of_here.
    - cbn [ruleHits]. specialize (IH (S j) k Hk). rewrite Nat.add_succ_comm in IH.
      destruct o as [r'|]; [|done]. destruct (matchRule input r'); [by apply list_elem_of_further|done]. }
  exists {| hit_policy := p; hit_ruleIndex := 0 + i; hit_rule := rule; hit_field := field |}.
  split; [|done]. unfold hitsOf. rewrite list_filter_elem. split.
  - apply list_elem_of_join. exists (policyHits input p). split; [|by apply list_elem_of_fmap_2].
    unfold policyHits. rewrite Hr. by apply (Hgen rules 0%nat i).
  - by apply bool_decide_eq_true.
Qed.

Lemma stronger_false c b :
  stronger c b = false <->
  FIELD_PRECEDENCE (hit_field b) < FIELD_PRECEDENCE (hit_field c)
  \/ FIELD_PRECEDENCE (hit_field b) = FIELD_PRECEDENCE (hit_field c)
     /\ lp_priority (hit_policy c) <= lp_priority (hit_policy b).
Proof. unfold stronger. rewrite orb_false_iff, andb_false_iff. lia. Qed.

Lemma pickStrongestHit_spec hits h :
  pickStrongestHit hits = Some h -> h ∈ hits /\ forall h', h' ∈ hits -> stronger h' h = false.
Proof.
  destruct hits as [|b hs]; [done|]. intros [= <-].
  assert (Hgen : forall hs b, let r := fold_left (fun best c => if stronger c best then c else best) hs b in
    r ∈ b :: hs /\ forall x, x ∈ b :: hs -> stronger x r = false); [|apply Hgen].
  clear. induction hs as [|c hs IH]; intros b; cbn [fold_left].
  - split; [set_solver|]. intros x ->%list_elem_of_singleton. apply stronger_false. lia.
  - destruct (IH (if stronger c b then c else b)) as [Hin Hmax]. cbn zeta. split.
    + destruct (stronger c b); set_solver.
    + assert (Hbest := Hmax _ (list_elem_of_here _ _)).
      intros x Hx. destruct (stronger c b) eqn:E.
      * assert (Hcb : stronger b c = false).
        { apply stronger_false. unfold stronger in E. apply orb_true_iff in E as [E|E]; bool_hyps; lia. }
        apply elem_of_cons in Hx as [->|Hx]; [|by apply Hmax].
        rewrite stronger_false in *. lia.
      * apply elem_of_cons in Hx as [->|[->|Hx]%elem_of_cons]; [done| |apply Hmax; set_solver].
        rewrite stronger_false in *. lia.
Qed.

Lemma pickStrongestHit_None hits : pickStrongestHit hits = None <-> hits = [].
Proof. by destruct hits. Qed.

(** An executable rule of a policy in some mode matches. *)
Definition policy_hit (mode : PolicyMode) (input : PamBridgeInput) (policies : list LoadedPolicy)
    (rule : ExecutableRule) (field : MatchedField) : Prop :=
  exists p rules i, p ∈ policies /\ lp_mode p = mode /\ lp_executable p = Some rules
    /\ rules !! i = Some (Some rule) /\ matchRule input rule = Some field.

Lemma hitsOf_policy_hit mode input policies h :
  h ∈ hitsOf mode input policies -> policy_hit mode input policies (hit_rule h) (hit_field h).
Proof.
  intros (Hp & Hm & rules & Hr & Hi & Hf)%hitsOf_elem. exists (hit_policy h), rules, (hit_ruleIndex h). done.
Qed.

Lemma hitsOf_nil mode input policies :
  hitsOf mode input policies = [] <-> forall rule field, ~ policy_hit mode input policies rule field.
Proof.
  split.
  - intros E rule field (p & rules & i & Hp & Hm & Hr & Hi & Hf).
    destruct (hitsOf_complete mode input policies p rules i rule field Hp Hm Hr Hi Hf) as (h & Hh & _).
    rewrite E in Hh. by apply not_elem_of_nil in Hh.
  - intros H. destruct (hitsOf mode input policies) as [|h hs] eqn:E; [done|].
    destruct (H (hit_rule h) (hit_field h)). apply hitsOf_policy_hit. rewrite E. apply list_elem_of_here.
Qed.

(** The software-policy bridge denies whenever a blocklist policy matches
    the binary, whatever the allowlists say; approves only when an allowlist
    policy matches and no blocklist does; and reports the strongest evidence
    (hash before signer before publisher before path) of the mode that won. *)
Lemma bridge_blocklist_wins input policies :
  let v := matchPoliciesAgainst input policies in
  (bv_match v = Some blocklist <-> exists rule field, policy_hit blocklist input policies rule field)
  /\ (bv_match v = Some allowlist <->
        (forall rule field, ~ policy_hit blocklist input policies rule field)
        /\ exists rule field, policy_hit allowlist input policies rule field)
  /\ (forall h, bv_binding v = Some h ->
        bv_match v = Some (lp_mode (hit_policy h))
        /\ policy_hit (lp_mode (hit_policy h)) input policies (hit_rule h) (hit_field h)
        /\ forall rule field, policy_hit (lp_mode (hit_policy h)) input policies rule field ->
             FIELD_PRECEDENCE (hit_field h) <= FIELD_PRECEDENCE field).
Proof.
  assert (Hbest : forall mode h, pickStrongestHit (hitsOf mode input policies) = Some h ->
    lp_mode (hit_policy h) = mode /\ policy_hit mode input policies (hit_rule h) (hit_field h)
    /\ forall rule field, policy_hit mode input policies rule field ->
         FIELD_PRECEDENCE (hit_field h) <= FIELD_PRECEDENCE field).
  { intros mode h (Hin & Hmax)%pickStrongestHit_spec. split_and!.
    - by apply hitsOf_elem in Hin as (_ & ? & _).
    - by apply hitsOf_policy_hit.
    - intros rule field (p & rules & i & Hp & Hm & Hr & Hi & Hf).
      destruct (hitsOf_complete mode input policies p rules i rule field Hp Hm Hr Hi Hf) as (h' & Hh & _ & _ & <-).
      specialize (Hmax h' Hh). rewrite stronger_false in Hmax. lia. }
  unfold matchPoliciesAgainst. cbn zeta.
  destruct (pickStrongestHit (hitsOf blocklist input policies)) as [b|] eqn:Eb.
  - destruct (Hbest _ _ Eb) as (Em & Hh & Hmax). cbn. split_and!.
    + split; [intros _; by eexists _, _|done].
    + split; [done|]. intros [Hno _]. by apply Hno in Hh.
    + intros h [= <-]. by rewrite Em.
  - rewrite pickStrongestHit_None, hitsOf_nil in Eb.
    destruct (pickStrongestHit (hitsOf allowlist input policies)) as [a|] eqn:Ea; cbn.
    + destruct (Hbest _ _ Ea) as (Em & Hh & Hmax). split_and!.
      * split; [done|]. intros (rule & field & H). by apply Eb in H.
      * split; [|done]. intros _. split; [done|]. by eexists _, _.
      * intros h [= <-]. by rewrite Em.
    + rewrite pickStrongestHit_None, hitsOf_nil in Ea. split_and!; [| |done].
      * split; [done|]. intros (rule & field & H). by apply Eb in H.
      * split; [done|]. intros (_ & rule & field & H). by apply Ea in H.
Qed.

(** *** Order of the rules *)

#[export] Instance rule_le_trans : Transitive rule_le.
Proof.
  intros a b c [Hab|[Hab [Hab'|[Hab' Hid]]]] [Hbc|[Hbc [Hbc'|[Hbc' Hid']]]]; unfold rule_le; try lia.
  right. split; [lia|]. right. split; [lia|]. by apply (str_leb_trans _ (ru_id b)).
Qed.

#[export] Instance rule_le_total : Total rule_le.
Proof.
  intros a b. unfold rule_le.
  destruct (Z.lt_trichotomy (ru_priority a) (ru_priority b)) as [?|[?|?]]; [lia| |lia].
  destruct (Z.lt_trichotomy (ru_createdAt a) (ru_createdAt b)) as [?|[?|?]]; [lia| |lia].
  destruct (str_leb_total (ru_id a) (ru_id b)) as [Hid|Hid]; [left|right]; right; (split; [lia|]); right; (split; [lia|done]).
Qed.

Lemma rule_le_antisymm_id a b : rule_le a b -> rule_le b a -> ru_id a = ru_id b.
Proof.
  unfold rule_le. intros [?|[? [?|[? Hid]]]] [?|[? [?|[? Hid']]]]; try lia. by apply str_leb_antisymm.
Qed.

Lemma find_first {A} (R : A -> A -> Prop) (f : A -> bool) l x :
  StronglySorted R l -> List.find f l = Some x ->
  x ∈ l /\ f x = true /\ forall y, y ∈ l -> f y = true -> y = x \/ R x y.
Proof.
  induction l as [|a l IH]; [done|]. intros [Hs Hall]%StronglySorted_inv. cbn [List.find].
  destruct (f a) eqn:Ea.
  - intros [= <-]. split_and!; [apply list_elem_of_here|done|].
    intros y [->|Hy]%elem_of_cons Hf; [by left|right]. by eapply Forall_forall in Hall.
  - intros (Hx & Hf & Hy)%IH; [|done]. split_and!; [by apply list_elem_of_further|done|].
    intros y [->|Hy']%elem_of_cons Hf'; [congruence|by apply Hy].
Qed.

Lemma find_none_elem {A} (f : A -> bool) l x : List.find f l = None -> x ∈ l -> f x = false.
Proof. intros H Hx. eapply find_none; [done|by apply list_elem_of_In]. Qed.

Section rules.
Context (localTime : string -> Z -> option (Z * Z)).
Notation matches := (ruleMatches localTime).
Notation governs := (governs localTime).
Notation evaluate := (evaluatePamRules localTime).

Lemma evaluate_spec groups rules c :
  match evaluate groups rules c with
  | Some m => exists r, r ∈ rules /\ governs groups c r = true /\ m = toMatch r
                /\ forall r', r' ∈ rules -> governs groups c r' = true -> r' = r \/ rule_le r r'
  | None => forall r, r ∈ rules -> governs groups c r = false
  end.
Proof.
  unfold evaluatePamRules. assert (Hp := merge_sort_Permutation rule_le rules).
  destruct (List.find _ _) as [r|] eqn:E; cbn.
  - apply (find_first rule_le) in E as (Hr & Hg & Hmin); [|apply StronglySorted_merge_sort; apply _].
    exists r. rewrite Hp in Hr. split_and!; [done..|]. intros r' Hr'. apply Hmin. by rewrite Hp.
  - intros r Hr. rewrite <- Hp in Hr. by eapply find_none_elem.
Qed.

(** The verdict is that of the first rule, by priority, then age, then id,
    among the enabled rules that match, and there is none when no enabled rule
    matches; the order in which the database returned the rows is irrelevant. *)
Lemma first_rule_governs groups rules c :
  NoDup (ru_id <$> rules) ->
  (match evaluate groups rules c with
   | Some m => exists r, r ∈ rules /\ ru_enabled r = true /\ matches groups r c = true /\ m = toMatch r
                 /\ forall r', r' ∈ rules -> ru_enabled r' = true -> matches groups r' c = true ->
                      r' = r \/ rule_le r r'
   | None => forall r, r ∈ rules -> ru_enabled r = true -> matches groups r c = false
   end)
  /\ forall rules', rules' ≡ₚ rules -> evaluate groups rules' c = evaluate groups rules c.
Proof.
  intros Hnd. assert (Hgov : forall r, governs groups c r = true <-> ru_enabled r = true /\ matches groups r c = true).
  { intros r. apply andb_true_iff. }
  split.
  - generalize (evaluate_spec groups rules c). destruct (evaluate groups rules c) as [m|].
    + intros (r & Hr & [He Hm]%Hgov & -> & Hmin). exists r. split_and!; [done..|].
      intros r' Hr' He' Hm'. apply Hmin; [done|]. by apply Hgov.
    + intros H r Hr He. specialize (H r Hr). apply andb_false_iff in H as [H|H]; [congruence|done].
  - intros rules' Hp. generalize (evaluate_spec groups rules c) (evaluate_spec groups rules' c).
    destruct (evaluate groups rules c) as [m|], (evaluate groups rules' c) as [m'|]; try done.
    + intros (r & Hr & Hg & -> & Hmin) (r' & Hr' & Hg' & -> & Hmin'). do 2 f_equal.
      rewrite Hp in Hr'. destruct (Hmin r' Hr' Hg') as [?|H1]; [done|].
      rewrite <- Hp in Hr. destruct (Hmin' r Hr Hg) as [?|H2]; [done|]. rewrite Hp in Hr.
      apply (rule_le_antisymm_id r r' H1) in H2.
      apply list_elem_of_lookup in Hr as [i Hi]. apply list_elem_of_lookup in Hr' as [j Hj].
      assert (Hij : i = j).
      { eapply NoDup_lookup; [exact Hnd| |]; rewrite list_lookup_fmap; [by rewrite Hi|by rewrite Hj, H2]. }
      congruence.
    + intros (r & Hr & Hg & _) H. rewrite <- Hp in Hr. specialize (H r Hr). congruence.
    + intros H (r & Hr & Hg & _). rewrite Hp in Hr. specialize (H r Hr). congruence.
Qed.

(** *** Absent data *)

Definition le_data {D} (a b : option D) : Prop := a = None \/ a = b.

(** [less_data c' c]: [c'] is [c] with some of its observations withheld. *)
Definition less_data (c' c : PamRuleCandidate) : Prop :=
  le_data (ca_path c') (ca_path c) /\ le_data (ca_hash c') (ca_hash c) /\ le_data (ca_signer c') (ca_signer c)
  /\ le_data (ca_thumbprint c') (ca_thumbprint c) /\ le_data (ca_parentImage c') (ca_parentImage c)
  /\ le_data (ca_commandLine c') (ca_commandLine c) /\ le_data (ca_adGroups c') (ca_adGroups c)
  /\ le_data (ca_toolName c') (ca_toolName c) /\ le_data (ca_riskTier c') (ca_riskTier c)
  /\ ca_username c' = ca_username c /\ ca_at c' = ca_at c.

Lemma satisfied_mono {D} r key (a b : option D) test :
  le_data a b -> satisfied r key a test = true -> satisfied r key b test = true.
Proof. by intros [->| ->]. Qed.

Lemma criterion_mono m (s1 s2 : string -> bool) :
  (forall s, s1 s = true -> s2 s = true) -> criterion m s1 = true -> criterion m s2 = true.
Proof. intros H. destruct m as [[|a s]|]; cbn; auto. Qed.

Lemma signerEntryMatches_mono e c' c :
  less_data c' c -> signerEntryMatches e c' = true -> signerEntryMatches e c = true.
Proof.
  intros (_ & _ & Hs & Ht & _). unfold signerEntryMatches. destruct (negb _ && negb _); [done|].
  destruct Ht as [E|E]; rewrite E.
  - assert (thumbprintEq (sg_thumbprint e) None = false) as -> by (by destruct (sg_thumbprint e) as [[]|]).
    destruct (truthy (sg_thumbprint e)); [done|]. cbn [negb andb].
    destruct Hs as [->| ->]; [|done]. by destruct (sg_subjectCn e) as [[]|].
  - destruct (truthy _ && negb _); [done|]. destruct Hs as [->| ->]; [|done].
    by destruct (sg_subjectCn e) as [[]|].
Qed.

Lemma group_mono groups r c' c gid :
  negated r k_signerGroup = false -> less_data c' c ->
  satisfied r k_signerGroup (groupData groups c' gid) (existsb (fun e => signerEntryMatches e c')) = true ->
  satisfied r k_signerGroup (groupData groups c gid) (existsb (fun e => signerEntryMatches e c)) = true.
Proof.
  intros Hn Hl. unfold satisfied, groupData. rewrite Hn.
  destruct (groups !! gid) as [[|e es]|]; [done| |done].
  destruct (bool_decide (ca_signer c' <> None) || bool_decide (ca_thumbprint c' <> None)) eqn:E; [|done].
  assert (bool_decide (ca_signer c <> None) || bool_decide (ca_thumbprint c <> None) = true) as ->.
  { destruct Hl as (_ & _ & Hs & Ht & _). rewrite orb_true_iff, !bool_decide_eq_true in *.
    destruct Hs as [Hs|Hs], Ht as [Ht|Ht]; rewrite Hs, Ht in *; naive_solver. }
  rewrite !existsb_exists. intros (x & Hx & Hm). exists x. split; [done|]. by eapply signerEntryMatches_mono.
Qed.

Ltac split_criteria :=
  repeat match goal with
  | H : _ && _ = true |- _ => apply andb_true_iff in H; destruct H
  | |- _ && _ = true => apply andb_true_iff; split
  end.

(** C27: Withholding an observation never turns into a match: if a rule that
    does not negate a signer group matches a candidate, it matches every
    candidate that reports at least as much. *)
Theorem withheld_data_never_grants groups r c' c :
  negated r k_signerGroup = false -> less_data c' c ->
  matches groups r c' = true -> matches groups r c = true.
Proof.
  intros Hn Hl. assert (Hl' := Hl). destruct Hl as (? & ? & ? & ? & ? & ? & ? & ? & ? & Hu & Ha).
  unfold ruleMatches. rewrite Hu, Ha. intros H'. split_criteria; try done;
    try (eapply criterion_mono; [|eassumption]; cbv beta; intros s; by apply satisfied_mono).
  - eapply criterion_mono; [|eassumption]. cbv beta. intros gid. by apply group_mono.
  - destruct (ru_matchRiskTier r); [|done]. by eapply satisfied_mono.
Qed.

(** The rule's one criterion is membership in the signer group [gid]. *)
Definition only_signer_group (r : PamRule) (gid : string) : Prop :=
  ru_matchSignerGroupId r = Some gid /\ gid <> EmptyString
  /\ ru_matchSigner r = None /\ ru_matchSignerThumbprint r = None /\ ru_matchHash r = None
  /\ ru_matchPathGlob r = None /\ ru_matchParentImage r = None /\ ru_matchCommandLine r = None
  /\ ru_matchUser r = None /\ ru_matchAdGroup r = None /\ ru_matchToolName r = None
  /\ ru_matchRiskTier r = None /\ ru_timeWindow r = None.

Lemma only_group_matches groups r gid c :
  only_signer_group r gid ->
  matches groups r c = satisfied r k_signerGroup (groupData groups c gid) (existsb (fun e => signerEntryMatches e c)).
Proof.
  intros (Hg & Hne & E1 & E2 & E3 & E4 & E5 & E6 & E7 & E8 & E9 & E10 & E11).
  unfold ruleMatches, hasAnyCriteria. rewrite Hg, E1, E2, E3, E4, E5, E6, E7, E8, E9, E10, E11.
  destruct gid; [done|]. cbn [criterion truthy orb andb]. by rewrite !andb_true_r.
Qed.

(** A negated signer group is the exception: when the group pins keys, a
    candidate that reports a signer name but no key satisfies "not in the
    group", so a rule that excludes the group and asks for nothing else matches
    it, although the same binary with its pinned key reported is not matched. *)
Lemma negated_group_matches_missing_key groups r gid entries c tp :
  only_signer_group r gid -> negated r k_signerGroup = true ->
  groups !! gid = Some entries ->
  {| sg_subjectCn := None; sg_thumbprint := Some tp |} ∈ entries ->
  Forall (fun x => truthy (sg_thumbprint x) = true) entries ->
  thumbprint_re (toLowerCase tp) = true -> ca_signer c <> None ->
  (ca_thumbprint c = None -> matches groups r c = true)
  /\ (ca_thumbprint c = Some tp -> matches groups r c = false).
Proof.
  intros Ho Hn Hg Hin Hall Hre Hs. rewrite (only_group_matches _ _ gid) by done.
  unfold satisfied, groupData. rewrite Hg, Hn, (bool_decide_eq_true_2 _ Hs). cbn [orb].
  destruct entries as [|e es]; [by apply not_elem_of_nil in Hin|].
  assert (Hpos : forall b, (exists x, x ∈ e :: es /\ signerEntryMatches x c = true) <-> b = true ->
            negb (existsb (fun x => signerEntryMatches x c) (e :: es)) = negb b).
  { intros b Hb. f_equal. apply eq_iff_eq_true. rewrite <- Hb, existsb_exists. by setoid_rewrite list_elem_of_In. }
  cbv beta iota. split; intros Ht.
  - rewrite (Hpos false); [done|]. split; [|done]. intros (x & Hx & Hm).
    rewrite Forall_forall in Hall. specialize (Hall x Hx). revert Hm. unfold signerEntryMatches.
    destruct (sg_thumbprint x) as [[|a t]|]; [done| |done]. rewrite Ht. cbn. by rewrite andb_false_r.
  - rewrite (Hpos true); [done|]. split; [done|]. intros _. eexists. split; [exact Hin|].
    unfold signerEntryMatches. cbn [sg_subjectCn sg_thumbprint]. rewrite Ht.
    destruct tp as [|a t]; [done|]. unfold thumbprintEq. by rewrite Hre, bool_decide_eq_true_2.
Qed.

(** *** Two kinds of candidate *)

(** What the agent's ingest builds, and what a tool action builds. *)
Definition executable_candidate (c : PamRuleCandidate) : Prop := ca_toolName c = None /\ ca_riskTier c = None.

Definition tool_candidate (c : PamRuleCandidate) : Prop :=
  ca_path c = None /\ ca_hash c = None /\ ca_signer c = None /\ ca_thumbprint c = None
  /\ ca_parentImage c = None /\ ca_commandLine c = None /\ ca_adGroups c = None.

Lemma hasAnyCriterion_agrees r : hasAnyCriterion r = hasAnyCriteria r.
Proof.
  unfold hasAnyCriterion, hasAnyCriteria, hasExecutableShapeCriteria, hasToolActionCriterion. btauto.
Qed.

Lemma criterion_absent m sat : (forall s, sat s = false) -> criterion m sat = true -> truthy m = false.
Proof. intros H. destruct m as [[]|]; cbn; [done|by rewrite H|done]. Qed.

(** A criterion on data the candidate lacks is not set in a rule that matches. *)
Ltac absent :=
  match goal with
  | H : criterion ?m _ = true |- truthy ?m = false =>
      apply (criterion_absent m _) in H; [exact H|]; intros s; cbv beta
  end.

(** The two kinds of request never meet each other's rules: a rule with a
    tool or tier criterion never matches an executable, a rule with an
    executable criterion never matches a tool action, a rule that mixes them
    matches neither, and only rules with a tool or tier criterion decide a tool
    action. *)
Lemma rule_kinds_are_separate groups r c :
  (matches groups r c = true -> executable_candidate c -> hasToolActionCriterion r = false)
  /\ (matches groups r c = true -> tool_candidate c -> hasExecutableShapeCriteria r = false)
  /\ (validateRuleShape r = Some MixedCriteria -> executable_candidate c \/ tool_candidate c ->
       matches groups r c = false)
  /\ (forall rules m, evaluatePamToolActionRules localTime rules c = Some m ->
       exists r', r' ∈ rules /\ toMatch r' = m /\ hasToolActionCriterion r' = true
                  /\ (tool_candidate c -> hasExecutableShapeCriteria r' = false)).
Proof.
  assert (Htool : forall g r', matches g r' c = true -> executable_candidate c -> hasToolActionCriterion r' = false).
  { intros g r' H [Ht Hk]. unfold ruleMatches in H. split_criteria.
    unfold hasToolActionCriterion. apply orb_false_iff. split.
    - absent. by rewrite Ht.
    - destruct (ru_matchRiskTier r'); [|done]. by rewrite Hk in *. }
  assert (Hexe : forall g r', matches g r' c = true -> tool_candidate c -> hasExecutableShapeCriteria r' = false).
  { intros g r' H (H1 & H2 & H3 & H4 & H5 & H6 & _). unfold ruleMatches in H. split_criteria.
    unfold hasExecutableShapeCriteria. rewrite !orb_false_iff. split_and!; absent;
      rewrite ?H1, ?H2, ?H3, ?H4, ?H5, ?H6; try done.
    unfold groupData. rewrite H3, H4. by destruct (g !! _) as [[]|]. }
  split_and!; [by apply Htool|by apply Hexe| |].
  - intros Hv Hc. apply not_true_iff_false. intros Hm. revert Hv. unfold validateRuleShape.
    destruct Hc as [Hc|Hc]; [rewrite (Htool _ _ Hm Hc)|rewrite (Hexe _ _ Hm Hc)];
      rewrite ?andb_false_r; cbn [andb]; repeat case_match; congruence.
  - intros rules m Hev. unfold evaluatePamToolActionRules in Hev.
    generalize (evaluate_spec ∅ (List.filter hasToolActionCriterion rules) c). rewrite Hev.
    intros (r' & [Hr' Ht]%list_filter_elem & [_ Hm]%andb_true_iff & -> & _). exists r'. split_and!; [done..|].
    by apply (Hexe ∅).
Qed.

End rules.

(** *** Pinned signers *)

Lemma normalizeEntry_thumbprint m s e :
  json_get "thumbprint" m = JStr s -> toLowerCase (trim s) <> EmptyString ->
  normalizeEntry (JObj m) = Some e -> sg_thumbprint e = Some (toLowerCase (trim s)).
Proof.
  intros Hs Hne. cbn [normalizeEntry]. rewrite Hs.
  destruct (toLowerCase (trim s)) as [|a t] eqn:E; [done|]. cbn [truthy].
  destruct (thumbprint_re _); [|done]. by intros [= <-].
Qed.

(** A pinned signer is never matched by name alone: whatever the stored
    catalog holds, an entry whose key field is a non-blank text either is
    dropped or matches only a binary that was measured with exactly that key. *)
Lemma pinned_signer_needs_its_key m s e c :
  json_get "thumbprint" m = JStr s -> toLowerCase (trim s) <> EmptyString ->
  normalizeEntry (JObj m) = Some e -> signerEntryMatches e c = true ->
  exists k, ca_thumbprint c = Some k /\ toLowerCase k = toLowerCase (toLowerCase (trim s))
            /\ thumbprint_re (toLowerCase k) = true.
Proof.
  intros Hs Hne Hn Hm. apply (normalizeEntry_thumbprint m s) in Hn; [|done..]. revert Hm.
  unfold signerEntryMatches. rewrite Hn. destruct (toLowerCase (trim s)) as [|a t] eqn:E; [done|].
  cbn [truthy negb]. rewrite andb_false_r. cbn [andb].
  destruct (thumbprintEq _ _) eqn:Et; [|done]. intros _. cbn [thumbprintEq] in Et.
  destruct (ca_thumbprint c) as [[|b k]|]; [done| |done]. bool_hyps. exists (String b k). split_and!; [done|by symmetry|done].
Qed.

(** ** Concrete instances *)

(** The wall clock of UTC alone. *)
Definition utc_only (tz : string) (at_ : Z) : option (Z * Z) :=
  if bool_decide (tz = "UTC"%string) then Some ((at_ / 86400000 + 4) mod 7, (at_ / 60000) mod 1440) else None.

Definition demo_key : string := "00112233445566778899aabbccddeeff00112233445566778899aabbccddeeff".

Definition demo_rule (id : string) (priority : Z) (signer group : option string) (neg : option (list NegateKey))
    (v : PamVerdict) : PamRule :=
  {| ru_id := id; ru_orgId := "o1"; ru_siteId := None; ru_name := id; ru_enabled := true; ru_priority := priority;
     ru_matchSigner := signer; ru_matchSignerThumbprint := None; ru_matchSignerGroupId := group;
     ru_matchHash := None; ru_matchPathGlob := None; ru_matchParentImage := None; ru_matchCommandLine := None;
     ru_matchUser := None; ru_matchAdGroup := None; ru_matchToolName := None; ru_matchRiskTier := None;
     ru_matchNegate := neg; ru_timeWindow := None; ru_verdict := v; ru_approvalDurationMinutes := Some 30;
     ru_createdAt := 0 |}.

Definition demo_candidate (signer key : option string) : PamRuleCandidate :=
  {| ca_path := Some "C:\Tools\setup.exe"; ca_hash := None; ca_signer := signer; ca_thumbprint := key;
     ca_username := "alice"; ca_parentImage := None; ca_commandLine := None; ca_adGroups := None;
     ca_toolName := None; ca_riskTier := None; ca_at := 0 |}%string.

Definition demo_groups : gmap string (list SignerGroupEntry) :=
  {[ "g1"%string := [{| sg_subjectCn := None; sg_thumbprint := Some demo_key |}] ]}.

Definition demo_pinned : list (string * json) :=
  [("subjectCn", JStr "Contoso"); ("thumbprint", JStr demo_key)]%string.

Definition demo_rules : list PamRule :=
  [demo_rule "r2" 20 (Some "Contoso"%string) None None auto_approve;
   demo_rule "r1" 10 (Some "contoso"%string) None None auto_deny].

Lemma first_rule_witness :
  rm_verdict <$> evaluatePamRules utc_only ∅ demo_rules (demo_candidate (Some "CONTOSO"%string) None)
    = Some auto_deny
  /\ evaluatePamRules utc_only ∅ (reverse demo_rules) (demo_candidate (Some "CONTOSO"%string) None)
     = evaluatePamRules utc_only ∅ demo_rules (demo_candidate (Some "CONTOSO"%string) None).
Proof.
  split; [vm_compute; reflexivity|].
  apply (first_rule_governs utc_only ∅ demo_rules); [|apply reverse_Permutation].
  apply (bool_decide_unpack _). vm_compute. exact I.
Defined.

Lemma withheld_data_witness :
  ruleMatches utc_only ∅ (demo_rule "r" 1 (Some "Contoso"%string) None None auto_approve)
    (demo_candidate (Some "contoso"%string) (Some demo_key)) = true.
Proof.
  apply (withheld_data_never_grants utc_only ∅ _ (demo_candidate (Some "contoso"%string) None));
    [reflexivity| |vm_compute; reflexivity].
  unfold less_data, le_data. cbn. tauto.
Defined.

Lemma negated_group_witness :
  let r := demo_rule "r" 1 None (Some "g1"%string) (Some [k_signerGroup]) auto_approve in
  rm_verdict <$> evaluatePamRules utc_only demo_groups [r] (demo_candidate (Some "Contoso"%string) None)
    = Some auto_approve
  /\ ruleMatches utc_only demo_groups r (demo_candidate (Some "Contoso"%string) None) = true
  /\ ruleMatches utc_only demo_groups r (demo_candidate (Some "Contoso"%string) (Some demo_key)) = false.
Proof.
  cbn zeta. split; [vm_compute; reflexivity|].
  split; apply (negated_group_matches_missing_key utc_only demo_groups _ "g1"
    [{| sg_subjectCn := None; sg_thumbprint := Some demo_key |}] _ demo_key);
    try reflexivity; try (unfold only_signer_group; cbn; split_and!; congruence); try apply list_elem_of_here;
    try (repeat constructor); try discriminate.
Defined.

Lemma pinned_signer_witness :
  exists k, Some demo_key = Some k /\ toLowerCase k = toLowerCase (toLowerCase (trim demo_key))
            /\ thumbprint_re (toLowerCase k) = true.
Proof.
  apply (pinned_signer_needs_its_key demo_pinned demo_key
           {| sg_subjectCn := Some "Contoso"%string; sg_thumbprint := Some demo_key |}
           (demo_candidate (Some "contoso"%string) (Some demo_key))); vm_compute; congruence.
Defined.
