(* ===== verification/IpMatch.v ===== *)
(** * Addresses, ranges, and the partner IP allowlist

    apps/api/src/services/ipMatch.ts (addresses and CIDR ranges as big integers)
    and the decision of apps/api/src/services/ipAllowlist.ts with its cached
    read of a partner's list. *)

From stdpp Require Import base gmap strings list option.
From Stdlib Require Import ZArith Lia Ascii.
From S2P Require Import Prelude.

(** ** Parsing *)

(** [/^\d{1,3}$/] *)
Definition octet_re (s : string) : bool :=
  (1 <=? String.length s)%nat && (String.length s <=? 3)%nat && str_forallb is_digit s.

(** One turn of the loop: [result = (result << 8n) | BigInt(n)]. *)
Definition push_octet (result : option Z) (part : string) : option Z :=
  match result with
  | None => None
  | Some r =>
      if negb (octet_re part) then None
      else let n := digits_value part 0 in
           if 255 <? n then None else Some (Z.lor (Z.shiftl r 8) n)
  end.

Definition ipv4ToInt (ip : string) : option Z :=
  let parts := str_split "." ip in
  if negb (length parts =? 4)%nat then None else fold_left push_octet parts (Some 0).

(** [s.split('::')], left to right. *)
Fixpoint split_dcolon (s : string) : list string :=
  match s with
  | String ":" (String ":" rest) => EmptyString :: split_dcolon rest
  | String c rest =>
      match split_dcolon rest with
      | p :: ps => String c p :: ps
      | [] => [String c EmptyString]
      end
  | EmptyString => [EmptyString]
  end.

Definition hex_digit (d : Z) : ascii :=
  if d <? 10 then digit_char d else ascii_of_nat (87 + Z.to_nat d).

(** [n.toString(16)] of a 16-bit number. *)
Definition toString16 (n : Z) : string :=
  if n <? 16 then String (hex_digit n) EmptyString
  else if n <? 256 then String (hex_digit (n / 16)) (String (hex_digit (n mod 16)) EmptyString)
  else if n <? 4096
  then String (hex_digit (n / 256)) (String (hex_digit (n / 16 mod 16)) (String (hex_digit (n mod 16)) EmptyString))
  else String (hex_digit (n / 4096)) (String (hex_digit (n / 256 mod 16))
         (String (hex_digit (n / 16 mod 16)) (String (hex_digit (n mod 16)) EmptyString))).

Definition hex_value (c : ascii) : Z :=
  if is_digit c then Z.of_nat (nat_of_ascii c) - 48 else Z.of_nat (nat_of_ascii (ascii_lower c)) - 87.

(** [parseInt(s, 16)] on a run of hex digits. *)
Fixpoint parseInt16 (s : string) (acc : Z) : Z :=
  match s with
  | EmptyString => acc
  | String c s' => parseInt16 s' (acc * 16 + hex_value c)
  end.

(** [/^[0-9a-fA-F]{1,4}$/] *)
Definition group_re (s : string) : bool :=
  (1 <=? String.length s)%nat && (String.length s <=? 4)%nat && str_forallb is_hex s.

Definition expand_part (p : string) : option (list string) :=
  if includes "." p then
    match ipv4ToInt p with
    | None => None
    | Some v4 => Some [toString16 (Z.land (Z.shiftr v4 16) 65535); toString16 (Z.land v4 65535)]
    end
  else Some [p].

Definition expand (segment : string) : option (list string) :=
  match segment with
  | EmptyString => Some []
  | _ => fold_left (fun out p => match out, expand_part p with Some o, Some x => Some (o ++ x) | _, _ => None end)
           (str_split ":" segment) (Some [])
  end.

Definition push_group (result : option Z) (g : string) : option Z :=
  match result with
  | None => None
  | Some r => if group_re g then Some (Z.lor (Z.shiftl r 16) (parseInt16 g 0)) else None
  end.

Definition ipv6ToInt (ip : string) : option Z :=
  let s := match indexOf "%" ip with Some pct => str_take pct ip | None => ip end in
  let groups :=
    match split_dcolon s with
    | [h] => expand h
    | [h; t] =>
        match expand h, expand t with
        | Some head, Some tail =>
            if (8 <? length head + length tail)%nat then None
            else Some (head ++ replicate (8 - (length head + length tail)) "0"%string ++ tail)
        | _, _ => None
        end
    | _ => None
    end in
  match groups with
  | Some gs => if negb (length gs =? 8)%nat then None else fold_left push_group gs (Some 0)
  | None => None
  end.

Definition isV6 (s : string) : bool := includes ":" s.

(** ** Matching *)

Definition toInt (v6 : bool) (s : string) : option Z := if v6 then ipv6ToInt s else ipv4ToInt s.
Definition totalBits (v6 : bool) : Z := if v6 then 128 else 32.

Definition cidr_mask (total bits : Z) : Z :=
  if bits =? 0 then 0 else Z.shiftl (Z.shiftl 1 bits - 1) (total - bits).

(** The text before and after the first slash. *)
Definition split_entry (entry : string) : string * option string :=
  match indexOf "/" entry with
  | None => (entry, None)
  | Some slash => (str_take slash entry, Some (str_drop (S slash) entry))
  end.

(** [/^\d+$/] and [Number]; [bits < 0] cannot hold. *)
Definition prefix_bits (v6 : bool) (raw : string) : option Z :=
  match raw with
  | EmptyString => None
  | _ => if str_forallb is_digit raw then
           let bits := digits_value raw 0 in if totalBits v6 <? bits then None else Some bits
         else None
  end.

Definition matchOne (ip entry : string) : bool :=
  let '(network, suffix) := split_entry entry in
  let v6 := isV6 network in
  if negb (Bool.eqb v6 (isV6 ip)) then false
  else match toInt v6 ip, toInt v6 network with
       | Some ipNum, Some netNum =>
           match suffix with
           | None => ipNum =? netNum
           | Some raw =>
               match prefix_bits v6 raw with
               | None => false
               | Some bits => Z.land ipNum (cidr_mask (totalBits v6) bits) =? Z.land netNum (cidr_mask (totalBits v6) bits)
               end
           end
       | _, _ => false
       end.

Fixpoint ipMatchesAny (ip : string) (entries : list string) : bool :=
  match entries with
  | [] => false
  | raw :: rest =>
      let entry := trim raw in
      if negb (truthy (Some entry)) then ipMatchesAny ip rest
      else if matchOne ip entry then true else ipMatchesAny ip rest
  end.

Definition isValidIpOrCidr (entry : string) : bool :=
  let trimmed := trim entry in
  if negb (truthy (Some trimmed)) then false
  else let '(network, suffix) := split_entry trimmed in
       let v6 := isV6 network in
       match toInt v6 network with
       | None => false
       | Some _ => match suffix with
                   | None => true
                   | Some raw => bool_decide (prefix_bits v6 raw <> None)
                   end
       end.

(** ** The allowlist decision *)

Inductive IpAllowlistMode : Type := mode_enforce | mode_off.

Inductive IpAllowlistDecision : Type :=
| ip_allow
| ip_not_in_list
| ip_untrusted
| skip_mode_off
| skip_empty_list
| skip_platform_admin
| skip_no_partner.

Definition isBlocked (d : IpAllowlistDecision) : bool :=
  match d with ip_not_in_list | ip_untrusted => true | _ => false end.

Definition evaluateIpAllowlist (mode : IpAllowlistMode) (allowlist : option (list string))
    (clientIp : option string) (isPlatformAdmin : bool) : IpAllowlistDecision :=
  match mode with
  | mode_off => skip_mode_off
  | mode_enforce =>
      match allowlist with
      | None | Some [] => skip_empty_list
      | Some l =>
          if isPlatformAdmin then skip_platform_admin
          else match clientIp with
               | None => ip_untrusted
               | Some ip => if ipMatchesAny ip l then ip_allow else ip_not_in_list
               end
      end
  end.

Definition IP_CACHE_TTL_MS : Z := 30000.
Definition AllowlistCache : Type := gmap string (list string * Z).

(** [readPartnerAllowlist(partnerId)]: [stored] is the list in the partner's
    settings ([None] when there is no partner row, which throws). *)
Definition readPartnerAllowlist (stored : string -> option (list string)) (now : Z) (partnerId : string)
    (cache : AllowlistCache) : AllowlistCache * option (list string) :=
  let fresh := match stored partnerId with
               | None => (cache, None)
               | Some l => (<[partnerId := (l, now + IP_CACHE_TTL_MS)]> cache, Some l)
               end in
  match cache !! partnerId with
  | Some (v, expiresAt) => if now <? expiresAt then (cache, Some v) else fresh
  | None => fresh
  end.

Definition clearPartnerAllowlistCache (partnerId : string) (cache : AllowlistCache) : AllowlistCache :=
  delete partnerId cache.

(** [enforceIpAllowlist]: [None] is the thrown error the guard turns into a 503. *)
Definition enforceIpAllowlist (mode : IpAllowlistMode) (stored : string -> option (list string)) (now : Z)
    (partnerId : option string) (isPlatformAdmin : bool) (clientIp : option string) (cache : AllowlistCache)
  : AllowlistCache * option IpAllowlistDecision :=
  match partnerId with
  | Some (String _ _ as p) =>
      match mode with
      | mode_off => (cache, Some (evaluateIpAllowlist mode (Some []) clientIp isPlatformAdmin))
      | mode_enforce =>
          match readPartnerAllowlist stored now p cache with
          | (cache', Some l) => (cache', Some (evaluateIpAllowlist mode (Some l) clientIp isPlatformAdmin))
          | (cache', None) => (cache', None)
          end
      end
  | _ => (cache, Some skip_no_partner)
  end.

Example parse_v4 : ipv4ToInt "192.168.1.10" = Some 3232235786. Proof. by vm_compute. Qed.
Example parse_v6 : ipv6ToInt "2001:db8::1" = Some 42540766411282592856903984951653826561. Proof. by vm_compute. Qed.
Example parse_mapped : ipv6ToInt "::ffff:10.0.0.1" = Some 281470849515521. Proof. by vm_compute. Qed.
Example match_v6 : matchOne "2001:db8:1::5" "2001:db8::/32" = true. Proof. by vm_compute. Qed.

(** ** Facts *)

Lemma digits_value_nonneg s acc : 0 <= acc -> str_forallb is_digit s = true -> 0 <= digits_value s acc.
Proof.
  revert acc. induction s as [|c s IH]; intros acc Ha Hs; cbn in *; [done|]. bool_hyps.
  apply IH; [|done]. unfold is_digit in *. bool_hyps. lia.
Qed.

(** Appending a byte, or a group, below the bits so far. *)
Lemma lor_shift r k n : 0 <= k -> 0 <= n < 2 ^ k -> Z.lor (Z.shiftl r k) n = r * 2 ^ k + n.
Proof.
  intros Hk Hn. rewrite Z.shiftl_mul_pow2 by done.
  destruct (decide (n = 0)) as [->|Hne]; [rewrite Z.lor_0_r; lia|].
  assert (Hdis : Z.land (r * 2 ^ k) n = 0).
  { apply Z.bits_inj'. intros i Hi. rewrite Z.land_spec, Z.bits_0.
    destruct (Z_lt_le_dec i k) as [Hlt|Hge]; [by rewrite Z.mul_pow2_bits_low|].
    rewrite (Z.bits_above_log2 n), andb_false_r; [done|lia|].
    apply Z.log2_lt_pow2; [lia|]. pose proof (Z.pow_le_mono_r 2 k i). lia. }
  rewrite <- Z.lxor_lor by done. symmetry. by apply Z.add_nocarry_lxor.
Qed.

Lemma octet_value part : octet_re part = true -> 0 <= digits_value part 0.
Proof. unfold octet_re. intros H. bool_hyps. by apply digits_value_nonneg. Qed.

Lemma push_octet_range l r n m :
  0 <= r < 2 ^ m -> 0 <= m -> fold_left push_octet l (Some r) = Some n -> 0 <= n < 2 ^ (m + 8 * Z.of_nat (length l)).
Proof.
  revert r m. induction l as [|p l IH]; intros r m Hr Hm Hf; cbn in Hf; [simplify_eq; cbn; by rewrite Z.add_0_r|].
  assert (Hnone : forall l, fold_left push_octet l None = None) by (intros l0; induction l0; done).
  destruct (octet_re p) eqn:Ep; cbn in Hf; [|by rewrite Hnone in Hf].
  destruct (255 <? _) eqn:E255; [by rewrite Hnone in Hf|]. apply Z.ltb_ge in E255.
  pose proof (octet_value p Ep). rewrite lor_shift in Hf by lia.
  apply IH with (m := m + 8) in Hf; [|rewrite Z.pow_add_r by lia; nia|lia].
  replace (m + 8 * Z.of_nat (length (p :: l))) with (m + 8 + 8 * Z.of_nat (length l)) by (cbn [length]; lia). done.
Qed.

Lemma ipv4ToInt_range s n : ipv4ToInt s = Some n -> 0 <= n < 2 ^ 32.
Proof.
  unfold ipv4ToInt. destruct (negb _) eqn:El; [done|]. apply negb_false_iff, Nat.eqb_eq in El. intros H.
  apply (push_octet_range _ 0 n 0) in H; [|lia|lia]. by rewrite El in H.
Qed.

Lemma hex_value_range c : is_hex c = true -> 0 <= hex_value c < 16.
Proof. destruct c as [[] [] [] [] [] [] [] []]; intros H; vm_compute in H; try discriminate; by vm_compute. Qed.

Lemma parseInt16_range s acc m :
  0 <= acc < 16 ^ m -> 0 <= m -> str_forallb is_hex s = true ->
  0 <= parseInt16 s acc < 16 ^ (m + Z.of_nat (String.length s)).
Proof.
  revert acc m. induction s as [|c s IH]; intros acc m Ha Hm Hs; cbn in *; [by rewrite Z.add_0_r|]. bool_hyps.
  assert (Hc : 0 <= hex_value c < 16) by by apply hex_value_range.
  replace (m + Z.of_nat (S (String.length s))) with (m + 1 + Z.of_nat (String.length s)) by lia.
  apply IH; [|lia|done]. rewrite Z.pow_add_r by lia. nia.
Qed.

Lemma group_value g : group_re g = true -> 0 <= parseInt16 g 0 < 2 ^ 16.
Proof.
  unfold group_re. intros H. bool_hyps.
  pose proof (parseInt16_range g 0 0) as Hr. cbn in Hr. destruct Hr as [Hlo Hhi]; [lia|lia|done|].
  split; [done|]. eapply Z.lt_le_trans; [exact Hhi|]. change (2 ^ 16) with (16 ^ 4).
  apply Z.pow_le_mono_r; [lia|]. match goal with H : (_ <=? 4)%nat = true |- _ => apply Nat.leb_le in H end. lia.
Qed.

Lemma push_group_range l r n m :
  0 <= r < 2 ^ m -> 0 <= m -> fold_left push_group l (Some r) = Some n -> 0 <= n < 2 ^ (m + 16 * Z.of_nat (length l)).
Proof.
  revert r m. induction l as [|p l IH]; intros r m Hr Hm Hf; cbn in Hf; [simplify_eq; cbn; by rewrite Z.add_0_r|].
  assert (Hnone : forall l, fold_left push_group l None = None) by (intros l0; induction l0; done).
  destruct (group_re p) eqn:Ep; [|by rewrite Hnone in Hf].
  pose proof (group_value p Ep). rewrite lor_shift in Hf by lia.
  apply IH with (m := m + 16) in Hf; [|rewrite Z.pow_add_r by lia; nia|lia].
  replace (m + 16 * Z.of_nat (length (p :: l))) with (m + 16 + 16 * Z.of_nat (length l)) by (cbn [length]; lia). done.
Qed.

Lemma ipv6ToInt_range s n : ipv6ToInt s = Some n -> 0 <= n < 2 ^ 128.
Proof.
  unfold ipv6ToInt. destruct (match split_dcolon _ with [] => _ | _ => _ end) as [gs|]; [|done].
  destruct (negb _) eqn:El; [done|]. apply negb_false_iff, Nat.eqb_eq in El. intros H.
  apply (push_group_range _ 0 n 0) in H; [|lia|lia]. by rewrite El in H.
Qed.

Lemma toInt_range v6 s n : toInt v6 s = Some n -> 0 <= n < 2 ^ totalBits v6.
Proof. destruct v6; [apply ipv6ToInt_range|apply ipv4ToInt_range]. Qed.

(** Masking keeps the prefix and clears the rest. *)
Lemma land_mask total bits x :
  0 <= bits <= total -> 0 <= x < 2 ^ total ->
  Z.land x (cidr_mask total bits) = x / 2 ^ (total - bits) * 2 ^ (total - bits).
Proof.
  intros Hb Hx. unfold cidr_mask. destruct (bits =? 0) eqn:E0.
  - apply Z.eqb_eq in E0. subst. rewrite Z.land_0_r, Z.sub_0_r, Z.div_small by done. done.
  - apply Z.eqb_neq in E0. replace (Z.shiftl 1 bits - 1) with (Z.ones bits) by (by rewrite Z.ones_equiv, Z.shiftl_1_l).
    apply Z.bits_inj'. intros i Hi. rewrite Z.land_spec.
    destruct (Z_lt_le_dec i (total - bits)) as [Hlt|Hge].
    + rewrite Z.shiftl_spec_low, Z.mul_pow2_bits_low by lia. apply andb_false_r.
    + rewrite Z.shiftl_spec_high, Z.mul_pow2_bits, Z.div_pow2_bits by lia.
      replace (i - (total - bits) + (total - bits)) with i by lia.
      destruct (Z_lt_le_dec i total) as [Hi'|Hi'].
      * rewrite Z.ones_spec_low by lia. apply andb_true_r.
      * rewrite (Z.ones_spec_high) by lia. rewrite andb_false_r. symmetry.
        destruct (decide (x = 0)) as [->|Hne]; [apply Z.bits_0|].
        apply Z.bits_above_log2; [lia|]. apply Z.log2_lt_pow2; [lia|].
        pose proof (Z.pow_le_mono_r 2 total i). lia.
Qed.

Lemma prefix_bits_range v6 raw bits : prefix_bits v6 raw = Some bits -> 0 <= bits <= totalBits v6.
Proof.
  unfold prefix_bits. destruct raw as [|c s]; [done|]. destruct (str_forallb _ _) eqn:Ed; [|done]. cbv zeta.
  destruct (totalBits v6 <? _) eqn:El; [done|]. apply Z.ltb_ge in El. intros [= <-].
  split; [exact (digits_value_nonneg (String c s) 0 ltac:(lia) Ed)|done].
Qed.

(** [entry] names a range of addresses that holds [ip]: same family, and equal in
    the leading bits the entry fixes (all of them when it has no slash). *)
Definition in_range (ip entry : string) : Prop :=
  exists network suffix v6 ipNum netNum bits,
    split_entry entry = (network, suffix) /\ isV6 network = v6 /\ isV6 ip = v6
    /\ toInt v6 ip = Some ipNum /\ toInt v6 network = Some netNum
    /\ (suffix = None /\ bits = totalBits v6 \/ exists raw, suffix = Some raw /\ prefix_bits v6 raw = Some bits)
    /\ ipNum / 2 ^ (totalBits v6 - bits) = netNum / 2 ^ (totalBits v6 - bits).

Lemma land_mask_eq total bits x y :
  0 <= bits <= total -> 0 <= x < 2 ^ total -> 0 <= y < 2 ^ total ->
  (Z.land x (cidr_mask total bits) =? Z.land y (cidr_mask total bits)) = true
  <-> x / 2 ^ (total - bits) = y / 2 ^ (total - bits).
Proof.
  intros Hb Hx Hy. rewrite !land_mask, Z.eqb_eq by done.
  pose proof (Z.pow_pos_nonneg 2 (total - bits)). split; [nia|congruence].
Qed.

Lemma matchOne_spec ip entry : matchOne ip entry = true <-> in_range ip entry.
Proof.
  unfold matchOne, in_range. destruct (split_entry entry) as [network suffix]. split.
  - intros H. destruct (negb _) eqn:Ef; [done|]. apply negb_false_iff, Bool.eqb_prop in Ef.
    destruct (toInt _ ip) as [ipNum|] eqn:Ei; [|done].
    destruct (toInt _ network) as [netNum|] eqn:En; [|done].
    destruct suffix as [raw|].
    + destruct (prefix_bits _ raw) as [bits|] eqn:Eb; [|done].
      exists network, (Some raw), (isV6 network), ipNum, netNum, bits. split_and!; try done; [eauto|].
      apply land_mask_eq; [by eapply prefix_bits_range|by eapply toInt_range|by eapply toInt_range|done].
    + apply Z.eqb_eq in H. subst netNum.
      exists network, None, (isV6 network), ipNum, ipNum, (totalBits (isV6 network)). split_and!; try done. by left.
  - intros (n' & s' & v6 & ipNum & netNum & bits & [= <- <-] & Hn & Hi & Ei & En & Hs & Heq).
    rewrite Hn, Hi, Bool.eqb_reflx, Ei, En. cbn [negb].
    destruct Hs as [[-> ->]|(raw & -> & Eb)].
    + rewrite Z.sub_diag, Z.pow_0_r, !Z.div_1_r in Heq. by apply Z.eqb_eq.
    + rewrite Eb. apply land_mask_eq; [by eapply prefix_bits_range|by eapply toInt_range|by eapply toInt_range|done].
Qed.

Lemma ipMatchesAny_spec ip l :
  ipMatchesAny ip l = true <-> exists raw, raw ∈ l /\ trim raw <> EmptyString /\ in_range ip (trim raw).
Proof.
  induction l as [|raw l IH]; cbn; [split; [done|intros (? & Hin & _); by apply not_elem_of_nil in Hin]|].
  setoid_rewrite elem_of_cons.
  destruct (trim raw) as [|c s] eqn:Et; cbn [truthy negb].
  - rewrite IH. naive_solver.
  - rewrite <- Et. destruct (matchOne ip (trim raw)) eqn:Em.
    + apply matchOne_spec in Em. split; [|done]. intros _. exists raw. split_and!; [by left|congruence|done].
    + rewrite IH. split; [naive_solver|]. intros (r & [->|Hr] & Hne & Hin); [|naive_solver].
      apply matchOne_spec in Hin. congruence.
Qed.

Lemma in_range_valid ip raw : trim raw <> EmptyString -> in_range ip (trim raw) -> isValidIpOrCidr raw = true.
Proof.
  intros Hne (network & suffix & v6 & ipNum & netNum & bits & Hs & Hv & _ & _ & Hn & Hsuf & _).
  unfold isValidIpOrCidr. rewrite Hs, Hv, Hn. destruct (trim raw); [done|]. cbn.
  destruct Hsuf as [[-> _]|(r & -> & Eb)]; [done|]. rewrite Eb. by apply bool_decide_eq_true.
Qed.

(** C31: An enforced, non-empty allowlist admits a caller exactly when the
    caller's address is known and lies in a range some entry names (the leading
    bits of the same address family agree), a range the entry validator accepts;
    every other caller but a platform administrator is refused, and so is one
    whose address cannot be trusted. *)
Theorem allowlist_admits_exactly_its_ranges l clientIp :
  l <> [] ->
  let d := evaluateIpAllowlist mode_enforce (Some l) clientIp false in
  (d = ip_allow <-> exists ip raw, clientIp = Some ip /\ raw ∈ l /\ isValidIpOrCidr raw = true /\ in_range ip (trim raw))
  /\ (d <> ip_allow -> isBlocked d = true).
Proof.
  intros Hl d. subst d. cbn. destruct l as [|x xs] eqn:El; [done|]. rewrite <- El in *. clear El Hl.
  destruct clientIp as [ip|]; [|split; [naive_solver|done]].
  destruct (ipMatchesAny ip l) eqn:Em; (split; [|done]).
  - split; [|done]. intros _. apply ipMatchesAny_spec in Em as (raw & Hr & Hne & Hin).
    exists ip, raw. split_and!; [done|done|by eapply in_range_valid|done].
  - split; [done|]. intros (ip' & raw & [= <-] & Hr & Hv & Hin). exfalso.
    assert (ipMatchesAny ip l = true); [|congruence]. apply ipMatchesAny_spec. exists raw. split_and!; [done| |done].
    intros E. unfold isValidIpOrCidr in Hv. by rewrite E in Hv.
Qed.

Lemma allowlist_witness :
  evaluateIpAllowlist mode_enforce (Some ["10.20.0.0/16"; " 2001:db8::/32 "]%string) (Some "2001:db8:5::1"%string) false = ip_allow
  /\ exists ip raw, Some "2001:db8:5::1"%string = Some ip /\ raw ∈ ["10.20.0.0/16"; " 2001:db8::/32 "]%string
                    /\ isValidIpOrCidr raw = true /\ in_range ip (trim raw).
Proof.
  split; [by vm_compute|].
  apply (proj1 (allowlist_admits_exactly_its_ranges ["10.20.0.0/16"; " 2001:db8::/32 "]%string
    (Some "2001:db8:5::1"%string) ltac:(discriminate))). by vm_compute.
Defined.

(** A saved list takes effect at once on the instance that saved it, and on the
    others once the cached entry has run out. *)
Lemma allowlist_read_fresh stored now p cache :
  (forall v e, cache !! p = Some (v, e) -> e <= now) ->
  (readPartnerAllowlist stored now p cache).2 = stored p
  /\ (readPartnerAllowlist stored now p (clearPartnerAllowlistCache p cache)).2 = stored p.
Proof.
  intros Hold. assert (Hc : clearPartnerAllowlistCache p cache !! p = None) by apply lookup_delete_eq.
  unfold readPartnerAllowlist. rewrite Hc.
  split; [|by destruct (stored p)]. destruct (cache !! p) as [[v e]|] eqn:E; [|by destruct (stored p)].
  specialize (Hold _ _ eq_refl). destruct (now <? e) eqn:El; [apply Z.ltb_lt in El; lia|by destruct (stored p)].
Qed.
