(* ===== verification/UrlSafety.v ===== *)
(** * Outbound requests: which address is dialled

    apps/api/src/services/urlSafety.ts (the blocked ranges and the choice of the
    pinned address in [safeFetch]) and apps/api/src/services/ssrfGuard.ts (the
    static check of a configured URL). The URL parser, [isIP] and the DNS
    resolver are the platform's: a parsed URL is a record, the other two are
    parameters. *)

From stdpp Require Import base gmap strings list option.
From Stdlib Require Import ZArith Lia Ascii.
From S2P Require Import Prelude IpMatch.

(** ** [Number(s)] *)

(** The value of [s] in base [b], when it is a non-empty run of its digits. *)
Fixpoint radix_value (b : Z) (s : string) (acc : Z) : option Z :=
  match s with
  | EmptyString => Some acc
  | String c s' => if is_hex c && (hex_value c <? b) then radix_value b s' (acc * b + hex_value c) else None
  end.

Definition digits_of (s : string) : option Z :=
  match s with EmptyString => None | _ => radix_value 10 s 0 end.

(** A sign, and the rest. *)
Definition signed (s : string) : Z * string :=
  match s with
  | String "-" r => (-1, r)
  | String "+" r => (1, r)
  | _ => (1, s)
  end.

(** [10 ** e * m] when that is an integer. *)
Definition scale (m e : Z) : option Z :=
  if 0 <=? e then Some (m * 10 ^ e)
  else if m mod 10 ^ (- e) =? 0 then Some (m / 10 ^ (- e)) else None.

(** [Number(s)] for a text without a dot, when it is an integer; [None] for NaN,
    infinities and fractions. The decimal value is taken exactly: a double's rounding of
    more than fifteen digits is left out. *)
Definition js_Number (s : string) : option Z :=
  let t := trim s in
  match t with
  | EmptyString => Some 0
  | String "0" (String x r) =>
      let radix := if bool_decide (ascii_lower x = "x"%char) then Some 16
                   else if bool_decide (ascii_lower x = "o"%char) then Some 8
                   else if bool_decide (ascii_lower x = "b"%char) then Some 2 else None in
      match radix, r with
      | Some b, String _ _ => radix_value b r 0
      | Some _, EmptyString => None
      | None, _ => match str_split "e" (toLowerCase t) with
                   | [m] => digits_of m
                   | [m; e] => let '(sg, e') := signed e in
                               match digits_of m, digits_of e' with
                               | Some m', Some k => scale m' (sg * k) | _, _ => None end
                   | _ => None
                   end
      end
  | _ =>
      let '(sign, body) := signed (toLowerCase t) in
      match str_split "e" body with
      | [m] => Z.mul sign <$> digits_of m
      | [m; e] => let '(sg, e') := signed e in
                  match digits_of m, digits_of e' with
                  | Some m', Some k => Z.mul sign <$> scale m' (sg * k) | _, _ => None end
      | _ => None
      end
  end.

(** ** The blocked ranges *)

Definition octet_of (p : string) : option Z :=
  match js_Number p with
  | Some n => if (n <? 0) || (255 <? n) then None else Some n
  | None => None
  end.

Definition parseV4 (ip : string) : option (list Z) :=
  let parts := str_split "." ip in
  if negb (length parts =? 4)%nat then None else mapM octet_of parts.

Definition PRIVATE_V4_MATCHERS : list (Z -> Z -> Z -> bool) :=
  [ (fun a b c => a =? 10);
    (fun a b c => a =? 127);
    (fun a b c => (a =? 192) && (b =? 168));
    (fun a b c => (a =? 172) && (16 <=? b) && (b <=? 31));
    (fun a b c => (a =? 169) && (b =? 254));
    (fun a b c => (a =? 100) && (64 <=? b) && (b <=? 127));
    (fun a b c => a =? 0);
    (fun a b c => 224 <=? a);
    (fun a b c => (a =? 192) && (b =? 0) && (c =? 0));
    (fun a b c => (a =? 192) && (b =? 0) && (c =? 2));
    (fun a b c => (a =? 198) && ((b =? 18) || (b =? 19)));
    (fun a b c => (a =? 198) && (b =? 51) && (c =? 100));
    (fun a b c => (a =? 203) && (b =? 0) && (c =? 113)) ].

Definition isPrivateV4 (ip : string) : bool :=
  match parseV4 ip with
  | Some [a; b; c; _] => existsb (fun m => m a b c) PRIVATE_V4_MATCHERS
  | _ => false
  end.

Definition dotted (a b c d : Z) : string := dec a ++ "." ++ dec b ++ "." ++ dec c ++ "." ++ dec d.

Definition mappedV4 (ip : string) : option string :=
  let lower := toLowerCase ip in
  if negb (startsWith "::ffff:" lower) then None
  else let rest := str_drop 7 lower in
       if includes "." rest then
         match parseV4 rest with Some _ => Some rest | None => None end
       else match str_split ":" rest with
            | [g1; g2] =>
                if group_re g1 && group_re g2 then
                  let hi := parseInt16 g1 0 in let lo := parseInt16 g2 0 in
                  Some (dotted (Z.land (Z.shiftr hi 8) 255) (Z.land hi 255) (Z.land (Z.shiftr lo 8) 255) (Z.land lo 255))
                else None
            | _ => None
            end.

(** [/^fe[89ab]/] *)
Definition fe80_re (s : string) : bool :=
  startsWith "fe8" s || startsWith "fe9" s || startsWith "fea" s || startsWith "feb" s.

Definition isPrivateV6 (ip : string) : bool :=
  let lower := toLowerCase ip in
  if bool_decide (lower = "::"%string) || bool_decide (lower = "::1"%string) then true
  else match mappedV4 lower with
       | Some m => isPrivateV4 m
       | None => startsWith "fc" lower || startsWith "fd" lower || fe80_re lower || startsWith "ff" lower
       end.

Definition isPrivateIp (ip : string) : bool :=
  match ip with
  | EmptyString => true
  | _ => match mappedV4 ip with
         | Some m => isPrivateV4 m
         | None => if includes ":" ip then isPrivateV6 ip else isPrivateV4 ip
         end
  end.

Definition isRfc1918V4 (ip : string) : bool :=
  match parseV4 ip with
  | Some [a; b; _; _] => (a =? 10) || ((a =? 192) && (b =? 168)) || ((a =? 172) && (16 <=? b) && (b <=? 31))
  | _ => false
  end.

Definition isRfc1918OrUla (ip : string) : bool :=
  match ip with
  | EmptyString => false
  | _ => let lower := toLowerCase ip in
         match mappedV4 lower with
         | Some m => isRfc1918V4 m
         | None => if includes ":" lower then startsWith "fc" lower || startsWith "fd" lower else isRfc1918V4 lower
         end
  end.

Definition isAlwaysBlockedIp (ip : string) : bool := if isPrivateIp ip then negb (isRfc1918OrUla ip) else false.

(** ** Choosing the address *)

(** A parsed URL. *)
Record Url : Type := { url_protocol : string; url_hostname : string }.

(** [s.replace(/\]$/, '')] *)
Fixpoint strip_close (s : string) : string :=
  match s with
  | EmptyString => EmptyString
  | String "]" EmptyString => EmptyString
  | String c r => String c (strip_close r)
  end.

(** [s.replace(/^\[|\]$/g, '')] *)
Definition strip_brackets (s : string) : string :=
  strip_close (match s with String "[" r => r | _ => s end).

(** [/^[\d.]+$/] or an address with colons. *)
Definition isLiteral (hostname : string) : bool :=
  (truthy (Some hostname) && str_forallb (fun c => is_digit c || bool_decide (c = "."%char)) hostname)
  || includes ":" hostname.

Inductive FetchRefusal : Type := UnsupportedScheme | BlockedLiteral | LookupFailed | NoRecords | AllBlocked.

Definition blocks (allowPrivateNetwork : bool) : string -> bool :=
  if allowPrivateNetwork then isAlwaysBlockedIp else isPrivateIp.

(** [safeFetch] up to the connection: the address the request is pinned to. *)
Definition safeFetchTarget (dns : string -> option (list string)) (allowPrivateNetwork : bool) (u : Url)
  : result FetchRefusal string :=
  let block := blocks allowPrivateNetwork in
  if negb (bool_decide (url_protocol u = "https:"%string) || bool_decide (url_protocol u = "http:"%string))
  then Err UnsupportedScheme
  else
    let hostname := strip_brackets (url_hostname u) in
    if isLiteral hostname && block hostname then Err BlockedLiteral
    else
      match (if isLiteral hostname then Ok [hostname]
             else match dns hostname with
                  | None => Err LookupFailed
                  | Some [] => Err NoRecords
                  | Some l => Ok l
                  end) with
      | Err e => Err e
      | Ok records =>
          match List.find (fun a => negb (block a)) records with
          | Some a => Ok a
          | None => Err AllBlocked
          end
      end.

(** ** The static guard *)

Inductive SsrfMode : Type := strict_https | on_prem_http | on_prem_strict.

Definition METADATA_HOSTS : list string :=
  ["169.254.169.254"; "169.254.170.2"; "100.100.100.200"; "metadata.google.internal"; "metadata.azure.com"]%string.
Definition LOOPBACK_HOSTNAMES : list string := ["localhost"; "ip6-localhost"; "ip6-loopback"]%string.

Module Guard.

(** [/^::ffff:7f[0-9a-f]{2}:/i] and its like: a prefix, two hex digits, a colon. *)
Definition hex2_colon (s : string) : bool :=
  match s with
  | String a (String b (String ":" _)) => is_hex a && is_hex b
  | _ => false
  end.

Definition after (p s : string) (k : string -> bool) : bool :=
  let lower := toLowerCase s in startsWith p lower && k (str_drop (String.length p) lower).

Definition isLoopbackIp (addr : string) : bool :=
  startsWith "127." addr || bool_decide (addr = "::1"%string) || bool_decide (addr = "0:0:0:0:0:0:0:1"%string)
  || after "::ffff:127." addr (fun _ => true) || after "::ffff:7f" addr hex2_colon.

(** [/^fe[89ab][0-9a-f]?:/i] *)
Definition fe80_colon (s : string) : bool :=
  match s with
  | String ":" _ => true
  | String a (String ":" _) => is_hex a
  | _ => false
  end.

Definition isLinkLocalIp (addr : string) : bool :=
  startsWith "169.254." addr
  || after "fe8" addr fe80_colon || after "fe9" addr fe80_colon || after "fea" addr fe80_colon
  || after "feb" addr fe80_colon.

(** [/^172\.(\d+)\./]: the digits before the next dot. *)
Definition octet_between (p addr : string) (lo hi : Z) : bool :=
  startsWith p addr
  && match str_split "." (str_drop (String.length p) addr) with
     | (String _ _ as o) :: _ :: _ =>
         str_forallb is_digit o && (lo <=? digits_value o 0) && (digits_value o 0 <=? hi)
     | _ => false
     end.

(** [(1[6-9]|2[0-9]|3[01])\.] *)
Definition re_16_31 (s : string) : bool :=
  match s with
  | String a (String b (String "." _)) =>
      is_digit a && is_digit b
      && let n := digits_value (String a (String b EmptyString)) 0 in (16 <=? n) && (n <=? 31)
  | _ => false
  end.

(** [/^::ffff:ac1[0-9a-f]:/i] *)
Definition hex1_colon (s : string) : bool :=
  match s with String a (String ":" _) => is_hex a | _ => false end.

Definition isPrivateIp (addr : string) : bool :=
  startsWith "10." addr || startsWith "192.168." addr
  || octet_between "172." addr 16 31 || octet_between "100." addr 64 127
  || after "fc" addr hex2_colon || after "fd" addr hex2_colon
  || after "::ffff:10." addr (fun _ => true) || after "::ffff:192.168." addr (fun _ => true)
  || after "::ffff:172." addr re_16_31
  || after "::ffff:0a" addr hex2_colon || after "::ffff:c0a8:" addr (fun _ => true)
  || after "::ffff:ac1" addr hex1_colon.

Definition isUnspecifiedIp (addr : string) : bool :=
  bool_decide (addr ∈ ["0.0.0.0"; "::"; "0:0:0:0:0:0:0:0"]%string).

Fixpoint endsWith (suffix s : string) : bool :=
  bool_decide (s = suffix) || match s with String _ r => endsWith suffix r | EmptyString => false end.

Definition strict (m : SsrfMode) : bool := match m with on_prem_http => false | _ => true end.

(** [checkSsrfSafe(rawUrl, opts)]; the URL is [None] when it does not parse. *)
Definition checkSsrfSafe (isIP : string -> bool) (url : option Url) (mode : SsrfMode) (hostnameAllowlist : list string)
  : bool :=
  match url with
  | None => false
  | Some u =>
      let https := bool_decide (url_protocol u = "https:"%string) in
      if match mode with strict_https => negb https | _ => false end then false
      else if negb (https || bool_decide (url_protocol u = "http:"%string)) then false
      else
        let host := strip_brackets (toLowerCase (url_hostname u)) in
        if negb (truthy (Some host)) then false
        else if bool_decide (host ∈ LOOPBACK_HOSTNAMES) then false
        else if bool_decide (host ∈ METADATA_HOSTS) then false
        else if isIP host && (isLoopbackIp host || isLinkLocalIp host || isUnspecifiedIp host
                              || (strict mode && isPrivateIp host)) then false
        else match hostnameAllowlist with
             | [] => true
             | l => existsb (fun suffix => endsWith (toLowerCase suffix) host) l
             end
  end.

End Guard.

Example private_hex : isPrivateIp "::FFFF:a9fe:a9fe" = true. Proof. by vm_compute. Qed.
Example private_octal : isPrivateIp "0x7f.0.0.1" = true. Proof. by vm_compute. Qed.
Example public_v4 : isPrivateIp "8.8.8.8" = false. Proof. by vm_compute. Qed.
Example guard_metadata :
  Guard.checkSsrfSafe (fun _ => true) (Some {| url_protocol := "https:"; url_hostname := "[::ffff:a9fe:a9fe]" |}) strict_https [] = true.
Proof. by vm_compute. Qed.

(** ** Lemmas *)

Definition byte_ok (o : Z) : bool :=
  bool_decide (octet_of (dec o) = Some o) && octet_re (dec o) && (digits_value (dec o) 0 =? o)
  && lacks "." (dec o) && lacks ":" (dec o) && bool_decide (toLowerCase (dec o) = dec o).

Lemma bytes_ok o : 0 <= o < 256 -> byte_ok o = true.
Proof.
  intros Ho. assert (H : forallb byte_ok (seqZ 0 256) = true) by by vm_compute.
  rewrite forallb_forall in H. apply H, list_elem_of_In, elem_of_seqZ. lia.
Qed.

(** The address as a 32-bit number. *)
Definition v4_number (a b c d : Z) : Z := ((a * 256 + b) * 256 + c) * 256 + d.

Section dotted_quad.
Context (a b c d : Z).
Hypothesis Ha : 0 <= a < 256.
Hypothesis Hb : 0 <= b < 256.
Hypothesis Hc : 0 <= c < 256.
Hypothesis Hd : 0 <= d < 256.

Lemma dotted_split : str_split "." (dotted a b c d) = [dec a; dec b; dec c; dec d].
Proof using Ha Hb Hc Hd.
  pose proof (bytes_ok _ Ha). pose proof (bytes_ok _ Hb). pose proof (bytes_ok _ Hc). pose proof (bytes_ok _ Hd).
  unfold byte_ok in *. bool_hyps. unfold dotted.
  repeat match goal with |- context [("." ++ ?x)%string] => change ("." ++ x)%string with (String "." x) end.
  repeat first [rewrite split_lacks by done | rewrite (split_part "." _ _) by done]. done.
Qed.

Lemma parseV4_dotted : parseV4 (dotted a b c d) = Some [a; b; c; d].
Proof using Ha Hb Hc Hd.
  pose proof (bytes_ok _ Ha). pose proof (bytes_ok _ Hb). pose proof (bytes_ok _ Hc). pose proof (bytes_ok _ Hd).
  unfold byte_ok in *. bool_hyps. unfold parseV4. rewrite dotted_split. cbn [length Nat.eqb negb].
  apply mapM_Some. by repeat constructor.
Qed.

Lemma push_byte r o : 0 <= o < 256 -> push_octet (Some r) (dec o) = Some (r * 256 + o).
Proof using.
  intros Ho. pose proof (bytes_ok _ Ho). unfold byte_ok in *. bool_hyps.
  unfold push_octet. replace (octet_re (dec o)) with true by done. cbn [negb].
  replace (digits_value (dec o) 0) with o by done. rewrite (proj2 (Z.ltb_ge _ _)) by lia.
  f_equal. apply (lor_shift r 8); lia.
Qed.

Lemma ipv4ToInt_dotted : ipv4ToInt (dotted a b c d) = Some (v4_number a b c d).
Proof using Ha Hb Hc Hd.
  unfold ipv4ToInt. rewrite dotted_split. cbn [length negb Nat.eqb fold_left].
  by rewrite !push_byte.
Qed.

End dotted_quad.

Lemma toLowerCase_app s t : toLowerCase (s ++ t) = (toLowerCase s ++ toLowerCase t)%string.
Proof. induction s as [|c s IH]; [done|]. simpl. by rewrite IH. Qed.

Lemma startsWith_app p t : startsWith p (p ++ t) = true.
Proof. induction p as [|c p IH]; [done|]. simpl. by rewrite bool_decide_eq_true_2. Qed.

Lemma startsWith_1 x t : startsWith (String x "") t = match t with String y _ => bool_decide (x = y) | _ => false end.
Proof. destruct t; cbn; [done|]. by rewrite andb_true_r. Qed.

(** A one-character text occurs exactly where the character does. *)
Lemma includes_lacks x s : includes (String x "") s = negb (lacks x s).
Proof.
  unfold lacks. induction s as [|c s IH]; [done|].
  change (includes (String x "") (String c s)) with (startsWith (String x "") (String c s) || includes (String x "") s).
  rewrite IH, startsWith_1. cbn [str_forallb].
  rewrite (bool_decide_ext (x = c) (c = x)) by done. by destruct (bool_decide _).
Qed.

Lemma lacks_app x s t : lacks x (s ++ t) = lacks x s && lacks x t.
Proof. unfold lacks. induction s as [|c s IH]; [done|]. simpl. by rewrite IH, andb_assoc. Qed.

Lemma ascii_lower_lower c : ascii_lower (ascii_lower c) = ascii_lower c.
Proof. by destruct c as [[] [] [] [] [] [] [] []]. Qed.

Lemma toLowerCase_hex g :
  str_forallb is_hex (toLowerCase g) = str_forallb is_hex g
  /\ String.length (toLowerCase g) = String.length g
  /\ forall acc, parseInt16 (toLowerCase g) acc = parseInt16 g acc.
Proof.
  assert (Hv : forall c, hex_value (ascii_lower c) = hex_value c) by by intros [[] [] [] [] [] [] [] []].
  induction g as [|c g (IH1 & IH2 & IH3)]; [done|]. cbn. unfold is_hex in *.
  rewrite ascii_lower_lower, IH1, IH2. split_and!; [done..|]. intros acc. by rewrite Hv.
Qed.

Lemma hex_lacks x g : is_hex x = false -> str_forallb is_hex g = true -> lacks x g = true.
Proof.
  intros Hx. apply str_forallb_impl. intros c Hc. case_bool_decide; [|done]. subst c. by rewrite Hx in Hc.
Qed.

(** ** The spellings of one IPv4 address *)

(** The prefix of a mapped address, in any case. *)
Definition mapped_prefix (p : string) : Prop := toLowerCase p = "::ffff:"%string.

Section spellings.
Context (a b c d : Z).
Hypothesis Ha : 0 <= a < 256.
Hypothesis Hb : 0 <= b < 256.
Hypothesis Hc : 0 <= c < 256.
Hypothesis Hd : 0 <= d < 256.

Lemma dotted_shape :
  toLowerCase (dotted a b c d) = dotted a b c d /\ lacks ":" (dotted a b c d) = true
  /\ lacks "." (dotted a b c d) = false.
Proof using Ha Hb Hc Hd.
  pose proof (bytes_ok _ Ha). pose proof (bytes_ok _ Hb). pose proof (bytes_ok _ Hc). pose proof (bytes_ok _ Hd).
  unfold byte_ok in *. bool_hyps. unfold dotted. rewrite !toLowerCase_app, !lacks_app.
  split_and!.
  - repeat match goal with H : toLowerCase _ = _ |- _ => rewrite H; clear H end. done.
  - repeat match goal with H : lacks ":" _ = true |- _ => rewrite H; clear H end. done.
  - by rewrite !andb_false_r.
Qed.

Lemma mappedV4_dotted_plain : mappedV4 (dotted a b c d) = None.
Proof using Ha Hb Hc Hd.
  destruct dotted_shape as (Hl & Hcol & _). unfold mappedV4. rewrite Hl.
  destruct (startsWith _ _) eqn:E; [|done]. destruct (dotted a b c d) as [|x s]; [done|].
  cbn in E, Hcol. bool_hyps. subst x. done.
Qed.

Lemma mappedV4_dotted p : mapped_prefix p -> mappedV4 (p ++ dotted a b c d) = Some (dotted a b c d).
Proof using Ha Hb Hc Hd.
  intros Hp. destruct dotted_shape as (Hl & _ & Hdot). unfold mappedV4. rewrite toLowerCase_app, Hp, Hl.
  rewrite (startsWith_app "::ffff:"). change (negb true) with false. cbv iota.
  change 7%nat with (String.length "::ffff:" + 0)%nat. rewrite str_drop_app. cbn [str_drop].
  rewrite includes_lacks, Hdot, parseV4_dotted by done. done.
Qed.

Lemma mappedV4_hex p g1 g2 :
  mapped_prefix p -> group_re g1 = true -> group_re g2 = true ->
  parseInt16 g1 0 = a * 256 + b -> parseInt16 g2 0 = c * 256 + d ->
  mappedV4 (p ++ g1 ++ ":" ++ g2) = Some (dotted a b c d).
Proof using Ha Hb Hc Hd.
  intros Hp H1 H2 V1 V2. destruct (toLowerCase_hex g1) as (X1 & L1 & P1). destruct (toLowerCase_hex g2) as (X2 & L2 & P2).
  unfold group_re in H1, H2. rewrite <- X1, <- L1 in H1. rewrite <- X2, <- L2 in H2. rewrite <- P1 in V1. rewrite <- P2 in V2.
  unfold mappedV4. rewrite !toLowerCase_app, Hp.
  rewrite (startsWith_app "::ffff:"). change (negb true) with false. cbv iota.
  change 7%nat with (String.length "::ffff:" + 0)%nat. rewrite str_drop_app. cbn [str_drop].
  change (toLowerCase ":") with ":"%string.
  change (":" ++ toLowerCase g2)%string with (String ":" (toLowerCase g2)).
  pose proof (proj2 (andb_prop _ _ H1)). pose proof (proj2 (andb_prop _ _ H2)).
  rewrite includes_lacks, lacks_app. change (lacks "." (String ":" (toLowerCase g2))) with (lacks "." (toLowerCase g2)).
  rewrite !hex_lacks by done. cbn [negb andb].
  rewrite split_part, split_lacks by (by apply hex_lacks).
  change (group_re (toLowerCase g1) && group_re (toLowerCase g2)) with
    (((1 <=? String.length (toLowerCase g1))%nat && (String.length (toLowerCase g1) <=? 4)%nat && str_forallb is_hex (toLowerCase g1))
     && ((1 <=? String.length (toLowerCase g2))%nat && (String.length (toLowerCase g2) <=? 4)%nat && str_forallb is_hex (toLowerCase g2))).
  rewrite H1, H2, V1, V2. cbn [andb].
  assert (Hbyte : forall x y, 0 <= x < 256 -> 0 <= y < 256 ->
            Z.land (Z.shiftr (x * 256 + y) 8) 255 = x /\ Z.land (x * 256 + y) 255 = y).
  { intros x y Hx Hy. rewrite Z.shiftr_div_pow2, !(Z.land_ones _ 8) by lia. change (2 ^ 8) with 256.
    rewrite Z.div_add_l, Z.div_small, Z.add_0_r, Z.mod_small by lia. split; [done|].
    rewrite Z.add_comm, Z.mod_add, Z.mod_small by lia. done. }
  destruct (Hbyte a b Ha Hb) as [-> ->]. by destruct (Hbyte c d Hc Hd) as [-> ->].
Qed.

End spellings.

(** ** The blocked ranges, as the source documents them *)

Definition BLOCKED_V4_RANGES : list string :=
  ["10.0.0.0/8"; "127.0.0.0/8"; "192.168.0.0/16"; "172.16.0.0/12"; "169.254.0.0/16"; "100.64.0.0/10";
   "0.0.0.0/8"; "224.0.0.0/4"; "240.0.0.0/4"; "192.0.0.0/24"; "192.0.2.0/24"; "198.18.0.0/15";
   "198.51.100.0/24"; "203.0.113.0/24"]%string.

Definition RFC1918_RANGES : list string := ["10.0.0.0/8"; "192.168.0.0/16"; "172.16.0.0/12"]%string.

(** A range of the table, as its network number and the size of its host part. *)
Definition v4_range (entry : string) : Z * Z :=
  let '(network, suffix) := split_entry (trim entry) in
  (default 0 (ipv4ToInt network), 2 ^ (32 - default 0 (suffix ≫= prefix_bits false))).

Definition v4_entry (entry : string) : bool :=
  let '(network, suffix) := split_entry (trim entry) in
  negb (isV6 network) && bool_decide (ipv4ToInt network <> None)
  && bool_decide (suffix ≫= prefix_bits false <> None) && truthy (Some (trim entry)).

Lemma matchOne_v4 ip n entry :
  isV6 ip = false -> ipv4ToInt ip = Some n -> v4_entry entry = true ->
  matchOne ip (trim entry) = (n / (v4_range entry).2 =? (v4_range entry).1 / (v4_range entry).2).
Proof.
  intros Hv Hn He. unfold v4_entry, v4_range, matchOne in *. destruct (split_entry (trim entry)) as [network suffix].
  bool_hyps. replace (isV6 network) with false by done. rewrite Hv. cbn [Bool.eqb negb toInt].
  rewrite Hn. destruct (ipv4ToInt network) as [m|] eqn:Em; [|done].
  destruct suffix as [raw|]; [|done]. cbn in *. destruct (prefix_bits false raw) as [bits|] eqn:Eb; [|done]. cbn.
  apply Bool.eq_true_iff_eq. rewrite (Z.eqb_eq (n / _)). apply (land_mask_eq 32);
    [by eapply (prefix_bits_range false)|by eapply ipv4ToInt_range|by eapply ipv4ToInt_range].
Qed.

Lemma ipMatchesAny_v4 ip n l :
  isV6 ip = false -> ipv4ToInt ip = Some n -> forallb v4_entry l = true ->
  ipMatchesAny ip l = existsb (fun r => n / r.2 =? r.1 / r.2) (map v4_range l).
Proof.
  intros Hv Hn. induction l as [|e l IH]; [done|]. cbn [forallb ipMatchesAny map existsb]. intros H. bool_hyps.
  assert (Ht : truthy (Some (trim e)) = true).
  { unfold v4_entry in *. destruct (split_entry _). by bool_hyps. }
  rewrite Ht. cbn [negb]. rewrite (matchOne_v4 ip n), IH by done. by destruct (_ =? _).
Qed.

(** The octet tests of the source are the range tests of its comments. *)
Section ranges.
Context (a b c d : Z).
Hypothesis Ha : 0 <= a < 256.
Hypothesis Hb : 0 <= b < 256.
Hypothesis Hc : 0 <= c < 256.
Hypothesis Hd : 0 <= d < 256.

Lemma quad_div :
  v4_number a b c d / 16777216 = a /\ v4_number a b c d / 65536 = a * 256 + b
  /\ v4_number a b c d / 256 = (a * 256 + b) * 256 + c /\ v4_number a b c d / 1048576 = a * 16 + b / 16
  /\ v4_number a b c d / 4194304 = a * 4 + b / 64 /\ v4_number a b c d / 131072 = a * 128 + b / 2
  /\ v4_number a b c d / 268435456 = a / 16.
Proof using Ha Hb Hc Hd.
  unfold v4_number. split_and!; Z.to_euclidean_division_equations; lia.
Qed.

End ranges.

(** One test of the chain against one range. *)
Ltac one_range a b c d Ha Hb Hc Hd :=
  apply Bool.eq_true_iff_eq;
  rewrite ?orb_true_iff, ?andb_true_iff, ?orb_true_iff, ?Z.eqb_eq, ?Z.leb_le;
  let Q := fresh in pose proof (quad_div a b c d Ha Hb Hc Hd) as Q; decompose [and] Q; clear Q;
  repeat match goal with H : v4_number _ _ _ _ / _ = _ |- _ => first [rewrite H | idtac]; clear H end;
  match goal with |- context [?x = (?k / ?m)%Z] => let v := eval vm_compute in (k / m)%Z in change (k / m)%Z with v end;
  Z.to_euclidean_division_equations; lia.

Section matchers.
Context (a b c d : Z).
Hypothesis Ha : 0 <= a < 256.
Hypothesis Hb : 0 <= b < 256.
Hypothesis Hc : 0 <= c < 256.
Hypothesis Hd : 0 <= d < 256.

Lemma matchers_are_ranges :
  existsb (fun m => m a b c) PRIVATE_V4_MATCHERS = ipMatchesAny (dotted a b c d) BLOCKED_V4_RANGES.
Proof using Ha Hb Hc Hd.
  rewrite (ipMatchesAny_v4 _ (v4_number a b c d));
    [|unfold isV6; rewrite includes_lacks; by destruct (dotted_shape a b c d) as (_ & -> & _)
     |by apply ipv4ToInt_dotted|by vm_compute].
  set (l := map v4_range BLOCKED_V4_RANGES). vm_compute in l. subst l. unfold PRIVATE_V4_MATCHERS.
  cbn [existsb fst snd]. do 7 (apply (f_equal2 orb); [one_range a b c d Ha Hb Hc Hd|]).
  match goal with |- _ = ?r1 || (?r2 || ?x) => rewrite (orb_assoc r1 r2 x) end. apply (f_equal2 orb).
  { apply Bool.eq_true_iff_eq. rewrite orb_true_iff, !Z.eqb_eq, Z.leb_le.
    destruct (quad_div a b c d Ha Hb Hc Hd) as (_ & _ & _ & _ & _ & _ & ->).
    change (3758096384 / 268435456) with 14. change (4026531840 / 268435456) with 15.
    Z.to_euclidean_division_equations; lia. }
  by repeat (apply (f_equal2 orb); [one_range a b c d Ha Hb Hc Hd|]).
Qed.
Lemma rfc1918_are_ranges :
  isRfc1918V4 (dotted a b c d) = ipMatchesAny (dotted a b c d) RFC1918_RANGES.
Proof using Ha Hb Hc Hd.
  unfold isRfc1918V4. rewrite parseV4_dotted by done.
  rewrite (ipMatchesAny_v4 _ (v4_number a b c d));
    [|unfold isV6; rewrite includes_lacks; by destruct (dotted_shape a b c d) as (_ & -> & _)
     |by apply ipv4ToInt_dotted|by vm_compute].
  set (l := map v4_range RFC1918_RANGES). vm_compute in l. subst l. cbn [existsb fst snd].
  rewrite orb_false_r, orb_assoc. repeat apply (f_equal2 orb); one_range a b c d Ha Hb Hc Hd.
Qed.
End matchers.

(** The texts that name the address [a.b.c.d]: dotted, mapped with a dotted tail, and
    mapped with two groups, in either case. *)
Inductive spells (a b c d : Z) : string -> Prop :=
| spells_dotted : spells a b c d (dotted a b c d)
| spells_mapped p : mapped_prefix p -> spells a b c d (p ++ dotted a b c d)
| spells_hex p g1 g2 :
    mapped_prefix p -> group_re g1 = true -> group_re g2 = true ->
    parseInt16 g1 0 = a * 256 + b -> parseInt16 g2 0 = c * 256 + d ->
    spells a b c d (p ++ g1 ++ ":" ++ g2).

Lemma toLowerCase_idem s : toLowerCase (toLowerCase s) = toLowerCase s.
Proof. induction s as [|x s IH]; [done|]. cbn. by rewrite ascii_lower_lower, IH. Qed.

Lemma mappedV4_lower s : mappedV4 (toLowerCase s) = mappedV4 s.
Proof. unfold mappedV4. by rewrite toLowerCase_idem. Qed.

Section addresses.
Context (a b c d : Z) (s : string).
Hypothesis Ha : 0 <= a < 256.
Hypothesis Hb : 0 <= b < 256.
Hypothesis Hc : 0 <= c < 256.
Hypothesis Hd : 0 <= d < 256.
Hypothesis Hs : spells a b c d s.

Lemma spells_cases :
  s <> EmptyString /\ (mappedV4 s = Some (dotted a b c d) \/ mappedV4 s = None /\ s = dotted a b c d).
Proof using Ha Hb Hc Hd Hs.
  assert (Hne : forall p t, mapped_prefix p -> (p ++ t)%string <> EmptyString) by by intros [|??] t.
  destruct Hs as [|p Hp|p g1 g2 Hp H1 H2 V1 V2].
  - destruct (dotted_shape a b c d) as (_ & _ & Hdot); try done.
    split; [by destruct (dotted a b c d)|]. right. by rewrite mappedV4_dotted_plain.
  - split; [by apply Hne|]. left. by apply mappedV4_dotted.
  - split; [by apply Hne|]. left. by apply mappedV4_hex.
Qed.

Lemma spelled_private : isPrivateIp s = isPrivateV4 (dotted a b c d).
Proof using Ha Hb Hc Hd Hs.
  destruct spells_cases as (Hne & [Hm|[Hm ->]]); unfold isPrivateIp.
  - destruct s; [done|]. by rewrite Hm.
  - destruct (dotted a b c d) as [|x t] eqn:E; [done|]. rewrite <- E, Hm in *.
    rewrite includes_lacks. by destruct (dotted_shape a b c d) as (_ & -> & _).
Qed.

Lemma spelled_rfc1918 : isRfc1918OrUla s = isRfc1918V4 (dotted a b c d).
Proof using Ha Hb Hc Hd Hs.
  destruct spells_cases as (Hne & [Hm|[Hm ->]]); unfold isRfc1918OrUla.
  - destruct s; [done|]. by rewrite mappedV4_lower, Hm.
  - destruct (dotted_shape a b c d) as (Hl & Hcol & _); try done.
    destruct (dotted a b c d) as [|x t] eqn:E; [done|]. rewrite <- E, mappedV4_lower, Hm, Hl, includes_lacks in *.
    by rewrite Hcol.
Qed.

End addresses.

(** The octet tests of [isPrivateIp] are exactly the address ranges its
    comments list, for every IPv4 address and every spelling of it the network
    layer accepts (dotted, mapped with a dotted tail, mapped with two hexadecimal
    groups, any case); with private networks allowed, the same minus RFC 1918. *)
Lemma blocked_addresses_are_the_documented_ranges a b c d s :
  0 <= a < 256 -> 0 <= b < 256 -> 0 <= c < 256 -> 0 <= d < 256 -> spells a b c d s ->
  isPrivateIp s = ipMatchesAny (dotted a b c d) BLOCKED_V4_RANGES
  /\ isAlwaysBlockedIp s = ipMatchesAny (dotted a b c d) BLOCKED_V4_RANGES
                           && negb (ipMatchesAny (dotted a b c d) RFC1918_RANGES).
Proof.
  intros Ha Hb Hc Hd Hs.
  assert (Hp : isPrivateIp s = ipMatchesAny (dotted a b c d) BLOCKED_V4_RANGES).
  { rewrite (spelled_private a b c d s) by done. unfold isPrivateV4. rewrite parseV4_dotted by done.
    by apply matchers_are_ranges. }
  split; [done|]. unfold isAlwaysBlockedIp.
  rewrite Hp, (spelled_rfc1918 a b c d s), rfc1918_are_ranges by done. by destruct (ipMatchesAny _ BLOCKED_V4_RANGES).
Qed.

Lemma blocked_addresses_witness :
  isPrivateIp "::FFFF:A9fe:a9fe" = true
  /\ isPrivateIp "::FFFF:A9fe:a9fe" = ipMatchesAny (dotted 169 254 169 254) BLOCKED_V4_RANGES.
Proof.
  split; [by vm_compute|].
  refine (proj1 (blocked_addresses_are_the_documented_ranges 169 254 169 254 "::FFFF:A9fe:a9fe"
            ltac:(lia) ltac:(lia) ltac:(lia) ltac:(lia) _)).
  exact (spells_hex 169 254 169 254 "::FFFF:" "A9fe" "a9fe" eq_refl eq_refl eq_refl eq_refl eq_refl).
Defined.

(** The address a request is pinned to passed the blocking test and came from the
    URL itself or from the one lookup. *)
Lemma safeFetchTarget_Ok dns allow u addr :
  safeFetchTarget dns allow u = Ok addr ->
  let hostname := strip_brackets (url_hostname u) in
  blocks allow addr = false
  /\ (isLiteral hostname = true /\ addr = hostname
      \/ isLiteral hostname = false /\ exists l, dns hostname = Some l /\ addr ∈ l).
Proof.
  unfold safeFetchTarget. destruct (negb _); [done|]. cbn zeta.
  set (h := strip_brackets _). destruct (isLiteral h) eqn:El; cbn [andb].
  - destruct (blocks allow h) eqn:Eb; [done|]. cbn. rewrite Eb. cbn. intros [= <-]. auto.
  - destruct (dns h) as [[|x l]|]; [done| |done].
    destruct (List.find _ _) as [y|] eqn:Ef; [|done]. intros [= <-].
    apply List.find_some in Ef as [Hin Hb]. bool_hyps. split; [done|]. right. split; [done|].
    exists (x :: l). split; [done|]. by apply list_elem_of_In.
Qed.

Lemma blocks_always allow s : blocks allow s = false -> isAlwaysBlockedIp s = false /\ (allow = false -> isPrivateIp s = false).
Proof. destruct allow; cbn; [done|]. intros H. unfold isAlwaysBlockedIp. by rewrite H. Qed.

(** ** IPv6 addresses *)

(** The text of an IPv6 address begins with a group of value [v]. *)
Definition first_group (addr : string) (v : Z) : Prop :=
  exists g rest, addr = (g ++ ":" ++ rest)%string /\ group_re g = true /\ parseInt16 g 0 = v.

Lemma hex_lower c k : is_hex c = true -> hex_value c = k -> ascii_lower c = hex_digit k.
Proof. intros H <-. destruct c as [[] [] [] [] [] [] [] []]; vm_compute in H; try discriminate; by vm_compute. Qed.

(** A group of at least 4096 has four digits. *)
Lemma four_digits g : group_re g = true -> 4096 <= parseInt16 g 0 ->
  exists c1 c2 c3 c4 x1 x2 x3 x4, g = String c1 (String c2 (String c3 (String c4 EmptyString)))
    /\ toLowerCase g = String (hex_digit x1) (String (hex_digit x2) (String (hex_digit x3) (String (hex_digit x4) EmptyString)))
    /\ 0 <= x1 < 16 /\ 0 <= x2 < 16 /\ 0 <= x3 < 16 /\ 0 <= x4 < 16
    /\ parseInt16 g 0 = x1 * 4096 + x2 * 256 + x3 * 16 + x4.
Proof.
  intros Hg Hv. unfold group_re in Hg. destruct g as [|c1 [|c2 [|c3 [|c4 [|c5 g]]]]]; cbn in Hg, Hv; bool_hyps;
    repeat match goal with H : is_hex ?c = true |- _ => let Hr := fresh in pose proof (hex_value_range c H) as Hr;
      let Hl := fresh in pose proof (hex_lower c _ H eq_refl) as Hl; clear H end; try lia.
  exists c1, c2, c3, c4, (hex_value c1), (hex_value c2), (hex_value c3), (hex_value c4). cbn. split_and!; try lia; congruence.
Qed.

(** What the code asks of such a text. *)
Lemma v6_tests g rest : group_re g = true -> 4096 <= parseInt16 g 0 ->
  let lower := toLowerCase (g ++ ":" ++ rest) in
  isPrivateIp (g ++ ":" ++ rest) = (startsWith "fc" lower || startsWith "fd" lower || fe80_re lower || startsWith "ff" lower)
  /\ isRfc1918OrUla (g ++ ":" ++ rest) = (startsWith "fc" lower || startsWith "fd" lower).
Proof.
  intros Hg Hv. destruct (four_digits g Hg Hv) as (c1 & c2 & c3 & c4 & x1 & x2 & x3 & x4 & Eg & El & H1 & _).
  assert (Hm : mappedV4 (g ++ ":" ++ rest) = None).
  { unfold mappedV4. rewrite toLowerCase_app, El.
    assert (Hs : forall x p y s, x <> y -> startsWith (String x p) (String y s) = false)
      by (intros x p y s Hn; cbn; by rewrite bool_decide_eq_false_2).
    match goal with |- context [startsWith ?p ?s] => replace (startsWith p s) with false; [done|] end. symmetry. apply Hs.
    assert (Hd : forallb (fun k => negb (bool_decide (":"%char = hex_digit k))) (seqZ 0 16) = true) by by vm_compute.
    rewrite forallb_forall in Hd. specialize (Hd x1). rewrite negb_true_iff, bool_decide_eq_false in Hd. apply Hd, list_elem_of_In, elem_of_seqZ. lia. }
  assert (Hc : forall s, toLowerCase (g ++ ":" ++ rest) = s -> s <> "::"%string /\ s <> "::1"%string).
  { intros s <-. rewrite toLowerCase_app, El. split; intros E; inversion E. }
  assert (Hi : includes ":" (g ++ ":" ++ rest) = true /\ includes ":" (toLowerCase (g ++ ":" ++ rest)) = true).
  { rewrite !includes_lacks, !toLowerCase_app, !lacks_app. cbn. by rewrite !andb_false_r. }
  destruct Hi as [Hi1 Hi2]. destruct (Hc _ eq_refl) as [Hc1 Hc2]. intros lower. split.
  - unfold isPrivateIp, isPrivateV6. rewrite Hm, Hi1, mappedV4_lower, Hm. fold lower in Hc1, Hc2 |- *.
    rewrite !bool_decide_eq_false_2 by done. cbn [orb]. subst lower. destruct (g ++ ":" ++ rest)%string eqn:E; [by rewrite Eg in E|done].
  - unfold isRfc1918OrUla. rewrite mappedV4_lower, Hm, Hi2. subst lower. destruct (g ++ ":" ++ rest)%string eqn:E; [by rewrite Eg in E|done].
Qed.

(** The tests are the ranges fc00::/7, fe80::/10 and ff00::/8. *)
Lemma v6_ranges addr v : first_group addr v ->
  (64512 <= v <= 65023 -> isPrivateIp addr = true /\ isRfc1918OrUla addr = true)
  /\ (65152 <= v <= 65215 \/ 65280 <= v <= 65535 -> isPrivateIp addr = true /\ isRfc1918OrUla addr = false).
Proof.
  intros (g & rest & -> & Hg & <-).
  assert (Hx : forall x y z, parseInt16 g 0 = 15 * 4096 + x * 256 + y * 16 + z -> 0 <= x < 16 -> 0 <= y < 16 -> 0 <= z < 16 ->
    (64512 <= parseInt16 g 0 <= 65023 -> x = 12 \/ x = 13)
    /\ (65152 <= parseInt16 g 0 <= 65215 -> x = 14 /\ (y = 8 \/ y = 9 \/ y = 10 \/ y = 11)) /\ (65280 <= parseInt16 g 0 <= 65535 -> x = 15))
    by (intros; lia).
  split; intros Hv; (assert (Hlo : 61440 <= parseInt16 g 0) by lia);
    destruct (v6_tests g rest Hg ltac:(lia)) as [-> ->]; rewrite toLowerCase_app;
    destruct (four_digits g Hg ltac:(lia)) as (c1 & c2 & c3 & c4 & x1 & x2 & x3 & x4 & _ & -> & H1 & H2 & H3 & H4 & Ev);
    assert (x1 = 15) as -> by lia; destruct (Hx x2 x3 x4 Ev H2 H3 H4) as (A & B & C).
  - by destruct (A Hv) as [-> | ->].
  - destruct Hv as [Hv|Hv]; [|by rewrite (C Hv)]. by destruct (B Hv) as (-> & [-> | [-> | [-> | ->]]]).
Qed.

(** C26: Whatever name the URL carries and whatever the resolver answers, the request is
    pinned to the literal of the URL or to an address of the single lookup, and never to a
    blocked one. For IPv4 these are the ranges the source lists, and the address may be
    written dotted, mapped with a dotted tail or mapped with two groups, in either case of
    letters; with private networks allowed RFC 1918 is excepted. For IPv6 they are [::] and
    [::1] as the platform writes them, fc00::/7, fe80::/10 and ff00::/8; with private
    networks allowed fc00::/7 is excepted. *)
Theorem requests_never_reach_a_blocked_address dns allow u addr :
  safeFetchTarget dns allow u = Ok addr ->
  (addr = strip_brackets (url_hostname u)
   \/ exists l, dns (strip_brackets (url_hostname u)) = Some l /\ addr ∈ l)
  /\ (forall a b c d, 0 <= a < 256 -> 0 <= b < 256 -> 0 <= c < 256 -> 0 <= d < 256 -> spells a b c d addr ->
        ipMatchesAny (dotted a b c d) BLOCKED_V4_RANGES = true ->
        allow = true /\ ipMatchesAny (dotted a b c d) RFC1918_RANGES = true)
  /\ addr <> "::"%string /\ addr <> "::1"%string
  /\ (forall v, first_group addr v ->
        (64512 <= v <= 65023 -> allow = true) /\ ~ (65152 <= v <= 65215) /\ ~ (65280 <= v <= 65535)).
Proof.
  intros H. apply safeFetchTarget_Ok in H as (Hb & Hor). cbn zeta in Hor. split; [naive_solver|].
  apply blocks_always in Hb as (Halw & Hpriv). unfold isAlwaysBlockedIp in Halw. split_and!.
  - intros a b c d Ha Hb' Hc Hd Hs Hr.
    rewrite <- rfc1918_are_ranges by done. rewrite <- matchers_are_ranges in Hr by done.
    assert (Hp : isPrivateIp addr = true).
    { rewrite (spelled_private a b c d addr) by done. unfold isPrivateV4. by rewrite parseV4_dotted. }
    rewrite Hp, (spelled_rfc1918 a b c d addr) in Halw by done. bool_hyps.
    split; [|done]. destruct allow; [done|]. rewrite Hpriv in Hp by done. done.
  - intros ->. by vm_compute in Halw.
  - intros ->. by vm_compute in Halw.
  - intros v [Hula Hbad]%v6_ranges. split_and!.
    + intros Hv. destruct (Hula Hv) as [Hp _]. destruct allow; [done|]. by rewrite Hpriv in Hp.
    + intros Hv. destruct (Hbad (or_introl Hv)) as [Hp Hu]. by rewrite Hp, Hu in Halw.
    + intros Hv. destruct (Hbad (or_intror Hv)) as [Hp Hu]. by rewrite Hp, Hu in Halw.
Qed.

Lemma requests_witness :
  let dns := fun _ : string => Some ["fe80::1"; "fd12:3456::5"]%string in
  let u := {| url_protocol := "https:"; url_hostname := "pihole.lan" |} in
  safeFetchTarget dns true u = Ok "fd12:3456::5"%string
  /\ (true = true /\ ~ (65152 <= 64786 <= 65215)).
Proof.
  intros dns u. assert (H : safeFetchTarget dns true u = Ok "fd12:3456::5"%string) by by vm_compute. split; [exact H|].
  destruct (requests_never_reach_a_blocked_address dns true u _ H) as (_ & _ & _ & _ & Hv6).
  destruct (Hv6 64786) as (A & B & _).
  { exists "fd12"%string, "3456::5"%string. by vm_compute. }
  split; [apply A; lia|exact B].
Defined.

Lemma strip_close_app s : strip_close (s ++ "]") = s.
Proof.
  induction s as [|x s IH]; [done|]. change ((String x s ++ "]")%string) with (String x (s ++ "]")).
  cbn [strip_close]. rewrite IH. destruct (s ++ "]")%string eqn:E; [by destruct s|].
  by destruct x as [[] [] [] [] [] [] [] []].
Qed.

(** The strictest mode on a bracketed literal, in full. *)
Definition strict_literal (isIP : string -> bool) (host : string) : bool :=
  truthy (Some host) && negb (bool_decide (host ∈ LOOPBACK_HOSTNAMES)) && negb (bool_decide (host ∈ METADATA_HOSTS))
  && negb (isIP host && (Guard.isLoopbackIp host || Guard.isLinkLocalIp host || Guard.isUnspecifiedIp host
                         || Guard.isPrivateIp host)).

Definition guard_accepts (isIP : string -> bool) (host : string) : bool :=
  Guard.checkSsrfSafe isIP (Some {| url_protocol := "https:"; url_hostname := host |}) strict_https [].

Lemma guard_accepts_literal isIP s : guard_accepts isIP (String "[" (s ++ "]")) = strict_literal isIP (toLowerCase s).
Proof.
  unfold guard_accepts, Guard.checkSsrfSafe, strict_literal. cbn [url_protocol url_hostname].
  change (toLowerCase (String "[" (s ++ "]"))) with (String "[" (toLowerCase (s ++ "]"))).
  rewrite toLowerCase_app. change (toLowerCase "]") with "]"%string.
  change (strip_brackets (String "[" (toLowerCase s ++ "]"))) with (strip_close (toLowerCase s ++ "]")).
  rewrite strip_close_app. cbn zeta. cbn [Guard.strict]. rewrite andb_true_l.
  rewrite bool_decide_eq_true_2 by done. cbn [negb orb].
  destruct (truthy _); [|done]. destruct (bool_decide _); [done|]. destruct (bool_decide _); [done|]. cbn [negb].
  by destruct (_ && _).
Qed.

(** Neither spelling is recognised, whatever follows. *)
Lemma strict_literal_link_local isIP t : strict_literal isIP ("::ffff:a9fe:" ++ t) = true.
Proof. vm_compute. by destruct (isIP _). Qed.

Lemma strict_literal_ten isIP x y t : strict_literal isIP ("::ffff:a" ++ String x (String y (String ":" t))) = true.
Proof.
  assert (Hp : Guard.isPrivateIp ("::ffff:a" ++ String x (String y (String ":" t))) = false).
  { unfold Guard.isPrivateIp, Guard.after. simpl. destruct (toLowerCase t) as [|z u]; [by rewrite !andb_false_r|].
    assert (Hz : match z with ":"%char => is_hex (ascii_lower ":") | _ => false end = false)
      by by destruct z as [[] [] [] [] [] [] [] []].
    by rewrite Hz, !andb_false_r. }
  unfold strict_literal. rewrite Hp. vm_compute. by destruct (isIP _).
Qed.

(** The static guard of configured URLs knows mapped addresses only in some
    spellings: in its strictest mode it accepts every mapped link-local address
    (cloud metadata among them) written with hexadecimal groups, which is how the
    URL parser writes it, and a mapped 10.0.0.0/8 address without the leading zero;
    the dialling check blocks both. *)
Lemma static_guard_misses_mapped_addresses isIP x y g :
  is_hex x = true -> is_hex y = true -> group_re g = true ->
  (guard_accepts isIP ("[::ffff:a9fe:" ++ g ++ "]")%string = true /\ isPrivateIp ("::ffff:a9fe:" ++ g) = true)
  /\ (guard_accepts isIP ("[::ffff:a" ++ String x (String y (":" ++ g)) ++ "]")%string = true
      /\ isPrivateIp ("::ffff:a" ++ String x (String y (":" ++ g))) = true).
Proof.
  intros Hx Hy Hg.
  assert (Hgv : 0 <= parseInt16 g 0 < 2 ^ 16) by by apply group_value. change (2 ^ 16) with 65536 in Hgv.
  set (c := parseInt16 g 0 / 256). set (d := parseInt16 g 0 mod 256).
  assert (Hcd : 0 <= c < 256 /\ 0 <= d < 256 /\ parseInt16 g 0 = c * 256 + d).
  { unfold c, d. Z.to_euclidean_division_equations; lia. }
  destruct Hcd as (Hc & Hd & Hg').
  assert (Hpriv : forall s a b, 0 <= a < 256 -> 0 <= b < 256 -> spells a b c d s ->
            existsb (fun m => m a b c) PRIVATE_V4_MATCHERS = true -> isPrivateIp s = true).
  { intros s a b Ha Hb Hs Hm. rewrite (spelled_private a b c d s) by done. unfold isPrivateV4. by rewrite parseV4_dotted. }
  split; split.
  - change ("[::ffff:a9fe:" ++ g ++ "]")%string with (String "[" (("::ffff:a9fe:" ++ g) ++ "]")).
    rewrite guard_accepts_literal, toLowerCase_app. apply strict_literal_link_local.
  - apply (Hpriv _ 169 254); [lia|lia| |done].
    by apply (spells_hex 169 254 c d "::ffff:" "a9fe" g).
  - change ("[::ffff:a" ++ String x (String y (":" ++ g)) ++ "]")%string
      with (String "[" (("::ffff:a" ++ String x (String y (":" ++ g))) ++ "]")).
    rewrite guard_accepts_literal, toLowerCase_app. apply strict_literal_ten.
  - pose proof (hex_value_range x Hx). pose proof (hex_value_range y Hy).
    apply (Hpriv _ 10 (hex_value x * 16 + hex_value y)); [lia|lia| |done].
    apply (spells_hex 10 _ c d "::ffff:" (String "a" (String x (String y ""))) g); [done| |done|cbn [parseInt16]; change (hex_value "a") with 10; lia|done].
    unfold group_re. cbn. by rewrite Hx, Hy.
Qed.

Lemma static_guard_witness :
  guard_accepts (fun _ => true) "[::ffff:a9fe:a9fe]" = true /\ guard_accepts (fun _ => true) "[::ffff:a00:1]" = true
  /\ isPrivateIp "::ffff:a9fe:a9fe" = true.
Proof.
  destruct (static_guard_misses_mapped_addresses (fun _ => true) "0" "0" "a9fe" eq_refl eq_refl eq_refl) as [[H1 H2] _].
  destruct (static_guard_misses_mapped_addresses (fun _ => true) "0" "0" "1" eq_refl eq_refl eq_refl) as [_ [H3 _]].
  split; [exact H1|]. split; [exact H3|exact H2].
Defined.
