(* ===== verification/Calendar.v ===== *)
(** * Calendar dates and billing periods

    apps/api/src/services/contractMath.ts. A date is the ISO text of a [date]
    column and is compared as text, as the code does. [Date.UTC] and the UTC
    getters follow the language's definition of day, year and month numbers. *)

From stdpp Require Import base gmap strings list option.
From Stdlib Require Import ZArith Lia Ascii.
From S2P Require Import Prelude.

(** ** Day numbers *)

(** [DayFromYear(y)]: the day number of 1 January, 1970 being day 0. *)
Definition day_from_year (y : Z) : Z :=
  365 * (y - 1970) + (y - 1969) / 4 - (y - 1901) / 100 + (y - 1601) / 400.

Definition is_leap (y : Z) : bool :=
  ((y mod 4 =? 0) && negb (y mod 100 =? 0)) || (y mod 400 =? 0).

(** Days of the year before the month with zero-based index [m]. *)
Definition days_before_month (leap : bool) (m : Z) : Z :=
  let l := if leap then 1 else 0 in
  match m with
  | 0 => 0 | 1 => 31 | 2 => 59 + l | 3 => 90 + l | 4 => 120 + l | 5 => 151 + l
  | 6 => 181 + l | 7 => 212 + l | 8 => 243 + l | 9 => 273 + l | 10 => 304 + l | 11 => 334 + l
  | _ => 365 + l
  end.

(** [MakeDay(year, month, date)], the month zero-based and any integer. *)
Definition make_day (y m d : Z) : Z :=
  let ym := y + m / 12 in
  day_from_year ym + days_before_month (is_leap ym) (m mod 12) + d - 1.

(** [Date.UTC(y, m, d)] in days: a year from 0 to 99 means 19xx. *)
Definition date_UTC (y m d : Z) : Z :=
  make_day (if (0 <=? y) && (y <=? 99) then 1900 + y else y) m d.

(** [YearFromTime]: the last year whose first day is not after [day]. The estimate
    is at most one year off. *)
Definition year_of (day : Z) : Z :=
  let e := 1970 + day * 400 / 146097 in
  if day_from_year (e + 1) <=? day then e + 1
  else if day <? day_from_year e then e - 1 else e.

(** [MonthFromTime], zero-based. *)
Fixpoint month_search (leap : bool) (n : nat) (m within : Z) : Z :=
  match n with
  | O => m
  | S n' => if within <? days_before_month leap (m + 1) then m else month_search leap n' (m + 1) within
  end.

Definition month_of (day : Z) : Z :=
  let y := year_of day in month_search (is_leap y) 11 0 (day - day_from_year y).

(** [DateFromTime]. *)
Definition date_of (day : Z) : Z :=
  let y := year_of day in day - day_from_year y - days_before_month (is_leap y) (month_of day) + 1.

(** ** contractMath.ts *)

Inductive BillingTiming : Type := advance | arrears.
#[export] Instance BillingTiming_eq : EqDecision BillingTiming.
Proof. solve_decision. Defined.

Record Period : Type := { periodStart : string; periodEnd : string }.

(** The three numbers of an ISO date; [None] when one of them is not a number, which
    a [date] column does not hold. *)
Definition parts (iso : string) : option (Z * Z * Z) :=
  match str_split "-" iso with
  | ys :: ms :: ds :: _ =>
      match parse_dec ys, parse_dec ms, parse_dec ds with
      | Some y, Some m, Some d => Some (y, m, d)
      | _, _, _ => None
      end
  | _ => None
  end.

Definition daysInMonth (year month1 : Z) : Z := date_of (date_UTC year month1 0).

(** [s.padStart(2, '0')] *)
Definition padStart2 (s : string) : string :=
  if (String.length s <? 2)%nat then String "0" s else s.

Definition fmt (y m1 d : Z) : string :=
  dec y ++ "-" ++ padStart2 (dec m1) ++ "-" ++ padStart2 (dec d).

Definition NaN_date : string := "NaN-NaN-NaN".

Definition addMonthsClamped (iso : string) (months : Z) : string :=
  match parts iso with
  | None => NaN_date
  | Some (y, m, d) =>
      let zeroBased := (m - 1) + months in
      let ny := y + zeroBased / 12 in
      let nm1 := (Z.rem zeroBased 12 + 12) mod 12 + 1 in
      let clampedDay := Z.min d (daysInMonth ny nm1) in
      fmt ny nm1 clampedDay
  end.

Definition computePeriod (startDate : string) (intervalMonths periodIndex : Z) : Period :=
  {| periodStart := addMonthsClamped startDate (intervalMonths * periodIndex);
     periodEnd := addMonthsClamped startDate (intervalMonths * (periodIndex + 1)) |}.

(** [a <= b] and [a < b] on strings: by code units. *)
Fixpoint str_compare (a b : string) : comparison :=
  match a, b with
  | EmptyString, EmptyString => Eq
  | EmptyString, _ => Lt
  | _, EmptyString => Gt
  | String x a', String y b' =>
      match Nat.compare (nat_of_ascii x) (nat_of_ascii y) with Eq => str_compare a' b' | c => c end
  end.

Definition str_le (a b : string) : bool := match str_compare a b with Gt => false | _ => true end.
Definition str_lt (a b : string) : bool := match str_compare a b with Lt => true | _ => false end.

Definition RUNAWAY_GUARD : Z := 100000.

(** The loop of [periodIndexFor]; the guard leaves it before the fuel is used up. *)
Fixpoint periodIndex_loop (fuel : nat) (startDate : string) (intervalMonths : Z) (asOf : string) (idx : Z) : Z :=
  match fuel with
  | O => idx
  | S f =>
      if str_le (periodStart (computePeriod startDate intervalMonths (idx + 1))) asOf
      then if RUNAWAY_GUARD <? idx + 1 then idx + 1
           else periodIndex_loop f startDate intervalMonths asOf (idx + 1)
      else idx
  end.

Definition periodIndexFor (startDate : string) (intervalMonths : Z) (asOf : string) : Z :=
  periodIndex_loop (Z.to_nat (RUNAWAY_GUARD + 1)) startDate intervalMonths asOf 0.

Definition nextBillingDate (startDate : string) (intervalMonths : Z) (billingTiming : BillingTiming) (periodIndex : Z)
  : string :=
  let p := computePeriod startDate intervalMonths periodIndex in
  match billingTiming with advance => periodStart p | arrears => periodEnd p end.

Definition isExpired (endDate : option string) (periodStart : string) : bool :=
  match endDate with None => false | Some e => str_le e periodStart end.

Definition addDaysISO (iso : string) (days : Z) : string :=
  match parts iso with
  | None => NaN_date
  | Some (y, m, d) =>
      let dt := date_UTC y (m - 1) (d + days) in
      dec (year_of dt) ++ "-" ++ padStart2 (dec (month_of dt + 1)) ++ "-" ++ padStart2 (dec (date_of dt))
  end.

Definition duePeriodStartFor (billingTiming : BillingTiming) (nextBillingAt : string) (intervalMonths : Z) : string :=
  match billingTiming with
  | advance => nextBillingAt
  | arrears => addMonthsClamped nextBillingAt (- intervalMonths)
  end.

Definition isWithinNoticeWindow (asOf endDate : string) (noticeDays : Z) : bool :=
  let windowStart := addDaysISO endDate (- noticeDays) in
  str_le windowStart asOf && str_lt asOf endDate.

(** The loop of [extendTermPastDue], with the number of turns in [guard]. *)
Fixpoint extend_loop (fuel : nat) (endDate duePeriodStart : string) (termMonths guard : Z) (renewed : bool)
  : string * bool :=
  match fuel with
  | O => (endDate, renewed)
  | S f =>
      if isExpired (Some endDate) duePeriodStart then
        let endDate' := addMonthsClamped endDate termMonths in
        if RUNAWAY_GUARD <? guard + 1 then (endDate', true)
        else extend_loop f endDate' duePeriodStart termMonths (guard + 1) true
      else (endDate, renewed)
  end.

Definition extendTermPastDue (endDate duePeriodStart : string) (termMonths : Z) : string * bool :=
  extend_loop (Z.to_nat (RUNAWAY_GUARD + 1)) endDate duePeriodStart termMonths 0 false.

Example add_leap : addMonthsClamped "2024-01-31" 1 = "2024-02-29"%string. Proof. by vm_compute. Qed.
Example add_back : addMonthsClamped "2024-03-31" (-13) = "2023-02-28"%string. Proof. by vm_compute. Qed.
Example days_over_year : addDaysISO "2024-12-31" 60 = "2025-03-01"%string. Proof. by vm_compute. Qed.
Example index_clamped : periodIndexFor "2025-01-31" 1 "2025-03-30" = 1. Proof. by vm_compute. Qed.
Example notice : isWithinNoticeWindow "2024-02-15" "2024-03-15" 30 = true. Proof. by vm_compute. Qed.

(** ** Day numbers: lemmas *)

Ltac div_lia := Z.to_euclidean_division_equations; lia.

Lemma leap_step y : day_from_year (y + 1) = day_from_year y + 365 + (if is_leap y then 1 else 0).
Proof.
  unfold day_from_year, is_leap.
  destruct (Z.eqb_spec (y mod 4) 0); destruct (Z.eqb_spec (y mod 100) 0); destruct (Z.eqb_spec (y mod 400) 0);
    cbn [andb orb negb]; div_lia.
Qed.

Lemma day_from_year_mono y k : 0 <= k -> day_from_year y + 365 * k <= day_from_year (y + k).
Proof.
  intros Hk. revert k Hk. apply natlike_ind; [replace (y + 0) with y by lia; lia|]. intros k Hk IH.
  replace (y + Z.succ k) with (y + k + 1) by lia. rewrite leap_step. destruct (is_leap _); lia.
Qed.

Lemma year_of_spec day : day_from_year (year_of day) <= day < day_from_year (year_of day + 1).
Proof.
  unfold year_of. set (e := 1970 + day * 400 / 146097).
  assert (He : day_from_year (e - 1) <= day < day_from_year (e + 2)).
  { unfold day_from_year, e. div_lia. }
  destruct (Z.leb_spec (day_from_year (e + 1)) day).
  - replace (e + 1 + 1) with (e + 2) by lia. lia.
  - destruct (Z.ltb_spec day (day_from_year e)); [|lia]. replace (e - 1 + 1) with e by lia. lia.
Qed.

Lemma year_of_unique y day : day_from_year y <= day < day_from_year (y + 1) -> year_of day = y.
Proof.
  intros H. pose proof (year_of_spec day) as Hs.
  destruct (Z.lt_trichotomy (year_of day) y) as [Hlt|[?|Hgt]]; [|done|].
  - pose proof (day_from_year_mono (year_of day + 1) (y - (year_of day + 1)) ltac:(lia)) as Hm.
    replace (year_of day + 1 + (y - (year_of day + 1))) with y in Hm by lia. lia.
  - pose proof (day_from_year_mono (y + 1) (year_of day - (y + 1)) ltac:(lia)) as Hm.
    replace (y + 1 + (year_of day - (y + 1))) with (year_of day) in Hm by lia. lia.
Qed.

(** The length of a month, by the table. *)
Definition month_len (y m : Z) : Z := days_before_month (is_leap y) m - days_before_month (is_leap y) (m - 1).

(** Case analysis on a month number. *)
Lemma month_cases m : 1 <= m <= 12 -> m ∈ [1; 2; 3; 4; 5; 6; 7; 8; 9; 10; 11; 12].
Proof.
  intros H. assert (Hc : m = 1 \/ m = 2 \/ m = 3 \/ m = 4 \/ m = 5 \/ m = 6 \/ m = 7 \/ m = 8 \/ m = 9 \/ m = 10
    \/ m = 11 \/ m = 12) by lia.
  rewrite !elem_of_cons. naive_solver.
Qed.

Ltac month_case H :=
  apply month_cases in H; rewrite !elem_of_cons in H;
  repeat destruct H as [->|H]; [..|by apply not_elem_of_nil in H].

(** Evaluate the table on constants. *)
Ltac table :=
  repeat match goal with
  | |- context [days_before_month ?l ?m] =>
      let v := eval vm_compute in (days_before_month l m) in change (days_before_month l m) with v
  | H : context [days_before_month ?l ?m] |- _ =>
      let v := eval vm_compute in (days_before_month l m) in change (days_before_month l m) with v in H
  end.

Lemma month_len_range y m : 1 <= m <= 12 -> 28 <= month_len y m <= 31.
Proof. intros H. unfold month_len. month_case H; destruct (is_leap y); table; lia. Qed.

(** The day numbers of one month, read back. *)
Lemma month_of_spec y m d :
  1 <= m <= 12 -> 1 <= d <= month_len y m ->
  let day := day_from_year y + days_before_month (is_leap y) (m - 1) + d - 1 in
  year_of day = y /\ month_of day + 1 = m /\ date_of day = d.
Proof.
  intros Hm Hd day.
  assert (Hy : year_of day = y).
  { apply year_of_unique. rewrite leap_step. unfold day, month_len in *. clear day.
    month_case Hm; destruct (is_leap y); table; lia. }
  assert (Hmo : month_of day = m - 1).
  { unfold month_of. rewrite Hy.
    replace (day - day_from_year y) with (days_before_month (is_leap y) (m - 1) + d - 1) by (unfold day; lia).
    clear day Hy. unfold month_len in Hd.
    month_case Hm; destruct (is_leap y); cbn [month_search]; table;
      repeat match goal with |- context [?a <? ?b] => destruct (Z.ltb_spec a b) end; lia. }
  split_and!; [done|lia|]. unfold date_of. rewrite Hy, Hmo. unfold day. lia.
Qed.

Lemma make_day_month y m d :
  1 <= m <= 12 -> make_day y m d = day_from_year y + days_before_month (is_leap y) m + d - 1.
Proof.
  intros Hm. unfold make_day. destruct (Z.eq_dec m 12) as [->|].
  - change (12 / 12) with 1. change (12 mod 12) with 0. rewrite leap_step.
    destruct (is_leap y), (is_leap (y + 1)); table; lia.
  - rewrite Z.div_small, Z.mod_small by lia. by rewrite Z.add_0_r.
Qed.

Lemma daysInMonth_len y m : 100 <= y -> 1 <= m <= 12 -> daysInMonth y m = month_len y m.
Proof.
  intros Hy Hm. unfold daysInMonth, date_UTC. rewrite (proj2 (Z.leb_gt y 99)), andb_false_r by lia.
  rewrite make_day_month by done. pose proof (month_len_range y m Hm).
  pose proof (month_of_spec y m (month_len y m) Hm ltac:(lia)) as H1. cbn zeta in H1.
  replace (day_from_year y + days_before_month (is_leap y) m + 0 - 1)
    with (day_from_year y + days_before_month (is_leap y) (m - 1) + month_len y m - 1) by (unfold month_len; lia).
  by destruct H1 as (_ & _ & ->).
Qed.

(** ** Dates as text *)

(** The text [s] is the date [y]-[m]-[d], in the years whose text has four digits. *)
Definition is_date (s : string) (y m d : Z) : Prop :=
  s = fmt y m d /\ 1000 <= y <= 9999 /\ 1 <= m <= 12 /\ 1 <= d <= month_len y m.

(** The number with the digits of the date. *)
Definition date_num (y m d : Z) : Z := (y * 100 + m) * 100 + d.

Definition two_digits (n : Z) : string := String (digit_char (n / 10)) (String (digit_char (n mod 10)) "").
Definition four_digits (n : Z) : string :=
  String (digit_char (n / 1000)) (String (digit_char (n / 100 mod 10)) (two_digits (n mod 100))).

Lemma pad2_digits n : 1 <= n <= 31 -> padStart2 (dec n) = two_digits n.
Proof.
  intros Hn. assert (H : forallb (fun n => bool_decide (padStart2 (dec n) = two_digits n)) (seqZ 1 31) = true)
    by by vm_compute.
  rewrite forallb_forall in H. specialize (H n). rewrite <- list_elem_of_In, elem_of_seqZ in H.
  eapply bool_decide_eq_true. apply H. lia.
Qed.

Lemma dec_digits n : 1000 <= n <= 9999 -> dec n = four_digits n.
Proof.
  intros Hn. assert (H : forallb (fun n => bool_decide (dec n = four_digits n)) (seqZ 1000 9000) = true)
    by by vm_compute.
  rewrite forallb_forall in H. specialize (H n). rewrite <- list_elem_of_In, elem_of_seqZ in H.
  eapply bool_decide_eq_true. apply H. lia.
Qed.

(** The text of a date, digit by digit. *)
Definition date_chars (y m d : Z) : string :=
  String (digit_char (y / 1000)) (String (digit_char (y / 100 mod 10))
    (String (digit_char (y mod 100 / 10)) (String (digit_char (y mod 100 mod 10))
      (String "-" (String (digit_char (m / 10)) (String (digit_char (m mod 10))
        (String "-" (String (digit_char (d / 10)) (String (digit_char (d mod 10)) ""))))))))).

Lemma is_date_chars s y m d : is_date s y m d -> s = date_chars y m d.
Proof.
  intros (-> & Hy & Hm & Hd). pose proof (month_len_range y m Hm). unfold fmt.
  rewrite dec_digits, !pad2_digits by lia. done.
Qed.

Lemma digit_compare a b s t :
  0 <= a < 10 -> 0 <= b < 10 ->
  str_compare (String (digit_char a) s) (String (digit_char b) t)
  = match a ?= b with Eq => str_compare s t | c => c end.
Proof.
  intros Ha Hb. cbn [str_compare]. rewrite !nat_of_digit_char by done.
  replace (Nat.compare (48 + Z.to_nat a) (48 + Z.to_nat b)) with (a ?= b); [done|].
  destruct (Z.compare_spec a b); symmetry;
    [apply Nat.compare_eq_iff|apply Nat.compare_lt_iff|apply Nat.compare_gt_iff]; lia.
Qed.

(** Comparing a leading digit, then the rest, is comparing the numbers. *)
Lemma lex_compare a b r r' K :
  0 <= r < K -> 0 <= r' < K -> match a ?= b with Eq => r ?= r' | c => c end = (a * K + r ?= b * K + r').
Proof.
  intros Hr Hr'. destruct (Z.compare_spec a b) as [->|?|?].
  - destruct (Z.compare_spec r r'); symmetry; [apply Z.compare_eq_iff|apply Z.compare_lt_iff|apply Z.compare_gt_iff]; lia.
  - symmetry. apply Z.compare_lt_iff. nia.
  - symmetry. apply Z.compare_gt_iff. nia.
Qed.

Lemma date_compare s y m d s' y' m' d' :
  is_date s y m d -> is_date s' y' m' d' -> str_compare s s' = (date_num y m d ?= date_num y' m' d').
Proof.
  intros Hs Hs'. rewrite (is_date_chars _ _ _ _ Hs), (is_date_chars _ _ _ _ Hs').
  destruct Hs as (_ & Hy & Hm & Hd), Hs' as (_ & Hy' & Hm' & Hd').
  pose proof (month_len_range y m Hm). pose proof (month_len_range y' m' Hm'). unfold date_chars.
  assert (Hdash : forall s t, str_compare (String "-" s) (String "-" t) = str_compare s t).
  { intros. cbn [str_compare]. by rewrite Nat.compare_refl. }
  rewrite !digit_compare, !Hdash, !digit_compare, !Hdash, !digit_compare by div_lia.
  change (str_compare "" "") with (0 ?= 0).
  rewrite (lex_compare _ _ 0 0 1) by lia.
  rewrite (lex_compare _ _ _ _ 10) by div_lia. rewrite (lex_compare _ _ _ _ 100) by div_lia.
  rewrite (lex_compare _ _ _ _ 1000) by div_lia. rewrite (lex_compare _ _ _ _ 10000) by div_lia.
  rewrite (lex_compare _ _ _ _ 100000) by div_lia. rewrite (lex_compare _ _ _ _ 1000000) by div_lia.
  rewrite (lex_compare _ _ _ _ 10000000) by div_lia.
  f_equal; unfold date_num; div_lia.
Qed.

Lemma parts_date s y m d : is_date s y m d -> parts s = Some (y, m, d).
Proof.
  intros (-> & Hy & Hm & Hd). pose proof (month_len_range y m Hm).
  assert (Hp : forall n, 1 <= n <= 31 -> lacks "-" (padStart2 (dec n)) = true /\ parse_dec (padStart2 (dec n)) = Some n).
  { intros n Hn. rewrite pad2_digits by done.
    assert (Hall : forallb (fun n => lacks "-" (two_digits n) && bool_decide (parse_dec (two_digits n) = Some n))
      (seqZ 1 31) = true) by by vm_compute.
    rewrite forallb_forall in Hall. specialize (Hall n). rewrite <- list_elem_of_In, elem_of_seqZ in Hall.
    specialize (Hall ltac:(lia)). by bool_hyps. }
  destruct (Hp m ltac:(lia)) as [Lm Pm]. destruct (Hp d ltac:(lia)) as [Ld Pd].
  unfold parts, fmt.
  change ("-" ++ padStart2 (dec m) ++ "-" ++ padStart2 (dec d))%string
    with (String "-" (padStart2 (dec m) ++ String "-" (padStart2 (dec d)))).
  rewrite !split_part, split_lacks; [|done|done|apply digits_lack; [done|apply dec_is_digits; lia]].
  by rewrite parse_dec_dec, Pm, Pd by lia.
Qed.

(** ** Months *)

(** Dates as day numbers: their text and their number are in the same order. *)
Definition day_number (y m d : Z) : Z := day_from_year y + days_before_month (is_leap y) (m - 1) + d - 1.

Lemma day_number_lt s y m d s' y' m' d' :
  is_date s y m d -> is_date s' y' m' d' -> date_num y m d < date_num y' m' d' -> day_number y m d < day_number y' m' d'.
Proof.
  intros (_ & Hy & Hm & Hd) (_ & Hy' & Hm' & Hd') H. unfold date_num in H.
  pose proof (month_len_range y m Hm). pose proof (month_len_range y' m' Hm'). unfold day_number.
  destruct (Z.lt_trichotomy y y') as [Hlt|[->|]]; [| |lia].
  - pose proof (day_from_year_mono (y + 1) (y' - (y + 1)) ltac:(lia)) as Hmono.
    replace (y + 1 + (y' - (y + 1))) with y' in Hmono by lia. pose proof (leap_step y) as Hl. unfold month_len in Hd.
    assert (days_before_month (is_leap y) m <= 365 + (if is_leap y then 1 else 0))
      by (clear - Hm; month_case Hm; destruct (is_leap y); table; lia).
    assert (0 <= days_before_month (is_leap y') (m' - 1)) by (clear - Hm'; month_case Hm'; destruct (is_leap y'); table; lia).
    lia.
  - destruct (Z.lt_trichotomy m m') as [Hlt|[->|]]; [|lia|lia].
    assert (days_before_month (is_leap y') m <= days_before_month (is_leap y') (m' - 1)).
    { clear - Hm Hm' Hlt. month_case Hm; month_case Hm'; try lia; destruct (is_leap y'); table; lia. }
    unfold month_len in Hd. lia.
Qed.

Lemma date_order s y m d s' y' m' d' :
  is_date s y m d -> is_date s' y' m' d' -> str_lt s s' = (day_number y m d <? day_number y' m' d').
Proof.
  intros Hs Hs'. unfold str_lt. rewrite (date_compare _ _ _ _ _ _ _ _ Hs Hs').
  destruct (Z.compare_spec (date_num y m d) (date_num y' m' d')) as [E|Hlt|Hgt]; symmetry.
  - apply Z.ltb_ge. destruct Hs as (_ & _ & Hm & Hd), Hs' as (_ & _ & Hm' & Hd'). unfold date_num in E.
    pose proof (month_len_range y m Hm). pose proof (month_len_range y' m' Hm').
    assert (y = y' /\ m = m' /\ d = d') as (-> & -> & ->) by lia. lia.
  - by apply Z.ltb_lt, (day_number_lt _ _ _ _ _ _ _ _ Hs Hs').
  - apply Z.ltb_ge. pose proof (day_number_lt _ _ _ _ _ _ _ _ Hs' Hs Hgt). lia.
Qed.

Lemma date_UTC_day s y m d : is_date s y m d -> date_UTC y (m - 1) d = day_number y m d.
Proof.
  intros (_ & Hy & Hm & _). unfold date_UTC. rewrite (proj2 (Z.leb_gt y 99)), andb_false_r by lia. unfold make_day.
  rewrite Z.div_small, Z.mod_small by lia. by rewrite Z.add_0_r.
Qed.

(** The date of a day number, read back. *)
Lemma day_number_of day m d : month_of day + 1 = m -> date_of day = d -> day_number (year_of day) m d = day.
Proof. intros <- <-. unfold day_number, date_of. replace (month_of day + 1 - 1) with (month_of day) by lia. lia. Qed.

(** Every day has a date. *)
Lemma month_exists leap w :
  0 <= w < days_before_month leap 12 -> exists m, 1 <= m <= 12 /\ days_before_month leap (m - 1) <= w < days_before_month leap m.
Proof.
  intros Hw. assert (Hind : forall k, 0 <= k -> k <= 12 -> w < days_before_month leap k ->
    exists m, 1 <= m <= 12 /\ days_before_month leap (m - 1) <= w < days_before_month leap m); [|apply (Hind 12); lia].
  apply (natlike_ind (fun k => k <= 12 -> w < days_before_month leap k -> _)); [intros _ H; table; lia|].
  intros k Hk IH Hk12 H. destruct (Z.lt_ge_cases w (days_before_month leap k)) as [Hlt|Hge]; [apply IH; [lia|exact Hlt]|].
  exists (Z.succ k). replace (Z.succ k - 1) with k by lia. split; [lia|done].
Qed.

Lemma day_is_date day :
  1000 <= year_of day <= 9999 ->
  is_date (fmt (year_of day) (month_of day + 1) (date_of day)) (year_of day) (month_of day + 1) (date_of day).
Proof.
  intros Hy. destruct (year_of_spec day) as [H1 H2]. rewrite leap_step in H2.
  destruct (month_exists (is_leap (year_of day)) (day - day_from_year (year_of day))) as (m & Hm & Hlo & Hhi).
  { destruct (is_leap (year_of day)); table; lia. }
  destruct (month_of_spec (year_of day) m (day - day_from_year (year_of day) - days_before_month (is_leap (year_of day)) (m - 1) + 1) Hm)
    as (_ & E1 & E2); [unfold month_len; lia|].
  replace (day_from_year (year_of day) + days_before_month (is_leap (year_of day)) (m - 1)
    + (day - day_from_year (year_of day) - days_before_month (is_leap (year_of day)) (m - 1) + 1) - 1) with day in E1, E2 by lia.
  rewrite E1, E2. split_and!; try done; try lia; unfold month_len; lia.
Qed.

Definition month_index (y m : Z) : Z := y * 12 + (m - 1).
Definition index_year (i : Z) : Z := i / 12.
Definition index_month (i : Z) : Z := i mod 12 + 1.

(** [i] is the index of a month whose year has four digits. *)
Definition index_ok (i : Z) : Prop := 12000 <= i < 120000.

Lemma month_index_ok y m : 1000 <= y <= 9999 -> 1 <= m <= 12 -> index_ok (month_index y m).
Proof. unfold index_ok, month_index. lia. Qed.

Lemma index_back y m : 1 <= m <= 12 -> index_year (month_index y m) = y /\ index_month (month_index y m) = m.
Proof. unfold index_year, index_month, month_index. intros. split; div_lia. Qed.

(** The date [s] in the month with index [i], on day [d]. *)
Definition in_month (s : string) (i d : Z) : Prop := is_date s (index_year i) (index_month i) d.

Lemma is_date_in_month s y m d : is_date s y m d -> in_month s (month_index y m) d.
Proof. intros H. pose proof H as (_ & _ & Hm & _). unfold in_month. by destruct (index_back y m Hm) as [-> ->]. Qed.

Lemma in_month_ok s i d : in_month s i d -> index_ok i.
Proof. intros (_ & Hy & _). unfold index_ok, index_year in *. div_lia. Qed.

Lemma in_month_day s i d : in_month s i d -> 1 <= d <= 31.
Proof. intros (_ & _ & Hm & Hd). pose proof (month_len_range (index_year i) (index_month i) Hm). lia. Qed.

Lemma index_month_range i : 1 <= index_month i <= 12.
Proof. unfold index_month. pose proof (Z.mod_pos_bound i 12). lia. Qed.

Definition clamped (d i : Z) : Z := Z.min d (month_len (index_year i) (index_month i)).

Lemma addMonths_in_month s i d n :
  in_month s i d -> index_ok (i + n) -> in_month (addMonthsClamped s n) (i + n) (clamped d (i + n)).
Proof.
  intros Hs Hok. pose proof (in_month_day _ _ _ Hs). pose proof (month_len_range (index_year (i + n)) _ (index_month_range (i + n))).
  unfold addMonthsClamped. rewrite (parts_date _ _ _ _ Hs).
  replace (index_year i + (index_month i - 1 + n) / 12) with (index_year (i + n))
    by (unfold index_year, index_month; div_lia).
  replace ((Z.rem (index_month i - 1 + n) 12 + 12) mod 12 + 1) with (index_month (i + n))
    by (unfold index_month; div_lia).
  pose proof (index_month_range (i + n)). assert (1000 <= index_year (i + n) <= 9999)
    by (unfold index_ok, index_year in *; div_lia).
  cbn zeta. rewrite daysInMonth_len by lia. unfold in_month, is_date, clamped. split_and!; try done; lia.
Qed.

(** A date in a later month is later. *)
Lemma month_compare s i d s' i' d' :
  in_month s i d -> in_month s' i' d' ->
  str_compare s s' = match i ?= i' with Eq => d ?= d' | c => c end.
Proof.
  intros Hs Hs'. rewrite (date_compare _ _ _ _ _ _ _ _ Hs Hs').
  pose proof (in_month_day _ _ _ Hs). pose proof (in_month_day _ _ _ Hs').
  pose proof (in_month_ok _ _ _ Hs). pose proof (in_month_ok _ _ _ Hs').
  unfold date_num, index_year, index_month, index_ok in *.
  destruct (Z.compare_spec i i') as [->|?|?].
  - destruct (Z.compare_spec d d'); [apply Z.compare_eq_iff|apply Z.compare_lt_iff|apply Z.compare_gt_iff]; lia.
  - apply Z.compare_lt_iff. div_lia.
  - apply Z.compare_gt_iff. div_lia.
Qed.

Lemma str_le_lt s i d s' i' d' : in_month s i d -> in_month s' i' d' -> str_le s s' = negb (str_lt s' s).
Proof.
  intros Hs Hs'. unfold str_le, str_lt. rewrite (month_compare _ _ _ _ _ _ Hs Hs'), (month_compare _ _ _ _ _ _ Hs' Hs).
  rewrite (Z.compare_antisym i i'), (Z.compare_antisym d d'). by destruct (i ?= i'), (d ?= d').
Qed.

Lemma later_month s i d s' i' d' :
  in_month s i d -> in_month s' i' d' -> i < i' -> str_lt s s' = true /\ str_le s s' = true /\ str_le s' s = false.
Proof.
  intros Hs Hs' Hlt. unfold str_le, str_lt. rewrite (month_compare _ _ _ _ _ _ Hs Hs'), (month_compare _ _ _ _ _ _ Hs' Hs).
  rewrite (proj2 (Z.compare_lt_iff i i')), (proj2 (Z.compare_gt_iff i' i)) by lia. done.
Qed.

(** ** Periods *)

Section periods.
Context (start : string) (i0 d0 n : Z).
Hypothesis Hstart : in_month start i0 d0.
Hypothesis Hn : 1 <= n.

Abbreviation P k := (periodStart (computePeriod start n k)).

Lemma period_in_month k : index_ok (i0 + n * k) -> in_month (P k) (i0 + n * k) (clamped d0 (i0 + n * k)).
Proof using Hstart. intros Hok. by apply addMonths_in_month. Qed.

Lemma period_zero : P 0 = start.
Proof using Hstart.
  pose proof (in_month_ok _ _ _ Hstart). pose proof (period_in_month 0) as H0.
  replace (i0 + n * 0) with i0 in H0 by lia. specialize (H0 ltac:(done)).
  destruct Hstart as (Hs & _ & _ & Hd). destruct H0 as (-> & _). rewrite Hs. f_equal. unfold clamped. lia.
Qed.

(** Consecutive periods share a boundary. *)
Lemma period_end k : periodEnd (computePeriod start n k) = P (k + 1).
Proof using. done. Qed.

Lemma period_lt k k' :
  k < k' -> index_ok (i0 + n * k) -> index_ok (i0 + n * k') ->
  str_lt (P k) (P k') = true /\ str_le (P k) (P k') = true /\ str_le (P k') (P k) = false.
Proof using Hstart Hn. intros Hk H1 H2. eapply later_month; [by apply period_in_month|by apply period_in_month|nia]. Qed.

(** The walk stops at the last period that has started. *)
Lemma periodIndex_loop_stop asOf K f idx :
  0 <= idx <= K -> K <= RUNAWAY_GUARD -> K - idx < Z.of_nat f ->
  (forall k, 1 <= k <= K -> str_le (P k) asOf = true) -> str_le (P (K + 1)) asOf = false ->
  periodIndex_loop f start n asOf idx = K.
Proof using.
  intros Hi HK Hf Hle Hgt. revert idx Hi Hf. induction f as [|f IH]; intros idx Hi Hf; [lia|]. cbn [periodIndex_loop].
  destruct (Z.eq_dec idx K) as [->|Hne]; [by rewrite Hgt|].
  rewrite Hle by lia. rewrite (proj2 (Z.ltb_ge _ _)) by lia. apply IH; lia.
Qed.

Lemma periodIndexFor_stop asOf K :
  0 <= K <= RUNAWAY_GUARD ->
  (forall k, 1 <= k <= K -> str_le (P k) asOf = true) -> str_le (P (K + 1)) asOf = false ->
  periodIndexFor start n asOf = K.
Proof using. intros HK Hle Hgt. unfold periodIndexFor. apply periodIndex_loop_stop; try done; unfold RUNAWAY_GUARD in *; lia. Qed.

(** The start of a period, and the boundary after it, are found again. *)
Lemma periodIndexFor_start k :
  0 <= k <= RUNAWAY_GUARD -> index_ok (i0 + n * (k + 1)) -> periodIndexFor start n (P k) = k.
Proof using Hstart Hn.
  intros Hk Hok. pose proof (in_month_ok _ _ _ Hstart). unfold index_ok in *.
  apply periodIndexFor_stop; [done| |].
  - intros j Hj. destruct (Z.eq_dec j k) as [->|].
    + unfold str_le. rewrite (month_compare _ _ _ _ _ _ (period_in_month k ltac:(unfold index_ok; nia))
        (period_in_month k ltac:(unfold index_ok; nia))). by rewrite !Z.compare_refl.
    + by apply period_lt; [lia|unfold index_ok; nia..].
  - by apply period_lt; [lia|unfold index_ok; nia..].
Qed.

End periods.

Lemma period_index_spec start i0 d0 n asOf i d :
  in_month start i0 d0 -> in_month asOf i d -> 1 <= n -> i - i0 <= RUNAWAY_GUARD -> index_ok (Z.max i0 i + n) ->
  let k := periodIndexFor start n asOf in
  (0 <= k /\ i0 + n * k <= Z.max i0 i)
  /\ str_lt asOf (periodStart (computePeriod start n (k + 1))) = true
  /\ (if str_le start asOf then str_le (periodStart (computePeriod start n k)) asOf = true else k = 0)
  /\ (forall j, 0 <= j <= RUNAWAY_GUARD -> index_ok (i0 + n * (j + 1)) ->
        periodIndexFor start n (periodStart (computePeriod start n j)) = j).
Proof.
  intros Hs Ha Hn Hb Hok k. subst k.
  pose proof (in_month_ok _ _ _ Hs) as Hi0. pose proof (in_month_ok _ _ _ Ha) as Hi. unfold index_ok in *.
  set (q := (i - i0) / n). assert (Hq : n * q <= i - i0 < n * (q + 1)) by (unfold q; div_lia).
  assert (HP : forall k, 12000 <= i0 + n * k < 120000 ->
    in_month (periodStart (computePeriod start n k)) (i0 + n * k) (clamped d0 (i0 + n * k)))
    by (intros; by eapply period_in_month).
  assert (Hlate : forall k, q < k -> 12000 <= i0 + n * k < 120000 ->
    str_le (periodStart (computePeriod start n k)) asOf = false /\ str_lt asOf (periodStart (computePeriod start n k)) = true).
  { intros k Hk Hr. destruct (later_month _ _ _ _ _ _ Ha (HP k Hr) ltac:(nia)) as (? & _ & ?). done. }
  assert (Hearly : forall k, 0 <= k < q -> str_le (periodStart (computePeriod start n k)) asOf = true).
  { intros k Hk. assert (Hr : 12000 <= i0 + n * k < 120000) by nia.
    by destruct (later_month _ _ _ _ _ _ (HP k Hr) Ha ltac:(nia)) as (_ & ? & _). }
  assert (Hback : forall j, 0 <= j <= RUNAWAY_GUARD -> 12000 <= i0 + n * (j + 1) < 120000 ->
    periodIndexFor start n (periodStart (computePeriod start n j)) = j)
    by (intros; by eapply periodIndexFor_start).
  assert (Hz := period_zero start i0 d0 n Hs).
  destruct (Z.lt_ge_cases q 0) as [Hneg|Hq0].
  - assert (Hi1 : 12000 <= i0 + n * 1 < 120000) by nia.
    assert (periodIndexFor start n asOf = 0) as ->.
    { apply periodIndexFor_stop; [unfold RUNAWAY_GUARD; lia|lia|]. apply Hlate; [lia|done]. }
    split; [lia|]; split_and!; [by apply Hlate; [lia|]| |done].
    destruct (Hlate 0 ltac:(lia) ltac:(lia)) as [E _]. rewrite Hz in E. by rewrite E.
  - assert (Hr : 12000 <= i0 + n * q < 120000) by nia.
    assert (Hr1 : 12000 <= i0 + n * (q + 1) < 120000) by nia.
    assert (HqG : q <= RUNAWAY_GUARD) by (assert (q <= n * q) by nia; lia).
    destruct (str_le (periodStart (computePeriod start n q)) asOf) eqn:Eq.
    + assert (periodIndexFor start n asOf = q) as ->.
      { apply periodIndexFor_stop; [lia| |apply Hlate; [lia|done]].
        intros k Hk. destruct (Z.eq_dec k q) as [->|]; [done|]. apply Hearly. lia. }
      split; [lia|]; split_and!; [by apply Hlate; [lia|]| |done].
      destruct (str_le start asOf) eqn:E; [done|]. rewrite <- Hz in E.
      destruct (Z.eq_dec q 0) as [H0|]; [by rewrite H0, E in Eq|]. by rewrite Hearly in E by lia.
    + destruct (Z.eq_dec q 0) as [H0|Hq1].
      * rewrite H0, Hz in Eq. assert (periodIndexFor start n asOf = 0) as ->.
        { apply periodIndexFor_stop; [unfold RUNAWAY_GUARD; lia|lia|]. apply Hlate; [lia|]. by rewrite H0 in Hr1. }
        split; [lia|]; split_and!; [apply Hlate; [lia|by rewrite H0 in Hr1]| |done]. by rewrite Eq.
      * assert (periodIndexFor start n asOf = q - 1) as ->.
        { apply periodIndexFor_stop; [lia| |by replace (q - 1 + 1) with q by lia]. intros k Hk. apply Hearly. lia. }
        replace (q - 1 + 1) with q by lia. split; [nia|]; split_and!; [| |done].
        -- rewrite (str_le_lt _ _ _ _ _ _ (HP q Hr) Ha) in Eq. by bool_hyps.
        -- pose proof (Hearly 0 ltac:(lia)) as E. rewrite Hz in E. rewrite E. apply Hearly. lia.
Qed.

(** C32: The walk over the periods ends, before the runaway guard, at the period
    that holds the day asked for: it has started (when the contract has), the next
    one has not; and billing dates read back as their period. The month arithmetic
    clamps to the end of the month, and dates are compared as text. *)
Theorem period_index_is_the_current_period start i0 d0 n asOf i d :
  in_month start i0 d0 -> in_month asOf i d -> 1 <= n -> i - i0 <= RUNAWAY_GUARD -> index_ok (Z.max i0 i + n) ->
  let k := periodIndexFor start n asOf in
  0 <= k
  /\ str_lt asOf (periodStart (computePeriod start n (k + 1))) = true
  /\ (if str_le start asOf then str_le (periodStart (computePeriod start n k)) asOf = true else k = 0)
  /\ (forall j, 0 <= j <= RUNAWAY_GUARD -> index_ok (i0 + n * (j + 1)) ->
        periodIndexFor start n (periodStart (computePeriod start n j)) = j).
Proof.
  intros. destruct (period_index_spec start i0 d0 n asOf i d) as ((? & _) & ?); done.
Qed.

Lemma period_index_witness :
  str_lt "2025-03-30" "2025-03-31" = true /\ periodIndexFor "2025-01-31" 1 "2025-03-30" = 1.
Proof.
  assert (Hs : in_month "2025-01-31" 24300 31) by (by vm_compute).
  assert (Ha : in_month "2025-03-30" 24302 30) by (by vm_compute).
  destruct (period_index_is_the_current_period "2025-01-31" 24300 31 1 "2025-03-30" 24302 30 Hs Ha
    ltac:(lia) ltac:(unfold RUNAWAY_GUARD; lia) ltac:(unfold index_ok; lia)) as (_ & H & _).
  assert (Hk : periodIndexFor "2025-01-31" 1 "2025-03-30" = 1) by by vm_compute.
  split; [|exact Hk]. rewrite Hk in H. exact H.
Defined.

(** ** Renewal *)

Lemma isExpired_month e i d due i' d' :
  in_month e i d -> in_month due i' d' -> isExpired (Some e) due = true -> i <= i'.
Proof.
  intros He Hd. cbn. destruct (Z.le_gt_cases i i') as [|Hgt]; [done|].
  destruct (later_month _ _ _ _ _ _ Hd He Hgt) as (_ & _ & ->). done.
Qed.

Section renewal.
Context (due : string) (iD dD t iE : Z).
Hypothesis Hdue : in_month due iD dD.
Hypothesis Ht : 1 <= t.
Hypothesis Hok : index_ok (Z.max iE iD + t).
Hypothesis Hguard : iD - iE < RUNAWAY_GUARD.

Lemma extend_loop_spec f e d g r :
  0 <= g -> in_month e (iE + t * g) d -> Z.max 0 (iD - (iE + t * g) + 1) < Z.of_nat f ->
  let '(e', r') := extend_loop f e due t g r in
  isExpired (Some e') due = false
  /\ r' = r || isExpired (Some e) due
  /\ exists j d', g <= j /\ in_month e' (iE + t * j) d' /\ (isExpired (Some e) due = false -> e' = e)
     /\ iE + t * j <= Z.max (iE + t * g) (iD + t).
Proof using Hdue Ht Hok Hguard.
  revert e d g r. induction f as [|f IH]; intros e d g r Hg He Hf; [lia|]. cbn [extend_loop].
  destruct (isExpired (Some e) due) eqn:Ex.
  - pose proof (isExpired_month _ _ _ _ _ _ He Hdue Ex) as Hle.
    rewrite (proj2 (Z.ltb_ge _ _)) by nia.
    assert (He' : in_month (addMonthsClamped e t) (iE + t * (g + 1)) (clamped d (iE + t * (g + 1)))).
    { replace (iE + t * (g + 1)) with (iE + t * g + t) by lia. apply addMonths_in_month; [done|].
      pose proof (in_month_ok _ _ _ He). unfold index_ok in *. lia. }
    specialize (IH _ _ (g + 1) true ltac:(lia) He' ltac:(lia)).
    destruct (extend_loop f (addMonthsClamped e t) due t (g + 1) true) as [e'' r''].
    destruct IH as (H1 & -> & j & d' & Hj & Hin & _ & Hmax). split_and!; [done|by rewrite orb_true_r|].
    exists j, d'. split_and!; [lia|done|done|lia].
  - split_and!; [done|by rewrite orb_false_r|]. exists g, d. split_and!; [lia|done|done|lia].
Qed.

End renewal.

(** Rolling a term forward ends, before the runaway guard, with an end date
    after the period that is due and at most one term after its month; nothing is
    renewed unless the term had run out. *)
Lemma renewed_term_covers_the_due_period e iE dE due iD dD t :
  in_month e iE dE -> in_month due iD dD -> 1 <= t -> index_ok (Z.max iE iD + t) -> iD - iE < RUNAWAY_GUARD ->
  let '(e', renewed) := extendTermPastDue e due t in
  isExpired (Some e') due = false
  /\ renewed = isExpired (Some e) due
  /\ (renewed = false -> e' = e)
  /\ exists j d', 0 <= j /\ in_month e' (iE + t * j) d' /\ iE + t * j <= Z.max iE (iD + t).
Proof.
  intros He Hdue Ht Hok Hg. unfold extendTermPastDue.
  assert (Hf : Z.max 0 (iD - iE + 1) < Z.of_nat (Z.to_nat (RUNAWAY_GUARD + 1))).
  { rewrite Z2Nat.id by (unfold RUNAWAY_GUARD; lia). unfold RUNAWAY_GUARD in *; lia. }
  revert Hf. generalize (Z.to_nat (RUNAWAY_GUARD + 1)). intros f Hf.
  pose proof (extend_loop_spec due iD dD t iE Hdue Ht Hok Hg f e dE 0 false ltac:(lia)) as H.
  replace (iE + t * 0) with iE in H by lia. specialize (H He Hf).
  destruct (extend_loop f e due t 0 false) as [e' r].
  destruct H as (H1 & -> & j & d' & Hj & Hin & Hsame & Hmax). cbn [orb]. split_and!; [done|done|done|eauto].
Qed.

Lemma renewed_term_witness :
  extendTermPastDue "2025-01-31" "2025-02-28" 1 = ("2025-03-28"%string, true)
  /\ isExpired (Some "2025-03-28"%string) "2025-02-28" = false.
Proof.
  assert (He : in_month "2025-01-31" 24300 31) by (by vm_compute).
  assert (Hd : in_month "2025-02-28" 24301 28) by (by vm_compute).
  pose proof (renewed_term_covers_the_due_period "2025-01-31" 24300 31 "2025-02-28" 24301 28 1 He Hd
    ltac:(lia) ltac:(unfold index_ok; lia) ltac:(unfold RUNAWAY_GUARD; lia)) as H.
  assert (Hx : extendTermPastDue "2025-01-31" "2025-02-28" 1 = ("2025-03-28"%string, true)).
  { vm_compute. reflexivity. }
  split; [exact Hx|]. rewrite Hx in H. exact (proj1 H).
Defined.
