(* ===== verification/Doubles.v ===== *)
(** * Double-precision arithmetic

    The numbers of the sources are IEEE binary64. A finite double is the rational
    it stands for; an operation is the exact operation followed by [rnd], rounding
    to 53 significant bits, ties to even. Overflow and subnormal numbers are left
    out: the amounts the development computes with lie far inside the range. *)

From Stdlib Require Import ZArith Lia QArith Qround Lqa.

Open Scope Z_scope.

(** ** Rounding *)

(** The integer nearest to [n / d], ties to even. *)
Definition nearest_even (n d : Z) : Z :=
  let q := n / d in
  let r := n mod d in
  if 2 * r <? d then q
  else if d <? 2 * r then q + 1
  else if Z.even q then q else q + 1.

(** [n / d * 2 ^ (- e)] as a fraction. *)
Definition scaled_num (n e : Z) : Z := if 0 <=? e then n else n * 2 ^ (- e).
Definition scaled_den (d e : Z) : Z := if 0 <=? e then d * 2 ^ e else d.

(** The exponent [e] with [2 ^ 52 <= n / d * 2 ^ (- e)], the greatest such. *)
Definition exponent (n d : Z) : Z :=
  let l := Z.log2 n - Z.log2 d - 52 in
  if 2 ^ 52 * scaled_den d l <=? scaled_num n l then l else l - 1.

(** [m * 2 ^ e] *)
Definition dyadic (m e : Z) : Q :=
  if 0 <=? e then inject_Z (m * 2 ^ e) else Qmake m (Z.to_pos (2 ^ (- e))).

Definition rnd_pos (n : Z) (d : positive) : Q :=
  let e := exponent n (Zpos d) in
  dyadic (nearest_even (scaled_num n e) (scaled_den (Zpos d) e)) e.

Definition rnd (q : Q) : Q :=
  match Qnum q with
  | Z0 => 0%Q
  | Zpos n => rnd_pos (Zpos n) (Qden q)
  | Zneg n => Qopp (rnd_pos (Zpos n) (Qden q))
  end.

Definition fmul (x y : Q) : Q := rnd (x * y).
Definition fadd (x y : Q) : Q := rnd (x + y).
Definition fdiv (x y : Q) : Q := rnd (x / y).

(** 0.1 + 0.2 is not 0.3, as everywhere. *)
Example tenth : Qeq_bool (fadd (rnd (1 # 10)) (rnd (2 # 10))) (rnd (3 # 10)) = false.
Proof. vm_compute. reflexivity. Qed.
Example three_tenths : Qeq_bool (fadd (rnd (1 # 10)) (rnd (2 # 10))) (5404319552844596 # 18014398509481984) = true.
Proof. vm_compute. reflexivity. Qed.

(** ** The rounding error *)

Lemma nearest_even_bound n d : 0 < d -> 2 * (nearest_even n d * d) <= 2 * n + d /\ 2 * n - d <= 2 * (nearest_even n d * d).
Proof.
  intros Hd. unfold nearest_even. pose proof (Z.div_mod n d ltac:(lia)) as Hn. pose proof (Z.mod_pos_bound n d Hd) as Hr.
  set (q := n / d) in *. set (r := n mod d) in *.
  destruct (Z.ltb_spec (2 * r) d); [nia|]. destruct (Z.ltb_spec d (2 * r)); [nia|]. destruct (Z.even q); nia.
Qed.

Lemma nearest_even_exact m d : 0 < d -> nearest_even (m * d) d = m.
Proof.
  intros Hd. unfold nearest_even. rewrite Z.div_mul, Z.mod_mul by lia.
  destruct (Z.ltb_spec (2 * 0) d); [reflexivity|lia].
Qed.

Lemma scaled_pos n d e : 0 < n -> 0 < d -> 0 < scaled_num n e /\ 0 < scaled_den d e.
Proof.
  intros Hn Hd. unfold scaled_num, scaled_den. destruct (Z.leb_spec 0 e).
  - pose proof (Z.pow_pos_nonneg 2 e ltac:(lia) ltac:(lia)). nia.
  - pose proof (Z.pow_pos_nonneg 2 (- e) ltac:(lia) ltac:(lia)). nia.
Qed.

(** At the chosen exponent the significand has at least 53 bits. *)
Lemma exponent_low n d : 0 < n -> 0 < d -> 2 ^ 52 * scaled_den d (exponent n d) <= scaled_num n (exponent n d).
Proof.
  intros Hn Hd. unfold exponent. set (l := Z.log2 n - Z.log2 d - 52).
  destruct (Z.leb_spec (2 ^ 52 * scaled_den d l) (scaled_num n l)) as [H|_]; [exact H|].
  pose proof (Z.log2_spec n Hn) as [Hn1 _]. pose proof (Z.log2_spec d Hd) as [_ Hd1].
  pose proof (Z.log2_nonneg n). pose proof (Z.log2_nonneg d).
  set (a := Z.log2 n) in *. set (b := Z.log2 d) in *.
  unfold scaled_num, scaled_den. destruct (Z.leb_spec 0 (l - 1)) as [He|He].
  - transitivity (2 ^ a); [|exact Hn1].
    replace (2 ^ a) with (2 ^ 52 * (2 ^ Z.succ b * 2 ^ (l - 1))).
    + apply Z.mul_le_mono_nonneg_l; [lia|]. apply Z.mul_le_mono_nonneg_r; [apply Z.pow_nonneg|]; lia.
    + rewrite <- !Z.pow_add_r by lia. f_equal. unfold l. lia.
  - transitivity (2 ^ a * 2 ^ (- (l - 1))).
    + rewrite <- Z.pow_add_r by lia. replace (a + - (l - 1)) with (52 + Z.succ b) by (unfold l; lia).
      rewrite Z.pow_add_r by lia. apply Z.mul_le_mono_nonneg_l; lia.
    + apply Z.mul_le_mono_nonneg_r; [apply Z.pow_nonneg|]; lia.
Qed.

Definition ulp53 : Q := 1 # 9007199254740992.

(** The relative error of the significand, in integers. *)
Lemma significand_error N D :
  0 < N -> 0 < D -> 2 ^ 52 * D <= N ->
  9007199254740991 * N <= 9007199254740992 * (nearest_even N D * D) <= 9007199254740993 * N.
Proof.
  intros HN HD Hlow. pose proof (nearest_even_bound N D HD) as [H1 H2].
  change (2 ^ 52) with 4503599627370496 in Hlow. lia.
Qed.

Lemma rnd_pos_bounds n d : 0 < n -> ((1 - ulp53) * (n # d) <= rnd_pos n d <= (1 + ulp53) * (n # d))%Q.
Proof.
  intros Hn. unfold rnd_pos. set (e := exponent n (Zpos d)).
  pose proof (scaled_pos n (Zpos d) e Hn ltac:(lia)) as [HN HD].
  pose proof (exponent_low n (Zpos d) Hn ltac:(lia)) as Hlow. fold e in Hlow.
  pose proof (significand_error _ _ HN HD Hlow) as [H1 H2]. revert H1 H2.
  set (m := nearest_even _ _). unfold scaled_num, scaled_den, dyadic, ulp53. destruct (Z.leb_spec 0 e) as [He|He]; intros H1 H2.
  - split; unfold Qle; cbn [Qnum Qden Qmult Qplus Qminus Qopp inject_Z]; lia.
  - pose proof (Z.pow_pos_nonneg 2 (- e) ltac:(lia) ltac:(lia)) as Hp.
    assert (Hden : Zpos (Z.to_pos (2 ^ (- e))) = 2 ^ (- e)) by (apply Z2Pos.id; exact Hp).
    split; unfold Qle; cbn [Qnum Qden Qmult Qplus Qminus Qopp]; rewrite ?Pos2Z.inj_mul, Hden; nia.
Qed.

(** Rounding a non-negative number changes it by a factor within [1 - u, 1 + u]. *)
Lemma rnd_bounds q : (0 <= q -> (1 - ulp53) * q <= rnd q <= (1 + ulp53) * q)%Q.
Proof.
  destruct q as [[|n|n] d]; intros H; unfold rnd; cbn [Qnum Qden].
  - split; unfold Qle; cbn; lia.
  - apply rnd_pos_bounds. lia.
  - exfalso. unfold Qle in H. cbn in H. lia.
Qed.

Lemma floor_unique z (s : Q) : (inject_Z z <= s -> s < inject_Z (z + 1) -> Qfloor s = z)%Q.
Proof.
  intros H1 H2. pose proof (Qfloor_le s) as H3. pose proof (Qlt_floor s) as H4.
  assert (Ha : (inject_Z z < inject_Z (Qfloor s + 1))%Q) by lra.
  assert (Hb : (inject_Z (Qfloor s) < inject_Z (z + 1))%Q) by lra.
  rewrite <- Zlt_Qlt in Ha, Hb. lia.
Qed.

(** ** Chains of operations *)

(** [y] is the exact [x] up to a factor within [1 - e, 1 + e]. *)
Definition rel (e x y : Q) : Prop := (0 <= e <= 1 /\ 0 <= x /\ (1 - e) * x <= y /\ y <= (1 + e) * x)%Q.

Lemma rel_nonneg e x y : rel e x y -> (0 <= y)%Q.
Proof. intros (He & Hx & Hl & _). assert (0 <= (1 - e) * x)%Q by (apply Qmult_le_0_compat; lra). lra. Qed.

Lemma rel_mul e1 e2 x1 x2 y1 y2 :
  rel e1 x1 y1 -> rel e2 x2 y2 -> (e1 + e2 + e1 * e2 <= 1)%Q -> rel (e1 + e2 + e1 * e2) (x1 * x2) (y1 * y2).
Proof.
  intros R1 R2 He. pose proof (rel_nonneg _ _ _ R1) as Hy1. pose proof (rel_nonneg _ _ _ R2) as Hy2.
  destruct R1 as (He1 & Hx1 & Hl1 & Hu1), R2 as (He2 & Hx2 & Hl2 & Hu2).
  assert (He12 : (0 <= e1 * e2)%Q) by (apply Qmult_le_0_compat; lra).
  assert (Hx12 : (0 <= x1 * x2)%Q) by (apply Qmult_le_0_compat; lra).
  split; [lra|]. split; [lra|]. split.
  - assert (H : ((1 - e1) * x1 * ((1 - e2) * x2) <= y1 * y2)%Q).
    { apply Qmult_le_compat_nonneg; split; try lra; apply Qmult_le_0_compat; lra. }
    assert (H' : ((1 - (e1 + e2 + e1 * e2)) * (x1 * x2) <= (1 - e1) * x1 * ((1 - e2) * x2))%Q).
    { setoid_replace ((1 - e1) * x1 * ((1 - e2) * x2))%Q with ((1 - e1) * (1 - e2) * (x1 * x2))%Q by ring.
      apply Qmult_le_compat_r; [lra|lra]. }
    lra.
  - assert (H : (y1 * y2 <= (1 + e1) * x1 * ((1 + e2) * x2))%Q).
    { apply Qmult_le_compat_nonneg; split; lra. }
    setoid_replace ((1 + e1) * x1 * ((1 + e2) * x2))%Q with ((1 + (e1 + e2 + e1 * e2)) * (x1 * x2))%Q in H by ring.
    exact H.
Qed.

Lemma rel_rnd e x y : rel e x y -> (e + ulp53 + e * ulp53 <= 1)%Q -> rel (e + ulp53 + e * ulp53) x (rnd y).
Proof.
  intros R He. pose proof (rel_nonneg _ _ _ R) as Hy. pose proof (rnd_bounds y Hy) as [Hl Hu].
  destruct R as (He1 & Hx & Hl1 & Hu1). set (u := ulp53) in *. assert (Hu0 : (0 <= u <= 1)%Q) by (unfold u, ulp53; lra).
  assert (Heu : (0 <= e * u)%Q) by (apply Qmult_le_0_compat; lra).
  split; [lra|]. split; [exact Hx|]. split.
  - assert (H : ((1 - u) * ((1 - e) * x) <= (1 - u) * y)%Q) by (rewrite !(Qmult_comm (1 - u)); apply Qmult_le_compat_r; lra).
    assert (H' : ((1 - (e + u + e * u)) * x <= (1 - u) * (1 - e) * x)%Q) by (apply Qmult_le_compat_r; lra).
    rewrite Qmult_assoc in H. lra.
  - assert (H : ((1 + u) * y <= (1 + u) * ((1 + e) * x))%Q) by (rewrite !(Qmult_comm (1 + u)); apply Qmult_le_compat_r; lra).
    setoid_replace ((1 + u) * ((1 + e) * x))%Q with ((1 + (e + u + e * u)) * x)%Q in H by ring. lra.
Qed.

(** A looser bound on the factor. *)
Lemma rel_weaken e e' x y : rel e x y -> (e <= e' <= 1)%Q -> rel e' x y.
Proof.
  intros (He & Hx & Hl & Hu) He'. split; [lra|]. split; [exact Hx|].
  assert (H1 : ((1 - e') * x <= (1 - e) * x)%Q) by (apply Qmult_le_compat_r; lra).
  assert (H2 : ((1 + e) * x <= (1 + e') * x)%Q) by (apply Qmult_le_compat_r; lra). split; lra.
Qed.

Lemma rel_exact x : (0 <= x)%Q -> rel 0 x x.
Proof. intros H. split; [lra|]. split; [exact H|]. split; lra. Qed.

Lemma rel_read x : (0 <= x)%Q -> rel ulp53 x (rnd x).
Proof.
  intros H. pose proof (rnd_bounds x H) as [Hl Hu]. split; [unfold ulp53; lra|]. split; [exact H|]. split; assumption.
Qed.

(** The product of two numbers read from text, times a third, each step rounded. *)
Lemma rel_product a b c :
  (0 <= a)%Q -> (0 <= b)%Q -> (0 <= c)%Q -> rel (7 * ulp53) (a * b * c) (fmul (fmul (rnd a) (rnd b)) c).
Proof.
  intros Ha Hb Hc. unfold fmul.
  assert (R1 : rel (3 * ulp53) (a * b) (rnd a * rnd b)).
  { eapply rel_weaken; [apply rel_mul; [apply rel_read, Ha|apply rel_read, Hb|]|]; unfold ulp53; lra. }
  assert (R2 : rel (5 * ulp53) (a * b) (rnd (rnd a * rnd b))).
  { eapply rel_weaken; [apply rel_rnd; [exact R1|]|]; unfold ulp53; lra. }
  assert (R3 : rel (5 * ulp53) (a * b * c) (rnd (rnd a * rnd b) * c)).
  { eapply rel_weaken; [apply rel_mul; [exact R2|apply rel_exact, Hc|]|]; unfold ulp53; lra. }
  eapply rel_weaken; [apply rel_rnd; [exact R3|]|]; unfold ulp53; lra.
Qed.

(** [Math.floor(x + 0.5)] *)
Definition roundHalfUp (n : Q) : Z := Qfloor (fadd n (1 # 2)).

(** Half-up rounding of the fraction [n / d]. *)
Definition half_up (n d : Z) : Z := (2 * n + d) / (2 * d).

(** Adding a half and rounding moves a value known up to seven roundings by little. *)
Lemma fadd_half_close x y :
  rel (7 * ulp53) x y ->
  (x + (1 # 2) - (9 * x + 1) * ulp53 <= fadd y (1 # 2) <= x + (1 # 2) + (9 * x + 1) * ulp53)%Q.
Proof.
  intros R. pose proof (rel_nonneg _ _ _ R) as Hy. destruct R as (_ & Hx & Hl & Hu). unfold fadd.
  pose proof (rnd_bounds (y + (1 # 2)) ltac:(lra)) as [Hl' Hu']. unfold ulp53 in *. split; lra.
Qed.

Lemma roundHalfUp_nonneg y : (0 <= y)%Q -> 0 <= roundHalfUp y.
Proof.
  intros Hy. unfold roundHalfUp, fadd. pose proof (rnd_bounds (y + (1 # 2)) ltac:(lra)) as [Hl _].
  pose proof (Qlt_floor (rnd (y + (1 # 2)))) as Hf. unfold ulp53 in Hl.
  assert (H : (inject_Z 0 < inject_Z (Qfloor (rnd (y + (1 # 2))) + 1))%Q) by (change (inject_Z 0) with 0%Q; lra).
  rewrite <- Zlt_Qlt in H. lia.
Qed.

(** Where the exact value falls between the integers. *)
Lemma half_up_split n d x :
  0 < d -> (x == inject_Z n / inject_Z d)%Q ->
  exists w : Q, (x + (1 # 2) == inject_Z (half_up n d) + w)%Q /\ (0 <= w < 1)%Q
    /\ ((2 * n + d) mod (2 * d) <> 0 -> (1 / inject_Z (2 * d) <= w <= 1 - 1 / inject_Z (2 * d))%Q)
    /\ ((2 * n + d) mod (2 * d) = 0 -> (w == 0)%Q).
Proof.
  intros Hd Hx. set (r := (2 * n + d) mod (2 * d)).
  assert (Hr : 0 <= r < 2 * d) by (apply Z.mod_pos_bound; lia).
  assert (HM : 2 * n + d = 2 * d * half_up n d + r) by (apply Z.div_mod; lia).
  assert (Hd0 : (0 < inject_Z d)%Q) by (change 0%Q with (inject_Z 0); rewrite <- Zlt_Qlt; exact Hd).
  assert (H2d : (inject_Z (2 * d) == 2 * inject_Z d)%Q) by (rewrite inject_Z_mult; reflexivity).
  exists (inject_Z r / inject_Z (2 * d))%Q. rewrite H2d.
  assert (Hdiv : forall a b : Z, a <= b -> (inject_Z a / (2 * inject_Z d) <= inject_Z b / (2 * inject_Z d))%Q).
  { intros a b Hab. unfold Qdiv. apply Qmult_le_compat_r; [rewrite <- Zle_Qle; exact Hab|apply Qinv_le_0_compat; lra]. }
  split; [|split; [|split]].
  - rewrite Hx. apply (f_equal inject_Z) in HM. rewrite !inject_Z_plus, !inject_Z_mult in HM.
    assert (HM' : (2 * inject_Z n + inject_Z d == 2 * inject_Z d * inject_Z (half_up n d) + inject_Z r)%Q)
      by (change 2%Q with (inject_Z 2); rewrite HM; reflexivity).
    field_simplify_eq; [lra|lra].
  - split.
    + apply Qle_shift_div_l; [lra|]. setoid_replace (0 * (2 * inject_Z d))%Q with (inject_Z 0) by (unfold Qeq; cbn; lia).
      rewrite <- Zle_Qle. lia.
    + apply Qlt_shift_div_r; [lra|]. rewrite Qmult_1_l, <- H2d, <- Zlt_Qlt. lia.
  - intros Hne. split.
    + change 1%Q with (inject_Z 1). apply Hdiv. lia.
    + setoid_replace (1 - 1 / (2 * inject_Z d))%Q with (inject_Z (2 * d - 1) / (2 * inject_Z d))%Q.
      * apply Hdiv. lia.
      * replace (2 * d - 1) with (2 * d + -1) by lia. rewrite inject_Z_plus, H2d. change (inject_Z (-1)) with (- (1))%Q. field. lra.
  - intros H0. fold r in H0. rewrite H0. unfold Qdiv. change (inject_Z 0) with 0%Q. lra.
Qed.

(** The computed rounding of a value known up to seven roundings is the exact one,
    unless the exact value is a tie; then it is the exact one or one less. *)
Lemma roundHalfUp_close n d x y :
  0 < d -> (x == inject_Z n / inject_Z d)%Q -> rel (7 * ulp53) x y ->
  ((9 * x + 1) * ulp53 < 1 / inject_Z (2 * d))%Q ->
  ((2 * n + d) mod (2 * d) <> 0 -> roundHalfUp y = half_up n d)
  /\ (roundHalfUp y = half_up n d \/ roundHalfUp y = half_up n d - 1).
Proof.
  intros Hd Hx R HE. pose proof (fadd_half_close x y R) as [Hl Hu].
  destruct (half_up_split n d x Hd Hx) as (w & Hw & Hw01 & Hne & Hz).
  set (E := ((9 * x + 1) * ulp53)%Q) in *. set (t := (1 / inject_Z (2 * d))%Q) in *.
  assert (Hexact : (2 * n + d) mod (2 * d) <> 0 -> roundHalfUp y = half_up n d).
  { intros H. specialize (Hne H). apply floor_unique; [lra|]. rewrite inject_Z_plus. change (inject_Z 1) with 1%Q. lra. }
  split; [exact Hexact|]. destruct (Z.eq_dec ((2 * n + d) mod (2 * d)) 0) as [H0|H0]; [|left; apply Hexact, H0].
  specialize (Hz H0). assert (Ht : (t <= 1)%Q).
  { unfold t. apply Qle_shift_div_r; [change 0%Q with (inject_Z 0); rewrite <- Zlt_Qlt; lia|].
    rewrite Qmult_1_l. change 1%Q with (inject_Z 1). rewrite <- Zle_Qle. lia. }
  destruct (Qlt_le_dec (fadd y (1 # 2)) (inject_Z (half_up n d))) as [Hlt|Hge].
  - right. apply floor_unique; [|replace (half_up n d - 1 + 1) with (half_up n d) by lia; exact Hlt].
    replace (half_up n d - 1) with (half_up n d + -1) by lia. rewrite inject_Z_plus. change (inject_Z (-1)) with (- (1))%Q. lra.
  - left. apply floor_unique; [exact Hge|]. rewrite inject_Z_plus. change (inject_Z 1) with 1%Q. lra.
Qed.
