(* ===== verification/Money.v ===== *)
(** * Money: line totals, invoice totals, tax and status

    apps/api/src/services/invoiceMath.ts, with the arithmetic of [Doubles]. A
    decimal text (a [numeric] column, a [toFixed] result) is its digits and its
    scale. Whole cents are doubles that hold integers; below 2^53 their sums are
    exact and they are integers here. *)

From stdpp Require Import base strings list option.
From Stdlib Require Import ZArith Lia QArith Qround Lqa.
From S2P Require Import Prelude Calendar Doubles.
Open Scope Z_scope.

(** ** Decimal texts *)

Record Decimal : Type := { units : Z; scale : Z }.

#[export] Instance Decimal_eq : EqDecision Decimal.
Proof. solve_decision. Defined.

Definition decimal_value (x : Decimal) : Q := Qmake (units x) (Z.to_pos (10 ^ scale x)).

(** [Number(s)] *)
Definition Number (x : Decimal) : Q := rnd (decimal_value x).

(** [x.toFixed(f)]: the nearest decimal, the larger one on a tie, sign apart. *)
Definition toFixed (f : Z) (x : Q) : Decimal :=
  {| units := if Qle_bool 0 x then Qfloor (x * inject_Z (10 ^ f) + (1 # 2))
              else - Qfloor (- x * inject_Z (10 ^ f) + (1 # 2));
     scale := f |}.

(** [Math.round(x)] *)
Definition math_round (x : Q) : Z := Qfloor (x + (1 # 2)).

(** An amount with two decimals. *)
Definition money (cents : Z) : Decimal := {| units := cents; scale := 2 |}.

(** ** invoiceMath.ts *)

Definition toCents (v : option Decimal) : Z :=
  match v with None => 0 | Some d => math_round (fmul (Number d) 100) end.

Definition fromCents (cents : Z) : Decimal := toFixed 2 (fdiv (inject_Z cents) 100).

Definition computeLineTotal (quantity unitPrice : Decimal) : Decimal :=
  let fractionalCents := fmul (fmul (Number quantity) (Number unitPrice)) 100 in
  fromCents (roundHalfUp fractionalCents).

Record TotalsLine : Type := { lineTotal : Decimal; taxable : bool; customerVisible : bool }.

Record Totals : Type := { subtotal : Decimal; taxTotal : Decimal; total : Decimal }.

(** The loop: subtotal and taxable basis. *)
Definition addLine (acc : Z * Z) (l : TotalsLine) : Z * Z :=
  let '(subtotalCents, taxableCents) := acc in
  if negb (customerVisible l) then acc
  else let c := toCents (Some (lineTotal l)) in
       (subtotalCents + c, if taxable l then taxableCents + c else taxableCents).

Definition computeInvoiceTotals (lines : list TotalsLine) (taxRate : option Decimal) : Totals :=
  let '(subtotalCents, taxableCents) := fold_left addLine lines (0, 0) in
  let rate := match taxRate with Some r => Number r | None => 0%Q end in
  let taxCents := roundHalfUp (fmul (inject_Z taxableCents) rate) in
  let totalCents := subtotalCents + taxCents in
  {| subtotal := fromCents subtotalCents; taxTotal := fromCents taxCents; total := fromCents totalCents |}.

Definition resolveEffectiveTaxRate (taxExempt : bool) (orgRate partnerRate : option Decimal) : Decimal :=
  if taxExempt then {| units := 0; scale := 5 |}
  else let rate := match orgRate, partnerRate with
                   | Some r, _ => r
                   | None, Some r => r
                   | None, None => {| units := 0; scale := 0 |}
                   end in
       toFixed 5 (Number rate).

Inductive InvoiceStatus : Type := inv_draft | inv_sent | inv_partially_paid | inv_paid | inv_overdue | inv_void.
#[export] Instance InvoiceStatus_eq : EqDecision InvoiceStatus.
Proof. solve_decision. Defined.

(** [new Date(iso + 'T23:59:59Z').getTime()] *)
Definition end_of_day (iso : string) : option Z :=
  match parts iso with
  | Some (y, m, d) => Some (date_UTC y (m - 1) d * 86400000 + 86399000)
  | None => None
  end.

Definition deriveInvoiceStatus (voided issued : bool) (total amountPaid : Decimal) (dueDate : option string) (asOf : Z)
  : InvoiceStatus :=
  if voided then inv_void
  else if negb issued then inv_draft
  else let balanceCents := toCents (Some total) - toCents (Some amountPaid) in
       if balanceCents <=? 0 then inv_paid
       else let pastDue := match dueDate with
                           | None => false
                           | Some iso => match end_of_day iso with Some t => t <? asOf | None => false end
                           end in
            if pastDue then inv_overdue
            else if 0 <? toCents (Some amountPaid) then inv_partially_paid
            else inv_sent.

Example comment_case : computeLineTotal {| units := 3; scale := 0 |} {| units := 335; scale := 3 |} = money 101.
Proof. by vm_compute. Qed.

(** ** Exactness of whole cents *)

(** The nearest integer to a value known up to a factor [e] of an integer. *)
Lemma round_near e c y :
  rel e (inject_Z c) y -> (e * inject_Z c < 1 # 2)%Q -> Qfloor (y + (1 # 2)) = c.
Proof.
  intros (He & Hc & Hl & Hu) Hsmall. apply floor_unique; [lra|]. rewrite inject_Z_plus. change (inject_Z 1) with 1%Q. lra.
Qed.

(** Amounts up to 2^43 cents. *)
Definition cents_ok (c : Z) : Prop := 0 <= c <= 8796093022208.

Lemma cents_Q c : cents_ok c -> (0 <= inject_Z c <= 8796093022208)%Q.
Proof.
  intros [H1 H2]. change 0%Q with (inject_Z 0). change 8796093022208%Q with (inject_Z 8796093022208).
  by rewrite <- !Zle_Qle.
Qed.

Lemma fromCents_exact c : cents_ok c -> fromCents c = money c.
Proof.
  intros Hc. pose proof (cents_Q c Hc) as HQ. unfold fromCents, toFixed, money, fdiv.
  change (inject_Z c / 100)%Q with (inject_Z c * (1 # 100))%Q.
  assert (Hx : (0 <= inject_Z c * (1 # 100))%Q) by lra.
  pose proof (rel_read _ Hx) as R. pose proof (rel_nonneg _ _ _ R) as Hy.
  apply Qle_bool_iff in Hy. rewrite Hy. f_equal.
  apply (round_near ulp53); [|unfold ulp53; lra].
  change (inject_Z (10 ^ 2)) with 100%Q. destruct R as (A & B & C & D). unfold ulp53 in *.
  split; [lra|]. split; [lra|]. split; lra.
Qed.

Lemma toCents_exact c : cents_ok c -> toCents (Some (money c)) = c.
Proof.
  intros Hc. pose proof (cents_Q c Hc) as HQ. cbn [toCents]. unfold math_round, Number, fmul.
  assert (Hv : (decimal_value (money c) == inject_Z c * (1 # 100))%Q) by (unfold decimal_value, Qeq; cbn; lia).
  assert (Hx : (0 <= decimal_value (money c))%Q) by (rewrite Hv; lra).
  apply (round_near (4 * ulp53)); [|unfold ulp53; lra].
  assert (R : rel (4 * ulp53) (decimal_value (money c) * 100) (rnd (rnd (decimal_value (money c)) * 100))).
  { eapply rel_weaken; [apply rel_rnd; [apply rel_mul; [apply rel_read, Hx|apply rel_exact; lra|]|]|]; unfold ulp53; lra. }
  destruct R as (A & B & C & D). set (y := rnd (rnd _ * 100)) in *. set (v := decimal_value (money c)) in *.
  unfold ulp53 in *. split; [lra|]. split; [lra|]. split; lra.
Qed.

(** ** Line totals *)

Lemma money_value c : 0 <= c -> (decimal_value (money c) == inject_Z c * (1 # 100))%Q /\ (0 <= decimal_value (money c))%Q.
Proof.
  intros Hc. split; [unfold decimal_value, Qeq; cbn; lia|]. unfold decimal_value, Qle. cbn. lia.
Qed.

(** The rounding of the product of two amounts with two decimals. *)
Lemma toFixed_money c : cents_ok c -> toFixed 2 (Number (money c)) = money c.
Proof.
  intros Hc. pose proof (cents_Q c Hc) as HQ. destruct (money_value c ltac:(by destruct Hc)) as [Hv Hx].
  pose proof (rel_read _ Hx) as R. pose proof (rel_nonneg _ _ _ R) as Hy. unfold toFixed, Number.
  apply Qle_bool_iff in Hy. rewrite Hy. unfold money at 2. f_equal.
  apply (round_near ulp53); [|unfold ulp53; lra].
  change (inject_Z (10 ^ 2)) with 100%Q. destruct R as (A & B & C & D). set (v := rnd _) in *. unfold ulp53 in *.
  split; [lra|]. split; [lra|]. split; lra.
Qed.

Lemma line_cents q p :
  0 <= q -> 0 <= p -> q * p <= 109951162777600 ->
  let c := roundHalfUp (fmul (fmul (Number (money q)) (Number (money p))) 100) in
  ((q * p) mod 100 <> 50 -> c = half_up (q * p) 100)
  /\ (c = half_up (q * p) 100 \/ c = half_up (q * p) 100 - 1).
Proof.
  intros Hq Hp Hb c. destruct (money_value q Hq) as [Vq Pq]. destruct (money_value p Hp) as [Vp Pp].
  assert (Hqp : (0 <= inject_Z (q * p) <= 109951162777600)%Q).
  { change 0%Q with (inject_Z 0). change 109951162777600%Q with (inject_Z 109951162777600). rewrite <- !Zle_Qle. nia. }
  assert (Hx : (decimal_value (money q) * decimal_value (money p) * 100 == inject_Z (q * p) / inject_Z 100)%Q).
  { rewrite Vq, Vp, inject_Z_mult. change (inject_Z 100) with 100%Q. field. }
  destruct (roundHalfUp_close (q * p) 100 _ _ ltac:(lia) Hx
    (rel_product _ _ 100 Pq Pp ltac:(lra))) as [H1 H2].
  { rewrite Hx. change (inject_Z 100) with 100%Q. change (1 / inject_Z (2 * 100))%Q with (1 # 200)%Q.
    unfold Qdiv. change (/ 100)%Q with (1 # 100)%Q. unfold ulp53. lra. }
  split; [|exact H2]. intros Hne. apply H1. intros H0. apply Hne.
  clear -H0. set (n := q * p) in *. Z.to_euclidean_division_equations. lia.
Qed.

(** C33: Up to a product of eleven billion, a line's total is quantity times unit price
    rounded half up to the cent, exactly, in spite of the four roundings of the
    double arithmetic, unless the exact product is a tie; on a tie it may come out
    one cent low (1.15 times 0.90 does). *)
Theorem line_total_is_half_up q p :
  0 <= q -> 0 <= p -> q * p <= 109951162777600 ->
  ((q * p) mod 100 <> 50 -> computeLineTotal (money q) (money p) = money (half_up (q * p) 100))
  /\ (computeLineTotal (money q) (money p) = money (half_up (q * p) 100)
      \/ computeLineTotal (money q) (money p) = money (half_up (q * p) 100 - 1))
  /\ computeLineTotal (money 115) (money 90) = money (half_up (115 * 90) 100 - 1).
Proof.
  intros Hq Hp Hb. destruct (line_cents q p Hq Hp Hb) as [H1 H2].
  assert (Hh : 0 <= half_up (q * p) 100 <= 8796093022208) by (unfold half_up; Z.to_euclidean_division_equations; nia).
  assert (Hzero : 0 <= roundHalfUp (fmul (fmul (Number (money q)) (Number (money p))) 100)).
  { destruct (money_value q Hq) as [_ Pq]. destruct (money_value p Hp) as [_ Pp].
    apply roundHalfUp_nonneg. eapply rel_nonneg. apply rel_product; [done|done|lra]. }
  unfold computeLineTotal. split; [|split; [|by vm_compute]].
  - intros Hne. rewrite (H1 Hne). by apply fromCents_exact.
  - destruct H2 as [E|E]; rewrite E; [left|right]; apply fromCents_exact; unfold cents_ok; lia.
Qed.

Lemma line_total_witness : computeLineTotal (money 251) (money 9999) = money 25097 /\ (251 * 9999) mod 100 <> 50.
Proof.
  split; [|vm_compute; discriminate].
  exact (proj1 (line_total_is_half_up 251 9999 ltac:(lia) ltac:(lia) ltac:(lia)) ltac:(vm_compute; discriminate)).
Defined.

(** ** Invoice totals *)

(** What a customer sees of the lines, in whole cents. *)
Definition line_cents_of (l : TotalsLine) : Z := units (lineTotal l).

Fixpoint sum_cents (p : TotalsLine -> bool) (lines : list TotalsLine) : Z :=
  match lines with
  | [] => 0
  | l :: ls => (if p l then line_cents_of l else 0) + sum_cents p ls
  end.

Definition taxed (l : TotalsLine) : bool := customerVisible l && taxable l.

(** A stored line: two decimals, not negative, within range. *)
Definition line_ok (l : TotalsLine) : Prop := lineTotal l = money (line_cents_of l) /\ cents_ok (line_cents_of l).

Lemma addLine_sums lines s t :
  Forall line_ok lines ->
  fold_left addLine lines (s, t) = (s + sum_cents customerVisible lines, t + sum_cents taxed lines).
Proof.
  intros H. revert s t. induction H as [|l ls [Hl Hc] _ IH]; intros s t; cbn [fold_left sum_cents].
  - by rewrite !Z.add_0_r.
  - unfold addLine at 2, taxed at 1. destruct (customerVisible l); cbn [negb andb]; rewrite ?IH.
    + rewrite Hl, toCents_exact by done. destruct (taxable l); f_equal; lia.
    + f_equal; lia.
Qed.

(** The tax on a basis of [t] cents at a rate of [r] hundred-thousandths. *)
Lemma tax_cents t r :
  0 <= t -> 0 <= r -> t * r <= 200000000000000 ->
  let c := roundHalfUp (fmul (inject_Z t) (Number {| units := r; scale := 5 |})) in
  ((t * r) mod 100000 <> 50000 -> c = half_up (t * r) 100000)
  /\ (c = half_up (t * r) 100000 \/ c = half_up (t * r) 100000 - 1) /\ 0 <= c.
Proof.
  intros Ht Hr Hb c. set (v := decimal_value {| units := r; scale := 5 |}).
  assert (Hv : (v == inject_Z r * (1 # 100000))%Q) by (unfold v, decimal_value, Qeq; cbn; lia).
  assert (Hr0 : (0 <= inject_Z r)%Q) by (change 0%Q with (inject_Z 0); by rewrite <- Zle_Qle).
  assert (Ht0 : (0 <= inject_Z t)%Q) by (change 0%Q with (inject_Z 0); by rewrite <- Zle_Qle).
  assert (Hv0 : (0 <= v)%Q) by lra.
  assert (Htr : (0 <= inject_Z (t * r) <= 200000000000000)%Q).
  { change 0%Q with (inject_Z 0). change 200000000000000%Q with (inject_Z 200000000000000). rewrite <- !Zle_Qle. nia. }
  assert (R : rel (7 * ulp53) (inject_Z t * v) (fmul (inject_Z t) (rnd v))).
  { unfold fmul. eapply rel_weaken;
      [apply rel_rnd; [apply rel_mul; [apply rel_exact, Ht0|apply rel_read, Hv0|]|]|]; unfold ulp53; lra. }
  assert (Hx : (inject_Z t * v == inject_Z (t * r) / inject_Z 100000)%Q).
  { rewrite Hv, inject_Z_mult. change (inject_Z 100000) with 100000%Q. field. }
  destruct (roundHalfUp_close (t * r) 100000 _ _ ltac:(lia) Hx R) as [H1 H2].
  { rewrite Hx. change (inject_Z 100000) with 100000%Q. change (1 / inject_Z (2 * 100000))%Q with (1 # 200000)%Q.
    unfold Qdiv. change (/ 100000)%Q with (1 # 100000)%Q. unfold ulp53. lra. }
  split; [|split; [exact H2|apply roundHalfUp_nonneg; by eapply rel_nonneg]].
  intros Hne. apply H1. intros H0. apply Hne.
  clear -H0. set (n := t * r) in *. Z.to_euclidean_division_equations. lia.
Qed.

Lemma sum_cents_nonneg p lines : Forall line_ok lines -> 0 <= sum_cents p lines.
Proof. induction 1 as [|l ls [_ [Hc _]] _ IH]; cbn [sum_cents]; [done|]. destruct (p l); lia. Qed.

(** The totals of an invoice add up: the subtotal is the sum of the visible lines,
    the tax is the rate times the visible taxable lines rounded half up (a tie may
    come out one cent low), and the total is their sum, to the cent. *)
Lemma invoice_totals_add_up lines r :
  Forall line_ok lines -> 0 <= r <= 1000000 ->
  sum_cents customerVisible lines <= 4398046511104 -> sum_cents taxed lines * r <= 200000000000000 ->
  exists tax,
    computeInvoiceTotals lines (Some {| units := r; scale := 5 |})
    = {| subtotal := money (sum_cents customerVisible lines);
         taxTotal := money tax;
         total := money (sum_cents customerVisible lines + tax) |}
    /\ ((sum_cents taxed lines * r) mod 100000 <> 50000 -> tax = half_up (sum_cents taxed lines * r) 100000)
    /\ (tax = half_up (sum_cents taxed lines * r) 100000 \/ tax = half_up (sum_cents taxed lines * r) 100000 - 1).
Proof.
  intros Hl Hr Hs Ht. pose proof (sum_cents_nonneg customerVisible _ Hl). pose proof (sum_cents_nonneg taxed _ Hl).
  unfold computeInvoiceTotals. rewrite addLine_sums by done. rewrite !Z.add_0_l.
  destruct (tax_cents (sum_cents taxed lines) r ltac:(lia) ltac:(lia) Ht) as (H1 & H2 & H3).
  set (tax := roundHalfUp _) in *. exists tax.
  assert (Hb : tax <= 4398046511104).
  { destruct H2 as [->| ->]; unfold half_up; Z.to_euclidean_division_equations; nia. }
  rewrite !fromCents_exact by (unfold cents_ok; lia). done.
Qed.

Lemma invoice_totals_witness :
  computeInvoiceTotals [ {| lineTotal := money 10000; taxable := true; customerVisible := true |};
                         {| lineTotal := money 2500; taxable := false; customerVisible := true |};
                         {| lineTotal := money 777; taxable := true; customerVisible := false |} ]
    (Some {| units := 8250; scale := 5 |})
  = {| subtotal := money 12500; taxTotal := money 825; total := money 13325 |}.
Proof.
  set (ls := [ {| lineTotal := money 10000; taxable := true; customerVisible := true |};
               {| lineTotal := money 2500; taxable := false; customerVisible := true |};
               {| lineTotal := money 777; taxable := true; customerVisible := false |} ]).
  assert (Hl : Forall line_ok ls) by (repeat constructor; cbn; lia).
  destruct (invoice_totals_add_up ls 8250 Hl ltac:(lia) ltac:(cbn; lia) ltac:(cbn; lia)) as (tax & Heq & Hx & _).
  rewrite Heq, Hx by (vm_compute; discriminate). vm_compute. reflexivity.
Defined.
