(* ===== verification/Quotes.v ===== *)
(** * Quotes: totals, deposits, and the invoice an acceptance issues

    packages/shared/src/utils/quoteMath.ts and depositMath.ts, and the conversion
    of one-time lines in apps/api/src/services/quoteAcceptService.ts. *)

From stdpp Require Import base strings list option.
From Stdlib Require Import ZArith Lia QArith Qround.
From S2P Require Import Prelude Doubles Money.
Open Scope Z_scope.

(** ** Data *)

Inductive Recurrence : Type := one_time | monthly | annual.
Inductive Category : Type := hardware | software | service | other.

#[export] Instance Recurrence_eq : EqDecision Recurrence.
Proof. solve_decision. Defined.
#[export] Instance Category_eq : EqDecision Category.
Proof. solve_decision. Defined.

(** [percent] is [None] when the normalised number is NaN. *)
Inductive QuoteDepositConfig : Type := dep_none | dep_percent (percent : option Q) | dep_selected_lines.

Definition toQuoteDepositConfig (type : option string) (percent : option Decimal) : QuoteDepositConfig :=
  if bool_decide (type = Some "percent"%string) then dep_percent (Number <$> percent)
  else if bool_decide (type = Some "selected_lines"%string) then dep_selected_lines else dep_none.

Record QuoteLineForMath : Type := {
  ql_quantity : Decimal;
  ql_unitPrice : Decimal;
  ql_unitCost : option Decimal;
  ql_taxable : bool;
  ql_customerVisible : bool;
  ql_recurrence : Recurrence;
  ql_depositEligible : bool;
  ql_itemType : option Category;
}.

(** One-time, monthly and annual cents. *)
Record Bucket : Type := { b_oneTime : Z; b_monthly : Z; b_annual : Z }.

Definition bump (r : Recurrence) (c : Z) (b : Bucket) : Bucket :=
  match r with
  | monthly => {| b_oneTime := b_oneTime b; b_monthly := b_monthly b + c; b_annual := b_annual b |}
  | annual => {| b_oneTime := b_oneTime b; b_monthly := b_monthly b; b_annual := b_annual b + c |}
  | one_time => {| b_oneTime := b_oneTime b + c; b_monthly := b_monthly b; b_annual := b_annual b |}
  end.

Definition empty_bucket : Bucket := {| b_oneTime := 0; b_monthly := 0; b_annual := 0 |}.

(** The running sums of the loop. *)
Record Sums : Type := {
  s_all : Bucket;
  s_taxableBasis : Z;
  s_oneTimeTaxableBasis : Z;
  s_eligibleCents : Z;
  s_eligibleTaxableCents : Z;
  s_cat : Category -> option Bucket;
}.

Definition sums0 : Sums :=
  {| s_all := empty_bucket; s_taxableBasis := 0; s_oneTimeTaxableBasis := 0; s_eligibleCents := 0;
     s_eligibleTaxableCents := 0; s_cat := fun _ => None |}.

Definition lineCents (l : QuoteLineForMath) : Z :=
  toCents (Some (computeLineTotal (ql_quantity l) (ql_unitPrice l))).

Definition is_one_time (l : QuoteLineForMath) : bool := bool_decide (ql_recurrence l = one_time).

Definition addQuoteLine (s : Sums) (l : QuoteLineForMath) : Sums :=
  if negb (ql_customerVisible l) then s
  else
    let c := lineCents l in
    let eligible := ql_depositEligible l && is_one_time l in
    let key := default other (ql_itemType l) in
    {| s_all := bump (ql_recurrence l) c (s_all s);
       s_taxableBasis := if ql_taxable l then s_taxableBasis s + c else s_taxableBasis s;
       s_oneTimeTaxableBasis := if ql_taxable l && is_one_time l then s_oneTimeTaxableBasis s + c
                                else s_oneTimeTaxableBasis s;
       s_eligibleCents := if eligible then s_eligibleCents s + c else s_eligibleCents s;
       s_eligibleTaxableCents := if eligible && ql_taxable l then s_eligibleTaxableCents s + c
                                 else s_eligibleTaxableCents s;
       s_cat := fun k => if bool_decide (k = key)
                         then Some (bump (ql_recurrence l) c (default empty_bucket (s_cat s k))) else s_cat s k |}.

Record QuoteTotals : Type := {
  qt_subtotal : Decimal;
  qt_taxTotal : Decimal;
  qt_total : Decimal;
  qt_oneTimeTotal : Decimal;
  qt_monthlyRecurringTotal : Decimal;
  qt_annualRecurringTotal : Decimal;
  qt_dueOnAcceptanceTotal : Decimal;
  qt_depositDueTotal : option Decimal;
  qt_categoryBreakdown : list (Category * Decimal * Decimal * Decimal);
}.

(** The deposit in cents, [None] when there is none or it is not positive. *)
Definition depositCents (s : Sums) (rate : Q) (dueOnAcceptanceCents : Z) (deposit : option QuoteDepositConfig)
  : option Z :=
  let raw := match deposit with
             | Some (dep_percent (Some p)) =>
                 if negb (Qle_bool p 0) then Some (roundHalfUp (fmul (inject_Z dueOnAcceptanceCents) (fdiv p 100))) else None
             | Some dep_selected_lines =>
                 Some (s_eligibleCents s + roundHalfUp (fmul (inject_Z (s_eligibleTaxableCents s)) rate))
             | _ => None
             end in
  match raw with Some c => if c <=? 0 then None else Some c | None => None end.

Definition dueOnAcceptance (s : Sums) (rate : Q) : Z :=
  b_oneTime (s_all s) + roundHalfUp (fmul (inject_Z (s_oneTimeTaxableBasis s)) rate).

Definition computeQuoteTotals (lines : list QuoteLineForMath) (taxRate : option Q) (deposit : option QuoteDepositConfig)
  : QuoteTotals :=
  let s := fold_left addQuoteLine lines sums0 in
  let sub := b_oneTime (s_all s) + b_monthly (s_all s) + b_annual (s_all s) in
  let rate := default 0%Q taxRate in
  let taxCents := roundHalfUp (fmul (inject_Z (s_taxableBasis s)) rate) in
  let due := dueOnAcceptance s rate in
  {| qt_subtotal := fromCents sub;
     qt_taxTotal := fromCents taxCents;
     qt_total := fromCents (sub + taxCents);
     qt_oneTimeTotal := fromCents (b_oneTime (s_all s));
     qt_monthlyRecurringTotal := fromCents (b_monthly (s_all s));
     qt_annualRecurringTotal := fromCents (b_annual (s_all s));
     qt_dueOnAcceptanceTotal := fromCents due;
     qt_depositDueTotal := fromCents <$> depositCents s rate due deposit;
     qt_categoryBreakdown :=
       omap (fun k => match s_cat s k with
                      | Some b => Some (k, fromCents (b_oneTime b), fromCents (b_monthly b), fromCents (b_annual b))
                      | None => None
                      end) [hardware; software; service; other] |}.

Inductive DepositError : Type :=
| DEPOSIT_REQUIRES_ONE_TIME_LINES | DEPOSIT_PERCENT_INVALID | DEPOSIT_NO_ELIGIBLE_LINES | DEPOSIT_NOT_BELOW_TOTAL.

Definition validateQuoteDeposit (lines : list QuoteLineForMath) (taxRate : option Q) (deposit : QuoteDepositConfig)
  : result DepositError (option Decimal) :=
  match deposit with
  | dep_none => Ok None
  | _ =>
      let totals := computeQuoteTotals lines taxRate (Some deposit) in
      let due := toCents (Some (qt_dueOnAcceptanceTotal totals)) in
      if due <=? 0 then Err DEPOSIT_REQUIRES_ONE_TIME_LINES
      else if match deposit with
              | dep_percent (Some p) => Qle_bool p 0 || Qle_bool 100 p
              | dep_percent None => true
              | _ => false
              end then Err DEPOSIT_PERCENT_INVALID
      else
        let cents := match qt_depositDueTotal totals with Some d => toCents (Some d) | None => 0 end in
        if match deposit with dep_selected_lines => cents <=? 0 | _ => false end then Err DEPOSIT_NO_ELIGIBLE_LINES
        else if match deposit with dep_percent _ => cents <=? 0 | _ => false end then Err DEPOSIT_PERCENT_INVALID
        else if due <=? cents then Err DEPOSIT_NOT_BELOW_TOTAL
        else Ok (qt_depositDueTotal totals)
  end.

(** depositMath.ts *)
Definition computeChargeNow (depositDue : option Decimal) (amountPaid balance : Decimal) : Decimal * bool :=
  let balanceCents := toCents (Some balance) in
  let depositC := toCents depositDue in
  let paidCents := toCents (Some amountPaid) in
  if (0 <? depositC) && (paidCents <? depositC)
  then (fromCents (Z.min (depositC - paidCents) balanceCents), true)
  else (balance, false).

(** quoteAcceptService.ts: the totals of the invoice of an accepted quote. *)
Definition acceptTotals (lines : list QuoteLineForMath) (taxRate : option Decimal) : Totals :=
  let oneTime := List.filter (fun l => is_one_time l && ql_customerVisible l) lines in
  computeInvoiceTotals
    (map (fun l => {| lineTotal := computeLineTotal (ql_quantity l) (ql_unitPrice l); taxable := ql_taxable l;
                      customerVisible := true |}) oneTime)
    taxRate.

(** ** Lemmas *)

(** Both loops add up the same one-time lines. *)
Lemma accept_sums lines s a b :
  b_oneTime (s_all s) = a -> s_oneTimeTaxableBasis s = b ->
  let s' := fold_left addQuoteLine lines s in
  fold_left addLine
    (map (fun l => {| lineTotal := computeLineTotal (ql_quantity l) (ql_unitPrice l); taxable := ql_taxable l;
                      customerVisible := true |})
       (List.filter (fun l => is_one_time l && ql_customerVisible l) lines)) (a, b)
  = (b_oneTime (s_all s'), s_oneTimeTaxableBasis s').
Proof.
  revert s a b. induction lines as [|l ls IH]; intros s a b <- <-; [done|]. cbn zeta. cbn [fold_left List.filter].
  unfold addQuoteLine at 2 4. unfold is_one_time. destruct (ql_customerVisible l); cbn [negb andb].
  - destruct (ql_recurrence l) eqn:Er; cbn [bool_decide]; rewrite ?andb_true_r, ?andb_false_r;
      first [rewrite bool_decide_eq_true_2 by done | rewrite bool_decide_eq_false_2 by done].
    + cbn [andb map fold_left]. unfold addLine at 2. cbn [customerVisible taxable lineTotal negb].
      apply IH; cbn; unfold lineCents; by destruct (ql_taxable l).
    + apply IH; cbn; [done|by destruct (ql_taxable l)].
    + apply IH; cbn; [done|by destruct (ql_taxable l)].
  - rewrite andb_false_r. by apply IH.
Qed.

(** The amount a quote shows as due on acceptance is, to the cent and whatever the
    lines and the rate, the total of the invoice the acceptance issues. *)
Lemma accepted_quote_is_invoiced_as_shown lines taxRate deposit :
  qt_dueOnAcceptanceTotal (computeQuoteTotals lines (Number <$> taxRate) deposit) = total (acceptTotals lines taxRate).
Proof.
  unfold acceptTotals, computeInvoiceTotals.
  rewrite (accept_sums lines sums0 0 0 eq_refl eq_refl). cbn [qt_dueOnAcceptanceTotal computeQuoteTotals].
  unfold dueOnAcceptance. by destruct taxRate.
Qed.

(** A validated deposit is positive and below what acceptance costs. *)
Lemma validated_deposit lines taxRate deposit d :
  validateQuoteDeposit lines taxRate deposit = Ok (Some d) ->
  0 < toCents (Some d) < toCents (Some (qt_dueOnAcceptanceTotal (computeQuoteTotals lines taxRate (Some deposit)))).
Proof.
  unfold validateQuoteDeposit. intros H. destruct deposit as [|p|]; [done| |];
    set (t := computeQuoteTotals _ _ _) in *; cbv zeta in H.
  - destruct (_ <=? 0); [done|]. destruct (match p with Some _ => _ | None => _ end); [done|].
    destruct (qt_depositDueTotal t) as [c|]; [|done]. destruct (Z.leb_spec (toCents (Some c)) 0); [done|].
    destruct (Z.leb_spec (toCents (Some (qt_dueOnAcceptanceTotal t))) (toCents (Some c))); [done|]. injection H as <-. lia.
  - destruct (_ <=? 0); [done|].
    destruct (qt_depositDueTotal t) as [c|]; [|done]. destruct (Z.leb_spec (toCents (Some c)) 0); [done|].
    destruct (Z.leb_spec (toCents (Some (qt_dueOnAcceptanceTotal t))) (toCents (Some c))); [done|]. injection H as <-. lia.
Qed.

(** A validated deposit is charged first and only once: until it is covered the
    charge is what is missing of it, afterwards what is left of the invoice; no charge
    exceeds what is owed. *)
Lemma deposit_is_charged_first lines taxRate deposit D T P :
  validateQuoteDeposit lines taxRate deposit = Ok (Some (money D)) ->
  qt_dueOnAcceptanceTotal (computeQuoteTotals lines taxRate (Some deposit)) = money T ->
  cents_ok D -> cents_ok T -> 0 <= P <= T ->
  0 < D < T
  /\ computeChargeNow (Some (money D)) (money P) (money (T - P))
     = (money (if P <? D then D - P else T - P), P <? D).
Proof.
  intros Hv Ht HD HT HP. pose proof (validated_deposit _ _ _ _ Hv) as Hd. rewrite Ht in Hd.
  rewrite !toCents_exact in Hd by done. split; [done|].
  unfold computeChargeNow, cents_ok in *. rewrite !toCents_exact by (unfold cents_ok; lia).
  rewrite (proj2 (Z.ltb_lt 0 D)) by lia. cbn [andb].
  destruct (Z.ltb_spec P D); [|done]. rewrite Z.min_l, fromCents_exact by (unfold cents_ok; lia). done.
Qed.

Definition demo_quote : list QuoteLineForMath :=
  [ {| ql_quantity := money 200; ql_unitPrice := money 49999; ql_unitCost := None; ql_taxable := true;
       ql_customerVisible := true; ql_recurrence := one_time; ql_depositEligible := true; ql_itemType := Some hardware |};
    {| ql_quantity := money 100; ql_unitPrice := money 2500; ql_unitCost := None; ql_taxable := false;
       ql_customerVisible := true; ql_recurrence := monthly; ql_depositEligible := false; ql_itemType := None |} ].

Definition demo_rate : Q := Number {| units := 8250; scale := 5 |}.
Definition demo_deposit : QuoteDepositConfig := dep_percent (Some (inject_Z 30)).

Lemma deposit_witness :
  computeChargeNow (Some (money 32474)) (money 10000) (money (108248 - 10000)) = (money 22474, true).
Proof.
  refine (proj2 (deposit_is_charged_first demo_quote (Some demo_rate) demo_deposit 32474 108248 10000 _ _ _ _ _)).
  - vm_compute. reflexivity.
  - vm_compute. reflexivity.
  - unfold cents_ok. lia.
  - unfold cents_ok. lia.
  - lia.
Defined.
