(* ===== verification/SecretCrypto.v ===== *)
(** * Secrets at rest

    apps/api/src/services/secretCrypto.ts: the versioned ciphertext envelope
    (enc:v1, enc:v2, enc:v3), the keyring, and the binding of a ciphertext to
    the column it was written for. AES-256-GCM and SHA-256 are parameters; the
    base64url text of Node's [Buffer] is modelled. The key caches are not: the
    environment is the one the process started with. *)

From stdpp Require Import base strings list option.
From Stdlib Require Import ZArith Lia Ascii.
From S2P Require Import Prelude Json.

(** ** Bytes and base64url *)

(** A byte is an integer in 0..255. *)
Abbreviation bytes := (list Z).

Definition is_byte (b : Z) : Prop := 0 <= b < 256.

(** [Buffer.from(s, 'utf8')] and [toString('utf8')], on 8-bit text. *)
Fixpoint of_text (s : string) : bytes :=
  match s with
  | EmptyString => []
  | String c s' => Z.of_nat (nat_of_ascii c) :: of_text s'
  end.

Fixpoint to_text (b : bytes) : string :=
  match b with
  | [] => EmptyString
  | x :: b' => String (ascii_of_nat (Z.to_nat x)) (to_text b')
  end.

(** The URL-safe alphabet. *)
Definition b64_char (n : Z) : ascii :=
  if n <? 26 then ascii_of_nat (Z.to_nat (65 + n))
  else if n <? 52 then ascii_of_nat (Z.to_nat (97 + (n - 26)))
  else if n <? 62 then ascii_of_nat (Z.to_nat (48 + (n - 52)))
  else if n =? 62 then "-"%char else "_"%char.

(** The value of a character, in either alphabet; [None] is skipped. *)
Definition b64_value (c : ascii) : option Z :=
  let n := Z.of_nat (nat_of_ascii c) in
  if (65 <=? n) && (n <=? 90) then Some (n - 65)
  else if (97 <=? n) && (n <=? 122) then Some (n - 97 + 26)
  else if (48 <=? n) && (n <=? 57) then Some (n - 48 + 52)
  else if (n =? 45) || (n =? 43) then Some 62
  else if (n =? 95) || (n =? 47) then Some 63
  else None.

(** [b.toString('base64url')] *)
Fixpoint b64_encode (b : bytes) : string :=
  match b with
  | [] => EmptyString
  | [x] => String (b64_char (x / 4)) (String (b64_char (x mod 4 * 16)) EmptyString)
  | [x; y] =>
      String (b64_char (x / 4)) (String (b64_char (x mod 4 * 16 + y / 16))
        (String (b64_char (y mod 16 * 4)) EmptyString))
  | x :: y :: z :: rest =>
      String (b64_char (x / 4)) (String (b64_char (x mod 4 * 16 + y / 16))
        (String (b64_char (y mod 16 * 4 + z / 64)) (String (b64_char (z mod 64)) (b64_encode rest))))
  end.

Fixpoint sextets (s : string) : list Z :=
  match s with
  | EmptyString => []
  | String c s' => match b64_value c with Some v => v :: sextets s' | None => sextets s' end
  end.

Fixpoint unpack (l : list Z) : bytes :=
  match l with
  | a :: b :: c :: d :: rest =>
      (a * 4 + b / 16) :: (b mod 16 * 16 + c / 4) :: (c mod 4 * 64 + d) :: unpack rest
  | [a; b; c] => [a * 4 + b / 16; b mod 16 * 16 + c / 4]
  | [a; b] => [a * 4 + b / 16]
  | _ => []
  end.

(** [Buffer.from(s, 'base64url')] *)
Definition b64_decode (s : string) : bytes := unpack (sextets s).

(** ** Configuration *)

(** The environment variables the module reads. [env_keyring] is the value of
    APP_ENCRYPTION_KEYRING (or its alias): absent or blank, not JSON, or JSON. *)
Inductive KeyringEnv : Type :=
| KeyringUnset
| KeyringNotJson
| KeyringJson (j : json).

Record CryptoEnv : Type := {
  env_APP_ENCRYPTION_KEY : option string;
  env_SSO_ENCRYPTION_KEY : option string;
  env_SECRET_ENCRYPTION_KEY : option string;
  env_JWT_SECRET : option string;
  env_SESSION_SECRET : option string;
  env_NODE_ENV : option string;
  env_APP_ENCRYPTION_KEY_ID : option string;
  env_SECRET_ENCRYPTION_KEY_ID : option string;
  env_keyring : KeyringEnv;
}.

Inductive CryptoError : Type :=
| MissingKey
| InvalidKeyId
| MalformedKeyring
| UnknownKeyId
| MalformedSecret
| AuthenticationFailed
| AadRequired
| StrictRefusesV2
| KeyIdRequired.

(** [a || b] on optional strings. *)
Definition orElse (a b : option string) : option string := if truthy a then a else b.

(** [KEY_ID_PATTERN] *)
Definition key_id_char (c : ascii) : bool :=
  let n := nat_of_ascii c in
  ((65 <=? n) && (n <=? 90))%nat || ((97 <=? n) && (n <=? 122))%nat || is_digit c
  || (n =? 46)%nat || (n =? 95)%nat || (n =? 45)%nat.

Definition validKeyId (s : string) : bool :=
  negb (bool_decide (s = EmptyString)) && str_forallb key_id_char s.

Definition ENCRYPTED_V1_PREFIX : string := "enc:v1:".
Definition ENCRYPTED_V2_PREFIX : string := "enc:v2:".
Definition ENCRYPTED_V3_PREFIX : string := "enc:v3:".

(** [SecretCryptoOptions] *)
Record SecretCryptoOptions : Type := {
  opt_aad : option string;
  opt_strict : bool;
}.

(** [options.aad ? ... : undefined]: the empty text is no binding. *)
Definition aad_of (o : SecretCryptoOptions) : option string :=
  if truthy (opt_aad o) then opt_aad o else None.

Section crypto.

(** SHA-256 of a text. *)
Variable sha256 : string -> bytes.
(** AES-256-GCM: key, nonce, associated data, plaintext to tag and ciphertext;
    and back, [None] when the tag does not verify. *)
Variable gcm_encrypt : bytes -> bytes -> option string -> bytes -> bytes * bytes.
Variable gcm_decrypt : bytes -> bytes -> option string -> bytes -> bytes -> option bytes.

Definition deriveEncryptionKey (keySource : string) : bytes := sha256 keySource.

Definition dedicatedKey (env : CryptoEnv) : option string :=
  orElse (env_APP_ENCRYPTION_KEY env)
    (orElse (env_SSO_ENCRYPTION_KEY env) (env_SECRET_ENCRYPTION_KEY env)).

Definition getLegacyDecryptionKeys (env : CryptoEnv) : list bytes :=
  omap (fun source =>
          match source with
          | Some s => let t := trim s in
                      if negb (bool_decide (t = EmptyString))
                         && negb (bool_decide (Some t = dedicatedKey env))
                      then Some (deriveEncryptionKey t) else None
          | None => None
          end) [env_JWT_SECRET env; env_SESSION_SECRET env].

Definition getEncryptionKey (env : CryptoEnv) : result CryptoError bytes :=
  match dedicatedKey env with
  | Some (String _ _ as k) => Ok (deriveEncryptionKey k)
  | _ =>
      if bool_decide (env_NODE_ENV env = Some "production"%string) then Err MissingKey
      else
        let keySource := orElse (env_JWT_SECRET env) (orElse (env_SESSION_SECRET env)
          (if bool_decide (env_NODE_ENV env = Some "test"%string)
           then Some "test-only-secret-encryption-key"%string else None)) in
        match keySource with
        | Some (String _ _ as k) => Ok (deriveEncryptionKey k)
        | _ => Err MissingKey
        end
  end.

Definition getActiveKeyId (env : CryptoEnv) : result CryptoError (option string) :=
  match orElse (env_APP_ENCRYPTION_KEY_ID env) (env_SECRET_ENCRYPTION_KEY_ID env) with
  | Some (String _ _ as k) =>
      let trimmed := trim k in
      if validKeyId trimmed then Ok (Some trimmed) else Err InvalidKeyId
  | _ => Ok None
  end.

(** The keyring, as the list of its insertions: a later one wins. *)
Fixpoint keyringEntries (members : list (string * json)) (acc : list (string * bytes))
  : result CryptoError (list (string * bytes)) :=
  match members with
  | [] => Ok acc
  | (keyId, keySource) :: rest =>
      let normalizedKeyId := trim keyId in
      match keySource with
      | JStr (String _ _ as src) =>
          if validKeyId normalizedKeyId
          then keyringEntries rest ((normalizedKeyId, deriveEncryptionKey src) :: acc)
          else Err MalformedKeyring
      | _ => Err MalformedKeyring
      end
  end.

Definition getEncryptionKeyring (env : CryptoEnv) : result CryptoError (list (string * bytes)) :=
  match env_keyring env with
  | KeyringUnset => Ok []
  | KeyringNotJson => Err MalformedKeyring
  | KeyringJson (JObj members) => keyringEntries members []
  | KeyringJson _ => Err MalformedKeyring
  end.

Fixpoint assoc {A} (k : string) (l : list (string * A)) : option A :=
  match l with
  | [] => None
  | (k', v) :: l' => if bool_decide (k' = k) then Some v else assoc k l'
  end.

Definition getV2EncryptionKey (env : CryptoEnv) (keyId : string) : result CryptoError bytes :=
  let! keyring := getEncryptionKeyring env in
  match assoc keyId keyring with
  | Some k => Ok k
  | None =>
      let! activeKeyId := getActiveKeyId env in
      if bool_decide (activeKeyId = Some keyId) then
        match dedicatedKey env with
        | Some (String _ _ as src) => Ok (deriveEncryptionKey src)
        | _ => Err UnknownKeyId
        end
      else Err UnknownKeyId
  end.

(** [s.split('.')] *)
Fixpoint split_dot (s : string) : list string :=
  match s with
  | EmptyString => [EmptyString]
  | String c s' =>
      if bool_decide (c = "."%char) then EmptyString :: split_dot s'
      else match split_dot s' with
           | p :: ps => String c p :: ps
           | [] => [String c EmptyString]
           end
  end.

Definition parseEncryptedPayload (encoded : string) : result CryptoError (bytes * bytes * bytes) :=
  match split_dot encoded with
  | [String _ _ as iv; String _ _ as tag; String _ _ as ct] =>
      Ok (b64_decode iv, b64_decode tag, b64_decode ct)
  | _ => Err MalformedSecret
  end.

(** [encryptWithKey(value, key, prefix, aad)]; [iv] is [randomBytes(12)]. *)
Definition encryptWithKey (iv : bytes) (value : string) (key : bytes) (prefix : string)
    (aad : option string) : string :=
  let '(tag, ct) := gcm_encrypt key iv aad (of_text value) in
  (prefix ++ b64_encode iv ++ "." ++ b64_encode tag ++ "." ++ b64_encode ct)%string.

Definition decryptWithKey (encoded : string) (key : bytes) (aad : option string)
  : result CryptoError string :=
  let! (iv, tag, ct) := parseEncryptedPayload encoded in
  match gcm_decrypt key iv aad tag ct with
  | Some plaintext => Ok (to_text plaintext)
  | None => Err AuthenticationFailed
  end.

Definition isEncryptedSecret (value : string) : bool :=
  startsWith ENCRYPTED_V1_PREFIX value || startsWith ENCRYPTED_V2_PREFIX value
  || startsWith ENCRYPTED_V3_PREFIX value.

(** The key id and the payload of the text after a v2 or v3 prefix. *)
Definition splitKeyId (encoded : string) : result CryptoError (string * string) :=
  match indexOf ":" encoded with
  | Some (S n) =>
      let keyId := str_take (S n) encoded in
      let payload := str_drop (S (S n)) encoded in
      if validKeyId keyId then Ok (keyId, payload) else Err MalformedSecret
  | _ => Err MalformedSecret
  end.

Definition getEncryptedSecretKeyId (value : string) : result CryptoError (option string) :=
  if startsWith ENCRYPTED_V1_PREFIX value then Ok None
  else if startsWith ENCRYPTED_V2_PREFIX value || startsWith ENCRYPTED_V3_PREFIX value then
    let! (keyId, _) := splitKeyId (str_drop 7 value) in Ok (Some keyId)
  else Ok None.

Definition shouldReencryptSecret (env : CryptoEnv) (value : option string) (targetWithAad : bool)
  : result CryptoError bool :=
  match value with
  | Some (String _ _ as v) =>
      let! activeKeyId := getActiveKeyId env in
      match activeKeyId with
      | None => Ok false
      | Some active =>
          if negb (isEncryptedSecret v) then Ok true
          else
            let! keyId := getEncryptedSecretKeyId v in
            if negb (bool_decide (keyId = Some active)) then Ok true
            else Ok (targetWithAad && startsWith ENCRYPTED_V2_PREFIX v)
      end
  | _ => Ok false
  end.

(** [encryptSecret(value, options)] *)
Definition encryptSecret (env : CryptoEnv) (iv : bytes) (value : option string)
    (options : SecretCryptoOptions) : result CryptoError (option string) :=
  match value with
  | Some (String _ _ as v) =>
      if isEncryptedSecret v then Ok (Some v)
      else
        let! activeKeyId := getActiveKeyId env in
        match activeKeyId with
        | Some keyId =>
            let! key := getV2EncryptionKey env keyId in
            match aad_of options with
            | Some aad =>
                Ok (Some (encryptWithKey iv v key (ENCRYPTED_V3_PREFIX ++ keyId ++ ":") (Some aad)))
            | None =>
                Ok (Some (encryptWithKey iv v key (ENCRYPTED_V2_PREFIX ++ keyId ++ ":") None))
            end
        | None =>
            let! key := getEncryptionKey env in
            Ok (Some (encryptWithKey iv v key ENCRYPTED_V1_PREFIX None))
        end
  | _ => Ok None
  end.

(** The fallback loop over the legacy keys; [e] is the primary error. *)
Fixpoint tryLegacyKeys (payload : string) (keys : list bytes) (e : CryptoError)
  : result CryptoError string :=
  match keys with
  | [] => Err e
  | k :: rest => match decryptWithKey payload k None with
                 | Ok p => Ok p
                 | Err _ => tryLegacyKeys payload rest e
                 end
  end.

(** The body of [decryptSecret] on a non-empty value. *)
Definition decryptText (env : CryptoEnv) (v : string) (options : SecretCryptoOptions)
  : result CryptoError (option string) :=
  if negb (isEncryptedSecret v) then Ok (Some v)
  else if startsWith ENCRYPTED_V1_PREFIX v then
    let payload := str_drop 7 v in
    match (let! key := getEncryptionKey env in decryptWithKey payload key None) with
    | Ok p => Ok (Some p)
    | Err e => let! p := tryLegacyKeys payload (getLegacyDecryptionKeys env) e in Ok (Some p)
    end
  else
    let isV3 := startsWith ENCRYPTED_V3_PREFIX v in
    let! (keyId, payload) := splitKeyId (str_drop 7 v) in
    let! _ := check (negb (bool_decide (payload = EmptyString))) MalformedSecret in
    if isV3 then
      match aad_of options with
      | None => Err AadRequired
      | Some aad =>
          let! key := getV2EncryptionKey env keyId in
          let! p := decryptWithKey payload key (Some aad) in Ok (Some p)
      end
    else if opt_strict options && truthy (opt_aad options) then Err StrictRefusesV2
    else
      let! key := getV2EncryptionKey env keyId in
      let! p := decryptWithKey payload key None in Ok (Some p).

(** [decryptSecret(value, options)] *)
Definition decryptSecret (env : CryptoEnv) (value : option string) (options : SecretCryptoOptions)
  : result CryptoError (option string) :=
  match value with
  | Some (String _ _ as v) => decryptText env v options
  | _ => Ok None
  end.

(** [decryptForColumn(table, column, value, options)] *)
Definition decryptForColumn (env : CryptoEnv) (table column : string) (value : option string)
    (strict : bool) : result CryptoError (option string) :=
  decryptSecret env value {| opt_aad := Some (table ++ "." ++ column)%string; opt_strict := strict |}.

(** [reencryptSecret(value, options)] *)
Definition reencryptSecret (env : CryptoEnv) (iv : bytes) (value : option string)
    (options : SecretCryptoOptions) : result CryptoError (option string) :=
  match value with
  | Some (String _ _ as v) =>
      let! activeKeyId := getActiveKeyId env in
      match activeKeyId with
      | None => Err KeyIdRequired
      | Some keyId =>
          let! plaintext := decryptSecret env (Some v) options in
          match plaintext with
          | Some (String _ _ as p) =>
              let! key := getV2EncryptionKey env keyId in
              match aad_of options with
              | Some aad =>
                  Ok (Some (encryptWithKey iv p key (ENCRYPTED_V3_PREFIX ++ keyId ++ ":") (Some aad)))
              | None =>
                  Ok (Some (encryptWithKey iv p key (ENCRYPTED_V2_PREFIX ++ keyId ++ ":") None))
              end
          | _ => Ok None
          end
      end
  | _ => Ok None
  end.

End crypto.

(** ** base64url round trip *)

Lemma b64_char_value n : 0 <= n < 64 -> b64_value (b64_char n) = Some n.
Proof.
  intros Hn. unfold b64_value, b64_char.
  repeat case_match; bool_hyps; subst; try done;
    rewrite ?nat_ascii_embedding in * by lia; try (f_equal; lia); try lia;
    rewrite ?Z2Nat.id in * by lia;
    repeat match goal with H : _ && _ = false |- _ => apply andb_false_iff in H end;
    repeat match goal with H : _ || _ = true |- _ => apply orb_true_iff in H end;
    rewrite ?Z.leb_gt, ?Z.leb_le, ?Z.eqb_eq in *; try (f_equal; lia); try lia.
Qed.

(** Whether a text avoids the separators of the envelope. *)
Definition plain_char (c : ascii) : bool := negb (bool_decide (c = "."%char)) && negb (bool_decide (c = ":"%char)).

Lemma b64_char_plain n : 0 <= n < 64 -> plain_char (b64_char n) = true.
Proof.
  intros Hn. pose proof (b64_char_value n Hn) as H. unfold plain_char.
  apply andb_true_iff. rewrite !negb_true_iff, !bool_decide_eq_false.
  split; intros E; rewrite E in H; done.
Qed.

(** Induction three bytes at a time. *)
Lemma bytes_ind3 (P : bytes -> Prop) :
  P [] -> (forall x, P [x]) -> (forall x y, P [x; y]) ->
  (forall x y z l, P l -> P (x :: y :: z :: l)) -> forall l, P l.
Proof.
  intros H0 H1 H2 H3 l.
  enough (P l /\ (forall x, P (x :: l)) /\ (forall x y, P (x :: y :: l))) by naive_solver.
  induction l as [|a l (IH0 & IH1 & IH2)]; [auto|]. repeat split; auto.
Qed.

Lemma sextet_cons n s : 0 <= n < 64 -> sextets (String (b64_char n) s) = n :: sextets s.
Proof. intros H. cbn [sextets]. by rewrite b64_char_value. Qed.

Ltac sextet_bounds x := pose proof (Z.div_mod x 4 ltac:(lia)); pose proof (Z.mod_pos_bound x 4 ltac:(lia));
  pose proof (Z.div_mod x 16 ltac:(lia)); pose proof (Z.mod_pos_bound x 16 ltac:(lia));
  pose proof (Z.div_mod x 64 ltac:(lia)); pose proof (Z.mod_pos_bound x 64 ltac:(lia)).

(** [q * k + r] splits back into [q] and [r]. *)
Lemma pack_div q r k : 0 <= r < k -> (q * k + r) / k = q.
Proof. intros H. rewrite Z.div_add_l, Z.div_small; lia. Qed.
Lemma pack_mod q r k : 0 <= r < k -> (q * k + r) mod k = r.
Proof. intros H. rewrite Z.add_comm, Z.mod_add, Z.mod_small; lia. Qed.

Lemma b64_roundtrip b : Forall is_byte b -> b64_decode (b64_encode b) = b.
Proof.
  unfold b64_decode. induction b as [|x|x y|x y z l IH] using bytes_ind3; intros H; [done|..];
    repeat (apply Forall_cons_iff in H as [? H]); unfold is_byte in *; cbn [b64_encode].
  - sextet_bounds x. rewrite !sextet_cons by lia. cbn [sextets unpack].
    rewrite Z.div_mul by lia. f_equal. lia.
  - sextet_bounds x. sextet_bounds y. rewrite !sextet_cons by lia. cbn [sextets unpack].
    rewrite pack_div, pack_mod, Z.div_mul by lia. repeat f_equal; lia.
  - sextet_bounds x. sextet_bounds y. sextet_bounds z. rewrite !sextet_cons by lia. cbn [unpack].
    rewrite !pack_div, !pack_mod, IH by (done || lia). repeat f_equal; lia.
Qed.

Lemma b64_plain b : Forall is_byte b -> str_forallb plain_char (b64_encode b) = true.
Proof.
  induction b as [|x|x y|x y z l IH] using bytes_ind3; intros H; [done|..];
    repeat (apply Forall_cons_iff in H as [? H]); unfold is_byte in *; cbn [b64_encode str_forallb];
    [sextet_bounds x|sextet_bounds x; sextet_bounds y|sextet_bounds x; sextet_bounds y; sextet_bounds z];
    rewrite !b64_char_plain by lia; [done..|]. by apply IH.
Qed.

Lemma b64_nonempty b : b <> [] -> b64_encode b <> EmptyString.
Proof. by destruct b as [|x [|y [|z b]]]. Qed.

(** ** The envelope *)

Lemma of_text_bytes s : Forall is_byte (of_text s).
Proof.
  induction s as [|c s IH]; cbn [of_text]; [constructor|].
  apply Forall_cons_iff. split; [|done]. pose proof (nat_ascii_bounded c). unfold is_byte. lia.
Qed.

Lemma to_of_text s : to_text (of_text s) = s.
Proof.
  induction s as [|c s IH]; cbn [of_text to_text]; [done|].
  by rewrite Nat2Z.id, ascii_nat_embedding, IH.
Qed.

Lemma split_dot_plain s : str_forallb plain_char s = true -> split_dot s = [s].
Proof.
  induction s as [|c s IH]; intros H; [done|]. cbn [str_forallb] in H. bool_hyps.
  unfold plain_char in H. bool_hyps. cbn [split_dot].
  rewrite bool_decide_eq_false_2 by done. by rewrite IH.
Qed.

Lemma split_dot_app s t :
  str_forallb plain_char s = true -> split_dot (s ++ "." ++ t)%string = s :: split_dot t.
Proof.
  induction s as [|c s IH]; intros H.
  - change (("" ++ "." ++ t)%string) with (String "." t). cbn [split_dot].
    by rewrite bool_decide_eq_true_2.
  - cbn [str_forallb] in H. bool_hyps. unfold plain_char in H. bool_hyps.
    change ((String c s ++ "." ++ t)%string) with (String c (s ++ "." ++ t)). cbn [split_dot].
    rewrite bool_decide_eq_false_2 by done. by rewrite IH.
Qed.

Lemma parse_payload iv tag ct :
  Forall is_byte iv -> Forall is_byte tag -> Forall is_byte ct ->
  iv <> [] -> tag <> [] -> ct <> [] ->
  parseEncryptedPayload (b64_encode iv ++ "." ++ b64_encode tag ++ "." ++ b64_encode ct)%string
  = Ok (iv, tag, ct).
Proof.
  intros Hi Ht Hc Ni Nt Nc. unfold parseEncryptedPayload.
  rewrite split_dot_app, split_dot_app, split_dot_plain by (by apply b64_plain).
  pose proof (b64_nonempty _ Ni). pose proof (b64_nonempty _ Nt). pose proof (b64_nonempty _ Nc).
  rewrite <- (b64_roundtrip iv), <- (b64_roundtrip tag), <- (b64_roundtrip ct) by done.
  rewrite !(b64_roundtrip) by done.
  destruct (b64_encode iv), (b64_encode tag), (b64_encode ct); done.
Qed.

Lemma key_id_no_colon keyId : validKeyId keyId = true -> str_forallb (fun c => negb (bool_decide (c = ":"%char))) keyId = true.
Proof.
  unfold validKeyId. intros H. bool_hyps. clear H. induction keyId as [|c s IH]; [done|].
  cbn [str_forallb] in *. bool_hyps. rewrite IH by done.
  case_bool_decide as E; [|done]. subst c. by vm_compute in H.
Qed.


(** ** What the code relies on from AES-256-GCM *)

(** Decryption inverts encryption under the same key, nonce and associated data;
    other associated data is rejected; tags are not empty, and neither is the
    ciphertext of a non-empty text. *)
Class Aead (enc : bytes -> bytes -> option string -> bytes -> bytes * bytes)
    (dec : bytes -> bytes -> option string -> bytes -> bytes -> option bytes) : Prop := {
  aead_correct key iv aad pt tag ct :
    enc key iv aad pt = (tag, ct) -> dec key iv aad tag ct = Some pt;
  aead_binds key iv aad aad' pt tag ct :
    enc key iv aad pt = (tag, ct) -> aad' <> aad -> dec key iv aad' tag ct = None;
  aead_shape key iv aad pt tag ct :
    enc key iv aad pt = (tag, ct) -> Forall is_byte pt -> pt <> [] ->
    Forall is_byte tag /\ Forall is_byte ct /\ tag <> [] /\ ct <> [];
}.

Section envelope.
Context (sha256 : string -> bytes).
Context {enc dec} `{!Aead enc dec}.

Abbreviation encryptSecret' := (encryptSecret sha256 enc).
Abbreviation decryptSecret' := (decryptSecret sha256 dec).
Abbreviation getKey := (getV2EncryptionKey sha256).

Lemma of_text_nonempty v : v <> EmptyString -> of_text v <> [].
Proof. by destruct v. Qed.

Lemma payload_parses iv v key aad tag ct :
  Forall is_byte iv -> iv <> [] -> v <> EmptyString -> enc key iv aad (of_text v) = (tag, ct) ->
  parseEncryptedPayload (b64_encode iv ++ "." ++ b64_encode tag ++ "." ++ b64_encode ct)%string
  = Ok (iv, tag, ct).
Proof.
  intros Hi Ni Nv He.
  destruct (aead_shape _ _ _ _ _ _ He (of_text_bytes v) (of_text_nonempty v Nv)) as (? & ? & ? & ?).
  by apply parse_payload.
Qed.

Lemma encryptWithKey_prefix iv v key prefix aad :
  encryptWithKey enc iv v key prefix aad
  = (prefix ++ encryptWithKey enc iv v key EmptyString aad)%string.
Proof. unfold encryptWithKey. by destruct (enc key iv aad (of_text v)). Qed.

Lemma decryptWithKey_own iv v key aad :
  Forall is_byte iv -> iv <> [] -> v <> EmptyString ->
  decryptWithKey dec (encryptWithKey enc iv v key EmptyString aad) key aad = Ok v.
Proof.
  intros Hi Ni Nv. unfold decryptWithKey, encryptWithKey.
  destruct (enc key iv aad (of_text v)) as [tag ct] eqn:He.
  change ((EmptyString ++ ?x)%string) with x. rewrite (payload_parses _ _ _ _ _ _ Hi Ni Nv He).
  cbn [rbind]. by rewrite (aead_correct _ _ _ _ _ _ He), to_of_text.
Qed.

Lemma decryptWithKey_other_aad iv v key aad aad' :
  Forall is_byte iv -> iv <> [] -> v <> EmptyString -> aad' <> aad ->
  decryptWithKey dec (encryptWithKey enc iv v key EmptyString aad) key aad' = Err AuthenticationFailed.
Proof.
  intros Hi Ni Nv Hne. unfold decryptWithKey, encryptWithKey.
  destruct (enc key iv aad (of_text v)) as [tag ct] eqn:He.
  change ((EmptyString ++ ?x)%string) with x. rewrite (payload_parses _ _ _ _ _ _ Hi Ni Nv He).
  cbn [rbind]. by rewrite (aead_binds _ _ _ _ _ _ _ He Hne).
Qed.

Lemma payload_nonempty iv v key aad :
  iv <> [] -> encryptWithKey enc iv v key EmptyString aad <> EmptyString.
Proof.
  intros Ni. unfold encryptWithKey. destruct (enc key iv aad (of_text v)).
  pose proof (b64_nonempty iv Ni). by destruct (b64_encode iv).
Qed.

Lemma splitKeyId_envelope keyId payload :
  validKeyId keyId = true -> splitKeyId (keyId ++ ":" ++ payload)%string = Ok (keyId, payload).
Proof.
  intros Hk. pose proof (key_id_no_colon keyId Hk) as Hc. unfold splitKeyId.
  rewrite indexOf_colon by done.
  destruct (String.length keyId) as [|n] eqn:El.
  { unfold validKeyId in Hk. bool_hyps. by destruct keyId. }
  rewrite <- El, str_take_app, Hk.
  replace (S (String.length keyId)) with (String.length keyId + 1)%nat by lia.
  by rewrite str_drop_app.
Qed.

Lemma getActiveKeyId_valid env keyId : getActiveKeyId env = Ok (Some keyId) -> validKeyId keyId = true.
Proof. unfold getActiveKeyId. intros H. repeat case_match; simplify_eq. done. Qed.

Lemma string_app_assoc (a b c : string) : ((a ++ b) ++ c)%string = (a ++ (b ++ c))%string.
Proof. induction a as [|x a IH]; [done|]. change (String x ((a ++ b) ++ c)%string = String x (a ++ b ++ c)%string). by rewrite IH. Qed.

(** How the three prefixes are recognised and removed. *)
Lemma v3_prefix x :
  isEncryptedSecret (ENCRYPTED_V3_PREFIX ++ x) = true
  /\ startsWith ENCRYPTED_V1_PREFIX (ENCRYPTED_V3_PREFIX ++ x) = false
  /\ startsWith ENCRYPTED_V2_PREFIX (ENCRYPTED_V3_PREFIX ++ x) = false
  /\ startsWith ENCRYPTED_V3_PREFIX (ENCRYPTED_V3_PREFIX ++ x) = true
  /\ str_drop 7 (ENCRYPTED_V3_PREFIX ++ x) = x.
Proof. by repeat split. Qed.

Lemma v2_prefix x :
  isEncryptedSecret (ENCRYPTED_V2_PREFIX ++ x) = true
  /\ startsWith ENCRYPTED_V1_PREFIX (ENCRYPTED_V2_PREFIX ++ x) = false
  /\ startsWith ENCRYPTED_V2_PREFIX (ENCRYPTED_V2_PREFIX ++ x) = true
  /\ startsWith ENCRYPTED_V3_PREFIX (ENCRYPTED_V2_PREFIX ++ x) = false
  /\ str_drop 7 (ENCRYPTED_V2_PREFIX ++ x) = x.
Proof. by repeat split. Qed.

Lemma v1_prefix x :
  isEncryptedSecret (ENCRYPTED_V1_PREFIX ++ x) = true
  /\ startsWith ENCRYPTED_V1_PREFIX (ENCRYPTED_V1_PREFIX ++ x) = true
  /\ str_drop 7 (ENCRYPTED_V1_PREFIX ++ x) = x.
Proof. by repeat split. Qed.

(** A v3 envelope, decrypted under any environment. *)
Lemma decrypt_v3 env keyId payload options :
  validKeyId keyId = true -> payload <> EmptyString ->
  decryptSecret' env (Some (ENCRYPTED_V3_PREFIX ++ keyId ++ ":" ++ payload)%string) options
  = match aad_of options with
    | None => Err AadRequired
    | Some aad => let! key := getKey env keyId in
                  let! p := decryptWithKey dec payload key (Some aad) in Ok (Some p)
    end.
Proof.
  intros Hk Hp. change (decryptText sha256 dec env (ENCRYPTED_V3_PREFIX ++ keyId ++ ":" ++ payload) options
    = match aad_of options with
      | None => Err AadRequired
      | Some aad => let! key := getKey env keyId in
                    let! p := decryptWithKey dec payload key (Some aad) in Ok (Some p)
      end).
  unfold decryptText. destruct (v3_prefix (keyId ++ ":" ++ payload)) as (-> & -> & _ & -> & ->).
  rewrite splitKeyId_envelope by done. cbn [negb rbind]. by rewrite bool_decide_eq_false_2.
Qed.

Lemma decrypt_v2 env keyId payload options :
  validKeyId keyId = true -> payload <> EmptyString ->
  decryptSecret' env (Some (ENCRYPTED_V2_PREFIX ++ keyId ++ ":" ++ payload)%string) options
  = if opt_strict options && truthy (opt_aad options) then Err StrictRefusesV2
    else let! key := getKey env keyId in
         let! p := decryptWithKey dec payload key None in Ok (Some p).
Proof.
  intros Hk Hp. change (decryptText sha256 dec env (ENCRYPTED_V2_PREFIX ++ keyId ++ ":" ++ payload) options
    = if opt_strict options && truthy (opt_aad options) then Err StrictRefusesV2
      else let! key := getKey env keyId in
           let! p := decryptWithKey dec payload key None in Ok (Some p)).
  unfold decryptText. destruct (v2_prefix (keyId ++ ":" ++ payload)) as (-> & -> & _ & -> & ->).
  rewrite splitKeyId_envelope by done. cbn [negb rbind]. by rewrite bool_decide_eq_false_2.
Qed.

Lemma decrypt_v1 env payload options key v :
  getEncryptionKey sha256 env = Ok key -> decryptWithKey dec payload key None = Ok v ->
  decryptSecret' env (Some (ENCRYPTED_V1_PREFIX ++ payload)%string) options = Ok (Some v).
Proof.
  intros Hk Hd.
  change (decryptText sha256 dec env (ENCRYPTED_V1_PREFIX ++ payload) options = Ok (Some v)).
  unfold decryptText. destruct (v1_prefix payload) as (-> & -> & ->).
  rewrite Hk. cbn [negb rbind]. by rewrite Hd.
Qed.

(** The three shapes of a ciphertext that [encryptSecret] writes. *)
Lemma encrypt_shape env iv v options c :
  v <> EmptyString -> isEncryptedSecret v = false ->
  encryptSecret' env iv (Some v) options = Ok (Some c) ->
  (exists keyId key aad, getActiveKeyId env = Ok (Some keyId) /\ getKey env keyId = Ok key
     /\ aad_of options = Some aad
     /\ c = (ENCRYPTED_V3_PREFIX ++ keyId ++ ":" ++ encryptWithKey enc iv v key "" (Some aad))%string)
  \/ (exists keyId key, getActiveKeyId env = Ok (Some keyId) /\ getKey env keyId = Ok key
     /\ aad_of options = None
     /\ c = (ENCRYPTED_V2_PREFIX ++ keyId ++ ":" ++ encryptWithKey enc iv v key "" None)%string)
  \/ (exists key, getActiveKeyId env = Ok None /\ getEncryptionKey sha256 env = Ok key
     /\ c = (ENCRYPTED_V1_PREFIX ++ encryptWithKey enc iv v key "" None)%string).
Proof.
  intros Nv Hne H. unfold encryptSecret in H. destruct v as [|ch v']; [done|]. rewrite Hne in H.
  result_ok H. destruct a as [keyId|].
  - result_ok H. destruct (aad_of options) as [aad|] eqn:Ea; injection H as <-; [left|right; left].
    + exists keyId, a, aad. rewrite encryptWithKey_prefix, !string_app_assoc. auto.
    + exists keyId, a. rewrite encryptWithKey_prefix, !string_app_assoc. auto.
  - result_ok H. injection H as <-. right; right. exists a.
    rewrite encryptWithKey_prefix. auto.
Qed.

Lemma decrypt_encrypted env iv v options strict c :
  Forall is_byte iv -> iv <> [] -> v <> EmptyString -> isEncryptedSecret v = false ->
  encryptSecret' env iv (Some v) options = Ok (Some c) ->
  decryptSecret' env (Some c) {| opt_aad := opt_aad options; opt_strict := strict |} = Ok (Some v).
Proof.
  intros Hi Ni Nv Hne H.
  destruct (encrypt_shape _ _ _ _ _ Nv Hne H)
    as [(k & key & aad & Ha & Hk & Haad & ->)|[(k & key & Ha & Hk & Haad & ->)|(key & _ & Hk & ->)]].
  - rewrite decrypt_v3 by (by eapply getActiveKeyId_valid || by apply payload_nonempty).
    unfold aad_of in *. cbn [opt_aad] in *. rewrite Haad, Hk. cbn [rbind].
    by rewrite decryptWithKey_own.
  - rewrite decrypt_v2 by (by eapply getActiveKeyId_valid || by apply payload_nonempty).
    unfold aad_of in Haad. cbn [opt_aad opt_strict].
    assert (truthy (opt_aad options) = false) as ->.
    { destruct (truthy (opt_aad options)) eqn:E; [|done]. by rewrite Haad in E. }
    rewrite andb_false_r, Hk. cbn [rbind]. by rewrite decryptWithKey_own.
  - eapply decrypt_v1; [done|]. by apply decryptWithKey_own.
Qed.

(** What is encrypted comes back: for every configuration, every version of
    the envelope and every non-empty text that does not itself look like a
    ciphertext, decrypting under the same binding returns the text, strict mode
    or not. *)
Lemma secret_roundtrip env iv v options strict c :
  Forall is_byte iv -> iv <> [] -> v <> EmptyString -> isEncryptedSecret v = false ->
  encryptSecret' env iv (Some v) options = Ok (Some c) ->
  decryptSecret' env (Some c) {| opt_aad := opt_aad options; opt_strict := strict |} = Ok (Some v).
Proof. apply decrypt_encrypted. Qed.

(** A bound ciphertext decrypts only for its column: with another binding the
    tag is rejected, with none the call fails, and a caller in strict mode gets
    no plaintext out of an unbound v2 ciphertext. *)
Lemma secret_bound_to_column env iv v aad other c strict :
  Forall is_byte iv -> iv <> [] -> v <> EmptyString -> isEncryptedSecret v = false ->
  getActiveKeyId env <> Ok None -> truthy (Some aad) = true -> truthy (Some other) = true -> other <> aad ->
  encryptSecret' env iv (Some v) {| opt_aad := Some aad; opt_strict := strict |} = Ok (Some c) ->
  decryptSecret' env (Some c) {| opt_aad := Some other; opt_strict := strict |} = Err AuthenticationFailed
  /\ decryptSecret' env (Some c) {| opt_aad := None; opt_strict := strict |} = Err AadRequired
  /\ forall c2, encryptSecret' env iv (Some v) {| opt_aad := None; opt_strict := false |} = Ok (Some c2) ->
       decryptSecret' env (Some c2) {| opt_aad := Some other; opt_strict := true |} = Err StrictRefusesV2.
Proof.
  intros Hi Ni Nv Hne Hact Ta To Hother H.
  destruct (encrypt_shape _ _ _ _ _ Nv Hne H)
    as [(k & key & aad' & Ha & Hk & Haad & ->)|[(k & key & _ & _ & Haad & _)|(key & Ha & _)]].
  - unfold aad_of in Haad. cbn [opt_aad] in Haad. rewrite Ta in Haad. injection Haad as <-.
    assert (Hval : validKeyId k = true) by (by eapply getActiveKeyId_valid).
    rewrite !decrypt_v3 by (done || by apply payload_nonempty).
    unfold aad_of. cbn [opt_aad]. rewrite To, Hk. cbn [truthy rbind].
    rewrite decryptWithKey_other_aad by (done || congruence). split; [done|]. split; [done|].
    intros c2 H2. destruct (encrypt_shape _ _ _ _ _ Nv Hne H2)
      as [(? & ? & ? & _ & _ & Hx & _)|[(k2 & key2 & Ha2 & _ & _ & ->)|(? & Hx & _)]]; [done| |congruence].
    rewrite decrypt_v2 by (by eapply getActiveKeyId_valid || by apply payload_nonempty).
    cbn [opt_strict opt_aad]. by rewrite To.
  - unfold aad_of in Haad. cbn [opt_aad] in Haad. by rewrite Ta in Haad.
  - done.
Qed.

(** Rotating the key keeps old secrets readable: a secret written under one
    configuration decrypts under any other that still resolves its key id to the
    same key, whatever the new active key is. *)
Lemma rotation_keeps_old_secrets env env' iv v options c keyId :
  Forall is_byte iv -> iv <> [] -> v <> EmptyString -> isEncryptedSecret v = false ->
  getActiveKeyId env = Ok (Some keyId) -> getKey env' keyId = getKey env keyId ->
  encryptSecret' env iv (Some v) options = Ok (Some c) ->
  decryptSecret' env' (Some c) options = decryptSecret' env (Some c) options
  /\ decryptSecret' env (Some c) options = Ok (Some v)
  /\ getEncryptedSecretKeyId c = Ok (Some keyId).
Proof.
  intros Hi Ni Nv Hne Hact Hsame H.
  assert (Hval : validKeyId keyId = true) by (by eapply getActiveKeyId_valid).
  destruct (encrypt_shape _ _ _ _ _ Nv Hne H)
    as [(k & key & aad & Ha & Hk & Haad & ->)|[(k & key & Ha & Hk & Haad & ->)|(key & Ha & _)]];
    [..|congruence]; rewrite Ha in Hact; injection Hact as ->.
  - rewrite !decrypt_v3 by (done || by apply payload_nonempty). rewrite Haad, Hsame, Hk. cbn [rbind].
    rewrite decryptWithKey_own by done. split; [done|]. split; [done|].
    unfold getEncryptedSecretKeyId. destruct (v3_prefix (keyId ++ ":" ++
      encryptWithKey enc iv v key "" (Some aad))) as (_ & -> & -> & -> & ->).
    cbn [orb]. by rewrite splitKeyId_envelope.
  - rewrite !decrypt_v2 by (done || by apply payload_nonempty).
    unfold aad_of in Haad. assert (truthy (opt_aad options) = false) as ->.
    { destruct (truthy (opt_aad options)) eqn:E; [|done]. by rewrite Haad in E. }
    rewrite andb_false_r, Hsame, Hk. cbn [rbind].
    rewrite decryptWithKey_own by done. split; [done|]. split; [done|].
    unfold getEncryptedSecretKeyId. destruct (v2_prefix (keyId ++ ":" ++
      encryptWithKey enc iv v key "" None)) as (_ & -> & -> & _ & ->).
    cbn [orb]. by rewrite splitKeyId_envelope.
Qed.

Lemma should_not_reencrypt env keyId x targetWithAad :
  getActiveKeyId env = Ok (Some keyId) ->
  shouldReencryptSecret env (Some (ENCRYPTED_V3_PREFIX ++ keyId ++ ":" ++ x)%string) targetWithAad = Ok false
  /\ shouldReencryptSecret env (Some (ENCRYPTED_V2_PREFIX ++ keyId ++ ":" ++ x)%string) false = Ok false.
Proof.
  intros Ha. assert (Hval : validKeyId keyId = true) by (by eapply getActiveKeyId_valid).
  assert (Hs : forall v t, v <> EmptyString ->
    shouldReencryptSecret env (Some v) t
    = if negb (isEncryptedSecret v) then Ok true
      else let! k := getEncryptedSecretKeyId v in
           if negb (bool_decide (k = Some keyId)) then Ok true
           else Ok (t && startsWith ENCRYPTED_V2_PREFIX v)).
  { intros v t Nv. unfold shouldReencryptSecret. destruct v; [done|]. by rewrite Ha. }
  rewrite !Hs by done. unfold getEncryptedSecretKeyId.
  destruct (v3_prefix (keyId ++ ":" ++ x)) as (-> & -> & -> & -> & ->).
  destruct (v2_prefix (keyId ++ ":" ++ x)) as (-> & -> & -> & _ & ->).
  cbn [negb orb]. rewrite !splitKeyId_envelope by done. cbn [rbind].
  by rewrite bool_decide_eq_true_2, andb_false_r.
Qed.

(** Re-encryption converges: it keeps the plaintext, and a value it wrote is
    not selected for re-encryption again. *)
Lemma reencryption_converges env iv v options c :
  Forall is_byte iv -> iv <> [] ->
  reencryptSecret sha256 enc dec env iv (Some v) options = Ok (Some c) ->
  decryptSecret' env (Some c) options = decryptSecret' env (Some v) options
  /\ shouldReencryptSecret env (Some c) (truthy (opt_aad options)) = Ok false.
Proof.
  intros Hi Ni H. unfold reencryptSecret in H. destruct v as [|ch v']; [done|].
  result_ok H. destruct a as [keyId|]; [|done]. result_ok H. rename Hg0 into Hdec.
  assert (Hval : validKeyId keyId = true) by (by eapply getActiveKeyId_valid).
  destruct a as [p|]; [|done]. destruct p as [|pc p']; [done|]. result_ok H. rewrite Hdec.
  assert (Np : String pc p' <> EmptyString) by done.
  destruct (aad_of options) as [aad|] eqn:Ea; injection H as <-;
    rewrite encryptWithKey_prefix, !string_app_assoc.
  - split; [|by apply should_not_reencrypt].
    rewrite decrypt_v3 by (done || by apply payload_nonempty). rewrite Ea, Hg0. cbn [rbind].
    by rewrite decryptWithKey_own.
  - unfold aad_of in Ea. assert (truthy (opt_aad options) = false) as Ht.
    { destruct (truthy (opt_aad options)) eqn:E; [|done]. by rewrite Ea in E. }
    rewrite Ht. split; [|by apply (should_not_reencrypt env keyId _ false)].
    rewrite decrypt_v2 by (done || by apply payload_nonempty). rewrite Ht, andb_false_r, Hg0. cbn [rbind].
    by rewrite decryptWithKey_own.
Qed.

End envelope.

(** ** Witnesses: a cipher that stores its associated data as the tag *)

Definition toy_tag (aad : option string) : bytes :=
  match aad with Some a => 1 :: of_text a | None => [0] end.
Definition toy_enc (key iv : bytes) (aad : option string) (pt : bytes) : bytes * bytes := (toy_tag aad, pt).
Definition toy_dec (key iv : bytes) (aad : option string) (tag ct : bytes) : option bytes :=
  if bool_decide (tag = toy_tag aad) then Some ct else None.

Lemma toy_tag_inj a b : toy_tag a = toy_tag b -> a = b.
Proof.
  destruct a as [a|], b as [b|]; cbn; intros H; simplify_eq; [|done].
  by rewrite <- (to_of_text a), <- (to_of_text b), H.
Qed.

#[export] Instance toy_aead : Aead toy_enc toy_dec.
Proof.
  constructor.
  - intros key iv aad pt tag ct [= <- <-]. unfold toy_dec. by rewrite bool_decide_eq_true_2.
  - intros key iv aad aad' pt tag ct [= <- <-] Hne. unfold toy_dec.
    rewrite bool_decide_eq_false_2; [done|]. intros H. by apply toy_tag_inj in H as ->.
  - intros key iv aad pt tag ct [= <- <-] Hb Hn. repeat split; try done; [|by destruct aad].
    destruct aad; cbn; (apply Forall_cons_iff; split; [unfold is_byte; lia|]);
      [apply of_text_bytes|constructor].
Qed.

Definition demo_env : CryptoEnv :=
  {| env_APP_ENCRYPTION_KEY := Some "k"; env_SSO_ENCRYPTION_KEY := None;
     env_SECRET_ENCRYPTION_KEY := None; env_JWT_SECRET := None; env_SESSION_SECRET := None;
     env_NODE_ENV := Some "production"; env_APP_ENCRYPTION_KEY_ID := Some " key-1 ";
     env_SECRET_ENCRYPTION_KEY_ID := None; env_keyring := KeyringUnset |}.
Definition demo_env2 : CryptoEnv :=
  {| env_APP_ENCRYPTION_KEY := Some "k2"; env_SSO_ENCRYPTION_KEY := None;
     env_SECRET_ENCRYPTION_KEY := None; env_JWT_SECRET := None; env_SESSION_SECRET := None;
     env_NODE_ENV := Some "production"; env_APP_ENCRYPTION_KEY_ID := Some "key-2";
     env_SECRET_ENCRYPTION_KEY_ID := None;
     env_keyring := KeyringJson (JObj [("key-1"%string, JStr "k")]) |}.
Definition demo_iv : bytes := [1; 2; 3; 4; 5; 6; 7; 8; 9; 10; 11; 12].
Definition demo_options : SecretCryptoOptions := {| opt_aad := Some "t.c"; opt_strict := true |}.
Definition demo_cipher : string :=
  match encryptSecret of_text toy_enc demo_env demo_iv (Some "pw"%string) demo_options with
  | Ok (Some c) => c | _ => EmptyString end.

Lemma demo_iv_bytes : Forall is_byte demo_iv.
Proof. unfold demo_iv. repeat (apply Forall_cons_iff; split; [unfold is_byte; lia|]). constructor. Qed.

Lemma secret_roundtrip_witness :
  decryptSecret of_text toy_dec demo_env (Some demo_cipher)
    {| opt_aad := opt_aad demo_options; opt_strict := true |} = Ok (Some "pw"%string).
Proof.
  apply (secret_roundtrip of_text demo_env demo_iv "pw" demo_options true demo_cipher demo_iv_bytes);
    [done..|by vm_compute].
Defined.

Lemma secret_bound_witness :
  decryptSecret of_text toy_dec demo_env (Some demo_cipher) {| opt_aad := Some "t.d"; opt_strict := true |}
  = Err AuthenticationFailed.
Proof.
  refine (proj1 (secret_bound_to_column of_text demo_env demo_iv "pw" "t.c" "t.d" demo_cipher true
                   demo_iv_bytes _ _ _ _ _ _ _ _));
    [discriminate|discriminate|by vm_compute|vm_compute; discriminate|reflexivity|reflexivity
    |discriminate|by vm_compute].
Defined.

Lemma rotation_witness :
  decryptSecret of_text toy_dec demo_env2 (Some demo_cipher) demo_options
  = decryptSecret of_text toy_dec demo_env (Some demo_cipher) demo_options.
Proof.
  refine (proj1 (rotation_keeps_old_secrets of_text demo_env demo_env2 demo_iv "pw" demo_options
                   demo_cipher "key-1" demo_iv_bytes _ _ _ _ _ _)); [done|done|by vm_compute..].
Defined.

Lemma reencryption_witness :
  exists c, reencryptSecret of_text toy_enc toy_dec demo_env2 demo_iv (Some demo_cipher) demo_options
            = Ok (Some c)
            /\ shouldReencryptSecret demo_env2 (Some c) (truthy (opt_aad demo_options)) = Ok false.
Proof.
  eexists. split; [by vm_compute|].
  apply (reencryption_converges of_text (enc := toy_enc) (dec := toy_dec) demo_env2 demo_iv demo_cipher
           demo_options _ demo_iv_bytes); [done|by vm_compute].
Defined.
