(* ===== verification/BillingStore.v ===== *)
(** * The billing tables

    db/schema/invoices.ts, contracts.ts and the billable rows of timeTracking.ts.
    Rows the billing services insert are named by numbers in order of insertion,
    for the database's generated ids. Columns that no modelled decision reads are left
    out: bill-to and seller snapshots, terms, document references, a
    payment's method, reference, date and note, created and updated stamps. *)

From stdpp Require Import base gmap strings list option.
From Stdlib Require Import ZArith.
From S2P Require Import Prelude Calendar Money.

(** ** Invoices *)

Inductive InvoiceLineSourceType : Type := src_time_entry | src_part | src_catalog | src_bundle | src_manual | src_contract.
#[export] Instance InvoiceLineSourceType_eq : EqDecision InvoiceLineSourceType.
Proof. solve_decision. Defined.

(** What never changes after the insert. *)
Record InvoiceHead : Type := {
  ih_partnerId : string;
  ih_orgId : string;
  ih_createdBy : option string;
  ih_replacesInvoiceId : option nat;
}.

Record Amounts : Type := {
  am_subtotal : Decimal;
  am_taxRate : option Decimal;
  am_taxTotal : Decimal;
  am_total : Decimal;
}.

(** The columns of the life cycle and of the payments. *)
Record InvoiceLife : Type := {
  il_status : InvoiceStatus;
  il_invoiceNumber : option string;
  il_issueDate : option string;
  il_dueDate : option string;
  il_amountPaid : Decimal;
  il_balance : Decimal;
  il_paidAt : option Z;
  il_markedOverdueAt : option Z;
  il_voidedAt : option Z;
  il_voidReason : option string;
  il_replacedByInvoiceId : option nat;
}.

Record Invoice : Type := {
  iv_head : InvoiceHead;
  iv_siteId : option string;
  iv_currencyCode : string;
  iv_notes : option string;
  iv_depositDue : option Decimal;
  iv_amounts : Amounts;
  iv_life : InvoiceLife;
  iv_firstViewedAt : option Z;
  iv_viewedAt : option Z;
}.

Definition iv_status (i : Invoice) : InvoiceStatus := il_status (iv_life i).
Definition iv_total (i : Invoice) : Decimal := am_total (iv_amounts i).
Definition iv_orgId (i : Invoice) : string := ih_orgId (iv_head i).
Definition iv_partnerId (i : Invoice) : string := ih_partnerId (iv_head i).

Record InvoiceLine : Type := {
  ln_invoiceId : nat;
  ln_orgId : string;
  ln_sourceType : InvoiceLineSourceType;
  ln_sourceId : option string;
  ln_catalogItemId : option string;
  ln_parentLineId : option nat;
  ln_ticketId : option string;
  ln_name : option string;
  ln_description : option string;
  ln_quantity : Decimal;
  ln_unitPrice : Decimal;
  ln_costBasis : option Decimal;
  ln_revenueAllocation : option Decimal;
  ln_taxable : bool;
  ln_customerVisible : bool;
  ln_lineTotal : Decimal;
  ln_isUnapprovedTime : bool;
  ln_sortOrder : Z;
}.

Record Payment : Type := {
  py_invoiceId : nat;
  py_amount : Decimal;
  py_recordedBy : option string;
}.

(** ** Billable work *)

Inductive BillingStatus : Type := not_billed | billed | no_charge | contract_covered.
#[export] Instance BillingStatus_eq : EqDecision BillingStatus.
Proof. solve_decision. Defined.

Record TimeEntry : Type := {
  te_orgId : option string;
  te_ticketId : option string;
  te_endedAt : option Z;
  te_durationMinutes : option Z;
  te_description : option string;
  te_isBillable : bool;
  te_hourlyRate : option Decimal;
  te_billingStatus : BillingStatus;
  te_isApproved : bool;
}.

Record TicketPart : Type := {
  tp_ticketId : string;
  tp_orgId : string;
  tp_createdAt : Z;
  tp_description : string;
  tp_quantity : Decimal;
  tp_unitPrice : Decimal;
  tp_costBasis : option Decimal;
  tp_catalogItemId : option string;
  tp_isBillable : bool;
  tp_billingStatus : BillingStatus;
}.

Definition set_te_status (st : BillingStatus) (t : TimeEntry) : TimeEntry :=
  {| te_orgId := te_orgId t; te_ticketId := te_ticketId t; te_endedAt := te_endedAt t;
     te_durationMinutes := te_durationMinutes t; te_description := te_description t; te_isBillable := te_isBillable t;
     te_hourlyRate := te_hourlyRate t; te_billingStatus := st; te_isApproved := te_isApproved t |}.

Definition set_tp_status (st : BillingStatus) (p : TicketPart) : TicketPart :=
  {| tp_ticketId := tp_ticketId p; tp_orgId := tp_orgId p; tp_createdAt := tp_createdAt p;
     tp_description := tp_description p; tp_quantity := tp_quantity p; tp_unitPrice := tp_unitPrice p;
     tp_costBasis := tp_costBasis p; tp_catalogItemId := tp_catalogItemId p; tp_isBillable := tp_isBillable p;
     tp_billingStatus := st |}.

(** ** Contracts *)

Inductive ContractStatus : Type := ct_draft | ct_active | ct_paused | ct_cancelled | ct_expired.
Inductive ContractLineType : Type := flat | per_device | per_seat | manual.
Inductive NoticeKind : Type := notice_advance | notice_renewed.

#[export] Instance ContractStatus_eq : EqDecision ContractStatus.
Proof. solve_decision. Defined.
#[export] Instance ContractLineType_eq : EqDecision ContractLineType.
Proof. solve_decision. Defined.
#[export] Instance NoticeKind_eq : EqDecision NoticeKind.
Proof. solve_decision. Defined.

Record Contract : Type := {
  ct_partnerId : string;
  ct_orgId : string;
  ct_name : string;
  ct_status : ContractStatus;
  ct_billingTiming : BillingTiming;
  ct_intervalMonths : Z;
  ct_startDate : string;
  ct_endDate : option string;
  ct_nextBillingAt : option string;
  ct_autoIssue : bool;
  ct_autoRenew : bool;
  ct_renewalTermMonths : option Z;
  ct_renewalNoticeDays : option Z;
  ct_notes : option string;
  ct_terms : option string;
  ct_createdBy : option string;
}.

Record ContractLine : Type := {
  cl_contractId : nat;
  cl_orgId : string;
  cl_lineType : ContractLineType;
  cl_description : string;
  cl_catalogItemId : option string;
  cl_unitPrice : Decimal;
  cl_manualQuantity : option Decimal;
  cl_siteId : option string;
  cl_taxable : bool;
  cl_sortOrder : Z;
}.

(** A row of [contract_billing_periods]; its key is (contract, period start), unique. *)
Record BillingPeriod : Type := {
  bp_orgId : string;
  bp_periodEnd : string;
  bp_invoiceId : option nat;
}.

Inductive BillingEvent : Type :=
| contract_activated (c : nat) | contract_paused (c : nat) | contract_cancelled (c : nat) | contract_expired (c : nat)
| contract_invoiced (c i : nat) | contract_auto_renewed (c : nat)
| invoice_issued (i : nat) | payment_recorded (i p : nat) | payment_voided (i p : nat) | invoice_paid (i : nat)
| invoice_voided (i : nat) | invoice_overdue (i : nat) | invoice_viewed (i : nat) | payment_failed (i : nat).

(** ** The store *)

Record BillStore : Type := {
  bs_invoices : gmap nat Invoice;
  bs_lines : gmap nat InvoiceLine;
  bs_payments : gmap nat Payment;
  bs_sequences : gmap (string * Z) Z;
  bs_time : gmap string TimeEntry;
  bs_parts : gmap string TicketPart;
  bs_contracts : gmap nat Contract;
  bs_contractLines : gmap nat ContractLine;
  bs_periods : gmap (nat * string) BillingPeriod;
  bs_notices : list (nat * string * NoticeKind);
  bs_events : list BillingEvent;
  bs_nextId : nat;
}.

Definition with_invoices (f : gmap nat Invoice -> gmap nat Invoice) (s : BillStore) : BillStore :=
  {| bs_invoices := f (bs_invoices s); bs_lines := bs_lines s; bs_payments := bs_payments s; bs_sequences := bs_sequences s;
     bs_time := bs_time s; bs_parts := bs_parts s; bs_contracts := bs_contracts s; bs_contractLines := bs_contractLines s;
     bs_periods := bs_periods s; bs_notices := bs_notices s; bs_events := bs_events s; bs_nextId := bs_nextId s |}.

Definition with_lines (f : gmap nat InvoiceLine -> gmap nat InvoiceLine) (s : BillStore) : BillStore :=
  {| bs_invoices := bs_invoices s; bs_lines := f (bs_lines s); bs_payments := bs_payments s; bs_sequences := bs_sequences s;
     bs_time := bs_time s; bs_parts := bs_parts s; bs_contracts := bs_contracts s; bs_contractLines := bs_contractLines s;
     bs_periods := bs_periods s; bs_notices := bs_notices s; bs_events := bs_events s; bs_nextId := bs_nextId s |}.

Definition with_payments (f : gmap nat Payment -> gmap nat Payment) (s : BillStore) : BillStore :=
  {| bs_invoices := bs_invoices s; bs_lines := bs_lines s; bs_payments := f (bs_payments s); bs_sequences := bs_sequences s;
     bs_time := bs_time s; bs_parts := bs_parts s; bs_contracts := bs_contracts s; bs_contractLines := bs_contractLines s;
     bs_periods := bs_periods s; bs_notices := bs_notices s; bs_events := bs_events s; bs_nextId := bs_nextId s |}.

Definition with_sequences (f : gmap (string * Z) Z -> gmap (string * Z) Z) (s : BillStore) : BillStore :=
  {| bs_invoices := bs_invoices s; bs_lines := bs_lines s; bs_payments := bs_payments s; bs_sequences := f (bs_sequences s);
     bs_time := bs_time s; bs_parts := bs_parts s; bs_contracts := bs_contracts s; bs_contractLines := bs_contractLines s;
     bs_periods := bs_periods s; bs_notices := bs_notices s; bs_events := bs_events s; bs_nextId := bs_nextId s |}.

Definition with_sources (f : gmap string TimeEntry -> gmap string TimeEntry)
    (g : gmap string TicketPart -> gmap string TicketPart) (s : BillStore) : BillStore :=
  {| bs_invoices := bs_invoices s; bs_lines := bs_lines s; bs_payments := bs_payments s; bs_sequences := bs_sequences s;
     bs_time := f (bs_time s); bs_parts := g (bs_parts s); bs_contracts := bs_contracts s;
     bs_contractLines := bs_contractLines s; bs_periods := bs_periods s; bs_notices := bs_notices s;
     bs_events := bs_events s; bs_nextId := bs_nextId s |}.

Definition with_contracts (f : gmap nat Contract -> gmap nat Contract) (s : BillStore) : BillStore :=
  {| bs_invoices := bs_invoices s; bs_lines := bs_lines s; bs_payments := bs_payments s; bs_sequences := bs_sequences s;
     bs_time := bs_time s; bs_parts := bs_parts s; bs_contracts := f (bs_contracts s);
     bs_contractLines := bs_contractLines s; bs_periods := bs_periods s; bs_notices := bs_notices s;
     bs_events := bs_events s; bs_nextId := bs_nextId s |}.

Definition with_contractLines (f : gmap nat ContractLine -> gmap nat ContractLine) (s : BillStore) : BillStore :=
  {| bs_invoices := bs_invoices s; bs_lines := bs_lines s; bs_payments := bs_payments s; bs_sequences := bs_sequences s;
     bs_time := bs_time s; bs_parts := bs_parts s; bs_contracts := bs_contracts s;
     bs_contractLines := f (bs_contractLines s); bs_periods := bs_periods s; bs_notices := bs_notices s;
     bs_events := bs_events s; bs_nextId := bs_nextId s |}.

Definition with_periods (f : gmap (nat * string) BillingPeriod -> gmap (nat * string) BillingPeriod) (s : BillStore)
  : BillStore :=
  {| bs_invoices := bs_invoices s; bs_lines := bs_lines s; bs_payments := bs_payments s; bs_sequences := bs_sequences s;
     bs_time := bs_time s; bs_parts := bs_parts s; bs_contracts := bs_contracts s;
     bs_contractLines := bs_contractLines s; bs_periods := f (bs_periods s); bs_notices := bs_notices s;
     bs_events := bs_events s; bs_nextId := bs_nextId s |}.

Definition with_notice (n : nat * string * NoticeKind) (s : BillStore) : BillStore :=
  {| bs_invoices := bs_invoices s; bs_lines := bs_lines s; bs_payments := bs_payments s; bs_sequences := bs_sequences s;
     bs_time := bs_time s; bs_parts := bs_parts s; bs_contracts := bs_contracts s;
     bs_contractLines := bs_contractLines s; bs_periods := bs_periods s; bs_notices := n :: bs_notices s;
     bs_events := bs_events s; bs_nextId := bs_nextId s |}.

Definition emit (e : BillingEvent) (s : BillStore) : BillStore :=
  {| bs_invoices := bs_invoices s; bs_lines := bs_lines s; bs_payments := bs_payments s; bs_sequences := bs_sequences s;
     bs_time := bs_time s; bs_parts := bs_parts s; bs_contracts := bs_contracts s;
     bs_contractLines := bs_contractLines s; bs_periods := bs_periods s; bs_notices := bs_notices s;
     bs_events := e :: bs_events s; bs_nextId := bs_nextId s |}.

(** Take the next generated id. *)
Definition bump_id (s : BillStore) : BillStore :=
  {| bs_invoices := bs_invoices s; bs_lines := bs_lines s; bs_payments := bs_payments s; bs_sequences := bs_sequences s;
     bs_time := bs_time s; bs_parts := bs_parts s; bs_contracts := bs_contracts s;
     bs_contractLines := bs_contractLines s; bs_periods := bs_periods s; bs_notices := bs_notices s;
     bs_events := bs_events s; bs_nextId := S (bs_nextId s) |}.
