(* ===== verification/Invoices.v ===== *)
(** * Invoices: drafts, assembly, issue, payments, voids

    apps/api/src/services/invoiceService.ts, invoiceAssembly.ts, invoiceNumbers.ts.
    A service call is a function on the store; [issueInvoice], whose checks, guard
    and commit are separate statements, is three. *)

From stdpp Require Import base gmap strings list option sorting.
From Stdlib Require Import ZArith Lia QArith Qround.
From S2P Require Import Prelude Calendar Doubles Money Quotes BillingStore.
Open Scope Z_scope.

(** ** Environment and access *)

Record OrgBilling : Type := { ob_taxExempt : bool; ob_taxRate : option Decimal }.
Record PartnerBilling : Type := {
  pb_defaultTaxRate : option Decimal;
  pb_prefix : option string;
  pb_termsDays : option Z;
  pb_currencyCode : string;
}.

(** The catalog: items, the prices of an organization, and what a bundle holds. *)
Record CatalogItem : Type := {
  it_partnerId : string;
  it_name : string;
  it_description : option string;
  it_unitPrice : Decimal;
  it_costBasis : option Decimal;
  it_taxable : bool;
  it_taxCategory : option string;
  it_isBundle : bool;
  it_recurring : bool;
  it_billingFrequency : option string;
  it_commitmentTermMonths : option Z;
  it_sku : option string;
  it_itemType : Category;
}.
Record BundleComponent : Type := {
  bc_itemId : string;
  bc_quantity : Decimal;
  bc_showOnInvoice : bool;
  bc_revenueAllocation : option Decimal;
}.
Inductive PriceSource : Type := org_override | item_price.
Record ResolvedPrice : Type := {
  rp_unitPrice : Decimal;
  rp_costBasis : option Decimal;
  rp_taxable : bool;
  rp_taxCategory : option string;
  rp_source : PriceSource;
}.
Record BundleEconomics : Type := {
  eco_headlinePrice : Decimal;
  eco_totalCost : Decimal;
  eco_margin : Decimal;
  eco_marginPct : Q;
  eco_allocationTotal : Decimal;
  eco_allocationMatchesHeadline : bool;
}.

(** A device row and a seat, as far as contracts count them. *)
Record BilledDevice : Type := { bd_orgId : string; bd_siteId : option string; bd_status : string }.
Record Seat : Type := { se_orgId : string; se_userId : string; se_userStatus : string }.

Record BillEnv : Type := {
  be_now : Z;
  be_org : string -> option OrgBilling;
  be_partner : string -> option PartnerBilling;
  be_items : gmap string CatalogItem;
  be_overrides : gmap (string * string) Decimal;
  be_components : string -> list BundleComponent;
  be_devices : list BilledDevice;
  be_seats : list Seat;
  be_ticketOrg : string -> option string;
  be_orgPartner : string -> option string;
}.

(** [new Date(ms).toISOString().slice(0, 10)] *)
Definition iso_of_ms (t : Z) : string :=
  let day := t / 86400000 in fmt (year_of day) (month_of day + 1) (date_of day).

Record InvoiceActor : Type := {
  ia_userId : option string;
  ia_partnerId : option string;
  ia_accessibleOrgIds : option (list string);
  ia_allowedSiteIds : option (list string);
}.

(** The codes of [InvoiceServiceError] and [ContractServiceError]. *)
Inductive BillError : Type :=
| PARTNER_UNRESOLVABLE | ORG_DENIED | SITE_DENIED | INVOICE_NOT_FOUND | NOT_A_DRAFT | NOTHING_TO_INVOICE
| NO_VISIBLE_LINES | SOURCE_ALREADY_BILLED | OVERPAYMENT | INVALID_STATE | INVALID_AMOUNT | LINE_NOT_FOUND
| PAYMENT_NOT_FOUND | ITEM_NOT_FOUND | NOT_A_BUNDLE | INVALID_DATE | CHECK_VIOLATION
| CONTRACT_NOT_FOUND | NO_LINES | RENEWAL_INCOMPLETE.

Abbreviation outcome A := (result BillError A).

Definition requirePartner (actor : InvoiceActor) : outcome string :=
  match ia_partnerId actor with
  | Some p => if truthy (Some p) then Ok p else Err PARTNER_UNRESOLVABLE
  | None => Err PARTNER_UNRESOLVABLE
  end.

Definition requireOrgAccess (actor : InvoiceActor) (orgId : string) : outcome unit :=
  check (match ia_accessibleOrgIds actor with None => true | Some l => bool_decide (orgId ∈ l) end) ORG_DENIED.

Definition requireSiteAccess (actor : InvoiceActor) (siteId : option string) : outcome unit :=
  check (match ia_allowedSiteIds actor with
         | None => true
         | Some l => match siteId with Some x => truthy siteId && bool_decide (x ∈ l) | None => false end
         end) SITE_DENIED.

Definition requireInvoiceAccess (actor : InvoiceActor) (i : Invoice) : outcome unit :=
  let! _ := requireOrgAccess actor (iv_orgId i) in requireSiteAccess actor (iv_siteId i).

Definition getOwnedInvoiceOr404 (id : nat) (s : BillStore) : outcome Invoice :=
  match bs_invoices s !! id with Some i => Ok i | None => Err INVOICE_NOT_FOUND end.

Definition assertDraft (i : Invoice) : outcome unit := check (bool_decide (iv_status i = inv_draft)) NOT_A_DRAFT.

(** ** Row updates *)

Definition zero_money : Decimal := money 0.

Definition draft_life : InvoiceLife :=
  {| il_status := inv_draft; il_invoiceNumber := None; il_issueDate := None; il_dueDate := None;
     il_amountPaid := zero_money; il_balance := zero_money; il_paidAt := None; il_markedOverdueAt := None;
     il_voidedAt := None; il_voidReason := None; il_replacedByInvoiceId := None |}.

Definition draft_invoice (h : InvoiceHead) (siteId notes : option string) : Invoice :=
  {| iv_head := h; iv_siteId := siteId; iv_currencyCode := "USD"; iv_notes := notes; iv_depositDue := None;
     iv_amounts := {| am_subtotal := zero_money; am_taxRate := None; am_taxTotal := zero_money; am_total := zero_money |};
     iv_life := draft_life; iv_firstViewedAt := None; iv_viewedAt := None |}.

Definition set_life (f : InvoiceLife -> InvoiceLife) (i : Invoice) : Invoice :=
  {| iv_head := iv_head i; iv_siteId := iv_siteId i; iv_currencyCode := iv_currencyCode i; iv_notes := iv_notes i;
     iv_depositDue := iv_depositDue i; iv_amounts := iv_amounts i;
     iv_life := f (iv_life i); iv_firstViewedAt := iv_firstViewedAt i; iv_viewedAt := iv_viewedAt i |}.

Definition set_amounts (a : Amounts) (balance : Decimal) (i : Invoice) : Invoice :=
  let l := iv_life i in
  {| iv_head := iv_head i; iv_siteId := iv_siteId i; iv_currencyCode := iv_currencyCode i; iv_notes := iv_notes i;
     iv_depositDue := iv_depositDue i; iv_amounts := a;
     iv_life := {| il_status := il_status l; il_invoiceNumber := il_invoiceNumber l; il_issueDate := il_issueDate l;
                   il_dueDate := il_dueDate l; il_amountPaid := il_amountPaid l; il_balance := balance;
                   il_paidAt := il_paidAt l; il_markedOverdueAt := il_markedOverdueAt l; il_voidedAt := il_voidedAt l;
                   il_voidReason := il_voidReason l; il_replacedByInvoiceId := il_replacedByInvoiceId l |};
     iv_firstViewedAt := iv_firstViewedAt i; iv_viewedAt := iv_viewedAt i |}.

Definition set_dueDate (d : option string) (l : InvoiceLife) : InvoiceLife :=
  {| il_status := il_status l; il_invoiceNumber := il_invoiceNumber l; il_issueDate := il_issueDate l; il_dueDate := d;
     il_amountPaid := il_amountPaid l; il_balance := il_balance l; il_paidAt := il_paidAt l;
     il_markedOverdueAt := il_markedOverdueAt l; il_voidedAt := il_voidedAt l; il_voidReason := il_voidReason l;
     il_replacedByInvoiceId := il_replacedByInvoiceId l |}.

Definition set_paid (amountPaid balance : Decimal) (st : InvoiceStatus) (now : Z) (l : InvoiceLife) : InvoiceLife :=
  {| il_status := st; il_invoiceNumber := il_invoiceNumber l; il_issueDate := il_issueDate l; il_dueDate := il_dueDate l;
     il_amountPaid := amountPaid; il_balance := balance;
     il_paidAt := if bool_decide (st = inv_paid) && bool_decide (il_paidAt l = None) then Some now else il_paidAt l;
     il_markedOverdueAt := if bool_decide (st = inv_overdue) && bool_decide (il_markedOverdueAt l = None) then Some now
                           else il_markedOverdueAt l;
     il_voidedAt := il_voidedAt l; il_voidReason := il_voidReason l;
     il_replacedByInvoiceId := il_replacedByInvoiceId l |}.

Definition set_void (reason : string) (now : Z) (l : InvoiceLife) : InvoiceLife :=
  {| il_status := inv_void; il_invoiceNumber := il_invoiceNumber l; il_issueDate := il_issueDate l;
     il_dueDate := il_dueDate l; il_amountPaid := il_amountPaid l; il_balance := il_balance l; il_paidAt := il_paidAt l;
     il_markedOverdueAt := il_markedOverdueAt l; il_voidedAt := Some now; il_voidReason := Some reason;
     il_replacedByInvoiceId := il_replacedByInvoiceId l |}.

Definition set_overdue (now : Z) (l : InvoiceLife) : InvoiceLife :=
  {| il_status := inv_overdue; il_invoiceNumber := il_invoiceNumber l; il_issueDate := il_issueDate l;
     il_dueDate := il_dueDate l; il_amountPaid := il_amountPaid l; il_balance := il_balance l; il_paidAt := il_paidAt l;
     il_markedOverdueAt := Some now; il_voidedAt := il_voidedAt l; il_voidReason := il_voidReason l;
     il_replacedByInvoiceId := il_replacedByInvoiceId l |}.

Definition set_replacedBy (d : nat) (l : InvoiceLife) : InvoiceLife :=
  {| il_status := il_status l; il_invoiceNumber := il_invoiceNumber l; il_issueDate := il_issueDate l;
     il_dueDate := il_dueDate l; il_amountPaid := il_amountPaid l; il_balance := il_balance l; il_paidAt := il_paidAt l;
     il_markedOverdueAt := il_markedOverdueAt l; il_voidedAt := il_voidedAt l; il_voidReason := il_voidReason l;
     il_replacedByInvoiceId := Some d |}.

Definition set_issued (number issueDate dueDate : string) (balance : Decimal) (l : InvoiceLife) : InvoiceLife :=
  {| il_status := inv_sent; il_invoiceNumber := Some number; il_issueDate := Some issueDate; il_dueDate := Some dueDate;
     il_amountPaid := il_amountPaid l; il_balance := balance; il_paidAt := il_paidAt l;
     il_markedOverdueAt := il_markedOverdueAt l; il_voidedAt := il_voidedAt l; il_voidReason := il_voidReason l;
     il_replacedByInvoiceId := il_replacedByInvoiceId l |}.

(** The currency and the deposit columns, where an update writes them. *)
Definition set_charge (currency : option string) (deposit : option Decimal) (i : Invoice) : Invoice :=
  {| iv_head := iv_head i; iv_siteId := iv_siteId i; iv_currencyCode := default (iv_currencyCode i) currency;
     iv_notes := iv_notes i; iv_depositDue := match deposit with Some d => Some d | None => iv_depositDue i end;
     iv_amounts := iv_amounts i; iv_life := iv_life i; iv_firstViewedAt := iv_firstViewedAt i;
     iv_viewedAt := iv_viewedAt i |}.

Definition alter_invoice (id : nat) (f : Invoice -> Invoice) (s : BillStore) : BillStore :=
  with_invoices (alter f id) s.

(** ** Drafts *)

Definition insert_invoice (i : Invoice) (s : BillStore) : BillStore * nat :=
  let id := bs_nextId s in (bump_id (with_invoices (<[id := i]>) s), id).

Definition createManualInvoice (orgId : string) (siteId notes : option string) (actor : InvoiceActor) (s : BillStore)
  : outcome (BillStore * nat) :=
  let! partnerId := requirePartner actor in
  let! _ := requireOrgAccess actor orgId in
  let! _ := requireSiteAccess actor siteId in
  Ok (insert_invoice (draft_invoice {| ih_partnerId := partnerId; ih_orgId := orgId; ih_createdBy := ia_userId actor;
                                       ih_replacesInvoiceId := None |} siteId notes) s).

Definition lines_of (id : nat) (s : BillStore) : list InvoiceLine :=
  List.filter (fun l => bool_decide (ln_invoiceId l = id)) (map_to_list (bs_lines s)).*2.

Definition totals_line (l : InvoiceLine) : TotalsLine :=
  {| lineTotal := ln_lineTotal l; taxable := ln_taxable l; customerVisible := ln_customerVisible l |}.

Definition effectiveRateForOrg (env : BillEnv) (orgId : string) : Decimal :=
  resolveEffectiveTaxRate (from_option ob_taxExempt false (be_org env orgId)) (be_org env orgId ≫= ob_taxRate) None.

Definition recomputeInvoiceTotals (env : BillEnv) (id : nat) (s : BillStore) : outcome BillStore :=
  let! i := getOwnedInvoiceOr404 id s in
  let! _ := assertDraft i in
  let rate := effectiveRateForOrg env (iv_orgId i) in
  let t := computeInvoiceTotals (totals_line <$> lines_of id s) (Some rate) in
  let balance := fromCents (toCents (Some (total t)) - toCents (Some (il_amountPaid (iv_life i)))) in
  Ok (alter_invoice id (set_amounts {| am_subtotal := subtotal t; am_taxRate := Some rate; am_taxTotal := taxTotal t;
                                       am_total := total t |} balance) s).

Definition insert_line (l : InvoiceLine) (s : BillStore) : BillStore * nat :=
  let id := bs_nextId s in (bump_id (with_lines (<[id := l]>) s), id).

Definition nextSort (id : nat) (s : BillStore) : Z :=
  match ln_sortOrder <$> lines_of id s with [] => 0 | k :: ks => foldr Z.max k ks end + 1.

Definition insertLineAndRecompute (env : BillEnv) (id : nat) (mk : Z -> InvoiceLine) (s : BillStore)
  : outcome (BillStore * nat) :=
  let '(s1, lineId) := insert_line (mk (nextSort id s)) s in
  let! s2 := recomputeInvoiceTotals env id s1 in
  Ok (s2, lineId).

(** The draft the caller may change. *)
Definition open_draft (actor : InvoiceActor) (id : nat) (s : BillStore) : outcome Invoice :=
  let! i := getOwnedInvoiceOr404 id s in
  let! _ := assertDraft i in
  let! _ := requireInvoiceAccess actor i in
  Ok i.

Definition addManualLine (env : BillEnv) (id : nat) (name description : option string) (quantity unitPrice : Decimal)
    (taxable_ : bool) (costBasis : option Decimal) (actor : InvoiceActor) (s : BillStore) : outcome (BillStore * nat) :=
  let! i := open_draft actor id s in
  insertLineAndRecompute env id (fun sort =>
    {| ln_invoiceId := id; ln_orgId := iv_orgId i; ln_sourceType := src_manual; ln_sourceId := None;
       ln_catalogItemId := None;
       ln_parentLineId := None; ln_ticketId := None; ln_name := name; ln_description := description;
       ln_quantity := quantity;
       ln_unitPrice := toFixed 2 (Number unitPrice); ln_costBasis := (fun c => toFixed 2 (Number c)) <$> costBasis;
       ln_revenueAllocation := None;
       ln_taxable := taxable_; ln_customerVisible := true; ln_lineTotal := computeLineTotal quantity unitPrice;
       ln_isUnapprovedTime := false; ln_sortOrder := sort |}) s.

(** *** catalogService.ts, catalogPricing.ts *)

Definition getOwnedItemOr404 (env : BillEnv) (id partnerId : string) : outcome CatalogItem :=
  match be_items env !! id with
  | Some it => if bool_decide (it_partnerId it = partnerId) then Ok it else Err ITEM_NOT_FOUND
  | None => Err ITEM_NOT_FOUND
  end.

Definition resolvePriceFrom (it : CatalogItem) (override : option Decimal) : ResolvedPrice :=
  {| rp_unitPrice := default (it_unitPrice it) override; rp_costBasis := it_costBasis it; rp_taxable := it_taxable it;
     rp_taxCategory := it_taxCategory it; rp_source := match override with Some _ => org_override | None => item_price end |}.

Definition resolvePrice (env : BillEnv) (itemId orgId : string) (actor : InvoiceActor) : outcome ResolvedPrice :=
  let! partnerId := requirePartner actor in
  let! _ := requireOrgAccess actor orgId in
  let! it := getOwnedItemOr404 env itemId partnerId in
  Ok (resolvePriceFrom it (be_overrides env !! (itemId, orgId))).

(** The components that have a catalog row. *)
Definition bundle_rows (env : BillEnv) (bundleId : string) : list (BundleComponent * CatalogItem) :=
  omap (fun c => it ← be_items env !! bc_itemId c; Some (c, it)) (be_components env bundleId).

(** [Math.round((margin / headline) * 10000) / 100] *)
Definition marginPct (marginCents headlineCents : Z) : Q :=
  if headlineCents =? 0 then 0
  else fdiv (inject_Z (math_round (fmul (fdiv (inject_Z marginCents) (inject_Z headlineCents)) 10000))) 100.

Definition computeBundleEconomicsFrom (headlinePrice : Decimal) (comps : list (BundleComponent * CatalogItem))
  : BundleEconomics :=
  let costCents := fold_left (fun acc r => acc + math_round (fmul (inject_Z (toCents (it_costBasis r.2)))
                                                               (Number (bc_quantity r.1)))) comps 0 in
  let allocations := omap (fun r => bc_revenueAllocation r.1) comps in
  let allocCents := fold_left (fun acc a => acc + toCents (Some a)) allocations 0 in
  let headlineCents := toCents (Some headlinePrice) in
  {| eco_headlinePrice := fromCents headlineCents; eco_totalCost := fromCents costCents;
     eco_margin := fromCents (headlineCents - costCents);
     eco_marginPct := marginPct (headlineCents - costCents) headlineCents; eco_allocationTotal := fromCents allocCents;
     eco_allocationMatchesHeadline := match allocations with [] => true | _ :: _ => allocCents =? headlineCents end |}.

Definition computeBundleEconomics (env : BillEnv) (bundleId orgId : string) (actor : InvoiceActor)
  : outcome BundleEconomics :=
  let! partnerId := requirePartner actor in
  let! _ := requireOrgAccess actor orgId in
  let! bundle := getOwnedItemOr404 env bundleId partnerId in
  let! _ := check (it_isBundle bundle) NOT_A_BUNDLE in
  let! p := resolvePrice env bundleId orgId actor in
  Ok (computeBundleEconomicsFrom (rp_unitPrice p) (bundle_rows env bundleId)).

Definition addCatalogLine (env : BillEnv) (id : nat) (itemId : string) (quantity : Decimal) (actor : InvoiceActor)
    (s : BillStore) : outcome (BillStore * nat) :=
  let! i := open_draft actor id s in
  let! p := resolvePrice env itemId (iv_orgId i) actor in
  let! _ := check (negb (from_option it_isBundle false (be_items env !! itemId))) INVALID_STATE in
  insertLineAndRecompute env id (fun sort =>
    {| ln_invoiceId := id; ln_orgId := iv_orgId i; ln_sourceType := src_catalog; ln_sourceId := None;
       ln_catalogItemId := Some itemId;
       ln_parentLineId := None; ln_ticketId := None;
       ln_name := Some (from_option it_name "Catalog item" (be_items env !! itemId));
       ln_description := be_items env !! itemId ≫= it_description; ln_quantity := quantity;
       ln_unitPrice := rp_unitPrice p; ln_costBasis := rp_costBasis p; ln_revenueAllocation := None;
       ln_taxable := rp_taxable p;
       ln_customerVisible := true; ln_lineTotal := computeLineTotal quantity (rp_unitPrice p);
       ln_isUnapprovedTime := false; ln_sortOrder := sort |}) s.

(** A component under its bundle: free, shown or not as the bundle says. *)
Definition component_line (id : nat) (orgId : string) (parent : nat) (sort : Z) (r : BundleComponent * CatalogItem)
  : InvoiceLine :=
  {| ln_invoiceId := id; ln_orgId := orgId; ln_sourceType := src_bundle; ln_sourceId := None;
     ln_catalogItemId := Some (bc_itemId r.1);
     ln_parentLineId := Some parent; ln_ticketId := None; ln_name := Some (it_name r.2);
     ln_description := it_description r.2;
     ln_quantity := bc_quantity r.1; ln_unitPrice := money 0; ln_costBasis := it_costBasis r.2;
     ln_revenueAllocation := bc_revenueAllocation r.1; ln_taxable := false;
     ln_customerVisible := bc_showOnInvoice r.1; ln_lineTotal := money 0; ln_isUnapprovedTime := false;
     ln_sortOrder := sort |}.

(** Lines inserted one after the other. *)
Fixpoint insert_lines (ls : list InvoiceLine) (s : BillStore) : BillStore :=
  match ls with
  | [] => s
  | l :: ls' => insert_lines ls' (insert_line l s).1
  end.

Definition addBundleLine (env : BillEnv) (id : nat) (bundleId : string) (quantity : Decimal) (actor : InvoiceActor)
    (s : BillStore) : outcome (BillStore * nat) :=
  let! i := open_draft actor id s in
  let! econ := computeBundleEconomics env bundleId (iv_orgId i) actor in
  let sort := nextSort id s in
  let! r := insertLineAndRecompute env id (fun sort =>
    {| ln_invoiceId := id; ln_orgId := iv_orgId i; ln_sourceType := src_bundle; ln_sourceId := None;
       ln_catalogItemId := Some bundleId;
       ln_parentLineId := None; ln_ticketId := None;
       ln_name := Some (from_option it_name "Bundle" (be_items env !! bundleId));
       ln_description := be_items env !! bundleId ≫= it_description; ln_quantity := quantity;
       ln_unitPrice := eco_headlinePrice econ; ln_costBasis := Some (eco_totalCost econ); ln_revenueAllocation := None; ln_taxable := true;
       ln_customerVisible := true;
       ln_lineTotal := computeLineTotal quantity (eco_headlinePrice econ); ln_isUnapprovedTime := false; ln_sortOrder := sort |}) s in
  let! s2 := recomputeInvoiceTotals env id
               (insert_lines (component_line id (iv_orgId i) r.2 sort <$> bundle_rows env bundleId) r.1) in
  Ok (s2, r.2).

Record ContractLineInput : Type := {
  ci_description : string;
  ci_quantity : Decimal;
  ci_unitPrice : Decimal;
  ci_taxable : bool;
  ci_catalogItemId : option string;
  ci_sourceId : option string;
}.

(** The price, taxable flag and cost of a contract line: the catalog's, or the contract's
    own. *)
Definition contractPrice (env : BillEnv) (orgId : string) (i : ContractLineInput) (actor : InvoiceActor)
  : outcome (Decimal * bool * option Decimal) :=
  if truthy (ci_catalogItemId i) then
    let! resolved := resolvePrice env (default EmptyString (ci_catalogItemId i)) orgId actor in
    Ok (rp_unitPrice resolved, rp_taxable resolved, rp_costBasis resolved)
  else
    let unitPrice := toFixed 2 (Number (ci_unitPrice i)) in
    let! _ := check (negb ((units (ci_quantity i) <? 0) || (units unitPrice <? 0))) INVALID_AMOUNT in
    Ok (unitPrice, ci_taxable i, None).

Definition addContractLine (env : BillEnv) (id : nat) (input : ContractLineInput) (actor : InvoiceActor) (s : BillStore)
  : outcome (BillStore * nat) :=
  let! i := open_draft actor id s in
  let! p := contractPrice env (iv_orgId i) input actor in
  let '(unitPrice, taxable_, costBasis) := p in
  insertLineAndRecompute env id (fun sort =>
    {| ln_invoiceId := id; ln_orgId := iv_orgId i; ln_sourceType := src_contract; ln_sourceId := ci_sourceId input;
       ln_catalogItemId := ci_catalogItemId input; ln_parentLineId := None; ln_ticketId := None;
       ln_name := None; ln_description := Some (ci_description input); ln_quantity := ci_quantity input;
       ln_unitPrice := unitPrice;
       ln_costBasis := costBasis; ln_revenueAllocation := None; ln_taxable := taxable_;
       ln_customerVisible := true;
       ln_lineTotal := computeLineTotal (ci_quantity input) unitPrice; ln_isUnapprovedTime := false;
       ln_sortOrder := sort |}) s.

Record LinePatch : Type := {
  lp_name : option (option string);
  lp_description : option (option string);
  lp_quantity : option Decimal;
  lp_unitPrice : option Decimal;
  lp_taxable : option bool;
  lp_customerVisible : option bool;
}.

Definition patch_line (p : LinePatch) (l : InvoiceLine) : InvoiceLine :=
  let quantity := default (ln_quantity l) (lp_quantity p) in
  let unitPrice := match lp_unitPrice p with Some u => toFixed 2 (Number u) | None => ln_unitPrice l end in
  {| ln_invoiceId := ln_invoiceId l; ln_orgId := ln_orgId l; ln_sourceType := ln_sourceType l;
     ln_sourceId := ln_sourceId l;
     ln_catalogItemId := ln_catalogItemId l; ln_parentLineId := ln_parentLineId l; ln_ticketId := ln_ticketId l;
     ln_name := default (ln_name l) (lp_name p); ln_description := default (ln_description l) (lp_description p);
     ln_quantity := quantity; ln_unitPrice := unitPrice;
     ln_costBasis := ln_costBasis l; ln_revenueAllocation := ln_revenueAllocation l;
     ln_taxable := default (ln_taxable l) (lp_taxable p);
     ln_customerVisible := default (ln_customerVisible l) (lp_customerVisible p);
     ln_lineTotal := computeLineTotal quantity unitPrice; ln_isUnapprovedTime := ln_isUnapprovedTime l;
     ln_sortOrder := ln_sortOrder l |}.

Definition updateLine (env : BillEnv) (id lineId : nat) (p : LinePatch) (actor : InvoiceActor) (s : BillStore)
  : outcome BillStore :=
  let! _ := open_draft actor id s in
  match bs_lines s !! lineId with
  | Some l => if bool_decide (ln_invoiceId l = id)
              then recomputeInvoiceTotals env id (with_lines (<[lineId := patch_line p l]>) s)
              else Err LINE_NOT_FOUND
  | None => Err LINE_NOT_FOUND
  end.

(** The line and, by the cascade, the children of a bundle line. *)
Definition delete_line (id lineId : nat) (m : gmap nat InvoiceLine) : gmap nat InvoiceLine :=
  filter (fun '(k, l) => negb (bool_decide (ln_invoiceId l = id)
                               && (bool_decide (k = lineId) || bool_decide (ln_parentLineId l = Some lineId)))) m.

Definition removeLine (env : BillEnv) (id lineId : nat) (actor : InvoiceActor) (s : BillStore) : outcome BillStore :=
  let! _ := open_draft actor id s in
  recomputeInvoiceTotals env id (with_lines (delete_line id lineId) s).

(** Lines and payments go with the invoice; a billed period keeps its row. *)
Definition deleteDraftInvoice (id : nat) (actor : InvoiceActor) (s : BillStore) : outcome BillStore :=
  let! _ := open_draft actor id s in
  Ok (with_periods (fmap (fun p => if bool_decide (bp_invoiceId p = Some id)
                                   then {| bp_orgId := bp_orgId p; bp_periodEnd := bp_periodEnd p; bp_invoiceId := None |}
                                   else p))
       (with_payments (filter (fun '(_, p) => py_invoiceId p <> id))
         (with_lines (filter (fun '(_, l) => ln_invoiceId l <> id)) (with_invoices (delete id) s)))).

Record InvoicePatch : Type := {
  pt_notes : option string;
  pt_siteId : option (option string);
  pt_dueDate : option string;
}.

Definition updateInvoice (id : nat) (p : InvoicePatch) (actor : InvoiceActor) (s : BillStore) : outcome BillStore :=
  let! _ := open_draft actor id s in
  let! _ := match pt_siteId p with Some site => requireSiteAccess actor site | None => Ok tt end in
  Ok (alter_invoice id (fun i =>
        set_life (fun l => match pt_dueDate p with Some d => set_dueDate (Some d) l | None => l end)
          {| iv_head := iv_head i; iv_siteId := default (iv_siteId i) (pt_siteId p); iv_currencyCode := iv_currencyCode i;
             iv_notes := match pt_notes p with Some n => Some n | None => iv_notes i end;
             iv_depositDue := iv_depositDue i; iv_amounts := iv_amounts i;
             iv_life := iv_life i; iv_firstViewedAt := iv_firstViewedAt i; iv_viewedAt := iv_viewedAt i |}) s).

(** ** Assembly from unbilled work *)

Record DraftLineSpec : Type := {
  ds_sourceType : InvoiceLineSourceType;
  ds_sourceId : option string;
  ds_catalogItemId : option string;
  ds_ticketId : option string;
  ds_description : string;
  ds_quantity : Decimal;
  ds_unitPrice : Decimal;
  ds_costBasis : option Decimal;
  ds_taxable : bool;
  ds_customerVisible : bool;
  ds_lineTotal : Decimal;
  ds_isUnapprovedTime : bool;
}.

Definition timeEntryToLineSpec (r : string * TimeEntry) : DraftLineSpec :=
  let '(id, t) := r in
  let hours := toFixed 2 (fdiv (inject_Z (default 0 (te_durationMinutes t))) 60) in
  let unitPrice := match te_hourlyRate t with Some h => toFixed 2 (Number h) | None => money 0 end in
  let text := trim (default EmptyString (te_description t)) in
  {| ds_sourceType := src_time_entry; ds_sourceId := Some id; ds_catalogItemId := None; ds_ticketId := te_ticketId t;
     ds_description := if bool_decide (text = EmptyString) then "Labor" else text; ds_quantity := hours;
     ds_unitPrice := unitPrice; ds_costBasis := None; ds_taxable := false; ds_customerVisible := true;
     ds_lineTotal := computeLineTotal hours unitPrice; ds_isUnapprovedTime := negb (te_isApproved t) |}.

Definition ticketPartToLineSpec (r : string * TicketPart) : DraftLineSpec :=
  let '(id, p) := r in
  {| ds_sourceType := src_part; ds_sourceId := Some id; ds_catalogItemId := tp_catalogItemId p;
     ds_ticketId := Some (tp_ticketId p); ds_description := tp_description p; ds_quantity := tp_quantity p;
     ds_unitPrice := tp_unitPrice p; ds_costBasis := tp_costBasis p; ds_taxable := true; ds_customerVisible := true;
     ds_lineTotal := computeLineTotal (tp_quantity p) (tp_unitPrice p); ds_isUnapprovedTime := false |}.

(** What a time entry needs to be gathered; an open timer never is. *)
Definition time_unbilled (t : TimeEntry) : bool :=
  te_isBillable t && bool_decide (te_billingStatus t = not_billed) && bool_decide (te_endedAt t <> None).

Definition part_unbilled (p : TicketPart) : bool := tp_isBillable p && bool_decide (tp_billingStatus p = not_billed).

Definition gatherOrgTimeEntries (orgId : string) (from to_ : Z) (s : BillStore) : list DraftLineSpec :=
  timeEntryToLineSpec <$> List.filter (fun '(_, t) =>
    bool_decide (te_orgId t = Some orgId) && time_unbilled t
    && match te_endedAt t with Some e => (from <=? e) && (e <=? to_) | None => false end) (map_to_list (bs_time s)).

Definition gatherOrgParts (orgId : string) (from to_ : Z) (s : BillStore) : list DraftLineSpec :=
  ticketPartToLineSpec <$> List.filter (fun '(_, p) =>
    bool_decide (tp_orgId p = orgId) && part_unbilled p && (from <=? tp_createdAt p) && (tp_createdAt p <=? to_))
    (map_to_list (bs_parts s)).

Definition gatherTicketBillables (ticketId : string) (s : BillStore) : list DraftLineSpec :=
  (timeEntryToLineSpec <$> List.filter (fun '(_, t) => bool_decide (te_ticketId t = Some ticketId) && time_unbilled t)
     (map_to_list (bs_time s)))
  ++ (ticketPartToLineSpec <$> List.filter (fun '(_, p) => bool_decide (tp_ticketId p = ticketId) && part_unbilled p)
        (map_to_list (bs_parts s))).

Definition spec_line (id : nat) (orgId : string) (d : DraftLineSpec) (sort : Z) : InvoiceLine :=
  {| ln_invoiceId := id; ln_orgId := orgId; ln_sourceType := ds_sourceType d; ln_sourceId := ds_sourceId d;
     ln_catalogItemId := ds_catalogItemId d; ln_parentLineId := None; ln_ticketId := ds_ticketId d;
     ln_name := None; ln_description := Some (ds_description d); ln_quantity := ds_quantity d;
     ln_unitPrice := ds_unitPrice d;
     ln_costBasis := ds_costBasis d; ln_revenueAllocation := None; ln_taxable := ds_taxable d;
     ln_customerVisible := ds_customerVisible d;
     ln_lineTotal := ds_lineTotal d; ln_isUnapprovedTime := ds_isUnapprovedTime d; ln_sortOrder := sort |}.

Definition materializeLines (id : nat) (orgId : string) (specs : list DraftLineSpec) (s : BillStore) : BillStore :=
  insert_lines (imap (fun k d => spec_line id orgId d (Z.of_nat k)) specs) s.

(** The new draft with its lines and totals. *)
Definition assemble (env : BillEnv) (h : InvoiceHead) (siteId : option string) (specs : list DraftLineSpec) (s : BillStore)
  : outcome (BillStore * nat) :=
  let! _ := check (bool_decide (specs <> [])) NOTHING_TO_INVOICE in
  let '(s1, id) := insert_invoice (draft_invoice h siteId None) s in
  let! s2 := recomputeInvoiceTotals env id (materializeLines id (ih_orgId h) specs s1) in
  Ok (s2, id).

(** [new Date(iso + 'T00:00:00Z')] and [new Date(iso + 'T23:59:59Z')]; a text that is no
    date makes the query fail. *)
Definition assembleDraftFromOrg (env : BillEnv) (orgId : string) (siteId : option string) (from to_ : string)
    (actor : InvoiceActor) (s : BillStore) : outcome (BillStore * nat) :=
  let! partnerId := requirePartner actor in
  let! _ := requireOrgAccess actor orgId in
  let! _ := requireSiteAccess actor siteId in
  match end_of_day from, end_of_day to_ with
  | Some f, Some t =>
      assemble env {| ih_partnerId := partnerId; ih_orgId := orgId; ih_createdBy := ia_userId actor;
                      ih_replacesInvoiceId := None |} siteId
        (gatherOrgTimeEntries orgId (f - 86399000) t s ++ gatherOrgParts orgId (f - 86399000) t s) s
  | _, _ => Err INVALID_DATE
  end.

Definition assembleDraftFromTicket (env : BillEnv) (ticketId : string) (actor : InvoiceActor) (s : BillStore)
  : outcome (BillStore * nat) :=
  let! partnerId := requirePartner actor in
  match be_ticketOrg env ticketId with
  | None => Err INVOICE_NOT_FOUND
  | Some orgId =>
      let! _ := requireOrgAccess actor orgId in
      let! _ := requireSiteAccess actor None in
      assemble env {| ih_partnerId := partnerId; ih_orgId := orgId; ih_createdBy := ia_userId actor;
                      ih_replacesInvoiceId := None |} None (gatherTicketBillables ticketId s) s
  end.

(** ** Issue *)

Definition padStart4 (t : string) : string := String.concat EmptyString (replicate (4 - String.length t) "0") ++ t.

Definition formatInvoiceNumber (prefix : string) (year counter : Z) : string :=
  prefix ++ "-" ++ dec year ++ "-" ++ padStart4 (dec counter).

(** The ids of the time entries or parts behind the lines. *)
Definition source_ids (ty : InvoiceLineSourceType) (ls : list InvoiceLine) : list string :=
  omap (fun l => if bool_decide (ln_sourceType l = ty) && truthy (ln_sourceId l) then ln_sourceId l else None) ls.

(** What the call read before its transaction. *)
Record IssueRead : Type := { ir_invoice : Invoice; ir_timeIds : list string; ir_partIds : list string }.

Definition issue_check (id : nat) (actor : InvoiceActor) (s : BillStore) : outcome IssueRead :=
  let! i := open_draft actor id s in
  let lines := lines_of id s in
  let! _ := check (existsb ln_customerVisible lines) NO_VISIBLE_LINES in
  Ok {| ir_invoice := i; ir_timeIds := source_ids src_time_entry lines; ir_partIds := source_ids src_part lines |}.

(** The double-bill guard: rows that are already billed abort, and only they are locked. *)
Definition issue_guard (r : IssueRead) (s : BillStore) : outcome unit :=
  let billed_time := List.filter (fun k => match bs_time s !! k with
    | Some t => bool_decide (te_billingStatus t <> not_billed) | None => false end) (ir_timeIds r) in
  let billed_parts := List.filter (fun k => match bs_parts s !! k with
    | Some p => bool_decide (tp_billingStatus p <> not_billed) | None => false end) (ir_partIds r) in
  let! _ := check (bool_decide (billed_time = [])) SOURCE_ALREADY_BILLED in
  check (bool_decide (billed_parts = [])) SOURCE_ALREADY_BILLED.

(** [UPDATE time_entries / ticket_parts SET billing_status = st WHERE id IN (...)] *)
Definition flip_sources (st : BillingStatus) (timeIds partIds : list string) (s : BillStore) : BillStore :=
  with_sources (map_imap (fun k t => Some (if bool_decide (k ∈ timeIds) then set_te_status st t else t)))
               (map_imap (fun k p => Some (if bool_decide (k ∈ partIds) then set_tp_status st p else p))) s.

(** The upsert of the sequence row: the next counter of the partner and year. *)
Definition next_counter (partnerId : string) (year : Z) (s : BillStore) : Z :=
  match bs_sequences s !! (partnerId, year) with Some c => c + 1 | None => 1 end.

(** The counter of the partner and year taken, and the row numbered, dated and sent. *)
Definition issue_row (env : BillEnv) (partnerId : string) (id : nat) (currency : option string) (deposit : option Decimal)
    (amounts : Amounts) (s : BillStore) : BillStore :=
  let partner := be_partner env partnerId in
  let issueDate := be_now env in
  let dueDate := issueDate + default 30 (partner ≫= pb_termsDays) * 86400000 in
  let year := year_of (issueDate / 86400000) in
  let counter := next_counter partnerId year s in
  let number := formatInvoiceNumber (default "INV" (partner ≫= pb_prefix)) year counter in
  alter_invoice id (fun i => set_charge currency deposit
      (set_life (set_issued number (iso_of_ms issueDate) (iso_of_ms dueDate) (am_total amounts))
        (set_amounts amounts (am_total amounts) i)))
    (with_sequences (<[(partnerId, year) := counter]>) s).

Definition issue_commit (env : BillEnv) (id : nat) (r : IssueRead) (s : BillStore) : BillStore :=
  let partnerId := iv_partnerId (ir_invoice r) in
  let org := be_org env (iv_orgId (ir_invoice r)) in
  let partner := be_partner env partnerId in
  let taxRate := resolveEffectiveTaxRate (from_option ob_taxExempt false org) (org ≫= ob_taxRate)
                   (partner ≫= pb_defaultTaxRate) in
  let t := computeInvoiceTotals (totals_line <$> lines_of id s) (Some taxRate) in
  let amounts := {| am_subtotal := subtotal t; am_taxRate := Some taxRate; am_taxTotal := taxTotal t; am_total := total t |} in
  flip_sources billed (ir_timeIds r) (ir_partIds r)
    (issue_row env partnerId id (Some (from_option pb_currencyCode "USD"%string partner)) None amounts s).

Definition issueInvoice (env : BillEnv) (id : nat) (actor : InvoiceActor) (s : BillStore) : outcome BillStore :=
  let! r := issue_check id actor s in
  let! _ := issue_guard r s in
  Ok (emit (invoice_issued id) (issue_commit env id r s)).

(** ** Payments *)

Definition payments_of (id : nat) (s : BillStore) : list Payment :=
  List.filter (fun p => bool_decide (py_invoiceId p = id)) (map_to_list (bs_payments s)).*2.

Definition set_amount (a : Decimal) (p : Payment) : Payment :=
  {| py_invoiceId := py_invoiceId p; py_amount := a; py_recordedBy := py_recordedBy p |}.

Definition recomputeInvoiceStatus (env : BillEnv) (id : nat) (s : BillStore) : outcome BillStore :=
  let! i := getOwnedInvoiceOr404 id s in
  let amountPaid := fromCents (fold_left (fun acc p => acc + toCents (Some (py_amount p))) (payments_of id s) 0) in
  let balance := fromCents (toCents (Some (iv_total i)) - toCents (Some amountPaid)) in
  let issued := bool_decide (il_invoiceNumber (iv_life i) <> None) in
  let status := deriveInvoiceStatus (bool_decide (il_voidedAt (iv_life i) <> None)) issued (iv_total i) amountPaid
                  (il_dueDate (iv_life i)) (be_now env) in
  Ok (alter_invoice id (set_life (set_paid amountPaid balance status (be_now env))) s).

Definition emit_if_paid (id : nat) (s : BillStore) : BillStore :=
  match bs_invoices s !! id with
  | Some i => if bool_decide (iv_status i = inv_paid) then emit (invoice_paid id) s else s
  | None => s
  end.

(** What a payment checks, on the row it reads. *)
Definition payment_check (id : nat) (amount : Decimal) (actor : InvoiceActor) (s : BillStore) : outcome Invoice :=
  let! i := getOwnedInvoiceOr404 id s in
  let! _ := requireInvoiceAccess actor i in
  let! _ := check (bool_decide (iv_status i <> inv_draft)) INVALID_STATE in
  let! _ := check (bool_decide (iv_status i <> inv_void)) INVALID_STATE in
  let! _ := check (negb (math_round (fmul (Number (il_balance (iv_life i))) 100) <? math_round (fmul (Number amount) 100)))
              OVERPAYMENT in
  Ok i.

(** The insert, which nothing makes wait for another payment, and the new status. *)
Definition payment_commit (env : BillEnv) (id : nat) (amount : Decimal) (actor : InvoiceActor) (s : BillStore)
  : outcome (BillStore * nat) :=
  let stored := toFixed 2 (Number amount) in
  let! _ := check (0 <? units stored) CHECK_VIOLATION in
  let pid := bs_nextId s in
  let s1 := bump_id (with_payments (<[pid := {| py_invoiceId := id; py_amount := stored; py_recordedBy := ia_userId actor |}]>) s) in
  let! s2 := recomputeInvoiceStatus env id s1 in
  Ok (emit_if_paid id (emit (payment_recorded id pid) s2), pid).

(** The call by itself: the check and the commit with no other payment in between. *)
Definition recordPayment (env : BillEnv) (id : nat) (amount : Decimal) (actor : InvoiceActor) (s : BillStore)
  : outcome (BillStore * nat) :=
  let! _ := payment_check id amount actor s in
  payment_commit env id amount actor s.

Definition voidPayment (env : BillEnv) (pid : nat) (actor : InvoiceActor) (s : BillStore) : outcome BillStore :=
  match bs_payments s !! pid with
  | None => Err PAYMENT_NOT_FOUND
  | Some p =>
      let! i := getOwnedInvoiceOr404 (py_invoiceId p) s in
      let! _ := requireInvoiceAccess actor i in
      let! s1 := recomputeInvoiceStatus env (py_invoiceId p) (with_payments (delete pid) s) in
      Ok (emit (payment_voided (py_invoiceId p) pid) s1)
  end.

Definition updateIssuedDueDate (env : BillEnv) (id : nat) (dueDate : string) (actor : InvoiceActor) (s : BillStore)
  : outcome BillStore :=
  let! i := getOwnedInvoiceOr404 id s in
  let! _ := requireInvoiceAccess actor i in
  let! _ := check (bool_decide (iv_status i ∈ [inv_sent; inv_partially_paid; inv_overdue])) INVALID_STATE in
  recomputeInvoiceStatus env id (alter_invoice id (set_life (set_dueDate (Some dueDate))) s).

(** ** Void, reissue, overdue, viewed *)

Definition clone_line (draft : nat) (parent : option nat) (l : InvoiceLine) : InvoiceLine :=
  {| ln_invoiceId := draft; ln_orgId := ln_orgId l; ln_sourceType := ln_sourceType l; ln_sourceId := ln_sourceId l;
     ln_catalogItemId := ln_catalogItemId l; ln_parentLineId := parent; ln_ticketId := ln_ticketId l;
     ln_name := ln_name l; ln_description := ln_description l; ln_quantity := ln_quantity l;
     ln_unitPrice := ln_unitPrice l;
     ln_costBasis := ln_costBasis l; ln_revenueAllocation := ln_revenueAllocation l; ln_taxable := ln_taxable l;
     ln_customerVisible := ln_customerVisible l;
     ln_lineTotal := ln_lineTotal l; ln_isUnapprovedTime := ln_isUnapprovedTime l; ln_sortOrder := ln_sortOrder l |}.

Definition by_sortOrder (a b : nat * InvoiceLine) : Prop := ln_sortOrder a.2 <= ln_sortOrder b.2.
#[export] Instance by_sortOrder_dec a b : Decision (by_sortOrder a b) := Z.le_dec _ _.

(** The lines of an invoice with their ids, by sort order. *)
Definition rows_of (id : nat) (s : BillStore) : list (nat * InvoiceLine) :=
  merge_sort by_sortOrder
    (List.filter (fun r => bool_decide (ln_invoiceId r.2 = id)) (map_to_list (bs_lines s))).

(** Top-level lines first; the children then point to their parents' clones. *)
Definition clone_lines (old draft : nat) (s : BillStore) : BillStore :=
  let srcLines := rows_of old s in
  let parents := List.filter (fun r => bool_decide (ln_parentLineId r.2 = None)) srcLines in
  let children := List.filter (fun r => bool_decide (ln_parentLineId r.2 <> None)) srcLines in
  let oldToNew : gmap nat nat := list_to_map (imap (fun k r => (r.1, bs_nextId s + k)%nat) parents) in
  insert_lines ((clone_line draft None <$> parents.*2)
                ++ ((fun r => clone_line draft (ln_parentLineId r.2 ≫= fun p => oldToNew !! p) r.2) <$> children)) s.

Definition voidInvoice (env : BillEnv) (id : nat) (reason : string) (reissue : bool) (actor : InvoiceActor) (s : BillStore)
  : outcome BillStore :=
  let! i := getOwnedInvoiceOr404 id s in
  let! _ := requireInvoiceAccess actor i in
  let! _ := check (bool_decide (iv_status i <> inv_draft)) INVALID_STATE in
  let! _ := check (bool_decide (iv_status i <> inv_void)) INVALID_STATE in
  let lines := lines_of id s in
  let s1 := flip_sources not_billed (source_ids src_time_entry lines) (source_ids src_part lines)
              (alter_invoice id (set_life (set_void reason (be_now env))) s) in
  if reissue then
    let '(s2, draft) := insert_invoice (draft_invoice
      {| ih_partnerId := iv_partnerId i; ih_orgId := iv_orgId i; ih_createdBy := ia_userId actor;
         ih_replacesInvoiceId := Some id |} (iv_siteId i) (iv_notes i)) s1 in
    let s3 := alter_invoice id (set_life (set_replacedBy draft)) s2 in
    recomputeInvoiceTotals env draft (emit (invoice_voided id) (clone_lines id draft s3))
  else Ok (emit (invoice_voided id) s1).

(** Open, past its due date, with something left to pay. *)
Definition overdue_due (today : string) (i : Invoice) : bool :=
  bool_decide (iv_status i ∈ [inv_sent; inv_partially_paid])
  && match il_dueDate (iv_life i) with Some d => str_lt d today | None => false end
  && (0 <? units (il_balance (iv_life i))).

Definition runOverdueSweep (asOf : Z) (s : BillStore) : BillStore * nat :=
  let today := iso_of_ms asOf in
  let due := (List.filter (fun r => overdue_due today r.2) (map_to_list (bs_invoices s))).*1 in
  (fold_left (fun s id => emit (invoice_overdue id) (alter_invoice id (set_life (set_overdue asOf)) s)) due s,
   length due).

Definition set_viewed (now : Z) (i : Invoice) : Invoice :=
  {| iv_head := iv_head i; iv_siteId := iv_siteId i; iv_currencyCode := iv_currencyCode i; iv_notes := iv_notes i;
     iv_depositDue := iv_depositDue i; iv_amounts := iv_amounts i;
     iv_life := iv_life i; iv_firstViewedAt := Some (default now (iv_firstViewedAt i)); iv_viewedAt := Some now |}.

Definition markViewed (env : BillEnv) (id : nat) (orgId : option string) (s : BillStore) : outcome BillStore :=
  let! i := getOwnedInvoiceOr404 id s in
  let! _ := check (match orgId with Some o => bool_decide (iv_orgId i = o) | None => true end) INVOICE_NOT_FOUND in
  let s1 := alter_invoice id (set_viewed (be_now env)) s in
  Ok (if bool_decide (iv_firstViewedAt i = None) then emit (invoice_viewed id) s1 else s1).
