(* ===== verification/Contracts.v ===== *)
(** * Recurring contracts

    apps/api/src/services/contractService.ts, contractRenewal.ts, contractQuantities.ts
    and jobs/contractWorker.ts. A billing run reads the contract once and then writes;
    [generate_with] is the run on the row it read, so that runs which read before
    another one wrote are runs on an old row. *)

From stdpp Require Import base gmap strings list option sorting.
From Stdlib Require Import ZArith Lia.
From S2P Require Import Prelude Calendar Money BillingStore Invoices.
Open Scope Z_scope.

(** ** Access *)

Record ContractActor : Type := {
  ca_userId : string;
  ca_partnerId : option string;
  ca_accessibleOrgIds : option (list string);
}.

Definition requireContractOrg (actor : ContractActor) (orgId : string) : outcome unit :=
  check (match ca_accessibleOrgIds actor with None => true | Some l => bool_decide (orgId ∈ l) end) ORG_DENIED.

Definition getOwnedContractOr404 (id : nat) (actor : ContractActor) (s : BillStore) : outcome Contract :=
  match bs_contracts s !! id with
  | None => Err CONTRACT_NOT_FOUND
  | Some c => let! _ := requireContractOrg actor (ct_orgId c) in Ok c
  end.

Definition assertContractDraft (c : Contract) : outcome unit := check (bool_decide (ct_status c = ct_draft)) NOT_A_DRAFT.

Definition assertEditable (c : Contract) : outcome unit :=
  check (bool_decide (ct_status c = ct_draft) || bool_decide (ct_status c = ct_active)) INVALID_STATE.

(** ** Row updates *)

Definition set_contract (status : ContractStatus) (nextBillingAt endDate : option string) (c : Contract) : Contract :=
  {| ct_partnerId := ct_partnerId c; ct_orgId := ct_orgId c; ct_name := ct_name c; ct_status := status;
     ct_billingTiming := ct_billingTiming c; ct_intervalMonths := ct_intervalMonths c; ct_startDate := ct_startDate c;
     ct_endDate := endDate; ct_nextBillingAt := nextBillingAt; ct_autoIssue := ct_autoIssue c;
     ct_autoRenew := ct_autoRenew c; ct_renewalTermMonths := ct_renewalTermMonths c;
     ct_renewalNoticeDays := ct_renewalNoticeDays c; ct_notes := ct_notes c; ct_terms := ct_terms c;
     ct_createdBy := ct_createdBy c |}.

Definition set_status (status : ContractStatus) (nextBillingAt : option string) (c : Contract) : Contract :=
  set_contract status nextBillingAt (ct_endDate c) c.
Definition set_pointer (nextBillingAt : option string) (c : Contract) : Contract :=
  set_contract (ct_status c) nextBillingAt (ct_endDate c) c.
Definition set_endDate (endDate : option string) (c : Contract) : Contract :=
  set_contract (ct_status c) (ct_nextBillingAt c) endDate c.

Definition alter_contract (id : nat) (f : Contract -> Contract) (s : BillStore) : BillStore := with_contracts (alter f id) s.

(** ** Contracts and their lines *)

Record ContractInput : Type := {
  cn_orgId : string;
  cn_name : string;
  cn_billingTiming : BillingTiming;
  cn_intervalMonths : Z;
  cn_startDate : string;
  cn_endDate : option string;
  cn_autoIssue : bool;
  cn_autoRenew : bool;
  cn_renewalTermMonths : option Z;
  cn_renewalNoticeDays : option Z;
  cn_notes : option string;
  cn_terms : option string;
}.

Definition createContract (env : BillEnv) (i : ContractInput) (actor : ContractActor) (s : BillStore)
  : outcome (BillStore * nat) :=
  let! _ := requireContractOrg actor (cn_orgId i) in
  let! _ := check (bool_decide (ca_partnerId actor <> None)) ORG_DENIED in
  match be_orgPartner env (cn_orgId i) with
  | None => Err CONTRACT_NOT_FOUND
  | Some partnerId =>
      let id := bs_nextId s in
      Ok (bump_id (with_contracts (<[id :=
        {| ct_partnerId := partnerId; ct_orgId := cn_orgId i; ct_name := cn_name i; ct_status := ct_draft;
           ct_billingTiming := cn_billingTiming i; ct_intervalMonths := cn_intervalMonths i;
           ct_startDate := cn_startDate i; ct_endDate := cn_endDate i; ct_nextBillingAt := None;
           ct_autoIssue := cn_autoIssue i; ct_autoRenew := cn_autoRenew i;
           ct_renewalTermMonths := cn_renewalTermMonths i; ct_renewalNoticeDays := cn_renewalNoticeDays i;
           ct_notes := cn_notes i; ct_terms := cn_terms i; ct_createdBy := Some (ca_userId actor) |}]>) s), id)
  end.

Record ContractPatch : Type := {
  cp_name : option string;
  cp_billingTiming : option BillingTiming;
  cp_intervalMonths : option Z;
  cp_startDate : option string;
  cp_endDate : option (option string);
  cp_autoIssue : option bool;
  cp_notes : option (option string);
  cp_terms : option (option string);
  cp_autoRenew : option bool;
  cp_renewalTermMonths : option (option Z);
  cp_renewalNoticeDays : option (option Z);
}.

Definition is_schedule_patch (p : ContractPatch) : bool :=
  bool_decide (cp_billingTiming p <> None) || bool_decide (cp_intervalMonths p <> None)
  || bool_decide (cp_startDate p <> None).

(** The fields the patch may write; the schedule of a draft only. *)
Definition patch_contract (p : ContractPatch) (c : Contract) : Contract :=
  let draft := bool_decide (ct_status c = ct_draft) in
  {| ct_partnerId := ct_partnerId c; ct_orgId := ct_orgId c; ct_name := default (ct_name c) (cp_name p);
     ct_status := ct_status c;
     ct_billingTiming := if draft then default (ct_billingTiming c) (cp_billingTiming p) else ct_billingTiming c;
     ct_intervalMonths := if draft then default (ct_intervalMonths c) (cp_intervalMonths p) else ct_intervalMonths c;
     ct_startDate := if draft then default (ct_startDate c) (cp_startDate p) else ct_startDate c;
     ct_endDate := default (ct_endDate c) (cp_endDate p); ct_nextBillingAt := ct_nextBillingAt c;
     ct_autoIssue := default (ct_autoIssue c) (cp_autoIssue p); ct_autoRenew := default (ct_autoRenew c) (cp_autoRenew p);
     ct_renewalTermMonths := default (ct_renewalTermMonths c) (cp_renewalTermMonths p);
     ct_renewalNoticeDays := default (ct_renewalNoticeDays c) (cp_renewalNoticeDays p);
     ct_notes := default (ct_notes c) (cp_notes p); ct_terms := default (ct_terms c) (cp_terms p);
     ct_createdBy := ct_createdBy c |}.

Definition updateContract (id : nat) (p : ContractPatch) (actor : ContractActor) (s : BillStore) : outcome BillStore :=
  let! c := getOwnedContractOr404 id actor s in
  let! _ := assertEditable c in
  let! _ := check (bool_decide (ct_status c = ct_draft) || negb (is_schedule_patch p)) INVALID_STATE in
  let c' := patch_contract p c in
  let! _ := check (negb (ct_autoRenew c' && (bool_decide (ct_endDate c' = None)
                                             || bool_decide (ct_renewalTermMonths c' = None)))) RENEWAL_INCOMPLETE in
  Ok (alter_contract id (patch_contract p) s).

(** Lines and billed periods go with the contract (its notices too; their key, an id that
    is not given again, is never looked up any more). *)
Definition deleteDraftContract (id : nat) (actor : ContractActor) (s : BillStore) : outcome BillStore :=
  let! c := getOwnedContractOr404 id actor s in
  let! _ := assertContractDraft c in
  Ok (with_periods (filter (fun r => r.1.1 <> id))
       (with_contractLines (filter (fun r => cl_contractId r.2 <> id)) (with_contracts (delete id) s))).

Definition addContractLineToContract (id : nat) (lineType : ContractLineType) (description : string)
    (catalogItemId : option string) (unitPrice : Decimal) (manualQuantity : option Decimal) (siteId : option string)
    (taxable_ : bool) (sortOrder : option Z) (actor : ContractActor) (s : BillStore) : outcome (BillStore * nat) :=
  let! c := getOwnedContractOr404 id actor s in
  let! _ := assertEditable c in
  let lineId := bs_nextId s in
  Ok (bump_id (with_contractLines (<[lineId :=
        {| cl_contractId := id; cl_orgId := ct_orgId c; cl_lineType := lineType; cl_description := description;
           cl_catalogItemId := catalogItemId; cl_unitPrice := unitPrice;
           cl_manualQuantity := if bool_decide (lineType = manual) then Some (default zero_money manualQuantity) else None;
           cl_siteId := if bool_decide (lineType = per_device) then siteId else None;
           cl_taxable := taxable_; cl_sortOrder := default 0 sortOrder |}]>) s), lineId).

Definition removeContractLine (id lineId : nat) (actor : ContractActor) (s : BillStore) : outcome BillStore :=
  let! c := getOwnedContractOr404 id actor s in
  let! _ := assertEditable c in
  Ok (with_contractLines (filter (fun r => ~ (r.1 = lineId /\ cl_contractId r.2 = id))) s).

(** ** Life cycle *)

Definition contract_rows_of (id : nat) (s : BillStore) : list (nat * ContractLine) :=
  List.filter (fun r => bool_decide (cl_contractId r.2 = id)) (map_to_list (bs_contractLines s)).

(** The billing date of the period the day falls in. *)
Definition pointer_at (c : Contract) (today : string) : string :=
  nextBillingDate (ct_startDate c) (ct_intervalMonths c) (ct_billingTiming c)
    (periodIndexFor (ct_startDate c) (ct_intervalMonths c) today).

Definition activateContract (env : BillEnv) (id : nat) (actor : ContractActor) (s : BillStore) : outcome BillStore :=
  let! c := getOwnedContractOr404 id actor s in
  let! _ := check (bool_decide (ct_status c = ct_draft) || bool_decide (ct_status c = ct_paused)) INVALID_STATE in
  let! _ := check (bool_decide (contract_rows_of id s <> [])) NO_LINES in
  let nextAt := pointer_at c (iso_of_ms (be_now env)) in
  Ok (emit (contract_activated id) (alter_contract id (set_status ct_active (Some nextAt)) s)).

Definition pauseContract (id : nat) (actor : ContractActor) (s : BillStore) : outcome BillStore :=
  let! c := getOwnedContractOr404 id actor s in
  let! _ := check (bool_decide (ct_status c = ct_active)) INVALID_STATE in
  Ok (emit (contract_paused id) (alter_contract id (set_status ct_paused None) s)).

Definition resumeContract (env : BillEnv) (id : nat) (actor : ContractActor) (s : BillStore) : outcome BillStore :=
  let! c := getOwnedContractOr404 id actor s in
  let! _ := check (bool_decide (ct_status c = ct_paused)) INVALID_STATE in
  let nextAt := pointer_at c (iso_of_ms (be_now env)) in
  Ok (emit (contract_activated id) (alter_contract id (set_status ct_active (Some nextAt)) s)).

Definition cancelContract (id : nat) (actor : ContractActor) (s : BillStore) : outcome BillStore :=
  let! c := getOwnedContractOr404 id actor s in
  if bool_decide (ct_status c = ct_cancelled) then Ok s
  else Ok (emit (contract_cancelled id) (alter_contract id (set_status ct_cancelled None) s)).

(** ** Quantities *)

Definition countContractDevices (env : BillEnv) (orgId : string) (siteId : option string) : Z :=
  Z.of_nat (length (List.filter (fun d =>
    bool_decide (bd_orgId d = orgId) && negb (bool_decide (bd_status d = "decommissioned"))
    && (negb (truthy siteId) || bool_decide (bd_siteId d = siteId))) (be_devices env))).

Definition countContractSeats (env : BillEnv) (orgId : string) : Z :=
  Z.of_nat (length (remove_dups (se_userId <$> List.filter (fun m =>
    bool_decide (se_orgId m = orgId) && bool_decide (se_userStatus m = "active")) (be_seats env)))).

Definition line_quantity (env : BillEnv) (orgId : string) (l : ContractLine) : Decimal :=
  match cl_lineType l with
  | flat => {| units := 1; scale := 0 |}
  | manual => default zero_money (cl_manualQuantity l)
  | per_device => {| units := countContractDevices env orgId (cl_siteId l); scale := 0 |}
  | per_seat => {| units := countContractSeats env orgId; scale := 0 |}
  end.

(** ** Billing runs *)

Inductive GenerateResult : Type :=
| generated (invoiceId : nat) (autoIssue : bool) (actor : InvoiceActor)
| already_billed
| gen_expired
| not_due.

(** [[c.notes, c.terms].filter(Boolean).join('\n\n')], left out when empty *)
Definition invoice_notes (c : Contract) : option string :=
  let nl := String (Ascii.ascii_of_nat 10) EmptyString in
  match List.filter (fun x => negb (bool_decide (x = EmptyString))) (option_list (ct_notes c) ++ option_list (ct_terms c)) with
  | [] => None
  | ps => Some (String.concat (nl ++ nl) ps)
  end.

Definition contract_actor (c : Contract) : InvoiceActor :=
  {| ia_userId := ct_createdBy c; ia_partnerId := Some (ct_partnerId c); ia_accessibleOrgIds := Some [ct_orgId c];
     ia_allowedSiteIds := None |}.

Definition cl_by_sortOrder (a b : nat * ContractLine) : Prop := cl_sortOrder a.2 <= cl_sortOrder b.2.
#[export] Instance cl_by_sortOrder_dec a b : Decision (cl_by_sortOrder a b) := Z.le_dec _ _.

Fixpoint add_contract_lines (env : BillEnv) (c : Contract) (inv : nat) (ls : list (nat * ContractLine)) (s : BillStore)
  : outcome BillStore :=
  match ls with
  | [] => Ok s
  | (k, l) :: ls' =>
      let! r := addContractLine env inv
                  {| ci_description := cl_description l; ci_quantity := line_quantity env (ct_orgId c) l;
                     ci_unitPrice := cl_unitPrice l; ci_taxable := cl_taxable l; ci_catalogItemId := cl_catalogItemId l;
                     ci_sourceId := Some (dec (Z.of_nat k)) |} (contract_actor c) s in
      add_contract_lines env c inv ls' r.1
  end.

(** The period a pointer stands for: the one that starts there, or the one that ends there. *)
Definition due_index (c : Contract) (at_ : string) : Z :=
  let idxAt := periodIndexFor (ct_startDate c) (ct_intervalMonths c) at_ in
  Z.max 0 (match ct_billingTiming c with advance => idxAt | arrears => idxAt - 1 end).

Definition expire (id : nat) (s : BillStore) : BillStore :=
  emit (contract_expired id) (alter_contract id (set_status ct_expired None) s).

(** The pointer after period [idx], or the end of the contract. *)
Definition advance_pointer (id : nat) (c : Contract) (idx : Z) (s : BillStore) : BillStore :=
  let nextPeriod := computePeriod (ct_startDate c) (ct_intervalMonths c) (idx + 1) in
  if isExpired (ct_endDate c) (periodStart nextPeriod) then expire id s
  else let nextAt := match ct_billingTiming c with advance => periodStart nextPeriod | arrears => periodEnd nextPeriod end in
       alter_contract id (set_pointer (Some nextAt)) s.

Definition claim_period (id : nat) (c : Contract) (p : Period) (inv : nat) (s : BillStore) : option BillStore :=
  match bs_periods s !! (id, periodStart p) with
  | Some _ => None
  | None => Some (with_periods (<[(id, periodStart p) := {| bp_orgId := ct_orgId c; bp_periodEnd := periodEnd p;
                                                             bp_invoiceId := Some inv |}]>) s)
  end.

Definition generate_with (env : BillEnv) (id : nat) (c : Contract) (s : BillStore) : outcome (BillStore * GenerateResult) :=
  match ct_nextBillingAt c with
  | None => Ok (s, not_due)
  | Some at_ =>
      if negb (bool_decide (ct_status c = ct_active)) || negb (str_le at_ (iso_of_ms (be_now env))) then Ok (s, not_due)
      else
        let idx := due_index c at_ in
        let period := computePeriod (ct_startDate c) (ct_intervalMonths c) idx in
        if isExpired (ct_endDate c) (periodStart period) then Ok (expire id s, gen_expired)
        else
          let lines := merge_sort cl_by_sortOrder (contract_rows_of id s) in
          if bool_decide (lines = []) then Ok (s, not_due)
          else
            let actor := contract_actor c in
            let! r := createManualInvoice (ct_orgId c) None (invoice_notes c) actor s in
            let '(s1, inv) := r in
            let! s2 := add_contract_lines env c inv lines s1 in
            match claim_period id c period inv s2 with
            | None => let! s3 := deleteDraftInvoice inv actor s2 in Ok (s3, already_billed)
            | Some s3 => Ok (emit (contract_invoiced id inv) (advance_pointer id c idx s3), generated inv (ct_autoIssue c) actor)
            end
  end.

Definition generateDueInvoice (env : BillEnv) (id : nat) (s : BillStore) : outcome (BillStore * GenerateResult) :=
  match bs_contracts s !! id with
  | None => Err CONTRACT_NOT_FOUND
  | Some c => generate_with env id c s
  end.

(** ** Renewal *)

(** The insert of a notice row: whether this run wrote it. *)
Definition claimNotice (id : nat) (endDate : string) (kind : NoticeKind) (s : BillStore) : BillStore * bool :=
  if bool_decide ((id, endDate, kind) ∈ bs_notices s) then (s, false) else (with_notice (id, endDate, kind) s, true).

Definition renewal_candidate (c : Contract) : bool :=
  bool_decide (ct_status c = ct_active) && ct_autoRenew c && bool_decide (ct_endDate c <> None).

(** Pass A, the advance notice. *)
Definition renewal_notice (today : string) (id : nat) (c : Contract) (endDate : string) (s : BillStore) : BillStore * nat :=
  if isWithinNoticeWindow today endDate (default 30 (ct_renewalNoticeDays c))
  then let '(s1, won) := claimNotice id endDate notice_advance s in (s1, if won then 1%nat else 0%nat)
  else (s, 0%nat).

(** Pass B, the new term. *)
Definition renewal_extend (today : string) (id : nat) (c : Contract) (endDate : string) (term : Z) (s : BillStore)
  : BillStore * nat :=
  match ct_nextBillingAt c with
  | Some at_ =>
      if str_le at_ today then
        let duePeriodStart := duePeriodStartFor (ct_billingTiming c) at_ (ct_intervalMonths c) in
        let '(newEndDate, didRenew) := extendTermPastDue endDate duePeriodStart term in
        if didRenew then
          let s1 := emit (contract_auto_renewed id) (alter_contract id (set_endDate (Some newEndDate)) s) in
          ((claimNotice id newEndDate notice_renewed s1).1, 1%nat)
        else (s, 0%nat)
      else (s, 0%nat)
  | None => (s, 0%nat)
  end.

Definition renewal_step (today : string) (acc : BillStore * nat * nat) (r : nat * Contract) : BillStore * nat * nat :=
  let '(s, noticed, renewed) := acc in
  let '(id, c) := r in
  match ct_endDate c, ct_renewalTermMonths c with
  | Some endDate, Some term =>
      let '(s1, n) := renewal_notice today id c endDate s in
      let '(s2, m) := renewal_extend today id c endDate term s1 in
      (s2, (noticed + n)%nat, (renewed + m)%nat)
  | _, _ => acc
  end.

Definition runContractRenewalSweep (env : BillEnv) (s : BillStore) : BillStore * nat * nat :=
  fold_left (renewal_step (iso_of_ms (be_now env)))
    (List.filter (fun r => renewal_candidate r.2) (map_to_list (bs_contracts s))) (s, 0%nat, 0%nat).

(** ** The daily job *)

Definition contract_due (today : string) (c : Contract) : bool :=
  bool_decide (ct_status c = ct_active)
  && match ct_nextBillingAt c with Some at_ => str_le at_ today | None => false end.

(** One contract of the sweep: bill, then issue when the contract says so; a failure
    leaves the others alone. *)
Definition billing_step (env : BillEnv) (acc : BillStore * nat * nat) (id : nat) : BillStore * nat * nat :=
  let '(s, billed_, failed) := acc in
  match generateDueInvoice env id s with
  | Err _ => (s, billed_, S failed)
  | Ok (s1, generated inv true actor) =>
      (match issueInvoice env inv actor s1 with Ok s2 => s2 | Err _ => s1 end, S billed_, failed)
  | Ok (s1, generated _ false _) => (s1, S billed_, failed)
  | Ok (s1, _) => (s1, billed_, failed)
  end.

Definition runContractBillingSweep (env : BillEnv) (s : BillStore) : BillStore * nat * nat :=
  fold_left (billing_step env)
    (List.filter (fun r => contract_due (iso_of_ms (be_now env)) r.2) (map_to_list (bs_contracts s))).*1 (s, 0%nat, 0%nat).

(** The worker's [billing-sweep] job. *)
Definition contract_job (env : BillEnv) (s : BillStore) : BillStore :=
  (runContractBillingSweep env (runContractRenewalSweep env s).1.1).1.1.
