(* ===== verification/Stripe.v ===== *)
(** * Stripe: partner keys, checkouts, captures and refunds

    apps/api/src/services/partnerStripe.ts, stripeConnectService.ts, stripeMoney.ts,
    invoiceCheckout.ts, stripeReconcile.ts, stripeSettle.ts, stripeWebhook.ts, the pay
    and settle routes of routes/portal/invoices.ts, jobs/stripeReconcileSweep.ts and the
    tables of db/schema/stripePayments.ts. Stripe itself is the record [StripeApi] of
    the answers it gives. Calls are functions on the tables; [recordStripePayment],
    whose reads take no lock, is a read and a write. *)

From stdpp Require Import base gmap strings list option sorting.
From Stdlib Require Import Ascii ZArith Lia QArith.
From S2P Require Import Prelude Calendar Doubles Money SecretCrypto Quotes.
From S2P Require Import BillingStore Invoices.
Open Scope Z_scope.

(** ** Minor units *)

Definition ascii_upper (c : ascii) : ascii :=
  let n := nat_of_ascii c in if (97 <=? n)%nat && (n <=? 122)%nat then ascii_of_nat (n - 32) else c.

Fixpoint toUpperCase (s : string) : string :=
  match s with EmptyString => EmptyString | String c s' => String (ascii_upper c) (toUpperCase s') end.

Definition ZERO_DECIMAL : list string :=
  ["BIF"; "CLP"; "DJF"; "GNF"; "JPY"; "KMF"; "KRW"; "MGA"; "PYG"; "RWF"; "UGX"; "VND"; "VUV"; "XAF"; "XOF"; "XPF"]%string.

Definition isZeroDecimal (currency : string) : bool := bool_decide (toUpperCase currency ∈ ZERO_DECIMAL).

Definition toMinorUnits (amountMajor : Decimal) (currency : string) : Z :=
  let n := Number amountMajor in
  if isZeroDecimal currency then math_round n else math_round (fmul n 100).

Definition fromMinorUnits (minor : Z) (currency : string) : Decimal :=
  if isZeroDecimal currency then toFixed 2 (inject_Z minor) else toFixed 2 (fdiv (inject_Z minor) 100).

(** ** Tables *)

Inductive StripeObjectType : Type := checkout_session | payment_intent | charge.
Inductive StripePaymentStatus : Type := sp_pending | sp_succeeded | sp_failed | sp_refunded | sp_partially_refunded.

#[export] Instance StripeObjectType_eq : EqDecision StripeObjectType.
Proof. solve_decision. Defined.
#[export] Instance StripePaymentStatus_eq : EqDecision StripePaymentStatus.
Proof. solve_decision. Defined.

(** A row of [invoice_stripe_payments]; the table is keyed by [stripe_object_id], unique. *)
Record StripeMapping : Type := {
  sm_orgId : string;
  sm_invoiceId : nat;
  sm_invoicePaymentId : option nat;
  sm_stripeAccountId : string;
  sm_objectType : StripeObjectType;
  sm_paymentIntentId : option string;
  sm_amount : Decimal;
  sm_currency : string;
  sm_status : StripePaymentStatus;
  sm_lastEventAt : option Z;
  sm_createdAt : Z;
}.

(** A row of [stripe_connect_accounts]; the table is keyed by the partner, unique. *)
Record ConnectAccount : Type := {
  ac_stripeAccountId : string;
  ac_apiKey : option string;
  ac_keyLast4 : option string;
  ac_livemode : bool;
  ac_connected : bool;
  ac_connectedBy : option string;
  ac_disconnectedAt : option Z;
}.

Record PayStore : Type := {
  ps_bill : BillStore;
  ps_maps : gmap string StripeMapping;
  ps_accounts : gmap string ConnectAccount;
}.

Definition with_bill (b : BillStore) (p : PayStore) : PayStore :=
  {| ps_bill := b; ps_maps := ps_maps p; ps_accounts := ps_accounts p |}.
Definition with_maps (f : gmap string StripeMapping -> gmap string StripeMapping) (p : PayStore) : PayStore :=
  {| ps_bill := ps_bill p; ps_maps := f (ps_maps p); ps_accounts := ps_accounts p |}.
Definition with_accounts (f : gmap string ConnectAccount -> gmap string ConnectAccount) (p : PayStore) : PayStore :=
  {| ps_bill := ps_bill p; ps_maps := ps_maps p; ps_accounts := f (ps_accounts p) |}.

(** A mapping after an event. *)
Definition set_mapping (payment : option nat) (status : StripePaymentStatus) (pi : option string) (now : Z) (m : StripeMapping)
  : StripeMapping :=
  {| sm_orgId := sm_orgId m; sm_invoiceId := sm_invoiceId m; sm_invoicePaymentId := payment;
     sm_stripeAccountId := sm_stripeAccountId m; sm_objectType := sm_objectType m; sm_paymentIntentId := pi;
     sm_amount := sm_amount m; sm_currency := sm_currency m; sm_status := status; sm_lastEventAt := Some now;
     sm_createdAt := sm_createdAt m |}.

Definition mark_mapping (status : StripePaymentStatus) (now : Z) (m : StripeMapping) : StripeMapping :=
  set_mapping (sm_invoicePaymentId m) status (sm_paymentIntentId m) now m.

(** The link to a deleted payment, set to null by the foreign key. *)
Definition unlink (m : StripeMapping) : StripeMapping :=
  {| sm_orgId := sm_orgId m; sm_invoiceId := sm_invoiceId m; sm_invoicePaymentId := None;
     sm_stripeAccountId := sm_stripeAccountId m; sm_objectType := sm_objectType m; sm_paymentIntentId := sm_paymentIntentId m;
     sm_amount := sm_amount m; sm_currency := sm_currency m; sm_status := sm_status m; sm_lastEventAt := sm_lastEventAt m;
     sm_createdAt := sm_createdAt m |}.

(** The constraint [invoice_stripe_payments_succeeded_has_payment]. *)
Definition succeeded_has_payment (m : StripeMapping) : bool :=
  negb (bool_decide (sm_status m = sp_succeeded)) || bool_decide (sm_invoicePaymentId m <> None).

(** The row's payment is gone from the billing tables. *)
Definition orphaned (b : BillStore) (m : StripeMapping) : bool :=
  match sm_invoicePaymentId m with Some k => bool_decide (bs_payments b !! k = None) | None => false end.

(** ** Errors *)

Inductive StripeError : Type :=
| NO_MAPPING | NO_INVOICE | CONSTRAINT_VIOLATED | NOT_PAYABLE | NOTHING_TO_PAY | DUPLICATE_OBJECT
| STRIPE_NOT_CONNECTED | STRIPE_INIT_FAILED | STRIPE_API_FAILED | STRIPE_NO_URL
| NO_STRIPE_KEY | INVALID_STRIPE_KEY | STRIPE_KEY_UNREADABLE | ENCRYPTION_FAILED
| billing_error (e : BillError).

Abbreviation paid_outcome A := (result StripeError A).

Definition lift {A} (r : outcome A) : paid_outcome A := match r with Ok a => Ok a | Err e => Err (billing_error e) end.

(** What the foreign keys do to the mappings when billing rows have gone: rows of a
    deleted invoice go with it, links to a deleted payment become null, and a row
    this leaves succeeded without a payment is refused. *)
Definition fk_actions (b : BillStore) (maps : gmap string StripeMapping) : paid_outcome (gmap string StripeMapping) :=
  let kept := filter (fun r => is_Some (bs_invoices b !! sm_invoiceId r.2)) maps in
  let! _ := check (forallb (fun m => negb (orphaned b m) || succeeded_has_payment (unlink m)) (map_to_list kept).*2)
              CONSTRAINT_VIOLATED in
  Ok ((fun m => if orphaned b m then unlink m else m) <$> kept).

(** The call on the billing tables together with the foreign keys. *)
Definition on_bill {A} (f : BillStore -> outcome (BillStore * A)) (p : PayStore) : paid_outcome (PayStore * A) :=
  let! r := lift (f (ps_bill p)) in
  let! maps := fk_actions r.1 (ps_maps p) in
  Ok (with_maps (fun _ => maps) (with_bill r.1 p), r.2).

(** ** Stripe's answers *)

Record StripeSession : Type := {
  ss_id : string;
  ss_paid : bool;
  ss_payment_intent : option string;
  ss_amount_total : option Z;
  ss_currency : option string;
}.

Record CreateRequest : Type := {
  cq_currency : string;
  cq_unit_amount : Z;
  cq_name : string;
  cq_idempotencyKey : string;
}.

Record CreatedSession : Type := { cs_id : string; cs_url : option string; cs_payment_intent : option string }.

(** [None] is a call that throws. *)
Record StripeApi : Type := {
  api_account : string -> option string;
  api_retrieve : string -> string -> option StripeSession;
  api_create : Z -> string -> CreateRequest -> option CreatedSession;
}.

(** ** Partner keys *)

Section vault.

(** [encryptSecret] and [decryptSecret] of services/secretCrypto.ts in their configuration. *)
Context (encrypt decrypt : option string -> result CryptoError (option string)).

Definition last4 (s : string) : string := str_drop (String.length s - 4) s.

Definition is_live_key (s : string) : bool := startsWith "sk_live" s || startsWith "rk_live" s.

(** The unique index on the account id, over the other partners' rows. *)
Definition account_claimed (accountId partnerId : string) (t : gmap string ConnectAccount) : bool :=
  existsb (fun r => bool_decide (ac_stripeAccountId r.2 = accountId) && negb (bool_decide (r.1 = partnerId))) (map_to_list t).

Definition savePartnerStripeKey (api : StripeApi) (now : Z) (partnerId apiKey : string) (userId : option string) (p : PayStore)
  : paid_outcome (PayStore * string) :=
  let apiKey := trim apiKey in
  match api_account api apiKey with
  | None => Err INVALID_STRIPE_KEY
  | Some accountId =>
      match encrypt (Some apiKey) with
      | Err _ => Err ENCRYPTION_FAILED
      | Ok encrypted =>
          let! _ := check (negb (account_claimed accountId partnerId (ps_accounts p))) INVALID_STRIPE_KEY in
          Ok (with_accounts (<[partnerId := {| ac_stripeAccountId := accountId; ac_apiKey := encrypted;
                                                ac_keyLast4 := Some (last4 apiKey); ac_livemode := is_live_key apiKey;
                                                ac_connected := true; ac_connectedBy := userId; ac_disconnectedAt := None |}]>) p,
              accountId)
      end
  end.

(** The partner's key and account. *)
Definition getPartnerStripeClient (partnerId : string) (p : PayStore) : paid_outcome (string * string) :=
  match ps_accounts p !! partnerId with
  | Some a =>
      if ac_connected a && truthy (ac_apiKey a) then
        match decrypt (ac_apiKey a) with
        | Ok (Some k) => if truthy (Some k) then Ok (k, ac_stripeAccountId a) else Err STRIPE_KEY_UNREADABLE
        | _ => Err STRIPE_KEY_UNREADABLE
        end
      else Err NO_STRIPE_KEY
  | None => Err NO_STRIPE_KEY
  end.

Definition disconnectPartnerStripe (now : Z) (partnerId : string) (p : PayStore) : PayStore :=
  with_accounts (alter (fun a => {| ac_stripeAccountId := ac_stripeAccountId a; ac_apiKey := None; ac_keyLast4 := None;
    ac_livemode := ac_livemode a; ac_connected := false; ac_connectedBy := ac_connectedBy a;
    ac_disconnectedAt := Some now |}) partnerId) p.

Definition getConnectionByAccount (accountId : string) (p : PayStore) : option ConnectAccount :=
  snd <$> head (List.filter (fun r => bool_decide (ac_stripeAccountId r.2 = accountId)) (map_to_list (ps_accounts p))).

Definition markDisconnectedByAccount (now : Z) (accountId : string) (p : PayStore) : PayStore :=
  with_accounts (fmap (fun a => if bool_decide (ac_stripeAccountId a = accountId)
    then {| ac_stripeAccountId := ac_stripeAccountId a; ac_apiKey := ac_apiKey a; ac_keyLast4 := ac_keyLast4 a;
            ac_livemode := ac_livemode a; ac_connected := false; ac_connectedBy := ac_connectedBy a;
            ac_disconnectedAt := Some now |} else a)) p.

(** ** Checkouts *)

Definition PAYABLE (st : InvoiceStatus) : bool := bool_decide (st ∈ [inv_sent; inv_partially_paid; inv_overdue]).

Definition chargeNow (i : Invoice) : Decimal * bool :=
  computeChargeNow (iv_depositDue i) (il_amountPaid (iv_life i)) (il_balance (iv_life i)).

Definition chargeMinor (i : Invoice) : Z := toMinorUnits (chargeNow i).1 (iv_currencyCode i).

Definition idempotencyKey (id : nat) (i : Invoice) : string :=
  "inv_" ++ dec (Z.of_nat id) ++ "_" ++ dec (chargeMinor i) ++ "_" ++ (if (chargeNow i).2 then "dep" else "bal").

Definition checkout_request (id : nat) (i : Invoice) : CreateRequest :=
  let label := ("Invoice " ++ default (dec (Z.of_nat id)) (il_invoiceNumber (iv_life i)))%string in
  {| cq_currency := toLowerCase (iv_currencyCode i); cq_unit_amount := chargeMinor i;
     cq_name := if (chargeNow i).2 then ("Deposit — " ++ label)%string else label; cq_idempotencyKey := idempotencyKey id i |}.

(** The pending row; the unique index refuses a session that has one already. *)
Definition insert_mapping (id : nat) (i : Invoice) (account : string) (sn : CreatedSession) (now : Z) (p : PayStore)
  : paid_outcome PayStore :=
  let! _ := check (bool_decide (ps_maps p !! cs_id sn = None)) DUPLICATE_OBJECT in
  Ok (with_maps (<[cs_id sn :=
        {| sm_orgId := iv_orgId i; sm_invoiceId := id; sm_invoicePaymentId := None; sm_stripeAccountId := account;
           sm_objectType := checkout_session; sm_paymentIntentId := cs_payment_intent sn; sm_amount := (chargeNow i).1;
           sm_currency := iv_currencyCode i; sm_status := sp_pending; sm_lastEventAt := None; sm_createdAt := now |}]>) p).

(** What both checkout handlers do once they have the invoice. *)
Definition open_checkout (api : StripeApi) (now : Z) (id : nat) (i : Invoice) (p : PayStore)
  : paid_outcome (CreatedSession * string) :=
  let! _ := check (PAYABLE (iv_status i)) NOT_PAYABLE in
  let! _ := check (0 <? chargeMinor i) NOTHING_TO_PAY in
  let! c := match getPartnerStripeClient (iv_partnerId i) p with
            | Err NO_STRIPE_KEY => Err STRIPE_NOT_CONNECTED
            | Err _ => Err STRIPE_INIT_FAILED
            | Ok c => Ok c
            end in
  match api_create api now c.1 (checkout_request id i) with
  | None => Err STRIPE_API_FAILED
  | Some sn => Ok (sn, c.2)
  end.

Definition createInvoicePayLink (api : StripeApi) (now : Z) (id : nat) (actor : InvoiceActor) (p : PayStore)
  : paid_outcome (PayStore * string) :=
  let! i := lift (getOwnedInvoiceOr404 id (ps_bill p)) in
  let! _ := lift (requireOrgAccess actor (iv_orgId i)) in
  let! _ := lift (requireSiteAccess actor (iv_siteId i)) in
  let! r := open_checkout api now id i p in
  match cs_url r.1 with
  | Some url => if truthy (Some url) then let! p' := insert_mapping id i r.2 r.1 now p in Ok (p', url) else Err STRIPE_NO_URL
  | None => Err STRIPE_NO_URL
  end.

(** POST /portal/invoices/:id/pay *)
Definition portal_pay (api : StripeApi) (now : Z) (id : nat) (orgId : string) (p : PayStore)
  : paid_outcome (PayStore * option string) :=
  match bs_invoices (ps_bill p) !! id with
  | Some i =>
      if bool_decide (iv_orgId i = orgId) && bool_decide (iv_status i <> inv_draft) then
        let! r := open_checkout api now id i p in
        let! p' := insert_mapping id i r.2 r.1 now p in
        Ok (p', cs_url r.1)
      else Err NO_INVOICE
  | None => Err NO_INVOICE
  end.

(** ** Captures *)

Record CaptureInput : Type := {
  cap_objectId : string;
  cap_paymentIntentId : string;
  cap_accountId : string;
  cap_amount : Decimal;
  cap_currency : string;
}.

(** What a call has read: a mapping that is recorded, or the two rows. *)
Inductive CaptureRead : Type := already_recorded (invoiceId : nat) | to_record (m : StripeMapping) (i : Invoice).

Definition capture_read (inp : CaptureInput) (p : PayStore) : paid_outcome CaptureRead :=
  match ps_maps p !! cap_objectId inp with
  | None => Err NO_MAPPING
  | Some m =>
      match sm_invoicePaymentId m with
      | Some _ => Ok (already_recorded (sm_invoiceId m))
      | None => match bs_invoices (ps_bill p) !! sm_invoiceId m with
                | None => Err NO_INVOICE
                | Some i => Ok (to_record m i)
                end
      end
  end.

(** The terminal conditions. *)
Definition capture_refused (inp : CaptureInput) (m : StripeMapping) (i : Invoice) : bool :=
  bool_decide (iv_status i ∈ [inv_draft; inv_void])
  || negb (bool_decide (toUpperCase (cap_currency inp) = toUpperCase (iv_currencyCode i)))
  || (negb (truthy (Some (cap_accountId inp))) || negb (bool_decide (cap_accountId inp = sm_stripeAccountId m)))
  || (toCents (Some (il_balance (iv_life i))) <? toCents (Some (cap_amount inp))).

(** The insert of the payment and what follows it on the billing tables. *)
Definition capture_payment (env : BillEnv) (id : nat) (amount : Decimal) (s : BillStore) : outcome (BillStore * nat) :=
  let stored := toFixed 2 (Number amount) in
  let! _ := check (0 <? units stored) CHECK_VIOLATION in
  let pid := bs_nextId s in
  let s1 := bump_id (with_payments (<[pid := {| py_invoiceId := id; py_amount := stored; py_recordedBy := None |}]>) s) in
  let! s2 := recomputeInvoiceStatus env id s1 in
  Ok (emit_if_paid id (emit (payment_recorded id pid) s2), pid).

Definition capture_write (env : BillEnv) (inp : CaptureInput) (r : CaptureRead) (p : PayStore) : paid_outcome (PayStore * nat) :=
  match r with
  | already_recorded id => Ok (p, id)
  | to_record m i =>
      let id := sm_invoiceId m in
      if capture_refused inp m i then
        Ok (with_maps (alter (mark_mapping sp_failed (be_now env)) (cap_objectId inp))
              (with_bill (emit (payment_failed id) (ps_bill p)) p), id)
      else
        let! b := lift (capture_payment env id (cap_amount inp) (ps_bill p)) in
        Ok (with_maps (alter (set_mapping (Some b.2) sp_succeeded (Some (cap_paymentIntentId inp)) (be_now env)) (cap_objectId inp))
              (with_bill b.1 p), id)
  end.

Definition recordStripePayment (env : BillEnv) (inp : CaptureInput) (p : PayStore) : paid_outcome (PayStore * nat) :=
  let! r := capture_read inp p in capture_write env inp r p.

(** ** Refunds *)

Record RefundInput : Type := {
  rf_paymentIntentId : string;
  rf_amountRefundedCents : Z;
  rf_chargeAmountCents : Z;
  rf_currency : string;
  rf_accountId : string;
}.

Definition by_payment_intent (pi : string) (p : PayStore) : option (string * StripeMapping) :=
  head (List.filter (fun r => bool_decide (sm_paymentIntentId r.2 = Some pi)) (map_to_list (ps_maps p))).

(** Remove a payment row; the foreign key acts on the mappings. *)
Definition delete_payment (pid : nat) (p : PayStore) : paid_outcome PayStore :=
  let b := with_payments (delete pid) (ps_bill p) in
  let! maps := fk_actions b (ps_maps p) in
  Ok (with_maps (fun _ => maps) (with_bill b p)).

Definition reflectStripeRefund (env : BillEnv) (inp : RefundInput) (p : PayStore) : paid_outcome PayStore :=
  match by_payment_intent (rf_paymentIntentId inp) p with
  | None => Ok p
  | Some (oid, m) =>
      match sm_invoicePaymentId m with
      | None => Ok p
      | Some pid =>
          if negb (truthy (Some (rf_accountId inp))) || negb (bool_decide (rf_accountId inp = sm_stripeAccountId m)) then Ok p
          else
            let! p1 :=
              if rf_chargeAmountCents inp <=? rf_amountRefundedCents inp then
                let! q := delete_payment pid p in
                Ok (with_maps (alter (set_mapping None sp_refunded (sm_paymentIntentId m) (be_now env)) oid) q)
              else
                let remaining := fromMinorUnits (rf_chargeAmountCents inp - rf_amountRefundedCents inp) (rf_currency inp) in
                let! _ := check (0 <? units remaining) CONSTRAINT_VIOLATED in
                Ok (with_maps (alter (mark_mapping sp_partially_refunded (be_now env)) oid)
                      (with_bill (with_payments (alter (set_amount remaining) pid) (ps_bill p)) p)) in
            let! b := lift (recomputeInvoiceStatus env (sm_invoiceId m) (ps_bill p1)) in
            Ok (with_bill (emit (payment_voided (sm_invoiceId m) pid) b) p1)
      end
  end.

(** ** Settlement and events *)

(** A paid session as a capture; [None] when there is nothing to record. *)
Definition session_capture (account : string) (sn : StripeSession) : option CaptureInput :=
  let pi := default EmptyString (ss_payment_intent sn) in
  let cents := default 0 (ss_amount_total sn) in
  let currency := toUpperCase (default "usd"%string (ss_currency sn)) in
  if negb (ss_paid sn) then None
  else if negb (truthy (Some pi)) || (cents <=? 0) then None
  else Some {| cap_objectId := ss_id sn; cap_paymentIntentId := pi; cap_accountId := account;
               cap_amount := fromMinorUnits cents currency; cap_currency := currency |}.

Definition settleCheckoutSession (env : BillEnv) (api : StripeApi) (partnerId sessionId : string) (p : PayStore)
  : paid_outcome (PayStore * bool) :=
  let! c := getPartnerStripeClient partnerId p in
  match api_retrieve api c.1 sessionId with
  | None => Err STRIPE_API_FAILED
  | Some sn =>
      match session_capture c.2 sn with
      | None => Ok (p, false)
      | Some inp => let! r := recordStripePayment env inp p in Ok (r.1, true)
      end
  end.

(** POST /portal/invoices/:id/settle: a failure is reported as unsettled. *)
Definition portal_settle (env : BillEnv) (api : StripeApi) (orgId : string) (id : nat) (sessionId : string) (p : PayStore)
  : PayStore * bool :=
  match bs_invoices (ps_bill p) !! id, ps_maps p !! sessionId with
  | Some i, Some m =>
      if bool_decide (iv_orgId i = orgId) && bool_decide (iv_status i <> inv_draft)
         && bool_decide (sm_invoiceId m = id) && bool_decide (sm_orgId m = orgId)
      then match settleCheckoutSession env api (iv_partnerId i) sessionId p with Ok r => r | Err _ => (p, false) end
      else (p, false)
  | _, _ => (p, false)
  end.

Inductive StripeEventObject : Type :=
| ev_session_completed (sn : StripeSession)
| ev_session_async_succeeded (sn : StripeSession)
| ev_payment_failed (pi : string)
| ev_charge_refunded (pi : option string) (amount_refunded amount : option Z) (currency : option string)
| ev_deauthorized
| ev_ignored.

Record StripeEvent : Type := { ev_account : option string; ev_livemode : bool; ev_object : StripeEventObject }.

Definition money_moving (o : StripeEventObject) : bool :=
  match o with ev_deauthorized | ev_ignored => false | _ => true end.

(** The account is known and of the event's mode. *)
Definition connection_matches (e : StripeEvent) (p : PayStore) : bool :=
  match ev_account e with
  | Some a => if truthy (Some a) then match getConnectionByAccount a p with
                                      | Some c => bool_decide (ac_livemode c = ev_livemode e)
                                      | None => false
                                      end else false
  | None => false
  end.

Definition payment_failed_event (env : BillEnv) (pi : string) (p : PayStore) : PayStore :=
  match by_payment_intent pi p with
  | None => p
  | Some (oid, m) => with_maps (alter (mark_mapping sp_failed (be_now env)) oid)
                       (with_bill (emit (payment_failed (sm_invoiceId m)) (ps_bill p)) p)
  end.

Definition handleStripeEvent (env : BillEnv) (e : StripeEvent) (p : PayStore) : paid_outcome PayStore :=
  let account := default EmptyString (ev_account e) in
  if money_moving (ev_object e) && negb (connection_matches e p) then Ok p
  else match ev_object e with
       | ev_session_completed sn | ev_session_async_succeeded sn =>
           match session_capture account sn with
           | None => Ok p
           | Some inp => let! r := recordStripePayment env inp p in Ok r.1
           end
       | ev_payment_failed pi => Ok (payment_failed_event env pi p)
       | ev_charge_refunded pi refunded amount currency =>
           if negb (truthy pi) then Ok p
           else reflectStripeRefund env
                  {| rf_paymentIntentId := default EmptyString pi; rf_amountRefundedCents := default 0 refunded;
                     rf_chargeAmountCents := default 0 amount; rf_currency := default "usd"%string currency;
                     rf_accountId := account |} p
       | ev_deauthorized => Ok (if truthy (ev_account e) then markDisconnectedByAccount (be_now env) account p else p)
       | ev_ignored => Ok p
       end.

(** ** The sweep *)

Definition MAX_PER_RUN : nat := 200.
Definition MIN_AGE : Z := 2 * 60 * 1000.
Definition MAX_AGE : Z := 7 * 24 * 60 * 60 * 1000.

Definition sweep_candidate (now : Z) (m : StripeMapping) : bool :=
  bool_decide (sm_status m = sp_pending) && bool_decide (sm_invoicePaymentId m = None)
  && bool_decide (sm_objectType m = checkout_session)
  && (sm_createdAt m <? now - MIN_AGE) && (now - MAX_AGE <? sm_createdAt m).

Definition sm_by_age (a b : string * StripeMapping) : Prop := sm_createdAt a.2 <= sm_createdAt b.2.
#[export] Instance sm_by_age_dec a b : Decision (sm_by_age a b) := Z.le_dec _ _.

(** The partner and session of each unsettled checkout, oldest first. *)
Definition sweep_rows (now : Z) (p : PayStore) : list (string * string) :=
  take MAX_PER_RUN
    (omap (fun r => i ← bs_invoices (ps_bill p) !! sm_invoiceId r.2; Some (iv_partnerId i, r.1))
       (merge_sort sm_by_age (List.filter (fun r => sweep_candidate now r.2) (map_to_list (ps_maps p))))).

Definition sweep_one (env : BillEnv) (api : StripeApi) (acc : PayStore * nat) (row : string * string) : PayStore * nat :=
  match settleCheckoutSession env api row.1 row.2 acc.1 with
  | Ok (p', true) => (p', S acc.2)
  | Ok (p', false) => (p', acc.2)
  | Err _ => acc
  end.

Definition reconcilePendingStripePayments (env : BillEnv) (api : StripeApi) (p : PayStore) : PayStore * nat :=
  fold_left (sweep_one env api) (sweep_rows (be_now env) p) (p, 0%nat).

End vault.
