(* ===== verification/QuoteStore.v ===== *)
(** * The quote tables

    db/schema/quotes.ts, and the rows of contract templates and of the Pax8 mappings the
    quote services read. Left out: images and cover pages, the bill-to and seller
    snapshots, rendered documents, created and updated stamps. *)

From stdpp Require Import base gmap strings list option.
From Stdlib Require Import ZArith.
From S2P Require Import Prelude Money Quotes BillingStore Invoices.
Open Scope Z_scope.

(** ** Rows *)

Inductive QuoteStatus : Type :=
| qs_draft | qs_sent | qs_viewed | qs_accepted | qs_declined | qs_expired | qs_converted.
Inductive QuoteLineSourceType : Type := ql_catalog | ql_bundle | ql_manual.
Inductive SendQuoteEmailReason : Type :=
| no_email_service | no_billing_contact | pdf_render_failed | send_failed | schedule_failed.
Inductive ResponseOutcome : Type := response_accepted | response_declined.

#[export] Instance QuoteStatus_eq : EqDecision QuoteStatus.
Proof. solve_decision. Defined.
#[export] Instance QuoteLineSourceType_eq : EqDecision QuoteLineSourceType.
Proof. solve_decision. Defined.
#[export] Instance SendQuoteEmailReason_eq : EqDecision SendQuoteEmailReason.
Proof. solve_decision. Defined.

(** What a draft edit writes. *)
Record QuoteHead : Type := {
  qh_orgId : string;
  qh_siteId : option string;
  qh_title : option string;
  qh_expiryDate : option string;
  qh_introNotes : option string;
  qh_terms : option string;
  qh_termsAndConditions : option string;
  qh_billToName : option string;
  qh_taxRate : option Decimal;
  qh_depositType : string;
  qh_depositPercent : option Decimal;
}.

(** The stored totals. *)
Record QuoteMoney : Type := {
  qm_subtotal : Decimal;
  qm_taxTotal : Decimal;
  qm_total : Decimal;
  qm_oneTimeTotal : Decimal;
  qm_monthlyRecurringTotal : Decimal;
  qm_annualRecurringTotal : Decimal;
  qm_depositAmount : option Decimal;
}.

Record QuoteLife : Type := {
  qf_status : QuoteStatus;
  qf_quoteNumber : option string;
  qf_issueDate : option string;
  qf_sentAt : option Z;
  qf_firstViewedAt : option Z;
  qf_viewedAt : option Z;
  qf_acceptedAt : option Z;
  qf_declinedAt : option Z;
  qf_convertedAt : option Z;
  qf_declineReason : option string;
  qf_convertedInvoiceId : option nat;
}.

(** The undo-send window. *)
Record QuoteSend : Type := {
  qd_sendScheduledAt : option Z;
  qd_sendJobId : option string;
  qd_sendEmailReason : option SendQuoteEmailReason;
}.

(** The single use of the public link. *)
Record QuoteResponse : Type := {
  qr_tokenVersion : Z;
  qr_jti : option string;
  qr_consumedAt : option Z;
  qr_outcome : option ResponseOutcome;
}.

Record Quote : Type := {
  q_partnerId : string;
  q_currencyCode : string;
  q_createdBy : option string;
  q_head : QuoteHead;
  q_money : QuoteMoney;
  q_life : QuoteLife;
  q_send : QuoteSend;
  q_response : QuoteResponse;
}.

Definition q_status (q : Quote) : QuoteStatus := qf_status (q_life q).
Definition q_orgId (q : Quote) : string := qh_orgId (q_head q).
Definition q_siteId (q : Quote) : option string := qh_siteId (q_head q).

(** The content of a block says its type. *)
Inductive BlockContent : Type :=
| heading (text : string)
| rich_text (html : string)
| image (imageId : string)
| line_items (title : option string)
| contract_block (templateId templateVersionId : string) (variableValues : list (string * string)).

Inductive BlockType : Type := bt_heading | bt_rich_text | bt_image | bt_line_items | bt_contract.
#[export] Instance BlockType_eq : EqDecision BlockType.
Proof. solve_decision. Defined.

Definition block_type (c : BlockContent) : BlockType :=
  match c with
  | heading _ => bt_heading
  | rich_text _ => bt_rich_text
  | image _ => bt_image
  | line_items _ => bt_line_items
  | contract_block _ _ _ => bt_contract
  end.

Record QuoteBlock : Type := {
  qb_quoteId : nat;
  qb_orgId : string;
  qb_content : BlockContent;
  qb_sortOrder : Z;
}.

Record QuoteLine : Type := {
  qn_quoteId : nat;
  qn_blockId : option nat;
  qn_orgId : string;
  qn_sourceType : QuoteLineSourceType;
  qn_catalogItemId : option string;
  qn_parentLineId : option nat;
  qn_name : option string;
  qn_description : option string;
  qn_quantity : Decimal;
  qn_unitPrice : Decimal;
  qn_taxable : bool;
  qn_customerVisible : bool;
  qn_lineTotal : Decimal;
  qn_recurrence : Recurrence;
  qn_termMonths : option Z;
  qn_billingFrequency : option string;
  qn_unitCost : option Decimal;
  qn_depositEligible : bool;
  qn_itemType : option Category;
  qn_sku : option string;
  qn_partNumber : option string;
  qn_sortOrder : Z;
}.

(** What the totals read of a line. *)
Definition math_line (l : QuoteLine) : QuoteLineForMath :=
  {| ql_quantity := qn_quantity l; ql_unitPrice := qn_unitPrice l; ql_unitCost := qn_unitCost l; ql_taxable := qn_taxable l;
     ql_customerVisible := qn_customerVisible l; ql_recurrence := qn_recurrence l;
     ql_depositEligible := qn_depositEligible l; ql_itemType := qn_itemType l |}.

Record QuoteAcceptance : Type := {
  qa_quoteId : nat;
  qa_orgId : string;
  qa_signerName : string;
  qa_signerEmail : option string;
  qa_ipAddress : option string;
  qa_userAgent : option string;
  qa_tokenJti : option string;
}.

(** An executed contract document, its rendering apart. *)
Record ContractDocument : Type := {
  cd_orgId : string;
  cd_quoteId : nat;
  cd_acceptanceId : nat;
  cd_contractId : option nat;
  cd_templateId : string;
  cd_templateVersionId : string;
}.

Record Pax8OrderLine : Type := {
  pl_productId : string;
  pl_catalogItemId : string;
  pl_billingTerm : string;
  pl_quantity : Decimal;
  pl_contractLineId : option nat;
  pl_sourceQuoteLineId : nat;
  pl_sortOrder : Z;
}.

Record Pax8Order : Type := {
  po_integrationId : string;
  po_partnerId : string;
  po_orgId : string;
  po_companyId : option string;
  po_sourceQuoteId : nat;
  po_lines : list Pax8OrderLine;
}.

Record QuoteStore : Type := {
  qt_quotes : gmap nat Quote;
  qt_blocks : gmap nat QuoteBlock;
  qt_lines : gmap nat QuoteLine;
  qt_acceptances : gmap nat QuoteAcceptance;
  qt_recipients : gset (nat * string);
  qt_documents : gmap nat ContractDocument;
  qt_orders : gmap nat Pax8Order;
  qt_sequences : gmap (string * Z) Z;
  qt_nextId : nat;
}.

Definition with_quotes (f : gmap nat Quote -> gmap nat Quote) (s : QuoteStore) : QuoteStore :=
  {| qt_quotes := f (qt_quotes s); qt_blocks := qt_blocks s; qt_lines := qt_lines s; qt_acceptances := qt_acceptances s;
     qt_recipients := qt_recipients s; qt_documents := qt_documents s; qt_orders := qt_orders s;
     qt_sequences := qt_sequences s; qt_nextId := qt_nextId s |}.
Definition with_blocks (f : gmap nat QuoteBlock -> gmap nat QuoteBlock) (s : QuoteStore) : QuoteStore :=
  {| qt_quotes := qt_quotes s; qt_blocks := f (qt_blocks s); qt_lines := qt_lines s; qt_acceptances := qt_acceptances s;
     qt_recipients := qt_recipients s; qt_documents := qt_documents s; qt_orders := qt_orders s;
     qt_sequences := qt_sequences s; qt_nextId := qt_nextId s |}.
Definition with_qlines (f : gmap nat QuoteLine -> gmap nat QuoteLine) (s : QuoteStore) : QuoteStore :=
  {| qt_quotes := qt_quotes s; qt_blocks := qt_blocks s; qt_lines := f (qt_lines s); qt_acceptances := qt_acceptances s;
     qt_recipients := qt_recipients s; qt_documents := qt_documents s; qt_orders := qt_orders s;
     qt_sequences := qt_sequences s; qt_nextId := qt_nextId s |}.
Definition with_recipients (f : gset (nat * string) -> gset (nat * string)) (s : QuoteStore) : QuoteStore :=
  {| qt_quotes := qt_quotes s; qt_blocks := qt_blocks s; qt_lines := qt_lines s; qt_acceptances := qt_acceptances s;
     qt_recipients := f (qt_recipients s); qt_documents := qt_documents s; qt_orders := qt_orders s;
     qt_sequences := qt_sequences s; qt_nextId := qt_nextId s |}.
Definition with_qsequences (f : gmap (string * Z) Z -> gmap (string * Z) Z) (s : QuoteStore) : QuoteStore :=
  {| qt_quotes := qt_quotes s; qt_blocks := qt_blocks s; qt_lines := qt_lines s; qt_acceptances := qt_acceptances s;
     qt_recipients := qt_recipients s; qt_documents := qt_documents s; qt_orders := qt_orders s;
     qt_sequences := f (qt_sequences s); qt_nextId := qt_nextId s |}.

(** The rows an acceptance adds. *)
Definition add_acceptance (a : QuoteAcceptance) (s : QuoteStore) : QuoteStore :=
  {| qt_quotes := qt_quotes s; qt_blocks := qt_blocks s; qt_lines := qt_lines s;
     qt_acceptances := <[qt_nextId s := a]> (qt_acceptances s);
     qt_recipients := qt_recipients s; qt_documents := qt_documents s; qt_orders := qt_orders s;
     qt_sequences := qt_sequences s; qt_nextId := S (qt_nextId s) |}.
Definition add_document (d : ContractDocument) (s : QuoteStore) : QuoteStore :=
  {| qt_quotes := qt_quotes s; qt_blocks := qt_blocks s; qt_lines := qt_lines s; qt_acceptances := qt_acceptances s;
     qt_recipients := qt_recipients s; qt_documents := <[qt_nextId s := d]> (qt_documents s); qt_orders := qt_orders s;
     qt_sequences := qt_sequences s; qt_nextId := S (qt_nextId s) |}.
Definition add_order (o : Pax8Order) (s : QuoteStore) : QuoteStore :=
  {| qt_quotes := qt_quotes s; qt_blocks := qt_blocks s; qt_lines := qt_lines s; qt_acceptances := qt_acceptances s;
     qt_recipients := qt_recipients s; qt_documents := qt_documents s; qt_orders := <[qt_nextId s := o]> (qt_orders s);
     qt_sequences := qt_sequences s; qt_nextId := S (qt_nextId s) |}.

(** Take the next generated id. *)
Definition qbump (s : QuoteStore) : QuoteStore :=
  {| qt_quotes := qt_quotes s; qt_blocks := qt_blocks s; qt_lines := qt_lines s; qt_acceptances := qt_acceptances s;
     qt_recipients := qt_recipients s; qt_documents := qt_documents s; qt_orders := qt_orders s;
     qt_sequences := qt_sequences s; qt_nextId := S (qt_nextId s) |}.

(** ** Row updates *)

Definition set_head (h : QuoteHead) (q : Quote) : Quote :=
  {| q_partnerId := q_partnerId q; q_currencyCode := q_currencyCode q; q_createdBy := q_createdBy q; q_head := h;
     q_money := q_money q; q_life := q_life q; q_send := q_send q; q_response := q_response q |}.
Definition set_money (m : QuoteMoney) (q : Quote) : Quote :=
  {| q_partnerId := q_partnerId q; q_currencyCode := q_currencyCode q; q_createdBy := q_createdBy q; q_head := q_head q;
     q_money := m; q_life := q_life q; q_send := q_send q; q_response := q_response q |}.
Definition set_qlife (f : QuoteLife -> QuoteLife) (q : Quote) : Quote :=
  {| q_partnerId := q_partnerId q; q_currencyCode := q_currencyCode q; q_createdBy := q_createdBy q; q_head := q_head q;
     q_money := q_money q; q_life := f (q_life q); q_send := q_send q; q_response := q_response q |}.
Definition set_send (d : QuoteSend) (q : Quote) : Quote :=
  {| q_partnerId := q_partnerId q; q_currencyCode := q_currencyCode q; q_createdBy := q_createdBy q; q_head := q_head q;
     q_money := q_money q; q_life := q_life q; q_send := d; q_response := q_response q |}.
Definition set_response (r : QuoteResponse) (q : Quote) : Quote :=
  {| q_partnerId := q_partnerId q; q_currencyCode := q_currencyCode q; q_createdBy := q_createdBy q; q_head := q_head q;
     q_money := q_money q; q_life := q_life q; q_send := q_send q; q_response := r |}.

Definition alter_quote (id : nat) (f : Quote -> Quote) (s : QuoteStore) : QuoteStore := with_quotes (alter f id) s.

Definition life_sent (number issueDate : option string) (now : Z) (l : QuoteLife) : QuoteLife :=
  {| qf_status := qs_sent; qf_quoteNumber := number; qf_issueDate := issueDate; qf_sentAt := Some now;
     qf_firstViewedAt := qf_firstViewedAt l; qf_viewedAt := qf_viewedAt l; qf_acceptedAt := qf_acceptedAt l;
     qf_declinedAt := qf_declinedAt l; qf_convertedAt := qf_convertedAt l; qf_declineReason := qf_declineReason l;
     qf_convertedInvoiceId := qf_convertedInvoiceId l |}.

(** The columns a view writes: the status only when the row read was [sent]. *)
Definition life_viewed (first toViewed : bool) (now : Z) (l : QuoteLife) : QuoteLife :=
  {| qf_status := if toViewed then qs_viewed else qf_status l; qf_quoteNumber := qf_quoteNumber l;
     qf_issueDate := qf_issueDate l; qf_sentAt := qf_sentAt l;
     qf_firstViewedAt := if first then Some now else qf_firstViewedAt l; qf_viewedAt := Some now;
     qf_acceptedAt := qf_acceptedAt l; qf_declinedAt := qf_declinedAt l; qf_convertedAt := qf_convertedAt l;
     qf_declineReason := qf_declineReason l; qf_convertedInvoiceId := qf_convertedInvoiceId l |}.

Definition life_declined (reason : option string) (now : Z) (l : QuoteLife) : QuoteLife :=
  {| qf_status := qs_declined; qf_quoteNumber := qf_quoteNumber l; qf_issueDate := qf_issueDate l; qf_sentAt := qf_sentAt l;
     qf_firstViewedAt := qf_firstViewedAt l; qf_viewedAt := qf_viewedAt l; qf_acceptedAt := qf_acceptedAt l;
     qf_declinedAt := Some now; qf_convertedAt := qf_convertedAt l; qf_declineReason := reason;
     qf_convertedInvoiceId := qf_convertedInvoiceId l |}.

Definition life_expired (l : QuoteLife) : QuoteLife :=
  {| qf_status := qs_expired; qf_quoteNumber := qf_quoteNumber l; qf_issueDate := qf_issueDate l; qf_sentAt := qf_sentAt l;
     qf_firstViewedAt := qf_firstViewedAt l; qf_viewedAt := qf_viewedAt l; qf_acceptedAt := qf_acceptedAt l;
     qf_declinedAt := qf_declinedAt l; qf_convertedAt := qf_convertedAt l; qf_declineReason := qf_declineReason l;
     qf_convertedInvoiceId := qf_convertedInvoiceId l |}.

Definition life_converted (invoiceId : nat) (now : Z) (l : QuoteLife) : QuoteLife :=
  {| qf_status := qs_converted; qf_quoteNumber := qf_quoteNumber l; qf_issueDate := qf_issueDate l; qf_sentAt := qf_sentAt l;
     qf_firstViewedAt := qf_firstViewedAt l; qf_viewedAt := qf_viewedAt l; qf_acceptedAt := Some now;
     qf_declinedAt := qf_declinedAt l; qf_convertedAt := Some now; qf_declineReason := qf_declineReason l;
     qf_convertedInvoiceId := Some invoiceId |}.

(** ** What the services read besides *)

Record TemplateVersion : Type := {
  tv_templateId : string;
  tv_published : bool;
  tv_uploaded : bool;
  tv_hasFile : bool;
  tv_declaredVariables : list (string * bool);
}.

(** Owned by an organization or by a partner. *)
Record Template : Type := { tp_archived : bool; tp_owner : string + string }.

Record Pax8Mapping : Type := { pm_integrationId : string; pm_partnerId : string; pm_item : string; pm_productId : string }.
Record Pax8Company : Type := { pc_integrationId : string; pc_partnerId : string; pc_org : string; pc_companyId : string }.

Record QuoteEnv : Type := {
  qe_bill : BillEnv;
  qe_sanitize : string -> string;
  qe_versions : gmap string TemplateVersion;
  qe_templates : gmap string Template;
  qe_billingEmail : string -> option string;
  qe_orgName : string -> option string;
  qe_partnerTerms : string -> option string;
  qe_partnerFooter : string -> option string;
  qe_pax8Products : list Pax8Mapping;
  qe_pax8Companies : list Pax8Company;
}.

Definition qe_now (env : QuoteEnv) : Z := be_now (qe_bill env).

(** ** Errors *)

(** The codes of [QuoteServiceError]. *)
Inductive QuoteError : Type :=
| Q_PARTNER_UNRESOLVABLE | Q_ORG_DENIED | ORG_NOT_FOUND | Q_SITE_DENIED | QUOTE_NOT_FOUND | Q_NOT_A_DRAFT
| Q_LINE_NOT_FOUND | BLOCK_NOT_FOUND | BLOCK_TYPE_MISMATCH | CATALOG_ITEM_NOT_FOUND | INVALID_CONTRACT_TEMPLATE
| Q_INVALID_STATE | RESPONSE_CONSUMED | QUOTE_EXPIRED | NOT_CONVERTED | REORDER_IDS_MISMATCH | LINE_IS_BUNDLE_CHILD
| BLOCK_NOT_LINE_ITEMS | deposit_error (e : DepositError) | DEPOSIT_INVALID | CONTRACT_VARIABLES_UNRESOLVED
| CONTRACT_RENDER_DATA_MISSING | VERSION_NOT_FOUND | SIGNER_REQUIRED | BAD_TERM | FOREIGN_KEY_VIOLATED
| QUOTE_EMPTY | NOT_A_RECIPIENT.

Abbreviation quote_outcome A := (result QuoteError A).
