(* ===== verification/QuoteService.v ===== *)
(** * Quotes: drafts, blocks and lines

    apps/api/src/services/quoteService.ts and quoteNumbers.ts. A call is a function on
    the quote tables. *)

From stdpp Require Import base gmap strings list option sorting.
From Stdlib Require Import ZArith Lia QArith.
From S2P Require Import Prelude Calendar Doubles Money Quotes BillingStore.
From S2P Require Import Invoices QuoteStore.
Open Scope Z_scope.

(** ** Access *)

(** [QuoteActor] has the fields of [InvoiceActor]. *)
Abbreviation QuoteActor := InvoiceActor.

Definition resolvePartner (actor : QuoteActor) : quote_outcome string :=
  match ia_partnerId actor with
  | Some p => if truthy (Some p) then Ok p else Err Q_PARTNER_UNRESOLVABLE
  | None => Err Q_PARTNER_UNRESOLVABLE
  end.

Definition assertOrg (actor : QuoteActor) (orgId : string) : quote_outcome unit :=
  check (match ia_accessibleOrgIds actor with None => true | Some l => bool_decide (orgId ∈ l) end) Q_ORG_DENIED.

Definition assertSite (actor : QuoteActor) (siteId : option string) : quote_outcome unit :=
  check (match ia_allowedSiteIds actor with
         | None => true
         | Some l => match siteId with Some x => truthy siteId && bool_decide (x ∈ l) | None => false end
         end) Q_SITE_DENIED.

Definition assertQuoteAccess (actor : QuoteActor) (q : Quote) : quote_outcome unit :=
  let! _ := assertOrg actor (q_orgId q) in assertSite actor (q_siteId q).

Definition getOwnedQuote (id : nat) (s : QuoteStore) : quote_outcome Quote :=
  match qt_quotes s !! id with Some q => Ok q | None => Err QUOTE_NOT_FOUND end.

Definition loadDraft (id : nat) (actor : QuoteActor) (s : QuoteStore) : quote_outcome Quote :=
  let! q := getOwnedQuote id s in
  let! _ := assertQuoteAccess actor q in
  let! _ := check (bool_decide (q_status q = qs_draft)) Q_NOT_A_DRAFT in
  Ok q.

(** ** Rows of a quote *)

Definition blocks_of (id : nat) (s : QuoteStore) : list (nat * QuoteBlock) :=
  List.filter (fun r => bool_decide (qb_quoteId r.2 = id)) (map_to_list (qt_blocks s)).
Definition qlines_of (id : nat) (s : QuoteStore) : list (nat * QuoteLine) :=
  List.filter (fun r => bool_decide (qn_quoteId r.2 = id)) (map_to_list (qt_lines s)).

Definition qb_by_sort (a b : nat * QuoteBlock) : Prop := qb_sortOrder a.2 <= qb_sortOrder b.2.
#[export] Instance qb_by_sort_dec a b : Decision (qb_by_sort a b) := Z.le_dec _ _.
Definition qn_by_sort (a b : nat * QuoteLine) : Prop := qn_sortOrder a.2 <= qn_sortOrder b.2.
#[export] Instance qn_by_sort_dec a b : Decision (qn_by_sort a b) := Z.le_dec _ _.

Definition sorted_blocks (id : nat) (s : QuoteStore) : list (nat * QuoteBlock) := merge_sort qb_by_sort (blocks_of id s).
Definition sorted_lines (id : nat) (s : QuoteStore) : list (nat * QuoteLine) := merge_sort qn_by_sort (qlines_of id s).

(** [COALESCE(MAX(sort_order), -1) + 1] *)
Definition next_sort (l : list Z) : Z := foldr Z.max (-1) l + 1.

Definition nextBlockSortOrder (id : nat) (s : QuoteStore) : Z := next_sort (map (fun r => qb_sortOrder r.2) (blocks_of id s)).
Definition nextLineSortOrder (id : nat) (s : QuoteStore) : Z := next_sort (map (fun r => qn_sortOrder r.2) (qlines_of id s)).

(** ** Totals *)

Definition deposit_of (h : QuoteHead) : QuoteDepositConfig := toQuoteDepositConfig (Some (qh_depositType h)) (qh_depositPercent h).

(** The totals columns for given lines. *)
Definition money_of (lines : list QuoteLineForMath) (h : QuoteHead) : QuoteMoney :=
  let t := computeQuoteTotals lines (Number <$> qh_taxRate h) (Some (deposit_of h)) in
  {| qm_subtotal := qt_subtotal t; qm_taxTotal := qt_taxTotal t; qm_total := qt_total t; qm_oneTimeTotal := qt_oneTimeTotal t;
     qm_monthlyRecurringTotal := qt_monthlyRecurringTotal t; qm_annualRecurringTotal := qt_annualRecurringTotal t;
     qm_depositAmount := qt_depositDueTotal t |}.

Definition math_lines (id : nat) (s : QuoteStore) : list QuoteLineForMath := map (fun r => math_line r.2) (qlines_of id s).

Definition recomputeAndPersist (id : nat) (s : QuoteStore) : QuoteStore :=
  match qt_quotes s !! id with
  | Some q => alter_quote id (set_money (money_of (math_lines id s) (q_head q))) s
  | None => s
  end.

(** ** Numbers and tax *)

Definition formatQuoteNumber (prefix : string) (year counter : Z) : string :=
  prefix ++ "-" ++ dec year ++ "-" ++ padStart4 (dec counter).

(** The upsert of the sequence row, in a transaction of its own. *)
Definition allocateQuoteCounter (partnerId : string) (year : Z) (s : QuoteStore) : QuoteStore * Z :=
  let counter := match qt_sequences s !! (partnerId, year) with Some c => c + 1 | None => 1 end in
  (with_qsequences (<[(partnerId, year) := counter]>) s, counter).

Definition new_number (env : QuoteEnv) (partnerId : string) (s : QuoteStore) : QuoteStore * string :=
  let year := year_of (qe_now env / 86400000) in
  let '(s1, counter) := allocateQuoteCounter partnerId year s in (s1, formatQuoteNumber "Q" year counter).

Definition resolveQuoteTaxRate (env : QuoteEnv) (orgId partnerId : string) : option Decimal :=
  let org := be_org (qe_bill env) orgId in
  let rate := resolveEffectiveTaxRate (from_option ob_taxExempt false org) (org ≫= ob_taxRate)
                (be_partner (qe_bill env) partnerId ≫= pb_defaultTaxRate) in
  if negb (Qle_bool (Number rate) 0) then Some rate else None.

(** [t?.trim() || null] *)
Definition trimmed (t : option string) : option string :=
  match t with Some x => if truthy (Some (trim x)) then Some (trim x) else None | None => None end.

(** ** Create *)

Definition zero_quote_money : QuoteMoney :=
  {| qm_subtotal := money 0; qm_taxTotal := money 0; qm_total := money 0; qm_oneTimeTotal := money 0;
     qm_monthlyRecurringTotal := money 0; qm_annualRecurringTotal := money 0; qm_depositAmount := None |}.

Definition draft_qlife (number : string) : QuoteLife :=
  {| qf_status := qs_draft; qf_quoteNumber := Some number; qf_issueDate := None; qf_sentAt := None; qf_firstViewedAt := None;
     qf_viewedAt := None; qf_acceptedAt := None; qf_declinedAt := None; qf_convertedAt := None; qf_declineReason := None;
     qf_convertedInvoiceId := None |}.

Definition no_send : QuoteSend := {| qd_sendScheduledAt := None; qd_sendJobId := None; qd_sendEmailReason := None |}.
Definition no_response : QuoteResponse := {| qr_tokenVersion := 0; qr_jti := None; qr_consumedAt := None; qr_outcome := None |}.

Record CreateQuoteInput : Type := {
  cqi_orgId : string;
  cqi_siteId : option string;
  cqi_title : option string;
  cqi_currencyCode : string;
  cqi_expiryDate : option string;
  cqi_introNotes : option string;
  cqi_terms : option string;
  cqi_termsAndConditions : option string;
}.

Definition createQuote (env : QuoteEnv) (i : CreateQuoteInput) (actor : QuoteActor) (s : QuoteStore)
  : quote_outcome (QuoteStore * nat) :=
  let! partnerId := resolvePartner actor in
  let! _ := assertOrg actor (cqi_orgId i) in
  let! _ := assertSite actor (cqi_siteId i) in
  let taxRate := resolveQuoteTaxRate env (cqi_orgId i) partnerId in
  let '(s1, number) := new_number env partnerId s in
  let id := qt_nextId s1 in
  Ok (qbump (with_quotes (<[id :=
        {| q_partnerId := partnerId; q_currencyCode := cqi_currencyCode i; q_createdBy := ia_userId actor;
           q_head := {| qh_orgId := cqi_orgId i; qh_siteId := cqi_siteId i; qh_title := trimmed (cqi_title i);
                        qh_expiryDate := cqi_expiryDate i; qh_introNotes := cqi_introNotes i; qh_terms := cqi_terms i;
                        qh_termsAndConditions := cqi_termsAndConditions i; qh_billToName := None; qh_taxRate := taxRate;
                        qh_depositType := "none"; qh_depositPercent := None |};
           q_money := zero_quote_money; q_life := draft_qlife number; q_send := no_send; q_response := no_response |}]>) s1), id).

(** ** Contract templates *)

Definition template_visible (t : Template) (orgId partnerId : string) : bool :=
  match tp_owner t with inl o => bool_decide (o = orgId) | inr p => bool_decide (p = partnerId) end.

Definition assertContractBlockValid (env : QuoteEnv) (templateId versionId orgId partnerId : string) : quote_outcome unit :=
  match qe_versions env !! versionId with
  | Some v =>
      let! _ := check (bool_decide (tv_templateId v = templateId) && tv_published v) INVALID_CONTRACT_TEMPLATE in
      match qe_templates env !! templateId with
      | Some t =>
          let! _ := check (negb (tp_archived t)) INVALID_CONTRACT_TEMPLATE in
          check (template_visible t orgId partnerId) INVALID_CONTRACT_TEMPLATE
      | None => Err INVALID_CONTRACT_TEMPLATE
      end
  | None => Err INVALID_CONTRACT_TEMPLATE
  end.

Definition block_valid (env : QuoteEnv) (orgId partnerId : string) (c : BlockContent) : quote_outcome unit :=
  match c with contract_block t v _ => assertContractBlockValid env t v orgId partnerId | _ => Ok tt end.

Fixpoint assertContractBlocksValidForOrg (env : QuoteEnv) (orgId partnerId : string) (bs : list BlockContent)
  : quote_outcome unit :=
  match bs with
  | [] => Ok tt
  | c :: bs' => let! _ := block_valid env orgId partnerId c in assertContractBlocksValidForOrg env orgId partnerId bs'
  end.

(** [sanitizeBlockContentForWrite], [sanitizeQuoteBlocksForRead] *)
Definition sanitizeBlock (env : QuoteEnv) (c : BlockContent) : BlockContent :=
  match c with rich_text h => rich_text (qe_sanitize env h) | _ => c end.

(** ** Read *)

Record QuoteRead : Type := {
  rd_quote : Quote;
  rd_blocks : list (nat * QuoteBlock);
  rd_lines : list (nat * QuoteLine);
  rd_totals : QuoteTotals;
}.

Definition set_content (c : BlockContent) (b : QuoteBlock) : QuoteBlock :=
  {| qb_quoteId := qb_quoteId b; qb_orgId := qb_orgId b; qb_content := c; qb_sortOrder := qb_sortOrder b |}.

Definition getQuote (env : QuoteEnv) (id : nat) (actor : QuoteActor) (s : QuoteStore) : quote_outcome QuoteRead :=
  let! q := getOwnedQuote id s in
  let! _ := assertQuoteAccess actor q in
  let lines := sorted_lines id s in
  Ok {| rd_quote := q;
        rd_blocks := (fun r => (r.1, set_content (sanitizeBlock env (qb_content r.2)) r.2)) <$> sorted_blocks id s;
        rd_lines := lines;
        rd_totals := computeQuoteTotals (map (fun r => math_line r.2) lines) (Number <$> qh_taxRate (q_head q))
                       (Some (deposit_of (q_head q))) |}.

(** ** Clone *)

Record CloneQuoteInput : Type := { cl_targetOrgId : option string; cl_title : option string }.

Definition clone_head (h : QuoteHead) (orgChanged : bool) (orgId : string) (title : option string) (taxRate : option Decimal)
  : QuoteHead :=
  {| qh_orgId := orgId; qh_siteId := if orgChanged then None else qh_siteId h; qh_title := title; qh_expiryDate := None;
     qh_introNotes := qh_introNotes h; qh_terms := qh_terms h; qh_termsAndConditions := qh_termsAndConditions h;
     qh_billToName := if orgChanged then None else qh_billToName h; qh_taxRate := taxRate;
     qh_depositType := qh_depositType h; qh_depositPercent := qh_depositPercent h |}.

Definition clone_block (quoteId : nat) (orgId : string) (b : QuoteBlock) : QuoteBlock :=
  {| qb_quoteId := quoteId; qb_orgId := orgId; qb_content := qb_content b; qb_sortOrder := qb_sortOrder b |}.

Definition clone_qline (quoteId : nat) (orgId : string) (blockIds lineIds : gmap nat nat) (fallback : option nat)
    (l : QuoteLine) : QuoteLine :=
  {| qn_quoteId := quoteId;
     qn_blockId := match qn_blockId l ≫= fun b => blockIds !! b with Some b => Some b | None => fallback end;
     qn_orgId := orgId; qn_sourceType := qn_sourceType l; qn_catalogItemId := qn_catalogItemId l;
     qn_parentLineId := qn_parentLineId l ≫= fun p => lineIds !! p; qn_name := qn_name l;
     qn_description := qn_description l; qn_quantity := qn_quantity l; qn_unitPrice := qn_unitPrice l;
     qn_taxable := qn_taxable l; qn_customerVisible := qn_customerVisible l; qn_lineTotal := qn_lineTotal l;
     qn_recurrence := qn_recurrence l; qn_termMonths := qn_termMonths l; qn_billingFrequency := qn_billingFrequency l;
     qn_unitCost := qn_unitCost l; qn_depositEligible := qn_depositEligible l; qn_itemType := qn_itemType l;
     qn_sku := qn_sku l; qn_partNumber := qn_partNumber l; qn_sortOrder := qn_sortOrder l |}.

(** Fresh ids for a list of rows. *)
Definition fresh_ids {A} (from : nat) (rows : list (nat * A)) : gmap nat nat :=
  list_to_map (imap (fun k r => (r.1, (from + k)%nat)) rows).

Definition has_block (blockIds : gmap nat nat) (l : QuoteLine) : bool :=
  match qn_blockId l with Some b => bool_decide (blockIds !! b <> None) | None => false end.

Fixpoint insert_rows {A} (from : nat) (rows : list A) (m : gmap nat A) : gmap nat A :=
  match rows with [] => m | r :: rs => <[from := r]> (insert_rows (S from) rs m) end.

(** The first pricing section, or a new one at the end, when a line has none. *)
Definition clone_fallback (quoteId : nat) (orgId : string) (blocks : list (nat * QuoteBlock)) (lines : list (nat * QuoteLine))
    (blockIds : gmap nat nat) (freshId : nat) : option nat * option QuoteBlock :=
  if forallb (fun r => has_block blockIds r.2) lines then (None, None)
  else match head (List.filter (fun r => bool_decide (block_type (qb_content r.2) = bt_line_items)) blocks) with
       | Some r => (blockIds !! r.1, None)
       | None => (Some freshId, Some {| qb_quoteId := quoteId; qb_orgId := orgId; qb_content := line_items None;
                                        qb_sortOrder := next_sort (map (fun r => qb_sortOrder r.2) blocks) |})
       end.

(** Whether the organization exists and is the partner's. *)
Definition org_of_partner (env : QuoteEnv) (orgId partnerId : string) : bool :=
  bool_decide (be_orgPartner (qe_bill env) orgId = Some partnerId).

Definition cloneQuote (env : QuoteEnv) (id : nat) (actor : QuoteActor) (i : CloneQuoteInput) (s : QuoteStore)
  : quote_outcome (QuoteStore * nat) :=
  let! r := getQuote env id actor s in
  let source := rd_quote r in
  let partnerId := q_partnerId source in
  let target := default (q_orgId source) (cl_targetOrgId i) in
  let orgChanged := negb (bool_decide (target = q_orgId source)) in
  let! _ := if orgChanged then
              let! _ := assertOrg actor target in
              let! _ := assertSite actor None in
              let! _ := check (org_of_partner env target partnerId) ORG_NOT_FOUND in
              assertContractBlocksValidForOrg env target partnerId (map (fun b => qb_content b.2) (rd_blocks r))
            else Ok tt in
  let taxRate := if orgChanged then resolveQuoteTaxRate env target partnerId else qh_taxRate (q_head source) in
  let title := match cl_title i with Some t => trimmed (Some t) | None => qh_title (q_head source) end in
  let '(s1, number) := new_number env partnerId s in
  let quoteId := qt_nextId s1 in
  let blockIds := fresh_ids (S quoteId) (rd_blocks r) in
  let extraId := (S quoteId + length (rd_blocks r))%nat in
  let '(fallback, extra) := clone_fallback quoteId target (rd_blocks r) (rd_lines r) blockIds extraId in
  let lineFrom := S extraId in
  let lineIds := fresh_ids lineFrom (rd_lines r) in
  let h := clone_head (q_head source) orgChanged target title taxRate in
  let lines := clone_qline quoteId target blockIds lineIds fallback <$> (rd_lines r).*2 in
  let q := {| q_partnerId := partnerId; q_currencyCode := q_currencyCode source; q_createdBy := ia_userId actor; q_head := h;
              q_money := money_of (map (fun r => math_line r.2) (rd_lines r)) h; q_life := draft_qlife number;
              q_send := no_send; q_response := no_response |} in
  Ok ({| qt_quotes := <[quoteId := q]> (qt_quotes s1);
         qt_blocks := insert_rows (S quoteId) ((clone_block quoteId target <$> (rd_blocks r).*2) ++ option_list extra) (qt_blocks s1);
         qt_lines := insert_rows lineFrom lines (qt_lines s1);
         qt_acceptances := qt_acceptances s1; qt_recipients := qt_recipients s1; qt_documents := qt_documents s1;
         qt_orders := qt_orders s1; qt_sequences := qt_sequences s1;
         qt_nextId := (lineFrom + length (rd_lines r))%nat |}, quoteId).

(** ** Header edits *)

(** [Some None] clears a column, [None] leaves it. *)
Record UpdateQuoteInput : Type := {
  up_orgId : option string;
  up_siteId : option (option string);
  up_title : option (option string);
  up_expiryDate : option (option string);
  up_introNotes : option (option string);
  up_terms : option (option string);
  up_termsAndConditions : option (option string);
  up_billToName : option (option string);
  up_taxRate : option (option Decimal);
  up_depositType : option string;
  up_depositPercent : option (option Decimal);
}.

(** The rate the totals will have after the patch; [orgTaxRate] is the new organization's. *)
Definition effective_rate (i : UpdateQuoteInput) (orgTaxRate : option (option Decimal)) (h : QuoteHead) : option Q :=
  match up_taxRate i with
  | Some r => Number <$> r
  | None => match orgTaxRate with Some r => Number <$> r | None => Number <$> qh_taxRate h end
  end.

Definition next_type (i : UpdateQuoteInput) (h : QuoteHead) : string := default (qh_depositType h) (up_depositType i).
Definition next_percent (i : UpdateQuoteInput) (h : QuoteHead) : option Decimal := default (qh_depositPercent h) (up_depositPercent i).

Definition touches_deposit (i : UpdateQuoteInput) : bool :=
  bool_decide (up_depositType i <> None) || bool_decide (up_depositPercent i <> None).

Definition validate_deposit (lines : list QuoteLineForMath) (rate : option Q) (c : QuoteDepositConfig) : quote_outcome unit :=
  match validateQuoteDeposit lines rate c with Ok _ => Ok tt | Err e => Err (deposit_error e) end.

(** The columns after the patch. *)
Definition patch_head (i : UpdateQuoteInput) (orgChanged : bool) (orgTaxRate : option (option Decimal)) (h : QuoteHead) : QuoteHead :=
  {| qh_orgId := if orgChanged then default (qh_orgId h) (up_orgId i) else qh_orgId h;
     qh_siteId := if orgChanged then None else default (qh_siteId h) (up_siteId i);
     qh_title := match up_title i with Some t => trimmed t | None => qh_title h end;
     qh_expiryDate := default (qh_expiryDate h) (up_expiryDate i);
     qh_introNotes := default (qh_introNotes h) (up_introNotes i);
     qh_terms := default (qh_terms h) (up_terms i);
     qh_termsAndConditions := default (qh_termsAndConditions h) (up_termsAndConditions i);
     qh_billToName := match up_billToName i with Some b => b | None => if orgChanged then None else qh_billToName h end;
     qh_taxRate := match orgTaxRate with
                   | Some r => r
                   | None => match up_taxRate i with Some r => (fun x => toFixed 5 (Number x)) <$> r | None => qh_taxRate h end
                   end;
     qh_depositType := if touches_deposit i then next_type i h else qh_depositType h;
     qh_depositPercent := if touches_deposit i
                          then if bool_decide (next_type i h = "percent"%string)
                               then (fun x => toFixed 2 (Number x)) <$> next_percent i h else None
                          else qh_depositPercent h |}.

Definition set_block_org (orgId : string) (b : QuoteBlock) : QuoteBlock :=
  {| qb_quoteId := qb_quoteId b; qb_orgId := orgId; qb_content := qb_content b; qb_sortOrder := qb_sortOrder b |}.

(** A line with its block, organization and place changed. *)
Definition place_line (blockId : option nat) (orgId : string) (sort : Z) (l : QuoteLine) : QuoteLine :=
  {| qn_quoteId := qn_quoteId l; qn_blockId := blockId; qn_orgId := orgId; qn_sourceType := qn_sourceType l;
     qn_catalogItemId := qn_catalogItemId l; qn_parentLineId := qn_parentLineId l; qn_name := qn_name l;
     qn_description := qn_description l; qn_quantity := qn_quantity l; qn_unitPrice := qn_unitPrice l;
     qn_taxable := qn_taxable l; qn_customerVisible := qn_customerVisible l; qn_lineTotal := qn_lineTotal l;
     qn_recurrence := qn_recurrence l; qn_termMonths := qn_termMonths l; qn_billingFrequency := qn_billingFrequency l;
     qn_unitCost := qn_unitCost l; qn_depositEligible := qn_depositEligible l; qn_itemType := qn_itemType l;
     qn_sku := qn_sku l; qn_partNumber := qn_partNumber l; qn_sortOrder := sort |}.

Definition move_org (id : nat) (orgId : string) (s : QuoteStore) : QuoteStore :=
  with_blocks (fmap (fun b => if bool_decide (qb_quoteId b = id) then set_block_org orgId b else b))
    (with_qlines (fmap (fun l => if bool_decide (qn_quoteId l = id) then place_line (qn_blockId l) orgId (qn_sortOrder l) l else l)) s).

Definition updateQuote (env : QuoteEnv) (id : nat) (i : UpdateQuoteInput) (actor : QuoteActor) (s : QuoteStore)
  : quote_outcome QuoteStore :=
  let! q := loadDraft id actor s in
  let! _ := match up_siteId i with Some site => assertSite actor site | None => Ok tt end in
  let target := default (q_orgId q) (up_orgId i) in
  let orgChanged := negb (bool_decide (target = q_orgId q)) in
  let! orgTaxRate :=
    if orgChanged then
      let! _ := assertOrg actor target in
      let! _ := assertSite actor None in
      let! _ := check (org_of_partner env target (q_partnerId q)) ORG_NOT_FOUND in
      Ok (if bool_decide (up_taxRate i = None) then Some (resolveQuoteTaxRate env target (q_partnerId q)) else None)
    else Ok None in
  let! _ := if touches_deposit i
            then validate_deposit (math_lines id s) (effective_rate i orgTaxRate (q_head q))
                   (toQuoteDepositConfig (Some (next_type i (q_head q))) (next_percent i (q_head q)))
            else Ok tt in
  let! _ := if orgChanged then assertContractBlocksValidForOrg env target (q_partnerId q) (map (fun b => qb_content b.2) (blocks_of id s))
            else Ok tt in
  let s1 := alter_quote id (set_head (patch_head i orgChanged orgTaxRate (q_head q))) s in
  Ok (recomputeAndPersist id (if orgChanged then move_org id target s1 else s1)).

(** ** Deletes *)

(** [ON DELETE CASCADE] of [parent_line_id]: lines whose parent has gone, and theirs. *)
Definition has_parent (m : gmap nat QuoteLine) (l : QuoteLine) : bool :=
  match qn_parentLineId l with None => true | Some p => bool_decide (m !! p <> None) end.

Fixpoint cascade_lines (rounds : nat) (m : gmap nat QuoteLine) : gmap nat QuoteLine :=
  match rounds with
  | O => m
  | S n => cascade_lines n (filter (fun r => has_parent m r.2 = true) m)
  end.

Definition delete_lines (p : nat * QuoteLine -> bool) (s : QuoteStore) : QuoteStore :=
  with_qlines (fun m => cascade_lines (size m) (filter (fun r => p r = false) m)) s.

(** [ON DELETE SET NULL] of [block_id]. *)
Definition delete_blocks (p : nat * QuoteBlock -> bool) (s : QuoteStore) : QuoteStore :=
  let kept := filter (fun r => p r = false) (qt_blocks s) in
  with_qlines (fmap (fun l => match qn_blockId l with
                              | Some b => if bool_decide (kept !! b = None) then place_line None (qn_orgId l) (qn_sortOrder l) l else l
                              | None => l
                              end)) (with_blocks (fun _ => kept) s).

Definition deleteDraftQuote (id : nat) (actor : QuoteActor) (s : QuoteStore) : quote_outcome QuoteStore :=
  let! _ := loadDraft id actor s in
  let s1 := delete_blocks (fun r => bool_decide (qb_quoteId r.2 = id)) (delete_lines (fun r => bool_decide (qn_quoteId r.2 = id)) s) in
  Ok (with_recipients (filter (fun r => r.1 <> id)) (with_quotes (delete id) s1)).

(** ** Blocks *)

Definition insert_block (b : QuoteBlock) (s : QuoteStore) : QuoteStore * nat :=
  let id := qt_nextId s in (qbump (with_blocks (<[id := b]>) s), id).

Definition addBlock (env : QuoteEnv) (id : nat) (c : BlockContent) (actor : QuoteActor) (s : QuoteStore)
  : quote_outcome (QuoteStore * nat) :=
  let! q := loadDraft id actor s in
  let! _ := block_valid env (q_orgId q) (q_partnerId q) c in
  Ok (insert_block {| qb_quoteId := id; qb_orgId := q_orgId q; qb_content := sanitizeBlock env c;
                      qb_sortOrder := nextBlockSortOrder id s |} s).

Definition quote_block (id blockId : nat) (s : QuoteStore) : quote_outcome QuoteBlock :=
  match qt_blocks s !! blockId with
  | Some b => if bool_decide (qb_quoteId b = id) then Ok b else Err BLOCK_NOT_FOUND
  | None => Err BLOCK_NOT_FOUND
  end.

Definition updateBlock (env : QuoteEnv) (id blockId : nat) (c : BlockContent) (actor : QuoteActor) (s : QuoteStore)
  : quote_outcome QuoteStore :=
  let! q := loadDraft id actor s in
  let! b := quote_block id blockId s in
  let! _ := check (bool_decide (block_type (qb_content b) = block_type c)) BLOCK_TYPE_MISMATCH in
  let! _ := block_valid env (q_orgId q) (q_partnerId q) c in
  Ok (with_blocks (alter (set_content (sanitizeBlock env c)) blockId) s).

Definition deleteBlock (id blockId : nat) (actor : QuoteActor) (s : QuoteStore) : quote_outcome QuoteStore :=
  let! _ := loadDraft id actor s in
  let s1 := delete_lines (fun r => bool_decide (qn_quoteId r.2 = id) && bool_decide (qn_blockId r.2 = Some blockId)) s in
  Ok (recomputeAndPersist id (delete_blocks (fun r => bool_decide (r.1 = blockId) && bool_decide (qb_quoteId r.2 = id)) s1)).

(** ** Lines *)

(** The given block, or the first pricing section, or a new one. *)
Definition resolveLineBlockId (id : nat) (orgId : string) (blockId : option nat) (s : QuoteStore) : QuoteStore * nat :=
  match blockId with
  | Some b => (s, b)
  | None =>
      match head (List.filter (fun r => bool_decide (block_type (qb_content r.2) = bt_line_items)) (sorted_blocks id s)) with
      | Some r => (s, r.1)
      | None => insert_block {| qb_quoteId := id; qb_orgId := orgId; qb_content := line_items None;
                                qb_sortOrder := nextBlockSortOrder id s |} s
      end
  end.

(** The insert; the foreign key asks for the block. *)
Definition insert_qline (l : QuoteLine) (s : QuoteStore) : quote_outcome (QuoteStore * nat) :=
  let! _ := check (match qn_blockId l with Some b => bool_decide (qt_blocks s !! b <> None) | None => true end) FOREIGN_KEY_VIOLATED in
  let id := qt_nextId s in
  Ok (qbump (with_qlines (<[id := l]>) s), id).

Record QuoteLineInput : Type := {
  li_sourceType : QuoteLineSourceType;
  li_catalogItemId : option string;
  li_blockId : option nat;
  li_name : option string;
  li_description : option string;
  li_quantity : Decimal;
  li_unitPrice : Decimal;
  li_taxable : bool;
  li_customerVisible : bool;
  li_recurrence : Recurrence;
  li_termMonths : option Z;
  li_billingFrequency : option string;
  li_unitCost : option Decimal;
  li_sku : option string;
  li_partNumber : option string;
  li_depositEligible : bool;
}.

Definition addQuoteManualLine (id : nat) (i : QuoteLineInput) (actor : QuoteActor) (s : QuoteStore)
  : quote_outcome (QuoteStore * nat) :=
  let! q := loadDraft id actor s in
  let unitPrice := toFixed 2 (Number (li_unitPrice i)) in
  let '(s1, blockId) := resolveLineBlockId id (q_orgId q) (li_blockId i) s in
  let! r := insert_qline
    {| qn_quoteId := id; qn_blockId := Some blockId; qn_orgId := q_orgId q; qn_sourceType := li_sourceType i;
       qn_catalogItemId := li_catalogItemId i; qn_parentLineId := None; qn_name := li_name i;
       qn_description := li_description i; qn_quantity := li_quantity i; qn_unitPrice := unitPrice;
       qn_taxable := li_taxable i; qn_customerVisible := li_customerVisible i;
       qn_lineTotal := computeLineTotal (li_quantity i) unitPrice; qn_recurrence := li_recurrence i;
       qn_termMonths := li_termMonths i; qn_billingFrequency := li_billingFrequency i;
       qn_unitCost := (fun c => toFixed 2 (Number c)) <$> li_unitCost i; qn_depositEligible := li_depositEligible i;
       qn_itemType := None; qn_sku := li_sku i; qn_partNumber := li_partNumber i;
       qn_sortOrder := nextLineSortOrder id s |} s1 in
  Ok (recomputeAndPersist id r.1, r.2).

Definition addQuoteCatalogLine (env : QuoteEnv) (id : nat) (itemId : string) (quantity : Decimal) (blockId : option nat)
    (partNumber : option string) (actor : QuoteActor) (s : QuoteStore) : quote_outcome (QuoteStore * nat) :=
  let! q := loadDraft id actor s in
  match be_items (qe_bill env) !! itemId with
  | Some it =>
      let! _ := check (bool_decide (it_partnerId it = q_partnerId q)) CATALOG_ITEM_NOT_FOUND in
      let recurrence := if it_recurring it
                        then if bool_decide (it_billingFrequency it = Some "annual"%string) then annual else monthly
                        else one_time in
      let '(s1, block) := resolveLineBlockId id (q_orgId q) blockId s in
      let! r := insert_qline
        {| qn_quoteId := id; qn_blockId := Some block; qn_orgId := q_orgId q; qn_sourceType := ql_catalog;
           qn_catalogItemId := Some itemId; qn_parentLineId := None; qn_name := Some (it_name it);
           qn_description := it_description it; qn_quantity := quantity; qn_unitPrice := it_unitPrice it;
           qn_taxable := it_taxable it; qn_customerVisible := true;
           qn_lineTotal := computeLineTotal quantity (it_unitPrice it); qn_recurrence := recurrence;
           qn_termMonths := it_commitmentTermMonths it; qn_billingFrequency := it_billingFrequency it;
           qn_unitCost := it_costBasis it; qn_depositEligible := bool_decide (it_itemType it = hardware);
           qn_itemType := Some (it_itemType it); qn_sku := it_sku it; qn_partNumber := partNumber;
           qn_sortOrder := nextLineSortOrder id s |} s1 in
      Ok (recomputeAndPersist id r.1, r.2)
  | None => Err CATALOG_ITEM_NOT_FOUND
  end.

Record UpdateLineInput : Type := {
  ul_name : option (option string);
  ul_description : option (option string);
  ul_quantity : option Decimal;
  ul_unitPrice : option Decimal;
  ul_taxable : option bool;
  ul_customerVisible : option bool;
  ul_recurrence : option Recurrence;
  ul_termMonths : option (option Z);
  ul_sortOrder : option Z;
  ul_unitCost : option (option Decimal);
  ul_sku : option (option string);
  ul_partNumber : option (option string);
  ul_depositEligible : option bool;
}.

Definition patch_line (i : UpdateLineInput) (l : QuoteLine) : QuoteLine :=
  let quantity := default (qn_quantity l) (ul_quantity i) in
  let unitPrice := match ul_unitPrice i with Some p => toFixed 2 (Number p) | None => qn_unitPrice l end in
  {| qn_quoteId := qn_quoteId l; qn_blockId := qn_blockId l; qn_orgId := qn_orgId l; qn_sourceType := qn_sourceType l;
     qn_catalogItemId := qn_catalogItemId l; qn_parentLineId := qn_parentLineId l; qn_name := default (qn_name l) (ul_name i);
     qn_description := default (qn_description l) (ul_description i); qn_quantity := quantity; qn_unitPrice := unitPrice;
     qn_taxable := default (qn_taxable l) (ul_taxable i);
     qn_customerVisible := default (qn_customerVisible l) (ul_customerVisible i);
     qn_lineTotal := computeLineTotal quantity unitPrice; qn_recurrence := default (qn_recurrence l) (ul_recurrence i);
     qn_termMonths := default (qn_termMonths l) (ul_termMonths i); qn_billingFrequency := qn_billingFrequency l;
     qn_unitCost := match ul_unitCost i with Some c => (fun x => toFixed 2 (Number x)) <$> c | None => qn_unitCost l end;
     qn_depositEligible := default (qn_depositEligible l) (ul_depositEligible i); qn_itemType := qn_itemType l;
     qn_sku := default (qn_sku l) (ul_sku i); qn_partNumber := default (qn_partNumber l) (ul_partNumber i);
     qn_sortOrder := default (qn_sortOrder l) (ul_sortOrder i) |}.

Definition quote_line (id lineId : nat) (s : QuoteStore) : quote_outcome QuoteLine :=
  match qt_lines s !! lineId with
  | Some l => if bool_decide (qn_quoteId l = id) then Ok l else Err Q_LINE_NOT_FOUND
  | None => Err Q_LINE_NOT_FOUND
  end.

Definition updateQuoteLine (id lineId : nat) (i : UpdateLineInput) (actor : QuoteActor) (s : QuoteStore) : quote_outcome QuoteStore :=
  let! _ := loadDraft id actor s in
  let! _ := quote_line id lineId s in
  Ok (recomputeAndPersist id (with_qlines (alter (patch_line i) lineId) s)).

Definition removeQuoteLine (id lineId : nat) (actor : QuoteActor) (s : QuoteStore) : quote_outcome QuoteStore :=
  let! _ := loadDraft id actor s in
  Ok (recomputeAndPersist id (delete_lines (fun r => bool_decide (r.1 = lineId) && bool_decide (qn_quoteId r.2 = id)) s)).

(** ** Order *)

(** The ids given are the ids there, each once. *)
Definition same_ids (given existing : list nat) : bool :=
  bool_decide (length (remove_dups given) = length existing) && forallb (fun k => bool_decide (k ∈ existing)) given.

Definition set_block_sort (k : Z) (b : QuoteBlock) : QuoteBlock :=
  {| qb_quoteId := qb_quoteId b; qb_orgId := qb_orgId b; qb_content := qb_content b; qb_sortOrder := k |}.

Definition set_line_sort (k : Z) (l : QuoteLine) : QuoteLine := place_line (qn_blockId l) (qn_orgId l) k l.

(** The updates of the loop, in order. *)
Definition renumber {A} (f : Z -> A -> A) (ids : list nat) (m : gmap nat A) : gmap nat A :=
  fold_left (fun m r => alter (f (Z.of_nat r.1)) r.2 m) (imap pair ids) m.

Definition reorderBlocks (id : nat) (blockIds : list nat) (actor : QuoteActor) (s : QuoteStore) : quote_outcome QuoteStore :=
  let! _ := loadDraft id actor s in
  let! _ := check (same_ids blockIds (blocks_of id s).*1) REORDER_IDS_MISMATCH in
  Ok (with_blocks (renumber set_block_sort blockIds) s).

Definition lines_in (id blockId : nat) (s : QuoteStore) : list (nat * QuoteLine) :=
  List.filter (fun r => bool_decide (qn_blockId r.2 = Some blockId)) (qlines_of id s).

Definition reorderLines (id blockId : nat) (lineIds : list nat) (actor : QuoteActor) (s : QuoteStore) : quote_outcome QuoteStore :=
  let! _ := loadDraft id actor s in
  let! _ := quote_block id blockId s in
  let! _ := check (same_ids lineIds (lines_in id blockId s).*1) REORDER_IDS_MISMATCH in
  Ok (with_qlines (renumber set_line_sort lineIds) s).

Definition moveLineToBlock (id lineId targetBlockId : nat) (actor : QuoteActor) (s : QuoteStore) : quote_outcome QuoteStore :=
  let! _ := loadDraft id actor s in
  let! l := quote_line id lineId s in
  let! _ := check (bool_decide (qn_parentLineId l = None)) LINE_IS_BUNDLE_CHILD in
  let! b := quote_block id targetBlockId s in
  let! _ := check (bool_decide (block_type (qb_content b) = bt_line_items)) BLOCK_NOT_LINE_ITEMS in
  if bool_decide (qn_blockId l = Some targetBlockId) then Ok s
  else
    let base := next_sort (map (fun r => qn_sortOrder r.2) (lines_in id targetBlockId s)) in
    let put k l := place_line (Some targetBlockId) (qn_orgId l) (base + k) l in
    let children := (merge_sort qn_by_sort (List.filter (fun r => bool_decide (qn_parentLineId r.2 = Some lineId)) (qlines_of id s))).*1 in
    Ok (with_qlines (fun m => renumber (fun k => put (1 + k)) children (alter (put 0) lineId m)) s).
