(* ===== verification/QuoteLifecycle.v ===== *)
(** * Quotes: sending, viewing, declining, expiry

    apps/api/src/services/quoteLifecycle.ts, quoteExpiry.ts, the send gate of
    contractTemplateRender.ts, jobs/quoteSendQueue.ts, jobs/quoteExpiryReaper.ts, and the
    decline routes of routes/quotesPublic.ts and routes/portal/quotes.ts. A view stamp and a
    decline by a user read the row and later write it without a condition; each is a
    read and a write here. *)

From stdpp Require Import base gmap strings list option sorting.
From Stdlib Require Import ZArith Lia QArith.
From S2P Require Import Prelude Calendar Doubles Money Quotes BillingStore.
From S2P Require Import Invoices QuoteStore QuoteService.
Open Scope Z_scope.

(** ** Expiry *)

Definition isQuoteExpired (expiryDate : option string) (now : Z) : bool :=
  match expiryDate with Some d => truthy (Some d) && str_lt d (iso_of_ms now) | None => false end.

Definition open_for_response (st : QuoteStatus) : bool := bool_decide (st ∈ [qs_sent; qs_viewed]).

(** ** Contract blocks at send *)

Definition AUTO_CONTRACT_VARIABLES : list string :=
  ["client.name"; "client.address"; "seller.name"; "quote.number"; "quote.title"; "totals.one_time"; "totals.monthly";
   "totals.annual"; "totals.total"; "dates.effective"; "dates.expiry"]%string.

(** A contract block with its pinned version. *)
Record RenderData : Type := { rn_blockId : nat; rn_templateId : string; rn_versionId : string; rn_version : TemplateVersion }.

Fixpoint loadContractBlockRenderData (env : QuoteEnv) (blocks : list (nat * QuoteBlock)) : quote_outcome (list RenderData) :=
  match blocks with
  | [] => Ok []
  | (k, b) :: bs =>
      match qb_content b with
      | contract_block t v _ =>
          match qe_versions env !! v with
          | Some ver =>
              let! _ := check (bool_decide (tv_templateId ver = t)) VERSION_NOT_FOUND in
              let! rest := loadContractBlockRenderData env bs in
              Ok ({| rn_blockId := k; rn_templateId := t; rn_versionId := v; rn_version := ver |} :: rest)
          | None => Err VERSION_NOT_FOUND
          end
      | _ => loadContractBlockRenderData env bs
      end
  end.

Definition variable_values (c : BlockContent) : list (string * string) :=
  match c with contract_block _ _ vs => vs | _ => [] end.

(** [resolveAutoVariables] has a value for every automatic name. *)
Definition findUnresolvedVariables (v : TemplateVersion) (values : list (string * string)) : list string :=
  map fst (List.filter (fun x => if x.2 : bool then negb (bool_decide (x.1 ∈ AUTO_CONTRACT_VARIABLES))
                                 else negb (bool_decide (x.1 ∈ values.*1))) (tv_declaredVariables v)).

Definition unresolved (data : list RenderData) (blocks : list (nat * QuoteBlock)) : list string :=
  mjoin (map (fun d => findUnresolvedVariables (rn_version d)
                (default [] (head (map (fun b => variable_values (qb_content b.2))
                                     (List.filter (fun b => bool_decide (b.1 = rn_blockId d)) blocks))))) data).

(** ** Send *)

(** [email.trim().toLowerCase()], empty ones dropped. *)
Definition normalizeEmail (e : string) : string := toLowerCase (trim e).
Definition recipient_emails (env : QuoteEnv) (orgId : string) (to_ : list string) : list string :=
  List.filter (fun e => truthy (Some e))
    (map normalizeEmail (match to_ with [] => option_list (qe_billingEmail env orgId) | _ => to_ end)).

(** The number the quote has, or a new one for a draft without. *)
Definition send_number (env : QuoteEnv) (q : Quote) (s : QuoteStore) : QuoteStore * option string :=
  let n := qf_quoteNumber (q_life q) in
  if truthy n then (s, n)
  else
    let year := match qf_issueDate (q_life q) ≫= parts with Some (y, _, _) => y | None => year_of (qe_now env / 86400000) end in
    let '(s1, counter) := allocateQuoteCounter (q_partnerId q) year s in (s1, Some (formatQuoteNumber "Q" year counter)).

Definition sent_head (env : QuoteEnv) (partnerId : string) (h : QuoteHead) : QuoteHead :=
  {| qh_orgId := qh_orgId h; qh_siteId := qh_siteId h; qh_title := qh_title h; qh_expiryDate := qh_expiryDate h;
     qh_introNotes := qh_introNotes h;
     qh_terms := match qh_terms h with Some t => Some t | None => qe_partnerFooter env partnerId end;
     qh_termsAndConditions := match qh_termsAndConditions h with Some t => Some t | None => qe_partnerTerms env partnerId end;
     qh_billToName := if truthy (trim <$> qh_billToName h) then qh_billToName h else qe_orgName env (qh_orgId h);
     qh_taxRate := qh_taxRate h; qh_depositType := qh_depositType h; qh_depositPercent := qh_depositPercent h |}.

Definition sendQuote (env : QuoteEnv) (id : nat) (actor : QuoteActor) (to_ : list string) (s : QuoteStore) : quote_outcome QuoteStore :=
  let! r := getQuote env id actor s in
  let q := rd_quote r in
  let! _ := check (bool_decide (q_status q = qs_draft)) Q_INVALID_STATE in
  let! data := loadContractBlockRenderData env (rd_blocks r) in
  let! _ := check (bool_decide (unresolved data (rd_blocks r) = [])) CONTRACT_VARIABLES_UNRESOLVED in
  let h := q_head q in
  let! _ := if truthy (Some (qh_depositType h)) && negb (bool_decide (qh_depositType h = "none"%string)) then
              match validateQuoteDeposit (map (fun x => math_line x.2) (rd_lines r)) (Number <$> qh_taxRate h) (deposit_of h) with
              | Ok _ => Ok tt
              | Err _ => Err DEPOSIT_INVALID
              end
            else Ok tt in
  let '(s1, number) := send_number env q s in
  let issueDate := default (iso_of_ms (qe_now env)) (qf_issueDate (q_life q)) in
  let s2 := alter_quote id (fun x => set_send no_send (set_head (sent_head env (q_partnerId q) h)
                                       (set_qlife (life_sent number (Some issueDate) (qe_now env)) x))) s1 in
  Ok (with_recipients (fun rs => list_to_set (map (fun e => (id, e)) (recipient_emails env (q_orgId q) to_)) ∪ rs) s2).

(** ** The undo window *)

Definition set_schedule (at_ : option Z) (job : option string) (reason : option SendQuoteEmailReason) (q : Quote) : Quote :=
  set_send {| qd_sendScheduledAt := at_; qd_sendJobId := job; qd_sendEmailReason := reason |} q.

Definition send_job (q : Quote) : option string := qd_sendJobId (q_send q).

(** The row is a draft registered under this job. *)
Definition holds_job (job : string) (q : Quote) : bool :=
  bool_decide (q_status q = qs_draft) && bool_decide (send_job q = Some job).

(** POST /:id/schedule-send; [enqueued] is whether the queue took the job. *)
Definition scheduleQuoteSend (env : QuoteEnv) (id : nat) (actor : QuoteActor) (job : string) (delayMs : Z) (enqueued : bool)
    (s : QuoteStore) : quote_outcome QuoteStore :=
  let! r := getQuote env id actor s in
  let q := rd_quote r in
  let! _ := check (bool_decide (q_status q = qs_draft)) Q_INVALID_STATE in
  let! _ := check (existsb (fun l => qn_customerVisible l.2) (rd_lines r)) QUOTE_EMPTY in
  let stamped := alter_quote id (set_schedule (Some (qe_now env + delayMs)) (Some job) None) s in
  if enqueued then Ok stamped
  else Ok (alter_quote id (fun x => if bool_decide (send_job x = Some job) then set_schedule None None (qd_sendEmailReason (q_send q)) x else x) stamped).

(** DELETE /:id/schedule-send: whether the undo won. *)
Definition cancelQuoteSend (env : QuoteEnv) (id : nat) (actor : QuoteActor) (s : QuoteStore) : quote_outcome (QuoteStore * bool) :=
  let! r := getQuote env id actor s in
  let q := rd_quote r in
  match send_job q with
  | Some job =>
      if truthy (Some job) && holds_job job q
      then Ok (alter_quote id (set_schedule None None (qd_sendEmailReason (q_send q))) s, true) else Ok (s, false)
  | None => Ok (s, false)
  end.

(** The job: claim, send, and the outcome of the mail; a failed send is rolled back and
    marked. [mailed] is the reason the mail did not go out. *)
Definition processQuoteSendJob (env : QuoteEnv) (id : nat) (job : string) (actor : QuoteActor) (to_ : list string)
    (mailed : option SendQuoteEmailReason) (s : QuoteStore) : QuoteStore :=
  match qt_quotes s !! id with
  | Some q =>
      if holds_job job q then
        let claimed := alter_quote id (set_schedule (qd_sendScheduledAt (q_send q)) None (qd_sendEmailReason (q_send q))) s in
        match sendQuote env id actor to_ claimed with
        | Ok s' => match mailed with
                   | None => s'
                   | Some reason => alter_quote id (fun x => set_schedule (qd_sendScheduledAt (q_send x)) (send_job x) (Some reason) x) s'
                   end
        | Err _ => alter_quote id (set_schedule None None (Some schedule_failed)) s
        end
      else s
  | None => s
  end.

(** ** Views and declines *)

(** What a view writes, from the row it read. *)
Definition view_write (now : Z) (read : Quote) (q : Quote) : Quote :=
  set_qlife (life_viewed (bool_decide (qf_firstViewedAt (q_life read) = None)) (bool_decide (q_status read = qs_sent)) now) q.

Definition view_read (id : nat) (orgId : string) (s : QuoteStore) : option Quote :=
  match qt_quotes s !! id with
  | Some q => if bool_decide (q_orgId q = orgId) then Some q else None
  | None => None
  end.

(** The call with no other in between. *)
Definition markQuoteViewed (env : QuoteEnv) (id : nat) (orgId : string) (s : QuoteStore) : QuoteStore :=
  match view_read id orgId s with Some q => alter_quote id (view_write (qe_now env) q) s | None => s end.

Definition decline_read (env : QuoteEnv) (id : nat) (actor : QuoteActor) (s : QuoteStore) : quote_outcome Quote :=
  let! r := getQuote env id actor s in
  let q := rd_quote r in
  let! _ := check (open_for_response (q_status q)) Q_INVALID_STATE in
  let! _ := check (negb (isQuoteExpired (qh_expiryDate (q_head q)) (qe_now env))) QUOTE_EXPIRED in
  Ok q.

Definition decline_write (now : Z) (reason : option string) (q : Quote) : Quote := set_qlife (life_declined reason now) q.

Definition declineQuoteByActor (env : QuoteEnv) (id : nat) (reason : option string) (actor : QuoteActor) (s : QuoteStore)
  : quote_outcome QuoteStore :=
  let! _ := decline_read env id actor s in
  Ok (alter_quote id (decline_write (qe_now env) reason) s).

(** The claims of a public link. *)
Record QuoteAcceptClaims : Type := { ac_quoteId : nat; ac_orgId : string; ac_jti : string }.

(** The link was used on this row, or is not the one it was issued with. *)
Definition response_consumed (jti : string) (q : Quote) : bool :=
  let r := q_response q in
  (bool_decide (qr_consumedAt r <> None) && bool_decide (qr_jti r = Some jti))
  || (negb (qr_tokenVersion r =? 0) && negb (bool_decide (qr_jti r = Some jti))).

Definition consume (jti : string) (now : Z) (o : ResponseOutcome) (q : Quote) : Quote :=
  set_response {| qr_tokenVersion := qr_tokenVersion (q_response q); qr_jti := Some jti; qr_consumedAt := Some now;
                  qr_outcome := Some o |} q.

(** POST /:token/decline, its write conditional on the row. *)
Definition public_decline (env : QuoteEnv) (claims : QuoteAcceptClaims) (reason : option string) (s : QuoteStore)
  : quote_outcome QuoteStore :=
  match qt_quotes s !! ac_quoteId claims with
  | Some q =>
      let! _ := check (bool_decide (q_orgId q = ac_orgId claims)) Q_INVALID_STATE in
      let! _ := check (negb (response_consumed (ac_jti claims) q)) RESPONSE_CONSUMED in
      let! _ := check (open_for_response (q_status q)) Q_INVALID_STATE in
      let! _ := check (negb (isQuoteExpired (qh_expiryDate (q_head q)) (qe_now env))) QUOTE_EXPIRED in
      let! _ := check (bool_decide (qr_consumedAt (q_response q) = None)) Q_INVALID_STATE in
      Ok (alter_quote (ac_quoteId claims)
            (fun x => consume (ac_jti claims) (qe_now env) response_declined (decline_write (qe_now env) reason x)) s)
  | None => Err Q_INVALID_STATE
  end.

(** The portal user is a recipient of the quote. *)
Definition is_recipient (id : nat) (email : string) (s : QuoteStore) : bool :=
  bool_decide ((id, normalizeEmail email) ∈ qt_recipients s).

(** ** The reaper *)

Definition MAX_REAP_PER_RUN : nat := 500.

Definition expiry_due (now : Z) (q : Quote) : bool :=
  open_for_response (q_status q)
  && match qh_expiryDate (q_head q) with Some d => str_lt d (iso_of_ms now) | None => false end.

Definition q_by_expiry (a b : nat * Quote) : Prop :=
  str_le (default EmptyString (qh_expiryDate (q_head a.2))) (default EmptyString (qh_expiryDate (q_head b.2))) = true.
#[export] Instance q_by_expiry_dec a b : Decision (q_by_expiry a b) := decide (_ = true).

Definition expiry_batch (now : Z) (s : QuoteStore) : list nat :=
  take MAX_REAP_PER_RUN (merge_sort q_by_expiry (List.filter (fun r => expiry_due now r.2) (map_to_list (qt_quotes s)))).*1.

Definition expireQuotes (env : QuoteEnv) (s : QuoteStore) : QuoteStore * nat :=
  let due := expiry_batch (qe_now env) s in
  (fold_left (fun s id => alter_quote id (set_qlife life_expired) s) due s, length due).
