(* ===== verification/QuoteAccept.v ===== *)
(** * Quotes: acceptance

    apps/api/src/services/quoteAcceptService.ts, quoteToContract.ts, quoteToPax8Order.ts, the
    executed documents of contractDocumentService.ts, [createContractWithLinesDetailed] of
    contractService.ts, the accept routes of routes/portal/quotes.ts and
    routes/quotesPublic.ts, and quotePay.ts. The quote row is locked for the whole
    acceptance, which is one function on the billing and quote tables. *)

From stdpp Require Import base gmap strings list option sorting.
From Stdlib Require Import Ascii ZArith Lia QArith.
From S2P Require Import Prelude Calendar Doubles Money Quotes SecretCrypto.
From S2P Require Import BillingStore Invoices Contracts Stripe QuoteStore QuoteService.
From S2P Require Import QuoteLifecycle.
Open Scope Z_scope.

(** ** quoteToContract.ts *)

(** [/^\d{4}-\d{2}-\d{2}$/] *)
Definition iso_shape (s : string) : bool :=
  match str_split "-" s with
  | [y; m; d] => (String.length y =? 4)%nat && (String.length m =? 2)%nat && (String.length d =? 2)%nat
                 && str_forallb is_digit y && str_forallb is_digit m && str_forallb is_digit d
  | _ => false
  end.

(** The month rolls over; [None] where the function throws. *)
Definition addMonthsToDate (date : string) (months : Z) : option string :=
  if negb (iso_shape date) || (months <? 1) then None
  else match parts date with
       | Some (y, m, d) =>
           let base := date_UTC y (m - 1) d in
           let t := make_day (year_of base) (month_of base + months) (date_of base) in
           Some (fmt (year_of t) (month_of t + 1) (date_of t))
       | None => None
       end.

Record QuoteForContract : Type := {
  fc_orgId : string;
  fc_partnerId : string;
  fc_quoteNumber : string;
  fc_terms : option string;
}.

Record NewContractLineSpec : Type := {
  ns_description : string;
  ns_unitPrice : Decimal;
  ns_taxable : bool;
  ns_manualQuantity : Decimal;
  ns_sortOrder : Z;
  ns_sourceQuoteLineId : nat;
}.

(** The specs of a quote: billed in advance, never issued by themselves. *)
Record NewContractSpec : Type := {
  nc_orgId : string;
  nc_partnerId : string;
  nc_name : string;
  nc_intervalMonths : Z;
  nc_startDate : string;
  nc_endDate : option string;
  nc_notes : option string;
  nc_terms : option string;
  nc_createdBy : option string;
  nc_lines : list NewContractLineSpec;
}.

Definition CADENCES : list (Recurrence * Z * string) := [(monthly, 1, "Monthly"%string); (annual, 12, "Annual"%string)].

(** [l.name && l.description ? `${name} — ${description}` : (name ?? description ?? '')] *)
Definition line_label (l : QuoteLine) : string :=
  if truthy (qn_name l) && truthy (qn_description l)
  then (default EmptyString (qn_name l) ++ " — " ++ default EmptyString (qn_description l))%string
  else match qn_name l with Some n => n | None => default EmptyString (qn_description l) end.

Definition cadence_group (r : Recurrence) (lines : list (nat * QuoteLine)) : list (nat * QuoteLine) :=
  List.filter (fun x => bool_decide (qn_recurrence x.2 = r) && qn_customerVisible x.2) lines.

(** The end of the term when the lines agree on one. *)
Definition term_end (startDate : string) (group : list (nat * QuoteLine)) : quote_outcome (option string) :=
  match remove_dups (omap (fun x => qn_termMonths x.2) group) with
  | [t] => match addMonthsToDate startDate t with Some e => Ok (Some e) | None => Err BAD_TERM end
  | _ => Ok None
  end.

Definition spec_lines (group : list (nat * QuoteLine)) : list NewContractLineSpec :=
  imap (fun i x => {| ns_description := line_label x.2; ns_unitPrice := qn_unitPrice x.2; ns_taxable := qn_taxable x.2;
                      ns_manualQuantity := qn_quantity x.2; ns_sortOrder := Z.of_nat i; ns_sourceQuoteLineId := x.1 |}) group.

Fixpoint build_specs (cadences : list (Recurrence * Z * string)) (q : QuoteForContract) (lines : list (nat * QuoteLine))
    (startDate : string) (createdBy : option string) : quote_outcome (list NewContractSpec) :=
  match cadences with
  | [] => Ok []
  | (r, interval, label) :: cs =>
      match cadence_group r lines with
      | [] => build_specs cs q lines startDate createdBy
      | group =>
          let! endDate := term_end startDate group in
          let! rest := build_specs cs q lines startDate createdBy in
          Ok ({| nc_orgId := fc_orgId q; nc_partnerId := fc_partnerId q; nc_name := (fc_quoteNumber q ++ " — " ++ label)%string;
                 nc_intervalMonths := interval; nc_startDate := startDate; nc_endDate := endDate;
                 nc_notes := Some ("Auto-created from accepted quote " ++ fc_quoteNumber q)%string; nc_terms := fc_terms q;
                 nc_createdBy := createdBy; nc_lines := spec_lines group |} :: rest)
      end
  end.

Definition buildContractSpecsFromQuote := build_specs CADENCES.

(** ** contractService.ts: contracts without an actor *)

Definition spec_contract (sp : NewContractSpec) : Contract :=
  {| ct_partnerId := nc_partnerId sp; ct_orgId := nc_orgId sp; ct_name := nc_name sp; ct_status := ct_draft;
     ct_billingTiming := advance; ct_intervalMonths := nc_intervalMonths sp; ct_startDate := nc_startDate sp;
     ct_endDate := nc_endDate sp; ct_nextBillingAt := None; ct_autoIssue := false; ct_autoRenew := false;
     ct_renewalTermMonths := None; ct_renewalNoticeDays := None; ct_notes := nc_notes sp; ct_terms := nc_terms sp;
     ct_createdBy := nc_createdBy sp |}.

Definition spec_contract_line (contractId : nat) (orgId : string) (l : NewContractLineSpec) : ContractLine :=
  {| cl_contractId := contractId; cl_orgId := orgId; cl_lineType := manual; cl_description := ns_description l;
     cl_catalogItemId := None; cl_unitPrice := ns_unitPrice l; cl_manualQuantity := Some (ns_manualQuantity l);
     cl_siteId := None; cl_taxable := ns_taxable l; cl_sortOrder := ns_sortOrder l |}.

Definition insert_contract_line (l : ContractLine) (s : BillStore) : BillStore * nat :=
  let id := bs_nextId s in (bump_id (with_contractLines (<[id := l]>) s), id).

(** The inserts, with the quote line behind each contract line. *)
Fixpoint insert_spec_lines (contractId : nat) (orgId : string) (ls : list NewContractLineSpec) (s : BillStore)
  : BillStore * list (nat * nat) :=
  match ls with
  | [] => (s, [])
  | l :: ls' =>
      let '(s1, k) := insert_contract_line (spec_contract_line contractId orgId l) s in
      let '(s2, links) := insert_spec_lines contractId orgId ls' s1 in
      (s2, (ns_sourceQuoteLineId l, k) :: links)
  end.

Definition createContractWithLinesDetailed (sp : NewContractSpec) (s : BillStore) : BillStore * nat * list (nat * nat) :=
  let id := bs_nextId s in
  let s1 := bump_id (with_contracts (<[id := spec_contract sp]>) s) in
  let '(s2, links) := insert_spec_lines id (nc_orgId sp) (nc_lines sp) s1 in
  (s2, id, links).

Fixpoint create_contracts (specs : list NewContractSpec) (s : BillStore) : BillStore * list nat * list (nat * nat) :=
  match specs with
  | [] => (s, [], [])
  | sp :: sps =>
      let '(s1, id, links) := createContractWithLinesDetailed sp s in
      let '(s2, ids, links') := create_contracts sps s1 in
      (s2, id :: ids, links ++ links')
  end.

(** ** The invoice of the one-time lines *)

Definition one_time_lines (lines : list (nat * QuoteLine)) : list QuoteLine :=
  List.filter (fun l => bool_decide (qn_recurrence l = one_time) && qn_customerVisible l) lines.*2.

Definition convert_line (id : nat) (orgId : string) (i : nat) (l : QuoteLine) : InvoiceLine :=
  {| ln_invoiceId := id; ln_orgId := orgId; ln_sourceType := src_manual; ln_sourceId := None;
     ln_catalogItemId := qn_catalogItemId l; ln_parentLineId := None; ln_ticketId := None; ln_name := None;
     ln_description := qn_description l; ln_quantity := qn_quantity l; ln_unitPrice := qn_unitPrice l; ln_costBasis := None;
     ln_revenueAllocation := None; ln_taxable := qn_taxable l; ln_customerVisible := true;
     ln_lineTotal := computeLineTotal (qn_quantity l) (qn_unitPrice l); ln_isUnapprovedTime := false;
     ln_sortOrder := Z.of_nat i |}.

Definition accept_notes (number : option string) : string :=
  match number with Some n => if truthy (Some n) then ("Converted from quote " ++ n)%string else "Converted from quote"%string
               | None => "Converted from quote"%string end.

(** The deposit that goes onto the invoice. *)
Definition accept_deposit (q : Quote) : option Decimal :=
  match qm_depositAmount (q_money q) with
  | Some d => if negb (bool_decide (qh_depositType (q_head q) = "none"%string)) && negb (Qle_bool (Number d) 0) then Some d else None
  | None => None
  end.

Definition accept_amounts (oneTime : list QuoteLine) (taxRate : option Decimal) : Amounts :=
  let t := computeInvoiceTotals (map (fun l => {| lineTotal := computeLineTotal (qn_quantity l) (qn_unitPrice l);
                                                  taxable := qn_taxable l; customerVisible := true |}) oneTime) taxRate in
  {| am_subtotal := subtotal t; am_taxRate := taxRate; am_taxTotal := taxTotal t; am_total := total t |}.

(** The row as it is inserted. *)
Definition accept_draft (q : Quote) (userId : option string) : Invoice :=
  set_charge (Some (q_currencyCode q)) None
    (set_amounts {| am_subtotal := zero_money; am_taxRate := qh_taxRate (q_head q); am_taxTotal := zero_money;
                    am_total := zero_money |} zero_money
      (draft_invoice {| ih_partnerId := q_partnerId q; ih_orgId := q_orgId q; ih_createdBy := userId; ih_replacesInvoiceId := None |}
         (q_siteId q) (Some (accept_notes (qf_quoteNumber (q_life q)))))).

(** The draft with its lines and totals, issued when there is something to pay. *)
Definition convert_invoice (env : BillEnv) (q : Quote) (oneTime : list QuoteLine) (userId : option string) (s : BillStore)
  : BillStore * nat :=
  let '(s1, id) := insert_invoice (accept_draft q userId) s in
  let s2 := insert_lines (imap (convert_line id (q_orgId q)) oneTime) s1 in
  let amounts := accept_amounts oneTime (qh_taxRate (q_head q)) in
  (if bool_decide (oneTime = []) then alter_invoice id (set_amounts amounts (am_total amounts)) s2
   else issue_row env (q_partnerId q) id None (accept_deposit q) amounts s2, id).

(** ** Executed documents *)

Definition assertContractRenderDataComplete (blocks : list (nat * QuoteBlock)) (data : list RenderData) : bool :=
  forallb (fun b => negb (bool_decide (block_type (qb_content b.2) = bt_contract))
                    || existsb (fun d => bool_decide (rn_blockId d = b.1)) data) blocks.

Fixpoint createExecutedDocuments (id acceptanceId : nat) (orgId : string) (contractId : option nat) (data : list RenderData)
    (s : QuoteStore) : quote_outcome QuoteStore :=
  match data with
  | [] => Ok s
  | d :: ds =>
      let! _ := check (negb (tv_uploaded (rn_version d)) || tv_hasFile (rn_version d)) CONTRACT_RENDER_DATA_MISSING in
      createExecutedDocuments id acceptanceId orgId contractId ds
        (add_document {| cd_orgId := orgId; cd_quoteId := id; cd_acceptanceId := acceptanceId; cd_contractId := contractId;
                         cd_templateId := rn_templateId d; cd_templateVersionId := rn_versionId d |} s)
  end.

(** ** quoteToPax8Order.ts *)

Definition billingTermFor (r : Recurrence) : string :=
  (match r with monthly => "Monthly" | annual => "Annual" | one_time => "One-Time" end)%string.

(** The new lines of the new contracts, as the database has them. *)
Definition findCreatedContractLines (partnerId orgId : string) (contractIds lineIds : list nat) (s : BillStore) : list nat :=
  List.filter (fun k =>
    match bs_contractLines s !! k with
    | Some l => bool_decide (cl_contractId l ∈ contractIds) && bool_decide (cl_orgId l = orgId)
                && bool_decide (cl_lineType l = manual)
                && match bs_contracts s !! cl_contractId l with
                   | Some c => bool_decide (ct_partnerId c = partnerId) && bool_decide (ct_orgId c = orgId)
                   | None => false
                   end
    | None => false
    end) (remove_dups lineIds).

(** The correlation of quote lines to verified contract lines. *)
Fixpoint correlate (verified : list nat) (links : list (nat * nat)) (acc : list (nat * nat)) : quote_outcome (list (nat * nat)) :=
  match links with
  | [] => Ok acc
  | (ql, cl) :: ls =>
      let! _ := check (negb (bool_decide (ql ∈ acc.*1)) && negb (bool_decide (cl ∈ acc.*2))) Q_INVALID_STATE in
      correlate verified ls (if bool_decide (cl ∈ verified) then (ql, cl) :: acc else acc)
  end.

Definition contract_line_of (acc : list (nat * nat)) (ql : nat) : option nat :=
  snd <$> head (List.filter (fun x => bool_decide (x.1 = ql)) acc).

Definition stagePax8Order (env : QuoteEnv) (id : nat) (orgId partnerId : string) (contractIds : list nat) (links : list (nat * nat))
    (lines : list (nat * QuoteLine)) (b : BillStore) : quote_outcome (option Pax8Order) :=
  let candidates := omap (fun x => if qn_customerVisible x.2 then (fun i => (x, i)) <$> qn_catalogItemId x.2 else None) lines in
  let ids := candidates.*2 in
  let mappings := List.filter (fun m => bool_decide (pm_partnerId m = partnerId) && bool_decide (pm_item m ∈ ids)) (qe_pax8Products env) in
  let! _ := check (bool_decide (NoDup (pm_item <$> mappings))) Q_INVALID_STATE in
  let! _ := check (length (remove_dups (pm_integrationId <$> mappings)) <=? 1)%nat Q_INVALID_STATE in
  let backed := omap (fun c => (fun m => (c.1, c.2, m)) <$> head (List.filter (fun m => bool_decide (pm_item m = c.2)) mappings)) candidates in
  match backed with
  | [] => Ok None
  | (_, _, m0) :: _ =>
      let integrationId := pm_integrationId m0 in
      let companies := List.filter (fun c => bool_decide (pc_partnerId c = partnerId) && bool_decide (pc_integrationId c = integrationId)
                                             && bool_decide (pc_org c = orgId)) (qe_pax8Companies env) in
      let recurring := List.filter (fun x => negb (bool_decide (qn_recurrence x.1.1.2 = one_time))) backed in
      let verified := match recurring with [] => [] | _ => findCreatedContractLines partnerId orgId contractIds links.*2 b end in
      let! acc := correlate verified links [] in
      let! _ := check (forallb (fun x => bool_decide (contract_line_of acc x.1.1.1 <> None)) recurring) Q_INVALID_STATE in
      Ok (Some {| po_integrationId := integrationId; po_partnerId := partnerId; po_orgId := orgId;
                  po_companyId := match companies with [c] => Some (pc_companyId c) | _ => None end; po_sourceQuoteId := id;
                  po_lines := imap (fun k x =>
                    let '(ln, item, m) := x in
                    {| pl_productId := pm_productId m; pl_catalogItemId := item; pl_billingTerm := billingTermFor (qn_recurrence ln.2);
                       pl_quantity := qn_quantity ln.2;
                       pl_contractLineId := if bool_decide (qn_recurrence ln.2 = one_time) then None else contract_line_of acc ln.1;
                       pl_sourceQuoteLineId := ln.1; pl_sortOrder := Z.of_nat k |}) backed |})
  end.

(** ** quoteAcceptService.ts *)

Record AcceptQuoteParams : Type := {
  ap_quoteId : nat;
  ap_signerName : string;
  ap_signerEmail : option string;
  ap_ipAddress : option string;
  ap_userAgent : option string;
  ap_tokenJti : option string;
  ap_actorUserId : option string;
  ap_renderData : list RenderData;
}.

Record AcceptQuoteResult : Type := {
  ar_acceptanceId : nat;
  ar_invoiceId : nat;
  ar_invoiceIssued : bool;
  ar_contractIds : list nat;
  ar_pax8OrderId : option nat;
}.

(** Replayed links, states and expiry. *)
Definition accept_guards (env : QuoteEnv) (p : AcceptQuoteParams) (q : Quote) : quote_outcome unit :=
  let! _ := check (match ap_tokenJti p with
                   | Some j => negb (truthy (Some j)) || negb (response_consumed j q)
                   | None => true
                   end) RESPONSE_CONSUMED in
  let! _ := check (open_for_response (q_status q)) Q_INVALID_STATE in
  check (negb (isQuoteExpired (qh_expiryDate (q_head q)) (qe_now env))) QUOTE_EXPIRED.

(** [TypedSignatureProvider.capture] and the acceptance row. *)
Definition acceptance_row (p : AcceptQuoteParams) (q : Quote) : quote_outcome QuoteAcceptance :=
  let signer := trim (ap_signerName p) in
  let! _ := check (truthy (Some signer)) SIGNER_REQUIRED in
  Ok {| qa_quoteId := ap_quoteId p; qa_orgId := q_orgId q; qa_signerName := signer;
        qa_signerEmail := trimmed (ap_signerEmail p);
        qa_ipAddress := if truthy (ap_ipAddress p) then str_take 64 <$> ap_ipAddress p else None;
        qa_userAgent := ap_userAgent p; qa_tokenJti := ap_tokenJti p |}.

(** The converted row. *)
Definition converted (p : AcceptQuoteParams) (invoiceId : nat) (now : Z) (q : Quote) : Quote :=
  let q1 := set_qlife (life_converted invoiceId now) q in
  match ap_tokenJti p with
  | Some j => if truthy (Some j) then consume j now response_accepted q1 else q1
  | None => q1
  end.

Definition acceptQuote (env : QuoteEnv) (p : AcceptQuoteParams) (b : BillStore) (s : QuoteStore)
  : quote_outcome (BillStore * QuoteStore * AcceptQuoteResult) :=
  let id := ap_quoteId p in
  let now := qe_now env in
  let! q := getOwnedQuote id s in
  let! _ := accept_guards env p q in
  let blocks := sorted_blocks id s in
  let lines := sorted_lines id s in
  let! _ := check (assertContractRenderDataComplete blocks (ap_renderData p)) CONTRACT_RENDER_DATA_MISSING in
  let! row := acceptance_row p q in
  let acceptanceId := qt_nextId s in
  let s1 := add_acceptance row s in
  let oneTime := one_time_lines lines in
  let '(b1, invoiceId) := convert_invoice (qe_bill env) q oneTime (ap_actorUserId p) b in
  let s2 := alter_quote id (converted p invoiceId now) s1 in
  let! specs := buildContractSpecsFromQuote
    {| fc_orgId := q_orgId q; fc_partnerId := q_partnerId q;
       fc_quoteNumber := default (dec (Z.of_nat id)) (qf_quoteNumber (q_life q)); fc_terms := qh_terms (q_head q) |}
    lines (iso_of_ms now) (ap_actorUserId p) in
  let '(b2, contractIds, links) := create_contracts specs b1 in
  let! s3 := createExecutedDocuments id acceptanceId (q_orgId q) (head contractIds) (ap_renderData p) s2 in
  let! order := stagePax8Order env id (q_orgId q) (q_partnerId q) contractIds links lines b2 in
  let '(s4, orderId) := match order with Some o => (add_order o s3, Some (qt_nextId s3)) | None => (s3, None) end in
  Ok (b2, s4, {| ar_acceptanceId := acceptanceId; ar_invoiceId := invoiceId;
                 ar_invoiceIssued := negb (bool_decide (oneTime = [])); ar_contractIds := contractIds; ar_pax8OrderId := orderId |}).

(** The event after the commit. *)
Definition emitAcceptInvoiceIssued (r : AcceptQuoteResult) (b : BillStore) : BillStore :=
  if ar_invoiceIssued r then emit (invoice_issued (ar_invoiceId r)) b else b.

(** A route's use of the acceptance: render data first, the event last. *)
Definition run_accept (env : QuoteEnv) (p : AcceptQuoteParams) (b : BillStore) (s : QuoteStore)
  : quote_outcome (BillStore * QuoteStore * AcceptQuoteResult) :=
  let! data := loadContractBlockRenderData env (sorted_blocks (ap_quoteId p) s) in
  let p' := {| ap_quoteId := ap_quoteId p; ap_signerName := ap_signerName p; ap_signerEmail := ap_signerEmail p;
               ap_ipAddress := ap_ipAddress p; ap_userAgent := ap_userAgent p; ap_tokenJti := ap_tokenJti p;
               ap_actorUserId := ap_actorUserId p; ap_renderData := data |} in
  let! r := acceptQuote env p' b s in
  let '(b', s', res) := r in
  Ok (emitAcceptInvoiceIssued res b', s', res).

Definition accept_params (id : nat) (signer : string) (email ip agent jti : option string) : AcceptQuoteParams :=
  {| ap_quoteId := id; ap_signerName := signer; ap_signerEmail := email; ap_ipAddress := ip; ap_userAgent := agent;
     ap_tokenJti := jti; ap_actorUserId := None; ap_renderData := [] |}.

(** POST /quotes/:id/accept of the portal *)
Definition portal_accept (env : QuoteEnv) (id : nat) (orgId email signer : string) (ip agent : option string)
    (b : BillStore) (s : QuoteStore) : quote_outcome (BillStore * QuoteStore * AcceptQuoteResult) :=
  let! q := getOwnedQuote id s in
  let! _ := check (bool_decide (q_orgId q = orgId) && negb (bool_decide (q_status q = qs_draft))) QUOTE_NOT_FOUND in
  let! _ := check (is_recipient id email s) NOT_A_RECIPIENT in
  run_accept env (accept_params id signer (Some email) ip agent None) b s.

(** POST /quotes/:id/decline of the portal: the checks before [declineQuoteByActor] *)
Definition portal_decline_read (env : QuoteEnv) (id : nat) (orgId email : string) (s : QuoteStore) : quote_outcome Quote :=
  let! q := getOwnedQuote id s in
  let! _ := check (bool_decide (q_orgId q = orgId) && negb (bool_decide (q_status q = qs_draft))) QUOTE_NOT_FOUND in
  let! _ := check (is_recipient id email s) NOT_A_RECIPIENT in
  decline_read env id {| ia_userId := None; ia_partnerId := None; ia_accessibleOrgIds := Some [orgId]; ia_allowedSiteIds := None |} s.

(** POST /:token/accept of the public link *)
Definition public_accept (env : QuoteEnv) (claims : QuoteAcceptClaims) (signer : string) (email ip agent : option string)
    (b : BillStore) (s : QuoteStore) : quote_outcome (BillStore * QuoteStore * AcceptQuoteResult) :=
  run_accept env (accept_params (ac_quoteId claims) signer email ip agent (Some (ac_jti claims))) b s.

(** ** quotePay.ts *)

Definition createQuotePayLink (decrypt : option string -> result CryptoError (option string)) (api : StripeApi) (now : Z)
    (id : nat) (actor : QuoteActor) (s : QuoteStore) (p : PayStore) : quote_outcome (paid_outcome (PayStore * string)) :=
  let! q := getOwnedQuote id s in
  let! _ := assertQuoteAccess actor q in
  match qf_convertedInvoiceId (q_life q) with
  | Some inv => if bool_decide (q_status q = qs_converted) then Ok (createInvoicePayLink decrypt api now inv actor p)
                else Err NOT_CONVERTED
  | None => Err NOT_CONVERTED
  end.
