(* ===== verification/QuoteSystem.v ===== *)
(** * Quotes as a system

    The calls of the quote services as steps on the quote tables, and the three kinds of
    change they are made of: an edit of one draft, a change of one row's life, and an
    acceptance. *)

From stdpp Require Import base gmap strings list option relations sorting.
From Stdlib Require Import ZArith Lia QArith.
From S2P Require Import Prelude Calendar Doubles Money Quotes BillingStore.
From S2P Require Import Invoices QuoteStore QuoteService QuoteLifecycle QuoteAccept.
Open Scope Z_scope.

(** ** Totals do not depend on the order of the lines *)

(** The sums the stored totals are made of. *)
Definition same_figures (s t : Sums) : Prop :=
  s_all s = s_all t /\ s_taxableBasis s = s_taxableBasis t /\ s_oneTimeTaxableBasis s = s_oneTimeTaxableBasis t
  /\ s_eligibleCents s = s_eligibleCents t /\ s_eligibleTaxableCents s = s_eligibleTaxableCents t.

#[export] Instance same_figures_equiv : Equivalence same_figures.
Proof. unfold same_figures. split; [done|intros s t H|intros s t u H1 H2]; intuition congruence. Qed.

#[export] Instance addQuoteLine_proper : Proper (same_figures ==> eq ==> same_figures) addQuoteLine.
Proof.
  intros s t (E1 & E2 & E3 & E4 & E5) l _ <-. unfold addQuoteLine. destruct (ql_customerVisible l); cbn [negb]; [|done].
  unfold same_figures. cbn. by rewrite E1, E2, E3, E4, E5.
Qed.

#[export] Instance fold_quote_proper ls : Proper (same_figures ==> same_figures) (fold_left addQuoteLine ls).
Proof. induction ls as [|l ls IH]; intros s t H; [done|]. cbn. apply IH. by rewrite H. Qed.

Lemma addQuoteLine_comm s a b : same_figures (addQuoteLine (addQuoteLine s a) b) (addQuoteLine (addQuoteLine s b) a).
Proof.
  unfold addQuoteLine. destruct (ql_customerVisible a) eqn:Ea, (ql_customerVisible b) eqn:Eb; cbn [negb]; try done.
  unfold same_figures. cbn. unfold bump. generalize (lineCents a), (lineCents b). intros x y.
  split_and!; repeat (case_match; cbn); first [lia|f_equal; lia].
Qed.

Lemma figures_perm ls ls' s : ls ≡ₚ ls' -> same_figures (fold_left addQuoteLine ls s) (fold_left addQuoteLine ls' s).
Proof.
  intros H. revert s. induction H as [|l ls ls' _ IH|a b ls|ls1 ls2 ls3 _ IH1 _ IH2]; intros s; [done|apply IH| |].
  - cbn. by rewrite addQuoteLine_comm.
  - by rewrite IH1.
Qed.

(** The columns of the head the totals read. *)
Definition same_terms (h h' : QuoteHead) : Prop :=
  qh_taxRate h' = qh_taxRate h /\ qh_depositType h' = qh_depositType h /\ qh_depositPercent h' = qh_depositPercent h.

Lemma money_of_perm ls ls' h h' : ls ≡ₚ ls' -> same_terms h h' -> money_of ls' h' = money_of ls h.
Proof.
  intros Hp (E1 & E2 & E3). unfold money_of, computeQuoteTotals, deposit_of. rewrite E1, E2, E3.
  destruct (figures_perm _ _ sums0 Hp) as (F1 & F2 & F3 & F4 & F5).
  cbn. unfold dueOnAcceptance, depositCents. by rewrite F1, F2, F3, F4, F5.
Qed.

(** ** What a call on one quote leaves alone *)

(** A line up to its block. *)
Definition content (l : QuoteLine) : QuoteLine := place_line None (qn_orgId l) (qn_sortOrder l) l.

(** The row, unless it is of quote [id]. *)
Definition other_block (id : nat) (o : option QuoteBlock) : option QuoteBlock :=
  b ← o; if decide (qb_quoteId b = id) then None else Some b.
Definition other_line (id : nat) (o : option QuoteLine) : option QuoteLine :=
  l ← o; if decide (qn_quoteId l = id) then None else Some (content l).

(** Only rows of quote [id] differ; a line elsewhere may have lost its block. *)
Record touches (id : nat) (s s' : QuoteStore) : Prop := {
  to_quotes : forall k, k <> id -> qt_quotes s' !! k = qt_quotes s !! k;
  to_blocks : forall k, other_block id (qt_blocks s' !! k) = other_block id (qt_blocks s !! k);
  to_lines : forall k, other_line id (qt_lines s' !! k) = other_line id (qt_lines s !! k);
  to_next : (qt_nextId s <= qt_nextId s')%nat;
  to_accept : qt_acceptances s' = qt_acceptances s;
}.

#[export] Instance touches_preorder id : PreOrder (touches id).
Proof.
  split; [by split|]. intros s1 s2 s3 [A1 B1 C1 D1 E1] [A2 B2 C2 D2 E2]. split; [|..|lia|by rewrite E2].
  - intros k Hk. by rewrite A2, A1.
  - intros k. by rewrite B2, B1.
  - intros k. by rewrite C2, C1.
Qed.

(** What the totals of quote [id] see of a row. *)
Definition math_view (id : nat) (o : option QuoteLine) : option QuoteLineForMath :=
  l ← o; if decide (qn_quoteId l = id) then Some (math_line l) else None.

Definition keyed_math (id : nat) (s : QuoteStore) : list (nat * QuoteLineForMath) :=
  map (fun r => (r.1, math_line r.2)) (qlines_of id s).

Lemma keyed_math_elem id s k x : (k, x) ∈ keyed_math id s <-> math_view id (qt_lines s !! k) = Some x.
Proof.
  unfold keyed_math, qlines_of, math_view. rewrite list_elem_of_fmap. split.
  - intros ([k' l] & [= -> ->] & [H1%elem_of_map_to_list H2]%list_filter_elem).
    cbn in H2. bool_hyps. rewrite H1. cbn. by rewrite decide_True.
  - intros H. destruct (qt_lines s !! k) as [l|] eqn:E; cbn in H; [|done]. case_decide as Hq; simplify_eq.
    exists (k, l). split; [done|]. apply list_filter_elem. split; [by apply elem_of_map_to_list|by apply bool_decide_eq_true_2].
Qed.

Lemma keyed_math_nodup id s : NoDup (keyed_math id s).
Proof.
  apply (NoDup_fmap_1 fst). unfold keyed_math. rewrite <- list_fmap_compose. cbn.
  eapply sublist_NoDup; [apply (NoDup_fst_map_to_list (qt_lines s))|]. apply fmap_sublist. unfold qlines_of. induction (map_to_list _) as [|r l IH]; [done|]. cbn.
  case_bool_decide; by constructor.
Qed.

Lemma math_lines_perm id s s' :
  (forall k, math_view id (qt_lines s' !! k) = math_view id (qt_lines s !! k)) -> math_lines id s ≡ₚ math_lines id s'.
Proof.
  intros H. assert (E : keyed_math id s ≡ₚ keyed_math id s').
  { apply NoDup_Permutation; [apply keyed_math_nodup..|]. intros [k x]. by rewrite !keyed_math_elem, H. }
  apply (fmap_Permutation snd) in E. unfold keyed_math in E. rewrite <- !list_fmap_compose in E. exact E.
Qed.

Lemma math_view_other id k (o o' : option QuoteLine) : id <> k -> other_line id o' = other_line id o -> math_view k o' = math_view k o.
Proof.
  intros Hne H. unfold other_line, math_view in *. destruct o as [l|], o' as [l'|]; cbn in *; repeat case_decide; try congruence.
  all: assert (E : content l' = content l) by congruence.
  - f_equal. exact (f_equal math_line E).
  - apply (f_equal qn_quoteId) in E. cbn in E. congruence.
  - apply (f_equal qn_quoteId) in E. cbn in E. congruence.
Qed.

(** Consecutive rows in a table. *)
Lemma insert_rows_lookup {A} from (rows : list A) m k :
  insert_rows from rows m !! k = if decide (from <= k < from + length rows)%nat then rows !! (k - from)%nat else m !! k.
Proof.
  revert from. induction rows as [|r rows IH]; intros from; cbn.
  - rewrite decide_False by lia. done.
  - destruct (decide (k = from)) as [->|Hk].
    + rewrite lookup_insert_eq, decide_True, Nat.sub_diag by lia. done.
    + rewrite lookup_insert_ne, IH by done. case_decide; case_decide; try lia; [|done].
      replace (k - from)%nat with (S (k - S from)) by lia. done.
Qed.

Lemma insert_rows_first {A} from (r : A) rows m : insert_rows (S from) rows (<[from := r]> m) = insert_rows from (r :: rows) m.
Proof.
  apply map_eq. intros k. cbn. rewrite insert_rows_lookup. destruct (decide (k = from)) as [->|Hk].
  - rewrite decide_False, !lookup_insert_eq by lia. done.
  - rewrite !lookup_insert_ne, insert_rows_lookup by done. done.
Qed.

(** The new rows are all the rows of their kind. *)
Lemma inserted_rows {A} (p : A -> bool) from rows (m : gmap nat A) :
  (forall k x, m !! k = Some x -> (k < from)%nat /\ p x = false) -> Forall (fun x => p x = true) rows ->
  map snd (List.filter (fun r => p r.2) (map_to_list (insert_rows from rows m))) ≡ₚ rows.
Proof.
  intros Hm Hr. revert from Hm. induction Hr as [|r rows Hr _ IH]; intros from Hm; cbn.
  - rewrite filter_none; [done|]. intros [k x] Hx%elem_of_map_to_list. by apply Hm in Hx as [_ ?].
  - assert (Hn : insert_rows (S from) rows m !! from = None).
    { rewrite insert_rows_lookup, decide_False by lia. destruct (m !! from) eqn:E; [|done]. apply Hm in E as [? _]. lia. }
    rewrite (map_to_list_insert _ _ r Hn). cbn. rewrite Hr. cbn. apply Permutation_cons; [done|].
    apply IH. intros k x Hx. apply Hm in Hx as [? ?]. split; [lia|done].
Qed.

(** ** Edits of a draft *)

Definition is_qdraft (q : Quote) : Prop := q_status q = qs_draft /\ qf_convertedInvoiceId (q_life q) = None.

(** Quote [id] is a draft, generated ids are fresh, no line has a parent. *)
Record tidy (id : nat) (s : QuoteStore) : Prop := {
  td_row : exists q, qt_quotes s !! id = Some q /\ is_qdraft q;
  td_id : (id < qt_nextId s)%nat;
  td_line : forall k l, qt_lines s !! k = Some l -> (k < qt_nextId s)%nat /\ qn_parentLineId l = None;
  td_block : forall k b, qt_blocks s !! k = Some b -> (k < qt_nextId s)%nat;
}.

Definition edit (id : nat) (s s' : QuoteStore) : Prop := touches id s s' /\ tidy id s'.

Lemma edit_trans id s1 s2 s3 : edit id s1 s2 -> edit id s2 s3 -> edit id s1 s3.
Proof. intros [H1 _] [H2 H]. split; [by etrans|done]. Qed.

Lemma tidy_lookup_line id s k : tidy id s -> (qt_nextId s <= k)%nat -> qt_lines s !! k = None.
Proof. intros H Hk. destruct (qt_lines s !! k) eqn:E; [|done]. apply (td_line _ _ H) in E as [? _]. lia. Qed.

Lemma tidy_lookup_block id s k : tidy id s -> (qt_nextId s <= k)%nat -> qt_blocks s !! k = None.
Proof. intros H Hk. destruct (qt_blocks s !! k) eqn:E; [|done]. apply (td_block _ _ H) in E. lia. Qed.

Lemma edit_row id f s : tidy id s -> (forall q, q_life (f q) = q_life q) -> edit id s (alter_quote id f s).
Proof.
  intros [(q & Hq & Hd) H2 H3 H4] Hf. split.
  - split; try done. intros k Hk. cbn. by rewrite lookup_alter_ne.
  - split; try done. exists (f q). cbn. rewrite lookup_alter_eq, Hq. split; [done|].
    unfold is_qdraft, q_status in *. by rewrite Hf.
Qed.

(** Rows that moved: in place, and outside quote [id] with the same content. *)
Definition line_places (id : nat) (m m' : gmap nat QuoteLine) : Prop :=
  forall k, option_Forall2 (fun l l' => (exists b o n, l' = place_line b o n l) /\ (qn_quoteId l = id \/ content l' = content l)) (m !! k) (m' !! k).
Definition block_moves (id : nat) (m m' : gmap nat QuoteBlock) : Prop :=
  forall k, option_Forall2 (fun b b' => qb_quoteId b' = qb_quoteId b /\ (qb_quoteId b = id \/ b' = b)) (m !! k) (m' !! k).

#[export] Instance line_places_preorder id : PreOrder (line_places id).
Proof.
  split.
  - intros m k. destruct (m !! k) as [l|]; constructor. split; [|by right].
    exists (qn_blockId l), (qn_orgId l), (qn_sortOrder l). by destruct l.
  - intros m1 m2 m3 H1 H2 k. specialize (H1 k). specialize (H2 k).
    destruct H1 as [l l' [(b & o & n & ->) Hc]|]; inversion H2 as [? l'' [(b' & o' & n' & ->) Hc']|]; constructor.
    split; [by eexists _, _, _|]. cbn in Hc'. destruct Hc as [|Hc]; [by left|]. destruct Hc' as [|Hc']; [by left|]. right. by rewrite Hc'.
Qed.

#[export] Instance block_moves_preorder id : PreOrder (block_moves id).
Proof.
  split.
  - intros m k. destruct (m !! k); constructor. auto.
  - intros m1 m2 m3 H1 H2 k. specialize (H1 k). specialize (H2 k).
    destruct H1 as [b b' [E H]|]; inversion H2 as [? b'' [E' H']|]; constructor. rewrite E' , E.
    split; [done|]. destruct H as [| ->]; [by left|]. destruct H' as [| ->]; [by left|]. by right.
Qed.

Lemma edit_lines id s m' :
  tidy id s -> (forall k l, m' !! k = Some l -> (k < qt_nextId s)%nat /\ qn_parentLineId l = None) ->
  (forall k, other_line id (m' !! k) = other_line id (qt_lines s !! k)) -> edit id s (with_qlines (fun _ => m') s).
Proof. intros [H1 H2 H3 H4] Hm Ho. split; by split. Qed.

Lemma edit_places id s m' :
  tidy id s -> line_places id (qt_lines s) m' ->
  edit id s (with_qlines (fun _ => m') s)
  /\ forall i, math_lines i s ≡ₚ math_lines i (with_qlines (fun _ => m') s).
Proof.
  intros Ht Hm. split; [apply edit_lines; [done|..]|].
  - intros k l Hl. specialize (Hm k). rewrite Hl in Hm. inversion Hm as [l0 ? [(b & o & n & ->) _] E0|].
    exact (td_line _ _ Ht k l0 (eq_sym E0)).
  - intros k. destruct (Hm k) as [l l' [(b & o & n & ->) Hc]|]; [|done]. cbn. case_decide; [done|]. f_equal. by destruct Hc.
  - intros i. apply math_lines_perm. intros k. cbn. destruct (Hm k) as [l l' [(b & o & n & ->) _]|]; [|done]. cbn. by case_decide.
Qed.

Lemma edit_blocks id s m' :
  tidy id s -> (forall k b, m' !! k = Some b -> (k < qt_nextId s)%nat) ->
  (forall k, other_block id (m' !! k) = other_block id (qt_blocks s !! k)) -> edit id s (with_blocks (fun _ => m') s).
Proof. intros [H1 H2 H3 H4] Hm Ho. split; by split. Qed.

Lemma edit_moves id s m' :
  tidy id s -> block_moves id (qt_blocks s) m' -> edit id s (with_blocks (fun _ => m') s).
Proof.
  intros Ht Hm. apply edit_blocks; [done|..].
  - intros k b' Hb. specialize (Hm k). rewrite Hb in Hm. inversion Hm as [b ? _ E|]. by eapply (td_block _ _ Ht).
  - intros k. destruct (Hm k) as [b b' [E Hc]|]; [|done]. cbn. rewrite E. case_decide; [done|]. f_equal. by destruct Hc.
Qed.

Lemma edit_new_line id l s :
  tidy id s -> qn_quoteId l = id -> qn_parentLineId l = None -> edit id s (qbump (with_qlines (<[qt_nextId s := l]>) s)).
Proof.
  intros Ht Hl Hp. pose proof Ht as [H1 H2 H3 H4]. split; split; cbn; try done; try lia.
  - intros k. destruct (decide (k = qt_nextId s)) as [->|Hk]; [|by rewrite lookup_insert_ne].
    rewrite lookup_insert_eq, (tidy_lookup_line id) by (done || lia). cbn. by rewrite decide_True.
  - intros k l' [[<- <-]|[_ Hk]]%lookup_insert_Some; [split; [lia|done]|]. apply H3 in Hk as [? ?]. split; [lia|done].
  - intros k b Hb. apply H4 in Hb. lia.
Qed.

Lemma edit_new_block id b s : tidy id s -> qb_quoteId b = id -> edit id s (insert_block b s).1.
Proof.
  intros Ht Hb. pose proof Ht as [H1 H2 H3 H4]. split; split; cbn; try done; try lia.
  - intros k. destruct (decide (k = qt_nextId s)) as [->|Hk]; [|by rewrite lookup_insert_ne].
    rewrite lookup_insert_eq, (tidy_lookup_block id) by (done || lia). cbn. by rewrite decide_True.
  - intros k l Hk. apply H3 in Hk as [? ?]. split; [lia|done].
  - intros k b' [[<- <-]|[_ Hk]]%lookup_insert_Some; [lia|]. apply H4 in Hk. lia.
Qed.

Lemma cascade_none n m : (forall k l, m !! k = Some l -> qn_parentLineId l = None) -> cascade_lines n m = m.
Proof.
  intros H. induction n as [|n IH]; [done|]. cbn. rewrite map_filter_id; [done|]. intros k l Hl. unfold has_parent. cbn.
  by rewrite (H k l Hl).
Qed.

Lemma delete_lines_flat p s :
  (forall k l, qt_lines s !! k = Some l -> qn_parentLineId l = None) ->
  delete_lines p s = with_qlines (filter (fun r => p r = false)) s.
Proof.
  intros H. unfold delete_lines, with_qlines. f_equal. apply cascade_none.
  intros k l [Hl _]%map_lookup_filter_Some. by eapply H.
Qed.

Lemma edit_delete_lines id p s :
  tidy id s -> (forall k l, p (k, l) = true -> qn_quoteId l = id) -> edit id s (delete_lines p s).
Proof.
  intros Ht Hp. rewrite delete_lines_flat by (intros k l Hl; by apply (td_line _ _ Ht) in Hl as [_ ?]).
  apply edit_lines; [done|..].
  - intros k l [Hl _]%map_lookup_filter_Some. by apply (td_line _ _ Ht k).
  - intros k. destruct (qt_lines s !! k) as [l|] eqn:El; [|by rewrite map_lookup_filter, El].
    rewrite map_lookup_filter, El. cbn. case_guard as Hg; cbn; [done|]. apply not_false_is_true, Hp in Hg. by rewrite decide_True.
Qed.

Lemma edit_delete_blocks id p s :
  tidy id s -> (forall k b, p (k, b) = true -> qb_quoteId b = id) -> edit id s (delete_blocks p s).
Proof.
  intros Ht Hp. unfold delete_blocks. set (kept := filter _ _).
  assert (H1 : edit id s (with_blocks (fun _ => kept) s)).
  { apply edit_blocks; [done|..].
    - intros k b [Hb _]%map_lookup_filter_Some. by apply (td_block _ _ Ht k b).
    - intros k. unfold kept. rewrite map_lookup_filter. destruct (qt_blocks s !! k) as [b|] eqn:Eb; [|done]. cbn.
      case_guard as Hg; cbn; [done|]. apply not_false_is_true, Hp in Hg. by rewrite decide_True. }
  eapply edit_trans; [exact H1|]. refine (proj1 (edit_places id _ _ (proj2 H1) _)).
  intros k. cbn. rewrite lookup_fmap. destruct (qt_lines s !! k) as [l|]; constructor.
  assert (Hid : place_line (qn_blockId l) (qn_orgId l) (qn_sortOrder l) l = l) by (by destruct l).
  repeat case_match; (split; [|by right]); eauto.
Qed.

Lemma alter_places id f k m :
  (forall l, m !! k = Some l -> qn_quoteId l = id) -> (forall l, exists b o n, f l = place_line b o n l) -> line_places id m (alter f k m).
Proof.
  intros Hk Hf j. destruct (decide (j = k)) as [->|Hj]; [|rewrite lookup_alter_ne by done; apply (line_places_preorder id)].
  rewrite lookup_alter_eq. destruct (m !! k) as [l|] eqn:E; constructor. split; [apply Hf|]. left. by apply Hk.
Qed.

Lemma alter_moves id f k m :
  (forall b, m !! k = Some b -> qb_quoteId b = id) -> (forall b, qb_quoteId (f b) = qb_quoteId b) -> block_moves id m (alter f k m).
Proof.
  intros Hk Hf j. destruct (decide (j = k)) as [->|Hj]; [|rewrite lookup_alter_ne by done; apply (block_moves_preorder id)].
  rewrite lookup_alter_eq. destruct (m !! k) as [l|] eqn:E; constructor. split; [apply Hf|]. left. by apply Hk.
Qed.

Lemma renumber_places id f ids m :
  (forall k l, k ∈ ids -> m !! k = Some l -> qn_quoteId l = id) -> (forall x l, exists b o n, f x l = place_line b o n l) ->
  line_places id m (renumber f ids m).
Proof.
  intros Hk Hf. unfold renumber.
  assert (Hk' : forall k l, k ∈ (imap pair ids).*2 -> m !! k = Some l -> qn_quoteId l = id).
  { intros k l (r & -> & Hr)%list_elem_of_fmap. apply Hk. apply elem_of_lookup_imap in Hr as (i & x & -> & Hx). by eapply list_elem_of_lookup_2. }
  clear Hk. revert m Hk'. induction (imap pair ids) as [|r rs IH]; intros m Hk; [done|]. cbn [fold_left].
  assert (H1 : line_places id m (alter (f (Z.of_nat r.1)) r.2 m)).
  { apply alter_places; [|done]. intros l. apply Hk. left. }
  etrans; [exact H1|]. apply IH. intros k l Hin Hl. specialize (H1 k). rewrite Hl in H1.
  inversion H1 as [l0 ? [(b & o & n & ->) _] E|]. cbn. eapply (Hk k); [by right|done].
Qed.

Lemma renumber_moves id f ids m :
  (forall k b, k ∈ ids -> m !! k = Some b -> qb_quoteId b = id) -> (forall x b, qb_quoteId (f x b) = qb_quoteId b) ->
  block_moves id m (renumber f ids m).
Proof.
  intros Hk Hf. unfold renumber.
  assert (Hk' : forall k l, k ∈ (imap pair ids).*2 -> m !! k = Some l -> qb_quoteId l = id).
  { intros k l (r & -> & Hr)%list_elem_of_fmap. apply Hk. apply elem_of_lookup_imap in Hr as (i & x & -> & Hx). by eapply list_elem_of_lookup_2. }
  clear Hk. revert m Hk'. induction (imap pair ids) as [|r rs IH]; intros m Hk; [done|]. cbn [fold_left].
  assert (H1 : block_moves id m (alter (f (Z.of_nat r.1)) r.2 m)).
  { apply alter_moves; [|done]. intros l. apply Hk. left. }
  etrans; [exact H1|]. apply IH. intros k l Hin Hl. specialize (H1 k). rewrite Hl in H1.
  inversion H1 as [l0 ? [E0 _] E|]. rewrite E0. eapply (Hk k); [by right|done].
Qed.

(** ** Well-formed tables *)

(** The stored totals are those of the stored lines. *)
Definition money_at (id : nat) (s : QuoteStore) : Prop :=
  forall q, qt_quotes s !! id = Some q -> q_money q = money_of (math_lines id s) (q_head q).

Record quote_wf (s : QuoteStore) : Prop := {
  qw_quote : forall id q, qt_quotes s !! id = Some q -> (id < qt_nextId s)%nat /\ (q_status q = qs_draft -> is_qdraft q);
  qw_money : forall id, money_at id s;
  qw_line : forall k l, qt_lines s !! k = Some l ->
    (k < qt_nextId s)%nat /\ is_Some (qt_quotes s !! qn_quoteId l) /\ qn_parentLineId l = None;
  qw_block : forall k b, qt_blocks s !! k = Some b -> (k < qt_nextId s)%nat /\ is_Some (qt_quotes s !! qb_quoteId b);
}.

Lemma wf_tidy s id q : quote_wf s -> qt_quotes s !! id = Some q -> q_status q = qs_draft -> tidy id s.
Proof.
  intros [H1 _ H2 H3] Hq Hd. apply H1 in Hq as Hi. split; [exists q; split; [done|by apply Hi]|by apply Hi|..].
  - intros k l Hl. by apply H2 in Hl as (? & _ & ?).
  - intros k b Hb. by apply H3 in Hb as (? & _).
Qed.

(** Everything but recipients, documents, orders and counters. *)
Definition same_tables (s s' : QuoteStore) : Prop :=
  qt_quotes s' = qt_quotes s /\ qt_blocks s' = qt_blocks s /\ qt_lines s' = qt_lines s
  /\ qt_acceptances s' = qt_acceptances s /\ (qt_nextId s <= qt_nextId s')%nat.

#[export] Instance same_tables_preorder : PreOrder same_tables.
Proof. unfold same_tables. split; [done|]. intros a b c H1 H2. intuition (congruence || lia). Qed.

Lemma money_other id k s s' : touches id s s' -> k <> id -> money_at k s -> money_at k s'.
Proof.
  intros Ht Hk Hm q Hq. rewrite (to_quotes _ _ _ Ht k Hk) in Hq. rewrite (Hm q Hq). symmetry. apply money_of_perm; [|done].
  apply math_lines_perm. intros j. apply (math_view_other id k); [done|]. apply (to_lines _ _ _ Ht).
Qed.

Lemma other_line_inv id o l' : other_line id o = Some l' -> exists l, o = Some l /\ qn_quoteId l <> id /\ content l = l'.
Proof. unfold other_line. destruct o as [l|]; cbn; [|done]. case_decide; [done|]. intros [= <-]. by exists l. Qed.

Lemma touches_line id s s' k l' :
  touches id s s' -> qt_lines s' !! k = Some l' -> qn_quoteId l' <> id ->
  exists l, qt_lines s !! k = Some l /\ content l = content l'.
Proof.
  intros Ht Hl Hne. pose proof (to_lines _ _ _ Ht k) as H. rewrite Hl in H. cbn in H. rewrite decide_False in H by done.
  symmetry in H. apply other_line_inv in H as (l & Hl0 & _ & E). by exists l.
Qed.

Lemma touches_block id s s' k b : touches id s s' -> qt_blocks s' !! k = Some b -> qb_quoteId b <> id -> qt_blocks s !! k = Some b.
Proof.
  intros Ht Hb Hne. pose proof (to_blocks _ _ _ Ht k) as H. rewrite Hb in H. cbn in H. rewrite decide_False in H by done.
  destruct (qt_blocks s !! k) as [b0|]; cbn in H; [|done]. case_decide; congruence.
Qed.

(** The tables after a call on quote [id] are well formed when its own rows are. *)
Lemma wf_touches id s s' :
  quote_wf s -> touches id s s' -> money_at id s' ->
  (forall q, qt_quotes s' !! id = Some q -> (id < qt_nextId s')%nat /\ (q_status q = qs_draft -> is_qdraft q)) ->
  (forall k l, qt_lines s' !! k = Some l -> qn_quoteId l = id ->
     (k < qt_nextId s')%nat /\ is_Some (qt_quotes s' !! id) /\ qn_parentLineId l = None) ->
  (forall k b, qt_blocks s' !! k = Some b -> qb_quoteId b = id -> (k < qt_nextId s')%nat /\ is_Some (qt_quotes s' !! id)) ->
  quote_wf s'.
Proof.
  intros [W1 W2 W3 W4] Ht Hm Hq Hl Hb. pose proof (to_next _ _ _ Ht) as Hn. split.
  - intros k q Hk. destruct (decide (k = id)) as [->|Hne]; [by eapply Hq|]. rewrite (to_quotes _ _ _ Ht k Hne) in Hk.
    apply W1 in Hk as [? ?]. split; [lia|done].
  - intros k. destruct (decide (k = id)) as [->|Hne]; [done|]. by eapply money_other.
  - intros k l Hk. destruct (decide (qn_quoteId l = id)) as [E|Hne]; [rewrite E; by apply (Hl k l)|].
    destruct (touches_line _ _ _ _ _ Ht Hk Hne) as (l0 & Hl0 & E). apply W3 in Hl0 as (A & B & C).
    assert (E1 : qn_quoteId l0 = qn_quoteId l) by exact (f_equal qn_quoteId E).
    assert (E2 : qn_parentLineId l0 = qn_parentLineId l) by exact (f_equal qn_parentLineId E).
    rewrite <- E2, (to_quotes _ _ _ Ht) by done. rewrite <- E1. split_and!; [lia|done|done].
  - intros k b Hk. destruct (decide (qb_quoteId b = id)) as [E|Hne]; [rewrite E; by apply (Hb k b)|].
    rewrite (to_quotes _ _ _ Ht) by done. pose proof (touches_block _ _ _ _ _ Ht Hk Hne) as [? ?]%W4. split; [lia|done].
Qed.

Lemma wf_edit id s s' : quote_wf s -> edit id s s' -> money_at id s' -> quote_wf s'.
Proof.
  intros Hw [Ht [(q & Hq & Hd) H2 H3 H4]] Hm. apply (wf_touches id s); try done.
  - intros q' Hq'. by simplify_eq.
  - intros k l Hl _. apply H3 in Hl as [? ?]. by rewrite Hq.
  - intros k b Hb _. apply H4 in Hb. by rewrite Hq.
Qed.

Lemma wf_tables s s' :
  quote_wf s -> qt_quotes s' = qt_quotes s -> qt_blocks s' = qt_blocks s -> qt_lines s' = qt_lines s ->
  (qt_nextId s <= qt_nextId s')%nat -> quote_wf s'.
Proof.
  intros [W1 W2 W3 W4] E1 E2 E3 E5. split; unfold money_at, math_lines, qlines_of; rewrite ?E1, ?E2, ?E3.
  - intros k q Hk. apply W1 in Hk as [? ?]. split; [lia|done].
  - exact W2.
  - intros k l Hl. apply W3 in Hl as (? & ? & ?). split_and!; [lia|done|done].
  - intros k b Hb. apply W4 in Hb as (? & ?). split; [lia|done].
Qed.

Lemma quote_wf_alter id q f s :
  quote_wf s -> qt_quotes s !! id = Some q -> q_money (f q) = q_money q -> same_terms (q_head q) (q_head (f q)) ->
  (q_status (f q) = qs_draft -> is_qdraft (f q)) -> quote_wf (alter_quote id f s).
Proof.
  intros Hw Hq Em Eh Hd. apply (wf_touches id s); cbn; try done.
  - split; try done. intros k Hk. cbn. by rewrite lookup_alter_ne.
  - intros q' Hq'. cbn in Hq'. rewrite lookup_alter_eq, Hq in Hq'. injection Hq' as <-. rewrite Em, (qw_money _ Hw _ _ Hq).
    symmetry. by apply money_of_perm.
  - rewrite lookup_alter_eq, Hq. intros q' [= <-]. split; [by apply (qw_quote _ Hw id q)|done].
  - intros k l Hk <-. rewrite lookup_alter_eq, Hq. apply (qw_line _ Hw) in Hk as (? & _ & ?). by split_and!.
  - intros k b Hk <-. rewrite lookup_alter_eq, Hq. apply (qw_block _ Hw) in Hk as (? & _). by split_and!.
Qed.

(** ** Changes *)

(** A change of a row that is no edit: the money and what it is computed from stay; once
    sent, the head too. *)
Definition keeps (q q' : Quote) : Prop :=
  q_partnerId q' = q_partnerId q /\ q_currencyCode q' = q_currencyCode q /\ q_money q' = q_money q
  /\ same_terms (q_head q) (q_head q') /\ (q_status q <> qs_draft -> q_head q' = q_head q /\ q_status q' <> qs_draft)
  /\ qf_convertedInvoiceId (q_life q') = qf_convertedInvoiceId (q_life q).

(** [moves] are the status changes a row may make by itself. *)
Inductive qchange (moves : QuoteStatus -> QuoteStatus -> Prop) (s : QuoteStore) : QuoteStore -> Prop :=
| qc_tables s' : same_tables s s' -> qchange moves s s'
| qc_edit id s' : id = qt_nextId s \/ tidy id s -> edit id s s' -> money_at id s' -> qchange moves s s'
| qc_drop id s' : tidy id s -> touches id s s' -> qt_quotes s' !! id = None ->
    (forall k l, qt_lines s' !! k = Some l -> qn_quoteId l <> id) ->
    (forall k b, qt_blocks s' !! k = Some b -> qb_quoteId b <> id) -> qchange moves s s'
| qc_row id q f : qt_quotes s !! id = Some q -> keeps q (f q) -> moves (q_status q) (q_status (f q)) ->
    qchange moves s (alter_quote id f s).

(** Quote [id] accepted and converted to invoice [inv]. *)
Record accepts (id inv : nat) (s s' : QuoteStore) : Prop := {
  ax_row : exists q p now, qt_quotes s !! id = Some q /\ open_for_response (q_status q) = true
    /\ qt_quotes s' = <[id := converted p inv now q]> (qt_quotes s);
  ax_blocks : qt_blocks s' = qt_blocks s;
  ax_lines : qt_lines s' = qt_lines s;
  ax_accept : exists row, qa_quoteId row = id /\ qt_acceptances s' = <[qt_nextId s := row]> (qt_acceptances s);
  ax_next : (qt_nextId s < qt_nextId s')%nat;
}.

Lemma wf_qchange moves s s' : quote_wf s -> qchange moves s s' -> quote_wf s'.
Proof.
  intros Hw H. destruct H as [s' (E1 & E2 & E3 & _ & E4)|id s' _ He Hm|id s' Ht Hto Hq Hl Hb|id q f Hq (_ & _ & ? & ? & Hd & Hc) _].
  - by eapply wf_tables.
  - by eapply wf_edit.
  - apply (wf_touches id s); try done.
    + intros q Hq'. congruence.
    + congruence.
    + intros k l Hk E. by destruct (Hl k l Hk).
    + intros k b Hk E. by destruct (Hb k b Hk).
  - eapply quote_wf_alter; try done. intros E. unfold is_qdraft. rewrite Hc. split; [done|].
    apply (qw_quote _ Hw id q Hq). destruct (decide (q_status q = qs_draft)) as [|Hn]; [done|]. by destruct (Hd Hn).
Qed.

Lemma converted_row p inv now q :
  q_partnerId (converted p inv now q) = q_partnerId q /\ q_currencyCode (converted p inv now q) = q_currencyCode q
  /\ q_money (converted p inv now q) = q_money q /\ q_head (converted p inv now q) = q_head q
  /\ q_status (converted p inv now q) = qs_converted /\ qf_convertedInvoiceId (q_life (converted p inv now q)) = Some inv.
Proof. unfold converted. by repeat case_match. Qed.

Lemma wf_accepts id inv s s' : quote_wf s -> accepts id inv s s' -> quote_wf s'.
Proof.
  intros Hw [(q & p & now & Hq & _ & E1) E2 E3 _ E4]. destruct (converted_row p inv now q) as (_ & _ & C1 & C2 & C3 & _).
  apply (wf_tables (alter_quote id (converted p inv now) s)); cbn; try done; [|by rewrite E1, (alter_present _ _ _ q)|lia].
  apply (quote_wf_alter id q); [done|done|done|by rewrite C2|by rewrite C3].
Qed.

(** ** Steps *)

(** The view stamps and the declines read a row and write it later: [late read now] says
    which rows they may have read when the row is [now]. [overlapping] allows every row an
    earlier state of the run can have had, and more: what holds of all its runs holds of the
    runs of the code. *)
Definition in_order (read now : Quote) : Prop := read = now.
Definition overlapping (read now : Quote) : Prop := q_status read <> qs_draft -> q_status now <> qs_draft.

(** The calls of the quote services, the send queue and the reaper; acceptance apart. *)
Inductive quote_step (late : Quote -> Quote -> Prop) (s : QuoteStore) : QuoteStore -> Prop :=
| do_createQuote env i actor s' id : createQuote env i actor s = Ok (s', id) -> quote_step late s s'
| do_cloneQuote env src actor i s' id : cloneQuote env src actor i s = Ok (s', id) -> quote_step late s s'
| do_updateQuote env id i actor s' : updateQuote env id i actor s = Ok s' -> quote_step late s s'
| do_deleteDraftQuote id actor s' : deleteDraftQuote id actor s = Ok s' -> quote_step late s s'
| do_addBlock env id c actor s' k : addBlock env id c actor s = Ok (s', k) -> quote_step late s s'
| do_updateBlock env id k c actor s' : updateBlock env id k c actor s = Ok s' -> quote_step late s s'
| do_deleteBlock id k actor s' : deleteBlock id k actor s = Ok s' -> quote_step late s s'
| do_addQuoteManualLine id i actor s' k : addQuoteManualLine id i actor s = Ok (s', k) -> quote_step late s s'
| do_addQuoteCatalogLine env id item n b part actor s' k :
    addQuoteCatalogLine env id item n b part actor s = Ok (s', k) -> quote_step late s s'
| do_updateQuoteLine id k i actor s' : updateQuoteLine id k i actor s = Ok s' -> quote_step late s s'
| do_removeQuoteLine id k actor s' : removeQuoteLine id k actor s = Ok s' -> quote_step late s s'
| do_reorderBlocks id ids actor s' : reorderBlocks id ids actor s = Ok s' -> quote_step late s s'
| do_reorderLines id b ids actor s' : reorderLines id b ids actor s = Ok s' -> quote_step late s s'
| do_moveLineToBlock id k b actor s' : moveLineToBlock id k b actor s = Ok s' -> quote_step late s s'
| do_sendQuote env id actor to_ s' : sendQuote env id actor to_ s = Ok s' -> quote_step late s s'
| do_scheduleQuoteSend env id actor job ms enq s' : scheduleQuoteSend env id actor job ms enq s = Ok s' -> quote_step late s s'
| do_cancelQuoteSend env id actor s' won : cancelQuoteSend env id actor s = Ok (s', won) -> quote_step late s s'
| do_processQuoteSendJob env id job actor to_ mailed : quote_step late s (processQuoteSendJob env id job actor to_ mailed s)
| do_view env id orgId s0 read now : view_read id orgId s0 = Some read -> qt_quotes s !! id = Some now -> late read now ->
    quote_step late s (alter_quote id (view_write (qe_now env) read) s)
| do_decline env id reason actor s0 read now : decline_read env id actor s0 = Ok read -> qt_quotes s !! id = Some now ->
    late read now -> quote_step late s (alter_quote id (decline_write (qe_now env) reason) s)
| do_public_decline env claims reason s' : public_decline env claims reason s = Ok s' -> quote_step late s s'
| do_expireQuotes env : quote_step late s (expireQuotes env s).1.

(** Status changes that fit a choice of [late]. *)
Class Lifecycle (late : Quote -> Quote -> Prop) (moves : QuoteStatus -> QuoteStatus -> Prop) : Prop := {
  lc_refl st : moves st st;
  lc_send : moves qs_draft qs_sent;
  lc_view read now : late read now -> q_status read = qs_sent -> moves (q_status now) qs_viewed;
  lc_decline read now : late read now -> open_for_response (q_status read) = true -> moves (q_status now) qs_declined;
  lc_close st : open_for_response st = true -> moves st qs_declined /\ moves st qs_expired;
}.

(** The life cycle of a quote, acceptance apart. *)
Inductive quote_moves : QuoteStatus -> QuoteStatus -> Prop :=
| qm_stay st : quote_moves st st
| qm_send : quote_moves qs_draft qs_sent
| qm_view : quote_moves qs_sent qs_viewed
| qm_decline st : open_for_response st = true -> quote_moves st qs_declined
| qm_expire st : open_for_response st = true -> quote_moves st qs_expired.

#[export] Instance in_order_lifecycle : Lifecycle in_order quote_moves.
Proof.
  split; try by constructor.
  - intros read now -> ->. constructor.
  - intros read now ->. by constructor.
  - intros st H. by split; constructor.
Qed.

(** With overlapping calls: a row never becomes a draft again. *)
Definition late_moves (st st' : QuoteStatus) : Prop := st' = qs_draft -> st = qs_draft.

#[export] Instance overlapping_lifecycle : Lifecycle overlapping late_moves.
Proof. by split; unfold late_moves. Qed.

(** ** Every call is made of changes *)

Section calls.

Context (late : Quote -> Quote -> Prop) (moves : QuoteStatus -> QuoteStatus -> Prop) `{!Lifecycle late moves}.
Abbreviation qchanges := (rtc (qchange moves)).

Lemma loadDraft_tidy id actor s q : quote_wf s -> loadDraft id actor s = Ok q -> qt_quotes s !! id = Some q /\ tidy id s.
Proof.
  intros Hw H. unfold loadDraft, getOwnedQuote in H. destruct (qt_quotes s !! id) eqn:E; [|done]. cbn [rbind] in H.
  result_ok H. bool_hyps. simplify_eq. split; [done|]. by eapply wf_tidy.
Qed.

Lemma edit_recompute id s : tidy id s -> edit id s (recomputeAndPersist id s).
Proof. intros H. unfold recomputeAndPersist. destruct (qt_quotes s !! id); [by apply edit_row|by split]. Qed.

Lemma money_recompute id s : money_at id (recomputeAndPersist id s).
Proof.
  intros q Hq. unfold recomputeAndPersist in *. destruct (qt_quotes s !! id) as [q0|] eqn:E; [|congruence].
  cbn in Hq. rewrite lookup_alter_eq, E in Hq. by injection Hq as <-.
Qed.

Lemma edited id s s1 : tidy id s -> edit id s s1 -> qchanges s (recomputeAndPersist id s1).
Proof.
  intros Ht He. apply rtc_once, (qc_edit _ _ id); [by right| |apply money_recompute].
  eapply edit_trans; [exact He|]. apply edit_recompute, He.
Qed.

(** An edit that leaves the row and the figures of its lines. *)
Lemma arranged id s s1 :
  quote_wf s -> tidy id s -> edit id s s1 -> qt_quotes s1 = qt_quotes s -> math_lines id s ≡ₚ math_lines id s1 -> qchanges s s1.
Proof.
  intros Hw Ht He Eq Em. apply rtc_once, (qc_edit _ _ id); [by right|done|]. intros q Hq. rewrite Eq in Hq.
  rewrite (qw_money _ Hw id q Hq). symmetry. by apply money_of_perm.
Qed.

Lemma quote_block_spec id k s b : quote_block id k s = Ok b -> qt_blocks s !! k = Some b /\ qb_quoteId b = id.
Proof. unfold quote_block. intros H. repeat case_match; simplify_eq. by bool_hyps. Qed.

Lemma quote_line_spec id k s l : quote_line id k s = Ok l -> qt_lines s !! k = Some l /\ qn_quoteId l = id.
Proof. unfold quote_line. intros H. repeat case_match; simplify_eq. by bool_hyps. Qed.

Lemma resolve_block id orgId b s s1 k :
  tidy id s -> resolveLineBlockId id orgId b s = (s1, k) -> edit id s s1.
Proof.
  intros Ht H. unfold resolveLineBlockId in H. repeat case_match; simplify_eq; try by split.
  change s1 with (s1, k).1. rewrite <- H. by apply edit_new_block.
Qed.

Lemma insert_qline_edit id l s s' k :
  tidy id s -> qn_quoteId l = id -> qn_parentLineId l = None -> insert_qline l s = Ok (s', k) -> edit id s s'.
Proof. intros Ht Hl Hp H. unfold insert_qline in H. result_ok H. simplify_eq. by apply edit_new_line. Qed.

Lemma line_added id orgId b mk s s1 blk r :
  tidy id s -> resolveLineBlockId id orgId b s = (s1, blk) -> qn_quoteId mk = id -> qn_parentLineId mk = None ->
  insert_qline mk s1 = Ok r -> qchanges s (recomputeAndPersist id r.1).
Proof.
  intros Ht Hb Hl Hp Hi. pose proof (resolve_block _ _ _ _ _ _ Ht Hb) as He. destruct r as [s2 k]. apply edited; [done|].
  eapply edit_trans; [exact He|]. eapply insert_qline_edit; [apply He|done..].
Qed.

Lemma edit_move_org id orgId s : tidy id s -> edit id s (move_org id orgId s).
Proof.
  intros Ht. destruct (edit_places id s ((fun l => if bool_decide (qn_quoteId l = id) then place_line (qn_blockId l) orgId (qn_sortOrder l) l
                                            else l) <$> qt_lines s)) as [H2 _]; [done|..].
  { intros k. rewrite lookup_fmap. destruct (qt_lines s !! k) as [l|]; constructor. case_bool_decide; [eauto 10|].
    split; [|by right]. exists (qn_blockId l), (qn_orgId l), (qn_sortOrder l). by destruct l. }
  eapply edit_trans; [exact H2|]. apply edit_moves; [apply H2|].
  intros k. rewrite lookup_fmap. destruct (_ !! k) as [b|]; constructor. case_bool_decide; auto.
Qed.

Lemma updateQuote_changes env id i actor s s' : quote_wf s -> updateQuote env id i actor s = Ok s' -> qchanges s s'.
Proof.
  intros Hw H. unfold updateQuote in H. apply rbind_Ok in H as (q & Hq & H). apply (loadDraft_tidy _ _ _ _ Hw) in Hq as [Hq Ht].
  do 4 apply rbind_Ok in H as (? & _ & H). simplify_eq. apply edited; [done|].
  assert (H1 : forall h, edit id s (alter_quote id (set_head h) s)) by (intros h; by apply edit_row). destruct (negb _); [|done].
  eapply edit_trans; [apply H1|]. apply edit_move_org, H1.
Qed.

Lemma deleteDraft_drops id actor s s' : quote_wf s -> deleteDraftQuote id actor s = Ok s' -> qchanges s s'.
Proof.
  intros Hw H. unfold deleteDraftQuote in H. apply rbind_Ok in H as (q & Hq & H). simplify_eq.
  apply (loadDraft_tidy _ _ _ _ Hw) in Hq as [Hq Ht].
  assert (H1 : edit id s (delete_lines (fun r => bool_decide (qn_quoteId r.2 = id)) s)).
  { apply edit_delete_lines; [done|]. intros k l Hl. by bool_hyps. }
  pose proof H1 as [_ Ht1]. pose proof (delete_lines_flat (fun r => bool_decide (qn_quoteId r.2 = id)) s) as Hf.
  apply (f_equal qt_lines) in Hf. 2:{ intros j x Hx. by apply (td_line _ _ Ht) in Hx as [_ ?]. }
  set (s1 := delete_lines _ _) in *. clearbody s1.
  assert (H2 : edit id s1 (delete_blocks (fun r => bool_decide (qb_quoteId r.2 = id)) s1)).
  { apply edit_delete_blocks; [done|]. intros k l Hl. by bool_hyps. }
  pose proof (edit_trans _ _ _ _ H1 H2) as [[A B C D E] _]. apply rtc_once, (qc_drop _ _ id); [done|..].
  - split; try done. intros k Hk. cbn. rewrite lookup_delete_ne by done. by apply A.
  - cbn. by rewrite lookup_delete_eq.
  - intros k l Hl. cbn in Hl. rewrite lookup_fmap, Hf in Hl. cbn in Hl. rewrite map_lookup_filter in Hl. destruct (qt_lines s !! k) as [l0|]; cbn in Hl; [|done].
    case_guard as Hg; cbn in Hl; [|done]. bool_hyps. repeat case_match; by simplify_eq.
  - intros k b Hb. cbn in Hb. apply map_lookup_filter_Some in Hb as [_ Hb]. cbn in Hb. by bool_hyps.
Qed.

Lemma addBlock_changes env id c actor s s' k : quote_wf s -> addBlock env id c actor s = Ok (s', k) -> qchanges s s'.
Proof.
  intros Hw H. unfold addBlock in H. apply rbind_Ok in H as (q & Hq & H). apply (loadDraft_tidy _ _ _ _ Hw) in Hq as [Hq Ht].
  result_ok H. injection H as <- _. by apply (arranged id); [..|apply edit_new_block| |].
Qed.

Lemma updateBlock_changes env id k c actor s s' : quote_wf s -> updateBlock env id k c actor s = Ok s' -> qchanges s s'.
Proof.
  intros Hw H. unfold updateBlock in H. apply rbind_Ok in H as (q & Hq & H). apply (loadDraft_tidy _ _ _ _ Hw) in Hq as [Hq Ht].
  apply rbind_Ok in H as (b & Hb%quote_block_spec & H). result_ok H. simplify_eq. apply (arranged id); try done.
  apply edit_moves; [done|]. apply alter_moves; [|done]. intros b' Hb'. by destruct Hb; simplify_eq.
Qed.

Lemma deleteBlock_changes id k actor s s' : quote_wf s -> deleteBlock id k actor s = Ok s' -> qchanges s s'.
Proof.
  intros Hw H. unfold deleteBlock in H. apply rbind_Ok in H as (q & Hq & H). apply (loadDraft_tidy _ _ _ _ Hw) in Hq as [Hq Ht].
  simplify_eq.
  assert (H1 : edit id s (delete_lines (fun r => bool_decide (qn_quoteId r.2 = id) && bool_decide (qn_blockId r.2 = Some k)) s)).
  { apply edit_delete_lines; [done|]. intros j l Hl. by bool_hyps. }
  apply edited; [done|]. eapply edit_trans; [exact H1|]. apply edit_delete_blocks; [apply H1|]. intros j b Hb. by bool_hyps.
Qed.

Lemma manual_line_changes id i actor s s' k : quote_wf s -> addQuoteManualLine id i actor s = Ok (s', k) -> qchanges s s'.
Proof.
  intros Hw H. unfold addQuoteManualLine in H. apply rbind_Ok in H as (q & Hq & H). apply (loadDraft_tidy _ _ _ _ Hw) in Hq as [Hq Ht].
  destruct (resolveLineBlockId _ _ _ _) as [s1 b] eqn:Eb. apply rbind_Ok in H as (r & Hr & H). simplify_eq. by eapply line_added; [exact Ht|exact Eb|..|exact Hr].
Qed.

Lemma catalog_line_changes env id item n b part actor s s' k :
  quote_wf s -> addQuoteCatalogLine env id item n b part actor s = Ok (s', k) -> qchanges s s'.
Proof.
  intros Hw H. unfold addQuoteCatalogLine in H. apply rbind_Ok in H as (q & Hq & H). apply (loadDraft_tidy _ _ _ _ Hw) in Hq as [Hq Ht].
  destruct (be_items _ !! item); [|done]. apply rbind_Ok in H as (? & _ & H).
  destruct (resolveLineBlockId _ _ _ _) as [s1 blk] eqn:Eb. apply rbind_Ok in H as (r & Hr & H). simplify_eq. by eapply line_added; [exact Ht|exact Eb|..|exact Hr].
Qed.

Lemma updateQuoteLine_changes id k i actor s s' : quote_wf s -> updateQuoteLine id k i actor s = Ok s' -> qchanges s s'.
Proof.
  intros Hw H. unfold updateQuoteLine in H. apply rbind_Ok in H as (q & Hq & H). apply (loadDraft_tidy _ _ _ _ Hw) in Hq as [Hq Ht].
  apply rbind_Ok in H as (l & [Hl El]%quote_line_spec & H). simplify_eq. apply edited; [done|]. apply edit_lines; [done|..].
  - intros j l' Hj. apply lookup_alter_Some in Hj as [(_ & l0 & Hl0 & ->)|[_ Hj]]; [exact (td_line _ _ Ht _ l0 Hl0)|exact (td_line _ _ Ht _ _ Hj)].
  - intros j. destruct (decide (j = k)) as [->|Hj]; [|by rewrite lookup_alter_ne]. rewrite lookup_alter_eq, Hl. cbn. by rewrite !decide_True.
Qed.

Lemma removeQuoteLine_changes id k actor s s' : quote_wf s -> removeQuoteLine id k actor s = Ok s' -> qchanges s s'.
Proof.
  intros Hw H. unfold removeQuoteLine in H. apply rbind_Ok in H as (q & Hq & H). apply (loadDraft_tidy _ _ _ _ Hw) in Hq as [Hq Ht].
  simplify_eq. apply edited; [done|]. apply edit_delete_lines; [done|]. intros j l Hl. by bool_hyps.
Qed.

Lemma qlines_of_lookup id s k l : k ∈ (qlines_of id s).*1 -> qt_lines s !! k = Some l -> qn_quoteId l = id.
Proof.
  intros ([k' l'] & -> & [H1%elem_of_map_to_list H2]%list_filter_elem)%list_elem_of_fmap Hl.
  cbn in *. bool_hyps. congruence.
Qed.

Lemma same_ids_elem given existing k : same_ids given existing = true -> k ∈ given -> k ∈ existing.
Proof.
  unfold same_ids. intros [_ H]%andb_true_iff Hk. rewrite forallb_forall in H. specialize (H k). apply list_elem_of_In in Hk.
  specialize (H Hk). by bool_hyps.
Qed.

Lemma reorderBlocks_changes id ids actor s s' : quote_wf s -> reorderBlocks id ids actor s = Ok s' -> qchanges s s'.
Proof.
  intros Hw H. unfold reorderBlocks in H. apply rbind_Ok in H as (q & Hq & H). apply (loadDraft_tidy _ _ _ _ Hw) in Hq as [Hq Ht].
  result_ok H. simplify_eq. apply (arranged id); try done. apply edit_moves; [done|]. apply renumber_moves; [|done].
  intros k x Hk Hx. eapply same_ids_elem in Hk; [|done].
  apply list_elem_of_fmap in Hk as ([k' x'] & -> & [H1%elem_of_map_to_list H2]%list_filter_elem). cbn in *. bool_hyps. congruence.
Qed.

Lemma reorderLines_changes id b ids actor s s' : quote_wf s -> reorderLines id b ids actor s = Ok s' -> qchanges s s'.
Proof.
  intros Hw H. unfold reorderLines in H. apply rbind_Ok in H as (q & Hq & H). apply (loadDraft_tidy _ _ _ _ Hw) in Hq as [Hq Ht].
  result_ok H. simplify_eq.
  destruct (edit_places id s (renumber set_line_sort ids (qt_lines s))) as [H1 H2]; [done| |by apply (arranged id)].
  apply renumber_places; [|intros x l; by eexists _, _, _]. intros k l Hk. eapply same_ids_elem in Hk; [|done].
  apply filter_fst_sub in Hk. by apply (qlines_of_lookup id s).
Qed.

Lemma move_changes id k b actor s s' : quote_wf s -> moveLineToBlock id k b actor s = Ok s' -> qchanges s s'.
Proof.
  intros Hw H. unfold moveLineToBlock in H. apply rbind_Ok in H as (q & Hq & H). apply (loadDraft_tidy _ _ _ _ Hw) in Hq as [Hq Ht].
  apply rbind_Ok in H as (l & [Hl El]%quote_line_spec & H). result_ok H. case_bool_decide; simplify_eq; [done|].
  set (base := next_sort _). set (put := fun x l0 => place_line (Some b) (qn_orgId l0) (base + x) l0). set (ch := (merge_sort _ _).*1).
  assert (H1 : line_places (qn_quoteId l) (qt_lines s) (alter (put 0) k (qt_lines s))).
  { apply alter_places; [|intros x; by eexists _, _, _]. intros l' Hl'. by simplify_eq. }
  destruct (edit_places (qn_quoteId l) s (renumber (fun x => put (1 + x)) ch (alter (put 0) k (qt_lines s)))) as [H2 H3];
    [done| |by eapply (arranged (qn_quoteId l)); [done|done|exact H2|done|apply H3]].
  etrans; [exact H1|]. apply renumber_places; [|intros x l'; by eexists _, _, _].
  intros j l' Hj Hl'. specialize (H1 j). rewrite Hl' in H1. inversion H1 as [l0 ? [(? & ? & ? & ->) _] E|]. cbn.
  apply (qlines_of_lookup _ s j); [|done]. unfold ch in Hj. rewrite merge_sort_Permutation in Hj. by apply filter_fst_sub in Hj.
Qed.

(** *** New quotes *)

Lemma new_number_tables env p s : same_tables s (new_number env p s).1.
Proof. by unfold new_number. Qed.

Lemma no_lines id s : quote_wf s -> qt_quotes s !! id = None -> qlines_of id s = [].
Proof.
  intros Hw Hq. unfold qlines_of. apply filter_none. intros [k l] Hl%elem_of_map_to_list. cbn.
  apply bool_decide_eq_false. intros <-. apply (qw_line _ Hw) in Hl as (_ & [? ?] & _). congruence.
Qed.

Lemma fresh_quote s : quote_wf s -> qt_quotes s !! qt_nextId s = None.
Proof. intros Hw. destruct (qt_quotes s !! qt_nextId s) eqn:E; [|done]. apply (qw_quote _ Hw) in E as [? _]. lia. Qed.

Lemma money_of_none h : qh_depositType h = "none"%string -> money_of [] h = zero_quote_money.
Proof.
  intros E. unfold money_of, deposit_of. rewrite E. destruct (qh_taxRate h) as [r|]; [|by vm_compute].
  cbn -[Number]. by destruct (Number r).
Qed.

Lemma createQuote_changes env i actor s s' id : quote_wf s -> createQuote env i actor s = Ok (s', id) -> qchanges s s'.
Proof.
  intros Hw H. unfold createQuote in H. do 3 apply rbind_Ok in H as (? & _ & H).
  pose proof (new_number_tables env x s) as Hn. destruct (new_number env x s) as [s1 n] eqn:En. cbn in Hn.
  eapply rtc_l; [by apply qc_tables|]. pose proof Hn as (E1 & E2 & E3 & _ & E4).
  assert (Hw1 : quote_wf s1) by by eapply wf_tables. clear Hw Hn E1 E2 E3 E4 En. injection H as <- <-.
  apply rtc_once, (qc_edit _ _ (qt_nextId s1)); [by left|split|].
  - split; try done; cbn; [|lia]. intros k Hk. by rewrite lookup_insert_ne.
  - split; cbn; [|lia|..].
    + rewrite lookup_insert_eq. by eexists.
    + intros k l Hl. apply (qw_line _ Hw1) in Hl as (? & _ & ?). split; [lia|done].
    + intros k b Hb. apply (qw_block _ Hw1) in Hb as (? & _). lia.
  - intros q Hq. cbn in Hq. rewrite lookup_insert_eq in Hq. injection Hq as <-. symmetry.
    change (math_lines _ _) with (math_lines (qt_nextId s1) s1). unfold math_lines.
    rewrite no_lines by (done || by apply fresh_quote). by apply money_of_none.
Qed.

(** *** Copies *)

Lemma getQuote_spec env id actor s r :
  getQuote env id actor s = Ok r -> qt_quotes s !! id = Some (rd_quote r) /\ rd_lines r = sorted_lines id s
  /\ length (rd_blocks r) = length (sorted_blocks id s).
Proof.
  unfold getQuote, getOwnedQuote. intros H. destruct (qt_quotes s !! id) eqn:E; [|done]. cbn [rbind] in H. result_ok H. simplify_eq.
  cbn. by rewrite length_fmap.
Qed.

Lemma clone_lines_math quoteId orgId bi li fb (rows : list (nat * QuoteLine)) :
  map math_line (clone_qline quoteId orgId bi li fb <$> rows.*2) = map (fun r => math_line r.2) rows.
Proof. rewrite <- list_fmap_compose. change (map math_line) with (fmap (M:=list) math_line). by rewrite <- list_fmap_compose. Qed.

(** The tables after a copy. *)
Lemma copied id q bs from ls s s' :
  quote_wf s -> id = qt_nextId s -> qt_quotes s' = <[id := q]> (qt_quotes s) -> qt_blocks s' = insert_rows (S id) bs (qt_blocks s) ->
  qt_lines s' = insert_rows from ls (qt_lines s) -> qt_acceptances s' = qt_acceptances s ->
  (S id <= from)%nat -> (S id + length bs <= qt_nextId s')%nat -> (from + length ls <= qt_nextId s')%nat ->
  is_qdraft q -> Forall (fun b => qb_quoteId b = id) bs ->
  Forall (fun l => qn_quoteId l = id /\ qn_parentLineId l = None) ls -> q_money q = money_of (map math_line ls) (q_head q) ->
  qchanges s s'.
Proof.
  intros Hw Hid Eq Eb El Ea Hn0 Hn1 Hn2 Hd Hbs Hls Hm. rewrite Forall_forall in Hbs. rewrite Forall_forall in Hls.
  apply rtc_once, (qc_edit _ _ id); [by left|split; split|].
  - intros k Hk. by rewrite Eq, lookup_insert_ne.
  - intros k. rewrite Eb, insert_rows_lookup. case_decide as Hk; [|done].
    destruct (bs !! (k - S id)%nat) as [b|] eqn:Hb; [|apply lookup_ge_None in Hb; lia].
    cbn. rewrite decide_True by (by eapply Hbs, list_elem_of_lookup_2). destruct (qt_blocks s !! k) as [b0|] eqn:E; [|done].
    apply (qw_block _ Hw) in E as [? _]. lia.
  - intros k. rewrite El, insert_rows_lookup. case_decide as Hk; [|done].
    destruct (ls !! _) as [l|] eqn:Hl; [|apply lookup_ge_None in Hl; lia].
    cbn. rewrite decide_True by (by eapply Hls, list_elem_of_lookup_2). destruct (qt_lines s !! k) as [l0|] eqn:E; [|done].
    apply (qw_line _ Hw) in E as [? _]. lia.
  - lia.
  - done.
  - exists q. by rewrite Eq, lookup_insert_eq.
  - lia.
  - intros k l Hl. rewrite El, insert_rows_lookup in Hl. case_decide as Hk.
    + split; [lia|]. by eapply Hls, list_elem_of_lookup_2.
    + apply (qw_line _ Hw) in Hl as (? & _ & ?). split; [lia|done].
  - intros k b Hb. rewrite Eb, insert_rows_lookup in Hb. case_decide as Hk; [lia|]. apply (qw_block _ Hw) in Hb as [? _]. lia.
  - intros q' Hq'. rewrite Eq, lookup_insert_eq in Hq'. injection Hq' as <-. rewrite Hm. symmetry. apply money_of_perm; [|done].
    unfold math_lines, qlines_of. rewrite El. symmetry.
    etrans; [|apply (fmap_Permutation math_line), (inserted_rows (fun l => bool_decide (qn_quoteId l = id)) from ls (qt_lines s))].
    + by rewrite <- list_fmap_compose.
    + intros k l Hl. apply (qw_line _ Hw) in Hl as (? & [q0 Hq0] & _). split; [lia|]. apply bool_decide_eq_false. intros E.
      rewrite E, Hid, fresh_quote in Hq0; done.
    + apply Forall_forall. intros l Hl. apply bool_decide_eq_true. by apply Hls.
Qed.

Lemma cloneQuote_changes env src actor i s s' id :
  quote_wf s -> cloneQuote env src actor i s = Ok (s', id) -> qchanges s s'.
Proof.
  intros Hw H. unfold cloneQuote in H. apply rbind_Ok in H as (r & Hr & H). apply rbind_Ok in H as (? & _ & H).
  apply getQuote_spec in Hr as (_ & Hlines & _).
  pose proof (new_number_tables env (q_partnerId (rd_quote r)) s) as Hn.
  destruct (new_number env (q_partnerId (rd_quote r)) s) as [s1 n] eqn:En. cbn in Hn.
  eapply rtc_l; [by apply qc_tables|]. pose proof Hn as (E1 & E2 & E3 & _ & E4).
  assert (Hw1 : quote_wf s1) by by eapply wf_tables.
  destruct (clone_fallback _ _ _ _ _ _) as [fb extra] eqn:Ef. injection H as <- <-.
  assert (Hx : Forall (fun b => qb_quoteId b = qt_nextId s1) (option_list extra) /\ (length (option_list extra) <= 1)%nat).
  { unfold clone_fallback in Ef. repeat case_match; simplify_eq; cbn; split; repeat constructor. }
  destruct Hx as [Hx1 Hx2].
  eapply (copied (qt_nextId s1)); [done|done|reflexivity..|cbn; lia| | |done| | |]; cbn -[insert_rows money_of].
  - rewrite length_app, length_fmap, length_fmap. lia.
  - rewrite length_fmap, length_fmap. lia.
  - apply Forall_app; split; [|exact Hx1]. apply Forall_fmap, Forall_true. done.
  - apply Forall_fmap, Forall_forall. intros l ([k l'] & -> & Hl)%list_elem_of_fmap. split; [done|]. cbn.
    rewrite Hlines in Hl. unfold sorted_lines in Hl. rewrite merge_sort_Permutation in Hl.
    apply list_filter_elem in Hl as [Hl%elem_of_map_to_list _]. by apply (qw_line _ Hw) in Hl as (_ & _ & ->).
  - by rewrite clone_lines_math.
Qed.

(** *** Rows *)

Lemma keeps_refl_row q q' : q_partnerId q' = q_partnerId q -> q_currencyCode q' = q_currencyCode q -> q_money q' = q_money q ->
  q_head q' = q_head q -> q_life q' = q_life q -> keeps q q'.
Proof. unfold keeps, q_status. intros -> -> -> -> ->. done. Qed.

(** A change of the undo window. *)
Lemma scheduled id f s q :
  qt_quotes s !! id = Some q -> (forall x, exists d, f x = set_send d x) -> qchange moves s (alter_quote id f s).
Proof. intros Hq Hf. destruct (Hf q) as [d E]. apply (qc_row _ _ id q); rewrite ?E; [done|by apply keeps_refl_row|apply lc_refl]. Qed.

Lemma send_changes env id actor to_ s s' : sendQuote env id actor to_ s = Ok s' -> qchanges s s'.
Proof.
  intros H. unfold sendQuote in H. apply rbind_Ok in H as (r & Hr & H). apply getQuote_spec in Hr as (Hq & _).
  do 4 (let G := fresh "G" in apply rbind_Ok in H as (? & G & H)). apply check_Ok in G. bool_hyps.
  destruct (send_number env (rd_quote r) s) as [s1 n] eqn:En.
  assert (Hn : same_tables s s1). { unfold send_number in En. case_match; simplify_eq; [done|]. by destruct (allocateQuoteCounter _ _ _) eqn:E; injection E as <- <-; simplify_eq. }
  injection H as <-. eapply rtc_l; [by apply qc_tables|]. set (s2 := alter_quote _ _ s1).
  apply (rtc_l _ _ s2); [|by apply rtc_once, qc_tables].
  apply (qc_row _ _ id (rd_quote r)); [by destruct Hn as [-> _]| |cbn; rewrite G; apply lc_send].
  unfold keeps. cbn. by split_and!.
Qed.

Lemma schedule_changes env id actor job ms enq s s' : scheduleQuoteSend env id actor job ms enq s = Ok s' -> qchanges s s'.
Proof.
  intros H. unfold scheduleQuoteSend in H. apply rbind_Ok in H as (r & Hr & H). apply getQuote_spec in Hr as (Hq & _).
  do 2 apply rbind_Ok in H as (? & _ & H).
  assert (H1 : qchange moves s (alter_quote id (set_schedule (Some (qe_now env + ms)) (Some job) None) s)) by (eapply scheduled; [done|by eexists]).
  case_match; injection H as <-; [by apply rtc_once|]. eapply rtc_l; [exact H1|]. apply rtc_once.
  eapply scheduled; [cbn; by rewrite lookup_alter_eq, Hq|]. intros y. case_bool_decide; [by eexists|]. exists (q_send y). by destruct y.
Qed.

Lemma cancel_changes env id actor s s' won : cancelQuoteSend env id actor s = Ok (s', won) -> qchanges s s'.
Proof.
  intros H. unfold cancelQuoteSend in H. apply rbind_Ok in H as (r & Hr & H). apply getQuote_spec in Hr as (Hq & _).
  repeat case_match; simplify_eq; try done. apply rtc_once. eapply scheduled; [done|by eexists].
Qed.

Lemma job_changes env id job actor to_ mailed s : qchanges s (processQuoteSendJob env id job actor to_ mailed s).
Proof.
  unfold processQuoteSendJob. destruct (qt_quotes s !! id) as [q|] eqn:Hq; [|done]. case_match; [|done]. set (claimed := alter_quote _ _ _).
  assert (H1 : qchange moves s claimed) by (eapply scheduled; [done|by eexists]).
  destruct (sendQuote env id actor to_ claimed) as [s'|e] eqn:Es; [|apply rtc_once; eapply scheduled; [done|by eexists]].
  assert (H2 : qchanges s s') by (eapply rtc_l; [done|by eapply send_changes]). case_match; [|done].
  destruct (qt_quotes s' !! id) as [q'|] eqn:Hq'.
  - eapply rtc_r; [exact H2|]. eapply scheduled; [done|by eexists].
  - eapply rtc_r; [exact H2|]. apply qc_tables. split; [|done]. cbn. apply map_eq. intros k.
    destruct (decide (k = id)) as [->|]; [by rewrite lookup_alter_eq, Hq'|by rewrite lookup_alter_ne].
Qed.

Lemma life_row id q f g s :
  qt_quotes s !! id = Some q -> f q = set_qlife g q \/ (exists r, f q = set_response r (set_qlife g q)) ->
  qf_convertedInvoiceId (g (q_life q)) = qf_convertedInvoiceId (q_life q) ->
  moves (q_status q) (qf_status (g (q_life q))) -> (q_status q <> qs_draft -> qf_status (g (q_life q)) <> qs_draft) ->
  qchange moves s (alter_quote id f s).
Proof.
  intros Hq Hf Hc Hm Hd.
  apply (qc_row _ _ id q); [done| |by destruct Hf as [->|[r ->]]]. 
  destruct Hf as [->|[r ->]]; unfold keeps; cbn; split_and!; try done; intros Hn; by split; [|apply Hd].
Qed.

Lemma view_changes env id read now s :
  qt_quotes s !! id = Some now -> late read now -> qchange moves s (alter_quote id (view_write (qe_now env) read) s).
Proof.
  intros Hq Hl. eapply life_row; [done|by left|done|..]; cbn; case_bool_decide; try done; [|apply lc_refl].
  by eapply lc_view.
Qed.

Lemma decline_changes env env' id actor s0 read now reason s :
  decline_read env' id actor s0 = Ok read -> qt_quotes s !! id = Some now -> late read now ->
  qchange moves s (alter_quote id (decline_write (qe_now env) reason) s).
Proof.
  intros Hr Hq Hl. unfold decline_read in Hr. apply rbind_Ok in Hr as (r & _ & Hr). result_ok Hr. simplify_eq.
  eapply life_row; [done|by left|done|by eapply lc_decline|done].
Qed.

Lemma public_decline_changes env claims reason s s' : public_decline env claims reason s = Ok s' -> qchanges s s'.
Proof.
  intros H. unfold public_decline in H. destruct (qt_quotes s !! ac_quoteId claims) as [q|] eqn:Hq; [|done]. result_ok H. simplify_eq.
  apply rtc_once. eapply life_row; [done|right; by eexists|done|exact (proj1 (lc_close _ Hg1))|done].
Qed.

Lemma expire_fold env ids s :
  NoDup ids -> (forall id, id ∈ ids -> exists q, qt_quotes s !! id = Some q /\ expiry_due (qe_now env) q = true) ->
  qchanges s (fold_left (fun s id => alter_quote id (set_qlife life_expired) s) ids s).
Proof.
  intros Hn. revert s. induction Hn as [|id ids Hni _ IH]; intros s Hd; [done|]. cbn [fold_left].
  destruct (Hd id) as (q & Hq & Hdue); [by left|]. unfold expiry_due in Hdue. apply andb_true_iff in Hdue as [Ho _].
  apply (rtc_l _ _ (alter_quote id (set_qlife life_expired) s)).
  - eapply life_row; [done|by left|done|exact (proj2 (lc_close _ Ho))|done].
  - apply IH. intros k Hk. cbn. rewrite lookup_alter_ne by (intros ->; done). apply Hd. by right.
Qed.

Lemma expire_changes env s : qchanges s (expireQuotes env s).1.
Proof.
  apply (expire_fold env).
  - unfold expiry_batch. eapply sublist_NoDup; [|apply sublist_take]. rewrite merge_sort_Permutation. eapply sublist_NoDup; [apply (NoDup_fst_map_to_list (qt_quotes s))|].
    apply fmap_sublist. induction (map_to_list _) as [|r l IH]; [done|]. cbn. case_match; by constructor.
  - intros id Hid. unfold expiry_batch in Hid. apply elem_of_take in Hid as (? & Hid & _). apply list_elem_of_lookup_2 in Hid.
    rewrite merge_sort_Permutation in Hid. apply list_elem_of_fmap in Hid as ([k q] & -> & [Hq%elem_of_map_to_list Hdue]%list_filter_elem). by exists q.
Qed.

(** Every call of the services is a sequence of changes. *)
Lemma quote_step_changes s s' : quote_wf s -> quote_step late s s' -> qchanges s s'.
Proof.
  intros Hw H. destruct H as [????? H|?????? H|????? H|??? H|????? H|?????? H|???? H|????? H|????????? H|????? H|???? H
    |???? H|????? H|????? H|????? H|??????? H|????? H| |env id orgId s0 read now Hr Hq Hl|env id reason actor s0 read now Hr Hq Hl|???? H| ].
  - by eapply createQuote_changes.
  - by eapply cloneQuote_changes.
  - by eapply updateQuote_changes.
  - by eapply deleteDraft_drops.
  - by eapply addBlock_changes.
  - by eapply updateBlock_changes.
  - by eapply deleteBlock_changes.
  - by eapply manual_line_changes.
  - by eapply catalog_line_changes.
  - by eapply updateQuoteLine_changes.
  - by eapply removeQuoteLine_changes.
  - by eapply reorderBlocks_changes.
  - by eapply reorderLines_changes.
  - by eapply move_changes.
  - by eapply send_changes.
  - by eapply schedule_changes.
  - by eapply cancel_changes.
  - apply job_changes.
  - apply rtc_once. by eapply view_changes.
  - apply rtc_once. by eapply decline_changes.
  - by eapply public_decline_changes.
  - apply expire_changes.
Qed.

End calls.

(** ** Acceptance *)

Lemma documents_tables id aid orgId c data s s' : createExecutedDocuments id aid orgId c data s = Ok s' -> same_tables s s'.
Proof.
  revert s. induction data as [|d ds IH]; intros s H; cbn in H; [by simplify_eq|]. apply rbind_Ok in H as (? & _ & H).
  apply IH in H. etrans; [|exact H]. repeat split. cbn. lia.
Qed.

(** What an acceptance does to the quote tables, and the stages of it. *)
Lemma accept_changes env p b s b' s' r :
  acceptQuote env p b s = Ok (b', s', r) ->
  accepts (ap_quoteId p) (ar_invoiceId r) s s' /\ exists q specs b1 b2 links,
    qt_quotes s !! ap_quoteId p = Some q /\ accept_guards env p q = Ok tt
    /\ convert_invoice (qe_bill env) q (one_time_lines (sorted_lines (ap_quoteId p) s)) (ap_actorUserId p) b = (b1, ar_invoiceId r)
    /\ buildContractSpecsFromQuote
         {| fc_orgId := q_orgId q; fc_partnerId := q_partnerId q;
            fc_quoteNumber := default (dec (Z.of_nat (ap_quoteId p))) (qf_quoteNumber (q_life q)); fc_terms := qh_terms (q_head q) |}
         (sorted_lines (ap_quoteId p) s) (iso_of_ms (qe_now env)) (ap_actorUserId p) = Ok specs
    /\ create_contracts specs b1 = (b2, ar_contractIds r, links) /\ b' = b2
    /\ qt_quotes s' = <[ap_quoteId p := converted p (ar_invoiceId r) (qe_now env) q]> (qt_quotes s).
Proof.
  intros H. unfold acceptQuote, getOwnedQuote in H. destruct (qt_quotes s !! ap_quoteId p) as [q|] eqn:Hq; [|done]. cbn [rbind] in H.
  apply rbind_Ok in H as ([] & Hg & H). apply rbind_Ok in H as (? & _ & H). apply rbind_Ok in H as (row & Hrow & H).
  destruct (convert_invoice _ _ _ _ _) as [b1 inv] eqn:Ei. apply rbind_Ok in H as (specs & Hspecs & H).
  destruct (create_contracts specs b1) as [[b2 ids] links] eqn:Ec. apply rbind_Ok in H as (s3 & Hdocs & H).
  apply rbind_Ok in H as (order & _ & H). apply documents_tables in Hdocs as (D1 & D2 & D3 & D4 & D5). cbn in D1, D2, D3, D4, D5.
  assert (E : exists oid, same_tables s3 (match order with Some o => add_order o s3 | None => s3 end)
    /\ (match order with Some o => (add_order o s3, Some (qt_nextId s3)) | None => (s3, None) end)
       = (match order with Some o => add_order o s3 | None => s3 end, oid)).
  { destruct order; eexists; (split; [|reflexivity]); repeat split; cbn; lia. }
  destruct E as (oid & (F1 & F2 & F3 & F4 & F5) & E). rewrite E in H. injection H as <- <- <-. cbn.
  assert (Eq : qt_quotes (match order with Some o => add_order o s3 | None => s3 end)
    = <[ap_quoteId p := converted p inv (qe_now env) q]> (qt_quotes s)) by (rewrite F1, D1; by apply alter_present).
  split; [|by exists q, specs, b1, b2, links].
  unfold accept_guards in Hg. apply rbind_Ok in Hg as (? & _ & Hg). apply rbind_Ok in Hg as (? & Ho%check_Ok & _).
  unfold acceptance_row in Hrow. result_ok Hrow. simplify_eq.
  split; [by eexists _, _, _|congruence|congruence| |lia]. eexists. split; [|rewrite F4, D4; reflexivity]. done.
Qed.
