(* ===== verification/QuoteTheorems.v ===== *)
(** * What the quote tables keep

    Stored totals agree with the lines, and a quote that was sent does not change. *)

From stdpp Require Import base gmap strings list option relations sorting.
From Stdlib Require Import ZArith Lia QArith.
From S2P Require Import Prelude Calendar Doubles Money Quotes BillingStore.
From S2P Require Import Invoices QuoteStore QuoteService QuoteLifecycle QuoteAccept QuoteSystem.
Open Scope Z_scope.

(** A call of the services or an acceptance, whatever the billing tables are. *)
Definition quotes_step (late : Quote -> Quote -> Prop) (s s' : QuoteStore) : Prop :=
  quote_step late s s' \/ exists env p b b' r, run_accept env p b s = Ok (b', s', r).

Definition empty_quotes : QuoteStore :=
  {| qt_quotes := ∅; qt_blocks := ∅; qt_lines := ∅; qt_acceptances := ∅; qt_recipients := ∅; qt_documents := ∅;
     qt_orders := ∅; qt_sequences := ∅; qt_nextId := 0%nat |}.

Lemma empty_quotes_wf : quote_wf empty_quotes.
Proof. by split. Qed.

Lemma run_accept_inv env p b s b' s' r :
  run_accept env p b s = Ok (b', s', r) ->
  exists p' b1, ap_quoteId p' = ap_quoteId p /\ acceptQuote env p' b s = Ok (b1, s', r) /\ b' = emitAcceptInvoiceIssued r b1.
Proof.
  intros H. unfold run_accept in H. apply rbind_Ok in H as (data & _ & H). apply rbind_Ok in H as ([[b1 s1] r1] & Ha & H).
  simplify_eq. eexists _, b1. split; [|split; [exact Ha|done]]. done.
Qed.

Section runs.

Context (late : Quote -> Quote -> Prop) (moves : QuoteStatus -> QuoteStatus -> Prop) `{!Lifecycle late moves}.

(** A change or an acceptance. *)
Definition any_change (s s' : QuoteStore) : Prop := qchange moves s s' \/ exists id inv, accepts id inv s s'.

Lemma wf_any s s' : quote_wf s -> any_change s s' -> quote_wf s'.
Proof. intros Hw [H|(id & inv & H)]; [by eapply wf_qchange|by eapply wf_accepts]. Qed.

Lemma quotes_step_changes s s' : quote_wf s -> quotes_step late s s' -> rtc any_change s s'.
Proof.
  intros Hw [H|(env & p & b & b' & r & H)].
  - eapply rtc_subrel; [|by eapply quote_step_changes]. intros x y. by left.
  - apply run_accept_inv in H as (p' & b1 & _ & H & _). apply rtc_once. right. apply accept_changes in H as [H _]. by eexists _, _.
Qed.

(** What every change keeps, every run keeps. *)
Lemma quotes_run (I : QuoteStore -> Prop) s s' :
  (forall x y, quote_wf x -> I x -> any_change x y -> I y) ->
  quote_wf s -> I s -> rtc (quotes_step late) s s' -> quote_wf s' /\ I s'.
Proof.
  intros HI Hw Hs H. induction H as [|x y z Hxy _ IH]; [done|].
  apply (quotes_step_changes _ _ Hw) in Hxy. assert (H : quote_wf y /\ I y); [|destruct H; by apply IH].
  clear IH. induction Hxy as [|u v w Huv _ IH]; [done|]. apply IH; [by eapply wf_any|by eapply HI].
Qed.

End runs.

(** ** Totals *)

(** The columns a quote's totals are stored in. *)
Definition columns (t : QuoteTotals) : QuoteMoney :=
  {| qm_subtotal := qt_subtotal t; qm_taxTotal := qt_taxTotal t; qm_total := qt_total t; qm_oneTimeTotal := qt_oneTimeTotal t;
     qm_monthlyRecurringTotal := qt_monthlyRecurringTotal t; qm_annualRecurringTotal := qt_annualRecurringTotal t;
     qm_depositAmount := qt_depositDueTotal t |}.

Lemma sorted_math id s : map (fun r => math_line r.2) (sorted_lines id s) ≡ₚ math_lines id s.
Proof. unfold sorted_lines, math_lines. by rewrite merge_sort_Permutation. Qed.

(** C24: Whatever calls are made on the quotes, in whatever order and with view stamps and
    declines that overlap, the totals stored with a quote are those its reader computes
    from its lines, its tax rate and its deposit terms. *)
Theorem stored_quote_totals_agree s env id actor r :
  rtc (quotes_step overlapping) empty_quotes s -> getQuote env id actor s = Ok r -> q_money (rd_quote r) = columns (rd_totals r).
Proof.
  intros H Hr. destruct (quotes_run overlapping late_moves (fun _ => True) _ _ (fun _ _ _ _ _ => I) empty_quotes_wf I H) as [Hw _].
  unfold getQuote, getOwnedQuote in Hr. destruct (qt_quotes s !! id) as [q|] eqn:E; [|done]. cbn [rbind] in Hr. result_ok Hr.
  simplify_eq. cbn. rewrite (qw_money _ Hw _ _ E). symmetry. apply (money_of_perm _ _ (q_head q)); [|done]. symmetry. apply sorted_math.
Qed.

(** ** Sent quotes *)

Definition own_line (id : nat) (o : option QuoteLine) : option QuoteLine :=
  l ← o; if decide (qn_quoteId l = id) then Some (content l) else None.
Definition own_block (id : nat) (o : option QuoteBlock) : option QuoteBlock :=
  b ← o; if decide (qb_quoteId b = id) then Some b else None.

(** What the customer was sent: terms, prices, blocks and lines. *)
Record as_sent (id : nat) (q : Quote) (s s' : QuoteStore) : Prop := {
  as_row : exists q', qt_quotes s' !! id = Some q' /\ q_status q' <> qs_draft /\ q_head q' = q_head q /\ q_money q' = q_money q
    /\ q_partnerId q' = q_partnerId q /\ q_currencyCode q' = q_currencyCode q;
  as_blocks : forall k, own_block id (qt_blocks s' !! k) = own_block id (qt_blocks s !! k);
  as_lines : forall k, own_line id (qt_lines s' !! k) = own_line id (qt_lines s !! k);
}.

Lemma own_other_line id k o o' : id <> k -> other_line id o' = other_line id o -> own_line k o' = own_line k o.
Proof.
  intros Hne H. unfold other_line, own_line in *. destruct o as [l|], o' as [l'|]; cbn in *; repeat case_decide; try congruence.
  all: assert (E : content l' = content l) by congruence; apply (f_equal qn_quoteId) in E; cbn in E; congruence.
Qed.

Lemma own_other_block id k o o' : id <> k -> other_block id o' = other_block id o -> own_block k o' = own_block k o.
Proof. intros Hne H. unfold other_block, own_block in *. destruct o, o'; cbn in *; repeat case_decide; congruence. Qed.

Lemma touches_as_sent id k q s s' :
  touches id s s' -> id <> k -> qt_quotes s !! k = Some q -> q_status q <> qs_draft -> as_sent k q s s'.
Proof.
  intros Ht Hne Hq Hd. split.
  - exists q. rewrite (to_quotes _ _ _ Ht) by done. by split_and!.
  - intros j. by eapply own_other_block, to_blocks.
  - intros j. by eapply own_other_line, to_lines.
Qed.

(** One change. *)
Lemma change_as_sent moves id q s s' :
  quote_wf s -> any_change moves s s' -> qt_quotes s !! id = Some q -> q_status q <> qs_draft -> as_sent id q s s'.
Proof.
  intros Hw [H|(k & inv & [(q0 & p & now & Hq0 & _ & E1) E2 E3 _ _])] Hq Hd.
  2:{ split; rewrite ?E1, ?E2, ?E3; [|done..]. destruct (decide (k = id)) as [->|Hne]; [|exists q; by rewrite lookup_insert_ne].
    simplify_eq. destruct (converted_row p inv now q0) as (? & ? & ? & ? & C & _). eexists. rewrite lookup_insert_eq. split; [done|].
    rewrite C. by split_and!. }
  destruct H as [s' (E1 & E2 & E3 & _)|k s' Hk He _|k s' Ht Hto _ _ _|k q0 f Hq0 Hkeep _].
  - split; rewrite ?E1, ?E2, ?E3; [|done..]. by exists q.
  - apply (touches_as_sent k); [apply He| |done|done]. intros ->.
    destruct Hk as [->|[(q' & Hq' & [Hd' _]) _ _ _]]; [|congruence]. by rewrite fresh_quote in Hq.
  - apply (touches_as_sent k); [done| |done|done]. intros ->. destruct Ht as [(q' & Hq' & [Hd' _]) _ _ _]. congruence.
  - split; [|done..]. destruct (decide (k = id)) as [->|Hne].
    + simplify_eq. destruct Hkeep as (? & ? & ? & _ & Hh & _). destruct (Hh Hd). exists (f q0). cbn. rewrite lookup_alter_eq, Hq0. by split_and!.
    + exists q. cbn. by rewrite lookup_alter_ne.
Qed.

Lemma as_sent_trans id q q' s1 s2 s3 :
  qt_quotes s2 !! id = Some q' -> as_sent id q s1 s2 -> as_sent id q' s2 s3 -> as_sent id q s1 s3.
Proof.
  intros Hq' [(q2 & Hq2 & _ & A1 & A2 & A3 & A4) B1 C1] [(q3 & Hq3 & Hd & D1 & D2 & D3 & D4) B2 C2]. simplify_eq. split.
  - exists q3. split_and!; congruence.
  - intros k. by rewrite B2.
  - intros k. by rewrite C2.
Qed.

(** A quote that is no longer a draft keeps the terms, amounts, blocks and lines it was
    sent with (a line can lose the block it is shown in), and is never deleted or made a
    draft again, whatever calls follow and however they overlap. *)
Lemma sent_quotes_are_frozen s s' id q :
  rtc (quotes_step overlapping) empty_quotes s -> rtc (quotes_step overlapping) s s' ->
  qt_quotes s !! id = Some q -> q_status q <> qs_draft -> as_sent id q s s'.
Proof.
  intros H0 H Hq Hd.
  destruct (quotes_run overlapping late_moves (fun _ => True) _ _ (fun _ _ _ _ _ => I) empty_quotes_wf I H0) as [Hw _].
  refine (proj2 (quotes_run overlapping late_moves (as_sent id q s) s s' _ Hw _ H)).
  - intros x y Hx Hs Hxy. pose proof (as_row _ _ _ _ Hs) as (q' & Hq' & Hd' & _). eapply as_sent_trans; [done|done|].
    by eapply change_as_sent.
  - split; [|done..]. by exists q.
Qed.
