(* ===== verification/BillingSystem.v ===== *)
(** * Billing as a system

    The service calls as steps on the store, the billing runs that have read their
    contract and not yet written, and the elementary changes every call is made of. *)

From stdpp Require Import base gmap strings list option relations sorting.
From Stdlib Require Import ZArith Lia.
From S2P Require Import Prelude Calendar Doubles Money BillingStore.
From S2P Require Import Invoices Contracts Stripe QuoteStore QuoteAccept.
Open Scope Z_scope.

(** ** Calls *)

Definition open_status (st : InvoiceStatus) : Prop := st <> inv_draft /\ st <> inv_void.

(** The invoice service, and what quotes and Stripe do to its tables. A payment's amount
    is positive with two decimals ([recordPaymentSchema]) and fits its column; a Stripe
    charge fits the balance; a partial refund leaves less than there was; the row of an
    accepted quote has a new id, which no line has yet. *)
Inductive invoice_step (s : BillStore) : BillStore -> Prop :=
| do_createManualInvoice orgId siteId notes actor s' id :
    createManualInvoice orgId siteId notes actor s = Ok (s', id) -> invoice_step s s'
| do_addManualLine env id n d q p t c actor s' l :
    addManualLine env id n d q p t c actor s = Ok (s', l) -> invoice_step s s'
| do_addCatalogLine env id item q actor s' l : addCatalogLine env id item q actor s = Ok (s', l) -> invoice_step s s'
| do_addBundleLine env id item q actor s' l : addBundleLine env id item q actor s = Ok (s', l) -> invoice_step s s'
| do_updateLine env id l p actor s' : updateLine env id l p actor s = Ok s' -> invoice_step s s'
| do_removeLine env id l actor s' : removeLine env id l actor s = Ok s' -> invoice_step s s'
| do_deleteDraftInvoice id actor s' : deleteDraftInvoice id actor s = Ok s' -> invoice_step s s'
| do_updateInvoice id p actor s' : updateInvoice id p actor s = Ok s' -> invoice_step s s'
| do_assembleDraftFromOrg env orgId siteId from to_ actor s' id :
    assembleDraftFromOrg env orgId siteId from to_ actor s = Ok (s', id) -> invoice_step s s'
| do_assembleDraftFromTicket env ticketId actor s' id :
    assembleDraftFromTicket env ticketId actor s = Ok (s', id) -> invoice_step s s'
| do_issueInvoice env id actor s' : 0 <= be_now env -> issueInvoice env id actor s = Ok s' -> invoice_step s s'
| do_recordPayment env id a actor s' p :
    0 < a -> cents_ok a -> recordPayment env id (money a) actor s = Ok (s', p) -> invoice_step s s'
| do_voidPayment env p actor s' : voidPayment env p actor s = Ok s' -> invoice_step s s'
| do_updateIssuedDueDate env id d actor s' : updateIssuedDueDate env id d actor s = Ok s' -> invoice_step s s'
| do_voidInvoice env id reason reissue actor s' : voidInvoice env id reason reissue actor s = Ok s' -> invoice_step s s'
| do_runOverdueSweep asOf : invoice_step s (runOverdueSweep asOf s).1
| do_markViewed env id orgId s' : markViewed env id orgId s = Ok s' -> invoice_step s s'
| do_convertQuote env q oneTime userId :
    0 <= be_now env -> lines_of (bs_nextId s) s = [] -> invoice_step s (convert_invoice env q oneTime userId s).1
| do_capture env id i a s' p : bs_invoices s !! id = Some i -> open_status (iv_status i) -> 0 < a -> cents_ok a ->
    toCents (Some (money a)) <= toCents (Some (il_balance (iv_life i))) -> capture_payment env id (money a) s = Ok (s', p) ->
    invoice_step s s'
| do_refund_all env pid p s' : bs_payments s !! pid = Some p ->
    recomputeInvoiceStatus env (py_invoiceId p) (with_payments (delete pid) s) = Ok s' -> invoice_step s s'
| do_refund_part env pid p a s' : bs_payments s !! pid = Some p -> 0 < a -> cents_ok a ->
    toCents (Some (money a)) <= toCents (Some (py_amount p)) ->
    recomputeInvoiceStatus env (py_invoiceId p) (with_payments (alter (set_amount (money a)) pid) s) = Ok s' -> invoice_step s s'
| do_event e : invoice_step s (emit e s).

(** Dates the calendar text format covers: contracts start in the years 1667 to 9916,
    and the clock is between 1970 and 9917. *)
Definition start_ok (start : string) : Prop := exists i d, in_month start i d /\ 20000 <= i < 119000.
Definition clock_ok (env : BillEnv) : Prop := 0 <= be_now env /\ exists i d, in_month (iso_of_ms (be_now env)) i d /\ i < 119000.

(** [createContractSchema] and the date columns. *)
Definition input_ok (i : ContractInput) : Prop := start_ok (cn_startDate i) /\ 1 <= cn_intervalMonths i <= 60.
Definition patch_ok (p : ContractPatch) : Prop :=
  (forall d, cp_startDate p = Some d -> start_ok d) /\ (forall n, cp_intervalMonths p = Some n -> 1 <= n <= 60).

Definition spec_ok (sp : NewContractSpec) : Prop := start_ok (nc_startDate sp) /\ 1 <= nc_intervalMonths sp <= 60.

(** The contract service, the contracts of accepted quotes, and the renewal pass of the
    daily job. *)
Inductive contract_step (s : BillStore) : BillStore -> Prop :=
| do_createContract env i actor s' id : input_ok i -> createContract env i actor s = Ok (s', id) -> contract_step s s'
| do_updateContract id p actor s' : patch_ok p -> updateContract id p actor s = Ok s' -> contract_step s s'
| do_deleteDraftContract id actor s' : deleteDraftContract id actor s = Ok s' -> contract_step s s'
| do_addContractLineToContract id ty d item price q site tx sort actor s' l :
    addContractLineToContract id ty d item price q site tx sort actor s = Ok (s', l) -> contract_step s s'
| do_removeContractLine id l actor s' : removeContractLine id l actor s = Ok s' -> contract_step s s'
| do_activateContract env id actor s' : clock_ok env -> activateContract env id actor s = Ok s' -> contract_step s s'
| do_pauseContract id actor s' : pauseContract id actor s = Ok s' -> contract_step s s'
| do_resumeContract env id actor s' : clock_ok env -> resumeContract env id actor s = Ok s' -> contract_step s s'
| do_cancelContract id actor s' : cancelContract id actor s = Ok s' -> contract_step s s'
| do_renewalSweep env : contract_step s (runContractRenewalSweep env s).1.1
| do_createContractWithLines sp : spec_ok sp -> contract_step s (createContractWithLinesDetailed sp s).1.1.

(** The store, and the billing runs that have read their contract. *)
Record BillSys : Type := { sy_store : BillStore; sy_runs : list (nat * Contract) }.

Inductive bill_step : BillSys -> BillSys -> Prop :=
| step_invoice s s' rs : invoice_step s s' -> bill_step {| sy_store := s; sy_runs := rs |} {| sy_store := s'; sy_runs := rs |}
| step_contract s s' rs : contract_step s s' -> bill_step {| sy_store := s; sy_runs := rs |} {| sy_store := s'; sy_runs := rs |}
| step_run_begin s id c rs :
    bs_contracts s !! id = Some c -> bill_step {| sy_store := s; sy_runs := rs |} {| sy_store := s; sy_runs := (id, c) :: rs |}
| step_run_commit env s id c s' r rs1 rs2 :
    clock_ok env -> generate_with env id c s = Ok (s', r) ->
    bill_step {| sy_store := s; sy_runs := rs1 ++ (id, c) :: rs2 |} {| sy_store := s'; sy_runs := rs1 ++ rs2 |}
| step_run_fail s run rs1 rs2 :
    bill_step {| sy_store := s; sy_runs := rs1 ++ run :: rs2 |} {| sy_store := s; sy_runs := rs1 ++ rs2 |}.

Definition empty_bills (time : gmap string TimeEntry) (parts_ : gmap string TicketPart) : BillStore :=
  {| bs_invoices := ∅; bs_lines := ∅; bs_payments := ∅; bs_sequences := ∅; bs_time := time; bs_parts := parts_;
     bs_contracts := ∅; bs_contractLines := ∅; bs_periods := ∅; bs_notices := []; bs_events := []; bs_nextId := 0%nat |}.

(** Everything the service calls can lead to. *)
Definition bill_reachable (s : BillStore) : Prop :=
  exists time parts_ rs, rtc bill_step {| sy_store := empty_bills time parts_; sy_runs := [] |} {| sy_store := s; sy_runs := rs |}.

(** ** Elementary changes of the invoice tables *)

(** The same invoices, lines, payments, counters and billable work. *)
Definition same_invoicing (s s' : BillStore) : Prop :=
  bs_invoices s' = bs_invoices s /\ bs_lines s' = bs_lines s /\ bs_payments s' = bs_payments s
  /\ bs_sequences s' = bs_sequences s /\ bs_time s' = bs_time s /\ bs_parts s' = bs_parts s
  /\ (bs_nextId s <= bs_nextId s')%nat.

Definition is_draft (s : BillStore) (id : nat) : Prop := exists i, bs_invoices s !! id = Some i /\ iv_status i = inv_draft.

(** A draft edited: its head, its number and its payments stay. *)
Definition draft_edit (i i' : Invoice) : Prop :=
  iv_head i' = iv_head i /\ iv_status i' = iv_status i
  /\ il_invoiceNumber (iv_life i') = il_invoiceNumber (iv_life i)
  /\ il_voidedAt (iv_life i') = il_voidedAt (iv_life i) /\ il_amountPaid (iv_life i') = il_amountPaid (iv_life i).

(** A mark on the row that leaves its money alone. *)
Definition marked (i i' : Invoice) : Prop :=
  iv_head i' = iv_head i /\ iv_amounts i' = iv_amounts i
  /\ il_invoiceNumber (iv_life i') = il_invoiceNumber (iv_life i)
  /\ il_issueDate (iv_life i') = il_issueDate (iv_life i) /\ il_voidedAt (iv_life i') = il_voidedAt (iv_life i)
  /\ il_amountPaid (iv_life i') = il_amountPaid (iv_life i) /\ il_balance (iv_life i') = il_balance (iv_life i)
  /\ (iv_status i' = iv_status i \/ iv_status i ∈ [inv_sent; inv_partially_paid] /\ iv_status i' = inv_overdue).

(** The store with a payment more. *)
Definition add_payment (id : nat) (a : Decimal) (by_ : option string) (s : BillStore) : BillStore :=
  bump_id (with_payments (<[bs_nextId s := {| py_invoiceId := id; py_amount := a; py_recordedBy := by_ |}]>) s).

(** The store with the invoice void and its work released. *)
Definition void_row (id : nat) (reason : string) (now : Z) (s : BillStore) : BillStore :=
  flip_sources not_billed (source_ids src_time_entry (lines_of id s)) (source_ids src_part (lines_of id s))
    (alter_invoice id (set_life (set_void reason now)) s).

Definition drop_invoice (id : nat) (s : BillStore) : BillStore :=
  with_payments (filter (fun '(_, p) => py_invoiceId p <> id))
    (with_lines (filter (fun '(_, l) => ln_invoiceId l <> id)) (with_invoices (delete id) s)).

(** What the issue of a draft knows of it: the row and the work behind its lines. *)
Definition issue_read (id : nat) (s : BillStore) (r : IssueRead) : Prop :=
  bs_invoices s !! id = Some (ir_invoice r) /\ iv_status (ir_invoice r) = inv_draft
  /\ ir_timeIds r = source_ids src_time_entry (lines_of id s) /\ ir_partIds r = source_ids src_part (lines_of id s).

(** The draft issued at given amounts, its work billed. *)
Definition issue_with (env : BillEnv) (id : nat) (r : IssueRead) (currency : option string) (deposit : option Decimal)
    (amounts : Amounts) (s : BillStore) : BillStore :=
  flip_sources billed (ir_timeIds r) (ir_partIds r)
    (issue_row env (iv_partnerId (ir_invoice r)) id currency deposit amounts s).

(** The changes, up to a relation [R] for what is outside the invoice tables. *)
Inductive ichange_by (R : BillStore -> BillStore -> Prop) (s : BillStore) : BillStore -> Prop :=
| ch_same s' : R s s' -> ichange_by R s s'
| ch_new h siteId notes : ichange_by R s (insert_invoice (draft_invoice h siteId notes) s).1
| ch_edit id i f : bs_invoices s !! id = Some i -> iv_status i = inv_draft -> draft_edit i (f i) ->
    ichange_by R s (alter_invoice id f s)
| ch_line_new l : is_draft s (ln_invoiceId l) -> ichange_by R s (insert_line l s).1
| ch_line_put k l0 l : bs_lines s !! k = Some l0 -> ln_invoiceId l = ln_invoiceId l0 -> is_draft s (ln_invoiceId l0) ->
    ichange_by R s (with_lines (<[k := l]>) s)
| ch_line_drop id k : is_draft s id -> ichange_by R s (with_lines (delete_line id k) s)
| ch_drop id : is_draft s id -> ichange_by R s (drop_invoice id s)
| ch_issue env id r currency deposit amounts : 0 <= be_now env -> issue_read id s r -> issue_guard r s = Ok tt ->
    ichange_by R s (issue_with env id r currency deposit amounts s)
| ch_pay env id i a by_ s' : bs_invoices s !! id = Some i -> open_status (iv_status i) -> 0 < a -> cents_ok a ->
    toCents (Some (money a)) <= toCents (Some (il_balance (iv_life i))) ->
    recomputeInvoiceStatus env id (add_payment id (toFixed 2 (Number (money a))) by_ s) = Ok s' -> ichange_by R s s'
| ch_unpay env pid p s' : bs_payments s !! pid = Some p ->
    recomputeInvoiceStatus env (py_invoiceId p) (with_payments (delete pid) s) = Ok s' -> ichange_by R s s'
| ch_refund env pid p a s' : bs_payments s !! pid = Some p -> 0 < a -> cents_ok a ->
    toCents (Some (money a)) <= toCents (Some (py_amount p)) ->
    recomputeInvoiceStatus env (py_invoiceId p) (with_payments (alter (set_amount (money a)) pid) s) = Ok s' -> ichange_by R s s'
| ch_due env id i d s' : bs_invoices s !! id = Some i -> open_status (iv_status i) ->
    recomputeInvoiceStatus env id (alter_invoice id (set_life (set_dueDate (Some d))) s) = Ok s' -> ichange_by R s s'
| ch_void id i reason now : bs_invoices s !! id = Some i -> open_status (iv_status i) -> ichange_by R s (void_row id reason now s)
| ch_mark id f : (forall i, bs_invoices s !! id = Some i -> marked i (f i)) -> ichange_by R s (alter_invoice id f s).

Arguments ch_new {R} s h siteId notes.
Arguments ch_line_new {R} s l _.
Arguments ch_drop {R} s id _.
Arguments ch_pay {R} s env id i a by_ s' _ _ _ _ _ _.
Arguments ch_mark {R} s id f _.

Abbreviation ichange := (ichange_by same_invoicing).
Abbreviation ichanges := (rtc ichange).

(** The contract tables as they were; a billed period may lose its draft. *)
Definition unlinks (b b' : BillingPeriod) : Prop :=
  bp_orgId b' = bp_orgId b /\ bp_periodEnd b' = bp_periodEnd b /\ (bp_invoiceId b' = bp_invoiceId b \/ bp_invoiceId b' = None).

Definition contract_frame (s s' : BillStore) : Prop :=
  bs_contracts s' = bs_contracts s /\ bs_contractLines s' = bs_contractLines s
  /\ (forall key, option_Forall2 unlinks (bs_periods s !! key) (bs_periods s' !! key))
  /\ (bs_nextId s <= bs_nextId s')%nat.

Definition invoice_only (s s' : BillStore) : Prop := same_invoicing s s' /\ contract_frame s s'.

(** The changes of a call of the invoice service. *)
Abbreviation uchange := (ichange_by invoice_only).
Abbreviation uchanges := (rtc uchange).

(** ** Every call is made of elementary changes *)

Lemma unlinks_refl b : unlinks b b.
Proof. split_and!; auto. Qed.

Lemma frame_refl s s' :
  bs_contracts s' = bs_contracts s -> bs_contractLines s' = bs_contractLines s -> bs_periods s' = bs_periods s ->
  (bs_nextId s <= bs_nextId s')%nat -> contract_frame s s'.
Proof.
  intros H1 H2 H3 H4. split_and!; try done. intros key. rewrite H3. destruct (bs_periods s !! key); constructor. apply unlinks_refl.
Qed.

Lemma emit_only e s : invoice_only s (emit e s).
Proof. split; [by repeat split|by apply frame_refl]. Qed.

Lemma ch_emit e s s' : uchanges s s' -> uchanges s (emit e s').
Proof. intros H. eapply rtc_r; [done|]. apply ch_same, emit_only. Qed.

Lemma ch_then s s1 s2 : uchange s1 s2 -> uchanges s s1 -> uchanges s s2.
Proof. intros H1 H2. by eapply rtc_r. Qed.

Lemma recompute_totals_changes env id s s' : recomputeInvoiceTotals env id s = Ok s' -> uchange s s'.
Proof.
  unfold recomputeInvoiceTotals, getOwnedInvoiceOr404, assertDraft. intros H. result_ok H.
  destruct (bs_invoices s !! id) as [i|] eqn:E; [|done]. simplify_eq. bool_hyps.
  eapply ch_edit; [done|done|]. by repeat split.
Qed.

Lemma open_draft_spec actor id s i :
  open_draft actor id s = Ok i -> bs_invoices s !! id = Some i /\ iv_status i = inv_draft.
Proof.
  unfold open_draft, getOwnedInvoiceOr404, assertDraft. intros H. result_ok H.
  destruct (bs_invoices s !! id) eqn:E; simplify_eq. by bool_hyps.
Qed.

Lemma open_draft_is actor id s i : open_draft actor id s = Ok i -> is_draft s id.
Proof. intros H%open_draft_spec. by exists i. Qed.

Lemma insert_line_changes env id mk s s' l :
  is_draft s id -> (forall n, ln_invoiceId (mk n) = id) -> insertLineAndRecompute env id mk s = Ok (s', l) -> uchanges s s'.
Proof.
  intros Hd Hmk H. unfold insertLineAndRecompute in H. destruct (insert_line _ s) as [s1 k] eqn:E.
  result_ok H. simplify_eq. eapply ch_then; [by eapply recompute_totals_changes|].
  apply rtc_once. injection E as <- <-. apply (ch_line_new _ (mk (nextSort id s))). by rewrite Hmk.
Qed.

Lemma insert_lines_changes id ls s :
  is_draft s id -> Forall (fun l => ln_invoiceId l = id) ls ->
  uchanges s (insert_lines ls s) /\ bs_invoices (insert_lines ls s) = bs_invoices s.
Proof.
  intros Hd Hls. revert s Hd. induction Hls as [|l ls Hl _ IH]; intros s Hd; [done|]. cbn [insert_lines].
  destruct (IH (insert_line l s).1 Hd) as [H1 H2]. split; [|done].
  eapply rtc_l; [|done]. apply ch_line_new. by rewrite Hl.
Qed.

Lemma createManual_changes orgId siteId notes actor s s' id :
  createManualInvoice orgId siteId notes actor s = Ok (s', id) ->
  uchange s s' /\ exists h, s' = (insert_invoice (draft_invoice h siteId notes) s).1 /\ id = bs_nextId s /\ ih_orgId h = orgId.
Proof.
  unfold createManualInvoice. intros H. result_ok H. simplify_eq. split; [apply (ch_new s)|]. by eexists.
Qed.

Lemma new_is_draft h siteId notes s : is_draft (insert_invoice (draft_invoice h siteId notes) s).1 (bs_nextId s).
Proof. exists (draft_invoice h siteId notes). cbn. by rewrite lookup_insert_eq. Qed.

Lemma addContractLine_changes env id input actor s s' l :
  addContractLine env id input actor s = Ok (s', l) -> uchanges s s'.
Proof.
  unfold addContractLine. intros H. result_ok H. destruct a0 as [[unitPrice taxable_] costBasis].
  eapply insert_line_changes; [by eapply open_draft_is| |done]. done.
Qed.

Lemma add_contract_lines_changes env c inv ls s s' : add_contract_lines env c inv ls s = Ok s' -> uchanges s s'.
Proof.
  revert s. induction ls as [|[k l] ls IH]; intros s H; cbn [add_contract_lines] in H; [by simplify_eq|].
  apply rbind_Ok in H as ([s1 lid] & H1 & H2). etrans; [by eapply addContractLine_changes|by apply IH].
Qed.

Lemma deleteDraft_changes id actor s s' : deleteDraftInvoice id actor s = Ok s' -> uchanges s s'.
Proof.
  unfold deleteDraftInvoice. intros H. result_ok H. simplify_eq. eapply ch_then; [|apply rtc_once, (ch_drop _ id)].
  - apply ch_same. split; [by repeat split|]. split_and!; try done. intros key. cbn. rewrite lookup_fmap.
    destruct (bs_periods s !! key) as [b|]; constructor. case_bool_decide; [|apply unlinks_refl]. split_and!; auto.
  - by eapply open_draft_is.
Qed.

Lemma assemble_changes env h siteId specs s s' id : assemble env h siteId specs s = Ok (s', id) -> uchanges s s'.
Proof.
  unfold assemble. intros H. result_ok H. destruct (insert_invoice _ s) as [s1 k] eqn:E. result_ok H. simplify_eq.
  injection E as <- <-. eapply ch_then; [by eapply recompute_totals_changes|].
  eapply rtc_l; [apply (ch_new s)|]. refine (proj1 (insert_lines_changes _ _ _ (new_is_draft h siteId None s) _)).
  apply Forall_forall. intros l (? & ? & -> & _)%elem_of_lookup_imap. done.
Qed.

Lemma addBundle_changes env id item q actor s s' l : addBundleLine env id item q actor s = Ok (s', l) -> uchanges s s'.
Proof.
  unfold addBundleLine. intros H. apply rbind_Ok in H as (i & Hi & H). apply rbind_Ok in H as (econ & _ & H).
  apply rbind_Ok in H as ([s1 k] & H1 & H). apply rbind_Ok in H as (s2 & H2 & H). simplify_eq.
  pose proof (open_draft_is _ _ _ _ Hi) as Hd. apply open_draft_spec in Hi as [Hi Hst].
  assert (Hd1 : is_draft s1 id).
  { unfold insertLineAndRecompute, insert_line in H1. apply rbind_Ok in H1 as (x & H1 & Hx). simplify_eq.
    unfold recomputeInvoiceTotals, getOwnedInvoiceOr404, assertDraft in H1. cbn in H1. rewrite Hi in H1. cbn in H1.
    result_ok H1. simplify_eq. eexists. split; [by cbn; rewrite lookup_alter_eq, Hi|done]. }
  eapply ch_then; [by eapply recompute_totals_changes|].
  etrans; [by eapply insert_line_changes; [exact Hd| |exact H1]|]. apply (insert_lines_changes id); [done|].
  apply Forall_forall. intros y (r & -> & _)%list_elem_of_fmap. done.
Qed.

Lemma recordPayment_changes env id a s s' p actor :
  0 < a -> cents_ok a -> recordPayment env id (money a) actor s = Ok (s', p) -> uchanges s s'.
Proof.
  intros Ha Hok (i & Hc & H)%rbind_Ok. unfold payment_check, getOwnedInvoiceOr404 in Hc.
  destruct (bs_invoices s !! id) as [j|] eqn:E; [|done]. cbn [rbind] in Hc. result_ok Hc. simplify_eq. bool_hyps.
  unfold payment_commit in H. apply rbind_Ok in H as (? & _ & H). apply rbind_Ok in H as (s2 & Hr & H). simplify_eq.
  assert (Hs : uchange s s2).
  { eapply (ch_pay _ _ id i a (ia_userId actor)); [done|by split|done|done| |done]. by cbn [toCents]. }
  unfold emit_if_paid. repeat case_match; repeat apply ch_emit; by apply rtc_once.
Qed.

Definition collectable (s : BillStore) (id : nat) : Prop :=
  forall i, bs_invoices s !! id = Some i -> iv_status i ∈ [inv_sent; inv_partially_paid; inv_overdue].

Lemma overdue_fold asOf ids s :
  Forall (collectable s) ids ->
  uchanges s (fold_left (fun s id => emit (invoice_overdue id) (alter_invoice id (set_life (set_overdue asOf)) s)) ids s).
Proof.
  revert s. induction ids as [|id ids IH]; intros s H; [done|]. cbn [fold_left].
  apply Forall_cons in H as [H1 H2].
  etrans; [|apply IH].
  - apply ch_emit, rtc_once, ch_mark. intros i Hi. specialize (H1 i Hi).
    split_and!; try done. set_unfold in H1. destruct H1 as [|[|[|[]]]]; [right|right|by left]; (split; [set_solver|done]).
  - eapply Forall_impl; [done|]. intros k Hk i Hi. cbn in Hi.
    destruct (decide (k = id)) as [->|Hne]; [|rewrite lookup_alter_ne in Hi by done; by apply Hk].
    rewrite lookup_alter_eq in Hi. apply fmap_Some in Hi as (i0 & _ & ->). set_solver.
Qed.

Lemma overdue_changes asOf s : uchanges s (runOverdueSweep asOf s).1.
Proof.
  apply overdue_fold. apply Forall_forall. intros id Hid i Hi.
  apply list_elem_of_fmap in Hid as ([k i'] & -> & Hin). apply list_filter_elem in Hin as [Hin Ho].
  apply elem_of_map_to_list in Hin. cbn in Hi, Ho. simplify_eq. unfold overdue_due in Ho. bool_hyps. set_solver.
Qed.

Lemma alter_is_draft id f s k : (forall i, iv_status (f i) = iv_status i) -> is_draft s k -> is_draft (alter_invoice id f s) k.
Proof.
  intros Hf (i & Hi & Hst). destruct (decide (k = id)) as [->|Hne].
  - exists (f i). cbn. by rewrite lookup_alter_eq, Hi, Hf.
  - exists i. cbn. by rewrite lookup_alter_ne.
Qed.

Lemma clone_changes old draft s : is_draft s draft -> uchanges s (clone_lines old draft s).
Proof.
  intros Hd. apply (insert_lines_changes draft); [done|]. apply Forall_app. split;
    apply Forall_forall; intros l (? & -> & _)%list_elem_of_fmap; done.
Qed.

Lemma voidInvoice_changes env id reason reissue actor s s' :
  voidInvoice env id reason reissue actor s = Ok s' -> uchanges s s'.
Proof.
  unfold voidInvoice, getOwnedInvoiceOr404. destruct (bs_invoices s !! id) as [i|] eqn:E; [|done].
  cbn [rbind]. intros H. apply rbind_Ok in H as (? & _ & H). apply rbind_Ok in H as (? & H1%check_Ok & H).
  apply rbind_Ok in H as (? & H2%check_Ok & H). bool_hyps.
  assert (Hv : uchange s (void_row id reason (be_now env) s)) by (by eapply ch_void).
  destruct reissue; [|simplify_eq; by apply ch_emit, rtc_once]. cbn [insert_invoice] in H.
  eapply ch_then; [by eapply recompute_totals_changes|]. apply ch_emit.
  etrans; [by apply rtc_once|]. eapply rtc_l; [apply ch_new|]. eapply rtc_l; [|apply clone_changes].
  - apply (ch_mark _ id). intros i0 _. split_and!; try done. by left.
  - apply (alter_is_draft id); [done|]. apply new_is_draft.
Qed.

Lemma addManual_changes env id n d q p t c actor s s' l :
  addManualLine env id n d q p t c actor s = Ok (s', l) -> uchanges s s'.
Proof. unfold addManualLine. intros H. result_ok H. eapply insert_line_changes; [by eapply open_draft_is| |done]. done. Qed.

Lemma addCatalog_changes env id item q actor s s' l : addCatalogLine env id item q actor s = Ok (s', l) -> uchanges s s'.
Proof. unfold addCatalogLine. intros H. result_ok H. eapply insert_line_changes; [by eapply open_draft_is| |done]. done. Qed.

Lemma updateLine_changes env id k p actor s s' : updateLine env id k p actor s = Ok s' -> uchanges s s'.
Proof.
  unfold updateLine. intros H. result_ok H. destruct (bs_lines s !! k) as [l|] eqn:E; [|done].
  case_bool_decide as Hid; [|done]. eapply ch_then; [by eapply recompute_totals_changes|].
  apply rtc_once. eapply ch_line_put; [done|done|]. rewrite Hid. by eapply open_draft_is.
Qed.

Lemma removeLine_changes env id k actor s s' : removeLine env id k actor s = Ok s' -> uchanges s s'.
Proof.
  unfold removeLine. intros H. result_ok H. eapply ch_then; [by eapply recompute_totals_changes|].
  apply rtc_once, ch_line_drop. by eapply open_draft_is.
Qed.

Lemma updateInvoice_changes id p actor s s' : updateInvoice id p actor s = Ok s' -> uchanges s s'.
Proof.
  unfold updateInvoice. intros H. apply rbind_Ok in H as (i & Hi & H). apply rbind_Ok in H as (? & _ & H). simplify_eq.
  apply open_draft_spec in Hi as [Hi Hd]. apply rtc_once. eapply ch_edit; [done|done|].
  by destruct (pt_dueDate p).
Qed.

Lemma issue_check_spec id actor s r : issue_check id actor s = Ok r -> issue_read id s r.
Proof.
  unfold issue_check. intros H. result_ok H. simplify_eq. unfold issue_read. cbn.
  match goal with H : open_draft _ _ _ = Ok _ |- _ => apply open_draft_spec in H as [??] end. done.
Qed.

Lemma issue_changes env id actor s s' : 0 <= be_now env -> issueInvoice env id actor s = Ok s' -> uchanges s s'.
Proof.
  intros Hnow. unfold issueInvoice. intros H. apply rbind_Ok in H as (r & Hr & H). apply rbind_Ok in H as ([] & Hg & H). simplify_eq.
  apply ch_emit, rtc_once, ch_issue; [done|by eapply issue_check_spec|done].
Qed.

Lemma voidPayment_changes env pid actor s s' : voidPayment env pid actor s = Ok s' -> uchanges s s'.
Proof.
  unfold voidPayment. destruct (bs_payments s !! pid) as [p|] eqn:E; [|done]. intros H. result_ok H. simplify_eq.
  apply ch_emit, rtc_once. by eapply ch_unpay.
Qed.

Lemma updateDue_changes env id d actor s s' : updateIssuedDueDate env id d actor s = Ok s' -> uchanges s s'.
Proof.
  unfold updateIssuedDueDate, getOwnedInvoiceOr404. destruct (bs_invoices s !! id) as [i|] eqn:E; [|done].
  cbn [rbind]. intros H. result_ok H. bool_hyps. apply rtc_once. eapply ch_due; [done| |done].
  split; intros Hst; rewrite Hst in *; set_solver.
Qed.

Lemma viewed_changes env id orgId s s' : markViewed env id orgId s = Ok s' -> uchanges s s'.
Proof.
  unfold markViewed. intros H. result_ok H. simplify_eq.
  assert (Hm : uchange s (alter_invoice id (set_viewed (be_now env)) s)).
  { apply ch_mark. intros i _. split_and!; try done. by left. }
  case_bool_decide; [apply ch_emit|]; by apply rtc_once.
Qed.

Lemma create_changes orgId siteId notes actor s s' id :
  createManualInvoice orgId siteId notes actor s = Ok (s', id) -> uchanges s s'.
Proof. intros H. by apply rtc_once, (createManual_changes _ _ _ _ _ _ _ H). Qed.

Lemma fromOrg_changes env orgId siteId from to_ actor s s' id :
  assembleDraftFromOrg env orgId siteId from to_ actor s = Ok (s', id) -> uchanges s s'.
Proof.
  unfold assembleDraftFromOrg. intros H. result_ok H. repeat case_match; try done. by eapply assemble_changes.
Qed.

Lemma fromTicket_changes env ticketId actor s s' id :
  assembleDraftFromTicket env ticketId actor s = Ok (s', id) -> uchanges s s'.
Proof.
  unfold assembleDraftFromTicket. intros H. result_ok H. case_match; [|done]. result_ok H. by eapply assemble_changes.
Qed.

(** A row inserted with its columns set is an empty draft, edited. *)
Lemma insert_edited h siteId notes f s :
  (insert_invoice (f (draft_invoice h siteId notes)) s).1
  = alter_invoice (bs_nextId s) f (insert_invoice (draft_invoice h siteId notes) s).1.
Proof. unfold insert_invoice, alter_invoice, bump_id, with_invoices. cbn. by rewrite alter_insert_eq. Qed.

Lemma flip_none st s : flip_sources st [] [] s = s.
Proof.
  unfold flip_sources, with_sources. destruct s. cbn. f_equal.
  all: apply map_eq; intros k; rewrite map_lookup_imap; by destruct (_ !! k).
Qed.

Lemma insert_lines_rows ls s : bs_invoices (insert_lines ls s) = bs_invoices s.
Proof. revert s. induction ls as [|l ls IH]; intros s; [done|]. cbn. by rewrite IH. Qed.

Lemma insert_lines_of ls s l :
  l ∈ (map_to_list (bs_lines (insert_lines ls s))).*2 -> l ∈ ls \/ l ∈ (map_to_list (bs_lines s)).*2.
Proof.
  revert s. induction ls as [|l0 ls IH]; intros s H; [by right|]. cbn [insert_lines] in H. apply IH in H as [H|H].
  - left. by right.
  - apply list_elem_of_fmap in H as ([k x] & -> & H). apply elem_of_map_to_list in H. cbn in H.
    apply lookup_insert_Some in H as [[_ <-]|[_ H]]; [left; by left|right].
    apply list_elem_of_fmap. exists (k, x). by rewrite elem_of_map_to_list.
Qed.

Lemma manual_sources id ls s ty :
  lines_of id s = [] -> Forall (fun l => ln_sourceType l = src_manual) ls -> ty <> src_manual ->
  source_ids ty (lines_of id (insert_lines ls s)) = [].
Proof.
  intros H0 Hm Hty. unfold source_ids. apply elem_of_nil_inv. intros k (l & Hl & Hk)%list_elem_of_omap.
  apply list_filter_elem in Hl as [Hl Hid]. assert (E : ln_sourceType l = src_manual); [|by rewrite E, bool_decide_eq_false_2 in Hk].
  apply insert_lines_of in Hl as [Hl|Hl]; [by eapply Forall_forall in Hm|]. exfalso.
  assert (Hin : l ∈ lines_of id s) by (by apply list_filter_elem). rewrite H0 in Hin. set_solver.
Qed.

Lemma convert_changes env q oneTime userId s :
  0 <= be_now env -> lines_of (bs_nextId s) s = [] -> uchanges s (convert_invoice env q oneTime userId s).1.
Proof.
  intros Hnow Hfresh. unfold convert_invoice. destruct (insert_invoice _ s) as [s1 id] eqn:E.
  assert (Hs1 : s1 = (insert_invoice (accept_draft q userId) s).1) by (by rewrite E). assert (id = bs_nextId s) as -> by (by injection E).
  assert (Hrow : bs_invoices s1 !! bs_nextId s = Some (accept_draft q userId)) by (rewrite Hs1; apply lookup_insert_eq).
  set (ls := imap (convert_line (bs_nextId s) (q_orgId q)) oneTime).
  assert (Hls : Forall (fun l => ln_invoiceId l = bs_nextId s /\ ln_sourceType l = src_manual) ls).
  { apply Forall_forall. intros l (k & x & -> & _)%elem_of_lookup_imap. done. }
  assert (Hins : uchanges s (insert_lines ls s1)).
  { etrans; [|apply (insert_lines_changes (bs_nextId s)); [by eexists|by eapply Forall_impl; [exact Hls|intros ? [? _]]]].
    rewrite Hs1. unfold accept_draft.
    rewrite (insert_edited _ _ _ (fun i => set_charge (Some (q_currencyCode q)) None (set_amounts _ zero_money i))).
    eapply rtc_l; [apply ch_new|]. apply rtc_once. eapply ch_edit; [cbn; apply lookup_insert_eq|done|]. by repeat split. }
  assert (Hrow2 : bs_invoices (insert_lines ls s1) !! bs_nextId s = Some (accept_draft q userId)) by (by rewrite insert_lines_rows).
  eapply ch_then; [|exact Hins]. case_bool_decide.
  - eapply ch_edit; [done|done|]. by repeat split.
  - set (r := {| ir_invoice := accept_draft q userId; ir_timeIds := []; ir_partIds := [] |}).
    assert (Hr : issue_read (bs_nextId s) (insert_lines ls s1) r).
    { assert (Hl1 : lines_of (bs_nextId s) s1 = []) by (by rewrite Hs1). split_and!; try done; cbn; symmetry;
        (apply manual_sources; [done|by eapply Forall_impl; [exact Hls|intros ? [_ ?]]|done]). }
    pose proof (ch_issue invoice_only (insert_lines ls s1) env (bs_nextId s) r None (accept_deposit q)
      (accept_amounts oneTime (qh_taxRate (q_head q))) Hnow Hr eq_refl) as Hc.
    unfold issue_with in Hc. by rewrite flip_none in Hc.
Qed.

Lemma capture_changes env id i a s s' p :
  bs_invoices s !! id = Some i -> open_status (iv_status i) -> 0 < a -> cents_ok a ->
  toCents (Some (money a)) <= toCents (Some (il_balance (iv_life i))) -> capture_payment env id (money a) s = Ok (s', p) -> uchanges s s'.
Proof.
  intros Hi Ho Ha Hok Hle H. unfold capture_payment in H. result_ok H. simplify_eq.
  match goal with G : recomputeInvoiceStatus _ _ _ = Ok ?x |- _ => assert (Hs : uchange s x) by (by eapply (ch_pay _ _ id i a None)) end.
  unfold emit_if_paid. repeat case_match; repeat apply ch_emit; by apply rtc_once.
Qed.

Lemma event_changes e s : uchanges s (emit e s).
Proof. by apply ch_emit. Qed.

Lemma refund_all_changes env pid p s s' :
  bs_payments s !! pid = Some p ->
  recomputeInvoiceStatus env (py_invoiceId p) (with_payments (delete pid) s) = Ok s' -> uchanges s s'.
Proof. intros. apply rtc_once. by eapply ch_unpay. Qed.

Lemma refund_part_changes env pid p a s s' :
  bs_payments s !! pid = Some p -> 0 < a -> cents_ok a -> toCents (Some (money a)) <= toCents (Some (py_amount p)) ->
  recomputeInvoiceStatus env (py_invoiceId p) (with_payments (alter (set_amount (money a)) pid) s) = Ok s' -> uchanges s s'.
Proof. intros. apply rtc_once. by eapply ch_refund. Qed.

Lemma invoice_step_changes s s' : invoice_step s s' -> uchanges s s'.
Proof.
  destruct 1; [by eapply create_changes|by eapply addManual_changes|by eapply addCatalog_changes|by eapply addBundle_changes
    |by eapply updateLine_changes|by eapply removeLine_changes|by eapply deleteDraft_changes|by eapply updateInvoice_changes
    |by eapply fromOrg_changes|by eapply fromTicket_changes|by eapply issue_changes|by eapply recordPayment_changes
    |by eapply voidPayment_changes|by eapply updateDue_changes|by eapply voidInvoice_changes|apply overdue_changes
    |by eapply viewed_changes|by apply convert_changes|by eapply capture_changes|by eapply refund_all_changes
    |by eapply refund_part_changes|apply event_changes].
Qed.

Lemma frame_trans s s1 s2 : contract_frame s s1 -> contract_frame s1 s2 -> contract_frame s s2.
Proof.
  intros (A1 & A2 & A3 & A4) (B1 & B2 & B3 & B4). split_and!; [congruence|congruence| |lia]. intros key.
  specialize (A3 key). specialize (B3 key).
  destruct (bs_periods s !! key) as [b|], (bs_periods s1 !! key) as [b1|], (bs_periods s2 !! key) as [b2|];
    inversion A3 as [? ? H|]; inversion B3 as [? ? H'|]; subst; constructor.
  destruct H as (? & ? & H), H' as (? & ? & H'). split_and!; [congruence|congruence|].
  destruct H' as [E|E]; rewrite E; [done|by right].
Qed.

Lemma uchange_frame s s' : uchange s s' -> contract_frame s s'.
Proof.
  assert (Hrec : forall env k x, recomputeInvoiceStatus env k x = Ok s' -> contract_frame x s').
  { intros env k x H. unfold recomputeInvoiceStatus, getOwnedInvoiceOr404 in H. destruct (bs_invoices x !! k); [|done].
    cbn [rbind] in H. simplify_eq. by apply frame_refl. }
  destruct 1; try (by apply frame_refl; try done; cbn; lia); [by destruct H| | | |].
  all: eapply frame_trans; [|by eapply Hrec]; apply frame_refl; try done; cbn; lia.
Qed.

Lemma uchanges_frame s s' : uchanges s s' -> contract_frame s s'.
Proof.
  induction 1 as [|s s1 s2 H _ IH]; [by apply frame_refl|]. eapply frame_trans; [by apply uchange_frame|done].
Qed.

Lemma uchanges_ichanges s s' : uchanges s s' -> ichanges s s'.
Proof.
  induction 1 as [|s s1 s2 H _ IH]; [done|]. eapply rtc_l; [|done]. clear IH.
  destruct H; [by apply ch_same, H|apply ch_new|by eapply ch_edit|by apply ch_line_new|by eapply ch_line_put|by apply ch_line_drop
    |by apply ch_drop|by apply ch_issue|by eapply ch_pay|by eapply ch_unpay|by eapply ch_refund|by eapply ch_due|by eapply ch_void
    |by apply ch_mark].
Qed.

(** The contract tables are apart. *)
Lemma claim_same id e k s : same_invoicing s (claimNotice id e k s).1.
Proof. unfold claimNotice. case_bool_decide; by repeat split. Qed.

Lemma same_trans s s1 s2 : same_invoicing s s1 -> same_invoicing s1 s2 -> same_invoicing s s2.
Proof. unfold same_invoicing. intros. destruct_and!. split_and!; try congruence. lia. Qed.

Lemma renewal_step_same today s n m r s' n' m' :
  renewal_step today (s, n, m) r = (s', n', m') -> same_invoicing s s'.
Proof.
  destruct r as [id c]. unfold renewal_step, renewal_notice, renewal_extend. intros H.
  repeat case_match; simplify_eq; cbn [fst snd] in *; try done;
    repeat match goal with
    | E : claimNotice ?i ?e ?k ?st = (?a, _) |- _ =>
        pose proof (claim_same i e k st); rewrite E in *; clear E; cbn [fst] in *
    end; try done; try (eapply same_trans; [|apply claim_same]; by try done).
Qed.

Lemma renewal_same env s : same_invoicing s (runContractRenewalSweep env s).1.1.
Proof.
  unfold runContractRenewalSweep. generalize (List.filter (fun r => renewal_candidate r.2) (map_to_list (bs_contracts s))).
  intros l. generalize 0%nat at 1. generalize 0%nat. revert s. induction l as [|r l IH]; intros s n m; [done|].
  cbn [fold_left]. destruct (renewal_step _ (s, m, n) r) as [[s1 n1] m1] eqn:E.
  eapply same_trans; [by eapply renewal_step_same|apply IH].
Qed.

Lemma spec_lines_same id orgId ls s : same_invoicing s (insert_spec_lines id orgId ls s).1.
Proof.
  revert s. induction ls as [|l ls IH]; intros s; [done|]. cbn [insert_spec_lines insert_contract_line].
  specialize (IH (bump_id (with_contractLines (<[bs_nextId s := spec_contract_line id orgId l]>) s))).
  destruct (insert_spec_lines id orgId ls _) as [s2 links]. eapply same_trans; [|exact IH]. repeat split. cbn. lia.
Qed.

Lemma create_spec_same sp s : same_invoicing s (createContractWithLinesDetailed sp s).1.1.
Proof.
  unfold createContractWithLinesDetailed.
  pose proof (spec_lines_same (bs_nextId s) (nc_orgId sp) (nc_lines sp) (bump_id (with_contracts (<[bs_nextId s := spec_contract sp]>) s))) as H.
  destruct (insert_spec_lines _ _ _ _) as [s2 links]. eapply same_trans; [|exact H]. repeat split. cbn. lia.
Qed.

Lemma contract_step_same s s' : contract_step s s' -> same_invoicing s s'.
Proof.
  destruct 1 as [?????? H|????? H|??? H|???????????? H|???? H|????? H|??? H|????? H|??? H| |]; [..|apply renewal_same|apply create_spec_same].
  all: unfold createContract, updateContract, deleteDraftContract, addContractLineToContract, removeContractLine,
    activateContract, pauseContract, resumeContract, cancelContract in H.
  all: result_ok H; repeat case_match; simplify_eq; repeat split; cbn; lia || done.
Qed.

Lemma advance_same id c idx s : same_invoicing s (advance_pointer id c idx s).
Proof. unfold advance_pointer. case_match; by repeat split. Qed.

(** A billing run: new invoice rows only, or the new invoice with its claim. *)
Definition run_effect (env : BillEnv) (id : nat) (c : Contract) (s s' : BillStore) (r : GenerateResult) : Prop :=
  match ct_nextBillingAt c with
  | None => s' = s /\ r = not_due
  | Some at_ =>
      let idx := due_index c at_ in
      let period := computePeriod (ct_startDate c) (ct_intervalMonths c) idx in
      if negb (bool_decide (ct_status c = ct_active)) || negb (str_le at_ (iso_of_ms (be_now env))) then s' = s /\ r = not_due
      else if isExpired (ct_endDate c) (periodStart period) then s' = expire id s /\ r = gen_expired
      else match r with
           | generated inv auto actor =>
               exists s2, uchanges s s2 /\ inv = bs_nextId s /\ (inv < bs_nextId s2)%nat /\ auto = ct_autoIssue c
                 /\ bs_periods s2 !! (id, periodStart period) = None
                 /\ s' = emit (contract_invoiced id inv) (advance_pointer id c idx
                      (with_periods (<[(id, periodStart period) := {| bp_orgId := ct_orgId c; bp_periodEnd := periodEnd period;
                                                                       bp_invoiceId := Some inv |}]>) s2))
           | already_billed => uchanges s s' /\ is_Some (bs_periods s !! (id, periodStart period))
           | not_due => s' = s
           | gen_expired => False
           end
  end.

Lemma generate_effect env id c s s' r : generate_with env id c s = Ok (s', r) -> run_effect env id c s s' r.
Proof.
  unfold generate_with, run_effect. intros H. destruct (ct_nextBillingAt c) as [at_|]; [|by simplify_eq].
  destruct (_ || _); [by simplify_eq|]. destruct (isExpired _ _); [by simplify_eq|].
  case_bool_decide; [by simplify_eq|]. apply rbind_Ok in H as ([s1 inv] & H1 & H).
  apply rbind_Ok in H as (s2 & H2 & H).
  assert (Hu : uchanges s s2) by (etrans; [by eapply create_changes|by eapply add_contract_lines_changes]).
  assert (Hinv : inv = bs_nextId s /\ (inv < bs_nextId s2)%nat).
  { apply createManual_changes in H1 as (_ & h & -> & -> & _). split; [done|].
    destruct (uchanges_frame _ _ (add_contract_lines_changes _ _ _ _ _ _ H2)) as (_ & _ & _ & Hle). cbn in Hle. lia. }
  unfold claim_period in H. destruct (bs_periods s2 !! _) as [b|] eqn:E.
  - apply rbind_Ok in H as (s3 & H3 & H). simplify_eq. split; [etrans; [done|by eapply deleteDraft_changes]|].
    destruct (uchanges_frame _ _ Hu) as (_ & _ & Hp & _). specialize (Hp (id, periodStart (computePeriod (ct_startDate c)
      (ct_intervalMonths c) (due_index c at_)))). rewrite E in Hp. by inversion Hp.
  - simplify_eq. exists s2. by destruct Hinv.
Qed.

Lemma generate_changes env id c s s' r : generate_with env id c s = Ok (s', r) -> ichanges s s'.
Proof.
  intros H%generate_effect. unfold run_effect in H. repeat case_match; try done.
  all: destruct_and?; try contradiction; subst; try done.
  - apply rtc_once, ch_same. by repeat split.
  - destruct H as (s2 & Hu & _ & _ & _ & _ & ->). etrans; [by apply uchanges_ichanges|]. apply rtc_once, ch_same.
    eapply same_trans; [|by repeat split]. eapply same_trans; [|apply advance_same]. by repeat split.
  - by apply uchanges_ichanges.
Qed.

Lemma bill_step_changes x y : bill_step x y -> ichanges (sy_store x) (sy_store y).
Proof.
  destruct 1; cbn; [by apply uchanges_ichanges, invoice_step_changes|by apply rtc_once, ch_same, contract_step_same|done
    |by eapply generate_changes|done].
Qed.

Lemma bill_steps_change x y : rtc bill_step x y -> ichanges (sy_store x) (sy_store y).
Proof. induction 1 as [|x y z H _ IH]; [done|]. etrans; [by apply bill_step_changes|done]. Qed.

(** An invariant of the elementary changes holds in every reachable store. *)
Lemma reachable_invariant (P : BillStore -> Prop) :
  (forall time parts_, P (empty_bills time parts_)) -> (forall s s', P s -> ichange s s' -> P s') ->
  forall s, bill_reachable s -> P s.
Proof.
  intros H0 Hs s (time & parts_ & rs & H%bill_steps_change). cbn in H. pose proof (H0 time parts_) as Hp.
  induction H as [|x y z Hxy _ IH]; [done|]. eauto.
Qed.

(** The worker's job is a sequence of steps: a renewal pass, and a run and maybe an
    issue per contract. *)
Lemma billing_step_steps env s n m id s' n' m' rs :
  clock_ok env -> billing_step env (s, n, m) id = (s', n', m') ->
  rtc bill_step {| sy_store := s; sy_runs := rs |} {| sy_store := s'; sy_runs := rs |}.
Proof.
  intros Hc. unfold billing_step, generateDueInvoice. destruct (bs_contracts s !! id) as [c|] eqn:Ec; [|by intros; simplify_eq].
  destruct (generate_with env id c s) as [[s1 r]|e] eqn:E; [|by intros; simplify_eq].
  assert (Hrun : rtc bill_step {| sy_store := s; sy_runs := rs |} {| sy_store := s1; sy_runs := rs |}).
  { eapply rtc_l; [by apply step_run_begin|]. apply rtc_once. by apply (step_run_commit env s id c s1 r [] rs). }
  destruct r as [inv [] actor| | |]; intros H; simplify_eq; try done.
  destruct (issueInvoice env inv actor s1) as [s2|] eqn:Ei; [|done].
  eapply rtc_r; [done|]. apply step_invoice. eapply do_issueInvoice; [apply Hc|done].
Qed.

Lemma contract_job_steps env s rs :
  clock_ok env -> rtc bill_step {| sy_store := s; sy_runs := rs |} {| sy_store := contract_job env s; sy_runs := rs |}.
Proof.
  intros Hc. unfold contract_job. eapply rtc_l; [apply step_contract, (do_renewalSweep _ env)|].
  generalize (runContractRenewalSweep env s).1.1. clear s. intros s. unfold runContractBillingSweep.
  generalize ((List.filter (fun r => contract_due (iso_of_ms (be_now env)) r.2) (map_to_list (bs_contracts s))).*1).
  intros ids. generalize 0%nat at 1. generalize 0%nat. revert s. induction ids as [|id ids IH]; intros s n m; [done|].
  cbn [fold_left]. destruct (billing_step env (s, m, n) id) as [[s1 n1] m1] eqn:E.
  etrans; [by eapply billing_step_steps|apply IH].
Qed.

(** ** Runs on given data *)

(** The store after a call, whether or not it was refused. *)
Definition stored {A} (s : BillStore) (r : outcome (BillStore * A)) : BillStore := match r with Ok (s', _) => s' | Err _ => s end.
Definition stored1 (s : BillStore) (r : outcome BillStore) : BillStore := match r with Ok s' => s' | Err _ => s end.

(** Closed facts by evaluation, without a look at the context. *)
Ltac by_eval := vm_compute; repeat split; (reflexivity || discriminate).
