(* ===== verification/BillingTheorems.v ===== *)
(** * What the invoice tables keep

    Issued amounts, payments, billed work and invoice numbers, in every store the
    service calls lead to. *)

From stdpp Require Import base gmap strings list option relations sorting.
From Stdlib Require Import Ascii ZArith Lia QArith Qround Lqa.
From S2P Require Import Prelude Calendar Doubles Money BillingStore.
From S2P Require Import Invoices Contracts BillingSystem.
Open Scope Z_scope.

(** The arithmetic of [Money] is used through its lemmas. *)
#[local] Opaque toCents fromCents toFixed rnd computeInvoiceTotals.

(** ** Well-formed tables *)

Definition row_wf (i : Invoice) : Prop :=
  let l := iv_life i in
  (iv_status i = inv_draft -> il_invoiceNumber l = None /\ il_voidedAt l = None /\ il_amountPaid l = money 0)
  /\ (iv_status i <> inv_draft -> il_invoiceNumber l <> None)
  /\ (iv_status i = inv_void <-> il_voidedAt l <> None).

Record bill_wf (s : BillStore) : Prop := {
  wf_id : forall id i, bs_invoices s !! id = Some i -> (id < bs_nextId s)%nat;
  wf_row : forall id i, bs_invoices s !! id = Some i -> row_wf i;
  wf_line : forall k l, bs_lines s !! k = Some l -> (k < bs_nextId s /\ ln_invoiceId l < bs_nextId s)%nat;
  wf_pay : forall k p, bs_payments s !! k = Some p ->
    (k < bs_nextId s)%nat /\ exists i, bs_invoices s !! py_invoiceId p = Some i /\ iv_status i <> inv_draft;
}.

(** Lookups of an updated table. *)
Ltac look H :=
  cbn in H;
  first [ apply lookup_alter_Some in H as [(? & ? & H & ?)|(? & H)]
        | apply lookup_insert_Some in H as [(? & ?)|(? & H)]
        | apply lookup_delete_Some in H as [? H]
        | apply map_lookup_filter_Some in H as [H ?] ]; simplify_eq.

Lemma recompute_spec env id s s' :
  recomputeInvoiceStatus env id s = Ok s' ->
  exists i paid status, bs_invoices s !! id = Some i
    /\ paid = fromCents (fold_left (fun acc p => acc + toCents (Some (py_amount p))) (payments_of id s) 0)
    /\ status = deriveInvoiceStatus (bool_decide (il_voidedAt (iv_life i) <> None))
         (bool_decide (il_invoiceNumber (iv_life i) <> None)) (iv_total i) paid (il_dueDate (iv_life i)) (be_now env)
    /\ s' = alter_invoice id (set_life (set_paid paid (fromCents (toCents (Some (iv_total i)) - toCents (Some paid)))
                                          status (be_now env))) s.
Proof.
  unfold recomputeInvoiceStatus, getOwnedInvoiceOr404. destruct (bs_invoices s !! id) as [i|] eqn:E; [|done].
  cbn [rbind]. intros H. simplify_eq. eauto 10.
Qed.

Lemma derive_void voided issued t p d now : (deriveInvoiceStatus voided issued t p d now = inv_void) <-> voided = true.
Proof. unfold deriveInvoiceStatus. destruct voided; [done|]. split; [|done]. repeat case_match; done. Qed.

Lemma derive_draft voided issued t p d now :
  issued = true -> deriveInvoiceStatus voided issued t p d now <> inv_draft.
Proof. intros ->. unfold deriveInvoiceStatus. repeat case_match; done. Qed.

Lemma set_paid_wf p b now t paid d i :
  il_invoiceNumber (iv_life i) <> None ->
  row_wf (set_life (set_paid p b (deriveInvoiceStatus (bool_decide (il_voidedAt (iv_life i) <> None))
    (bool_decide (il_invoiceNumber (iv_life i) <> None)) t paid d now) now) i).
Proof.
  intros Hn. unfold row_wf, iv_status. cbn. split_and!.
  - intros H. exfalso. eapply derive_draft; [|exact H]. by apply bool_decide_eq_true.
  - done.
  - rewrite derive_void, bool_decide_eq_true. done.
Qed.

Lemma marked_wf i i' : marked i i' -> row_wf i -> row_wf i'.
Proof.
  unfold marked, row_wf. intros (_ & _ & -> & _ & -> & -> & _ & [->|[H1 H2]]); [done|].
  rewrite H2. intros (Hd & Hn & Hv). set_unfold in H1. split_and!; [done| |].
  - intros _. apply Hn. intros Hx. rewrite Hx in H1. by destruct H1 as [|[|]].
  - split; [done|]. intros Hx. apply Hv in Hx. rewrite Hx in H1. by destruct H1 as [|[|]].
Qed.

(** An issued row stays an issued row. *)
Lemma recompute_issued env k x s' id i :
  recomputeInvoiceStatus env k x = Ok s' -> bs_invoices x !! id = Some i -> il_invoiceNumber (iv_life i) <> None ->
  iv_status i <> inv_draft -> exists i', bs_invoices s' !! id = Some i' /\ iv_status i' <> inv_draft.
Proof.
  intros (j & p & st & Hj & -> & -> & ->)%recompute_spec Hx Hn Hst. cbn.
  destruct (decide (k = id)) as [->|Hne]; [|rewrite lookup_alter_ne by done; eauto].
  rewrite lookup_alter_eq, Hx. eexists. split; [done|]. cbn. simplify_eq. by apply derive_draft, bool_decide_eq_true.
Qed.

Lemma recompute_rows env k x s' :
  recomputeInvoiceStatus env k x = Ok s' ->
  (forall id i, bs_invoices x !! id = Some i -> row_wf i) ->
  (forall i, bs_invoices x !! k = Some i -> iv_status i <> inv_draft) ->
  (forall id i, bs_invoices s' !! id = Some i -> row_wf i) /\ bs_lines s' = bs_lines x /\ bs_payments s' = bs_payments x
  /\ bs_nextId s' = bs_nextId x /\ (forall id i, bs_invoices s' !! id = Some i -> is_Some (bs_invoices x !! id)).
Proof.
  intros (j & p & st & Hj & -> & -> & ->)%recompute_spec Hrow Hk. split_and!; try done.
  - intros id i Hi. look Hi; [|by eapply Hrow]. apply set_paid_wf, (Hrow _ _ Hj). by apply Hk.
  - intros id i Hi. look Hi; eauto.
Qed.

Lemma draft_edit_wf i i' : draft_edit i i' -> row_wf i -> row_wf i'.
Proof. unfold draft_edit, row_wf. by intros (_ & -> & -> & -> & ->). Qed.

Lemma issued_row_wf cur dep number d1 d2 b t b' i :
  il_voidedAt (iv_life i) = None -> row_wf (set_charge cur dep (set_life (set_issued number d1 d2 b) (set_amounts t b' i))).
Proof. intros E. unfold row_wf, iv_status. cbn. rewrite E. naive_solver. Qed.

Lemma voided_row_wf reason now i : row_wf i -> iv_status i <> inv_draft -> row_wf (set_life (set_void reason now) i).
Proof. intros (_ & Hn & _) Hst. unfold row_wf, iv_status. cbn. split_and!; [done|by intros _; apply Hn|done]. Qed.

Lemma wf_recompute env k x s' :
  bill_wf x -> recomputeInvoiceStatus env k x = Ok s' ->
  (forall i, bs_invoices x !! k = Some i -> iv_status i <> inv_draft) -> bill_wf s'.
Proof.
  intros Hwf Hr Hk. destruct (recompute_rows _ _ _ _ Hr (wf_row _ Hwf) Hk) as (H1 & H2 & H3 & H4 & H5).
  split; rewrite ?H2, ?H3, ?H4.
  - intros id i Hi. destruct (H5 _ _ Hi) as [j Hj]. by eapply wf_id.
  - done.
  - apply (wf_line _ Hwf).
  - intros n p Hp. destruct (wf_pay _ Hwf _ _ Hp) as (Hlt & i & Hi & Hst). split; [done|].
    eapply recompute_issued; [done|done| |done]. by apply (wf_row _ Hwf _ _ Hi).
Qed.

Lemma wf_add_payment id a by_ s i :
  bill_wf s -> bs_invoices s !! id = Some i -> iv_status i <> inv_draft -> bill_wf (add_payment id a by_ s).
Proof.
  intros Hwf Hi Hst. split; cbn.
  - intros k j Hj. pose proof (wf_id _ Hwf _ _ Hj). lia.
  - apply (wf_row _ Hwf).
  - intros k l Hl. pose proof (wf_line _ Hwf _ _ Hl). lia.
  - intros k p Hp. look Hp; [split; [lia|]; eauto|]. destruct (wf_pay _ Hwf _ _ Hp) as [? ?]. split; [lia|done].
Qed.

Lemma wf_alter_payment pid a s : bill_wf s -> bill_wf (with_payments (alter (set_amount a) pid) s).
Proof.
  intros [H1 H2 H3 H4]. split; [done..|]. intros k p Hp. look Hp; apply (H4 _ _ Hp).
Qed.

Lemma wf_drop_payment pid s : bill_wf s -> bill_wf (with_payments (delete pid) s).
Proof.
  intros [H1 H2 H3 H4]. split; [done..|]. intros k p Hp. look Hp. by apply H4.
Qed.

(** An alteration of a row that keeps issued rows issued. *)
Lemma wf_alter id f s :
  bill_wf s -> (forall i, bs_invoices s !! id = Some i -> row_wf (f i) /\ (iv_status i <> inv_draft -> iv_status (f i) <> inv_draft)) ->
  bill_wf (alter_invoice id f s).
Proof.
  intros Hwf Hf. split; cbn.
  - intros k i Hi. look Hi; by eapply wf_id.
  - intros k i Hi. look Hi; [by apply Hf|by eapply wf_row].
  - apply (wf_line _ Hwf).
  - intros k p Hp. destruct (wf_pay _ Hwf _ _ Hp) as (Hlt & i & Hi & Hst). split; [done|].
    destruct (decide (id = py_invoiceId p)) as [->|Hne].
    + exists (f i). rewrite lookup_alter_eq, Hi. split; [done|]. by apply Hf.
    + exists i. by rewrite lookup_alter_ne.
Qed.

Lemma wf_sources f g s : bill_wf s -> bill_wf (with_sources f g s).
Proof. by intros [H1 H2 H3 H4]. Qed.

Lemma wf_lines f s :
  bill_wf s -> (forall k l, f (bs_lines s) !! k = Some l -> (k < bs_nextId s /\ ln_invoiceId l < bs_nextId s)%nat) ->
  bill_wf (with_lines f s).
Proof. by intros [H1 H2 H3 H4] ?. Qed.

Lemma wf_preserved s s' : bill_wf s -> ichange s s' -> bill_wf s'.
Proof.
  intros Hwf. destruct 1 as [s' Hs|h site notes|k j f Hj Hd He|l (j & Hj & Hd)|k l0 l Hl0 Hl Hd|k n Hd|k (j & Hj & Hd)
    |env k r cur dep am Hnow Hr Hg|env k j a by_ s' Hj Ho Ha Hok Hle Hr|env pid p s' Hp Hr|env pid p a s' Hp Ha Haok Hle Hr|env k j d s' Hj Ho Hr|k j reason now Hj Ho|k f Hf].
  - destruct Hs as (E1 & E2 & E3 & _ & _ & _ & Hn). destruct Hwf as [H1 H2 H3 H4]. split; rewrite ?E1, ?E2, ?E3; try done.
    + intros id i Hi. specialize (H1 _ _ Hi). lia.
    + intros id i Hi. specialize (H3 _ _ Hi). lia.
    + intros id i Hi. destruct (H4 _ _ Hi) as [? ?]. split; [lia|done].
  - split; cbn.
    + intros id i Hi. look Hi; [lia|]. pose proof (wf_id _ Hwf _ _ Hi). lia.
    + intros id i Hi. look Hi; [done|]. by eapply wf_row.
    + intros id l Hl. pose proof (wf_line _ Hwf _ _ Hl). lia.
    + intros id p Hp. destruct (wf_pay _ Hwf _ _ Hp) as (? & i & Hi & ?). split; [lia|]. exists i.
      rewrite lookup_insert_ne; [done|]. pose proof (wf_id _ Hwf _ _ Hi). lia.
  - apply wf_alter; [done|]. intros i Hi. simplify_eq. split; [eapply draft_edit_wf; [done|by eapply wf_row]|done].
  - pose proof (wf_id _ Hwf _ _ Hj). destruct Hwf as [H1 H2 H3 H4]. split; cbn.
    + intros id i Hi. specialize (H1 _ _ Hi). lia.
    + done.
    + intros id l' Hl'. look Hl'; [lia|]. specialize (H3 _ _ Hl'). lia.
    + intros id p Hp. destruct (H4 _ _ Hp) as [? ?]. split; [lia|done].
  - apply wf_lines; [done|]. intros id l' Hl'. look Hl'; [|by eapply wf_line]. rewrite Hl. by eapply wf_line.
  - apply wf_lines; [done|]. intros id l' Hl'. unfold delete_line in Hl'. look Hl'. by eapply wf_line.
  - destruct Hwf as [H1 H2 H3 H4]. split; cbn.
    + intros id i Hi. look Hi. by eapply H1.
    + intros id i Hi. look Hi. by eapply H2.
    + intros id l Hl. look Hl. by eapply H3.
    + intros id p Hp. look Hp. destruct (H4 _ _ Hp) as (? & i & Hi & ?). split; [done|]. exists i. by rewrite lookup_delete_ne.
  - apply wf_sources, wf_alter; [by destruct Hwf|]. intros i Hi.
    destruct Hr as (Hk & Hd & _). cbn in Hi. simplify_eq. split; [|done].
    apply issued_row_wf. by apply (wf_row _ Hwf _ _ Hk).
  - eapply wf_recompute; [by eapply wf_add_payment; [..|apply Ho]|done|]. intros i Hi. cbn in Hi. simplify_eq. apply Ho.
  - eapply wf_recompute; [by apply wf_drop_payment|done|]. intros i Hi. cbn in Hi.
    destruct (wf_pay _ Hwf _ _ Hp) as (_ & i' & Hi' & Hst). by simplify_eq.
  - eapply wf_recompute; [by apply wf_alter_payment|done|]. intros i Hi. cbn in Hi.
    destruct (wf_pay _ Hwf _ _ Hp) as (_ & i' & Hi' & Hst). by simplify_eq.
  - eapply wf_recompute; [apply wf_alter; [done|]|done|].
    + intros i Hi. simplify_eq. split; [apply (wf_row _ Hwf _ _ Hj)|done].
    + intros i Hi. cbn in Hi. rewrite lookup_alter_eq, Hj in Hi. injection Hi as <-. apply Ho.
  - apply wf_sources, wf_alter; [done|]. intros i Hi. simplify_eq. split; [|done].
    apply voided_row_wf; [by eapply wf_row|apply Ho].
  - apply wf_alter; [done|]. intros i Hi. specialize (Hf i Hi). split; [eapply marked_wf; [done|by eapply wf_row]|].
    destruct Hf as (_ & _ & _ & _ & _ & _ & _ & [->|[_ ->]]); done.
Qed.

Lemma reachable_wf s : bill_reachable s -> bill_wf s.
Proof.
  apply reachable_invariant; [|by apply wf_preserved]. intros time parts_. by split.
Qed.

(** C34: The columns of every invoice row fit together in every reachable store: a
    draft has no number, no void mark and nothing paid; any other row has a number; a
    row is void exactly when it has a void date; payments belong to issued invoices. *)
Theorem billing_rows_are_well_formed s :
  bill_reachable s ->
  (forall id i, bs_invoices s !! id = Some i -> row_wf i)
  /\ forall k p, bs_payments s !! k = Some p -> exists i, bs_invoices s !! py_invoiceId p = Some i /\ iv_status i <> inv_draft.
Proof. intros H%reachable_wf. split; [apply (wf_row _ H)|]. intros k p Hp. by apply (wf_pay _ H _ _ Hp). Qed.

(** ** Issued invoices are frozen *)

(** The bill as the customer got it. *)
Definition same_bill (i i' : Invoice) : Prop :=
  iv_head i' = iv_head i /\ iv_amounts i' = iv_amounts i /\ il_invoiceNumber (iv_life i') = il_invoiceNumber (iv_life i)
  /\ il_issueDate (iv_life i') = il_issueDate (iv_life i).

Definition frozen_in (i : Invoice) (s' : BillStore) (id : nat) : Prop :=
  exists i', bs_invoices s' !! id = Some i' /\ iv_status i' <> inv_draft /\ same_bill i i'.

Lemma frozen_refl s id i : bs_invoices s !! id = Some i -> iv_status i <> inv_draft -> frozen_in i s id.
Proof. intros. exists i. by repeat split. Qed.

Lemma recompute_frozen env k x s' id i :
  recomputeInvoiceStatus env k x = Ok s' -> bs_invoices x !! id = Some i -> il_invoiceNumber (iv_life i) <> None ->
  iv_status i <> inv_draft -> frozen_in i s' id.
Proof.
  intros H Hx Hn Hst. destruct (recompute_issued _ _ _ _ _ _ H Hx Hn Hst) as (i' & Hi' & Hst').
  apply recompute_spec in H as (j & p & st & Hj & -> & -> & ->). exists i'. split_and!; [done|done|].
  look Hi'; by repeat split.
Qed.

Lemma alter_frozen k f s id i :
  bs_invoices s !! id = Some i -> iv_status i <> inv_draft ->
  (k = id -> iv_status (f i) <> inv_draft /\ same_bill i (f i)) -> frozen_in i (alter_invoice k f s) id.
Proof.
  intros Hi Hst Hf. destruct (decide (k = id)) as [->|Hne].
  - exists (f i). cbn. rewrite lookup_alter_eq, Hi. split; [done|by apply Hf].
  - exists i. cbn. rewrite lookup_alter_ne by done. by repeat split.
Qed.

Lemma row_frozen s s' id i :
  bill_wf s -> ichange s s' -> bs_invoices s !! id = Some i -> iv_status i <> inv_draft -> frozen_in i s' id.
Proof.
  intros Hwf Hc Hi Hst. assert (Hn : il_invoiceNumber (iv_life i) <> None) by (by apply (wf_row _ Hwf _ _ Hi)).
  pose proof (wf_id _ Hwf _ _ Hi) as Hlt.
  destruct Hc as [s' Hs|h site notes|k j f Hj Hd He|l Hd|k l0 l Hl0 Hl Hd|k n Hd|k (j & Hj & Hd)|env k r cur dep am Hnow Hr Hg
    |env k j a by_ s' Hj Ho Ha Hok Hle Hr|env pid p s' Hp Hr|env pid p a s' Hp Ha Haok Hle Hr|env k j d s' Hj Ho Hr|k j reason now Hj Ho|k f Hf].
  - destruct Hs as (E & _). apply frozen_refl; by rewrite ?E.
  - apply frozen_refl; [|done]. cbn. rewrite lookup_insert_ne by lia. done.
  - apply alter_frozen; [done|done|congruence].
  - by apply frozen_refl.
  - by apply frozen_refl.
  - by apply frozen_refl.
  - apply frozen_refl; [|done]. cbn. rewrite lookup_delete_ne by congruence. done.
  - destruct Hr as (Hk & Hd & _). apply (alter_frozen k); [done|done|congruence].
  - by eapply recompute_frozen.
  - by eapply recompute_frozen.
  - by eapply recompute_frozen.
  - destruct (decide (k = id)) as [->|Hne].
    + eapply (recompute_frozen _ _ _ _ id (set_life (set_dueDate (Some d)) i)); [done|cbn; by rewrite lookup_alter_eq, Hi|done..].
    + eapply recompute_frozen; [done|cbn; by rewrite lookup_alter_ne|done..].
  - apply (alter_frozen k); [done|done|]. intros _. by repeat split.
  - apply alter_frozen; [done|done|]. intros ->. destruct (Hf i Hi) as (? & ? & ? & ? & _ & _ & _ & [->|[_ ->]]); by repeat split.
Qed.

(** Lines change on drafts only. *)
Lemma lines_frozen s s' id i k l :
  bill_wf s -> ichange s s' -> bs_invoices s !! id = Some i -> iv_status i <> inv_draft -> ln_invoiceId l = id ->
  bs_lines s' !! k = Some l <-> bs_lines s !! k = Some l.
Proof.
  intros Hwf Hc Hi Hst Hl. assert (Hnd : ~ is_draft s id) by (intros (j & Hj & Hd); congruence).
  assert (Hrec : forall env n x, recomputeInvoiceStatus env n x = Ok s' -> bs_lines s' = bs_lines x)
    by (intros env n x (? & ? & ? & _ & _ & _ & ->)%recompute_spec; done).
  destruct Hc as [s' Hs|h site notes|n j f Hj Hd He|l' Hd|n l0 l' Hl0 Hl' Hd|n m Hd|n Hd|env n r cur dep am Hnow Hr Hg
    |env n j a by_ s' Hj Ho Ha Hok Hle Hr|env pid p s' Hp Hr|env pid p a s' Hp Ha Haok Hle Hr|env n j d s' Hj Ho Hr|n j reason now Hj Ho|n f Hf]; try done.
  - destruct Hs as (_ & -> & _). done.
  - cbn. rewrite lookup_insert_Some. split; [intros [[<- <-]|[_ ?]]; [by rewrite Hl in Hd|done]|].
    intros Hk. right. split; [|done]. pose proof (wf_line _ Hwf _ _ Hk). lia.
  - cbn. rewrite lookup_insert_Some. split.
    + intros [[<- <-]|[_ ?]]; [|done]. by rewrite <- Hl', Hl in Hd.
    + intros Hk. right. split; [|done]. intros <-. simplify_eq.
  - cbn. unfold delete_line. rewrite map_lookup_filter_Some. split; [by intros [? _]|]. intros Hk. split; [done|].
    rewrite (bool_decide_eq_false_2 (ln_invoiceId l = n)); [done|]. intros <-. by rewrite Hl in Hd.
  - cbn. rewrite map_lookup_filter_Some. split; [by intros [? _]|]. intros Hk. split; [done|]. intros <-. by rewrite Hl in Hd.
  - by rewrite (Hrec _ _ _ Hr).
  - by rewrite (Hrec _ _ _ Hr).
  - by rewrite (Hrec _ _ _ Hr).
  - by rewrite (Hrec _ _ _ Hr).
Qed.

(** C12: Once an invoice has been issued, whatever calls follow, it exists, is never
    a draft again, and keeps its number, its date, its owner, its tax, its totals and
    exactly its lines; payments, due date, void and overdue marks are all that change. *)
Theorem issued_invoices_are_frozen x y id i :
  bill_reachable (sy_store x) -> rtc bill_step x y ->
  bs_invoices (sy_store x) !! id = Some i -> iv_status i <> inv_draft ->
  frozen_in i (sy_store y) id
  /\ forall k l, ln_invoiceId l = id -> bs_lines (sy_store y) !! k = Some l <-> bs_lines (sy_store x) !! k = Some l.
Proof.
  intros Hwf%reachable_wf Hc%bill_steps_change. revert i Hwf. generalize (sy_store x), (sy_store y), Hc. clear x y Hc.
  induction 1 as [s|s s1 s2 H1 _ IH]; intros i Hwf Hi Hst; [by split; [apply frozen_refl|]|].
  destruct (row_frozen _ _ _ _ Hwf H1 Hi Hst) as (i1 & Hi1 & Hst1 & Hs1).
  destruct (IH i1 (wf_preserved _ _ Hwf H1) Hi1 Hst1) as [(i2 & Hi2 & Hst2 & Hs2) Hl]. split.
  - exists i2. split_and!; [done|done|]. destruct Hs1, Hs2. unfold same_bill. destruct_and!. split_and!; congruence.
  - intros k l Hkl. rewrite (Hl k l Hkl). by eapply lines_frozen.
Qed.

(** ** Payments and balances *)

Definition pay_part (id : nat) (p : Payment) : Z := if bool_decide (py_invoiceId p = id) then units (py_amount p) else 0.

Fixpoint paid_sum (id : nat) (l : list Payment) : Z :=
  match l with [] => 0 | p :: l' => pay_part id p + paid_sum id l' end.

(** The cents paid on an invoice. *)
Definition paid_cents (id : nat) (s : BillStore) : Z := paid_sum id (map_to_list (bs_payments s)).*2.

Definition payment_ok (p : Payment) : Prop := exists a, py_amount p = money a /\ 0 < a /\ cents_ok a.
Definition payments_ok (s : BillStore) : Prop := forall k p, bs_payments s !! k = Some p -> payment_ok p.

Lemma paid_sum_perm id l l' : l ≡ₚ l' -> paid_sum id l = paid_sum id l'.
Proof. induction 1; cbn; lia. Qed.

Lemma paid_sum_none id l : Forall (fun p => py_invoiceId p <> id) l -> paid_sum id l = 0.
Proof. induction 1 as [|p l Hp _ IH]; cbn; [done|]. unfold pay_part. rewrite bool_decide_eq_false_2 by done. lia. Qed.

Lemma paid_fold id l :
  Forall payment_ok l ->
  fold_left (fun acc p => acc + toCents (Some (py_amount p))) (List.filter (fun p => bool_decide (py_invoiceId p = id)) l) 0
  = paid_sum id l.
Proof.
  intros Hl. assert (forall acc, fold_left (fun acc p => acc + toCents (Some (py_amount p)))
    (List.filter (fun p => bool_decide (py_invoiceId p = id)) l) acc = acc + paid_sum id l) as ->; [|lia].
  induction Hl as [|p l (a & Ha & _ & Hok) _ IH]; intros acc; cbn [List.filter paid_sum]; [cbn; lia|].
  unfold pay_part. case_bool_decide; [|by rewrite IH]. cbn [fold_left]. rewrite IH, Ha, toCents_exact by done. cbn. lia.
Qed.

Lemma payments_list_ok s : payments_ok s -> Forall payment_ok (map_to_list (bs_payments s)).*2.
Proof.
  intros H. apply Forall_forall. intros p Hp. apply list_elem_of_fmap in Hp as ([k q] & -> & Hq).
  apply elem_of_map_to_list in Hq. by eapply H.
Qed.

Lemma paid_add id k a by_ s :
  bs_payments s !! bs_nextId s = None ->
  paid_cents id (add_payment k a by_ s) = (if bool_decide (k = id) then units a else 0) + paid_cents id s.
Proof.
  intros Hn. unfold paid_cents. cbn.
  rewrite (paid_sum_perm id _ _ (fmap_Permutation snd _ _ (map_to_list_insert _ _ _ Hn))). done.
Qed.

Lemma paid_delete id pid p s :
  bs_payments s !! pid = Some p -> paid_cents id s = pay_part id p + paid_cents id (with_payments (delete pid) s).
Proof.
  intros Hp. unfold paid_cents. cbn. rewrite <- (insert_delete_id _ _ _ Hp) at 1.
  rewrite (paid_sum_perm id _ _ (fmap_Permutation snd _ _ (map_to_list_insert _ _ _ (lookup_delete_eq _ _)))). done.
Qed.

Lemma paid_alter id pid p a s :
  bs_payments s !! pid = Some p ->
  paid_cents id (with_payments (alter (set_amount a) pid) s) + pay_part id p = pay_part id (set_amount a p) + paid_cents id s.
Proof.
  intros Hp. rewrite (paid_delete id pid p s Hp).
  rewrite (paid_delete id pid (set_amount a p) (with_payments (alter (set_amount a) pid) s)) by (cbn; by rewrite lookup_alter_eq, Hp).
  assert (paid_cents id (with_payments (delete pid) (with_payments (alter (set_amount a) pid) s))
          = paid_cents id (with_payments (delete pid) s)) as ->; [|lia].
  unfold paid_cents. cbn. by rewrite delete_alter_eq.
Qed.

Lemma paid_draft s id : bill_wf s -> is_draft s id -> paid_cents id s = 0.
Proof.
  intros Hwf (i & Hi & Hd). apply paid_sum_none, Forall_forall. intros p Hp.
  apply list_elem_of_fmap in Hp as ([k q] & -> & Hq). apply elem_of_map_to_list in Hq. intros <-.
  destruct (wf_pay _ Hwf _ _ Hq) as (_ & j & Hj & Hst). cbn in *. congruence.
Qed.

Lemma paid_nonneg id s : payments_ok s -> 0 <= paid_cents id s.
Proof.
  intros H%payments_list_ok. unfold paid_cents. induction H as [|p l (a & Ha & Hpos & _) _ IH]; cbn; [done|].
  unfold pay_part. rewrite Ha. case_bool_decide; cbn; lia.
Qed.

(** What an issued row says about [paid] cents. *)
Definition balanced (i : Invoice) (paid : Z) : Prop :=
  iv_status i <> inv_draft -> forall T, iv_total i = money T -> cents_ok T ->
  0 <= paid <= T /\ il_amountPaid (iv_life i) = money paid /\ il_balance (iv_life i) = money (T - paid)
  /\ (iv_status i = inv_paid -> paid = T) /\ (0 < T -> paid = T -> iv_status i = inv_paid \/ iv_status i = inv_void).

Record ledger (s : BillStore) : Prop := {
  ld_ok : payments_ok s;
  ld_row : forall id i, bs_invoices s !! id = Some i -> balanced i (paid_cents id s);
}.

(** The recomputation restores the row. *)
Lemma recompute_balanced env id x s' :
  recomputeInvoiceStatus env id x = Ok s' -> payments_ok x ->
  (forall i T, bs_invoices x !! id = Some i -> iv_status i <> inv_draft -> iv_total i = money T -> cents_ok T ->
     paid_cents id x <= T) ->
  (forall i, bs_invoices x !! id = Some i -> iv_status i <> inv_draft /\ il_invoiceNumber (iv_life i) <> None) ->
  (forall k i, k <> id -> bs_invoices x !! k = Some i -> balanced i (paid_cents k x)) ->
  ledger s'.
Proof.
  intros (j & p & st & Hj & Hp & Hs & ->)%recompute_spec Hok Hle Hst Hrest.
  unfold payments_of in Hp. rewrite (paid_fold _ _ (payments_list_ok _ Hok)) in Hp.
  split; [done|]. intros k i Hi. change (paid_cents k (alter_invoice _ _ x)) with (paid_cents k x).
  look Hi; [|by apply Hrest]. intros _ T HT HTok. change (iv_total j = money T) in HT.
  pose proof (paid_nonneg k x Hok) as H0. destruct (Hst _ Hj) as [Hnd Hnum]. specialize (Hle _ T Hj Hnd HT HTok).
  change (paid_sum k (map_to_list (bs_payments x)).*2) with (paid_cents k x).
  assert (Hpok : cents_ok (paid_cents k x)) by (unfold cents_ok in *; lia).
  unfold iv_status. cbn. rewrite HT, fromCents_exact, !toCents_exact by done.
  rewrite fromCents_exact by (unfold cents_ok in *; lia). split_and!; [done|done|done|done| |].
  - unfold deriveInvoiceStatus. rewrite !toCents_exact by done. intros H.
    destruct (bool_decide _); [done|]. destruct (negb _); [done|]. destruct (_ <=? 0) eqn:E; bool_hyps; [lia|].
    repeat case_match; done.
  - intros HT0 HPT. unfold deriveInvoiceStatus. rewrite !toCents_exact by done. rewrite HPT, Z.sub_diag. cbn.
    destruct (bool_decide _); [by right|]. rewrite bool_decide_eq_true_2 by done. by left.
Qed.

Lemma balanced_alter k f s :
  ledger s -> (forall i, bs_invoices s !! k = Some i -> balanced i (paid_cents k s) -> balanced (f i) (paid_cents k s)) ->
  ledger (alter_invoice k f s).
Proof.
  intros [Hok Hrow] Hf. split; [done|]. intros id i Hi. change (paid_cents id (alter_invoice k f s)) with (paid_cents id s).
  look Hi; [apply Hf; auto|auto].
Qed.

Lemma ledger_sources f g s : ledger s -> ledger (with_sources f g s).
Proof. by intros [H1 H2]. Qed.

Lemma ledger_sequences f s : ledger s -> ledger (with_sequences f s).
Proof. by intros [H1 H2]. Qed.

Lemma issue_balanced cur dep number d1 d2 t i :
  il_amountPaid (iv_life i) = money 0 ->
  balanced (set_charge cur dep (set_life (set_issued number d1 d2 (am_total t)) (set_amounts t (am_total t) i))) 0.
Proof.
  intros Hp _ T HT Hok. unfold iv_total in HT. cbn in *. rewrite Z.sub_0_r. unfold cents_ok in Hok.
  split_and!; [lia|lia|done|done|done|lia].
Qed.

Lemma due_balanced d i p : balanced i p -> balanced (set_life (set_dueDate d) i) p.
Proof. done. Qed.

Lemma void_balanced r now i p : iv_status i <> inv_draft -> balanced i p -> balanced (set_life (set_void r now) i) p.
Proof.
  intros Hst H _ T HT Hok. destruct (H Hst T HT Hok) as (? & ? & ? & _ & _). split_and!; try done; [lia|lia|by right].
Qed.

Lemma mark_balanced i i' p : marked i i' -> balanced i p -> balanced i' p.
Proof.
  intros (_ & Ham & _ & _ & _ & Hpd & Hb & Hst) H Hnd T HT Hok. unfold balanced, iv_total in *. rewrite Ham in HT.
  destruct Hst as [Hst|[Hin Hst]]; rewrite Hst in *; [rewrite Hpd, Hb; by apply H|].
  assert (Hi : iv_status i <> inv_draft /\ iv_status i <> inv_paid /\ iv_status i <> inv_void)
    by (split_and!; intros E; rewrite E in Hin; set_solver).
  destruct Hi as (H1 & H2 & H3). destruct (H H1 T HT Hok) as (? & ? & ? & _ & Hp). rewrite Hpd, Hb.
  split_and!; try done; [lia|lia|]. intros HT0 HPT. destruct (Hp HT0 HPT); contradiction.
Qed.

Lemma fresh_payment s : bill_wf s -> bs_payments s !! bs_nextId s = None.
Proof.
  intros Hwf. destruct (bs_payments s !! bs_nextId s) eqn:E; [|done]. destruct (wf_pay _ Hwf _ _ E) as [? _]. lia.
Qed.

Lemma ledger_preserved s s' : bill_wf s -> ledger s -> ichange s s' -> ledger s'.
Proof.
  intros Hwf Hl. pose proof Hl as [Hok Hrow].
  destruct 1 as [s' Hs|h site notes|k j f Hj Hd He|l Hd|k l0 l Hl0 Hl' Hd|k n Hd|k Hd|env k r cur dep am Hnow Hr Hg
    |env k j a by_ s' Hj Ho Ha Haok Hle Hr|env pid p s' Hp Hr|env pid p a s' Hp Ha Haok Hle Hr|env k j d s' Hj Ho Hr|k j reason now Hj Ho|k f Hf]; try done.
  - destruct Hs as (E1 & _ & E3 & _). split.
    + unfold payments_ok. by rewrite E3.
    + unfold paid_cents. by rewrite E1, E3.
  - split; [done|]. intros id i Hi. look Hi; [done|]. by apply Hrow.
  - apply balanced_alter; [done|]. intros i Hi _. simplify_eq. destruct He as (_ & Hst & _). intros Hnd. congruence.
  - assert (Hsame : bs_payments (drop_invoice k s) = bs_payments s).
    { cbn. apply map_filter_id. intros n p Hp <-. destruct Hd as (i & Hi & Hd).
      destruct (wf_pay _ Hwf _ _ Hp) as (_ & i' & Hi' & ?). congruence. }
    split; [unfold payments_ok; by rewrite Hsame|]. intros id i Hi. look Hi. unfold paid_cents. rewrite Hsame. by apply Hrow.
  - destruct Hr as (Hk & Hd & _).
    apply ledger_sources, balanced_alter; [by apply ledger_sequences|]. intros i Hi _. cbn in Hi. simplify_eq.
    change (paid_cents k (with_sequences _ s)) with (paid_cents k s).
    rewrite (paid_draft s k Hwf) by (by exists (ir_invoice r)). apply issue_balanced. by apply (wf_row _ Hwf _ _ Hk).
  - rewrite (toFixed_money a Haok) in Hr. pose proof (fresh_payment s Hwf) as Hfr.
    eapply recompute_balanced; [done| | | |].
    + intros n p Hp. look Hp; [by exists a|by eapply Hok].
    + intros i T Hi Hst HT HTok. cbn in Hi. rewrite Hj in Hi. injection Hi as <-. rewrite paid_add, bool_decide_eq_true_2 by done. cbn.
      destruct (Hrow _ _ Hj Hst T HT HTok) as (? & _ & Hb & _). rewrite Hb in Hle.
      rewrite !toCents_exact in Hle by (done || unfold cents_ok in *; lia). lia.
    + intros i Hi. cbn in Hi. rewrite Hj in Hi. injection Hi as <-. split; [apply Ho|]. apply (wf_row _ Hwf _ _ Hj), Ho.
    + intros id i Hne Hi. rewrite paid_add, bool_decide_eq_false_2 by done. by apply Hrow.
  - destruct (wf_pay _ Hwf _ _ Hp) as (_ & j & Hj & Hst). pose proof (Hok _ _ Hp) as (a & Ha & Hapos & _).
    eapply recompute_balanced; [done| | | |].
    + intros n q Hq. look Hq. by eapply Hok.
    + intros i T Hi Hst' HT HTok. cbn in Hi. rewrite Hj in Hi. injection Hi as <-. destruct (Hrow _ _ Hj Hst' T HT HTok) as (Hb & _).
      rewrite (paid_delete _ _ _ _ Hp) in Hb. unfold pay_part in Hb. rewrite bool_decide_eq_true_2, Ha in Hb by done.
      cbn in Hb. lia.
    + intros i Hi. cbn in Hi. rewrite Hj in Hi. injection Hi as <-. split; [done|]. by apply (wf_row _ Hwf _ _ Hj).
    + intros id i Hne Hi. specialize (Hrow _ _ Hi). rewrite (paid_delete _ _ _ _ Hp) in Hrow.
      unfold pay_part in Hrow. rewrite bool_decide_eq_false_2 in Hrow by done. by rewrite Z.add_0_l in Hrow.
  - destruct (wf_pay _ Hwf _ _ Hp) as (_ & j & Hj & Hst). pose proof (Hok _ _ Hp) as (b & Hb & _ & Hbok).
    rewrite Hb, !toCents_exact in Hle by done.
    eapply recompute_balanced; [done| | | |].
    + intros n q Hq. look Hq; [by exists a|by eapply Hok].
    + intros i T Hi Hst' HT HTok. cbn in Hi. rewrite Hj in Hi. injection Hi as <-. destruct (Hrow _ _ Hj Hst' T HT HTok) as (Hs & _).
      pose proof (paid_alter (py_invoiceId p) pid p (money a) s Hp) as Hx. unfold pay_part in Hx. cbn in Hx.
      rewrite !bool_decide_eq_true_2, Hb in Hx by done. cbn in Hx. lia.
    + intros i Hi. cbn in Hi. rewrite Hj in Hi. injection Hi as <-. split; [done|]. by apply (wf_row _ Hwf _ _ Hj).
    + intros id i Hne Hi. specialize (Hrow _ _ Hi). pose proof (paid_alter id pid p (money a) s Hp) as Hx.
      unfold pay_part in Hx. cbn in Hx. rewrite !bool_decide_eq_false_2 in Hx by done. rewrite Z.add_0_r, Z.add_0_l in Hx.
      by rewrite Hx.
  - eapply recompute_balanced; [done|done| | |].
    + intros i T Hi Hst HT HTok. cbn in Hi. rewrite lookup_alter_eq, Hj in Hi. injection Hi as <-. by apply (Hrow _ _ Hj).
    + intros i Hi. cbn in Hi. rewrite lookup_alter_eq, Hj in Hi. injection Hi as <-. split; [apply Ho|].
      by apply (wf_row _ Hwf _ _ Hj), Ho.
    + intros id i Hne Hi. cbn in Hi. rewrite lookup_alter_ne in Hi by done. by apply Hrow.
  - apply ledger_sources, balanced_alter; [done|]. intros i Hi. simplify_eq. apply void_balanced, Ho.
  - apply balanced_alter; [done|]. intros i Hi. by apply mark_balanced, Hf.
Qed.

Lemma reachable_ledger s : bill_reachable s -> bill_wf s /\ ledger s.
Proof.
  apply (reachable_invariant (fun s => bill_wf s /\ ledger s)).
  - intros time parts_. split; by split.
  - intros s0 s1 [H1 H2] Hc. split; [by eapply wf_preserved|by eapply ledger_preserved].
Qed.

(** C3: As long as the calls of billing run one after the other and the refunds of a charge
    arrive in order, an issued invoice whose total is an amount of its column says
    exactly what its payments say: paid is their sum, balance is the rest, neither below
    zero nor above the total; it is marked paid only when nothing is left, and when a
    payment leaves nothing it is (unless void). A draft has no payments. (Two payments
    that read the balance at the same time can exceed it: see
    [overlapping_payments_exceed_the_balance].) *)
Theorem payments_and_balance_agree s id i T :
  bill_reachable s -> bs_invoices s !! id = Some i -> iv_total i = money T -> cents_ok T ->
  let paid := paid_cents id s in
  if bool_decide (iv_status i = inv_draft) then paid = 0
  else 0 <= paid <= T /\ il_amountPaid (iv_life i) = money paid /\ il_balance (iv_life i) = money (T - paid)
       /\ (iv_status i = inv_paid -> paid = T) /\ (0 < T -> paid = T -> iv_status i = inv_paid \/ iv_status i = inv_void).
Proof.
  intros [Hwf Hl]%reachable_ledger Hi HT Hok paid. case_bool_decide as Hd.
  - apply paid_draft; [done|]. by exists i.
  - by apply (ld_row _ Hl _ _ Hi).
Qed.

(** ** Work is billed once *)

Definition live (s : BillStore) (id : nat) : Prop := exists i, bs_invoices s !! id = Some i /\ open_status (iv_status i).

(** A line of the invoice bills this time entry or part. *)
Definition bills (s : BillStore) (id : nat) (ty : InvoiceLineSourceType) (k : string) : Prop :=
  exists n l, bs_lines s !! n = Some l /\ ln_invoiceId l = id /\ ln_sourceType l = ty /\ ln_sourceId l = Some k /\ k <> EmptyString.

Definition source_status (s : BillStore) (ty : InvoiceLineSourceType) (k : string) : option BillingStatus :=
  match ty with
  | src_time_entry => te_billingStatus <$> bs_time s !! k
  | src_part => tp_billingStatus <$> bs_parts s !! k
  | _ => None
  end.

(** Billed work is marked, and has one live invoice. *)
Record billed_once (s : BillStore) : Prop := {
  bo_marked : forall id ty k, live s id -> bills s id ty k -> source_status s ty k <> Some not_billed;
  bo_single : forall id1 id2 ty k, live s id1 -> live s id2 -> bills s id1 ty k -> bills s id2 ty k ->
    source_status s ty k <> None -> id1 = id2;
}.

Lemma lines_of_elem id s l : l ∈ lines_of id s <-> exists n, bs_lines s !! n = Some l /\ ln_invoiceId l = id.
Proof.
  unfold lines_of. rewrite list_filter_elem, list_elem_of_fmap. split.
  - intros [([n l'] & -> & H) Hd]. apply elem_of_map_to_list in H. bool_hyps. eauto.
  - intros (n & H & Hd). split; [exists (n, l); by rewrite elem_of_map_to_list|by apply bool_decide_eq_true].
Qed.

Lemma source_ids_elem ty id s k : k ∈ source_ids ty (lines_of id s) <-> bills s id ty k.
Proof.
  unfold source_ids, bills. rewrite list_elem_of_omap. setoid_rewrite lines_of_elem. split.
  - intros (l & (n & Hn & Hid) & H). case_bool_decide as Hty; [|done]. cbn in H.
    destruct (truthy (ln_sourceId l)) eqn:Et; [|done]. exists n, l. split_and!; try done.
    rewrite H in Et. cbn in Et. intros ->. done.
  - intros (n & l & Hn & Hid & Hty & Hk & Hne). exists l. split; [eauto|]. rewrite bool_decide_eq_true_2, Hk by done.
    cbn. by destruct k.
Qed.

(** The changes that neither make an invoice live nor touch the work. *)
Definition quiet (s s' : BillStore) : Prop :=
  bs_time s' = bs_time s /\ bs_parts s' = bs_parts s /\ forall id, live s' id -> live s id.

Definition issues (s s' : BillStore) (id : nat) : Prop :=
  exists env r currency deposit amounts, 0 <= be_now env /\ issue_read id s r /\ issue_guard r s = Ok tt
    /\ s' = issue_with env id r currency deposit amounts s.

Definition voids (s s' : BillStore) (id : nat) : Prop :=
  exists reason now, live s id /\ s' = void_row id reason now s.

Lemma alter_live k f s id :
  (forall i, bs_invoices s !! k = Some i -> open_status (iv_status (f i)) -> open_status (iv_status i)) ->
  live (alter_invoice k f s) id -> live s id.
Proof.
  intros Hf (i & Hi & Ho). look Hi; [|by exists i]. eexists. split; [done|]. by apply Hf.
Qed.

Lemma recompute_quiet env k x s' :
  recomputeInvoiceStatus env k x = Ok s' ->
  (forall i, bs_invoices x !! k = Some i -> iv_status i <> inv_draft /\ row_wf i) -> quiet x s'.
Proof.
  intros (j & p & st & Hj & -> & Hs & ->)%recompute_spec Hx. split_and!; [done|done|]. intros id. apply alter_live.
  intros i Hi Ho. destruct (Hx i Hi) as [Hd (_ & _ & Hv)]. split; [done|]. intros Hv'%Hv. destruct Ho as [_ Ho].
  apply Ho. unfold iv_status. cbn. rewrite Hs. apply derive_void, bool_decide_eq_true. by simplify_eq.
Qed.

Lemma change_class s s' : bill_wf s -> ichange s s' -> quiet s s' \/ exists id, issues s s' id \/ voids s s' id.
Proof.
  intros Hwf. destruct 1 as [s' Hs|h site notes|k j f Hj Hd He|l Hd|k l0 l Hl0 Hl' Hd|k n Hd|k Hd|env k r cur dep am Hnow Hr Hg
    |env k j a by_ s' Hj Ho Ha Haok Hle Hr|env pid p s' Hp Hr|env pid p a s' Hp Ha Haok Hle Hr|env k j d s' Hj Ho Hr|k j reason now Hj Ho|k f Hf];
    try (by left; split_and!).
  - left. destruct Hs as (E1 & _ & _ & _ & E2 & E3 & _). unfold quiet, live. by rewrite E1, E2, E3.
  - left. split_and!; try done. intros id (i & Hi & Ho). look Hi; [by destruct Ho|by exists i].
  - left. split_and!; try done. intros id. apply alter_live. intros i Hi [Ho _]. simplify_eq. destruct Ho. by destruct He as (_ & -> & _).
  - left. split_and!; try done. intros id (i & Hi & Ho). look Hi. by exists i.
  - right. exists k. left. by exists env, r, cur, dep, am.
  - left. eapply (recompute_quiet _ _ _ _ Hr). intros i Hi. cbn in Hi. simplify_eq. split; [apply Ho|by eapply wf_row].
  - left. eapply (recompute_quiet _ _ _ _ Hr). intros i Hi. cbn in Hi.
    destruct (wf_pay _ Hwf _ _ Hp) as (_ & i' & Hi' & Hst). simplify_eq. split; [done|by eapply wf_row].
  - left. eapply (recompute_quiet _ _ _ _ Hr). intros i Hi. cbn in Hi.
    destruct (wf_pay _ Hwf _ _ Hp) as (_ & i' & Hi' & Hst). simplify_eq. split; [done|by eapply wf_row].
  - left. destruct (recompute_quiet _ _ _ _ Hr) as (H1 & H2 & H3).
    + intros i Hi. cbn in Hi. rewrite lookup_alter_eq, Hj in Hi. injection Hi as <-. split; [apply Ho|apply (wf_row _ Hwf _ _ Hj)].
    + split_and!; [done|done|]. intros id Hid. eapply alter_live; [|by apply H3]. done.
  - right. exists k. right. exists reason, now. split; [by exists j|done].
  - left. split_and!; try done. intros id. apply alter_live. intros i Hi [Ho Hv].
    destruct (Hf i Hi) as (_ & _ & _ & _ & _ & _ & _ & [Hs|[Hs _]]); [by rewrite Hs in *|].
    split; intros E; rewrite E in Hs; set_solver.
Qed.

Lemma bills_frozen s s' id ty k : bill_wf s -> ichange s s' -> live s id -> bills s' id ty k -> bills s id ty k.
Proof.
  intros Hwf Hc (i & Hi & Hst & _) (n & l & Hn & Hl & Hrest). exists n, l. split; [|done].
  by eapply (lines_frozen s s' id i n l).
Qed.

Definition ids_of (ty : InvoiceLineSourceType) (timeIds partIds : list string) : list string :=
  match ty with src_time_entry => timeIds | src_part => partIds | _ => [] end.

Lemma source_flip st tids pids s ty k :
  source_status (flip_sources st tids pids s) ty k
  = if bool_decide (k ∈ ids_of ty tids pids) then (fun _ => st) <$> source_status s ty k else source_status s ty k.
Proof.
  unfold source_status, flip_sources. destruct ty; cbn; rewrite ?map_lookup_imap; try by case_bool_decide.
  - destruct (bs_time s !! k); cbn; by repeat case_bool_decide.
  - destruct (bs_parts s !! k); cbn; by repeat case_bool_decide.
Qed.

(** The guard lets through work that is not billed yet, or gone. *)
Lemma guard_open r s ty k :
  issue_guard r s = Ok tt -> k ∈ ids_of ty (ir_timeIds r) (ir_partIds r) ->
  source_status s ty k = None \/ source_status s ty k = Some not_billed.
Proof.
  unfold issue_guard. intros H. result_ok H. bool_hyps. intros Hk.
  assert (Hnil : forall (f : string -> bool) l, List.filter f l = [] -> k ∈ l -> f k = false).
  { intros f l Hf Hin. destruct (f k) eqn:E; [|done]. assert (k ∈ List.filter f l) by (by apply list_filter_elem).
    rewrite Hf in *. set_solver. }
  destruct ty; cbn in *; try set_solver.
  - match goal with H : List.filter _ _ = [] |- _ => pose proof (Hnil _ _ H Hk) as E; cbn in E end.
    destruct (bs_time s !! k); [|by left]. bool_hyps. right. cbn. f_equal. by apply dec_stable.
  - pose proof (Hnil _ _ H Hk) as E. cbn in E.
    destruct (bs_parts s !! k); [|by left]. bool_hyps. right. cbn. f_equal. by apply dec_stable.
Qed.

Lemma ids_of_bills s id ty k :
  k ∈ ids_of ty (source_ids src_time_entry (lines_of id s)) (source_ids src_part (lines_of id s)) -> bills s id ty k.
Proof. destruct ty; cbn; try set_solver; by rewrite source_ids_elem. Qed.

Lemma bills_ids_of s id ty k :
  bills s id ty k -> source_status s ty k <> None ->
  k ∈ ids_of ty (source_ids src_time_entry (lines_of id s)) (source_ids src_part (lines_of id s)).
Proof. destruct ty; cbn; rewrite ?source_ids_elem; done. Qed.

Lemma once_issue s s' id : bill_wf s -> billed_once s -> issues s s' id -> billed_once s'.
Proof.
  intros Hwf [Hm Hs] (env & r & cur & dep & am & Hnow & Hr & Hg & ->). destruct Hr as (Hk & Hd & Ht & Hp).
  set (s' := issue_with env id r cur dep am s).
  assert (Hlive : forall n, live s' n -> n = id \/ live s n).
  { intros n (i & Hi & Ho). unfold s', issue_with, issue_row in Hi. look Hi; [by left|right; by exists i]. }
  assert (Hst : forall ty k, source_status s' ty k = if bool_decide (k ∈ ids_of ty (ir_timeIds r) (ir_partIds r))
     then (fun _ => billed) <$> source_status s ty k else source_status s ty k) by (intros ty k; etrans; [apply source_flip|by destruct ty]).
  assert (Hopen : forall ty k, bills s id ty k -> source_status s ty k <> None ->
     source_status s ty k = Some not_billed /\ source_status s' ty k = Some billed).
  { intros ty k Hb Hn. pose proof (bills_ids_of _ _ _ _ Hb Hn) as Hin. rewrite <- Ht, <- Hp in Hin.
    destruct (guard_open _ _ _ _ Hg Hin) as [?|E]; [done|]. rewrite Hst, bool_decide_eq_true_2, E by done. done. }
  assert (Hnone : forall ty k, source_status s' ty k <> None -> source_status s ty k <> None).
  { intros ty k. rewrite Hst. case_bool_decide; [|done]. by destruct (source_status s ty k). }
  split.
  - intros n ty k Hl Hb Heq. change (bills s n ty k) in Hb. rewrite Hst in Heq. case_bool_decide as Hin.
    + by destruct (source_status s ty k).
    + destruct (Hlive n Hl) as [->|Hl']; [|by eapply Hm]. apply Hin. rewrite Ht, Hp. apply bills_ids_of; [done|congruence].
  - intros n1 n2 ty k Hl1 Hl2 Hb1 Hb2 Hn%Hnone. change (bills s n1 ty k) in Hb1. change (bills s n2 ty k) in Hb2.
    destruct (Hlive _ Hl1) as [->|H1], (Hlive _ Hl2) as [->|H2]; [done| | |by eapply Hs].
    + destruct (Hopen _ _ Hb1 Hn) as [E _]. by destruct (Hm _ _ _ H2 Hb2).
    + destruct (Hopen _ _ Hb2 Hn) as [E _]. by destruct (Hm _ _ _ H1 Hb1).
Qed.

Lemma once_void s s' id : billed_once s -> voids s s' id -> billed_once s'.
Proof.
  intros [Hm Hs] (reason & now & Hlid & ->). set (s' := void_row id reason now s).
  assert (Hlive : forall n, live s' n -> n <> id /\ live s n).
  { intros n (i & Hi & Ho). unfold s', void_row in Hi. look Hi; [by destruct Ho|]. split; [done|by exists i]. }
  assert (Hst : forall ty k, source_status s' ty k = if bool_decide (k ∈ ids_of ty (source_ids src_time_entry (lines_of id s))
      (source_ids src_part (lines_of id s))) then (fun _ => not_billed) <$> source_status s ty k else source_status s ty k)
    by (intros ty k; etrans; [apply source_flip|by destruct ty]).
  split.
  - intros n ty k [Hne Hl]%Hlive Hb Heq. change (bills s n ty k) in Hb. rewrite Hst in Heq. case_bool_decide as Hin.
    + apply Hne. eapply Hs; [done|done|done|by apply ids_of_bills|]. by destruct (source_status s ty k).
    + by eapply Hm.
  - intros n1 n2 ty k [_ H1]%Hlive [_ H2]%Hlive Hb1 Hb2 Hn. eapply Hs; [done|done|done|done|].
    rewrite Hst in Hn. case_bool_decide; [|done]. by destruct (source_status s ty k).
Qed.

Lemma once_preserved s s' : bill_wf s -> billed_once s -> ichange s s' -> billed_once s'.
Proof.
  intros Hwf Ho Hc. destruct (change_class _ _ Hwf Hc) as [(Et & Ep & Hlive)|(id & [Hi|Hv])];
    [|by eapply once_issue|by eapply once_void].
  assert (Hst : forall ty k, source_status s' ty k = source_status s ty k)
    by (intros [] k; unfold source_status; rewrite ?Et, ?Ep; done).
  destruct Ho as [Hm Hs]. split; intros; rewrite Hst in *.
  - eapply Hm; [by apply Hlive|]. by eapply bills_frozen; eauto.
  - eapply Hs; [by apply Hlive|by apply Hlive| | |done]; eapply bills_frozen; eauto.
Qed.

Lemma reachable_once s : bill_reachable s -> bill_wf s /\ billed_once s.
Proof.
  apply (reachable_invariant (fun s => bill_wf s /\ billed_once s)).
  - intros time parts_. split; [by split|]. split; [intros id ty k (i & Hi & _)|intros id1 id2 ty k (i & Hi & _)]; done.
  - intros s0 s1 [H1 H2] Hc. split; [by eapply wf_preserved|by eapply once_preserved].
Qed.

(** In every reachable store where issues do not overlap, a recorded time entry or part is
    billed by at most one invoice that is issued and not void, and while one bills it
    it is not open for billing; voiding releases it. *)
Lemma work_is_billed_once s id1 id2 ty k :
  bill_reachable s -> live s id1 -> live s id2 -> bills s id1 ty k -> bills s id2 ty k -> source_status s ty k <> None ->
  id1 = id2 /\ source_status s ty k <> Some not_billed.
Proof.
  intros [_ [Hm Hs]]%reachable_once H1 H2 Hb1 Hb2 Hn. split; [by eapply Hs|by eapply Hm].
Qed.

(** ** Invoice numbers *)

Lemma last_dash x b x' b' :
  lacks "-"%char b = true -> lacks "-"%char b' = true -> (x ++ String "-" b = x' ++ String "-" b')%string -> x = x' /\ b = b'.
Proof.
  intros Hb Hb'. assert (Hno : forall y t, lacks "-"%char (y ++ String "-" t)%string = false).
  { intros y t. unfold lacks. induction y as [|c y IH]; [done|].
    change (String c y ++ String "-" t)%string with (String c (y ++ String "-" t)). cbn [str_forallb]. rewrite IH. apply andb_false_r. }
  revert x'. induction x as [|c x IH]; intros [|c' x'] H; simpl in H.
  - by simplify_eq.
  - simplify_eq. by rewrite Hno in Hb.
  - simplify_eq. by rewrite Hno in Hb'.
  - injection H as -> H. by destruct (IH _ H) as [-> ->].
Qed.

Lemma pad4_digits n : 0 <= n -> str_forallb is_digit (padStart4 (dec n)) = true.
Proof.
  intros Hn. pose proof (dec_is_digits n Hn) as Hd. unfold padStart4.
  generalize (4 - String.length (dec n))%nat. intros k. induction k as [|k IH]; [done|].
  destruct k; simpl in *; done.
Qed.

Lemma digits_value_zeros k t : digits_value (String.concat EmptyString (replicate k "0"%string) ++ t)%string 0 = digits_value t 0.
Proof. induction k as [|k IH]; [done|]. destruct k; simpl in *; done. Qed.

Lemma pad4_value n : 0 <= n -> digits_value (padStart4 (dec n)) 0 = n.
Proof.
  intros Hn. unfold padStart4. rewrite digits_value_zeros. unfold dec. by rewrite (dec_loop_value _ n _ (conj Hn (dec_fuel n Hn))).
Qed.

Lemma dec_value n : 0 <= n -> digits_value (dec n) 0 = n.
Proof. intros Hn. unfold dec. by rewrite (dec_loop_value _ n _ (conj Hn (dec_fuel n Hn))). Qed.

(** Whatever the prefixes, equal numbers have equal years and counters. *)
Lemma number_inj p y c p' y' c' :
  0 <= y -> 0 <= c -> 0 <= y' -> 0 <= c' -> formatInvoiceNumber p y c = formatInvoiceNumber p' y' c' -> y = y' /\ c = c'.
Proof.
  intros Hy Hc Hy' Hc' H. unfold formatInvoiceNumber in H.
  assert (Hsplit : forall q a b, (q ++ "-" ++ a ++ "-" ++ b = (q ++ String "-" a) ++ String "-" b)%string).
  { intros q a b. induction q as [|ch q IH]; [done|].
    change (String ch (q ++ "-" ++ a ++ "-" ++ b) = String ch ((q ++ String "-" a) ++ String "-" b))%string. by rewrite IH. }
  rewrite !Hsplit in H.
  assert (Hl : forall z, 0 <= z -> lacks "-"%char (dec z) = true /\ lacks "-"%char (padStart4 (dec z)) = true).
  { intros z Hz. split; apply digits_lack; try done; [by apply dec_is_digits|by apply pad4_digits]. }
  apply last_dash in H as [H1 H2]; [|by apply Hl..]. apply last_dash in H1 as [_ H1]; [|by apply Hl..]. split.
  - by rewrite <- (dec_value y Hy), H1, dec_value.
  - by rewrite <- (pad4_value c Hc), H2, pad4_value.
Qed.

Lemma year_nonneg t : 0 <= t -> 0 <= year_of (t / 86400000).
Proof.
  intros Ht. assert (Hd : 0 <= t / 86400000) by (apply Z.div_pos; lia). destruct (year_of_spec (t / 86400000)) as [_ Hy].
  destruct (Z.lt_ge_cases (year_of (t / 86400000)) 0) as [Hneg|]; [|done].
  pose proof (day_from_year_mono (year_of (t / 86400000) + 1) (1970 - (year_of (t / 86400000) + 1)) ltac:(lia)) as Hm.
  replace (year_of (t / 86400000) + 1 + (1970 - (year_of (t / 86400000) + 1))) with 1970 in Hm by lia.
  change (day_from_year 1970) with 0 in Hm. lia.
Qed.

Definition allocated (s : BillStore) (partnerId number : string) : Prop :=
  exists prefix y c m, number = formatInvoiceNumber prefix y c /\ 0 <= y /\ 1 <= c <= m /\ bs_sequences s !! (partnerId, y) = Some m.

Record numbered (s : BillStore) : Prop := {
  nu_form : forall id i x, bs_invoices s !! id = Some i -> il_invoiceNumber (iv_life i) = Some x -> allocated s (iv_partnerId i) x;
  nu_once : forall id1 id2 i1 i2 x, bs_invoices s !! id1 = Some i1 -> bs_invoices s !! id2 = Some i2 ->
    iv_partnerId i1 = iv_partnerId i2 -> il_invoiceNumber (iv_life i1) = Some x -> il_invoiceNumber (iv_life i2) = Some x ->
    id1 = id2;
  nu_pos : forall key c, bs_sequences s !! key = Some c -> 1 <= c;
}.

(** A number that was there before. *)
Definition number_back (s s' : BillStore) : Prop :=
  bs_sequences s' = bs_sequences s /\ forall id i' x, bs_invoices s' !! id = Some i' -> il_invoiceNumber (iv_life i') = Some x ->
    exists i, bs_invoices s !! id = Some i /\ iv_head i = iv_head i' /\ il_invoiceNumber (iv_life i) = Some x.

Lemma alter_number k f s :
  (forall i, bs_invoices s !! k = Some i -> iv_head (f i) = iv_head i /\ il_invoiceNumber (iv_life (f i)) = il_invoiceNumber (iv_life i)) ->
  number_back s (alter_invoice k f s).
Proof.
  intros Hf. split; [done|]. intros id i' x Hi Hx. look Hi; [|by exists i'].
  eexists. split; [done|]. destruct (Hf _ Hi) as [E1 E2]. by rewrite E1, <- E2.
Qed.

Lemma recompute_number env k x s' : recomputeInvoiceStatus env k x = Ok s' -> number_back x s'.
Proof. intros (j & p & st & Hj & _ & _ & ->)%recompute_spec. by apply alter_number. Qed.

Lemma number_class s s' : ichange s s' -> number_back s s' \/ exists id, issues s s' id.
Proof.
  destruct 1 as [s' Hs|h site notes|k j f Hj Hd He|l Hd|k l0 l Hl0 Hl' Hd|k n Hd|k Hd|env k r cur dep am Hnow Hr Hg
    |env k j a by_ s' Hj Ho Ha Haok Hle Hr|env pid p s' Hp Hr|env pid p a s' Hp Ha Haok Hle Hr|env k j d s' Hj Ho Hr|k j reason now Hj Ho|k f Hf];
    try (left; split; [done|]; by intros id i' x Hi Hx; exists i').
  - left. destruct Hs as (E1 & _ & _ & E2 & _). unfold number_back. rewrite E1, E2. split; [done|]. intros id i' x Hi Hx. by exists i'.
  - left. split; [done|]. intros id i' x Hi Hx. look Hi. by exists i'.
  - left. apply alter_number. intros i Hi. simplify_eq. by destruct He as (-> & _ & -> & _).
  - left. split; [done|]. intros id i' x Hi Hx. look Hi. by exists i'.
  - right. by exists k, env, r, cur, dep, am.
  - left. apply recompute_number in Hr. done.
  - left. apply recompute_number in Hr. done.
  - left. apply recompute_number in Hr. done.
  - left. apply recompute_number in Hr as [E Hb]. split; [done|]. intros id i' x Hi Hx.
    destruct (Hb _ _ _ Hi Hx) as (i & Hi2 & E1 & E2). look Hi2; [|by exists i]. eexists. done.
  - left. by apply (alter_number k).
  - left. apply alter_number. intros i Hi. by destruct (Hf i Hi) as (-> & _ & -> & _).
Qed.

Lemma numbered_issue s s' id : bill_wf s -> numbered s -> issues s s' id -> numbered s'.
Proof.
  intros Hwf [Hf Ho Hpos] (env & r & cur & dep & am & Hnow & Hr & _ & ->). destruct Hr as (Hk & Hd & _).
  set (y := year_of (be_now env / 86400000)). set (pid := iv_partnerId (ir_invoice r)). set (c := next_counter pid y s).
  pose proof (year_nonneg _ Hnow) as Hy. fold y in Hy.
  assert (Hseq : bs_sequences (issue_with env id r cur dep am s) = <[(pid, y) := c]> (bs_sequences s)) by done.
  assert (Hc : 1 <= c /\ forall m, bs_sequences s !! (pid, y) = Some m -> m < c).
  { unfold c, next_counter. destruct (bs_sequences s !! (pid, y)) eqn:E; [|done]. specialize (Hpos _ _ E).
    split; [lia|]. intros m. by intros [= ->]; lia. }
  assert (Hrow : forall n i x, bs_invoices (issue_with env id r cur dep am s) !! n = Some i -> il_invoiceNumber (iv_life i) = Some x ->
     (n = id /\ iv_partnerId i = pid /\ exists pre, x = formatInvoiceNumber pre y c)
     \/ (n <> id /\ bs_invoices s !! n = Some i)).
  { intros n i x Hi Hx. look Hi; [|by right]. left. cbn in Hx. simplify_eq. split_and!; try done. by eexists. }
  assert (Hnew : forall i n x, bs_invoices s !! n = Some i -> il_invoiceNumber (iv_life i) = Some x -> iv_partnerId i = pid ->
     forall pre, x <> formatInvoiceNumber pre y c).
  { intros i n x Hi Hx Hp pre Heq. destruct (Hf _ _ _ Hi Hx) as (pre' & y' & c' & m & Heq' & Hy' & Hc' & Hm).
    rewrite Heq in Heq'. apply number_inj in Heq' as [<- <-]; [|lia..]. rewrite Hp in Hm. destruct Hc as [_ Hc]. specialize (Hc _ Hm). lia. }
  split.
  - intros n i x Hi Hx. destruct (Hrow _ _ _ Hi Hx) as [(-> & -> & pre & ->)|[Hne Hi']].
    + exists pre, y, c, c. rewrite Hseq, lookup_insert_eq. split_and!; try done; lia.
    + destruct (Hf _ _ _ Hi' Hx) as (pre & y' & c' & m & -> & Hy' & Hc' & Hm).
      destruct (decide ((iv_partnerId i, y') = (pid, y))) as [E|Hne'].
      * exists pre, y', c', c. rewrite Hseq, E, lookup_insert_eq. rewrite E in Hm. destruct Hc as [_ Hc]. specialize (Hc _ Hm).
        split_and!; try done; lia.
      * exists pre, y', c', m. rewrite Hseq, lookup_insert_ne by done. done.
  - intros n1 n2 i1 i2 x H1 H2 Hp Hx1 Hx2.
    destruct (Hrow _ _ _ H1 Hx1) as [(-> & E1 & pre & Ex)|[Hne1 H1']], (Hrow _ _ _ H2 Hx2) as [(-> & E2 & pre' & Ex')|[Hne2 H2']].
    + done.
    + exfalso. eapply (Hnew i2); [done|done|congruence|done].
    + exfalso. eapply (Hnew i1); [done|done|congruence|done].
    + by eapply Ho.
  - intros key v Hv. rewrite Hseq in Hv. look Hv; [apply Hc|by eapply Hpos].
Qed.

Lemma numbered_preserved s s' : bill_wf s -> numbered s -> ichange s s' -> numbered s'.
Proof.
  intros Hwf Hn Hc. destruct (number_class _ _ Hc) as [[Es Hb]|[id Hi]]; [|by eapply numbered_issue].
  destruct Hn as [Hf Ho Hpos]. split; [..|by rewrite Es].
  - intros id i x Hi Hx. destruct (Hb _ _ _ Hi Hx) as (j & Hj & E & Hjx). unfold allocated, iv_partnerId. rewrite Es, <- E.
    by eapply Hf.
  - intros id1 id2 i1 i2 x H1 H2 Hp Hx1 Hx2. destruct (Hb _ _ _ H1 Hx1) as (j1 & Hj1 & E1 & Hjx1).
    destruct (Hb _ _ _ H2 Hx2) as (j2 & Hj2 & E2 & Hjx2). eapply Ho; [done|done| |done|done].
    unfold iv_partnerId in *. by rewrite E1, E2.
Qed.

(** No two invoices of a partner ever have the same number, whatever prefix the
    partner uses at each issue; so the unique index on the number never refuses one. *)
Lemma invoice_numbers_are_unique s id1 id2 i1 i2 x :
  bill_reachable s -> bs_invoices s !! id1 = Some i1 -> bs_invoices s !! id2 = Some i2 -> iv_partnerId i1 = iv_partnerId i2 ->
  il_invoiceNumber (iv_life i1) = Some x -> il_invoiceNumber (iv_life i2) = Some x -> id1 = id2.
Proof.
  intros H. assert (Hn : bill_wf s /\ numbered s); [|by destruct Hn as [_ [_ Ho _]]; apply Ho].
  revert s H. apply (reachable_invariant (fun s => bill_wf s /\ numbered s)).
  - intros time parts_. split; by split.
  - intros s0 s1 [H1 H2] Hc. split; [by eapply wf_preserved|by eapply numbered_preserved].
Qed.
