(* ===== verification/ContractTheorems.v ===== *)
(** * What the contract tables keep

    Periods billed once and apart, with billing runs that overlap; runs that catch up;
    and two ways a contract stops being billed. *)

From stdpp Require Import base gmap strings list option relations sorting.
From Stdlib Require Import ZArith Lia.
From S2P Require Import Prelude Calendar Money BillingStore.
From S2P Require Import Invoices Contracts QuoteStore QuoteAccept BillingSystem.
Open Scope Z_scope.

(** ** The schedule *)

(** Start of the [k]-th period. *)
Definition period_at (c : Contract) (k : Z) : string := periodStart (computePeriod (ct_startDate c) (ct_intervalMonths c) k).

Lemma period_at_end c k : periodEnd (computePeriod (ct_startDate c) (ct_intervalMonths c) k) = period_at c (k + 1).
Proof. done. Qed.

Definition same_schedule (c c' : Contract) : Prop :=
  ct_startDate c' = ct_startDate c /\ ct_intervalMonths c' = ct_intervalMonths c /\ ct_billingTiming c' = ct_billingTiming c.

Lemma same_schedule_period c c' k : same_schedule c c' -> period_at c' k = period_at c k.
Proof. unfold period_at. by intros (-> & -> & _). Qed.

Lemma same_schedule_trans c c1 c2 : same_schedule c c1 -> same_schedule c1 c2 -> same_schedule c c2.
Proof. unfold same_schedule. intros (?&?&?) (?&?&?). split_and!; congruence. Qed.

(** A schedule the calendar covers, from the month with index [i0]. *)
Definition schedule (c : Contract) (i0 d0 : Z) : Prop :=
  in_month (ct_startDate c) i0 d0 /\ 20000 <= i0 < 119000 /\ 1 <= ct_intervalMonths c <= 60.

Definition schedule_ok (c : Contract) : Prop := start_ok (ct_startDate c) /\ 1 <= ct_intervalMonths c <= 60.

Lemma schedule_split c : schedule_ok c -> exists i0 d0, schedule c i0 d0.
Proof. intros [(i & d & Hm & Hi) Hn]. by exists i, d. Qed.

Section schedule.
Context (c : Contract) (i0 d0 : Z).
Hypothesis Hsch : schedule c i0 d0.
Abbreviation n := (ct_intervalMonths c).

Lemma sched_month k : 0 <= k -> i0 + n * k < 119500 -> in_month (period_at c k) (i0 + n * k) (clamped d0 (i0 + n * k)).
Proof using Hsch. destruct Hsch as (Hs & Hi & Hn). intros Hk Hb. apply period_in_month; [done|]. unfold index_ok. nia. Qed.

Lemma sched_index k : 0 <= k -> i0 + n * k < 119300 -> periodIndexFor (ct_startDate c) n (period_at c k) = k.
Proof using Hsch.
  destruct Hsch as (Hs & Hi & Hn). intros Hk Hb. apply (periodIndexFor_start _ i0 d0); [done|lia| |]; unfold RUNAWAY_GUARD, index_ok; nia.
Qed.

Lemma sched_lt k k' :
  0 <= k < k' -> i0 + n * k' < 119500 ->
  str_lt (period_at c k) (period_at c k') = true /\ str_le (period_at c k) (period_at c k') = true
  /\ str_le (period_at c k') (period_at c k) = false.
Proof using Hsch.
  intros Hk Hb. destruct Hsch as (_ & _ & Hn). eapply later_month; [apply sched_month; nia|by apply sched_month; [lia|]|nia].
Qed.

Lemma sched_refl k : 0 <= k -> i0 + n * k < 119500 -> str_le (period_at c k) (period_at c k) = true.
Proof using Hsch.
  intros Hk Hb. unfold str_le. by rewrite (month_compare _ _ _ _ _ _ (sched_month k Hk Hb) (sched_month k Hk Hb)), !Z.compare_refl.
Qed.

Lemma sched_inj k k' : 0 <= k -> 0 <= k' -> i0 + n * k < 119500 -> i0 + n * k' < 119500 -> period_at c k = period_at c k' -> k = k'.
Proof using Hsch.
  intros Hk Hk' Hb Hb' E. destruct (Z.lt_trichotomy k k') as [Hlt|[?|Hgt]]; [|done|].
  - destruct (sched_lt k k') as (_ & _ & H); [lia|done|]. by rewrite E, sched_refl in H.
  - destruct (sched_lt k' k) as (_ & _ & H); [lia|done|]. by rewrite E, sched_refl in H.
Qed.

(** A period that has started by a day is not in a later month. *)
Lemma sched_started k today i d :
  in_month today i d -> 0 <= k -> i0 + n * k < 119500 -> str_le (period_at c k) today = true -> i0 + n * k <= i.
Proof using Hsch.
  intros Ht Hk Hb H. destruct (Z.le_gt_cases (i0 + n * k) i) as [|Hgt]; [done|].
  destruct (later_month _ _ _ _ _ _ Ht (sched_month k Hk Hb) Hgt) as (_ & _ & E). congruence.
Qed.

End schedule.

(** ** Pointers and billed periods *)

(** The billing pointer is a boundary of the schedule. *)
Definition pointer_ok (c : Contract) (p : string) : Prop :=
  exists i0 d0 j, schedule c i0 d0 /\ p = period_at c j /\ (if decide (ct_billingTiming c = arrears) then 1 else 0) <= j
    /\ i0 + ct_intervalMonths c * j < 119130.

(** A row of the ledger is a period of the schedule that had started. *)
Definition period_ok (c : Contract) (start end_ : string) : Prop :=
  exists i0 d0 k, schedule c i0 d0 /\ 0 <= k /\ start = period_at c k /\ end_ = period_at c (k + 1)
    /\ i0 + ct_intervalMonths c * k < 119000.

Definition contract_ok (c : Contract) : Prop :=
  schedule_ok c /\ (ct_status c = ct_draft -> ct_nextBillingAt c = None)
  /\ (forall p, ct_nextBillingAt c = Some p -> pointer_ok c p).

(** The row a run has read: a draft, or a contract whose schedule is still the same. *)
Definition run_ok (s : BillStore) (r : nat * Contract) : Prop :=
  ct_status r.2 = ct_draft
  \/ contract_ok r.2 /\ exists c', bs_contracts s !! r.1 = Some c' /\ ct_status c' <> ct_draft /\ same_schedule r.2 c'.

Record sched_inv (x : BillSys) : Prop := {
  si_id : forall id c, bs_contracts (sy_store x) !! id = Some c -> (id < bs_nextId (sy_store x))%nat;
  si_row : forall id c, bs_contracts (sy_store x) !! id = Some c -> contract_ok c;
  si_period : forall id p b, bs_periods (sy_store x) !! (id, p) = Some b ->
    exists c, bs_contracts (sy_store x) !! id = Some c /\ ct_status c <> ct_draft /\ period_ok c p (bp_periodEnd b);
  si_fresh : forall key b i, bs_periods (sy_store x) !! key = Some b -> bp_invoiceId b = Some i -> (i < bs_nextId (sy_store x))%nat;
  si_single : forall key1 key2 b1 b2 i, bs_periods (sy_store x) !! key1 = Some b1 -> bs_periods (sy_store x) !! key2 = Some b2 ->
    bp_invoiceId b1 = Some i -> bp_invoiceId b2 = Some i -> key1 = key2;
  si_runs : Forall (run_ok (sy_store x)) (sy_runs x);
}.

Lemma schedule_same c c' i0 d0 : same_schedule c c' -> schedule c i0 d0 -> schedule c' i0 d0.
Proof. unfold schedule. by intros (-> & -> & _). Qed.

Lemma schedule_ok_same c c' : same_schedule c c' -> schedule_ok c -> schedule_ok c'.
Proof. unfold schedule_ok. by intros (-> & -> & _). Qed.

Lemma period_ok_same c c' p e : same_schedule c c' -> period_ok c p e -> period_ok c' p e.
Proof.
  intros Hs (i0 & d0 & k & Hsch & Hk & -> & -> & Hb). exists i0, d0, k. rewrite !(same_schedule_period _ _ _ Hs).
  split_and!; try done; [by eapply schedule_same|]. by destruct Hs as (_ & -> & _).
Qed.

Lemma pointer_ok_same c c' p : same_schedule c c' -> pointer_ok c p -> pointer_ok c' p.
Proof.
  intros Hs (i0 & d0 & j & Hsch & -> & Hj & Hb). exists i0, d0, j. rewrite (same_schedule_period _ _ _ Hs).
  pose proof Hs as (_ & E2 & E3). rewrite E2, E3.
  split_and!; try done. by eapply schedule_same.
Qed.

Lemma in_month_inj s i d i' d' : in_month s i d -> in_month s i' d' -> i = i' /\ d = d'.
Proof.
  intros H H'. unfold in_month in *. pose proof (parts_date _ _ _ _ H) as E. rewrite (parts_date _ _ _ _ H') in E.
  injection E as E1 E2 E3. split; [|done]. unfold index_year, index_month in *. div_lia.
Qed.

(** Contracts and billed periods untouched. *)
Lemma inv_same s s' rs :
  bs_contracts s' = bs_contracts s -> (forall key, option_Forall2 unlinks (bs_periods s !! key) (bs_periods s' !! key)) ->
  (bs_nextId s <= bs_nextId s')%nat -> sched_inv {| sy_store := s; sy_runs := rs |} -> sched_inv {| sy_store := s'; sy_runs := rs |}.
Proof.
  intros Ec Hp Hn [H1 H2 H3 H4 H5 H6]. cbn in *.
  assert (Hback : forall key b', bs_periods s' !! key = Some b' -> exists b, bs_periods s !! key = Some b /\ unlinks b b').
  { intros key b' Hb. specialize (Hp key). rewrite Hb in Hp. inversion Hp; eauto. }
  split; cbn; rewrite ?Ec.
  - intros id c Hc. specialize (H1 _ _ Hc). lia.
  - done.
  - intros id p b' Hb. destruct (Hback _ _ Hb) as (b & Hb0 & _ & -> & _). by eapply H3.
  - intros key b' i Hb Hi. destruct (Hback _ _ Hb) as (b & Hb0 & _ & _ & [E|E]); [|congruence]. rewrite E in Hi.
    specialize (H4 _ _ _ Hb0 Hi). lia.
  - intros k1 k2 b1 b2 i Hb1 Hb2 Hi1 Hi2. destruct (Hback _ _ Hb1) as (x1 & X1 & _ & _ & [E1|E1]); [|congruence].
    destruct (Hback _ _ Hb2) as (x2 & X2 & _ & _ & [E2|E2]); [|congruence]. eapply (H5 _ _ _ _ i); [exact X1|exact X2|congruence..].
  - eapply Forall_impl; [done|]. intros r [?|(? & c' & Hc' & ?)]; [by left|]. right. split; [done|]. exists c'. by rewrite Ec.
Qed.

Lemma inv_frame s s' rs : contract_frame s s' -> sched_inv {| sy_store := s; sy_runs := rs |} -> sched_inv {| sy_store := s'; sy_runs := rs |}.
Proof. intros (Ec & _ & Hp & Hn). by apply inv_same. Qed.

(** A row altered. *)
Lemma inv_alter id f s rs :
  sched_inv {| sy_store := s; sy_runs := rs |} ->
  (forall c, bs_contracts s !! id = Some c -> contract_ok (f c) /\ (ct_status c <> ct_draft -> ct_status (f c) <> ct_draft /\ same_schedule c (f c))) ->
  sched_inv {| sy_store := alter_contract id f s; sy_runs := rs |}.
Proof.
  intros [H1 H2 H3 H4 H5 H6] Hf. cbn in *.
  assert (Hkeep : forall k c, bs_contracts s !! k = Some c -> ct_status c <> ct_draft ->
    exists c', bs_contracts (alter_contract id f s) !! k = Some c' /\ ct_status c' <> ct_draft /\ same_schedule c c').
  { intros k c Hc Hst. cbn. destruct (decide (k = id)) as [->|Hne].
    - exists (f c). rewrite lookup_alter_eq, Hc. split; [done|]. by apply Hf.
    - exists c. rewrite lookup_alter_ne by done. done. }
  split; cbn.
  - intros k c Hc. apply lookup_alter_Some in Hc as [(-> & c0 & Hc & ->)|(_ & Hc)]; by eapply H1.
  - intros k c Hc. apply lookup_alter_Some in Hc as [(-> & c0 & Hc & ->)|(_ & Hc)]; [by apply Hf|by eapply H2].
  - intros k p b Hb. destruct (H3 _ _ _ Hb) as (c & Hc & Hst & Hok). destruct (Hkeep _ _ Hc Hst) as (c' & Hc' & Hst' & Hs).
    exists c'. split_and!; try done. by eapply period_ok_same.
  - done.
  - done.
  - eapply Forall_impl; [done|]. intros r [?|(? & c & Hc & Hst & Hs)]; [by left|right]. split; [done|].
    destruct (Hkeep _ _ Hc Hst) as (c' & Hc' & Hst' & Hs'). exists c'. split_and!; try done. by eapply same_schedule_trans.
Qed.

Lemma set_contract_same st p e c : same_schedule c (set_contract st p e c).
Proof. by repeat split. Qed.

(** A new status, pointer or end that fits the schedule. *)
Lemma set_contract_ok st p e c :
  contract_ok c -> st <> ct_draft -> (forall x, p = Some x -> pointer_ok c x) -> contract_ok (set_contract st p e c).
Proof.
  intros (H1 & H2 & H3) Hst Hp. split_and!; [done|done|]. intros x Hx. eapply pointer_ok_same; [apply set_contract_same|by apply Hp].
Qed.

Lemma emit_frame e s : contract_frame s (emit e s).
Proof. by apply frame_refl. Qed.

Lemma inv_expire id s rs : sched_inv {| sy_store := s; sy_runs := rs |} -> sched_inv {| sy_store := expire id s; sy_runs := rs |}.
Proof.
  intros H. eapply inv_frame; [apply emit_frame|]. apply inv_alter; [done|]. intros c Hc.
  pose proof (si_row _ H _ _ Hc) as Hok. split; [by apply set_contract_ok|]. intros _. split; [done|apply set_contract_same].
Qed.

(** *** Billing runs *)

Lemma due_index_ok c i0 d0 j :
  schedule c i0 d0 -> (if decide (ct_billingTiming c = arrears) then 1 else 0) <= j -> i0 + ct_intervalMonths c * j < 119130 ->
  due_index c (period_at c j) = match ct_billingTiming c with advance => j | arrears => j - 1 end.
Proof.
  intros Hs Hj Hb. unfold due_index. case_decide as Ht; rewrite (sched_index c i0 d0) by (done || lia).
  - rewrite Ht. lia.
  - destruct (ct_billingTiming c); [lia|done].
Qed.

(** The pointer after the period it stood for. *)
Lemma next_pointer_ok c i0 d0 j idx :
  schedule c i0 d0 -> (if decide (ct_billingTiming c = arrears) then 1 else 0) <= j -> i0 + ct_intervalMonths c * j < 119000 ->
  idx = match ct_billingTiming c with advance => j | arrears => j - 1 end ->
  pointer_ok c (match ct_billingTiming c with advance => period_at c (idx + 1) | arrears => period_at c (idx + 1 + 1) end).
Proof.
  intros Hs Hj Hb ->. exists i0, d0, (j + 1). pose proof Hs as (_ & _ & Hn). split_and!; [done| |case_decide; lia|nia].
  destruct (ct_billingTiming c); f_equal; lia.
Qed.

Lemma inv_claim id p b inv s rs c :
  sched_inv {| sy_store := s; sy_runs := rs |} ->
  bs_contracts s !! id = Some c -> ct_status c <> ct_draft -> period_ok c p (bp_periodEnd b) -> bp_invoiceId b = Some inv ->
  (inv < bs_nextId s)%nat -> (forall key b', bs_periods s !! key = Some b' -> bp_invoiceId b' <> Some inv) ->
  sched_inv {| sy_store := with_periods (<[(id, p) := b]>) s; sy_runs := rs |}.
Proof.
  intros [H1 H2 H3 H4 H5 H6] Hc Hst Hok Hinv Hlt Hnew. split; cbn in *; try done.
  - intros k q b' Hb. apply lookup_insert_Some in Hb as [[[= <- <-] <-]|[_ Hb]]; [by exists c|by eapply H3].
  - intros key b' i Hb Hi. apply lookup_insert_Some in Hb as [[<- <-]|[_ Hb]]; [by simplify_eq|by eapply H4].
  - intros k1 k2 b1 b2 i Hb1 Hb2 Hi1 Hi2.
    apply lookup_insert_Some in Hb1 as [[<- <-]|[N1 Hb1]]; apply lookup_insert_Some in Hb2 as [[<- <-]|[N2 Hb2]].
    + done.
    + simplify_eq. by destruct (Hnew _ _ Hb2).
    + simplify_eq. by destruct (Hnew _ _ Hb1).
    + by eapply H5.
Qed.

Lemma inv_advance id c idx s rs i0 d0 j :
  sched_inv {| sy_store := s; sy_runs := rs |} -> schedule c i0 d0 -> (if decide (ct_billingTiming c = arrears) then 1 else 0) <= j ->
  i0 + ct_intervalMonths c * j < 119000 -> idx = match ct_billingTiming c with advance => j | arrears => j - 1 end ->
  (forall c', bs_contracts s !! id = Some c' -> ct_status c' <> ct_draft /\ same_schedule c c') ->
  sched_inv {| sy_store := advance_pointer id c idx s; sy_runs := rs |}.
Proof.
  intros H Hs Hj Hb Hidx Hrow. unfold advance_pointer. destruct (isExpired _ _); [by apply inv_expire|].
  apply inv_alter; [done|]. intros c' Hc'. destruct (Hrow _ Hc') as [Hst Hsame]. split; [|split; [done|apply set_contract_same]].
  apply set_contract_ok; [by eapply (si_row _ H)|done|]. intros x [= <-]. eapply pointer_ok_same; [done|].
  pose proof (next_pointer_ok c i0 d0 j idx Hs Hj Hb Hidx) as Hp. by destruct (ct_billingTiming c).
Qed.

(** The period a run bills. *)
Lemma run_period env c at_ :
  clock_ok env -> contract_ok c -> ct_nextBillingAt c = Some at_ -> str_le at_ (iso_of_ms (be_now env)) = true ->
  exists i0 d0 j, schedule c i0 d0 /\ at_ = period_at c j /\ (if decide (ct_billingTiming c = arrears) then 1 else 0) <= j
    /\ i0 + ct_intervalMonths c * j < 119000
    /\ due_index c at_ = match ct_billingTiming c with advance => j | arrears => j - 1 end /\ 0 <= due_index c at_ <= j.
Proof.
  intros (_ & i & d & Ht & Hi) (_ & _ & Hp) Hat Hle. destruct (Hp _ Hat) as (i0 & d0 & j & Hs & -> & Hj & Hb).
  exists i0, d0, j. rewrite (due_index_ok c i0 d0) by done. assert (0 <= j) by (case_decide; lia).
  assert (i0 + ct_intervalMonths c * j <= i) by (by eapply sched_started; [| |lia|lia|]).
  assert (Hj' : ct_billingTiming c = arrears -> 1 <= j) by (intros E; by rewrite decide_True in Hj).
  split_and!; try done; try lia; destruct (ct_billingTiming c); try lia; specialize (Hj' eq_refl); lia.
Qed.

Lemma inv_run env id c s s' r rs :
  clock_ok env -> sched_inv {| sy_store := s; sy_runs := rs |} -> run_ok s (id, c) -> generate_with env id c s = Ok (s', r) ->
  sched_inv {| sy_store := s'; sy_runs := rs |}.
Proof.
  intros Hclk H Hrun Hg%generate_effect. unfold run_effect in Hg.
  destruct (ct_nextBillingAt c) as [at_|] eqn:Eat; [|by destruct Hg as [-> _]].
  destruct (negb (bool_decide (ct_status c = ct_active))) eqn:Eact; [by destruct Hg as [-> _]|].
  destruct (str_le at_ (iso_of_ms (be_now env))) eqn:Ele; [|by destruct Hg as [-> _]]. cbn [negb orb] in Hg.
  destruct (isExpired _ _); [destruct Hg as [-> _]; by apply inv_expire|]. bool_hyps.
  destruct r as [inv auto actor| | |]; [|destruct Hg as [Hu _]; eapply inv_frame; [by apply uchanges_frame|done]|done|by subst].
  destruct Hg as (s2 & Hu & Hinv & Hlt & _ & _ & ->). pose proof (uchanges_frame _ _ Hu) as Hfr.
  destruct Hrun as [Hdr|(Hok & c' & Hc' & Hst' & Hsame)]; [cbn in *; congruence|]. cbn in *.
  destruct (run_period env c at_ Hclk Hok Eat Ele) as (i0 & d0 & j & Hs & -> & Hj & Hb & Hidx & Hrange).
  pose proof (inv_frame _ _ _ Hfr H) as H2. destruct Hfr as (Ec & _ & Hp & _).
  eapply inv_frame; [apply emit_frame|]. eapply inv_advance; [|done|done|done|done|].
  - eapply inv_claim; [done|cbn; rewrite Ec; exact Hc'|done| |done|done|].
    + eapply period_ok_same; [exact Hsame|]. exists i0, d0, (due_index c (period_at c j)). pose proof Hs as (_ & _ & Hn).
      split_and!; try done; [lia|]. nia.
    + intros key b' Hb' Hi. specialize (Hp key). rewrite Hb' in Hp. inversion Hp as [b0 ? Hun E|]; subst.
      destruct Hun as (_ & _ & [E'|E']); [|congruence]. symmetry in E. rewrite E' in Hi.
      pose proof (si_fresh _ H _ _ _ E Hi) as Hf. cbn in Hf. lia.
  - intros c2 Hc2. cbn in Hc2. rewrite Ec, Hc' in Hc2. simplify_eq. done.
Qed.

(** *** Calls of the contract service *)

Lemma inv_create c s rs :
  sched_inv {| sy_store := s; sy_runs := rs |} -> contract_ok c ->
  sched_inv {| sy_store := bump_id (with_contracts (<[bs_nextId s := c]>) s); sy_runs := rs |}.
Proof.
  intros [H1 H2 H3 H4 H5 H6] Hok. cbn in *.
  assert (Hkeep : forall id c', bs_contracts s !! id = Some c' -> <[bs_nextId s := c]> (bs_contracts s) !! id = Some c').
  { intros id c' Hc'. rewrite lookup_insert_ne; [done|]. specialize (H1 _ _ Hc'). lia. }
  split; cbn.
  - intros id c' Hc'. apply lookup_insert_Some in Hc' as [[<- _]|[_ Hc']]; [lia|]. specialize (H1 _ _ Hc'). lia.
  - intros id c' Hc'. apply lookup_insert_Some in Hc' as [[_ <-]|[_ Hc']]; [done|by eapply H2].
  - intros id p b Hb. destruct (H3 _ _ _ Hb) as (c' & Hc' & ?). exists c'. split; [by apply Hkeep|done].
  - intros key b i Hb Hi. specialize (H4 _ _ _ Hb Hi). lia.
  - done.
  - eapply Forall_impl; [done|]. intros r [?|(? & c' & Hc' & ?)]; [by left|right]. split; [done|]. exists c'. split; [by apply Hkeep|done].
Qed.

Lemma inv_delete id c s s' rs :
  sched_inv {| sy_store := s; sy_runs := rs |} -> bs_contracts s !! id = Some c -> ct_status c = ct_draft ->
  bs_contracts s' = delete id (bs_contracts s) -> bs_periods s' = filter (fun r => r.1.1 <> id) (bs_periods s) ->
  bs_nextId s' = bs_nextId s -> sched_inv {| sy_store := s'; sy_runs := rs |}.
Proof.
  intros [H1 H2 H3 H4 H5 H6] Hc Hst Ec Ep En. cbn in *. split; cbn; rewrite ?Ec, ?Ep, ?En.
  - intros k c' Hc'. apply lookup_delete_Some in Hc' as [_ Hc']. by eapply H1.
  - intros k c' Hc'. apply lookup_delete_Some in Hc' as [_ Hc']. by eapply H2.
  - intros k p b Hb. apply map_lookup_filter_Some in Hb as [Hb Hne]. destruct (H3 _ _ _ Hb) as (c' & Hc' & ?).
    exists c'. rewrite lookup_delete_ne; [done|]. cbn in Hne. congruence.
  - intros key b i Hb Hi. apply map_lookup_filter_Some in Hb as [Hb _]. by eapply H4.
  - intros k1 k2 b1 b2 i Hb1 Hb2. apply map_lookup_filter_Some in Hb1 as [Hb1 _].
    apply map_lookup_filter_Some in Hb2 as [Hb2 _]. by eapply H5.
  - eapply Forall_impl; [done|]. intros r [?|(? & c' & Hc' & Hst' & ?)]; [by left|right]. split; [done|]. exists c'.
    rewrite Ec, lookup_delete_ne; [done|]. intros ->. congruence.
Qed.

(** The pointer an activation computes. *)
Lemma pointer_at_ok c env : clock_ok env -> schedule_ok c -> pointer_ok c (pointer_at c (iso_of_ms (be_now env))).
Proof.
  intros (_ & i & d & Ht & Hi) Hok. destruct (schedule_split c Hok) as (i0 & d0 & Hs). pose proof Hs as (Hm & Hi0 & Hn).
  unfold pointer_at, nextBillingDate.
  destruct (period_index_spec _ _ _ (ct_intervalMonths c) _ _ _ Hm Ht) as ((Hk & Hmax) & _);
    [lia|unfold RUNAWAY_GUARD; lia|unfold index_ok; pose proof (in_month_ok _ _ _ Ht) as Hio; unfold index_ok in Hio; lia|].
  set (k := periodIndexFor _ _ _) in *.
  assert (Hb : i0 + ct_intervalMonths c * k < 119000) by lia.
  exists i0, d0, (if decide (ct_billingTiming c = arrears) then k + 1 else k). split_and!; [done| |case_decide; lia|case_decide; nia].
  case_decide as E; [by rewrite E|]. by destruct (ct_billingTiming c).
Qed.

Lemma owned_spec id actor s c : getOwnedContractOr404 id actor s = Ok c -> bs_contracts s !! id = Some c.
Proof.
  unfold getOwnedContractOr404. destruct (bs_contracts s !! id); [|done]. intros H. result_ok H. by simplify_eq.
Qed.

Lemma patch_contract_ok p c :
  patch_ok p -> contract_ok c -> (ct_status c = ct_draft \/ is_schedule_patch p = false) ->
  contract_ok (patch_contract p c) /\ (ct_status c <> ct_draft -> ct_status (patch_contract p c) <> ct_draft /\ same_schedule c (patch_contract p c)).
Proof.
  intros [Hp1 Hp2] (Hok & Hd & Hp) Hcase.
  destruct (decide (ct_status c = ct_draft)) as [E|E].
  - split; [|done]. split_and!; [|by intros _; apply Hd|intros x Hx; cbn in Hx; by rewrite Hd in Hx].
    destruct Hok as [H1 H2]. split; cbn; rewrite bool_decide_eq_true_2 by done.
    + destruct (cp_startDate p) eqn:E1; [by apply Hp1|done].
    + destruct (cp_intervalMonths p) eqn:E1; [by apply Hp2|done].
  - assert (Hs : same_schedule c (patch_contract p c)).
    { unfold patch_contract, same_schedule. cbn. by rewrite bool_decide_eq_false_2. }
    split; [|done]. split_and!; [by eapply schedule_ok_same|done|]. intros x Hx. eapply pointer_ok_same; [done|by apply Hp].
Qed.

(** Status changes of a row the actor may see. *)
Lemma inv_set_status id s rs c st p e :
  sched_inv {| sy_store := s; sy_runs := rs |} -> bs_contracts s !! id = Some c -> st <> ct_draft ->
  (forall x, p = Some x -> pointer_ok c x) ->
  sched_inv {| sy_store := emit e (alter_contract id (set_status st p) s); sy_runs := rs |}.
Proof.
  intros H Hc Hst Hp. eapply inv_frame; [apply emit_frame|]. apply inv_alter; [done|]. intros c' Hc'. simplify_eq.
  split; [|split; [done|apply set_contract_same]]. apply set_contract_ok; [by eapply (si_row _ H)|done|done].
Qed.

Lemma inv_renewal_step today acc r rs :
  sched_inv {| sy_store := acc.1.1; sy_runs := rs |} -> sched_inv {| sy_store := (renewal_step today acc r).1.1; sy_runs := rs |}.
Proof.
  destruct acc as [[s n] m], r as [id c]. intros H. cbn in H.
  assert (Hclaim : forall i e k s0, sched_inv {| sy_store := s0; sy_runs := rs |} -> sched_inv {| sy_store := (claimNotice i e k s0).1; sy_runs := rs |}).
  { intros i e k s0 H0. unfold claimNotice. case_bool_decide; [done|]. eapply inv_frame; [|done]. by apply frame_refl. }
  unfold renewal_step. destruct (ct_endDate c) as [e|]; [|done]. destruct (ct_renewalTermMonths c) as [t|]; [|done].
  assert (H1 : sched_inv {| sy_store := (renewal_notice today id c e s).1; sy_runs := rs |}).
  { unfold renewal_notice. destruct (isWithinNoticeWindow _ _ _); [|done]. specialize (Hclaim id e notice_advance s H).
    by destruct (claimNotice id e notice_advance s). }
  destruct (renewal_notice today id c e s) as [s1 k1]. cbn in H1. unfold renewal_extend.
  destruct (ct_nextBillingAt c) as [at_|]; [|done]. destruct (str_le at_ today); [|done].
  destruct (extendTermPastDue _ _ _) as [e' []]; [|done]. cbn. apply Hclaim. eapply inv_frame; [apply emit_frame|].
  apply inv_alter; [done|]. intros c' Hc'. pose proof (si_row _ H1 _ _ Hc') as (A & B & C).
  split; [|done]. split_and!; [done|done|]. intros x Hx. eapply pointer_ok_same; [apply set_contract_same|by apply C].
Qed.

(** The lines of a new contract touch no schedule. *)
Lemma inv_contract_line s rs l :
  sched_inv {| sy_store := s; sy_runs := rs |} ->
  sched_inv {| sy_store := bump_id (with_contractLines (<[bs_nextId s := l]>) s); sy_runs := rs |}.
Proof.
  intros H. apply (inv_same s); [done| |cbn; lia|done]. intros key. cbn. destruct (bs_periods s !! key); constructor.
  apply unlinks_refl.
Qed.

Lemma inv_spec_lines id orgId ls s rs :
  sched_inv {| sy_store := s; sy_runs := rs |} ->
  sched_inv {| sy_store := (insert_spec_lines id orgId ls s).1; sy_runs := rs |}.
Proof.
  revert s. induction ls as [|l ls IH]; intros s H; [done|]. cbn [insert_spec_lines insert_contract_line].
  specialize (IH _ (inv_contract_line s rs (spec_contract_line id orgId l) H)).
  by destruct (insert_spec_lines id orgId ls _).
Qed.

Lemma inv_contract_step s s' rs :
  contract_step s s' -> sched_inv {| sy_store := s; sy_runs := rs |} -> sched_inv {| sy_store := s'; sy_runs := rs |}.
Proof.
  intros Hstep H. destruct Hstep as [env i actor s' id Hin Hc|id p actor s' Hp Hc|id actor s' Hc|???????????? Hc|id l actor s' Hc
    |env id actor s' Hk Hc|id actor s' Hc|env id actor s' Hk Hc|id actor s' Hc|env|sp Hsp].
  - unfold createContract in Hc. result_ok Hc. destruct (be_orgPartner env (cn_orgId i)); [|done]. simplify_eq.
    apply inv_create; [done|]. split_and!; [exact Hin|done|done].
  - unfold updateContract in Hc. apply rbind_Ok in Hc as (c & Hc0%owned_spec & Hc). result_ok Hc. simplify_eq.
    apply inv_alter; [done|]. intros c' Hc'. simplify_eq. apply patch_contract_ok; [done|by eapply (si_row _ H)|].
    match goal with G : _ || negb _ = true |- _ => apply orb_true_iff in G as [G|G]; bool_hyps; auto end.
  - unfold deleteDraftContract in Hc. apply rbind_Ok in Hc as (c & Hc0%owned_spec & Hc). unfold assertContractDraft in Hc.
    result_ok Hc. bool_hyps. simplify_eq. by eapply inv_delete.
  - unfold addContractLineToContract in Hc. result_ok Hc. simplify_eq. apply (inv_same s); [done| |cbn; lia|done].
    intros key. cbn. destruct (bs_periods s !! key); constructor. apply unlinks_refl.
  - unfold removeContractLine in Hc. result_ok Hc. simplify_eq. apply (inv_same s); [done| |cbn; lia|done].
    intros key. cbn. destruct (bs_periods s !! key); constructor. apply unlinks_refl.
  - unfold activateContract in Hc. apply rbind_Ok in Hc as (c & Hc0%owned_spec & Hc). result_ok Hc. simplify_eq.
    eapply inv_set_status; [done|done|done|]. intros x [= <-]. apply pointer_at_ok; [done|]. by apply (si_row _ H _ _ Hc0).
  - unfold pauseContract in Hc. apply rbind_Ok in Hc as (c & Hc0%owned_spec & Hc). result_ok Hc. simplify_eq.
    by eapply inv_set_status.
  - unfold resumeContract in Hc. apply rbind_Ok in Hc as (c & Hc0%owned_spec & Hc). result_ok Hc. simplify_eq.
    eapply inv_set_status; [done|done|done|]. intros x [= <-]. apply pointer_at_ok; [done|]. by apply (si_row _ H _ _ Hc0).
  - unfold cancelContract in Hc. apply rbind_Ok in Hc as (c & Hc0%owned_spec & Hc). case_bool_decide; simplify_eq; [done|].
    by eapply inv_set_status.
  - unfold runContractRenewalSweep. generalize (List.filter (fun r => renewal_candidate r.2) (map_to_list (bs_contracts s))).
    intros l. change s with ((s, 0%nat, 0%nat).1.1) in H. revert H. generalize (s, 0%nat, 0%nat).
    induction l as [|r l IH]; intros acc H; [done|]. cbn [fold_left]. by apply IH, inv_renewal_step.
  - unfold createContractWithLinesDetailed.
    assert (H1 : sched_inv {| sy_store := bump_id (with_contracts (<[bs_nextId s := spec_contract sp]>) s); sy_runs := rs |}).
    { apply inv_create; [done|]. split_and!; [exact Hsp|done|done]. }
    apply (inv_spec_lines (bs_nextId s) (nc_orgId sp) (nc_lines sp)) in H1. by destruct (insert_spec_lines _ _ _ _).
Qed.

Lemma inv_step x y : bill_step x y -> sched_inv x -> sched_inv y.
Proof.
  destruct 1 as [s s' rs Hs|s s' rs Hs|s id c rs Hc|env s id c s' r rs1 rs2 Hk Hg|s run rs1 rs2]; intros H.
  - eapply inv_frame; [|done]. by apply uchanges_frame, invoice_step_changes.
  - by eapply inv_contract_step.
  - pose proof (si_row _ H _ _ Hc) as Hok. destruct H as [H1 H2 H3 H4 H5 H6]. split; try done. constructor; [|done].
    destruct (decide (ct_status c = ct_draft)); [by left|right]. split; [done|]. exists c. by repeat split.
  - pose proof (si_runs _ H) as Hr. cbn in Hr. apply Forall_app in Hr as [Hr1 Hr2]. apply Forall_cons in Hr2 as [Hr Hr2].
    eapply inv_run; [done| |exact Hr|done]. destruct H as [H1 H2 H3 H4 H5 _]. split; try done. by apply Forall_app.
  - pose proof (si_runs _ H) as Hr. cbn in Hr. apply Forall_app in Hr as [Hr1 Hr2]. apply Forall_cons in Hr2 as [_ Hr2].
    destruct H as [H1 H2 H3 H4 H5 _]. split; try done. by apply Forall_app.
Qed.

Lemma reachable_sched time parts_ x :
  rtc bill_step {| sy_store := empty_bills time parts_; sy_runs := [] |} x -> sched_inv x.
Proof.
  intros H. assert (H0 : sched_inv {| sy_store := empty_bills time parts_; sy_runs := [] |}) by (by split).
  induction H as [|x y z Hxy _ IH]; [done|]. by apply IH, (inv_step x).
Qed.

(** C9: Whatever service calls are made and however billing runs overlap, each billed
    period of a contract is a period of its schedule, two of them never share a day,
    and an invoice bills at most one period. *)
Theorem periods_are_billed_once time parts_ x id p1 p2 b1 b2 :
  rtc bill_step {| sy_store := empty_bills time parts_; sy_runs := [] |} x ->
  bs_periods (sy_store x) !! (id, p1) = Some b1 -> bs_periods (sy_store x) !! (id, p2) = Some b2 -> p1 <> p2 ->
  exists c k1 k2, bs_contracts (sy_store x) !! id = Some c /\ p1 = period_at c k1 /\ p2 = period_at c k2
    /\ bp_periodEnd b1 = period_at c (k1 + 1) /\ bp_periodEnd b2 = period_at c (k2 + 1)
    /\ (str_le (bp_periodEnd b1) p2 = true \/ str_le (bp_periodEnd b2) p1 = true)
    /\ (bp_invoiceId b1 <> None -> bp_invoiceId b1 <> bp_invoiceId b2).
Proof.
  intros H%reachable_sched Hb1 Hb2 Hne.
  destruct (si_period _ H _ _ _ Hb1) as (c & Hc & _ & i0 & d0 & k1 & Hs & Hk1 & -> & E1 & B1).
  destruct (si_period _ H _ _ _ Hb2) as (c2 & Hc2 & _ & i0' & d0' & k2 & Hs' & Hk2 & -> & E2 & B2). rewrite Hc in Hc2. simplify_eq.
  destruct (in_month_inj _ _ _ _ _ (proj1 Hs) (proj1 Hs')) as [<- <-].
  exists c2, k1, k2. split_and!; try done.
  - pose proof Hs as (_ & _ & Hn). rewrite E1, E2.
    assert (Hord : forall a b, 0 <= a < b -> i0 + ct_intervalMonths c2 * b < 119000 -> str_le (period_at c2 (a + 1)) (period_at c2 b) = true).
    { intros a b Hab Hb. destruct (Z.eq_dec (a + 1) b) as [<-|]; [apply (sched_refl c2 i0 d0); [done|lia|lia]|].
      apply (sched_lt c2 i0 d0 Hs); lia. }
    destruct (Z.lt_trichotomy k1 k2) as [Hlt|[->|Hgt]]; [left; by apply Hord; [lia|]|done|right; by apply Hord; [lia|]].
  - intros Hn E. destruct (bp_invoiceId b1) as [i|] eqn:Ei; [|done]. symmetry in E.
    pose proof (si_single _ H _ _ _ _ _ Hb1 Hb2 Ei E). congruence.
Qed.
