(* ===== verification/ContractBehaviour.v ===== *)
(** * How billing goes on, and how it stops

    The daily job seen from one contract: it catches up with what is due; it never
    renews a contract that bills in advance; and it never bills again one that was
    resumed in a period already billed. *)

From stdpp Require Import base gmap strings list option relations sorting.
From Stdlib Require Import ZArith Lia.
From S2P Require Import Prelude Calendar Money BillingStore.
From S2P Require Import Invoices Contracts BillingSystem ContractTheorems.
Open Scope Z_scope.

(** ** One contract in the daily job *)

(** The row of a contract and which of its periods are billed. *)
Definition same_view (id : nat) (s s' : BillStore) : Prop :=
  bs_contracts s' !! id = bs_contracts s !! id
  /\ forall p, is_Some (bs_periods s' !! (id, p)) <-> is_Some (bs_periods s !! (id, p)).

Lemma view_refl id s : same_view id s s.
Proof. done. Qed.

Lemma view_trans id s s1 s2 : same_view id s s1 -> same_view id s1 s2 -> same_view id s s2.
Proof. intros [E1 P1] [E2 P2]. split; [congruence|]. intros p. by rewrite P2, P1. Qed.

Lemma frame_view id s s' : contract_frame s s' -> same_view id s s'.
Proof.
  intros (Ec & _ & Hp & _). split; [by rewrite Ec|]. intros p. specialize (Hp (id, p)).
  destruct (bs_periods s !! (id, p)), (bs_periods s' !! (id, p)); inversion Hp; split; intros [? ?]; eauto; done.
Qed.

Lemma alter_view id k f s : k <> id -> same_view id s (alter_contract k f s).
Proof. intros Hne. split; [cbn; by rewrite lookup_alter_ne|done]. Qed.

Lemma claim_view id k p b s : k <> id -> same_view id s (with_periods (<[(k, p) := b]>) s).
Proof. intros Hne. split; [done|]. intros q. cbn. rewrite lookup_insert_ne; [done|congruence]. Qed.

Lemma expire_view id k s : k <> id -> same_view id s (expire k s).
Proof. intros Hne. eapply view_trans; [by apply alter_view|]. apply frame_view, emit_frame. Qed.

Lemma advance_view id k c idx s : k <> id -> same_view id s (advance_pointer k c idx s).
Proof. intros Hne. unfold advance_pointer. destruct (isExpired _ _); [by apply expire_view|by apply alter_view]. Qed.

(** A run of another contract. *)
Lemma other_run_view env id k s s' r : k <> id -> generateDueInvoice env k s = Ok (s', r) -> same_view id s s'.
Proof.
  intros Hne. unfold generateDueInvoice. destruct (bs_contracts s !! k) as [c|]; [|done]. intros H%generate_effect.
  unfold run_effect in H. repeat case_match; destruct_and?; subst; try done.
  - by apply expire_view.
  - destruct H as (s2 & Hu & _ & _ & _ & _ & ->). eapply view_trans; [by apply frame_view, uchanges_frame|].
    eapply view_trans; [by apply claim_view|]. eapply view_trans; [by apply advance_view|]. apply frame_view, emit_frame.
  - by apply frame_view, uchanges_frame.
Qed.

Lemma issue_view env id inv actor s s' : issueInvoice env inv actor s = Ok s' -> 0 <= be_now env -> same_view id s s'.
Proof. intros H Hn. apply frame_view, uchanges_frame. by eapply issue_changes. Qed.

Lemma claimNotice_view id k e kind s : same_view id s (claimNotice k e kind s).1.
Proof. unfold claimNotice. case_bool_decide; [done|]. apply frame_view. by apply frame_refl. Qed.

Lemma notice_view id today k c e s : same_view id s (renewal_notice today k c e s).1.
Proof.
  unfold renewal_notice. destruct (isWithinNoticeWindow _ _ _); [|done].
  pose proof (claimNotice_view id k e notice_advance s). by destruct (claimNotice k e notice_advance s).
Qed.

Lemma other_renewal_view today id k c acc : k <> id -> same_view id acc.1.1 (renewal_step today acc (k, c)).1.1.
Proof.
  intros Hne. destruct acc as [[s n] m]. unfold renewal_step. destruct (ct_endDate c) as [e|]; [|done].
  destruct (ct_renewalTermMonths c) as [t|]; [|done]. pose proof (notice_view id today k c e s) as H1.
  destruct (renewal_notice today k c e s) as [s1 k1]. cbn in *. unfold renewal_extend.
  destruct (ct_nextBillingAt c) as [at_|]; [|done]. destruct (str_le at_ today); [|done].
  destruct (extendTermPastDue _ _ _) as [e' []]; [|done]. cbn. eapply view_trans; [done|].
  eapply view_trans; [by apply alter_view|]. eapply view_trans; [apply frame_view, emit_frame|]. apply claimNotice_view.
Qed.

(** What the job keeps for a contract, from what its own run and its own renewal keep. *)
Lemma job_invariant id env (I : BillStore -> Prop) s :
  0 <= be_now env ->
  (forall s s', same_view id s s' -> I s -> I s') ->
  (forall s s1 r, I s -> generateDueInvoice env id s = Ok (s1, r) -> I s1) ->
  (forall c acc, bs_contracts s !! id = Some c -> renewal_candidate c = true -> I acc.1.1 ->
     I (renewal_step (iso_of_ms (be_now env)) acc (id, c)).1.1) ->
  I s -> I (contract_job env s).
Proof.
  intros Hnow Hview Hrun Hren H. unfold contract_job.
  assert (H1 : I (runContractRenewalSweep env s).1.1).
  { unfold runContractRenewalSweep.
    assert (Hin : Forall (fun r => bs_contracts s !! r.1 = Some r.2 /\ renewal_candidate r.2 = true)
      (List.filter (fun r => renewal_candidate r.2) (map_to_list (bs_contracts s)))).
    { apply Forall_forall. intros [k c] [Hk Hc]%list_filter_elem. by apply elem_of_map_to_list in Hk. }
    change (I ((s, 0%nat, 0%nat).1.1)) in H. revert H Hin. generalize (s, 0%nat, 0%nat).
    generalize (List.filter (fun r => renewal_candidate r.2) (map_to_list (bs_contracts s))).
    induction l as [|[k c] l IH]; intros acc H Hin; [done|]. apply Forall_cons in Hin as [[Hk Hc] Hin]. cbn [fold_left].
    apply IH; [|done]. destruct (decide (k = id)) as [->|Hne]; [by apply Hren|].
    eapply Hview; [|done]. by apply other_renewal_view. }
  revert H1. generalize (runContractRenewalSweep env s).1.1. intros s1 H1. unfold runContractBillingSweep.
  change (I ((s1, 0%nat, 0%nat).1.1)) in H1. revert H1. generalize (s1, 0%nat, 0%nat).
  generalize ((List.filter (fun r => contract_due (iso_of_ms (be_now env)) r.2) (map_to_list (bs_contracts s1))).*1).
  induction l as [|k l IH]; intros acc Hacc; [done|]. cbn [fold_left]. apply IH. clear IH.
  destruct acc as [[t n] m]. cbn in Hacc. unfold billing_step.
  destruct (generateDueInvoice env k t) as [[t1 r]|] eqn:E; [|done].
  assert (Ht1 : I t1).
  { destruct (decide (k = id)) as [->|Hne]; [by eapply Hrun|]. eapply Hview; [by eapply other_run_view|done]. }
  destruct r as [inv [] actor| | |]; try done. cbn. destruct (issueInvoice env inv actor t1) eqn:Ei; [|done].
  eapply Hview; [by eapply issue_view|done].
Qed.

Definition jobs (envs : list BillEnv) (s : BillStore) : BillStore := fold_left (fun s env => contract_job env s) envs s.

(** In advance, the pointer is the start of the period it stands for. *)
Lemma due_start c p : ct_billingTiming c = advance -> pointer_ok c p -> period_at c (due_index c p) = p.
Proof.
  intros Ht (i0 & d0 & j & Hs & -> & Hj & Hb). rewrite (due_index_ok c i0 d0) by done. by rewrite Ht.
Qed.

(** Renewal looks at contracts whose due period would start after their end only. *)
Lemma no_renewal today id c e p acc :
  ct_billingTiming c = advance -> ct_endDate c = Some e -> ct_nextBillingAt c = Some p -> isExpired (Some e) p = false ->
  same_view id acc.1.1 (renewal_step today acc (id, c)).1.1.
Proof.
  intros Ht He Hp Hx. destruct acc as [[s n] m]. unfold renewal_step. rewrite He.
  destruct (ct_renewalTermMonths c) as [t|]; [|done]. pose proof (notice_view id today id c e s) as H1.
  destruct (renewal_notice today id c e s) as [s1 k1]. cbn in H1 |- *. unfold renewal_extend. rewrite Hp, Ht.
  destruct (str_le p today); [|done]. unfold duePeriodStartFor, extendTermPastDue.
  destruct (Z.to_nat (RUNAWAY_GUARD + 1)) eqn:E; [unfold RUNAWAY_GUARD in E; lia|].
  cbn [extend_loop]. by rewrite Hx.
Qed.

(** *** Stuck *)

(** The pointer stands on a period that is billed already. *)
Definition stuck (id : nat) (c : Contract) (billed_ : string -> Prop) (s : BillStore) : Prop :=
  bs_contracts s !! id = Some c /\ forall p, is_Some (bs_periods s !! (id, p)) <-> billed_ p.

Lemma stuck_view id c K s s' : same_view id s s' -> stuck id c K s -> stuck id c K s'.
Proof. intros [E Hp] [Hc HK]. split; [congruence|]. intros p. by rewrite Hp, HK. Qed.

Lemma stuck_run env id c K p s s' r :
  stuck id c K s -> ct_billingTiming c = advance -> ct_nextBillingAt c = Some p -> pointer_ok c p -> K p ->
  isExpired (ct_endDate c) p = false -> generateDueInvoice env id s = Ok (s', r) -> stuck id c K s'.
Proof.
  intros Hst Ht Hp Hok HK Hx. pose proof Hst as [Hc Hper]. unfold generateDueInvoice. rewrite Hc. intros H%generate_effect.
  unfold run_effect in H. rewrite Hp in H.
  change (periodStart (computePeriod _ _ (due_index c p))) with (period_at c (due_index c p)) in H.
  rewrite (due_start c p Ht Hok) in H. destruct (_ || _); [by destruct H as [-> _]|]. rewrite Hx in H.
  destruct r as [inv auto actor| | |]; [|destruct H as [Hu _]; eapply stuck_view; [by apply frame_view, uchanges_frame|done]|done|by subst].
  destruct H as (s2 & Hu & _ & _ & _ & Hnone & _). destruct (frame_view id _ _ (uchanges_frame _ _ Hu)) as [_ Hk].
  apply Hper, Hk in HK. rewrite Hnone in HK. by destruct HK.
Qed.

Lemma stuck_jobs id c K p envs s :
  Forall (fun env => 0 <= be_now env) envs -> ct_billingTiming c = advance -> ct_nextBillingAt c = Some p -> pointer_ok c p -> K p ->
  isExpired (ct_endDate c) p = false -> stuck id c K s -> stuck id c K (jobs envs s).
Proof.
  intros Henv Ht Hp Hok HK Hx. revert s. induction Henv as [|env envs Hnow _ IH]; intros s Hs; [done|]. unfold jobs. cbn [fold_left].
  apply IH. apply (job_invariant id env (stuck id c K)); [done|apply stuck_view| | |done].
  - intros s0 s1 r H0 Hg. by eapply stuck_run.
  - intros c' acc Hc' Hcand Hacc. destruct Hs as [Hc _]. rewrite Hc in Hc'. injection Hc' as <-.
    destruct (ct_endDate c) as [e|] eqn:Ee.
    + eapply stuck_view; [by eapply no_renewal|done].
    + unfold renewal_candidate in Hcand. rewrite Ee in Hcand. bool_hyps. done.
Qed.

(** A contract that bills in advance, paused and resumed within a period it has
    already billed, is never billed again: the resume puts the pointer back on that
    period, every daily job finds it billed and leaves the pointer there. *)
Lemma resumed_contract_is_never_billed_again env0 envs id actor s s1 s2 c :
  bs_contracts s !! id = Some c -> contract_ok c -> ct_billingTiming c = advance -> clock_ok env0 ->
  Forall (fun env => 0 <= be_now env) envs ->
  let p := period_at c (periodIndexFor (ct_startDate c) (ct_intervalMonths c) (iso_of_ms (be_now env0))) in
  is_Some (bs_periods s !! (id, p)) -> isExpired (ct_endDate c) p = false ->
  pauseContract id actor s = Ok s1 -> resumeContract env0 id actor s1 = Ok s2 ->
  (exists c', bs_contracts (jobs envs s2) !! id = Some c' /\ ct_status c' = ct_active /\ ct_nextBillingAt c' = Some p)
  /\ forall q, is_Some (bs_periods (jobs envs s2) !! (id, q)) <-> is_Some (bs_periods s !! (id, q)).
Proof.
  intros Hc Hok Ht Hclk Henv p Hbilled Hx Hpause Hresume.
  unfold pauseContract in Hpause. apply rbind_Ok in Hpause as (c0 & Hc0%owned_spec & Hpause). result_ok Hpause. simplify_eq.
  unfold resumeContract in Hresume. apply rbind_Ok in Hresume as (c1 & Hc1%owned_spec & Hresume). result_ok Hresume. simplify_eq.
  cbn in Hc1. rewrite lookup_alter_eq, Hc in Hc1. injection Hc1 as <-.
  set (c1 := set_status ct_active (Some p) (set_status ct_paused None c)).
  assert (Hpt : pointer_at (set_status ct_paused None c) (iso_of_ms (be_now env0)) = p).
  { unfold pointer_at, nextBillingDate. cbn. by rewrite Ht. }
  assert (Hpok : pointer_ok c1 p).
  { eapply pointer_ok_same; [apply set_contract_same|]. rewrite <- Hpt. apply pointer_at_ok; [done|]. by destruct Hok. }
  rewrite Hpt.
  assert (Hs2 : stuck id c1 (fun q => is_Some (bs_periods s !! (id, q)))
    (emit (contract_activated id) (alter_contract id (set_status ct_active (Some p))
      (emit (contract_paused id) (alter_contract id (set_status ct_paused None) s))))).
  { split; [|done]. cbn. by rewrite lookup_alter_eq, lookup_alter_eq, Hc. }
  destruct (stuck_jobs id c1 _ p envs _ Henv Ht eq_refl Hpok Hbilled Hx Hs2) as [H1 H2]. split; [by exists c1|done].
Qed.

(** *** Never renewed *)

(** Running towards the end date, or expired there. *)
Definition termed (id : nat) (e : string) (s : BillStore) : Prop :=
  exists c, bs_contracts s !! id = Some c /\ ct_endDate c = Some e /\ ct_billingTiming c = advance /\ contract_ok c
    /\ (ct_status c = ct_expired \/ ct_status c = ct_active /\ exists p, ct_nextBillingAt c = Some p /\ isExpired (Some e) p = false).

Lemma termed_view id e s s' : same_view id s s' -> termed id e s -> termed id e s'.
Proof. intros [E _] (c & Hc & ?). exists c. by rewrite E. Qed.

Lemma termed_run env id e s s' r : clock_ok env -> termed id e s -> generateDueInvoice env id s = Ok (s', r) -> termed id e s'.
Proof.
  intros Hclk Hs. pose proof Hs as (c & Hc & He & Ht & Hok & Hst). unfold generateDueInvoice. rewrite Hc. intros H%generate_effect.
  unfold run_effect in H. destruct (ct_nextBillingAt c) as [p|] eqn:Ep; [|by destruct H as [-> _]].
  destruct (negb (bool_decide (ct_status c = ct_active))) eqn:Ea; [by destruct H as [-> _]|].
  destruct (str_le p (iso_of_ms (be_now env))) eqn:El; [|by destruct H as [-> _]]. cbn [negb orb] in H. bool_hyps.
  destruct Hst as [Hst|[_ (p' & [= <-] & Hx)]]; [congruence|].
  destruct (run_period env c p Hclk Hok Ep El) as (i0 & d0 & j & Hsch & -> & Hj & Hb & Hidx & Hrange).
  change (periodStart (computePeriod _ _ (due_index c ?p))) with (period_at c (due_index c p)) in H.
  rewrite Hidx, Ht in *. rewrite He in H. change (periodStart _) with (period_at c j) in H. rewrite Hx in H.
  destruct r as [inv auto actor| | |]; [|destruct H as [Hu _]; eapply termed_view; [by apply frame_view, uchanges_frame|done]|done|by subst].
  destruct H as (s2 & Hu & _ & _ & _ & _ & ->). destruct (frame_view id _ _ (uchanges_frame _ _ Hu)) as [Ec _].
  unfold advance_pointer. rewrite He, Ht. change (periodStart (computePeriod _ _ (j + 1))) with (period_at c (j + 1)).
  destruct (isExpired (Some e) (period_at c (j + 1))) eqn:Ex; cbn.
  - exists (set_status ct_expired None c). unfold termed. cbn. rewrite lookup_alter_eq, Ec, Hc. split_and!; try done; [|by left].
    by apply set_contract_ok.
  - exists (set_pointer (Some (period_at c (j + 1))) c). cbn. rewrite lookup_alter_eq, Ec, Hc. split_and!; try done.
    + apply set_contract_ok; [done|cbn; congruence|]. intros x [= <-].
      pose proof (next_pointer_ok c i0 d0 j j Hsch) as Hn. rewrite Ht in Hn. by apply Hn.
    + right. split; [done|]. eauto.
Qed.

(** Auto-renewal does not happen for a contract that bills in advance. From any
    moment at which its next period starts before its end date, no sequence of daily
    jobs changes the end date: the run that bills the last period expires the contract
    at once, and the renewal pass looks at active contracts only. *)
Lemma advance_contract_is_never_renewed envs id e s c p :
  bs_contracts s !! id = Some c -> contract_ok c -> ct_status c = ct_active -> ct_billingTiming c = advance ->
  ct_autoRenew c = true -> ct_endDate c = Some e -> ct_nextBillingAt c = Some p -> isExpired (Some e) p = false ->
  Forall clock_ok envs ->
  exists c', bs_contracts (jobs envs s) !! id = Some c' /\ ct_endDate c' = Some e
    /\ (ct_status c' = ct_expired \/ ct_status c' = ct_active /\ exists p', ct_nextBillingAt c' = Some p' /\ isExpired (Some e) p' = false).
Proof.
  intros Hc Hok Hst Ht _ He Hp Hx Henv.
  assert (H : termed id e s) by (exists c; split_and!; try done; right; eauto).
  enough (termed id e (jobs envs s)) as (c' & ? & ? & _ & _ & ?) by eauto.
  clear Hc Hok Hst Ht He Hp Hx. revert s H. induction Henv as [|env envs Hclk _ IH]; intros s H; [done|].
  unfold jobs. cbn [fold_left]. apply IH. apply (job_invariant id env (termed id e)); [apply Hclk|apply termed_view| | |done].
  - intros s0 s1 r H0 Hg. by eapply termed_run.
  - intros c' acc Hc' Hcand Hacc. destruct H as (c0 & Hc0 & He & Ht & _ & Hcase). rewrite Hc0 in Hc'. injection Hc' as ->.
    unfold renewal_candidate in Hcand. bool_hyps. destruct Hcase as [?|[_ (p0 & Hp0 & Hx0)]]; [congruence|].
    eapply termed_view; [by eapply no_renewal|done].
Qed.

(** ** Catching up *)

Lemma str_le_trans a b c : str_le a b = true -> str_le b c = true -> str_le a c = true.
Proof.
  unfold str_le. revert b c. induction a as [|x a IH]; intros [|y b] [|z c]; cbn [str_compare]; try done.
  destruct (Nat.compare_spec (Ascii.nat_of_ascii x) (Ascii.nat_of_ascii y)) as [Exy|Hxy|Hxy];
    destruct (Nat.compare_spec (Ascii.nat_of_ascii y) (Ascii.nat_of_ascii z)) as [Eyz|Hyz|Hyz]; try done; intros H1 H2.
  - rewrite Exy, Eyz, Nat.compare_refl. by eapply IH.
  - rewrite Exy. apply Nat.compare_lt_iff in Hyz. by rewrite Hyz.
  - rewrite <- Eyz. apply Nat.compare_lt_iff in Hxy. by rewrite Hxy.
  - assert (Hxz : (Ascii.nat_of_ascii x ?= Ascii.nat_of_ascii z)%nat = Lt) by (apply Nat.compare_lt_iff; lia). by rewrite Hxz.
Qed.

(** A line the run can price: its own price, nothing negative. *)
Definition line_billable (env : BillEnv) (c : Contract) (l : ContractLine) : Prop :=
  cl_catalogItemId l = None /\ 0 <= units (line_quantity env (ct_orgId c) l) /\ 0 <= units (toFixed 2 (Number (cl_unitPrice l))).

Definition draft_for (c : Contract) (inv : nat) (s : BillStore) : Prop :=
  exists i, bs_invoices s !! inv = Some i /\ iv_status i = inv_draft /\ iv_orgId i = ct_orgId c.

#[local] Opaque toCents fromCents toFixed computeInvoiceTotals computeLineTotal.

Lemma open_draft_for c inv s : draft_for c inv s -> exists i, open_draft (contract_actor c) inv s = Ok i /\ iv_orgId i = ct_orgId c.
Proof.
  intros (i & Hi & Hd & Ho). exists i. unfold open_draft, getOwnedInvoiceOr404. rewrite Hi. cbn. unfold assertDraft.
  rewrite bool_decide_eq_true_2 by done. cbn. unfold requireInvoiceAccess, requireOrgAccess. cbn.
  rewrite bool_decide_eq_true_2; [done|]. rewrite Ho. by apply elem_of_cons; left.
Qed.

Lemma recompute_for env c inv s : draft_for c inv s -> exists s', recomputeInvoiceTotals env inv s = Ok s' /\ draft_for c inv s'.
Proof.
  intros (i & Hi & Hd & Ho). unfold recomputeInvoiceTotals, getOwnedInvoiceOr404, assertDraft. rewrite Hi. cbn.
  rewrite bool_decide_eq_true_2 by done. cbn. eexists. split; [done|]. eexists. cbn. rewrite lookup_alter_eq, Hi. by repeat split.
Qed.

Lemma addContractLine_ok env c inv l d src s :
  draft_for c inv s -> line_billable env c l ->
  exists s' n, addContractLine env inv {| ci_description := d; ci_quantity := line_quantity env (ct_orgId c) l;
      ci_unitPrice := cl_unitPrice l; ci_taxable := cl_taxable l; ci_catalogItemId := cl_catalogItemId l; ci_sourceId := src |}
    (contract_actor c) s = Ok (s', n) /\ draft_for c inv s'.
Proof.
  intros Hd (Hcat & Hq & Hp). destruct (open_draft_for _ _ _ Hd) as (i & Ho & _). unfold addContractLine. rewrite Ho. cbn [rbind].
  unfold contractPrice. cbn [ci_catalogItemId ci_quantity ci_unitPrice]. rewrite Hcat. cbn [truthy].
  rewrite (proj2 (Z.ltb_ge _ _) Hq), (proj2 (Z.ltb_ge _ _) Hp). cbn [orb negb check rbind].
  unfold insertLineAndRecompute, insert_line. 
  match goal with |- context [recomputeInvoiceTotals env inv ?x] => destruct (recompute_for env c inv x) as (s' & Hs' & Hd') end.
  { destruct Hd as (i' & ?). by exists i'. }
  rewrite Hs'. cbn. eauto.
Qed.

Lemma add_lines_ok env c inv ls s :
  draft_for c inv s -> Forall (fun r => line_billable env c r.2) ls -> exists s', add_contract_lines env c inv ls s = Ok s'.
Proof.
  intros Hd Hls. revert s Hd. induction Hls as [|[k l] ls Hl _ IH]; intros s Hd; cbn [add_contract_lines]; [eauto|].
  destruct (addContractLine_ok env c inv l (cl_description l) (Some (dec (Z.of_nat k))) s Hd Hl) as (s' & n & -> & Hd'). cbn. by apply IH.
Qed.

(** A due period that is not billed gets its invoice. *)
Lemma run_succeeds env id c at_ s :
  ct_status c = ct_active -> ct_nextBillingAt c = Some at_ -> str_le at_ (iso_of_ms (be_now env)) = true ->
  isExpired (ct_endDate c) (period_at c (due_index c at_)) = false ->
  contract_rows_of id s <> [] -> Forall (fun r => line_billable env c r.2) (contract_rows_of id s) ->
  bs_periods s !! (id, period_at c (due_index c at_)) = None -> truthy (Some (ct_partnerId c)) = true ->
  exists s' inv actor, generate_with env id c s = Ok (s', generated inv (ct_autoIssue c) actor).
Proof.
  intros Hst Hat Hle Hx Hne Hls Hfree Hpart. unfold generate_with. rewrite Hat, bool_decide_eq_true_2, Hle by done. cbn [negb orb].
  change (periodStart (computePeriod _ _ (due_index c at_))) with (period_at c (due_index c at_)). rewrite Hx.
  set (ls := merge_sort cl_by_sortOrder (contract_rows_of id s)).
  assert (Hperm : ls ≡ₚ contract_rows_of id s) by apply merge_sort_Permutation.
  rewrite bool_decide_eq_false_2 by (intros E; apply Hne; rewrite E in Hperm; by apply Permutation_nil_l in Hperm).
  unfold createManualInvoice, requirePartner. cbn [contract_actor ia_partnerId]. rewrite Hpart. cbn [rbind].
  unfold requireOrgAccess. cbn [ia_accessibleOrgIds contract_actor].
  rewrite bool_decide_eq_true_2 by (by apply elem_of_cons; left). cbn [check rbind requireSiteAccess ia_allowedSiteIds contract_actor insert_invoice].
  match goal with |- context [add_contract_lines env c ?inv ls ?x] =>
    destruct (add_lines_ok env c inv ls x) as (s2 & Hs2) end.
  { eexists. cbn. by rewrite lookup_insert_eq. }
  { by rewrite Hperm. }
  rewrite Hs2. cbn [rbind]. unfold claim_period.
  change (periodStart (computePeriod _ _ (due_index c at_))) with (period_at c (due_index c at_)).
  destruct (uchanges_frame _ _ (add_contract_lines_changes _ _ _ _ _ _ Hs2)) as (_ & _ & Hp & _).
  specialize (Hp (id, period_at c (due_index c at_))). cbn [bs_periods bump_id with_invoices] in Hp. rewrite Hfree in Hp.
  inversion Hp as [|Hn]. eauto.
Qed.

(** One try of the sweep on a contract; a failure changes nothing. *)
Definition run_once (env : BillEnv) (id : nat) (s : BillStore) : BillStore :=
  match generateDueInvoice env id s with Ok (s', _) => s' | Err _ => s end.

(** The period the pointer [j] stands for. *)
Definition billed_index (c : Contract) (j : Z) : Z := match ct_billingTiming c with advance => j | arrears => j - 1 end.

Definition first_pointer (c : Contract) : Z := if decide (ct_billingTiming c = arrears) then 1 else 0.

Lemma advance_periods e id c idx s : bs_periods (emit e (advance_pointer id c idx s)) = bs_periods s.
Proof. unfold advance_pointer. by destruct (isExpired _ _). Qed.

Lemma run_keeps env id s p : is_Some (bs_periods s !! (id, p)) -> is_Some (bs_periods (run_once env id s) !! (id, p)).
Proof.
  intros Hp. unfold run_once, generateDueInvoice. destruct (bs_contracts s !! id) as [c|]; [|done].
  destruct (generate_with env id c s) as [[s' r]|] eqn:H; [|done]. apply generate_effect in H. unfold run_effect in H.
  repeat case_match; destruct_and?; subst; try done.
  - destruct H as (s2 & Hu & _ & _ & _ & _ & ->). apply (frame_view id _ _ (uchanges_frame _ _ Hu)) in Hp.
    rewrite advance_periods. cbn [bs_periods with_periods]. match goal with |- is_Some (<[?k := _]> _ !! _) =>
      destruct (decide (k = (id, p))) as [->|Hne]; [by rewrite lookup_insert_eq|by rewrite lookup_insert_ne] end.
  - match goal with Hu : uchanges _ _ |- _ => by apply (frame_view id _ _ (uchanges_frame _ _ Hu)) end.
Qed.

Lemma iter_keeps env id N s p : is_Some (bs_periods s !! (id, p)) -> is_Some (bs_periods (Nat.iter N (run_once env id) s) !! (id, p)).
Proof. intros H. induction N as [|N IH]; [done|]. by apply run_keeps. Qed.

Section catching_up.
Context (env : BillEnv) (id : nat) (c0 : Contract) (i0 d0 : Z) (ls : list (nat * ContractLine)).
Hypothesis Hclk : clock_ok env.
Hypothesis Hact : ct_status c0 = ct_active.
Hypothesis Hpart : truthy (Some (ct_partnerId c0)) = true.
Hypothesis Hsch : schedule c0 i0 d0.
Hypothesis Hne : ls <> [].
Hypothesis Hls : Forall (fun r => line_billable env c0 r.2) ls.

Abbreviation today := (iso_of_ms (be_now env)).
Abbreviation N := (ct_intervalMonths c0).

Definition at_pointer (j : Z) : Contract := set_pointer (Some (period_at c0 j)) c0.

(** The pointer is at [j], and from there nothing is billed. *)
Definition queued (j : Z) (s : BillStore) : Prop :=
  bs_contracts s !! id = Some (at_pointer j) /\ contract_rows_of id s = ls /\ first_pointer c0 <= j /\ i0 + N * j < 119130
  /\ forall k, billed_index c0 j <= k -> i0 + N * k < 119500 -> bs_periods s !! (id, period_at c0 k) = None.

Lemma at_pointer_ok j : first_pointer c0 <= j -> i0 + N * j < 119130 -> contract_ok (at_pointer j).
Proof using Hact Hsch.
  intros Hj Hb. split_and!.
  - destruct Hsch as (Hm & Hi & Hn). split; [by exists i0, d0|done].
  - intros E. cbn in E. congruence.
  - intros p [= <-]. eapply pointer_ok_same; [apply set_contract_same|]. by exists i0, d0, j.
Qed.

Lemma billed_index_range j : first_pointer c0 <= j -> 0 <= billed_index c0 j <= j.
Proof using.
  unfold first_pointer, billed_index. intros Hj. destruct (ct_billingTiming c0); [rewrite decide_False in Hj by done|rewrite decide_True in Hj by done]; lia.
Qed.

Lemma due_index_at j : first_pointer c0 <= j -> i0 + N * j < 119130 -> due_index (at_pointer j) (period_at c0 j) = billed_index c0 j.
Proof using Hsch. intros Hj Hb. apply (due_index_ok c0 i0 d0); done. Qed.

(** The run of the period at the pointer. *)
Lemma queued_run j s :
  queued j s -> str_le (period_at c0 j) today = true -> isExpired (ct_endDate c0) (period_at c0 (billed_index c0 j)) = false ->
  is_Some (bs_periods (run_once env id s) !! (id, period_at c0 (billed_index c0 j)))
  /\ if isExpired (ct_endDate c0) (period_at c0 (billed_index c0 j + 1))
     then exists c, bs_contracts (run_once env id s) !! id = Some c /\ ct_status c = ct_expired
     else queued (j + 1) (run_once env id s).
Proof using Hclk Hact Hpart Hsch Hne Hls.
  intros (Hc & Hl & Hj & Hb & Hfree) Hle Hx. pose proof (billed_index_range j Hj) as Hbi.
  pose proof Hsch as (_ & _ & Hn).
  destruct (run_succeeds env id (at_pointer j) (period_at c0 j) s) as (s' & inv & actor & Hg).
  { done. } { done. } { done. }
  { by rewrite due_index_at. }
  { by rewrite Hl. }
  { by rewrite Hl. }
  { rewrite due_index_at by done. apply Hfree; nia. }
  { done. }
  assert (Hrun : run_once env id s = s') by (unfold run_once, generateDueInvoice; by rewrite Hc, Hg).
  apply generate_effect in Hg. unfold run_effect in Hg. cbn [at_pointer set_pointer set_contract ct_nextBillingAt ct_status ct_endDate ct_startDate ct_intervalMonths] in Hg.
  rewrite Hact, bool_decide_eq_true_2, Hle in Hg by done. cbn [negb orb] in Hg. fold (at_pointer j) in Hg.
  rewrite due_index_at in Hg by done.
  change (periodStart (computePeriod _ _ (billed_index c0 j))) with (period_at c0 (billed_index c0 j)) in Hg. rewrite Hx in Hg.
  destruct Hg as (s2 & Hu & _ & _ & _ & _ & ->). rewrite Hrun. clear Hrun.
  pose proof (uchanges_frame _ _ Hu) as (Ec & El & Hp & _).
  set (key := period_at c0 (billed_index c0 j)). set (b := {| bp_orgId := _; bp_periodEnd := _; bp_invoiceId := _ |}).
  split; [rewrite advance_periods; cbn; by rewrite lookup_insert_eq|].
  assert (Hi1 : i0 + N * (j + 1) < 119130).
  { destruct Hclk as (_ & i & d & Ht & Hi). assert (i0 + N * j <= i) by (eapply sched_started; [done|done|lia|lia|done]). nia. }
  unfold advance_pointer. cbn [at_pointer set_pointer set_contract ct_endDate ct_billingTiming ct_startDate ct_intervalMonths].
  change (periodStart (computePeriod _ _ (billed_index c0 j + 1))) with (period_at c0 (billed_index c0 j + 1)).
  destruct (isExpired (ct_endDate c0) (period_at c0 (billed_index c0 j + 1))).
  - eexists. cbn. rewrite lookup_alter_eq, Ec, Hc. done.
  - split_and!.
    + cbn. rewrite lookup_alter_eq, Ec, Hc. cbn.
      assert (E : match ct_billingTiming c0 with advance => period_at c0 (billed_index c0 j + 1) | arrears => period_at c0 (billed_index c0 j + 1 + 1) end
        = period_at c0 (j + 1)) by (unfold billed_index; destruct (ct_billingTiming c0); f_equal; lia).
      unfold at_pointer. rewrite <- E. by destruct (ct_billingTiming c0).
    + unfold contract_rows_of. cbn. rewrite El. exact Hl.
    + lia.
    + done.
    + intros k Hk Hbk. cbn. rewrite lookup_insert_ne.
      * assert (Hfr : bs_periods s !! (id, period_at c0 k) = None).
        { apply Hfree; [|done]. unfold billed_index in *. destruct (ct_billingTiming c0); lia. }
        specialize (Hp (id, period_at c0 k)). rewrite Hfr in Hp. by inversion Hp.
      * intros [= E]. apply (sched_inj c0 i0 d0) in E; [unfold billed_index in *; destruct (ct_billingTiming c0); lia|done|lia|..|done];
          unfold billed_index in *; destruct (ct_billingTiming c0); nia.
Qed.

(** Later periods of an ended contract are ended too. *)
Lemma expired_later k k' :
  0 <= k <= k' -> i0 + N * k' < 119500 -> isExpired (ct_endDate c0) (period_at c0 k) = true ->
  isExpired (ct_endDate c0) (period_at c0 k') = true.
Proof using Hsch.
  intros Hk Hb. unfold isExpired. destruct (ct_endDate c0) as [e|]; [|done]. intros H. eapply str_le_trans; [exact H|].
  destruct (Z.eq_dec k k') as [<-|]; [by apply (sched_refl c0 i0 d0); [done|lia|]|]. apply (sched_lt c0 i0 d0 Hsch); lia.
Qed.

(** Billed up to the day: nothing that is due and within the term is missing. *)
Definition caught_up (j : Z) (s : BillStore) : Prop :=
  (forall c, bs_contracts s !! id = Some c -> contract_due today c = false)
  /\ forall j', j <= j' -> i0 + N * j' < 119500 -> str_le (period_at c0 j') today = true ->
       isExpired (ct_endDate c0) (period_at c0 (billed_index c0 j')) = false ->
       is_Some (bs_periods s !! (id, period_at c0 (billed_index c0 j'))).

Lemma billed_index_mono j j' : j <= j' -> billed_index c0 j' = billed_index c0 j + (j' - j).
Proof using. unfold billed_index. destruct (ct_billingTiming c0); lia. Qed.

(** An earlier boundary than a past one is past. *)
Lemma earlier_past j j' : 0 <= j <= j' -> i0 + N * j' < 119500 -> str_le (period_at c0 j') today = true -> str_le (period_at c0 j) today = true.
Proof using Hsch.
  intros Hj Hb H. eapply str_le_trans; [|exact H]. destruct (Z.eq_dec j j') as [<-|]; [by apply (sched_refl c0 i0 d0); [done|lia|]|].
  apply (sched_lt c0 i0 d0 Hsch); lia.
Qed.

Lemma first_pointer_nonneg : 0 <= first_pointer c0.
Proof using. unfold first_pointer. case_decide; lia. Qed.

Lemma queued_expired j s :
  queued j s -> str_le (period_at c0 j) today = true -> isExpired (ct_endDate c0) (period_at c0 (billed_index c0 j)) = true ->
  exists c, bs_contracts (run_once env id s) !! id = Some c /\ ct_status c = ct_expired.
Proof using Hact Hsch.
  intros (Hc & _ & Hj & Hb & _) Hle Hx. unfold run_once, generateDueInvoice. rewrite Hc. unfold generate_with.
  change (ct_nextBillingAt (at_pointer j)) with (Some (period_at c0 j)).
  change (ct_status (at_pointer j)) with (ct_status c0). rewrite Hact, bool_decide_eq_true_2, Hle by done. cbn [negb orb].
  rewrite due_index_at by done. change (isExpired (ct_endDate (at_pointer j)) _) with (isExpired (ct_endDate c0) (period_at c0 (billed_index c0 j))).
  rewrite Hx. eexists. cbn. by rewrite lookup_alter_eq, Hc.
Qed.

Lemma expired_not_due c t : ct_status c = ct_expired -> contract_due t c = false.
Proof using. intros H. unfold contract_due. rewrite H. done. Qed.

Lemma catch_up m : forall j s, queued j s -> (119500 - (i0 + N * j) < Z.of_nat m) -> exists n, caught_up j (Nat.iter n (run_once env id) s).
Proof using Hclk Hact Hpart Hsch Hne Hls.
  pose proof Hsch as (_ & _ & HN). pose proof first_pointer_nonneg as Hfp.
  induction m as [|m IH]; intros j s Hq Hm; pose proof Hq as (Hc & _ & Hj & Hb & _); [lia|].
  pose proof (billed_index_range j Hj) as Hbi.
  destruct (str_le (period_at c0 j) today) eqn:Hle.
  2:{ exists O. split.
      - intros c Hc'. change (bs_contracts s !! id = Some c) in Hc'. rewrite Hc in Hc'. injection Hc' as <-. unfold contract_due.
        change (ct_nextBillingAt (at_pointer j)) with (Some (period_at c0 j)). cbv beta iota. rewrite Hle. apply andb_false_r.
      - intros j' Hj' Hb' Hle' _. rewrite (earlier_past j j') in Hle; [done|lia|done|done]. }
  destruct (isExpired (ct_endDate c0) (period_at c0 (billed_index c0 j))) eqn:Hx.
  { exists 1%nat. split.
    - intros c Hc'. destruct (queued_expired _ _ Hq Hle Hx) as (c' & Hc2 & Hst). cbn in Hc'. simplify_eq. by apply expired_not_due.
    - intros j' Hj' Hb' _ Hx'. rewrite (billed_index_mono j j' Hj') in *. rewrite (expired_later (billed_index c0 j)) in Hx'; [done|lia|nia|done]. }
  destruct (queued_run _ _ Hq Hle Hx) as [Hbilled Hnext].
  destruct (isExpired (ct_endDate c0) (period_at c0 (billed_index c0 j + 1))) eqn:Hx1.
  - exists 1%nat. split.
    + intros c Hc'. destruct Hnext as (c' & Hc2 & Hst). cbn in Hc'. simplify_eq. by apply expired_not_due.
    + intros j' Hj' Hb' _ Hx'. destruct (Z.eq_dec j' j) as [->|Hne']; [done|]. rewrite (billed_index_mono j j' Hj') in *.
      rewrite (expired_later (billed_index c0 j + 1)) in Hx'; [done|lia|nia|done].
  - destruct (IH (j + 1) _ Hnext ltac:(nia)) as (n & Hdue & Hall). exists (S n). rewrite Nat.iter_succ_r. split; [done|].
    intros j' Hj' Hb' Hle' Hx'. destruct (Z.eq_dec j' j) as [->|Hne']; [by apply iter_keeps|]. apply Hall; [lia|done..].
Qed.

End catching_up.

(** C28: For an active contract with priceable lines, whose periods from the pointer
    on are not billed, repeated runs on one day come to an end at which nothing is due,
    and every period due by that day and within the term has been billed. *)
Theorem billing_catches_up env id c i0 d0 j s :
  clock_ok env -> bs_contracts s !! id = Some c -> ct_status c = ct_active -> truthy (Some (ct_partnerId c)) = true -> schedule c i0 d0 ->
  contract_rows_of id s <> [] -> Forall (fun r => line_billable env c r.2) (contract_rows_of id s) ->
  ct_nextBillingAt c = Some (period_at c j) -> first_pointer c <= j -> i0 + ct_intervalMonths c * j < 119130 ->
  (forall k, billed_index c j <= k -> i0 + ct_intervalMonths c * k < 119500 -> bs_periods s !! (id, period_at c k) = None) ->
  exists n, let s' := Nat.iter n (run_once env id) s in
    (forall c', bs_contracts s' !! id = Some c' -> contract_due (iso_of_ms (be_now env)) c' = false)
    /\ forall j', j <= j' -> i0 + ct_intervalMonths c * j' < 119500 -> str_le (period_at c j') (iso_of_ms (be_now env)) = true ->
         isExpired (ct_endDate c) (period_at c (billed_index c j')) = false ->
         is_Some (bs_periods s' !! (id, period_at c (billed_index c j'))).
Proof.
  intros Hclk Hc Hact Hpart Hsch Hne Hls Hp Hj Hb Hfree.
  assert (Hq : queued id c i0 (contract_rows_of id s) j s).
  { split_and!; try done. rewrite Hc. f_equal. unfold at_pointer, set_pointer, set_contract. rewrite <- Hp. by destruct c. }
  apply (catch_up env id c i0 d0 _ Hclk Hact Hpart Hsch Hne Hls (Z.to_nat (119501 - (i0 + ct_intervalMonths c * j))) j s Hq). lia.
Qed.

(** ** A run *)

Definition demo_clock (now : Z) : BillEnv :=
  {| be_now := now; be_org := fun _ => None; be_partner := fun _ => None; be_items := ∅; be_overrides := ∅;
     be_components := fun _ => []; be_devices := []; be_seats := []; be_ticketOrg := fun _ => None;
     be_orgPartner := fun _ => Some "p1" |}.

(** 2026-01-31, 2026-02-10, 2026-02-28 and 2026-03-05, at six in the morning. *)
Definition jan31 : BillEnv := demo_clock 1769839200000.
Definition feb10 : BillEnv := demo_clock 1770703200000.
Definition feb28 : BillEnv := demo_clock 1772258400000.
Definition mar05 : BillEnv := demo_clock 1772690400000.

Definition demo_staff : ContractActor := {| ca_userId := "u1"; ca_partnerId := Some "p1"; ca_accessibleOrgIds := None |}.

(** A monthly contract from 2026-01-31 to 2026-03-31, billed in advance, to be renewed. *)
Definition demo_input : ContractInput :=
  {| cn_orgId := "o1"; cn_name := "Support"; cn_billingTiming := advance; cn_intervalMonths := 1; cn_startDate := "2026-01-31";
     cn_endDate := Some "2026-03-31"%string; cn_autoIssue := false; cn_autoRenew := true; cn_renewalTermMonths := Some 12;
     cn_renewalNoticeDays := None; cn_notes := None; cn_terms := None |}.

Definition ct0 : BillStore := empty_bills ∅ ∅.
Definition ct1 : BillStore := stored ct0 (createContract jan31 demo_input demo_staff ct0).
Definition ct2 : BillStore := stored ct1 (addContractLineToContract 0 flat "Support" None (money 10000) None None false None demo_staff ct1).
Definition ct3 : BillStore := stored1 ct2 (activateContract jan31 0 demo_staff ct2).
Definition ct4 : BillStore := contract_job jan31 ct3.
Definition ct5 : BillStore := contract_job feb28 ct4.

Definition demo_contract (s : BillStore) : Contract :=
  default {| ct_partnerId := ""; ct_orgId := ""; ct_name := ""; ct_status := ct_draft; ct_billingTiming := advance; ct_intervalMonths := 1;
     ct_startDate := ""; ct_endDate := None; ct_nextBillingAt := None; ct_autoIssue := false; ct_autoRenew := false;
     ct_renewalTermMonths := None; ct_renewalNoticeDays := None; ct_notes := None; ct_terms := None; ct_createdBy := None |}
    (bs_contracts s !! 0%nat).

Lemma jan31_ok : clock_ok jan31.
Proof. split; [by_eval|]. exists 24312, 31. by_eval. Qed.
Lemma feb10_ok : clock_ok feb10.
Proof. split; [by_eval|]. exists 24313, 10. by_eval. Qed.
Lemma feb28_ok : clock_ok feb28.
Proof. split; [by_eval|]. exists 24313, 28. by_eval. Qed.
Lemma mar05_ok : clock_ok mar05.
Proof. split; [by_eval|]. exists 24314, 5. by_eval. Qed.

Lemma demo_steps :
  rtc bill_step {| sy_store := ct0; sy_runs := [] |} {| sy_store := ct5; sy_runs := [] |}.
Proof.
  eapply rtc_l; [eapply step_contract, (do_createContract _ jan31 demo_input demo_staff ct1 0)|].
  { split; [exists 24312, 31; by_eval|by_eval]. }
  { vm_compute. reflexivity. }
  eapply rtc_l; [eapply step_contract, (do_addContractLineToContract _ 0 flat "Support" None (money 10000) None None false None demo_staff ct2 1)|].
  { vm_compute. reflexivity. }
  eapply rtc_l; [eapply step_contract, (do_activateContract _ jan31 0 demo_staff ct3)|].
  { exact jan31_ok. }
  { vm_compute. reflexivity. }
  etrans; [apply (contract_job_steps jan31 ct3 [] jan31_ok)|]. apply (contract_job_steps feb28 ct4 [] feb28_ok).
Qed.

Lemma demo_schedule s : ct_startDate (demo_contract s) = "2026-01-31"%string -> ct_intervalMonths (demo_contract s) = 1 ->
  schedule (demo_contract s) 24312 31.
Proof. intros E1 E2. unfold schedule. rewrite E1, E2. split; [by_eval|lia]. Qed.

Lemma demo_contract_ok s j :
  ct_startDate (demo_contract s) = "2026-01-31"%string -> ct_intervalMonths (demo_contract s) = 1 ->
  ct_status (demo_contract s) = ct_active -> ct_billingTiming (demo_contract s) = advance ->
  ct_nextBillingAt (demo_contract s) = Some (period_at (demo_contract s) j) -> 0 <= j < 100 -> contract_ok (demo_contract s).
Proof.
  intros E1 E2 E3 E4 E5 Hj. pose proof (demo_schedule s E1 E2) as Hs. split_and!.
  - destruct Hs as (? & ? & ?). split; [by exists 24312, 31|done].
  - congruence.
  - intros p Hp. rewrite E5 in Hp. injection Hp as <-. exists 24312, 31, j. rewrite E4, E2. split_and!; [done|done|rewrite decide_False by done; lia|lia].
Qed.

Lemma periods_witness :
  exists c k1 k2, bs_contracts ct5 !! 0%nat = Some c /\ "2026-01-31"%string = period_at c k1 /\ "2026-02-28"%string = period_at c k2.
Proof.
  assert (H1 : is_Some (bs_periods ct5 !! (0%nat, "2026-01-31"%string))) by (vm_compute; eexists; reflexivity).
  assert (H2 : is_Some (bs_periods ct5 !! (0%nat, "2026-02-28"%string))) by (vm_compute; eexists; reflexivity).
  destruct H1 as [b1 H1], H2 as [b2 H2].
  destruct (periods_are_billed_once ∅ ∅ _ 0 _ _ b1 b2 demo_steps H1 H2 ltac:(discriminate)) as (c & k1 & k2 & A & B & C & _).
  exists c, k1, k2. exact (conj A (conj B C)).
Defined.

(** After the job of 2026-02-28 the contract is expired, not renewed. *)
Lemma never_renewed_witness :
  ct_status (demo_contract (jobs [jan31; feb28] ct3)) = ct_expired
  /\ exists c', bs_contracts (jobs [jan31; feb28] ct3) !! 0%nat = Some c' /\ ct_endDate c' = Some "2026-03-31"%string.
Proof.
  split; [vm_compute; reflexivity|].
  assert (Hc : bs_contracts ct3 !! 0%nat = Some (demo_contract ct3)) by (vm_compute; reflexivity).
  assert (Hok : contract_ok (demo_contract ct3)) by (apply (demo_contract_ok _ 0); try (vm_compute; reflexivity); lia).
  destruct (advance_contract_is_never_renewed [jan31; feb28] 0 "2026-03-31" ct3 (demo_contract ct3) "2026-01-31" Hc Hok
    ltac:(by_eval) ltac:(by_eval) ltac:(by_eval) ltac:(by_eval) ltac:(by_eval) ltac:(by_eval)
    ltac:(apply Forall_cons; split; [exact jan31_ok|apply Forall_cons; split; [exact feb28_ok|apply Forall_nil; exact I]]))
    as (c' & A & B & _).
  exists c'. exact (conj A B).
Defined.

Definition ct_paused4 : BillStore := stored1 ct4 (pauseContract 0 demo_staff ct4).
Definition ct_resumed4 : BillStore := stored1 ct_paused4 (resumeContract feb10 0 demo_staff ct_paused4).

(** Paused and resumed on 2026-02-10, the contract is not billed on 2026-02-28. *)
Lemma resumed_witness : ~ is_Some (bs_periods (jobs [feb28] ct_resumed4) !! (0%nat, "2026-02-28"%string)).
Proof.
  assert (Hc : bs_contracts ct4 !! 0%nat = Some (demo_contract ct4)) by (vm_compute; reflexivity).
  assert (Hok : contract_ok (demo_contract ct4)) by (apply (demo_contract_ok _ 1); try (vm_compute; reflexivity); lia).
  assert (Hp : pauseContract 0 demo_staff ct4 = Ok ct_paused4) by (vm_compute; reflexivity).
  assert (Hr : resumeContract feb10 0 demo_staff ct_paused4 = Ok ct_resumed4) by (vm_compute; reflexivity).
  assert (Hb : is_Some (bs_periods ct4 !! (0%nat, period_at (demo_contract ct4)
    (periodIndexFor (ct_startDate (demo_contract ct4)) (ct_intervalMonths (demo_contract ct4)) (iso_of_ms (be_now feb10))))))
    by (vm_compute; eexists; reflexivity).
  destruct (resumed_contract_is_never_billed_again feb10 [feb28] 0 demo_staff ct4 ct_paused4 ct_resumed4 (demo_contract ct4) Hc Hok
    ltac:(by_eval) feb10_ok ltac:(apply Forall_cons; split; [by_eval|apply Forall_nil; exact I]) Hb ltac:(by_eval) Hp Hr) as [_ H].
  intros Hf. apply H in Hf. revert Hf. vm_compute. intros [b Hb']. discriminate.
Defined.

Lemma catches_up_witness :
  exists n, is_Some (bs_periods (Nat.iter n (run_once mar05 0) ct3) !! (0%nat, period_at (demo_contract ct3) 1)).
Proof.
  assert (Hc : bs_contracts ct3 !! 0%nat = Some (demo_contract ct3)) by (vm_compute; reflexivity).
  assert (Hs : schedule (demo_contract ct3) 24312 31) by (apply demo_schedule; vm_compute; reflexivity).
  assert (Hne : contract_rows_of 0 ct3 <> []) by (vm_compute; discriminate).
  assert (Hrows : contract_rows_of 0 ct3 = [(1%nat, {| cl_contractId := 0; cl_orgId := "o1"; cl_lineType := flat; cl_description := "Support";
    cl_catalogItemId := None; cl_unitPrice := money 10000; cl_manualQuantity := None; cl_siteId := None; cl_taxable := false; cl_sortOrder := 0 |})])
    by (vm_compute; reflexivity).
  assert (Hls : Forall (fun r => line_billable mar05 (demo_contract ct3) r.2) (contract_rows_of 0 ct3)).
  { rewrite Hrows. apply Forall_cons. split; [by_eval|apply Forall_nil; exact I]. }
  assert (He : bs_periods ct3 = ∅) by (vm_compute; reflexivity).
  assert (Hfree : forall k, billed_index (demo_contract ct3) 0 <= k -> 24312 + ct_intervalMonths (demo_contract ct3) * k < 119500 ->
    bs_periods ct3 !! (0%nat, period_at (demo_contract ct3) k) = None) by (intros k _ _; rewrite He; apply lookup_empty).
  destruct (billing_catches_up mar05 0 (demo_contract ct3) 24312 31 0 ct3 mar05_ok Hc ltac:(by_eval) ltac:(by_eval) Hs Hne Hls
    ltac:(by_eval) ltac:(by_eval) ltac:(by_eval) Hfree) as (n & _ & H).
  exists n. exact (H 1 ltac:(by_eval) ltac:(by_eval) ltac:(by_eval) ltac:(by_eval)).
Defined.
