(* ===== verification/BillingBehaviour.v ===== *)
(** * Billing: overlapping issues and payments, the overdue sweep, and runs that show the theorems *)

From stdpp Require Import base gmap strings list option relations sorting.
From Stdlib Require Import ZArith Lia QArith.
From S2P Require Import Prelude Calendar Doubles Money BillingStore.
From S2P Require Import Invoices Contracts BillingSystem BillingTheorems.
Open Scope Z_scope.

(** ** Two issues at once *)

(** The commit of one issue leaves the lines and the other drafts as they are. *)
Lemma commit_live env id r s n : is_draft s id -> (n = id \/ live s n) -> live (issue_commit env id r s) n.
Proof.
  intros (i & Hi & Hd) Hn. destruct (decide (n = id)) as [->|Hne].
  - eexists. split; [cbn; by rewrite lookup_alter_eq, Hi|]. by split.
  - destruct Hn as [?|(j & Hj & Ho)]; [done|]. exists j. split; [|done]. cbn. by rewrite lookup_alter_ne.
Qed.

Lemma commit_draft env id r s n : n <> id -> is_draft s n -> is_draft (issue_commit env id r s) n.
Proof. intros Hne (j & Hj & Ho). exists j. split; [|done]. cbn. by rewrite lookup_alter_ne. Qed.

(** The guard against billing work twice looks for rows that are already billed
    and locks only those, so two drafts with the same time entry or part can both be
    issued when both guards run before either commit: both invoices are then live and
    bill it. One after the other, the second is refused. *)
Lemma overlapping_issues_bill_twice env1 env2 s id1 id2 a1 a2 r1 r2 ty k :
  id1 <> id2 ->
  issue_check id1 a1 s = Ok r1 -> issue_guard r1 s = Ok tt ->
  issue_check id2 a2 s = Ok r2 -> issue_guard r2 s = Ok tt ->
  bills s id1 ty k -> bills s id2 ty k -> source_status s ty k <> None ->
  let s1 := issue_commit env1 id1 r1 s in
  let s2 := issue_commit env2 id2 r2 s1 in
  live s2 id1 /\ live s2 id2 /\ bills s2 id1 ty k /\ bills s2 id2 ty k
  /\ issue_guard r2 s1 = Err SOURCE_ALREADY_BILLED.
Proof.
  intros Hne C1 G1 C2 G2 B1 B2 Hex s1 s2.
  destruct (issue_check_spec _ _ _ _ C1) as (Hi1 & Hd1 & Ht1 & Hp1).
  destruct (issue_check_spec _ _ _ _ C2) as (Hi2 & Hd2 & Ht2 & Hp2).
  assert (D1 : is_draft s id1) by (by exists (ir_invoice r1)).
  assert (D2 : is_draft s1 id2) by (apply commit_draft; [done|]; by exists (ir_invoice r2)).
  split_and!; [apply commit_live; [done|right; apply commit_live; [done|by left]]|apply commit_live; [done|by left]|done|done|].
  destruct (issue_guard r2 s1) as [[]|e] eqn:G; [exfalso|].
  - pose proof (bills_ids_of _ _ _ _ B2 Hex) as Hin2. rewrite <- Ht2, <- Hp2 in Hin2.
    pose proof (bills_ids_of _ _ _ _ B1 Hex) as Hin1. rewrite <- Ht1, <- Hp1 in Hin1.
    assert (E : source_status s1 ty k = (fun _ => billed) <$> source_status s ty k).
    { etrans; [apply source_flip|]. rewrite bool_decide_eq_true_2 by done. by destruct ty. }
    destruct (source_status s ty k); [|done]. destruct (guard_open _ _ _ _ G Hin2) as [H|H]; by rewrite E in H.
  - unfold issue_guard in G. repeat (case_bool_decide; cbn in G; [|by simplify_eq]). done.
Qed.

(** ** Two payments at once *)

Lemma emit_if_paid_payments id s : bs_payments (emit_if_paid id s) = bs_payments s /\ bs_invoices (emit_if_paid id s) = bs_invoices s.
Proof. unfold emit_if_paid. by repeat case_match. Qed.

(** The insert of a payment looks at no balance. *)
Lemma payment_commit_total env id a actor s i :
  bill_wf s -> bs_invoices s !! id = Some i -> 0 < a -> cents_ok a ->
  exists s' pid, payment_commit env id (money a) actor s = Ok (s', pid)
    /\ paid_cents id s' = a + paid_cents id s /\ is_Some (bs_invoices s' !! id).
Proof.
  intros Hwf Hi Ha Hok. unfold payment_commit. rewrite (toFixed_money a Hok). cbn [units money check].
  rewrite (proj2 (Z.ltb_lt 0 a)) by done. cbn [rbind check].
  unfold recomputeInvoiceStatus, getOwnedInvoiceOr404. cbn [bs_invoices bump_id with_payments]. rewrite Hi. cbn [rbind].
  eexists _, _. split; [reflexivity|]. match goal with |- context [emit_if_paid id ?x] => destruct (emit_if_paid_payments id x) as [Ep Ei] end.
  split.
  - unfold paid_cents at 1. rewrite Ep. pose proof (paid_add id id (money a) (ia_userId actor) s (fresh_payment s Hwf)) as E.
    rewrite bool_decide_eq_true_2 in E by done. exact E.
  - rewrite Ei. cbn. rewrite lookup_alter_eq, Hi. by eexists.
Qed.

(** A payment checks the balance on a row that nothing locks, so of two payments that
    are each within the balance both are recorded when both have checked before either
    is inserted, and together they can exceed the total. One after the other, the second
    is checked against what is left. *)
Lemma overlapping_payments_exceed_the_balance env1 env2 s id i T a1 a2 u1 u2 :
  bill_reachable s -> bs_invoices s !! id = Some i -> iv_total i = money T -> cents_ok T ->
  0 < a1 -> cents_ok a1 -> 0 < a2 -> cents_ok a2 ->
  payment_check id (money a1) u1 s = Ok i -> payment_check id (money a2) u2 s = Ok i ->
  T - paid_cents id s < a1 + a2 ->
  exists s1 p1 s2 p2, payment_commit env1 id (money a1) u1 s = Ok (s1, p1)
    /\ payment_commit env2 id (money a2) u2 s1 = Ok (s2, p2) /\ T < paid_cents id s2.
Proof.
  intros Hs Hi HT HTok H1 Hok1 H2 Hok2 C1 _ Hlt. pose proof (reachable_ledger _ Hs) as [Hwf _].
  destruct (payment_commit_total env1 id a1 u1 s i Hwf Hi H1 Hok1) as (s1 & p1 & E1 & P1 & i1 & Hi1).
  assert (Hs1 : bill_reachable s1).
  { destruct Hs as (time & parts_ & rs & Hr). exists time, parts_, rs. eapply rtc_r; [exact Hr|].
    apply step_invoice, (do_recordPayment _ env1 id a1 u1 s1 p1); [done|done|]. unfold recordPayment. by rewrite C1. }
  pose proof (reachable_ledger _ Hs1) as [Hwf1 _].
  destruct (payment_commit_total env2 id a2 u2 s1 i1 Hwf1 Hi1 H2 Hok2) as (s2 & p2 & E2 & P2 & _).
  exists s1, p1, s2, p2. split_and!; [done|done|lia].
Qed.

(** ** The overdue sweep *)

(** For an open invoice whose amounts add up, the daily sweep flags it overdue
    exactly when the status derived from its payments and due date says overdue, at
    every moment but the last second of a day (which the derivation counts as past). *)
Lemma overdue_sweep_agrees_with_status i T P due y m d asOf :
  iv_status i ∈ [inv_sent; inv_partially_paid] ->
  iv_total i = money T -> il_amountPaid (iv_life i) = money P -> il_balance (iv_life i) = money (T - P) ->
  cents_ok T -> cents_ok P -> il_dueDate (iv_life i) = Some due -> is_date due y m d ->
  1000 <= year_of (asOf / 86400000) <= 9999 -> asOf mod 86400000 <= 86399000 ->
  overdue_due (iso_of_ms asOf) i
  = bool_decide (deriveInvoiceStatus false true (iv_total i) (il_amountPaid (iv_life i)) (il_dueDate (iv_life i)) asOf = inv_overdue).
Proof.
  intros Hst HT HP HB HTok HPok Hdue Hd Hy Hr. pose proof (day_is_date _ Hy) as Hd'. change (fmt _ _ _) with (iso_of_ms asOf) in Hd'.
  unfold overdue_due, deriveInvoiceStatus, end_of_day.
  rewrite bool_decide_eq_true_2, HT, HP, HB, Hdue by done. rewrite !toCents_exact by done.
  rewrite (parts_date _ _ _ _ Hd), (date_UTC_day _ _ _ _ Hd), (date_order _ _ _ _ _ _ _ _ Hd Hd').
  rewrite (day_number_of (asOf / 86400000)) by done. cbn [units money negb andb].
  set (D := day_number y m d). set (D' := asOf / 86400000) in *.
  assert (Hdiv : asOf = 86400000 * D' + asOf mod 86400000 /\ 0 <= asOf mod 86400000 < 86400000).
  { split; [unfold D'; apply Z.div_mod; lia|apply Z.mod_pos_bound; lia]. }
  destruct (Z.leb_spec (T - P) 0), (Z.ltb_spec 0 (T - P)); try lia; [by rewrite andb_false_r|].
  rewrite andb_true_r. destruct (Z.ltb_spec D D'), (Z.ltb_spec (D * 86400000 + 86399000) asOf); try lia; [done|].
  by case_match.
Qed.

(** ** A run *)

(** Ninety minutes at 100.00 on a ticket, drafted twice; the first draft is issued on
    2026-06-15 and half paid. *)
Definition demo_time : gmap string TimeEntry :=
  {[ "t1" := {| te_orgId := Some "o1"; te_ticketId := Some "tk"; te_endedAt := Some 1000; te_durationMinutes := Some 90;
                te_description := None; te_isBillable := true; te_hourlyRate := Some (money 10000);
                te_billingStatus := not_billed; te_isApproved := true |} ]}.

Definition demo_env : BillEnv :=
  {| be_now := 1781524800000; be_org := fun _ => None; be_partner := fun _ => None; be_items := ∅; be_overrides := ∅;
     be_components := fun _ => []; be_devices := []; be_seats := []; be_ticketOrg := fun _ => Some "o1";
     be_orgPartner := fun _ => Some "p1" |}.

Definition demo_actor : InvoiceActor :=
  {| ia_userId := Some "u1"; ia_partnerId := Some "p1"; ia_accessibleOrgIds := None; ia_allowedSiteIds := None |}.

Definition demo0 : BillStore := empty_bills demo_time ∅.
Definition demo1 : BillStore := stored demo0 (assembleDraftFromTicket demo_env "tk" demo_actor demo0).
Definition demo2 : BillStore := stored demo1 (assembleDraftFromTicket demo_env "tk" demo_actor demo1).
Definition demo3 : BillStore := stored1 demo2 (issueInvoice demo_env 0 demo_actor demo2).
Definition demo4 : BillStore := stored demo3 (recordPayment demo_env 0 (money 7500) demo_actor demo3).

Lemma demo_step1 : assembleDraftFromTicket demo_env "tk" demo_actor demo0 = Ok (demo1, 0%nat).
Proof. vm_compute. reflexivity. Qed.
Lemma demo_step2 : assembleDraftFromTicket demo_env "tk" demo_actor demo1 = Ok (demo2, 2%nat).
Proof. vm_compute. reflexivity. Qed.
Lemma demo_step3 : issueInvoice demo_env 0 demo_actor demo2 = Ok demo3.
Proof. vm_compute. reflexivity. Qed.
Lemma demo_step4 : recordPayment demo_env 0 (money 7500) demo_actor demo3 = Ok (demo4, 4%nat).
Proof. vm_compute. reflexivity. Qed.

Abbreviation at_rest s := {| sy_store := s; sy_runs := [] |}.

Lemma demo_to3 : rtc bill_step (at_rest demo0) (at_rest demo3).
Proof.
  eapply rtc_l; [eapply step_invoice, do_assembleDraftFromTicket, demo_step1|].
  eapply rtc_l; [eapply step_invoice, do_assembleDraftFromTicket, demo_step2|].
  eapply rtc_once, step_invoice, do_issueInvoice; [|exact demo_step3]. done.
Qed.

Lemma demo_pay : rtc bill_step (at_rest demo3) (at_rest demo4).
Proof.
  eapply rtc_once, step_invoice, (do_recordPayment _ demo_env 0 7500); [done|by vm_compute|exact demo_step4].
Qed.

Lemma demo3_reachable : bill_reachable demo3.
Proof. exists demo_time, ∅, []. exact demo_to3. Qed.

Lemma demo4_reachable : bill_reachable demo4.
Proof. exists demo_time, ∅, []. etrans; [exact demo_to3|exact demo_pay]. Qed.

(** The first invoice in the run. *)
Definition demo_invoice (s : BillStore) : Invoice :=
  default (draft_invoice {| ih_partnerId := ""; ih_orgId := ""; ih_createdBy := None; ih_replacesInvoiceId := None |} None None)
    (bs_invoices s !! 0%nat).

Lemma well_formed_witness : row_wf (demo_invoice demo4).
Proof.
  assert (Hi : bs_invoices demo4 !! 0%nat = Some (demo_invoice demo4)) by (vm_compute; reflexivity).
  exact (proj1 (billing_rows_are_well_formed demo4 demo4_reachable) 0%nat _ Hi).
Defined.

Lemma frozen_witness : frozen_in (demo_invoice demo3) demo4 0 /\ iv_total (demo_invoice demo3) = money 15000.
Proof.
  split; [|vm_compute; reflexivity].
  assert (Hi : bs_invoices demo3 !! 0%nat = Some (demo_invoice demo3)) by (vm_compute; reflexivity).
  assert (Hs : iv_status (demo_invoice demo3) <> inv_draft) by (vm_compute; discriminate).
  exact (proj1 (issued_invoices_are_frozen (at_rest demo3) (at_rest demo4) 0 _ demo3_reachable demo_pay Hi Hs)).
Defined.

Lemma balance_witness : paid_cents 0 demo4 = 7500 /\ il_balance (iv_life (demo_invoice demo4)) = money (15000 - paid_cents 0 demo4).
Proof.
  split; [vm_compute; reflexivity|].
  assert (Hi : bs_invoices demo4 !! 0%nat = Some (demo_invoice demo4)) by (vm_compute; reflexivity).
  assert (HT : iv_total (demo_invoice demo4) = money 15000) by (vm_compute; reflexivity).
  assert (Hok : cents_ok 15000) by by_eval.
  pose proof (payments_and_balance_agree demo4 0 _ 15000 demo4_reachable Hi HT Hok) as H. cbv zeta in H.
  assert (Hd : bool_decide (iv_status (demo_invoice demo4) = inv_draft) = false) by (vm_compute; reflexivity).
  rewrite Hd in H. apply H.
Defined.

Lemma demo_bills s id n :
  bs_lines s !! n = bs_lines s !! n ->
  match bs_lines s !! n with
  | Some l => bool_decide (ln_invoiceId l = id) && bool_decide (ln_sourceType l = src_time_entry) && bool_decide (ln_sourceId l = Some "t1")
  | None => false
  end = true -> bills s id src_time_entry "t1".
Proof.
  intros _ H. destruct (bs_lines s !! n) as [l|] eqn:E; [|done]. bool_hyps. by exists n, l.
Qed.

Lemma billed_once_witness : source_status demo4 src_time_entry "t1" <> Some not_billed.
Proof.
  assert (Hl : live demo4 0).
  { exists (demo_invoice demo4). split; [vm_compute; reflexivity|]. split; vm_compute; discriminate. }
  assert (Hb : bills demo4 0 src_time_entry "t1") by (apply (demo_bills _ _ 1); [done|vm_compute; reflexivity]).
  assert (Hs : source_status demo4 src_time_entry "t1" <> None) by (vm_compute; discriminate).
  exact (proj2 (work_is_billed_once demo4 0 0 src_time_entry "t1" demo4_reachable Hl Hl Hb Hb Hs)).
Defined.

Definition demo_read (id : nat) : IssueRead :=
  match issue_check id demo_actor demo2 with Ok r => r
  | Err _ => {| ir_invoice := demo_invoice demo2; ir_timeIds := []; ir_partIds := [] |} end.

Lemma overlapping_witness :
  let s2 := issue_commit demo_env 2 (demo_read 2) (issue_commit demo_env 0 (demo_read 0) demo2) in live s2 0 /\ live s2 2.
Proof.
  assert (C1 : issue_check 0 demo_actor demo2 = Ok (demo_read 0)) by (vm_compute; reflexivity).
  assert (G1 : issue_guard (demo_read 0) demo2 = Ok tt) by (vm_compute; reflexivity).
  assert (C2 : issue_check 2 demo_actor demo2 = Ok (demo_read 2)) by (vm_compute; reflexivity).
  assert (G2 : issue_guard (demo_read 2) demo2 = Ok tt) by (vm_compute; reflexivity).
  assert (B1 : bills demo2 0 src_time_entry "t1") by (apply (demo_bills _ _ 1); [done|vm_compute; reflexivity]).
  assert (B2 : bills demo2 2 src_time_entry "t1") by (apply (demo_bills _ _ 3); [done|vm_compute; reflexivity]).
  assert (Hs : source_status demo2 src_time_entry "t1" <> None) by (vm_compute; discriminate).
  destruct (overlapping_issues_bill_twice demo_env demo_env demo2 0 2 demo_actor demo_actor _ _ src_time_entry "t1"
    ltac:(lia) C1 G1 C2 G2 B1 B2 Hs) as (H1 & H2 & _). exact (conj H1 H2).
Defined.

Lemma unique_numbers_witness : il_invoiceNumber (iv_life (demo_invoice demo4)) = Some "INV-2026-0001"%string /\ 0%nat = 0%nat.
Proof.
  assert (Hi : bs_invoices demo4 !! 0%nat = Some (demo_invoice demo4)) by (vm_compute; reflexivity).
  assert (Hn : il_invoiceNumber (iv_life (demo_invoice demo4)) = Some "INV-2026-0001"%string) by (vm_compute; reflexivity).
  exact (conj Hn (invoice_numbers_are_unique demo4 0 0 _ _ _ demo4_reachable Hi Hi eq_refl Hn Hn)).
Defined.

(** Due on 2026-07-15; the sweep of the next day flags it. *)
Lemma overdue_witness :
  overdue_due (iso_of_ms (be_now demo_env + 31 * 86400000)) (demo_invoice demo4) = true
  /\ deriveInvoiceStatus false true (money 15000) (money 7500) (Some "2026-07-15"%string) (be_now demo_env + 31 * 86400000) = inv_overdue.
Proof.
  assert (H1 : iv_status (demo_invoice demo4) ∈ [inv_sent; inv_partially_paid]).
  { assert (E : iv_status (demo_invoice demo4) = inv_partially_paid) by (vm_compute; reflexivity). rewrite E.
    apply elem_of_cons. right. apply elem_of_cons. left. reflexivity. }
  assert (HT : iv_total (demo_invoice demo4) = money 15000) by (vm_compute; reflexivity).
  assert (HP : il_amountPaid (iv_life (demo_invoice demo4)) = money 7500) by (vm_compute; reflexivity).
  assert (HB : il_balance (iv_life (demo_invoice demo4)) = money (15000 - 7500)) by (vm_compute; reflexivity).
  assert (HD : il_dueDate (iv_life (demo_invoice demo4)) = Some "2026-07-15"%string) by (vm_compute; reflexivity).
  assert (Hd : is_date "2026-07-15" 2026 7 15) by by_eval.
  assert (E : overdue_due (iso_of_ms (be_now demo_env + 31 * 86400000)) (demo_invoice demo4) = true) by (vm_compute; reflexivity).
  split; [exact E|].
  pose proof (overdue_sweep_agrees_with_status (demo_invoice demo4) 15000 7500 _ _ _ _ (be_now demo_env + 31 * 86400000)
    H1 HT HP HB ltac:(by_eval) ltac:(by_eval) HD Hd ltac:(by_eval) ltac:(by_eval)) as H.
  rewrite E, HT, HP, HD in H. symmetry in H. apply bool_decide_eq_true in H. exact H.
Defined.
