(* ===== verification/Commerce.v ===== *)
(** * Quotes, billing and Stripe together

    The composed system: calls on quotes, acceptances, billing, and what Stripe's
    checkouts, captures, refunds and sweeps do; its calls as steps of the billing system,
    and what holds of the links between the three. *)

From stdpp Require Import base gmap strings list option relations sorting.
From Stdlib Require Import ZArith Lia QArith Lqa.
From S2P Require Import Prelude Calendar Doubles Money Quotes SecretCrypto.
From S2P Require Import BillingStore Invoices Contracts Stripe QuoteStore QuoteService.
From S2P Require Import QuoteLifecycle QuoteAccept QuoteSystem QuoteTheorems.
From S2P Require Import BillingSystem BillingTheorems ContractTheorems.
Open Scope Z_scope.

(** ** Minor units *)

(** Stripe's largest charge: eight digits. *)
Definition minor_max : Z := 99999999.

Lemma toFixed_whole c : 0 <= c -> toFixed 2 (inject_Z c) = money (100 * c).
Proof.
  intros Hc. unfold toFixed, money. rewrite (proj2 (Qle_bool_iff 0 (inject_Z c))).
  - f_equal. apply floor_unique; rewrite ?inject_Z_plus, ?inject_Z_mult; change (inject_Z (10 ^ 2)) with 100%Q;
      change (inject_Z 100) with 100%Q; change (inject_Z 1) with 1%Q; lra.
  - change 0%Q with (inject_Z 0). by rewrite <- Zle_Qle.
Qed.

(** The cents of an amount in minor units. *)
Definition minor_cents (minor : Z) (currency : string) : Z := if isZeroDecimal currency then 100 * minor else minor.

Lemma fromMinor_money c currency : 0 <= c <= minor_max -> fromMinorUnits c currency = money (minor_cents c currency).
Proof.
  unfold fromMinorUnits, minor_cents, minor_max. intros Hc. destruct (isZeroDecimal currency); [apply toFixed_whole; lia|].
  apply (fromCents_exact c). unfold cents_ok. lia.
Qed.

Definition amount_ok (d : Decimal) : Prop := exists a, d = money a /\ 0 < a /\ cents_ok a.

Lemma fromMinor_ok c currency : 0 < c <= minor_max -> amount_ok (fromMinorUnits c currency).
Proof.
  intros Hc. exists (minor_cents c currency). rewrite fromMinor_money by lia. unfold minor_cents, cents_ok, minor_max in *.
  split; [done|]. destruct (isZeroDecimal currency); lia.
Qed.

(** ** Steps *)

Definition session_ok (sn : StripeSession) : Prop := forall c, ss_amount_total sn = Some c -> c <= minor_max.
Definition api_ok (api : StripeApi) : Prop := forall k id sn, api_retrieve api k id = Some sn -> session_ok sn.

(** A refund event that leaves no more than there is: events of one charge in order. *)
Definition refund_in_order (inp : RefundInput) (p : PayStore) : Prop :=
  rf_chargeAmountCents inp - rf_amountRefundedCents inp <= minor_max
  /\ forall oid m pid py, by_payment_intent (rf_paymentIntentId inp) p = Some (oid, m) -> sm_invoicePaymentId m = Some pid ->
     bs_payments (ps_bill p) !! pid = Some py -> rf_amountRefundedCents inp < rf_chargeAmountCents inp ->
     toCents (Some (fromMinorUnits (rf_chargeAmountCents inp - rf_amountRefundedCents inp) (rf_currency inp)))
       <= toCents (Some (py_amount py)).

Definition event_ok (e : StripeEvent) (p : PayStore) : Prop :=
  match ev_object e with
  | ev_session_completed sn | ev_session_async_succeeded sn => session_ok sn
  | ev_charge_refunded pi refunded amount currency =>
      refund_in_order {| rf_paymentIntentId := default EmptyString pi; rf_amountRefundedCents := default 0 refunded;
                         rf_chargeAmountCents := default 0 amount; rf_currency := default "usd"%string currency;
                         rf_accountId := default EmptyString (ev_account e) |} p
  | _ => True
  end.

(** Billing calls write no payment without a user. *)
Definition attributed (b b' : BillStore) : Prop :=
  forall pid py, bs_payments b' !! pid = Some py ->
    bs_payments b !! pid = Some py \/ bs_payments b !! pid = None /\ py_recordedBy py <> None.

(** The clock of an acceptance: in the years a contract may start in. *)
Definition accept_clock (env : QuoteEnv) : Prop := 0 <= qe_now env /\ start_ok (iso_of_ms (qe_now env)).

Record Commerce : Type := { co_pay : PayStore; co_runs : list (nat * Contract); co_quotes : QuoteStore }.

Definition billing (x : Commerce) : BillSys := {| sy_store := ps_bill (co_pay x); sy_runs := co_runs x |}.

Section commerce.

(** The cipher of the partner keys, and how late views and declines may write. *)
Context (encrypt decrypt : option string -> result CryptoError (option string)) (late : Quote -> Quote -> Prop).

(** What partners, customers and Stripe do. *)
Inductive stripe_step (p : PayStore) : PayStore -> Prop :=
| do_savePartnerStripeKey api now partner key user p' acct :
    savePartnerStripeKey encrypt api now partner key user p = Ok (p', acct) -> stripe_step p p'
| do_disconnectPartnerStripe now partner : stripe_step p (disconnectPartnerStripe now partner p)
| do_createInvoicePayLink api now id actor p' url :
    createInvoicePayLink decrypt api now id actor p = Ok (p', url) -> stripe_step p p'
| do_portal_pay api now id orgId p' url : portal_pay decrypt api now id orgId p = Ok (p', url) -> stripe_step p p'
| do_portal_settle env api orgId id session : api_ok api -> stripe_step p (portal_settle decrypt env api orgId id session p).1
| do_handleStripeEvent env e p' : event_ok e p -> handleStripeEvent env e p = Ok p' -> stripe_step p p'
| do_reconcile env api : api_ok api -> stripe_step p (reconcilePendingStripePayments decrypt env api p).1.

(** Quote calls, acceptances, billing calls with the foreign keys of the mappings, and
    the above. *)
Inductive commerce_step (x : Commerce) : Commerce -> Prop :=
| cs_quotes s' : quote_step late (co_quotes x) s' ->
    commerce_step x {| co_pay := co_pay x; co_runs := co_runs x; co_quotes := s' |}
| cs_accept env p b' s' r : accept_clock env -> run_accept env p (ps_bill (co_pay x)) (co_quotes x) = Ok (b', s', r) ->
    commerce_step x {| co_pay := with_bill b' (co_pay x); co_runs := co_runs x; co_quotes := s' |}
| cs_billing b' rs' maps' : bill_step (billing x) {| sy_store := b'; sy_runs := rs' |} -> attributed (ps_bill (co_pay x)) b' ->
    fk_actions b' (ps_maps (co_pay x)) = Ok maps' ->
    commerce_step x {| co_pay := with_maps (fun _ => maps') (with_bill b' (co_pay x)); co_runs := rs'; co_quotes := co_quotes x |}
| cs_stripe p' : stripe_step (co_pay x) p' ->
    commerce_step x {| co_pay := p'; co_runs := co_runs x; co_quotes := co_quotes x |}.

(** ** Stripe's calls as changes *)

Inductive pay_change (p : PayStore) : PayStore -> Prop :=
| pc_accounts f : pay_change p (with_accounts f p)
| pc_pending oid m : ps_maps p !! oid = None -> sm_invoicePaymentId m = None -> sm_status m = sp_pending ->
    pay_change p (with_maps (<[oid := m]>) p)
| pc_capture env inp p' id : amount_ok (cap_amount inp) -> recordStripePayment env inp p = Ok (p', id) -> pay_change p p'
| pc_refund env inp p' : refund_in_order inp p -> reflectStripeRefund env inp p = Ok p' -> pay_change p p'
| pc_failed env pi : pay_change p (payment_failed_event env pi p).

Lemma insert_mapping_change id i account sn now p p' : insert_mapping id i account sn now p = Ok p' -> pay_change p p'.
Proof. unfold insert_mapping. intros H. result_ok H. bool_hyps. injection H as <-. by apply pc_pending. Qed.

Lemma session_change env account sn inp p p' id :
  session_ok sn -> session_capture account sn = Some inp -> recordStripePayment env inp p = Ok (p', id) -> pay_change p p'.
Proof.
  intros Hs Hc Hr. eapply pc_capture; [|exact Hr]. unfold session_capture in Hc. repeat case_match; simplify_eq. cbn.
  bool_hyps. apply fromMinor_ok. destruct (ss_amount_total sn) as [c|] eqn:E; cbn in *; [|lia]. by specialize (Hs c E).
Qed.

Lemma settle_changes env api partner session p r :
  api_ok api -> settleCheckoutSession decrypt env api partner session p = Ok r -> rtc pay_change p r.1.
Proof.
  intros Ha H. unfold settleCheckoutSession in H. apply rbind_Ok in H as (c & _ & H).
  destruct (api_retrieve _ _ _) as [sn|] eqn:E; [|done]. destruct (session_capture _ _) as [inp|] eqn:Ec; [|by simplify_eq].
  apply rbind_Ok in H as ([p' id] & Hr & H). simplify_eq. apply rtc_once. eapply session_change; [by eapply Ha|done|done].
Qed.

Lemma sweep_changes env api rows acc : api_ok api -> rtc pay_change acc.1 (fold_left (sweep_one decrypt env api) rows acc).1.
Proof.
  intros Ha. revert acc. induction rows as [|row rows IH]; intros acc; [done|]. cbn [fold_left]. etrans; [|apply IH].
  unfold sweep_one. destruct (settleCheckoutSession _ _ _ _ _ _) as [[p' []]|e] eqn:E; [..|done];
    exact (settle_changes _ _ _ _ _ _ Ha E).
Qed.

Lemma event_changes_pay env e p p' : event_ok e p -> handleStripeEvent env e p = Ok p' -> rtc pay_change p p'.
Proof.
  intros Ho H. unfold handleStripeEvent in H. case_match; [by simplify_eq|]. unfold event_ok in Ho.
  destruct (ev_object e) as [sn|sn|pi|pi refunded amount currency| |].
  1-2: destruct (session_capture _ _) as [inp|] eqn:Ec; [|by simplify_eq];
    apply rbind_Ok in H as ([p1 id] & Hr & H); simplify_eq; apply rtc_once; by eapply session_change.
  - simplify_eq. apply rtc_once, pc_failed.
  - case_match; [by simplify_eq|]. apply rtc_once. by eapply pc_refund.
  - simplify_eq. case_match; [|done]. apply rtc_once. apply pc_accounts.
  - by simplify_eq.
Qed.

Lemma stripe_step_changes p p' : stripe_step p p' -> rtc pay_change p p'.
Proof.
  destruct 1 as [api now partner key user p' acct H| |api now id actor p' url H|api now id orgId p' url H|env api orgId id session Ha|env e p' Ho H|env api Ha].
  - unfold savePartnerStripeKey in H. repeat case_match; try done. apply rbind_Ok in H as (? & _ & H). simplify_eq. apply rtc_once, pc_accounts.
  - apply rtc_once, pc_accounts.
  - unfold createInvoicePayLink in H. do 4 apply rbind_Ok in H as (? & _ & H). repeat case_match; try done.
    apply rbind_Ok in H as (p1 & Hp & H). simplify_eq. apply rtc_once. by eapply insert_mapping_change.
  - unfold portal_pay in H. repeat case_match; try done. apply rbind_Ok in H as (? & _ & H). apply rbind_Ok in H as (p1 & Hp & H).
    simplify_eq. apply rtc_once. by eapply insert_mapping_change.
  - unfold portal_settle. repeat case_match; try done. by eapply settle_changes.
  - by eapply event_changes_pay.
  - by apply (sweep_changes env api _ (p, 0%nat)).
Qed.

(** ** Mappings and payments *)

(** Linked mappings and the payments without a user correspond one to one, and a succeeded
    mapping is linked. *)
Record maps_ok (p : PayStore) : Prop := {
  mo_link : forall oid m pid, ps_maps p !! oid = Some m -> sm_invoicePaymentId m = Some pid ->
    exists py, bs_payments (ps_bill p) !! pid = Some py /\ py_invoiceId py = sm_invoiceId m /\ py_recordedBy py = None;
  mo_inj : forall oid1 oid2 m1 m2 pid, ps_maps p !! oid1 = Some m1 -> ps_maps p !! oid2 = Some m2 ->
    sm_invoicePaymentId m1 = Some pid -> sm_invoicePaymentId m2 = Some pid -> oid1 = oid2;
  mo_all : forall pid py, bs_payments (ps_bill p) !! pid = Some py -> py_recordedBy py = None ->
    exists oid m, ps_maps p !! oid = Some m /\ sm_invoicePaymentId m = Some pid;
  mo_check : forall oid m, ps_maps p !! oid = Some m -> succeeded_has_payment m = true;
}.

Lemma recompute_payments env id s s' : recomputeInvoiceStatus env id s = Ok s' -> bs_payments s' = bs_payments s /\ bs_nextId s' = bs_nextId s.
Proof. by intros (i & p & st & _ & _ & _ & ->)%recompute_spec. Qed.

(** The same mappings and payments. *)
Lemma maps_same p p' : ps_maps p' = ps_maps p -> bs_payments (ps_bill p') = bs_payments (ps_bill p) -> maps_ok p -> maps_ok p'.
Proof. intros E1 E2 [A B C D]. by split; rewrite ?E1, ?E2. Qed.

(** A mapping altered with its link kept. *)
Lemma maps_mark oid f p :
  (forall m, sm_invoicePaymentId (f m) = sm_invoicePaymentId m /\ sm_invoiceId (f m) = sm_invoiceId m /\ sm_status (f m) <> sp_succeeded) ->
  maps_ok p -> maps_ok (with_maps (alter f oid) p).
Proof.
  intros Hf [A B C D].
  assert (Hback : forall k m', alter f oid (ps_maps p) !! k = Some m' -> exists m, ps_maps p !! k = Some m
    /\ sm_invoicePaymentId m' = sm_invoicePaymentId m /\ sm_invoiceId m' = sm_invoiceId m /\ (m' = m \/ sm_status m' <> sp_succeeded)).
  { intros k m' [(_ & m & Hm & ->)|[_ Hm]]%lookup_alter_Some; [|by exists m'; auto]. exists m. destruct (Hf m) as (? & ? & ?). by split_and!; auto. }
  split; cbn.
  - intros k m' pid (m & Hm & -> & -> & _)%Hback Hl. by eapply A.
  - intros k1 k2 m1' m2' pid (m1 & Hm1 & -> & _)%Hback (m2 & Hm2 & -> & _)%Hback. by eapply B.
  - intros pid py Hp Hn. destruct (C _ _ Hp Hn) as (k & m & Hm & Hl). exists k. destruct (decide (k = oid)) as [->|Hk].
    + exists (f m). rewrite lookup_alter_eq, Hm. split; [done|]. by destruct (Hf m) as (-> & _).
    + exists m. by rewrite lookup_alter_ne.
  - intros k m' (m & Hm & _ & _ & [->|Hs])%Hback; [by eapply D|]. unfold succeeded_has_payment. by rewrite bool_decide_eq_false_2.
Qed.

(** A mapping linked to a new payment. *)
Lemma maps_capture p oid m pid py f b' :
  maps_ok p -> ps_maps p !! oid = Some m -> sm_invoicePaymentId m = None -> bs_payments (ps_bill p) !! pid = None ->
  bs_payments b' = <[pid := py]> (bs_payments (ps_bill p)) -> py_invoiceId py = sm_invoiceId m -> py_recordedBy py = None ->
  sm_invoicePaymentId (f m) = Some pid -> sm_invoiceId (f m) = sm_invoiceId m -> maps_ok (with_maps (alter f oid) (with_bill b' p)).
Proof.
  intros [A B C D] Hm Hn Hfresh Eb Hi Hr Hf1 Hf2. split; cbn; rewrite ?Eb.
  - intros k m' i [(<- & m0 & Hm0 & ->)|[Hk Hm']]%lookup_alter_Some Hl; simplify_eq.
    + exists py. rewrite lookup_insert_eq. split_and!; congruence.
    + destruct (A _ _ _ Hm' Hl) as (x & Hx & ?). exists x. rewrite lookup_insert_ne by congruence. done.
  - intros k1 k2 m1 m2 i [(<- & x1 & Hx1 & ->)|[Hk1 Hm1]]%lookup_alter_Some [(<- & x2 & Hx2 & ->)|[Hk2 Hm2]]%lookup_alter_Some L1 L2;
      simplify_eq; [done|..|by eapply B].
    + destruct (A _ _ _ Hm2 L2) as (x & Hx & _). congruence.
    + destruct (A _ _ _ Hm1 L1) as (x & Hx & _). congruence.
  - intros i x [[<- <-]|[Hne Hx]]%lookup_insert_Some Hrx.
    + exists oid, (f m). by rewrite lookup_alter_eq, Hm.
    + destruct (C _ _ Hx Hrx) as (k & m' & Hm' & Hl). exists k, m'. rewrite lookup_alter_ne by congruence. done.
  - intros k m' [(<- & m0 & Hm0 & ->)|[Hk Hm']]%lookup_alter_Some; [|by eapply D]. simplify_eq. unfold succeeded_has_payment.
    rewrite Hf1. by rewrite orb_true_r.
Qed.

(** What the foreign keys leave. *)
Lemma fk_lookup b maps maps' k m' :
  fk_actions b maps = Ok maps' -> maps' !! k = Some m' ->
  exists m, maps !! k = Some m /\ is_Some (bs_invoices b !! sm_invoiceId m)
    /\ m' = (if orphaned b m then unlink m else m) /\ (orphaned b m = true -> succeeded_has_payment m' = true).
Proof.
  unfold fk_actions. intros H Hk. result_ok H. injection H as <-. rewrite lookup_fmap in Hk.
  destruct (filter _ maps !! k) as [m|] eqn:E; cbn in Hk; [|done]. injection Hk as <-.
  pose proof E as [Hm Hi]%map_lookup_filter_Some. exists m. split_and!; [done|done|done|]. intros Ho. rewrite Ho.
  rewrite forallb_forall in Hg. specialize (Hg m). rewrite Ho in Hg. apply Hg. apply list_elem_of_In, list_elem_of_fmap.
  exists (k, m). split; [done|]. by apply elem_of_map_to_list.
Qed.

Lemma fk_kept b maps maps' k m :
  fk_actions b maps = Ok maps' -> maps !! k = Some m -> is_Some (bs_invoices b !! sm_invoiceId m) -> orphaned b m = false ->
  maps' !! k = Some m.
Proof.
  unfold fk_actions. intros H Hm Hi Ho. result_ok H. injection H as <-. rewrite lookup_fmap.
  rewrite (proj2 (map_lookup_filter_Some _ _ _ _)) by done. cbn. by rewrite Ho.
Qed.

(** Payments gone from the billing tables, the mappings as the foreign keys leave them. *)
Lemma maps_fk b' maps' p :
  maps_ok p -> fk_actions b' (ps_maps p) = Ok maps' -> attributed (ps_bill p) b' ->
  (forall pid py, bs_payments b' !! pid = Some py -> is_Some (bs_invoices b' !! py_invoiceId py)) ->
  maps_ok (with_maps (fun _ => maps') (with_bill b' p)).
Proof.
  intros [A B C D] Hfk Hat Hinv.
  assert (Hback : forall k m' pid, maps' !! k = Some m' -> sm_invoicePaymentId m' = Some pid ->
    exists m, ps_maps p !! k = Some m /\ m' = m /\ bs_payments b' !! pid <> None).
  { intros k m' pid Hk Hl. destruct (fk_lookup _ _ _ _ _ Hfk Hk) as (m & Hm & _ & E & _). exists m.
    destruct (orphaned b' m) eqn:Ho; subst m'; [done|]. split_and!; [done|done|].
    unfold orphaned in Ho. rewrite Hl in Ho. by bool_hyps. }
  split; cbn.
  - intros k m' pid Hk Hl. destruct (Hback _ _ _ Hk Hl) as (m & Hm & -> & Hp).
    destruct (A _ _ _ Hm Hl) as (py & Hpy & ? & ?). destruct (bs_payments b' !! pid) as [py'|] eqn:E; [|done].
    destruct (Hat _ _ E) as [Hx|[Hx _]]; [|congruence]. exists py. split; [congruence|done].
  - intros k1 k2 m1 m2 pid H1 H2 L1 L2. destruct (Hback _ _ _ H1 L1) as (? & X1 & -> & _). destruct (Hback _ _ _ H2 L2) as (? & X2 & -> & _).
    by eapply B.
  - intros pid py Hp Hn. destruct (Hat _ _ Hp) as [H|[_ H]]; [|done]. destruct (C _ _ H Hn) as (k & m & Hm & Hl).
    exists k, m. split; [|done]. destruct (A _ _ _ Hm Hl) as (py' & Hpy' & E & _). eapply fk_kept; [done|done|..].
    + rewrite <- E. simplify_eq. by eapply Hinv.
    + unfold orphaned. rewrite Hl. apply bool_decide_eq_false. by rewrite Hp.
  - intros k m' Hk. destruct (fk_lookup _ _ _ _ _ Hfk Hk) as (m & Hm & _ & E & Ho). destruct (orphaned b' m); [by apply Ho|].
    subst. by eapply D.
Qed.

Lemma capture_payment_spec env id a s b pid :
  capture_payment env id a s = Ok (b, pid) ->
  pid = bs_nextId s
  /\ bs_payments b = <[pid := {| py_invoiceId := id; py_amount := toFixed 2 (Number a); py_recordedBy := None |}]> (bs_payments s).
Proof.
  unfold capture_payment. intros H. apply rbind_Ok in H as (? & _ & H). apply rbind_Ok in H as (s2 & Hs2 & H). simplify_eq.
  split; [done|]. apply recompute_payments in Hs2 as [E _]. unfold emit_if_paid. by repeat case_match; cbn; rewrite E.
Qed.

Lemma capture_maps env inp p p' id : bill_wf (ps_bill p) -> recordStripePayment env inp p = Ok (p', id) -> maps_ok p -> maps_ok p'.
Proof.
  intros Hw H Hm. unfold recordStripePayment in H. apply rbind_Ok in H as (r & Hr & H). unfold capture_read in Hr.
  destruct (ps_maps p !! cap_objectId inp) as [m|] eqn:Em; [|done].
  destruct (sm_invoicePaymentId m) as [k|] eqn:El; [simplify_eq; cbn in H; by simplify_eq|].
  destruct (bs_invoices (ps_bill p) !! sm_invoiceId m) as [i|] eqn:Ei; [|done]. simplify_eq. cbn in H. destruct (capture_refused inp m i).
  - simplify_eq. apply maps_mark; [done|]. by apply (maps_same p).
  - apply rbind_Ok in H as ([b pid] & Hb & H). simplify_eq. unfold lift in Hb. destruct (capture_payment _ _ _ _) as [[b' k]|] eqn:Ec; [|done].
    simplify_eq. apply capture_payment_spec in Ec as [-> Eb]. by eapply maps_capture; [done|done|done|apply (fresh_payment _ Hw)|exact Eb|..].
Qed.

Lemma capture_steps env inp p p' id :
  amount_ok (cap_amount inp) -> recordStripePayment env inp p = Ok (p', id) -> rtc invoice_step (ps_bill p) (ps_bill p').
Proof.
  intros (a & Ea & Ha & Hok) H. unfold recordStripePayment in H. apply rbind_Ok in H as (r & Hr & H). unfold capture_read in Hr.
  destruct (ps_maps p !! cap_objectId inp) as [m|]; [|done]. destruct (sm_invoicePaymentId m) as [k|]; [simplify_eq; cbn in H; by simplify_eq|].
  destruct (bs_invoices (ps_bill p) !! sm_invoiceId m) as [i|] eqn:Ei; [|done]. simplify_eq. cbn in H. destruct (capture_refused inp m i) eqn:Er.
  - simplify_eq. apply rtc_once, do_event.
  - apply rbind_Ok in H as ([b pid] & Hb & H). simplify_eq. unfold lift in Hb. destruct (capture_payment _ _ _ _) as [[b' k]|] eqn:Ec; [|done].
    simplify_eq. apply rtc_once. cbn. unfold capture_refused in Er. rewrite Ea in Er, Ec. bool_hyps.
    eapply (do_capture _ env (sm_invoiceId m) i a); [done| |done|done|lia|exact Ec].
    split; intros E; rewrite E in *; set_solver.
Qed.

Lemma by_intent_lookup pi p oid m : by_payment_intent pi p = Some (oid, m) -> ps_maps p !! oid = Some m.
Proof.
  unfold by_payment_intent. intros H. apply elem_of_map_to_list. destruct (List.filter _ _) as [|r l] eqn:E; [done|]. cbn in H. simplify_eq.
  assert (Hin : (oid, m) ∈ (oid, m) :: l) by left. rewrite <- E in Hin. by apply list_filter_elem in Hin as [? _].
Qed.

(** A refund that is not ignored, in its two cases. *)
Lemma refund_cases env inp p p' :
  reflectStripeRefund env inp p = Ok p' ->
  p' = p \/ exists oid m pid b, by_payment_intent (rf_paymentIntentId inp) p = Some (oid, m) /\ sm_invoicePaymentId m = Some pid
    /\ ((rf_chargeAmountCents inp <= rf_amountRefundedCents inp /\ exists maps,
          fk_actions (with_payments (delete pid) (ps_bill p)) (ps_maps p) = Ok maps
          /\ recomputeInvoiceStatus env (sm_invoiceId m) (with_payments (delete pid) (ps_bill p)) = Ok b
          /\ p' = with_bill (emit (payment_voided (sm_invoiceId m) pid) b)
                    (with_maps (alter (set_mapping None sp_refunded (sm_paymentIntentId m) (be_now env)) oid) (with_maps (fun _ => maps) p)))
       \/ (rf_amountRefundedCents inp < rf_chargeAmountCents inp
          /\ let a := fromMinorUnits (rf_chargeAmountCents inp - rf_amountRefundedCents inp) (rf_currency inp) in
             recomputeInvoiceStatus env (sm_invoiceId m) (with_payments (alter (set_amount a) pid) (ps_bill p)) = Ok b
             /\ p' = with_bill (emit (payment_voided (sm_invoiceId m) pid) b)
                       (with_maps (alter (mark_mapping sp_partially_refunded (be_now env)) oid) p))).
Proof.
  unfold reflectStripeRefund. intros H. destruct (by_payment_intent _ p) as [[oid m]|] eqn:Ep; [|left; by simplify_eq].
  destruct (sm_invoicePaymentId m) as [pid|] eqn:El; [|left; by simplify_eq]. case_match; [left; by simplify_eq|]. right.
  apply rbind_Ok in H as (p1 & H1 & H). apply rbind_Ok in H as (b & Hb & H). simplify_eq. exists oid, m, pid, b. split_and!; [done|done|].
  unfold lift in Hb. destruct (recomputeInvoiceStatus env (sm_invoiceId m) (ps_bill p1)) as [b'|] eqn:Er; [|done]. simplify_eq.
  destruct (Z.leb_spec (rf_chargeAmountCents inp) (rf_amountRefundedCents inp)); [left|right]; (split; [lia|]).
  - apply rbind_Ok in H1 as (q & Hq & H1). unfold delete_payment in Hq. apply rbind_Ok in Hq as (maps & Hf & Hq). simplify_eq.
    exists maps. by split_and!.
  - apply rbind_Ok in H1 as (? & _ & H1). simplify_eq. by split.
Qed.

Lemma refund_maps env inp p p' : bill_wf (ps_bill p) -> reflectStripeRefund env inp p = Ok p' -> maps_ok p -> maps_ok p'.
Proof.
  intros Hw H Hm. apply refund_cases in H as [->|(oid & m & pid & b & Hp & Hl & [(_ & maps & Hf & Hb & ->)|(_ & Hb & ->)])]; [done|..];
    apply recompute_payments in Hb as [Eb _]; apply by_intent_lookup in Hp.
  - assert (H1 : maps_ok (with_maps (fun _ => maps) (with_bill (with_payments (delete pid) (ps_bill p)) p))).
    { apply maps_fk; [done|done|..].
      - intros k py Hk. cbn in Hk. apply lookup_delete_Some in Hk as [_ Hk]. by left.
      - intros k py Hk. cbn in Hk. apply lookup_delete_Some in Hk as [_ Hk]. apply (wf_pay _ Hw) in Hk as (_ & i & Hi & _). cbn. by rewrite Hi. }
    pose proof (maps_mark oid (mark_mapping sp_refunded (be_now env)) _ ltac:(done) H1) as H2.
    eapply maps_same; [|..|exact H2]; [|exact Eb]. cbn. apply map_eq. intros k.
    destruct (decide (k = oid)) as [->|Hk]; [|by rewrite !lookup_alter_ne]. rewrite !lookup_alter_eq.
    destruct (maps !! oid) as [x|] eqn:Ex; [|done]. cbn. f_equal.
    destruct (fk_lookup _ _ _ _ _ Hf Ex) as (m0 & Hm0 & _ & E & _). simplify_eq.
    assert (Ho : orphaned (with_payments (delete pid) (ps_bill p)) m = true).
    { unfold orphaned. rewrite Hl. apply bool_decide_eq_true. cbn. apply lookup_delete_eq. }
    rewrite Ho. done.
  - eapply (maps_same (with_maps (alter (mark_mapping sp_partially_refunded (be_now env)) oid)
      (with_bill (with_payments (alter (set_amount (fromMinorUnits (rf_chargeAmountCents inp - rf_amountRefundedCents inp) (rf_currency inp))) pid) (ps_bill p)) p)));
      [done|exact Eb|]. apply maps_mark; [done|]. destruct Hm as [A B C D]. split; cbn; [|done| |done].
    + intros k x i Hx Hi. destruct (A _ _ _ Hx Hi) as (py & Hpy & ? & ?). destruct (decide (i = pid)) as [->|Hne].
      * exists (set_amount (fromMinorUnits (rf_chargeAmountCents inp - rf_amountRefundedCents inp) (rf_currency inp)) py). by rewrite lookup_alter_eq, Hpy.
      * exists py. by rewrite lookup_alter_ne.
    + intros i py Hpy Hn. apply lookup_alter_Some in Hpy as [(_ & py0 & Hpy & ->)|[_ Hpy]]; by eapply C.
Qed.

Lemma refund_steps env inp p p' :
  maps_ok p -> refund_in_order inp p -> reflectStripeRefund env inp p = Ok p' -> rtc invoice_step (ps_bill p) (ps_bill p').
Proof.
  intros Hm [Hmax Hle] H. apply refund_cases in H as [->|(oid & m & pid & b & Hp & Hl & H)]; [done|].
  destruct (mo_link _ Hm _ _ _ (by_intent_lookup _ _ _ _ Hp) Hl) as (py & Hpy & Ei & _). rewrite <- Ei in H.
  destruct H as [(_ & maps & _ & Hb & ->)|(Hlt & Hb & ->)]; (eapply rtc_l; [|apply rtc_once, do_event]).
  - by eapply do_refund_all.
  - specialize (Hle _ _ _ _ Hp Hl Hpy Hlt).
    destruct (fromMinor_ok (rf_chargeAmountCents inp - rf_amountRefundedCents inp) (rf_currency inp)) as (a & Ea & Ha & Hok); [lia|].
    rewrite Ea in Hb, Hle. by eapply do_refund_part.
Qed.

Lemma pay_change_ok p p' :
  bill_wf (ps_bill p) -> maps_ok p -> pay_change p p' -> maps_ok p' /\ rtc invoice_step (ps_bill p) (ps_bill p').
Proof.
  intros Hw Hm [f|oid m Hn Hl Hs|env inp p1 id Ha H|env inp p1 Ho H|env pi].
  - split; [by apply (maps_same p)|done].
  - split; [|done]. destruct Hm as [A B C D]. split; cbn.
    + intros k x pid [[<- <-]|[_ Hx]]%lookup_insert_Some Hp; [congruence|by eapply A].
    + intros k1 k2 x1 x2 pid [[<- <-]|[_ H1]]%lookup_insert_Some [[<- <-]|[_ H2]]%lookup_insert_Some L1 L2; try congruence. by eapply B.
    + intros pid py Hp Hr. destruct (C _ _ Hp Hr) as (k & x & Hx & ?). exists k, x. rewrite lookup_insert_ne by congruence. done.
    + intros k x [[<- <-]|[_ Hx]]%lookup_insert_Some; [|by eapply D]. unfold succeeded_has_payment. by rewrite Hs.
  - split; [by eapply capture_maps|by eapply capture_steps].
  - split; [by eapply refund_maps|by eapply refund_steps].
  - unfold payment_failed_event. destruct (by_payment_intent pi p) as [[oid m]|]; [|done]. split; [|apply rtc_once, do_event].
    apply maps_mark; [done|]. by apply (maps_same p).
Qed.

(** ** Acceptances as billing steps *)

Lemma build_specs_ok cs q lines start by_ specs :
  start_ok start -> Forall (fun c => 1 <= c.1.2 <= 60) cs -> build_specs cs q lines start by_ = Ok specs -> Forall spec_ok specs.
Proof.
  intros Hs Hc. revert specs. induction Hc as [|[[r n] label] cs Hn _ IH]; intros specs H; cbn in H; [by simplify_eq|].
  destruct (cadence_group r lines) as [|g gs]; [by apply IH|]. apply rbind_Ok in H as (e & _ & H). apply rbind_Ok in H as (rest & Hr & H).
  simplify_eq. constructor; [by split|by apply IH].
Qed.

Lemma cadences_ok : Forall (fun c : Recurrence * Z * string => 1 <= c.1.2 <= 60) CADENCES.
Proof. repeat constructor; cbn; lia. Qed.

Lemma create_contracts_steps specs b rs :
  Forall spec_ok specs -> rtc bill_step {| sy_store := b; sy_runs := rs |} {| sy_store := (create_contracts specs b).1.1; sy_runs := rs |}.
Proof.
  intros H. revert b. induction H as [|sp specs Hsp _ IH]; intros b; [done|]. cbn [create_contracts].
  pose proof (step_contract b _ rs (do_createContractWithLines b sp Hsp)) as H1.
  destruct (createContractWithLinesDetailed sp b) as [[b1 id] links]. specialize (IH b1).
  destruct (create_contracts specs b1) as [[b2 ids] links']. eapply rtc_l; [exact H1|exact IH].
Qed.

Lemma fresh_lines b : bill_wf b -> lines_of (bs_nextId b) b = [].
Proof.
  intros Hw. apply filter_none. intros l ([k l'] & -> & Hl%elem_of_map_to_list)%list_elem_of_fmap. cbn.
  apply bool_decide_eq_false. apply (wf_line _ Hw) in Hl as [_ ?]. lia.
Qed.

Lemma accept_steps env p b s b' s' r rs :
  bill_wf b -> accept_clock env -> acceptQuote env p b s = Ok (b', s', r) ->
  rtc bill_step {| sy_store := b; sy_runs := rs |} {| sy_store := emitAcceptInvoiceIssued r b'; sy_runs := rs |}.
Proof.
  intros Hw [Hnow Hstart] H. apply accept_changes in H as (_ & q & specs & b1 & b2 & links & _ & _ & Hi & Hs & Hc & -> & _).
  pose proof (do_convertQuote b (qe_bill env) q (one_time_lines (sorted_lines (ap_quoteId p) s)) (ap_actorUserId p) Hnow (fresh_lines b Hw)) as H1.
  rewrite Hi in H1. eapply rtc_l; [by apply step_invoice|]. cbn.
  apply (build_specs_ok _ _ _ _ _ _ Hstart cadences_ok), (create_contracts_steps specs b1 rs) in Hs. rewrite Hc in Hs.
  etrans; [exact Hs|]. unfold emitAcceptInvoiceIssued. case_match; [|done]. apply rtc_once, step_invoice, do_event.
Qed.

(** Acceptances touch no payment. *)
Lemma spec_lines_payments id orgId ls b : bs_payments (insert_spec_lines id orgId ls b).1 = bs_payments b.
Proof. by destruct (spec_lines_same id orgId ls b) as (_ & _ & -> & _). Qed.

Lemma create_contracts_same specs b : same_invoicing b (create_contracts specs b).1.1.
Proof.
  revert b. induction specs as [|sp specs IH]; intros b; [by repeat split|]. cbn [create_contracts].
  pose proof (create_spec_same sp b) as H1. destruct (createContractWithLinesDetailed sp b) as [[b1 id] links].
  specialize (IH b1). destruct (create_contracts specs b1) as [[b2 ids] links']. by eapply same_trans.
Qed.

Lemma insert_lines_payments ls b : bs_payments (insert_lines ls b) = bs_payments b /\ bs_invoices (insert_lines ls b) = bs_invoices b.
Proof. revert b. induction ls as [|l ls IH]; intros b; [done|]. cbn [insert_lines]. by destruct (IH (insert_line l b).1) as [-> ->]. Qed.

(** The row the conversion leaves. *)
Lemma convert_row env q oneTime userId b :
  let r := convert_invoice env q oneTime userId b in
  r.2 = bs_nextId b /\ bs_payments r.1 = bs_payments b
  /\ exists i, bs_invoices r.1 !! r.2 = Some i /\ iv_partnerId i = q_partnerId q /\ iv_orgId i = q_orgId q
     /\ iv_total i = am_total (accept_amounts oneTime (qh_taxRate (q_head q))) /\ (oneTime <> [] -> iv_status i <> inv_draft).
Proof.
  unfold convert_invoice. destruct (insert_invoice (accept_draft q userId) b) as [b1 id] eqn:E.
  assert (Hid : id = bs_nextId b) by by injection E. assert (Hb1 : b1 = (insert_invoice (accept_draft q userId) b).1) by by rewrite E.
  set (ls := imap _ _). destruct (insert_lines_payments ls b1) as [Hp Hi].
  assert (Hrow : bs_invoices (insert_lines ls b1) !! id = Some (accept_draft q userId)).
  { rewrite Hi, Hb1, Hid. apply lookup_insert_eq. }
  cbn [fst snd]. split; [done|]. case_bool_decide as Ho; cbn; (split; [by rewrite Hp, Hb1|]);
    rewrite lookup_alter_eq, Hrow; eexists; split_and!; done.
Qed.

(** ** The system *)

Record commerce_ok (x : Commerce) : Prop := {
  ck_bill : bill_wf (ps_bill (co_pay x));
  ck_quotes : quote_wf (co_quotes x);
  ck_maps : maps_ok (co_pay x);
}.

Definition commerce_start (time : gmap string TimeEntry) (parts_ : gmap string TicketPart) : Commerce :=
  {| co_pay := {| ps_bill := empty_bills time parts_; ps_maps := ∅; ps_accounts := ∅ |}; co_runs := []; co_quotes := empty_quotes |}.

Lemma start_ok_commerce time parts_ : commerce_ok (commerce_start time parts_).
Proof. by repeat split. Qed.

Lemma invoice_steps_bill b b' rs :
  rtc invoice_step b b' -> rtc bill_step {| sy_store := b; sy_runs := rs |} {| sy_store := b'; sy_runs := rs |}.
Proof. induction 1 as [|b b1 b2 H _ IH]; [done|]. eapply rtc_l; [by apply step_invoice|done]. Qed.

Lemma bill_steps_wf b b' rs rs' :
  bill_wf b -> rtc bill_step {| sy_store := b; sy_runs := rs |} {| sy_store := b'; sy_runs := rs' |} -> bill_wf b'.
Proof. intros Hw H%bill_steps_change. cbn in H. induction H as [|s s1 s2 H _ IH]; [done|]. by apply IH, (wf_preserved s). Qed.

Lemma pay_changes_ok p p' :
  bill_wf (ps_bill p) -> maps_ok p -> rtc pay_change p p' -> maps_ok p' /\ rtc invoice_step (ps_bill p) (ps_bill p').
Proof.
  intros Hw Hm H. induction H as [|p p1 p2 H _ IH]; [done|]. destruct (pay_change_ok _ _ Hw Hm H) as [Hm1 Hs1].
  assert (Hw1 : bill_wf (ps_bill p1)).
  { apply (bill_steps_wf (ps_bill p) _ [] []); [done|]. by apply invoice_steps_bill. }
  destruct (IH Hw1 Hm1). split; [done|by etrans].
Qed.

Context (moves : QuoteStatus -> QuoteStatus -> Prop) `{!Lifecycle late moves}.

(** A step keeps the tables well formed and is, on the billing tables, a sequence of
    billing steps. *)
Lemma commerce_step_ok x y : commerce_ok x -> commerce_step x y -> commerce_ok y /\ rtc bill_step (billing x) (billing y).
Proof.
  intros [Hb Hq Hm] [s' H|env p b' s' r Hc H|b' rs' maps' H Ha Hf|p' H].
  - split; [|done]. split; [done| |done]. apply (quote_step_changes late moves _ _ Hq) in H. cbn.
    induction H as [|s s1 s2 H _ IH]; [done|]. apply IH. by eapply wf_qchange.
  - apply run_accept_inv in H as (p' & b1 & _ & H & ->). pose proof (accept_steps _ _ _ _ _ _ _ (co_runs x) Hb Hc H) as Hsteps.
    split; [|exact Hsteps]. apply accept_changes in H as (Hacc & q & specs & b2 & b3 & links & _ & _ & Hi & _ & Hs & -> & _).
    split; cbn; [exact (bill_steps_wf _ _ _ _ Hb Hsteps)|by eapply wf_accepts|].
    apply (maps_same (co_pay x)); [done| |done]. cbn.
    pose proof (convert_row (qe_bill env) q (one_time_lines (sorted_lines (ap_quoteId p') (co_quotes x))) (ap_actorUserId p') (ps_bill (co_pay x))) as (_ & E & _).
    rewrite Hi in E. cbn in E. destruct (create_contracts_same specs b2) as (_ & _ & E2 & _). rewrite Hs in E2. cbn in E2.
    unfold emitAcceptInvoiceIssued. case_match; cbn; congruence.
  - split; [|by apply rtc_once]. pose proof (bill_steps_wf _ _ _ _ Hb (rtc_once _ _ H)) as Hb'. split; [done|done|]. cbn in *.
    apply maps_fk; [done|done|done|]. intros pid py Hp. apply (wf_pay _ Hb') in Hp as (_ & i & Hi & _). by rewrite Hi.
  - apply stripe_step_changes, (pay_changes_ok _ _ Hb Hm) in H as [Hm' H].
    pose proof (invoice_steps_bill _ _ (co_runs x) H) as Hs. split; [|exact Hs].
    split; [exact (bill_steps_wf _ _ _ _ Hb Hs)|done|done].
Qed.

Lemma commerce_run_ok x y : commerce_ok x -> rtc commerce_step x y -> commerce_ok y /\ rtc bill_step (billing x) (billing y).
Proof.
  intros Hx H. induction H as [|x y z H _ IH]; [done|]. destruct (commerce_step_ok _ _ Hx H) as [Hy H1].
  destruct (IH Hy). split; [done|by etrans].
Qed.

Lemma commerce_reachable time parts_ x :
  rtc commerce_step (commerce_start time parts_) x -> commerce_ok x /\ rtc bill_step (billing (commerce_start time parts_)) (billing x).
Proof. apply commerce_run_ok, start_ok_commerce. Qed.

(** C7: A run of quote calls, acceptances, Stripe checkouts, captures, refunds and sweeps,
    and billing calls is, seen from the invoices, payments and contracts, a run of the
    billing system, so what is proved of the runs of billing holds with quotes and Stripe
    on top. The runs are those in which the calls that write bills follow one another
    (only views and declines of quotes may write late), a refund event leaves no more of a
    charge than the event before it (they arrive in order), sessions and charges have at
    most Stripe's eight digits, billing calls record the user of a payment, and
    acceptances fall in the years a contract may start in. *)
Theorem commerce_refines_billing time parts_ x y :
  rtc commerce_step (commerce_start time parts_) x -> rtc commerce_step x y ->
  bill_reachable (ps_bill (co_pay x)) /\ rtc bill_step (billing x) (billing y).
Proof.
  intros Hx Hy. apply commerce_reachable in Hx as [Hok Hx]. split; [by exists time, parts_, (co_runs x)|].
  by apply (commerce_run_ok _ _ Hok).
Qed.

(** C5: Each payment Stripe made is linked to one checkout mapping of its invoice; each
    linked mapping, whatever its status, is linked to a payment that exists, that Stripe
    made and that is of the mapping's invoice; and a mapping that says succeeded is
    linked. So it stays through captures, redeliveries, sweeps, refunds, voids and
    deletions, as long as the calls follow one another and refund events of one charge
    arrive in order. *)
Theorem stripe_payments_are_recorded_once time parts_ x :
  rtc commerce_step (commerce_start time parts_) x ->
  (forall pid py, bs_payments (ps_bill (co_pay x)) !! pid = Some py -> py_recordedBy py = None ->
     exists oid m, ps_maps (co_pay x) !! oid = Some m /\ sm_invoicePaymentId m = Some pid /\ sm_invoiceId m = py_invoiceId py
       /\ forall oid' m', ps_maps (co_pay x) !! oid' = Some m' -> sm_invoicePaymentId m' = Some pid -> oid' = oid)
  /\ (forall oid m pid, ps_maps (co_pay x) !! oid = Some m -> sm_invoicePaymentId m = Some pid ->
     exists py, bs_payments (ps_bill (co_pay x)) !! pid = Some py /\ py_invoiceId py = sm_invoiceId m /\ py_recordedBy py = None)
  /\ (forall oid m, ps_maps (co_pay x) !! oid = Some m -> sm_status m = sp_succeeded -> sm_invoicePaymentId m <> None).
Proof.
  intros H. apply commerce_reachable in H as [[_ _ [A B C D]] _]. split_and!.
  - intros pid py Hp Hr. destruct (C _ _ Hp Hr) as (oid & m & Hm & Hl). exists oid, m. split_and!; [done|done| |].
    + destruct (A _ _ _ Hm Hl) as (py' & Hp' & E & _). congruence.
    + intros oid' m' Hm' Hl'. by eapply B.
  - exact A.
  - intros oid m Hm Hs E. specialize (D _ _ Hm). unfold succeeded_has_payment in D. by rewrite Hs, E in D.
Qed.

End commerce.
