(* ===== verification/CommerceTheorems.v ===== *)
(** * Accepted quotes and their invoices

    Each acceptance is billed once, at the amount shown, when views and declines do not
    overlap with it; and what the sides of an acceptance are. *)

From stdpp Require Import base gmap strings list option relations sorting.
From Stdlib Require Import ZArith Lia QArith.
From S2P Require Import Prelude Calendar Doubles Money Quotes SecretCrypto.
From S2P Require Import BillingStore Invoices Contracts Stripe QuoteStore QuoteService.
From S2P Require Import QuoteLifecycle QuoteAccept QuoteSystem QuoteTheorems.
From S2P Require Import BillingSystem BillingTheorems Commerce.
Open Scope Z_scope.

(** ** Generated ids grow *)

Lemma ichange_next s s' : ichange s s' -> (bs_nextId s <= bs_nextId s')%nat.
Proof.
  destruct 1 as [s' Hs|h site notes|k j f Hj Hd He|l Hd|k l0 l Hl0 Hl Hd|k n Hd|k Hd|env k r cur dep am Hnow Hr Hg
    |env k j a by_ s' Hj Ho Ha Hok Hle Hr|env pid p s' Hp Hr|env pid p a s' Hp Ha Haok Hle Hr|env k j d s' Hj Ho Hr|k j reason now Hj Ho|k f Hf];
    try (cbn; lia).
  - apply Hs.
  - apply recompute_payments in Hr as [_ ->]. cbn. lia.
  - apply recompute_payments in Hr as [_ ->]. cbn. lia.
  - apply recompute_payments in Hr as [_ ->]. cbn. lia.
  - apply recompute_payments in Hr as [_ ->]. cbn. lia.
Qed.

Lemma steps_next b b' rs rs' :
  rtc bill_step {| sy_store := b; sy_runs := rs |} {| sy_store := b'; sy_runs := rs' |} -> (bs_nextId b <= bs_nextId b')%nat.
Proof. intros H%bill_steps_change. cbn in H. induction H as [|s s1 s2 H _ IH]; [lia|]. apply ichange_next in H. lia. Qed.

(** An issued invoice through any billing steps. *)
Lemma steps_frozen b b' rs rs' id i :
  bill_wf b -> rtc bill_step {| sy_store := b; sy_runs := rs |} {| sy_store := b'; sy_runs := rs' |} ->
  bs_invoices b !! id = Some i -> iv_status i <> inv_draft -> frozen_in i b' id.
Proof.
  intros Hw H%bill_steps_change. cbn in H. revert i. induction H as [s|s s1 s2 H _ IH]; intros i Hi Hd; [by apply frozen_refl|].
  destruct (row_frozen _ _ _ _ Hw H Hi Hd) as (i1 & Hi1 & Hd1 & S1).
  destruct (IH (wf_preserved _ _ Hw H) i1 Hi1 Hd1) as (i2 & Hi2 & Hd2 & S2). exists i2. split_and!; [done|done|].
  destruct S1, S2. unfold same_bill. destruct_and!. split_and!; congruence.
Qed.

(** ** The amount shown *)

(** What a quote shows as due on acceptance. *)
Definition due_total (id : nat) (h : QuoteHead) (s : QuoteStore) : Decimal :=
  qt_dueOnAcceptanceTotal (computeQuoteTotals (math_lines id s) (Number <$> qh_taxRate h) (Some (deposit_of h))).

Lemma due_perm ls ls' r d : ls ≡ₚ ls' -> qt_dueOnAcceptanceTotal (computeQuoteTotals ls r d) = qt_dueOnAcceptanceTotal (computeQuoteTotals ls' r d).
Proof.
  intros H. destruct (figures_perm _ _ sums0 H) as (F1 & _ & F3 & _). cbn. unfold dueOnAcceptance. by rewrite F1, F3.
Qed.

Lemma accept_amounts_math lines rate :
  am_total (accept_amounts (one_time_lines lines) rate) = total (acceptTotals (map (fun r => math_line r.2) lines) rate).
Proof.
  unfold accept_amounts, acceptTotals, one_time_lines. cbn [am_total]. f_equal. f_equal.
  induction lines as [|[k l] lines IH]; [done|]. cbn. unfold is_one_time at 1. cbn. destruct (bool_decide _ && _); cbn; by rewrite IH.
Qed.

Lemma invoiced_as_shown id s h :
  am_total (accept_amounts (one_time_lines (sorted_lines id s)) (qh_taxRate h)) = due_total id h s.
Proof.
  rewrite accept_amounts_math, <- (accepted_quote_is_invoiced_as_shown _ _ (Some (deposit_of h))). apply due_perm, sorted_math.
Qed.

Definition one_time_line (id : nat) (l : QuoteLine) : Prop :=
  qn_quoteId l = id /\ qn_recurrence l = one_time /\ qn_customerVisible l = true.

Definition has_one_time (id : nat) (s : QuoteStore) : Prop := exists k l, qt_lines s !! k = Some l /\ one_time_line id l.

Lemma has_one_time_lines id s : has_one_time id s -> one_time_lines (sorted_lines id s) <> [].
Proof.
  intros (k & l & Hl & Hq & Hr & Hv) E. assert (Hin : l ∈ one_time_lines (sorted_lines id s)); [|by rewrite E in Hin; inversion Hin].
  apply list_filter_elem. rewrite bool_decide_eq_true_2, Hv by done. split; [|done]. apply list_elem_of_fmap. exists (k, l). split; [done|].
  unfold sorted_lines. rewrite merge_sort_Permutation. apply list_filter_elem. split; [by apply elem_of_map_to_list|by apply bool_decide_eq_true_2].
Qed.

Lemma own_line_inv id o l : own_line id o = Some l -> exists l0, o = Some l0 /\ qn_quoteId l0 = id /\ content l0 = l.
Proof. unfold own_line. destruct o as [l0|]; cbn; [|done]. case_decide; [|done]. intros [= <-]. by exists l0. Qed.

(** A sent quote shows the same amount later. *)
Lemma as_sent_due id q h s s' : as_sent id q s s' -> due_total id h s' = due_total id h s /\ (has_one_time id s' -> has_one_time id s).
Proof.
  intros [_ _ Hl]. split.
  - apply due_perm, math_lines_perm. intros k. specialize (Hl k). unfold own_line, math_view in *.
    destruct (qt_lines s !! k) as [l|], (qt_lines s' !! k) as [l'|]; cbn in *; repeat case_decide; try congruence.
    assert (E : content l' = content l) by congruence. f_equal. exact (f_equal math_line (eq_sym E)).
  - intros (k & l & Hk & Hq & Hr & Hv). specialize (Hl k). rewrite Hk in Hl. cbn in Hl. rewrite decide_True in Hl by done. symmetry in Hl.
    apply own_line_inv in Hl as (l0 & Hl0 & Hq0 & E). exists k, l0. split; [done|]. unfold one_time_line. split_and!; [done|..].
    + pose proof (f_equal qn_recurrence E) as F. cbn in F. congruence.
    + pose proof (f_equal qn_customerVisible E) as F. cbn in F. congruence.
Qed.

(** ** The invariant *)

(** The invoice of a converted quote, when it has something to pay at once. *)
Definition billed_as (b : BillStore) (s : QuoteStore) (id : nat) (q : Quote) (inv : nat) : Prop :=
  has_one_time id s -> exists i, bs_invoices b !! inv = Some i /\ iv_status i <> inv_draft /\ iv_partnerId i = q_partnerId q
    /\ iv_orgId i = q_orgId q /\ iv_total i = due_total id (q_head q) s.

Record accepted_ok (b : BillStore) (s : QuoteStore) : Prop := {
  ao_conv : forall id q inv, qt_quotes s !! id = Some q -> qf_convertedInvoiceId (q_life q) = Some inv ->
    q_status q = qs_converted /\ (inv < bs_nextId b)%nat /\ billed_as b s id q inv;
  ao_row : forall k a, qt_acceptances s !! k = Some a ->
    (k < qt_nextId s)%nat /\ exists q inv, qt_quotes s !! qa_quoteId a = Some q /\ qf_convertedInvoiceId (q_life q) = Some inv;
  ao_once : forall k1 k2 a1 a2, qt_acceptances s !! k1 = Some a1 -> qt_acceptances s !! k2 = Some a2 ->
    qa_quoteId a1 = qa_quoteId a2 -> k1 = k2;
  ao_inv : forall id1 id2 q1 q2 inv, qt_quotes s !! id1 = Some q1 -> qt_quotes s !! id2 = Some q2 ->
    qf_convertedInvoiceId (q_life q1) = Some inv -> qf_convertedInvoiceId (q_life q2) = Some inv -> id1 = id2;
}.

(** Billing steps keep it. *)
Lemma accepted_bill b b' rs rs' s :
  bill_wf b -> rtc bill_step {| sy_store := b; sy_runs := rs |} {| sy_store := b'; sy_runs := rs' |} -> accepted_ok b s -> accepted_ok b' s.
Proof.
  intros Hw H [A B C D]. split; try done. intros id q inv Hq Hc. destruct (A _ _ _ Hq Hc) as (? & Hlt & Hbill).
  split; [done|]. split; [pose proof (steps_next _ _ _ _ H); lia|].
  intros Ho. destruct (Hbill Ho) as (i & Hi & Hd & E1 & E2 & E3).
  destruct (steps_frozen _ _ _ _ inv i Hw H Hi Hd) as (i' & Hi' & Hd' & F1 & F2 & _). exists i'.
  unfold iv_partnerId, iv_orgId, iv_total in *. rewrite F1, F2. by split_and!.
Qed.

Abbreviation conv q := (qf_convertedInvoiceId (q_life q)).

Lemma moves_converted st : quote_moves qs_converted st -> st = qs_converted.
Proof. inversion 1; done. Qed.

(** Converted quotes through a change. *)
Lemma change_converted s s' :
  quote_wf s -> qchange quote_moves s s' ->
  (forall id q' inv, qt_quotes s' !! id = Some q' -> conv q' = Some inv ->
     exists q, qt_quotes s !! id = Some q /\ conv q = Some inv /\ (q_status q = qs_converted -> q_status q' = qs_converted))
  /\ (forall id q inv, qt_quotes s !! id = Some q -> conv q = Some inv -> exists q', qt_quotes s' !! id = Some q' /\ conv q' = Some inv)
  /\ qt_acceptances s' = qt_acceptances s /\ (qt_nextId s <= qt_nextId s')%nat.
Proof.
  intros Hw H.
  assert (Hto : forall k, touches k s s' -> (forall q, qt_quotes s !! k = Some q -> conv q = None) ->
    (forall q, qt_quotes s' !! k = Some q -> conv q = None) ->
    (forall id q' inv, qt_quotes s' !! id = Some q' -> conv q' = Some inv ->
       exists q, qt_quotes s !! id = Some q /\ conv q = Some inv /\ (q_status q = qs_converted -> q_status q' = qs_converted))
    /\ (forall id q inv, qt_quotes s !! id = Some q -> conv q = Some inv -> exists q', qt_quotes s' !! id = Some q' /\ conv q' = Some inv)
    /\ qt_acceptances s' = qt_acceptances s /\ (qt_nextId s <= qt_nextId s')%nat).
  { intros k [A _ _ Hn Ha] H1 H2. split_and!; [|..|done|done].
    - intros id q' inv Hq Hc. destruct (decide (id = k)) as [->|Hne]; [by rewrite H2 in Hc|]. rewrite A in Hq by done. by exists q'.
    - intros id q inv Hq Hc. destruct (decide (id = k)) as [->|Hne]; [by rewrite H1 in Hc|]. exists q. by rewrite A. }
  destruct H as [s' (E1 & _ & _ & E2 & E3)|k s' Hk [Ht [(q & Hq & _ & Hc) _ _ _]] _|k s' [(q & Hq & _ & Hc) _ _ _] Ht Hn _ _|k q f Hq (_ & _ & _ & _ & _ & Hc) Hm].
  - rewrite E1. split_and!; eauto.
  - apply (Hto k); [done| |by intros q' Hq'; simplify_eq]. intros q' Hq'.
    destruct Hk as [->|[(q0 & Hq0 & _ & Hc0) _ _ _]]; [by rewrite fresh_quote in Hq'|by simplify_eq].
  - apply (Hto k); [done|by intros q' Hq'; simplify_eq|congruence].
  - cbn. split_and!; [|..|done|done].
    + intros id q' inv [(-> & q0 & Hq0 & ->)|[_ Hq']]%lookup_alter_Some Hi; [|by exists q']. simplify_eq. exists q.
      split_and!; [done|congruence|]. intros E. rewrite E in Hm. by apply moves_converted.
    + intros id q' inv Hq' Hi. destruct (decide (id = k)) as [->|Hne].
      * simplify_eq. exists (f q). rewrite lookup_alter_eq, Hq. split; [done|congruence].
      * exists q'. by rewrite lookup_alter_ne.
Qed.

(** Billing of a converted quote through any change of the quote tables. *)
Lemma billed_change b s s' id q q' inv :
  quote_wf s -> any_change quote_moves s s' -> qt_quotes s !! id = Some q -> q_status q = qs_converted ->
  qt_quotes s' !! id = Some q' -> billed_as b s id q inv -> billed_as b s' id q' inv.
Proof.
  intros Hw H Hq Hst Hq' Hb Ho. assert (Hs : as_sent id q s s') by (eapply change_as_sent; [done|done|done|congruence]).
  destruct (as_sent_due id q (q_head q) s s' Hs) as [Ed Hof]. destruct (Hb (Hof Ho)) as (i & Hi & Hd & E1 & E2 & E3).
  destruct Hs as [(x & Hx & _ & F1 & _ & F2 & _) _ _].
  assert (x = q') as -> by congruence. exists i. unfold q_orgId in *. rewrite F1, F2, Ed. by split_and!.
Qed.

Lemma accepted_change b s s' : quote_wf s -> qchange quote_moves s s' -> accepted_ok b s -> accepted_ok b s'.
Proof.
  intros Hw H [A B C D]. destruct (change_converted _ _ Hw H) as (H1 & H2 & Ea & En). split; rewrite ?Ea; [|..|done|].
  - intros id q' inv Hq' Hc. destruct (H1 _ _ _ Hq' Hc) as (q & Hq & Hc0 & Hs). destruct (A _ _ _ Hq Hc0) as (Hst & Hlt & Hb).
    split_and!; [by apply Hs|done|]. eapply billed_change; [done|by left|done|done|done|done].
  - intros k a Hk. destruct (B _ _ Hk) as (Hlt & q & inv & Hq & Hc). split; [lia|]. destruct (H2 _ _ _ Hq Hc) as (q' & ? & ?). by exists q', inv.
  - intros id1 id2 q1 q2 inv Hq1 Hq2 Hc1 Hc2. destruct (H1 _ _ _ Hq1 Hc1) as (x1 & ? & ? & _). destruct (H1 _ _ _ Hq2 Hc2) as (x2 & ? & ? & _).
    by eapply D.
Qed.

(** The invoice of the acceptance itself. *)
Lemma accept_bills env p b s b' s' r q :
  acceptQuote env p b s = Ok (b', s', r) -> qt_quotes s !! ap_quoteId p = Some q ->
  ar_invoiceId r = bs_nextId b /\ is_Some (bs_invoices b' !! ar_invoiceId r) /\ billed_as b' s (ap_quoteId p) q (ar_invoiceId r).
Proof.
  intros H Hq. apply accept_changes in H as (_ & q0 & specs & b1 & b2 & links & Hq0 & _ & Hi & _ & Hc & -> & _). simplify_eq.
  pose proof (convert_row (qe_bill env) q0 (one_time_lines (sorted_lines (ap_quoteId p) s)) (ap_actorUserId p) b) as (Hid & _ & i & Hrow & Ep & Eo & Et & Hd).
  rewrite Hi in Hid, Hrow. cbn [fst snd] in *. pose proof (create_contracts_same specs b1) as (Einv & _). rewrite Hc in Einv. cbn [fst snd] in Einv.
  rewrite <- Einv in Hrow. split_and!; [done|by eexists|]. intros Ho. exists i. split_and!; [done|by apply Hd, has_one_time_lines|done|done|].
  by rewrite Et, invoiced_as_shown.
Qed.

Lemma accepted_accept env p b s b' s' r :
  quote_wf s -> bill_wf b -> accept_clock env -> acceptQuote env p b s = Ok (b', s', r) -> accepted_ok b s ->
  accepted_ok (emitAcceptInvoiceIssued r b') s'.
Proof.
  intros Hw Hbw Hclk H Hok. pose proof (accept_steps _ _ _ _ _ _ _ [] Hbw Hclk H) as Hsteps.
  pose proof (bill_steps_wf _ _ _ _ Hbw Hsteps) as Hbw'. pose proof (accepted_bill _ _ _ _ _ Hbw Hsteps Hok) as [A B C D].
  pose proof H as [Hacc _]%accept_changes. pose proof Hacc as [(q & p' & now & Hq & Hopen & Eq) _ _ (row & Hrow & Ea) Hn].
  destruct (accept_bills _ _ _ _ _ _ _ _ H Hq) as (Hid & [i Hi] & Hb). set (B' := emitAcceptInvoiceIssued r b') in *.
  assert (Ei : bs_invoices B' = bs_invoices b') by (unfold B', emitAcceptInvoiceIssued; by case_match).
  destruct (converted_row p' (ar_invoiceId r) now q) as (K1 & _ & _ & K2 & K3 & K4).
  assert (Hnc : conv q = None).
  { destruct (conv q) as [k|] eqn:E; [|done]. destruct (A _ _ _ Hq E) as [Hs _]. by rewrite Hs in Hopen. }
  assert (Hany : any_change quote_moves s s') by (right; by eexists _, _).
  assert (Hold : forall k a, qt_acceptances s !! k = Some a -> qa_quoteId a <> ap_quoteId p).
  { intros k a Hk E. destruct (B _ _ Hk) as (_ & x & inv & Hx & Hc). rewrite E in Hx. congruence. }
  split; rewrite ?Eq, ?Ea.
  - intros id q' inv [[<- <-]|[Hne Hq']]%lookup_insert_Some Hc.
    + rewrite K4 in Hc. simplify_eq. split_and!; [done| |].
      * apply (wf_id _ Hbw' _ i). by rewrite Ei.
      * assert (Hs : as_sent (ap_quoteId p) q s s') by (eapply change_as_sent; [done|done|done|by intros E; rewrite E in Hopen]).
        destruct (as_sent_due _ q (q_head q) _ _ Hs) as [Ed Hof]. intros Ho. destruct (Hb (Hof Ho)) as (j & Hj & ? & ? & ? & ?).
        exists j. unfold q_orgId in *. rewrite Ei, K1, K2, Ed. by split_and!.
    + destruct (A _ _ _ Hq' Hc) as (? & ? & Hb'). split_and!; [done|done|].
      eapply billed_change; [done|exact Hany|exact Hq'|done| |done]. by rewrite Eq, lookup_insert_ne.
  - intros k a [[<- <-]|[_ Hk]]%lookup_insert_Some.
    + split; [done|]. rewrite Hrow, lookup_insert_eq. by eexists _, _.
    + destruct (B _ _ Hk) as (? & x & inv & Hx & Hc). split; [lia|]. exists x, inv. by rewrite lookup_insert_ne by (by apply not_eq_sym, (Hold k)).
  - intros k1 k2 a1 a2 [[<- <-]|[_ H1]]%lookup_insert_Some [[<- <-]|[_ H2]]%lookup_insert_Some E; [done|..|by eapply C].
    + destruct (Hold _ _ H2). congruence.
    + destruct (Hold _ _ H1). congruence.
  - assert (Hlt : forall id x inv, qt_quotes s !! id = Some x -> conv x = Some inv -> inv <> ar_invoiceId r).
    { intros id x inv Hx Hc. destruct (ao_conv _ _ Hok _ _ _ Hx Hc) as (_ & ? & _). lia. }
    intros id1 id2 q1 q2 inv [[<- <-]|[_ H1]]%lookup_insert_Some [[<- <-]|[_ H2]]%lookup_insert_Some C1 C2; [done|..|by eapply D];
      rewrite K4 in *; simplify_eq.
    + by destruct (Hlt _ _ _ H2 C2).
    + by destruct (Hlt _ _ _ H1 C1).
Qed.

Section billed.

Context (encrypt decrypt : option string -> result CryptoError (option string)).

Abbreviation step := (commerce_step encrypt decrypt in_order).

Lemma accepted_step x y :
  commerce_ok x -> step x y -> accepted_ok (ps_bill (co_pay x)) (co_quotes x) -> accepted_ok (ps_bill (co_pay y)) (co_quotes y).
Proof.
  intros Hx H Ha. pose proof (commerce_step_ok encrypt decrypt in_order quote_moves _ _ Hx H) as [_ Hsteps]. destruct Hx as [Hb Hq _].
  destruct H as [s' H|env p b' s' r Hc H|b' rs' maps' H Hat Hf|p' H].
  - apply (quote_step_changes in_order quote_moves _ _ Hq) in H. cbn in *. clear Hsteps. induction H as [|s s1 s2 H _ IH]; [done|].
    apply IH; [by eapply wf_qchange|by eapply accepted_change].
  - apply run_accept_inv in H as (p' & b1 & _ & H & ->). cbn. by eapply accepted_accept.
  - by eapply accepted_bill.
  - by eapply accepted_bill.
Qed.

Lemma accepted_run x y :
  commerce_ok x -> rtc step x y -> accepted_ok (ps_bill (co_pay x)) (co_quotes x) -> accepted_ok (ps_bill (co_pay y)) (co_quotes y).
Proof.
  intros Hx H. induction H as [|x y z H _ IH]; [done|]. intros Ha. apply IH; [|by eapply accepted_step].
  by apply (commerce_step_ok encrypt decrypt in_order quote_moves x y).
Qed.

(** C4: When view stamps and declines take effect at once, a quote is accepted at most once,
    whatever calls race for it through the public link and the portal; it is then converted,
    to an invoice of its own; and where it has one-time lines that invoice was issued, to the
    quote's organization, for exactly the amount the quote shows as due, and still stands
    whatever happened to the billing tables since. *)
Theorem accepted_quotes_are_billed_once time parts_ x :
  rtc step (commerce_start time parts_) x ->
  let b := ps_bill (co_pay x) in let s := co_quotes x in
  (forall k a, qt_acceptances s !! k = Some a ->
     exists q inv, qt_quotes s !! qa_quoteId a = Some q /\ q_status q = qs_converted /\ qf_convertedInvoiceId (q_life q) = Some inv
       /\ billed_as b s (qa_quoteId a) q inv)
  /\ (forall k1 k2 a1 a2, qt_acceptances s !! k1 = Some a1 -> qt_acceptances s !! k2 = Some a2 ->
       qa_quoteId a1 = qa_quoteId a2 -> k1 = k2)
  /\ (forall id1 id2 q1 q2 inv, qt_quotes s !! id1 = Some q1 -> qt_quotes s !! id2 = Some q2 ->
       qf_convertedInvoiceId (q_life q1) = Some inv -> qf_convertedInvoiceId (q_life q2) = Some inv -> id1 = id2).
Proof.
  intros H b s. assert (Ha : accepted_ok b s) by (eapply accepted_run; [apply start_ok_commerce|exact H|by split]).
  destruct Ha as [A B C D]. split_and!; [|done|done]. intros k a Hk. destruct (B _ _ Hk) as (_ & q & inv & Hq & Hc).
  destruct (A _ _ _ Hq Hc) as (? & _ & ?). by exists q, inv.
Qed.

End billed.
