(* ===== verification/AcceptTheorems.v ===== *)
(** * What an acceptance creates

    The lines of the invoice and of the contracts of an accepted quote. *)

From stdpp Require Import base gmap strings list option relations sorting.
From Stdlib Require Import ZArith Lia QArith.
From S2P Require Import Prelude Calendar Doubles Money Quotes SecretCrypto.
From S2P Require Import BillingStore Invoices Contracts Stripe QuoteStore QuoteService.
From S2P Require Import QuoteLifecycle QuoteAccept QuoteSystem QuoteTheorems.
From S2P Require Import BillingSystem BillingTheorems ContractTheorems Commerce.
Open Scope Z_scope.

(** ** Contract lines have fresh keys *)

Definition clines_ok (b : BillStore) : Prop :=
  forall k l, bs_contractLines b !! k = Some l -> (k < bs_nextId b /\ cl_contractId l < bs_nextId b)%nat.

Lemma clines_sub b b' :
  (forall k l, bs_contractLines b' !! k = Some l -> bs_contractLines b !! k = Some l) -> (bs_nextId b <= bs_nextId b')%nat ->
  clines_ok b -> clines_ok b'.
Proof. intros Hs Hn H k l Hl. apply Hs, H in Hl. lia. Qed.

Lemma clines_frame b b' : contract_frame b b' -> clines_ok b -> clines_ok b'.
Proof. intros (_ & E & _ & Hn). apply clines_sub; [|done]. by rewrite E. Qed.

Lemma renewal_step_lines today acc r : bs_contractLines (renewal_step today acc r).1.1 = bs_contractLines acc.1.1
  /\ bs_nextId (renewal_step today acc r).1.1 = bs_nextId acc.1.1.
Proof.
  destruct acc as [[s n] m], r as [id c].
  assert (Hclaim : forall i e k s0, bs_contractLines (claimNotice i e k s0).1 = bs_contractLines s0 /\ bs_nextId (claimNotice i e k s0).1 = bs_nextId s0).
  { intros i e k s0. unfold claimNotice. by case_bool_decide. }
  unfold renewal_step. destruct (ct_endDate c) as [e|]; [|done]. destruct (ct_renewalTermMonths c) as [t|]; [|done].
  assert (H1 : bs_contractLines (renewal_notice today id c e s).1 = bs_contractLines s /\ bs_nextId (renewal_notice today id c e s).1 = bs_nextId s).
  { unfold renewal_notice. destruct (isWithinNoticeWindow _ _ _); [|done]. specialize (Hclaim id e notice_advance s). by destruct (claimNotice _ _ _ s). }
  destruct (renewal_notice today id c e s) as [s1 k1]. cbn in H1. unfold renewal_extend.
  destruct (ct_nextBillingAt c) as [at_|]; [|done]. destruct (str_le at_ today); [|done].
  destruct (extendTermPastDue _ _ _) as [e' []]; [|done]. cbn.
  by destruct (Hclaim id e' notice_renewed (emit (contract_auto_renewed id) (alter_contract id (set_endDate (Some e')) s1))) as [-> ->].
Qed.

(** The lines a new contract gets, as consecutive rows. *)
Lemma spec_lines_rows id orgId ls b :
  let b' := (insert_spec_lines id orgId ls b).1 in
  bs_contractLines b' = insert_rows (bs_nextId b) (map (spec_contract_line id orgId) ls) (bs_contractLines b)
  /\ bs_contracts b' = bs_contracts b /\ bs_nextId b' = (bs_nextId b + length ls)%nat.
Proof.
  revert b. induction ls as [|l ls IH]; intros b; [cbn; split_and!; [done|done|lia]|]. cbn [insert_spec_lines insert_contract_line map].
  specialize (IH (bump_id (with_contractLines (<[bs_nextId b := spec_contract_line id orgId l]>) b))).
  destruct (insert_spec_lines id orgId ls _) as [b2 links]. cbn [fst] in *. destruct IH as (E1 & E2 & E3). rewrite E1, E2, E3. cbn.
  split_and!; [|done|lia]. apply (insert_rows_first (bs_nextId b)).
Qed.

Lemma create_spec_rows sp b :
  let '(b', id, _) := createContractWithLinesDetailed sp b in
  id = bs_nextId b /\ bs_contracts b' = <[id := spec_contract sp]> (bs_contracts b)
  /\ bs_contractLines b' = insert_rows (S id) (map (spec_contract_line id (nc_orgId sp)) (nc_lines sp)) (bs_contractLines b)
  /\ bs_nextId b' = (S id + length (nc_lines sp))%nat.
Proof.
  unfold createContractWithLinesDetailed. set (b1 := bump_id _). pose proof (spec_lines_rows (bs_nextId b) (nc_orgId sp) (nc_lines sp) b1) as (E1 & E2 & E3).
  destruct (insert_spec_lines _ _ _ b1) as [b2 links]. cbn [fst] in *. by rewrite E1, E2, E3.
Qed.

Lemma clines_spec sp b : clines_ok b -> clines_ok (createContractWithLinesDetailed sp b).1.1.
Proof.
  intros H. pose proof (create_spec_rows sp b) as Hc. destruct (createContractWithLinesDetailed sp b) as [[b' id] links].
  destruct Hc as (-> & _ & E & En). intros k l Hl. cbn in *. rewrite E, insert_rows_lookup, length_map in Hl. rewrite En. case_decide as Hk.
  - apply list_elem_of_lookup_2, list_elem_of_fmap in Hl as (x & -> & _). cbn. lia.
  - apply H in Hl. lia.
Qed.

Lemma clines_step x y : bill_step x y -> sched_inv x -> clines_ok (sy_store x) -> clines_ok (sy_store y).
Proof.
  destruct 1 as [s s' rs Hs|s s' rs Hs|s id c rs Hc|env s id c s' r rs1 rs2 Hk Hg|s run rs1 rs2]; intros Hi H; cbn in *; try done.
  - eapply clines_frame; [|done]. by apply uchanges_frame, invoice_step_changes.
  - destruct Hs as [env i actor s' id Hin Hc|id p actor s' Hp Hc|id actor s' Hc|id ty d item price q site tx sort actor s' l Hc|id l actor s' Hc
      |env id actor s' Hk Hc|id actor s' Hc|env id actor s' Hk Hc|id actor s' Hc|env|sp Hsp].
    + unfold createContract in Hc. result_ok Hc. destruct (be_orgPartner env (cn_orgId i)); [|done]. simplify_eq. by apply (clines_sub s); [|cbn; lia|].
    + unfold updateContract in Hc. apply rbind_Ok in Hc as (c & _ & Hc). result_ok Hc. by simplify_eq.
    + unfold deleteDraftContract in Hc. apply rbind_Ok in Hc as (c & _ & Hc). result_ok Hc. simplify_eq. apply (clines_sub s); [|cbn; lia|done].
      intros k l Hl. cbn in Hl. by apply map_lookup_filter_Some in Hl as [? _].
    + unfold addContractLineToContract in Hc. apply rbind_Ok in Hc as (c & Hc0%owned_spec & Hc). result_ok Hc. simplify_eq.
      intros k x Hx. cbn in *. apply lookup_insert_Some in Hx as [[<- <-]|[_ Hx]]; cbn; [pose proof (si_id _ Hi _ _ Hc0); cbn in *; lia|].
      apply H in Hx. lia.
    + unfold removeContractLine in Hc. apply rbind_Ok in Hc as (c & _ & Hc). result_ok Hc. simplify_eq. apply (clines_sub s); [|cbn; lia|done].
      intros k x Hx. cbn in Hx. by apply map_lookup_filter_Some in Hx as [? _].
    + unfold activateContract in Hc. apply rbind_Ok in Hc as (c & _ & Hc). result_ok Hc. by simplify_eq.
    + unfold pauseContract in Hc. apply rbind_Ok in Hc as (c & _ & Hc). result_ok Hc. by simplify_eq.
    + unfold resumeContract in Hc. apply rbind_Ok in Hc as (c & _ & Hc). result_ok Hc. by simplify_eq.
    + unfold cancelContract in Hc. apply rbind_Ok in Hc as (c & _ & Hc). case_bool_decide; by simplify_eq.
    + unfold runContractRenewalSweep. generalize (List.filter (fun r => renewal_candidate r.2) (map_to_list (bs_contracts s))).
      intros l. change s with ((s, 0%nat, 0%nat).1.1) in H. revert H. generalize (s, 0%nat, 0%nat).
      induction l as [|r l IH]; intros acc H; [done|]. cbn [fold_left]. apply IH. unfold clines_ok.
      by destruct (renewal_step_lines (iso_of_ms (be_now env)) acc r) as [-> ->].
    + by apply clines_spec.
  - apply generate_effect in Hg. unfold run_effect in Hg. destruct (ct_nextBillingAt c) as [at_|]; [|by destruct Hg as [-> _]].
    destruct (_ || _); [by destruct Hg as [-> _]|]. destruct (isExpired _ _); [by destruct Hg as [-> _]|].
    destruct r as [inv auto actor| | |]; try done; [|by destruct Hg as [Hg%uchanges_frame _]; eapply clines_frame|by subst].
    destruct Hg as (s2 & Hu%uchanges_frame & _ & _ & _ & _ & ->). apply (clines_frame _ _ Hu) in H. unfold advance_pointer. by case_match.
Qed.

Lemma reachable_clines time parts_ x :
  rtc bill_step {| sy_store := empty_bills time parts_; sy_runs := [] |} x -> clines_ok (sy_store x).
Proof.
  intros H. assert (H0 : sched_inv {| sy_store := empty_bills time parts_; sy_runs := [] |}) by (by split).
  assert (H1 : clines_ok (sy_store {| sy_store := empty_bills time parts_; sy_runs := [] |})) by by intros k l Hl.
  induction H as [|x y z Hxy _ IH]; [done|]. apply IH; [by apply (inv_step x)|by apply (clines_step x)].
Qed.

(** ** The contracts of an acceptance *)

Lemma inserted_other {A} (p : A -> bool) from rows (m : gmap nat A) :
  (forall k x, m !! k = Some x -> (k < from)%nat) -> Forall (fun x => p x = false) rows ->
  List.filter (fun r => p r.2) (map_to_list (insert_rows from rows m)) ≡ₚ List.filter (fun r => p r.2) (map_to_list m).
Proof.
  intros Hm Hr. revert from Hm. induction Hr as [|r rows Hr _ IH]; intros from Hm; [done|]. cbn.
  assert (Hn : insert_rows (S from) rows m !! from = None).
  { rewrite insert_rows_lookup, decide_False by lia. destruct (m !! from) eqn:E; [|done]. apply Hm in E. lia. }
  rewrite (map_to_list_insert _ _ r Hn). cbn. rewrite Hr. apply IH. intros k x Hx. apply Hm in Hx. lia.
Qed.

(** A contract that is there already. *)
Lemma create_spec_keeps sp b id :
  clines_ok b -> (id < bs_nextId b)%nat ->
  let b' := (createContractWithLinesDetailed sp b).1.1 in
  bs_contracts b' !! id = bs_contracts b !! id /\ contract_rows_of id b' ≡ₚ contract_rows_of id b /\ (bs_nextId b <= bs_nextId b')%nat.
Proof.
  intros Hc Hid. pose proof (create_spec_rows sp b) as H. destruct (createContractWithLinesDetailed sp b) as [[b' k] links]. cbn.
  destruct H as (-> & E1 & E2 & E3). split_and!; [rewrite E1; by rewrite lookup_insert_ne by lia| |lia].
  unfold contract_rows_of. rewrite E2. pose (p := fun l : ContractLine => bool_decide (cl_contractId l = id)). apply (inserted_other p).
  - intros j x Hx. apply Hc in Hx. lia.
  - apply Forall_forall. intros x (l & -> & _)%list_elem_of_fmap. apply bool_decide_eq_false. cbn. lia.
Qed.

(** The contract just made. *)
Lemma create_spec_makes sp b :
  clines_ok b ->
  let '(b', id, _) := createContractWithLinesDetailed sp b in
  bs_contracts b' !! id = Some (spec_contract sp) /\ (id < bs_nextId b')%nat
  /\ (contract_rows_of id b').*2 ≡ₚ map (spec_contract_line id (nc_orgId sp)) (nc_lines sp).
Proof.
  intros Hc. pose proof (create_spec_rows sp b) as H. destruct (createContractWithLinesDetailed sp b) as [[b' k] links].
  destruct H as (-> & E1 & E2 & E3). split_and!; [by rewrite E1, lookup_insert_eq|lia|].
  unfold contract_rows_of. rewrite E2. pose (p := fun l : ContractLine => bool_decide (cl_contractId l = bs_nextId b)). apply (inserted_rows p).
  - intros j x Hx. apply Hc in Hx. split; [lia|]. apply bool_decide_eq_false. lia.
  - apply Forall_forall. intros x (l & -> & _)%list_elem_of_fmap. by apply bool_decide_eq_true.
Qed.

(** Contract [id] is the one of the spec, with its lines. *)
Definition made (b : BillStore) (sp : NewContractSpec) (id : nat) : Prop :=
  bs_contracts b !! id = Some (spec_contract sp)
  /\ (contract_rows_of id b).*2 ≡ₚ map (spec_contract_line id (nc_orgId sp)) (nc_lines sp).

Lemma create_contracts_keeps specs b id :
  clines_ok b -> (id < bs_nextId b)%nat ->
  let b' := (create_contracts specs b).1.1 in
  bs_contracts b' !! id = bs_contracts b !! id /\ contract_rows_of id b' ≡ₚ contract_rows_of id b.
Proof.
  revert b. induction specs as [|sp specs IH]; intros b Hc Hid; [done|]. cbn [create_contracts].
  pose proof (create_spec_keeps sp b id Hc Hid) as (E1 & E2 & E3). pose proof (clines_spec sp b Hc) as Hc1.
  destruct (createContractWithLinesDetailed sp b) as [[b1 k] links]. cbn [fst] in *. specialize (IH b1 Hc1 ltac:(lia)).
  destruct (create_contracts specs b1) as [[b2 ids] links']. cbn [fst] in *. destruct IH as [F1 F2]. by rewrite F1, E1, F2, E2.
Qed.

Lemma create_contracts_made specs b b' ids links :
  clines_ok b -> create_contracts specs b = (b', ids, links) -> Forall2 (made b') specs ids.
Proof.
  revert b b' ids links. induction specs as [|sp specs IH]; intros b b' ids links Hc H; cbn in H; [simplify_eq; constructor|].
  pose proof (create_spec_makes sp b Hc) as Hm. pose proof (clines_spec sp b Hc) as Hc1.
  destruct (createContractWithLinesDetailed sp b) as [[b1 k] links1]. cbn [fst] in Hc1. destruct Hm as (M1 & Hk & M2).
  pose proof (create_contracts_keeps specs b1 k Hc1 Hk) as Hkeep.
  destruct (create_contracts specs b1) as [[b2 ids2] links2] eqn:E. simplify_eq. cbn [fst] in Hkeep. destruct Hkeep as [K1 K2].
  constructor; [|by eapply IH]. split; [by rewrite K1|]. by rewrite K2.
Qed.

(** The specs, one for each cadence that has visible lines, in the order of the cadences. *)
Definition specified (q : QuoteForContract) (start : string) (c : Z * list (nat * QuoteLine)) (sp : NewContractSpec) : Prop :=
  nc_intervalMonths sp = c.1 /\ nc_startDate sp = start /\ nc_orgId sp = fc_orgId q /\ nc_partnerId sp = fc_partnerId q
  /\ nc_lines sp = spec_lines c.2.

Lemma build_specs_all cs q lines start by_ specs :
  build_specs cs q lines start by_ = Ok specs ->
  Forall2 (specified q start) (List.filter (fun c => negb (bool_decide (c.2 = []))) (map (fun c => (c.1.2, cadence_group c.1.1 lines)) cs)) specs.
Proof.
  revert specs. induction cs as [|[[r n] label] cs IH]; intros specs H; cbn in H; [by simplify_eq|]. cbn [map List.filter fst snd].
  destruct (cadence_group r lines) as [|x g] eqn:Eg; [by apply IH|]. cbn.
  apply rbind_Ok in H as (e & He & H). apply rbind_Ok in H as (rest & Hr & H). simplify_eq. constructor; [done|by apply IH].
Qed.

(** The lines of the new invoice. *)
Lemma insert_lines_at ls b :
  bs_lines (insert_lines ls b) = insert_rows (bs_nextId b) ls (bs_lines b) /\ bs_contractLines (insert_lines ls b) = bs_contractLines b
  /\ (bs_nextId b <= bs_nextId (insert_lines ls b))%nat.
Proof.
  revert b. induction ls as [|l ls IH]; intros b; [cbn; split_and!; [done|done|lia]|]. cbn [insert_lines].
  destruct (IH (insert_line l b).1) as (E1 & E2 & E3). rewrite E1, E2. cbn in *. split_and!; [apply (insert_rows_first (bs_nextId b))|done|lia].
Qed.

(** The lines inserted with a new invoice are its lines. *)
Lemma new_invoice_lines i ls b :
  bill_wf b -> Forall (fun l => ln_invoiceId l = bs_nextId b) ls ->
  lines_of (bs_nextId b) (insert_lines ls (insert_invoice i b).1) ≡ₚ ls.
Proof.
  intros Hw Hls. unfold lines_of. destruct (insert_lines_at ls (insert_invoice i b).1) as (-> & _). cbn.
  rewrite <- (inserted_rows (fun l : InvoiceLine => bool_decide (ln_invoiceId l = bs_nextId b)) (S (bs_nextId b)) ls (bs_lines b)) at 2.
  - generalize (map_to_list (insert_rows (S (bs_nextId b)) ls (bs_lines b))). intros rows. apply reflexive_eq.
    induction rows as [|[k l] rows IH]; [done|]. cbn. case_bool_decide; cbn; by rewrite IH.
  - intros k l Hl. apply (wf_line _ Hw) in Hl as [? ?]. split; [lia|]. apply bool_decide_eq_false. lia.
  - eapply Forall_impl; [exact Hls|]. intros l Hl. by apply bool_decide_eq_true.
Qed.

Lemma convert_lines env q oneTime userId b :
  bill_wf b ->
  let r := convert_invoice env q oneTime userId b in
  lines_of (bs_nextId b) r.1 ≡ₚ imap (convert_line (bs_nextId b) (q_orgId q)) oneTime
  /\ bs_contractLines r.1 = bs_contractLines b /\ (bs_nextId b <= bs_nextId r.1)%nat.
Proof.
  intros Hw. unfold convert_invoice. set (ls := imap (convert_line (bs_nextId b) (q_orgId q)) oneTime).
  assert (Hls : Forall (fun l => ln_invoiceId l = bs_nextId b) ls) by (apply Forall_forall; by intros l (k & x & -> & _)%elem_of_lookup_imap).
  pose proof (new_invoice_lines (accept_draft q userId) ls b Hw Hls) as G.
  destruct (insert_lines_at ls (insert_invoice (accept_draft q userId) b).1) as (_ & E2 & E3). cbn in E2, E3, G.
  unfold insert_invoice. cbn zeta iota beta. cbn [fst]. fold ls.
  case_bool_decide; (split; [exact G|split; [exact E2|cbn; lia]]).
Qed.

(** ** What was quoted, and what becomes of it *)

(** The visible lines of the quote with one recurrence, each once, in the order of the quote. *)
Definition quoted (id : nat) (r : Recurrence) (s : QuoteStore) (rows : list (nat * QuoteLine)) : Prop :=
  NoDup rows.*1
  /\ (forall k l, (k, l) ∈ rows <-> qt_lines s !! k = Some l /\ qn_quoteId l = id /\ qn_recurrence l = r /\ qn_customerVisible l = true)
  /\ StronglySorted (fun x y => qn_sortOrder x.2 <= qn_sortOrder y.2) rows.

(** An invoice line that charges a quoted line. *)
Definition charges (invoiceId : nat) (orgId : string) (x : nat * QuoteLine) (l : InvoiceLine) : Prop :=
  ln_invoiceId l = invoiceId /\ ln_orgId l = orgId /\ ln_description l = qn_description x.2 /\ ln_catalogItemId l = qn_catalogItemId x.2
  /\ ln_quantity l = qn_quantity x.2 /\ ln_unitPrice l = qn_unitPrice x.2
  /\ ln_lineTotal l = computeLineTotal (qn_quantity x.2) (qn_unitPrice x.2)
  /\ ln_taxable l = qn_taxable x.2 /\ ln_customerVisible l = true.

(** The text of a recurring line: its name and its description, or the one it has. *)
Definition recurring_text (l : QuoteLine) : string :=
  match qn_name l, qn_description l with
  | Some n, Some d => match n, d with
                      | EmptyString, _ | _, EmptyString => n
                      | _, _ => (n ++ " — " ++ d)%string
                      end
  | Some n, None => n
  | None, Some d => d
  | None, None => EmptyString
  end.

(** A contract line that goes on charging a quoted line. *)
Definition recurs (contractId : nat) (orgId : string) (x : nat * QuoteLine) (l : ContractLine) : Prop :=
  cl_contractId l = contractId /\ cl_orgId l = orgId /\ cl_lineType l = manual /\ cl_description l = recurring_text x.2
  /\ cl_unitPrice l = qn_unitPrice x.2 /\ cl_manualQuantity l = Some (qn_quantity x.2) /\ cl_taxable l = qn_taxable x.2.

(** The draft contract of the lines of one cadence. *)
Definition contracted (q : Quote) (start : string) (b : BillStore) (cadence : Z * list (nat * QuoteLine)) (id : nat) : Prop :=
  exists c ls, bs_contracts b !! id = Some c /\ ct_status c = ct_draft /\ ct_intervalMonths c = cadence.1 /\ ct_startDate c = start
    /\ ct_orgId c = q_orgId q /\ ct_partnerId c = q_partnerId q
    /\ (contract_rows_of id b).*2 ≡ₚ ls /\ Forall2 (recurs id (q_orgId q)) cadence.2 ls
    /\ (forall i l, ls !! i = Some l -> cl_sortOrder l = Z.of_nat i).

Lemma filter_strongly {A} (R : A -> A -> Prop) (p : A -> bool) l : StronglySorted R l -> StronglySorted R (List.filter p l).
Proof.
  induction 1 as [|x l Hl IH Hx]; [constructor|]. cbn. destruct (p x); [|done]. constructor; [done|].
  apply Forall_forall. intros y [Hy _]%list_filter_elem. by eapply Forall_forall.
Qed.

Lemma filter_sublist {A} (p : A -> bool) l : sublist (List.filter p l) l.
Proof. induction l as [|x l IH]; [done|]. cbn. destruct (p x); by constructor. Qed.

#[local] Instance by_sort_trans : Transitive qn_by_sort.
Proof. intros x y z. unfold qn_by_sort. lia. Qed.

#[local] Instance by_sort_total : Total qn_by_sort.
Proof. intros x y. unfold qn_by_sort. lia. Qed.

Lemma group_quoted r id s : quoted id r s (cadence_group r (sorted_lines id s)).
Proof.
  unfold cadence_group. split_and!.
  - eapply sublist_NoDup; [|apply fmap_sublist, filter_sublist]. unfold sorted_lines. rewrite merge_sort_Permutation.
    eapply sublist_NoDup; [apply (NoDup_fst_map_to_list (qt_lines s))|]. apply fmap_sublist, filter_sublist.
  - intros k l. rewrite list_filter_elem. unfold sorted_lines. rewrite merge_sort_Permutation. unfold qlines_of. rewrite list_filter_elem, elem_of_map_to_list.
    rewrite andb_true_iff, !bool_decide_eq_true. cbn. naive_solver.
  - apply filter_strongly. apply (StronglySorted_merge_sort qn_by_sort).
Qed.

Lemma one_time_rows lines : one_time_lines lines = (cadence_group one_time lines).*2.
Proof.
  unfold one_time_lines, cadence_group. induction lines as [|[k l] lines IH]; [done|]. cbn. destruct (_ && _); cbn; by rewrite IH.
Qed.

Lemma line_label_text l : line_label l = recurring_text l.
Proof. unfold line_label, recurring_text. by destruct (qn_name l) as [[]|], (qn_description l) as [[]|]. Qed.

Lemma spec_lines_recur id orgId g :
  let ls := map (spec_contract_line id orgId) (spec_lines g) in
  Forall2 (recurs id orgId) g ls /\ (forall i l, ls !! i = Some l -> cl_sortOrder l = Z.of_nat i).
Proof.
  cbn. unfold spec_lines. change map with (@fmap list list_fmap). rewrite fmap_imap. split.
  - apply Forall2_same_length_lookup. rewrite length_imap. split; [done|]. intros i x l Hx. rewrite list_lookup_imap, Hx. intros [= <-].
    unfold recurs. cbn. by rewrite line_label_text.
  - intros i l. rewrite list_lookup_imap. destruct (g !! i); [|done]. by intros [= <-].
Qed.

Lemma convert_line_charges id orgId (g : list (nat * QuoteLine)) :
  let ls := imap (convert_line id orgId) g.*2 in
  Forall2 (charges id orgId) g ls /\ (forall i l, ls !! i = Some l -> ln_sortOrder l = Z.of_nat i).
Proof.
  cbn. split.
  - apply Forall2_same_length_lookup. rewrite length_imap, length_fmap. split; [done|]. intros i x l Hx.
    rewrite list_lookup_imap, list_lookup_fmap, Hx. by intros [= <-].
  - intros i l. rewrite list_lookup_imap. destruct (_ !! i); [|done]. by intros [= <-].
Qed.

(** The contract made from a spec holds the lines of its cadence. *)
Lemma made_contracted b q start cadence sp id :
  specified {| fc_orgId := q_orgId q; fc_partnerId := q_partnerId q; fc_quoteNumber := EmptyString; fc_terms := None |} start cadence sp ->
  made b sp id -> contracted q start b cadence id.
Proof.
  intros (E1 & E2 & E3 & E4 & E5) [M1 M2]. cbn in E3, E4. rewrite E3, E5 in M2.
  destruct (spec_lines_recur id (q_orgId q) cadence.2) as [Hf Hs]. eexists _, _. split_and!; [exact M1|done|exact E1|exact E2|exact E3|exact E4|exact M2|exact Hf|exact Hs].
Qed.

(** C23: An acceptance loses no line and bills none twice. The lines of the new invoice are the
    quote's visible one-time lines: one for each, in the quote's order, with its description,
    quantity and unit price, and a total computed from these. The new contracts are one draft
    for the visible monthly lines, with an interval of 1 month, and one for the visible annual
    lines, with an interval of 12, each only if there are such lines, both of the quote's
    organization and partner and starting today; the lines of a contract are those lines: one
    for each, in the quote's order, with its text, quantity and unit price. *)
Theorem acceptance_bills_every_line time parts_ rs env p b s b' s' r q :
  rtc bill_step {| sy_store := empty_bills time parts_; sy_runs := [] |} {| sy_store := b; sy_runs := rs |} ->
  acceptQuote env p b s = Ok (b', s', r) -> qt_quotes s !! ap_quoteId p = Some q ->
  exists once months years,
    quoted (ap_quoteId p) one_time s once /\ quoted (ap_quoteId p) monthly s months /\ quoted (ap_quoteId p) annual s years
    /\ (exists ls, lines_of (ar_invoiceId r) b' ≡ₚ ls /\ Forall2 (charges (ar_invoiceId r) (q_orgId q)) once ls
          /\ (forall i l, ls !! i = Some l -> ln_sortOrder l = Z.of_nat i))
    /\ Forall2 (contracted q (iso_of_ms (qe_now env)) b')
         (List.filter (fun c => negb (bool_decide (c.2 = []))) [(1, months); (12, years)]) (ar_contractIds r).
Proof.
  intros Hreach H Hq. set (lines := sorted_lines (ap_quoteId p) s). pose proof (reachable_clines _ _ _ Hreach) as Hc. cbn in Hc.
  assert (Hw : bill_wf b) by (apply reachable_wf; by exists time, parts_, rs).
  apply accept_changes in H as (_ & q0 & specs & b1 & b2 & links & Hq0 & _ & Hi & Hs & Hcc & -> & _). simplify_eq.
  destruct (convert_row (qe_bill env) q0 (one_time_lines lines) (ap_actorUserId p) b) as (Hid & _).
  destruct (convert_lines (qe_bill env) q0 (one_time_lines lines) (ap_actorUserId p) b Hw) as (Hl & Ecl & Hn).
  fold lines in Hi. rewrite Hi in Hid, Hl, Ecl, Hn. cbn [fst snd] in *.
  pose proof (create_contracts_same specs b1) as (_ & El & _). rewrite Hcc in El. cbn [fst] in El.
  exists (cadence_group one_time lines), (cadence_group monthly lines), (cadence_group annual lines).
  split_and!; [apply group_quoted|apply group_quoted|apply group_quoted| |].
  - destruct (convert_line_charges (ar_invoiceId r) (q_orgId q0) (cadence_group one_time lines)) as [Hf Ho].
    eexists. split_and!; [|exact Hf|exact Ho]. unfold lines_of. rewrite El, <- one_time_rows, Hid. exact Hl.
  - assert (Hc1 : clines_ok b1) by (apply (clines_sub b); [by rewrite Ecl|done|done]).
    pose proof (create_contracts_made specs b1 b2 _ _ Hc1 Hcc) as Hmade. apply build_specs_all in Hs. cbn [map CADENCES fst snd] in Hs.
    eapply Forall2_trans; [|exact Hs|exact Hmade]. intros c sp id Hsp Hm. eapply made_contracted; [exact Hsp|exact Hm].
Qed.
