(* ===== verification/CommerceBehaviour.v ===== *)
(** * Quotes and Stripe: further behaviour

    The term of an accepted quote, checkouts that are paid, the undo window, what the
    guards around captures and refunds refuse, what overlapping calls can do, and runs on
    given data. *)

From stdpp Require Import base gmap strings list option relations sorting.
From Stdlib Require Import Ascii ZArith Lia QArith Lqa.
From S2P Require Import Prelude Calendar Doubles Money Quotes SecretCrypto.
From S2P Require Import BillingStore Invoices Contracts Stripe QuoteStore QuoteService.
From S2P Require Import QuoteLifecycle QuoteAccept QuoteSystem QuoteTheorems.
From S2P Require Import BillingSystem BillingTheorems ContractTheorems BillingBehaviour.
From S2P Require Import Commerce CommerceTheorems AcceptTheorems.
Open Scope Z_scope.

(** ** The term of an accepted quote *)

Definition len_at (i : Z) : Z := month_len (index_year i) (index_month i).

(** The end of a term: the day itself, or the days left over in the month after. *)
Lemma addMonthsToDate_in_month start i0 d0 t e :
  in_month start i0 d0 -> 1 <= t -> index_ok (i0 + t + 1) -> addMonthsToDate start t = Some e ->
  if d0 <=? len_at (i0 + t) then in_month e (i0 + t) d0 else in_month e (i0 + t + 1) (d0 - len_at (i0 + t)).
Proof.
  intros Hs Ht Hok H. pose proof (in_month_ok _ _ _ Hs) as Hok0. pose proof (in_month_day _ _ _ Hs) as Hd.
  unfold addMonthsToDate in H. destruct (_ || _); [done|]. rewrite (parts_date _ _ _ _ Hs) in H.
  rewrite (date_UTC_day _ _ _ _ Hs) in H. pose proof Hs as (_ & Hy & Hm & Hlen).
  destruct (month_of_spec (index_year i0) (index_month i0) d0 Hm Hlen) as (Y1 & Y2 & Y3). fold (day_number (index_year i0) (index_month i0) d0) in Y1, Y2, Y3.
  set (base := day_number _ _ _) in *. rewrite Y1, Y3 in H. replace (month_of base) with (index_month i0 - 1) in H by lia.
  assert (E : make_day (index_year i0) (index_month i0 - 1 + t) d0
    = day_from_year (index_year (i0 + t)) + days_before_month (is_leap (index_year (i0 + t))) (index_month (i0 + t) - 1) + d0 - 1).
  { unfold make_day. replace (index_year i0 + (index_month i0 - 1 + t) / 12) with (index_year (i0 + t)) by (unfold index_year, index_month; div_lia).
    replace ((index_month i0 - 1 + t) mod 12) with (index_month (i0 + t) - 1) by (unfold index_month; div_lia). done. }
  rewrite E in H. clear E. set (Y := index_year (i0 + t)) in *. set (M := index_month (i0 + t)) in *.
  pose proof (index_month_range (i0 + t)) as HM. fold M in HM.
  assert (HY : 1000 <= Y <= 9999) by (unfold Y, index_ok, index_year in *; div_lia).
  unfold len_at. fold Y M. destruct (Z.leb_spec d0 (month_len Y M)) as [Hfit|Hover].
  - destruct (month_of_spec Y M d0 HM ltac:(lia)) as (Z1 & Z2 & Z3). injection H as <-. rewrite Z1, Z2, Z3.
    unfold in_month. fold Y M. split_and!; try done; lia.
  - assert (HM' : M < 12).
    { destruct (Z.eq_dec M 12) as [E|]; [|lia]. assert (L : month_len Y 12 = 31) by (unfold month_len; by destruct (is_leap Y)).
      rewrite E, L in Hover. lia. }
    pose proof (month_len_range Y M HM). pose proof (month_len_range Y (M + 1) ltac:(lia)).
    destruct (month_of_spec Y (M + 1) (d0 - month_len Y M)) as (Z1 & Z2 & Z3); [lia|lia|].
    replace (day_from_year Y + days_before_month (is_leap Y) (M + 1 - 1) + (d0 - month_len Y M) - 1)
      with (day_from_year Y + days_before_month (is_leap Y) (M - 1) + d0 - 1) in Z1, Z2, Z3
      by (unfold month_len; replace (M + 1 - 1) with M by lia; lia).
    injection H as <-. rewrite Z1, Z2, Z3. unfold in_month.
    replace (index_year (i0 + t + 1)) with Y by (unfold Y, M, index_year, index_month in *; div_lia).
    replace (index_month (i0 + t + 1)) with (M + 1) by (unfold Y, M, index_year, index_month in *; div_lia). split_and!; try done; lia.
Qed.

(** A monthly contract made from an accepted quote with a term of [t] months bills
    exactly [t] periods when the day of acceptance exists in the month the term ends in, and
    one period more when it does not: the end of the term rolls over into the next month
    while the periods are cut to the month. *)
Lemma short_month_bills_one_period_more start i0 d0 t e k :
  in_month start i0 d0 -> 1 <= t -> index_ok (i0 + t + 1) -> addMonthsToDate start t = Some e -> 0 <= k <= t + 1 ->
  isExpired (Some e) (periodStart (computePeriod start 1 k)) = (if d0 <=? len_at (i0 + t) then t <=? k else t + 1 <=? k).
Proof.
  intros Hs Ht Hok H Hk. pose proof (addMonthsToDate_in_month _ _ _ _ _ Hs Ht Hok H) as He. pose proof (in_month_ok _ _ _ Hs) as Hok0.
  pose proof (in_month_day _ _ _ Hs) as Hd.
  assert (Hp : in_month (periodStart (computePeriod start 1 k)) (i0 + k) (clamped d0 (i0 + k))).
  { replace (i0 + k) with (i0 + 1 * k) by lia. apply period_in_month; [done|]. unfold index_ok in *. lia. }
  cbn [isExpired]. unfold str_le. destruct (Z.leb_spec d0 (len_at (i0 + t))) as [Hfit|Hover]; rewrite (month_compare _ _ _ _ _ _ He Hp).
  - destruct (Z.compare_spec (i0 + t) (i0 + k)) as [E|E|E]; destruct (Z.leb_spec t k); try lia; [|done..].
    replace (i0 + k) with (i0 + t) by lia. unfold clamped. fold (len_at (i0 + t)). rewrite Z.min_l by done. by rewrite Z.compare_refl.
  - destruct (Z.compare_spec (i0 + t + 1) (i0 + k)) as [E|E|E]; destruct (Z.leb_spec (t + 1) k); try lia; [|done..].
    replace (i0 + k) with (i0 + t + 1) by lia. unfold clamped. fold (len_at (i0 + t + 1)).
    pose proof (month_len_range (index_year (i0 + t)) _ (index_month_range (i0 + t))) as L1.
    pose proof (month_len_range (index_year (i0 + t + 1)) _ (index_month_range (i0 + t + 1))) as L2. fold (len_at (i0 + t)) in L1. fold (len_at (i0 + t + 1)) in L2.
    destruct (Z.compare_spec (d0 - len_at (i0 + t)) (Z.min d0 (len_at (i0 + t + 1)))); done || lia.
Qed.

Lemma short_month_witness :
  isExpired (addMonthsToDate "2026-01-31" 1) (periodStart (computePeriod "2026-01-31" 1 1)) = false
  /\ addMonthsToDate "2026-01-31" 1 = Some "2026-03-03"%string.
Proof.
  assert (E : addMonthsToDate "2026-01-31" 1 = Some "2026-03-03"%string) by (vm_compute; reflexivity).
  assert (Hm : in_month "2026-01-31" (2026 * 12) 31) by by_eval. assert (Hok : index_ok (2026 * 12 + 1 + 1)) by by_eval.
  split; [|exact E]. rewrite E.
  exact (short_month_bills_one_period_more "2026-01-31" (2026 * 12) 31 1 "2026-03-03" 1 Hm ltac:(lia) Hok E ltac:(lia)).
Defined.

(** ** What the guards of the mappings refuse *)

(** Losing the payment of a succeeded mapping violates its constraint. *)
Lemma fk_refuses b maps oid m pid :
  maps !! oid = Some m -> sm_status m = sp_succeeded -> sm_invoicePaymentId m = Some pid ->
  is_Some (bs_invoices b !! sm_invoiceId m) -> bs_payments b !! pid = None -> fk_actions b maps = Err CONSTRAINT_VIOLATED.
Proof.
  intros Hm Hs Hl Hi Hp. unfold fk_actions. set (kept := filter _ maps).
  assert (Hk : kept !! oid = Some m) by (by apply map_lookup_filter_Some).
  destruct (forallb _ _) eqn:E; [|done]. rewrite forallb_forall in E. specialize (E m). exfalso.
  assert (Hin : In m (map_to_list kept).*2).
  { apply list_elem_of_In, list_elem_of_fmap. exists (oid, m). split; [done|]. by apply elem_of_map_to_list. }
  specialize (E Hin). unfold orphaned, succeeded_has_payment in E. rewrite Hl, Hp in E. cbn in E. by rewrite Hs in E.
Qed.

(** The full refund of a captured charge can never be reflected: the delete of the
    payment sets the link of its mapping to null while the mapping is still marked
    succeeded, which its constraint refuses, every time the event is delivered; for the
    same reason such a payment cannot be voided by hand. *)
Lemma full_refund_is_refused env inp p oid m pid i :
  by_payment_intent (rf_paymentIntentId inp) p = Some (oid, m) -> sm_status m = sp_succeeded -> sm_invoicePaymentId m = Some pid ->
  bs_invoices (ps_bill p) !! sm_invoiceId m = Some i ->
  truthy (Some (rf_accountId inp)) = true -> rf_accountId inp = sm_stripeAccountId m ->
  rf_chargeAmountCents inp <= rf_amountRefundedCents inp ->
  reflectStripeRefund env inp p = Err CONSTRAINT_VIOLATED
  /\ forall actor b', voidPayment env pid actor (ps_bill p) = Ok b' -> fk_actions b' (ps_maps p) = Err CONSTRAINT_VIOLATED.
Proof.
  intros Hp Hs Hl Hi Ht Ha Hle. pose proof (by_intent_lookup _ _ _ _ Hp) as Hm. split.
  - unfold reflectStripeRefund. rewrite Hp, Hl, Ht, bool_decide_eq_true_2 by done. cbn [negb orb].
    rewrite (proj2 (Z.leb_le _ _)) by done. unfold delete_payment.
    rewrite (fk_refuses (with_payments (delete pid) (ps_bill p)) _ oid m pid Hm Hs Hl); [done|by exists i|apply lookup_delete_eq].
  - intros actor b' H. unfold voidPayment in H. destruct (bs_payments (ps_bill p) !! pid) as [py|]; [|done].
    do 2 apply rbind_Ok in H as (? & _ & H). apply rbind_Ok in H as (b1 & Hb & H). injection H as <-.
    apply recompute_spec in Hb as (j & paid & st & Hj & _ & _ & ->). apply (fk_refuses _ _ oid m pid Hm Hs Hl); cbn; [|apply lookup_delete_eq].
    apply lookup_alter_is_Some. by rewrite Hi.
Qed.

(** ** Zero-decimal currencies *)

Lemma fraction_rounds_up c : 0 <= c -> c <= minor_max -> 50 < c mod 100 -> math_round (Number (money c)) = c / 100 + 1.
Proof.
  intros H0 Hmax Hm. destruct (money_value c H0) as [Hv Hx]. pose proof (rel_read _ Hx) as (_ & _ & L & U). fold (Number (money c)) in L, U.
  unfold math_round. set (y := Number (money c)) in *. rewrite Hv in L, U. unfold ulp53 in L, U.
  assert (E : (inject_Z c == 100 * inject_Z (c / 100) + inject_Z (c mod 100))%Q).
  { rewrite <- (inject_Z_mult 100), <- inject_Z_plus. apply inject_Z_injective. apply Z.div_mod. lia. }
  assert (F1 : (51 <= inject_Z (c mod 100))%Q) by (change 51%Q with (inject_Z 51); rewrite <- Zle_Qle; lia).
  assert (F2 : (inject_Z (c mod 100) <= 99)%Q) by (change 99%Q with (inject_Z 99); rewrite <- Zle_Qle; pose proof (Z.mod_pos_bound c 100); lia).
  assert (F3 : (0 <= inject_Z c <= 99999999)%Q).
  { change 0%Q with (inject_Z 0). change 99999999%Q with (inject_Z 99999999). unfold minor_max in Hmax. by rewrite <- !Zle_Qle. }
  apply floor_unique; rewrite ?inject_Z_plus; change (inject_Z 1) with 1%Q; lra.
Qed.

(** An invoice in a zero-decimal currency whose balance has more than half a unit after the
    point is charged the next whole unit, and the capture of that charge is refused as an
    overpayment. *)
Lemma fractional_zero_decimal_is_refused i inp m c :
  isZeroDecimal (iv_currencyCode i) = true -> 0 <= c -> c <= minor_max -> 50 < c mod 100 ->
  il_balance (iv_life i) = money c -> chargeNow i = (money c, false) ->
  cap_amount inp = fromMinorUnits (chargeMinor i) (iv_currencyCode i) -> capture_refused inp m i = true.
Proof.
  intros Hz H0 Hmax Hm Hb Hc Ha. unfold capture_refused. rewrite Ha. unfold chargeMinor, toMinorUnits. rewrite Hc, Hz. cbn [fst].
  rewrite fraction_rounds_up, Hb by done. rewrite fromMinor_money by (unfold minor_max in *; div_lia). unfold minor_cents. rewrite Hz.
  rewrite !toCents_exact by (unfold cents_ok, minor_max in *; div_lia).
  rewrite (proj2 (Z.ltb_lt _ _)) by div_lia. by rewrite !orb_true_r.
Qed.

(** ** The undo window *)

Lemma holds_job_inv job q : holds_job job q = true -> q_status q = qs_draft /\ send_job q = Some job.
Proof. unfold holds_job. intros H. by bool_hyps. Qed.

(** Of an undo and the job it undoes, the first wins: after the undo the job does nothing,
    and after a send the undo reports that it came too late. *)
Lemma undo_or_send env env' id actor actor' to_ mailed job s q :
  qt_quotes s !! id = Some q -> holds_job job q = true -> truthy (Some job) = true -> assertQuoteAccess actor q = Ok tt ->
  (exists s1, cancelQuoteSend env id actor s = Ok (s1, true) /\ processQuoteSendJob env' id job actor' to_ mailed s1 = s1)
  /\ forall claimed s2, sendQuote env' id actor' to_ claimed = Ok s2 ->
       (forall q2, qt_quotes s2 !! id = Some q2 -> assertQuoteAccess actor q2 = Ok tt -> cancelQuoteSend env id actor s2 = Ok (s2, false)).
Proof.
  intros Hq Hj Ht Ha. destruct (holds_job_inv _ _ Hj) as [Hd Hs]. split.
  - eexists. split.
    + unfold cancelQuoteSend, getQuote, getOwnedQuote. rewrite Hq. cbn [rbind]. rewrite Ha. cbn [rbind rd_quote]. rewrite Hs, Ht, Hj. reflexivity.
    + unfold processQuoteSendJob. cbn. rewrite lookup_alter_eq, Hq. cbn. unfold holds_job. cbn. by rewrite andb_false_r.
  - intros claimed s2 H q2 Hq2 Ha2. unfold cancelQuoteSend, getQuote, getOwnedQuote. rewrite Hq2. cbn [rbind]. rewrite Ha2. cbn [rbind rd_quote].
    unfold sendQuote in H. apply rbind_Ok in H as (r & Hr & H). apply getQuote_spec in Hr as (Hqr & _). do 4 apply rbind_Ok in H as (? & _ & H).
    destruct (send_number env' (rd_quote r) claimed) as [s1 n] eqn:En.
    assert (Eq : qt_quotes s1 = qt_quotes claimed).
    { unfold send_number in En. case_match; simplify_eq; [done|]. by destruct (allocateQuoteCounter _ _ _) eqn:E; injection E as <- <-; simplify_eq. }
    injection H as <-. cbn in Hq2. rewrite lookup_alter_eq, Eq, Hqr in Hq2. injection Hq2 as <-. done.
Qed.

(** ** A paid checkout *)

Lemma upper_lower s : toUpperCase (toUpperCase (toLowerCase s)) = toUpperCase s.
Proof.
  induction s as [|c s IH]; [done|]. cbn. f_equal; [|exact IH]. clear IH s.
  destruct c as [[] [] [] [] [] [] [] []]; vm_compute; reflexivity.
Qed.

Lemma zero_lower s : isZeroDecimal (toUpperCase (toLowerCase s)) = isZeroDecimal s.
Proof. unfold isZeroDecimal. by rewrite upper_lower. Qed.

Section checkout.

Context (decrypt : option string -> result CryptoError (option string)).

(** The session Stripe reports once the customer has paid what was asked for. *)
Definition paid_session (id : nat) (i : Invoice) (sn : CreatedSession) (pi : string) : StripeSession :=
  {| ss_id := cs_id sn; ss_paid := true; ss_payment_intent := Some pi;
     ss_amount_total := Some (cq_unit_amount (checkout_request id i)); ss_currency := Some (cq_currency (checkout_request id i)) |}.

Lemma settle_client env api partner session p key acct sn :
  getPartnerStripeClient decrypt partner p = Ok (key, acct) -> api_retrieve api key session = Some sn ->
  settleCheckoutSession decrypt env api partner session p =
    match session_capture acct sn with
    | None => Ok (p, false)
    | Some inp => let! r := recordStripePayment env inp p in Ok (r.1, true)
    end.
Proof. unfold settleCheckoutSession. intros -> H. cbn [rbind fst snd]. by rewrite H. Qed.

(** The capture of a session that may be recorded. *)
Lemma capture_records env inp p m i :
  ps_maps p !! cap_objectId inp = Some m -> sm_invoicePaymentId m = None -> bs_invoices (ps_bill p) !! sm_invoiceId m = Some i ->
  capture_refused inp m i = false -> 0 < units (toFixed 2 (Number (cap_amount inp))) ->
  exists b', recordStripePayment env inp p
      = Ok (with_maps (alter (set_mapping (Some (bs_nextId (ps_bill p))) sp_succeeded (Some (cap_paymentIntentId inp)) (be_now env)) (cap_objectId inp))
              (with_bill b' p), sm_invoiceId m)
    /\ bs_payments b' = <[bs_nextId (ps_bill p) := {| py_invoiceId := sm_invoiceId m; py_amount := toFixed 2 (Number (cap_amount inp));
                                                     py_recordedBy := None |}]> (bs_payments (ps_bill p)).
Proof.
  intros Hm Hl Hi Hr Hu. unfold recordStripePayment, capture_read. rewrite Hm, Hl, Hi. cbn [rbind capture_write]. rewrite Hr.
  destruct (capture_payment env (sm_invoiceId m) (cap_amount inp) (ps_bill p)) as [[b' pid]|e] eqn:E.
  - exists b'. cbn. apply capture_payment_spec in E as [-> Eb]. done.
  - exfalso. unfold capture_payment, recomputeInvoiceStatus, getOwnedInvoiceOr404 in E. rewrite (proj2 (Z.ltb_lt _ _)) in E by done.
    cbn in E. by rewrite Hi in E.
Qed.

(** When a payable invoice in a two-decimal currency is sent to checkout and the customer
    pays what was asked, settling the session records a payment of exactly the deposit or
    balance charged, linked to the session, and settling it again changes nothing. *)
Lemma paid_checkout_is_recorded env api now id i actor p key acct sn url pi c B :
  bs_invoices (ps_bill p) !! id = Some i -> requireOrgAccess actor (iv_orgId i) = Ok tt -> requireSiteAccess actor (iv_siteId i) = Ok tt ->
  PAYABLE (iv_status i) = true -> isZeroDecimal (iv_currencyCode i) = false ->
  (chargeNow i).1 = money c -> 0 < c <= minor_max -> il_balance (iv_life i) = money B -> c <= B -> cents_ok B ->
  getPartnerStripeClient decrypt (iv_partnerId i) p = Ok (key, acct) -> truthy (Some acct) = true ->
  api_create api now key (checkout_request id i) = Some sn -> cs_url sn = Some url -> truthy (Some url) = true ->
  ps_maps p !! cs_id sn = None ->
  api_retrieve api key (cs_id sn) = Some (paid_session id i sn pi) -> truthy (Some pi) = true ->
  exists p1 p2 m pid,
    createInvoicePayLink decrypt api now id actor p = Ok (p1, url)
    /\ settleCheckoutSession decrypt env api (iv_partnerId i) (cs_id sn) p1 = Ok (p2, true)
    /\ ps_maps p2 !! cs_id sn = Some m /\ sm_status m = sp_succeeded /\ sm_invoicePaymentId m = Some pid
    /\ bs_payments (ps_bill p2) !! pid = Some {| py_invoiceId := id; py_amount := money c; py_recordedBy := None |}
    /\ settleCheckoutSession decrypt env api (iv_partnerId i) (cs_id sn) p2 = Ok (p2, true).
Proof.
  intros Hi Ho Hs Hpay Hz Hc Hcb HB Hle HBok Hk Ha Hcr Hu Htu Hn Hrt Hpi.
  assert (Hminor : chargeMinor i = c).
  { unfold chargeMinor, toMinorUnits. rewrite Hz, Hc. apply (toCents_exact c). unfold cents_ok, minor_max in *. lia. }
  set (m0 := {| sm_orgId := iv_orgId i; sm_invoiceId := id; sm_invoicePaymentId := None; sm_stripeAccountId := acct;
    sm_objectType := checkout_session; sm_paymentIntentId := cs_payment_intent sn; sm_amount := (chargeNow i).1;
    sm_currency := iv_currencyCode i; sm_status := sp_pending; sm_lastEventAt := None; sm_createdAt := now |}).
  set (p1 := with_maps (<[cs_id sn := m0]>) p).
  assert (H1 : createInvoicePayLink decrypt api now id actor p = Ok (p1, url)).
  { unfold createInvoicePayLink, getOwnedInvoiceOr404. rewrite Hi. cbn [lift rbind]. rewrite Ho, Hs. cbn [lift rbind].
    unfold open_checkout. rewrite Hpay, Hminor, (proj2 (Z.ltb_lt 0 c)), Hk by lia. cbn [check rbind fst snd]. rewrite Hcr. cbn [rbind fst snd].
    rewrite Hu, Htu. unfold insert_mapping. rewrite bool_decide_eq_true_2 by done. reflexivity. }
  set (cur := toUpperCase (toLowerCase (iv_currencyCode i))).
  set (inp := {| cap_objectId := cs_id sn; cap_paymentIntentId := pi; cap_accountId := acct; cap_amount := fromMinorUnits c cur; cap_currency := cur |}).
  assert (Hcap : session_capture acct (paid_session id i sn pi) = Some inp).
  { unfold session_capture. cbn -[Z.leb toUpperCase truthy]. rewrite Hpi, Hminor, (proj2 (Z.leb_gt c 0)) by lia. done. }
  assert (Hamt : cap_amount inp = money c).
  { cbn. rewrite fromMinor_money by lia. unfold minor_cents, cur. by rewrite zero_lower, Hz. }
  assert (Hcok : cents_ok c) by (unfold cents_ok, minor_max in *; lia).
  destruct (capture_records env inp p1 m0 i) as (b' & Hrec & Hpays).
  { cbn. by rewrite lookup_insert_eq. } { done. } { done. }
  { unfold capture_refused. rewrite Hamt, HB, !toCents_exact by done. cbn -[toUpperCase truthy]. unfold cur. rewrite upper_lower, Ha.
    rewrite (bool_decide_eq_true_2 (acct = acct)), (bool_decide_eq_true_2 (toUpperCase _ = _)), (proj2 (Z.ltb_ge _ _)) by done.
    rewrite bool_decide_eq_false_2; [done|].
    unfold PAYABLE in Hpay. bool_hyps. intros Hin. set_unfold in Hin. destruct Hin as [E|[E|[]]]; rewrite E in Hpay; set_solver. }
  { rewrite Hamt, toFixed_money by done. cbn. lia. }
  rewrite Hamt, toFixed_money in Hpays by done. cbn [sm_invoiceId m0 cap_objectId cap_paymentIntentId inp] in Hrec, Hpays.
  set (p2 := with_maps _ _) in Hrec. set (pid := bs_nextId (ps_bill p1)) in *.
  set (m := set_mapping (Some pid) sp_succeeded (Some pi) (be_now env) m0).
  assert (Hm2 : ps_maps p2 !! cs_id sn = Some m) by (cbn; by rewrite lookup_alter_eq, lookup_insert_eq).
  exists p1, p2, m, pid. split_and!; [exact H1| |exact Hm2|done|done| |].
  - rewrite (settle_client env api _ _ p1 key acct _ Hk Hrt), Hcap, Hrec. done.
  - cbn. rewrite Hpays. by rewrite lookup_insert_eq.
  - rewrite (settle_client env api _ _ p2 key acct _ Hk Hrt), Hcap.
    unfold recordStripePayment, capture_read. change (cap_objectId inp) with (cs_id sn). rewrite Hm2. done.
Qed.

End checkout.

(** ** A view stamp that comes late *)

Lemma accept_ids env p b s b' s' r :
  acceptQuote env p b s = Ok (b', s', r) -> ar_acceptanceId r = qt_nextId s /\ ar_invoiceId r = bs_nextId b.
Proof.
  unfold acceptQuote, getOwnedQuote. intros H. destruct (qt_quotes s !! ap_quoteId p) as [q|]; [|done]. cbn [rbind] in H.
  apply rbind_Ok in H as (? & _ & H). apply rbind_Ok in H as (? & _ & H). apply rbind_Ok in H as (row & _ & H).
  destruct (convert_row (qe_bill env) q (one_time_lines (sorted_lines (ap_quoteId p) s)) (ap_actorUserId p) b) as [Hid _].
  destruct (convert_invoice _ _ _ _ _) as [b1 inv]. apply rbind_Ok in H as (specs & _ & H).
  destruct (create_contracts specs b1) as [[b2 ids] links]. apply rbind_Ok in H as (s3 & _ & H). apply rbind_Ok in H as (order & _ & H).
  destruct order; by simplify_eq.
Qed.

Lemma create_contracts_next specs b : (bs_nextId b <= bs_nextId (create_contracts specs b).1.1)%nat.
Proof.
  revert b. induction specs as [|sp specs IH]; intros b; [done|]. cbn [create_contracts]. pose proof (create_spec_rows sp b) as H.
  destruct (createContractWithLinesDetailed sp b) as [[b1 id] links]. specialize (IH b1). destruct (create_contracts specs b1) as [[b2 ids] links'].
  cbn in *. lia.
Qed.

(** An acceptance adds its invoice and leaves the others. *)
Lemma accept_keeps_invoices env p b s b' s' r :
  acceptQuote env p b s = Ok (b', s', r) ->
  (bs_nextId b < bs_nextId b')%nat /\ forall k, k <> bs_nextId b -> bs_invoices b' !! k = bs_invoices b !! k.
Proof.
  intros H. apply accept_changes in H as (_ & q & specs & b1 & b2 & links & _ & _ & Hi & _ & Hc & -> & _).
  pose proof (create_contracts_same specs b1) as (Ei & _). pose proof (create_contracts_next specs b1) as Hn. rewrite Hc in Ei, Hn. cbn [fst] in Ei, Hn.
  rewrite Ei. assert (G : (bs_nextId b < bs_nextId b1)%nat /\ forall k, k <> bs_nextId b -> bs_invoices b1 !! k = bs_invoices b !! k); [|split; [lia|apply G]].
  unfold convert_invoice, insert_invoice in Hi. cbn zeta iota beta in Hi. set (b0 := bump_id (with_invoices (<[bs_nextId b := accept_draft q (ap_actorUserId p)]>) b)) in *.
  set (ls := imap _ _) in *. destruct (insert_lines_at ls b0) as (_ & _ & Hle). destruct (insert_lines_payments ls b0) as [_ El].
  cbn in Hle. injection Hi as <- _.
  case_bool_decide; cbn; (split; [lia|intros k Hk; rewrite lookup_alter_ne, El by done; cbn; by rewrite lookup_insert_ne]).
Qed.

Lemma build_specs_any cs q lines start by1 by2 specs :
  build_specs cs q lines start by1 = Ok specs -> exists specs', build_specs cs q lines start by2 = Ok specs'.
Proof.
  revert specs. induction cs as [|[[r n] label] cs IH]; intros specs H; [by eexists|]. cbn in *. destruct (cadence_group r lines) as [|x g]; [by eapply IH|].
  apply rbind_Ok in H as (e & -> & H). apply rbind_Ok in H as (rest & Hr & _). destruct (IH _ Hr) as [rest' ->]. by eexists.
Qed.

Lemma documents_any id1 id2 k1 k2 org c1 c2 data s1 s2 s1' :
  createExecutedDocuments id1 k1 org c1 data s1 = Ok s1' -> exists s2', createExecutedDocuments id2 k2 org c2 data s2 = Ok s2'.
Proof.
  revert s1 s2. induction data as [|d ds IH]; intros s1 s2 H; [by eexists|]. cbn in *.
  apply rbind_Ok in H as (u & -> & H). cbn [rbind]. by eapply IH.
Qed.

(** A partner that sells no Pax8 product gets no order. *)
Lemma no_products_no_order env id org partner cids links lines b :
  qe_pax8Products env = [] -> stagePax8Order env id org partner cids links lines b = Ok None.
Proof.
  intros E. unfold stagePax8Order. rewrite E. cbn [List.filter]. set (cands := omap _ lines). cbn.
  replace (omap _ cands) with (@nil (nat * QuoteLine * string * Pax8Mapping)); [done|]. by induction cands.
Qed.

(** What an acceptance reads of the row. *)
Definition same_offer (q q2 : Quote) : Prop :=
  q_head q2 = q_head q /\ q_partnerId q2 = q_partnerId q /\ qf_quoteNumber (q_life q2) = qf_quoteNumber (q_life q).

(** Where an acceptance went through, another one does as soon as the row is open again. *)
Lemma accept_again env p p2 b s b' s' r q bb ss q2 :
  acceptQuote env p b s = Ok (b', s', r) -> qt_quotes s !! ap_quoteId p = Some q -> qt_quotes ss !! ap_quoteId p = Some q2 ->
  same_offer q q2 -> open_for_response (q_status q2) = true -> qt_lines ss = qt_lines s -> qt_blocks ss = qt_blocks s ->
  ap_quoteId p2 = ap_quoteId p -> ap_renderData p2 = ap_renderData p -> ap_tokenJti p2 = None ->
  truthy (Some (trim (ap_signerName p2))) = true -> qe_pax8Products env = [] ->
  exists b3 s3 r2, acceptQuote env p2 bb ss = Ok (b3, s3, r2).
Proof.
  intros H Hq Hq2 (E1 & E2 & E3) Ho El Eb Ei Er Et Hs Hx. unfold acceptQuote, getOwnedQuote in *. rewrite Ei. rewrite Hq in H. rewrite Hq2. cbn [rbind] in *.
  apply rbind_Ok in H as ([] & Hg & H). apply rbind_Ok in H as ([] & Hd & H). apply rbind_Ok in H as (row & _ & H).
  assert (Hg2 : accept_guards env p2 q2 = Ok tt).
  { unfold accept_guards in *. rewrite Et, Ho, E1. cbn. apply rbind_Ok in Hg as (? & _ & Hg). by apply rbind_Ok in Hg as (? & _ & Hg). }
  rewrite Hg2. cbn [rbind]. unfold sorted_blocks, sorted_lines, blocks_of, qlines_of in *. rewrite Eb, El, Er, Hd. cbn [rbind].
  unfold acceptance_row. rewrite Hs. cbn [check rbind]. unfold q_orgId, q_partnerId in *. rewrite E1, E2, E3.
  destruct (convert_invoice _ q _ _ b) as [b1 inv]. destruct (convert_invoice _ q2 _ _ bb) as [bb1 inv2]. apply rbind_Ok in H as (specs & Hsp & H).
  destruct (build_specs_any _ _ _ _ _ (ap_actorUserId p2) _ Hsp) as [specs2 Hsp2]. unfold buildContractSpecsFromQuote. rewrite Hsp2. cbn [rbind].
  destruct (create_contracts specs b1) as [[b2 ids] links]. destruct (create_contracts specs2 bb1) as [[bb2 ids2] links2].
  apply rbind_Ok in H as (s3 & Hdoc & _). set (s1 := alter_quote _ _ _).
  destruct (documents_any _ (ap_quoteId p) _ (qt_nextId ss) _ _ (head ids2) _ _ s1 _ Hdoc) as [s3' Hdoc2]. rewrite Hdoc2. cbn [rbind].
  rewrite (no_products_no_order _ _ _ _ _ _ _ _ Hx). cbn [rbind]. by eexists _, _, _.
Qed.

(** The row after the acceptance and the late stamp. *)
Lemma stamped_row now p inv at_ q :
  q_status q = qs_sent -> q_status (view_write now q (converted p inv at_ q)) = qs_viewed /\ same_offer q (view_write now q (converted p inv at_ q)).
Proof. intros E. unfold view_write, same_offer, converted. rewrite E. by repeat case_match. Qed.

Lemma billed_as_lines b s s2 id q q2 inv :
  qt_lines s2 = qt_lines s -> same_offer q q2 -> billed_as b s2 id q2 inv -> billed_as b s id q inv.
Proof.
  unfold billed_as, has_one_time, due_total, math_lines, qlines_of, q_orgId. intros El (E1 & E2 & _). by rewrite El, E1, E2.
Qed.

(** C37: Acceptance locks the row and the view stamp does not. Take any acceptance of a sent
    quote, and a view of it that read the row before: when the stamp of the view is written
    after, the converted quote is back to viewed, and a second acceptance through the portal
    goes through (for a partner without Pax8 products). There are then two acceptances of the
    quote and two invoices, and where the quote has one-time lines both were issued, each for
    the whole amount the quote shows as due. *)
Theorem late_view_bills_twice env p1 p2 b s b1 s1 r1 orgId q now :
  view_read (ap_quoteId p1) orgId s = Some q -> q_status q = qs_sent -> run_accept env p1 b s = Ok (b1, s1, r1) ->
  ap_quoteId p2 = ap_quoteId p1 -> ap_tokenJti p2 = None -> truthy (Some (trim (ap_signerName p2))) = true -> qe_pax8Products env = [] ->
  let s2 := alter_quote (ap_quoteId p1) (view_write now q) s1 in
  q_status <$> qt_quotes s1 !! ap_quoteId p1 = Some qs_converted /\ q_status <$> qt_quotes s2 !! ap_quoteId p1 = Some qs_viewed
  /\ exists b3 s3 r2, run_accept env p2 b1 s2 = Ok (b3, s3, r2)
     /\ ar_acceptanceId r1 <> ar_acceptanceId r2 /\ ar_invoiceId r1 <> ar_invoiceId r2
     /\ forall r, r ∈ [r1; r2] ->
          (exists a, qt_acceptances s3 !! ar_acceptanceId r = Some a /\ qa_quoteId a = ap_quoteId p1)
          /\ is_Some (bs_invoices b3 !! ar_invoiceId r) /\ billed_as b3 s (ap_quoteId p1) q (ar_invoiceId r).
Proof.
  intros Hr Hst H Ei Et Hsig Hx s2. unfold view_read in Hr. destruct (qt_quotes s !! ap_quoteId p1) as [q'|] eqn:Hq; [|done].
  case_bool_decide; [|done]. injection Hr as ->. unfold run_accept in H. apply rbind_Ok in H as (data & Hdata & H).
  set (p1' := {| ap_quoteId := ap_quoteId p1 |}) in H. apply rbind_Ok in H as ([[b1' s1'] r1'] & Ha & H). injection H as <- <- <-.
  rename s1' into s1, r1' into r1. pose proof Ha as (Hacc & q0 & _ & _ & _ & _ & Hq0 & _ & _ & _ & _ & _ & Eq)%accept_changes.
  change (ap_quoteId p1') with (ap_quoteId p1) in *. assert (q0 = q) as -> by congruence. destruct Hacc as [_ Eb El (row & Hrow & Ea) Hn].
  destruct (stamped_row now p1' (ar_invoiceId r1) (qe_now env) q Hst) as [Hv Hoff]. set (q2 := view_write _ _ _) in *.
  assert (Hq2 : qt_quotes s2 !! ap_quoteId p1 = Some q2) by (cbn; by rewrite lookup_alter_eq, Eq, lookup_insert_eq).
  split; [rewrite Eq, lookup_insert_eq; cbn; f_equal; apply (converted_row p1')|]. split; [rewrite Hq2; exact (f_equal Some Hv)|].
  set (p2' := {| ap_quoteId := ap_quoteId p2; ap_signerName := ap_signerName p2; ap_signerEmail := ap_signerEmail p2;
                 ap_ipAddress := ap_ipAddress p2; ap_userAgent := ap_userAgent p2; ap_tokenJti := ap_tokenJti p2;
                 ap_actorUserId := ap_actorUserId p2; ap_renderData := data |}).
  set (bb := emitAcceptInvoiceIssued r1 b1'). destruct (accept_again env p1' p2' b s b1' s1 r1 q bb s2 q2 Ha Hq Hq2 Hoff) as (b3 & s3 & r2 & Ha2);
    [by rewrite Hv|done|done|done|done|done|done|done|].
  pose proof Ha2 as [[_ _ _ (row2 & Hrow2 & Ea2) _] _]%accept_changes. change (ap_quoteId p2') with (ap_quoteId p2) in *.
  destruct (accept_ids _ _ _ _ _ _ _ Ha) as [I1 I2], (accept_ids _ _ _ _ _ _ _ Ha2) as [J1 J2].
  destruct (accept_keeps_invoices _ _ _ _ _ _ _ Ha) as [N1 _], (accept_keeps_invoices _ _ _ _ _ _ _ Ha2) as [N2 K2].
  destruct (accept_bills _ _ _ _ _ _ _ _ Ha Hq) as (_ & S1 & B1). rewrite <- Ei in Hq2.
  destruct (accept_bills _ _ _ _ _ _ _ _ Ha2 Hq2) as (_ & S2 & B2).
  assert (Ebb : bs_invoices bb = bs_invoices b1' /\ bs_nextId bb = bs_nextId b1') by (unfold bb, emitAcceptInvoiceIssued; by case_match).
  destruct Ebb as [E1 E2].
  exists (emitAcceptInvoiceIssued r2 b3), s3, r2. split_and!.
  - unfold run_accept. unfold sorted_blocks, blocks_of in *. rewrite Ei. change (qt_blocks s2) with (qt_blocks s1). rewrite Eb, Hdata. cbn [rbind].
    rewrite <- Ei. fold p2'. by rewrite Ha2.
  - rewrite I1, J1. change (qt_nextId s2) with (qt_nextId s1). lia.
  - rewrite I2, J2, E2. lia.
  - assert (E3 : bs_invoices (emitAcceptInvoiceIssued r2 b3) = bs_invoices b3) by (unfold emitAcceptInvoiceIssued; by case_match).
    unfold billed_as. rewrite E3. intros r [->|[->|[]%not_elem_of_nil]%elem_of_cons]%elem_of_cons.
    + rewrite Ea2. change (qt_nextId s2) with (qt_nextId s1). rewrite lookup_insert_ne by lia. change (qt_acceptances s2) with (qt_acceptances s1).
      rewrite Ea, I1, lookup_insert_eq, (K2 (ar_invoiceId r1)) by lia. rewrite E1. split_and!; [by eexists|done|done].
    + rewrite Ea2, J1, lookup_insert_eq. split_and!; [eexists; split; [done|congruence]|done|]. eapply billed_as_lines; [| |by rewrite <- Ei]; done.
Qed.

(** ** Runs on given data *)

(** The tables after a call, whether or not it was refused. *)
Definition after {A} (s : QuoteStore) (r : quote_outcome (QuoteStore * A)) : QuoteStore := match r with Ok (s', _) => s' | Err _ => s end.
Definition after1 (s : QuoteStore) (r : quote_outcome QuoteStore) : QuoteStore := match r with Ok s' => s' | Err _ => s end.

(** A quote with two laptops and a monthly service, sent to a customer on 2026-06-15. *)
Definition qenv : QuoteEnv :=
  {| qe_bill := demo_env; qe_sanitize := fun h => h; qe_versions := ∅; qe_templates := ∅; qe_billingEmail := fun _ => Some "a@b.c"%string;
     qe_orgName := fun _ => Some "Org"%string; qe_partnerTerms := fun _ => None; qe_partnerFooter := fun _ => None;
     qe_pax8Products := []; qe_pax8Companies := [] |}.

Definition demo_line (r : Recurrence) (n p : Z) (term : option Z) : QuoteLineInput :=
  {| li_sourceType := ql_manual; li_catalogItemId := None; li_blockId := None; li_name := Some "Laptop"%string; li_description := None;
     li_quantity := money n; li_unitPrice := money p; li_taxable := true; li_customerVisible := true; li_recurrence := r;
     li_termMonths := term; li_billingFrequency := None; li_unitCost := None; li_sku := None; li_partNumber := None;
     li_depositEligible := false |}.

Definition demo_create : CreateQuoteInput :=
  {| cqi_orgId := "o1"; cqi_siteId := None; cqi_title := None; cqi_currencyCode := "USD"; cqi_expiryDate := None;
     cqi_introNotes := None; cqi_terms := None; cqi_termsAndConditions := None |}.

Definition quotes1 : QuoteStore := after empty_quotes (createQuote qenv demo_create demo_actor empty_quotes).
Definition quotes2 : QuoteStore := after quotes1 (addQuoteManualLine 0 (demo_line one_time 200 49999 None) demo_actor quotes1).
Definition quotes3 : QuoteStore := after quotes2 (addQuoteManualLine 0 (demo_line monthly 100 2500 (Some 12)) demo_actor quotes2).
Definition quotes4 : QuoteStore := after1 quotes3 (sendQuote qenv 0 demo_actor [] quotes3).

Lemma quotes_step1 : createQuote qenv demo_create demo_actor empty_quotes = Ok (quotes1, 0%nat).
Proof. by_eval. Qed.
Lemma quotes_step2 : addQuoteManualLine 0 (demo_line one_time 200 49999 None) demo_actor quotes1 = Ok (quotes2, 2%nat).
Proof. by_eval. Qed.
Lemma quotes_step3 : addQuoteManualLine 0 (demo_line monthly 100 2500 (Some 12)) demo_actor quotes2 = Ok (quotes3, 3%nat).
Proof. by_eval. Qed.
Lemma quotes_step4 : sendQuote qenv 0 demo_actor [] quotes3 = Ok quotes4.
Proof. by_eval. Qed.

Definition row0 (s : QuoteStore) : Quote :=
  default {| q_partnerId := EmptyString; q_currencyCode := EmptyString; q_createdBy := None;
             q_head := {| qh_orgId := EmptyString; qh_siteId := None; qh_title := None; qh_expiryDate := None; qh_introNotes := None;
                          qh_terms := None; qh_termsAndConditions := None; qh_billToName := None; qh_taxRate := None;
                          qh_depositType := EmptyString; qh_depositPercent := None |};
             q_money := zero_quote_money; q_life := draft_qlife EmptyString; q_send := no_send; q_response := no_response |} (qt_quotes s !! 0%nat).

Definition demo_params : AcceptQuoteParams := accept_params 0 "Ann" None None None None.

Definition bills0 : BillStore := empty_bills ∅ ∅.

Definition accepted1 : BillStore * QuoteStore :=
  match run_accept qenv demo_params bills0 quotes4 with Ok (b, s, _) => (b, s) | Err _ => (bills0, quotes4) end.
(** The partner's Stripe account and the customer's payment of the first invoice. *)
Definition plain (x : option string) : result CryptoError (option string) := Ok x.

Definition demo_api : StripeApi :=
  {| api_account := fun _ => Some "acct_1"%string;
     api_retrieve := fun _ s => Some {| ss_id := s; ss_paid := true; ss_payment_intent := Some "pi_1"%string; ss_amount_total := Some 99998;
                                        ss_currency := Some "usd"%string |};
     api_create := fun _ _ _ => Some {| cs_id := "cs_1"; cs_url := Some "https://pay"%string; cs_payment_intent := None |} |}.

Definition pay0 : PayStore := {| ps_bill := accepted1.1; ps_maps := ∅; ps_accounts := ∅ |}.
Definition pays {A} (p : PayStore) (r : paid_outcome (PayStore * A)) : PayStore := match r with Ok (p', _) => p' | Err _ => p end.
Definition pay1 : PayStore := pays pay0 (savePartnerStripeKey plain demo_api 0 "p1" "sk_test_1" None pay0).
Definition pay2 : PayStore := pays pay1 (createInvoicePayLink plain demo_api 0 0 demo_actor pay1).
Definition pay3 : PayStore := (portal_settle plain demo_env demo_api "o1" 0 "cs_1" pay2).1.

Abbreviation commerce p s := {| co_pay := p; co_runs := []; co_quotes := s |}.
Abbreviation resting b s := {| co_pay := {| ps_bill := b; ps_maps := ∅; ps_accounts := ∅ |}; co_runs := []; co_quotes := s |}.

Lemma demo_clock : accept_clock qenv.
Proof. split; [by vm_compute|]. exists (2026 * 12 + 5), 15. by_eval. Qed.

Lemma demo_quotes late : rtc (quote_step late) empty_quotes quotes4.
Proof.
  eapply rtc_l; [eapply do_createQuote, quotes_step1|]. eapply rtc_l; [eapply do_addQuoteManualLine, quotes_step2|].
  eapply rtc_l; [eapply do_addQuoteManualLine, quotes_step3|]. eapply rtc_once, do_sendQuote, quotes_step4.
Qed.

Lemma demo_accept1 : exists r, run_accept qenv demo_params bills0 quotes4 = Ok (accepted1.1, accepted1.2, r).
Proof. eexists. by_eval. Qed.

Lemma demo_run late : rtc (commerce_step plain plain late) (commerce_start ∅ ∅) (resting accepted1.1 accepted1.2).
Proof.
  assert (H : forall s s', rtc (quote_step late) s s' -> rtc (commerce_step plain plain late) (resting bills0 s) (resting bills0 s')).
  { induction 1 as [|s s1 s2 Hs _ IH]; [done|]. eapply rtc_l; [|exact IH]. exact (cs_quotes plain plain late (resting bills0 s) s1 Hs). }
  etrans; [exact (H _ _ (demo_quotes late))|]. destruct demo_accept1 as [r Hr]. apply rtc_once.
  exact (cs_accept plain plain late (resting bills0 quotes4) qenv demo_params _ _ r demo_clock Hr).
Qed.

Lemma demo_api_ok : api_ok demo_api.
Proof. intros k s sn [= <-] c [= <-]. by vm_compute. Qed.

Lemma demo_pays late : rtc (commerce_step plain plain late) (resting accepted1.1 accepted1.2) (commerce pay3 accepted1.2).
Proof.
  assert (H1 : exists a, savePartnerStripeKey plain demo_api 0 "p1" "sk_test_1" None pay0 = Ok (pay1, a)) by (eexists; by_eval).
  assert (H2 : exists u, createInvoicePayLink plain demo_api 0 0 demo_actor pay1 = Ok (pay2, u)) by (eexists; by_eval).
  destruct H1 as [a H1], H2 as [u H2].
  eapply rtc_l; [exact (cs_stripe plain plain late (commerce pay0 accepted1.2) _ (do_savePartnerStripeKey plain plain pay0 _ _ _ _ _ _ _ H1))|].
  eapply rtc_l; [exact (cs_stripe plain plain late (commerce pay1 accepted1.2) _ (do_createInvoicePayLink plain plain pay1 _ _ _ _ _ _ H2))|].
  apply rtc_once. exact (cs_stripe plain plain late (commerce pay2 accepted1.2) _ (do_portal_settle plain plain pay2 demo_env demo_api "o1" 0 "cs_1" demo_api_ok)).
Qed.

Lemma demo_paid late : rtc (commerce_step plain plain late) (commerce_start ∅ ∅) (commerce pay3 accepted1.2).
Proof. etrans; [exact (demo_run late)|exact (demo_pays late)]. Qed.

(** ** The theorems on this data *)

Lemma demo_quotes_run : rtc (quotes_step overlapping) empty_quotes quotes4.
Proof. eapply (rtc_subrel (quote_step overlapping)); [|apply demo_quotes]. intros x y H. by left. Qed.

Lemma stored_quote_totals_witness :
  exists r, getQuote qenv 0 demo_actor quotes4 = Ok r /\ q_money (rd_quote r) = columns (rd_totals r).
Proof.
  assert (H : exists r, getQuote qenv 0 demo_actor quotes4 = Ok r) by (eexists; by_eval). destruct H as [r H].
  exists r. split; [exact H|]. exact (stored_quote_totals_agree quotes4 qenv 0 demo_actor r demo_quotes_run H).
Defined.

Lemma late_view_witness :
  exists b3 s3 r1 r2, run_accept qenv demo_params accepted1.1 (alter_quote 0 (view_write (qe_now qenv) (row0 quotes4)) accepted1.2) = Ok (b3, s3, r2)
    /\ ar_invoiceId r1 <> ar_invoiceId r2 /\ billed_as b3 quotes4 0 (row0 quotes4) (ar_invoiceId r1)
    /\ billed_as b3 quotes4 0 (row0 quotes4) (ar_invoiceId r2).
Proof.
  destruct demo_accept1 as [r1 H1]. assert (Hr : view_read 0 "o1" quotes4 = Some (row0 quotes4)) by by_eval.
  destruct (late_view_bills_twice qenv demo_params demo_params bills0 quotes4 accepted1.1 accepted1.2 r1 "o1" (row0 quotes4) (qe_now qenv) Hr
              ltac:(by_eval) H1 eq_refl eq_refl ltac:(by_eval) ltac:(by_eval)) as (_ & _ & b3 & s3 & r2 & H2 & _ & Hn & Hb).
  exists b3, s3, r1, r2. split; [exact H2|]. split; [exact Hn|]. split; [|apply (Hb r2); right; left].
  apply (Hb r1). left.
Defined.

Lemma sent_quotes_witness : q_status (row0 quotes4) = qs_sent /\ as_sent 0 (row0 quotes4) quotes4 accepted1.2.
Proof.
  assert (Hs : q_status (row0 quotes4) = qs_sent) by by_eval. split; [exact Hs|].
  assert (H : rtc (quotes_step overlapping) quotes4 accepted1.2).
  { apply rtc_once. right. destruct demo_accept1 as [r Hr]. eexists _, _, _, _, _. exact Hr. }
  assert (Hq : qt_quotes quotes4 !! 0%nat = Some (row0 quotes4)) by by_eval.
  refine (sent_quotes_are_frozen quotes4 accepted1.2 0 (row0 quotes4) demo_quotes_run H Hq _). rewrite Hs. discriminate.
Defined.

Lemma commerce_refines_witness : bill_reachable accepted1.1 /\ rtc bill_step (billing (resting accepted1.1 accepted1.2)) (billing (commerce pay3 accepted1.2)).
Proof.
  exact (commerce_refines_billing plain plain in_order quote_moves ∅ ∅ (resting accepted1.1 accepted1.2) (commerce pay3 accepted1.2)
           (demo_run in_order) (demo_pays in_order)).
Defined.

Lemma stripe_once_witness :
  exists pid py oid m, bs_payments (ps_bill pay3) !! pid = Some py /\ ps_maps pay3 !! oid = Some m
    /\ sm_invoicePaymentId m = Some pid /\ sm_invoiceId m = py_invoiceId py.
Proof.
  assert (H : exists pid py, bs_payments (ps_bill pay3) !! pid = Some py /\ py_recordedBy py = None) by (exists (bs_nextId accepted1.1); eexists; by_eval).
  destruct H as (pid & py & Hp & Hr).
  destruct (stripe_payments_are_recorded_once plain plain in_order quote_moves ∅ ∅ (commerce pay3 accepted1.2) (demo_paid in_order)) as [A _].
  destruct (A pid py Hp Hr) as (oid & m & Hm & Hl & Hi & _). exists pid, py, oid, m. auto.
Defined.

Lemma quote_billed_once_witness :
  exists k a q inv, qt_acceptances accepted1.2 !! k = Some a /\ qt_quotes accepted1.2 !! qa_quoteId a = Some q
    /\ q_status q = qs_converted /\ billed_as accepted1.1 accepted1.2 (qa_quoteId a) q inv.
Proof.
  assert (H : exists a, qt_acceptances accepted1.2 !! 4%nat = Some a) by (eexists; by_eval). destruct H as [a Ha].
  destruct (accepted_quotes_are_billed_once plain plain ∅ ∅ (resting accepted1.1 accepted1.2) (demo_run in_order)) as [A _].
  destruct (A 4%nat a Ha) as (q & inv & Hq & Hs & _ & Hb). exists 4%nat, a, q, inv. auto.
Defined.

Lemma every_line_witness :
  exists b' s' r once, acceptQuote qenv demo_params bills0 quotes4 = Ok (b', s', r) /\ quoted 0 one_time quotes4 once
    /\ exists ls, lines_of (ar_invoiceId r) b' ≡ₚ ls /\ Forall2 (charges (ar_invoiceId r) (q_orgId (row0 quotes4))) once ls.
Proof.
  assert (H : exists b' s' r, acceptQuote qenv demo_params bills0 quotes4 = Ok (b', s', r)) by (eexists _, _, _; by_eval).
  destruct H as (b' & s' & r & H). assert (Hq : qt_quotes quotes4 !! ap_quoteId demo_params = Some (row0 quotes4)) by by_eval.
  destruct (acceptance_bills_every_line ∅ ∅ [] qenv demo_params bills0 quotes4 b' s' r (row0 quotes4) (rtc_refl _ _) H Hq)
    as (once & _ & _ & Ho & _ & _ & (ls & Hl & Hf & _) & _).
  exists b', s', r, once. split; [exact H|]. split; [exact Ho|]. exists ls. split; [exact Hl|exact Hf].
Defined.

(** The whole of the captured charge is refunded. *)
Definition demo_refund : RefundInput :=
  {| rf_paymentIntentId := "pi_1"; rf_amountRefundedCents := 99998; rf_chargeAmountCents := 99998; rf_currency := "usd"; rf_accountId := "acct_1" |}.

Lemma full_refund_witness : reflectStripeRefund demo_env demo_refund pay3 = Err CONSTRAINT_VIOLATED.
Proof.
  assert (H : exists oid m pid i, by_payment_intent (rf_paymentIntentId demo_refund) pay3 = Some (oid, m) /\ sm_status m = sp_succeeded
    /\ sm_invoicePaymentId m = Some pid /\ bs_invoices (ps_bill pay3) !! sm_invoiceId m = Some i /\ truthy (Some (rf_accountId demo_refund)) = true
    /\ rf_accountId demo_refund = sm_stripeAccountId m /\ rf_chargeAmountCents demo_refund <= rf_amountRefundedCents demo_refund).
  { exists "cs_1"%string; eexists _, _, _. by_eval. }
  destruct H as (oid & m & pid & i & H1 & H2 & H3 & H4 & H5 & H6 & H7).
  exact (proj1 (full_refund_is_refused demo_env demo_refund pay3 oid m pid i H1 H2 H3 H4 H5 H6 H7)).
Defined.

Lemma paid_checkout_witness :
  exists p1 p2, createInvoicePayLink plain demo_api 0 0 demo_actor pay1 = Ok (p1, "https://pay"%string)
    /\ settleCheckoutSession plain demo_env demo_api "p1" "cs_1" p1 = Ok (p2, true)
    /\ settleCheckoutSession plain demo_env demo_api "p1" "cs_1" p2 = Ok (p2, true).
Proof.
  set (sn := {| cs_id := "cs_1"; cs_url := Some "https://pay"%string; cs_payment_intent := None |}).
  assert (H : match bs_invoices (ps_bill pay1) !! 0%nat with
    | None => False
    | Some i => requireOrgAccess demo_actor (iv_orgId i) = Ok tt
      /\ requireSiteAccess demo_actor (iv_siteId i) = Ok tt /\ PAYABLE (iv_status i) = true /\ isZeroDecimal (iv_currencyCode i) = false
      /\ (chargeNow i).1 = money 99998 /\ il_balance (iv_life i) = money 99998
      /\ getPartnerStripeClient plain (iv_partnerId i) pay1 = Ok ("sk_test_1"%string, "acct_1"%string)
      /\ api_create demo_api 0 "sk_test_1" (checkout_request 0 i) = Some sn
      /\ api_retrieve demo_api "sk_test_1" (cs_id sn) = Some (paid_session 0 i sn "pi_1") /\ iv_partnerId i = "p1"%string
    end).
  { by_eval. }
  destruct (bs_invoices (ps_bill pay1) !! 0%nat) as [i|] eqn:H1; [|destruct H].
  destruct H as (H2 & H3 & H4 & H5 & H6 & H7 & H8 & H9 & H10 & Hp).
  destruct (paid_checkout_is_recorded plain demo_env demo_api 0 0 i demo_actor pay1 "sk_test_1" "acct_1" sn "https://pay" "pi_1" 99998 99998
    H1 H2 H3 H4 H5 H6 ltac:(unfold minor_max; lia) H7 ltac:(lia) ltac:(unfold cents_ok; lia) H8 eq_refl H9 eq_refl eq_refl ltac:(by_eval) H10 eq_refl)
    as (p1 & p2 & m & pid & A & B & _ & _ & _ & _ & C).
  rewrite Hp in B, C. exists p1, p2. auto.
Defined.
