(* ===== verification/Assurance.v ===== *)
(** * Approval assurance: how strongly a decision was authenticated

    packages/shared/src/utils/assuranceLevel.ts (the floors),
    apps/api/src/services/authenticatorPolicy.ts (the partner policy),
    apps/api/src/services/mobileHwKey.ts (single-use nonces) and
    apps/api/src/services/authenticatorAssurance.ts (the L1..L4 ladder).

    The state is the Redis key space that holds the challenges and the
    [authenticator_devices] table. The WebAuthn verifier (@simplewebauthn) and
    the RSA verifier (node:crypto) are parameters. *)

From stdpp Require Import base gmap strings list option.
From Stdlib Require Import ZArith Lia Ascii.
From S2P Require Import Prelude.

(** ** Risk tiers and levels *)

Inductive RiskTier : Type := low | medium | high | critical.

(** Levels 1..4. *)
Inductive AssuranceLevel : Type := L1 | L2 | L3 | L4.

#[export] Instance RiskTier_eq_dec : EqDecision RiskTier.
Proof. solve_decision. Defined.
#[export] Instance AssuranceLevel_eq_dec : EqDecision AssuranceLevel.
Proof. solve_decision. Defined.

Definition level_num (l : AssuranceLevel) : Z :=
  match l with L1 => 1 | L2 => 2 | L3 => 3 | L4 => 4 end.

Definition DEFAULT_ASSURANCE_FLOOR (t : RiskTier) : AssuranceLevel :=
  match t with low => L1 | medium => L2 | high => L3 | critical => L4 end.

(** [Partial<Record<RiskTier, AssuranceLevel>>] *)
Definition AssuranceFloorOverrides : Type := RiskTier -> option AssuranceLevel.

Definition requiredAssurance (t : RiskTier) (overrides : option AssuranceFloorOverrides)
  : AssuranceLevel :=
  let base := DEFAULT_ASSURANCE_FLOOR t in
  match overrides with
  | Some o =>
      match o t with
      | Some lvl => if level_num base <? level_num lvl then lvl else base
      | None => base
      end
  | None => base
  end.

Definition elevationRiskTierToName (n : option Z) : RiskTier :=
  match n with
  | Some 1 => low
  | Some 3 => high
  | Some 4 => critical
  | Some 2 => medium
  | _ => medium
  end.

(** ** Partner policy *)

Record PartnerPolicy : Type := {
  pp_requireEnrollment : bool;
  pp_enforceFrom : option Z;
  pp_floorOverrides : option AssuranceFloorOverrides;
}.

Definition isEnforcing (policy : option PartnerPolicy) (now : Z) : bool :=
  match policy with
  | None => false
  | Some p =>
      if negb (pp_requireEnrollment p) then false
      else match pp_enforceFrom p with
           | Some from => negb (now <? from)
           | None => true
           end
  end.

(** [validateRaiseOnly(overrides)]: [Err] carries the first offending tier. *)
Fixpoint validateRaiseOnly (entries : list (RiskTier * AssuranceLevel)) : result RiskTier unit :=
  match entries with
  | [] => Ok tt
  | (tier, level) :: rest =>
      if level_num level <? level_num (DEFAULT_ASSURANCE_FLOOR tier) then Err tier
      else validateRaiseOnly rest
  end.

(** ** Single-use nonces in Redis *)

(** A key space with expiry: [SETEX] and [GETDEL]. *)
Definition Redis : Type := gmap string (string * Z).

Definition setex (k : string) (ttlSeconds now : Z) (v : string) (r : Redis) : Redis :=
  <[k := (v, now + ttlSeconds * 1000)]> r.

Definition getdel (k : string) (now : Z) (r : Redis) : Redis * option string :=
  match r !! k with
  | Some (v, exp) => (delete k r, if now <? exp then Some v else None)
  | None => (r, None)
  end.

Definition ASSERTION_TTL : Z := 120.

Definition assertionKey (approvalId userId : string) : string :=
  ("mobile-assertion:" ++ approvalId ++ ":" ++ userId)%string.

Definition webauthnAssertionKey (approvalId userId : string) : string :=
  ("approval-assertion:" ++ approvalId ++ ":" ++ userId)%string.

Definition encodeNonce (nonce : string) (issuedAt : Z) : string :=
  (dec issuedAt ++ ":" ++ nonce)%string.

(** [decodeNonce(stored)]: the nonce and its issue time; a value with no
    separator, or with a prefix that is not a number, counts as issued now.
    [Number] is modelled on runs of digits (the prefixes [encodeNonce] writes)
    and on the empty string, which it reads as 0. *)
Definition decodeNonce (stored : string) (now : Z) : string * Z :=
  match indexOf ":" stored with
  | None => (stored, now)
  | Some sep =>
      let prefix := str_take sep stored in
      let nonce := str_drop (S sep) stored in
      if bool_decide (prefix = EmptyString) then (nonce, 0)
      else match parse_dec prefix with
           | Some t => (nonce, t)
           | None => (nonce, now)
           end
  end.

Definition issueNonce (key : string) (ttl now : Z) (nonce : string) (r : Redis) : Redis :=
  setex key ttl now (encodeNonce nonce now) r.

Definition consumeNonce (key : string) (now : Z) (r : Redis) : Redis * option (string * Z) :=
  match getdel key now r with
  | (r', Some stored) => (r', Some (decodeNonce stored now))
  | (r', None) => (r', None)
  end.

(** ** Devices, proofs and decisions *)

Inductive DeviceKind : Type := k_webauthn_platform | k_mobile_hw_key.
#[export] Instance DeviceKind_eq_dec : EqDecision DeviceKind.
Proof. solve_decision. Defined.

(** A row of [authenticator_devices]. *)
Record AuthenticatorDevice : Type := {
  ad_id : string;
  ad_userId : string;
  ad_credentialId : option string;
  ad_kind : DeviceKind;
  ad_disabledAt : option Z;
  ad_publicKey : string;
  ad_signCount : Z;
  ad_isPlatformBound : bool;
  ad_lastUsedAt : option Z;
}.

Definition bump_device (count now : Z) (d : AuthenticatorDevice) : AuthenticatorDevice :=
  {| ad_id := ad_id d; ad_userId := ad_userId d; ad_credentialId := ad_credentialId d;
     ad_kind := ad_kind d; ad_disabledAt := ad_disabledAt d; ad_publicKey := ad_publicKey d;
     ad_signCount := count; ad_isPlatformBound := ad_isPlatformBound d;
     ad_lastUsedAt := Some now |}.

(** The discriminated union [ApprovalProof]. *)
Inductive ApprovalProof : Type :=
| ProofWebauthn (credentialId authenticatorData clientDataJSON signature : string)
    (userHandle : option string)
| ProofMobile (credentialId nonce signature : string).

Inductive Factor : Type := session_tap | webauthn_platform | mobile_hw_key.
#[export] Instance Factor_eq_dec : EqDecision Factor.
Proof. solve_decision. Defined.

Record AssuranceDecision : Type := {
  d_requiredLevel : AssuranceLevel;
  d_level : AssuranceLevel;
  d_via : Factor;
  d_deviceId : option string;
  d_graceDowngrade : bool;
}.

Inductive AssuranceError : Type :=
| DeviceNotRegistered
| RedisUnavailable
| ChallengeExpiredOrUsed
| VerificationFailed
| RecencyExpired (ageMs : Z)
| ReauthRequired
| StepUpRequired (requiredLevel achievedLevel : AssuranceLevel)
| InconsistentDecision
| PolicyLoadFailed.

Record VerifiedFactor : Type := {
  vf_via : Factor;
  vf_deviceId : string;
  vf_isPlatformBound : bool;
  vf_challengeIssuedAt : Z;
}.

(** The mutable state the ladder reads and writes; [as_redisUp] is false when
    [getRedis()] returns null. *)
Record AuthState : Type := {
  as_redisUp : bool;
  as_redis : Redis;
  as_devices : gmap string AuthenticatorDevice;
}.

Definition APPROVAL_CHALLENGE_TTL_MS : Z := 120000.

Definition resolveApprovalAssurance (t : RiskTier) : AssuranceDecision :=
  {| d_requiredLevel := requiredAssurance t None; d_level := L1; d_via := session_tap;
     d_deviceId := None; d_graceDowngrade := false |}.

Definition resolveElevationAssurance (n : option Z) : AssuranceDecision :=
  resolveApprovalAssurance (elevationRiskTierToName n).

(** [assertDecisionConsistent(d)]: [true] when it does not throw. *)
Definition assertDecisionConsistent (d : AssuranceDecision) : bool :=
  let isSession := bool_decide (d_via d = session_tap) in
  let noDevice := bool_decide (d_deviceId d = None) in
  Bool.eqb isSession (bool_decide (d_level d = L1))
  && Bool.eqb isSession noDevice
  && negb (negb isSession && noDevice).

(** The achieved level of a verified L2 factor. *)
Definition escalateAchievedLevel (t : RiskTier) (factor : VerifiedFactor) (reauthVerified : bool)
    (now : Z) : result AssuranceError AssuranceLevel :=
  match t with
  | low | medium => Ok L2
  | high | critical =>
      let ageMs := now - vf_challengeIssuedAt factor in
      if APPROVAL_CHALLENGE_TTL_MS <? ageMs then Err (RecencyExpired ageMs)
      else match t with
           | high => Ok L3
           | _ =>
               if negb (vf_isPlatformBound factor) then Err (StepUpRequired L4 L3)
               else if negb reauthVerified then Err ReauthRequired
               else Ok L4
           end
  end.

Section ladder.

(** [verifyAuthenticationResponse] of @simplewebauthn/server on the proof, the
    expected challenge and the stored credential: [None] when it throws,
    otherwise [verified] and the new counter. *)
Variable webauthn_verify : ApprovalProof -> string -> AuthenticatorDevice -> option (bool * Z).
(** [verifyMobileSignature]: RSA-SHA256 over the payload, [false] on malformed input. *)
Variable verifyMobileSignature : string -> string -> string -> bool.

(** [verifyWebauthnFactor]: the device lookup, the single-use challenge, the
    assertion, then the counter update. [h] is the database's choice of row. *)
Definition verifyWebauthnFactor (h : nat) (now : Z) (approvalId userId : string)
    (proof : ApprovalProof) (credentialId : string) (st : AuthState)
  : AuthState * result AssuranceError VerifiedFactor :=
  let matching := sql_select (fun d =>
      bool_decide (ad_userId d = userId)
      && bool_decide (ad_credentialId d = Some credentialId)
      && bool_decide (ad_kind d = k_webauthn_platform)
      && bool_decide (ad_disabledAt d = None)) (as_devices st) in
  match select1 h matching with
  | None => (st, Err DeviceNotRegistered)
  | Some device =>
      if negb (as_redisUp st) then (st, Err RedisUnavailable) else
      match consumeNonce (webauthnAssertionKey approvalId userId) now (as_redis st) with
      | (r', None) =>
          ({| as_redisUp := true; as_redis := r'; as_devices := as_devices st |}, Err ChallengeExpiredOrUsed)
      | (r', Some (challenge, issuedAt)) =>
          match webauthn_verify proof challenge device with
          | Some (true, newSignCount) =>
              ({| as_redisUp := true; as_redis := r';
                  as_devices := sql_update (fun d => bool_decide (ad_id d = ad_id device))
                                  (bump_device newSignCount now) (as_devices st) |},
               Ok {| vf_via := webauthn_platform; vf_deviceId := ad_id device;
                     vf_isPlatformBound := ad_isPlatformBound device;
                     vf_challengeIssuedAt := issuedAt |})
          | _ => ({| as_redisUp := true; as_redis := r'; as_devices := as_devices st |}, Err VerificationFailed)
          end
      end
  end.

(** [verifyMobileFactor]: the device by primary key, the single-use nonce, the
    signature over it, then the anti-clone counter. *)
Definition verifyMobileFactor (now : Z) (approvalId userId : string)
    (credentialId nonce signature : string) (st : AuthState)
  : AuthState * result AssuranceError VerifiedFactor :=
  let registered := match as_devices st !! credentialId with
    | Some d =>
        if bool_decide (ad_userId d = userId) && bool_decide (ad_kind d = k_mobile_hw_key)
           && bool_decide (ad_disabledAt d = None)
        then Some d else None
    | None => None
    end in
  match registered with
  | None => (st, Err DeviceNotRegistered)
  | Some device =>
      if negb (as_redisUp st) then (st, Err RedisUnavailable) else
      match consumeNonce (assertionKey approvalId userId) now (as_redis st) with
      | (r', None) =>
          ({| as_redisUp := true; as_redis := r'; as_devices := as_devices st |}, Err ChallengeExpiredOrUsed)
      | (r', Some (stored, issuedAt)) =>
          if negb (bool_decide (stored = nonce)) then
            ({| as_redisUp := true; as_redis := r'; as_devices := as_devices st |}, Err ChallengeExpiredOrUsed)
          else if negb (verifyMobileSignature (ad_publicKey device) stored signature) then
            ({| as_redisUp := true; as_redis := r'; as_devices := as_devices st |}, Err VerificationFailed)
          else
            ({| as_redisUp := true; as_redis := r';
                as_devices := <[credentialId := bump_device (ad_signCount device + 1) now device]>
                                (as_devices st) |},
             Ok {| vf_via := mobile_hw_key; vf_deviceId := credentialId;
                   vf_isPlatformBound := ad_isPlatformBound device;
                   vf_challengeIssuedAt := issuedAt |})
      end
  end.

(** The input record of [assertApprovalAssurance]. [ai_policy] is what
    [loadPartnerPolicy] returns, [None] when the read throws. *)
Record AssuranceInput : Type := {
  ai_approvalId : string;
  ai_userId : string;
  ai_riskTier : RiskTier;
  ai_proof : option ApprovalProof;
  ai_isApprove : bool;
  ai_reauthVerified : bool;
  ai_policy : option (option PartnerPolicy);
}.

(** Step 1 of [assertApprovalAssurance]: the achieved factor. *)
Definition achievedDecision (h : nat) (now : Z) (inp : AssuranceInput) (st : AuthState)
  : AuthState * result AssuranceError AssuranceDecision :=
  match ai_proof inp with
  | None => (st, Ok (resolveApprovalAssurance (ai_riskTier inp)))
  | Some proof =>
      let '(st', factor) :=
        match proof with
        | ProofMobile cred nonce sig =>
            verifyMobileFactor now (ai_approvalId inp) (ai_userId inp) cred nonce sig st
        | ProofWebauthn cred _ _ _ _ =>
            verifyWebauthnFactor h now (ai_approvalId inp) (ai_userId inp) proof cred st
        end in
      (st',
       let! f := factor in
       let! lvl := escalateAchievedLevel (ai_riskTier inp) f (ai_reauthVerified inp) now in
       Ok {| d_requiredLevel := d_requiredLevel (resolveApprovalAssurance (ai_riskTier inp));
             d_level := lvl; d_via := vf_via f; d_deviceId := Some (vf_deviceId f);
             d_graceDowngrade := false |})
  end.

(** Step 2: the partner floor and its enforcement, on an approve only. *)
Definition enforcePolicy (inp : AssuranceInput) (now : Z) (d : AssuranceDecision)
  : result AssuranceError AssuranceDecision :=
  let! policy := (if ai_isApprove inp then
                    match ai_policy inp with Some p => Ok p | None => Err PolicyLoadFailed end
                  else Ok None) in
  let required := requiredAssurance (ai_riskTier inp)
                    (match policy with Some p => pp_floorOverrides p | None => None end) in
  let under := ai_isApprove inp && (level_num (d_level d) <? level_num required) in
  let! _ := check (negb (under && isEnforcing policy now)) (StepUpRequired required (d_level d)) in
  let d' := {| d_requiredLevel := required; d_level := d_level d; d_via := d_via d;
               d_deviceId := d_deviceId d; d_graceDowngrade := under |} in
  let! _ := check (assertDecisionConsistent d') InconsistentDecision in
  Ok d'.

Definition assertApprovalAssurance (h : nat) (now : Z) (inp : AssuranceInput) (st : AuthState)
  : AuthState * result AssuranceError AssuranceDecision :=
  let '(st', d) := achievedDecision h now inp st in
  (st', let! d := d in enforcePolicy inp now d).

End ladder.

(** ** The floor is raise-only *)

Lemma requiredAssurance_floor t o :
  level_num (DEFAULT_ASSURANCE_FLOOR t) <= level_num (requiredAssurance t o).
Proof. unfold requiredAssurance. repeat case_match; bool_hyps; lia. Qed.

(** A partner override can only raise the level an approval needs: the
    required level is the larger of the default floor and the override. *)
Lemma requiredAssurance_raise_only t (o : AssuranceFloorOverrides) :
  level_num (requiredAssurance t (Some o)) =
  Z.max (level_num (DEFAULT_ASSURANCE_FLOOR t))
        (match o t with Some lvl => level_num lvl | None => 0 end).
Proof.
  unfold requiredAssurance. destruct (o t) as [lvl|].
  - case_match; bool_hyps; lia.
  - by destruct t.
Qed.

Lemma validateRaiseOnly_spec entries :
  validateRaiseOnly entries = Ok tt <->
  Forall (fun e => level_num (DEFAULT_ASSURANCE_FLOOR e.1) <= level_num e.2) entries.
Proof.
  induction entries as [|[t l] es IH]; simpl; [by split|].
  case_match; bool_hyps; rewrite Forall_cons_iff; simpl.
  - split; [discriminate|lia].
  - rewrite IH. naive_solver.
Qed.

(** ** Nonces *)

Lemma getdel_gone k now r r' v : getdel k now r = (r', v) -> r' !! k = None.
Proof.
  unfold getdel. destruct (r !! k) as [[x e]|] eqn:E; intros [= <- <-].
  - apply lookup_delete_eq.
  - done.
Qed.

Lemma consumeNonce_gone k now r r' v : consumeNonce k now r = (r', v) -> r' !! k = None.
Proof.
  unfold consumeNonce. destruct (getdel k now r) as [r0 [s|]] eqn:E; intros [= <- <-];
    by apply getdel_gone in E.
Qed.

Lemma consumeNonce_missing k now r : r !! k = None -> consumeNonce k now r = (r, None).
Proof. intros H. unfold consumeNonce, getdel. by rewrite H. Qed.

(** The nonce and the issue time written by [issueNonce] are what
    [consumeNonce] reads back, for any nonce text and any time. *)
Lemma decodeNonce_encodeNonce nonce issuedAt now :
  0 <= issuedAt -> decodeNonce (encodeNonce nonce issuedAt) now = (nonce, issuedAt).
Proof.
  intros Ht. pose proof (parse_dec_dec issuedAt Ht) as Hp.
  assert (Hd : str_forallb is_digit (dec issuedAt) = true).
  { apply dec_loop_digits; done. }
  assert (Hne : dec issuedAt <> EmptyString).
  { apply dec_loop_nonempty. left; lia. }
  unfold decodeNonce, encodeNonce. rewrite indexOf_colon by (eapply str_forallb_impl; [|exact Hd]; by apply digit_no_colon).
  rewrite str_take_app, bool_decide_eq_false_2, Hp by done.
  replace (S (String.length (dec issuedAt))) with (String.length (dec issuedAt) + 1)%nat by lia.
  by rewrite str_drop_app.
Qed.

Section ladder_facts.
Variable wv : ApprovalProof -> string -> AuthenticatorDevice -> option (bool * Z).
Variable mv : string -> string -> string -> bool.

(** What stands behind a decision above L1: an enabled device of the decider, a
    challenge that was still stored, and a signature over that challenge. *)
Inductive proven (now : Z) (inp : AssuranceInput) (st : AuthState)
  : AuthenticatorDevice -> Z -> Prop :=
| proven_mobile cred nonce sig dev r' issuedAt :
    ai_proof inp = Some (ProofMobile cred nonce sig) ->
    as_devices st !! cred = Some dev ->
    ad_userId dev = ai_userId inp -> ad_kind dev = k_mobile_hw_key -> ad_disabledAt dev = None ->
    consumeNonce (assertionKey (ai_approvalId inp) (ai_userId inp)) now (as_redis st)
      = (r', Some (nonce, issuedAt)) ->
    mv (ad_publicKey dev) nonce sig = true ->
    proven now inp st dev issuedAt
| proven_webauthn cred a c s uh dev k r' challenge issuedAt n :
    ai_proof inp = Some (ProofWebauthn cred a c s uh) ->
    as_devices st !! k = Some dev ->
    ad_userId dev = ai_userId inp -> ad_credentialId dev = Some cred ->
    ad_kind dev = k_webauthn_platform -> ad_disabledAt dev = None ->
    consumeNonce (webauthnAssertionKey (ai_approvalId inp) (ai_userId inp)) now (as_redis st)
      = (r', Some (challenge, issuedAt)) ->
    wv (ProofWebauthn cred a c s uh) challenge dev = Some (true, n) ->
    proven now inp st dev issuedAt.

Lemma verifyMobileFactor_proven now inp cred nonce sig st st' f :
  ai_proof inp = Some (ProofMobile cred nonce sig) ->
  verifyMobileFactor mv now (ai_approvalId inp) (ai_userId inp) cred nonce sig st = (st', Ok f) ->
  exists dev, proven now inp st dev (vf_challengeIssuedAt f)
              /\ vf_isPlatformBound f = ad_isPlatformBound dev /\ vf_via f <> session_tap.
Proof.
  intros Hp H. unfold verifyMobileFactor in H.
  destruct (as_devices st !! cred) as [dev|] eqn:Ed; [|by destr_in H].
  destruct (_ && _ && _) eqn:Eg in H; [|done]. bool_hyps.
  destruct (negb (as_redisUp st)) eqn:Eu; [done|].
  destruct (consumeNonce _ _ _) as [r' [[stored issuedAt]|]] eqn:Ec; [|done].
  destruct (negb (bool_decide (stored = nonce))) eqn:En; [done|].
  destruct (negb (mv _ _ _)) eqn:Ev; [done|]. bool_hyps. subst stored.
  injection H as <- <-. exists dev. split; [|done]. by eapply proven_mobile.
Qed.

Lemma verifyWebauthnFactor_proven h now inp cred a c s uh st st' f :
  ai_proof inp = Some (ProofWebauthn cred a c s uh) ->
  verifyWebauthnFactor wv h now (ai_approvalId inp) (ai_userId inp)
    (ProofWebauthn cred a c s uh) cred st = (st', Ok f) ->
  exists dev, proven now inp st dev (vf_challengeIssuedAt f)
              /\ vf_isPlatformBound f = ad_isPlatformBound dev /\ vf_via f <> session_tap.
Proof.
  intros Hp H. unfold verifyWebauthnFactor in H.
  destruct (select1 _ _) as [dev|] eqn:Es; [|done].
  apply select1_elem, sql_select_elem in Es as [[k Hk] Hg]. bool_hyps.
  destruct (negb (as_redisUp st)) eqn:Eu; [done|].
  destruct (consumeNonce _ _ _) as [r' [[challenge issuedAt]|]] eqn:Ec; [|done].
  destruct (wv _ _ _) as [[[] n]|] eqn:Ev; try done.
  injection H as <- <-. exists dev. split; [|done]. by eapply proven_webauthn.
Qed.

Lemma escalate_spec t f reauth now lvl :
  escalateAchievedLevel t f reauth now = Ok lvl ->
  lvl <> L1
  /\ (level_num lvl >= 3 ->
      (t = high \/ t = critical) /\ now - vf_challengeIssuedAt f <= APPROVAL_CHALLENGE_TTL_MS)
  /\ (lvl = L4 -> t = critical /\ vf_isPlatformBound f = true /\ reauth = true).
Proof.
  unfold escalateAchievedLevel. intros H. destr_in H; bool_hyps; simpl; naive_solver lia.
Qed.

Lemma achieved_spec h now inp st st' d :
  achievedDecision wv mv h now inp st = (st', Ok d) ->
  (d_via d = session_tap /\ d_level d = L1 /\ d_deviceId d = None /\ ai_proof inp = None)
  \/ (d_via d <> session_tap /\ d_level d <> L1 /\ d_deviceId d <> None
      /\ exists dev issuedAt, proven now inp st dev issuedAt
      /\ (level_num (d_level d) >= 3 ->
          (ai_riskTier inp = high \/ ai_riskTier inp = critical)
          /\ now - issuedAt <= APPROVAL_CHALLENGE_TTL_MS)
      /\ (d_level d = L4 ->
          ai_riskTier inp = critical /\ ad_isPlatformBound dev = true
          /\ ai_reauthVerified inp = true)).
Proof.
  unfold achievedDecision. destruct (ai_proof inp) as [p|] eqn:Hp; [|intros [= <- <-]; auto].
  intros H. right.
  assert (exists f lvl, escalateAchievedLevel (ai_riskTier inp) f (ai_reauthVerified inp) now = Ok lvl
            /\ d_level d = lvl /\ d_via d = vf_via f /\ d_deviceId d = Some (vf_deviceId f)
            /\ exists dev, proven now inp st dev (vf_challengeIssuedAt f)
               /\ vf_isPlatformBound f = ad_isPlatformBound dev /\ vf_via f <> session_tap)
    as (f & lvl & He & -> & -> & -> & dev & Hprov & Hplat & Hvia).
  { destruct p as [cred a c s uh|cred nonce sig].
    - destruct (verifyWebauthnFactor _ _ _ _ _ _ _ _) as [st1 [f|]] eqn:E; [|done].
      injection H as <- H. result_ok H. injection H as <-. simpl.
      exists f, a0. repeat split; try done. by eapply verifyWebauthnFactor_proven.
    - destruct (verifyMobileFactor _ _ _ _ _ _ _ _) as [st1 [f|]] eqn:E; [|done].
      injection H as <- H. result_ok H. injection H as <-. simpl.
      exists f, a. repeat split; try done. by eapply verifyMobileFactor_proven. }
  destruct (escalate_spec _ _ _ _ _ He) as (H1 & H2 & H3).
  repeat split; try done. exists dev, (vf_challengeIssuedAt f).
  split; [done|]. split; [done|]. rewrite <- Hplat. done.
Qed.

Lemma escalate_errors t f reauth now : escalateAchievedLevel t f reauth now <> Err InconsistentDecision.
Proof. unfold escalateAchievedLevel. repeat case_match; done. Qed.

Lemma achieved_no_inconsistent h now inp st :
  (achievedDecision wv mv h now inp st).2 <> Err InconsistentDecision.
Proof.
  unfold achievedDecision. destruct (ai_proof inp) as [p|]; [|done].
  destruct (match p with ProofWebauthn _ _ _ _ _ => _ | ProofMobile _ _ _ => _ end)
    as [st1 [f|e]] eqn:E; cbn [snd rbind].
  - destruct (escalateAchievedLevel _ _ _ _) eqn:Ee; cbn [rbind]; [done|].
    intros [= ->]. by apply escalate_errors in Ee.
  - destruct p; unfold verifyWebauthnFactor, verifyMobileFactor in E; destr_in E; done.
Qed.

Lemma enforcePolicy_keeps inp now d d' :
  enforcePolicy inp now d = Ok d' ->
  d_level d' = d_level d /\ d_via d' = d_via d /\ d_deviceId d' = d_deviceId d.
Proof. unfold enforcePolicy. intros H. result_ok H. by injection H as <-. Qed.

Lemma enforce_no_inconsistent inp now d :
  assertDecisionConsistent d = true -> enforcePolicy inp now d <> Err InconsistentDecision.
Proof.
  intros Hd. unfold enforcePolicy.
  destruct (if ai_isApprove inp then _ else _) as [p|e] eqn:Ep; cbn [rbind];
    [|destr_in Ep; congruence].
  destruct (check (negb _) _) as [[]|e] eqn:Ec; cbn [rbind]; [|by apply check_Err in Ec as [_ ->]].
  match goal with |- context [check (assertDecisionConsistent ?x) _] =>
    change (assertDecisionConsistent x) with (assertDecisionConsistent d) end.
  by rewrite Hd.
Qed.

Lemma assert_inv h now inp st st' d :
  assertApprovalAssurance wv mv h now inp st = (st', Ok d) ->
  exists d0, achievedDecision wv mv h now inp st = (st', Ok d0) /\ enforcePolicy inp now d0 = Ok d.
Proof.
  unfold assertApprovalAssurance. destruct (achievedDecision _ _ _ _ _ _) as [st1 [d0|]];
    intros [= <- H]; eauto.
Qed.

(** C35: A decision is recorded above L1 only when the decider proved possession
    of an enabled device of theirs by a signature over the stored single-use
    challenge; L3 and L4 need a challenge younger than 120 s, and L4 also a
    critical request, a platform-bound key and a fresh re-authentication. *)
Theorem assurance_levels_are_proven h now inp st st' d :
  assertApprovalAssurance wv mv h now inp st = (st', Ok d) ->
  (d_level d = L1 <-> d_via d = session_tap)
  /\ (d_level d = L1 <-> d_deviceId d = None)
  /\ (d_level d = L1 \/
      exists dev issuedAt,
        proven now inp st dev issuedAt
        /\ (level_num (d_level d) >= 3 -> now - issuedAt <= APPROVAL_CHALLENGE_TTL_MS)
        /\ (d_level d = L4 -> ai_riskTier inp = critical /\ ad_isPlatformBound dev = true
                              /\ ai_reauthVerified inp = true)).
Proof.
  intros (d0 & Ha & He)%assert_inv.
  destruct (enforcePolicy_keeps _ _ _ _ He) as (-> & -> & ->).
  destruct (achieved_spec _ _ _ _ _ _ Ha) as [(-> & -> & -> & _)|(Hv & Hl & Hd & dev & t & Hp & H3 & H4)].
  - split; [done|]. split; [done|]. by left.
  - split; [naive_solver|]. split; [naive_solver|]. right. exists dev, t. naive_solver.
Qed.

(** Under an enforcing partner policy an approve succeeds only at a level
    that reaches both the default floor of its risk tier and the partner's
    override; outside enforcement an approve below the floor is flagged as a
    grace downgrade. *)
Lemma enforced_floor h now inp st st' d policy :
  ai_isApprove inp = true -> ai_policy inp = Some policy ->
  assertApprovalAssurance wv mv h now inp st = (st', Ok d) ->
  let required := requiredAssurance (ai_riskTier inp)
                    (match policy with Some p => pp_floorOverrides p | None => None end) in
  d_requiredLevel d = required
  /\ (isEnforcing policy now = true ->
      level_num (DEFAULT_ASSURANCE_FLOOR (ai_riskTier inp)) <= level_num required
                                                            <= level_num (d_level d))
  /\ (d_graceDowngrade d = true <-> level_num (d_level d) < level_num required).
Proof.
  intros Hi Hp (d0 & _ & He)%assert_inv required.
  unfold enforcePolicy in He. rewrite Hi, Hp in He. cbn [rbind] in He. result_ok He.
  injection He as <-. cbn [d_requiredLevel d_level d_graceDowngrade andb] in *.
  fold required in Hg |- *. split; [done|]. split.
  - intros He. rewrite He in Hg. bool_hyps.
    split; [apply requiredAssurance_floor|lia].
  - apply Z.ltb_lt.
Qed.

(** The consistency backstop never fires: no path through the ladder builds
    a decision whose factor, level and device id contradict each other. *)
Lemma decision_always_consistent h now inp st :
  (assertApprovalAssurance wv mv h now inp st).2 <> Err InconsistentDecision.
Proof.
  unfold assertApprovalAssurance.
  destruct (achievedDecision wv mv h now inp st) as [st1 [d|e]] eqn:Ea; cbn [snd rbind].
  - apply enforce_no_inconsistent. unfold assertDecisionConsistent.
    destruct (achieved_spec _ _ _ _ _ _ Ea) as [(-> & -> & -> & _)|(Hv & Hl & Hd & _)]; [done|].
    by rewrite !bool_decide_eq_false_2 by done.
  - intros [= ->]. eapply achieved_no_inconsistent. by rewrite Ea.
Qed.

Lemma deny_passes h now inp st :
  ai_isApprove inp = false -> ai_proof inp = None ->
  assertApprovalAssurance wv mv h now inp st = (st, Ok (resolveApprovalAssurance (ai_riskTier inp))).
Proof.
  intros Hi Hp. unfold assertApprovalAssurance, achievedDecision, enforcePolicy.
  by rewrite Hp, Hi.
Qed.

(** Refusing never needs a factor: a deny with no proof always succeeds, at
    L1, reads no policy and touches no state. *)
Lemma deny_always_possible h now inp st :
  ai_isApprove inp = false -> ai_proof inp = None ->
  assertApprovalAssurance wv mv h now inp st =
  (st, Ok (resolveApprovalAssurance (ai_riskTier inp))).
Proof. apply deny_passes. Qed.

(** The Redis key of the challenge a proof answers. *)
Definition proof_key (inp : AssuranceInput) : option string :=
  match ai_proof inp with
  | Some (ProofMobile _ _ _) => Some (assertionKey (ai_approvalId inp) (ai_userId inp))
  | Some (ProofWebauthn _ _ _ _ _) =>
      Some (webauthnAssertionKey (ai_approvalId inp) (ai_userId inp))
  | None => None
  end.

Lemma attempt_burns_challenge h now inp st st' r k :
  proof_key inp = Some k -> assertApprovalAssurance wv mv h now inp st = (st', r) ->
  r <> Err DeviceNotRegistered -> r <> Err RedisUnavailable -> as_redis st' !! k = None.
Proof.
  unfold proof_key, assertApprovalAssurance, achievedDecision. intros Hk H Hr1 Hr2.
  destruct (ai_proof inp) as [[cred a c s uh|cred nonce sig]|] eqn:Ep; [..|done];
    injection Hk as <-.
  - unfold verifyWebauthnFactor in H. destruct (select1 _ _); [|by injection H as <- <-].
    destruct (negb _); [by injection H as <- <-|].
    destruct (consumeNonce _ _ _) as [r' v] eqn:Ec. apply consumeNonce_gone in Ec.
    destruct v as [[]|]; [|by injection H as <- <-].
    destruct (wv _ _ _) as [[[] ?]|]; by injection H as <- <-.
  - unfold verifyMobileFactor in H. destruct (as_devices st !! cred); [|by injection H as <- <-].
    destruct (_ && _ && _) in H; [|by injection H as <- <-].
    destruct (negb (as_redisUp st)); [by injection H as <- <-|].
    destruct (consumeNonce _ _ _) as [r' v] eqn:Ec. apply consumeNonce_gone in Ec.
    destruct v as [[]|]; [|by injection H as <- <-].
    destruct (negb _); [by injection H as <- <-|].
    destruct (negb _); by injection H as <- <-.
Qed.

Lemma no_challenge_no_decision h now inp st k :
  proof_key inp = Some k -> as_redis st !! k = None ->
  exists e, (assertApprovalAssurance wv mv h now inp st).2 = Err e.
Proof.
  unfold proof_key, assertApprovalAssurance, achievedDecision. intros Hk Hn.
  destruct (ai_proof inp) as [[cred a c s uh|cred nonce sig]|]; [..|done];
    injection Hk as <-; unfold verifyWebauthnFactor, verifyMobileFactor;
    rewrite (consumeNonce_missing _ _ _ Hn); repeat case_match; simplify_eq; simpl; eauto.
Qed.

(** A challenge is single-use: once a proof for an approval has been checked
    against the stored challenge, whatever the outcome, no later attempt with a
    proof of the same kind succeeds until a new challenge is issued. *)
Lemma challenge_single_use h h2 now now2 inp inp2 st st' st2 r k :
  proof_key inp = Some k -> proof_key inp2 = Some k ->
  assertApprovalAssurance wv mv h now inp st = (st', r) ->
  r <> Err DeviceNotRegistered -> r <> Err RedisUnavailable ->
  as_redis st2 = as_redis st' ->
  exists e, (assertApprovalAssurance wv mv h2 now2 inp2 st2).2 = Err e.
Proof.
  intros Hk Hk2 H H1 H2 Heq. eapply no_challenge_no_decision; [done|].
  rewrite Heq. exact (attempt_burns_challenge _ _ _ _ _ _ _ Hk H H1 H2).
Qed.

End ladder_facts.

(** ** Witnesses: an RSA verifier that accepts one signature *)

Definition demo_wv (p : ApprovalProof) (c : string) (d : AuthenticatorDevice)
  : option (bool * Z) := None.
Definition demo_mv (key payload sig : string) : bool := bool_decide (sig = "sig").
Definition demo_device : AuthenticatorDevice :=
  {| ad_id := "dev"; ad_userId := "u"; ad_credentialId := None; ad_kind := k_mobile_hw_key;
     ad_disabledAt := None; ad_publicKey := "pk"; ad_signCount := 0;
     ad_isPlatformBound := true; ad_lastUsedAt := None |}.
Definition demo_auth : AuthState :=
  {| as_redisUp := true;
     as_redis := issueNonce (assertionKey "a" "u") ASSERTION_TTL 1000 "n" ∅;
     as_devices := {[ "dev" := demo_device ]} |}.
Definition demo_input (approve : bool) (p : option ApprovalProof) : AssuranceInput :=
  {| ai_approvalId := "a"; ai_userId := "u"; ai_riskTier := critical; ai_proof := p;
     ai_isApprove := approve; ai_reauthVerified := true;
     ai_policy := Some (Some {| pp_requireEnrollment := true; pp_enforceFrom := None;
                                pp_floorOverrides := None |}) |}.
Definition demo_proof : ApprovalProof := ProofMobile "dev" "n" "sig".
Definition demo_run : AuthState * result AssuranceError AssuranceDecision :=
  assertApprovalAssurance demo_wv demo_mv 0 2000 (demo_input true (Some demo_proof)) demo_auth.

Definition demo_decision : AssuranceDecision :=
  {| d_requiredLevel := L4; d_level := L4; d_via := mobile_hw_key; d_deviceId := Some "dev";
     d_graceDowngrade := false |}.

Lemma demo_run_eq : demo_run = (demo_run.1, Ok demo_decision).
Proof. by vm_compute. Qed.

Lemma decodeNonce_witness : decodeNonce (encodeNonce "a:b" 1700) 5 = ("a:b"%string, 1700).
Proof. apply (decodeNonce_encodeNonce "a:b" 1700 5). lia. Defined.

Lemma assurance_levels_witness :
  d_level demo_decision = L4 /\ (d_level demo_decision = L1 <-> d_via demo_decision = session_tap).
Proof.
  split; [reflexivity|].
  apply (assurance_levels_are_proven demo_wv demo_mv 0 2000 (demo_input true (Some demo_proof))
           demo_auth demo_run.1 demo_decision demo_run_eq).
Defined.

Lemma enforced_floor_witness : 4 <= level_num (d_level demo_decision).
Proof.
  apply (enforced_floor demo_wv demo_mv 0 2000 (demo_input true (Some demo_proof)) demo_auth
           demo_run.1 demo_decision _ eq_refl eq_refl demo_run_eq). reflexivity.
Defined.

Lemma deny_witness :
  assertApprovalAssurance demo_wv demo_mv 0 5 (demo_input false None) demo_auth
  = (demo_auth, Ok (resolveApprovalAssurance critical)).
Proof.
  apply (deny_always_possible demo_wv demo_mv 0 5 (demo_input false None) demo_auth);
    reflexivity.
Defined.

Lemma single_use_witness :
  exists e, (assertApprovalAssurance demo_wv demo_mv 0 2001 (demo_input true (Some demo_proof))
               demo_run.1).2 = Err e.
Proof.
  apply (challenge_single_use demo_wv demo_mv 0 0 2000 2001 (demo_input true (Some demo_proof))
           (demo_input true (Some demo_proof)) demo_auth demo_run.1 demo_run.1 (Ok demo_decision)
           (assertionKey "a" "u") eq_refl eq_refl demo_run_eq); [discriminate..|reflexivity].
Defined.
