(* ===== verification/Tenant.v ===== *)
(** * Tenants: the directory of organisations and partners, and who is active

    The rows of db/schema/orgs.ts and db/schema/users.ts that authorization
    reads, the row-level-security predicates of the migrations that filter
    them, and apps/api/src/services/tenantStatus.ts: the active-tenant gates of
    sessions, API keys and agents. *)

From stdpp Require Import base gmap strings list option.
From Stdlib Require Import ZArith Lia Ascii.
From S2P Require Import Prelude.

(** ** The directory *)

Inductive Scope : Type := system | partner | organization.
#[export] Instance Scope_eq_dec : EqDecision Scope.
Proof. solve_decision. Defined.

Inductive OrgAccess : Type := oa_all | oa_selected | oa_none.
#[export] Instance OrgAccess_eq_dec : EqDecision OrgAccess.
Proof. solve_decision. Defined.

(** A row of [organizations]; [status] is the text of its enum. *)
Record Organization : Type := {
  o_id : string;
  o_partnerId : string;
  o_status : string;
  o_deletedAt : option Z;
}.

(** A row of [partners]. *)
Record Partner : Type := {
  pa_id : string;
  pa_status : string;
  pa_deletedAt : option Z;
}.

(** A row of [users]. *)
Record User : Type := {
  u_id : string;
  u_email : string;
  u_name : string;
  u_status : string;
  u_isPlatformAdmin : bool;
}.

(** A row of [roles]: a system template, or owned by a partner or an org. *)
Record Role : Type := {
  ro_id : string;
  ro_partnerId : option string;
  ro_orgId : option string;
  ro_isSystem : bool;
}.

Record Permission : Type := {
  p_resource : string;
  p_action : string;
}.

Record OrganizationUser : Type := {
  ou_orgId : string;
  ou_userId : string;
  ou_roleId : string;
  ou_siteIds : option (list string);
}.

Record PartnerUser : Type := {
  pu_partnerId : string;
  pu_userId : string;
  pu_roleId : string;
  pu_orgAccess : OrgAccess;
  pu_orgIds : option (list string);
}.

(** The tables, keyed by primary key; the membership tables have no uniqueness
    constraint on (user, tenant), so they are lists. [dr_rolePermissions] is
    the join table of role ids and permission ids. *)
Record Directory : Type := {
  dr_organizations : gmap string Organization;
  dr_partners : gmap string Partner;
  dr_users : gmap string User;
  dr_apiKeys : gmap string string;
  dr_roles : gmap string Role;
  dr_permissions : gmap string Permission;
  dr_rolePermissions : list (string * string);
  dr_organizationUsers : list OrganizationUser;
  dr_partnerUsers : list PartnerUser;
}.

(** ** Row-level security *)

(** [DbAccessContext]: what a transaction may see. *)
Record DbAccessContext : Type := {
  dc_scope : Scope;
  dc_accessibleOrgIds : option (list string);
  dc_accessiblePartnerIds : option (list string);
}.

Definition SYSTEM_CONTEXT : DbAccessContext :=
  {| dc_scope := system; dc_accessibleOrgIds := None; dc_accessiblePartnerIds := None |}.

Definition in_ids (ids : option (list string)) (id : string) : bool :=
  match ids with Some l => bool_decide (id ∈ l) | None => false end.

(** [breeze_has_org_access(target)] *)
Definition breeze_has_org_access (ctx : DbAccessContext) (target : option string) : bool :=
  match dc_scope ctx, target with
  | system, _ => true
  | _, None => false
  | _, Some id => in_ids (dc_accessibleOrgIds ctx) id
  end.

(** [breeze_has_partner_access(target)] *)
Definition breeze_has_partner_access (ctx : DbAccessContext) (target : option string) : bool :=
  match dc_scope ctx, target with
  | system, _ => true
  | _, None => false
  | _, Some id => in_ids (dc_accessiblePartnerIds ctx) id
  end.

(** The SELECT policy of [role_permissions]: the owning role is the caller's
    partner's, the caller's org's, or a system template. *)
Definition role_visible (ctx : DbAccessContext) (dir : Directory) (roleId : string) : bool :=
  match dr_roles dir !! roleId with
  | Some r =>
      breeze_has_partner_access ctx (ro_partnerId r)
      || breeze_has_org_access ctx (ro_orgId r)
      || (ro_isSystem r && bool_decide (ro_partnerId r = None) && bool_decide (ro_orgId r = None))
  | None => false
  end.

(** ** Tenant status *)

Definition isUsableOrgStatus (status : string) : bool :=
  bool_decide (status = "active") || bool_decide (status = "trial").

(** The status reads escalate to a system context ([readAsSystem]), so they see
    every row. *)
Definition getActivePartner (dir : Directory) (partnerId : string) : option string :=
  match dr_partners dir !! partnerId with
  | Some p =>
      if bool_decide (pa_deletedAt p = None) && bool_decide (pa_status p = "active")
      then Some partnerId else None
  | None => None
  end.

Definition getSessionAllowedPartner (dir : Directory) (partnerId : string) : option string :=
  match dr_partners dir !! partnerId with
  | Some p =>
      if bool_decide (pa_deletedAt p = None)
         && (bool_decide (pa_status p = "active") || bool_decide (pa_status p = "pending"))
      then Some partnerId else None
  | None => None
  end.

Definition getActiveOrgTenant (dir : Directory) (orgId : string) : option (string * string) :=
  match dr_organizations dir !! orgId with
  | Some org =>
      if bool_decide (o_deletedAt org = None) && isUsableOrgStatus (o_status org) then
        match getActivePartner dir (o_partnerId org) with
        | Some _ => Some (orgId, o_partnerId org)
        | None => None
        end
      else None
  | None => None
  end.

Inductive TenantInactive : Type := PartnerNotActive | OrgContextRequired | OrgNotActive.

(** [assertActiveTenantContext(context, { strictForOauth })] *)
Definition assertActiveTenantContext (dir : Directory) (scope : Scope)
    (partnerId orgId : option string) (strictForOauth : bool) : result TenantInactive unit :=
  match scope with
  | system => Ok tt
  | partner =>
      match partnerId with
      | Some pid =>
          if strictForOauth
          then check (bool_decide (getActivePartner dir pid <> None)) PartnerNotActive
          else check (bool_decide (getSessionAllowedPartner dir pid <> None)) PartnerNotActive
      | None => Err PartnerNotActive
      end
  | organization =>
      match orgId with
      | None => Err OrgContextRequired
      | Some oid =>
          match getActiveOrgTenant dir oid with
          | None => Err OrgNotActive
          | Some (_, owner) =>
              match partnerId with
              | Some pid => check (bool_decide (owner = pid)) OrgNotActive
              | None => Ok tt
              end
          end
      end
  end.

(** ** The agent gate, with its positive cache *)

Inductive AgentTenantState : Type := ats_active | ats_draining.
#[export] Instance AgentTenantState_eq_dec : EqDecision AgentTenantState.
Proof. solve_decision. Defined.

(** The authoritative read of [getAgentTenantState]. *)
Definition agentTenantRow (dir : Directory) (orgId : string) : option AgentTenantState :=
  match dr_organizations dir !! orgId with
  | Some org =>
      if negb (bool_decide (o_deletedAt org = None)) then None
      else match dr_partners dir !! o_partnerId org with
      | Some p =>
          if negb (bool_decide (pa_deletedAt p = None)) then None
          else
            let orgUsable := isUsableOrgStatus (o_status org) in
            if orgUsable && bool_decide (pa_status p = "active") then Some ats_active
            else
              let orgDraining := bool_decide (o_status org = "offboarding")
                && (bool_decide (pa_status p = "active")
                    || bool_decide (pa_status p = "offboarding")) in
              let partnerDraining := bool_decide (pa_status p = "offboarding") && orgUsable in
              if orgDraining || partnerDraining then Some ats_draining else None
      | None => None
      end
  | None => None
  end.

Definition AGENT_TENANT_OK_CACHE_SECONDS : Z := 60.

(** The cached value and its expiry, per org; [None] when Redis is down. *)
Definition AgentCache : Type := option (gmap string (AgentTenantState * Z)).

Definition getAgentTenantState (dir : Directory) (now : Z) (orgId : string) (c : AgentCache)
  : AgentCache * option AgentTenantState :=
  let cached := match c with
    | Some m => match m !! orgId with
                | Some (s, exp) => if now <? exp then Some s else None
                | None => None
                end
    | None => None
    end in
  match cached with
  | Some s => (c, Some s)
  | None =>
      let state := agentTenantRow dir orgId in
      match state, c with
      | Some s, Some m =>
          (Some (<[orgId := (s, now + AGENT_TENANT_OK_CACHE_SECONDS * 1000)]> m), state)
      | _, _ => (c, state)
      end
  end.

Definition isAgentTenantActive (dir : Directory) (now : Z) (orgId : string) (c : AgentCache)
  : AgentCache * bool :=
  let '(c', s) := getAgentTenantState dir now orgId c in (c', bool_decide (s <> None)).

Definition invalidateAgentTenantCache (orgIds : list string) (c : AgentCache) : AgentCache :=
  match c with
  | Some m => Some (foldr (fun id m => delete id m) m orgIds)
  | None => None
  end.

(** ** Facts *)

Lemma getActivePartner_Some dir pid x :
  getActivePartner dir pid = Some x <->
  x = pid /\ exists p, dr_partners dir !! pid = Some p
                       /\ pa_deletedAt p = None /\ pa_status p = "active"%string.
Proof.
  unfold getActivePartner. destruct (dr_partners dir !! pid) as [p|]; [|naive_solver].
  destruct (_ && _) eqn:E; bool_hyps; [naive_solver|].
  split; [done|]. intros (-> & p' & [= <-] & H1 & H2).
  rewrite H1, H2 in E. by rewrite !bool_decide_eq_true_2 in E.
Qed.

Lemma agentTenantRow_active dir orgId :
  agentTenantRow dir orgId = Some ats_active <-> getActiveOrgTenant dir orgId <> None.
Proof.
  unfold agentTenantRow, getActiveOrgTenant, getActivePartner.
  destruct (dr_organizations dir !! orgId) as [org|]; [|naive_solver].
  destruct (bool_decide (o_deletedAt org = None)); cbn [negb andb]; [|naive_solver].
  destruct (isUsableOrgStatus (o_status org)) eqn:Eu; cbn [andb];
    (destruct (dr_partners dir !! o_partnerId org) as [p|]; [|naive_solver]);
    (destruct (bool_decide (pa_deletedAt p = None)); cbn [negb andb]; [|naive_solver]);
    repeat case_match; naive_solver.
Qed.

(** The agent gate and the user gate agree on live tenants: an agent has the
    full surface exactly when the session, API-key and OAuth gates accept the
    org; a draining tenant is refused by those gates, and an agent refused by
    its gate belongs to a tenant they refuse too. *)
Lemma agent_gate_agrees_with_user_gate dir orgId :
  (agentTenantRow dir orgId = Some ats_active <-> getActiveOrgTenant dir orgId <> None)
  /\ (agentTenantRow dir orgId <> Some ats_active ->
      forall pid strict, exists e, assertActiveTenantContext dir organization pid (Some orgId) strict = Err e).
Proof.
  split; [apply agentTenantRow_active|]. intros H pid strict.
  unfold assertActiveTenantContext. rewrite agentTenantRow_active in H.
  destruct (getActiveOrgTenant dir orgId) as [[]|]; [by destruct H|eauto].
Qed.

(** The agent gate never admits a tenant on stale data for longer than the
    cache window: what it answers is the directory's present answer, or the
    answer stored in an entry that has not expired; refusals are never cached,
    and an invalidated org is read afresh. *)
Lemma agent_gate_cache_sound dir now orgId c c' s :
  getAgentTenantState dir now orgId c = (c', s) ->
  (s = agentTenantRow dir orgId
   \/ exists m st exp, c = Some m /\ m !! orgId = Some (st, exp) /\ now < exp /\ s = Some st)
  /\ (s = None -> c' = c)
  /\ (getAgentTenantState dir now orgId (invalidateAgentTenantCache [orgId] c)).2
     = agentTenantRow dir orgId.
Proof.
  intros H. split; [|split].
  - unfold getAgentTenantState in H.
    destruct c as [m|]; [destruct (m !! orgId) as [[st exp]|] eqn:Em; [destruct (now <? exp) eqn:El|]|];
      destruct (agentTenantRow dir orgId) as [r|]; injection H as <- <-; bool_hyps; auto;
      right; exists m, st, exp; auto.
  - intros ->. unfold getAgentTenantState in H. destr_in H; done.
  - unfold getAgentTenantState, invalidateAgentTenantCache.
    destruct c as [m|]; cbn [foldr].
    + rewrite lookup_delete_eq. by destruct (agentTenantRow dir orgId).
    + by destruct (agentTenantRow dir orgId).
Qed.

Definition demo_dir : Directory :=
  {| dr_organizations := {[ "org" := {| o_id := "org"; o_partnerId := "p"; o_status := "active";
                                        o_deletedAt := None |} ]};
     dr_partners := {[ "p" := {| pa_id := "p"; pa_status := "active"; pa_deletedAt := None |} ]};
     dr_users := {[ "u" := {| u_id := "u"; u_email := "u@x"; u_name := "U"; u_status := "active";
                              u_isPlatformAdmin := false |} ]};
     dr_apiKeys := ∅;
     dr_roles := <[ "r" := {| ro_id := "r"; ro_partnerId := Some "p"; ro_orgId := None;
                              ro_isSystem := false |} ]>
                 {[ "viewer" := {| ro_id := "viewer"; ro_partnerId := None; ro_orgId := None;
                                   ro_isSystem := true |} ]};
     dr_permissions := <[ "all" := {| p_resource := "*"; p_action := "*" |} ]>
                       {[ "read" := {| p_resource := "devices"; p_action := "read" |} ]};
     dr_rolePermissions := [("r", "all"); ("viewer", "read")];
     dr_organizationUsers := [];
     dr_partnerUsers := [{| pu_partnerId := "p"; pu_userId := "u"; pu_roleId := "r";
                            pu_orgAccess := oa_all; pu_orgIds := None |}] |}.

Lemma agent_gate_cache_witness :
  (getAgentTenantState demo_dir 7 "org" (Some ∅)).2 = Some ats_active
  /\ (getAgentTenantState demo_dir 7 "org" (invalidateAgentTenantCache ["org"] (Some ∅))).2
     = agentTenantRow demo_dir "org".
Proof.
  split; [by vm_compute|].
  exact (proj2 (proj2 (agent_gate_cache_sound demo_dir 7 "org" (Some ∅) _ _ eq_refl))).
Defined.
