(* ===== verification/Permissions.v ===== *)
(** * Permissions: role resolution, its cache, and who may decide an intent

    apps/api/src/services/permissions.ts and permissionMatching.ts, and
    apps/api/src/services/actionIntents/intentApprovers.ts. The two resolvers
    read the same tables by different routes: one walks from a user to a
    permission set, the other from a permission to the users that hold it. *)

From stdpp Require Import base gmap strings list option.
From Stdlib Require Import ZArith Lia Ascii.
From S2P Require Import Prelude Tenant.

(** ** Grants *)

Definition permissionGrantMatches (grant : Permission) (resource action : string) : bool :=
  (bool_decide (p_resource grant = resource) || bool_decide (p_resource grant = "*"))
  && (bool_decide (p_action grant = action) || bool_decide (p_action grant = "*")).

Record UserPermissions : Type := {
  up_permissions : list Permission;
  up_partnerId : option string;
  up_orgId : option string;
  up_roleId : string;
  up_scope : Scope;
  up_orgAccess : option OrgAccess;
  up_allowedOrgIds : option (list string);
  up_allowedSiteIds : option (list string);
}.

Definition hasPermission (userPerms : UserPermissions) (resource action : string) : bool :=
  existsb (fun p => permissionGrantMatches p resource action) (up_permissions userPerms).

(** [PERMISSIONS.APPROVALS_DECIDE] *)
Definition userCanDecideApprovals (userPerms : UserPermissions) : bool :=
  hasPermission userPerms "approvals" "decide".

Definition canAccessOrg (userPerms : UserPermissions) (orgId : string) : bool :=
  match up_scope userPerms with
  | organization => bool_decide (up_orgId userPerms = Some orgId)
  | partner =>
      match up_orgAccess userPerms with
      | Some oa_all => true
      | Some oa_none => false
      | Some oa_selected => in_ids (up_allowedOrgIds userPerms) orgId
      | None => true
      end
  | system => true
  end.

Definition canAccessSite (userPerms : UserPermissions) (siteId : string) : bool :=
  match up_allowedSiteIds userPerms with
  | None => true
  | Some l => bool_decide (siteId ∈ l)
  end.

(** ** Resolving a user's role *)

(** [canSee(axis, id)] on the ambient context. *)
Definition canSeeOrg (ambient : option DbAccessContext) (id : string) : bool :=
  match ambient with
  | None => false
  | Some a => match dc_scope a with system => true | _ => in_ids (dc_accessibleOrgIds a) id end
  end.

Definition canSeePartner (ambient : option DbAccessContext) (id : string) : bool :=
  match ambient with
  | None => false
  | Some a => match dc_scope a with system => true | _ => in_ids (dc_accessiblePartnerIds a) id end
  end.

(** [runForAxis(visible, fn)]: the context [fn]'s reads run under. *)
Definition runForAxis (ambient : option DbAccessContext) (visible : bool) : DbAccessContext :=
  match visible, ambient with
  | true, Some a => a
  | _, _ => SYSTEM_CONTEXT
  end.

(** The permissions of a role, as a transaction in context [ctx] reads them. *)
Definition rolePerms (ctx : DbAccessContext) (dir : Directory) (roleId : string) : list Permission :=
  omap (fun rp => dr_permissions dir !! rp.2)
    (List.filter (fun rp => bool_decide (rp.1 = roleId) && role_visible ctx dir rp.1)
       (dr_rolePermissions dir)).

(** The [context] argument: [{ partnerId?, orgId? }]. *)
Record PermContext : Type := {
  pc_partnerId : option string;
  pc_orgId : option string;
}.

Definition resolveOrgAxis (h : nat) (ctx : DbAccessContext) (dir : Directory) (userId : string)
    (context : PermContext) (orgId : string) : option UserPermissions :=
  let rows := List.filter (fun r => bool_decide (ou_userId r = userId)
                && bool_decide (ou_orgId r = orgId)
                && breeze_has_org_access ctx (Some (ou_orgId r))) (dr_organizationUsers dir) in
  match select1 h rows with
  | Some r =>
      if bool_decide (ou_roleId r = "") then None
      else Some {| up_permissions := rolePerms ctx dir (ou_roleId r);
                   up_partnerId := pc_partnerId context; up_orgId := pc_orgId context;
                   up_roleId := ou_roleId r; up_scope := organization; up_orgAccess := None;
                   up_allowedOrgIds := None; up_allowedSiteIds := ou_siteIds r |}
  | None => None
  end.

Definition resolvePartnerAxis (h : nat) (ctx : DbAccessContext) (dir : Directory) (userId : string)
    (context : PermContext) (partnerId : string) : option UserPermissions :=
  let rows := List.filter (fun r => bool_decide (pu_userId r = userId)
                && bool_decide (pu_partnerId r = partnerId)
                && breeze_has_partner_access ctx (Some (pu_partnerId r))) (dr_partnerUsers dir) in
  match select1 h rows with
  | Some r =>
      if bool_decide (pu_roleId r = "") then None
      else Some {| up_permissions := rolePerms ctx dir (pu_roleId r);
                   up_partnerId := pc_partnerId context; up_orgId := pc_orgId context;
                   up_roleId := pu_roleId r; up_scope := partner;
                   up_orgAccess := Some (pu_orgAccess r);
                   up_allowedOrgIds := pu_orgIds r; up_allowedSiteIds := None |}
  | None => None
  end.

(** The cache-miss path: the org axis first, then the partner axis. *)
Definition resolvePermissions (h : nat) (ambient : option DbAccessContext) (dir : Directory)
    (userId : string) (context : PermContext) : option UserPermissions :=
  let org := match pc_orgId context with
    | Some o => resolveOrgAxis h (runForAxis ambient (canSeeOrg ambient o)) dir userId context o
    | None => None
    end in
  match org with
  | Some p => Some p
  | None =>
      match pc_partnerId context with
      | Some p => resolvePartnerAxis h (runForAxis ambient (canSeePartner ambient p)) dir userId
                    context p
      | None => None
      end
  end.

(** ** The cache *)

(** The Redis version counters: one global and one per user, 0 when unset.
    [None] when Redis is unavailable or the read fails. *)
Record VersionStore : Type := {
  vs_global : Z;
  vs_user : gmap string Z;
}.

Definition PermissionCacheVersions : Type := Z * Z.

Definition getPermissionCacheVersions (redis : option VersionStore) (userId : string)
  : option PermissionCacheVersions :=
  match redis with
  | Some v => Some (vs_global v, default 0 (vs_user v !! userId))
  | None => None
  end.

Definition cacheVersionsMatch (cached current : option PermissionCacheVersions) : bool :=
  bool_decide (cached = current).

Record PermissionCacheEntry : Type := {
  ce_userPerms : UserPermissions;
  ce_expiresAt : Z;
  ce_versions : option PermissionCacheVersions;
}.

Abbreviation PermissionCache := (gmap string PermissionCacheEntry).

Definition CACHE_TTL : Z := 300000.

Definition or_empty (s : option string) : string := default ""%string s.

Definition cacheKey (userId : string) (context : PermContext) : string :=
  (userId ++ ":" ++ or_empty (pc_partnerId context) ++ ":" ++ or_empty (pc_orgId context))%string.

(** [getUserPermissions(userId, context)]. The versions are read first, the
    directory afterwards; [now] and [now'] are the two clock reads. *)
Definition getUserPermissions (h : nat) (ambient : option DbAccessContext) (dir : Directory)
    (redis : option VersionStore) (now now' : Z) (userId : string) (context : PermContext)
    (cache : PermissionCache) : PermissionCache * option UserPermissions :=
  let key := cacheKey userId context in
  let versions := getPermissionCacheVersions redis userId in
  let miss :=
    match resolvePermissions h ambient dir userId context with
    | None => (cache, None)
    | Some perms =>
        (<[key := {| ce_userPerms := perms; ce_expiresAt := now' + CACHE_TTL;
                     ce_versions := versions |}]> cache, Some perms)
    end in
  match cache !! key with
  | Some e =>
      if (now <? ce_expiresAt e) && cacheVersionsMatch (ce_versions e) versions
      then (cache, Some (ce_userPerms e)) else miss
  | None => miss
  end.

Definition bumpSharedPermissionCacheVersion (userId : option string) (redis : option VersionStore)
  : option VersionStore :=
  match redis, userId with
  | None, _ => None
  | Some v, Some u =>
      Some {| vs_global := vs_global v;
              vs_user := <[u := default 0 (vs_user v !! u) + 1]> (vs_user v) |}
  | Some v, None => Some {| vs_global := vs_global v + 1; vs_user := vs_user v |}
  end.

(** [clearPermissionCache(userId?)] in one process: its own cache, then the
    shared version. *)
Definition clearPermissionCache (userId : option string)
    (st : PermissionCache * option VersionStore) : PermissionCache * option VersionStore :=
  let '(cache, redis) := st in
  (match userId with
   | Some u => filter (fun kv => startsWith (u ++ ":") kv.1 = false) cache
   | None => ∅
   end,
   bumpSharedPermissionCacheVersion userId redis).

(** ** Eligible approvers *)

(** The roles that grant approvals:decide, wildcards included. *)
Definition grantingRoles (dir : Directory) : list string :=
  omap (fun rp => match dr_permissions dir !! rp.2 with
                  | Some p =>
                      if bool_decide (p_resource p ∈ ["approvals"; "*"]%string)
                         && bool_decide (p_action p ∈ ["decide"; "*"]%string)
                      then Some rp.1 else None
                  | None => None
                  end) (dr_rolePermissions dir).

(** [set.add(x)] on a JavaScript set: insertion order, no duplicates. *)
Definition set_add (s : list string) (x : string) : list string :=
  if bool_decide (x ∈ s) then s else s ++ [x].

Definition resolveIntentApprovers (dir : Directory) (orgId : string) : list string :=
  let grantingRoleIds := grantingRoles dir in
  if bool_decide (grantingRoleIds = []) then []
  else
    let orgMembers := List.filter (fun m => bool_decide (ou_orgId m = orgId)
                        && bool_decide (ou_roleId m ∈ grantingRoleIds)) (dr_organizationUsers dir) in
    let candidates := fold_left (fun s m => set_add s (ou_userId m)) orgMembers [] in
    match dr_organizations dir !! orgId with
    | Some org =>
        let partnerMembers := List.filter (fun m => bool_decide (pu_partnerId m = o_partnerId org)
                                && bool_decide (pu_roleId m ∈ grantingRoleIds)) (dr_partnerUsers dir) in
        fold_left (fun s m =>
            match pu_orgAccess m with
            | oa_all => set_add s (pu_userId m)
            | oa_selected => if in_ids (pu_orgIds m) orgId then set_add s (pu_userId m) else s
            | oa_none => s
            end) partnerMembers candidates
    | None => candidates
    end.

(** ** Resolution does not depend on the caller's row visibility *)

Lemma in_ids_true ids id : in_ids ids id = true <-> exists l, ids = Some l /\ id ∈ l.
Proof.
  unfold in_ids. destruct ids as [l|]; [rewrite bool_decide_eq_true|]; naive_solver.
Qed.

(** The assignment routes give an org member a role of that org or a system
    template, and a partner member a role of that partner or a system template. *)
Definition roles_owned (dir : Directory) : Prop :=
  (forall m, m ∈ dr_organizationUsers dir -> exists r, dr_roles dir !! ou_roleId m = Some r
     /\ (ro_orgId r = Some (ou_orgId m)
         \/ ro_isSystem r = true /\ ro_partnerId r = None /\ ro_orgId r = None))
  /\ (forall m, m ∈ dr_partnerUsers dir -> exists r, dr_roles dir !! pu_roleId m = Some r
     /\ (ro_partnerId r = Some (pu_partnerId m)
         \/ ro_isSystem r = true /\ ro_partnerId r = None /\ ro_orgId r = None)).

Lemma canSeeOrg_access ambient o :
  breeze_has_org_access (runForAxis ambient (canSeeOrg ambient o)) (Some o) = true.
Proof.
  destruct ambient as [a|]; [|done]. unfold canSeeOrg, runForAxis, breeze_has_org_access.
  destruct (dc_scope a) eqn:E; [by rewrite E|..]; destruct (in_ids _ _) eqn:Ei;
    by rewrite ?E, ?Ei.
Qed.

Lemma canSeePartner_access ambient p :
  breeze_has_partner_access (runForAxis ambient (canSeePartner ambient p)) (Some p) = true.
Proof.
  destruct ambient as [a|]; [|done]. unfold canSeePartner, runForAxis, breeze_has_partner_access.
  destruct (dc_scope a) eqn:E; [by rewrite E|..]; destruct (in_ids _ _) eqn:Ei;
    by rewrite ?E, ?Ei.
Qed.

Lemma filter_ext_elem {A} (p q : A -> bool) l :
  (forall x, x ∈ l -> p x = q x) -> List.filter p l = List.filter q l.
Proof. intros H. apply List.filter_ext_in. intros x Hx. by apply H, list_elem_of_In. Qed.

Lemma rolePerms_visible ctx ctx' dir roleId :
  role_visible ctx dir roleId = role_visible ctx' dir roleId ->
  rolePerms ctx dir roleId = rolePerms ctx' dir roleId.
Proof.
  intros H. unfold rolePerms. f_equal. apply filter_ext_elem. intros [r p] _. cbn [fst].
  case_bool_decide as E; [|done]. by rewrite E, H.
Qed.

Lemma resolveOrgAxis_context h ctx ctx' dir u c o :
  roles_owned dir ->
  breeze_has_org_access ctx (Some o) = true -> breeze_has_org_access ctx' (Some o) = true ->
  resolveOrgAxis h ctx dir u c o = resolveOrgAxis h ctx' dir u c o.
Proof.
  intros [Ho _] H1 H2. unfold resolveOrgAxis.
  rewrite (filter_ext_elem
    (fun r => bool_decide (ou_userId r = u) && bool_decide (ou_orgId r = o)
              && breeze_has_org_access ctx (Some (ou_orgId r)))
    (fun r => bool_decide (ou_userId r = u) && bool_decide (ou_orgId r = o)
              && breeze_has_org_access ctx' (Some (ou_orgId r))) (dr_organizationUsers dir)).
  - destruct (select1 h _) as [m|] eqn:Es; [|done].
    apply select1_elem, list_filter_elem in Es as [Hin Hm]. bool_hyps. subst.
    case_bool_decide; [done|]. erewrite rolePerms_visible; [done|].
    destruct (Ho m Hin) as (r & Hr & Hown). unfold role_visible. rewrite Hr.
    destruct Hown as [-> | (-> & -> & ->)].
    + by rewrite H1, H2, !orb_true_r.
    + by rewrite !bool_decide_eq_true_2, !orb_true_r.
  - intros m _. cbv beta. case_bool_decide; [|done]. case_bool_decide as E; [|done].
    by rewrite E, H1, H2.
Qed.

Lemma resolvePartnerAxis_context h ctx ctx' dir u c p :
  roles_owned dir ->
  breeze_has_partner_access ctx (Some p) = true -> breeze_has_partner_access ctx' (Some p) = true ->
  resolvePartnerAxis h ctx dir u c p = resolvePartnerAxis h ctx' dir u c p.
Proof.
  intros [_ Hp] H1 H2. unfold resolvePartnerAxis.
  rewrite (filter_ext_elem
    (fun r => bool_decide (pu_userId r = u) && bool_decide (pu_partnerId r = p)
              && breeze_has_partner_access ctx (Some (pu_partnerId r)))
    (fun r => bool_decide (pu_userId r = u) && bool_decide (pu_partnerId r = p)
              && breeze_has_partner_access ctx' (Some (pu_partnerId r))) (dr_partnerUsers dir)).
  - destruct (select1 h _) as [m|] eqn:Es; [|done].
    apply select1_elem, list_filter_elem in Es as [Hin Hm]. bool_hyps. subst.
    case_bool_decide; [done|]. erewrite rolePerms_visible; [done|].
    destruct (Hp m Hin) as (r & Hr & Hown). unfold role_visible. rewrite Hr.
    destruct Hown as [-> | (-> & -> & ->)].
    + by rewrite H1, H2.
    + by rewrite !bool_decide_eq_true_2, !orb_true_r.
  - intros m _. cbv beta. case_bool_decide; [|done]. case_bool_decide as E; [|done].
    by rewrite E, H1, H2.
Qed.

(** A user's permission set does not depend on what the calling transaction
    may see: under any ambient row-level-security context, or none, the
    resolver returns what a system context would, as long as memberships carry
    roles of their own tenant or system roles. *)
Lemma permissions_independent_of_caller h ambient dir userId context :
  roles_owned dir ->
  resolvePermissions h ambient dir userId context
  = resolvePermissions h (Some SYSTEM_CONTEXT) dir userId context.
Proof.
  intros Hown. unfold resolvePermissions.
  assert (Horg : forall o, resolveOrgAxis h (runForAxis ambient (canSeeOrg ambient o)) dir userId context o
                 = resolveOrgAxis h SYSTEM_CONTEXT dir userId context o).
  { intros o. apply resolveOrgAxis_context; [done|apply canSeeOrg_access|done]. }
  assert (Hpar : forall p, resolvePartnerAxis h (runForAxis ambient (canSeePartner ambient p)) dir userId
                   context p = resolvePartnerAxis h SYSTEM_CONTEXT dir userId context p).
  { intros p. apply resolvePartnerAxis_context; [done|apply canSeePartner_access|done]. }
  destruct (pc_orgId context) as [o|]; destruct (pc_partnerId context) as [p|];
    rewrite ?Horg, ?Hpar; done.
Qed.

Definition demo_context : PermContext := {| pc_partnerId := Some "p"; pc_orgId := Some "org" |}.
(** An org-scoped request with no partner visibility, as an API key runs. *)
Definition demo_ambient : DbAccessContext :=
  {| dc_scope := organization; dc_accessibleOrgIds := Some ["org"];
     dc_accessiblePartnerIds := Some [] |}.

Lemma demo_roles_owned : roles_owned demo_dir.
Proof.
  split; cbn; intros m Hm; [by apply not_elem_of_nil in Hm|].
  apply list_elem_of_singleton in Hm as ->. eexists. split; [by vm_compute|]. by left.
Qed.

Lemma permissions_caller_witness :
  (up_roleId <$> resolvePermissions 0 (Some demo_ambient) demo_dir "u" demo_context) = Some "r"%string.
Proof.
  rewrite (permissions_independent_of_caller 0 (Some demo_ambient) demo_dir "u" demo_context
             demo_roles_owned). by vm_compute.
Defined.

(** ** The cache of several processes *)

(** The processes of the API share the directory and Redis; each has a cache.
    Redis stays reachable in this system (its outage falls back to the TTL). *)
Record PermSystem : Type := {
  ps_dir : Directory;
  ps_versions : VersionStore;
  ps_caches : gmap nat PermissionCache;
}.

Definition cache_of (s : PermSystem) (i : nat) : PermissionCache := default ∅ (ps_caches s !! i).

Definition no_colon (s : string) : Prop := indexOf ":" s = None.

Inductive perm_step : PermSystem -> PermSystem -> Prop :=
| perm_get s i h ambient now now' u c cache' r :
    no_colon u ->
    getUserPermissions h ambient (ps_dir s) (Some (ps_versions s)) now now' u c (cache_of s i)
      = (cache', r) ->
    perm_step s {| ps_dir := ps_dir s; ps_versions := ps_versions s;
                   ps_caches := <[i := cache']> (ps_caches s) |}
| perm_clear s i u cache' v' :
    clearPermissionCache u (cache_of s i, Some (ps_versions s)) = (cache', Some v') ->
    perm_step s {| ps_dir := ps_dir s; ps_versions := v';
                   ps_caches := <[i := cache']> (ps_caches s) |}
| perm_write s dir' :
    perm_step s {| ps_dir := dir'; ps_versions := ps_versions s; ps_caches := ps_caches s |}
| perm_restart s i :
    perm_step s {| ps_dir := ps_dir s; ps_versions := ps_versions s;
                   ps_caches := delete i (ps_caches s) |}.

Inductive perm_reach : PermSystem -> Prop :=
| perm_init dir v : perm_reach {| ps_dir := dir; ps_versions := v; ps_caches := ∅ |}
| perm_next s s' : perm_reach s -> perm_step s s' -> perm_reach s'.

(** No entry of a user carries a version from the future. *)
Definition versions_le (v : option PermissionCacheVersions) (cur : VersionStore) (u : string) : Prop :=
  match v with
  | Some (g, n) => g <= vs_global cur /\ n <= default 0 (vs_user cur !! u)
  | None => False
  end.

Definition cache_bounded (cur : VersionStore) (cache : PermissionCache) : Prop :=
  forall u c e, no_colon u -> cache !! cacheKey u c = Some e -> versions_le (ce_versions e) cur u.

Lemma cacheKey_user u1 u2 c1 c2 :
  no_colon u1 -> no_colon u2 -> cacheKey u1 c1 = cacheKey u2 c2 -> u1 = u2.
Proof.
  unfold cacheKey. generalize (or_empty (pc_partnerId c1) ++ ":" ++ or_empty (pc_orgId c1))%string.
  generalize (or_empty (pc_partnerId c2) ++ ":" ++ or_empty (pc_orgId c2))%string.
  intros t s. revert u2. induction u1 as [|a u1 IH]; intros [|b u2] H1 H2 H; [done|..].
  - injection H as <- _. by vm_compute in H2.
  - injection H as -> _. by vm_compute in H1.
  - injection H as -> H. f_equal.
    assert (Htail : forall v, no_colon (String b v) -> no_colon v).
    { unfold no_colon. intros v. cbn [indexOf]. case_match; [done|].
      by destruct (indexOf ":" v). }
    apply IH; [by apply Htail|by apply Htail|done].
Qed.

Lemma get_bounded h ambient dir cur now now' u c cache cache' r :
  no_colon u -> cache_bounded cur cache ->
  getUserPermissions h ambient dir (Some cur) now now' u c cache = (cache', r) ->
  cache_bounded cur cache'.
Proof.
  intros Hu Hb H. unfold getUserPermissions in H.
  assert (cache' = cache \/ exists e, cache' = <[cacheKey u c := e]> cache
            /\ ce_versions e = Some (vs_global cur, default 0 (vs_user cur !! u))) as [->|(e & -> & He)].
  { destruct (cache !! _) as [e|]; [destruct (_ && _); [injection H as <- _; auto|]|];
      (destruct (resolvePermissions _ _ _ _ _); injection H as <- _; [|by auto]);
      right; eexists; split; done. }
  - done.
  - intros u' c' e' Hu' Hk. apply lookup_insert_Some in Hk as [[Hk <-]|[_ Hk]].
    + rewrite He. rewrite (cacheKey_user _ _ _ _ Hu Hu' Hk). simpl. lia.
    + by apply (Hb u' c').
Qed.

Lemma bump_grows u cur v' w :
  bumpSharedPermissionCacheVersion u (Some cur) = Some v' ->
  vs_global cur <= vs_global v' /\ default 0 (vs_user cur !! w) <= default 0 (vs_user v' !! w).
Proof.
  destruct u as [u|]; cbn; intros [= <-]; cbn; [|lia]. split; [lia|].
  destruct (decide (u = w)) as [->|]; [rewrite lookup_insert_eq; simpl; lia|].
  by rewrite lookup_insert_ne.
Qed.

Lemma bump_strict u cur v' :
  bumpSharedPermissionCacheVersion u (Some cur) = Some v' ->
  forall w, (u = None \/ u = Some w) ->
  vs_global cur < vs_global v' \/ default 0 (vs_user cur !! w) < default 0 (vs_user v' !! w).
Proof.
  destruct u as [u|]; cbn; intros [= <-] w [|]; simplify_eq; cbn; [|lia].
  right. rewrite lookup_insert_eq. simpl. lia.
Qed.

Lemma cache_bounded_mono cur cur' cache cache' :
  (forall w, vs_global cur <= vs_global cur'
             /\ default 0 (vs_user cur !! w) <= default 0 (vs_user cur' !! w)) ->
  cache' ⊆ cache -> cache_bounded cur cache -> cache_bounded cur' cache'.
Proof.
  intros Hle Hsub Hb u c e Hu He. pose proof (Hb u c e Hu (lookup_weaken _ _ _ _ He Hsub)) as H.
  unfold versions_le in *. destruct (ce_versions e) as [[g n]|]; [|done].
  specialize (Hle u). lia.
Qed.

Lemma empty_bounded cur : cache_bounded cur ∅.
Proof. intros u c e _ He. by rewrite lookup_empty in He. Qed.

Lemma reach_bounded s : perm_reach s -> forall i, cache_bounded (ps_versions s) (cache_of s i).
Proof.
  induction 1 as [dir v|s s' _ IH Hs]; intros j.
  { unfold cache_of. cbn [ps_caches]. rewrite lookup_empty. apply empty_bounded. }
  unfold cache_of in *. destruct Hs as [s i h ambient now now' u c cache' r Hu Hg|s i u cache' v' Hc|s dir'|s i];
    cbn [ps_versions ps_caches] in *.
  - destruct (decide (i = j)) as [->|]; [|by rewrite lookup_insert_ne].
    rewrite lookup_insert_eq. by eapply get_bounded.
  - injection Hc as Hcache Hv. pose proof (fun w => bump_grows _ _ _ w Hv) as Hle.
    destruct (decide (i = j)) as [->|]; [rewrite lookup_insert_eq|rewrite lookup_insert_ne by done];
      (eapply cache_bounded_mono; [exact Hle| |apply IH]); [|done].
    cbn. rewrite <- Hcache. destruct u; [apply map_filter_subseteq|apply map_empty_subseteq].
  - apply IH.
  - destruct (decide (i = j)) as [->|]; [rewrite lookup_delete_eq|rewrite lookup_delete_ne by done; apply IH].
    apply empty_bounded.
Qed.

(** Invalidation reaches every process: once one process clears a user (or
    everyone), the next lookup of that user in any process is resolved from the
    directory as it is then, whatever that process had cached. *)
Lemma clear_invalidates_every_process s i u w cache' v' :
  perm_reach s -> no_colon w -> (u = None \/ u = Some w) ->
  clearPermissionCache u (cache_of s i, Some (ps_versions s)) = (cache', Some v') ->
  forall j dir h ambient now now' c,
    let caches := <[i := cache']> (ps_caches s) in
    (getUserPermissions h ambient dir (Some v') now now' w c (default ∅ (caches !! j))).2
    = resolvePermissions h ambient dir w c.
Proof.
  intros Hr Hw Hu Hc j dir h ambient now now' c caches. injection Hc as Hcache Hv.
  assert (Hsub : default ∅ (caches !! j) ⊆ cache_of s j).
  { unfold caches, cache_of in *. destruct (decide (i = j)) as [->|].
    - rewrite lookup_insert_eq. cbn. rewrite <- Hcache.
      destruct u; [apply map_filter_subseteq|apply map_empty_subseteq].
    - by rewrite lookup_insert_ne. }
  unfold getUserPermissions. set (cache := default ∅ (caches !! j)) in *.
  assert (Hres : forall (x : PermissionCache) (y : UserPermissions -> PermissionCache),
            (match resolvePermissions h ambient dir w c with
             | None => (x, None) | Some p => (y p, Some p) end).2
            = resolvePermissions h ambient dir w c).
  { intros x y. by destruct (resolvePermissions _ _ _ _ _). }
  destruct (cache !! cacheKey w c) as [e|] eqn:He; [|apply (Hres cache (fun p => _))].
  pose proof (reach_bounded s Hr j w c e Hw (lookup_weaken _ _ _ _ He Hsub)) as Hb.
  destruct (bump_strict _ _ _ Hv w Hu) as [Hlt|Hlt];
    unfold versions_le in Hb; destruct (ce_versions e) as [[g n]|] eqn:Ev; try done;
    (unfold cacheVersionsMatch; cbn; rewrite bool_decide_eq_false_2 by (intros [= -> ->]; lia));
    rewrite andb_false_r; apply (Hres cache (fun p => _)).
Qed.

Definition demo_versions : VersionStore := {| vs_global := 0; vs_user := ∅ |}.

Lemma clear_witness :
  (getUserPermissions 0 None demo_dir (Some {| vs_global := 1; vs_user := ∅ |}) 0 0 "u" demo_context
     (default ∅ ((<[0%nat := ∅]> (∅ : gmap nat PermissionCache)) !! 1%nat))).2
  = resolvePermissions 0 None demo_dir "u" demo_context.
Proof.
  apply (clear_invalidates_every_process
           {| ps_dir := demo_dir; ps_versions := demo_versions; ps_caches := ∅ |} 0 None "u" ∅
           {| vs_global := 1; vs_user := ∅ |}); [apply perm_init|reflexivity|by left|reflexivity].
Defined.

(** ** Approvers and deciders *)

Lemma set_add_elem s x y : y ∈ set_add s x <-> y ∈ s \/ y = x.
Proof.
  unfold set_add. case_bool_decide; [naive_solver|].
  rewrite elem_of_app, list_elem_of_singleton. done.
Qed.

Lemma set_add_NoDup s x : NoDup s -> NoDup (set_add s x).
Proof.
  unfold set_add. case_bool_decide; [done|]. intros Hs. apply list.NoDup_app. split; [done|].
  split; [|apply NoDup_singleton]. intros y Hy Hx. apply list_elem_of_singleton in Hx. congruence.
Qed.

(** Adding to a set in a loop: an element is there at the end when it was there
    at the start or some iteration added it. *)
Lemma fold_set_add {A} (f : A -> option string) l s y :
  y ∈ fold_left (fun s m => match f m with Some x => set_add s x | None => s end) l s
  <-> y ∈ s \/ exists m, m ∈ l /\ f m = Some y.
Proof.
  revert s. induction l as [|m l IH]; intros s; cbn [fold_left].
  { split; [by left|]. intros [?|(m & Hm & _)]; [done|by apply not_elem_of_nil in Hm]. }
  rewrite IH. setoid_rewrite elem_of_cons.
  destruct (f m) as [x|] eqn:E; [rewrite set_add_elem|]; naive_solver.
Qed.

Lemma fold_set_add_NoDup {A} (f : A -> option string) l s :
  NoDup s -> NoDup (fold_left (fun s m => match f m with Some x => set_add s x | None => s end) l s).
Proof.
  revert s. induction l as [|m l IH]; intros s Hs; cbn [fold_left]; [done|].
  apply IH. destruct (f m); [by apply set_add_NoDup|done].
Qed.

Definition member_user (m : OrganizationUser) : option string := Some (ou_userId m).

Definition partner_user (orgId : string) (m : PartnerUser) : option string :=
  match pu_orgAccess m with
  | oa_all => Some (pu_userId m)
  | oa_selected => if in_ids (pu_orgIds m) orgId then Some (pu_userId m) else None
  | oa_none => None
  end.

Lemma fold_left_ext {A B} (f g : A -> B -> A) l a :
  (forall a b, f a b = g a b) -> fold_left f l a = fold_left g l a.
Proof. intros H. revert a. induction l as [|b l IH]; intros a; cbn; [done|]. by rewrite H, IH. Qed.

(** The resolver with its two loops as additions of optional elements. *)
Lemma resolveIntentApprovers_eq dir orgId :
  resolveIntentApprovers dir orgId =
  if bool_decide (grantingRoles dir = []) then []
  else
    let candidates := fold_left (fun s m => match member_user m with Some x => set_add s x | None => s end)
      (List.filter (fun m => bool_decide (ou_orgId m = orgId)
         && bool_decide (ou_roleId m ∈ grantingRoles dir)) (dr_organizationUsers dir)) [] in
    match dr_organizations dir !! orgId with
    | Some org =>
        fold_left (fun s m => match partner_user orgId m with Some x => set_add s x | None => s end)
          (List.filter (fun m => bool_decide (pu_partnerId m = o_partnerId org)
             && bool_decide (pu_roleId m ∈ grantingRoles dir)) (dr_partnerUsers dir)) candidates
    | None => candidates
    end.
Proof.
  unfold resolveIntentApprovers. case_bool_decide; [done|].
  destruct (dr_organizations dir !! orgId); [|done]. cbv zeta. apply fold_left_ext.
  intros s m. unfold partner_user. destruct (pu_orgAccess m); [done| |done]. by case_match.
Qed.

(** A role's permission set holds approvals:decide exactly when the approver
    query returns the role. *)
Lemma grantingRoles_spec dir roleId ctx :
  role_visible ctx dir roleId = true ->
  existsb (fun p => permissionGrantMatches p "approvals" "decide") (rolePerms ctx dir roleId) = true
  <-> roleId ∈ grantingRoles dir.
Proof.
  intros Hv. unfold rolePerms, grantingRoles, permissionGrantMatches.
  rewrite existsb_exists, list_elem_of_omap. split.
  - intros (p & Hp & Hm). apply list_elem_of_In, list_elem_of_omap in Hp as ([r pid] & Hin & Hpid).
    apply list_filter_elem in Hin as [Hin Hr]. cbn in *. bool_hyps. subst r.
    exists (roleId, pid). split; [done|]. cbn. rewrite Hpid.
    apply orb_true_iff in H. apply orb_true_iff in H0. rewrite !bool_decide_eq_true in *.
    rewrite !bool_decide_eq_true_2; [done|set_solver..].
  - intros ([r pid] & Hin & H). cbn in H. destruct (dr_permissions dir !! pid) as [p|] eqn:Hpid; [|done].
    destruct (_ && _) eqn:E; [|done]. injection H as <-. bool_hyps. exists p. split.
    + apply list_elem_of_In, list_elem_of_omap. exists (r, pid). split; [|done].
      apply list_filter_elem. split; [done|]. cbn. by rewrite bool_decide_eq_true_2.
    + apply andb_true_iff. rewrite !orb_true_iff, !bool_decide_eq_true. set_solver.
Qed.

Lemma grantingRoles_nonempty dir r : r ∈ grantingRoles dir -> grantingRoles dir <> [].
Proof. intros H E. rewrite E in H. by apply not_elem_of_nil in H. Qed.

(** The visibility facts the resolver needs, under a system context. *)
Definition roles_exist (dir : Directory) : Prop :=
  (forall m, m ∈ dr_organizationUsers dir -> dr_roles dir !! ou_roleId m <> None)
  /\ (forall m, m ∈ dr_partnerUsers dir -> dr_roles dir !! pu_roleId m <> None).

Lemma system_role_visible dir roleId :
  dr_roles dir !! roleId <> None -> role_visible SYSTEM_CONTEXT dir roleId = true.
Proof. unfold role_visible. by destruct (dr_roles dir !! roleId). Qed.

Lemma orgAxis_decider_is_approver h dir u c orgId perms :
  roles_exist dir ->
  resolveOrgAxis h SYSTEM_CONTEXT dir u c orgId = Some perms ->
  userCanDecideApprovals perms = true ->
  u ∈ resolveIntentApprovers dir orgId.
Proof.
  intros [He _] Hr Hd. unfold resolveOrgAxis in Hr.
  destruct (select1 h _) as [m|] eqn:Es; [|done].
  apply select1_elem, list_filter_elem in Es as [Hin Hm]. bool_hyps. subst.
  case_bool_decide; [done|]. injection Hr as <-.
  unfold userCanDecideApprovals, hasPermission in Hd. cbn [up_permissions] in Hd.
  apply grantingRoles_spec in Hd; [|by apply system_role_visible, He].
  rewrite resolveIntentApprovers_eq.
  rewrite bool_decide_eq_false_2 by (by eapply grantingRoles_nonempty). cbv zeta.
  assert (Hc : ou_userId m ∈ fold_left
            (fun s m => match member_user m with Some x => set_add s x | None => s end)
            (List.filter (fun m' => bool_decide (ou_orgId m' = ou_orgId m)
               && bool_decide (ou_roleId m' ∈ grantingRoles dir)) (dr_organizationUsers dir)) []).
  { apply fold_set_add. right. exists m. split; [|done]. apply list_filter_elem. split; [done|].
    by rewrite !bool_decide_eq_true_2. }
  destruct (dr_organizations dir !! _); [|done]. apply fold_set_add. by left.
Qed.

Lemma partnerAxis_decider_is_approver h dir u c orgId org perms :
  roles_exist dir -> dr_organizations dir !! orgId = Some org ->
  resolvePartnerAxis h SYSTEM_CONTEXT dir u c (o_partnerId org) = Some perms ->
  userCanDecideApprovals perms = true -> canAccessOrg perms orgId = true ->
  u ∈ resolveIntentApprovers dir orgId.
Proof.
  intros [_ He] Horg Hr Hd Ha. unfold resolvePartnerAxis in Hr.
  destruct (select1 h _) as [m|] eqn:Es; [|done].
  apply select1_elem, list_filter_elem in Es as [Hin Hm]. bool_hyps. subst.
  case_bool_decide; [done|]. injection Hr as <-.
  unfold userCanDecideApprovals, hasPermission in Hd. cbn [up_permissions] in Hd.
  apply grantingRoles_spec in Hd; [|by apply system_role_visible, He].
  rewrite resolveIntentApprovers_eq.
  rewrite bool_decide_eq_false_2 by (by eapply grantingRoles_nonempty). cbv zeta.
  rewrite Horg. apply fold_set_add. right. exists m. split.
  - apply list_filter_elem. split; [done|]. by rewrite !bool_decide_eq_true_2.
  - unfold canAccessOrg in Ha. cbn in Ha. unfold partner_user.
    destruct (pu_orgAccess m); [done| |done]. by rewrite Ha.
Qed.

(** Everyone who may decide an intent is asked: a user whose live permission
    set (org membership first, then the org's partner) grants approvals:decide
    and reaches the org is in the approver fan-out, and no one is asked twice. *)
Lemma every_decider_is_an_approver h dir userId orgId org perms :
  roles_exist dir -> dr_organizations dir !! orgId = Some org ->
  resolvePermissions h None dir userId
    {| pc_partnerId := Some (o_partnerId org); pc_orgId := Some orgId |} = Some perms ->
  userCanDecideApprovals perms = true -> canAccessOrg perms orgId = true ->
  userId ∈ resolveIntentApprovers dir orgId /\ NoDup (resolveIntentApprovers dir orgId).
Proof.
  intros He Horg Hr Hd Ha. split.
  - unfold resolvePermissions in Hr. cbn in Hr.
    destruct (resolveOrgAxis _ _ _ _ _ _) as [p|] eqn:Eo.
    + injection Hr as ->. by eapply orgAxis_decider_is_approver.
    + by eapply partnerAxis_decider_is_approver.
  - rewrite resolveIntentApprovers_eq. case_bool_decide; [constructor|]. cbv zeta.
    destruct (dr_organizations dir !! orgId); [apply fold_set_add_NoDup|];
      apply fold_set_add_NoDup; constructor.
Qed.

Lemma every_decider_witness :
  "u"%string ∈ resolveIntentApprovers demo_dir "org" /\ NoDup (resolveIntentApprovers demo_dir "org").
Proof.
  eapply (every_decider_is_an_approver 0 demo_dir "u" "org"
            {| o_id := "org"; o_partnerId := "p"; o_status := "active"; o_deletedAt := None |});
    [|by vm_compute..].
  split; cbn; intros m Hm; [by apply not_elem_of_nil in Hm|].
  apply list_elem_of_singleton in Hm as ->. by vm_compute.
Defined.

(** A partner administrator who is also a plain viewer of the org. *)
Definition dual_member_dir : Directory :=
  {| dr_organizations := dr_organizations demo_dir; dr_partners := dr_partners demo_dir;
     dr_users := dr_users demo_dir; dr_apiKeys := ∅; dr_roles := dr_roles demo_dir;
     dr_permissions := dr_permissions demo_dir; dr_rolePermissions := dr_rolePermissions demo_dir;
     dr_organizationUsers := [{| ou_orgId := "org"; ou_userId := "u"; ou_roleId := "viewer";
                                 ou_siteIds := None |}];
     dr_partnerUsers := dr_partnerUsers demo_dir |}.

(** The converse fails: a partner member whose role grants approvals:decide
    and who also has an org membership with a lesser role is counted and asked
    as an approver, but the live permission set, which takes the org membership
    first, does not let them decide. *)
Lemma an_approver_may_not_be_a_decider :
  resolveIntentApprovers dual_member_dir "org" = ["u"%string]
  /\ forall h, userCanDecideApprovals <$> resolvePermissions h None dual_member_dir "u" demo_context
               = Some false.
Proof.
  split; [by vm_compute|]. intros h. unfold resolvePermissions, resolveOrgAxis.
  cbn [pc_orgId demo_context].
  set (rows := List.filter _ _). assert (Hrows : rows = dr_organizationUsers dual_member_dir) by by vm_compute.
  rewrite Hrows. unfold select1. rewrite Nat.mod_1_r. by vm_compute.
Qed.
