(* ===== verification/Auth.v ===== *)
(** * The authenticated caller

    apps/api/src/middleware/auth.ts ([AuthContext], [buildOrgAccessClosures],
    [siteAccessCheck]) and the org resolution of
    apps/api/src/services/aiTools.ts ([resolveWritableToolOrgId]). *)

From stdpp Require Import base strings list option.
From Stdlib Require Import ZArith Ascii.
From S2P Require Import Prelude Tenant.

(** The kinds of principal behind a context; [pr_unknown] is a record written
    before the discriminator existed. *)
Inductive PrincipalKind : Type :=
| user_session
| client_user
| api_key (apiKeyId : option string)
| oauth_grant (grantId : option string)
| agent
| helper
| system_principal
| unknown.
#[export] Instance PrincipalKind_eq_dec : EqDecision PrincipalKind.
Proof. solve_decision. Defined.

Definition isInteractiveUserSession (p : PrincipalKind) : bool := bool_decide (p = user_session).

(** [AuthContext]. [auth_token] is [None] when the context carries no token, and
    [Some None] for a token whose [roleId] is null (a helper session). *)
Record AuthContext : Type := {
  auth_principal : PrincipalKind;
  auth_userId : string;
  auth_token : option (option string);
  auth_partnerId : option string;
  auth_orgId : option string;
  auth_scope : Scope;
  auth_accessibleOrgIds : option (list string);
  auth_allowedSiteIds : option (list string);
}.

(** [auth.canAccessOrg], as [buildOrgAccessClosures] builds it. *)
Definition auth_canAccessOrg (auth : AuthContext) (orgId : string) : bool :=
  match auth_accessibleOrgIds auth with
  | None => true
  | Some l => bool_decide (orgId ∈ l)
  end.

(** [siteAccessCheck(allowedSiteIds)] *)
Definition siteAccessCheck (allowedSiteIds : option (list string)) (siteId : option string) : bool :=
  match allowedSiteIds with
  | None => true
  | Some l => match siteId with
              | Some (String _ _ as s) => bool_decide (s ∈ l)
              | _ => false
              end
  end.

Inductive OrgResolutionError : Type :=
| OrganizationContextRequired | CannotAccessAnotherOrganization | AccessDenied | OrgIdRequired.

Definition resolveWritableToolOrgId (auth : AuthContext) (inputOrgId : option string)
  : result OrgResolutionError string :=
  match auth_scope auth with
  | organization =>
      match auth_orgId auth with
      | Some (String _ _ as o) =>
          if truthy inputOrgId && negb (bool_decide (inputOrgId = Some o))
          then Err CannotAccessAnotherOrganization
          else Ok o
      | _ => Err OrganizationContextRequired
      end
  | _ =>
      match inputOrgId with
      | Some (String _ _ as i) => if auth_canAccessOrg auth i then Ok i else Err AccessDenied
      | _ =>
          match auth_orgId auth with
          | Some (String _ _ as o) => Ok o
          | _ =>
              match auth_accessibleOrgIds auth with
              | Some [o] => Ok o
              | _ => Err OrgIdRequired
              end
          end
      end
  end.

(** An org the caller may write: their own, or one in their reach. *)
Lemma resolveWritable_reach auth i o :
  resolveWritableToolOrgId auth i = Ok o ->
  auth_orgId auth = Some o \/ auth_canAccessOrg auth o = true.
Proof.
  unfold resolveWritableToolOrgId, auth_canAccessOrg. intros H.
  repeat (case_match; simplify_eq; auto); right; try done; apply bool_decide_eq_true, list_elem_of_here.
Qed.
