(* ===== verification/GuardrailTables.v ===== *)
(** * The guardrail tables

    The literal tables of apps/api/src/services/aiGuardrails.ts and the tier
    tables of aiToolsM365.ts and aiToolsGoogle.ts, entry for entry and in source
    order. A table is the list of its own members; Guardrails.v gives the
    JavaScript lookup. [TOOL_PERMISSIONS] is cut into consecutive pieces. *)

From stdpp Require Import base strings list.
From Stdlib Require Import ZArith Ascii.
From S2P Require Import Prelude Tenant.

(** A value of [TOOL_PERMISSIONS]: one requirement, or one per action. *)
Inductive PermDef : Type :=
| Flat (p : Permission)
| ByAction (l : list (string * Permission)).

Definition P (resource action : string) : Permission :=
  {| p_resource := resource; p_action := action |}.

(** [BLOCKED_TOOLS]: no tool is blocked by name. *)
Definition BLOCKED_TOOLS : list string := [].

Definition TIER2_ACTIONS : list (string * list string) :=
  [
   ("manage_alerts", ["acknowledge"; "resolve"; "suppress"]);
   ("manage_tickets", ["create"; "comment"; "assign"; "update_status"; "update_fields";
     "link_alert"; "unlink_alert"; "create_from_alert"; "edit_comment"; "delete_comment";
     "log_time_entry"; "start_timer"; "stop_timer"]);
   ("manage_services", ["list"]);
   ("file_operations", ["list"]);
   ("manage_configuration_policy", ["activate"; "deactivate"]);
   ("manage_deployments", ["pause"; "resume"]);
   ("manage_patches", ["approve"; "decline"; "defer"; "bulk_approve"; "scan"]);
   ("manage_groups", ["add_devices"; "remove_devices"]);
   ("manage_automations", ["enable"; "disable"]);
   ("generate_report", ["create"; "update"; "delete"; "generate"]);
   ("manage_update_rings", ["create"; "update"]);
   ("manage_software_policies", ["create"; "update"]);
   ("manage_peripheral_policies", ["create"; "update"]);
   ("manage_backup_configs", ["create"; "update"]);
   ("manage_backup_profiles", ["create"; "update"; "delete"]);
   ("manage_notification_channels", ["test"; "create"; "update"; "delete"]);
   ("manage_saved_filters", ["create"; "delete"])
  ].

Definition TIER1_ACTIONS : list (string * list string) :=
  [
   ("security_scan", ["vulnerabilities"]);
   ("manage_tags", ["list"])
  ].

Definition TIER3_ACTIONS : list (string * list string) :=
  [
   ("file_operations", ["read"; "write"; "delete"; "mkdir"; "rename"]);
   ("manage_services", ["start"; "stop"; "restart"]);
   ("security_scan", ["quarantine"; "remove"; "restore"]);
   ("disk_cleanup", ["execute"]);
   ("manage_startup_items", ["disable"; "enable"]);
   ("manage_scheduled_tasks", ["run"; "disable"; "enable"; "delete"]);
   ("manage_configuration_policy", ["create"; "update"; "delete"]);
   ("manage_deployments", ["create"; "start"; "cancel"]);
   ("manage_patches", ["install"; "rollback"]);
   ("manage_groups", ["create"; "update"; "delete"]);
   ("manage_automations", ["run"]);
   ("manage_processes", ["kill"]);
   ("manage_policy_feature_link", ["remove"]);
   ("registry_operations", ["set_value"; "create_key"; "delete_key"]);
   ("manage_dr_plan", ["delete_group"]);
   ("manage_hyperv_checkpoints", ["delete"; "apply"]);
   ("manage_monitors", ["create"; "update"; "delete"]);
   ("manage_tickets", ["move_org"]);
   ("manage_invoices", ["issue"; "void"; "record_payment"; "void_payment"]);
   ("manage_contracts", ["activate"; "pause"; "resume"; "cancel"]);
   ("manage_quotes", ["send"]);
   ("manage_organizations", ["create_org"; "update_org"; "create_site"])
  ].

Definition TOOL_PERMISSIONS_1 : list (string * PermDef) :=
  [
   ("query_devices", Flat (P "devices" "read"));
   ("get_device_details", Flat (P "devices" "read"));
   ("get_vulnerability_report", Flat (P "devices" "read"));
   ("get_device_vulnerabilities", Flat (P "devices" "read"));
   ("remediate_vulnerability", Flat (P "patches" "execute"));
   ("analyze_metrics", Flat (P "devices" "read"));
   ("get_s1_status", Flat (P "organizations" "read"));
   ("get_s1_threats", Flat (P "devices" "read"));
   ("s1_isolate_device", Flat (P "devices" "execute"));
   ("s1_threat_action", Flat (P "devices" "execute"));
   ("execute_command", Flat (P "devices" "execute"));
   ("run_script", Flat (P "scripts" "execute"));
   ("manage_alerts", ByAction
     [("list", P "alerts" "read");
      ("get", P "alerts" "read");
      ("acknowledge", P "alerts" "acknowledge");
      ("resolve", P "alerts" "write");
      ("suppress", P "alerts" "write")]);
   ("manage_tickets", ByAction
     [("list", P "tickets" "read");
      ("get", P "tickets" "read");
      ("create", P "tickets" "write");
      ("comment", P "tickets" "write");
      ("assign", P "tickets" "write");
      ("update_status", P "tickets" "write");
      ("update_fields", P "tickets" "write");
      ("link_alert", P "tickets" "write");
      ("unlink_alert", P "tickets" "write");
      ("create_from_alert", P "tickets" "write");
      ("edit_comment", P "tickets" "write");
      ("delete_comment", P "tickets" "write");
      ("move_org", P "tickets" "write");
      ("log_time_entry", P "time_entries" "write");
      ("start_timer", P "time_entries" "write");
      ("stop_timer", P "time_entries" "write")]);
   ("list_invoices", Flat (P "invoices" "read"));
   ("get_invoice", Flat (P "invoices" "read"));
   ("manage_invoices", ByAction
     [("create_draft", P "invoices" "write");
      ("add_manual_line", P "invoices" "write");
      ("add_catalog_line", P "invoices" "write");
      ("add_bundle_line", P "invoices" "write");
      ("add_contract_line", P "invoices" "write");
      ("update_line", P "invoices" "write");
      ("remove_line", P "invoices" "write");
      ("update_header", P "invoices" "write");
      ("delete_draft", P "invoices" "write");
      ("assemble_from_org", P "invoices" "write");
      ("assemble_from_ticket", P "invoices" "write");
      ("issue", P "invoices" "send");
      ("void", P "invoices" "send");
      ("record_payment", P "invoices" "send");
      ("void_payment", P "invoices" "send");
      ("create_pay_link", P "invoices" "write")]);
   ("search_catalog", Flat (P "catalog" "read"));
   ("get_catalog_item", Flat (P "catalog" "read"));
   ("lookup_distributor_product", Flat (P "catalog" "read"));
   ("manage_catalog", ByAction
     [("create_item", P "catalog" "write");
      ("update_item", P "catalog" "write");
      ("archive_item", P "catalog" "write");
      ("set_org_price", P "catalog" "write");
      ("remove_org_price", P "catalog" "write");
      ("set_bundle_components", P "catalog" "write")]);
   ("list_contracts", Flat (P "contracts" "read"));
   ("get_contract", Flat (P "contracts" "read"));
   ("manage_contracts", ByAction
     [("create_draft", P "contracts" "write");
      ("update", P "contracts" "write");
      ("delete_draft", P "contracts" "write");
      ("add_line", P "contracts" "write");
      ("remove_line", P "contracts" "write");
      ("activate", P "contracts" "manage");
      ("pause", P "contracts" "manage");
      ("resume", P "contracts" "manage");
      ("cancel", P "contracts" "manage")]);
   ("list_quotes", Flat (P "quotes" "read"));
   ("get_quote", Flat (P "quotes" "read"));
   ("manage_quotes", ByAction
     [("create_draft", P "quotes" "write");
      ("update", P "quotes" "write");
      ("delete_draft", P "quotes" "write");
      ("add_block", P "quotes" "write");
      ("update_block", P "quotes" "write");
      ("delete_block", P "quotes" "write");
      ("reorder_blocks", P "quotes" "write");
      ("add_manual_line", P "quotes" "write");
      ("add_catalog_line", P "quotes" "write");
      ("update_line", P "quotes" "write");
      ("remove_line", P "quotes" "write");
      ("move_line", P "quotes" "write");
      ("reorder_lines", P "quotes" "write");
      ("send", P "quotes" "send");
      ("decline", P "quotes" "write");
      ("create_pay_link", P "quotes" "write")]);
   ("list_organizations", Flat (P "organizations" "read"));
   ("manage_organizations", ByAction
     [("create_org", P "organizations" "write");
      ("update_org", P "organizations" "write");
      ("create_site", P "sites" "write");
      ("add_contact", P "organizations" "write")]);
   ("manage_services", Flat (P "devices" "execute"));
   ("manage_processes", ByAction
     [("list", P "devices" "read");
      ("kill", P "devices" "execute")]);
   ("security_scan", ByAction
     [("scan", P "devices" "execute");
      ("status", P "devices" "execute");
      ("quarantine", P "devices" "execute");
      ("remove", P "devices" "execute");
      ("restore", P "devices" "execute");
      ("vulnerabilities", P "devices" "read")]);
   ("analyze_disk_usage", Flat (P "devices" "read"));
   ("disk_cleanup", ByAction
     [("preview", P "devices" "read");
      ("execute", P "devices" "execute")]);
   ("file_operations", ByAction
     [("list", P "devices" "execute");
      ("read", P "devices" "execute");
      ("write", P "devices" "execute");
      ("delete", P "devices" "execute");
      ("mkdir", P "devices" "execute");
      ("rename", P "devices" "execute")]);
   ("query_audit_log", Flat (P "audit" "read"));
   ("query_change_log", Flat (P "devices" "read"));
   ("network_discovery", Flat (P "devices" "execute"));
   ("analyze_boot_performance", Flat (P "devices" "read"));
   ("manage_startup_items", Flat (P "devices" "execute"))
  ].

Definition TOOL_PERMISSIONS_2 : list (string * PermDef) :=
  [
   ("manage_scheduled_tasks", ByAction
     [("list", P "devices" "read");
      ("run", P "devices" "execute");
      ("disable", P "devices" "execute");
      ("enable", P "devices" "execute");
      ("delete", P "devices" "execute")]);
   ("take_screenshot", Flat (P "devices" "execute"));
   ("analyze_screen", Flat (P "devices" "execute"));
   ("computer_control", Flat (P "devices" "execute"));
   ("manage_deployments", ByAction
     [("list", P "deployments" "read");
      ("get", P "deployments" "read");
      ("device_status", P "deployments" "read");
      ("create", P "deployments" "write");
      ("start", P "deployments" "write");
      ("pause", P "deployments" "write");
      ("resume", P "deployments" "write");
      ("cancel", P "deployments" "write")]);
   ("manage_patches", ByAction
     [("list", P "patches" "read");
      ("compliance", P "patches" "read");
      ("scan", P "patches" "execute");
      ("approve", P "patches" "approve");
      ("decline", P "patches" "approve");
      ("defer", P "patches" "approve");
      ("bulk_approve", P "patches" "approve");
      ("install", P "patches" "execute");
      ("rollback", P "patches" "execute");
      ("setup_auto_approval", P "patches" "approve")]);
   ("manage_groups", ByAction
     [("list", P "groups" "read");
      ("get", P "groups" "read");
      ("preview", P "groups" "read");
      ("membership_log", P "groups" "read");
      ("create", P "groups" "write");
      ("update", P "groups" "write");
      ("delete", P "groups" "write");
      ("add_devices", P "groups" "write");
      ("remove_devices", P "groups" "write")]);
   ("manage_maintenance_windows", ByAction
     [("list", P "maintenance" "read");
      ("get", P "maintenance" "read");
      ("active_now", P "maintenance" "read");
      ("create", P "maintenance" "write");
      ("update", P "maintenance" "write");
      ("delete", P "maintenance" "write")]);
   ("manage_automations", ByAction
     [("list", P "automations" "read");
      ("get", P "automations" "read");
      ("history", P "automations" "read");
      ("create", P "automations" "write");
      ("update", P "automations" "write");
      ("delete", P "automations" "write");
      ("enable", P "automations" "write");
      ("disable", P "automations" "write");
      ("run", P "automations" "execute")]);
   ("manage_alert_rules", ByAction
     [("list_templates", P "alerts" "read");
      ("list_rules", P "alerts" "read");
      ("get_rule", P "alerts" "read");
      ("create_rule", P "alerts" "write");
      ("update_rule", P "alerts" "write");
      ("delete_rule", P "alerts" "write");
      ("test_rule", P "alerts" "read");
      ("list_channels", P "alerts" "read");
      ("alert_summary", P "alerts" "read")]);
   ("manage_service_monitors", ByAction
     [("list", P "monitoring" "read")]);
   ("generate_report", ByAction
     [("list", P "reports" "read");
      ("generate", P "reports" "write");
      ("data", P "reports" "read");
      ("create", P "reports" "write");
      ("update", P "reports" "write");
      ("delete", P "reports" "write");
      ("history", P "reports" "read");
      ("download", P "reports" "read")]);
   ("query_analytics", Flat (P "devices" "read"));
   ("get_executive_summary", Flat (P "devices" "read"));
   ("get_device_context", Flat (P "devices" "read"));
   ("set_device_context", Flat (P "devices" "write"));
   ("resolve_device_context", Flat (P "devices" "write"));
   ("search_agent_logs", Flat (P "devices" "read"));
   ("set_agent_log_level", Flat (P "devices" "execute"));
   ("capture_agent_pprof", Flat (P "devices" "execute"));
   ("search_logs", Flat (P "devices" "read"));
   ("get_log_trends", Flat (P "devices" "read"));
   ("detect_log_correlations", Flat (P "devices" "read"));
   ("list_configuration_policies", Flat (P "policies" "read"));
   ("get_configuration_policy", Flat (P "policies" "read"));
   ("manage_configuration_policy", ByAction
     [("create", P "policies" "write");
      ("update", P "policies" "write");
      ("activate", P "policies" "write");
      ("deactivate", P "policies" "write");
      ("delete", P "policies" "write")]);
   ("configuration_policy_compliance", ByAction
     [("summary", P "policies" "read");
      ("status", P "policies" "read")]);
   ("get_effective_configuration", Flat (P "devices" "read"));
   ("preview_configuration_change", Flat (P "devices" "read"));
   ("manage_policy_feature_link", ByAction
     [("list", P "policies" "read");
      ("add", P "policies" "write");
      ("update", P "policies" "write");
      ("remove", P "policies" "write")]);
   ("manage_backup_profiles", ByAction
     [("list", P "policies" "read");
      ("get", P "policies" "read");
      ("create", P "policies" "write");
      ("update", P "policies" "write");
      ("delete", P "policies" "write")]);
   ("apply_configuration_policy", Flat (P "policies" "write"));
   ("remove_configuration_policy_assignment", Flat (P "policies" "write"));
   ("list_playbooks", Flat (P "devices" "read"));
   ("execute_playbook", Flat (P "devices" "execute"));
   ("get_playbook_history", Flat (P "devices" "read"));
   ("get_security_posture", Flat (P "devices" "read"));
   ("get_fleet_health", Flat (P "devices" "read"));
   ("get_fleet_status", Flat (P "devices" "read"));
   ("delete_tenant", Flat (P "organizations" "write"))
  ].

Definition TOOL_PERMISSIONS_3 : list (string * PermDef) :=
  [
   ("manage_tags", ByAction
     [("list", P "devices" "read");
      ("add", P "devices" "write");
      ("remove", P "devices" "write")]);
   ("query_custom_fields", Flat (P "devices" "read"));
   ("registry_operations", ByAction
     [("read_key", P "devices" "read");
      ("get_value", P "devices" "read");
      ("set_value", P "devices" "execute");
      ("create_key", P "devices" "execute");
      ("delete_key", P "devices" "execute")]);
   ("search_documentation", Flat (P "general" "read"));
   ("search_script_library", Flat (P "scripts" "read"));
   ("list_scripts", Flat (P "scripts" "read"));
   ("get_script_details", Flat (P "scripts" "read"));
   ("list_script_templates", Flat (P "scripts" "read"));
   ("get_script_execution_history", Flat (P "scripts" "read"));
   ("query_backups", Flat (P "devices" "read"));
   ("get_backup_status", Flat (P "devices" "read"));
   ("browse_snapshots", Flat (P "devices" "read"));
   ("trigger_backup", Flat (P "devices" "execute"));
   ("restore_snapshot", Flat (P "devices" "execute"));
   ("restore_as_vm", Flat (P "devices" "execute"));
   ("instant_boot_vm", Flat (P "devices" "execute"));
   ("get_vm_restore_estimate", Flat (P "devices" "read"));
   ("query_mssql_instances", Flat (P "devices" "read"));
   ("get_mssql_backup_status", Flat (P "devices" "read"));
   ("trigger_mssql_backup", Flat (P "devices" "execute"));
   ("restore_mssql_database", Flat (P "devices" "execute"));
   ("verify_mssql_backup", Flat (P "devices" "execute"));
   ("query_hyperv_vms", Flat (P "devices" "read"));
   ("get_hyperv_vm_details", Flat (P "devices" "read"));
   ("manage_hyperv_vm", Flat (P "devices" "execute"));
   ("trigger_hyperv_backup", Flat (P "devices" "execute"));
   ("restore_hyperv_vm", Flat (P "devices" "execute"));
   ("manage_hyperv_checkpoints", Flat (P "devices" "execute"));
   ("query_vaults", Flat (P "devices" "read"));
   ("get_vault_status", Flat (P "devices" "read"));
   ("trigger_vault_sync", Flat (P "devices" "execute"));
   ("configure_vault", Flat (P "devices" "write"));
   ("m365_query_users", Flat (P "organizations" "read"));
   ("m365_query_signins", Flat (P "organizations" "read"));
   ("m365_query_intune_devices", Flat (P "organizations" "read"));
   ("m365_query_groups", Flat (P "organizations" "read"));
   ("m365_query_org", Flat (P "organizations" "read"));
   ("m365_query_sites", Flat (P "organizations" "read"));
   ("query_c2c_connections", Flat (P "organizations" "read"));
   ("query_c2c_jobs", Flat (P "organizations" "read"));
   ("search_c2c_items", Flat (P "organizations" "read"));
   ("trigger_c2c_sync", Flat (P "organizations" "write"));
   ("restore_c2c_items", Flat (P "organizations" "write"));
   ("query_backup_sla", Flat (P "organizations" "read"));
   ("get_sla_breaches", Flat (P "organizations" "read"));
   ("get_sla_compliance_report", Flat (P "organizations" "read"));
   ("configure_backup_sla", Flat (P "organizations" "write"));
   ("query_dr_plans", Flat (P "organizations" "read"));
   ("get_dr_plan_details", Flat (P "organizations" "read"));
   ("get_dr_execution_status", Flat (P "organizations" "read"));
   ("execute_dr_plan", Flat (P "devices" "execute"));
   ("manage_dr_plan", Flat (P "organizations" "write"));
   ("query_monitors", Flat (P "devices" "read"));
   ("manage_monitors", ByAction
     [("get", P "devices" "read");
      ("create", P "devices" "write");
      ("update", P "devices" "write");
      ("delete", P "devices" "write")]);
   ("get_service_monitoring_status", Flat (P "devices" "read"));
   ("query_webhooks", Flat (P "devices" "read"));
   ("query_psa_status", Flat (P "devices" "read"));
   ("test_webhook", Flat (P "devices" "write"));
   ("query_agent_versions", Flat (P "devices" "read"));
   ("trigger_agent_upgrade", Flat (P "devices" "execute"));
   ("trigger_agent_restart", Flat (P "devices" "execute"));
   ("list_remote_sessions", Flat (P "devices" "read"));
   ("create_remote_session", Flat (P "devices" "execute"));
   ("query_compliance_policies", Flat (P "policies" "read"));
   ("get_compliance_status", Flat (P "policies" "read"));
   ("manage_notification_channels", ByAction
     [("list", P "alerts" "read");
      ("test", P "alerts" "write")]);
   ("manage_saved_filters", ByAction
     [("list", P "devices" "read");
      ("get", P "devices" "read");
      ("create", P "devices" "write");
      ("delete", P "devices" "write")]);
   ("get_cis_compliance", Flat (P "devices" "read"));
   ("get_cis_device_report", Flat (P "devices" "read"));
   ("apply_cis_remediation", Flat (P "devices" "execute"));
   ("get_huntress_status", Flat (P "devices" "read"));
   ("get_huntress_incidents", Flat (P "devices" "read"));
   ("sync_huntress_data", Flat (P "organizations" "write"));
   ("get_user_risk_scores", Flat (P "users" "read"));
   ("get_user_risk_detail", Flat (P "users" "read"));
   ("assign_security_training", Flat (P "users" "write"));
   ("get_backup_health", Flat (P "devices" "read"));
   ("run_backup_verification", Flat (P "devices" "execute"));
   ("get_recovery_readiness", Flat (P "devices" "read"));
   ("m365_lookup_user", Flat (P "m365" "read"));
   ("m365_recent_signins", Flat (P "m365" "read"));
   ("m365_list_group_memberships", Flat (P "m365" "read"));
   ("m365_disable_user", Flat (P "m365" "execute"));
   ("m365_reset_password", Flat (P "m365" "execute"));
   ("google_lookup_user", Flat (P "google" "read"));
   ("google_reset_password", Flat (P "google" "execute"));
   ("google_suspend_user", Flat (P "google" "execute"));
   ("google_restore_user", Flat (P "google" "execute"));
   ("google_signout", Flat (P "google" "execute"));
   ("google_set_forwarding", Flat (P "google" "execute"));
   ("google_disable_forwarding", Flat (P "google" "execute"));
   ("google_set_vacation", Flat (P "google" "execute"));
   ("google_update_user", Flat (P "google" "execute"));
   ("google_share_calendar", Flat (P "google" "execute"));
   ("google_offboard_user", Flat (P "google" "execute"));
   ("google_wipe_mobile_device", Flat (P "google" "execute"));
   ("google_security_drift", Flat (P "google" "read"));
   ("google_email_report", Flat (P "google" "read"));
   ("google_list_user_groups", Flat (P "google" "read"));
   ("google_add_to_group", Flat (P "google" "execute"));
   ("google_remove_from_group", Flat (P "google" "execute"));
   ("google_move_ou", Flat (P "google" "execute"));
   ("google_rename_user", Flat (P "google" "execute"));
   ("google_reset_2sv", Flat (P "google" "execute"));
   ("google_add_mail_delegate", Flat (P "google" "execute"));
   ("google_remove_mail_delegate", Flat (P "google" "execute"));
   ("google_list_licenses", Flat (P "google" "read"));
   ("google_assign_license", Flat (P "google" "execute"));
   ("google_remove_license", Flat (P "google" "execute"))
  ].

Definition TOOL_PERMISSIONS_4 : list (string * PermDef) :=
  [
   ("send_deployment_invites", Flat (P "devices" "write"));
   ("configure_defaults", Flat (P "organizations" "write"))
  ].

Definition TOOL_PERMISSIONS : list (string * PermDef) :=
  TOOL_PERMISSIONS_1 ++ TOOL_PERMISSIONS_2 ++ TOOL_PERMISSIONS_3 ++ TOOL_PERMISSIONS_4.

Definition TOOL_EXTRA_PERMISSIONS : list (string * list Permission) :=
  [
   ("configure_defaults", [P "devices" "write"; P "alerts" "write"]);
   ("restore_snapshot", [P "backup" "read"]);
   ("restore_as_vm", [P "backup" "read"]);
   ("instant_boot_vm", [P "backup" "read"]);
   ("restore_mssql_database", [P "backup" "read"]);
   ("verify_mssql_backup", [P "backup" "read"]);
   ("restore_hyperv_vm", [P "backup" "read"])
  ].

Definition TOOL_RATE_LIMITS : list (string * (Z * Z)) :=
  [
   ("execute_command", (10, 300));
   ("run_script", (5, 300));
   ("security_scan", (3, 600));
   ("network_discovery", (2, 600));
   ("file_operations", (20, 300));
   ("manage_services", (10, 300));
   ("s1_isolate_device", (5, 600));
   ("s1_threat_action", (5, 600));
   ("analyze_disk_usage", (10, 300));
   ("disk_cleanup", (3, 600));
   ("manage_startup_items", (5, 600));
   ("manage_scheduled_tasks", (10, 300));
   ("take_screenshot", (10, 300));
   ("analyze_screen", (10, 300));
   ("computer_control", (20, 300));
   ("run_backup_verification", (10, 300));
   ("manage_deployments", (10, 600));
   ("manage_patches", (15, 300));
   ("manage_groups", (20, 300));
   ("manage_maintenance_windows", (15, 300));
   ("manage_automations", (10, 600));
   ("manage_alert_rules", (15, 300));
   ("manage_service_monitors", (15, 300));
   ("generate_report", (10, 300));
   ("set_device_context", (20, 300));
   ("resolve_device_context", (20, 300));
   ("search_logs", (30, 300));
   ("get_log_trends", (20, 300));
   ("detect_log_correlations", (10, 300));
   ("set_agent_log_level", (5, 600));
   ("capture_agent_pprof", (3, 600));
   ("get_configuration_policy", (30, 300));
   ("manage_configuration_policy", (20, 300));
   ("configuration_policy_compliance", (30, 300));
   ("apply_configuration_policy", (10, 300));
   ("remove_configuration_policy_assignment", (10, 300));
   ("execute_playbook", (5, 600));
   ("manage_processes", (15, 300));
   ("manage_tags", (20, 300));
   ("registry_operations", (15, 300));
   ("trigger_backup", (5, 600));
   ("restore_snapshot", (3, 600));
   ("restore_as_vm", (3, 900));
   ("instant_boot_vm", (3, 900));
   ("trigger_mssql_backup", (5, 600));
   ("restore_mssql_database", (3, 900));
   ("verify_mssql_backup", (5, 600));
   ("manage_hyperv_vm", (10, 300));
   ("trigger_hyperv_backup", (5, 900));
   ("restore_hyperv_vm", (3, 900));
   ("manage_hyperv_checkpoints", (5, 600));
   ("trigger_vault_sync", (10, 600));
   ("configure_vault", (10, 300));
   ("trigger_c2c_sync", (10, 300));
   ("restore_c2c_items", (5, 600));
   ("configure_backup_sla", (10, 300));
   ("execute_dr_plan", (3, 900));
   ("manage_dr_plan", (10, 300));
   ("query_monitors", (30, 300));
   ("manage_monitors", (10, 300));
   ("get_service_monitoring_status", (30, 300));
   ("test_webhook", (5, 300));
   ("trigger_agent_upgrade", (5, 600));
   ("trigger_agent_restart", (5, 600));
   ("create_remote_session", (10, 300));
   ("manage_notification_channels", (10, 300));
   ("manage_saved_filters", (15, 300));
   ("get_cis_compliance", (30, 300));
   ("get_cis_device_report", (30, 300));
   ("apply_cis_remediation", (10, 600));
   ("sync_huntress_data", (10, 300));
   ("assign_security_training", (10, 300))
  ].

Definition m365ToolTiers : list (string * Z) :=
  [("m365_lookup_user", 1);
   ("m365_recent_signins", 1);
   ("m365_list_group_memberships", 1);
   ("m365_disable_user", 3);
   ("m365_reset_password", 3)].

Definition googleToolTiers : list (string * Z) :=
  [("google_lookup_user", 1);
   ("google_reset_password", 3);
   ("google_suspend_user", 3);
   ("google_restore_user", 3);
   ("google_signout", 3);
   ("google_set_forwarding", 3);
   ("google_disable_forwarding", 3);
   ("google_set_vacation", 3);
   ("google_update_user", 3);
   ("google_share_calendar", 3);
   ("google_offboard_user", 3);
   ("google_wipe_mobile_device", 3);
   ("google_security_drift", 1);
   ("google_email_report", 1);
   ("google_list_user_groups", 1);
   ("google_add_to_group", 3);
   ("google_remove_from_group", 3);
   ("google_move_ou", 3);
   ("google_rename_user", 3);
   ("google_reset_2sv", 3);
   ("google_add_mail_delegate", 3);
   ("google_remove_mail_delegate", 3);
   ("google_list_licenses", 1);
   ("google_assign_license", 3);
   ("google_remove_license", 3)].
