(* ===== verification/ApprovalText.v ===== *)
(** * The description an approver reads

    [buildApprovalDescription] of apps/api/src/services/aiGuardrails.ts: the
    sentence that names the tool call in an approval. The arguments come from
    the model or an API client as JSON, so a cast such as [(input.deviceId as
    string).slice(0, 8)] throws when the value has no [slice]. *)

From stdpp Require Import base strings list option.
From Stdlib Require Import ZArith Lia Ascii.
From S2P Require Import Prelude Json.

Inductive GuardrailError : Type := ToolNameCollision | TypeError.

Definition ascii_upper (c : ascii) : ascii :=
  let n := nat_of_ascii c in
  if (97 <=? n)%nat && (n <=? 122)%nat then ascii_of_nat (n - 32) else c.

Fixpoint toUpperCase (s : string) : string :=
  match s with
  | EmptyString => EmptyString
  | String c s' => String (ascii_upper c) (toUpperCase s')
  end.

Definition is_nullish (v : json) : bool := match v with JUndef | JNull => true | _ => false end.

(** [v.slice(0, n)], as text. *)
Definition js_slice (n : nat) (v : json) : result GuardrailError string :=
  match v with
  | JStr s => Ok (str_take n s)
  | JArr l => Ok (js_String (JArr (take n l)))
  | _ => Err TypeError
  end.

(** [v?.slice(0, n)]: [None] is undefined. *)
Definition js_slice_opt (n : nat) (v : json) : result GuardrailError (option string) :=
  if is_nullish v then Ok None else let! s := js_slice n v in Ok (Some s).

(** [v.length] where [slice] succeeded. *)
Definition js_length (v : json) : nat :=
  match v with JStr s => String.length s | JArr l => length l | _ => 0 end.

(** [`${x}`] of an optional text. *)
Definition shown (x : option string) : string := default "undefined"%string x.

(** [v?.toUpperCase()], shown in a template. *)
Definition upper_opt (v : json) : result GuardrailError string :=
  match v with
  | JUndef | JNull => Ok "undefined"%string
  | JStr s => Ok (toUpperCase s)
  | _ => Err TypeError
  end.

Definition is_action (action : json) (a : string) : bool :=
  match action with JStr s => bool_decide (s = a) | _ => false end.

(** The double quote character. *)
Definition dq : string := String (ascii_of_nat 34) EmptyString.

Section description.
Variable toolName : string.
Variable action : json.
Variable input : list (string * json).

Abbreviation arg := (fun k : string => json_get k input).

(** [`... ${input.k} ...`] *)
Definition text_of (k : string) : string := js_String (arg k).

Definition short (k : string) : result GuardrailError (option string) := js_slice_opt 8 (arg k).

(** [Array.isArray(input.k) ? input.k.length : 0] *)
Definition count_of (k : string) : string :=
  match arg k with JArr l => dec (Z.of_nat (length l)) | _ => dec 0 end.

(** [if (input.k) parts.push(`pre${(input.k as string).slice(0, 8)}...`)] *)
Definition push_short (k pre : string) : result GuardrailError (list string) :=
  if js_truthy (arg k) then let! s := js_slice 8 (arg k) in Ok [(pre ++ s ++ "...")%string] else Ok [].

Definition on_device : result GuardrailError (list string) := push_short "deviceId" "on device ".

(** [if (input.k) parts.push(`pre${String(input.k).slice(0, 8)}post`)] *)
Definition push_string_short (k pre post : string) : list string :=
  if js_truthy (arg k) then [(pre ++ str_take 8 (text_of k) ++ post)%string] else [].

(** [input.k?.slice(0, 8) ?? input.name ?? ''] *)
Definition short_or_name (k : string) : result GuardrailError string :=
  let! s := short k in
  Ok (match s with
      | Some t => t
      | None => if is_nullish (arg "name") then EmptyString else text_of "name"
      end).

(** A labelled short id: [`label ${input.k?.slice(0, 8)}...`] *)
Definition label_short (label k : string) : result GuardrailError (list string) :=
  let! s := short k in Ok [(label ++ " " ++ shown s ++ "...")%string].

(** [`label ${action}: ${input.k?.slice(0, 8) ?? input.name ?? ''}...`] *)
Definition label_action (label k : string) : result GuardrailError (list string) :=
  let! s := short_or_name k in Ok [(label ++ " " ++ js_String action ++ ": " ++ s ++ "...")%string].

(** [`label ${action}: ${input.k?.slice(0, 8) ?? ''}...`] *)
Definition label_action_short (label k : string) : result GuardrailError (list string) :=
  let! s := short k in
  Ok [(label ++ " " ++ js_String action ++ ": " ++ default ""%string s ++ "...")%string].

Definition pushes (l : list (result GuardrailError (list string))) : result GuardrailError (list string) :=
  fold_right (fun m acc => let! x := m in let! y := acc in Ok (x ++ y)) (Ok []) l.

(** The first cases of the switch: commands, scans and the fleet tools. *)
Definition describe_fleet : option (result GuardrailError (list string)) :=
  match toolName with
  | "execute_command"%string =>
      Some (pushes [Ok [("Execute " ++ dq ++ text_of "commandType" ++ dq ++ " command")%string]; on_device])
  | "run_script"%string =>
      Some (pushes [(let! s := short "scriptId" in
                     Ok [("Run script " ++ default "unknown"%string s ++ "...")%string]);
                    Ok (match arg "deviceIds" with
                        | JArr l => [("on " ++ dec (Z.of_nat (length l)) ++ " device(s)")%string]
                        | _ => [] end)])
  | "manage_services"%string =>
      Some (pushes [(let! u := upper_opt action in
                     Ok [(u ++ " service " ++ dq ++ text_of "serviceName" ++ dq)%string]); on_device])
  | "security_scan"%string =>
      Some (pushes [Ok [("Security: " ++ js_String action)%string]; push_short "threatId" "threat "])
  | "file_operations"%string =>
      Some (Ok [("File " ++ js_String action ++ ": " ++ text_of "path")%string])
  | "network_discovery"%string =>
      Some (Ok (["Network discovery scan"%string]
                ++ if js_truthy (arg "subnet") then [("on " ++ text_of "subnet")%string] else []))
  | "take_screenshot"%string =>
      Some (pushes [Ok ["Capture screenshot"%string]; push_short "deviceId" "from device "])
  | "computer_control"%string =>
      Some (pushes
        [Ok [("Send input action: " ++ text_of "action")%string];
         Ok (if negb (is_undef (arg "x")) && negb (is_undef (arg "y"))
             then [("at (" ++ text_of "x" ++ ", " ++ text_of "y" ++ ")")%string] else []);
         (if js_truthy (arg "text") then
            let! s := js_slice 30 (arg "text") in
            Ok [("text: " ++ dq ++ s ++ (if (30 <? js_length (arg "text"))%nat then "..." else "") ++ dq)%string]
          else Ok []);
         Ok (if js_truthy (arg "key") then [("key: " ++ text_of "key")%string] else []);
         on_device])
  | "manage_configuration_policy"%string =>
      Some (if is_action action "create" then
              Ok [("Create configuration policy " ++ dq ++ text_of "name" ++ dq)%string]
            else if is_action action "delete" then label_short "Delete configuration policy" "policyId"
            else label_action "Config policy" "policyId")
  | "manage_deployments"%string =>
      Some (if is_action action "create" then
              Ok [("Create deployment " ++ dq ++ text_of "name" ++ dq ++ " (" ++ text_of "targetType" ++ " target)")%string]
            else if is_action action "start" then label_short "Start deployment" "deploymentId"
            else if is_action action "cancel" then label_short "Cancel deployment" "deploymentId"
            else label_action_short "Deployment" "deploymentId")
  | "manage_patches"%string =>
      Some (if is_action action "install" then
              Ok [("Install " ++ count_of "patchIds" ++ " patch(es) on " ++ count_of "deviceIds" ++ " device(s)")%string]
            else if is_action action "scan" then
              Ok [("Trigger patch scan on " ++ count_of "deviceIds" ++ " device(s)")%string]
            else if is_action action "rollback" then label_short "Rollback patch" "patchId"
            else if is_action action "setup_auto_approval" then
              Ok [("Setup auto-approval for "
                   ++ (match arg "autoApproveSeverities" with
                       | JArr l => str_join ", " (map (fun x => if is_nullish x then ""%string else js_String x) l)
                       | _ => "critical, important" end) ++ " patches")%string]
            else label_action_short "Patch" "patchId")
  | "manage_groups"%string =>
      Some (if is_action action "create" then
              Ok [("Create " ++ (if is_nullish (arg "type") then "static" else text_of "type")
                   ++ " device group " ++ dq ++ text_of "name" ++ dq)%string]
            else if is_action action "delete" then label_short "Delete device group" "groupId"
            else label_action "Group" "groupId")
  | _ => None
  end.

(** The remaining cases. *)
Definition describe_other : result GuardrailError (list string) :=
  match toolName with
  | "manage_maintenance_windows"%string =>
      if is_action action "delete" then label_short "Delete maintenance window" "windowId"
      else label_action "Maintenance window" "windowId"
  | "manage_automations"%string =>
      if is_action action "create" then Ok [("Create automation " ++ dq ++ text_of "name" ++ dq)%string]
      else if is_action action "delete" then label_short "Delete automation" "automationId"
      else if is_action action "run" then label_short "Manually trigger automation" "automationId"
      else label_action "Automation" "automationId"
  | "manage_alert_rules"%string =>
      if is_action action "delete_rule" then label_short "Delete alert rule" "ruleId"
      else label_action "Alert rule" "ruleId"
  | "manage_service_monitors"%string =>
      if is_action action "add" then
        Ok [("Add " ++ text_of "watchType" ++ " monitor " ++ dq
             ++ js_String (if js_truthy (arg "displayName") then arg "displayName" else arg "name") ++ dq)%string]
      else if is_action action "remove" then label_short "Remove monitor" "watchId"
      else Ok [("Service monitors: " ++ js_String action)%string]
  | "manage_startup_items"%string =>
      pushes [(let! u := upper_opt action in
               Ok [(u ++ " startup item " ++ dq ++ text_of "itemName" ++ dq)%string]);
              on_device;
              (if js_truthy (arg "reason") then
                 let! s := js_slice 50 (arg "reason") in Ok [("(" ++ s ++ ")")%string]
               else Ok [])]
  | "set_agent_log_level"%string =>
      pushes [Ok [("Set log level to " ++ text_of "level")%string]; on_device;
              Ok (if js_truthy (arg "durationMinutes")
                  then [("for " ++ text_of "durationMinutes" ++ " minutes")%string] else [])]
  | "capture_agent_pprof"%string =>
      pushes [Ok [("Capture agent " ++ (if is_nullish (arg "profile") then "all" else text_of "profile")
                   ++ " pprof profile(s)")%string]; on_device]
  | "apply_configuration_policy"%string =>
      pushes [label_short "Assign config policy" "configPolicyId";
              label_short ("to " ++ text_of "level") "targetId"]
  | "remove_configuration_policy_assignment"%string =>
      label_short "Remove config policy assignment" "assignmentId"
  | "execute_playbook"%string =>
      Ok (["Execute self-healing playbook"%string]
          ++ push_string_short "playbookId" "(playbook " "...)"
          ++ push_string_short "deviceId" "on device " "...")
  | "manage_scheduled_tasks"%string =>
      pushes [(let! u := upper_opt action in
               Ok [(u ++ " scheduled task " ++ dq ++ text_of "taskName" ++ dq)%string]); on_device]
  | "manage_processes"%string =>
      pushes [Ok [if is_action action "kill" then ("Kill process PID " ++ text_of "processId")%string
                  else "List processes"%string]; on_device]
  | "manage_tags"%string =>
      pushes [(let! u := upper_opt action in Ok [(u ++ " tags")%string]);
              Ok (match arg "tags" with
                  | JArr l => [("[" ++ str_join ", " (map (fun x => if is_nullish x then ""%string
                                                                   else js_String x) l) ++ "]")%string]
                  | _ => [] end);
              on_device]
  | "registry_operations"%string =>
      pushes [Ok [("Registry " ++ js_String action ++ ": " ++ text_of "keyPath")%string];
              Ok (if js_truthy (arg "valueName") then [("\" ++ text_of "valueName")%string] else []);
              on_device]
  | "manage_organizations"%string =>
      if is_action action "create_org" then
        Ok [("Create organization " ++ dq ++ text_of "name" ++ dq ++ " (with a default Main Office site)")%string]
      else if is_action action "update_org" then
        let! s := short "orgId" in
        Ok [("Update organization " ++ shown s ++ "..."
             ++ (if js_truthy (arg "status") then " (status → " ++ text_of "status" ++ ")" else ""))%string]
      else if is_action action "create_site" then
        let! s := short "orgId" in
        Ok [("Create site " ++ dq ++ text_of "name" ++ dq ++ " in organization "
             ++ default "(own org)"%string s ++ "...")%string]
      else Ok [("Organizations: " ++ js_String action)%string]
  | "manage_monitors"%string =>
      if is_action action "create" then
        Ok [("Create monitor " ++ dq ++ text_of "name" ++ dq ++ " (" ++ text_of "monitorType" ++ ")")%string]
      else if is_action action "delete" then label_short "Delete monitor" "monitorId"
      else label_action "Monitor" "monitorId"
  | "run_backup_verification"%string =>
      Ok ([("Run " ++ (match arg "verificationType" with JStr s => s | _ => "integrity" end)
            ++ " backup verification")%string]
          ++ push_string_short "deviceId" "on device " "..."
          ++ push_string_short "backupJobId" "job " "...")
  | _ => Ok [(toolName ++ if js_truthy action then ": " ++ js_String action else "")%string]
  end.

Definition buildApprovalDescription : result GuardrailError string :=
  let! parts := match describe_fleet with Some r => r | None => describe_other end in
  Ok (str_join " " parts).

End description.
