(* ===== verification/Guardrails.v ===== *)
(** * Guardrails: which tool call may run, and which needs an approval

    apps/api/src/services/aiGuardrails.ts ([checkGuardrails],
    [checkPermissionRequirements], [checkToolPermission]) over the tables of
    GuardrailTables.v, and [getToolTier], [requiresLiveSession] of aiTools.ts.

    The registered tools (the core [Map] and the extension registry, filled at
    start-up) are arguments. A lookup in one of the literal tables is a
    JavaScript property read, so it also finds the members that every object
    inherits. *)

From stdpp Require Import base gmap strings list option.
From Stdlib Require Import ZArith Lia Ascii.
From S2P Require Import Prelude Json Tenant Permissions Auth GuardrailTables ApprovalText.

(** ** Property reads *)

(** The members of [Object.prototype]. *)
Definition OBJECT_PROTOTYPE : list string :=
  ["constructor"; "toString"; "toLocaleString"; "valueOf"; "hasOwnProperty"; "isPrototypeOf";
   "propertyIsEnumerable"; "__defineGetter__"; "__defineSetter__"; "__lookupGetter__";
   "__lookupSetter__"; "__proto__"]%string.

(** [table[key]]: an own member, an inherited function or object, or undefined. *)
Inductive slot (A : Type) : Type :=
| Own (a : A)
| Inherited
| Absent.
Arguments Own {A} a.
Arguments Inherited {A}.
Arguments Absent {A}.

Fixpoint own_member {A} (table : list (string * A)) (key : string) : option A :=
  match table with
  | [] => None
  | (k, v) :: rest => if bool_decide (k = key) then Some v else own_member rest key
  end.

Definition js_get {A} (table : list (string * A)) (key : string) : slot A :=
  match own_member table key with
  | Some v => Own v
  | None => if bool_decide (key ∈ OBJECT_PROTOTYPE) then Inherited else Absent
  end.

(** ** Tiers *)

(** A tier as the code computes it: a number, or an inherited member that a
    table read returned in place of one. *)
Inductive Tier : Type :=
| TNum (n : Z)
| TInherited.
#[export] Instance Tier_eq_dec : EqDecision Tier.
Proof. solve_decision. Defined.

(** [t >= n], [t <= n]: false for a value that converts to NaN. *)
Definition tier_geb (t : Tier) (n : Z) : bool := match t with TNum m => n <=? m | TInherited => false end.
Definition tier_leb (t : Tier) (n : Z) : bool := match t with TNum m => m <=? n | TInherited => false end.

(** The registered tools: the core [Map] and the extension registry. *)
Record ToolRegistry : Type := {
  tr_aiTools : gmap string Z;
  tr_extension : gmap string Z;
}.

Definition getToolTier (reg : ToolRegistry) (toolName : string) : result GuardrailError (option Tier) :=
  let coreTier :=
    match tr_aiTools reg !! toolName with
    | Some t => Some (TNum t)
    | None =>
        match js_get m365ToolTiers toolName with
        | Own t => Some (TNum t)
        | Inherited => Some TInherited
        | Absent =>
            match js_get googleToolTiers toolName with
            | Own t => Some (TNum t)
            | Inherited => Some TInherited
            | Absent => None
            end
        end
    end in
  match coreTier, tr_extension reg !! toolName with
  | Some _, Some _ => Err ToolNameCollision
  | Some t, None => Ok (Some t)
  | None, Some t => Ok (Some (TNum t))
  | None, None => Ok None
  end.

Definition requiresLiveSession (reg : ToolRegistry) (toolName : string) : result GuardrailError bool :=
  let executableHeadless := bool_decide (tr_aiTools reg !! toolName <> None)
                            || bool_decide (tr_extension reg !! toolName <> None) in
  if executableHeadless then Ok false
  else let! t := getToolTier reg toolName in Ok (bool_decide (t <> None)).

(** ** checkGuardrails *)

Record GuardrailCheck : Type := {
  gc_tier : Tier;
  gc_allowed : bool;
  gc_requiresApproval : bool;
  gc_description : option string;
}.

(** [action && TABLE[toolName]?.includes(action)] *)
Definition actionListed (table : list (string * list string)) (toolName : string) (action : json)
  : result GuardrailError bool :=
  if js_truthy action then
    match js_get table toolName with
    | Own l => Ok (match action with JStr a => bool_decide (a ∈ l) | _ => false end)
    | Inherited => Err TypeError
    | Absent => Ok false
    end
  else Ok false.

(** The refusal of a blocked or unknown tool, with a reason and no description. *)
Definition refused : GuardrailCheck :=
  {| gc_tier := TNum 4; gc_allowed := false; gc_requiresApproval := false; gc_description := None |}.

Definition checkGuardrails (reg : ToolRegistry) (toolName : string) (input : list (string * json))
  : result GuardrailError GuardrailCheck :=
  if bool_decide (toolName ∈ BLOCKED_TOOLS) then Ok refused
  else
  let! baseTier := getToolTier reg toolName in
  match baseTier with
  | None => Ok refused
  | Some baseTier =>
      let action := json_get "action" input in
      let answer (t : Tier) (approval : bool) :=
        let! d := buildApprovalDescription toolName action input in
        Ok {| gc_tier := t; gc_allowed := true; gc_requiresApproval := approval;
              gc_description := Some d |} in
      let! t1 := actionListed TIER1_ACTIONS toolName action in
      if t1 then answer (TNum 1) false else
      let! t3 := actionListed TIER3_ACTIONS toolName action in
      if t3 then answer (TNum 3) true else
      let! t2 := actionListed TIER2_ACTIONS toolName action in
      if t2 then answer (TNum 2) false else
      answer baseTier (tier_geb baseTier 3)
  end.

(** ** RBAC *)

Inductive PermDenial : Type :=
| NoRoleAssigned
| Requires (resource action : option string)
| NoMapping
| UnknownAction
| MissingAction.

(** A requirement; the fields are undefined when it is an inherited member. *)
Definition Requirement : Type := option Permission.

(** [hasPermission(userPerms, r.resource, r.action)]: an undefined field equals
    no grant, so only the wildcard covers it. *)
Definition meets (userPerms : UserPermissions) (r : Requirement) : bool :=
  match r with
  | Some p => hasPermission userPerms (p_resource p) (p_action p)
  | None => existsb (fun g => bool_decide (p_resource g = "*") && bool_decide (p_action g = "*"))
              (up_permissions userPerms)
  end.

Fixpoint firstDenied (userPerms : UserPermissions) (rs : list Requirement) : option PermDenial :=
  match rs with
  | [] => None
  | r :: rest =>
      if meets userPerms r then firstDenied userPerms rest
      else Some (Requires (p_resource <$> r) (p_action <$> r))
  end.

(** [checkPermissionRequirements(auth, requirements)]; [getPerms] is
    [getUserPermissions]. [None] means allowed. *)
Definition checkPermissionRequirements (getPerms : string -> PermContext -> option UserPermissions)
    (auth : AuthContext) (requirements : list Requirement) : option PermDenial :=
  match requirements, auth_token auth with
  | [], _ => None
  | _, None => None
  | _, Some None => None
  | _, Some (Some _) =>
      match getPerms (auth_userId auth)
              {| pc_partnerId := auth_partnerId auth; pc_orgId := auth_orgId auth |} with
      | None => Some NoRoleAssigned
      | Some userPerms => firstDenied userPerms requirements
      end
  end.

(** The requirement a call resolves to. *)
Definition requiredPermission (toolName : string) (action : json) : result PermDenial Requirement :=
  match js_get TOOL_PERMISSIONS toolName with
  | Absent => Err NoMapping
  | Own (Flat p) => Ok (Some p)
  | Own (ByAction table) =>
      if js_truthy action then
        match js_get table (js_String action) with
        | Own p => Ok (Some p)
        | Inherited => Ok None
        | Absent => Err UnknownAction
        end
      else Err MissingAction
  | Inherited =>
      if js_truthy action then
        if bool_decide (js_String action ∈ OBJECT_PROTOTYPE) then Ok None else Err UnknownAction
      else Err MissingAction
  end.

(** [...(TOOL_EXTRA_PERMISSIONS[toolName] ?? [])] *)
Definition extraPermissions (toolName : string) : result GuardrailError (list Requirement) :=
  match js_get TOOL_EXTRA_PERMISSIONS toolName with
  | Own l => Ok (Some <$> l)
  | Inherited => Err TypeError
  | Absent => Ok []
  end.

(** [checkToolPermission(toolName, input, auth)]: [Ok None] means allowed. *)
Definition checkToolPermission (getPerms : string -> PermContext -> option UserPermissions)
    (toolName : string) (input : list (string * json)) (auth : AuthContext)
  : result GuardrailError (option PermDenial) :=
  match auth_token auth with
  | None => Ok None
  | Some None => Ok None
  | Some (Some _) =>
      match requiredPermission toolName (json_get "action" input) with
      | Err d => Ok (Some d)
      | Ok required =>
          let! extra := extraPermissions toolName in
          Ok (checkPermissionRequirements getPerms auth (required :: extra))
      end
  end.

(** ** Facts about the tables *)

Lemma own_member_elem {A} (t : list (string * A)) k v : own_member t k = Some v -> (k, v) ∈ t.
Proof.
  induction t as [|[k' v'] t IH]; cbn [own_member]; [done|].
  case_bool_decide; [intros [= ->]; subst; apply list_elem_of_here|].
  intros Hm. by apply list_elem_of_further, IH.
Qed.

(** [a] is listed for [tool]. *)
Definition listed (table : list (string * list string)) (tool a : string) : bool :=
  match own_member table tool with Some l => bool_decide (a ∈ l) | None => false end.

(** Every listed pair of a table satisfies [f]; a finite check. *)
Definition all_listed (table : list (string * list string)) (f : string -> string -> bool) : bool :=
  forallb (fun kl => forallb (fun a => f kl.1 a) kl.2) table.

Lemma all_listed_spec table f tool a :
  all_listed table f = true -> listed table tool a = true -> f tool a = true.
Proof.
  unfold all_listed, listed. intros Hall Hl.
  destruct (own_member table tool) as [l|] eqn:E; [|done]. bool_hyps.
  apply own_member_elem, list_elem_of_In in E.
  rewrite forallb_forall in Hall. specialize (Hall _ E). cbn in Hall.
  rewrite forallb_forall in Hall. by apply Hall, list_elem_of_In.
Qed.

Lemma tables_disjoint_check :
  all_listed TIER3_ACTIONS (fun t a => negb (listed TIER1_ACTIONS t a) && negb (listed TIER2_ACTIONS t a))
  && all_listed TIER2_ACTIONS (fun t a => negb (listed TIER1_ACTIONS t a)) = true.
Proof. by vm_compute. Qed.

Lemma actionListed_true table tool action :
  actionListed table tool action = Ok true ->
  exists a, action = JStr a /\ listed table tool a = true.
Proof.
  unfold actionListed, listed, js_get. intros H.
  destruct (js_truthy action); [|done].
  destruct (own_member table tool) as [l|]; [|by case_bool_decide].
  destruct action; try done. exists s. split; [done|]. by injection H.
Qed.

Lemma actionListed_str table tool a :
  own_member table tool <> None -> a <> ""%string ->
  actionListed table tool (JStr a) = Ok (listed table tool a).
Proof.
  intros Ht Ha. unfold actionListed, listed, js_get. cbn [js_truthy].
  rewrite bool_decide_eq_false_2 by done. cbn [negb].
  by destruct (own_member table tool).
Qed.

(** The three action tables never list the same action of a tool twice, so
    the order in which they are consulted does not matter: in particular no
    Tier-3 action can be shadowed by a downgrade. *)
Lemma tier_tables_disjoint tool a :
  (listed TIER3_ACTIONS tool a = true ->
   listed TIER1_ACTIONS tool a = false /\ listed TIER2_ACTIONS tool a = false)
  /\ (listed TIER2_ACTIONS tool a = true -> listed TIER1_ACTIONS tool a = false).
Proof.
  destruct (andb_prop _ _ tables_disjoint_check) as [H3 H2]. split; intros Hl.
  - pose proof (all_listed_spec _ _ _ _ H3 Hl) as E. cbv beta in E. by bool_hyps.
  - pose proof (all_listed_spec _ _ _ _ H2 Hl) as E. cbv beta in E. by bool_hyps.
Qed.

(** A call runs without approval only if it was meant to: the tool is
    registered below Tier 3, or its action is explicitly downgraded in a table
    (and then it is not a Tier-3 action); an unregistered tool is refused. *)
Lemma auto_execution_is_deliberate reg tool input g base :
  tool ∉ OBJECT_PROTOTYPE ->
  getToolTier reg tool = Ok base ->
  checkGuardrails reg tool input = Ok g ->
  match base with
  | None => gc_allowed g = false
  | Some (TNum b) =>
      gc_allowed g = true
      /\ (gc_requiresApproval g = true -> gc_tier g = TNum 3 \/ gc_tier g = TNum b /\ 3 <= b)
      /\ (gc_requiresApproval g = false ->
          (b < 3 \/ exists a, json_get "action" input = JStr a
                    /\ (listed TIER1_ACTIONS tool a = true \/ listed TIER2_ACTIONS tool a = true))
          /\ forall a, json_get "action" input = JStr a -> a <> ""%string ->
                       listed TIER3_ACTIONS tool a = false)
  | Some TInherited => False
  end.
Proof.
  intros Hproto Hbase Hc. rename Hc into H. unfold checkGuardrails in H.
  rewrite bool_decide_eq_false_2 in H by apply not_elem_of_nil. rewrite Hbase in H. cbn [rbind] in H.
  destruct base as [[b|]|]; [| |by injection H as <-].
  - result_ok H. rename Hg into H1.
    assert (Hno3 : forall a, json_get "action" input = JStr a -> a <> ""%string ->
              actionListed TIER3_ACTIONS tool (json_get "action" input) = Ok false ->
              listed TIER3_ACTIONS tool a = false).
    { intros x Hx Hne. rewrite Hx. destruct (own_member TIER3_ACTIONS tool) eqn:Eo.
      - rewrite actionListed_str by (by rewrite ?Eo). by intros [= ->].
      - intros _. unfold listed. by rewrite Eo. }
    destruct (andb_prop _ _ tables_disjoint_check) as [D3 D2].
    destruct a.
    + result_ok H. injection H as <-. cbn. apply actionListed_true in H1 as (x & Hx & Hl).
      split; [done|]. split; [done|]. intros _. split; [eauto|].
      intros y Hy _. assert (y = x) as -> by congruence.
      destruct (listed TIER3_ACTIONS tool x) eqn:E3; [|done].
      pose proof (all_listed_spec _ _ _ _ D3 E3) as E. cbv beta in E. by rewrite Hl in E.
    + result_ok H. rename Hg into H3.
      destruct a; [result_ok H; injection H as <-; cbn; naive_solver|].
      result_ok H. rename Hg into H2. destruct a; result_ok H; injection H as <-; cbn.
      * apply actionListed_true in H2 as (x & Hx & Hl).
        split; [done|]. split; [done|]. intros _. split; [eauto|].
        intros y Hy Hne. by apply Hno3.
      * split; [done|]. split; [intros E; bool_hyps; auto|].
        intros E. bool_hyps. split; [left; lia|]. intros y Hy Hne. by apply Hno3.
  - unfold getToolTier, js_get in Hbase. rewrite bool_decide_eq_false_2 in Hbase by done.
    repeat case_match; simplify_eq.
Qed.

Definition demo_registry : ToolRegistry :=
  {| tr_aiTools := {[ "manage_services" := 3; "file_operations" := 1 ]}; tr_extension := ∅ |}.

Lemma auto_execution_witness :
  checkGuardrails demo_registry "manage_services" [("action"%string, JStr "list")]
  = Ok {| gc_tier := TNum 2; gc_allowed := true; gc_requiresApproval := false;
          gc_description := Some ("LIST service " ++ dq ++ "undefined" ++ dq)%string |}
  /\ listed TIER3_ACTIONS "manage_services" "list" = false.
Proof.
  split; [by vm_compute|].
  apply (auto_execution_is_deliberate demo_registry "manage_services" [("action"%string, JStr "list")]
           {| gc_tier := TNum 2; gc_allowed := true; gc_requiresApproval := false;
              gc_description := Some ("LIST service " ++ dq ++ "undefined" ++ dq)%string |}
           (Some (TNum 3)));
    [by apply (bool_decide_unpack _); vm_compute|by vm_compute|by vm_compute|reflexivity|reflexivity|discriminate].
Defined.

(** A call named after a member of [Object.prototype] is not an unknown tool
    to the guardrail: the table read returns the inherited member, and the call
    is allowed at a tier that is not a number, with no approval. *)
Lemma prototype_names_pass_the_tier_gate reg tool :
  tool ∈ OBJECT_PROTOTYPE -> tr_aiTools reg !! tool = None -> tr_extension reg !! tool = None ->
  checkGuardrails reg tool []
  = Ok {| gc_tier := TInherited; gc_allowed := true; gc_requiresApproval := false;
          gc_description := Some tool |}.
Proof.
  intros Hin Ha He. unfold checkGuardrails, getToolTier. rewrite Ha, He. clear Ha He.
  unfold OBJECT_PROTOTYPE in Hin.
  repeat (apply elem_of_cons in Hin as [->|Hin]; [by vm_compute|]). by apply not_elem_of_nil in Hin.
Qed.

Lemma prototype_names_witness :
  checkGuardrails demo_registry "constructor" []
  = Ok {| gc_tier := TInherited; gc_allowed := true; gc_requiresApproval := false;
          gc_description := Some "constructor"%string |}.
Proof.
  apply (prototype_names_pass_the_tier_gate demo_registry "constructor");
    [apply list_elem_of_here|reflexivity|reflexivity].
Defined.

(** ** RBAC *)

Lemma firstDenied_None perms rs : firstDenied perms rs = None <-> Forall (fun r => meets perms r = true) rs.
Proof.
  induction rs as [|r rs IH]; cbn [firstDenied]; [done|]. rewrite Forall_cons_iff.
  destruct (meets perms r); [rewrite IH|]; naive_solver.
Qed.

(** RBAC is fail-closed: a caller with a role passes only for a tool and
    action that have a permission mapping, only when their role was resolved,
    and only when it grants the mapped permission and every extra one. *)
Lemma rbac_allows_only_granted getPerms tool input auth roleId :
  auth_token auth = Some (Some roleId) ->
  checkToolPermission getPerms tool input auth = Ok None ->
  exists required extra perms,
    requiredPermission tool (json_get "action" input) = Ok required
    /\ extraPermissions tool = Ok extra
    /\ getPerms (auth_userId auth) {| pc_partnerId := auth_partnerId auth; pc_orgId := auth_orgId auth |}
       = Some perms
    /\ meets perms required = true /\ Forall (fun r => meets perms r = true) extra.
Proof.
  intros Ht H. unfold checkToolPermission in H. rewrite Ht in H.
  destruct (requiredPermission _ _) as [required|] eqn:Er; [|done].
  result_ok H. injection H as H. unfold checkPermissionRequirements in H. rewrite Ht in H.
  destruct (getPerms _ _) as [perms|] eqn:Ep; [|done].
  change (firstDenied perms (required :: a) = None) in H.
  apply firstDenied_None, Forall_cons_iff in H as [H1 H2].
  exists required, a, perms. auto.
Qed.

Definition demo_auth : AuthContext :=
  {| auth_principal := user_session; auth_userId := "u"; auth_token := Some (Some "r");
     auth_partnerId := Some "p"; auth_orgId := Some "org"; auth_scope := organization;
     auth_accessibleOrgIds := Some ["org"]; auth_allowedSiteIds := None |}.

Lemma rbac_witness :
  exists required, requiredPermission "manage_services" (JStr "restart") = Ok required.
Proof.
  destruct (rbac_allows_only_granted (fun u c => resolvePermissions 0 None demo_dir u c)
              "manage_services" [("action"%string, JStr "restart")] demo_auth "r")
    as (required & _ & _ & H & _); [reflexivity|by vm_compute|].
  exists required. exact H.
Defined.

(** The pairs of a table whose call has no permission mapping. *)
Definition unmapped (table : list (string * list string)) : list (string * string) :=
  List.filter (fun ta => match requiredPermission ta.1 (JStr ta.2) with Err _ => true | _ => false end)
    (flat_map (fun kl => map (fun a => (kl.1, a)) kl.2) table).

(** Every action that is downgraded to Tier 1 or escalated to Tier 3 has a
    permission mapping; eleven actions that the Tier-2 table lists for automatic
    execution have none, so a caller with a role can never run them. *)
Lemma tier2_actions_without_mapping :
  unmapped TIER1_ACTIONS = [] /\ unmapped TIER3_ACTIONS = []
  /\ unmapped TIER2_ACTIONS =
     [("manage_update_rings", "create"); ("manage_update_rings", "update");
      ("manage_software_policies", "create"); ("manage_software_policies", "update");
      ("manage_peripheral_policies", "create"); ("manage_peripheral_policies", "update");
      ("manage_backup_configs", "create"); ("manage_backup_configs", "update");
      ("manage_notification_channels", "create"); ("manage_notification_channels", "update");
      ("manage_notification_channels", "delete")]%string
  /\ forall getPerms auth roleId tool action,
       auth_token auth = Some (Some roleId) -> (tool, action) ∈ unmapped TIER2_ACTIONS ->
       exists d, checkToolPermission getPerms tool [("action"%string, JStr action)] auth = Ok (Some d).
Proof.
  split; [by vm_compute|]. split; [by vm_compute|]. split; [by vm_compute|].
  intros getPerms auth roleId tool action Ht Hin. apply list_filter_elem in Hin as [_ Hd]. cbn [fst snd] in Hd.
  unfold checkToolPermission. rewrite Ht. cbn [json_get]. rewrite bool_decide_eq_true_2 by done.
  destruct (requiredPermission _ _); [done|eauto].
Qed.
