(* ===== verification/RateLimit.v ===== *)
(** * Rate limits and account lockout

    apps/api/src/services/rate-limit.ts: the sliding-window limiter over a Redis
    sorted set, the per-account failure counter behind login lockout, and the
    per-tool limits of aiGuardrails.ts ([checkToolRateLimit]). Redis is modelled
    at the commands the code issues; [None] stands for an unavailable server and
    [fail] for a transaction that errors. *)

From stdpp Require Import base gmap strings list option.
From Stdlib Require Import ZArith Lia Ascii.
From S2P Require Import Prelude GuardrailTables ApprovalText Guardrails.

(** ** Sorted sets with expiry *)

(** The members of a sorted set with their scores. *)
Abbreviation zset := (list (string * Z)).

Abbreviation ZStore := (gmap string (zset * Z)).

(** The set stored at a key, empty once its expiry has passed. *)
Definition zget (st : ZStore) (key : string) (now : Z) : zset :=
  match st !! key with
  | Some (z, exp) => if now <? exp then z else []
  | None => []
  end.

(** [ZREMRANGEBYSCORE key -inf max] *)
Definition zremrangebyscore (max : Z) (z : zset) : zset := List.filter (fun e => max <? e.2) z.

(** [ZADD key score member]: a member that is already there gets the new score. *)
Definition zadd (score : Z) (member : string) (z : zset) : zset :=
  (member, score) :: List.filter (fun e => negb (bool_decide (e.1 = member))) z.

(** The score of [ZRANGE key 0 0 WITHSCORES]: the lowest. *)
Definition zlowest (dflt : Z) (z : zset) : Z :=
  match z with
  | [] => dflt
  | e :: rest => fold_left (fun m e => Z.min m e.2) rest e.2
  end.

(** ** The limiter *)

Record RateLimitResult : Type := {
  rl_allowed : bool;
  rl_remaining : Z;
  rl_resetAt : Z;
}.

Definition failClosed (windowSeconds now : Z) : RateLimitResult :=
  {| rl_allowed := false; rl_remaining := 0; rl_resetAt := now + windowSeconds * 1000 |}.

(** The members a call adds: [`${now}-${i}-${random}`] for each unit of cost. *)
Definition call_members (now : Z) (safeCost : nat) (random : nat -> string) : list string :=
  map (fun i => (dec now ++ "-" ++ dec (Z.of_nat i) ++ "-" ++ random i)%string) (seq 0 safeCost).

(** [rateLimiter(redis, key, limit, windowSeconds, cost)]; [cost] is [None] when
    it is not finite, otherwise its integer part. *)
Definition rateLimiter (redis : option ZStore) (fail : bool) (now : Z) (random : nat -> string)
    (key : string) (limit windowSeconds : Z) (cost : option Z)
  : option ZStore * RateLimitResult :=
  match redis with
  | None => (redis, failClosed windowSeconds now)
  | Some st =>
      let windowStart := now - windowSeconds * 1000 in
      let safeCost := match cost with Some c => Z.to_nat (Z.max 1 c) | None => 1%nat end in
      if fail then (redis, failClosed windowSeconds now)
      else
        let z := fold_left (fun z m => zadd now m z) (call_members now safeCost random)
                   (zremrangebyscore windowStart (zget st key now)) in
        let count := Z.of_nat (length z) in
        (Some (<[key := (z, now + windowSeconds * 1000)]> st),
         {| rl_allowed := count <=? limit; rl_remaining := Z.max 0 (limit - count);
            rl_resetAt := zlowest now z + windowSeconds * 1000 |})
  end.

(** [checkToolRateLimit(toolName, userId)]: [Some resetAt] when limited. On an
    inherited member of the table the limit and the window are undefined, and
    formatting the reset time throws (what that call leaves in Redis is not
    modelled). *)
Definition toolLimitKey (userId toolName : string) : string :=
  ("ai:tool:" ++ userId ++ ":" ++ toolName)%string.

Definition checkToolRateLimit (redis : option ZStore) (fail : bool) (now : Z) (random : nat -> string)
    (toolName userId : string) : option ZStore * result GuardrailError (option Z) :=
  match js_get TOOL_RATE_LIMITS toolName with
  | Own (limit, windowSeconds) =>
      let '(redis', r) := rateLimiter redis fail now random (toolLimitKey userId toolName) limit
                            windowSeconds (Some 1) in
      (redis', Ok (if rl_allowed r then None else Some (rl_resetAt r)))
  | Inherited => (redis, Err TypeError)
  | Absent => (redis, Ok None)
  end.

(** ** Account lockout *)

(** The counters: a value and its expiry, which is unset until [EXPIRE]. *)
Abbreviation CounterStore := (gmap string (Z * option Z)).

Definition counter (st : CounterStore) (key : string) (now : Z) : option (Z * option Z) :=
  match st !! key with
  | Some (n, Some exp) => if now <? exp then Some (n, Some exp) else None
  | Some (n, None) => Some (n, None)
  | None => None
  end.

Definition accountFailureKey (email : string) : string :=
  ("login:account-fail:" ++ toLowerCase email)%string.

(** The command that errors, if any. *)
Inductive CounterFault : Type := NoFault | IncrFault | ExpireFault.

Record AccountFailureResult : Type := {
  af_count : Z;
  af_locked : bool;
  af_newlyLocked : bool;
}.

(** [recordAccountFailure(redis, email)] under the configured maximum and
    window: [INCR], then [EXPIRE] when the counter was just created. *)
Definition recordAccountFailure (maxAttempts windowSeconds : Z) (redis : option CounterStore)
    (fault : CounterFault) (now : Z) (email : string) : option CounterStore * AccountFailureResult :=
  let closed := {| af_count := maxAttempts; af_locked := true; af_newlyLocked := false |} in
  if maxAttempts <=? 0 then
    (redis, {| af_count := 0; af_locked := false; af_newlyLocked := false |})
  else
    match redis, fault with
    | None, _ => (redis, closed)
    | Some _, IncrFault => (redis, closed)
    | Some st, _ =>
        let key := accountFailureKey email in
        let '(count, ttl) := match counter st key now with
          | Some (n, e) => (n + 1, e)
          | None => (1, None)
          end in
        let answer := {| af_count := count; af_locked := maxAttempts <=? count;
                         af_newlyLocked := count =? maxAttempts |} in
        if count =? 1 then
          match fault with
          | NoFault => (Some (<[key := (count, Some (now + windowSeconds * 1000))]> st), answer)
          | _ => (Some (<[key := (count, ttl)]> st), closed)
          end
        else (Some (<[key := (count, ttl)]> st), answer)
    end.

Definition clearAccountFailures (redis : option CounterStore) (fail : bool) (email : string)
  : option CounterStore :=
  match redis with
  | Some st => if fail then redis else Some (delete (accountFailureKey email) st)
  | None => None
  end.

Definition isAccountLocked (maxAttempts : Z) (redis : option CounterStore) (fail : bool) (now : Z)
    (email : string) : bool :=
  if maxAttempts <=? 0 then false
  else
    match redis with
    | None => true
    | Some st =>
        if fail then true
        else match counter st (accountFailureKey email) now with
             | Some (v, _) => maxAttempts <=? v
             | None => false
             end
    end.

(** ** At most [limit] allowed calls in any window *)

Section sliding_window.
Variables (key : string) (limit windowSeconds : Z).
Hypothesis Hwindow : 0 < windowSeconds.

(** A call of cost 1 and its outcome: the time, the random suffix it drew, and
    whether it was allowed. *)
Record Call : Type := {
  c_time : Z;
  c_random : string;
  c_allowed : bool;
}.

Definition c_member (c : Call) : string :=
  (dec (c_time c) ++ "-" ++ dec 0 ++ "-" ++ c_random c)%string.

(** A history of calls on one key, latest first, from an empty store: clocks do
    not go backwards, and the random suffixes make the members distinct. *)
Inductive history : ZStore -> list Call -> Prop :=
| history_start : history ∅ []
| history_call st h now random st' r :
    history st h ->
    (forall c, c ∈ h -> c_time c <= now) ->
    (forall c, c ∈ h -> c_member c <> c_member {| c_time := now; c_random := random; c_allowed := true |}) ->
    rateLimiter (Some st) false now (fun _ => random) key limit windowSeconds (Some 1) = (Some st', r) ->
    history st' ({| c_time := now; c_random := random; c_allowed := rl_allowed r |} :: h).

Abbreviation W := (windowSeconds * 1000).

Definition entry (c : Call) : string * Z := (c_member c, c_time c).

(** The calls a clock reading [now] still counts. *)
Definition recent (now : Z) (h : list Call) : list Call := List.filter (fun c => now - W <? c_time c) h.

Definition last_time (h : list Call) : Z := match h with c :: _ => c_time c | [] => 0 end.

Lemma history_sorted st h c : history st h -> c ∈ h -> c_time c <= last_time h.
Proof.
  intros Hh. destruct Hh as [|st h now random st' r Hh Hle _ _]; [by intros ?%not_elem_of_nil|].
  intros [->|H]%elem_of_cons; [done|]. by apply Hle.
Qed.

Lemma filter_filter_impl {A} (p q : A -> bool) l :
  (forall x, x ∈ l -> p x = true -> q x = true) -> List.filter p (List.filter q l) = List.filter p l.
Proof.
  induction l as [|x l IH]; intros Hpq; [done|]. cbn [List.filter].
  assert (IH' := IH (fun y Hy => Hpq y (list_elem_of_further _ _ _ Hy))).
  destruct (q x) eqn:Eq; cbn [List.filter]; [by rewrite IH'|].
  destruct (p x) eqn:Ep; [|done]. by rewrite (Hpq x (list_elem_of_here _ _) Ep) in Eq.
Qed.

Lemma filter_all {A} (p : A -> bool) l : (forall x, x ∈ l -> p x = true) -> List.filter p l = l.
Proof.
  induction l as [|x l IH]; intros H; [done|]. cbn [List.filter].
  rewrite (H x (list_elem_of_here _ _)), IH; [done|]. intros y Hy. by apply H, list_elem_of_further.
Qed.

Lemma filter_map {A B} (f : A -> B) (p : B -> bool) l :
  List.filter p (map f l) = map f (List.filter (fun x => p (f x)) l).
Proof. induction l as [|x l IH]; cbn; [done|]. rewrite IH. by destruct (p (f x)). Qed.

(** What the store holds: the calls of the window that ends at the last call. *)
Definition window_inv (st : ZStore) (h : list Call) : Prop :=
  match h with
  | [] => st !! key = None
  | _ => st !! key = Some (map entry (recent (last_time h) h), last_time h + W)
  end.

Lemma live_window st h now :
  history st h -> window_inv st h -> (forall c, c ∈ h -> c_time c <= now) ->
  zremrangebyscore (now - W) (zget st key now) = map entry (recent now h).
Proof.
  intros Hh Hinv Hle. unfold zget, window_inv in *. destruct h as [|c0 h0]; [by rewrite Hinv|].
  rewrite Hinv. unfold zremrangebyscore, recent.
  destruct (now <? last_time (c0 :: h0) + W) eqn:E; bool_hyps.
  - rewrite filter_map. f_equal. apply filter_filter_impl. cbn. intros c Hc Hr. bool_hyps.
    apply Z.ltb_lt. pose proof (Hle c0 (list_elem_of_here _ _)). cbn. lia.
  - rewrite (filter_none (fun c => now - W <? c_time c) (c0 :: h0)); [done|]. intros c Hc.
    pose proof (history_sorted _ _ _ Hh Hc) as Hs. apply Z.ltb_ge. lia.
Qed.

Lemma recent_new now random b h :
  recent now ({| c_time := now; c_random := random; c_allowed := b |} :: h)
  = {| c_time := now; c_random := random; c_allowed := b |} :: recent now h.
Proof.
  unfold recent. cbn [List.filter c_time].
  by replace (now - W <? now) with true by (symmetry; apply Z.ltb_lt; lia).
Qed.

Lemma one_call st h now random st' r :
  history st h -> window_inv st h -> (forall c, c ∈ h -> c_time c <= now) ->
  (forall c, c ∈ h -> c_member c <> c_member {| c_time := now; c_random := random; c_allowed := true |}) ->
  rateLimiter (Some st) false now (fun _ => random) key limit windowSeconds (Some 1) = (Some st', r) ->
  let h' := {| c_time := now; c_random := random; c_allowed := rl_allowed r |} :: h in
  window_inv st' h' /\ rl_allowed r = (Z.of_nat (length (recent now h')) <=? limit).
Proof.
  intros Hh Hinv Hle Hne Hr h'. unfold rateLimiter in Hr.
  rewrite (live_window st h now Hh Hinv Hle) in Hr.
  change (Z.to_nat (Z.max 1 1)) with 1%nat in Hr. cbn [call_members seq map fold_left] in Hr.
  change (Z.of_nat 0) with 0 in Hr.
  assert (Hz : zadd now (dec now ++ "-" ++ dec 0 ++ "-" ++ random)%string (map entry (recent now h))
               = ((dec now ++ "-" ++ dec 0 ++ "-" ++ random)%string, now) :: map entry (recent now h)).
  { unfold zadd. rewrite filter_all; [done|].
    intros e (c & -> & Hc)%list_elem_of_fmap. apply list_filter_elem in Hc as [Hc _].
    apply negb_true_iff, bool_decide_eq_false_2. exact (Hne c Hc). }
  rewrite Hz in Hr. injection Hr as <- <-. unfold h'. cbn [rl_allowed]. split.
  - unfold window_inv. cbn [last_time c_time]. by rewrite lookup_insert_eq, recent_new.
  - rewrite recent_new. cbn [length]. by rewrite length_map.
Qed.

Lemma history_inv st h : history st h -> window_inv st h.
Proof.
  induction 1 as [|st h now random st' r Hh IH Hle Hne Hr]; [apply lookup_empty|].
  by apply (one_call _ _ _ _ _ _ Hh IH Hle Hne Hr).
Qed.

(** The allowed calls in the window that ends at [t]. *)
Definition allowed_in (t : Z) (h : list Call) : list Call :=
  List.filter (fun c => c_allowed c && (t - W <? c_time c) && (c_time c <=? t)) h.

Lemma filter_length_le {A} (p q : A -> bool) l :
  (forall x, x ∈ l -> p x = true -> q x = true) ->
  (length (List.filter p l) <= length (List.filter q l))%nat.
Proof.
  induction l as [|x l IH]; intros Hpq; [done|]. cbn [List.filter].
  assert (IH' := IH (fun y Hy => Hpq y (list_elem_of_further _ _ _ Hy))).
  pose proof (Hpq x (list_elem_of_here _ _)) as Hx.
  destruct (p x); [rewrite Hx by done|destruct (q x)]; cbn; lia.
Qed.

(** The limiter holds its limit: on any history of calls on a key, in any
    span of [windowSeconds] at most [limit] calls were allowed. *)
Lemma sliding_window_limit st h t :
  0 <= limit -> history st h -> Z.of_nat (length (allowed_in t h)) <= limit.
Proof.
  intros Hl Hh. induction Hh as [|st h now random st' r Hh IH Hle Hne Hr]; [by cbn|].
  destruct (one_call _ _ _ _ _ _ Hh (history_inv _ _ Hh) Hle Hne Hr) as [_ Hok].
  set (c := {| c_time := now; c_random := random; c_allowed := rl_allowed r |}) in *.
  destruct (c_allowed c && (t - W <? c_time c) && (c_time c <=? t)) eqn:Ec.
  - bool_hyps. cbn [c_allowed c_time c] in *. rewrite H in Hok. symmetry in Hok. bool_hyps.
    apply Z.le_trans with (Z.of_nat (length (recent now (c :: h)))); [|done].
    apply inj_le, filter_length_le. intros x Hx Hp. bool_hyps. apply Z.ltb_lt. lia.
  - unfold allowed_in in *. cbn [List.filter]. by rewrite Ec.
Qed.

End sliding_window.

(** Two calls a millisecond apart under a limit of one: the second is refused. *)
Definition demo_call1 := rateLimiter (Some ∅) false 100000 (fun _ => "aa"%string) "k" 1 60 (Some 1).
Definition demo_store1 : ZStore := default ∅ demo_call1.1.
Definition demo_call2 := rateLimiter (Some demo_store1) false 100001 (fun _ => "bb"%string) "k" 1 60 (Some 1).
Definition demo_store2 : ZStore := default ∅ demo_call2.1.
Definition demo_history : list Call :=
  [{| c_time := 100001; c_random := "bb"; c_allowed := false |};
   {| c_time := 100000; c_random := "aa"; c_allowed := true |}].

Lemma demo_history_ok : history "k" 1 60 demo_store2 demo_history.
Proof.
  apply (history_call "k" 1 60 demo_store1
           [{| c_time := 100000; c_random := "aa"; c_allowed := true |}] 100001 "bb" demo_store2
           demo_call2.2); [..|by vm_compute].
  - apply (history_call "k" 1 60 ∅ [] 100000 "aa" demo_store1 demo_call1.2); [constructor|..|by vm_compute];
      by intros c ?%not_elem_of_nil.
  - intros c ->%list_elem_of_singleton. cbn. lia.
  - intros c ->%list_elem_of_singleton. by vm_compute.
Qed.

Lemma sliding_window_witness : Z.of_nat (length (allowed_in 60 100001 demo_history)) <= 1.
Proof.
  apply (sliding_window_limit "k" 1 60 eq_refl demo_store2 demo_history 100001);
    [lia|exact demo_history_ok].
Defined.

(** ** Lockout *)

(** Consecutive failures of one account at the given times. *)
Fixpoint failures (maxAttempts windowSeconds : Z) (st : CounterStore) (email : string) (times : list Z)
  : CounterStore * list AccountFailureResult :=
  match times with
  | [] => (st, [])
  | t :: rest =>
      let '(st1, r) := recordAccountFailure maxAttempts windowSeconds (Some st) NoFault t email in
      let '(st2, rs) := failures maxAttempts windowSeconds (default ∅ st1) email rest in
      (st2, r :: rs)
  end.

Definition nth_failure (maxAttempts : Z) (n : Z) : AccountFailureResult :=
  {| af_count := n; af_locked := maxAttempts <=? n; af_newlyLocked := n =? maxAttempts |}.

Lemma failures_from maxAttempts w email exp times : forall st n,
  0 < maxAttempts -> 0 < n -> st !! accountFailureKey email = Some (n, Some exp) ->
  Forall (fun t => t < exp) times ->
  (failures maxAttempts w st email times).2
    = map (fun i => nth_failure maxAttempts (n + 1 + Z.of_nat i)) (seq 0 (length times))
  /\ (failures maxAttempts w st email times).1 !! accountFailureKey email
     = Some (n + Z.of_nat (length times), Some exp).
Proof.
  induction times as [|t times IH]; intros st n Hm Hn Hk Ht.
  { cbn. split; [done|]. rewrite Hk. do 2 f_equal. lia. }
  apply Forall_cons_iff in Ht as [Hlt Ht]. cbn [failures].
  unfold recordAccountFailure. rewrite (proj2 (Z.leb_gt maxAttempts 0) Hm).
  unfold counter. rewrite Hk. rewrite (proj2 (Z.ltb_lt t exp) Hlt).
  rewrite (proj2 (Z.eqb_neq (n + 1) 1)) by lia. cbn [default].
  destruct (IH (<[accountFailureKey email := (n + 1, Some exp)]> st) (n + 1) Hm ltac:(lia)
              (lookup_insert_eq _ _ _) Ht) as [Hr Hs]. unfold default, id.
  destruct (failures maxAttempts w _ email times) as [st2 rs]. cbn [fst snd] in *. split.
  - cbn [length seq map]. rewrite Hr. f_equal.
    { change (nth_failure maxAttempts (n + 1) = nth_failure maxAttempts (n + 1 + 0)). f_equal. lia. }
    rewrite <- seq_shift, map_map. apply map_ext. intros i. apply f_equal. lia.
  - rewrite Hs. do 2 f_equal. cbn [length]. lia.
Qed.

(** Within one window the n-th failure of an account reports count n, locks
    from the configured maximum on, and exactly one failure, the one that
    reaches the maximum, reports the lock as new; the lock check agrees until
    the window that the first failure opened ends, and is off after it. *)
Lemma lockout_counts_one_window maxAttempts w st email t0 times t :
  0 < maxAttempts ->
  counter st (accountFailureKey email) t0 = None -> t0 < t0 + w * 1000 ->
  Forall (fun u => u < t0 + w * 1000) times ->
  let '(st', results) := failures maxAttempts w st email (t0 :: times) in
  results = map (fun i => nth_failure maxAttempts (1 + Z.of_nat i)) (seq 0 (S (length times)))
  /\ isAccountLocked maxAttempts (Some st') false t email
     = (t <? t0 + w * 1000) && (maxAttempts <=? Z.of_nat (S (length times))).
Proof.
  intros Hm Hnone Hw Ht. cbn [failures]. unfold recordAccountFailure.
  rewrite (proj2 (Z.leb_gt maxAttempts 0) Hm), Hnone. cbn [Z.eqb Pos.eqb default]. unfold default, id.
  destruct (failures_from maxAttempts w email (t0 + w * 1000) times
              (<[accountFailureKey email := (1, Some (t0 + w * 1000))]> st) 1 Hm ltac:(lia)
              (lookup_insert_eq _ _ _) Ht) as [Hr Hs].
  destruct (failures maxAttempts w _ email times) as [st2 rs]. cbn [fst snd] in *. split.
  - cbn [seq map]. rewrite Hr. f_equal. rewrite <- seq_shift, map_map. apply map_ext. intros i. apply f_equal. lia.
  - unfold isAccountLocked, counter. rewrite (proj2 (Z.leb_gt maxAttempts 0) Hm), Hs.
    destruct (t <? t0 + w * 1000); cbn [andb]; [|done].
    by replace (1 + Z.of_nat (length times)) with (Z.of_nat (S (length times))) by lia.
Qed.

Lemma lockout_witness :
  isAccountLocked 2 (Some (failures 2 900 ∅ "A@x" [5; 6]).1) false 7 "a@X" = true.
Proof.
  pose proof (lockout_counts_one_window 2 900 ∅ "A@x" 5 [6] 7 ltac:(lia) eq_refl ltac:(lia)
                ltac:(apply Forall_cons_iff; split; [lia|constructor])) as H.
  exact (proj2 H).
Defined.
