(* ===== verification/ResultSecrets.v ===== *)
(** * Credentials in action results

    apps/api/src/services/actionIntents/secretBearingTools.ts and
    resultSecrets.ts: sealing a minted credential before it is stored, the guard
    that refuses to store it in the clear, unsealing and burning it. A result is
    a JSON object; member order is immaterial, so it is a finite map. *)

From stdpp Require Import base gmap strings list option.
From Stdlib Require Import ZArith Lia Ascii.
From S2P Require Import Prelude Json SecretCrypto.

(** [Record<string, unknown>] as stored in [action_intents.result]. *)
Abbreviation Result := (gmap string json).

Definition ACTION_INTENT_RESULT_AAD : string := "action_intents.result".
Definition TEMP_PASSWORD_ENC_KEY : string := "temporaryPasswordEnc".
Definition TEMP_PASSWORD_LEGACY_KEY : string := "temporaryPassword".
Definition TEMP_PASSWORD_REVEALED_KEY : string := "temporaryPasswordRevealed".
Definition TEMP_PASSWORD_EXPIRED_KEY : string := "temporaryPasswordExpired".
Definition TEMP_PASSWORD_SEAL_FAILED_KEY : string := "temporaryPasswordSealFailed".
Definition REVEAL_WINDOW_DAYS : Z := 7.
Definition SECRET_BEARING_ACTION : string := "m365.user.reset_password".
Definition SECRET_BEARING_TOOLS : list string := ["m365_reset_password"; "google_reset_password"]%string.
Definition MAX_RESULT_BYTES : Z := 65536.

Definition SECRET_UNAVAILABLE_TEXT : string :=
  ("The password was reset, but the temporary credential could not be stored securely and is "
   ++ "unavailable. Reset the password again to obtain a new one.")%string.

(** [stripMcpPrefix(toolName)] *)
Definition stripMcpPrefix (toolName : string) : string :=
  if negb (startsWith "mcp__" toolName) then toolName
  else match indexOf "__" (str_drop 5 toolName) with
       | None => toolName
       | Some i => str_drop (5 + i + 2) toolName
       end.

Definition isSecretBearingTool (toolName : string) : bool :=
  bool_decide (stripMcpPrefix toolName ∈ SECRET_BEARING_TOOLS).

(** The carrier a secret-bearing tool returns. *)
Inductive SecretToolResult : Type :=
| SecretSuccess (llmText temporaryPassword : string) (delegantToolCallId : option string)
| SecretError (llmText : string).

Definition get_string (r : Result) (k : string) : option string :=
  match r !! k with Some (JStr s) => Some s | _ => None end.

(** [PROSE_CREDENTIAL_PATTERN.test(value)]: somewhere the label, white space, then
    a character that does not start a redaction mark. *)
Definition prose_at (s : string) : bool :=
  startsWith "Temporary password:" s &&
  let rest := trim_left (str_drop 19 s) in
  negb (bool_decide (rest = EmptyString))
  && negb (startsWith "[REDACTED]" rest) && negb (startsWith "[redacted]" rest).

Fixpoint prose_credential (s : string) : bool :=
  prose_at s || match s with EmptyString => false | String _ s' => prose_credential s' end.

(** [assertNoPlaintextSecret(toolName, result)]: [true] when it does not throw. *)
Definition assertNoPlaintextSecret (toolName : string) (result : Result) : bool :=
  if negb (isSecretBearingTool toolName) then true
  else
    bool_decide (result !! TEMP_PASSWORD_LEGACY_KEY = None)
    && forallb (fun kv => match kv.2 with JStr s => negb (prose_credential s) | _ => true end)
         (map_to_list result).

Definition hasSealedTemporaryPassword (result : Result) : bool :=
  bool_decide (get_string result TEMP_PASSWORD_ENC_KEY <> None)
  || bool_decide (get_string result TEMP_PASSWORD_LEGACY_KEY <> None).

Inductive UnsealError : Type :=
| NonV3Refused
| DecryptFailed (e : CryptoError).

Section sealing.
Context (sha256 : string -> bytes).
Context (enc : bytes -> bytes -> option string -> bytes -> bytes * bytes).
Context (dec : bytes -> bytes -> option string -> bytes -> bytes -> option bytes).
Context (env : CryptoEnv).

(** [encryptSecret(pw, { aad: ACTION_INTENT_RESULT_AAD })], kept only when it is
    an AAD-bound v3 ciphertext. *)
Definition seal (iv : bytes) (pw : string) : result CryptoError (option string) :=
  let! sealed := encryptSecret sha256 enc env iv (Some pw)
                   {| opt_aad := Some ACTION_INTENT_RESULT_AAD; opt_strict := false |} in
  Ok (match sealed with
      | Some c => if startsWith ENCRYPTED_V3_PREFIX c then Some c else None
      | None => None
      end).

(** [sealToolSecrets(result)]: the text for the model and the stored result. *)
Definition sealToolSecrets (iv : bytes) (r : SecretToolResult) : result CryptoError (string * Result) :=
  match r with
  | SecretError llmText => Ok (llmText, {[ "raw" := JStr llmText ]})
  | SecretSuccess llmText pw meta =>
      let base : Result := match meta with
        | Some id => {[ "delegantToolCallId" := JStr id ]} | None => ∅ end in
      let! sealed := seal iv pw in
      match sealed with
      | None => Ok (SECRET_UNAVAILABLE_TEXT, <[TEMP_PASSWORD_SEAL_FAILED_KEY := JBool true]> base)
      | Some c =>
          let llmText := if includes pw llmText then SECRET_UNAVAILABLE_TEXT else llmText in
          Ok (llmText, <[TEMP_PASSWORD_ENC_KEY := JStr c]> base)
      end
  end.

(** [sealActionResultSecrets(result)] *)
Definition sealActionResultSecrets (iv : bytes) (r : Result) : result CryptoError Result :=
  if negb (bool_decide (get_string r "action" = Some SECRET_BEARING_ACTION)) then Ok r
  else
    match get_string r TEMP_PASSWORD_LEGACY_KEY with
    | Some (String _ _ as pw) =>
        let! sealed := seal iv pw in
        let rest := delete TEMP_PASSWORD_LEGACY_KEY r in
        match sealed with
        | None => Ok (<[TEMP_PASSWORD_SEAL_FAILED_KEY := JBool true]> rest)
        | Some c => Ok (<[TEMP_PASSWORD_ENC_KEY := JStr c]> rest)
        end
    | _ => Ok r
    end.

(** [unsealTemporaryPassword(result)] *)
Definition unsealTemporaryPassword (r : Result) : result UnsealError (option string) :=
  match get_string r TEMP_PASSWORD_ENC_KEY with
  | Some sealed =>
      if negb (startsWith ENCRYPTED_V3_PREFIX sealed) then Err NonV3Refused
      else match decryptSecret sha256 dec env (Some sealed)
                   {| opt_aad := Some ACTION_INTENT_RESULT_AAD; opt_strict := true |} with
           | Ok p => Ok p
           | Err e => Err (DecryptFailed e)
           end
  | None => Ok (get_string r TEMP_PASSWORD_LEGACY_KEY)
  end.

End sealing.

(** The marker a burn leaves. *)
Inductive BurnMarker : Type :=
| Revealed (at_ : Z) (byUserId : string)
| Expired.

(** Whether a row's result satisfies the CAS predicate [?|] of the burn. *)
Definition hasSecretKey (r : option Result) : bool :=
  match r with
  | Some m => bool_decide (m !! TEMP_PASSWORD_ENC_KEY <> None)
              || bool_decide (m !! TEMP_PASSWORD_LEGACY_KEY <> None)
  | None => false
  end.

(** The value the burn writes. *)
Definition burnResult (marker : BurnMarker) (r : option Result) : Result :=
  let base := delete TEMP_PASSWORD_LEGACY_KEY (delete TEMP_PASSWORD_ENC_KEY (default ∅ r)) in
  match marker with
  | Revealed t u =>
      <[TEMP_PASSWORD_REVEALED_KEY :=
          JObj [("revealedAt"%string, JNum (dec t)); ("revealedByUserId"%string, JStr u)]]> base
  | Expired => <[TEMP_PASSWORD_EXPIRED_KEY := JBool true]> base
  end.

(** ** Facts *)

Lemma burnResult_clean marker r : hasSecretKey (Some (burnResult marker r)) = false.
Proof.
  unfold hasSecretKey, burnResult. apply orb_false_iff. rewrite !bool_decide_eq_false.
  destruct marker; simplify_map_eq; split; naive_solver.
Qed.

Lemma hasSealed_hasSecretKey r : hasSealedTemporaryPassword r = true -> hasSecretKey (Some r) = true.
Proof.
  unfold hasSealedTemporaryPassword, hasSecretKey, get_string. rewrite !orb_true_iff, !bool_decide_eq_true.
  intros [H|H]; [left|right]; intros E; by rewrite E in H.
Qed.

(** What the guard establishes of a secret-bearing tool's result. *)
Lemma assertNoPlaintextSecret_spec n (r : Result) :
  assertNoPlaintextSecret n r = true <->
  (isSecretBearingTool n = true ->
   r !! TEMP_PASSWORD_LEGACY_KEY = None
   /\ forall k t, r !! k = Some (JStr t) -> prose_credential t = false).
Proof.
  unfold assertNoPlaintextSecret. destruct (isSecretBearingTool n); cbn [negb]; [|naive_solver].
  rewrite andb_true_iff, bool_decide_eq_true, forallb_forall. split.
  - intros [Hl Hp] _. split; [done|]. intros k t Hk.
    specialize (Hp (k, JStr t)). apply negb_true_iff, Hp.
    by apply list_elem_of_In, elem_of_map_to_list.
  - intros Hspec. destruct (Hspec eq_refl) as [Hl Hp]. split; [done|]. intros [k v] Hk.
    apply list_elem_of_In, elem_of_map_to_list in Hk. simpl. destruct v; try done.
    by rewrite (Hp k s).
Qed.

Lemma burn_keeps_secret_guard n m r :
  assertNoPlaintextSecret n r = true -> assertNoPlaintextSecret n (burnResult m (Some r)) = true.
Proof.
  rewrite !assertNoPlaintextSecret_spec. intros Hr Hn. destruct (Hr Hn) as [Hl Hp].
  unfold burnResult. destruct m; (split; [by simplify_map_eq|]); intros k t Hk;
    apply lookup_insert_Some in Hk as [[_ ?]|[_ Hk]]; try done;
    rewrite !lookup_delete_Some in Hk; naive_solver.
Qed.

Section sealing_facts.
Context (sha256 : string -> bytes) {enc decr} `{!Aead enc decr} (env : CryptoEnv).

Lemma seal_unseals iv pw c :
  Forall is_byte iv -> iv <> [] -> pw <> EmptyString -> isEncryptedSecret pw = false ->
  seal sha256 enc env iv pw = Ok (Some c) ->
  startsWith ENCRYPTED_V3_PREFIX c = true
  /\ decryptSecret sha256 decr env (Some c)
       {| opt_aad := Some ACTION_INTENT_RESULT_AAD; opt_strict := true |} = Ok (Some pw).
Proof.
  intros Hi Ni Np Hne H. unfold seal in H. result_ok H.
  destruct a as [c'|]; [|done]. destruct (startsWith ENCRYPTED_V3_PREFIX c') eqn:Es; [|done].
  injection H as ->.
  split; [done|]. by eapply (decrypt_encrypted sha256 env iv pw
    {| opt_aad := Some ACTION_INTENT_RESULT_AAD; opt_strict := false |} true).
Qed.

(** A sealed credential is not stored or shown in the clear: the stored
    result has no plaintext member, only a v3 ciphertext or a failure mark; the
    model's text is the unavailable notice or does not contain the credential;
    and what was sealed is what the reveal decrypts. *)
Lemma sealed_tool_secret iv txt pw meta llm stored :
  Forall is_byte iv -> iv <> [] -> pw <> EmptyString -> isEncryptedSecret pw = false ->
  sealToolSecrets sha256 enc env iv (SecretSuccess txt pw meta) = Ok (llm, stored) ->
  stored !! TEMP_PASSWORD_LEGACY_KEY = None
  /\ (llm = SECRET_UNAVAILABLE_TEXT \/ includes pw llm = false)
  /\ (stored !! TEMP_PASSWORD_SEAL_FAILED_KEY = Some (JBool true)
        /\ hasSealedTemporaryPassword stored = false
      \/ hasSealedTemporaryPassword stored = true
        /\ unsealTemporaryPassword sha256 decr env stored = Ok (Some pw)).
Proof.
  intros Hi Ni Np Hne H. unfold sealToolSecrets in H. result_ok H. destruct a as [c|].
  - injection H as <- <-. destruct (seal_unseals _ _ _ Hi Ni Np Hne Hg) as [Hv3 Hd].
    split; [by destruct meta; simplify_map_eq|]. split.
    { destruct (includes pw txt) eqn:E; auto. }
    right. unfold hasSealedTemporaryPassword, unsealTemporaryPassword, get_string.
    rewrite lookup_insert_eq, Hv3. cbn [negb]. by rewrite Hd.
  - injection H as <- <-. split; [by destruct meta; simplify_map_eq|]. split; [by left|]. left.
    rewrite lookup_insert_eq. split; [done|].
    unfold hasSealedTemporaryPassword, get_string. by destruct meta; simplify_map_eq.
Qed.

(** The structured seal removes the plaintext of a password reset whatever
    the encryption configuration, keeps every other member, and leaves the
    results of other actions as they are. *)
Lemma sealed_action_result iv r r' :
  sealActionResultSecrets sha256 enc env iv r = Ok r' ->
  (get_string r "action" = Some SECRET_BEARING_ACTION ->
     forall pw, get_string r TEMP_PASSWORD_LEGACY_KEY = Some pw -> pw <> EmptyString ->
     r' !! TEMP_PASSWORD_LEGACY_KEY = None
     /\ (forall k, k <> TEMP_PASSWORD_LEGACY_KEY -> k <> TEMP_PASSWORD_ENC_KEY ->
                   k <> TEMP_PASSWORD_SEAL_FAILED_KEY -> r' !! k = r !! k))
  /\ (get_string r "action" <> Some SECRET_BEARING_ACTION -> r' = r).
Proof.
  intros H. unfold sealActionResultSecrets in H. split.
  - intros Ha pw Hp Np. rewrite bool_decide_eq_true_2 in H by done. cbn [negb] in H. rewrite Hp in H.
    destruct pw as [|ch pw']; [done|]. result_ok H.
    destruct a; injection H as <-; split; try (by simplify_map_eq);
      intros k H1 H2 H3; by simplify_map_eq.
  - intros Ha. rewrite bool_decide_eq_false_2 in H by done. by injection H as <-.
Qed.

End sealing_facts.

Definition demo_stored : Result :=
  match sealToolSecrets of_text toy_enc demo_env demo_iv (SecretSuccess "done" "pw" None) with
  | Ok (_, r) => r | Err _ => ∅ end.

Lemma sealed_tool_secret_witness : demo_stored !! TEMP_PASSWORD_LEGACY_KEY = None.
Proof.
  refine (proj1 (sealed_tool_secret of_text demo_env demo_iv "done" "pw" None "done" demo_stored
                   demo_iv_bytes _ _ _ _)); [discriminate|discriminate|reflexivity|vm_compute; reflexivity].
Defined.

Definition demo_reset : Result :=
  {[ "action" := JStr SECRET_BEARING_ACTION; TEMP_PASSWORD_LEGACY_KEY := JStr "pw" ]}.
Definition demo_reset_sealed : Result :=
  match sealActionResultSecrets of_text toy_enc demo_env demo_iv demo_reset with Ok r => r | Err _ => ∅ end.

Lemma sealed_action_result_witness : demo_reset_sealed !! TEMP_PASSWORD_LEGACY_KEY = None.
Proof.
  refine (proj1 (proj1 (sealed_action_result of_text (enc := toy_enc) demo_env demo_iv demo_reset demo_reset_sealed _) _
                   "pw"%string _ _)); [vm_compute; reflexivity..|discriminate].
Defined.
