(* ===== verification/IntentStore.v ===== *)
(** * The intent store: rows, compare-and-set, background jobs

    The tables of apps/api/src/db/schema/actionIntents.ts and approvals.ts, the
    compare-and-set primitive [transitionIntent], the burn of
    actionIntents/resultSecrets.ts, the reapers of jobs/intentExpiryReaper.ts
    and jobs/approvalExpiryReaper.ts, and the publisher of
    jobs/intentOutboxPublisher.ts. Each definition is one database statement or
    one transaction: an atomic step of the system. *)

From stdpp Require Import base gmap strings list option sorting.
From Stdlib Require Import ZArith Lia Ascii.
From S2P Require Import Prelude Json Assurance ResultSecrets.

(** ** Rows *)

Inductive ActionIntentStatus : Type :=
| pending_approval | approved | executing | completed | failed | rejected | expired | cancelled.
#[export] Instance ActionIntentStatus_eq_dec : EqDecision ActionIntentStatus.
Proof. solve_decision. Defined.

Inductive ActionIntentSource : Type := chat | mcp_api.
#[export] Instance ActionIntentSource_eq_dec : EqDecision ActionIntentSource.
Proof. solve_decision. Defined.

(** The columns the immutability trigger protects, and the expiry. *)
Record IntentContent : Type := {
  ic_orgId : string;
  ic_partnerId : option string;
  ic_requestedByUserId : option string;
  ic_requestingApiKeyId : option string;
  ic_source : ActionIntentSource;
  ic_originPrincipalKind : string;
  ic_originPrincipalId : option string;
  ic_requestingClientLabel : string;
  ic_actionName : string;
  ic_arguments : list (string * json);
  ic_argumentDigest : string;
  ic_targetSummary : string;
  ic_impactSummary : string;
  ic_reason : option string;
  ic_riskTier : Z;
  ic_connectionId : option string;
  ic_tenantId : option string;
  ic_idempotencyKey : string;
  ic_expiresAt : Z;
}.

(** The mutable columns. *)
Record Lifecycle : Type := {
  lc_status : ActionIntentStatus;
  lc_decidedAt : option Z;
  lc_decidedByUserId : option string;
  lc_decidedAssuranceLevel : option AssuranceLevel;
  lc_decidedVia : option Factor;
  lc_executionStartedAt : option Z;
  lc_executedAt : option Z;
  lc_result : option Result;
  lc_errorCode : option string;
}.

Record ActionIntent : Type := {
  it_id : string;
  it_content : IntentContent;
  it_life : Lifecycle;
}.

Definition it_status (i : ActionIntent) : ActionIntentStatus := lc_status (it_life i).
Definition it_expiresAt (i : ActionIntent) : Z := ic_expiresAt (it_content i).

Definition LIVE_INTENT_STATUSES : list ActionIntentStatus := [pending_approval; approved; executing].

Inductive ApprovalStatus : Type := ap_pending | ap_approved | ap_denied | ap_expired | ap_reported.
#[export] Instance ApprovalStatus_eq_dec : EqDecision ApprovalStatus.
Proof. solve_decision. Defined.

(** A row of [approval_requests]. *)
Record ApprovalRequest : Type := {
  ap_id : string;
  ap_userId : string;
  ap_requestingClientLabel : string;
  ap_actionLabel : string;
  ap_actionToolName : string;
  ap_actionArguments : list (string * json);
  ap_riskTier : RiskTier;
  ap_riskSummary : string;
  ap_status : ApprovalStatus;
  ap_expiresAt : Z;
  ap_decidedAt : option Z;
  ap_decisionReason : option string;
  ap_decidedAssuranceLevel : option AssuranceLevel;
  ap_decidedVia : option Factor;
  ap_authenticatorDeviceId : option string;
  ap_executionId : option string;
  ap_elevationRequestId : option string;
  ap_intentId : option string;
  ap_boundArgumentDigest : option string;
}.

Inductive IntentOutboxEvent : Type := intent_created | intent_approved.
#[export] Instance IntentOutboxEvent_eq_dec : EqDecision IntentOutboxEvent.
Proof. solve_decision. Defined.

(** A row of [intent_outbox]; ids are allocated in creation order. *)
Record OutboxRow : Type := {
  ob_id : nat;
  ob_intentId : string;
  ob_eventType : IntentOutboxEvent;
  ob_publishedAt : option Z;
  ob_publishAttempts : Z;
}.

(** The status and decision columns of [ai_tool_executions], which approvals
    mirror to. *)
Record ToolExecution : Type := {
  te_id : string;
  te_status : string;
  te_approvedBy : option string;
  te_approvedAt : option Z;
  te_completedAt : option Z;
  te_errorMessage : option string;
}.

(** ** Elevation requests *)

Inductive ElevationStatus : Type :=
  el_pending | el_approved | el_auto_approved | el_denied | el_expired | el_revoked | el_actuating.
#[export] Instance ElevationStatus_eq_dec : EqDecision ElevationStatus.
Proof. solve_decision. Defined.

Inductive FlowType : Type := uac_intercept | tech_jit_admin | ai_tool_action.
#[export] Instance FlowType_eq_dec : EqDecision FlowType.
Proof. solve_decision. Defined.

(** The columns of [elevation_requests] an insert writes and nothing changes
    afterwards; [ec_commandLine] and [ec_pamRuleId] are keys of its metadata.
    The partner id, the client address and the user agent are left out. *)
Record ElevationContent : Type := {
  ec_orgId : string;
  ec_siteId : option string;
  ec_deviceId : string;
  ec_flowType : FlowType;
  ec_subjectUserId : option string;
  ec_subjectUsername : string;
  ec_reason : string;
  ec_targetExecutablePath : option string;
  ec_targetExecutableHash : option string;
  ec_targetExecutableSigner : option string;
  ec_requestedAt : Z;
  ec_softwarePolicyMatchId : option string;
  ec_executionId : option string;
  ec_toolName : option string;
  ec_actionDigest : option string;
  ec_riskTier : option Z;
  ec_commandLine : option string;
  ec_pamRuleId : option string;
}.

(** A row of [elevation_requests]: its content, and the columns its life writes. *)
Record Elevation : Type := {
  el_id : string;
  el_content : ElevationContent;
  el_status : ElevationStatus;
  el_approvedByUserId : option string;
  el_approvedAt : option Z;
  el_expiresAt : option Z;
  el_deniedByUserId : option string;
  el_denialReason : option string;
  el_expiredAt : option Z;
  el_revokedAt : option Z;
  el_revokedByUserId : option string;
  el_revokedReason : option string;
  el_updatedAt : Z;
  el_decidedAssuranceLevel : option AssuranceLevel;
  el_decidedVia : option Factor;
  el_authenticatorDeviceId : option string;
}.

(** The CHECK constraints of the table, as the migrations leave them. *)
Definition target_hash_sha256_chk (e : Elevation) : bool :=
  match ec_targetExecutableHash (el_content e) with
  | None => true
  | Some h => (String.length h =? 64)%nat && str_forallb is_hex_lower h
  end.

Definition flow_shape_chk (e : Elevation) : bool :=
  let c := el_content e in
  match ec_flowType c with
  | tech_jit_admin => bool_decide (ec_subjectUserId c <> None)
  | uac_intercept => bool_decide (ec_targetExecutablePath c <> None)
  | ai_tool_action => bool_decide (ec_toolName c <> None)
  end.

Definition status_timestamps_chk (e : Elevation) : bool :=
  match el_status e with
  | el_pending => true
  | el_approved | el_auto_approved => bool_decide (el_approvedAt e <> None)
  | el_denied => bool_decide (el_denialReason e <> None)
  | el_expired => bool_decide (el_expiredAt e <> None)
  | el_revoked => bool_decide (el_revokedAt e <> None)
  | el_actuating => false
  end.

Definition elevation_checks (e : Elevation) : bool :=
  target_hash_sha256_chk e && flow_shape_chk e && status_timestamps_chk e.

Inductive AuditEvent : Type :=
  ev_requested | ev_auto_approved | ev_approved | ev_denied | ev_expired | ev_revoked
| ev_command_executed | ev_evidence_attached.
#[export] Instance AuditEvent_eq_dec : EqDecision AuditEvent.
Proof. solve_decision. Defined.

Inductive AuditActor : Type := by_end_user | by_technician | by_system | by_policy.
#[export] Instance AuditActor_eq_dec : EqDecision AuditActor.
Proof. solve_decision. Defined.

(** A row of [elevation_audit], without its free-form details. *)
Record ElevationAudit : Type := {
  ea_orgId : string;
  ea_elevationRequestId : string;
  ea_eventType : AuditEvent;
  ea_actor : AuditActor;
  ea_actorUserId : option string;
  ea_occurredAt : Z;
}.

(** A row of [device_commands] of type [actuate_elevation]. *)
Record ActuateCommand : Type := {
  ac_deviceId : string;
  ac_elevationRequestId : string;
  ac_timeoutMs : Z;
  ac_targetPath : string;
  ac_commandLine : string;
  ac_subjectUsername : string;
  ac_createdBy : string;
}.

(** What the outside world has seen, recorded for the theorems: each run of an
    intent's tool, and each disclosure of its credential. *)
Inductive Effect : Type :=
| ToolRan (intentId : string) (at_ : Z)
| SecretShown (intentId : string).

Record Store : Type := {
  st_intents : gmap string ActionIntent;
  st_approvals : gmap string ApprovalRequest;
  st_outbox : list OutboxRow;
  st_executions : gmap string ToolExecution;
  st_elevations : gmap string Elevation;
  st_elevationAudit : list ElevationAudit;
  st_deviceCommands : list ActuateCommand;
  st_auth : AuthState;
  st_effects : list Effect;
}.

(** ** Field updates *)

Definition with_intents (f : gmap string ActionIntent -> gmap string ActionIntent) (s : Store) : Store :=
  {| st_intents := f (st_intents s); st_approvals := st_approvals s; st_outbox := st_outbox s;
     st_executions := st_executions s; st_elevations := st_elevations s;
     st_elevationAudit := st_elevationAudit s; st_deviceCommands := st_deviceCommands s; st_auth := st_auth s;
     st_effects := st_effects s |}.
Definition with_approvals (f : gmap string ApprovalRequest -> gmap string ApprovalRequest) (s : Store) : Store :=
  {| st_intents := st_intents s; st_approvals := f (st_approvals s); st_outbox := st_outbox s;
     st_executions := st_executions s; st_elevations := st_elevations s;
     st_elevationAudit := st_elevationAudit s; st_deviceCommands := st_deviceCommands s; st_auth := st_auth s;
     st_effects := st_effects s |}.
Definition with_outbox (f : list OutboxRow -> list OutboxRow) (s : Store) : Store :=
  {| st_intents := st_intents s; st_approvals := st_approvals s; st_outbox := f (st_outbox s);
     st_executions := st_executions s; st_elevations := st_elevations s;
     st_elevationAudit := st_elevationAudit s; st_deviceCommands := st_deviceCommands s; st_auth := st_auth s;
     st_effects := st_effects s |}.
Definition with_executions (f : gmap string ToolExecution -> gmap string ToolExecution) (s : Store) : Store :=
  {| st_intents := st_intents s; st_approvals := st_approvals s; st_outbox := st_outbox s;
     st_executions := f (st_executions s); st_elevations := st_elevations s;
     st_elevationAudit := st_elevationAudit s; st_deviceCommands := st_deviceCommands s; st_auth := st_auth s;
     st_effects := st_effects s |}.
Definition with_elevations (f : gmap string Elevation -> gmap string Elevation) (s : Store) : Store :=
  {| st_intents := st_intents s; st_approvals := st_approvals s; st_outbox := st_outbox s;
     st_executions := st_executions s; st_elevations := f (st_elevations s);
     st_elevationAudit := st_elevationAudit s; st_deviceCommands := st_deviceCommands s; st_auth := st_auth s;
     st_effects := st_effects s |}.
Definition with_auth (a : AuthState) (s : Store) : Store :=
  {| st_intents := st_intents s; st_approvals := st_approvals s; st_outbox := st_outbox s;
     st_executions := st_executions s; st_elevations := st_elevations s;
     st_elevationAudit := st_elevationAudit s; st_deviceCommands := st_deviceCommands s; st_auth := a;
     st_effects := st_effects s |}.
Definition with_effect (e : Effect) (s : Store) : Store :=
  {| st_intents := st_intents s; st_approvals := st_approvals s; st_outbox := st_outbox s;
     st_executions := st_executions s; st_elevations := st_elevations s;
     st_elevationAudit := st_elevationAudit s; st_deviceCommands := st_deviceCommands s; st_auth := st_auth s;
     st_effects := e :: st_effects s |}.
Definition with_elevationAudit (f : list ElevationAudit -> list ElevationAudit) (s : Store) : Store :=
  {| st_intents := st_intents s; st_approvals := st_approvals s; st_outbox := st_outbox s;
     st_executions := st_executions s; st_elevations := st_elevations s;
     st_elevationAudit := f (st_elevationAudit s); st_deviceCommands := st_deviceCommands s; st_auth := st_auth s;
     st_effects := st_effects s |}.
Definition with_deviceCommands (f : list ActuateCommand -> list ActuateCommand) (s : Store) : Store :=
  {| st_intents := st_intents s; st_approvals := st_approvals s; st_outbox := st_outbox s;
     st_executions := st_executions s; st_elevations := st_elevations s;
     st_elevationAudit := st_elevationAudit s; st_deviceCommands := f (st_deviceCommands s); st_auth := st_auth s;
     st_effects := st_effects s |}.

(** [ActionIntentTransitionPatch]: [None] leaves a column, [Some v] sets it. *)
Record Patch : Type := {
  pt_decidedAt : option (option Z);
  pt_decidedByUserId : option (option string);
  pt_decidedAssuranceLevel : option (option AssuranceLevel);
  pt_decidedVia : option (option Factor);
  pt_executionStartedAt : option (option Z);
  pt_executedAt : option (option Z);
  pt_result : option (option Result);
  pt_errorCode : option (option string);
}.

Definition no_patch : Patch :=
  {| pt_decidedAt := None; pt_decidedByUserId := None; pt_decidedAssuranceLevel := None;
     pt_decidedVia := None; pt_executionStartedAt := None; pt_executedAt := None;
     pt_result := None; pt_errorCode := None |}.

(** [.set({ status: to, ...patch })] *)
Definition apply_patch (to_ : ActionIntentStatus) (p : Patch) (i : ActionIntent) : ActionIntent :=
  let l := it_life i in
  {| it_id := it_id i; it_content := it_content i;
     it_life := {| lc_status := to_;
       lc_decidedAt := default (lc_decidedAt l) (pt_decidedAt p);
       lc_decidedByUserId := default (lc_decidedByUserId l) (pt_decidedByUserId p);
       lc_decidedAssuranceLevel := default (lc_decidedAssuranceLevel l) (pt_decidedAssuranceLevel p);
       lc_decidedVia := default (lc_decidedVia l) (pt_decidedVia p);
       lc_executionStartedAt := default (lc_executionStartedAt l) (pt_executionStartedAt p);
       lc_executedAt := default (lc_executedAt l) (pt_executedAt p);
       lc_result := default (lc_result l) (pt_result p);
       lc_errorCode := default (lc_errorCode l) (pt_errorCode p) |} |}.

Definition set_result (r : Result) (i : ActionIntent) : ActionIntent :=
  apply_patch (it_status i) {| pt_decidedAt := None; pt_decidedByUserId := None;
    pt_decidedAssuranceLevel := None; pt_decidedVia := None; pt_executionStartedAt := None;
    pt_executedAt := None; pt_result := Some (Some r); pt_errorCode := None |} i.

(** ** transitionIntent *)

(** [transitionIntent(intentId, from, to, patch, { requireNotExpired })]; [dbNow]
    is the database clock. *)
Definition transition_ok (from : list ActionIntentStatus) (requireNotExpired : bool) (dbNow : Z)
    (i : ActionIntent) : bool :=
  bool_decide (it_status i ∈ from) && (negb requireNotExpired || (dbNow <? it_expiresAt i)).

Definition transitionIntent (intentId : string) (from : list ActionIntentStatus)
    (to_ : ActionIntentStatus) (patch : Patch) (requireNotExpired : bool) (dbNow : Z) (s : Store)
  : Store * bool :=
  match st_intents s !! intentId with
  | Some i =>
      if transition_ok from requireNotExpired dbNow i
      then (with_intents (fun m => <[intentId := apply_patch to_ patch i]> m) s, true)
      else (s, false)
  | None => (s, false)
  end.

(** [burnTemporaryPassword(intentId, marker)] *)
Definition burnTemporaryPassword (intentId : string) (marker : BurnMarker) (s : Store) : Store * bool :=
  match st_intents s !! intentId with
  | Some i =>
      if hasSecretKey (lc_result (it_life i))
      then (with_intents (fun m => <[intentId := set_result (burnResult marker (lc_result (it_life i))) i]> m) s,
            true)
      else (s, false)
  | None => (s, false)
  end.

(** ** Approval rows *)

Definition set_approval_status (st : ApprovalStatus) (at_ : option Z) (a : ApprovalRequest) : ApprovalRequest :=
  {| ap_id := ap_id a; ap_userId := ap_userId a; ap_requestingClientLabel := ap_requestingClientLabel a;
     ap_actionLabel := ap_actionLabel a; ap_actionToolName := ap_actionToolName a;
     ap_actionArguments := ap_actionArguments a; ap_riskTier := ap_riskTier a;
     ap_riskSummary := ap_riskSummary a; ap_status := st; ap_expiresAt := ap_expiresAt a;
     ap_decidedAt := match at_ with Some t => Some t | None => ap_decidedAt a end;
     ap_decisionReason := ap_decisionReason a;
     ap_decidedAssuranceLevel := ap_decidedAssuranceLevel a; ap_decidedVia := ap_decidedVia a;
     ap_authenticatorDeviceId := ap_authenticatorDeviceId a; ap_executionId := ap_executionId a;
     ap_elevationRequestId := ap_elevationRequestId a; ap_intentId := ap_intentId a;
     ap_boundArgumentDigest := ap_boundArgumentDigest a |}.

(** The columns a suspicious report writes. *)
Definition set_reported (at_ : Z) (a : ApprovalRequest) : ApprovalRequest :=
  {| ap_id := ap_id a; ap_userId := ap_userId a; ap_requestingClientLabel := ap_requestingClientLabel a;
     ap_actionLabel := ap_actionLabel a; ap_actionToolName := ap_actionToolName a;
     ap_actionArguments := ap_actionArguments a; ap_riskTier := ap_riskTier a;
     ap_riskSummary := ap_riskSummary a; ap_status := ap_reported; ap_expiresAt := ap_expiresAt a;
     ap_decidedAt := Some at_; ap_decisionReason := Some "Reported as suspicious by user"%string;
     ap_decidedAssuranceLevel := ap_decidedAssuranceLevel a; ap_decidedVia := ap_decidedVia a;
     ap_authenticatorDeviceId := ap_authenticatorDeviceId a; ap_executionId := ap_executionId a;
     ap_elevationRequestId := ap_elevationRequestId a; ap_intentId := ap_intentId a;
     ap_boundArgumentDigest := ap_boundArgumentDigest a |}.

(** The decision columns of the approval CAS. *)
Definition set_decision (st : ApprovalStatus) (at_ : Z) (reason : option string) (d : AssuranceDecision)
    (a : ApprovalRequest) : ApprovalRequest :=
  {| ap_id := ap_id a; ap_userId := ap_userId a; ap_requestingClientLabel := ap_requestingClientLabel a;
     ap_actionLabel := ap_actionLabel a; ap_actionToolName := ap_actionToolName a;
     ap_actionArguments := ap_actionArguments a; ap_riskTier := ap_riskTier a;
     ap_riskSummary := ap_riskSummary a; ap_status := st; ap_expiresAt := ap_expiresAt a;
     ap_decidedAt := Some at_; ap_decisionReason := reason;
     ap_decidedAssuranceLevel := Some (d_level d); ap_decidedVia := Some (d_via d);
     ap_authenticatorDeviceId := d_deviceId d; ap_executionId := ap_executionId a;
     ap_elevationRequestId := ap_elevationRequestId a; ap_intentId := ap_intentId a;
     ap_boundArgumentDigest := ap_boundArgumentDigest a |}.

(** Expiry of the pending approval rows of an intent, other than [keep]. *)
Definition expireSiblings (intentId keep : string) (at_ : Z) : gmap string ApprovalRequest -> gmap string ApprovalRequest :=
  sql_update (fun a => bool_decide (ap_intentId a = Some intentId) && bool_decide (ap_status a = ap_pending)
                       && negb (bool_decide (ap_id a = keep)))
    (set_approval_status ap_expired (Some at_)).

(** ** Outbox *)

(** Insert an outbox row with the next id. *)
Definition insertOutbox (intentId : string) (ev : IntentOutboxEvent) (l : list OutboxRow) : list OutboxRow :=
  l ++ [{| ob_id := length l; ob_intentId := intentId; ob_eventType := ev; ob_publishedAt := None;
           ob_publishAttempts := 0 |}].

(** ** Reapers *)

Definition MAX_REAP_PER_RUN : nat := 500.
Definition STALE_EXECUTING_TIMEOUT_MINUTES : Z := 20.

(** [ORDER BY key ASC LIMIT n FOR UPDATE SKIP LOCKED]: the ids of the due rows in
    key order, skipping those another transaction holds; rows with equal keys
    come in an order the database chooses (here: map order). *)
Section due.
Context {A : Type} (key : A -> Z).
Definition key_le (x y : string * A) : Prop := key x.2 <= key y.2.
#[local] Instance key_le_dec x y : Decision (key_le x y).
Proof. unfold key_le. apply _. Defined.

Definition due (p : A -> bool) (locked : list string) (n : nat) (t : gmap string A) : list string :=
  (take n (merge_sort key_le
     (List.filter (fun kv => p kv.2 && negb (bool_decide (kv.1 ∈ locked))) (map_to_list t)))).*1.
End due.

(** The intents [reapExpiredIntents] selects. *)
Definition expiry_due (dbNow : Z) (i : ActionIntent) : bool :=
  bool_decide (it_status i ∈ [pending_approval; approved]) && (it_expiresAt i <? dbNow).

(** The first statement of [reapExpiredIntents]. *)
Definition reapExpiredIntents (dbNow : Z) (locked : list string) (s : Store) : Store * list string :=
  let ids := due it_expiresAt (expiry_due dbNow) locked MAX_REAP_PER_RUN (st_intents s) in
  (with_intents (sql_update (fun i => bool_decide (it_id i ∈ ids) && bool_decide (it_status i ∈ [pending_approval; approved]))
                   (apply_patch expired no_patch)) s, ids).

(** Its second statement: expire the pending approvals of those intents. *)
Definition expireLinkedApprovals (ids : list string) (jsNow : Z) (s : Store) : Store :=
  with_approvals (sql_update (fun a => bool_decide (ap_status a = ap_pending)
                                       && match ap_intentId a with
                                          | Some i => bool_decide (i ∈ ids) | None => false end)
                    (set_approval_status ap_expired (Some jsNow))) s.

(** [COALESCE(execution_started_at, decided_at)] *)
Definition started (i : ActionIntent) : option Z :=
  match lc_executionStartedAt (it_life i) with Some t => Some t | None => lc_decidedAt (it_life i) end.

Definition stale_due (dbNow : Z) (i : ActionIntent) : bool :=
  bool_decide (it_status i = executing) && bool_decide (lc_executedAt (it_life i) = None)
  && match started i with
     | Some t => t <? dbNow - STALE_EXECUTING_TIMEOUT_MINUTES * 60000
     | None => false
     end.

Definition error_patch (code : string) : Patch :=
  {| pt_decidedAt := None; pt_decidedByUserId := None; pt_decidedAssuranceLevel := None;
     pt_decidedVia := None; pt_executionStartedAt := None; pt_executedAt := None;
     pt_result := None; pt_errorCode := Some (Some code) |}.

(** [reapStaleExecutingIntents()] *)
Definition reapStaleExecutingIntents (dbNow : Z) (locked : list string) (s : Store) : Store * list string :=
  let ids := due (fun i => default 0 (started i)) (stale_due dbNow) locked MAX_REAP_PER_RUN (st_intents s) in
  (with_intents (sql_update (fun i => bool_decide (it_id i ∈ ids) && bool_decide (it_status i = executing)
                               && bool_decide (lc_executedAt (it_life i) = None))
                   (apply_patch failed (error_patch "execution_lost"))) s, ids).

(** [redactExpiredUnrevealedSecrets()] *)
Definition redact_due (dbNow : Z) (i : ActionIntent) : bool :=
  bool_decide (it_status i = completed) && hasSecretKey (lc_result (it_life i))
  && match lc_executedAt (it_life i) with
     | Some t => t <? dbNow - REVEAL_WINDOW_DAYS * 86400000
     | None => false
     end.

Definition redactExpiredUnrevealedSecrets (dbNow : Z) (s : Store) : Store :=
  with_intents (sql_update (redact_due dbNow)
                  (fun i => set_result (burnResult Expired (lc_result (it_life i))) i)) s.

(** The UPDATE of [reapExpiredApprovals], and its mirror to the executions. *)
Definition approval_due (dbNow : Z) (a : ApprovalRequest) : bool :=
  bool_decide (ap_status a = ap_pending) && (ap_expiresAt a <? dbNow).

Definition reapExpiredApprovals (dbNow : Z) (locked : list string) (s : Store) : Store * list string :=
  let ids := due ap_expiresAt (approval_due dbNow) locked MAX_REAP_PER_RUN (st_approvals s) in
  (with_approvals (sql_update (fun a => bool_decide (ap_id a ∈ ids) && bool_decide (ap_status a = ap_pending))
                     (set_approval_status ap_expired (Some dbNow))) s,
   omap (fun id => match st_approvals s !! id with
                   | Some a => if truthy (ap_executionId a) then ap_executionId a else None
                   | None => None end) ids).

Definition mirrorExpiredExecutions (executionIds : list string) (jsNow : Z) (s : Store) : Store :=
  with_executions (sql_update (fun e => bool_decide (te_id e ∈ executionIds) && bool_decide (te_status e = "pending"))
                     (fun e => {| te_id := te_id e; te_status := "rejected"; te_approvedBy := te_approvedBy e;
                                  te_approvedAt := te_approvedAt e; te_completedAt := Some jsNow;
                                  te_errorMessage := Some "Approval request expired" |})) s.

(** [{ status, approvedBy: userId, approvedAt: new Date() }] *)
Definition set_execution (st userId : string) (now : Z) (e : ToolExecution) : ToolExecution :=
  {| te_id := te_id e; te_status := st; te_approvedBy := Some userId; te_approvedAt := Some now;
     te_completedAt := te_completedAt e; te_errorMessage := te_errorMessage e |}.

(** ** The outbox publisher *)

Definition MAX_PUBLISH_PER_RUN : nat := 200.
Definition MAX_PUBLISH_ATTEMPTS : Z := 5.

Definition publish_due (o : OutboxRow) : bool :=
  bool_decide (ob_publishedAt o = None) && (ob_publishAttempts o <=? MAX_PUBLISH_ATTEMPTS).

(** [SET publish_attempts = publish_attempts + 1] on the claimed rows. *)
Definition bumpAttempts (ids : list nat) (o : OutboxRow) : OutboxRow :=
  if bool_decide (ob_id o ∈ ids)
  then {| ob_id := ob_id o; ob_intentId := ob_intentId o; ob_eventType := ob_eventType o;
          ob_publishedAt := ob_publishedAt o; ob_publishAttempts := ob_publishAttempts o + 1 |}
  else o.

(** [scanAndClaimOutboxRows]: the oldest due rows, each with one more attempt.
    Rows are in creation order. *)
Definition scanAndClaimOutboxRows (locked : list nat) (l : list OutboxRow) : list OutboxRow * list OutboxRow :=
  let ids := take MAX_PUBLISH_PER_RUN
    (ob_id <$> List.filter (fun o => publish_due o && negb (bool_decide (ob_id o ∈ locked))) l) in
  let l' := bumpAttempts ids <$> l in
  (l', List.filter (fun o => bool_decide (ob_id o ∈ ids)) l').

(** [markOutboxRowsPublished(ids)] *)
Definition markOutboxRowsPublished (dbNow : Z) (ids : list nat) (l : list OutboxRow) : list OutboxRow :=
  (fun o => if bool_decide (ob_id o ∈ ids)
            then {| ob_id := ob_id o; ob_intentId := ob_intentId o; ob_eventType := ob_eventType o;
                    ob_publishedAt := Some dbNow; ob_publishAttempts := ob_publishAttempts o |}
            else o) <$> l.

(** [publishOutboxRows()] without interleaving: [enqueueFails] says which
    [queue.add] calls throw; the second component is the jobs enqueued. *)
Definition publishOutboxRows (locked : list nat) (enqueueFails : nat -> bool) (dbNow : Z) (l : list OutboxRow)
  : list OutboxRow * list (IntentOutboxEvent * string) :=
  let '(l1, claimed) := scanAndClaimOutboxRows locked l in
  let sent := List.filter (fun o => negb (enqueueFails (ob_id o))) claimed in
  (markOutboxRowsPublished dbNow (ob_id <$> sent) l1, (fun o => (ob_eventType o, ob_intentId o)) <$> sent).
