(* ===== verification/IntentRelease.v ===== *)
(** * Releasing an approved intent: who acts, and what is re-checked

    apps/api/src/services/actionIntents/actorContext.ts (the acting identity is
    rebuilt from the directory), revalidateRelease.ts (the fail-closed checks
    before a tool runs), durableRelease.ts, the headless tables of
    googleToolsHeadless.ts and m365ToolsHeadless.ts, and the result handling of
    jobs/intentReleaseWorker.ts. [JSON.parse], SHA-256 and the tools themselves
    are parameters. *)

From stdpp Require Import base gmap strings list option.
From Stdlib Require Import ZArith Lia Ascii.
From S2P Require Import Prelude Json Tenant Permissions Auth GuardrailTables.
From S2P Require Import ApprovalText Guardrails SecretCrypto ResultSecrets Assurance IntentStore.

(** ** The acting identity *)

(** [originPrincipalFor(intent)] *)
Definition originPrincipalFor (c : IntentContent) : PrincipalKind :=
  match ic_originPrincipalKind c with
  | "user_session"%string => user_session
  | "client_user"%string => client_user
  | "api_key"%string => api_key (ic_originPrincipalId c)
  | "oauth_grant"%string => oauth_grant (ic_originPrincipalId c)
  | "agent"%string => agent
  | "helper"%string => helper
  | "system"%string => system_principal
  | _ => unknown
  end.

(** [buildUserOwnedAuthContext(intent, userId)]; [getPerms] is
    [getUserPermissions]. *)
Definition buildUserOwnedAuthContext (getPerms : string -> PermContext -> option UserPermissions)
    (dir : Directory) (c : IntentContent) (userId : string) : option AuthContext :=
  match dr_users dir !! userId with
  | Some u =>
      if negb (bool_decide (u_status u = "active")) then None
      else
        match getPerms userId {| pc_partnerId := ic_partnerId c; pc_orgId := Some (ic_orgId c) |} with
        | None => None
        | Some perms =>
            if negb (canAccessOrg perms (ic_orgId c)) then None
            else Some {| auth_principal := originPrincipalFor c; auth_userId := userId;
                         auth_token := Some (Some (up_roleId perms)); auth_partnerId := ic_partnerId c;
                         auth_orgId := Some (ic_orgId c); auth_scope := organization;
                         auth_accessibleOrgIds := Some [ic_orgId c];
                         auth_allowedSiteIds := up_allowedSiteIds perms |}
        end
  | None => None
  end.

(** [buildApiKeyOwnedAuthContext]: every branch fails closed. *)
Definition buildApiKeyOwnedAuthContext (dir : Directory) (apiKeyId : string) : option AuthContext :=
  match dr_apiKeys dir !! apiKeyId with
  | Some status => if negb (bool_decide (status = "active"%string)) then None else None
  | None => None
  end.

Definition buildAuthContextForIntent (getPerms : string -> PermContext -> option UserPermissions)
    (dir : Directory) (c : IntentContent) : option AuthContext :=
  if truthy (ic_requestedByUserId c) then
    match ic_requestedByUserId c with
    | Some u => buildUserOwnedAuthContext getPerms dir c u
    | None => None
    end
  else if truthy (ic_requestingApiKeyId c) then
    match ic_requestingApiKeyId c with
    | Some k => buildApiKeyOwnedAuthContext dir k
    | None => None
    end
  else None.

(** ** Revalidation *)

Inductive Revalidation : Type :=
| RevalidationOk (auth : AuthContext)
| RevalidationFailed (errorCode : string)
| RevalidationThrew.

Section revalidate.
(** [computeArgumentDigest] on canonical text: SHA-256 in hex. *)
Variable digest : string -> string.
Variable getPerms : string -> PermContext -> option UserPermissions.
Variable dir : Directory.
Variable reg : ToolRegistry.

(** [revalidateApprovedIntentForRelease(intent, winningApproval)]; the approval is
    its bound digest, when a row was found. *)
Definition revalidateApprovedIntentForRelease (i : ActionIntent) (winningApproval : option (option string))
  : Revalidation :=
  let c := it_content i in
  match winningApproval with
  | None => RevalidationFailed "digest_mismatch"
  | Some bound =>
      if negb (bool_decide (bound = Some (ic_argumentDigest c))) then RevalidationFailed "digest_mismatch"
      else
      match canonicalizeArguments (ic_arguments c) with
      | Err _ => RevalidationThrew
      | Ok canonical =>
          if negb (bool_decide (digest canonical = ic_argumentDigest c))
          then RevalidationFailed "digest_mismatch"
          else
          match getToolTier reg (ic_actionName c) with
          | Err _ => RevalidationThrew
          | Ok None => RevalidationFailed "tier_escalated"
          | Ok (Some t) =>
              if negb (tier_leb t (ic_riskTier c)) && bool_decide (t <> TInherited)
              then RevalidationFailed "tier_escalated"
              else
              match buildAuthContextForIntent getPerms dir c with
              | None => RevalidationFailed "actor_invalid"
              | Some auth =>
                  match getActiveOrgTenant dir (ic_orgId c) with
                  | None => RevalidationFailed "org_inactive"
                  | Some _ =>
                      match checkToolPermission getPerms (ic_actionName c) (ic_arguments c) auth with
                      | Err _ => RevalidationThrew
                      | Ok (Some _) => RevalidationFailed "rbac_denied"
                      | Ok None => RevalidationOk auth
                      end
                  end
              end
          end
      end
  end.

End revalidate.

(** ** Which tools the worker can run *)

Definition GOOGLE_HEADLESS_ACTIONS : list string :=
  ["google_suspend_user"; "google_restore_user"; "google_signout"; "google_set_forwarding";
   "google_disable_forwarding"; "google_set_vacation"; "google_update_user"; "google_share_calendar";
   "google_offboard_user"; "google_wipe_mobile_device"; "google_add_to_group";
   "google_remove_from_group"; "google_move_ou"; "google_rename_user"; "google_reset_2sv";
   "google_add_mail_delegate"; "google_remove_mail_delegate"; "google_assign_license";
   "google_remove_license"]%string.
Definition GOOGLE_HEADLESS_SECRET_ACTIONS : list string := ["google_reset_password"]%string.
Definition M365_HEADLESS_ACTIONS : list string := ["m365_disable_user"; "m365_reset_password"]%string.

Definition isHeadlessGoogleTool (name : string) : bool :=
  bool_decide (name ∈ GOOGLE_HEADLESS_ACTIONS) || bool_decide (name ∈ GOOGLE_HEADLESS_SECRET_ACTIONS).
Definition isHeadlessM365Tool (name : string) : bool := bool_decide (name ∈ M365_HEADLESS_ACTIONS).

(** The worker's session gate: [true] when the intent fails with
    [session_required]. *)
Definition sessionRequired (reg : ToolRegistry) (name : string) : result GuardrailError bool :=
  if isHeadlessGoogleTool name || isHeadlessM365Tool name then Ok false
  else requiresLiveSession reg name.

Definition DURABLE_RELEASE_ONLY_TOOLS : list string := [].
Definition requiresDurableRelease (toolName : string) : bool := bool_decide (toolName ∈ DURABLE_RELEASE_ONLY_TOOLS).

(** ** Results *)

(** What a tool invocation does: it refuses for want of a connection, throws, or
    returns text, or (secret-bearing Google tools) a carrier. *)
Inductive ToolOutcome : Type :=
| ConnectionUnavailable
| Threw
| ReturnedText (raw : string)
| ReturnedCarrier (carrier : SecretToolResult).

Definition carrier_text (r : SecretToolResult) : string :=
  match r with SecretSuccess t _ _ => t | SecretError t => t end.

Section results.
Variable JSON_parse : string -> option json.

(** [normalizeToolResult(raw)] *)
Definition normalizeToolResult (raw : string) : Result :=
  match JSON_parse raw with
  | Some (JObj members) => list_to_map (reverse members)
  | Some v => {[ "value" := v ]}
  | None => {[ "raw" := JStr raw ]}
  end.

Definition has_member (k : string) (v : json) : bool :=
  match v with JObj members => bool_decide (k ∈ members.*1) | _ => false end.

(** [isReturnedToolError(raw)] *)
Definition isReturnedToolError (raw : string) : bool :=
  match JSON_parse raw with
  | Some v => has_member "error" v && negb (has_member "success" v) && negb (has_member "data" v)
              && negb (has_member "configured" v)
  | None => false
  end.

Definition byte_length (s : string) : Z := Z.of_nat (String.length s).

(** [JSON.stringify(result)], for its size. *)
Definition result_size (r : Result) : Z := byte_length (stringify (JObj (map_to_list r))).

Definition truncated_result : Result := {[ "truncated" := JBool true ]}.

(** What the worker does with a returned result: complete with a stored result,
    fail with [tool_returned_error] and a stored result, or fail because the
    plaintext guard tripped; sealing itself may throw. *)
Inductive WorkerVerdict : Type :=
| Complete (r : Result)
| ReturnedError (r : Result)
| GuardTripped
| SealThrew.

Context (sha256 : string -> bytes) (enc : bytes -> bytes -> option string -> bytes -> bytes * bytes)
        (env : CryptoEnv).

(** Steps 4 and 5 of [releaseApprovedIntent], on a returned text or carrier. *)
Definition storeWorkerResult (iv : bytes) (actionName : string) (carrier : option SecretToolResult)
    (rawResult : string) : WorkerVerdict :=
  let truncated := MAX_RESULT_BYTES <? byte_length rawResult in
  let stored :=
    if truncated then Ok truncated_result
    else match carrier with
         | Some c => let! x := sealToolSecrets sha256 enc env iv c in Ok x.2
         | None => Ok (normalizeToolResult rawResult)
         end in
  match stored with
  | Err _ => SealThrew
  | Ok stored =>
      if negb truncated && isReturnedToolError rawResult then
        if assertNoPlaintextSecret actionName stored then ReturnedError stored else GuardTripped
      else
        match sealActionResultSecrets sha256 enc env iv stored with
        | Err _ => SealThrew
        | Ok finalResult =>
            let finalResult := if MAX_RESULT_BYTES <? result_size finalResult then truncated_result
                               else finalResult in
            if assertNoPlaintextSecret actionName finalResult then Complete finalResult else GuardTripped
        end
  end.

(** The completion hook of the inline path (aiAgentSdk.ts): the sealed result of
    a secret-bearing tool, or the parsed output. *)
Definition storeInlineResult (toolName : string) (isError : bool) (intentResult : Result) : WorkerVerdict :=
  let sized := if MAX_RESULT_BYTES <? result_size intentResult then truncated_result else intentResult in
  if assertNoPlaintextSecret toolName sized then
    if isError then ReturnedError sized else Complete sized
  else GuardTripped.

End results.
