(* ===== verification/IntentCreate.v ===== *)
(** * Creating an intent

    [createActionIntent] of apps/api/src/services/actionIntents/intentService.ts:
    the tier gate, the org and binding checks, the digest and idempotency key,
    and the one transaction that inserts the intent, fans it out to approvers and
    writes the outbox row (or converges on the live intent with the same key). *)

From stdpp Require Import base gmap strings list option.
From Stdlib Require Import ZArith Lia Ascii.
From S2P Require Import Prelude Json Tenant Permissions Auth GuardrailTables.
From S2P Require Import ApprovalText Guardrails Assurance SecretCrypto ResultSecrets IntentStore.

Record CreateActionIntentInput : Type := {
  ci_toolName : string;
  ci_input : list (string * json);
  ci_reason : option string;
  ci_source : ActionIntentSource;
  ci_requestingClientLabel : option string;
  ci_idempotencyKey : option string;
  ci_orgId : option string;
  ci_binding : option (string * string);
}.

Inductive CreateError : Type :=
| GuardrailThrew (e : GuardrailError)
| tool_blocked
| tool_not_tier3
| org_resolution_failed (e : OrgResolutionError)
| invalid_binding
| arguments_not_serializable
| idempotency_race
| fanout_failed.

Definition CHAT_EXPIRY_MS : Z := 300000.
Definition MCP_EXPIRY_MS : Z := 86400000.
Definition MAX_ARG_VALUE_LEN : nat := 80.

(** [CANONICAL_UUID_LOWER] *)
Definition hex_lower (c : ascii) : bool :=
  let n := nat_of_ascii c in is_digit c || ((97 <=? n)%nat && (n <=? 102)%nat).

Fixpoint matches (pattern : list (ascii -> bool)) (s : string) : bool :=
  match pattern, s with
  | [], EmptyString => true
  | p :: ps, String c s' => p c && matches ps s'
  | _, _ => false
  end.

Definition is_char (x c : ascii) : bool := bool_decide (c = x).
Definition dash : ascii -> bool := is_char "-"%char.

Definition CANONICAL_UUID_LOWER : list (ascii -> bool) :=
  replicate 8 hex_lower ++ [dash] ++ replicate 4 hex_lower ++ [dash]
  ++ [(fun c => let n := nat_of_ascii c in (49 <=? n)%nat && (n <=? 53)%nat)] ++ replicate 3 hex_lower
  ++ [dash] ++ [(fun c => existsb (fun x => is_char x c) ["8"; "9"; "a"; "b"]%char)]
  ++ replicate 3 hex_lower ++ [dash] ++ replicate 12 hex_lower.

Definition canonicalUuid (s : string) : bool := matches CANONICAL_UUID_LOWER s.

(** ** Summaries *)

Definition truncate (value : string) : string :=
  if (MAX_ARG_VALUE_LEN <? String.length value)%nat then (str_take MAX_ARG_VALUE_LEN value ++ "...")%string
  else value.

Definition stringifyArgValue (v : json) : string :=
  match v with
  | JUndef => "undefined"
  | JStr s => s
  | _ => stringify v
  end.

Definition buildTargetSummary (toolName : string) (input : list (string * json)) : string :=
  match input with
  | [] => toolName
  | _ => (toolName ++ "(" ++ str_join ", "
            (map (fun kv => (kv.1 ++ "=" ++ truncate (stringifyArgValue kv.2))%string) input) ++ ")")%string
  end.

(** [text.match(/^[^.!?]*[.!?]/)]: up to the first sentence mark. *)
Fixpoint upToMark (s : string) : option string :=
  match s with
  | EmptyString => None
  | String c s' =>
      if existsb (fun x => is_char x c) ["."; "!"; "?"]%char then Some (String c EmptyString)
      else String c <$> upToMark s'
  end.

Definition firstSentence (text : string) : string := trim (default text (upToMark text)).

Definition buildImpactSummary (toolDescription : option string) (toolName : string)
    (guardrail : GuardrailCheck) : string :=
  firstSentence (if truthy toolDescription then default EmptyString toolDescription
                 else if truthy (gc_description guardrail) then default EmptyString (gc_description guardrail)
                 else ("Execute " ++ toolName)%string).

Definition computeExpiresAt (source : ActionIntentSource) (now : Z) : Z :=
  now + match source with chat => CHAT_EXPIRY_MS | mcp_api => MCP_EXPIRY_MS end.

(** ** Preparation: everything before the transaction *)

Record Prepared : Type := {
  pr_content : IntentContent;
  (* the tier as a number, when it is one: the column is a smallint *)
  pr_tierIsNumber : bool;
  pr_riskTier : RiskTier;
  pr_requesterId : string;
  pr_eligibleApprovers : list string;
  pr_requesterEligible : bool;
}.

Definition principalKindText (p : PrincipalKind) : string :=
  match p with
  | user_session => "user_session"
  | client_user => "client_user"
  | api_key _ => "api_key"
  | oauth_grant _ => "oauth_grant"
  | agent => "agent"
  | helper => "helper"
  | system_principal => "system"
  | unknown => "unknown"
  end.

Definition principalId (p : PrincipalKind) : option string :=
  match p with api_key i => i | oauth_grant g => g | _ => None end.

Section create.
Variable digest : string -> string.
Variable toolDescription : string -> option string.

Definition deriveIdempotencyKey (actorId actionName argDigest : string) : string :=
  digest (actorId ++ ":" ++ actionName ++ ":" ++ argDigest)%string.

Definition prepareIntent (reg : ToolRegistry) (dir : Directory) (now : Z) (auth : AuthContext)
    (inp : CreateActionIntentInput) : result CreateError Prepared :=
  let! guardrail := match checkGuardrails reg (ci_toolName inp) (ci_input inp) with
                    | Ok g => Ok g | Err e => Err (GuardrailThrew e) end in
  let! _ := check (gc_allowed guardrail && negb (tier_geb (gc_tier guardrail) 4)) tool_blocked in
  let! _ := check (negb (tier_leb (gc_tier guardrail) 2)) tool_not_tier3 in
  let! orgId := match resolveWritableToolOrgId auth (ci_orgId inp) with
                | Ok o => Ok o | Err e => Err (org_resolution_failed e) end in
  let! _ := match ci_binding inp with
            | Some (connectionId, tenantId) =>
                check (canonicalUuid connectionId && canonicalUuid tenantId) invalid_binding
            | None => Ok tt
            end in
  let! canonical := match canonicalizeArguments (ci_input inp) with
                    | Ok c => Ok c | Err _ => Err arguments_not_serializable end in
  let argumentDigest := digest canonical in
  let requesterId := auth_userId auth in
  let eligibleAll := resolveIntentApprovers dir orgId in
  let tier := gc_tier guardrail in
  Ok {| pr_content :=
          {| ic_orgId := orgId; ic_partnerId := auth_partnerId auth;
             ic_requestedByUserId := Some requesterId; ic_requestingApiKeyId := None;
             ic_source := ci_source inp;
             ic_originPrincipalKind := principalKindText (auth_principal auth);
             ic_originPrincipalId := principalId (auth_principal auth);
             ic_requestingClientLabel := match ci_requestingClientLabel inp with
               | Some l => l
               | None => match ci_source inp with chat => "Breeze AI" | mcp_api => "MCP API client" end
               end;
             ic_actionName := ci_toolName inp; ic_arguments := ci_input inp;
             ic_argumentDigest := argumentDigest;
             ic_targetSummary := buildTargetSummary (ci_toolName inp) (ci_input inp);
             ic_impactSummary := buildImpactSummary (toolDescription (ci_toolName inp)) (ci_toolName inp) guardrail;
             ic_reason := ci_reason inp;
             ic_riskTier := match tier with TNum n => n | TInherited => 0 end;
             ic_connectionId := fst <$> ci_binding inp; ic_tenantId := snd <$> ci_binding inp;
             ic_idempotencyKey := match ci_idempotencyKey inp with
               | Some k => k
               | None => deriveIdempotencyKey requesterId (ci_toolName inp) argumentDigest
               end;
             ic_expiresAt := computeExpiresAt (ci_source inp) now |};
        pr_tierIsNumber := bool_decide (tier <> TInherited);
        pr_riskTier := if tier_geb tier 4 then critical else if tier_geb tier 3 then high else medium;
        pr_requesterId := requesterId;
        pr_eligibleApprovers := List.filter (fun u => negb (bool_decide (u = requesterId))) eligibleAll;
        pr_requesterEligible := bool_decide (requesterId ∈ eligibleAll) |}.

End create.

(** ** The transaction *)

Definition fresh_life : Lifecycle :=
  {| lc_status := pending_approval; lc_decidedAt := None; lc_decidedByUserId := None;
     lc_decidedAssuranceLevel := None; lc_decidedVia := None; lc_executionStartedAt := None;
     lc_executedAt := None; lc_result := None; lc_errorCode := None |}.

Definition approvalRowFor (p : Prepared) (intentId id userId : string) : ApprovalRequest :=
  let c := pr_content p in
  {| ap_id := id; ap_userId := userId; ap_requestingClientLabel := ic_requestingClientLabel c;
     ap_actionLabel := ic_targetSummary c; ap_actionToolName := ic_actionName c;
     ap_actionArguments := ic_arguments c; ap_riskTier := pr_riskTier p;
     ap_riskSummary := ic_impactSummary c; ap_status := ap_pending; ap_expiresAt := ic_expiresAt c;
     ap_decidedAt := None; ap_decisionReason := None; ap_decidedAssuranceLevel := None;
     ap_decidedVia := None; ap_authenticatorDeviceId := None; ap_executionId := None;
     ap_elevationRequestId := None; ap_intentId := Some intentId;
     ap_boundArgumentDigest := Some (ic_argumentDigest c) |}.

(** The live row the partial unique index would conflict with. *)
Definition liveWithKey (orgId key : string) (i : ActionIntent) : bool :=
  bool_decide (ic_orgId (it_content i) = orgId) && bool_decide (ic_idempotencyKey (it_content i) = key)
  && bool_decide (it_status i ∈ LIVE_INTENT_STATUSES).

Record CreationResult : Type := {
  cr_intentId : string;
  cr_status : ActionIntentStatus;
  cr_approvalRequestIds : list string;
  cr_requesterApprovalRequestId : option string;
  cr_isNew : bool;
}.

(** The users an intent is fanned out to. *)
Definition fanOutUsers (p : Prepared) : list string :=
  match pr_eligibleApprovers p with
  | [] => if pr_requesterEligible p then [pr_requesterId p] else []
  | us => us
  end.

Definition insertApprovals (p : Prepared) (intentId : string) (rows : list (string * string))
    (t : gmap string ApprovalRequest) : gmap string ApprovalRequest :=
  foldr (fun '(id, u) t => <[id := approvalRowFor p intentId id u]> t) t rows.

Definition no_approvers_patch (now : Z) : Patch :=
  {| pt_decidedAt := Some (Some now); pt_decidedByUserId := None; pt_decidedAssuranceLevel := None;
     pt_decidedVia := None; pt_executionStartedAt := None; pt_executedAt := None; pt_result := None;
     pt_errorCode := Some (Some "no_eligible_approvers"%string) |}.

(** The transaction of [createActionIntent]. [newId] and [rowIds] are the random
    ids the database draws; a collision with an existing key, or a failing
    statement ([fail]), rolls everything back. [pick] is the database's choice of
    row on a replay. *)
Definition commitIntent (p : Prepared) (newId : string) (rowIds : list string) (now : Z) (pick : nat)
    (fail : bool) (s : Store) : Store * result CreateError CreationResult :=
  let c := pr_content p in
  let live := sql_select (liveWithKey (ic_orgId c) (ic_idempotencyKey c)) (st_intents s) in
  if fail || negb (pr_tierIsNumber p) then (s, Err fanout_failed)
  else if negb (bool_decide (live = [])) then
    match select1 pick live with
    | None => (s, Err idempotency_race)
    | Some existing =>
        let rows := sql_select (fun a => bool_decide (ap_intentId a = Some (it_id existing))) (st_approvals s) in
        (s, Ok {| cr_intentId := it_id existing; cr_status := it_status existing;
                  cr_approvalRequestIds := ap_id <$> rows;
                  cr_requesterApprovalRequestId :=
                    ap_id <$> List.find (fun a => bool_decide (ap_userId a = pr_requesterId p)) rows;
                  cr_isNew := false |})
    end
  else
    let users := fanOutUsers p in
    let rows := zip rowIds users in
    if negb (bool_decide (st_intents s !! newId = None))
       || negb (bool_decide (length rowIds = length users)) || negb (bool_decide (NoDup rowIds))
       || negb (forallb (fun id => bool_decide (st_approvals s !! id = None)) rowIds)
    then (s, Err fanout_failed)
    else
      let inserted := {| it_id := newId; it_content := c; it_life := fresh_life |} in
      let final := match users with
        | [] => apply_patch cancelled (no_approvers_patch now) inserted
        | _ => inserted end in
      let s1 := with_intents (fun m => <[newId := final]> m) s in
      let s2 := with_approvals (insertApprovals p newId rows) s1 in
      let s3 := with_outbox (insertOutbox newId intent_created) s2 in
      (s3, Ok {| cr_intentId := newId; cr_status := it_status final; cr_approvalRequestIds := rowIds;
                 cr_requesterApprovalRequestId := match pr_eligibleApprovers p with
                   | [] => head rowIds | _ => None end;
                 cr_isNew := true |}).

(** [createActionIntent] without interleaving. *)
Definition createActionIntent (digest : string -> string) (toolDescription : string -> option string)
    (reg : ToolRegistry) (dir : Directory) (auth : AuthContext) (inp : CreateActionIntentInput)
    (newId : string) (rowIds : list string) (now : Z) (pick : nat) (fail : bool) (s : Store)
  : Store * result CreateError CreationResult :=
  match prepareIntent digest toolDescription reg dir now auth inp with
  | Err e => (s, Err e)
  | Ok p => commitIntent p newId rowIds now pick fail s
  end.
