(* ===== verification/IntentHandlers.v ===== *)
(** * The handlers that move intents, step by step

    routes/approvals.ts (decide, report-suspicious), routes/actionIntents.ts
    (reveal-secret), [cancelActionIntent], the durable worker
    [releaseApprovedIntent] (jobs/intentReleaseWorker.ts) and the inline release
    of services/aiAgentSdk.ts. A handler is a process: its state is the point it
    has reached with the values it has read, and one step is one database
    statement, one transaction or one external call. Other processes may run
    between two steps of a handler. *)

From stdpp Require Import base gmap strings list option.
From Stdlib Require Import ZArith Lia Ascii.
From S2P Require Import Prelude Json Tenant Permissions Auth GuardrailTables.
From S2P Require Import ApprovalText Guardrails Assurance SecretCrypto ResultSecrets IntentStore.
From S2P Require Import IntentRelease IntentCreate.

(** What a step sees of the world around the store: the clocks, the database's
    choices and failures, the directory, the registered tools, the outcome of an
    external call, random bytes. *)
Record Env : Type := {
  e_js : Z;
  e_db : Z;
  e_pick : nat;
  e_fail : bool;
  (* a later statement of the step's transaction throws *)
  e_failLate : bool;
  e_dir : Directory;
  e_perms : string -> PermContext -> option UserPermissions;
  e_reg : ToolRegistry;
  e_policy : option (option PartnerPolicy);
  e_crypto : CryptoEnv;
  e_iv : bytes;
  e_outcome : ToolOutcome;
  (* the parsed chat output of an inline tool call, and its error flag *)
  e_output : Result;
  e_isError : bool;
}.

(** The arguments of one decide request. *)
Record DecideRequest : Type := {
  dq_auth : AuthContext;
  dq_id : string;
  dq_approve : bool;
  dq_reason : option string;
  dq_proof : option ApprovalProof;
  dq_reauthVerified : bool;
}.

Inductive Response : Type :=
| R_ok
| R_not_found
| R_already (st : ApprovalStatus)
| R_expired
| R_intent_not_found
| R_digest_mismatch
| R_forbidden
| R_not_sole_approver
| R_step_up_required (lvl : AssuranceLevel)
| R_reauth_required
| R_assertion_failed
| R_already_decided
| R_error
| R_cancelled (ok : bool) (st : ActionIntentStatus)
| R_reveal_expired
| R_decrypt_failed
| R_empty_secret
| R_already_revealed
| R_revealed (temporaryPassword : string)
| R_created (c : CreationResult)
| R_done
| R_threw.

Inductive Proc : Type :=
(* decide *)
| PDecide (q : DecideRequest)
| PDecideIntent (q : DecideRequest) (existing : ApprovalRequest)
| PDecideAssure (q : DecideRequest) (existing : ApprovalRequest) (linked : option ActionIntent)
| PDecideCas (q : DecideRequest) (linked : option ActionIntent) (d : AssuranceDecision)
| PDecideExecution (q : DecideRequest) (linked : option ActionIntent) (d : AssuranceDecision) (updated : ApprovalRequest)
| PDecideElevation (q : DecideRequest) (linked : option ActionIntent) (d : AssuranceDecision) (updated : ApprovalRequest)
| PDecideElevSiblings (q : DecideRequest) (linked : option ActionIntent) (d : AssuranceDecision) (updated : ApprovalRequest) (elevationId : string)
| PDecideFanIn (q : DecideRequest) (linked : option ActionIntent) (d : AssuranceDecision) (updated : ApprovalRequest)
(* report as suspicious *)
| PReport (userId id : string)
| PReportMark (userId : string) (existing : ApprovalRequest)
| PReportExecution (userId : string) (existing : ApprovalRequest)
| PReportReject (userId : string) (existing : ApprovalRequest)
(* cancel *)
| PCancel (auth : AuthContext) (intentId : string)
| PCancelCas (intentId : string) (read : ActionIntentStatus)
| PCancelReread (intentId : string) (read : ActionIntentStatus)
(* reveal *)
| PReveal (auth : AuthContext) (intentId : string)
| PRevealLate (intentId : string)
| PRevealOpen (userId intentId : string) (r : Result)
| PRevealBurn (userId intentId temporaryPassword : string)
(* create *)
| PCreate (auth : AuthContext) (inp : CreateActionIntentInput) (newId : string) (rowIds : list string)
| PCommit (p : Prepared) (newId : string) (rowIds : list string)
(* release by the worker *)
| PWorker (intentId : string)
| PWorkerLoad (intentId : string)
| PWorkerCheck (i : ActionIntent) (winning : option (option string))
| PWorkerGate (i : ActionIntent) (auth : AuthContext)
| PWorkerRun (i : ActionIntent) (auth : AuthContext)
| PWorkerStore (i : ActionIntent) (carrier : option SecretToolResult) (raw : string)
(* release inline by the chat session *)
| PInline (toolName intentId : string)
| PInlineLoad (toolName intentId : string)
| PInlineCheck (toolName : string) (i : ActionIntent) (winning : option (option string))
| PInlineRun (toolName : string) (i : ActionIntent)
| PInlineStore (toolName : string) (i : ActionIntent) (isError : bool) (r : Result)
(* executing -> failed or completed *)
| PFinish (intentId : string) (to_ : ActionIntentStatus) (p : Patch).

Definition level_ge3 (l : AssuranceLevel) : bool := 3 <=? level_num l.

Definition decided_patch (userId : string) (now : Z) (d : AssuranceDecision) : Patch :=
  {| pt_decidedAt := Some (Some now); pt_decidedByUserId := Some (Some userId);
     pt_decidedAssuranceLevel := Some (Some (d_level d)); pt_decidedVia := Some (Some (d_via d));
     pt_executionStartedAt := None; pt_executedAt := None; pt_result := None; pt_errorCode := None |}.

Definition reported_patch (userId : string) (now : Z) : Patch :=
  {| pt_decidedAt := Some (Some now); pt_decidedByUserId := Some (Some userId);
     pt_decidedAssuranceLevel := None; pt_decidedVia := None;
     pt_executionStartedAt := None; pt_executedAt := None; pt_result := None; pt_errorCode := None |}.

(** [{ executedAt: null, executionStartedAt: new Date() }] *)
Definition claim_patch (now : Z) : Patch :=
  {| pt_decidedAt := None; pt_decidedByUserId := None; pt_decidedAssuranceLevel := None;
     pt_decidedVia := None; pt_executionStartedAt := Some (Some now); pt_executedAt := Some None;
     pt_result := None; pt_errorCode := None |}.

(** [{ errorCode, executedAt: new Date(), result? }] *)
Definition outcome_patch (code : option string) (executedAt : option Z) (r : option Result) : Patch :=
  {| pt_decidedAt := None; pt_decidedByUserId := None; pt_decidedAssuranceLevel := None;
     pt_decidedVia := None; pt_executionStartedAt := None;
     pt_executedAt := match executedAt with Some t => Some (Some t) | None => None end;
     pt_result := match r with Some x => Some (Some x) | None => None end;
     pt_errorCode := match code with Some c => Some (Some c) | None => None end |}.

(** The elevation row after a mirrored decision. *)
Definition PAM_ELEVATION_GRANT_MINUTES : Z := 15.

Definition decide_elevation (approve : bool) (userId : string) (reason : option string) (minutes now : Z)
    (d : AssuranceDecision) (e : Elevation) : Elevation :=
  {| el_id := el_id e; el_content := el_content e; el_status := if approve then el_approved else el_denied;
     el_approvedByUserId := if approve then Some userId else el_approvedByUserId e;
     el_approvedAt := if approve then Some now else el_approvedAt e;
     el_expiresAt := if approve then Some (now + minutes * 60000) else el_expiresAt e;
     el_deniedByUserId := if approve then el_deniedByUserId e else Some userId;
     el_denialReason := if approve then el_denialReason e else reason;
     el_expiredAt := el_expiredAt e; el_revokedAt := el_revokedAt e;
     el_revokedByUserId := el_revokedByUserId e; el_revokedReason := el_revokedReason e;
     el_updatedAt := now; el_decidedAssuranceLevel := Some (d_level d); el_decidedVia := Some (d_via d);
     el_authenticatorDeviceId := d_deviceId d |}.

Definition auditRow (e : Elevation) (ev : AuditEvent) (actor : AuditActor) (userId : option string) (now : Z)
  : ElevationAudit :=
  {| ea_orgId := ec_orgId (el_content e); ea_elevationRequestId := el_id e; ea_eventType := ev;
     ea_actor := actor; ea_actorUserId := userId; ea_occurredAt := now |}.

(** The committed writes of a decision: the row and its audit entry. *)
Definition commit_elevation (e : Elevation) (rows : list ElevationAudit) (s : Store) : Store :=
  with_elevationAudit (fun l => l ++ rows) (with_elevations (fun m => <[el_id e := e]> m) s).

(** The transaction that mirrors a decision onto the intent: the first decision
    wins; siblings expire and an approval writes its outbox row with it. *)
Definition fanInDecision (q : DecideRequest) (intentId keep : string) (now : Z) (d : AssuranceDecision) (s : Store)
  : Store * bool :=
  let '(s1, won) := transitionIntent intentId [pending_approval]
                      (if dq_approve q then approved else rejected)
                      (decided_patch (auth_userId (dq_auth q)) now d) false 0 s in
  if won then
    let s2 := with_approvals (expireSiblings intentId keep now) s1 in
    (if dq_approve q then with_outbox (insertOutbox intentId intent_approved) s2 else s2, true)
  else (s, false).

(** The same for a suspicious report. *)
Definition fanInReport (userId intentId keep : string) (now : Z) (s : Store) : Store * bool :=
  let '(s1, won) := transitionIntent intentId [pending_approval] rejected (reported_patch userId now) false 0 s in
  if won then (with_approvals (expireSiblings intentId keep now) s1, true) else (s, false).

(** The row a release loads: any approved approval of the intent. *)
Definition winningApproval (pick : nat) (intentId : string) (s : Store) : option (option string) :=
  ap_boundArgumentDigest <$>
    select1 pick (sql_select (fun a => bool_decide (ap_intentId a = Some intentId)
                                       && bool_decide (ap_status a = ap_approved)) (st_approvals s)).

Section handlers.
Context (digest : string -> string) (toolDescription : string -> option string)
        (JSON_parse : string -> option json)
        (sha256 : string -> bytes)
        (enc : bytes -> bytes -> option string -> bytes -> bytes * bytes)
        (decr : bytes -> bytes -> option string -> bytes -> bytes -> option bytes)
        (webauthn_verify : ApprovalProof -> string -> AuthenticatorDevice -> option (bool * Z))
        (verifyMobileSignature : string -> string -> string -> bool).

(** The authorization an approve re-checks before anything else: the digest, the
    decider's live permissions and, for one's own intent, that no one else could
    decide it. [None] lets it through. *)
Definition decideGuard (env : Env) (q : DecideRequest) (existing : ApprovalRequest) (i : ActionIntent)
  : option Response :=
  let c := it_content i in
  let userId := auth_userId (dq_auth q) in
  if truthy (ap_boundArgumentDigest existing)
     && negb (bool_decide (ap_boundArgumentDigest existing = Some (ic_argumentDigest c)))
  then Some R_digest_mismatch
  else if negb (dq_approve q) then None
  else
    match e_perms env userId {| pc_partnerId := auth_partnerId (dq_auth q); pc_orgId := Some (ic_orgId c) |} with
    | None => Some R_forbidden
    | Some perms =>
        if negb (canAccessOrg perms (ic_orgId c)) || negb (userCanDecideApprovals perms)
        then Some R_forbidden
        else if bool_decide (ic_requestedByUserId c = Some userId) then
          let eligibleNow := resolveIntentApprovers (e_dir env) (ic_orgId c) in
          let othersEligible := List.filter (fun u => negb (bool_decide (u = userId))) eligibleNow in
          if negb (bool_decide (othersEligible = [])) || negb (bool_decide (userId ∈ eligibleNow))
          then Some R_not_sole_approver else None
        else None
    end.

(** The response to a failed assurance check. *)
Definition assuranceResponse (e : AssuranceError) : Response :=
  match e with
  | StepUpRequired required _ => R_step_up_required required
  | ReauthRequired => R_reauth_required
  | _ => R_assertion_failed
  end.

Definition assuranceInput (env : Env) (q : DecideRequest) (existing : ApprovalRequest) : AssuranceInput :=
  {| ai_approvalId := dq_id q; ai_userId := auth_userId (dq_auth q); ai_riskTier := ap_riskTier existing;
     ai_proof := dq_proof q; ai_isApprove := dq_approve q; ai_reauthVerified := dq_reauthVerified q;
     ai_policy := e_policy env |}.

(** One's own intent is approved only at L3 or above. *)
Definition selfApprovalRefused (q : DecideRequest) (linked : option ActionIntent) (d : AssuranceDecision) : bool :=
  match linked with
  | Some i => dq_approve q
              && bool_decide (ic_requestedByUserId (it_content i) = Some (auth_userId (dq_auth q)))
              && negb (level_ge3 (d_level d))
  | None => false
  end.

(** ** createActionIntent: preparation reads the directory, then one transaction *)

Definition step_create (env : Env) (auth : AuthContext) (inp : CreateActionIntentInput) (newId : string)
    (rowIds : list string) (s : Store) : Store * (Proc + Response) :=
  match prepareIntent digest toolDescription (e_reg env) (e_dir env) (e_js env) auth inp with
  | Ok p => (s, inl (PCommit p newId rowIds))
  | Err _ => (s, inr R_error)
  end.

Definition step_commit (env : Env) (p : Prepared) (newId : string) (rowIds : list string) (s : Store)
  : Store * (Proc + Response) :=
  let '(s', r) := commitIntent p newId rowIds (e_js env) (e_pick env) (e_fail env) s in
  (s', inr (match r with Ok c => R_created c | Err _ => R_error end)).

(** ** decideHandler *)

Definition step_decide (env : Env) (q : DecideRequest) (s : Store) : Store * (Proc + Response) :=
  match st_approvals s !! dq_id q with
  | Some a =>
      if negb (bool_decide (ap_userId a = auth_userId (dq_auth q))) then (s, inr R_not_found)
      else if negb (bool_decide (ap_status a = ap_pending)) then (s, inr (R_already (ap_status a)))
      else if ap_expiresAt a <=? e_js env then (s, inr R_expired)
      else if truthy (ap_intentId a) then (s, inl (PDecideIntent q a))
      else (s, inl (PDecideAssure q a None))
  | None => (s, inr R_not_found)
  end.

Definition step_decideIntent (env : Env) (q : DecideRequest) (existing : ApprovalRequest) (s : Store)
  : Store * (Proc + Response) :=
  match (match ap_intentId existing with Some id => st_intents s !! id | None => None end) with
  | None => (s, inr R_intent_not_found)
  | Some i => match decideGuard env q existing i with
              | Some r => (s, inr r)
              | None => (s, inl (PDecideAssure q existing (Some i)))
              end
  end.

Definition step_decideAssure (env : Env) (q : DecideRequest) (existing : ApprovalRequest)
    (linked : option ActionIntent) (s : Store) : Store * (Proc + Response) :=
  let '(a', r) := assertApprovalAssurance webauthn_verify verifyMobileSignature (e_pick env) (e_js env)
                    (assuranceInput env q existing) (st_auth s) in
  let s' := with_auth a' s in
  match r with
  | Err e => (s', inr (assuranceResponse e))
  | Ok d => if selfApprovalRefused q linked d then (s', inr (R_step_up_required L3))
            else (s', inl (PDecideCas q linked d))
  end.

Definition step_decideCas (env : Env) (q : DecideRequest) (linked : option ActionIntent) (d : AssuranceDecision)
    (s : Store) : Store * (Proc + Response) :=
  match st_approvals s !! dq_id q with
  | Some a =>
      if bool_decide (ap_userId a = auth_userId (dq_auth q)) && bool_decide (ap_status a = ap_pending)
         && (e_js env <? ap_expiresAt a)
      then
        let updated := set_decision (if dq_approve q then ap_approved else ap_denied) (e_js env) (dq_reason q) d a in
        (with_approvals (fun m => <[dq_id q := updated]> m) s, inl (PDecideExecution q linked d updated))
      else (s, inr R_already_decided)
  | None => (s, inr R_already_decided)
  end.

Definition step_decideExecution (env : Env) (q : DecideRequest) (linked : option ActionIntent)
    (d : AssuranceDecision) (updated : ApprovalRequest) (s : Store) : Store * (Proc + Response) :=
  let s' :=
    if truthy (ap_executionId updated) && negb (e_fail env) then
      with_executions (sql_update (fun e => bool_decide (Some (te_id e) = ap_executionId updated))
        (set_execution (if dq_approve q then "approved" else "rejected") (auth_userId (dq_auth q)) (e_js env))) s
    else s in
  (s', inl (PDecideElevation q linked d updated)).

(** An update the CHECK constraints refuse throws. [wonElevation] is set before
    the audit row is written, and a rollback does not reset it. *)
Definition step_decideElevation (env : Env) (q : DecideRequest) (linked : option ActionIntent)
    (d : AssuranceDecision) (updated : ApprovalRequest) (s : Store) : Store * (Proc + Response) :=
  match ap_elevationRequestId updated with
  | Some (String _ _ as elevationId) =>
      match st_elevations s !! elevationId with
      | Some e =>
          let userId := auth_userId (dq_auth q) in
          let e' := decide_elevation (dq_approve q) userId (dq_reason q) PAM_ELEVATION_GRANT_MINUTES (e_js env) d e in
          if bool_decide (el_status e = el_pending) && elevation_checks e' && negb (e_fail env) then
            let audit := auditRow e (if dq_approve q then ev_approved else ev_denied) by_technician
                           (Some userId) (e_js env) in
            (if e_failLate env then s else commit_elevation e' [audit] s,
             inl (PDecideElevSiblings q linked d updated elevationId))
          else (s, inl (PDecideFanIn q linked d updated))
      | None => (s, inl (PDecideFanIn q linked d updated))
      end
  | _ => (s, inl (PDecideFanIn q linked d updated))
  end.

Definition step_decideElevSiblings (env : Env) (q : DecideRequest) (linked : option ActionIntent)
    (d : AssuranceDecision) (updated : ApprovalRequest) (elevationId : string) (s : Store)
  : Store * (Proc + Response) :=
  let s' :=
    if e_fail env then s
    else with_approvals (sql_update (fun a => bool_decide (ap_elevationRequestId a = Some elevationId)
                                       && negb (bool_decide (ap_id a = ap_id updated))
                                       && bool_decide (ap_status a = ap_pending))
                           (set_approval_status ap_expired None)) s in
  (s', inl (PDecideFanIn q linked d updated)).

Definition step_decideFanIn (env : Env) (q : DecideRequest) (linked : option ActionIntent)
    (d : AssuranceDecision) (updated : ApprovalRequest) (s : Store) : Store * (Proc + Response) :=
  match ap_intentId updated, linked with
  | Some (String _ _ as intentId), Some _ =>
      if e_fail env then (s, inr R_ok)
      else ((fanInDecision q intentId (ap_id updated) (e_js env) d s).1, inr R_ok)
  | _, _ => (s, inr R_ok)
  end.

(** ** report-suspicious (the revocation of the OAuth client is not modelled) *)

Definition step_report (userId id : string) (s : Store) : Store * (Proc + Response) :=
  match st_approvals s !! id with
  | Some a =>
      if negb (bool_decide (ap_userId a = userId)) then (s, inr R_not_found)
      else if bool_decide (ap_status a = ap_pending) then (s, inl (PReportMark userId a))
      else (s, inr R_ok)
  | None => (s, inr R_not_found)
  end.

(** The UPDATE has no status guard: it overwrites a decision made since the read. *)
Definition step_reportMark (env : Env) (userId : string) (existing : ApprovalRequest) (s : Store)
  : Store * (Proc + Response) :=
  if e_fail env then (s, inr R_error)
  else
    (with_approvals (sql_update (fun a => bool_decide (ap_id a = ap_id existing) && bool_decide (ap_userId a = userId))
       (set_reported (e_js env))) s,
     inl (PReportExecution userId existing)).

Definition step_reportExecution (env : Env) (userId : string) (existing : ApprovalRequest) (s : Store)
  : Store * (Proc + Response) :=
  let s' :=
    if truthy (ap_executionId existing) && negb (e_fail env) then
      with_executions (sql_update (fun e => bool_decide (Some (te_id e) = ap_executionId existing))
        (set_execution "rejected" userId (e_js env))) s
    else s in
  (s', inl (PReportReject userId existing)).

Definition step_reportReject (env : Env) (userId : string) (existing : ApprovalRequest) (s : Store)
  : Store * (Proc + Response) :=
  match ap_intentId existing with
  | Some (String _ _ as intentId) =>
      if e_fail env then (s, inr R_ok)
      else ((fanInReport userId intentId (ap_id existing) (e_js env) s).1, inr R_ok)
  | _ => (s, inr R_ok)
  end.

(** ** cancelActionIntent *)

Definition step_cancel (env : Env) (auth : AuthContext) (intentId : string) (s : Store) : Store * (Proc + Response) :=
  match st_intents s !! intentId with
  | None => (s, inr R_not_found)
  | Some i =>
      let c := it_content i in
      if negb (auth_canAccessOrg auth (ic_orgId c)) then (s, inr R_not_found)
      else
        let isRequester := bool_decide (ic_requestedByUserId c = Some (auth_userId auth)) in
        let isApprover :=
          match e_perms env (auth_userId auth) {| pc_partnerId := None; pc_orgId := Some (ic_orgId c) |} with
          | Some perms => userCanDecideApprovals perms
          | None => false
          end in
        if isRequester || isApprover then (s, inl (PCancelCas intentId (it_status i)))
        else (s, inr R_forbidden)
  end.

Definition step_cancelCas (intentId : string) (read : ActionIntentStatus) (s : Store) : Store * (Proc + Response) :=
  let '(s', ok) := transitionIntent intentId [pending_approval; approved] cancelled no_patch false 0 s in
  if ok then (s', inr (R_cancelled true cancelled)) else (s, inl (PCancelReread intentId read)).

Definition step_cancelReread (intentId : string) (read : ActionIntentStatus) (s : Store) : Store * (Proc + Response) :=
  (s, inr (R_cancelled false (match st_intents s !! intentId with Some i => it_status i | None => read end))).

(** ** reveal-secret *)

Definition REVEAL_WINDOW_MS : Z := REVEAL_WINDOW_DAYS * 24 * 60 * 60 * 1000.

Definition step_reveal (env : Env) (auth : AuthContext) (intentId : string) (s : Store) : Store * (Proc + Response) :=
  match st_intents s !! intentId with
  | None => (s, inr R_not_found)
  | Some i =>
      let c := it_content i in
      let r := default ∅ (lc_result (it_life i)) in
      if negb (auth_canAccessOrg auth (ic_orgId c)) || negb (bool_decide (it_status i = completed))
         || negb (hasSealedTemporaryPassword r)
      then (s, inr R_not_found)
      else
        let authorized :=
          if truthy (ic_requestedByUserId c) then bool_decide (ic_requestedByUserId c = Some (auth_userId auth))
          else match e_perms env (auth_userId auth) {| pc_partnerId := auth_partnerId auth; pc_orgId := Some (ic_orgId c) |} with
               | Some perms => canAccessOrg perms (ic_orgId c) && userCanDecideApprovals perms
               | None => false
               end in
        if negb authorized then (s, inr R_forbidden)
        else match lc_executedAt (it_life i) with
             | Some t => if bool_decide (t = 0) || (REVEAL_WINDOW_MS <? e_js env - t)
                         then (s, inl (PRevealLate intentId))
                         else (s, inl (PRevealOpen (auth_userId auth) intentId r))
             | None => (s, inl (PRevealLate intentId))
             end
  end.

Definition step_revealLate (intentId : string) (s : Store) : Store * (Proc + Response) :=
  ((burnTemporaryPassword intentId Expired s).1, inr R_reveal_expired).

Definition step_revealOpen (env : Env) (userId intentId : string) (r : Result) (s : Store) : Store * (Proc + Response) :=
  match unsealTemporaryPassword sha256 decr (e_crypto env) r with
  | Err _ => (s, inr R_decrypt_failed)
  | Ok (Some (String _ _ as pw)) => (s, inl (PRevealBurn userId intentId pw))
  | Ok _ => (s, inr R_empty_secret)
  end.

Definition step_revealBurn (env : Env) (userId intentId pw : string) (s : Store) : Store * (Proc + Response) :=
  let '(s', burned) := burnTemporaryPassword intentId (Revealed (e_db env) userId) s in
  if burned then (with_effect (SecretShown intentId) s', inr (R_revealed pw)) else (s, inr R_already_revealed).

(** ** releaseApprovedIntent *)

Definition step_claim (env : Env) (intentId : string) (next : Proc) (s : Store) : Store * (Proc + Response) :=
  let '(s', claimed) := transitionIntent intentId [approved] executing (claim_patch (e_js env)) true (e_db env) s in
  if claimed then (s', inl next) else (s, inr R_done).

Definition step_workerLoad (env : Env) (intentId : string) (s : Store) : Store * (Proc + Response) :=
  match st_intents s !! intentId with
  | Some i => (s, inl (PWorkerCheck i (winningApproval (e_pick env) intentId s)))
  | None => (s, inr R_done)
  end.

Definition step_workerCheck (env : Env) (i : ActionIntent) (winning : option (option string)) (s : Store)
  : Store * (Proc + Response) :=
  match revalidateApprovedIntentForRelease digest (e_perms env) (e_dir env) (e_reg env) i winning with
  | RevalidationOk auth => (s, inl (PWorkerGate i auth))
  | RevalidationFailed code => (s, inl (PFinish (it_id i) failed (outcome_patch (Some code) None None)))
  | RevalidationThrew => (s, inr R_threw)
  end.

Definition step_workerGate (env : Env) (i : ActionIntent) (auth : AuthContext) (s : Store) : Store * (Proc + Response) :=
  match sessionRequired (e_reg env) (ic_actionName (it_content i)) with
  | Err _ => (s, inr R_threw)
  | Ok true => (s, inl (PFinish (it_id i) failed (outcome_patch (Some "session_required"%string) None None)))
  | Ok false => (s, inl (PWorkerRun i auth))
  end.

(** The tool call: unless the connection is unavailable, the tool has run. *)
Definition step_workerRun (env : Env) (i : ActionIntent) (auth : AuthContext) (s : Store) : Store * (Proc + Response) :=
  let ran := with_effect (ToolRan (it_id i) (e_db env)) s in
  match e_outcome env with
  | ConnectionUnavailable =>
      (s, inl (PFinish (it_id i) failed (outcome_patch (Some "connection_unavailable"%string) None None)))
  | Threw => (ran, inl (PFinish (it_id i) failed (outcome_patch (Some "execution_error"%string) (Some (e_js env)) None)))
  | ReturnedText raw => (ran, inl (PWorkerStore i None raw))
  | ReturnedCarrier c => (ran, inl (PWorkerStore i (Some c) (carrier_text c)))
  end.

Definition step_workerStore (env : Env) (i : ActionIntent) (carrier : option SecretToolResult) (raw : string) (s : Store)
  : Store * (Proc + Response) :=
  match storeWorkerResult JSON_parse sha256 enc (e_crypto env) (e_iv env) (ic_actionName (it_content i)) carrier raw with
  | Complete r => (s, inl (PFinish (it_id i) completed (outcome_patch None (Some (e_js env)) (Some r))))
  | ReturnedError r =>
      (s, inl (PFinish (it_id i) failed (outcome_patch (Some "tool_returned_error"%string) (Some (e_js env)) (Some r))))
  | GuardTripped =>
      (s, inl (PFinish (it_id i) failed (outcome_patch (Some "secret_seal_invariant_violated"%string) (Some (e_js env)) None)))
  | SealThrew => (s, inr R_threw)
  end.

(** ** The inline release *)

(** After the wait: a tool reserved for the worker is not claimed here. *)
Definition step_inline (env : Env) (toolName intentId : string) (s : Store) : Store * (Proc + Response) :=
  if requiresDurableRelease toolName then (s, inr R_done)
  else step_claim env intentId (PInlineLoad toolName intentId) s.

(** The catch of the inline flow: a throw before the tool runs fails the intent. *)
Definition self_heal (intentId : string) : Proc :=
  PFinish intentId failed (outcome_patch (Some "execution_error"%string) None None).

Definition step_inlineLoad (env : Env) (toolName intentId : string) (s : Store) : Store * (Proc + Response) :=
  if e_fail env then (s, inl (self_heal intentId))
  else match st_intents s !! intentId with
       | Some i => (s, inl (PInlineCheck toolName i (winningApproval (e_pick env) intentId s)))
       | None => (s, inr R_error)
       end.

Definition step_inlineCheck (env : Env) (toolName : string) (i : ActionIntent) (winning : option (option string))
    (s : Store) : Store * (Proc + Response) :=
  match revalidateApprovedIntentForRelease digest (e_perms env) (e_dir env) (e_reg env) i winning with
  | RevalidationOk _ => (s, inl (PInlineRun toolName i))
  | RevalidationFailed code => (s, inl (PFinish (it_id i) failed (outcome_patch (Some code) None None)))
  | RevalidationThrew => (s, inl (self_heal (it_id i)))
  end.

(** The session runs the tool (services/aiAgentSdkTools.ts). Its completion hook
    gets the parsed output or, when a secret-bearing tool minted a credential,
    the sealed result; a throw, of sealing too, is an error output. *)
Definition step_inlineRun (env : Env) (toolName : string) (i : ActionIntent) (s : Store) : Store * (Proc + Response) :=
  let '(r, isError) :=
    match e_outcome env with
    | ReturnedCarrier (SecretSuccess _ _ _ as c) =>
        match sealToolSecrets sha256 enc (e_crypto env) (e_iv env) c with
        | Ok (_, sealedResult) => (sealedResult, e_isError env)
        | Err _ => (e_output env, true)
        end
    | Threw => (e_output env, true)
    | _ => (e_output env, e_isError env)
    end in
  (with_effect (ToolRan (it_id i) (e_db env)) s, inl (PInlineStore toolName i isError r)).

Definition step_inlineStore (env : Env) (toolName : string) (i : ActionIntent) (isError : bool) (r : Result) (s : Store)
  : Store * (Proc + Response) :=
  match storeInlineResult toolName isError r with
  | Complete x => (s, inl (PFinish (it_id i) completed (outcome_patch None (Some (e_js env)) (Some x))))
  | ReturnedError x =>
      (s, inl (PFinish (it_id i) failed (outcome_patch (Some "tool_execution_failed"%string) (Some (e_js env)) (Some x))))
  | _ => (s, inl (PFinish (it_id i) failed (outcome_patch (Some "secret_seal_invariant_violated"%string) (Some (e_js env)) None)))
  end.

(** [executing -> to_] with the outcome. *)
Definition step_finish (intentId : string) (to_ : ActionIntentStatus) (p : Patch) (s : Store) : Store * (Proc + Response) :=
  ((transitionIntent intentId [executing] to_ p false 0 s).1, inr R_done).

(** ** One step of a process *)

Definition proc_step (env : Env) (p : Proc) (s : Store) : Store * (Proc + Response) :=
  match p with
  | PDecide q => step_decide env q s
  | PDecideIntent q e => step_decideIntent env q e s
  | PDecideAssure q e l => step_decideAssure env q e l s
  | PDecideCas q l d => step_decideCas env q l d s
  | PDecideExecution q l d u => step_decideExecution env q l d u s
  | PDecideElevation q l d u => step_decideElevation env q l d u s
  | PDecideElevSiblings q l d u x => step_decideElevSiblings env q l d u x s
  | PDecideFanIn q l d u => step_decideFanIn env q l d u s
  | PReport u id => step_report u id s
  | PReportMark u a => step_reportMark env u a s
  | PReportExecution u a => step_reportExecution env u a s
  | PReportReject u a => step_reportReject env u a s
  | PCancel auth id => step_cancel env auth id s
  | PCancelCas id r => step_cancelCas id r s
  | PCancelReread id r => step_cancelReread id r s
  | PReveal auth id => step_reveal env auth id s
  | PRevealLate id => step_revealLate id s
  | PRevealOpen u id r => step_revealOpen env u id r s
  | PRevealBurn u id pw => step_revealBurn env u id pw s
  | PCreate auth inp newId rowIds => step_create env auth inp newId rowIds s
  | PCommit pr newId rowIds => step_commit env pr newId rowIds s
  | PWorker id => step_claim env id (PWorkerLoad id) s
  | PWorkerLoad id => step_workerLoad env id s
  | PWorkerCheck i w => step_workerCheck env i w s
  | PWorkerGate i a => step_workerGate env i a s
  | PWorkerRun i a => step_workerRun env i a s
  | PWorkerStore i c r => step_workerStore env i c r s
  | PInline n id => step_inline env n id s
  | PInlineLoad n id => step_inlineLoad env n id s
  | PInlineCheck n i w => step_inlineCheck env n i w s
  | PInlineRun n i => step_inlineRun env n i s
  | PInlineStore n i e r => step_inlineStore env n i e r s
  | PFinish id t p => step_finish id t p s
  end.

(** A handler run alone, under one environment. *)
Fixpoint run_alone (fuel : nat) (env : Env) (p : Proc) (s : Store) : Store * option Response :=
  match fuel with
  | O => (s, None)
  | S f => match proc_step env p s with
           | (s', inl p') => run_alone f env p' s'
           | (s', inr r) => (s', Some r)
           end
  end.

(** Eight steps are enough for every handler ([run_alone_answers]). *)
Definition HANDLER_FUEL : nat := 8.

Definition decideHandler (env : Env) (q : DecideRequest) (s : Store) : Store * option Response :=
  run_alone HANDLER_FUEL env (PDecide q) s.
Definition reportSuspicious (env : Env) (userId id : string) (s : Store) : Store * option Response :=
  run_alone HANDLER_FUEL env (PReport userId id) s.
Definition cancelActionIntent (env : Env) (auth : AuthContext) (intentId : string) (s : Store) : Store * option Response :=
  run_alone HANDLER_FUEL env (PCancel auth intentId) s.
Definition revealSecret (env : Env) (auth : AuthContext) (intentId : string) (s : Store) : Store * option Response :=
  run_alone HANDLER_FUEL env (PReveal auth intentId) s.
Definition releaseApprovedIntent (env : Env) (intentId : string) (s : Store) : Store * option Response :=
  run_alone HANDLER_FUEL env (PWorker intentId) s.
Definition processIntentReleaseJob (env : Env) (ev : IntentOutboxEvent) (intentId : string) (s : Store)
  : Store * option Response :=
  match ev with
  | intent_approved => releaseApprovedIntent env intentId s
  | intent_created => (s, Some R_done)
  end.

End handlers.

(** ** Termination *)

(** The steps a process has left, at most. *)
Definition rank (p : Proc) : nat :=
  match p with
  | PDecide _ => 8
  | PDecideIntent _ _ => 7
  | PDecideAssure _ _ _ => 6
  | PDecideCas _ _ _ => 5
  | PDecideExecution _ _ _ _ => 4
  | PDecideElevation _ _ _ _ => 3
  | PDecideElevSiblings _ _ _ _ _ => 2
  | PDecideFanIn _ _ _ _ => 1
  | PReport _ _ => 4
  | PReportMark _ _ => 3
  | PReportExecution _ _ => 2
  | PReportReject _ _ => 1
  | PCancel _ _ => 3
  | PCancelCas _ _ => 2
  | PCancelReread _ _ => 1
  | PReveal _ _ => 3
  | PRevealLate _ => 1
  | PRevealOpen _ _ _ => 2
  | PRevealBurn _ _ _ => 1
  | PCreate _ _ _ _ => 2
  | PCommit _ _ _ => 1
  | PWorker _ => 7
  | PWorkerLoad _ => 6
  | PWorkerCheck _ _ => 5
  | PWorkerGate _ _ => 4
  | PWorkerRun _ _ => 3
  | PWorkerStore _ _ _ => 2
  | PInline _ _ => 6
  | PInlineLoad _ _ => 5
  | PInlineCheck _ _ _ => 4
  | PInlineRun _ _ => 3
  | PInlineStore _ _ _ _ => 2
  | PFinish _ _ _ => 1
  end.

(** Unfold the step functions in [Hs : proc_step ... = ...] and split every branch. *)
Ltac step_cases Hs :=
  cbn [proc_step] in Hs;
  unfold step_decide, step_decideIntent, step_decideAssure, step_decideCas, step_decideExecution,
    step_decideElevation, step_decideElevSiblings, step_decideFanIn, step_report, step_reportMark,
    step_reportExecution, step_reportReject, step_cancel, step_cancelCas, step_cancelReread, step_reveal,
    step_revealLate, step_revealOpen, step_revealBurn, step_create, step_commit, step_inline, step_claim, step_workerLoad,
    step_workerCheck, step_workerGate, step_workerRun, step_workerStore, step_inlineLoad,
    step_inlineCheck, step_inlineRun, step_inlineStore, step_finish, self_heal in Hs;
  repeat case_match; simplify_eq/=.

Section termination.
Context (digest : string -> string) (toolDescription : string -> option string)
        (JSON_parse : string -> option json)
        (sha256 : string -> bytes)
        (enc : bytes -> bytes -> option string -> bytes -> bytes * bytes)
        (decr : bytes -> bytes -> option string -> bytes -> bytes -> option bytes)
        (webauthn_verify : ApprovalProof -> string -> AuthenticatorDevice -> option (bool * Z))
        (verifyMobileSignature : string -> string -> string -> bool).
#[local] Abbreviation proc_step :=
  (proc_step digest toolDescription JSON_parse sha256 enc decr webauthn_verify verifyMobileSignature).
#[local] Abbreviation run_alone :=
  (run_alone digest toolDescription JSON_parse sha256 enc decr webauthn_verify verifyMobileSignature).

Lemma proc_step_rank env p s s' p' :
  proc_step env p s = (s', inl p') -> (rank p' < rank p)%nat.
Proof. intros Hs. destruct p; step_cases Hs; lia. Qed.

Lemma run_alone_answers env p s fuel :
  (rank p <= fuel)%nat -> (0 < fuel)%nat -> exists r, (run_alone fuel env p s).2 = Some r.
Proof.
  revert p s. induction fuel as [|fuel IH]; intros p s Hr Hf; [lia|]. cbn [IntentHandlers.run_alone].
  destruct (proc_step env p s) as [s' [p'|r]] eqn:Hs; [|eauto].
  pose proof (proc_step_rank _ _ _ _ _ Hs). apply IH; [lia|].
  destruct fuel; [|lia]. exfalso. destruct p'; simpl in *; lia.
Qed.

End termination.
