(* ===== verification/IntentInvariants.v ===== *)
(** * What the intent store may do, and what it keeps

    The lifecycle of an intent as a relation on rows ([row_step]) and the moves of
    the whole store ([store_step]); the invariants of rows and stores and their
    preservation by every move. That the handlers and jobs only make such moves
    is proved in IntentSystem. *)

From stdpp Require Import base gmap strings list option.
From Stdlib Require Import ZArith Lia Ascii.
From S2P Require Import Prelude Json Tenant Permissions Auth GuardrailTables.
From S2P Require Import ApprovalText Guardrails Assurance SecretCrypto ResultSecrets IntentStore.
From S2P Require Import IntentRelease IntentCreate IntentHandlers.

(** ** The lifecycle of one intent *)

(** The status edges of the lifecycle. *)
Inductive edge : ActionIntentStatus -> ActionIntentStatus -> Prop :=
| edge_approve : edge pending_approval approved
| edge_reject : edge pending_approval rejected
| edge_expire st : st = pending_approval \/ st = approved -> edge st expired
| edge_cancel st : st = pending_approval \/ st = approved -> edge st cancelled
| edge_claim : edge approved executing
| edge_complete : edge executing completed
| edge_fail : edge executing failed.

Definition terminal (st : ActionIntentStatus) : bool :=
  bool_decide (st ∈ [completed; failed; rejected; expired; cancelled]).

(** Statuses that only an approved intent reaches. *)
Definition post_approval (st : ActionIntentStatus) : bool :=
  bool_decide (st ∈ [approved; executing; completed; failed]).

(** Statuses that only a claimed intent reaches. *)
Definition post_claim (st : ActionIntentStatus) : bool :=
  bool_decide (st ∈ [executing; completed; failed]).

Definition requester (i : ActionIntent) : option string := ic_requestedByUserId (it_content i).
Definition actionName (i : ActionIntent) : string := ic_actionName (it_content i).

(** Every way a stored intent changes. *)
Inductive row_step (i : ActionIntent) : ActionIntent -> Prop :=
| row_same : row_step i i
| row_approve u now d :
    it_status i = pending_approval ->
    (requester i = Some u -> level_ge3 (d_level d) = true) ->
    row_step i (apply_patch approved (decided_patch u now d) i)
| row_reject p :
    it_status i = pending_approval -> pt_result p = None -> row_step i (apply_patch rejected p i)
| row_cancel :
    it_status i = pending_approval \/ it_status i = approved -> row_step i (apply_patch cancelled no_patch i)
| row_expire :
    it_status i = pending_approval \/ it_status i = approved -> row_step i (apply_patch expired no_patch i)
| row_claim now : it_status i = approved -> row_step i (apply_patch executing (claim_patch now) i)
| row_finish to_ code at_ r :
    it_status i = executing -> to_ = completed \/ to_ = failed ->
    (forall x, r = Some x -> assertNoPlaintextSecret (actionName i) x = true) ->
    row_step i (apply_patch to_ (outcome_patch code at_ r) i)
| row_stale code : it_status i = executing -> row_step i (apply_patch failed (error_patch code) i)
| row_burn m :
    hasSecretKey (lc_result (it_life i)) = true ->
    row_step i (set_result (burnResult m (lc_result (it_life i))) i).

Lemma row_step_frozen i i' : row_step i i' -> it_id i' = it_id i /\ it_content i' = it_content i.
Proof. by destruct 1. Qed.

Lemma row_step_edge i i' : row_step i i' -> it_status i' = it_status i \/ edge (it_status i) (it_status i').
Proof.
  destruct 1 as [| | | | | |to_ code at_ r Hs Hto| |]; unfold it_status in *; simpl; auto;
    try match goal with H : _ = _ |- _ => rewrite H end; eauto using edge.
  right. destruct Hto as [-> | ->]; constructor.
Qed.

Lemma edge_not_terminal st st' : edge st st' -> terminal st = false.
Proof. destruct 1 as [| |st [-> | ->]|st [-> | ->]| | |]; done. Qed.

Lemma edge_post_approval st st' : edge st st' -> post_approval st' = true -> st' = approved \/ post_approval st = true.
Proof. destruct 1 as [| |st [-> | ->]|st [-> | ->]| | |]; simpl; auto. Qed.

Lemma edge_post_claim st st' : edge st st' -> post_claim st = true -> post_claim st' = true.
Proof. destruct 1 as [| |st [-> | ->]|st [-> | ->]| | |]; simpl; auto. Qed.

Lemma edge_live st st' :
  edge st st' -> st' ∈ LIVE_INTENT_STATUSES -> st ∈ LIVE_INTENT_STATUSES.
Proof.
  destruct 1 as [| |st [-> | ->]|st [-> | ->]| | |]; unfold LIVE_INTENT_STATUSES; set_solver.
Qed.

(** ** Row invariant *)

Section row_ok.
Variable digest : string -> string.

(** The digest stored with an intent is the digest of its arguments. *)
Definition content_ok (c : IntentContent) : Prop :=
  exists canonical, canonicalizeArguments (ic_arguments c) = Ok canonical /\ ic_argumentDigest c = digest canonical.

(** Decided by another user, or by the requester with a hardware factor. *)
Definition four_eyes (i : ActionIntent) : Prop :=
  exists u l, lc_decidedByUserId (it_life i) = Some u /\ lc_decidedAssuranceLevel (it_life i) = Some l
              /\ (requester i = Some u -> level_ge3 l = true).

Record row_ok (i : ActionIntent) : Prop := {
  ok_content : content_ok (it_content i);
  ok_approved : post_approval (it_status i) = true -> four_eyes i;
  ok_executing : it_status i = executing ->
    lc_executedAt (it_life i) = None /\ lc_executionStartedAt (it_life i) <> None;
  ok_result : lc_result (it_life i) <> None -> it_status i = completed \/ it_status i = failed;
  ok_secret : forall r, lc_result (it_life i) = Some r -> assertNoPlaintextSecret (actionName i) r = true;
}.

(** A row as [commitIntent] inserts it. *)
Definition born (i : ActionIntent) : Prop :=
  content_ok (it_content i) /\ lc_result (it_life i) = None
  /\ (it_status i = pending_approval \/ it_status i = cancelled).

Lemma born_ok i : born i -> row_ok i.
Proof.
  intros (Hc & Hr & Hs).
  split; [done|..]; rewrite ?Hr; try done; destruct Hs as [-> | ->]; done.
Qed.

Lemma row_step_four_eyes i i' :
  row_step i i' -> (post_approval (it_status i) = true -> four_eyes i) ->
  post_approval (it_status i') = true -> four_eyes i'.
Proof.
  intros Hstep Ha Hp. unfold four_eyes, it_status, requester in *.
  destruct Hstep as [|u now d Hst Hd| | | |now Hst|to_ code at_ r Hst Hto Hx|code Hst|m Hst]; auto; try done.
  - by exists u, (d_level d).
  - apply Ha. unfold it_status in Hst. by rewrite Hst.
  - apply Ha. unfold it_status in Hst. by rewrite Hst.
  - apply Ha. unfold it_status in Hst. by rewrite Hst.
Qed.

Lemma row_step_executing i i' :
  row_step i i' ->
  (it_status i = executing -> lc_executedAt (it_life i) = None /\ lc_executionStartedAt (it_life i) <> None) ->
  it_status i' = executing -> lc_executedAt (it_life i') = None /\ lc_executionStartedAt (it_life i') <> None.
Proof.
  intros Hstep He Hs. unfold it_status in *.
  destruct Hstep as [| | | | | |to_ code at_ r Hst Hto Hx| |]; auto; try done.
  by destruct Hto as [-> | ->].
Qed.

Lemma row_step_result i i' :
  row_step i i' ->
  (lc_result (it_life i) <> None -> it_status i = completed \/ it_status i = failed) ->
  lc_result (it_life i') <> None -> it_status i' = completed \/ it_status i' = failed.
Proof.
  intros Hstep Hr Hn.
  destruct Hstep as [|u now d Hst Hd|p Hst Hp|Hst|Hst|now Hst|to_ code at_ r Hst Hto Hx|code Hst|m Hst];
    cbn in *; auto; rewrite ?Hp in *; cbn in *; try (apply Hr in Hn; intuition congruence).
  apply Hr. by destruct (lc_result (it_life i)).
Qed.

Lemma row_step_secret i i' :
  row_step i i' ->
  (forall r, lc_result (it_life i) = Some r -> assertNoPlaintextSecret (actionName i) r = true) ->
  forall r, lc_result (it_life i') = Some r -> assertNoPlaintextSecret (actionName i') r = true.
Proof.
  intros Hstep Hs r'.
  destruct Hstep as [|u now d Hst Hd|p Hst Hp|Hst|Hst|now Hst|to_ code at_ r Hst Hto Hx|code Hst|m Hst];
    cbn in *; auto; rewrite ?Hp; cbn; auto.
  - destruct r; cbn; [intros [= <-]|]; auto.
  - intros [= <-]. destruct (lc_result (it_life i)) as [x|] eqn:E; [|done].
    by apply burn_keeps_secret_guard, Hs.
Qed.

Lemma row_step_ok i i' : row_ok i -> row_step i i' -> row_ok i'.
Proof.
  intros [Hc Ha He Hr Hs] Hstep. destruct (row_step_frozen _ _ Hstep) as [_ Hf]. split.
  - by rewrite Hf.
  - by eapply row_step_four_eyes.
  - by eapply row_step_executing.
  - by eapply row_step_result.
  - by eapply row_step_secret.
Qed.
End row_ok.

(** ** The moves of the store *)

(** The columns of an approval row that never change. *)
Definition row_key (a : ApprovalRequest) : string * string * option string * option string :=
  (ap_id a, ap_userId a, ap_intentId a, ap_boundArgumentDigest a).

(** Two live intents the partial unique index forbids. *)
Definition live_clash (i j : ActionIntent) : Prop :=
  ic_orgId (it_content i) = ic_orgId (it_content j)
  /\ ic_idempotencyKey (it_content i) = ic_idempotencyKey (it_content j)
  /\ it_status i ∈ LIVE_INTENT_STATUSES /\ it_status j ∈ LIVE_INTENT_STATUSES.

Definition has_outbox (s : Store) (intentId : string) (ev : IntentOutboxEvent) : Prop :=
  exists o, o ∈ st_outbox s /\ ob_intentId o = intentId /\ ob_eventType o = ev.

(** The decider of intent [i] was fanned an approval row of it. *)
Definition decided_by_addressee (s : Store) (i : ActionIntent) : Prop :=
  exists k a, st_approvals s !! k = Some a /\ ap_intentId a = Some (it_id i)
              /\ lc_decidedByUserId (it_life i) = Some (ap_userId a).

Section store_step.
Variable digest : string -> string.

Record store_step (s s' : Store) : Prop := {
  ss_old : forall k i, st_intents s !! k = Some i -> exists i', st_intents s' !! k = Some i' /\ row_step i i';
  ss_new : forall k i', st_intents s !! k = None -> st_intents s' !! k = Some i' ->
    it_id i' = k /\ born digest i'
    /\ forall k2 i2, st_intents s !! k2 = Some i2 -> ~ live_clash i' i2;
  ss_one : forall k1 k2 i1 i2, st_intents s !! k1 = None -> st_intents s !! k2 = None ->
    st_intents s' !! k1 = Some i1 -> st_intents s' !! k2 = Some i2 -> k1 = k2;
  ss_row_old : forall k a, st_approvals s !! k = Some a ->
    exists a', st_approvals s' !! k = Some a' /\ row_key a' = row_key a;
  ss_row_new : forall k a, st_approvals s !! k = None -> st_approvals s' !! k = Some a ->
    ap_id a = k /\ forall id, ap_intentId a = Some id -> st_intents s !! id = None
      /\ exists i, st_intents s' !! id = Some i /\ ap_boundArgumentDigest a = Some (ic_argumentDigest (it_content i));
  ss_sole : forall k1 k2 a1 a2 id i, st_approvals s !! k1 = None -> st_approvals s !! k2 = None ->
    st_approvals s' !! k1 = Some a1 -> st_approvals s' !! k2 = Some a2 ->
    ap_intentId a1 = Some id -> ap_intentId a2 = Some id -> st_intents s' !! id = Some i ->
    requester i = Some (ap_userId a1) -> k1 = k2;
  ss_outbox : forall id ev, has_outbox s id ev -> has_outbox s' id ev;
  ss_approved : forall k i i', st_intents s !! k = Some i -> st_intents s' !! k = Some i' ->
    it_status i <> approved -> it_status i' = approved ->
    has_outbox s' k intent_approved /\ decided_by_addressee s' i';
}.

Record store_inv (s : Store) : Prop := {
  inv_row : forall k i, st_intents s !! k = Some i -> it_id i = k /\ row_ok digest i;
  inv_live : forall k1 k2 i1 i2, st_intents s !! k1 = Some i1 -> st_intents s !! k2 = Some i2 ->
    live_clash i1 i2 -> k1 = k2;
  inv_approval : forall k a, st_approvals s !! k = Some a ->
    ap_id a = k /\ forall id, ap_intentId a = Some id -> exists i, st_intents s !! id = Some i
      /\ ap_boundArgumentDigest a = Some (ic_argumentDigest (it_content i));
  inv_sole : forall k1 k2 a1 a2 id i, st_approvals s !! k1 = Some a1 -> st_approvals s !! k2 = Some a2 ->
    ap_intentId a1 = Some id -> ap_intentId a2 = Some id -> st_intents s !! id = Some i ->
    requester i = Some (ap_userId a1) -> k1 = k2;
  inv_outbox : forall k i, st_intents s !! k = Some i -> post_approval (it_status i) = true ->
    has_outbox s k intent_approved /\ decided_by_addressee s i;
}.

(** Rows of the later store: an old row moved, or a new one. *)
Lemma store_step_back s s' k i' :
  store_step s s' -> st_intents s' !! k = Some i' ->
  (exists i, st_intents s !! k = Some i /\ row_step i i') \/ st_intents s !! k = None.
Proof.
  intros Hs Hk. destruct (st_intents s !! k) as [i|] eqn:E; [left|by right].
  destruct (ss_old _ _ Hs _ _ E) as (i2 & Hk2 & Hi). simplify_eq. eauto.
Qed.

Lemma store_step_row_back s s' k a' :
  store_step s s' -> st_approvals s' !! k = Some a' ->
  (exists a, st_approvals s !! k = Some a /\ row_key a' = row_key a) \/ st_approvals s !! k = None.
Proof.
  intros Hs Hk. destruct (st_approvals s !! k) as [a|] eqn:E; [left|by right].
  destruct (ss_row_old _ _ Hs _ _ E) as (a2 & Hk2 & Ha). exists a. split; congruence.
Qed.

Lemma row_step_live i i' j : row_step i i' -> live_clash i' j -> live_clash i j.
Proof.
  intros Hi (Ho & Hk & Hl & Hj). destruct (row_step_frozen _ _ Hi) as [_ Hc].
  rewrite Hc in Ho, Hk. split_and!; try done.
  destruct (row_step_edge _ _ Hi) as [He|He]; [by rewrite <- He|by eapply edge_live].
Qed.

Lemma live_clash_sym i j : live_clash i j -> live_clash j i.
Proof. intros (? & ? & ? & ?). by split_and!. Qed.

Lemma store_step_live s s' : store_inv s -> store_step s s' ->
  forall k1 k2 i1 i2, st_intents s' !! k1 = Some i1 -> st_intents s' !! k2 = Some i2 ->
  live_clash i1 i2 -> k1 = k2.
Proof.
  intros Hinv Hs k1 k2 i1 i2 H1 H2 Hc.
  destruct (store_step_back _ _ _ _ Hs H1) as [(j1 & E1 & R1)|E1];
    destruct (store_step_back _ _ _ _ Hs H2) as [(j2 & E2 & R2)|E2].
  - apply (inv_live _ Hinv _ _ _ _ E1 E2). apply (row_step_live _ _ _ R1), live_clash_sym.
    by apply (row_step_live _ _ _ R2), live_clash_sym.
  - destruct (ss_new _ _ Hs _ _ E2 H2) as (_ & _ & Hn). destruct (Hn _ _ E1).
    by apply live_clash_sym, (row_step_live _ _ _ R1).
  - destruct (ss_new _ _ Hs _ _ E1 H1) as (_ & _ & Hn). destruct (Hn _ _ E2).
    by apply live_clash_sym, (row_step_live _ _ _ R2), live_clash_sym.
  - exact (ss_one _ _ Hs _ _ _ _ E1 E2 H1 H2).
Qed.

Lemma store_step_approval s s' : store_inv s -> store_step s s' ->
  forall k a, st_approvals s' !! k = Some a ->
    ap_id a = k /\ forall id, ap_intentId a = Some id -> exists i, st_intents s' !! id = Some i
      /\ ap_boundArgumentDigest a = Some (ic_argumentDigest (it_content i)).
Proof.
  intros Hinv Hs k a Hk. destruct (store_step_row_back _ _ _ _ Hs Hk) as [(b & E & Hkey)|E].
  - unfold row_key in Hkey. simplify_eq. destruct (inv_approval _ Hinv _ _ E) as [Hid Hint].
    split; [congruence|]. intros id Hi. destruct (Hint id) as (i & Hi' & Hb); [congruence|].
    destruct (ss_old _ _ Hs _ _ Hi') as (i' & ? & Hr). exists i'. split; [done|].
    destruct (row_step_frozen _ _ Hr) as [_ ->]. congruence.
  - destruct (ss_row_new _ _ Hs _ _ E Hk) as [? Hn]. split; [done|].
    intros id Hi. destruct (Hn id Hi) as (_ & i & ? & ?). eauto.
Qed.

Lemma store_step_sole s s' : store_inv s -> store_step s s' ->
  forall k1 k2 a1 a2 id i, st_approvals s' !! k1 = Some a1 -> st_approvals s' !! k2 = Some a2 ->
    ap_intentId a1 = Some id -> ap_intentId a2 = Some id -> st_intents s' !! id = Some i ->
    requester i = Some (ap_userId a1) -> k1 = k2.
Proof.
  intros Hinv Hs k1 k2 a1 a2 id i H1 H2 I1 I2 Hi Hr.
  assert (Hold : forall k a b, st_approvals s !! k = Some b -> row_key a = row_key b ->
            ap_intentId a = Some id -> exists j, st_intents s !! id = Some j).
  { intros k a b E Hkey Ha. unfold row_key in Hkey. simplify_eq.
    destruct (inv_approval _ Hinv _ _ E) as [_ Hx]. destruct (Hx id) as (j & ? & _); [congruence|eauto]. }
  destruct (store_step_row_back _ _ _ _ Hs H1) as [(b1 & E1 & K1)|E1];
    destruct (store_step_row_back _ _ _ _ Hs H2) as [(b2 & E2 & K2)|E2].
  - destruct (Hold _ _ _ E1 K1 I1) as (j & Ej).
    destruct (ss_old _ _ Hs _ _ Ej) as (i2 & Ei2 & Rj). simplify_eq.
    destruct (row_step_frozen _ _ Rj) as [_ Hc]. unfold row_key in K1, K2. simplify_eq.
    unfold requester in *. apply (inv_sole _ Hinv _ _ _ _ id j E1 E2); unfold requester; congruence.
  - destruct (Hold _ _ _ E1 K1 I1) as (j & Ej).
    destruct (ss_row_new _ _ Hs _ _ E2 H2) as [_ Hn]. destruct (Hn _ I2). congruence.
  - destruct (Hold _ _ _ E2 K2 I2) as (j & Ej).
    destruct (ss_row_new _ _ Hs _ _ E1 H1) as [_ Hn]. destruct (Hn _ I1). congruence.
  - by eapply (ss_sole _ _ Hs).
Qed.

Lemma post_approval_decider i i' :
  row_step i i' -> post_approval (it_status i) = true ->
  lc_decidedByUserId (it_life i') = lc_decidedByUserId (it_life i) \/ post_approval (it_status i') = false.
Proof.
  destruct 1 as [|u now d Hst| p Hst| | | | | |]; auto; unfold it_status in *; simpl; by rewrite Hst.
Qed.

Lemma store_step_outbox s s' : store_inv s -> store_step s s' ->
  forall k i, st_intents s' !! k = Some i -> post_approval (it_status i) = true ->
    has_outbox s' k intent_approved /\ decided_by_addressee s' i.
Proof.
  intros Hinv Hs k i' Hk Hp. destruct (store_step_back _ _ _ _ Hs Hk) as [(i & E & Hr)|E].
  - destruct (decide (it_status i' = approved /\ it_status i <> approved)) as [[Ha Hn]|Hn].
    { by apply (ss_approved _ _ Hs _ _ _ E Hk). }
    assert (Hpi : post_approval (it_status i) = true).
    { destruct (row_step_edge _ _ Hr) as [He|He]; [by rewrite <- He|].
      destruct (edge_post_approval _ _ He Hp) as [Ha|]; [|done].
      destruct (decide (it_status i = approved)) as [->|]; [done|]. naive_solver. }
    destruct (inv_outbox _ Hinv _ _ E Hpi) as [Ho (k2 & a & Ka & Ia & Da)].
    split; [by apply (ss_outbox _ _ Hs)|].
    destruct (post_approval_decider _ _ Hr Hpi) as [Hd|]; [|congruence].
    destruct (ss_row_old _ _ Hs _ _ Ka) as (a' & Ka' & Kk). unfold row_key in Kk. simplify_eq.
    exists k2, a'. destruct (row_step_frozen _ _ Hr) as [Hid _]. split_and!; congruence.
  - destruct (ss_new _ _ Hs _ _ E Hk) as (_ & (_ & _ & Hst) & _).
    destruct Hst as [Hst|Hst]; rewrite Hst in Hp; done.
Qed.

Lemma store_step_inv s s' : store_inv s -> store_step s s' -> store_inv s'.
Proof.
  intros Hinv Hs. split.
  - intros k i' Hk. destruct (store_step_back _ _ _ _ Hs Hk) as [(i & E & Hr)|E].
    + destruct (inv_row _ Hinv _ _ E) as [<- Hok]. destruct (row_step_frozen _ _ Hr) as [-> _].
      split; [done|by eapply row_step_ok].
    + destruct (ss_new _ _ Hs _ _ E Hk) as (? & ? & _). split; [done|by apply born_ok].
  - by apply store_step_live with s.
  - by apply store_step_approval with s.
  - by apply store_step_sole with s.
  - by apply store_step_outbox with s.
Qed.

(** A move that creates nothing, from what it does to each row. *)
Definition rows_by {A} (R : A -> A -> Prop) (m m' : gmap string A) : Prop :=
  forall k, option_Forall2 R (m !! k) (m' !! k).

Lemma store_step_rows s s' :
  rows_by row_step (st_intents s) (st_intents s') ->
  rows_by (fun a a' => row_key a' = row_key a) (st_approvals s) (st_approvals s') ->
  (forall id ev, has_outbox s id ev -> has_outbox s' id ev) ->
  (forall k i i', st_intents s !! k = Some i -> st_intents s' !! k = Some i' ->
     it_status i <> approved -> it_status i' = approved ->
     has_outbox s' k intent_approved /\ decided_by_addressee s' i') ->
  store_step s s'.
Proof.
  intros Hi Ha Ho Hap.
  assert (Hni : forall k i, st_intents s !! k = None -> st_intents s' !! k = Some i -> False).
  { intros k i E E'. specialize (Hi k). rewrite E, E' in Hi. inversion Hi. }
  assert (Hna : forall k a, st_approvals s !! k = None -> st_approvals s' !! k = Some a -> False).
  { intros k i E E'. specialize (Ha k). rewrite E, E' in Ha. inversion Ha. }
  split; try done; try (intros; exfalso; by eauto).
  - intros k i E. specialize (Hi k). rewrite E in Hi. inversion Hi. eauto.
  - intros k a E. specialize (Ha k). rewrite E in Ha. inversion Ha. eauto.
Qed.

End store_step.

Lemma rows_by_refl {A} (R : A -> A -> Prop) m : (forall x, R x x) -> rows_by R m m.
Proof. intros HR k. destruct (m !! k); constructor. auto. Qed.

Lemma rows_by_update {A} (R : A -> A -> Prop) p f m :
  (forall x, R x x) -> (forall k x, m !! k = Some x -> p x = true -> R x (f x)) -> rows_by R m (sql_update p f m).
Proof.
  intros HR Hf k. rewrite lookup_sql_update. destruct (m !! k) as [x|] eqn:E; simpl; constructor.
  destruct (p x) eqn:Ep; eauto.
Qed.

Lemma rows_by_insert {A} (R : A -> A -> Prop) k x y (m : gmap string A) :
  (forall z, R z z) -> m !! k = Some x -> R x y -> rows_by R m (<[k := y]> m).
Proof.
  intros HR Hk Hxy k'. destruct (decide (k' = k)) as [->|Hne].
  - rewrite Hk, lookup_insert. case_decide; [|done]. by constructor.
  - rewrite lookup_insert_ne by done. destruct (m !! k'); by constructor.
Qed.
