(* ===== verification/IntentSystem.v ===== *)
(** * The approval system: every interleaving of handlers, workers and jobs

    The state is the store with the processes in flight. A step spawns a process,
    runs one of them for one step under any environment, loses one (a crash), or
    runs a background job. The theorems hold in every reachable state. *)

From stdpp Require Import base gmap strings list option.
From Stdlib Require Import ZArith Lia Ascii.
From S2P Require Import Prelude Json Tenant Permissions Auth GuardrailTables.
From S2P Require Import ApprovalText Guardrails Assurance SecretCrypto ResultSecrets IntentStore.
From S2P Require Import IntentRelease IntentCreate IntentHandlers IntentInvariants.

(** ** Statement lemmas *)

Lemma transitionIntent_true id from to_ p req now s s' :
  transitionIntent id from to_ p req now s = (s', true) ->
  exists i, st_intents s !! id = Some i /\ it_status i ∈ from
            /\ (req = true -> now < it_expiresAt i)
            /\ s' = with_intents (fun m => <[id := apply_patch to_ p i]> m) s.
Proof.
  unfold transitionIntent, transition_ok. intros Ht.
  destruct (st_intents s !! id) as [i|]; [|done]. destruct (_ && _) eqn:Eg; [|done]. simplify_eq.
  bool_hyps. exists i. split_and!; try done. intros ->. simpl in *. by bool_hyps.
Qed.

Lemma transitionIntent_false id from to_ p req now s s' :
  transitionIntent id from to_ p req now s = (s', false) -> s' = s.
Proof. unfold transitionIntent. intros. by repeat case_match; simplify_eq. Qed.

Lemma burn_true id m s s' :
  burnTemporaryPassword id m s = (s', true) ->
  exists i, st_intents s !! id = Some i /\ hasSecretKey (lc_result (it_life i)) = true
            /\ s' = with_intents (fun t => <[id := set_result (burnResult m (lc_result (it_life i))) i]> t) s.
Proof. unfold burnTemporaryPassword. intros. repeat case_match; simplify_eq. eauto. Qed.

Lemma burn_false id m s s' : burnTemporaryPassword id m s = (s', false) -> s' = s.
Proof. unfold burnTemporaryPassword. intros. by repeat case_match; simplify_eq. Qed.

Section moves.
Variable digest : string -> string.

(** The intents and the outbox untouched, approval rows changed in place. *)
Lemma store_step_quiet s s' :
  st_intents s' = st_intents s -> st_outbox s' = st_outbox s ->
  rows_by (fun a a' => row_key a' = row_key a) (st_approvals s) (st_approvals s') -> store_step digest s s'.
Proof.
  intros Hi Ho Ha. apply store_step_rows; [|done|..]; unfold has_outbox.
  - rewrite Hi. apply rows_by_refl. constructor.
  - by rewrite Ho.
  - rewrite Hi. intros. congruence.
Qed.

Lemma store_step_refl s : store_step digest s s.
Proof. apply store_step_quiet; [done..|]. by apply rows_by_refl. Qed.

(** One intent changed, not to approved. *)
Lemma store_step_one s s' k i i' :
  st_intents s !! k = Some i -> st_intents s' = <[k := i']> (st_intents s) -> row_step i i' ->
  it_status i' <> approved \/ it_status i = approved -> st_outbox s' = st_outbox s ->
  rows_by (fun a a' => row_key a' = row_key a) (st_approvals s) (st_approvals s') -> store_step digest s s'.
Proof.
  intros Hk Hi Hr Hna Ho Ha. apply store_step_rows; [|done|..]; unfold has_outbox.
  - rewrite Hi. eapply rows_by_insert; eauto using row_step.
  - by rewrite Ho.
  - intros k' j j' E E' Hnj Hj. rewrite Hi in E'. apply lookup_insert_Some in E' as [[<- <-]|[_ E']].
    + simplify_eq. naive_solver.
    + congruence.
Qed.

(** Several intents changed by one statement, none to approved. *)
Lemma store_step_update s s' p f :
  st_intents s' = sql_update p f (st_intents s) ->
  (forall k i, st_intents s !! k = Some i -> p i = true ->
     row_step i (f i) /\ (it_status (f i) <> approved \/ it_status i = approved)) ->
  st_outbox s' = st_outbox s -> st_approvals s' = st_approvals s -> store_step digest s s'.
Proof.
  intros Hi Hf Ho Ha. apply store_step_rows; unfold has_outbox.
  - rewrite Hi. apply rows_by_update; [constructor|]. intros k x Hk Hp. by destruct (Hf k x Hk Hp).
  - rewrite Ha. by apply rows_by_refl.
  - by rewrite Ho.
  - intros k j j' E E' Hnj Hj. rewrite Hi in E'. apply sql_update_Some in E' as (j0 & E0 & [[-> _]|[-> Hp]]).
    + congruence.
    + rewrite E in E0. simplify_eq. destruct (Hf _ _ E Hp). naive_solver.
Qed.

End moves.

Lemma expireSiblings_rows id keep at_ t :
  rows_by (fun a a' => row_key a' = row_key a) t (expireSiblings id keep at_ t).
Proof. by apply rows_by_update. Qed.

(** ** Creation *)

Definition prepared_ok (digest : string -> string) (p : Prepared) : Prop :=
  content_ok digest (pr_content p) /\ ic_requestedByUserId (pr_content p) = Some (pr_requesterId p)
  /\ pr_requesterId p ∉ pr_eligibleApprovers p.

Lemma prepareIntent_ok digest desc reg dir now auth inp p :
  prepareIntent digest desc reg dir now auth inp = Ok p -> prepared_ok digest p.
Proof.
  unfold prepareIntent. intros Hp. result_ok Hp. simplify_eq.
  destruct (canonicalizeArguments (ci_input inp)) as [c|] eqn:Ec; [|done]. simplify_eq.
  split_and!; simpl; [by exists a4|done|].
  rewrite list_filter_elem, negb_true_iff, bool_decide_eq_false. naive_solver.
Qed.

Lemma insertApprovals_None p id rows t k :
  k ∉ rows.*1 -> insertApprovals p id rows t !! k = t !! k.
Proof.
  induction rows as [|[k' u] rows IH]; simpl; [done|]. rewrite not_elem_of_cons. intros [Hne Hk].
  rewrite lookup_insert_ne by done. by apply IH.
Qed.

Lemma insertApprovals_Some p id rows t k a :
  insertApprovals p id rows t !! k = Some a -> k ∈ rows.*1 ->
  exists u, (k, u) ∈ rows /\ a = approvalRowFor p id k u.
Proof.
  induction rows as [|[k' u] rows IH]; simpl; [by rewrite elem_of_nil|]. intros Hl Hk.
  apply lookup_insert_Some in Hl as [[<- <-]|[Hne Hl]]; [set_solver|].
  destruct IH as (u' & ? & ?); [done|set_solver|]. exists u'. set_solver.
Qed.

Lemma fanOutUsers_requester p :
  pr_requesterId p ∉ pr_eligibleApprovers p -> pr_requesterId p ∈ fanOutUsers p -> fanOutUsers p = [pr_requesterId p].
Proof.
  unfold fanOutUsers. destruct (pr_eligibleApprovers p); [|done].
  destruct (pr_requesterEligible p); [done|by rewrite elem_of_nil].
Qed.

(** What a committed creation has inserted. *)
Lemma commitIntent_cases p newId rowIds now pick fail s s' r :
  commitIntent p newId rowIds now pick fail s = (s', r) ->
  (s' = s /\ forall c, r = Ok c -> cr_isNew c = false) \/
  exists final, (forall k i, st_intents s !! k = Some i -> liveWithKey (ic_orgId (pr_content p)) (ic_idempotencyKey (pr_content p)) i = false)
    /\ st_intents s !! newId = None /\ length rowIds = length (fanOutUsers p) /\ NoDup rowIds
    /\ Forall (fun id => st_approvals s !! id = None) rowIds
    /\ it_id final = newId /\ it_content final = pr_content p /\ lc_result (it_life final) = None
    /\ (it_status final = pending_approval /\ fanOutUsers p <> [] \/ it_status final = cancelled /\ fanOutUsers p = [])
    /\ st_intents s' = <[newId := final]> (st_intents s)
    /\ st_approvals s' = insertApprovals p newId (zip rowIds (fanOutUsers p)) (st_approvals s)
    /\ st_outbox s' = insertOutbox newId intent_created (st_outbox s)
    /\ st_effects s' = st_effects s
    /\ exists c, r = Ok c /\ cr_isNew c = true /\ cr_intentId c = newId /\ cr_status c = it_status final.
Proof.
  unfold commitIntent. intros Hc.
  destruct (fail || _); [left; by simplify_eq|].
  destruct (negb (bool_decide (sql_select _ _ = []))) eqn:El.
  { left. repeat case_match; simplify_eq; split; try done. by intros c [= <-]. }
  destruct (negb _ || _ || _ || _) eqn:Eg; [left; by simplify_eq|]. right. simplify_eq. bool_hyps.
  eexists. split; [|split_and!; try done].
  - intros k i Hk. destruct (liveWithKey _ _ i) eqn:Elw; [|done]. exfalso.
    assert (Hin : i ∈ sql_select (liveWithKey (ic_orgId (pr_content p)) (ic_idempotencyKey (pr_content p))) (st_intents s)).
    { apply sql_select_elem. eauto. }
    match goal with E : sql_select _ _ = [] |- _ => rewrite E in Hin end. by apply not_elem_of_nil in Hin.
  - apply Forall_forall. intros id Hid.
    match goal with E : forallb _ _ = true |- _ => rewrite forallb_forall in E; specialize (E id) end.
    by match goal with E : In id rowIds -> _ |- _ => apply E, bool_decide_eq_true in Hid end.
  - by destruct (fanOutUsers p).
  - by destruct (fanOutUsers p).
  - by destruct (fanOutUsers p).
  - destruct (fanOutUsers p); [by right|by left].
  - by eexists.
Qed.

Lemma has_outbox_insert s s' id ev :
  st_outbox s' = insertOutbox id ev (st_outbox s) ->
  has_outbox s' id ev /\ forall id' ev', has_outbox s id' ev' -> has_outbox s' id' ev'.
Proof.
  intros Ho. unfold has_outbox. rewrite Ho. unfold insertOutbox. split.
  - eexists. split; [apply elem_of_app; right; by apply list_elem_of_singleton|done].
  - intros id' ev' (o & Hin & ? & ?). exists o. rewrite elem_of_app. auto.
Qed.

Lemma commit_store_step digest p newId rowIds now pick fail s s' r :
  prepared_ok digest p -> commitIntent p newId rowIds now pick fail s = (s', r) -> store_step digest s s'.
Proof.
  intros (Hcok & Hreq & Hnr) Hc.
  destruct (commitIntent_cases _ _ _ _ _ _ _ _ _ Hc)
    as [[-> _]|(f & Hlive & Hnew & Hlen & Hnd & Hfr & Hid & Hcon & Hres & Hst & Ei & Ea & Eo & _)];
    [apply store_step_refl|].
  assert (Hborn : forall k i, st_intents s !! k = None -> st_intents s' !! k = Some i -> k = newId /\ i = f).
  { intros k i E E'. rewrite Ei in E'. apply lookup_insert_Some in E' as [[-> ->]|[_ E']]; [done|congruence]. }
  assert (Hrow : forall k a, st_approvals s !! k = None -> st_approvals s' !! k = Some a ->
            exists u, (k, u) ∈ zip rowIds (fanOutUsers p) /\ a = approvalRowFor p newId k u).
  { intros k a E E'. rewrite Ea in E'. apply insertApprovals_Some with (1 := E').
    destruct (decide (k ∈ (zip rowIds (fanOutUsers p)).*1)) as [|Hn]; [done|].
    rewrite insertApprovals_None in E' by done. congruence. }
  split.
  - intros k i E. exists i. rewrite Ei, lookup_insert_ne by congruence. eauto using row_step.
  - intros k i E E'. destruct (Hborn _ _ E E') as [-> ->]. split_and!; [done| |].
    + split_and!; [by rewrite Hcon|done|]. destruct Hst as [[? _]|[? _]]; auto.
    + intros k2 i2 E2 (Ho & Hk & _ & Hl). specialize (Hlive _ _ E2). unfold liveWithKey in Hlive.
      rewrite Hcon in Ho, Hk. rewrite !bool_decide_eq_true_2 in Hlive by done. done.
  - intros k1 k2 i1 i2 E1 E2 E1' E2'. destruct (Hborn _ _ E1 E1'), (Hborn _ _ E2 E2'). congruence.
  - intros k a E. exists a. split; [|done]. rewrite Ea, insertApprovals_None; [done|].
    rewrite fst_zip by lia. intros Hin. rewrite Forall_forall in Hfr. apply list_elem_of_In in Hin. specialize (Hfr _ Hin). congruence.
  - intros k a E E'. destruct (Hrow _ _ E E') as (u & _ & ->). split; [done|].
    intros id [= <-]. split; [done|]. exists f. rewrite Ei, lookup_insert_eq. simpl. by rewrite Hcon.
  - intros k1 k2 a1 a2 id i E1 E2 E1' E2' I1 I2 Hi Hr.
    destruct (Hrow _ _ E1 E1') as (u1 & Hz1 & ->), (Hrow _ _ E2 E2') as (u2 & Hz2 & ->).
    simpl in I1. simplify_eq. rewrite Ei, lookup_insert_eq in Hi. simplify_eq. simpl in Hr.
    unfold requester in Hr. rewrite Hcon, Hreq in Hr. simplify_eq.
    assert (Hu : fanOutUsers p = [pr_requesterId p]).
    { apply fanOutUsers_requester; [done|]. by apply elem_of_zip_r in Hz1. }
    rewrite Hu in *. destruct rowIds as [|x [|]]; simpl in *; try done. set_solver.
  - exact (proj2 (has_outbox_insert _ _ _ _ Eo)).
  - intros k i i' E E' Hna Ha. rewrite Ei, lookup_insert_ne in E' by congruence. congruence.
Qed.

(** ** What a process in flight knows *)

(** The intent [i] a process read is still stored, with the same content. *)
Definition stored (s : Store) (i : ActionIntent) : Prop :=
  exists j, st_intents s !! it_id i = Some j /\ it_content j = it_content i.

(** The intent [id] is stored and runs the tool [n]. *)
Definition names (s : Store) (n id : string) : Prop :=
  exists j, st_intents s !! id = Some j /\ actionName j = n.

(** The row a decide request is about, as the process read it. *)
Definition row_at (s : Store) (q : DecideRequest) (a : ApprovalRequest) : Prop :=
  ap_id a = dq_id q /\ ap_userId a = auth_userId (dq_auth q)
  /\ exists b, st_approvals s !! dq_id q = Some b /\ row_key b = row_key a.

Definition linked_ok (s : Store) (a : ApprovalRequest) (linked : option ActionIntent) : Prop :=
  match linked with
  | Some i => ap_intentId a = Some (it_id i) /\ stored s i
  | None => truthy (ap_intentId a) = false
  end.

(** The row a release loaded is an approval row of the intent. *)
Definition winning_ok (s : Store) (i : ActionIntent) (w : option (option string)) : Prop :=
  forall b, w = Some b -> exists k a, st_approvals s !! k = Some a /\ ap_intentId a = Some (it_id i)
                                    /\ ap_boundArgumentDigest a = b.

Definition finish_ok (s : Store) (id : string) (to_ : ActionIntentStatus) (p : Patch) : Prop :=
  (to_ = completed \/ to_ = failed) /\
  exists code at_ r, p = outcome_patch code at_ r /\
    forall x, r = Some x -> exists n, names s n id /\ assertNoPlaintextSecret n x = true.

Section process_invariant.
Variable digest : string -> string.

Definition proc_inv (s : Store) (p : Proc) : Prop :=
  match p with
  | PDecideIntent q a => row_at s q a
  | PDecideAssure q a linked => row_at s q a /\ linked_ok s a linked
  | PDecideCas q linked d =>
      (exists a, row_at s q a /\ linked_ok s a linked) /\ selfApprovalRefused q linked d = false
  | PDecideExecution q linked d a | PDecideElevation q linked d a | PDecideElevSiblings q linked d a _
  | PDecideFanIn q linked d a =>
      row_at s q a /\ linked_ok s a linked /\ selfApprovalRefused q linked d = false
  | PCommit p _ _ => prepared_ok digest p
  | PWorkerCheck i w => stored s i /\ winning_ok s i w
  | PWorkerGate i _ | PWorkerRun i _ | PWorkerStore i _ _ => stored s i
  | PInline n id | PInlineLoad n id => names s n id
  | PInlineCheck n i w => stored s i /\ actionName i = n /\ winning_ok s i w
  | PInlineRun n i | PInlineStore n i _ _ => stored s i /\ actionName i = n
  | PFinish id to_ p => finish_ok s id to_ p
  | _ => True
  end.

Section stable.
Context (s s' : Store) (Hstep : store_step digest s s').

Lemma names_stable n id : names s n id -> names s' n id.
Proof using Hstep.
  intros (j & Hj & Hn). destruct (ss_old _ _ _ Hstep _ _ Hj) as (j' & Hj' & Hr).
  exists j'. split; [done|]. unfold actionName in *. by destruct (row_step_frozen _ _ Hr) as [_ ->].
Qed.

Lemma stored_stable i : stored s i -> stored s' i.
Proof using Hstep.
  intros (j & Hj & Hc). destruct (ss_old _ _ _ Hstep _ _ Hj) as (j' & Hj' & Hr).
  exists j'. split; [done|]. by destruct (row_step_frozen _ _ Hr) as [_ ->].
Qed.

Lemma row_at_stable q a : row_at s q a -> row_at s' q a.
Proof using Hstep.
  intros (Hid & Hu & b & Hb & Hk). split_and!; [done..|].
  destruct (ss_row_old _ _ _ Hstep _ _ Hb) as (b' & Hb' & Hk'). exists b'. split; congruence.
Qed.

Lemma linked_ok_stable a linked : linked_ok s a linked -> linked_ok s' a linked.
Proof using Hstep. destruct linked; simpl; [|done]. intros [? ?]. split; [done|by apply stored_stable]. Qed.

Lemma winning_ok_stable i w : winning_ok s i w -> winning_ok s' i w.
Proof using Hstep.
  intros Hw b Hb. destruct (Hw b Hb) as (k & a & Ha & Hi & Hbd).
  destruct (ss_row_old _ _ _ Hstep _ _ Ha) as (a' & Ha' & Hk'). unfold row_key in Hk'.
  exists k, a'. simplify_eq. split_and!; congruence.
Qed.

Lemma finish_ok_stable id to_ p : finish_ok s id to_ p -> finish_ok s' id to_ p.
Proof using Hstep.
  intros (Hto & code & at_ & r & -> & Hr). split; [done|]. exists code, at_, r. split; [done|].
  intros x Hx. destruct (Hr x Hx) as (n & ? & ?). eauto using names_stable.
Qed.

Lemma proc_inv_stable p : proc_inv s p -> proc_inv s' p.
Proof using Hstep.
  destruct p; simpl; intros; destruct_and?; split_and?; try done;
    eauto using names_stable, stored_stable, row_at_stable, linked_ok_stable, winning_ok_stable,
      finish_ok_stable.
  destruct_and?. match goal with E : exists _, _ |- _ => destruct E as (a & ? & ?) end.
  exists a. eauto using row_at_stable, linked_ok_stable.
Qed.
End stable.
End process_invariant.

(** ** Every process step is a move of the store *)

Section process_step.
Context (digest : string -> string) (toolDescription : string -> option string)
        (JSON_parse : string -> option json)
        (sha256 : string -> bytes)
        (enc : bytes -> bytes -> option string -> bytes -> bytes * bytes)
        (decr : bytes -> bytes -> option string -> bytes -> bytes -> option bytes)
        (webauthn_verify : ApprovalProof -> string -> AuthenticatorDevice -> option (bool * Z))
        (verifyMobileSignature : string -> string -> string -> bool).
#[local] Abbreviation proc_step :=
  (proc_step digest toolDescription JSON_parse sha256 enc decr webauthn_verify verifyMobileSignature).
#[local] Abbreviation store_step := (store_step digest).

Lemma fanInDecision_store_step q i a now d s :
  store_inv digest s -> row_at s q a -> linked_ok s a (Some i) ->
  selfApprovalRefused q (Some i) d = false ->
  store_step s (fanInDecision q (it_id i) (ap_id a) now d s).1.
Proof.
  intros Hinv (Hid & Hu & b & Hb & Hk) [Hai (j & Hj & Hc)] Hself. unfold fanInDecision.
  destruct (transitionIntent _ _ _ _ _ _ _) as [s1 [|]] eqn:Et; [|apply store_step_refl].
  apply transitionIntent_true in Et as (j' & Ej & Hst & _ & ->). simplify_eq.
  apply list_elem_of_singleton in Hst.
  destruct (dq_approve q) eqn:Eap; cbn [fst].
  - apply store_step_rows.
    + cbn. eapply rows_by_insert; [constructor|done|]. constructor; [done|]. intros Hr.
      unfold selfApprovalRefused in Hself. rewrite Eap in Hself. unfold requester in Hr.
      rewrite <- Hc, Hr, bool_decide_eq_true_2 in Hself by done. by destruct (level_ge3 _).
    + apply expireSiblings_rows.
    + intros id ev. by refine (proj2 (has_outbox_insert s _ (it_id i) intent_approved _) id ev).
    + intros k x x' Ex Ex' Hnx Hx. cbn in Ex'. apply lookup_insert_Some in Ex' as [[<- <-]|[_ ?]]; [|congruence].
      split; [by refine (proj1 (has_outbox_insert s _ (it_id i) intent_approved _))|].
      pose proof (expireSiblings_rows (it_id i) (ap_id a) now (st_approvals s) (dq_id q)) as Hrow.
      rewrite Hb in Hrow. inversion Hrow as [b1 b' Hk' Eb1 Eb'|]. unfold row_key in Hk, Hk'. simplify_eq.
      exists (dq_id q), b'. cbn -[expireSiblings]. destruct (inv_row _ _ Hinv _ _ Hj) as [-> _].
      split_and!; congruence.
  - eapply store_step_one; [done|done| | |done|apply expireSiblings_rows]; [by constructor|by left].
Qed.

Lemma fanInReport_store_step u id keep now s : store_step s (fanInReport u id keep now s).1.
Proof.
  unfold fanInReport.
  destruct (transitionIntent _ _ _ _ _ _ _) as [s1 [|]] eqn:Et; [|apply store_step_refl].
  apply transitionIntent_true in Et as (j' & Ej & Hst & _ & ->). apply list_elem_of_singleton in Hst.
  eapply store_step_one; [done|done| | |done|apply expireSiblings_rows]; [by constructor|by left].
Qed.

Lemma burn_store_step id m s : store_step s (burnTemporaryPassword id m s).1.
Proof.
  destruct (burnTemporaryPassword id m s) as [s' [|]] eqn:Eb.
  - apply burn_true in Eb as (i & Hi & Hk & ->).
    eapply store_step_one; [done|done|by constructor| |done|by apply rows_by_refl].
    unfold it_status; simpl. destruct (decide (lc_status (it_life i) = approved)); auto.
  - apply burn_false in Eb as ->. apply store_step_refl.
Qed.

Lemma store_step_effect s s' e : store_step s s' -> store_step s (with_effect e s').
Proof. intros []. by split. Qed.

(** A compare-and-set that is not an approval. *)
Lemma cas_store_step id from to_ p req now s s' ok :
  transitionIntent id from to_ p req now s = (s', ok) -> to_ <> approved ->
  (forall i, st_intents s !! id = Some i -> it_status i ∈ from -> row_step i (apply_patch to_ p i)) ->
  store_step s s'.
Proof.
  intros Ht Hto Hr. destruct ok.
  - apply transitionIntent_true in Ht as (i & Hi & Hst & _ & ->).
    eapply store_step_one; [done|done|by apply Hr|by left|done|by apply rows_by_refl].
  - apply transitionIntent_false in Ht as ->. apply store_step_refl.
Qed.

Lemma finish_store_step id to_ p s :
  finish_ok s id to_ p -> store_step s (transitionIntent id [executing] to_ p false 0 s).1.
Proof.
  intros (Hto & code & at_ & r & -> & Hr).
  destruct (transitionIntent _ _ _ _ _ _ _) as [s' ok] eqn:Et. eapply cas_store_step; [done| |].
  - by destruct Hto as [-> | ->].
  - intros i Hi Hst. apply list_elem_of_singleton in Hst. constructor; [done..|].
    intros x Hx. destruct (Hr x Hx) as (n & (j & Hj & <-) & ?). by simplify_eq.
Qed.

Ltac quiet := apply store_step_quiet;
  [done|done|by (apply rows_by_refl || apply rows_by_update || (eapply rows_by_insert; done))].

Lemma proc_step_store env p s s' r :
  store_inv digest s -> proc_inv digest s p -> proc_step env p s = (s', r) -> store_step s s'.
Proof.
  intros Hinv Hp Hs. destruct p; cbn [proc_inv] in Hp; step_cases Hs; try apply store_step_refl; try by quiet.
  - destruct Hp as (Hrow & Hlink & Hself). pose proof (proj1 Hlink) as E. simplify_eq.
    match goal with H : it_id _ = String _ _ |- _ => rewrite <- H end. by apply fanInDecision_store_step.
  - apply fanInReport_store_step.
  - eapply cas_store_step; [eassumption|done|]. intros i _ Hst. constructor. set_solver.
  - apply burn_store_step.
  - apply store_step_effect.
    match goal with H : burnTemporaryPassword ?a ?b ?c = _ |- _ => pose proof (burn_store_step a b c) as Hb; by rewrite H in Hb end.
  - by eapply commit_store_step.
  - by eapply commit_store_step.
  - eapply cas_store_step; [eassumption|done|]. intros i _ Hst. constructor. set_solver.
  - eapply cas_store_step; [eassumption|done|]. intros i _ Hst. constructor. set_solver.
  - by apply finish_store_step.
Qed.

Lemma winningApproval_ok s i pick :
  winning_ok s i (winningApproval pick (it_id i) s).
Proof.
  intros b Hb. unfold winningApproval in Hb. apply fmap_Some in Hb as (a & Ha & ->).
  apply select1_elem, sql_select_elem in Ha as [(k & Hk) Hp]. bool_hyps. by exists k, a.
Qed.

Lemma stored_lookup s k i : store_inv digest s -> st_intents s !! k = Some i -> it_id i = k /\ stored s i.
Proof. intros Hinv Hi. destruct (inv_row _ _ Hinv _ _ Hi) as [Hid _]. split; [done|]. exists i. by rewrite Hid. Qed.

Lemma finish_plain s id to_ code at_ :
  to_ = completed \/ to_ = failed -> finish_ok s id to_ (outcome_patch code at_ None).
Proof. intros. split; [done|]. by exists code, at_, None. Qed.

Lemma finish_result s i to_ code at_ r :
  to_ = completed \/ to_ = failed -> stored s i -> assertNoPlaintextSecret (actionName i) r = true ->
  finish_ok s (it_id i) to_ (outcome_patch code at_ (Some r)).
Proof.
  intros Hto (j & Hj & Hc) Hr. split; [done|]. exists code, at_, (Some r). split; [done|]. intros x [= <-].
  exists (actionName i). split; [|done]. exists j. split; [done|]. unfold actionName. by rewrite Hc.
Qed.

Lemma storeWorkerResult_guarded env iv n c raw r :
  storeWorkerResult JSON_parse sha256 enc env iv n c raw = Complete r
  \/ storeWorkerResult JSON_parse sha256 enc env iv n c raw = ReturnedError r ->
  assertNoPlaintextSecret n r = true.
Proof. unfold storeWorkerResult. intros [E|E]; repeat case_match; by simplify_eq. Qed.

Lemma storeInlineResult_guarded n isError x r :
  storeInlineResult n isError x = Complete r \/ storeInlineResult n isError x = ReturnedError r ->
  assertNoPlaintextSecret n r = true.
Proof. unfold storeInlineResult. intros [E|E]; repeat case_match; by simplify_eq. Qed.

Lemma row_at_lookup s q a :
  store_inv digest s -> st_approvals s !! dq_id q = Some a -> ap_userId a = auth_userId (dq_auth q) -> row_at s q a.
Proof. intros Hinv Ha Hu. destruct (inv_approval _ _ Hinv _ _ Ha) as [Hid _]. split_and!; eauto. Qed.

Lemma row_at_decided s q a st at_ reason d a' linked :
  row_at s q a -> linked_ok s a linked -> st_approvals s !! dq_id q = Some a' ->
  row_at s q (set_decision st at_ reason d a') /\ linked_ok s (set_decision st at_ reason d a') linked.
Proof.
  intros (Hid & Hu & b & Hb & Hk) Hl Ha. simplify_eq. unfold row_key in Hk. simplify_eq. split.
  - split_and!; cbn; try congruence. eauto.
  - destruct linked; cbn in *; [|congruence]. destruct Hl. split; [congruence|done].
Qed.

Lemma proc_step_inv env p s s' p' :
  store_inv digest s -> proc_inv digest s p -> proc_step env p s = (s', inl p') -> proc_inv digest s' p'.
Proof.
  intros Hinv Hp Hs. eapply proc_inv_stable; [by eapply proc_step_store|].
  destruct p; cbn [proc_inv] in Hp; step_cases Hs; cbn [proc_inv]; bool_hyps; try done;
    try (by apply finish_plain; auto); try (by destruct_and?; split_and?).
  all: try (apply finish_result; [by auto|tauto|]).
  all: try (by eapply storeWorkerResult_guarded; eauto).
  all: try (destruct Hp as [? <-]; by eapply storeInlineResult_guarded; eauto).
  - by apply row_at_lookup.
  - split; [by apply row_at_lookup|done].
  - split; [done|].
    destruct (stored_lookup _ _ _ Hinv ltac:(eassumption)) as [<- ?]. done.
  - split; [eauto|done].
  - destruct Hp as [(b & Hrow & Hl) ?]. edestruct row_at_decided; [exact Hrow|exact Hl|eassumption|]. by split_and!.
  - destruct Hp as [(b & Hrow & Hl) ?]. edestruct row_at_decided; [exact Hrow|exact Hl|eassumption|]. by split_and!.
  - by eapply prepareIntent_ok.
  - destruct (stored_lookup _ _ _ Hinv ltac:(eassumption)) as [<- ?]. split; [done|apply winningApproval_ok].
  - destruct (stored_lookup _ _ _ Hinv ltac:(eassumption)) as [<- ?]. split_and!; [done| |apply winningApproval_ok].
    destruct Hp as (j & ? & ?). by simplify_eq.
Qed.

(** ** Effects: a tool runs, a credential is shown *)

Lemma transitionIntent_effects id from to_ p req now s :
  st_effects (transitionIntent id from to_ p req now s).1 = st_effects s.
Proof. unfold transitionIntent. by repeat case_match. Qed.

Lemma burn_effects id m s : st_effects (burnTemporaryPassword id m s).1 = st_effects s.
Proof. unfold burnTemporaryPassword. by repeat case_match. Qed.

Lemma fanInDecision_effects q id keep now d s : st_effects (fanInDecision q id keep now d s).1 = st_effects s.
Proof.
  unfold fanInDecision. destruct (transitionIntent _ _ _ _ _ _ _) as [s1 [|]] eqn:Et; [|done].
  apply transitionIntent_true in Et as (? & _ & _ & _ & ->). by case_match.
Qed.

Lemma fanInReport_effects u id keep now s : st_effects (fanInReport u id keep now s).1 = st_effects s.
Proof.
  unfold fanInReport. destruct (transitionIntent _ _ _ _ _ _ _) as [s1 [|]] eqn:Et; [|done].
  by apply transitionIntent_true in Et as (? & _ & _ & _ & ->).
Qed.

Lemma commitIntent_effects p newId rowIds now pick fail s s' r :
  commitIntent p newId rowIds now pick fail s = (s', r) -> st_effects s' = st_effects s.
Proof. intros Hc. destruct (commitIntent_cases _ _ _ _ _ _ _ _ _ Hc) as [[-> _]|(? & Hx)]; [done|]. tauto. Qed.

(** The effects each process step adds. *)
Definition new_effects (env : Env) (p : Proc) : list (list Effect) :=
  match p with
  | PWorkerRun i _ => [[]; [ToolRan (it_id i) (e_db env)]]
  | PInlineRun _ i => [[ToolRan (it_id i) (e_db env)]]
  | PRevealBurn _ id _ => [[]; [SecretShown id]]
  | _ => [[]]
  end.

Lemma transitionIntent_effects_eq id from to_ p req now s s' ok :
  transitionIntent id from to_ p req now s = (s', ok) -> st_effects s' = st_effects s.
Proof. intros Et. pose proof (transitionIntent_effects id from to_ p req now s) as He. by rewrite Et in He. Qed.

Lemma burn_effects_eq id m s s' ok :
  burnTemporaryPassword id m s = (s', ok) -> st_effects s' = st_effects s.
Proof. intros Et. pose proof (burn_effects id m s) as He. by rewrite Et in He. Qed.

Lemma proc_step_effects env p s s' r :
  proc_step env p s = (s', r) -> exists l, l ∈ new_effects env p /\ st_effects s' = l ++ st_effects s.
Proof.
  intros Hs. destruct p; cbn [new_effects]; step_cases Hs;
    try (exists []; split; [set_solver|]; first
      [ done | apply fanInDecision_effects | apply fanInReport_effects | apply burn_effects
      | apply transitionIntent_effects | eapply transitionIntent_effects_eq; eassumption
      | eapply commitIntent_effects; eassumption ]);
    match goal with
    | |- context [SecretShown ?id] => exists [SecretShown id]; split; [set_solver|]; f_equal
    | |- context [ToolRan ?id ?t] => exists [ToolRan id t]; split; [set_solver|]; f_equal
    end; try done.
  by eapply burn_effects_eq.
Qed.

End process_step.

(** ** Single execution: a token per intent *)

(** The process may still run the tool of intent [id]. *)
Definition holds (id : string) (p : Proc) : bool :=
  match p with
  | PWorkerLoad x | PInlineLoad _ x => bool_decide (x = id)
  | PWorkerCheck i _ | PWorkerGate i _ | PWorkerRun i _ | PInlineCheck _ i _ | PInlineRun _ i =>
      bool_decide (it_id i = id)
  | _ => false
  end.

Definition ran (id : string) (e : Effect) : bool :=
  match e with ToolRan x _ => bool_decide (x = id) | SecretShown _ => false end.
Definition shown (id : string) (e : Effect) : bool :=
  match e with SecretShown x => bool_decide (x = id) | ToolRan _ _ => false end.

Definition claimed (id : string) (s : Store) : nat :=
  match st_intents s !! id with Some i => Nat.b2n (post_claim (it_status i)) | None => 0 end.

Definition next_holds (id : string) (r : Proc + Response) : nat :=
  match r with inl p => Nat.b2n (holds id p) | inr _ => 0%nat end.

Section tokens.
Context (digest : string -> string) (toolDescription : string -> option string)
        (JSON_parse : string -> option json)
        (sha256 : string -> bytes)
        (enc : bytes -> bytes -> option string -> bytes -> bytes * bytes)
        (decr : bytes -> bytes -> option string -> bytes -> bytes -> option bytes)
        (webauthn_verify : ApprovalProof -> string -> AuthenticatorDevice -> option (bool * Z))
        (verifyMobileSignature : string -> string -> string -> bool).
#[local] Abbreviation proc_step :=
  (proc_step digest toolDescription JSON_parse sha256 enc decr webauthn_verify verifyMobileSignature).

Lemma claimed_mono id s s' : store_step digest s s' -> (claimed id s <= claimed id s')%nat.
Proof.
  intros Hs. unfold claimed. destruct (st_intents s !! id) as [i|] eqn:E; [|lia].
  destruct (ss_old _ _ _ Hs _ _ E) as (i' & -> & Hr).
  destruct (row_step_edge _ _ Hr) as [->|He]; [done|].
  destruct (post_claim (it_status i)) eqn:Ep; [|simpl; lia]. by rewrite (edge_post_claim _ _ He Ep).
Qed.

(** Winning the claim is what creates a token. *)
Lemma claim_token id x now db s s' :
  transitionIntent x [approved] executing (claim_patch now) true db s = (s', true) ->
  (Nat.b2n (bool_decide (x = id)) + claimed id s <= claimed id s')%nat.
Proof.
  intros Ht. apply transitionIntent_true in Ht as (i & Hi & Hst & _ & ->). apply list_elem_of_singleton in Hst.
  unfold claimed. cbn. case_bool_decide as Hx.
  - subst x. rewrite Hi, lookup_insert_eq, Hst. done.
  - rewrite lookup_insert_ne by done. simpl. lia.
Qed.

(** A step moves tokens along, spends them on a run, or wins one by a claim. *)
Lemma token_step id env p s s' r :
  store_inv digest s -> proc_inv digest s p -> proc_step env p s = (s', r) ->
  (next_holds id r + count_if (ran id) (st_effects s') + claimed id s
   <= Nat.b2n (holds id p) + count_if (ran id) (st_effects s) + claimed id s')%nat.
Proof.
  intros Hinv Hp Hs. pose proof (claimed_mono id _ _ (proc_step_store _ _ _ _ _ _ _ _ _ _ _ _ _ Hinv Hp Hs)) as Hm.
  destruct (proc_step_effects _ _ _ _ _ _ _ _ _ _ _ _ _ Hs) as (l & Hl & He).
  rewrite He, count_if_app. clear He.
  destruct p; cbn [new_effects] in Hl; step_cases Hs; cbn [next_holds holds] in *;
    repeat (apply elem_of_cons in Hl as [->|Hl]); try (by apply not_elem_of_nil in Hl);
    rewrite ?count_if_cons; cbn [count_if List.filter length ran] in *;
    repeat match goal with E : st_intents _ !! _ = Some ?i |- _ =>
      lazymatch goal with _ : it_id i = _ |- _ => fail | _ => pose proof (proj1 (inv_row _ _ Hinv _ _ E)) end end;
    subst; repeat case_bool_decide; simplify_eq; try (unfold count_if; simpl; lia).
  all: match goal with E : transitionIntent _ _ _ _ _ _ _ = _ |- _ => pose proof (claim_token id _ _ _ _ _ E) as Hc end;
    rewrite bool_decide_eq_true_2 in Hc by done; lia.
Qed.
End tokens.

(** ** Background jobs *)

Inductive Job : Type :=
| ReapIntents (dbNow : Z) (locked : list string)
| ExpireLinked (ids : list string) (jsNow : Z)
| ReapStale (dbNow : Z) (locked : list string)
| Redact (dbNow : Z)
| ReapApprovals (dbNow : Z) (locked : list string)
| MirrorExecutions (executionIds : list string) (jsNow : Z)
| ScanOutbox (locked : list nat)
| MarkOutbox (dbNow : Z) (ids : list nat)
(* an approval row of another source: chat, mobile, elevation *)
| RequestApproval (a : ApprovalRequest)
(* challenges issued, devices registered *)
| ChangeAuth (a : AuthState).

Definition run_job (j : Job) (s : Store) : Store :=
  match j with
  | ReapIntents dbNow locked => (reapExpiredIntents dbNow locked s).1
  | ExpireLinked ids jsNow => expireLinkedApprovals ids jsNow s
  | ReapStale dbNow locked => (reapStaleExecutingIntents dbNow locked s).1
  | Redact dbNow => redactExpiredUnrevealedSecrets dbNow s
  | ReapApprovals dbNow locked => (reapExpiredApprovals dbNow locked s).1
  | MirrorExecutions ids jsNow => mirrorExpiredExecutions ids jsNow s
  | ScanOutbox locked => with_outbox (fun l => (scanAndClaimOutboxRows locked l).1) s
  | MarkOutbox dbNow ids => with_outbox (markOutboxRowsPublished dbNow ids) s
  | RequestApproval a =>
      if bool_decide (ap_intentId a = None) && bool_decide (st_approvals s !! ap_id a = None)
      then with_approvals (fun m => <[ap_id a := a]> m) s else s
  | ChangeAuth a => with_auth a s
  end.

Lemma outbox_map_step digest s f :
  (forall o, ob_intentId (f o) = ob_intentId o /\ ob_eventType (f o) = ob_eventType o) ->
  store_step digest s (with_outbox (fun l => f <$> l) s).
Proof.
  intros Hf. apply store_step_rows; [apply rows_by_refl; constructor|by apply rows_by_refl| |].
  - intros id ev (o & Ho & <- & <-). exists (f o). destruct (Hf o). split_and!; [|done..].
    cbn. by apply list_elem_of_fmap_2.
  - cbn. congruence.
Qed.

Lemma request_approval_step digest s a :
  store_inv digest s -> ap_intentId a = None -> st_approvals s !! ap_id a = None ->
  store_step digest s (with_approvals (fun m => <[ap_id a := a]> m) s).
Proof.
  intros Hinv Hi Ha.
  assert (Hnew : forall k b, st_approvals s !! k = None -> <[ap_id a := a]> (st_approvals s) !! k = Some b ->
            k = ap_id a /\ b = a).
  { intros k b E E'. apply lookup_insert_Some in E' as [[<- <-]|[_ E']]; [done|congruence]. }
  split; cbn; try by eauto using row_step || congruence.
  - intros k b E. exists b. by rewrite lookup_insert_ne by congruence.
  - intros k b E E'. destruct (Hnew _ _ E E') as [-> ->]. split; [done|congruence].
  - intros k1 k2 a1 a2 id i E1 E2 E1' E2' I1. destruct (Hnew _ _ E1 E1') as [-> ->]. congruence.
Qed.

Lemma job_store_step digest j s : store_inv digest s -> store_step digest s (run_job j s).
Proof.
  intros Hinv. destruct j; cbn [run_job].
  - eapply store_step_update; [done| |done..]. intros k i Hi Hp. cbv beta in Hp. bool_hyps.
    split; [constructor; set_solver|by left].
  - apply store_step_quiet; [done..|by apply rows_by_update].
  - eapply store_step_update; [done| |done..]. intros k i Hi Hp. cbv beta in Hp. bool_hyps.
    split; [by constructor|by left].
  - eapply store_step_update; [done| |done..]. intros k i Hi Hp. unfold redact_due in Hp. bool_hyps.
    split; [by constructor|]. left. change (it_status i <> approved). congruence.
  - apply store_step_quiet; [done..|by apply rows_by_update].
  - apply store_step_quiet; [done..|by apply rows_by_refl].
  - apply outbox_map_step. intros o. unfold bumpAttempts. by case_match.
  - apply outbox_map_step. intros o. by case_match.
  - destruct (_ && _) eqn:Eg; [|apply store_step_refl]. bool_hyps. by apply request_approval_step.
  - apply store_step_quiet; [done..|by apply rows_by_refl].
Qed.

Lemma job_effects j s : st_effects (run_job j s) = st_effects s.
Proof. destruct j; cbn [run_job]; try done. by case_match. Qed.

(** ** The system *)

Record Sys : Type := { sy_store : Store; sy_procs : list Proc }.

(** What may start: a request, a release job, or the inline release of the tool
    the intent was created for. *)
Definition entry (s : Store) (p : Proc) : bool :=
  match p with
  | PDecide _ | PReport _ _ | PCancel _ _ | PReveal _ _ | PCreate _ _ _ _ | PWorker _ => true
  | PInline n id => match st_intents s !! id with
                    | Some i => bool_decide (actionName i = n) | None => false end
  | _ => false
  end.

Inductive Action : Type :=
| Spawn (p : Proc)
| Run (n : nat) (env : Env)
| Crash (n : nat)
| Background (j : Job).

Section system.
Context (digest : string -> string) (toolDescription : string -> option string)
        (JSON_parse : string -> option json)
        (sha256 : string -> bytes)
        (enc : bytes -> bytes -> option string -> bytes -> bytes * bytes)
        (decr : bytes -> bytes -> option string -> bytes -> bytes -> option bytes)
        (webauthn_verify : ApprovalProof -> string -> AuthenticatorDevice -> option (bool * Z))
        (verifyMobileSignature : string -> string -> string -> bool).
#[local] Abbreviation proc_step :=
  (proc_step digest toolDescription JSON_parse sha256 enc decr webauthn_verify verifyMobileSignature).

Definition sys_step (a : Action) (y : Sys) : Sys :=
  match a with
  | Spawn p => if entry (sy_store y) p then {| sy_store := sy_store y; sy_procs := sy_procs y ++ [p] |} else y
  | Run n env =>
      match sy_procs y !! n with
      | None => y
      | Some p =>
          let '(s', r) := proc_step env p (sy_store y) in
          {| sy_store := s';
             sy_procs := match r with inl p' => <[n := p']> (sy_procs y) | inr _ => delete n (sy_procs y) end |}
      end
  | Crash n => {| sy_store := sy_store y; sy_procs := delete n (sy_procs y) |}
  | Background j => {| sy_store := run_job j (sy_store y); sy_procs := sy_procs y |}
  end.

(** At the start there are no intents, no processes and no effects. *)
Definition initial (y : Sys) : Prop :=
  st_intents (sy_store y) = ∅ /\ st_approvals (sy_store y) = ∅ /\ st_outbox (sy_store y) = []
  /\ st_effects (sy_store y) = [] /\ sy_procs y = [].

Definition run_trace (acts : list Action) (y : Sys) : Sys := foldl (fun y a => sys_step a y) y acts.

Definition reachable (y : Sys) : Prop := exists y0 acts, initial y0 /\ y = run_trace acts y0.

Lemma reachable_ind (P : Sys -> Prop) :
  (forall y, initial y -> P y) -> (forall a y, reachable y -> P y -> P (sys_step a y)) ->
  forall y, reachable y -> P y.
Proof.
  intros Hi Hs y (y0 & acts & Hy0 & ->). induction acts as [|a acts IH] using rev_ind; [by apply Hi|].
  unfold run_trace in *. rewrite foldl_app. apply Hs; [|done]. by exists y0, acts.
Qed.

(** The token count never exceeds the claim. *)
Definition tokens_ok (y : Sys) : Prop :=
  forall id, (count_if (holds id) (sy_procs y) + count_if (ran id) (st_effects (sy_store y))
              <= claimed id (sy_store y))%nat.

Record sys_inv (y : Sys) : Prop := {
  si_store : store_inv digest (sy_store y);
  si_procs : Forall (proc_inv digest (sy_store y)) (sy_procs y);
  si_tokens : tokens_ok y;
}.

Lemma initial_inv y : initial y -> sys_inv y.
Proof.
  intros (Hi & Ha & Ho & He & Hp). split.
  - split; rewrite ?Hi, ?Ha; intros *; rewrite lookup_empty; done.
  - rewrite Hp. constructor.
  - intros id. rewrite Hp, He. unfold count_if. simpl. lia.
Qed.

Lemma count_insert {A} (f : A -> bool) (l : list A) n x y :
  l !! n = Some x -> (count_if f (<[n := y]> l) + Nat.b2n (f x) = count_if f l + Nat.b2n (f y))%nat.
Proof.
  intros Hn. rewrite insert_take_drop by (by eapply lookup_lt_Some).
  rewrite <- (take_drop_middle l n x Hn) at 3. rewrite !count_if_middle. destruct (f x), (f y); simpl; lia.
Qed.

Lemma count_delete {A} (f : A -> bool) (l : list A) n x :
  l !! n = Some x -> (count_if f (delete n l) + Nat.b2n (f x) = count_if f l)%nat.
Proof.
  intros Hn. rewrite delete_take_drop. rewrite <- (take_drop_middle l n x Hn) at 3.
  rewrite count_if_middle, count_if_app. destruct (f x); simpl; lia.
Qed.

Lemma sys_step_store a y : sys_inv y -> store_step digest (sy_store y) (sy_store (sys_step a y)).
Proof.
  intros [Hst Hpr _]. destruct a; cbn [sys_step].
  - case_match; apply store_step_refl.
  - destruct (sy_procs y !! n) as [p|] eqn:En; [|apply store_step_refl].
    destruct (proc_step env p (sy_store y)) as [s' r] eqn:Es. eapply proc_step_store; [done| |done].
    by eapply Forall_lookup_1.
  - apply store_step_refl.
  - by apply job_store_step.
Qed.

Lemma sys_step_procs a y : sys_inv y -> Forall (proc_inv digest (sy_store (sys_step a y))) (sy_procs (sys_step a y)).
Proof.
  intros Hinv. pose proof (sys_step_store a y Hinv) as Hstep. destruct Hinv as [Hst Hpr _].
  assert (Hold : Forall (proc_inv digest (sy_store (sys_step a y))) (sy_procs y)).
  { eapply Forall_impl; [|exact Hpr]. intros p. by apply proc_inv_stable. }
  destruct a; cbn [sys_step] in *.
  - destruct (entry (sy_store y) p) eqn:Ee; [|done]. apply Forall_app. split; [done|]. constructor; [|done].
    destruct p; try done. simpl in *. unfold names. case_match; [|done]. bool_hyps. eauto.
  - destruct (sy_procs y !! n) as [p|] eqn:En; [|done].
    destruct (proc_step env p (sy_store y)) as [s' [p'|r]] eqn:Es; cbn in *.
    + apply Forall_insert; [done|]. eapply proc_step_inv; [done| |done]. by eapply Forall_lookup_1.
    + by apply Forall_delete.
  - by apply Forall_delete.
  - done.
Qed.

Lemma entry_holds s p id : entry s p = true -> holds id p = false.
Proof. by destruct p. Qed.

Lemma sys_step_tokens a y : sys_inv y -> tokens_ok (sys_step a y).
Proof.
  intros Hinv id. pose proof (claimed_mono _ id _ _ (sys_step_store a y Hinv)) as Hm.
  destruct Hinv as [Hst Hpr Htok]. specialize (Htok id). destruct a; cbn [sys_step] in *.
  - destruct (entry (sy_store y) p) eqn:Ee; [|done]. cbn [sy_procs sy_store].
    rewrite count_if_app, count_if_cons, (entry_holds _ _ id Ee). unfold count_if at 2. simpl. lia.
  - destruct (sy_procs y !! n) as [p|] eqn:En; [|done].
    destruct (proc_step env p (sy_store y)) as [s' r] eqn:Es.
    pose proof (token_step _ _ _ _ _ _ _ _ id _ _ _ _ _ Hst (Forall_lookup_1 _ _ _ _ Hpr En) Es) as Ht.
    destruct r as [p'|r]; cbn [next_holds sy_store sy_procs] in *.
    + pose proof (count_insert (holds id) _ _ _ p' En). lia.
    + pose proof (count_delete (holds id) _ _ _ En). lia.
  - cbn [sy_store sy_procs]. destruct (sy_procs y !! n) as [p|] eqn:En.
    + pose proof (count_delete (holds id) _ _ _ En). lia.
    + rewrite delete_take_drop, take_ge, drop_ge, app_nil_r by (apply lookup_ge_None in En; lia). done.
  - cbn [sy_store sy_procs] in *. rewrite job_effects. lia.
Qed.

Lemma sys_step_inv a y : sys_inv y -> sys_inv (sys_step a y).
Proof.
  intros Hinv. split.
  - eapply store_step_inv; [apply Hinv|by apply sys_step_store].
  - by apply sys_step_procs.
  - by apply sys_step_tokens.
Qed.

Lemma reachable_inv y : reachable y -> sys_inv y.
Proof. apply (reachable_ind sys_inv); auto using initial_inv, sys_step_inv. Qed.

End system.
