(* ===== verification/Elevations.v ===== *)
(** * Privileged-access elevations: every operation that moves one

    routes/agents/elevationRequests.ts (what an agent reports),
    services/pamApprovers.ts, services/pamToolActionGovernance.ts (tool actions
    of the helper), routes/pam.ts (respond and revoke),
    routes/devices/actuateElevation.ts, the elevation tools of
    services/aiToolsPam.ts, the request of routes/remediationSuggestions.ts and
    the two reapers of jobs/pamJobs.ts. Approvals from the phone arrive through
    [step_decideElevation] of IntentHandlers.

    An operation is a process, as in IntentHandlers: one step is one
    transaction. In a transaction that reads a row and later updates it with a
    compare-and-swap, the columns it uses in between are never changed by
    anything ([el_content]), so reading and writing in one step loses nothing
    but the status a refusal shows. *)

From stdpp Require Import base gmap strings list option sorting.
From Stdlib Require Import ZArith Lia Ascii.
From S2P Require Import Prelude Json PamGlob PamRules Assurance Tenant.
From S2P Require Import Permissions Auth IntentStore IntentHandlers.

(** ** The world around a step *)

Record Device : Type := {
  dv_id : string;
  dv_agentId : string;
  dv_orgId : string;
  dv_siteId : option string;
  dv_hostname : string;
  dv_status : string;
}.

Record MobileDevice : Type := {
  md_userId : string;
  md_status : string;
  md_notificationsEnabled : bool;
}.

(** A row of [pam_signer_groups]. *)
Record PamSignerGroup : Type := {
  pg_id : string;
  pg_orgId : string;
  pg_signers : json;
}.

Inductive UnmatchedVerdict : Type := u_require_approval | u_auto_deny.
#[export] Instance UnmatchedVerdict_eq_dec : EqDecision UnmatchedVerdict.
Proof. solve_decision. Defined.

(** Clocks, failures, and the tables the operations only read. [None] for a table
    is a query that throws. [pv_policies] is the software policy resolved for a
    device. *)
Record PamEnv : Type := {
  pv_js : Z;
  pv_db : Z;
  pv_pick : nat;
  pv_fail : bool;
  pv_auditFail : bool;
  pv_insertFails : string -> bool;
  pv_dir : Directory;
  pv_assurance : option (option PartnerPolicy);
  pv_devices : list Device;
  pv_policies : string -> option (list LoadedPolicy);
  pv_rules : option (list PamRule);
  pv_groups : option (list PamSignerGroup);
  pv_config : option (gmap string UnmatchedVerdict);
  pv_mobile : list MobileDevice;
}.

(** ** Who may approve on a phone *)

(** The roles that grant devices:execute, wildcards included. *)
Definition executeRoles (dir : Directory) : list string :=
  omap (fun rp => match dr_permissions dir !! rp.2 with
                  | Some p =>
                      if bool_decide (p_resource p ∈ ["devices"; "*"]%string)
                         && bool_decide (p_action p ∈ ["execute"; "*"]%string)
                      then Some rp.1 else None
                  | None => None
                  end) (dr_rolePermissions dir).

Definition elevationCandidates (dir : Directory) (orgId : string) : list string :=
  let grantingRoleIds := executeRoles dir in
  let orgMembers := List.filter (fun m => bool_decide (ou_orgId m = orgId)
                      && bool_decide (ou_roleId m ∈ grantingRoleIds)) (dr_organizationUsers dir) in
  let members := ou_userId <$> orgMembers in
  match dr_organizations dir !! orgId with
  | Some org =>
      if truthy (Some (o_partnerId org)) then
        members ++ omap (fun m =>
          if bool_decide (pu_partnerId m = o_partnerId org) && bool_decide (pu_roleId m ∈ grantingRoleIds) then
            match pu_orgAccess m with
            | oa_all => Some (pu_userId m)
            | oa_selected => if in_ids (pu_orgIds m) orgId then Some (pu_userId m) else None
            | oa_none => None
            end
          else None) (dr_partnerUsers dir)
      else members
  | None => members
  end.

(** [resolveElevationApprovers(orgId)]: the early returns on no granting role and
    on no candidate give the empty list either way. *)
Definition resolveElevationApprovers (dir : Directory) (mobile : list MobileDevice) (orgId : string) : list string :=
  fold_left set_add
    (md_userId <$> List.filter (fun d => bool_decide (md_userId d ∈ elevationCandidates dir orgId)
                                         && bool_decide (md_status d = "active"%string)
                                         && md_notificationsEnabled d) mobile) [].

(** ** Reports of an agent *)

(** A validated body ([elevationRequestSchema]). The process id goes to the
    metadata only and is left out. *)
Record ElevationRequestPayload : Type := {
  pl_subject_username : string;
  pl_target_executable_path : string;
  pl_target_executable_hash : option string;
  pl_target_executable_signer : option string;
  pl_target_executable_signer_thumbprint : option string;
  pl_parent_image : option string;
  pl_command_line : option string;
  pl_observed_at : option Z;
}.

Definition max_length (n : Z) (s : option string) : bool :=
  match s with Some s => Z.of_nat (String.length s) <=? n | None => true end.

Definition elevationRequestSchema (p : ElevationRequestPayload) : bool :=
  truthy (Some (pl_subject_username p)) && max_length 255 (Some (pl_subject_username p))
  && truthy (Some (pl_target_executable_path p)) && max_length 4096 (Some (pl_target_executable_path p))
  && max_length 128 (pl_target_executable_hash p)
  && max_length 255 (pl_target_executable_signer p)
  && match pl_target_executable_signer_thumbprint p with
     | Some t => (String.length t =? 64)%nat && str_forallb is_hex t
     | None => true
     end
  && max_length 4096 (pl_parent_image p) && max_length 8192 (pl_command_line p).

Inductive DecisionSource : Type :=
| src_policy (policyId : option string)
| src_rule (m : PamRuleMatch)
| src_default.

Inductive IngestDecision : Type :=
| D_pending
| D_auto_approved (src : DecisionSource) (durationMinutes : Z)
| D_denied (src : DecisionSource)
| D_ignored (m : PamRuleMatch).

Definition PAM_DEFAULT_AUTO_APPROVAL_DURATION_MINUTES : Z := 15.
Definition PAM_MOBILE_APPROVAL_TTL_MINUTES : Z := 15.

(** The rules a device's requests are judged by: enabled, of its org, and org-wide
    or of its site. *)
Definition rulesFor (orgId : string) (siteId : option string) (rules : list PamRule) : list PamRule :=
  List.filter (fun r => bool_decide (ru_orgId r = orgId) && ru_enabled r
    && (bool_decide (ru_siteId r = None) || (truthy siteId && bool_decide (ru_siteId r = siteId)))) rules.

(** The signer groups of the org that the rules name. *)
Definition signerGroupsFor (orgId : string) (rules : list PamRule) (groups : list PamSignerGroup)
  : gmap string (list SignerGroupEntry) :=
  list_to_map ((fun g => (pg_id g, normalizeSignerGroupEntries (pg_signers g)))
    <$> List.filter (fun g => bool_decide (pg_orgId g = orgId)
                              && bool_decide (Some (pg_id g) ∈ ru_matchSignerGroupId <$> rules)) groups).

Definition bridgeInput (p : ElevationRequestPayload) : PamBridgeInput :=
  {| bi_path := pl_target_executable_path p; bi_hash := pl_target_executable_hash p;
     bi_signer := pl_target_executable_signer p; bi_publisher := None |}.

Definition ingestCandidate (p : ElevationRequestPayload) (observedAt : Z) : PamRuleCandidate :=
  {| ca_path := Some (pl_target_executable_path p); ca_hash := pl_target_executable_hash p;
     ca_signer := pl_target_executable_signer p; ca_thumbprint := pl_target_executable_signer_thumbprint p;
     ca_username := pl_subject_username p; ca_parentImage := pl_parent_image p;
     ca_commandLine := pl_command_line p; ca_adGroups := None; ca_toolName := None;
     ca_riskTier := None; ca_at := observedAt |}.

(** ** Requests, processes and responses *)

(** [newId] and [rowIds] are the random ids of the rows an operation inserts. *)
Record IngestRequest : Type := {
  ir_agentId : string;
  ir_contentLength : option Z;
  ir_rateAllowed : bool;
  ir_payload : ElevationRequestPayload;
  ir_newId : string;
  ir_rowIds : list string;
}.

Record RespondRequest : Type := {
  rq_auth : AuthContext;
  rq_perms : option UserPermissions;
  rq_mfa : bool;
  rq_id : string;
  rq_approve : bool;
  rq_reason : option string;
  rq_durationMinutes : option Z;
  rq_proof : option ApprovalProof;
  rq_reauthVerified : bool;
}.

Record RevokeRequest : Type := {
  vq_auth : AuthContext;
  vq_perms : option UserPermissions;
  vq_mfa : bool;
  vq_id : string;
  vq_reason : string;
}.

Record ActuateRequest : Type := {
  aq_auth : AuthContext;
  aq_perms : option UserPermissions;
  aq_mfa : bool;
  aq_deviceId : string;
  aq_elevationRequestId : string;
  aq_timeoutMs : option Z;
}.

(** [ToolActionParams] *)
Record ToolActionParams : Type := {
  ta_orgId : string;
  ta_deviceId : string;
  ta_executionId : string;
  ta_toolName : string;
  ta_toolInput : list (string * json);
  ta_riskTier : Z;
  ta_subjectUsername : string;
  ta_newId : string;
}.

(** The input of the [request_elevation] tool; the duration is [Number(value)]
    truncated, [None] when that is not finite. *)
Record RequestElevationInput : Type := {
  re_auth : AuthContext;
  re_deviceId : string;
  re_subjectUsername : string;
  re_reason : string;
  re_durationMinutes : option Z;
  re_subjectAdGroups : option (list string);
  re_newId : string;
}.

(** What the remediation route has loaded when it asks for an elevation. *)
Record RemediationElevation : Type := {
  me_userId : string;
  me_userLabel : string;
  me_orgId : string;
  me_siteId : option string;
  me_deviceId : string;
  me_title : string;
  me_riskTier : string;
  me_newId : string;
}.

Inductive ToolActionDecision : Type := ta_auto_approved | ta_denied | ta_pending.

Inductive PamResponse : Type :=
| A_created (id : string) (st : ElevationStatus)
| A_ignored
| A_ok (st : ElevationStatus)
| A_decided (d : ToolActionDecision)
| A_command
| A_invalid
| A_too_large
| A_rate_limited
| A_not_found
| A_forbidden
| A_self_approval
| A_conflict (st : ElevationStatus)
| A_wrong_status (st : ElevationStatus)
| A_assurance (e : AssuranceError)
| A_stale_execution
| A_decommissioned
| A_server_error.

Inductive PamProc : Type :=
| MIngest (r : IngestRequest)
| MInsert (r : IngestRequest) (device : Device) (observedAt : Z) (verdict : option PamBridgeVerdict) (d : IngestDecision)
| MFanOut (r : IngestRequest) (device : Device) (verdict : option PamBridgeVerdict) (expiresAt : Z)
| MRespond (q : RespondRequest)
| MRespondSiblings (elevationId : string) (st : ElevationStatus)
| MRevoke (q : RevokeRequest)
| MRevokeTool (auth : AuthContext) (id reason : string)
| MActuate (q : ActuateRequest)
| MHelper (a : ToolActionParams)
| MRequestTool (i : RequestElevationInput)
| MRemediation (m : RemediationElevation).

Definition ELEVATION_REQUEST_MAX_BODY_BYTES : Z := 32 * 1024.
Definition DEFAULT_APPROVAL_DURATION_MINUTES : Z := 15.
Definition MAX_APPROVAL_DURATION_MINUTES : Z := 24 * 60.
Definition DEFAULT_DURATION_MINUTES : Z := 30.
Definition ACTIVE_STATUSES : list ElevationStatus := [el_approved; el_auto_approved; el_actuating].

(** [requirePermission('devices', 'execute')] and [requireMfa()] *)
Definition pamGate (perms : option UserPermissions) (mfa : bool) : bool :=
  match perms with Some p => hasPermission p "devices" "execute" && mfa | None => false end.

Definition respondSchema (q : RespondRequest) : bool :=
  max_length 2000 (rq_reason q)
  && match rq_durationMinutes q with
     | Some m => (1 <=? m) && (m <=? MAX_APPROVAL_DURATION_MINUTES)
     | None => true
     end.

Definition revokeSchema (reason : string) : bool := truthy (Some reason) && max_length 2000 (Some reason).

(** [perms && row.siteId && !canAccessSite(perms, row.siteId)] *)
Definition siteRefused (perms : option UserPermissions) (siteId : option string) : bool :=
  match perms, siteId with
  | Some p, Some (String _ _ as site) => negb (canAccessSite p site)
  | _, _ => false
  end.

Definition clampNumber (value : option Z) (fallback max : Z) : Z :=
  match value with None => fallback | Some n => Z.min (Z.max 1 n) max end.

Section operations.
Context (localTime : string -> Z -> option (Z * Z))
        (webauthn_verify : ApprovalProof -> string -> AuthenticatorDevice -> option (bool * Z))
        (verifyMobileSignature : string -> string -> string -> bool)
        (sha256hex : string -> string)
        (row_check : Elevation -> bool).

(** What a matched rule decides. *)
Definition ruleDecision (m : PamRuleMatch) : IngestDecision :=
  match rm_verdict m with
  | auto_approve => D_auto_approved (src_rule m)
      (default PAM_DEFAULT_AUTO_APPROVAL_DURATION_MINUTES (rm_approvalDurationMinutes m))
  | auto_deny => D_denied (src_rule m)
  | ignore => D_ignored m
  | require_approval => D_pending
  end.

(** The decisioning block: the policy bridge, then the rules, then the org's
    default; any query that throws leaves the request pending. *)
Definition ingestDecision (env : PamEnv) (device : Device) (p : ElevationRequestPayload) (observedAt : Z)
  : option PamBridgeVerdict * IngestDecision :=
  match pv_policies env (dv_id device) with
  | None => (None, D_pending)
  | Some policies =>
      let verdict := matchPoliciesAgainst (bridgeInput p) policies in
      let policyId := (fun h => lp_id (hit_policy h)) <$> bv_binding verdict in
      (Some verdict,
       match bv_match verdict with
       | Some blocklist => D_denied (src_policy policyId)
       | Some allowlist => D_auto_approved (src_policy policyId) PAM_DEFAULT_AUTO_APPROVAL_DURATION_MINUTES
       | _ =>
           match pv_rules env with
           | None => D_pending
           | Some table =>
               let orgRules := rulesFor (dv_orgId device) (dv_siteId device) table in
               let named := existsb (fun r => bool_decide (ru_matchSignerGroupId r <> None)) orgRules in
               match (if named then pv_groups env else Some []) with
               | None => D_pending
               | Some groups =>
                   match evaluatePamRules localTime (signerGroupsFor (dv_orgId device) orgRules groups) orgRules
                           (ingestCandidate p observedAt) with
                   | Some m => ruleDecision m
                   | None =>
                       match pv_config env with
                       | None => D_pending
                       | Some cfg => if bool_decide (cfg !! dv_orgId device = Some u_auto_deny)
                                     then D_denied src_default else D_pending
                       end
                   end
               end
           end
       end)
  end.

Definition decisionStatus (d : IngestDecision) : ElevationStatus :=
  match d with
  | D_auto_approved _ _ => el_auto_approved
  | D_denied _ => el_denied
  | _ => el_pending
  end.

Definition denialReasonFor (src : DecisionSource) : string :=
  match src with
  | src_policy _ => "Blocked by software policy"
  | src_default => "Blocked by org default (no matching policy or rule)"
  | src_rule m => "Blocked by PAM rule " ++ String quote_char (rm_ruleName m) ++ String quote_char EmptyString
  end.

(** A new row: the columns of its life that an insert sets. *)
Definition new_elevation (id : string) (c : ElevationContent) (st : ElevationStatus)
    (approvedAt expiresAt : option Z) (denialReason : option string) (now : Z) : Elevation :=
  {| el_id := id; el_content := c; el_status := st; el_approvedByUserId := None; el_approvedAt := approvedAt;
     el_expiresAt := expiresAt; el_deniedByUserId := None; el_denialReason := denialReason;
     el_expiredAt := None; el_revokedAt := None; el_revokedByUserId := None; el_revokedReason := None;
     el_updatedAt := now; el_decidedAssuranceLevel := None; el_decidedVia := None;
     el_authenticatorDeviceId := None |}.

Definition decision_source (d : IngestDecision) : option DecisionSource :=
  match d with D_auto_approved src _ | D_denied src => Some src | _ => None end.

Definition ingestContent (device : Device) (p : ElevationRequestPayload) (observedAt : Z) (d : IngestDecision)
  : ElevationContent :=
  {| ec_orgId := dv_orgId device; ec_siteId := dv_siteId device; ec_deviceId := dv_id device;
     ec_flowType := uac_intercept; ec_subjectUserId := None; ec_subjectUsername := pl_subject_username p;
     ec_reason := "UAC consent UI observed for " ++ pl_target_executable_path p;
     ec_targetExecutablePath := Some (pl_target_executable_path p);
     ec_targetExecutableHash := pl_target_executable_hash p;
     ec_targetExecutableSigner := pl_target_executable_signer p; ec_requestedAt := observedAt;
     ec_softwarePolicyMatchId := match decision_source d with Some (src_policy i) => i | _ => None end;
     ec_executionId := None; ec_toolName := None; ec_actionDigest := None; ec_riskTier := None;
     ec_commandLine := pl_command_line p;
     ec_pamRuleId := match decision_source d with Some (src_rule m) => Some (rm_ruleId m) | _ => None end |}.

Definition ingestRow (id : string) (device : Device) (p : ElevationRequestPayload) (observedAt now : Z)
    (d : IngestDecision) : Elevation :=
  new_elevation id (ingestContent device p observedAt d) (decisionStatus d)
    (match d with D_auto_approved _ _ => Some now | _ => None end)
    (match d with D_auto_approved _ m => Some (now + m * 60000) | _ => None end)
    (match d with D_denied src => Some (denialReasonFor src) | _ => None end) now.

(** The audit chain of an ingest: the request, the automatic decision, and one
    entry per audit-mode policy hit. *)
Definition ingestAudit (row : Elevation) (verdict : option PamBridgeVerdict) (d : IngestDecision)
    (observedAt now : Z) : list ElevationAudit :=
  auditRow row ev_requested by_end_user None observedAt
  :: match d with
     | D_auto_approved _ _ => [auditRow row ev_auto_approved by_policy None now]
     | D_denied _ => [auditRow row ev_denied by_policy None now]
     | _ => []
     end
  ++ ((fun _ => auditRow row ev_evidence_attached by_policy None now)
        <$> match verdict with Some v => bv_auditMatches v | None => [] end).

(** Insert a row: its id must be new and the CHECK constraints must hold. *)
Definition insertElevation (row : Elevation) (s : Store) : option Store :=
  if bool_decide (st_elevations s !! el_id row = None) && row_check row
  then Some (with_elevations (fun m => <[el_id row := row]> m) s) else None.

Definition with_audit (fails : bool) (rows : list ElevationAudit) (s : Store) : Store :=
  if fails then s else with_elevationAudit (fun l => l ++ rows) s.

(** *** The fan-out to phones *)

Definition elevationVerdictToRiskTier (verdict : option PamBridgeVerdict) (hasSigner : bool) : RiskTier :=
  match (match verdict with Some v => bv_match v | None => None end) with
  | Some blocklist => critical
  | Some allowlist => low
  | _ => if hasSigner then medium else high
  end.

Fixpoint slashes (s : string) : string :=
  match s with
  | EmptyString => EmptyString
  | String c s' => String (if bool_decide (c = "\"%char) then "/"%char else c) (slashes s')
  end.

Definition pathBasename (p : string) : string :=
  default EmptyString (last (List.filter (fun x => truthy (Some x)) (str_split "/" (slashes p)))).

Definition json_or_null (s : option string) : json := match s with Some s => JStr s | None => JNull end.

Definition mobileApproval (elevationId : string) (device : Device) (p : ElevationRequestPayload)
    (verdict : option PamBridgeVerdict) (expiresAt : Z) (id userId : string) : ApprovalRequest :=
  let exeName := pathBasename (pl_target_executable_path p) in
  {| ap_id := id; ap_userId := userId; ap_requestingClientLabel := "BL4CK Agent";
     ap_actionLabel := if truthy (Some exeName) then "Elevate " ++ exeName else "Run as administrator";
     ap_actionToolName := "uac_intercept";
     ap_actionArguments :=
       [("targetExecutablePath", JStr (pl_target_executable_path p));
        ("targetExecutableSigner", json_or_null (pl_target_executable_signer p));
        ("targetExecutableHash", json_or_null (pl_target_executable_hash p));
        ("parentImage", json_or_null (pl_parent_image p));
        ("commandLine", json_or_null (pl_command_line p));
        ("reason", JStr ("UAC consent UI observed for " ++ pl_target_executable_path p));
        ("subjectUsername", JStr (pl_subject_username p));
        ("deviceHostname", JStr (dv_hostname device))];
     ap_riskTier := elevationVerdictToRiskTier verdict (truthy (pl_target_executable_signer p));
     ap_riskSummary := pl_subject_username p ++ " requested admin to run " ++ pl_target_executable_path p
       ++ match pl_target_executable_signer p with
          | Some (String _ _ as signer) => " (signed by " ++ signer ++ ")"
          | _ => " (unsigned)"
          end ++ ".";
     ap_status := ap_pending; ap_expiresAt := expiresAt; ap_decidedAt := None; ap_decisionReason := None;
     ap_decidedAssuranceLevel := None; ap_decidedVia := None; ap_authenticatorDeviceId := None;
     ap_executionId := None; ap_elevationRequestId := Some elevationId; ap_intentId := None;
     ap_boundArgumentDigest := None |}.

(** One row per approver; [rowIds] are the random ids, in approver order. *)
Definition fanOutMobileApprovals (env : PamEnv) (elevationId : string) (device : Device)
    (p : ElevationRequestPayload) (verdict : option PamBridgeVerdict) (expiresAt : Z) (rowIds : list string)
    (s : Store) : Store :=
  let approvers := resolveElevationApprovers (pv_dir env) (pv_mobile env) (dv_orgId device) in
  with_approvals (fun t =>
    fold_left (fun t '(id, u) =>
        if pv_insertFails env u || negb (bool_decide (t !! id = None)) then t
        else <[id := mobileApproval elevationId device p verdict expiresAt id u]> t)
      (zip rowIds approvers) t) s.

Definition step_ingest (env : PamEnv) (r : IngestRequest) (s : Store) : Store * (PamProc + PamResponse) :=
  let p := ir_payload r in
  if match ir_contentLength r with Some n => ELEVATION_REQUEST_MAX_BODY_BYTES <? n | None => false end
  then (s, inr A_too_large)
  else if negb (elevationRequestSchema p) then (s, inr A_invalid)
  else if negb (ir_rateAllowed r) then (s, inr A_rate_limited)
  else match List.find (fun d => bool_decide (dv_agentId d = ir_agentId r)) (pv_devices env) with
       | None => (s, inr A_not_found)
       | Some device =>
           let observedAt := default (pv_js env) (pl_observed_at p) in
           let '(verdict, d) := ingestDecision env device p observedAt in
           match d with
           | D_ignored _ => (s, inr A_ignored)
           | _ => (s, inl (MInsert r device observedAt verdict d))
           end
       end.

Definition step_insert (env : PamEnv) (r : IngestRequest) (device : Device) (observedAt : Z)
    (verdict : option PamBridgeVerdict) (d : IngestDecision) (s : Store) : Store * (PamProc + PamResponse) :=
  let row := ingestRow (ir_newId r) device (ir_payload r) observedAt (pv_js env) d in
  if pv_fail env then (s, inr A_server_error)
  else match insertElevation row s with
       | None => (s, inr A_server_error)
       | Some s1 =>
           let s2 := with_audit (pv_auditFail env) (ingestAudit row verdict d observedAt (pv_js env)) s1 in
           match d with
           | D_pending => (s2, inl (MFanOut r device verdict (pv_js env + PAM_MOBILE_APPROVAL_TTL_MINUTES * 60000)))
           | _ => (s2, inr (A_created (ir_newId r) (el_status row)))
           end
       end.

Definition step_fanOut (env : PamEnv) (r : IngestRequest) (device : Device) (verdict : option PamBridgeVerdict)
    (expiresAt : Z) (s : Store) : Store * (PamProc + PamResponse) :=
  (if pv_fail env then s
   else fanOutMobileApprovals env (ir_newId r) device (ir_payload r) verdict expiresAt (ir_rowIds r) s,
   inr (A_created (ir_newId r) el_pending)).

(** ** The mirror onto a tool execution *)

Definition mirrorElevationDecisionToExecution (executionId : string) (approved_ : bool) (userId : option string)
    (now : Z) (s : Store) : Store * bool :=
  match st_executions s !! executionId with
  | Some x =>
      if bool_decide (te_status x = "pending"%string) then
        let x' := {| te_id := te_id x; te_status := if approved_ then "approved" else "rejected";
                     te_approvedBy := if approved_ then userId else te_approvedBy x;
                     te_approvedAt := if approved_ then Some now else te_approvedAt x;
                     te_completedAt := te_completedAt x; te_errorMessage := te_errorMessage x |} in
        (with_executions (fun m => <[executionId := x']> m) s, true)
      else (s, false)
  | None => (s, false)
  end.

(** ** Respond *)

(** A transaction that rolls back keeps what the ladder did in Redis and undoes
    its device rows. *)
Definition rollback (a' : AuthState) (s : Store) : Store :=
  with_auth {| as_redisUp := as_redisUp a'; as_redis := as_redis a'; as_devices := as_devices (st_auth s) |} s.

Definition respondInput (env : PamEnv) (q : RespondRequest) (row : Elevation) : AssuranceInput :=
  {| ai_approvalId := rq_id q; ai_userId := auth_userId (rq_auth q);
     ai_riskTier := elevationRiskTierToName (ec_riskTier (el_content row));
     ai_proof := rq_proof q; ai_isApprove := rq_approve q; ai_reauthVerified := rq_reauthVerified q;
     ai_policy := pv_assurance env |}.

Definition is_self_approval (q : RespondRequest) (row : Elevation) : bool :=
  rq_approve q && truthy (ec_subjectUserId (el_content row))
  && bool_decide (ec_subjectUserId (el_content row) = Some (auth_userId (rq_auth q))).

Definition respondCas (env : PamEnv) (q : RespondRequest) (row : Elevation) (d : AssuranceDecision)
    (a' : AuthState) (s : Store) : Store * PamResponse :=
  if negb (bool_decide (el_status row = el_pending)) then (with_auth a' s, A_conflict (el_status row))
  else
    let userId := auth_userId (rq_auth q) in
    let row' := decide_elevation (rq_approve q) userId (rq_reason q)
                  (default DEFAULT_APPROVAL_DURATION_MINUTES (rq_durationMinutes q)) (pv_js env) d row in
    if negb (row_check row') || pv_fail env then (rollback a' s, A_server_error)
    else
      let audit := auditRow row (if rq_approve q then ev_approved else ev_denied) by_technician (Some userId) (pv_js env) in
      let s1 := commit_elevation row' [audit] (with_auth a' s) in
      match ec_flowType (el_content row), ec_executionId (el_content row) with
      | ai_tool_action, Some (String _ _ as executionId) =>
          let '(s2, flipped) := mirrorElevationDecisionToExecution executionId (rq_approve q)
                                  (if rq_approve q then Some userId else None) (pv_js env) s1 in
          if flipped then (s2, A_ok (el_status row')) else (rollback a' s, A_stale_execution)
      | _, _ => (s1, A_ok (el_status row'))
      end.

Definition step_respond (env : PamEnv) (q : RespondRequest) (s : Store) : Store * (PamProc + PamResponse) :=
  if negb (pamGate (rq_perms q) (rq_mfa q)) then (s, inr A_forbidden)
  else if negb (respondSchema q) then (s, inr A_invalid)
  else match st_elevations s !! rq_id q with
       | None => (s, inr A_not_found)
       | Some row =>
           let c := el_content row in
           if negb (auth_canAccessOrg (rq_auth q) (ec_orgId c)) then (s, inr A_not_found)
           else if siteRefused (rq_perms q) (ec_siteId c) then (s, inr A_forbidden)
           else if is_self_approval q row then (s, inr A_self_approval)
           else match assertApprovalAssurance webauthn_verify verifyMobileSignature (pv_pick env) (pv_js env)
                        (respondInput env q row) (st_auth s) with
                | (a', Err e) => (rollback a' s, inr (A_assurance e))
                | (a', Ok d) =>
                    match respondCas env q row d a' s with
                    | (s', A_ok st) =>
                        if bool_decide (ec_flowType c = uac_intercept)
                        then (s', inl (MRespondSiblings (rq_id q) st)) else (s', inr (A_ok st))
                    | (s', r) => (s', inr r)
                    end
                end
       end.

Definition step_respondSiblings (env : PamEnv) (elevationId : string) (st : ElevationStatus) (s : Store)
  : Store * (PamProc + PamResponse) :=
  (if pv_fail env then s
   else with_approvals (sql_update (fun a => bool_decide (ap_elevationRequestId a = Some elevationId)
                                             && bool_decide (ap_status a = ap_pending))
                          (set_approval_status ap_expired None)) s,
   inr (A_ok st)).

(** ** Revoke *)

Definition set_revoked (userId reason : string) (now : Z) (e : Elevation) : Elevation :=
  {| el_id := el_id e; el_content := el_content e; el_status := el_revoked;
     el_approvedByUserId := el_approvedByUserId e; el_approvedAt := el_approvedAt e;
     el_expiresAt := el_expiresAt e; el_deniedByUserId := el_deniedByUserId e;
     el_denialReason := el_denialReason e; el_expiredAt := el_expiredAt e; el_revokedAt := Some now;
     el_revokedByUserId := Some userId; el_revokedReason := Some reason; el_updatedAt := now;
     el_decidedAssuranceLevel := el_decidedAssuranceLevel e; el_decidedVia := el_decidedVia e;
     el_authenticatorDeviceId := el_authenticatorDeviceId e |}.

(** The transaction of both revoke paths. *)
Definition revokeTx (env : PamEnv) (actor : AuditActor) (userId reason : string) (row : Elevation) (s : Store)
  : Store * PamResponse :=
  if negb (bool_decide (el_status row ∈ ACTIVE_STATUSES)) then (s, A_conflict (el_status row))
  else
    let row' := set_revoked userId reason (pv_js env) row in
    if negb (row_check row') || pv_fail env then (s, A_server_error)
    else (commit_elevation row' [auditRow row ev_revoked actor (Some userId) (pv_js env)] s, A_ok el_revoked).

Definition step_revoke (env : PamEnv) (q : RevokeRequest) (s : Store) : Store * (PamProc + PamResponse) :=
  if negb (pamGate (vq_perms q) (vq_mfa q)) then (s, inr A_forbidden)
  else if negb (revokeSchema (vq_reason q)) then (s, inr A_invalid)
  else match st_elevations s !! vq_id q with
       | None => (s, inr A_not_found)
       | Some row =>
           let c := el_content row in
           if negb (auth_canAccessOrg (vq_auth q) (ec_orgId c)) then (s, inr A_not_found)
           else if siteRefused (vq_perms q) (ec_siteId c) then (s, inr A_forbidden)
           else let '(s', r) := revokeTx env by_technician (auth_userId (vq_auth q)) (vq_reason q) row s in
                (s', inr r)
       end.

(** The [revoke_elevation] tool. *)
Definition step_revokeTool (env : PamEnv) (auth : AuthContext) (id reason : string) (s : Store)
  : Store * (PamProc + PamResponse) :=
  if negb (truthy (Some id) && truthy (Some reason)) then (s, inr A_invalid)
  else match st_elevations s !! id with
       | None => (s, inr A_not_found)
       | Some row =>
           let c := el_content row in
           if negb (auth_canAccessOrg auth (ec_orgId c)) then (s, inr A_not_found)
           else if truthy (ec_siteId c) && negb (siteAccessCheck (auth_allowedSiteIds auth) (ec_siteId c))
           then (s, inr A_not_found)
           else let '(s', r) := revokeTx env by_system (auth_userId auth) reason row s in (s', inr r)
       end.

(** ** Actuation *)

Definition ensureOrgAccess (auth : AuthContext) (orgId : string) : bool :=
  match auth_scope auth with
  | organization => bool_decide (auth_orgId auth = Some orgId)
  | partner => auth_canAccessOrg auth orgId
  | system => true
  end.

Definition canAccessDeviceSite (device : Device) (perms : option UserPermissions) : bool :=
  match perms with
  | None => false
  | Some p =>
      match up_allowedSiteIds p with
      | None => true
      | Some _ => match dv_siteId device with Some site => canAccessSite p site | None => false end
      end
  end.

Definition actuateSchema (q : ActuateRequest) : bool :=
  match aq_timeoutMs q with Some t => (1000 <=? t) && (t <=? 60000) | None => true end.

Definition set_actuating (now : Z) (e : Elevation) : Elevation :=
  {| el_id := el_id e; el_content := el_content e; el_status := el_actuating;
     el_approvedByUserId := el_approvedByUserId e; el_approvedAt := el_approvedAt e;
     el_expiresAt := el_expiresAt e; el_deniedByUserId := el_deniedByUserId e;
     el_denialReason := el_denialReason e; el_expiredAt := el_expiredAt e; el_revokedAt := el_revokedAt e;
     el_revokedByUserId := el_revokedByUserId e; el_revokedReason := el_revokedReason e; el_updatedAt := now;
     el_decidedAssuranceLevel := el_decidedAssuranceLevel e; el_decidedVia := el_decidedVia e;
     el_authenticatorDeviceId := el_authenticatorDeviceId e |}.

Definition actuateCommand (q : ActuateRequest) (row : Elevation) : ActuateCommand :=
  let c := el_content row in
  {| ac_deviceId := aq_deviceId q; ac_elevationRequestId := aq_elevationRequestId q;
     ac_timeoutMs := default 8000 (aq_timeoutMs q); ac_targetPath := default EmptyString (ec_targetExecutablePath c);
     ac_commandLine := default EmptyString (ec_commandLine c); ac_subjectUsername := ec_subjectUsername c;
     ac_createdBy := auth_userId (aq_auth q) |}.

(** The transaction: refuse another status and log it, else swap approved for
    actuating and queue the command. *)
Definition actuateTx (env : PamEnv) (q : ActuateRequest) (device : Device) (s : Store) : Store * PamResponse :=
  match st_elevations s !! aq_elevationRequestId q with
  | None => (s, A_not_found)
  | Some row =>
      let c := el_content row in
      if negb (bool_decide (ec_deviceId c = aq_deviceId q) && bool_decide (ec_orgId c = dv_orgId device))
      then (s, A_not_found)
      else if pv_fail env then (s, A_server_error)
      else
        let audit := auditRow row ev_command_executed by_technician (Some (auth_userId (aq_auth q))) (pv_js env) in
        if negb (bool_decide (el_status row = el_approved)) then
          (with_elevationAudit (fun l => l ++ [audit]) s, A_wrong_status (el_status row))
        else
          let row' := set_actuating (pv_js env) row in
          if negb (row_check row') then (s, A_server_error)
          else (with_deviceCommands (fun l => l ++ [actuateCommand q row]) (commit_elevation row' [audit] s), A_command)
  end.

Definition step_actuate (env : PamEnv) (q : ActuateRequest) (s : Store) : Store * (PamProc + PamResponse) :=
  if negb (pamGate (aq_perms q) (aq_mfa q)) then (s, inr A_forbidden)
  else if negb (actuateSchema q) then (s, inr A_invalid)
  else match List.find (fun d => bool_decide (dv_id d = aq_deviceId q)) (pv_devices env) with
       | None => (s, inr A_not_found)
       | Some device =>
           if negb (ensureOrgAccess (aq_auth q) (dv_orgId device)) then (s, inr A_not_found)
           else if negb (canAccessDeviceSite device (aq_perms q)) then (s, inr A_forbidden)
           else if bool_decide (dv_status device = "decommissioned"%string) then (s, inr A_decommissioned)
           else let '(s', r) := actuateTx env q device s in (s', inr r)
       end.

(** ** Tool actions of the helper *)

Definition toolActionVerdict (m : option PamRuleMatch) : ToolActionDecision :=
  match rm_verdict <$> m with
  | Some auto_approve => ta_auto_approved
  | Some auto_deny => ta_denied
  | _ => ta_pending
  end.

Definition toolActionRow (a : ToolActionParams) (siteId : option string) (m : option PamRuleMatch) (now : Z)
  : Elevation :=
  let d := toolActionVerdict m in
  let minutes := default 15 (match m with Some x => rm_approvalDurationMinutes x | None => None end) in
  new_elevation (ta_newId a)
    {| ec_orgId := ta_orgId a; ec_siteId := siteId; ec_deviceId := ta_deviceId a; ec_flowType := ai_tool_action;
       ec_subjectUserId := None; ec_subjectUsername := ta_subjectUsername a;
       ec_reason := "Breeze Helper requested AI tool '" ++ ta_toolName a ++ "' (tier " ++ dec (ta_riskTier a) ++ ")";
       ec_targetExecutablePath := None; ec_targetExecutableHash := None; ec_targetExecutableSigner := None;
       ec_requestedAt := now; ec_softwarePolicyMatchId := None; ec_executionId := Some (ta_executionId a);
       ec_toolName := Some (ta_toolName a); ec_actionDigest := Some (sha256hex (stringify (JObj (ta_toolInput a))));
       ec_riskTier := Some (ta_riskTier a); ec_commandLine := None; ec_pamRuleId := rm_ruleId <$> m |}
    (match d with ta_auto_approved => el_auto_approved | ta_denied => el_denied | ta_pending => el_pending end)
    (match d with ta_auto_approved => Some now | _ => None end)
    (match d with ta_auto_approved => Some (now + minutes * 60000) | _ => None end)
    (match d, m with ta_denied, Some x => Some ("Denied by PAM rule '" ++ rm_ruleName x ++ "'")%string | _, _ => None end)
    now.

Definition toolActionAudit (row : Elevation) (d : ToolActionDecision) (now : Z) : list ElevationAudit :=
  auditRow row ev_requested by_system None now
  :: match d with
     | ta_auto_approved => [auditRow row ev_auto_approved by_policy None now]
     | ta_denied => [auditRow row ev_denied by_policy None now]
     | ta_pending => []
     end.

(** [decideHelperToolAction(params)]: any error rolls back and answers pending. *)
Definition decideHelperToolAction (env : PamEnv) (a : ToolActionParams) (s : Store)
  : Store * ToolActionDecision :=
  let siteId := match List.find (fun d => bool_decide (dv_id d = ta_deviceId a)) (pv_devices env) with
                | Some d => dv_siteId d | None => None end in
  match pv_rules env with
  | None => (s, ta_pending)
  | Some table =>
      let m := evaluatePamToolActionRules localTime (rulesFor (ta_orgId a) siteId table)
                 {| ca_path := None; ca_hash := None; ca_signer := None; ca_thumbprint := None;
                    ca_username := ta_subjectUsername a; ca_parentImage := None; ca_commandLine := None;
                    ca_adGroups := None; ca_toolName := Some (ta_toolName a);
                    ca_riskTier := Some (ta_riskTier a); ca_at := pv_js env |} in
      let d := toolActionVerdict m in
      let row := toolActionRow a siteId m (pv_js env) in
      if pv_fail env then (s, ta_pending)
      else match insertElevation row s with
           | None => (s, ta_pending)
           | Some s1 =>
               let s2 := with_audit (pv_auditFail env) (toolActionAudit row d (pv_js env)) s1 in
               match d with
               | ta_pending => (s2, d)
               | _ => ((mirrorElevationDecisionToExecution (ta_executionId a)
                          (match d with ta_auto_approved => true | _ => false end) None (pv_js env) s2).1, d)
               end
           end
  end.

(** ** The [request_elevation] tool *)

(** [resolveDecision(ruleMatch, requestedDurationMinutes)], as the new row's
    status and expiry. *)
Definition effectiveDurationMinutes (m : option PamRuleMatch) (requested : Z) : Z :=
  clampNumber (Some (default requested (match m with Some x => rm_approvalDurationMinutes x | None => None end)))
    requested 480.

Definition requestToolRow (i : RequestElevationInput) (device : Device) (m : option PamRuleMatch) (now : Z)
  : Elevation :=
  let minutes := effectiveDurationMinutes m (clampNumber (re_durationMinutes i) DEFAULT_DURATION_MINUTES 480) in
  let d := toolActionVerdict m in
  new_elevation (re_newId i)
    {| ec_orgId := dv_orgId device; ec_siteId := dv_siteId device; ec_deviceId := dv_id device;
       ec_flowType := tech_jit_admin; ec_subjectUserId := Some (auth_userId (re_auth i));
       ec_subjectUsername := re_subjectUsername i; ec_reason := re_reason i;
       ec_targetExecutablePath := None; ec_targetExecutableHash := None; ec_targetExecutableSigner := None;
       ec_requestedAt := now; ec_softwarePolicyMatchId := None; ec_executionId := None;
       ec_toolName := None; ec_actionDigest := None; ec_riskTier := None; ec_commandLine := None;
       ec_pamRuleId := rm_ruleId <$> m |}
    (match d with ta_auto_approved => el_auto_approved | ta_denied => el_denied | ta_pending => el_pending end)
    (match d with ta_auto_approved => Some now | _ => None end)
    (match d with ta_auto_approved => Some (now + minutes * 60000) | _ => None end)
    (match d, m with
     | ta_denied, Some x => Some (denialReasonFor (src_rule x))
     | _, _ => None end) now.

Definition requestToolAudit (row : Elevation) (userId : string) (d : ToolActionDecision) (now : Z) : list ElevationAudit :=
  auditRow row ev_requested by_system (Some userId) now
  :: match d with
     | ta_auto_approved => [auditRow row ev_auto_approved by_policy None now]
     | ta_denied => [auditRow row ev_denied by_policy None now]
     | ta_pending => []
     end.

Definition step_requestTool (env : PamEnv) (i : RequestElevationInput) (s : Store) : Store * (PamProc + PamResponse) :=
  if negb (truthy (Some (re_deviceId i)) && truthy (Some (re_subjectUsername i)) && truthy (Some (re_reason i)))
  then (s, inr A_invalid)
  else match List.find (fun d => bool_decide (dv_id d = re_deviceId i) && auth_canAccessOrg (re_auth i) (dv_orgId d)
                                 && bool_decide (dr_organizations (pv_dir env) !! dv_orgId d <> None)) (pv_devices env) with
       | None => (s, inr A_not_found)
       | Some device =>
           if negb (siteAccessCheck (auth_allowedSiteIds (re_auth i)) (dv_siteId device)) then (s, inr A_not_found)
           else match pv_rules env with
                | None => (s, inr A_server_error)
                | Some table =>
                    let m := evaluatePamRules localTime ∅ (rulesFor (dv_orgId device) (dv_siteId device) table)
                               {| ca_path := None; ca_hash := None; ca_signer := None; ca_thumbprint := None;
                                  ca_username := re_subjectUsername i; ca_parentImage := None; ca_commandLine := None;
                                  ca_adGroups := re_subjectAdGroups i; ca_toolName := None; ca_riskTier := None;
                                  ca_at := pv_js env |} in
                    let row := requestToolRow i device m (pv_js env) in
                    if pv_fail env then (s, inr A_server_error)
                    else match insertElevation row s with
                         | None => (s, inr A_server_error)
                         | Some s1 =>
                             (with_audit (pv_auditFail env)
                                (requestToolAudit row (auth_userId (re_auth i)) (toolActionVerdict m) (pv_js env)) s1,
                              inr (if pv_auditFail env then A_server_error else A_created (re_newId i) (el_status row)))
                         end
                end
       end.

(** ** Remediation suggestions *)

Definition remediationApprovalRiskTier (riskTier : string) : option Z :=
  if bool_decide (riskTier = "high"%string) then Some 3
  else if bool_decide (riskTier = "critical"%string) then Some 4 else None.

Definition requiresExecutionApproval (riskTier : string) : bool :=
  bool_decide (riskTier = "high"%string) || bool_decide (riskTier = "critical"%string).

Definition remediationRow (m : RemediationElevation) (now : Z) : Elevation :=
  new_elevation (me_newId m)
    {| ec_orgId := me_orgId m; ec_siteId := me_siteId m; ec_deviceId := me_deviceId m;
       ec_flowType := tech_jit_admin; ec_subjectUserId := Some (me_userId m);
       ec_subjectUsername := me_userLabel m;
       ec_reason := "Remediation suggestion " ++ String quote_char (me_title m)
                    ++ String quote_char " requires approval before script execution";
       ec_targetExecutablePath := None; ec_targetExecutableHash := None; ec_targetExecutableSigner := None;
       ec_requestedAt := now; ec_softwarePolicyMatchId := None; ec_executionId := None;
       ec_toolName := None; ec_actionDigest := None; ec_riskTier := remediationApprovalRiskTier (me_riskTier m);
       ec_commandLine := None; ec_pamRuleId := None |}
    el_pending None None None now.

Definition step_remediation (env : PamEnv) (m : RemediationElevation) (s : Store) : Store * (PamProc + PamResponse) :=
  if negb (requiresExecutionApproval (me_riskTier m)) then (s, inr A_invalid)
  else let row := remediationRow m (pv_js env) in
       if pv_fail env then (s, inr A_server_error)
       else match insertElevation row s with
            | None => (s, inr A_server_error)
            | Some s1 => (with_audit (pv_auditFail env)
                            [auditRow row ev_requested by_technician (Some (me_userId m)) (pv_js env)] s1,
                          inr (if pv_auditFail env then A_server_error else A_created (me_newId m) el_pending))
            end.

(** [validateRemediationExecutionApproval]: [None] lets the script run. *)
Inductive ExecutionRefusal : Type := NoElevation | ElevationNotFound | OtherDevice | NotApproved | WindowPassed.

Definition validateRemediationExecutionApproval (riskTier orgId deviceId : string) (elevationRequestId : option string)
    (now : Z) (s : Store) : option ExecutionRefusal :=
  if negb (requiresExecutionApproval riskTier) then None
  else match elevationRequestId with
       | Some (String _ _ as id) =>
           match st_elevations s !! id with
           | Some e =>
               if negb (bool_decide (ec_orgId (el_content e) = orgId)) then Some ElevationNotFound
               else if negb (bool_decide (ec_deviceId (el_content e) = deviceId)) then Some OtherDevice
               else if negb (bool_decide (el_status e ∈ ACTIVE_STATUSES)) then Some NotApproved
               else match el_expiresAt e with
                    | Some t => if t <? now then Some WindowPassed else None
                    | None => None
                    end
           | None => Some ElevationNotFound
           end
       | _ => Some NoElevation
       end.

(** ** The reapers *)

Definition MAX_PER_RUN : nat := 500.

Definition set_expired (dbNow : Z) (e : Elevation) : Elevation :=
  {| el_id := el_id e; el_content := el_content e; el_status := el_expired;
     el_approvedByUserId := el_approvedByUserId e; el_approvedAt := el_approvedAt e;
     el_expiresAt := el_expiresAt e; el_deniedByUserId := el_deniedByUserId e;
     el_denialReason := el_denialReason e; el_expiredAt := Some dbNow; el_revokedAt := el_revokedAt e;
     el_revokedByUserId := el_revokedByUserId e; el_revokedReason := el_revokedReason e; el_updatedAt := dbNow;
     el_decidedAssuranceLevel := el_decidedAssuranceLevel e; el_decidedVia := el_decidedVia e;
     el_authenticatorDeviceId := el_authenticatorDeviceId e |}.

(** One run: the due rows, oldest first, that no other transaction holds. *)
Definition reapElevations (key : Elevation -> Z) (is_due recheck : Elevation -> bool) (dbNow jsNow : Z)
    (auditFail : bool) (locked : list string) (s : Store) : Store :=
  let ids := due key is_due locked MAX_PER_RUN (st_elevations s) in
  let hit e := bool_decide (el_id e ∈ ids) && recheck e in
  with_audit auditFail
    ((fun e => auditRow e ev_expired by_system None jsNow) <$> sql_select hit (st_elevations s))
    (with_elevations (sql_update hit (set_expired dbNow)) s).

Definition window_due (dbNow : Z) (e : Elevation) : bool :=
  bool_decide (el_status e ∈ ACTIVE_STATUSES)
  && match el_expiresAt e with Some t => t <? dbNow | None => false end.

Definition enforceElevationExpiry (dbNow jsNow : Z) (auditFail : bool) (locked : list string) (s : Store) : Store :=
  reapElevations (fun e => default 0 (el_expiresAt e)) (window_due dbNow)
    (fun e => bool_decide (el_status e ∈ ACTIVE_STATUSES)) dbNow jsNow auditFail locked s.

Definition stalePendingTtl (configured : Z) : Z := if 0 <? configured then configured else 15.

Definition stale_pending (dbNow ttl : Z) (e : Elevation) : bool :=
  bool_decide (el_status e = el_pending) && (ec_requestedAt (el_content e) <? dbNow - ttl * 60000).

Definition expireStaleRequests (dbNow jsNow configured : Z) (auditFail : bool) (locked : list string) (s : Store) : Store :=
  reapElevations (fun e => ec_requestedAt (el_content e)) (stale_pending dbNow (stalePendingTtl configured))
    (fun e => bool_decide (el_status e = el_pending)) dbNow jsNow auditFail locked s.

(** ** One step of an operation *)

Definition pam_step (env : PamEnv) (p : PamProc) (s : Store) : Store * (PamProc + PamResponse) :=
  match p with
  | MIngest r => step_ingest env r s
  | MInsert r dv at_ v d => step_insert env r dv at_ v d s
  | MFanOut r dv v exp => step_fanOut env r dv v exp s
  | MRespond q => step_respond env q s
  | MRespondSiblings id st => step_respondSiblings env id st s
  | MRevoke q => step_revoke env q s
  | MRevokeTool auth id reason => step_revokeTool env auth id reason s
  | MActuate q => step_actuate env q s
  | MHelper a => let '(s', d) := decideHelperToolAction env a s in (s', inr (A_decided d))
  | MRequestTool i => step_requestTool env i s
  | MRemediation m => step_remediation env m s
  end.

End operations.
