(* ===== verification/ElevationSystem.v ===== *)
(** * Elevations and approvals, running together

    The operations of Elevations beside the handlers, jobs and crashes of
    IntentSystem, on one store: a transition system, what one step can do to an
    elevation, and the invariant of every reachable state. *)

From stdpp Require Import base gmap strings list option sorting.
From Stdlib Require Import ZArith Lia Ascii.
From S2P Require Import Prelude Json PamGlob PamRules Assurance Tenant.
From S2P Require Import Permissions Auth Guardrails SecretCrypto ResultSecrets IntentStore.
From S2P Require Import IntentRelease IntentCreate IntentHandlers Elevations IntentInvariants IntentSystem.

(** ** The life of one elevation *)

Inductive el_edge : ElevationStatus -> ElevationStatus -> Prop :=
| ee_approve : el_edge el_pending el_approved
| ee_deny : el_edge el_pending el_denied
| ee_stale : el_edge el_pending el_expired
| ee_actuate : el_edge el_approved el_actuating
| ee_revoke st : st ∈ ACTIVE_STATUSES -> el_edge st el_revoked
| ee_expire st : st ∈ ACTIVE_STATUSES -> el_edge st el_expired.

Lemma active_cases st : st ∈ ACTIVE_STATUSES <-> st = el_approved \/ st = el_auto_approved \/ st = el_actuating.
Proof. unfold ACTIVE_STATUSES. set_solver. Qed.

Definition el_terminal (st : ElevationStatus) : bool := bool_decide (st ∈ [el_denied; el_expired; el_revoked]).

Lemma el_edge_not_terminal st st' : el_edge st st' -> el_terminal st = false.
Proof. unfold el_terminal, ACTIVE_STATUSES. destruct 1; apply bool_decide_eq_false; set_solver. Qed.

Definition subject (e : Elevation) : option string := ec_subjectUserId (el_content e).

(** An audit row of [e]'s org records the event and the user. *)
Definition audited (s : Store) (e : Elevation) (ev : AuditEvent) (u : string) : Prop :=
  exists a, a ∈ st_elevationAudit s /\ ea_orgId a = ec_orgId (el_content e) /\ ea_elevationRequestId a = el_id e
            /\ ea_eventType a = ev /\ ea_actorUserId a = Some u.

(** What a step ending in [s'] may do to a row. *)
Inductive el_move (s' : Store) (e : Elevation) : Elevation -> Prop :=
| mv_same : el_move s' e e
| mv_decide approve u reason minutes now d :
    el_status e = el_pending -> 1 <= minutes <= MAX_APPROVAL_DURATION_MINUTES ->
    (approve = true -> u <> EmptyString -> subject e <> Some u) ->
    audited s' e (if approve then ev_approved else ev_denied) u ->
    el_move s' e (decide_elevation approve u reason minutes now d e)
| mv_revoke u reason now :
    el_status e ∈ ACTIVE_STATUSES -> audited s' e ev_revoked u -> el_move s' e (set_revoked u reason now e)
| mv_actuate u now :
    el_status e = el_approved -> audited s' e ev_command_executed u -> el_move s' e (set_actuating now e)
| mv_expire now :
    el_status e = el_pending \/ el_status e ∈ ACTIVE_STATUSES -> el_move s' e (set_expired now e).

Lemma el_move_frozen s' e e' : el_move s' e e' -> el_id e' = el_id e /\ el_content e' = el_content e.
Proof. by destruct 1. Qed.

Lemma el_move_edge s' e e' : el_move s' e e' -> el_status e' = el_status e \/ el_edge (el_status e) (el_status e').
Proof.
  destruct 1 as [|a ? ? ? ? ? Hs|? ? ? Hs|? ? Hs|? [Hs|Hs]]; [by left|right..]; cbn.
  - rewrite Hs. destruct a; constructor.
  - by constructor.
  - rewrite Hs. constructor.
  - rewrite Hs. constructor.
  - by constructor.
Qed.

(** ** Rows *)

Definition is_some {A} (o : option A) : Prop := exists x, o = Some x.

Record el_ok (s : Store) (e : Elevation) : Prop := {
  ok_uac : ec_flowType (el_content e) = uac_intercept -> subject e = None;
  ok_fresh : el_status e = el_pending ->
    el_approvedByUserId e = None /\ el_approvedAt e = None /\ el_expiresAt e = None
    /\ el_deniedByUserId e = None /\ el_revokedByUserId e = None;
  (* a grant has a window, open for a day at most *)
  ok_window : el_status e ∈ ACTIVE_STATUSES -> exists from till,
    el_approvedAt e = Some from /\ el_expiresAt e = Some till
    /\ from < till <= from + MAX_APPROVAL_DURATION_MINUTES * 60000;
  ok_approver : el_status e = el_approved \/ el_status e = el_actuating -> is_some (el_approvedByUserId e);
  ok_auto : el_status e = el_auto_approved ->
    el_approvedByUserId e = None
    /\ (is_some (ec_softwarePolicyMatchId (el_content e)) \/ is_some (ec_pamRuleId (el_content e)));
  ok_four_eyes u : el_approvedByUserId e = Some u -> u <> EmptyString -> subject e <> Some u;
  ok_audit_approved u : el_approvedByUserId e = Some u -> audited s e ev_approved u;
  ok_audit_denied u : el_deniedByUserId e = Some u -> audited s e ev_denied u;
  ok_audit_revoked u : el_revokedByUserId e = Some u -> audited s e ev_revoked u;
}.

(** What an insert may write. *)
Record el_born (e : Elevation) : Prop := {
  bo_uac : ec_flowType (el_content e) = uac_intercept -> subject e = None;
  bo_life : el_approvedByUserId e = None /\ el_deniedByUserId e = None /\ el_revokedByUserId e = None;
  bo_status : el_status e = el_pending /\ el_approvedAt e = None /\ el_expiresAt e = None
    \/ el_status e = el_denied
    \/ el_status e = el_auto_approved
       /\ (is_some (ec_softwarePolicyMatchId (el_content e)) \/ is_some (ec_pamRuleId (el_content e)))
       /\ exists from minutes, el_approvedAt e = Some from /\ el_expiresAt e = Some (from + minutes * 60000)
            /\ 1 <= minutes <= MAX_APPROVAL_DURATION_MINUTES;
}.

(** ** One step *)

(** The approval row [a] asks about an agent's report, when it asks about an
    elevation at all. *)
Definition link_ok (s : Store) (a : ApprovalRequest) : Prop :=
  forall id, ap_elevationRequestId a = Some id -> id <> EmptyString ->
    exists e, st_elevations s !! id = Some e /\ ec_flowType (el_content e) = uac_intercept.

(** A command was queued for the approved row it left actuating. *)
Definition new_command (s s' : Store) (c : ActuateCommand) : Prop :=
  exists k e now u, st_elevations s !! k = Some e /\ el_status e = el_approved
    /\ st_elevations s' !! k = Some (set_actuating now e) /\ ac_elevationRequestId c = k
    /\ ac_deviceId c = ec_deviceId (el_content e)
    /\ ac_targetPath c = default EmptyString (ec_targetExecutablePath (el_content e))
    /\ ac_createdBy c = u /\ audited s' e ev_command_executed u.

Record elev_step (s s' : Store) : Prop := {
  es_rows k e : st_elevations s !! k = Some e -> exists e', st_elevations s' !! k = Some e' /\ el_move s' e e';
  es_born k e : st_elevations s !! k = None -> st_elevations s' !! k = Some e -> el_id e = k /\ el_born e;
  es_audit a : a ∈ st_elevationAudit s -> a ∈ st_elevationAudit s';
  es_commands : st_deviceCommands s' = st_deviceCommands s
    \/ exists c, st_deviceCommands s' = st_deviceCommands s ++ [c] /\ new_command s s' c;
  es_links k a : st_approvals s' !! k = Some a ->
    ap_elevationRequestId a = None
    \/ (exists a0, st_approvals s !! k = Some a0 /\ ap_elevationRequestId a0 = ap_elevationRequestId a)
    \/ link_ok s a;
}.

Definition command_of (k : string) (c : ActuateCommand) : bool := bool_decide (ac_elevationRequestId c = k).

Record elev_inv (s : Store) : Prop := {
  ei_rows k e : st_elevations s !! k = Some e -> el_id e = k /\ el_ok s e;
  ei_links k a : st_approvals s !! k = Some a -> link_ok s a;
  ei_once k : (count_if (command_of k) (st_deviceCommands s) <= 1)%nat;
  ei_commands c : c ∈ st_deviceCommands s ->
    exists e, st_elevations s !! ac_elevationRequestId c = Some e
      /\ el_status e ∈ [el_actuating; el_revoked; el_expired]
      /\ ac_deviceId c = ec_deviceId (el_content e)
      /\ ac_targetPath c = default EmptyString (ec_targetExecutablePath (el_content e))
      /\ is_some (el_approvedByUserId e) /\ audited s e ev_command_executed (ac_createdBy c);
}.

(** *** Preservation *)

Lemma audited_frozen s e e' ev u :
  el_id e' = el_id e -> el_content e' = el_content e -> audited s e ev u -> audited s e' ev u.
Proof. intros Hi Hc (a & ?). exists a. by rewrite Hi, Hc. Qed.

Lemma audited_step s s' e ev u : elev_step s s' -> audited s e ev u -> audited s' e ev u.
Proof. intros Hs (a & Ha & ?). exists a. split; [by apply (es_audit _ _ Hs)|done]. Qed.

Lemma el_born_ok s e : el_born e -> el_ok s e.
Proof.
  intros [Hu (Ha & Hd & Hr) Hst]. unfold ACTIVE_STATUSES.
  split; rewrite ?Ha, ?Hd, ?Hr; try done.
  - intros Hp. destruct Hst as [(? & ? & ?)|[?|(? & _)]]; congruence || done.
  - intros Hact. destruct Hst as [(E & _)|[E|(_ & _ & from & m & Hf & He & Hm)]]; [rewrite E in Hact; set_solver..|].
    exists from, (from + m * 60000). split_and!; [done|done|lia|lia].
  - intros [E|E]; exfalso; destruct Hst as [(? & _)|[?|(? & _)]]; congruence.
  - intros E. destruct Hst as [(? & _)|[?|(_ & Hm & _)]]; [congruence..|]. auto.
Qed.

Lemma el_move_ok s s' e e' : elev_step s s' -> el_ok s e -> el_move s' e e' -> el_ok s' e'.
Proof.
  intros Hs [Hu Hf Hw Hap Hau H4 Aa Ad Ar] Hm.
  assert (Haud : forall ev u, audited s e ev u -> audited s' e' ev u).
  { intros ev u Ha. destruct (el_move_frozen _ _ _ Hm). by eapply audited_frozen, audited_step. }
  assert (Hhere : forall ev u, audited s' e ev u -> audited s' e' ev u).
  { intros ev u Ha. destruct (el_move_frozen _ _ _ Hm). by eapply audited_frozen. }
  rewrite active_cases in Hw.
  destruct Hm as [|a u reason m now d Hst Hmin Hself Hnow|u reason now Hst Hnow|u now Hst Hnow|now Hst];
    (split; [exact Hu|..]; cbn; [try (intros E; congruence)|..]); try done; auto.
  all: rewrite ?active_cases; try (intros E; decompose [or] E; congruence).
  - done.
  - intros E. exfalso. destruct a; congruence.
  - destruct a; [|intros E; decompose [or] E; congruence]. intros _. exists now, (now + m * 60000). split_and!; [done|done|lia|lia].
  - destruct a; [by eexists|intros [E|E]; discriminate].
  - intros E. exfalso. destruct a; congruence.
  - destruct a; [|by auto]. intros u' [= <-]. by apply Hself.
  - destruct a; [|by auto]. intros u' [= <-]. by apply Hhere.
  - destruct a; [by auto|]. intros u' [= <-]. by apply Hhere.
  - intros u' [= <-]. by apply Hhere.
Qed.

Lemma link_ok_step s s' a : elev_step s s' -> link_ok s a -> link_ok s' a.
Proof.
  intros Hs Hl id Hid Hne. destruct (Hl id Hid Hne) as (e & He & Hf).
  destruct (es_rows _ _ Hs _ _ He) as (e' & He' & Hm). exists e'. split; [done|].
  by rewrite (proj2 (el_move_frozen _ _ _ Hm)).
Qed.

Lemma el_edge_after st st' :
  st ∈ [el_actuating; el_revoked; el_expired] -> st' = st \/ el_edge st st' ->
  st' ∈ [el_actuating; el_revoked; el_expired].
Proof. intros Hst [->|He]; [done|]. destruct He; set_solver. Qed.

Lemma el_move_approver s' e e' :
  el_move s' e e' -> el_status e <> el_pending -> el_approvedByUserId e' = el_approvedByUserId e.
Proof. by destruct 1. Qed.

Lemma elev_step_commands s s' : elev_inv s -> elev_step s s' -> forall c, c ∈ st_deviceCommands s ->
  exists e, st_elevations s' !! ac_elevationRequestId c = Some e
      /\ el_status e ∈ [el_actuating; el_revoked; el_expired]
      /\ ac_deviceId c = ec_deviceId (el_content e)
      /\ ac_targetPath c = default EmptyString (ec_targetExecutablePath (el_content e))
      /\ is_some (el_approvedByUserId e) /\ audited s' e ev_command_executed (ac_createdBy c).
Proof.
  intros Hi Hs c Hc. destruct (ei_commands _ Hi _ Hc) as (e & He & Hst & Hd & Ht & Ha & Hau).
  destruct (es_rows _ _ Hs _ _ He) as (e' & He' & Hm). destruct (el_move_frozen _ _ _ Hm) as [Hid Hc'].
  exists e'. rewrite Hc'. split_and!; [done| |done|done| |].
  - by eapply el_edge_after, el_move_edge.
  - rewrite (el_move_approver _ _ _ Hm); [done|]. intros E. rewrite E in Hst. set_solver.
  - by eapply audited_frozen, audited_step.
Qed.

Lemma elev_step_inv s s' : elev_inv s -> elev_step s s' -> elev_inv s'.
Proof.
  intros Hi Hs. split.
  - intros k e' He'. destruct (st_elevations s !! k) as [e|] eqn:E.
    + destruct (ei_rows _ Hi _ _ E) as [Hid Hok]. destruct (es_rows _ _ Hs _ _ E) as (e2 & E2 & Hm). simplify_eq.
      destruct (el_move_frozen _ _ _ Hm). split; [congruence|by eapply el_move_ok].
    + destruct (es_born _ _ Hs _ _ E He'). eauto using el_born_ok.
  - intros k a Ha. destruct (es_links _ _ Hs _ _ Ha) as [E|[(a0 & Ha0 & E)|Hl]].
    + intros id Hid. congruence.
    + pose proof (link_ok_step _ _ _ Hs (ei_links _ Hi _ _ Ha0)) as Hl. intros id Hid. rewrite <- E in Hid. by apply Hl.
    + by eapply link_ok_step.
  - intros k. destruct (es_commands _ _ Hs) as [->|(c & -> & k0 & e & now & u & He & Hst & _ & Hk & _)]; [by apply Hi|].
    rewrite count_if_app, count_if_cons. cbn.
    destruct (command_of k c) eqn:Ek; [|pose proof (ei_once _ Hi k); lia].
    apply bool_decide_eq_true in Ek. rewrite count_if_zero; [cbn; lia|].
    intros x Hx. apply bool_decide_eq_false. intros Hxk.
    destruct (ei_commands _ Hi _ Hx) as (ex & Hex & Hexst & _). simplify_eq. rewrite Hxk, He in Hex. simplify_eq.
    rewrite Hst in Hexst. set_solver.
  - intros c Hc. destruct (es_commands _ _ Hs) as [E|(c' & E & k & e & now & u & He & Hst & He' & Hk & Hd & Ht & Hu & Ha)].
    + rewrite E in Hc. by eapply elev_step_commands.
    + rewrite E, elem_of_app, list_elem_of_singleton in Hc. destruct Hc as [Hc| ->]; [by eapply elev_step_commands|].
      subst. exists (set_actuating now e). split_and!; cbn; try done; [set_solver|].
      apply (ok_approver _ _ (proj2 (ei_rows _ Hi _ _ He))). by left.
Qed.

(** *** How a step is shown to be one *)

Definition links_kept (s s' : Store) : Prop :=
  forall k a, st_approvals s' !! k = Some a ->
    ap_elevationRequestId a = None
    \/ (exists a0, st_approvals s !! k = Some a0 /\ ap_elevationRequestId a0 = ap_elevationRequestId a)
    \/ link_ok s a.

Lemma links_same s s' : st_approvals s' = st_approvals s -> links_kept s s'.
Proof. intros E k a Ha. rewrite E in Ha. eauto. Qed.

Lemma links_update s s' p f :
  st_approvals s' = sql_update p f (st_approvals s) ->
  (forall a, ap_elevationRequestId (f a) = ap_elevationRequestId a) -> links_kept s s'.
Proof.
  intros E Hf k a Ha. rewrite E in Ha. apply sql_update_Some in Ha as (a0 & Ha0 & [[-> _]|[-> _]]); eauto.
Qed.

(** The part of the store elevations live in. *)
Definition pam_view (s : Store) : gmap string Elevation * list ElevationAudit * list ActuateCommand :=
  (st_elevations s, st_elevationAudit s, st_deviceCommands s).

Lemma elev_quiet s s' : pam_view s' = pam_view s -> links_kept s s' -> elev_step s s'.
Proof.
  unfold pam_view. intros [= E1 E2 E3] Hl. split; try done.
  - intros k e He. exists e. rewrite E1. split; [done|constructor].
  - intros k e Hn He. congruence.
  - intros a. by rewrite E2.
  - by left.
Qed.

Lemma elev_refl s : elev_step s s.
Proof. by apply elev_quiet; [|apply links_same]. Qed.

(** A branch that answers without a write. *)
Ltac refused := simplify_eq; apply elev_refl.

Lemma elev_one s s' k e e' rows :
  st_elevations s !! k = Some e -> el_move s' e e' ->
  pam_view s' = (<[k := e']> (st_elevations s), st_elevationAudit s ++ rows, st_deviceCommands s) ->
  st_approvals s' = st_approvals s -> elev_step s s'.
Proof.
  unfold pam_view. intros He Hm [= E1 E2 E3] Ea. split.
  - intros k0 e0 H0. rewrite E1. destruct (decide (k0 = k)) as [->|Hne].
    + simplify_eq. exists e'. by rewrite lookup_insert_eq.
    + exists e0. rewrite lookup_insert_ne by done. split; [done|constructor].
  - intros k0 e0 Hn H0. rewrite E1, lookup_insert_ne in H0 by congruence. congruence.
  - intros a Ha. rewrite E2. set_solver.
  - by left.
  - by apply links_same.
Qed.

Lemma elev_new s s' row rows :
  st_elevations s !! el_id row = None -> el_born row ->
  pam_view s' = (<[el_id row := row]> (st_elevations s), st_elevationAudit s ++ rows, st_deviceCommands s) ->
  st_approvals s' = st_approvals s -> elev_step s s'.
Proof.
  unfold pam_view. intros Hn Hb [= E1 E2 E3] Ea. split.
  - intros k e He. exists e. rewrite E1, lookup_insert_ne by congruence. split; [done|constructor].
  - intros k e Hk He. rewrite E1 in He. apply lookup_insert_Some in He as [[<- <-]|[_ He]]; [done|congruence].
  - intros a Ha. rewrite E2. set_solver.
  - by left.
  - by apply links_same.
Qed.

(** An update of many rows. *)
Lemma elev_many s s' p f rows :
  (forall e, p e = true -> el_move s' e (f e)) ->
  pam_view s' = (sql_update p f (st_elevations s), st_elevationAudit s ++ rows, st_deviceCommands s) ->
  st_approvals s' = st_approvals s -> elev_step s s'.
Proof.
  unfold pam_view. intros Hm [= E1 E2 E3] Ea. split.
  - intros k e He. rewrite E1, (sql_update_lookup_Some _ _ _ _ _ He). eexists. split; [done|].
    destruct (p e) eqn:E; [by apply Hm|constructor].
  - intros k e Hn He. rewrite E1, sql_update_lookup_None in He by done. done.
  - intros a Ha. rewrite E2. set_solver.
  - by left.
  - by apply links_same.
Qed.

Lemma audited_last s e e0 ev actor u now l :
  st_elevationAudit s = l ++ [auditRow e0 ev actor (Some u) now] -> el_id e = el_id e0 -> el_content e = el_content e0 ->
  audited s e ev u.
Proof.
  intros E Hi Hc. exists (auditRow e0 ev actor (Some u) now). rewrite E, Hi, Hc. split; [set_solver|done].
Qed.

(** *** The approval side *)

Section core.
Context (digest : string -> string) (toolDescription : string -> option string)
        (JSON_parse : string -> option json)
        (sha256 : string -> bytes)
        (enc : bytes -> bytes -> option string -> bytes -> bytes * bytes)
        (decr : bytes -> bytes -> option string -> bytes -> bytes -> option bytes)
        (webauthn_verify : ApprovalProof -> string -> AuthenticatorDevice -> option (bool * Z))
        (verifyMobileSignature : string -> string -> string -> bool).
#[local] Abbreviation proc_step :=
  (proc_step digest toolDescription JSON_parse sha256 enc decr webauthn_verify verifyMobileSignature).

Definition core_quiet (s s' : Store) : Prop := pam_view s' = pam_view s /\ links_kept s s'.

Lemma transitionIntent_quiet id from to_ p req now s : core_quiet s (transitionIntent id from to_ p req now s).1.
Proof. unfold transitionIntent. repeat case_match; (split; [done|by apply links_same]). Qed.

Lemma transitionIntent_quiet_eq id from to_ p req now s s' ok :
  transitionIntent id from to_ p req now s = (s', ok) -> core_quiet s s'.
Proof. intros E. pose proof (transitionIntent_quiet id from to_ p req now s) as H. by rewrite E in H. Qed.

Lemma burn_quiet id m s : core_quiet s (burnTemporaryPassword id m s).1.
Proof. unfold burnTemporaryPassword. repeat case_match; (split; [done|by apply links_same]). Qed.

Lemma burn_quiet_eq id m s s' ok : burnTemporaryPassword id m s = (s', ok) -> core_quiet s s'.
Proof. intros E. pose proof (burn_quiet id m s) as H. by rewrite E in H. Qed.

Lemma effect_quiet s s' e : core_quiet s s' -> core_quiet s (with_effect e s').
Proof. done. Qed.

Lemma fanIn_quiet q id keep now d s : core_quiet s (fanInDecision q id keep now d s).1.
Proof.
  unfold fanInDecision. destruct (transitionIntent _ _ _ _ _ _ _) as [s1 [|]] eqn:Et; [|split; [done|by apply links_same]].
  apply transitionIntent_true in Et as (? & _ & _ & _ & ->).
  case_match; (split; [done|eapply links_update; [done|by destruct a]]).
Qed.

Lemma fanInReport_quiet u id keep now s : core_quiet s (fanInReport u id keep now s).1.
Proof.
  unfold fanInReport. destruct (transitionIntent _ _ _ _ _ _ _) as [s1 [|]] eqn:Et; [|split; [done|by apply links_same]].
  apply transitionIntent_true in Et as (? & _ & _ & _ & ->). split; [done|eapply links_update; [done|by destruct a]].
Qed.

Lemma commitIntent_quiet p newId rowIds now pick fail s s' r :
  commitIntent p newId rowIds now pick fail s = (s', r) -> core_quiet s s'.
Proof.
  intros Hc. pose proof (commitIntent_cases _ _ _ _ _ _ _ _ _ Hc) as Hcases. split.
  - unfold commitIntent in Hc. repeat case_match; by simplify_eq.
  - destruct Hcases as [[-> _]|(f & _ & _ & _ & _ & _ & _ & _ & _ & _ & _ & Ea & _)]; [by apply links_same|].
    intros k a Ha. rewrite Ea in Ha.
    destruct (decide (k ∈ (zip rowIds (fanOutUsers p)).*1)) as [Hin|Hn].
    + left. by apply insertApprovals_Some in Ha as (u & _ & ->).
    + rewrite insertApprovals_None in Ha by done. eauto.
Qed.

Lemma set_quiet s k a a' :
  st_approvals s !! k = Some a -> ap_elevationRequestId a' = ap_elevationRequestId a ->
  core_quiet s (with_approvals (fun m => <[k := a']> m) s).
Proof.
  intros Ha E. split; [done|]. intros k0 a0 H0. cbn in H0.
  apply lookup_insert_Some in H0 as [[<- <-]|[_ H0]]; eauto.
Qed.

(** The one step of the approval side that moves an elevation: the mirror of a
    decision on a phone. *)
Definition mirrored (env : Env) (p : Proc) (s s' : Store) : Prop :=
  exists q linked d a id e, p = PDecideElevation q linked d a
    /\ ap_elevationRequestId a = Some id /\ id <> EmptyString
    /\ st_elevations s !! id = Some e /\ el_status e = el_pending
    /\ elevation_checks (decide_elevation (dq_approve q) (auth_userId (dq_auth q)) (dq_reason q)
                           PAM_ELEVATION_GRANT_MINUTES (e_js env) d e) = true
    /\ s' = commit_elevation
              (decide_elevation (dq_approve q) (auth_userId (dq_auth q)) (dq_reason q) PAM_ELEVATION_GRANT_MINUTES (e_js env) d e)
              [auditRow e (if dq_approve q then ev_approved else ev_denied) by_technician
                 (Some (auth_userId (dq_auth q))) (e_js env)] s.

Lemma proc_step_pam env p s s' r :
  proc_step env p s = (s', r) -> core_quiet s s' \/ mirrored env p s s'.
Proof.
  intros Hs. destruct p; step_cases Hs;
    try (left; first
      [ split; [done|by apply links_same]
      | eapply set_quiet; [eassumption|by destruct a]
      | split; [done|eapply links_update; [done|by destruct a]]
      | apply fanIn_quiet | apply fanInReport_quiet | apply burn_quiet | apply transitionIntent_quiet
      | eapply transitionIntent_quiet_eq; eassumption | eapply burn_quiet_eq; eassumption
      | apply effect_quiet; eapply burn_quiet_eq; eassumption
      | eapply commitIntent_quiet; eassumption ]; fail).
  all: right; bool_hyps; exists q, linked, d, updated, (String a s1), e; split_and!; try done;
    by match goal with H : dq_approve _ = _ |- _ => rewrite H end.
Qed.

(** What an approval process in flight knows about elevations. *)
Definition core_proc_inv (s : Store) (p : Proc) : Prop :=
  match p with
  | PDecideExecution _ _ _ a | PDecideElevation _ _ _ a => link_ok s a
  | _ => True
  end.

Lemma core_proc_inv_step s s' p : elev_step s s' -> core_proc_inv s p -> core_proc_inv s' p.
Proof. intros Hs. destruct p; cbn; try done; by apply link_ok_step. Qed.

Lemma proc_step_elev env p s s' r :
  elev_inv s -> core_proc_inv s p -> proc_step env p s = (s', r) -> elev_step s s'.
Proof.
  intros Hi Hp Hs. destruct (proc_step_pam _ _ _ _ _ Hs) as [[Hv Hl]|Hm]; [by apply elev_quiet|].
  destruct Hm as (q & linked & d & a & id & e & -> & Hid & Hne & He & Hst & _ & ->).
  destruct (ei_rows _ Hi _ _ He) as [Hk Hok].
  eapply elev_one; [exact He| |unfold commit_elevation, pam_view; cbn; by rewrite Hk|done].
  constructor; [done|done| |eapply audited_last; done].
  destruct (Hp _ Hid Hne) as (e0 & He0 & Hflow). simplify_eq. by rewrite (ok_uac _ _ Hok Hflow).
Qed.

Lemma proc_step_core_inv env p s s' p' :
  elev_inv s -> core_proc_inv s p -> proc_step env p s = (s', inl p') -> core_proc_inv s' p'.
Proof.
  intros Hi Hp Hs. pose proof (proc_step_elev _ _ _ _ _ Hi Hp Hs) as Hstep.
  eapply core_proc_inv_step; [done|]. clear Hstep.
  destruct p; step_cases Hs; try done; unfold core_proc_inv in *; try done.
  all: intros id Hid; eapply (ei_links _ Hi); [eassumption|by destruct a].
Qed.

(** The background jobs; rows that ask about an elevation come from its fan-out. *)
Definition core_job_ok (j : Job) : bool :=
  match j with RequestApproval a => bool_decide (ap_elevationRequestId a = None) | _ => true end.

Lemma job_elev j s : core_job_ok j = true -> elev_step s (run_job j s).
Proof.
  intros Hj. destruct j; cbn [run_job]; try (apply elev_quiet; [done|];
    first [by apply links_same | by eapply links_update; [done|by destruct a]]).
  cbn in Hj. bool_hyps. case_match; [|apply elev_refl]. apply elev_quiet; [done|].
  intros k b Hb. cbn in Hb. apply lookup_insert_Some in Hb as [[<- <-]|[_ Hb]]; eauto.
Qed.
End core.

(** *** The elevation side *)

(** Durations in the rule table are as the rule routes validate them. *)
Definition duration_ok (m : option Z) : bool :=
  match m with Some n => (1 <=? n) && (n <=? MAX_APPROVAL_DURATION_MINUTES) | None => true end.

Definition env_ok (env : PamEnv) : bool :=
  match pv_rules env with
  | Some rules => forallb (fun r => duration_ok (ru_approvalDurationMinutes r)) rules
  | None => true
  end.

Definition minutes_ok (n : Z) : Prop := 1 <= n <= MAX_APPROVAL_DURATION_MINUTES.

Lemma evaluatePamRules_Some lt groups rules c m :
  evaluatePamRules lt groups rules c = Some m -> exists r, r ∈ rules /\ m = toMatch r.
Proof.
  unfold evaluatePamRules. intros (r & Hf & ->)%fmap_Some. apply List.find_some in Hf as [Hin _].
  exists r. split; [|done]. apply list_elem_of_In in Hin. by rewrite merge_sort_Permutation in Hin.
Qed.

Lemma rulesFor_elem o site rules r : r ∈ rulesFor o site rules -> r ∈ rules.
Proof. unfold rulesFor. rewrite list_filter_elem. by intros []. Qed.

Lemma env_ok_rule env rules r :
  env_ok env = true -> pv_rules env = Some rules -> r ∈ rules -> duration_ok (ru_approvalDurationMinutes r) = true.
Proof.
  unfold env_ok. intros He Hr Hin. rewrite Hr, forallb_forall in He. apply He. by apply list_elem_of_In.
Qed.

Lemma duration_default d m : duration_ok m = true -> minutes_ok d -> minutes_ok (default d m).
Proof. unfold duration_ok, minutes_ok. destruct m; cbn; [intros; bool_hyps; lia|auto]. Qed.

Lemma clamp_ok v d : minutes_ok d -> minutes_ok (clampNumber v d 480).
Proof. unfold clampNumber, minutes_ok, MAX_APPROVAL_DURATION_MINUTES. destruct v; lia. Qed.

Lemma effective_ok m v : minutes_ok (effectiveDurationMinutes m (clampNumber v DEFAULT_DURATION_MINUTES 480)).
Proof.
  unfold effectiveDurationMinutes. apply clamp_ok, clamp_ok.
  unfold DEFAULT_DURATION_MINUTES, minutes_ok, MAX_APPROVAL_DURATION_MINUTES. lia.
Qed.

(** An automatic approval names its policy or rule, for a bounded time. *)
Definition decision_ok (d : IngestDecision) : Prop :=
  match d with
  | D_auto_approved (src_policy i) n => is_some i /\ minutes_ok n
  | D_auto_approved (src_rule _) n => minutes_ok n
  | D_auto_approved src_default _ => False
  | _ => True
  end.

Lemma minutes_15 : minutes_ok 15.
Proof. unfold minutes_ok, MAX_APPROVAL_DURATION_MINUTES. lia. Qed.
#[local] Hint Resolve minutes_15 duration_default clamp_ok env_ok_rule : bl4ck.

Lemma matchPoliciesAgainst_binding i ps md :
  bv_match (matchPoliciesAgainst i ps) = Some md -> is_some (bv_binding (matchPoliciesAgainst i ps)).
Proof. unfold matchPoliciesAgainst. repeat case_match; cbn; [by eexists..|done]. Qed.

Section pam.
Context (localTime : string -> Z -> option (Z * Z))
        (webauthn_verify : ApprovalProof -> string -> AuthenticatorDevice -> option (bool * Z))
        (verifyMobileSignature : string -> string -> string -> bool)
        (sha256hex : string -> string)
        (row_check : Elevation -> bool).
#[local] Abbreviation pam_step := (pam_step localTime webauthn_verify verifyMobileSignature sha256hex row_check).

Lemma ingestDecision_ok env dv p at_ : env_ok env = true -> decision_ok (ingestDecision localTime env dv p at_).2.
Proof.
  intros He. unfold ingestDecision. destruct (pv_policies env _) as [ps|]; [|done]. cbn [snd].
  destruct (bv_match _) as [[]|] eqn:Em; try (cbn; auto with bl4ck; fail).
  { cbn. split; [|apply minutes_15]. destruct (matchPoliciesAgainst_binding _ _ _ Em) as [h ->]. by eexists. }
  all: destruct (pv_rules env) as [rs|] eqn:Er; [|done].
  all: destruct (if existsb _ _ then _ else _) as [gs|]; [|done].
  all: destruct (evaluatePamRules _ _ _ _) as [m|] eqn:Ev; [|by repeat case_match].
  all: apply evaluatePamRules_Some in Ev as (r & Hr%rulesFor_elem & ->).
  all: unfold ruleDecision, toMatch; cbn; destruct (ru_verdict r); cbn; eauto with bl4ck.
Qed.

Lemma ingestRow_born id dv p at_ now d : decision_ok d -> el_born (ingestRow id dv p at_ now d).
Proof.
  intros Hd. split; [done|done|]. destruct d as [|src n|src|m]; cbn; auto.
  right. right. split; [done|]. split; [destruct src; cbn in *; [by left; apply Hd|by right; eexists|done]|].
  exists now, n. split_and!; try done; destruct src; cbn in Hd; unfold minutes_ok in *; naive_solver.
Qed.

Lemma toolActionRow_born a site m now :
  (forall x, m = Some x -> duration_ok (rm_approvalDurationMinutes x) = true) -> el_born (toolActionRow sha256hex a site m now).
Proof.
  intros Hm. split; [done|done|]. cbn. unfold toolActionVerdict. destruct m as [x|]; cbn; [|auto].
  destruct (rm_verdict x); cbn; auto. right. right. split; [done|]. split; [right; by eexists|].
  eexists _, _. split; [done|]. split; [done|]. apply (duration_default 15); auto with bl4ck.
Qed.

Lemma requestToolRow_born i dv m now :
  (forall x, m = Some x -> duration_ok (rm_approvalDurationMinutes x) = true) -> el_born (requestToolRow i dv m now).
Proof.
  intros Hm. split; [done|done|]. cbn. unfold toolActionVerdict. destruct m as [x|]; cbn; [|auto].
  destruct (rm_verdict x); cbn; auto. right. right. split; [done|]. split; [right; by eexists|].
  eexists _, _. split; [done|]. split; [done|]. exact (effective_ok (Some x) (re_durationMinutes i)).
Qed.

Lemma insertElevation_Some row s s1 :
  insertElevation row_check row s = Some s1 ->
  st_elevations s !! el_id row = None /\ s1 = with_elevations (fun m => <[el_id row := row]> m) s.
Proof. unfold insertElevation. intros H. case_match; bool_hyps; by simplify_eq. Qed.

(** An insert with its audit rows, and possibly a mirrored execution. *)
Lemma insert_elev row s s1 fails rows s' :
  insertElevation row_check row s = Some s1 -> el_born row ->
  pam_view s' = pam_view (with_audit fails rows s1) -> st_approvals s' = st_approvals s -> elev_step s s'.
Proof.
  intros (Hn & ->)%insertElevation_Some Hb Hv Ha.
  eapply (elev_new _ _ _ (if fails then [] else rows)); [done|done| |done].
  rewrite Hv. unfold with_audit. destruct fails; cbn; [by rewrite app_nil_r|done].
Qed.

Lemma mirror_view id b u now s :
  pam_view (mirrorElevationDecisionToExecution id b u now s).1 = pam_view s
  /\ st_approvals (mirrorElevationDecisionToExecution id b u now s).1 = st_approvals s.
Proof. unfold mirrorElevationDecisionToExecution. by repeat case_match. Qed.

Lemma fanOut_links env id dv p v exp rowIds s e :
  st_elevations s !! id = Some e -> ec_flowType (el_content e) = uac_intercept ->
  links_kept s (fanOutMobileApprovals env id dv p v exp rowIds s).
Proof.
  intros He Hf k a Ha. unfold fanOutMobileApprovals in Ha. cbn in Ha.
  assert (Hkept : st_approvals s !! k = Some a \/ link_ok s a); [|naive_solver].
  revert Ha. generalize (zip rowIds (resolveElevationApprovers (pv_dir env) (pv_mobile env) (dv_orgId dv))) as l.
  assert (Ht : forall k a, st_approvals s !! k = Some a -> st_approvals s !! k = Some a \/ link_ok s a) by auto.
  revert Ht. generalize (st_approvals s) at 1 3 as t. intros t Ht l. revert t Ht.
  induction l as [|[x u] l IH]; intros t Ht; [by apply Ht|]. cbn. apply IH. intros k0 a0. case_match; [by apply Ht|].
  intros [[<- <-]|[_ H0]]%lookup_insert_Some; [|by apply Ht]. right. intros id0 [= <-] _. eauto.
Qed.

Lemma respondCas_elev env q row d a' s s' r :
  elev_inv s -> st_elevations s !! rq_id q = Some row -> respondSchema q = true -> is_self_approval q row = false ->
  respondCas row_check env q row d a' s = (s', r) -> elev_step s s'.
Proof.
  intros Hi Hrow Hq Hself Hs. destruct (ei_rows _ Hi _ _ Hrow) as [Hid Hok]. unfold respondCas in Hs.
  assert (Hquiet : forall x, elev_step s (with_auth x s)) by (intros x; by apply elev_quiet; [|apply links_same]).
  destruct (negb (bool_decide (el_status row = el_pending))) eqn:Est; [by simplify_eq|]. bool_hyps.
  destruct (negb _ || _); [simplify_eq; apply Hquiet|].
  set (u := auth_userId (rq_auth q)) in *.
  set (row' := decide_elevation _ _ _ _ _ _ _) in *.
  set (audit := auditRow _ _ _ _ _) in *.
  set (s1 := commit_elevation row' [audit] (with_auth a' s)) in *.
  assert (Hmain : forall s2, pam_view s2 = pam_view s1 -> st_approvals s2 = st_approvals s1 -> elev_step s s2).
  { intros s2 Hv Ha. eapply elev_one; [exact Hrow| |rewrite Hv; unfold s1, commit_elevation, pam_view; cbn; by rewrite Hid|done].
    apply mv_decide; [done| | |].
    - unfold respondSchema, duration_ok in Hq. apply andb_true_iff in Hq as [_ Hq].
      by apply duration_default; [|apply minutes_15].
    - intros Hap Hne Hsub. unfold is_self_approval in Hself. unfold subject in Hsub. rewrite Hap, Hsub in Hself.
      fold u in Hself. rewrite bool_decide_eq_true_2 in Hself by done. by destruct u.
    - unfold pam_view in Hv. injection Hv as _ Hv _. eapply audited_last; [exact Hv|done|done]. }
  destruct (ec_flowType _); [simplify_eq; by apply Hmain..|].
  destruct (ec_executionId _) as [[|c0 x]|]; [simplify_eq; by apply Hmain| |simplify_eq; by apply Hmain].
  destruct (mirrorElevationDecisionToExecution _ _ _ _ _) as [s2 flipped] eqn:Em.
  destruct flipped; simplify_eq; [|apply Hquiet].
  pose proof (mirror_view (String c0 x) (rq_approve q) (if rq_approve q then Some u else None) (pv_js env) s1) as [Hv Ha].
  rewrite Em in Hv, Ha. by apply Hmain.
Qed.

Lemma revokeTx_elev env actor u reason row s s' r :
  elev_inv s -> st_elevations s !! el_id row = Some row ->
  revokeTx row_check env actor u reason row s = (s', r) -> elev_step s s'.
Proof.
  intros Hi Hrow Hs. unfold revokeTx in Hs.
  destruct (negb (bool_decide _)) eqn:Est; [refused|]. bool_hyps.
  destruct (negb _ || _); [refused|]. simplify_eq.
  eapply elev_one; [exact Hrow| |done|done]. apply mv_revoke; [done|]. eapply audited_last; done.
Qed.

Lemma actuateTx_elev env q dv s s' r :
  elev_inv s -> actuateTx row_check env q dv s = (s', r) -> elev_step s s'.
Proof.
  intros Hi Hs. unfold actuateTx in Hs.
  destruct (st_elevations s !! _) as [row|] eqn:Hrow; [|refused].
  destruct (ei_rows _ Hi _ _ Hrow) as [Hid Hok].
  destruct (negb (_ && _)) eqn:Eg; [refused|]. bool_hyps.
  destruct (pv_fail env); [refused|].
  destruct (negb (bool_decide (el_status row = _))) eqn:Est.
  { simplify_eq. eapply elev_many with (p := fun _ => false) (f := id); [done| |done].
    assert (E : sql_update (fun _ => false) id (st_elevations s) = st_elevations s).
    { apply map_eq. intros k. rewrite lookup_sql_update. by destruct (st_elevations s !! k). }
    unfold pam_view. cbn. by rewrite E. }
  bool_hyps. destruct (negb (row_check _)); [refused|]. simplify_eq.
  set (audit := auditRow _ _ _ _ _).
  assert (Haud : forall s2, st_elevationAudit s2 = st_elevationAudit s ++ [audit] ->
            audited s2 row ev_command_executed (auth_userId (aq_auth q))).
  { intros s2 E. eapply audited_last; [exact E|done|done]. }
  assert (Hone : elev_step s (commit_elevation (set_actuating (pv_js env) row) [audit] s)).
  { eapply elev_one; [exact Hrow| |unfold commit_elevation, pam_view; cbn; by rewrite Hid|done].
    by apply mv_actuate with (auth_userId (aq_auth q)); [|apply Haud]. }
  split; cbn.
  - intros k e He. destruct (es_rows _ _ Hone _ _ He) as (e' & He' & Hm). exists e'. split; [done|].
    destruct Hm; [constructor|by apply mv_decide|by apply mv_revoke|by eapply mv_actuate|by apply mv_expire].
  - apply (es_born _ _ Hone).
  - apply (es_audit _ _ Hone).
  - right. eexists. split; [done|]. exists (aq_elevationRequestId q), row, (pv_js env), (auth_userId (aq_auth q)).
    unfold commit_elevation. cbn. rewrite Hid, lookup_insert_eq. split_and!; try done. by apply Haud.
  - apply (es_links _ _ Hone).
Qed.

(** What an operation in flight knows. *)
Definition pam_proc_inv (s : Store) (p : PamProc) : Prop :=
  match p with
  | MInsert _ _ _ _ d => decision_ok d
  | MFanOut r _ _ _ => exists e, st_elevations s !! ir_newId r = Some e /\ ec_flowType (el_content e) = uac_intercept
  | _ => True
  end.

Lemma pam_proc_inv_step s s' p : elev_step s s' -> pam_proc_inv s p -> pam_proc_inv s' p.
Proof.
  intros Hs. destruct p; cbn; try done. intros (e & He & Hf).
  destruct (es_rows _ _ Hs _ _ He) as (e' & He' & Hm). exists e'. by rewrite (proj2 (el_move_frozen _ _ _ Hm)).
Qed.

Lemma helper_elev env a s s' d :
  env_ok env = true -> decideHelperToolAction localTime sha256hex row_check env a s = (s', d) -> elev_step s s'.
Proof.
  intros He Hs. unfold decideHelperToolAction in Hs.
  destruct (pv_rules env) as [table|] eqn:Er; [|refused].
  destruct (pv_fail env); [refused|].
  destruct (insertElevation _ _ _) as [s1|] eqn:Ei; [|refused].
  set (m := evaluatePamToolActionRules _ _ _) in *.
  assert (Hb : forall site, el_born (toolActionRow sha256hex a site m (pv_js env))).
  { intros site. apply toolActionRow_born. intros x Hx. unfold m, evaluatePamToolActionRules in Hx.
    apply evaluatePamRules_Some in Hx as (r & Hr & ->). rewrite list_filter_elem in Hr.
    destruct Hr as [Hr%rulesFor_elem _]. by eapply env_ok_rule. }
  pose proof (insertElevation_Some _ _ _ Ei) as [_ Es1].
  assert (Ha : forall f rows, st_approvals (with_audit f rows s1) = st_approvals s)
    by (subst s1; intros [] ?; done).
  destruct (toolActionVerdict m) in Hs; simplify_eq; (eapply insert_elev; [exact Ei|done|..]);
    try apply mirror_view; try (rewrite (proj2 (mirror_view _ _ _ _ _))); try done; apply Ha.
Qed.

Lemma requestTool_elev env i s s' r :
  env_ok env = true -> step_requestTool localTime row_check env i s = (s', r) -> elev_step s s'.
Proof.
  intros He Hs. unfold step_requestTool in Hs.
  destruct (negb (_ && _)); [refused|].
  destruct (List.find _ _) as [dv|]; [|refused].
  destruct (negb (siteAccessCheck _ _)); [refused|].
  destruct (pv_rules env) as [table|] eqn:Er; [|refused].
  destruct (pv_fail env); [refused|].
  destruct (insertElevation _ _ _) as [s1|] eqn:Ei; [|refused]. simplify_eq.
  pose proof (insertElevation_Some _ _ _ Ei) as [_ Es1].
  eapply insert_elev; [exact Ei| |done|subst; by unfold with_audit; case_match].
  apply requestToolRow_born. intros x (r0 & Hr%rulesFor_elem & ->)%evaluatePamRules_Some. by eapply env_ok_rule.
Qed.

Lemma insert_step_elev env r dv at_ v d s s' x :
  decision_ok d -> step_insert row_check env r dv at_ v d s = (s', x) -> elev_step s s'.
Proof.
  intros Hd Hs. unfold step_insert in Hs. destruct (pv_fail env); [refused|].
  destruct (insertElevation _ _ _) as [s1|] eqn:Ei; [|refused].
  pose proof (insertElevation_Some _ _ _ Ei) as [_ Es1].
  assert (Hs' : s' = with_audit (pv_auditFail env) (ingestAudit
    (ingestRow (ir_newId r) dv (ir_payload r) at_ (pv_js env) d) v d at_ (pv_js env)) s1)
    by (repeat case_match; by simplify_eq). clear Hs. subst s'.
  eapply insert_elev; [exact Ei|by apply ingestRow_born|done|subst; by unfold with_audit; case_match].
Qed.

Lemma respond_elev env q s s' r :
  elev_inv s -> step_respond webauthn_verify verifyMobileSignature row_check env q s = (s', r) -> elev_step s s'.
Proof.
  intros Hi Hs. unfold step_respond in Hs. destruct (negb (pamGate _ _)); [refused|].
  destruct (respondSchema q) eqn:Eq; cbn in Hs; [|refused].
  destruct (st_elevations s !! rq_id q) as [row|] eqn:Hrow; [|refused].
  destruct (negb (auth_canAccessOrg _ _)); [refused|].
  destruct (siteRefused _ _); [refused|].
  destruct (is_self_approval q row) eqn:Eself; [refused|].
  destruct (assertApprovalAssurance _ _ _ _ _ _) as [a' [d|e]];
    [|simplify_eq; by apply elev_quiet; [|apply links_same]].
  destruct (respondCas _ _ _ _ _ _ _) as [s2 r2] eqn:Ec.
  apply respondCas_elev in Ec; [|done..]. repeat case_match; by simplify_eq.
Qed.

Lemma revoke_elev env q s s' r : elev_inv s -> step_revoke row_check env q s = (s', r) -> elev_step s s'.
Proof.
  intros Hi Hs. unfold step_revoke in Hs. destruct (negb (pamGate _ _)); [refused|].
  destruct (negb (revokeSchema _)); [refused|].
  destruct (st_elevations s !! vq_id q) as [row|] eqn:Hrow; [|refused].
  repeat (case_match; [refused|]).
  destruct (revokeTx _ _ _ _ _ _ _) as [s2 r2] eqn:Ec. simplify_eq.
  eapply revokeTx_elev; [done| |exact Ec]. by rewrite (proj1 (ei_rows _ Hi _ _ Hrow)).
Qed.

Lemma revokeTool_elev env auth id reason s s' r :
  elev_inv s -> step_revokeTool row_check env auth id reason s = (s', r) -> elev_step s s'.
Proof.
  intros Hi Hs. unfold step_revokeTool in Hs. destruct (negb (_ && _)); [refused|].
  destruct (st_elevations s !! id) as [row|] eqn:Hrow; [|refused].
  repeat (case_match; [refused|]).
  destruct (revokeTx _ _ _ _ _ _ _) as [s2 r2] eqn:Ec. simplify_eq.
  eapply revokeTx_elev; [done| |exact Ec]. by rewrite (proj1 (ei_rows _ Hi _ _ Hrow)).
Qed.

Lemma actuate_elev env q s s' r : elev_inv s -> step_actuate row_check env q s = (s', r) -> elev_step s s'.
Proof.
  intros Hi Hs. unfold step_actuate in Hs. destruct (negb (pamGate _ _)); [refused|].
  destruct (negb (actuateSchema _)); [refused|].
  destruct (List.find _ _) as [dv|]; [|refused].
  repeat (case_match; [refused|]).
  destruct (actuateTx _ _ _ _ _) as [s2 r2] eqn:Ec. simplify_eq. by eapply actuateTx_elev.
Qed.

Lemma remediation_elev env m s s' r : step_remediation row_check env m s = (s', r) -> elev_step s s'.
Proof.
  intros Hs. unfold step_remediation in Hs. destruct (negb _); [refused|].
  destruct (pv_fail env); [refused|].
  destruct (insertElevation _ _ _) as [s1|] eqn:Ei; [|refused]. simplify_eq.
  pose proof (insertElevation_Some _ _ _ Ei) as [_ Es1].
  eapply insert_elev; [exact Ei| |done|subst; by unfold with_audit; case_match]. split; cbn; [done|done|auto].
Qed.

Lemma pam_step_elev env p s s' r :
  env_ok env = true -> elev_inv s -> pam_proc_inv s p -> pam_step env p s = (s', r) -> elev_step s s'.
Proof.
  intros He Hi Hp Hs. destruct p; cbn [Elevations.pam_step] in Hs.
  - unfold step_ingest in Hs. repeat case_match; refused.
  - by eapply insert_step_elev.
  - unfold step_fanOut in Hs. simplify_eq. destruct (pv_fail env); [apply elev_refl|].
    destruct Hp as (e & He' & Hf). apply elev_quiet; [done|by eapply fanOut_links].
  - by eapply respond_elev.
  - unfold step_respondSiblings in Hs. simplify_eq. destruct (pv_fail env); [apply elev_refl|].
    apply elev_quiet; [done|by eapply links_update; [done|by destruct a]].
  - by eapply revoke_elev.
  - by eapply revokeTool_elev.
  - by eapply actuate_elev.
  - destruct (decideHelperToolAction _ _ _ _ _ _) as [s2 d] eqn:Ec. simplify_eq. by eapply helper_elev.
  - by eapply requestTool_elev.
  - by eapply remediation_elev.
Qed.

Lemma pam_step_proc env p s s' p' :
  env_ok env = true -> elev_inv s -> pam_proc_inv s p -> pam_step env p s = (s', inl p') -> pam_proc_inv s' p'.
Proof.
  intros He Hi Hp Hs. destruct p; cbn [Elevations.pam_step] in Hs.
  - unfold step_ingest in Hs.
    pose proof (fun dv => ingestDecision_ok env dv (ir_payload r) (default (pv_js env) (pl_observed_at (ir_payload r))) He) as Hd.
    repeat case_match; simplify_eq;
      match goal with E : ingestDecision _ _ ?dv _ _ = _ |- _ => specialize (Hd dv); rewrite E in Hd end; exact Hd.
  - unfold step_insert in Hs. destruct (pv_fail env); [done|].
    destruct (insertElevation _ _ _) as [s1|] eqn:Ei; [|done].
    apply insertElevation_Some in Ei as [_ ->]. destruct d; simplify_eq. eexists.
    split; [unfold with_audit; destruct (pv_auditFail env); cbn; apply lookup_insert_eq|done].
  - done.
  - unfold step_respond in Hs. by repeat case_match; simplify_eq.
  - done.
  - unfold step_revoke in Hs. by repeat case_match; simplify_eq.
  - unfold step_revokeTool in Hs. by repeat case_match; simplify_eq.
  - unfold step_actuate in Hs. by repeat case_match; simplify_eq.
  - by case_match.
  - unfold step_requestTool in Hs. by repeat case_match; simplify_eq.
  - unfold step_remediation in Hs. by repeat case_match; simplify_eq.
Qed.

End pam.

(** *** The reapers *)

Lemma reap_elev key is_due recheck db js af locked s :
  (forall e, recheck e = true -> el_status e = el_pending \/ el_status e ∈ ACTIVE_STATUSES) ->
  elev_step s (reapElevations key is_due recheck db js af locked s).
Proof.
  intros Hr. unfold reapElevations.
  set (hit := fun e => _ && _). set (rows := _ <$> sql_select _ _).
  apply (elev_many _ _ hit (set_expired db) (if af then [] else rows)).
  - intros e He. apply mv_expire, Hr. unfold hit in He. by bool_hyps.
  - unfold with_audit. destruct af; [|done]. unfold pam_view. cbn. by rewrite app_nil_r.
  - unfold with_audit. by destruct af.
Qed.

Lemma enforce_elev db js af locked s : elev_step s (enforceElevationExpiry db js af locked s).
Proof. unfold enforceElevationExpiry. apply reap_elev. intros e He. bool_hyps. auto. Qed.

Lemma stale_elev db js ttl af locked s : elev_step s (expireStaleRequests db js ttl af locked s).
Proof. unfold expireStaleRequests. apply reap_elev. intros e He. bool_hyps. auto. Qed.

(** ** The combined system *)

Record World : Type := { w_sys : Sys; w_pam : list PamProc }.

(** What may start. *)
Definition pam_entry (p : PamProc) : bool :=
  match p with MInsert _ _ _ _ _ | MFanOut _ _ _ _ | MRespondSiblings _ _ => false | _ => true end.

Inductive WAction : Type :=
| Core (a : Action)
| PSpawn (p : PamProc)
| PRun (n : nat) (env : PamEnv)
| PCrash (n : nat)
| PEnforce (db js : Z) (auditFail : bool) (locked : list string)
| PStale (db js ttl : Z) (auditFail : bool) (locked : list string)
(* a chat session creates, times out or finishes tool executions *)
| PExecutions (x : gmap string ToolExecution).

Definition core_ok (a : Action) : bool := match a with Background j => core_job_ok j | _ => true end.

Section world.
Context (digest : string -> string) (toolDescription : string -> option string)
        (JSON_parse : string -> option json)
        (sha256 : string -> bytes)
        (enc : bytes -> bytes -> option string -> bytes -> bytes * bytes)
        (decr : bytes -> bytes -> option string -> bytes -> bytes -> option bytes)
        (webauthn_verify : ApprovalProof -> string -> AuthenticatorDevice -> option (bool * Z))
        (verifyMobileSignature : string -> string -> string -> bool)
        (localTime : string -> Z -> option (Z * Z))
        (sha256hex : string -> string)
        (row_check : Elevation -> bool).
#[local] Abbreviation sys_step :=
  (sys_step digest toolDescription JSON_parse sha256 enc decr webauthn_verify verifyMobileSignature).
#[local] Abbreviation pam_step := (pam_step localTime webauthn_verify verifyMobileSignature sha256hex row_check).

Definition w_store (w : World) : Store := sy_store (w_sys w).
Definition set_store (w : World) (s : Store) : World :=
  {| w_sys := {| sy_store := s; sy_procs := sy_procs (w_sys w) |}; w_pam := w_pam w |}.

Definition world_step (a : WAction) (w : World) : World :=
  match a with
  | Core a => if core_ok a then {| w_sys := sys_step a (w_sys w); w_pam := w_pam w |} else w
  | PSpawn p => if pam_entry p then {| w_sys := w_sys w; w_pam := w_pam w ++ [p] |} else w
  | PRun n env =>
      match w_pam w !! n with
      | Some p =>
          if env_ok env then
            let '(s', r) := pam_step env p (w_store w) in
            {| w_sys := {| sy_store := s'; sy_procs := sy_procs (w_sys w) |};
               w_pam := match r with inl p' => <[n := p']> (w_pam w) | inr _ => delete n (w_pam w) end |}
          else w
      | None => w
      end
  | PCrash n => {| w_sys := w_sys w; w_pam := delete n (w_pam w) |}
  | PEnforce db js af locked => set_store w (enforceElevationExpiry db js af locked (w_store w))
  | PStale db js ttl af locked => set_store w (expireStaleRequests db js ttl af locked (w_store w))
  | PExecutions x => set_store w (with_executions (fun _ => x) (w_store w))
  end.

Definition w_initial (w : World) : Prop :=
  initial (w_sys w) /\ st_elevations (w_store w) = ∅ /\ st_elevationAudit (w_store w) = []
  /\ st_deviceCommands (w_store w) = [] /\ w_pam w = [].

Definition w_trace (acts : list WAction) (w : World) : World := foldl (fun w a => world_step a w) w acts.

Definition w_reachable (w : World) : Prop := exists w0 acts, w_initial w0 /\ w = w_trace acts w0.

Record w_inv (w : World) : Prop := {
  wi_store : elev_inv (w_store w);
  wi_core : Forall (core_proc_inv (w_store w)) (sy_procs (w_sys w));
  wi_pam : Forall (pam_proc_inv (w_store w)) (w_pam w);
}.

Lemma w_initial_inv w : w_initial w -> w_inv w.
Proof.
  intros ((_ & Ha & _ & _ & Hp) & He & _ & Hc & Hq). unfold w_store in *. split.
  - split; unfold w_store; rewrite ?He, ?Ha, ?Hc; try done; [|set_solver]. intros k. cbn. lia.
  - by rewrite Hp.
  - by rewrite Hq.
Qed.

Lemma sys_step_elev a w :
  w_inv w -> core_ok a = true -> elev_step (w_store w) (sy_store (sys_step a (w_sys w))).
Proof.
  intros [Hi Hc _] Hok. destruct a as [p|n env|n|j]; cbn.
  - case_match; apply elev_refl.
  - destruct (sy_procs (w_sys w) !! n) as [p|] eqn:Ep; [|apply elev_refl].
    destruct (proc_step _ _ _ _ _ _ _ _ env p _) as [s' r] eqn:Es. cbn.
    eapply proc_step_elev; [done| |exact Es]. by apply (Forall_lookup_1 _ _ _ _ Hc Ep).
  - apply elev_refl.
  - by apply job_elev.
Qed.

Lemma world_step_elev a w : w_inv w -> elev_step (w_store w) (w_store (world_step a w)).
Proof.
  intros Hw. destruct a as [a|p|n env|n|db js af l|db js ttl af l|x]; cbn.
  - destruct (core_ok a) eqn:Ea; [by apply sys_step_elev|apply elev_refl].
  - case_match; apply elev_refl.
  - destruct (w_pam w !! n) as [p|] eqn:Ep; [|apply elev_refl].
    destruct (env_ok env) eqn:Ee; [|apply elev_refl].
    destruct (Elevations.pam_step _ _ _ _ _ env p _) as [s' r] eqn:Es. cbn.
    eapply pam_step_elev; [done|apply Hw| |exact Es]. by apply (Forall_lookup_1 _ _ _ _ (wi_pam _ Hw) Ep).
  - apply elev_refl.
  - apply enforce_elev.
  - apply stale_elev.
  - by apply elev_quiet; [|apply links_same].
Qed.

Lemma core_procs_step s s' l : elev_step s s' -> Forall (core_proc_inv s) l -> Forall (core_proc_inv s') l.
Proof. intros Hs. rewrite !Forall_forall. intros Hl p Hp. eapply core_proc_inv_step; [done|by apply Hl]. Qed.

Lemma pam_procs_step s s' l : elev_step s s' -> Forall (pam_proc_inv s) l -> Forall (pam_proc_inv s') l.
Proof. intros Hs. rewrite !Forall_forall. intros Hl p Hp. eapply pam_proc_inv_step; [done|by apply Hl]. Qed.

Lemma sys_step_core a w :
  w_inv w -> core_ok a = true ->
  Forall (core_proc_inv (sy_store (sys_step a (w_sys w)))) (sy_procs (sys_step a (w_sys w))).
Proof.
  intros Hw Hok. pose proof (core_procs_step _ _ _ (sys_step_elev a w Hw Hok) (wi_core _ Hw)) as Hp.
  destruct a as [p|n env|n|j]; cbn in *.
  - destruct (entry _ p) eqn:Ee; [|done]. cbn in *. apply Forall_app. split; [done|].
    apply Forall_singleton. by destruct p.
  - destruct (sy_procs (w_sys w) !! n) as [p|] eqn:Ep; [|done].
    destruct (proc_step _ _ _ _ _ _ _ _ env p _) as [s' [p'|r]] eqn:Es; cbn in *; [|by apply Forall_delete].
    apply Forall_insert; [done|]. eapply proc_step_core_inv; [apply Hw| |exact Es].
    by apply (Forall_lookup_1 _ _ _ _ (wi_core _ Hw) Ep).
  - by apply Forall_delete.
  - done.
Qed.

Lemma world_step_inv a w : w_inv w -> w_inv (world_step a w).
Proof.
  intros Hw. pose proof (world_step_elev a w Hw) as Hs.
  pose proof (core_procs_step _ _ _ Hs (wi_core _ Hw)) as Hc.
  pose proof (pam_procs_step _ _ _ Hs (wi_pam _ Hw)) as Hp.
  split; [by eapply elev_step_inv; [apply Hw|]|..].
  - destruct a as [a|p|n env|n|db js af l|db js ttl af l|x]; cbn in *; try done.
    + destruct (core_ok a) eqn:Ea; [by apply sys_step_core|done].
    + by case_match.
    + repeat case_match; done.
  - destruct a as [a|p|n env|n|db js af l|db js ttl af l|x]; cbn in *; try done.
    + by case_match.
    + destruct (pam_entry p) eqn:Ee; [|done]. cbn in *. apply Forall_app. split; [done|].
      apply Forall_singleton. by destruct p.
    + destruct (w_pam w !! n) as [p|] eqn:Ep; [|done]. destruct (env_ok env) eqn:Ee; [|done].
      destruct (Elevations.pam_step _ _ _ _ _ env p _) as [s' [p'|r]] eqn:Es; cbn in *; [|by apply Forall_delete].
      apply Forall_insert; [done|]. eapply pam_step_proc; [done|apply Hw| |exact Es].
      by apply (Forall_lookup_1 _ _ _ _ (wi_pam _ Hw) Ep).
    + by apply Forall_delete.
Qed.

Lemma w_reachable_ind (P : World -> Prop) :
  (forall w, w_initial w -> P w) -> (forall a w, w_reachable w -> P w -> P (world_step a w)) ->
  forall w, w_reachable w -> P w.
Proof.
  intros Hi Hs w (w0 & acts & Hw0 & ->). induction acts as [|a acts IH] using rev_ind; [by apply Hi|].
  unfold w_trace in *. rewrite foldl_app. apply Hs; [|done]. by exists w0, acts.
Qed.

Lemma w_reachable_inv w : w_reachable w -> w_inv w.
Proof. apply w_reachable_ind; [apply w_initial_inv|]. intros a w0 _. apply world_step_inv. Qed.

End world.
