(* ===== verification/IntentTheorems.v ===== *)
(** * What the approval system guarantees

    The properties of every reachable state and every step of IntentSystem:
    single execution, four eyes, authorized release, the lifecycle, outbox
    delivery, idempotent creation, one-time disclosure of credentials, reaping. *)

From stdpp Require Import base gmap strings list option sorting.
From Stdlib Require Import ZArith Lia Ascii.
From S2P Require Import Prelude Json Tenant Permissions Auth GuardrailTables.
From S2P Require Import ApprovalText Guardrails Assurance SecretCrypto ResultSecrets IntentStore.
From S2P Require Import IntentRelease IntentCreate IntentHandlers IntentInvariants IntentSystem.

Section guarantees.
Context (digest : string -> string) (toolDescription : string -> option string)
        (JSON_parse : string -> option json)
        (sha256 : string -> bytes)
        (enc : bytes -> bytes -> option string -> bytes -> bytes * bytes)
        (decr : bytes -> bytes -> option string -> bytes -> bytes -> option bytes)
        (webauthn_verify : ApprovalProof -> string -> AuthenticatorDevice -> option (bool * Z))
        (verifyMobileSignature : string -> string -> string -> bool).
#[local] Abbreviation proc_step :=
  (proc_step digest toolDescription JSON_parse sha256 enc decr webauthn_verify verifyMobileSignature).
#[local] Abbreviation sys_step :=
  (sys_step digest toolDescription JSON_parse sha256 enc decr webauthn_verify verifyMobileSignature).
#[local] Abbreviation run_trace :=
  (run_trace digest toolDescription JSON_parse sha256 enc decr webauthn_verify verifyMobileSignature).
#[local] Abbreviation reachable :=
  (reachable digest toolDescription JSON_parse sha256 enc decr webauthn_verify verifyMobileSignature).

Lemma reach y : reachable y -> sys_inv digest y.
Proof. apply reachable_inv. Qed.

(** ** Runs are authorized *)

(** A process about to revalidate an intent, with the approval row it loaded. *)
Definition release_check (p : Proc) : option (ActionIntent * option (option string)) :=
  match p with
  | PWorkerCheck i w | PInlineCheck _ i w => Some (i, w)
  | _ => None
  end.

(** In the run [acts] there is a step in which a release of intent [id] revalidated the
    content [c], against an approval row of the intent and with the permissions, the
    directory and the tools of that moment, and passed; the tool had not run before. *)
Definition revalidated (acts : list Action) (y0 : Sys) (id : string) (c : IntentContent) : Prop :=
  exists acts1 n env acts2 p i w auth,
    acts = acts1 ++ Run n env :: acts2
    /\ let y1 := run_trace acts1 y0 in
       sy_procs y1 !! n = Some p /\ release_check p = Some (i, w) /\ it_id i = id /\ it_content i = c
       /\ winning_ok (sy_store y1) i w
       /\ revalidateApprovedIntentForRelease digest (e_perms env) (e_dir env) (e_reg env) i w = RevalidationOk auth
       /\ count_if (ran id) (st_effects (sy_store y1)) = 0%nat.

Lemma revalidated_app acts a y0 id c : revalidated acts y0 id c -> revalidated (acts ++ [a]) y0 id c.
Proof.
  intros (acts1 & n & env & acts2 & p & i & w & auth & -> & H). exists acts1, n, env, (acts2 ++ [a]), p, i, w, auth.
  split; [|exact H]. by rewrite <- app_assoc.
Qed.

(** A process past its revalidation. *)
Definition cleared (p : Proc) : option ActionIntent :=
  match p with
  | PWorkerGate i _ | PWorkerRun i _ | PInlineRun _ i => Some i
  | _ => None
  end.

(** Only a revalidation that passes leads past it. *)
Lemma cleared_step env p s s' p' i :
  proc_step env p s = (s', inl p') -> cleared p' = Some i ->
  cleared p = Some i \/ exists w auth, release_check p = Some (i, w)
    /\ revalidateApprovedIntentForRelease digest (e_perms env) (e_dir env) (e_reg env) i w = RevalidationOk auth.
Proof. intros Hs Hc. destruct p; step_cases Hs; try (by left); right; eauto. Qed.

(** Only a process past its revalidation runs a tool. *)
Lemma ran_step env p s s' r id t :
  proc_step env p s = (s', r) -> ToolRan id t ∈ st_effects s' -> ToolRan id t ∈ st_effects s \/ exists i, cleared p = Some i /\ it_id i = id.
Proof.
  intros Hs Hin. destruct (proc_step_effects _ _ _ _ _ _ _ _ _ _ _ _ _ Hs) as (l & Hl & E). rewrite E in Hin.
  apply elem_of_app in Hin as [Hin|Hin]; [|by left]. right.
  destruct p; cbn [new_effects] in Hl; repeat (apply elem_of_cons in Hl as [->|Hl]); try (by apply not_elem_of_nil in Hl);
    try (by apply not_elem_of_nil in Hin); apply list_elem_of_singleton in Hin; simplify_eq; cbn; eauto.
Qed.

Lemma release_check_holds p i w : release_check p = Some (i, w) -> holds (it_id i) p = true.
Proof. destruct p; cbn; intros; simplify_eq; by apply bool_decide_eq_true. Qed.

Lemma release_check_winning s p i w : proc_inv digest s p -> release_check p = Some (i, w) -> winning_ok s i w.
Proof. destruct p; cbn; intros; simplify_eq; tauto. Qed.

Lemma cleared_stored s p i : proc_inv digest s p -> cleared p = Some i -> stored s i.
Proof. destruct p; cbn; intros; simplify_eq; tauto. Qed.

(** The tool of an intent that is about to be revalidated has not run. *)
Lemma held_not_run y p n i w : sys_inv digest y -> sy_procs y !! n = Some p -> release_check p = Some (i, w) ->
  count_if (ran (it_id i)) (st_effects (sy_store y)) = 0%nat.
Proof.
  intros Hinv Hn Hc. pose proof (si_tokens _ _ Hinv (it_id i)) as Ht.
  assert (Hpos : (0 < count_if (holds (it_id i)) (sy_procs y))%nat).
  { apply count_if_pos. exists p. split; [by eapply list_elem_of_lookup_2|by eapply release_check_holds]. }
  assert (Hle : (claimed (it_id i) (sy_store y) <= 1)%nat) by (unfold claimed; case_match; [by destruct (post_claim _); simpl; lia|lia]). lia.
Qed.

(** What the processes and the effects of a run owe to its revalidations. *)
Record run_ok (acts : list Action) (y0 y : Sys) : Prop := {
  ro_procs : forall p i, p ∈ sy_procs y -> cleared p = Some i -> revalidated acts y0 (it_id i) (it_content i);
  ro_effects : forall id t, ToolRan id t ∈ st_effects (sy_store y) -> exists i, st_intents (sy_store y) !! id = Some i /\ revalidated acts y0 id (it_content i);
}.

Lemma procs_after n env y p : p ∈ sy_procs (sys_step (Run n env) y) ->
  p ∈ sy_procs y \/ exists q s', sy_procs y !! n = Some q /\ proc_step env q (sy_store y) = (s', inl p).
Proof.
  cbn [IntentSystem.sys_step]. destruct (sy_procs y !! n) as [q|] eqn:En; [|by left].
  destruct (proc_step env q (sy_store y)) as [s' [p'|r]] eqn:Es; cbn; intros Hp.
  - apply list_elem_of_lookup in Hp as [j Hj]. destruct (decide (n = j)) as [->|Hne].
    + rewrite list_lookup_insert_eq in Hj by (by eapply lookup_lt_Some). simplify_eq. right. by exists q, s'.
    + rewrite list_lookup_insert_ne in Hj by done. left. by eapply list_elem_of_lookup_2.
  - left. eapply elem_of_sublist; [exact Hp|]. apply sublist_delete.
Qed.

Lemma run_ok_step a acts y0 : initial y0 -> let y := run_trace acts y0 in run_ok acts y0 y -> run_ok (acts ++ [a]) y0 (sys_step a y).
Proof.
  intros H0 y [Hp He]. assert (Hinv : sys_inv digest y) by (apply reach; by exists y0, acts).
  pose proof (sys_step_store _ toolDescription JSON_parse sha256 enc decr webauthn_verify verifyMobileSignature a y Hinv) as Hs.
  assert (Hold : forall id t, ToolRan id t ∈ st_effects (sy_store y) ->
    exists i, st_intents (sy_store (sys_step a y)) !! id = Some i /\ revalidated (acts ++ [a]) y0 id (it_content i)).
  { intros id t (i & Hi & Hr)%He. destruct (ss_old _ _ _ Hs _ _ Hi) as (i' & Hi' & Hstep). exists i'. split; [done|].
    destruct (row_step_frozen _ _ Hstep) as [_ ->]. by apply revalidated_app. }
  split.
  - intros p i Hin Hc.
    assert (Hkeep : p ∈ sy_procs y -> revalidated (acts ++ [a]) y0 (it_id i) (it_content i)) by (intros; eapply revalidated_app, Hp; eauto).
    destruct a as [q|n env|n|j]; [| |apply Hkeep; cbn in Hin; eapply elem_of_sublist; [exact Hin|apply sublist_delete]|by apply Hkeep].
    + cbn in Hin. destruct (entry (sy_store y) q) eqn:Eq; [|by apply Hkeep]. apply elem_of_app in Hin as [Hin|Hin]; [by apply Hkeep|].
      apply list_elem_of_singleton in Hin as ->. by destruct q.
    + apply procs_after in Hin as [Hin|(q & s' & Hq & Hst)]; [by apply Hkeep|].
      destruct (cleared_step _ _ _ _ _ _ Hst Hc) as [Hc'|(w & auth & Hw & Hr)].
      * eapply revalidated_app, Hp; [by eapply list_elem_of_lookup_2|done].
      * exists acts, n, env, [], q, i, w, auth. split; [done|]. cbn zeta. fold y. split_and!; [done|done|done|done| |done|by eapply held_not_run].
        eapply release_check_winning; [|done]. eapply Forall_lookup_1; [apply (si_procs _ _ Hinv)|done].
  - intros id t Hin. destruct a as [q|n env|n|j].
    + apply (Hold id t). cbn in Hin. by case_match.
    + cbn [IntentSystem.sys_step] in Hin, Hold, Hs |- *. destruct (sy_procs y !! n) as [q|] eqn:Hq; [|by apply (Hold id t)].
      destruct (proc_step env q (sy_store y)) as [s' r] eqn:Hst. cbn [sy_store] in *.
      destruct (ran_step _ _ _ _ _ _ _ Hst Hin) as [Hin'|(i & Hc & <-)]; [by apply (Hold id t)|].
      destruct (cleared_stored (sy_store y) q i) as (j & Hj & Ec); [|done|].
      { eapply Forall_lookup_1; [apply (si_procs _ _ Hinv)|done]. }
      destruct (ss_old _ _ _ Hs _ _ Hj) as (j' & Hj' & Hstep). exists j'. split; [done|].
      destruct (row_step_frozen _ _ Hstep) as [_ ->]. rewrite Ec. eapply revalidated_app, Hp; [by eapply list_elem_of_lookup_2|done].
    + by apply (Hold id t).
    + apply (Hold id t). cbn in Hin. by rewrite job_effects in Hin.
Qed.

Lemma runs_ok acts y0 : initial y0 -> run_ok acts y0 (run_trace acts y0).
Proof.
  intros H0. induction acts as [|a acts IH] using rev_ind.
  - destruct H0 as (_ & _ & _ & He & Hp). split; cbn; [intros p i Hin; rewrite Hp in Hin|intros id t Hin; rewrite He in Hin]; by apply not_elem_of_nil in Hin.
  - pose proof (run_ok_step a acts y0 H0 IH) as H. unfold run_trace in *. by rewrite foldl_app.
Qed.

(** ** Credentials are shown once *)

Definition burned (s : Store) (id : string) : Prop :=
  exists i, st_intents s !! id = Some i /\ (it_status i = completed \/ it_status i = failed)
            /\ hasSecretKey (lc_result (it_life i)) = false.

Lemma burned_stable s s' id : store_step digest s s' -> burned s id -> burned s' id.
Proof.
  intros Hs (i & Hi & Hst & Hk). destruct (ss_old _ _ _ Hs _ _ Hi) as (i' & Hi' & Hr).
  exists i'. split; [done|]. destruct Hr; auto; destruct Hst; intuition congruence.
Qed.

Definition shown_ok (s : Store) : Prop :=
  forall id, (count_if (shown id) (st_effects s) <= 1)%nat
             /\ ((0 < count_if (shown id) (st_effects s))%nat -> burned s id).

Lemma shown_ok_same s s' :
  store_step digest s s' -> (forall id, count_if (shown id) (st_effects s') = count_if (shown id) (st_effects s)) ->
  shown_ok s -> shown_ok s'.
Proof.
  intros Hs He Hok id. rewrite He. destruct (Hok id). split; [done|]. intros Hc. eapply burned_stable; eauto.
Qed.

(** The step that discloses a credential burns it. *)
Lemma reveal_shown_ok s id u pw env s' r :
  store_inv digest s -> shown_ok s -> step_revealBurn env u id pw s = (s', r) -> shown_ok s'.
Proof.
  intros Hinv Hok Hs. unfold step_revealBurn in Hs.
  destruct (burnTemporaryPassword _ _ _) as [s1 [|]] eqn:Eb; simplify_eq; [|done].
  pose proof (burn_effects_eq _ _ _ _ _ Eb) as He.
  pose proof (burn_store_step digest id (Revealed (e_db env) u) s) as Hstep. rewrite Eb in Hstep.
  apply burn_true in Eb as (i & Hi & Hk & ->). intros id'. cbn [st_effects with_effect] in *.
  rewrite count_if_cons. cbn [shown]. case_bool_decide as Hid; destruct (Hok id') as [Hle Hb].
  - subst id'. assert (Hz : count_if (shown id) (st_effects s) = 0%nat).
    { destruct (count_if (shown id) (st_effects s)) eqn:E; [done|]. destruct Hb as (j & Hj & _ & Hn); [lia|].
      simplify_eq. congruence. }
    rewrite He, Hz. split; [lia|]. intros _.
    exists (set_result (burnResult (Revealed (e_db env) u) (lc_result (it_life i))) i).
    split; [by apply lookup_insert_eq|]. split; [|exact (burnResult_clean _ _)].
    change (it_status i = completed \/ it_status i = failed). apply (ok_result _ _ (proj2 (inv_row _ _ Hinv _ _ Hi))). by destruct (lc_result (it_life i)).
  - rewrite He. split; [lia|]. intros Hc. apply burned_stable with s; [|by apply Hb].
    by apply store_step_effect.
Qed.

Lemma shown_count_other env p l id :
  l ∈ new_effects env p -> (forall u x w, p <> PRevealBurn u x w) -> count_if (shown id) l = 0%nat.
Proof.
  intros Hl Hp. destruct p; cbn [new_effects] in Hl;
    repeat (apply elem_of_cons in Hl as [->|Hl]); try (by apply not_elem_of_nil in Hl); try done.
  all: by destruct (Hp userId intentId temporaryPassword).
Qed.

Lemma reachable_shown y : reachable y -> shown_ok (sy_store y).
Proof.
  apply reachable_ind with (P := fun y => shown_ok (sy_store y)).
  { intros z (_ & _ & _ & He & _) id. rewrite He. unfold count_if. simpl. split; lia. }
  intros a z Hr IH. pose proof (reach z Hr) as Hinv.
  pose proof (sys_step_store _ toolDescription JSON_parse sha256 enc decr webauthn_verify verifyMobileSignature a z Hinv) as Hs.
  destruct a; cbn [IntentSystem.sys_step] in *.
  - by case_match.
  - destruct (sy_procs z !! n) as [p|] eqn:En; [|done].
    destruct (proc_step env p (sy_store z)) as [s' r] eqn:Es. cbn [sy_store] in *.
    assert (Hdec : (exists u x w, p = PRevealBurn u x w) \/ (forall u x w, p <> PRevealBurn u x w))
      by (destruct p; eauto).
    destruct Hdec as [(u & x & w & ->)|Hp]; [by eapply reveal_shown_ok; [apply Hinv|..]|].
    destruct (proc_step_effects _ _ _ _ _ _ _ _ _ _ _ _ _ Es) as (l & Hl & He).
    eapply shown_ok_same; [done| |done]. intros id.
    by rewrite He, count_if_app, (shown_count_other _ _ _ id Hl Hp).
  - done.
  - eapply shown_ok_same; [done| |done]. intros id. cbn [sy_store]. by rewrite job_effects.
Qed.

(** ** Claims come before the deadline *)

Lemma commit_no_execution p newId rowIds now pick fail s s' r k i i' (P : Prop) :
  commitIntent p newId rowIds now pick fail s = (s', r) -> st_intents s !! k = Some i ->
  st_intents s' !! k = Some i' -> it_status i <> executing -> it_status i' = executing -> P.
Proof.
  intros Hc Hi Hi' Hne He.
  destruct (commitIntent_cases _ _ _ _ _ _ _ _ _ Hc) as [[-> _]|(f & _ & Hn & _ & _ & _ & _ & _ & _ & _ & Ei & _)];
    [congruence|].
  rewrite Ei, lookup_insert_ne in Hi' by congruence. congruence.
Qed.

Lemma job_no_claim j s k i i' :
  st_intents s !! k = Some i -> st_intents (run_job j s) !! k = Some i' ->
  it_status i <> executing -> it_status i' = executing -> False.
Proof.
  intros Hi Hi' Hne He.
  assert (Hup : forall p f, (forall x, it_status (f x) = it_status x \/ it_status (f x) <> executing) ->
            sql_update p f (st_intents s) !! k = Some i' -> False).
  { intros p f Hf Hl. apply sql_update_Some in Hl as (j0 & Hj & [[-> _]|[-> _]]); [congruence|].
    destruct (Hf j0); congruence. }
  destruct j; cbn [run_job] in Hi'; try (simpl in Hi'; congruence);
    try (eapply Hup; [|exact Hi']; intros x; first [by left|by right]).
  case_match; simpl in Hi'; congruence.
Qed.

Lemma claims_in_time env p s s' r k i i' :
  store_inv digest s -> proc_inv digest s p -> proc_step env p s = (s', r) ->
  st_intents s !! k = Some i -> st_intents s' !! k = Some i' ->
  it_status i <> executing -> it_status i' = executing -> it_status i = approved /\ e_db env < it_expiresAt i.
Proof.
  intros Hinv Hp Hs Hi Hi' Hne He.
  assert (Hcas : forall id from to_ pt req now s1 ok,
    transitionIntent id from to_ pt req now s = (s1, ok) -> st_intents s1 !! k = Some i' ->
    to_ = executing /\ it_status i ∈ from /\ (req = true -> now < it_expiresAt i)).
  { intros id from to_ pt req now s1 ok Ht Hk. destruct ok.
    - apply transitionIntent_true in Ht as (j & Hj & Hst & Hdl & ->). cbn in Hk.
      apply lookup_insert_Some in Hk as [[<- <-]|[_ ?]]; [|congruence]. simplify_eq. done.
    - apply transitionIntent_false in Ht as ->. congruence. }
  assert (Hburn : forall id m s1 ok, burnTemporaryPassword id m s = (s1, ok) -> st_intents s1 !! k = Some i' -> False).
  { intros id m s1 ok Hb Hk. destruct ok.
    - apply burn_true in Hb as (j & Hj & _ & ->). cbn -[burnResult] in Hk.
      apply lookup_insert_Some in Hk as [[<- <-]|[_ ?]]; [|congruence]. by simplify_eq.
    - apply burn_false in Hb as ->. congruence. }
  destruct p; step_cases Hs; cbn -[fanInDecision fanInReport burnTemporaryPassword transitionIntent] in Hi'; try congruence.
  - unfold fanInDecision in Hi'. destruct (transitionIntent _ _ _ _ _ _ _) as [s2 [|]] eqn:Et; [|cbn in Hi'; congruence].
    destruct (Hcas _ _ _ _ _ _ _ _ Et) as [? _]; [by destruct (dq_approve q)|]. by destruct (dq_approve q).
  - unfold fanInReport in Hi'. destruct (transitionIntent _ _ _ _ _ _ _) as [s2 [|]] eqn:Et; [|cbn in Hi'; congruence].
    by destruct (Hcas _ _ _ _ _ _ _ _ Et) as [? _].
  - by edestruct Hcas as [? _]; [eassumption|eassumption|].
  - destruct (burnTemporaryPassword _ _ _) as [s2 ok] eqn:Eb. by edestruct Hburn.
  - by edestruct Hburn.
  - by eapply commit_no_execution.
  - by eapply commit_no_execution.
  - edestruct Hcas as (_ & Hst & Hdl); [eassumption|eassumption|]. split; [set_solver|auto].
  - edestruct Hcas as (_ & Hst & Hdl); [eassumption|eassumption|]. split; [set_solver|auto].
  - destruct (transitionIntent _ _ _ _ _ _ _) as [s2 ok] eqn:Et.
    destruct (Hcas _ _ _ _ _ _ _ _ Et Hi') as [-> _]. by destruct Hp as [[?|?] _].
Qed.

Lemma post_claim_approval st : post_claim st = true -> post_approval st = true.
Proof. by destruct st. Qed.

(** ** The outbox *)

Lemma proc_step_outbox env p s s' r :
  proc_step env p s = (s', r) ->
  st_outbox s' = st_outbox s \/ exists id ev, st_outbox s' = insertOutbox id ev (st_outbox s).
Proof.
  intros Hs.
  assert (Hcas : forall id from to_ pt req now s1 ok, transitionIntent id from to_ pt req now s = (s1, ok) ->
            st_outbox s1 = st_outbox s).
  { intros * Ht. destruct ok.
    - by apply transitionIntent_true in Ht as (? & _ & _ & _ & ->).
    - by apply transitionIntent_false in Ht as ->. }
  assert (Hburn : forall id m s1 ok, burnTemporaryPassword id m s = (s1, ok) -> st_outbox s1 = st_outbox s).
  { intros * Ht. destruct ok.
    - by apply burn_true in Ht as (? & _ & _ & ->).
    - by apply burn_false in Ht as ->. }
  destruct p; step_cases Hs; auto; try (left; by eauto).
  - unfold fanInDecision. destruct (transitionIntent _ _ _ _ _ _ _) as [s2 [|]] eqn:Et; [|by left].
    cbn [fst]. destruct (dq_approve q); cbn; rewrite (Hcas _ _ _ _ _ _ _ _ Et); eauto.
  - unfold fanInReport. destruct (transitionIntent _ _ _ _ _ _ _) as [s2 [|]] eqn:Et; [|by left].
    left. by apply (Hcas _ _ _ _ _ _ _ _ Et).
  - left. destruct (burnTemporaryPassword _ _ _) as [s2 ok] eqn:Eb. by apply (Hburn _ _ _ _ Eb).
  - match goal with E : commitIntent _ _ _ _ _ _ _ = _ |- _ => apply commitIntent_cases in E end.
    naive_solver.
  - match goal with E : commitIntent _ _ _ _ _ _ _ = _ |- _ => apply commitIntent_cases in E end.
    naive_solver.
  - left. destruct (transitionIntent _ _ _ _ _ _ _) as [s2 ok] eqn:Et. by apply (Hcas _ _ _ _ _ _ _ _ Et).
Qed.

Definition outbox_ok (l : list OutboxRow) : Prop :=
  ob_id <$> l = seq 0 (length l) /\ Forall (fun o => 0 <= ob_publishAttempts o <= MAX_PUBLISH_ATTEMPTS + 1) l.

Lemma outbox_ok_insert id ev l : outbox_ok l -> outbox_ok (insertOutbox id ev l).
Proof.
  intros [Hi Ha]. unfold insertOutbox. split.
  - rewrite fmap_app, Hi, length_app. simpl. by rewrite seq_app.
  - apply Forall_app. split; [done|]. constructor; [simpl; unfold MAX_PUBLISH_ATTEMPTS; lia|constructor].
Qed.

Lemma outbox_ok_mark now ids l : outbox_ok l -> outbox_ok (markOutboxRowsPublished now ids l).
Proof.
  intros [Hi Ha]. unfold markOutboxRowsPublished. split.
  - rewrite <- list_fmap_compose, length_fmap, <- Hi. apply list_fmap_ext. intros n o Ho. simpl. by case_match.
  - apply Forall_fmap. eapply Forall_impl; [exact Ha|]. intros o Ho. simpl. by case_match.
Qed.

(** A scan gives one more attempt to rows that have at most five. *)
Lemma outbox_ok_scan locked l : outbox_ok l -> outbox_ok (scanAndClaimOutboxRows locked l).1.
Proof.
  intros [Hi Ha]. unfold scanAndClaimOutboxRows. cbn [fst]. split.
  - rewrite <- list_fmap_compose, length_fmap, <- Hi at 1. apply list_fmap_ext. intros n o Ho. unfold bumpAttempts. simpl. by case_match.
  - apply Forall_fmap, Forall_forall. intros o Ho. rewrite Forall_forall in Ha. specialize (Ha o Ho). unfold bumpAttempts. simpl.
    case_bool_decide as Hin; [|done]. simpl.
    apply subseteq_take, list_elem_of_fmap in Hin as (o' & Hid & Ho'). apply list_filter_elem in Ho' as [Ho' Hd].
    assert (o = o') as <-.
    { assert (Hnd : NoDup (ob_id <$> l)) by (rewrite Hi; apply NoDup_seq).
      apply list_elem_of_lookup in Ho as [n1 E1], Ho' as [n2 E2].
      assert (n1 = n2) as ->; [|congruence].
      eapply NoDup_lookup; [exact Hnd|..]; rewrite list_lookup_fmap.
      - by rewrite E1.
      - rewrite E2. simpl. congruence. }
    unfold publish_due in Hd. bool_hyps. lia.
Qed.

Lemma reachable_outbox y : reachable y -> outbox_ok (st_outbox (sy_store y)).
Proof.
  apply reachable_ind with (P := fun y => outbox_ok (st_outbox (sy_store y))).
  { intros z (_ & _ & -> & _ & _). by split. }
  intros a z Hr IH. destruct a; cbn [IntentSystem.sys_step].
  - by case_match.
  - destruct (sy_procs z !! n) as [p|] eqn:En; [|done].
    destruct (proc_step env p (sy_store z)) as [s' r] eqn:Es. cbn [sy_store].
    destruct (proc_step_outbox _ _ _ _ _ Es) as [->|(id & ev & ->)]; [done|by apply outbox_ok_insert].
  - done.
  - destruct j; cbn [run_job sy_store]; try done.
    + by apply outbox_ok_scan.
    + by apply outbox_ok_mark.
    + by case_match.
Qed.

Lemma publish_enqueues now l o :
  o ∈ l -> publish_due o = true -> (length (List.filter publish_due l) <= MAX_PUBLISH_PER_RUN)%nat ->
  (ob_eventType o, ob_intentId o) ∈ (publishOutboxRows [] (fun _ => false) now l).2.
Proof.
  intros Ho Hd Hlen. unfold publishOutboxRows, scanAndClaimOutboxRows. cbn [snd].
  assert (Hf : List.filter (fun o => publish_due o && negb (bool_decide (ob_id o ∈ []))) l = List.filter publish_due l).
  { apply filter_ext. intros x. rewrite bool_decide_eq_false_2 by apply not_elem_of_nil. by rewrite andb_true_r. }
  rewrite Hf, take_ge by (by rewrite length_fmap).
  set (ids := ob_id <$> List.filter publish_due l).
  assert (Hid : ob_id o ∈ ids).
  { apply list_elem_of_fmap. exists o. split; [done|]. by apply list_filter_elem. }
  apply list_elem_of_fmap. exists (bumpAttempts ids o). split; [unfold bumpAttempts; by case_match|].
  apply list_filter_elem. split; [|done]. apply list_filter_elem. split; [by apply list_elem_of_fmap_2|].
  apply bool_decide_eq_true. unfold bumpAttempts. by case_match.
Qed.

(** ** The reapers select every due row *)

Lemma due_complete {A} (key : A -> Z) p locked n (t : gmap string A) k x :
  t !! k = Some x -> p x = true -> k ∉ locked -> (length (List.filter p (sql_rows t)) <= n)%nat ->
  k ∈ due key p locked n t.
Proof.
  intros Hk Hp Hl Hn. unfold due.
  assert (Hlen : forall l : list (string * A),
    (length (List.filter (fun kv => p kv.2 && negb (bool_decide (kv.1 ∈ locked))) l) <= length (List.filter p l.*2))%nat).
  { induction l as [|[k' y] l IH]; [done|]. cbn. destruct (p y); cbn; [|done]. case_match; cbn; lia. }
  rewrite take_ge.
  - apply list_elem_of_fmap. exists (k, x). split; [done|]. rewrite merge_sort_Permutation.
    apply list_filter_elem. split; [by apply elem_of_map_to_list|]. cbn. rewrite Hp. cbn.
    by rewrite bool_decide_eq_false_2.
  - rewrite (Permutation_length (merge_sort_Permutation _ _)). etransitivity; [apply Hlen|done].
Qed.

(** ** The guarantees *)

(** C1: However the decide handlers, the release worker, the inline release, the
    reapers and retries interleave, and whatever crashes, the tool of an intent
    runs at most once; and once it has run the intent is executing, completed
    or failed, never pending, rejected, expired or cancelled. *)
Theorem tool_runs_at_most_once y id :
  reachable y ->
  (count_if (ran id) (st_effects (sy_store y)) <= 1)%nat
  /\ forall t, ToolRan id t ∈ st_effects (sy_store y) ->
     exists i, st_intents (sy_store y) !! id = Some i
               /\ (it_status i = executing \/ it_status i = completed \/ it_status i = failed).
Proof.
  intros Hy. pose proof (si_tokens _ _ (reach y Hy) id) as Ht.
  assert (Hle : (claimed id (sy_store y) <= 1)%nat).
  { unfold claimed. case_match; [|lia]. by destruct (post_claim _); simpl; lia. }
  split; [lia|]. intros t Hin.
  assert (Hpos : (0 < count_if (ran id) (st_effects (sy_store y)))%nat).
  { apply count_if_pos. exists (ToolRan id t). split; [done|]. by apply bool_decide_eq_true. }
  unfold claimed in Ht. destruct (st_intents (sy_store y) !! id) as [i|]; [|lia].
  exists i. split; [done|]. destruct (it_status i); simpl in Ht; try lia; auto.
Qed.

(** The requester decides alone or not at all: an intent decided by its requester has
    one approval row. *)
Definition sole_approver (s : Store) (i : ActionIntent) : Prop :=
  requester i = lc_decidedByUserId (it_life i) ->
  exists k a, st_approvals s !! k = Some a /\ ap_intentId a = Some (it_id i) /\ requester i = Some (ap_userId a)
    /\ forall k' a', st_approvals s !! k' = Some a' -> ap_intentId a' = Some (it_id i) -> k' = k.

(** C2: A tool that ran was approved with four eyes: by someone other than the requester, or by
    the requester with a hardware factor, and then the requester was the sole approver. The
    decider held an approval row of that intent. And before the tool ran, a step of the very
    run revalidated the content that is stored, against an approval row of that intent and
    with the permissions, the directory and the tool registry of that moment, and passed. *)
Theorem every_run_was_authorized y0 acts id t :
  initial y0 -> let y := run_trace acts y0 in ToolRan id t ∈ st_effects (sy_store y) ->
  exists i, st_intents (sy_store y) !! id = Some i /\ four_eyes i /\ sole_approver (sy_store y) i
            /\ decided_by_addressee (sy_store y) i /\ revalidated acts y0 id (it_content i).
Proof.
  intros H0 y Hin. assert (Hy : reachable y) by by exists y0, acts. pose proof (reach y Hy) as Hinv.
  destruct (ro_effects _ _ _ (runs_ok acts y0 H0) id t Hin) as (i & Hi & Hr). fold y in Hi. destruct (inv_row _ _ (si_store _ _ Hinv) _ _ Hi) as [Hidi Hrow].
  assert (Hpc : post_claim (it_status i) = true).
  { pose proof (si_tokens _ _ Hinv id) as Ht. unfold claimed in Ht. rewrite Hi in Ht.
    destruct (post_claim (it_status i)); [done|]. simpl in Ht.
    assert ((0 < count_if (ran id) (st_effects (sy_store y)))%nat); [|lia].
    apply count_if_pos. exists (ToolRan id t). split; [done|]. by apply bool_decide_eq_true. }
  apply post_claim_approval in Hpc. destruct (inv_outbox _ _ (si_store _ _ Hinv) _ _ Hi Hpc) as [_ Hdec].
  exists i. split_and!; [done|by apply (ok_approved _ _ Hrow)| |done|done].
  intros Hreq. destruct Hdec as (k & a & Ha & Hk & Hd). exists k, a. split_and!; [done|done|congruence|].
  intros k' a' Ha' Hk'. symmetry. rewrite Hidi in Hk, Hk'. apply (inv_sole _ _ (si_store _ _ Hinv) k k' a a' id i Ha Ha' Hk Hk' Hi). congruence.
Qed.

(** C10: The lifecycle. Whatever step the system takes, a stored intent keeps its
    identity and its content, its status stays or moves along an edge of the
    state machine, a terminal status is final, and an intent becomes executing
    only from approved and only while the database clock is before its deadline. *)
Theorem lifecycle y a k i :
  reachable y -> st_intents (sy_store y) !! k = Some i ->
  exists i', st_intents (sy_store (sys_step a y)) !! k = Some i'
    /\ it_id i' = it_id i /\ it_content i' = it_content i
    /\ (it_status i' = it_status i \/ edge (it_status i) (it_status i'))
    /\ (terminal (it_status i) = true -> it_status i' = it_status i)
    /\ (it_status i <> executing -> it_status i' = executing ->
        it_status i = approved /\ exists n env, a = Run n env /\ e_db env < it_expiresAt i).
Proof.
  intros Hy Hi. pose proof (reach y Hy) as Hinv.
  pose proof (sys_step_store _ toolDescription JSON_parse sha256 enc decr webauthn_verify verifyMobileSignature a y Hinv) as Hs.
  destruct (ss_old _ _ _ Hs _ _ Hi) as (i' & Hi' & Hr). exists i'.
  destruct (row_step_frozen _ _ Hr) as [Hid Hc]. pose proof (row_step_edge _ _ Hr) as He.
  split_and!; [done..| |].
  - intros Ht. destruct He as [|He]; [done|]. apply edge_not_terminal in He. congruence.
  - intros Hne Hex. destruct a; cbn [IntentSystem.sys_step] in Hi'.
    + case_match; simpl in Hi'; congruence.
    + destruct (sy_procs y !! n) as [p|] eqn:En; [|congruence].
      destruct (proc_step env p (sy_store y)) as [s' r] eqn:Es.
      destruct (claims_in_time _ _ _ _ _ _ _ _ (si_store _ _ Hinv)
                  (Forall_lookup_1 _ _ _ _ (si_procs _ _ Hinv) En) Es Hi Hi' Hne Hex). eauto.
    + simpl in Hi'. congruence.
    + exfalso. exact (job_no_claim j _ k i i' Hi Hi' Hne Hex).
Qed.

(** An approved intent is never without its [intent_approved] outbox row, and
    when the publisher runs, unlocked, with no more than a batch due and the
    queue up, the release job of every row still in its retry budget is enqueued. *)
Lemma approved_intents_are_published y k i :
  reachable y -> st_intents (sy_store y) !! k = Some i -> post_approval (it_status i) = true ->
  exists o, o ∈ st_outbox (sy_store y) /\ ob_intentId o = k /\ ob_eventType o = intent_approved
    /\ forall now, publish_due o = true ->
        (length (List.filter publish_due (st_outbox (sy_store y))) <= MAX_PUBLISH_PER_RUN)%nat ->
        (intent_approved, k) ∈ (publishOutboxRows [] (fun _ => false) now (st_outbox (sy_store y))).2.
Proof.
  intros Hy Hi Hp. destruct (inv_outbox _ _ (si_store _ _ (reach y Hy)) _ _ Hi Hp) as [(o & Ho & Hk & Hev) _].
  exists o. split_and!; [done..|]. intros now Hdue Hlen. rewrite <- Hk, <- Hev.
  by apply publish_enqueues.
Qed.

(** Two live intents of one organization never share an idempotency key: a
    retried request converges on the live intent instead of duplicating it. *)
Lemma live_intents_have_distinct_keys y k1 k2 i1 i2 :
  reachable y -> st_intents (sy_store y) !! k1 = Some i1 -> st_intents (sy_store y) !! k2 = Some i2 ->
  ic_orgId (it_content i1) = ic_orgId (it_content i2) ->
  ic_idempotencyKey (it_content i1) = ic_idempotencyKey (it_content i2) ->
  it_status i1 ∈ LIVE_INTENT_STATUSES -> it_status i2 ∈ LIVE_INTENT_STATUSES -> k1 = k2.
Proof.
  intros Hy H1 H2 Ho Hk L1 L2. by apply (inv_live _ _ (si_store _ _ (reach y Hy)) _ _ _ _ H1 H2).
Qed.

(** The temporary credential of an intent is disclosed at most once, and once
    disclosed it is gone from the stored result. *)
Lemma credential_shown_at_most_once y id :
  reachable y ->
  (count_if (shown id) (st_effects (sy_store y)) <= 1)%nat
  /\ (SecretShown id ∈ st_effects (sy_store y) ->
      exists i, st_intents (sy_store y) !! id = Some i /\ hasSecretKey (lc_result (it_life i)) = false).
Proof.
  intros Hy. destruct (reachable_shown y Hy id) as [Hle Hb]. split; [done|]. intros Hin.
  destruct Hb as (i & ? & _ & ?); [|by exists i].
  apply count_if_pos. exists (SecretShown id). split; [done|]. by apply bool_decide_eq_true.
Qed.

(** What a stored result of a secret-bearing tool lacks. *)
Lemma stored_result_guarded y k i r :
  reachable y -> st_intents (sy_store y) !! k = Some i -> lc_result (it_life i) = Some r ->
  isSecretBearingTool (ic_actionName (it_content i)) = true ->
  r !! TEMP_PASSWORD_LEGACY_KEY = None /\ forall m t, r !! m = Some (JStr t) -> prose_credential t = false.
Proof.
  intros Hy Hi Hr Hn. destruct (inv_row _ _ (si_store _ _ (reach y Hy)) _ _ Hi) as [_ Hok].
  exact (proj1 (assertNoPlaintextSecret_spec _ _) (ok_secret _ _ Hok r Hr) Hn).
Qed.

(** The requester is fanned an approval row of their own intent only as the
    sole addressee: when any other row of that intent exists, none is theirs. *)
Lemma requester_row_is_the_only_row y k1 k2 a1 a2 id i :
  reachable y -> st_approvals (sy_store y) !! k1 = Some a1 -> st_approvals (sy_store y) !! k2 = Some a2 ->
  ap_intentId a1 = Some id -> ap_intentId a2 = Some id -> st_intents (sy_store y) !! id = Some i ->
  ic_requestedByUserId (it_content i) = Some (ap_userId a1) -> k1 = k2.
Proof.
  intros Hy H1 H2 I1 I2 Hi Hr. by apply (inv_sole _ _ (si_store _ _ (reach y Hy)) _ _ _ _ id i H1 H2).
Qed.

(** The digest re-check of a release raises no false alarm: for a stored intent
    and any approval row of it, revalidation never answers [digest_mismatch]. *)
Lemma release_digest_always_matches y k i row a gp dir reg :
  reachable y -> st_intents (sy_store y) !! k = Some i -> st_approvals (sy_store y) !! row = Some a ->
  ap_intentId a = Some k ->
  revalidateApprovedIntentForRelease digest gp dir reg i (Some (ap_boundArgumentDigest a))
    <> RevalidationFailed "digest_mismatch".
Proof.
  intros Hy Hi Ha Hk. pose proof (si_store _ _ (reach y Hy)) as Hinv.
  destruct (inv_approval _ _ Hinv _ _ Ha) as [_ Hb]. destruct (Hb _ Hk) as (j & Hj & ->). simplify_eq.
  destruct (inv_row _ _ Hinv _ _ Hi) as [_ Hok]. destruct (ok_content _ _ Hok) as (c & Hc & Hd).
  unfold revalidateApprovedIntentForRelease. rewrite Hc, bool_decide_eq_true_2 by done. cbn [negb].
  rewrite bool_decide_eq_true_2 by done. cbn [negb]. repeat case_match; congruence.
Qed.

(** An execution that died does not stay open: an executing intent has a start
    time, and twenty minutes later the stale reaper, not locked out and with no
    more than a batch due, has moved it to failed with [execution_lost]. *)
Lemma lost_executions_are_reaped y k i :
  reachable y -> st_intents (sy_store y) !! k = Some i -> it_status i = executing ->
  exists t, started i = Some t /\ forall dbNow locked,
    t < dbNow - STALE_EXECUTING_TIMEOUT_MINUTES * 60000 -> k ∉ locked ->
    (length (List.filter (stale_due dbNow) (sql_rows (st_intents (sy_store y)))) <= MAX_REAP_PER_RUN)%nat ->
    exists i', st_intents (reapStaleExecutingIntents dbNow locked (sy_store y)).1 !! k = Some i'
               /\ it_status i' = failed /\ lc_errorCode (it_life i') = Some "execution_lost"%string.
Proof.
  intros Hy Hi Hst. destruct (inv_row _ _ (si_store _ _ (reach y Hy)) _ _ Hi) as [Hid Hok].
  destruct (ok_executing _ _ Hok Hst) as [Hex Hstart].
  destruct (lc_executionStartedAt (it_life i)) as [t|] eqn:Et; [|done].
  exists t. unfold started. rewrite Et. split; [done|]. intros dbNow locked Hlt Hnl Hlen.
  eexists. split.
  - cbn. rewrite (sql_update_lookup_Some _ _ _ _ _ Hi), Hid, !bool_decide_eq_true_2; try done.
    apply due_complete with i; [done| |done|by unfold sql_rows in Hlen].
    unfold stale_due, started. rewrite Et, !bool_decide_eq_true_2 by done. by apply Z.ltb_lt.
  - done.
Qed.

(** The publisher's retries are bounded: no outbox row is ever attempted more
    than six times, and rows keep distinct ids. *)
Lemma publish_attempts_bounded y o :
  reachable y -> o ∈ st_outbox (sy_store y) ->
  0 <= ob_publishAttempts o <= MAX_PUBLISH_ATTEMPTS + 1 /\ NoDup (ob_id <$> st_outbox (sy_store y)).
Proof.
  intros Hy Ho. destruct (reachable_outbox y Hy) as [Hids Hat].
  rewrite Forall_forall in Hat. split; [by apply Hat|]. rewrite Hids. apply NoDup_seq.
Qed.

(** No handler hangs: every process, from any point and in any environment,
    answers within eight steps of its own. *)
Lemma handlers_answer env p s :
  exists r, (run_alone digest toolDescription JSON_parse sha256 enc decr webauthn_verify verifyMobileSignature
               HANDLER_FUEL env p s).2 = Some r.
Proof. apply run_alone_answers; [|unfold HANDLER_FUEL; lia]. by destruct p; vm_compute; lia. Qed.

End guarantees.

(** ** What becomes of a minted credential *)

(** A credential a person could read in a text: it begins with neither white space nor a
    bracket. *)
Definition legible (pw : string) : Prop :=
  match pw with String c _ => is_space c = false /\ c <> "["%char | EmptyString => False end.

Lemma prose_credential_suffix a s : prose_at s = true -> prose_credential (a ++ s) = true.
Proof.
  intros H. assert (Hu : forall u, prose_credential u = prose_at u || match u with EmptyString => false | String _ u' => prose_credential u' end) by by intros [].
  induction a as [|c a IH]; [change (prose_credential s = true); by rewrite Hu, H|].
  change (prose_credential (String c (a ++ s)) = true). rewrite Hu. cbn iota. by rewrite IH, orb_true_r.
Qed.

(** The guard's pattern finds a credential spelled out anywhere in a text. *)
Lemma spelled_out_is_found a pw b : legible pw -> prose_credential (a ++ "Temporary password: " ++ pw ++ b) = true.
Proof.
  intros Hl. apply prose_credential_suffix. destruct pw as [|c pw]; [done|]. destruct Hl as [Hs Hb].
  change (prose_at ("Temporary password: " ++ String c pw ++ b)) with
    (let rest := trim_left (String " " (String c (pw ++ b))) in
     negb (bool_decide (rest = EmptyString)) && negb (startsWith "[REDACTED]" rest) && negb (startsWith "[redacted]" rest)).
  cbn [trim_left]. change (is_space " ") with true. cbn iota. rewrite Hs. cbn zeta.
  rewrite bool_decide_eq_false_2 by done.
  assert (Hn : forall p, startsWith (String "[" p) (String c (pw ++ b)) = false) by (intros p; cbn; by rewrite bool_decide_eq_false_2).
  by rewrite !Hn.
Qed.

(** Of the credential a result holds the ciphertext alone, which opens to it under the
    key and the purpose it was sealed for, or a mark that sealing failed; the rest is
    [others]. *)
Definition only_sealed (sha256 : string -> bytes) (decr : bytes -> bytes -> option string -> bytes -> bytes -> option bytes)
    (keys : CryptoEnv) (pw : string) (others r : Result) : Prop :=
  forall k v, r !! k = Some v ->
    (k = "temporaryPasswordEnc"%string /\ exists c, v = JStr c /\ startsWith "enc:v3:" c = true
       /\ decryptSecret sha256 decr keys (Some c) {| opt_aad := Some "action_intents.result"%string; opt_strict := true |} = Ok (Some pw))
    \/ (k = "temporaryPasswordSealFailed"%string /\ v = JBool true)
    \/ (k = "truncated"%string /\ v = JBool true)
    \/ (k <> "temporaryPassword"%string /\ others !! k = Some v).

(** The members a carrier brings besides the credential. *)
Definition carrier_meta (meta : option string) : Result :=
  match meta with Some id => {[ "delegantToolCallId"%string := JStr id ]} | None => ∅ end.

(** A tool returned the credential [pw] to the worker: in a carrier, or in the text of a
    password reset. *)
Definition returned (JSON_parse : string -> option json) (carrier : option SecretToolResult) (raw pw : string) (others : Result) : Prop :=
  match carrier with
  | Some (SecretSuccess _ p meta) => p = pw /\ others = carrier_meta meta
  | Some (SecretError _) => False
  | None => let r := normalizeToolResult JSON_parse raw in
            r !! "action"%string = Some (JStr "m365.user.reset_password") /\ r !! "temporaryPassword"%string = Some (JStr pw)
            /\ others = delete "temporaryPassword"%string r
  end.

Section sealed_results.
Context (JSON_parse : string -> option json) (sha256 : string -> bytes)
        (enc : bytes -> bytes -> option string -> bytes -> bytes * bytes)
        (decr : bytes -> bytes -> option string -> bytes -> bytes -> option bytes) `{!Aead enc decr}.
#[local] Abbreviation only_sealed := (only_sealed sha256 decr).

Context (pw : string) (Hne : pw <> EmptyString) (Hplain : isEncryptedSecret pw = false).

Lemma truncated_sealed keys others : only_sealed keys pw others truncated_result.
Proof. intros k v Hk. unfold truncated_result in Hk. apply lookup_singleton_Some in Hk as [<- <-]. auto. Qed.

Lemma carrier_sealed keys iv txt meta llm r :
  Forall is_byte iv -> iv <> [] -> sealToolSecrets sha256 enc keys iv (SecretSuccess txt pw meta) = Ok (llm, r) ->
  only_sealed keys pw (carrier_meta meta) r /\ get_string r "action" = None.
Proof using All.
  intros Hi Ni H. unfold sealToolSecrets in H. apply rbind_Ok in H as ([c|] & Hs & H); simplify_eq; split.
  - destruct (seal_unseals sha256 keys iv pw c Hi Ni Hne Hplain Hs) as [Hv Hd]. intros k v [[<- <-]|[Hk Hl]]%lookup_insert_Some; [eauto 10|].
    right. right. right. split; [|done]. intros ->. by destruct meta; simplify_map_eq.
  - unfold get_string. by destruct meta; simplify_map_eq.
  - intros k v [[<- <-]|[Hk Hl]]%lookup_insert_Some; [auto|]. right. right. right. split; [|done]. intros ->. by destruct meta; simplify_map_eq.
  - unfold get_string. by destruct meta; simplify_map_eq.
Qed.

Lemma text_sealed keys iv r r' :
  Forall is_byte iv -> iv <> [] -> r !! "action"%string = Some (JStr "m365.user.reset_password") ->
  r !! "temporaryPassword"%string = Some (JStr pw) -> sealActionResultSecrets sha256 enc keys iv r = Ok r' ->
  only_sealed keys pw (delete "temporaryPassword"%string r) r'.
Proof using All.
  intros Hi Ni Ha Hp H. unfold sealActionResultSecrets, get_string, TEMP_PASSWORD_LEGACY_KEY in H. rewrite Ha, Hp in H.
  rewrite bool_decide_eq_true_2 in H by done. cbn [negb] in H.
  assert (Epw : exists ch pw', pw = String ch pw') by (destruct pw; [done|by eexists _, _]). destruct Epw as (ch & pw' & Epw). rewrite Epw in H.
  assert (Hold : forall k v, delete "temporaryPassword"%string r !! k = Some v -> k <> "temporaryPassword"%string).
  { intros k v Hk ->. by rewrite lookup_delete_eq in Hk. }
  apply rbind_Ok in H as ([c|] & Hs & H); injection H as <-; intros k v [[<- <-]|[_ Hl]]%lookup_insert_Some; eauto 10.
  rewrite <- Epw in Hs. destruct (seal_unseals sha256 keys iv pw c Hi Ni Hne Hplain Hs) as [Hv Hd]. left. split; [done|]. by exists c.
Qed.

Lemma worker_sealed keys iv n carrier raw others r :
  Forall is_byte iv -> iv <> [] -> isSecretBearingTool n = true -> returned JSON_parse carrier raw pw others ->
  storeWorkerResult JSON_parse sha256 enc keys iv n carrier raw = Complete r
  \/ storeWorkerResult JSON_parse sha256 enc keys iv n carrier raw = ReturnedError r -> only_sealed keys pw others r.
Proof using All.
  intros Hi Ni Hn Hret H. pose proof (storeWorkerResult_guarded JSON_parse sha256 enc keys iv n carrier raw r H) as Hg.
  destruct (proj1 (assertNoPlaintextSecret_spec _ _) Hg Hn) as [Hleg _]. unfold storeWorkerResult in H.
  destruct (MAX_RESULT_BYTES <? byte_length raw); cbn [negb andb] in H.
  - change (sealActionResultSecrets sha256 enc keys iv truncated_result) with (@Ok CryptoError Result truncated_result) in H.
    assert (Ht : forall b : bool, (if b then truncated_result else truncated_result) = truncated_result) by by intros [].
    cbv beta iota zeta in H. rewrite Ht in H. destruct (assertNoPlaintextSecret n truncated_result); destruct H as [H|H]; try discriminate H.
    injection H as <-. apply truncated_sealed.
  - destruct carrier as [[txt p meta|txt]|]; cbn in Hret; [|done|].
    + destruct Hret as [-> ->]. destruct (sealToolSecrets sha256 enc keys iv _) as [[llm st]|] eqn:Es; cbn [rbind snd] in H; [|by destruct H].
      destruct (carrier_sealed _ _ _ _ _ _ Hi Ni Es) as [Hs Ha]. unfold sealActionResultSecrets in H. rewrite Ha in H. cbn [negb] in H.
      destruct H as [H|H]; repeat case_match; simplify_eq; done || apply truncated_sealed.
    + destruct Hret as (Ha & Hp & ->). set (r0 := normalizeToolResult JSON_parse raw) in *.
      destruct (isReturnedToolError JSON_parse raw).
      * destruct (assertNoPlaintextSecret n r0); destruct H as [H|H]; simplify_eq. unfold TEMP_PASSWORD_LEGACY_KEY in Hleg. congruence.
      * destruct (sealActionResultSecrets sha256 enc keys iv r0) as [x|] eqn:Es; [|by destruct H].
        pose proof (text_sealed _ _ _ _ Hi Ni Ha Hp Es) as Hs.
        destruct H as [H|H]; repeat case_match; simplify_eq; done || apply truncated_sealed.
Qed.
End sealed_results.

Section no_plaintext.
Context (digest : string -> string) (toolDescription : string -> option string)
        (JSON_parse : string -> option json)
        (sha256 : string -> bytes)
        (enc : bytes -> bytes -> option string -> bytes -> bytes * bytes)
        (decr : bytes -> bytes -> option string -> bytes -> bytes -> option bytes) `{!Aead enc decr}
        (webauthn_verify : ApprovalProof -> string -> AuthenticatorDevice -> option (bool * Z))
        (verifyMobileSignature : string -> string -> string -> bool).
#[local] Abbreviation proc_step :=
  (proc_step digest toolDescription JSON_parse sha256 enc decr webauthn_verify verifyMobileSignature).
#[local] Abbreviation reachable :=
  (reachable digest toolDescription JSON_parse sha256 enc decr webauthn_verify verifyMobileSignature).

(** C29: A minted credential is stored sealed or not at all. In every reachable state the
    stored result of an intent whose tool mints a credential has no [temporaryPassword]
    member, and no text in it spells out a legible credential after [Temporary password:].
    And for any credential [pw] that does not itself look encrypted: when the tool returned it
    to the worker, in a carrier or in the text of a Microsoft 365 password reset, the result
    the worker writes has, besides what the tool returned with it, only a v3 ciphertext that
    decrypts strictly to [pw] for the purpose of intent results, or a mark that sealing
    failed or the result was cut; the inline release gets the same from a carrier, unless
    encryption throws, when it gets the error output of the session; and it writes what it
    got or a cut result. *)
Theorem stored_results_hold_no_plaintext :
  (forall y k i r, reachable y -> st_intents (sy_store y) !! k = Some i -> lc_result (it_life i) = Some r ->
     isSecretBearingTool (ic_actionName (it_content i)) = true ->
     r !! "temporaryPassword"%string = None
     /\ forall m a pw b, legible pw -> r !! m <> Some (JStr (a ++ "Temporary password: " ++ pw ++ b)))
  /\ forall pw env s i s' , pw <> EmptyString -> isEncryptedSecret pw = false -> Forall is_byte (e_iv env) -> e_iv env <> [] ->
     (forall carrier raw others id st p r, isSecretBearingTool (ic_actionName (it_content i)) = true -> returned JSON_parse carrier raw pw others ->
        proc_step env (PWorkerStore i carrier raw) s = (s', inl (PFinish id st p)) -> pt_result p = Some (Some r) ->
        only_sealed sha256 decr (e_crypto env) pw others r)
     /\ (forall n txt meta isError r, e_outcome env = ReturnedCarrier (SecretSuccess txt pw meta) ->
          proc_step env (PInlineRun n i) s = (s', inl (PInlineStore n i isError r)) ->
          only_sealed sha256 decr (e_crypto env) pw (carrier_meta meta) r
          \/ (exists err, encryptSecret sha256 enc (e_crypto env) (e_iv env) (Some pw)
                 {| opt_aad := Some "action_intents.result"%string; opt_strict := false |} = Err err)
             /\ r = e_output env /\ isError = true)
     /\ (forall n isError r id st p x, proc_step env (PInlineStore n i isError r) s = (s', inl (PFinish id st p)) ->
          pt_result p = Some (Some x) -> x = r \/ x = {[ "truncated"%string := JBool true ]}).
Proof using All.
  split.
  - intros y k i r Hy Hi Hr Hn.
    destruct (stored_result_guarded digest toolDescription JSON_parse sha256 enc decr webauthn_verify verifyMobileSignature y k i r Hy Hi Hr Hn) as [Hl Hp].
    split; [exact Hl|]. intros m a pw b Hpw Hm. apply Hp in Hm. by rewrite spelled_out_is_found in Hm.
  - intros pw env s i s' Hne Hpl Hi Ni. split_and!.
    + intros carrier raw others id st p r Hn Hret H Hr. cbn [IntentHandlers.proc_step] in H. unfold step_workerStore in H.
      eapply (worker_sealed JSON_parse sha256 enc decr pw Hne Hpl (e_crypto env) (e_iv env)); [exact Hi|exact Ni|exact Hn|exact Hret|].
      destruct (storeWorkerResult _ _ _ _ _ _ _ _); simplify_eq; cbn in Hr; simplify_eq; auto.
    + intros n txt meta isError r Ho H. cbn [IntentHandlers.proc_step] in H. unfold step_inlineRun in H. rewrite Ho in H.
      destruct (sealToolSecrets _ _ _ _ _) as [[llm st]|err] eqn:Es; simplify_eq.
      * left. by eapply (carrier_sealed JSON_parse sha256 enc decr pw Hne Hpl (e_crypto env) (e_iv env)).
      * right. split; [|done]. unfold sealToolSecrets, seal in Es. exists err. destruct (encryptSecret _ _ _ _ _ _) as [x|] eqn:Ex; cbn in Es; [|congruence].
        repeat case_match; simplify_eq.
    + intros n isError r id st p x H Hx. cbn [IntentHandlers.proc_step] in H. unfold step_inlineStore, storeInlineResult in H.
      repeat case_match; simplify_eq; cbn in Hx; simplify_eq; auto.
Qed.
End no_plaintext.

(** ** A run of the system, for the witnesses *)

Definition two_admins : Directory :=
  {| dr_organizations := dr_organizations demo_dir; dr_partners := dr_partners demo_dir;
     dr_users := <[ "ann"%string := {| u_id := "ann"; u_email := "a@x"; u_name := "Ann"; u_status := "active";
                                       u_isPlatformAdmin := false |} ]> (dr_users demo_dir);
     dr_apiKeys := ∅; dr_roles := dr_roles demo_dir; dr_permissions := dr_permissions demo_dir;
     dr_rolePermissions := dr_rolePermissions demo_dir; dr_organizationUsers := [];
     dr_partnerUsers := {| pu_partnerId := "p"; pu_userId := "ann"; pu_roleId := "r";
                           pu_orgAccess := oa_all; pu_orgIds := None |} :: dr_partnerUsers demo_dir |}.

Definition demo_auth_of (u : string) : AuthContext :=
  {| auth_principal := user_session; auth_userId := u; auth_token := Some (Some "r"%string);
     auth_partnerId := Some "p"%string; auth_orgId := Some "org"%string; auth_scope := organization;
     auth_accessibleOrgIds := Some ["org"%string]; auth_allowedSiteIds := None |}.

Definition demo_world (dir : Directory) (now : Z) : Env :=
  {| e_js := now; e_db := now; e_pick := 0; e_fail := false; e_failLate := false; e_dir := dir;
     e_perms := fun u c => resolvePermissions 0 None dir u c;
     e_reg := {| tr_aiTools := ∅; tr_extension := ∅ |}; e_policy := Some None; e_crypto := demo_env;
     e_iv := demo_iv; e_outcome := ReturnedCarrier (SecretSuccess "done" "pw" None);
     e_output := ∅; e_isError := false |}.

Definition demo_request : CreateActionIntentInput :=
  {| ci_toolName := "google_reset_password"; ci_input := [("userKey"%string, JStr "x@y")]; ci_reason := None;
     ci_source := chat; ci_requestingClientLabel := None; ci_idempotencyKey := None; ci_orgId := None;
     ci_binding := None |}.

Definition demo_decide (u : string) (yes : bool) : DecideRequest :=
  {| dq_auth := demo_auth_of u; dq_id := "row"; dq_approve := yes; dq_reason := None; dq_proof := None;
     dq_reauthVerified := false |}.

Definition empty_store : Store :=
  {| st_intents := ∅; st_approvals := ∅; st_outbox := []; st_executions := ∅; st_elevations := ∅;
     st_elevationAudit := []; st_deviceCommands := [];
     st_auth := {| as_redisUp := true; as_redis := ∅; as_devices := ∅ |}; st_effects := [] |}.

Definition demo_trace (acts : list Action) : Sys :=
  run_trace (fun s => s) (fun _ => None) (fun _ => None) of_text toy_enc toy_dec demo_wv demo_mv acts
    {| sy_store := empty_store; sy_procs := [] |}.

Definition steps (n : nat) (now : Z) : list Action := replicate n (Run 0 (demo_world two_admins now)).

(** Ann asks for a reset, the other admin approves, the worker runs it, Ann
    reads the credential. *)
Definition acts_created : list Action :=
  Spawn (PCreate (demo_auth_of "ann") demo_request "intent" ["row"%string]) :: steps 2 1000.
Definition acts_approved : list Action := acts_created ++ Spawn (PDecide (demo_decide "u" true)) :: steps 7 2000.
Definition acts_executing : list Action := acts_approved ++ Spawn (PWorker "intent") :: steps 2 3000.
Definition acts_completed : list Action := acts_approved ++ Spawn (PWorker "intent") :: steps 7 3000.
Definition acts_revealed : list Action := acts_completed ++ Spawn (PReveal (demo_auth_of "ann") "intent") :: steps 3 4000.

(** The only admin asks for the reset: one row, their own. *)
Definition acts_sole : list Action :=
  Spawn (PCreate (demo_auth_of "u") demo_request "intent" ["row"%string])
  :: replicate 2 (Run 0 (demo_world demo_dir 1000)).

Lemma demo_reachable acts :
  reachable (fun s => s) (fun _ => None) (fun _ => None) of_text toy_enc toy_dec demo_wv demo_mv (demo_trace acts).
Proof. exists {| sy_store := empty_store; sy_procs := [] |}, acts. by split_and!. Qed.

Definition demo_content : IntentContent :=
  {| ic_orgId := ""; ic_partnerId := None; ic_requestedByUserId := None; ic_requestingApiKeyId := None;
     ic_source := chat; ic_originPrincipalKind := ""; ic_originPrincipalId := None;
     ic_requestingClientLabel := ""; ic_actionName := ""; ic_arguments := []; ic_argumentDigest := "";
     ic_targetSummary := ""; ic_impactSummary := ""; ic_reason := None; ic_riskTier := 3;
     ic_connectionId := None; ic_tenantId := None; ic_idempotencyKey := ""; ic_expiresAt := 0 |}.

(** The intent and the approval row of a run. *)
Definition demo_intent (acts : list Action) : ActionIntent :=
  default {| it_id := ""; it_content := demo_content; it_life := fresh_life |}
    (st_intents (sy_store (demo_trace acts)) !! "intent"%string).
Definition demo_row (acts : list Action) : option ApprovalRequest :=
  st_approvals (sy_store (demo_trace acts)) !! "row"%string.

Lemma tool_runs_at_most_once_witness :
  st_effects (sy_store (demo_trace acts_completed)) = [ToolRan "intent" 3000]
  /\ (count_if (ran "intent") (st_effects (sy_store (demo_trace acts_completed))) <= 1)%nat.
Proof.
  split; [vm_compute; reflexivity|].
  refine (proj1 (tool_runs_at_most_once _ _ _ _ _ _ _ _ (demo_trace acts_completed) "intent" (demo_reachable _))).
Defined.

Lemma every_run_was_authorized_witness :
  exists i, st_intents (sy_store (demo_trace acts_completed)) !! "intent"%string = Some i /\ four_eyes i
            /\ decided_by_addressee (sy_store (demo_trace acts_completed)) i
            /\ revalidated (fun s => s) (fun _ => None) (fun _ => None) of_text toy_enc toy_dec demo_wv demo_mv acts_completed
                 {| sy_store := empty_store; sy_procs := [] |} "intent" (it_content i).
Proof.
  destruct (every_run_was_authorized (fun s => s) (fun _ => None) (fun _ => None) of_text toy_enc toy_dec demo_wv demo_mv
              {| sy_store := empty_store; sy_procs := [] |} acts_completed "intent" 3000) as (i & Hi & Hf & _ & Hd & Hr).
  - by split_and!.
  - vm_compute. left.
  - exists i. auto.
Defined.

Lemma lifecycle_witness :
  it_status (demo_intent acts_approved) = approved
  /\ exists i', st_intents (sy_store (demo_trace (acts_approved ++ [Spawn (PWorker "intent"%string); Run 0 (demo_world two_admins 3000)])))
       !! "intent"%string = Some i' /\ it_content i' = it_content (demo_intent acts_approved)
       /\ it_status i' = executing.
Proof.
  split; [vm_compute; reflexivity|].
  destruct (lifecycle _ _ _ _ _ _ _ _ (demo_trace (acts_approved ++ [Spawn (PWorker "intent"%string)]))
              (Run 0 (demo_world two_admins 3000)) "intent" (demo_intent acts_approved) (demo_reachable _))
    as (i' & Hi' & _ & Hc & _).
  - vm_compute. reflexivity.
  - exists i'. split; [exact Hi'|]. split; [exact Hc|]. vm_compute in Hi'. injection Hi' as <-. reflexivity.
Defined.

Lemma approved_intents_are_published_witness :
  exists o, o ∈ st_outbox (sy_store (demo_trace acts_approved)) /\ ob_intentId o = "intent"%string
    /\ ob_eventType o = intent_approved.
Proof.
  destruct (approved_intents_are_published _ _ _ _ _ _ _ _ (demo_trace acts_approved) "intent"
              (demo_intent acts_approved) (demo_reachable _)) as (o & Ho & Hk & He & _).
  - vm_compute. reflexivity.
  - vm_compute. reflexivity.
  - exists o. auto.
Defined.

Lemma live_intents_witness : "intent"%string = "intent"%string /\ it_status (demo_intent acts_approved) = approved.
Proof.
  split; [|vm_compute; reflexivity].
  refine (live_intents_have_distinct_keys _ _ _ _ _ _ _ _ (demo_trace acts_approved) _ _
            (demo_intent acts_approved) (demo_intent acts_approved) (demo_reachable _) _ _ eq_refl eq_refl _ _).
  - vm_compute. reflexivity.
  - vm_compute. reflexivity.
  - apply (bool_decide_unpack _). vm_compute. exact I.
  - apply (bool_decide_unpack _). vm_compute. exact I.
Defined.

Lemma credential_shown_witness :
  st_effects (sy_store (demo_trace acts_revealed)) = [SecretShown "intent"; ToolRan "intent" 3000]
  /\ (count_if (shown "intent") (st_effects (sy_store (demo_trace acts_revealed))) <= 1)%nat.
Proof.
  split; [vm_compute; reflexivity|].
  refine (proj1 (credential_shown_at_most_once _ _ _ _ _ _ _ _ _ "intent" (demo_reachable acts_revealed))).
Defined.

(** An intent that resets a password. *)
Definition reset_intent : ActionIntent :=
  {| it_id := "intent";
     it_content := {| ic_orgId := ""; ic_partnerId := None; ic_requestedByUserId := None; ic_requestingApiKeyId := None;
       ic_source := chat; ic_originPrincipalKind := ""; ic_originPrincipalId := None; ic_requestingClientLabel := "";
       ic_actionName := "google_reset_password"; ic_arguments := []; ic_argumentDigest := ""; ic_targetSummary := "";
       ic_impactSummary := ""; ic_reason := None; ic_riskTier := 3; ic_connectionId := None; ic_tenantId := None;
       ic_idempotencyKey := ""; ic_expiresAt := 0 |};
     it_life := fresh_life |}.

Lemma stored_results_witness :
  (default ∅ (lc_result (it_life (demo_intent acts_completed))) !! "temporaryPassword"%string = None
   /\ hasSecretKey (lc_result (it_life (demo_intent acts_completed))) = true)
  /\ exists r, hasSecretKey (Some r) = true /\ only_sealed of_text toy_dec (e_crypto (demo_world two_admins 3000)) "pw" ∅ r.
Proof.
  pose proof (stored_results_hold_no_plaintext (fun s => s) (fun _ => None) (fun _ => None) of_text toy_enc toy_dec demo_wv demo_mv) as [A B].
  split; [split; [|vm_compute; reflexivity]|].
  - refine (proj1 (A (demo_trace acts_completed) "intent"%string (demo_intent acts_completed) _ (demo_reachable _) _ _ _)); vm_compute; reflexivity.
  - assert (H : exists p r, proc_step (fun s => s) (fun _ => None) (fun _ => None) of_text toy_enc toy_dec demo_wv demo_mv (demo_world two_admins 3000)
        (PWorkerStore reset_intent (Some (SecretSuccess "done" "pw" None)) "done") empty_store = (empty_store, inl (PFinish "intent" completed p))
      /\ pt_result p = Some (Some r) /\ hasSecretKey (Some r) = true).
    { eexists _, _. split; [vm_compute; reflexivity|]. split; [vm_compute; reflexivity|vm_compute; reflexivity]. }
    destruct H as (p & r & H & Hp & Hk). exists r. split; [exact Hk|].
    destruct (B "pw"%string (demo_world two_admins 3000) empty_store reset_intent empty_store) as [C _];
      [discriminate|vm_compute; reflexivity|exact demo_iv_bytes|discriminate|].
    exact (C (Some (SecretSuccess "done" "pw" None)) "done"%string ∅ "intent"%string completed p r eq_refl (conj eq_refl eq_refl) H Hp).
Defined.

Lemma requester_row_witness :
  (ap_userId <$> demo_row acts_sole) = Some "u"%string /\ "row"%string = "row"%string.
Proof.
  destruct (demo_row acts_sole) as [a|] eqn:Ea; [|vm_compute in Ea; discriminate].
  pose proof Ea as Ev. vm_compute in Ev. injection Ev as Ev. subst a. split; [reflexivity|].
  refine (requester_row_is_the_only_row _ _ _ _ _ _ _ _ (demo_trace acts_sole) "row" "row" _ _ "intent"
            (demo_intent acts_sole) (demo_reachable _) Ea Ea eq_refl eq_refl _ _); vm_compute; reflexivity.
Defined.

Lemma release_digest_witness :
  exists a, st_approvals (sy_store (demo_trace acts_approved)) !! "row"%string = Some a /\
    revalidateApprovedIntentForRelease (fun s => s) (fun _ _ => None) two_admins
      {| tr_aiTools := ∅; tr_extension := ∅ |} (demo_intent acts_approved) (Some (ap_boundArgumentDigest a))
    <> RevalidationFailed "digest_mismatch".
Proof.
  destruct (st_approvals (sy_store (demo_trace acts_approved)) !! "row"%string) as [a|] eqn:Ea;
    [|vm_compute in Ea; discriminate].
  exists a. split; [reflexivity|].
  apply (release_digest_always_matches (fun s => s) (fun _ => None) (fun _ => None) of_text toy_enc toy_dec
           demo_wv demo_mv (demo_trace acts_approved) "intent" (demo_intent acts_approved) "row" a
           (fun _ _ => None) two_admins _ (demo_reachable _)).
  - vm_compute. reflexivity.
  - exact Ea.
  - vm_compute in Ea. injection Ea as <-. reflexivity.
Defined.

Lemma lost_executions_witness :
  exists i', st_intents (reapStaleExecutingIntents 2000000 [] (sy_store (demo_trace acts_executing))).1
               !! "intent"%string = Some i' /\ it_status i' = failed.
Proof.
  destruct (lost_executions_are_reaped _ _ _ _ _ _ _ _ (demo_trace acts_executing) "intent"
              (demo_intent acts_executing) (demo_reachable _)) as (t & Ht & Hreap).
  - vm_compute. reflexivity.
  - vm_compute. reflexivity.
  - destruct (Hreap 2000000 []) as (i' & Hi' & Hs & _).
    + vm_compute in Ht. injection Ht as <-. reflexivity.
    + apply not_elem_of_nil.
    + vm_compute. lia.
    + exists i'. auto.
Defined.

Lemma publish_attempts_witness :
  exists o, o ∈ st_outbox (sy_store (demo_trace (acts_approved ++ [Background (ScanOutbox [])])))
    /\ ob_publishAttempts o = 1 /\ 0 <= ob_publishAttempts o <= 6.
Proof.
  eexists. split; [|split].
  3: { refine (proj1 (publish_attempts_bounded _ _ _ _ _ _ _ _ _ _
                (demo_reachable (acts_approved ++ [Background (ScanOutbox [])])) _)). vm_compute. left. }
  - vm_compute. left.
  - reflexivity.
Defined.
