(* ===== verification/ElevationTheorems.v ===== *)
(** * What elevations guarantee

    The theorems about every reachable state of the combined system of
    ElevationSystem, and about single operations. [row_check] stands for the
    CHECK constraints of the table, and the guarantees hold for any; the last
    ones are about the constraints the migrations declare. *)

From stdpp Require Import base gmap strings list option sorting.
From Stdlib Require Import ZArith Lia Ascii.
From S2P Require Import Prelude Json PamGlob PamRules Assurance Tenant.
From S2P Require Import Permissions Auth Guardrails SecretCrypto ResultSecrets IntentStore.
From S2P Require Import IntentRelease IntentCreate IntentHandlers Elevations IntentInvariants IntentSystem.
From S2P Require Import ElevationSystem IntentTheorems.

Section guarantees.
Context (digest : string -> string) (toolDescription : string -> option string)
        (JSON_parse : string -> option json)
        (sha256 : string -> bytes)
        (enc : bytes -> bytes -> option string -> bytes -> bytes * bytes)
        (decr : bytes -> bytes -> option string -> bytes -> bytes -> option bytes)
        (webauthn_verify : ApprovalProof -> string -> AuthenticatorDevice -> option (bool * Z))
        (verifyMobileSignature : string -> string -> string -> bool)
        (localTime : string -> Z -> option (Z * Z))
        (sha256hex : string -> string)
        (row_check : Elevation -> bool).
#[local] Abbreviation world_step :=
  (world_step digest toolDescription JSON_parse sha256 enc decr webauthn_verify verifyMobileSignature
     localTime sha256hex row_check).
#[local] Abbreviation w_reachable :=
  (w_reachable digest toolDescription JSON_parse sha256 enc decr webauthn_verify verifyMobileSignature
     localTime sha256hex row_check).

Lemma w_reach w : w_reachable w -> w_inv w.
Proof. apply w_reachable_inv. Qed.

Lemma w_row w k e : w_reachable w -> st_elevations (w_store w) !! k = Some e -> el_id e = k /\ el_ok (w_store w) e.
Proof. intros Hw He. exact (ei_rows _ (wi_store _ (w_reach w Hw)) _ _ He). Qed.

Lemma el_move_terminal s' e e' : el_move s' e e' -> el_terminal (el_status e) = true -> e' = e.
Proof.
  unfold el_terminal. rewrite bool_decide_eq_true. intros Hm Ht.
  destruct Hm as [|? ? ? ? ? ? Hs|? ? ? Hs|? ? Hs|? [Hs|Hs]]; [done|exfalso..];
    try rewrite active_cases in Hs; decompose [or] Hs || idtac;
    match goal with H : el_status e = _ |- _ => rewrite H in Ht end; set_solver.
Qed.

(** Who approved a live grant. *)
Lemma active_attributed s e : el_ok s e -> el_status e ∈ ACTIVE_STATUSES ->
  (exists u, el_approvedByUserId e = Some u /\ (u <> EmptyString -> subject e <> Some u) /\ audited s e ev_approved u)
  \/ el_approvedByUserId e = None
     /\ (is_some (ec_softwarePolicyMatchId (el_content e)) \/ is_some (ec_pamRuleId (el_content e))).
Proof.
  intros Hok Hact. destruct (el_approvedByUserId e) as [u|] eqn:Eu.
  - left. exists u. split_and!; [done|by apply (ok_four_eyes _ _ Hok)|by apply (ok_audit_approved _ _ Hok)].
  - right. split; [done|]. apply active_cases in Hact as [H|[H|H]].
    + destruct (ok_approver _ _ Hok (or_introl H)). congruence.
    + by apply (ok_auto _ _ Hok).
    + destruct (ok_approver _ _ Hok (or_intror H)). congruence.
Qed.

(** C13: Whatever happens next, an elevation is never deleted, what was asked
    for (device, subject, executable, tool) never changes, its status moves
    only along the edges of [el_edge], and a denied, expired or revoked one
    stays exactly as it is. *)
Theorem elevation_lifecycle w a k e :
  w_reachable w -> st_elevations (w_store w) !! k = Some e ->
  exists e', st_elevations (w_store (world_step a w)) !! k = Some e' /\ el_content e' = el_content e
    /\ (el_status e' = el_status e \/ el_edge (el_status e) (el_status e'))
    /\ (el_terminal (el_status e) = true -> e' = e).
Proof.
  intros Hw He. pose proof (world_step_elev digest toolDescription JSON_parse sha256 enc decr webauthn_verify
    verifyMobileSignature localTime sha256hex row_check a w (w_reach w Hw)) as Hs.
  destruct (es_rows _ _ Hs _ _ He) as (e' & He' & Hm). exists e'.
  split_and!; [done|apply (el_move_frozen _ _ _ Hm)|by eapply el_move_edge|by eapply el_move_terminal].
Qed.

(** C14: Every live grant has a window that closes, at most a day after it
    opened, and a reason to exist: either a person other than the one it is
    for approved it, and the audit trail names them, or a software policy or a
    rule, named on the row, approved it automatically. *)
Theorem grants_are_bounded_and_attributed w k e :
  w_reachable w -> st_elevations (w_store w) !! k = Some e -> el_status e ∈ ACTIVE_STATUSES ->
  (exists from till, el_approvedAt e = Some from /\ el_expiresAt e = Some till
                     /\ from < till <= from + MAX_APPROVAL_DURATION_MINUTES * 60000)
  /\ ((exists u, el_approvedByUserId e = Some u /\ (u <> EmptyString -> subject e <> Some u)
                 /\ audited (w_store w) e ev_approved u)
      \/ el_approvedByUserId e = None
         /\ (is_some (ec_softwarePolicyMatchId (el_content e)) \/ is_some (ec_pamRuleId (el_content e)))).
Proof.
  intros Hw He Hact. destruct (w_row w k e Hw He) as [_ Hok].
  split; [by apply (ok_window _ _ Hok)|by apply active_attributed].
Qed.

(** An approval is used at most once: at most one actuation command is ever
    queued for an elevation, for the device and the executable that were asked
    for, after a person approved it; the row is then actuating, revoked or
    expired, and the audit trail names who queued it. *)
Lemma actuated_at_most_once w k :
  w_reachable w ->
  (count_if (command_of k) (st_deviceCommands (w_store w)) <= 1)%nat
  /\ forall c, c ∈ st_deviceCommands (w_store w) ->
       exists e, st_elevations (w_store w) !! ac_elevationRequestId c = Some e
         /\ el_status e ∈ [el_actuating; el_revoked; el_expired]
         /\ ac_deviceId c = ec_deviceId (el_content e)
         /\ ac_targetPath c = default EmptyString (ec_targetExecutablePath (el_content e))
         /\ is_some (el_approvedByUserId e) /\ audited (w_store w) e ev_command_executed (ac_createdBy c).
Proof.
  intros Hw. pose proof (wi_store _ (w_reach w Hw)) as Hi. split; [apply (ei_once _ Hi)|apply (ei_commands _ Hi)].
Qed.

(** No decision goes unrecorded: whoever approved, denied or revoked an
    elevation is in the audit trail of its org, on the web and on a phone
    alike, whatever failed and whoever crashed. *)
Lemma human_decisions_are_audited w k e u :
  w_reachable w -> st_elevations (w_store w) !! k = Some e ->
  (el_approvedByUserId e = Some u -> audited (w_store w) e ev_approved u)
  /\ (el_deniedByUserId e = Some u -> audited (w_store w) e ev_denied u)
  /\ (el_revokedByUserId e = Some u -> audited (w_store w) e ev_revoked u).
Proof.
  intros Hw He. destruct (w_row w k e Hw He) as [_ Hok].
  split_and!; intros Hu; [by apply (ok_audit_approved _ _ Hok)|by apply (ok_audit_denied _ _ Hok)
                         |by apply (ok_audit_revoked _ _ Hok)].
Qed.

(** A grant does not outlive its window: once the database clock has passed
    the end of a live grant, a run of the enforcer that is not locked out of
    the row, and has no more than a batch to do, leaves it expired. *)
Lemma grants_expire w k e :
  w_reachable w -> st_elevations (w_store w) !! k = Some e -> el_status e ∈ ACTIVE_STATUSES ->
  exists till, el_expiresAt e = Some till /\ forall db js af locked,
    till < db -> k ∉ locked ->
    (length (List.filter (window_due db) (sql_rows (st_elevations (w_store w)))) <= MAX_PER_RUN)%nat ->
    st_elevations (enforceElevationExpiry db js af locked (w_store w)) !! k = Some (set_expired db e).
Proof.
  intros Hw He Hact. destruct (w_row w k e Hw He) as [Hid Hok].
  destruct (ok_window _ _ Hok Hact) as (from & till & _ & Ht & _). exists till. split; [done|].
  intros db js af locked Hdb Hl Hn. unfold enforceElevationExpiry, reapElevations.
  assert (Hdue : window_due db e = true).
  { unfold window_due. rewrite bool_decide_eq_true_2, Ht by done. by apply Z.ltb_lt. }
  assert (Hin : k ∈ due (fun e => default 0 (el_expiresAt e)) (window_due db) locked MAX_PER_RUN (st_elevations (w_store w)))
    by by apply due_complete with e.
  unfold with_audit. destruct af; cbn; rewrite (sql_update_lookup_Some _ _ _ _ _ He), Hid,
    !bool_decide_eq_true_2 by done; done.
Qed.

(** A high-risk remediation script runs only on a second opinion: when the
    execution gate lets it through, its elevation is for that device and org,
    its window is open, and it was approved by a person other than its
    requester or automatically by a named policy or rule. *)
Lemma remediation_needs_a_second_opinion w tier orgId deviceId eid now :
  w_reachable w -> requiresExecutionApproval tier = true ->
  validateRemediationExecutionApproval tier orgId deviceId eid now (w_store w) = None ->
  exists id e till, eid = Some id /\ st_elevations (w_store w) !! id = Some e
    /\ ec_orgId (el_content e) = orgId /\ ec_deviceId (el_content e) = deviceId
    /\ el_expiresAt e = Some till /\ now <= till
    /\ ((exists u, el_approvedByUserId e = Some u /\ (u <> EmptyString -> subject e <> Some u))
        \/ is_some (ec_softwarePolicyMatchId (el_content e)) \/ is_some (ec_pamRuleId (el_content e))).
Proof.
  unfold validateRemediationExecutionApproval. intros Hw Hr Hv. rewrite Hr in Hv. cbn in Hv.
  destruct eid as [[|c id]|]; [done| |done].
  destruct (st_elevations (w_store w) !! String c id) as [e|] eqn:He; [|done].
  destruct (w_row w _ e Hw He) as [_ Hok].
  repeat (case_match; [done|]). bool_hyps.
  destruct (ok_window _ _ Hok) as (from & till & _ & Ht & _); [done|].
  rewrite Ht in Hv. destruct (till <? now) eqn:El; [done|]. apply Z.ltb_ge in El.
  exists (String c id), e, till. split_and!; try done.
  destruct (active_attributed _ _ Hok) as [(u & ? & ? & _)|[_ Hauto]]; [done|left; eauto|right; done].
Qed.

End guarantees.

(** ** The constraints the migrations declare *)

Definition checked_step (s s' : Store) : Prop :=
  forall k e', st_elevations s' !! k = Some e' ->
    st_elevations s !! k = Some e' \/ elevation_checks e' = true
    \/ exists e db, st_elevations s !! k = Some e /\ e' = set_expired db e.

Lemma checked_same s s' : st_elevations s' = st_elevations s -> checked_step s s'.
Proof. intros E k e' He. rewrite E in He. auto. Qed.

Lemma checked_insert s s' k e' :
  st_elevations s' = <[k := e']> (st_elevations s) -> elevation_checks e' = true -> checked_step s s'.
Proof. intros E Hc k0 e0 He. rewrite E in He. apply lookup_insert_Some in He as [[<- <-]|[_ He]]; auto. Qed.

Lemma insert_checked row s s1 s' :
  insertElevation elevation_checks row s = Some s1 -> st_elevations s' = st_elevations s1 -> checked_step s s'.
Proof.
  unfold insertElevation. intros Hi E. case_match; [|done]. simplify_eq. bool_hyps.
  eapply checked_insert; [exact E|done].
Qed.

Lemma with_audit_elevations f rows s : st_elevations (with_audit f rows s) = st_elevations s.
Proof. by destruct f. Qed.

Lemma mirror_elevations id b u now s :
  st_elevations (mirrorElevationDecisionToExecution id b u now s).1 = st_elevations s.
Proof. pose proof (mirror_view id b u now s) as [Hv _]. unfold pam_view in Hv. by simplify_eq. Qed.

Lemma respondCas_checked env q row d a' s s' r :
  respondCas elevation_checks env q row d a' s = (s', r) -> checked_step s s'.
Proof.
  unfold respondCas. intros Hs. case_match; [simplify_eq; by apply checked_same|].
  destruct (negb (elevation_checks _)) eqn:Ec; cbn in Hs; [simplify_eq; by apply checked_same|].
  apply negb_false_iff in Ec. destruct (pv_fail env); [simplify_eq; by apply checked_same|].
  repeat case_match; simplify_eq; try (by eapply checked_insert; [cbn; done|]); try by apply checked_same.
  all: match goal with E : mirrorElevationDecisionToExecution ?a ?b ?c ?d ?e = _ |- _ =>
    pose proof (mirror_elevations a b c d e) as Hm; rewrite E in Hm end.
  all: eapply checked_insert; [exact Hm|done].
Qed.

Lemma revokeTx_checked env actor u reason row s s' r :
  revokeTx elevation_checks env actor u reason row s = (s', r) -> checked_step s s'.
Proof.
  unfold revokeTx. intros Hs. case_match; [simplify_eq; by apply checked_same|].
  destruct (negb (elevation_checks _)) eqn:Ec; cbn in Hs; [simplify_eq; by apply checked_same|].
  apply negb_false_iff in Ec. destruct (pv_fail env); simplify_eq; [by apply checked_same|].
  by eapply checked_insert.
Qed.

(** An actuating row violates the status constraint. *)
Lemma actuating_unchecked now e : elevation_checks (set_actuating now e) = false.
Proof. unfold elevation_checks, status_timestamps_chk. cbn. by rewrite andb_false_r. Qed.

Lemma actuateTx_checked env q dv s s' r :
  actuateTx elevation_checks env q dv s = (s', r) ->
  st_elevations s' = st_elevations s /\ st_deviceCommands s' = st_deviceCommands s /\ r <> A_command.
Proof.
  unfold actuateTx. intros Hs. destruct (st_elevations s !! _) as [row|]; [|by simplify_eq].
  destruct (negb (_ && _)); [by simplify_eq|]. destruct (pv_fail env); [by simplify_eq|].
  destruct (negb (bool_decide _)); [by simplify_eq|]. rewrite actuating_unchecked in Hs. cbn in Hs. by simplify_eq.
Qed.

Lemma set_expired_checks db e : elevation_checks e = true -> elevation_checks (set_expired db e) = true.
Proof.
  unfold elevation_checks, status_timestamps_chk, target_hash_sha256_chk, flow_shape_chk. cbn.
  rewrite !andb_true_iff. by intros [[-> ->] _].
Qed.

Lemma reap_checked key is_due recheck db js af locked s :
  checked_step s (reapElevations key is_due recheck db js af locked s).
Proof.
  intros k e'. unfold reapElevations. rewrite with_audit_elevations. cbn. intros He.
  apply sql_update_Some in He as (e & He & [[-> _]|[-> _]]); [by left|].
  right. right. by exists e, db.
Qed.

Section constraints.
Context (digest : string -> string) (toolDescription : string -> option string)
        (JSON_parse : string -> option json)
        (sha256 : string -> bytes)
        (enc : bytes -> bytes -> option string -> bytes -> bytes * bytes)
        (decr : bytes -> bytes -> option string -> bytes -> bytes -> option bytes)
        (webauthn_verify : ApprovalProof -> string -> AuthenticatorDevice -> option (bool * Z))
        (verifyMobileSignature : string -> string -> string -> bool)
        (localTime : string -> Z -> option (Z * Z))
        (sha256hex : string -> string).
#[local] Abbreviation world_step :=
  (world_step digest toolDescription JSON_parse sha256 enc decr webauthn_verify verifyMobileSignature
     localTime sha256hex elevation_checks).
#[local] Abbreviation w_reachable :=
  (w_reachable digest toolDescription JSON_parse sha256 enc decr webauthn_verify verifyMobileSignature
     localTime sha256hex elevation_checks).
#[local] Abbreviation pam_step := (pam_step localTime webauthn_verify verifyMobileSignature sha256hex elevation_checks).

Ltac unchanged := simplify_eq; by apply checked_same.

Lemma pam_step_checked env p s s' r : pam_step env p s = (s', r) -> checked_step s s'.
Proof.
  intros Hs. destruct p; cbn [Elevations.pam_step] in Hs.
  - unfold step_ingest in Hs. repeat case_match; unchanged.
  - unfold step_insert in Hs. destruct (pv_fail env); [unchanged|].
    destruct (insertElevation _ _ _) as [s1|] eqn:Ei; [|unchanged].
    repeat case_match; simplify_eq; (eapply insert_checked; [exact Ei|apply with_audit_elevations]).
  - unfold step_fanOut in Hs. simplify_eq. case_match; by apply checked_same.
  - unfold step_respond in Hs.
    repeat (case_match; try unchanged); simplify_eq; by eapply respondCas_checked.
  - unfold step_respondSiblings in Hs. simplify_eq. case_match; by apply checked_same.
  - unfold step_revoke in Hs. repeat (case_match; try unchanged); simplify_eq; by eapply revokeTx_checked.
  - unfold step_revokeTool in Hs. repeat (case_match; try unchanged); simplify_eq; by eapply revokeTx_checked.
  - unfold step_actuate in Hs. repeat (case_match; try unchanged); simplify_eq.
    match goal with E : actuateTx _ _ _ _ _ = _ |- _ => apply actuateTx_checked in E as [E _] end. by apply checked_same.
  - destruct (decideHelperToolAction _ _ _ _ _ _) as [s2 d] eqn:Ec. simplify_eq.
    unfold decideHelperToolAction in Ec. destruct (pv_rules env); [|unchanged]. destruct (pv_fail env); [unchanged|].
    destruct (insertElevation _ _ _) as [s1|] eqn:Ei; [|unchanged].
    repeat case_match; simplify_eq; (eapply insert_checked; [exact Ei|]);
      rewrite ?mirror_elevations; apply with_audit_elevations.
  - unfold step_requestTool in Hs. repeat (case_match; try unchanged); simplify_eq;
      (eapply insert_checked; [eassumption|apply with_audit_elevations]).
  - unfold step_remediation in Hs. repeat (case_match; try unchanged); simplify_eq;
      (eapply insert_checked; [eassumption|apply with_audit_elevations]).
Qed.

Lemma core_checked a w : core_ok a = true -> checked_step (w_store w)
  (sy_store (sys_step digest toolDescription JSON_parse sha256 enc decr webauthn_verify verifyMobileSignature a (w_sys w))).
Proof.
  intros Hok. destruct a as [p|n env|n|j]; cbn.
  - case_match; by apply checked_same.
  - destruct (sy_procs (w_sys w) !! n) as [p|]; [|by apply checked_same].
    destruct (proc_step _ _ _ _ _ _ _ _ env p _) as [s' r] eqn:Es. cbn.
    destruct (proc_step_pam _ _ _ _ _ _ _ _ _ _ _ _ _ Es) as [[Hv _]|Hm].
    + unfold pam_view in Hv. simplify_eq. by apply checked_same.
    + destruct Hm as (q & linked & d & b & id & e & _ & _ & _ & _ & _ & Hc & ->). by eapply checked_insert.
  - by apply checked_same.
  - apply checked_same. destruct j; cbn; try done. by case_match.
Qed.

Lemma world_checked a w : checked_step (w_store w) (w_store (world_step a w)).
Proof.
  destruct a as [a|p|n env|n|db js af l|db js ttl af l|x]; cbn.
  - destruct (core_ok a) eqn:Ea; [by apply core_checked|by apply checked_same].
  - case_match; by apply checked_same.
  - destruct (w_pam w !! n) as [p|]; [|by apply checked_same]. destruct (env_ok env); [|by apply checked_same].
    destruct (Elevations.pam_step _ _ _ _ _ env p _) as [s' r] eqn:Es. by eapply pam_step_checked.
  - by apply checked_same.
  - unfold enforceElevationExpiry. apply reap_checked.
  - unfold expireStaleRequests. apply reap_checked.
  - by apply checked_same.
Qed.

(** Every stored row satisfies the constraints. *)
Lemma rows_checked w k e :
  w_reachable w -> st_elevations (w_store w) !! k = Some e -> elevation_checks e = true.
Proof.
  intros Hw. revert k e.
  apply (w_reachable_ind _ _ _ _ _ _ _ _ _ _ _ (fun w => forall k e, st_elevations (w_store w) !! k = Some e ->
           elevation_checks e = true)) with (3 := Hw); clear w Hw.
  - intros w (_ & He & _) k e Hk. rewrite He in Hk. by rewrite lookup_empty in Hk.
  - intros a w Hw IH k e He. destruct (world_checked a w k e He) as [H|[H|(e0 & db & H & ->)]]; [by eapply IH|done|].
    eapply set_expired_checks, IH, H.
Qed.

Lemma checked_not_actuating e : elevation_checks e = true -> el_status e <> el_actuating.
Proof.
  unfold elevation_checks, status_timestamps_chk. intros H E. rewrite E, andb_false_r in H. done.
Qed.

(** C40: With the constraints of the migrations no approved elevation can ever be
    actuated: the status constraint has no case for an actuating row, so the
    swap to it throws, every well-formed request for an approved row answers
    with a server error and changes nothing, and no actuation command is ever
    queued. *)
Theorem actuation_cannot_commit w :
  w_reachable w ->
  st_deviceCommands (w_store w) = []
  /\ (forall k e, st_elevations (w_store w) !! k = Some e -> el_status e <> el_actuating)
  /\ forall env q dv e,
       st_elevations (w_store w) !! aq_elevationRequestId q = Some e -> el_status e = el_approved ->
       ec_deviceId (el_content e) = aq_deviceId q -> ec_orgId (el_content e) = dv_orgId dv ->
       actuateTx elevation_checks env q dv (w_store w) = (w_store w, A_server_error).
Proof.
  intros Hw. split_and!.
  - apply (w_reachable_ind _ _ _ _ _ _ _ _ _ _ _ (fun w => st_deviceCommands (w_store w) = [])) with (3 := Hw);
      clear w Hw; [by intros w (_ & _ & _ & Hc & _)|]. intros a w Hw IH. pose proof (w_reachable_inv _ _ _ _ _ _ _ _ _ _ _ _ Hw) as Hi.
    pose proof (world_step_elev digest toolDescription JSON_parse sha256 enc decr webauthn_verify
      verifyMobileSignature localTime sha256hex elevation_checks a w Hi) as Hs.
    destruct (es_commands _ _ Hs) as [->|(c & _ & k & e & now & u & _ & _ & He' & _)]; [done|]. exfalso.
    destruct (world_checked a w _ _ He') as [H|[H|(e0 & db & _ & H)]].
    + by apply rows_checked, checked_not_actuating in H.
    + by rewrite actuating_unchecked in H.
    + by apply (f_equal el_status) in H.
  - intros k e He. by eapply checked_not_actuating, rows_checked.
  - intros env q dv e He Hst Hd Ho. unfold actuateTx. rewrite He, Hd, Ho, Hst, !bool_decide_eq_true_2 by done. cbn.
    destruct (pv_fail env); [done|]. by rewrite actuating_unchecked.
Qed.

(** ** Denials without a reason *)

(** A denied row without a reason violates the status constraint. *)
Lemma denied_unchecked u minutes now d e : elevation_checks (decide_elevation false u None minutes now d e) = false.
Proof. unfold elevation_checks, status_timestamps_chk. cbn. by rewrite andb_false_r. Qed.

(** The steps of one decide request. *)
Definition decides (q : DecideRequest) (p : Proc) : Prop :=
  match p with
  | PDecide q' | PDecideIntent q' _ | PDecideAssure q' _ _ | PDecideCas q' _ _ | PDecideExecution q' _ _ _
  | PDecideElevation q' _ _ _ | PDecideElevSiblings q' _ _ _ _ | PDecideFanIn q' _ _ _ => q' = q
  | _ => False
  end.

Lemma decides_step env q p s s' p' :
  decides q p ->
  proc_step digest toolDescription JSON_parse sha256 enc decr webauthn_verify verifyMobileSignature env p s = (s', inl p') ->
  decides q p'.
Proof. intros Hq Hs. destruct p; try done; cbn in Hq; subst; step_cases Hs; done. Qed.

Lemma silent_denial fuel env q p s :
  dq_approve q = false -> dq_reason q = None -> decides q p ->
  st_elevations (run_alone digest toolDescription JSON_parse sha256 enc decr webauthn_verify verifyMobileSignature
                   fuel env p s).1 = st_elevations s.
Proof.
  intros Ha Hr. revert p s. induction fuel as [|fuel IH]; intros p s Hq; [done|]. cbn [run_alone].
  destruct (proc_step _ _ _ _ _ _ _ _ env p s) as [s' r] eqn:Es.
  assert (E : st_elevations s' = st_elevations s).
  { destruct (proc_step_pam _ _ _ _ _ _ _ _ _ _ _ _ _ Es) as [[Hv _]|Hm]; [unfold pam_view in Hv; by simplify_eq|].
    destruct Hm as (q' & l & d & b & id & e & -> & _ & _ & _ & _ & Hc & _). cbn in Hq. subst q'.
    by rewrite Ha, Hr, denied_unchecked in Hc. }
  destruct r as [p'|r]; [|done]. rewrite IH; [done|]. by eapply decides_step.
Qed.

(** With the constraints of the migrations a denial without a reason is
    lost: the status constraint wants a reason on a denied row, so a phone
    denial with none never touches the elevation, although the handler may
    answer success, and the web denial of a pending row answers with a server
    error; either way the row stays pending, and another approver may still
    approve it. *)
Lemma denial_without_reason_is_lost :
  (forall env q s, dq_approve q = false -> dq_reason q = None ->
     st_elevations (decideHandler digest toolDescription JSON_parse sha256 enc decr webauthn_verify
                      verifyMobileSignature env q s).1 = st_elevations s)
  /\ forall env q row d a' s, rq_approve q = false -> rq_reason q = None -> el_status row = el_pending ->
       (respondCas elevation_checks env q row d a' s).2 = A_server_error
       /\ st_elevations (respondCas elevation_checks env q row d a' s).1 = st_elevations s.
Proof.
  split.
  - intros env q s Ha Hr. by apply silent_denial with q.
  - intros env q row d a' s Ha Hr Hst. unfold respondCas.
    rewrite Hst, Ha, Hr, bool_decide_eq_true_2, denied_unchecked by done. done.
Qed.

End constraints.
