(* ===== verification/ElevationBehaviour.v ===== *)
(** * What single elevation operations do, and a run of the system

    The decision an agent's report gets, the approvers it is sent to, the atomic
    decision of a helper's tool action, and the runs that the witnesses of
    ElevationTheorems and of this file are taken from. *)

From stdpp Require Import base gmap strings list option sorting.
From Stdlib Require Import ZArith Lia Ascii.
From S2P Require Import Prelude Json PamGlob PamRules Assurance Tenant.
From S2P Require Import Permissions Auth Guardrails SecretCrypto ResultSecrets IntentStore.
From S2P Require Import IntentRelease IntentCreate IntentHandlers Elevations IntentInvariants IntentSystem.
From S2P Require Import ElevationSystem IntentTheorems ElevationTheorems.

(** ** The bridge, as the ingest reads it *)

Lemma bridge_match_None i ps :
  bv_match (matchPoliciesAgainst i ps) = None -> hitsOf blocklist i ps = [] /\ hitsOf allowlist i ps = [].
Proof.
  unfold matchPoliciesAgainst. repeat case_match; try done. intros _.
  by split; apply pickStrongestHit_None.
Qed.

Lemma pickStrongestHit_elem hits h : pickStrongestHit hits = Some h -> h ∈ hits.
Proof. intros H. by apply pickStrongestHit_spec in H as [H _]. Qed.

Lemma bridge_allow i ps :
  bv_match (matchPoliciesAgainst i ps) = Some allowlist ->
  hitsOf blocklist i ps = []
  /\ exists h, h ∈ hitsOf allowlist i ps /\ bv_binding (matchPoliciesAgainst i ps) = Some h.
Proof.
  unfold matchPoliciesAgainst. destruct (pickStrongestHit (hitsOf blocklist i ps)) as [b|] eqn:Eb; [done|].
  destruct (pickStrongestHit (hitsOf allowlist i ps)) as [a|] eqn:Ea; [|done]. intros _.
  apply pickStrongestHit_None in Eb. apply pickStrongestHit_elem in Ea. eauto.
Qed.

Lemma bridge_never_audit i ps : bv_match (matchPoliciesAgainst i ps) <> Some audit.
Proof. unfold matchPoliciesAgainst. by repeat case_match. Qed.

Lemma bridge_block i ps h : h ∈ hitsOf blocklist i ps -> bv_match (matchPoliciesAgainst i ps) = Some blocklist.
Proof.
  unfold matchPoliciesAgainst. intros Hh. destruct (pickStrongestHit (hitsOf blocklist i ps)) eqn:Eb; [done|].
  apply pickStrongestHit_None in Eb. rewrite Eb in Hh. by apply not_elem_of_nil in Hh.
Qed.

Section behaviour.
Context (localTime : string -> Z -> option (Z * Z)).

(** An enabled rule of the device's org and site approves, and no enabled rule
    that matches comes before it. *)
Definition approving_rule (env : PamEnv) (dv : Device) (p : ElevationRequestPayload) (at_ : Z) (r : PamRule) : Prop :=
  exists table groups, pv_rules env = Some table
    /\ r ∈ rulesFor (dv_orgId dv) (dv_siteId dv) table /\ ru_verdict r = auto_approve
    /\ governs localTime groups (ingestCandidate p at_) r = true
    /\ forall r', r' ∈ rulesFor (dv_orgId dv) (dv_siteId dv) table ->
         governs localTime groups (ingestCandidate p at_) r' = true -> r' = r \/ rule_le r r'.

(** An agent's report is approved without a person only when its software
    policy was read and no blocklist rule of it matches, and then either an
    allowlist rule matches, or none does and the first matching enabled rule of
    the device's org and site says so; a blocklist match is always denied,
    whatever the rules and the org default say; and a policy that cannot be
    read leaves the request to a person. *)
Lemma ingest_approves_only_by_policy_or_rule env dv p at_ :
  (forall src n, (ingestDecision localTime env dv p at_).2 = D_auto_approved src n ->
     exists policies, pv_policies env (dv_id dv) = Some policies
       /\ (forall rule f, ~ policy_hit blocklist (bridgeInput p) policies rule f)
       /\ ((exists h, h ∈ hitsOf allowlist (bridgeInput p) policies
              /\ src = src_policy (Some (lp_id (hit_policy h))) /\ n = PAM_DEFAULT_AUTO_APPROVAL_DURATION_MINUTES)
           \/ (forall rule f, ~ policy_hit allowlist (bridgeInput p) policies rule f)
              /\ exists r, approving_rule env dv p at_ r /\ src = src_rule (toMatch r)))
  /\ (forall policies rule f, pv_policies env (dv_id dv) = Some policies ->
        policy_hit blocklist (bridgeInput p) policies rule f ->
        exists src, (ingestDecision localTime env dv p at_).2 = D_denied src)
  /\ (pv_policies env (dv_id dv) = None -> (ingestDecision localTime env dv p at_).2 = D_pending).
Proof.
  unfold ingestDecision. destruct (pv_policies env (dv_id dv)) as [ps|] eqn:Eps.
  2:{ split_and!; done. }
  cbn [snd]. split_and!; [| |done].
  - intros src n Hd. exists ps. split; [done|].
    destruct (bv_match _) as [m|] eqn:Em.
    + destruct m; [| |by apply bridge_never_audit in Em]; [|done].
      apply bridge_allow in Em as [Hb (h & Hh & Ebind)]. rewrite Ebind in Hd. simplify_eq/=.
      split; [by apply hitsOf_nil|]. left. eauto.
    + apply bridge_match_None in Em as [Hb Ha]. split; [by apply hitsOf_nil|].
      right. split; [by apply hitsOf_nil|].
      destruct (pv_rules env) as [table|] eqn:Er; [|done].
      destruct (if existsb _ _ then _ else _) as [gs|]; [|done].
      set (groups := signerGroupsFor _ _ _) in Hd. set (rules := rulesFor _ _ _) in *.
      pose proof (evaluate_spec localTime groups rules (ingestCandidate p at_)) as Hspec.
      destruct (evaluatePamRules _ _ _ _) as [m|]; [|by repeat case_match].
      destruct Hspec as (r & Hr & Hg & -> & Hmin). unfold ruleDecision in Hd. cbn in Hd.
      destruct (ru_verdict r) eqn:Ev; simplify_eq/=. exists r. split; [|done]. by exists table, groups.
  - intros policies rule f [= <-] (p0 & rules & i & Hp & Hm & Hr & Hi & Hf).
    destruct (hitsOf_complete _ _ _ _ _ _ _ _ Hp Hm Hr Hi Hf) as (h & Hh & _).
    rewrite (bridge_block _ _ _ Hh). by eexists.
Qed.

End behaviour.

(** ** The approvers *)

Lemma fold_set_add_id l s y : y ∈ fold_left set_add l s <-> y ∈ s \/ y ∈ l.
Proof.
  revert s. induction l as [|x l IH]; intros s; cbn; [set_solver|]. rewrite IH, set_add_elem. set_solver.
Qed.

Lemma fold_set_add_id_NoDup l s : NoDup s -> NoDup (fold_left set_add l s).
Proof. revert s. induction l as [|x l IH]; intros s Hs; cbn; [done|]. by apply IH, set_add_NoDup. Qed.

(** The role carries a permission that covers devices:execute. *)
Definition grants_execute (dir : Directory) (roleId : string) : Prop :=
  exists pid p, (roleId, pid) ∈ dr_rolePermissions dir /\ dr_permissions dir !! pid = Some p
    /\ permissionGrantMatches p "devices" "execute" = true.

Lemma executeRoles_spec dir roleId : roleId ∈ executeRoles dir <-> grants_execute dir roleId.
Proof.
  unfold executeRoles, grants_execute. rewrite list_elem_of_omap. split.
  - intros ([r pid] & Hin & H). cbn in H. destruct (dr_permissions dir !! pid) as [p|] eqn:Hp; [|done].
    destruct (_ && _) eqn:E; [|done]. simplify_eq. bool_hyps. exists pid, p. split_and!; [done|done|].
    unfold permissionGrantMatches. apply andb_true_iff. rewrite !orb_true_iff, !bool_decide_eq_true. set_solver.
  - intros (pid & p & Hin & Hp & Hm). exists (roleId, pid). split; [done|]. cbn. rewrite Hp.
    unfold permissionGrantMatches in Hm. apply andb_true_iff in Hm as [H1 H2].
    rewrite orb_true_iff, !bool_decide_eq_true in H1, H2. rewrite !bool_decide_eq_true_2; [done|set_solver..].
Qed.

(** A membership of [u] that reaches the org with a role that grants execution. *)
Definition execute_member (dir : Directory) (orgId u : string) : Prop :=
  (exists m, m ∈ dr_organizationUsers dir /\ ou_userId m = u /\ ou_orgId m = orgId
             /\ grants_execute dir (ou_roleId m))
  \/ exists org m, dr_organizations dir !! orgId = Some org /\ o_partnerId org <> EmptyString
       /\ m ∈ dr_partnerUsers dir /\ pu_userId m = u /\ pu_partnerId m = o_partnerId org
       /\ grants_execute dir (pu_roleId m)
       /\ (pu_orgAccess m = oa_all \/ pu_orgAccess m = oa_selected /\ in_ids (pu_orgIds m) orgId = true).

Lemma org_members_elem dir orgId u :
  u ∈ ou_userId <$> List.filter (fun m => bool_decide (ou_orgId m = orgId)
        && bool_decide (ou_roleId m ∈ executeRoles dir)) (dr_organizationUsers dir)
  <-> exists m, m ∈ dr_organizationUsers dir /\ ou_userId m = u /\ ou_orgId m = orgId
             /\ grants_execute dir (ou_roleId m).
Proof.
  rewrite list_elem_of_fmap. setoid_rewrite list_filter_elem. setoid_rewrite andb_true_iff.
  setoid_rewrite bool_decide_eq_true. setoid_rewrite executeRoles_spec. naive_solver.
Qed.

Lemma elevationCandidates_elem dir orgId u :
  u ∈ elevationCandidates dir orgId <-> execute_member dir orgId u.
Proof.
  unfold elevationCandidates, execute_member. cbv zeta.
  destruct (dr_organizations dir !! orgId) as [org|] eqn:Eo.
  2:{ rewrite org_members_elem. naive_solver. }
  destruct (o_partnerId org) as [|c x] eqn:Ep; cbn [truthy].
  { rewrite org_members_elem. naive_solver. }
  rewrite elem_of_app, org_members_elem, list_elem_of_omap. f_equiv. split.
  - intros (m & Hm & H). destruct (_ && _) eqn:E; [|done]. bool_hyps.
    exists org, m. rewrite <- executeRoles_spec, Ep. split_and!; try done;
      destruct (pu_orgAccess m); try done; try (destruct (in_ids _ _) eqn:Ei); simplify_eq; auto.
  - intros (org' & m & Ho & _ & Hm & <- & Hp & Hg & Hacc). simplify_eq. exists m. split; [done|].
    rewrite <- executeRoles_spec in Hg. rewrite Hp, Ep, !bool_decide_eq_true_2 by done. cbn.
    destruct Hacc as [->|[-> ->]]; done.
Qed.

(** An agent's report is put on the phones of exactly the users who hold
    devices:execute in the org, directly or through the owning partner, and who
    have an active device with notifications on; nobody is asked twice. *)
Lemma phone_approvers_are_exactly dir mobile orgId :
  NoDup (resolveElevationApprovers dir mobile orgId)
  /\ forall u, u ∈ resolveElevationApprovers dir mobile orgId <->
       execute_member dir orgId u
       /\ exists d, d ∈ mobile /\ md_userId d = u /\ md_status d = "active"%string /\ md_notificationsEnabled d = true.
Proof.
  split; [apply fold_set_add_id_NoDup, NoDup_nil_2|]. intros u. unfold resolveElevationApprovers.
  rewrite fold_set_add_id, list_elem_of_fmap. setoid_rewrite list_filter_elem.
  setoid_rewrite andb_true_iff. setoid_rewrite andb_true_iff. setoid_rewrite bool_decide_eq_true.
  setoid_rewrite elevationCandidates_elem. split.
  - intros [H|(d & -> & Hd & [Hc Hs] & Hn)]; [by apply not_elem_of_nil in H|]. eauto 10.
  - intros (Hm & d & Hd & <- & Hs & Hn). right. eauto 10.
Qed.

(** ** Tool actions *)

Lemma mirror_flips id b u now s s' :
  mirrorElevationDecisionToExecution id b u now s = (s', true) ->
  exists t t', st_executions s !! id = Some t /\ te_status t = "pending"%string
    /\ st_executions s' !! id = Some t' /\ te_status t' = (if b then "approved" else "rejected")%string
    /\ (b = true -> te_approvedBy t' = u).
Proof.
  unfold mirrorElevationDecisionToExecution. intros H.
  destruct (st_executions s !! id) as [t|]; [|done]. case_bool_decide; [|done]. simplify_eq.
  eexists _, _. cbn. rewrite lookup_insert_eq. split_and!; try done. by intros ->.
Qed.

Section tool_actions.
Context (webauthn_verify : ApprovalProof -> string -> AuthenticatorDevice -> option (bool * Z))
        (verifyMobileSignature : string -> string -> string -> bool)
        (row_check : Elevation -> bool).

(** The decision of a tool action, and the execution it releases or rejects. *)
Definition decided_together (q : RespondRequest) (x : string) (s s' : Store) (r : PamProc + PamResponse) : Prop :=
  exists t t' row', st_executions s !! x = Some t /\ te_status t = "pending"%string
    /\ st_elevations s' !! rq_id q = Some row' /\ st_executions s' !! x = Some t'
    /\ r = inr (A_ok (el_status row'))
    /\ el_status row' = (if rq_approve q then el_approved else el_denied)
    /\ te_status t' = (if rq_approve q then "approved" else "rejected")%string
    /\ (rq_approve q = true -> te_approvedBy t' = Some (auth_userId (rq_auth q))
                               /\ el_approvedByUserId row' = Some (auth_userId (rq_auth q))).

Lemma respondCas_tool env q row d a' s s' r x :
  el_id row = rq_id q -> ec_flowType (el_content row) = ai_tool_action -> ec_executionId (el_content row) = Some x ->
  x <> EmptyString -> respondCas row_check env q row d a' s = (s', r) ->
  decided_together q x s s' (inr r)
  \/ st_elevations s' = st_elevations s /\ st_executions s' = st_executions s /\ forall st, r <> A_ok st.
Proof.
  intros Hid Hf Hx Hne Hs. unfold respondCas in Hs.
  destruct (negb (bool_decide _)); [right; by simplify_eq|].
  destruct (negb _ || _); [right; by simplify_eq|]. rewrite Hf, Hx in Hs. destruct x as [|c x]; [done|].
  destruct (mirrorElevationDecisionToExecution _ _ _ _ _) as [s2 flipped] eqn:Em.
  destruct flipped; simplify_eq; [left|right; done].
  pose proof (mirror_elevations (String c x) (rq_approve q) (if rq_approve q then Some (auth_userId (rq_auth q)) else None)
    (pv_js env) (commit_elevation (decide_elevation (rq_approve q) (auth_userId (rq_auth q)) (rq_reason q)
       (default DEFAULT_APPROVAL_DURATION_MINUTES (rq_durationMinutes q)) (pv_js env) d row)
       [auditRow row (if rq_approve q then ev_approved else ev_denied) by_technician (Some (auth_userId (rq_auth q))) (pv_js env)]
       (with_auth a' s))) as He. rewrite Em in He. cbn in He.
  apply mirror_flips in Em as (t & t' & Ht & Hp & Ht' & Hst & Hby).
  exists t, t'. eexists. cbn in Ht. rewrite He, Hid, lookup_insert_eq. split_and!; try done.
  intros Ha. rewrite Ha in *. by rewrite (Hby eq_refl).
Qed.

(** The decision on a helper's tool action and the execution it releases are
    one: when a response to it answers success, the execution was still waiting
    and is now approved, by the same person, exactly when the elevation is, or
    rejected when it is denied; and when it answers anything else, neither has
    changed. *)
Lemma tool_action_decided_with_its_execution env q row x s s' r :
  st_elevations s !! rq_id q = Some row -> el_id row = rq_id q ->
  ec_flowType (el_content row) = ai_tool_action -> ec_executionId (el_content row) = Some x -> x <> EmptyString ->
  step_respond webauthn_verify verifyMobileSignature row_check env q s = (s', r) ->
  decided_together q x s s' r
  \/ st_elevations s' = st_elevations s /\ st_executions s' = st_executions s /\ forall st, r <> inr (A_ok st).
Proof.
  intros Hrow Hid Hf Hx Hne Hs. unfold step_respond in Hs. rewrite Hrow in Hs.
  repeat (case_match; [by simplify_eq; auto|]).
  destruct (assertApprovalAssurance _ _ _ _ _ _) as [a' [d|e]]; [|right; by simplify_eq].
  destruct (respondCas row_check env q row d a' s) as [s2 r2] eqn:Ec.
  apply (respondCas_tool _ _ _ _ _ _ _ _ x) in Ec; [|done..].
  assert (Hr : s2 = s' /\ inr r2 = r).
  { destruct r2; try by simplify_eq. rewrite Hf in Hs. rewrite bool_decide_eq_false_2 in Hs by done. by simplify_eq. }
  destruct Hr as [<- <-]. destruct Ec as [?|(? & ? & Hno)]; [by left|right]. split_and!; [done|done|].
  intros st [= ->]. by eapply Hno.
Qed.

End tool_actions.

(** ** A run *)

Definition demo_device : Device :=
  {| dv_id := "dev"; dv_agentId := "agent"; dv_orgId := "org"; dv_siteId := None; dv_hostname := "pc";
     dv_status := "online" |}.

Definition demo_phone : MobileDevice :=
  {| md_userId := "u"; md_status := "active"; md_notificationsEnabled := true |}.

Definition demo_pam_env (now : Z) : PamEnv :=
  {| pv_js := now; pv_db := now; pv_pick := 0; pv_fail := false; pv_auditFail := false;
     pv_insertFails := fun _ => false; pv_dir := demo_dir; pv_assurance := Some None;
     pv_devices := [demo_device]; pv_policies := fun _ => Some []; pv_rules := Some []; pv_groups := Some [];
     pv_config := Some ∅; pv_mobile := [demo_phone] |}.

Definition demo_payload : ElevationRequestPayload :=
  {| pl_subject_username := "bob"; pl_target_executable_path := "C:\Tools\setup.exe";
     pl_target_executable_hash := None; pl_target_executable_signer := None;
     pl_target_executable_signer_thumbprint := None; pl_parent_image := None; pl_command_line := None;
     pl_observed_at := None |}.

Definition demo_report : IngestRequest :=
  {| ir_agentId := "agent"; ir_contentLength := None; ir_rateAllowed := true; ir_payload := demo_payload;
     ir_newId := "elev"; ir_rowIds := ["row"%string] |}.

Definition demo_respond (id user : string) (yes : bool) (reason : option string) : RespondRequest :=
  {| rq_auth := demo_auth_of user; rq_perms := resolvePermissions 0 None demo_dir "u" demo_context; rq_mfa := true;
     rq_id := id; rq_approve := yes; rq_reason := reason; rq_durationMinutes := None; rq_proof := None;
     rq_reauthVerified := false |}.

Definition demo_actuate : ActuateRequest :=
  {| aq_auth := demo_auth_of "u"; aq_perms := resolvePermissions 0 None demo_dir "u" demo_context; aq_mfa := true;
     aq_deviceId := "dev"; aq_elevationRequestId := "elev"; aq_timeoutMs := None |}.

Definition demo_remediation : RemediationElevation :=
  {| me_userId := "ann"; me_userLabel := "a@x"; me_orgId := "org"; me_siteId := None; me_deviceId := "dev";
     me_title := "fix"; me_riskTier := "high"; me_newId := "elev" |}.

Definition demo_utc (tz : string) (at_ : Z) : option (Z * Z) := None.

(** The run with a table that accepts every row, and with the real constraints. *)
Definition demo_w (check : Elevation -> bool) (acts : list WAction) : World :=
  w_trace (fun s => s) (fun _ => None) (fun _ => None) of_text toy_enc toy_dec demo_wv demo_mv demo_utc (fun s => s) check
    acts {| w_sys := {| sy_store := empty_store; sy_procs := [] |}; w_pam := [] |}.

Lemma demo_w_reachable check acts :
  w_reachable (fun s => s) (fun _ => None) (fun _ => None) of_text toy_enc toy_dec demo_wv demo_mv demo_utc (fun s => s)
    check (demo_w check acts).
Proof. eexists _, acts. split; [|done]. by split_and!. Qed.

Definition pam_runs (n : nat) (now : Z) : list WAction := replicate n (PRun 0 (demo_pam_env now)).

(** An agent reports, an administrator approves, another one actuates. *)
Definition acts_reported : list WAction := PSpawn (MIngest demo_report) :: pam_runs 3 1000.
Definition acts_granted : list WAction :=
  acts_reported ++ PSpawn (MRespond (demo_respond "elev" "u" true None)) :: pam_runs 2 2000.
Definition acts_actuated : list WAction := acts_granted ++ PSpawn (MActuate demo_actuate) :: pam_runs 1 3000.

(** A technician asks for a remediation, someone else approves it. *)
Definition acts_remediated : list WAction :=
  PSpawn (MRemediation demo_remediation) :: pam_runs 1 1000
  ++ PSpawn (MRespond (demo_respond "elev" "u" true None)) :: pam_runs 1 2000.

Definition any_row (e : Elevation) : bool := true.

Definition demo_el (check : Elevation -> bool) (acts : list WAction) : Elevation :=
  default (remediationRow demo_remediation 0) (st_elevations (w_store (demo_w check acts)) !! "elev"%string).

Lemma elevation_lifecycle_witness :
  el_status (demo_el any_row acts_reported) = el_pending /\ el_status (demo_el any_row acts_granted) = el_approved
  /\ exists e', st_elevations (w_store (demo_w any_row acts_granted)) !! "elev"%string = Some e'
       /\ el_content e' = el_content (demo_el any_row (take 6 acts_granted)).
Proof.
  split_and!; [by vm_compute..|].
  destruct (elevation_lifecycle _ _ _ _ _ _ _ _ _ _ _ (demo_w any_row (take 6 acts_granted)) (PRun 0 (demo_pam_env 2000)) "elev"
    (demo_el any_row (take 6 acts_granted)) (demo_w_reachable _ _)) as (e' & He' & Hc & _); [by vm_compute|].
  exists e'. split; [|done]. rewrite <- He'. by vm_compute.
Defined.

Lemma grants_witness :
  el_status (demo_el any_row acts_granted) = el_approved
  /\ exists from till, el_approvedAt (demo_el any_row acts_granted) = Some from
       /\ el_expiresAt (demo_el any_row acts_granted) = Some till
       /\ from < till <= from + MAX_APPROVAL_DURATION_MINUTES * 60000.
Proof.
  split; [by vm_compute|].
  refine (proj1 (grants_are_bounded_and_attributed _ _ _ _ _ _ _ _ _ _ _ (demo_w any_row acts_granted) "elev"
    (demo_el any_row acts_granted) (demo_w_reachable _ _) _ _)); [by vm_compute|].
  apply active_cases. left. by vm_compute.
Defined.

Lemma actuated_once_witness :
  length (st_deviceCommands (w_store (demo_w any_row acts_actuated))) = 1%nat
  /\ (count_if (command_of "elev") (st_deviceCommands (w_store (demo_w any_row acts_actuated))) <= 1)%nat.
Proof.
  split; [by vm_compute|].
  exact (proj1 (actuated_at_most_once _ _ _ _ _ _ _ _ _ _ _ (demo_w any_row acts_actuated) "elev" (demo_w_reachable _ _))).
Defined.

Lemma audited_witness :
  el_approvedByUserId (demo_el any_row acts_granted) = Some "u"%string
  /\ audited (w_store (demo_w any_row acts_granted)) (demo_el any_row acts_granted) ev_approved "u".
Proof.
  split; [by vm_compute|].
  eapply (human_decisions_are_audited _ _ _ _ _ _ _ _ _ _ _ (demo_w any_row acts_granted) "elev"
    (demo_el any_row acts_granted) "u" (demo_w_reachable _ _)); by vm_compute.
Defined.

Lemma grants_expire_witness :
  exists till, el_expiresAt (demo_el any_row acts_granted) = Some till
    /\ st_elevations (enforceElevationExpiry 9000000 9000000 false [] (w_store (demo_w any_row acts_granted))) !! "elev"%string
       = Some (set_expired 9000000 (demo_el any_row acts_granted)).
Proof.
  destruct (grants_expire _ _ _ _ _ _ _ _ _ _ _ (demo_w any_row acts_granted) "elev"
    (demo_el any_row acts_granted) (demo_w_reachable _ _)) as (till & Ht & H);
    [by vm_compute|apply active_cases; left; by vm_compute|].
  exists till. split; [done|]. apply H.
  - assert (till = 902000) as -> by (vm_compute in Ht; congruence). lia.
  - apply not_elem_of_nil.
  - apply (Nat.le_trans _ 1); [apply Nat.leb_le; by vm_compute|unfold MAX_PER_RUN; lia].
Defined.

Lemma remediation_witness :
  validateRemediationExecutionApproval "high" "org" "dev" (Some "elev"%string) 3000 (w_store (demo_w elevation_checks acts_remediated)) = None
  /\ exists id e till, Some "elev"%string = Some id
       /\ st_elevations (w_store (demo_w elevation_checks acts_remediated)) !! id = Some e /\ el_expiresAt e = Some till /\ 3000 <= till.
Proof.
  split; [by vm_compute|].
  destruct (remediation_needs_a_second_opinion _ _ _ _ _ _ _ _ _ _ _ (demo_w elevation_checks acts_remediated) "high" "org" "dev"
    (Some "elev"%string) 3000 (demo_w_reachable _ _)) as (id & e & till & H1 & H2 & _ & _ & H3 & H4 & _);
    [by vm_compute|by vm_compute|]. by exists id, e, till.
Defined.

Lemma actuation_cannot_commit_witness :
  el_status (demo_el elevation_checks acts_granted) = el_approved
  /\ st_deviceCommands (w_store (demo_w elevation_checks acts_actuated)) = [].
Proof.
  split; [by vm_compute|].
  exact (proj1 (actuation_cannot_commit _ _ _ _ _ _ _ _ _ _ (demo_w elevation_checks acts_actuated) (demo_w_reachable _ _))).
Defined.

Definition demo_tool : ToolActionParams :=
  {| ta_orgId := "org"; ta_deviceId := "dev"; ta_executionId := "ex"; ta_toolName := "run_script";
     ta_toolInput := []; ta_riskTier := 2; ta_subjectUsername := "pc"; ta_newId := "elev" |}.

Definition demo_execution : ToolExecution :=
  {| te_id := "ex"; te_status := "pending"; te_approvedBy := None; te_approvedAt := None; te_completedAt := None;
     te_errorMessage := None |}.

(** The helper asks for a tool; its execution waits. *)
Definition acts_tool : list WAction :=
  PExecutions {[ "ex" := demo_execution ]} :: PSpawn (MHelper demo_tool) :: pam_runs 1 1000.

Definition tool_store : Store := w_store (demo_w elevation_checks acts_tool).

Lemma tool_action_witness :
  exists s' r, step_respond demo_wv demo_mv elevation_checks (demo_pam_env 2000) (demo_respond "elev" "u" true None) tool_store
               = (s', r) /\ r = inr (A_ok el_approved)
    /\ decided_together (demo_respond "elev" "u" true None) "ex" tool_store s' r.
Proof.
  destruct (step_respond demo_wv demo_mv elevation_checks (demo_pam_env 2000) (demo_respond "elev" "u" true None) tool_store)
    as [s' r] eqn:E.
  assert (Hr : r = inr (A_ok el_approved)) by (vm_compute in E; by injection E as _ <-).
  exists s', r. split_and!; [done|done|].
  destruct (tool_action_decided_with_its_execution demo_wv demo_mv elevation_checks (demo_pam_env 2000)
    (demo_respond "elev" "u" true None) (demo_el elevation_checks acts_tool) "ex" tool_store s' r) as [H|(_ & _ & H)];
    try by vm_compute. by destruct (H el_approved).
Defined.

(** The phone side of a run that reached a pending report. *)
Definition phone_store : Store := w_store (demo_w elevation_checks acts_reported).

(** A denial from the phone, with no reason: the answer is success, the approval
    row is denied, the elevation still pending. *)
Example phone_denial_demo :
  let '(s', r) := decideHandler (fun s => s) (fun _ => None) (fun _ => None) of_text toy_enc toy_dec demo_wv demo_mv
                    (demo_world demo_dir 2000) (demo_decide "u" false) phone_store in
  r = Some R_ok /\ (ap_status <$> st_approvals s' !! "row"%string) = Some ap_denied
  /\ (el_status <$> st_elevations s' !! "elev"%string) = Some el_pending.
Proof. by vm_compute. Qed.

(** When the audit insert of a phone approval throws, the elevation is rolled
    back to pending but the flag that it was won is kept, and the rows of the
    other approvers are expired. *)
Lemma rolled_back_mirror_expires_siblings env q linked d b c x s e k a :
  ap_elevationRequestId b = Some (String c x) -> st_elevations s !! String c x = Some e -> el_status e = el_pending ->
  elevation_checks (decide_elevation (dq_approve q) (auth_userId (dq_auth q)) (dq_reason q) PAM_ELEVATION_GRANT_MINUTES
                      (e_js env) d e) = true ->
  e_fail env = false -> e_failLate env = true ->
  st_approvals s !! k = Some a -> ap_elevationRequestId a = Some (String c x) -> ap_id a <> ap_id b ->
  ap_status a = ap_pending ->
  exists s1 s2 p, step_decideElevation env q linked d b s = (s1, inl (PDecideElevSiblings q linked d b (String c x)))
    /\ step_decideElevSiblings env q linked d b (String c x) s1 = (s2, p)
    /\ st_elevations s2 !! String c x = Some e
    /\ st_approvals s2 !! k = Some (set_approval_status ap_expired None a).
Proof.
  intros Hb He Hst Hc Hf Hl Ha Hae Hne Hap. exists s. eexists _, _. unfold step_decideElevation.
  rewrite Hb, He, Hst, Hc, Hf, Hl, bool_decide_eq_true_2 by done. split; [done|].
  unfold step_decideElevSiblings. rewrite Hf. split; [done|]. split; [done|]. cbn.
  rewrite (sql_update_lookup_Some _ _ _ _ _ Ha), Hae, Hap, !bool_decide_eq_true_2, bool_decide_eq_false_2 by done. done.
Qed.
