(* ===== verification/IntentBehaviour.v ===== *)
(** * What each operation does

    Functional behaviour of the approval layer's operations, run alone:
    revalidation before a release (revalidateRelease.ts, actorContext.ts), which
    tools the worker can run, creation and its replay (intentService.ts), decide
    (routes/approvals.ts), cancel, and the one-time reveal (routes/actionIntents.ts). *)

From stdpp Require Import base gmap strings list option.
From Stdlib Require Import ZArith Lia Ascii.
From S2P Require Import Prelude Json Tenant Permissions Auth GuardrailTables.
From S2P Require Import ApprovalText Guardrails Assurance SecretCrypto ResultSecrets IntentStore.
From S2P Require Import IntentRelease IntentCreate IntentHandlers IntentInvariants IntentSystem IntentTheorems.

(** ** Revalidation *)

(** The identity a release acts under, rebuilt from the directory of now. *)
Record rebuilt_for (getPerms : string -> PermContext -> option UserPermissions) (dir : Directory)
    (c : IntentContent) (auth : AuthContext) : Prop := {
  rb_requester : ic_requestedByUserId c = Some (auth_userId auth);
  rb_active : exists u, dr_users dir !! auth_userId auth = Some u /\ u_status u = "active"%string;
  rb_perms : exists perms, getPerms (auth_userId auth)
      {| pc_partnerId := ic_partnerId c; pc_orgId := Some (ic_orgId c) |} = Some perms
    /\ canAccessOrg perms (ic_orgId c) = true /\ auth_token auth = Some (Some (up_roleId perms))
    /\ auth_allowedSiteIds auth = up_allowedSiteIds perms;
  rb_scope : auth_scope auth = organization /\ auth_orgId auth = Some (ic_orgId c)
    /\ forall o, auth_canAccessOrg auth o = true <-> o = ic_orgId c;
  rb_principal : isInteractiveUserSession (auth_principal auth) = true
    <-> ic_originPrincipalKind c = "user_session"%string;
}.

Lemma originPrincipalFor_interactive c :
  isInteractiveUserSession (originPrincipalFor c) = true <-> ic_originPrincipalKind c = "user_session"%string.
Proof.
  unfold isInteractiveUserSession. rewrite bool_decide_eq_true. unfold originPrincipalFor.
  split; [|by intros ->]. intros Hp.
  destruct (decide (ic_originPrincipalKind c = "user_session"%string)) as [|Hne]; [done|].
  exfalso. repeat case_match; congruence.
Qed.

Lemma buildAuthContext_rebuilt getPerms dir c auth :
  buildAuthContextForIntent getPerms dir c = Some auth -> rebuilt_for getPerms dir c auth.
Proof.
  unfold buildAuthContextForIntent. destruct (truthy (ic_requestedByUserId c)).
  - destruct (ic_requestedByUserId c) as [u|] eqn:Eu; [|done]. unfold buildUserOwnedAuthContext. intros Hb.
    destruct (dr_users dir !! u) as [row|] eqn:Er; [|done].
    destruct (negb (bool_decide (u_status row = _))) eqn:Es; [done|]. bool_hyps.
    destruct (getPerms _ _) as [perms|] eqn:Ep; [|done].
    destruct (negb (canAccessOrg perms _)) eqn:Ec; [done|]. bool_hyps. simplify_eq.
    split; cbn; eauto using originPrincipalFor_interactive.
    split_and!; [done..|]. intros o. unfold auth_canAccessOrg. cbn. rewrite bool_decide_eq_true. set_solver.
  - destruct (truthy (ic_requestingApiKeyId c)); [|done].
    destruct (ic_requestingApiKeyId c); [|done]. unfold buildApiKeyOwnedAuthContext. by repeat case_match.
Qed.

(** C21: A release goes ahead only if the approved digest, the stored digest and the
    digest of the stored arguments agree, the tool still exists and its tier has
    not risen above the approved one, the requester is still an active user with
    access to the organization, the organization's tenant is active, and the tool's
    permissions are granted; and the tool then acts as that requester, confined
    to that one organization, and as an interactive session only if the request
    came from one. *)
Theorem revalidation_is_sound digest getPerms dir reg i w auth :
  revalidateApprovedIntentForRelease digest getPerms dir reg i w = RevalidationOk auth ->
  w = Some (Some (ic_argumentDigest (it_content i)))
  /\ content_ok digest (it_content i)
  /\ (exists t, getToolTier reg (ic_actionName (it_content i)) = Ok (Some t)
                /\ (t = TInherited \/ tier_leb t (ic_riskTier (it_content i)) = true))
  /\ rebuilt_for getPerms dir (it_content i) auth
  /\ getActiveOrgTenant dir (ic_orgId (it_content i)) <> None
  /\ checkToolPermission getPerms (ic_actionName (it_content i)) (ic_arguments (it_content i)) auth = Ok None.
Proof.
  unfold revalidateApprovedIntentForRelease. intros Hr.
  destruct w as [bound|]; [|done]. destruct (negb (bool_decide (bound = _))) eqn:Eb; [done|].
  destruct (canonicalizeArguments _) as [canonical|] eqn:Ec; [|done].
  destruct (negb (bool_decide (digest canonical = _))) eqn:Ed; [done|].
  destruct (getToolTier _ _) as [[t|]|] eqn:Et; [|done..].
  destruct (negb (tier_leb t _) && _) eqn:Etl; [done|].
  destruct (buildAuthContextForIntent _ _ _) as [a|] eqn:Ea; [|done].
  destruct (getActiveOrgTenant _ _) as [o|] eqn:Eo; [|done].
  destruct (checkToolPermission _ _ _ _) as [[d|]|] eqn:Ep; simplify_eq. bool_hyps. subst.
  split_and!; try done.
  - by exists canonical.
  - exists t. split; [done|]. apply andb_false_iff in Etl as [Etl|Etl]; bool_hyps; [by right|].
    left. by apply dec_stable.
  - by apply buildAuthContext_rebuilt.
Qed.

(** Every approval-required Google and Microsoft 365 tool can be released by the
    worker without a chat session: none of them fails with [session_required]. *)
Lemma headless_parity reg name t :
  (name, t) ∈ googleToolTiers ++ m365ToolTiers -> 3 <= t -> sessionRequired reg name = Ok false.
Proof.
  intros Hin Ht.
  assert (Hall : forallb (fun kt => (kt.2 <? 3) || isHeadlessGoogleTool kt.1 || isHeadlessM365Tool kt.1)
                   (googleToolTiers ++ m365ToolTiers) = true) by (vm_compute; reflexivity).
  rewrite forallb_forall in Hall. apply list_elem_of_In, Hall in Hin. cbn in Hin.
  unfold sessionRequired. destruct (t <? 3) eqn:E; [bool_hyps; lia|]. cbn in Hin. by rewrite Hin.
Qed.

Lemma headless_parity_witness :
  sessionRequired {| tr_aiTools := ∅; tr_extension := ∅ |} "google_reset_password" = Ok false.
Proof.
  apply (headless_parity _ "google_reset_password" 3); [|lia].
  apply (bool_decide_unpack _). vm_compute. exact I.
Defined.

Lemma revalidation_witness :
  exists auth, rebuilt_for (fun u c => resolvePermissions 0 None two_admins u c) two_admins
                 (it_content (demo_intent acts_approved)) auth /\ auth_userId auth = "ann"%string.
Proof.
  destruct (revalidateApprovedIntentForRelease (fun s => s) (fun u c => resolvePermissions 0 None two_admins u c)
              two_admins {| tr_aiTools := ∅; tr_extension := ∅ |} (demo_intent acts_approved)
              (Some (Some (ic_argumentDigest (it_content (demo_intent acts_approved)))))) as [auth| |] eqn:E;
    [|vm_compute in E; discriminate..].
  exists auth. split; [|vm_compute in E; injection E as <-; reflexivity].
  exact (proj1 (proj2 (proj2 (proj2 (revalidation_is_sound _ _ _ _ _ _ _ E))))).
Defined.

(** ** Decide *)

Section decide.
Context (digest : string -> string) (toolDescription : string -> option string)
        (JSON_parse : string -> option json)
        (sha256 : string -> bytes)
        (enc : bytes -> bytes -> option string -> bytes -> bytes * bytes)
        (decr : bytes -> bytes -> option string -> bytes -> bytes -> option bytes)
        (webauthn_verify : ApprovalProof -> string -> AuthenticatorDevice -> option (bool * Z))
        (verifyMobileSignature : string -> string -> string -> bool).
#[local] Abbreviation run_alone :=
  (run_alone digest toolDescription JSON_parse sha256 enc decr webauthn_verify verifyMobileSignature).
#[local] Abbreviation decideHandler :=
  (decideHandler digest toolDescription JSON_parse sha256 enc decr webauthn_verify verifyMobileSignature).
#[local] Abbreviation cancelActionIntent :=
  (cancelActionIntent digest toolDescription JSON_parse sha256 enc decr webauthn_verify verifyMobileSignature).
#[local] Abbreviation revealSecret :=
  (revealSecret digest toolDescription JSON_parse sha256 enc decr webauthn_verify verifyMobileSignature).

(** The decider may decide for the intent's organization as of now and, for their
    own intent, is the only one who may. *)
Definition may_approve (env : Env) (userId : string) (partnerId : option string) (c : IntentContent) : Prop :=
  (exists perms, e_perms env userId {| pc_partnerId := partnerId; pc_orgId := Some (ic_orgId c) |} = Some perms
     /\ canAccessOrg perms (ic_orgId c) = true /\ userCanDecideApprovals perms = true)
  /\ (ic_requestedByUserId c = Some userId ->
      forall u, u ∈ resolveIntentApprovers (e_dir env) (ic_orgId c) <-> u = userId).

Lemma decideGuard_None env q a i :
  decideGuard env q a i = None -> dq_approve q = true ->
  (truthy (ap_boundArgumentDigest a) = true -> ap_boundArgumentDigest a = Some (ic_argumentDigest (it_content i)))
  /\ may_approve env (auth_userId (dq_auth q)) (auth_partnerId (dq_auth q)) (it_content i).
Proof.
  unfold decideGuard. intros Hg Hap. rewrite Hap in Hg. cbn [negb] in Hg.
  destruct (truthy _ && _) eqn:Ed; [done|].
  destruct (e_perms _ _ _) as [perms|] eqn:Ep; [|done].
  destruct (negb (canAccessOrg _ _) || _) eqn:Ec; [done|]. bool_hyps. split.
  - intros Ht. rewrite Ht in Ed. cbn in Ed. by bool_hyps.
  - split; [by exists perms|]. intros Hr. rewrite bool_decide_eq_true_2 in Hg by done.
    destruct (negb (bool_decide (List.filter _ _ = [])) || _) eqn:Es; [done|]. bool_hyps.
    intros u. split; [|by intros ->]. intros Hu. apply dec_stable. intros Hne.
    assert (Hx : u ∈ List.filter (fun u => negb (bool_decide (u = auth_userId (dq_auth q))))
                   (resolveIntentApprovers (e_dir env) (ic_orgId (it_content i)))).
    { apply list_filter_elem. split; [done|]. by rewrite bool_decide_eq_false_2. }
    match goal with E : List.filter _ _ = [] |- _ => rewrite E in Hx end. by apply not_elem_of_nil in Hx.
Qed.

Lemma decideGuard_not_ok env q a i : decideGuard env q a i <> Some R_ok.
Proof. unfold decideGuard. by repeat case_match. Qed.

(** An approval of an intent succeeds only for the user the row was fanned out
    to, before the row's deadline, with the digest unchanged, while that user still
    may decide for the organization; and approving one's own intent succeeds only
    while one is the organization's only eligible approver. *)
Lemma approve_needs_live_authority env q s s' a id :
  decideHandler env q s = (s', Some R_ok) -> dq_approve q = true ->
  st_approvals s !! dq_id q = Some a -> ap_intentId a = Some id -> id <> EmptyString ->
  ap_userId a = auth_userId (dq_auth q) /\ e_js env < ap_expiresAt a
  /\ exists i, st_intents s !! id = Some i
     /\ (truthy (ap_boundArgumentDigest a) = true -> ap_boundArgumentDigest a = Some (ic_argumentDigest (it_content i)))
     /\ may_approve env (auth_userId (dq_auth q)) (auth_partnerId (dq_auth q)) (it_content i).
Proof.
  unfold IntentHandlers.decideHandler, HANDLER_FUEL. intros Hd Hap Ha Hi Hne.
  cbn [IntentHandlers.run_alone proc_step] in Hd. unfold step_decide at 1 in Hd. rewrite Ha in Hd.
  destruct (negb (bool_decide (ap_userId a = _))) eqn:Eu; [done|].
  destruct (negb (bool_decide (ap_status a = _))) eqn:Es; [done|].
  destruct (ap_expiresAt a <=? e_js env) eqn:Ee; [done|]. bool_hyps.
  destruct id as [|c id]; [done|]. rewrite Hi in Hd. cbn [truthy] in Hd.
  split_and!; [done..|]. cbn [IntentHandlers.run_alone proc_step] in Hd.
  unfold step_decideIntent at 1 in Hd. rewrite Hi in Hd.
  destruct (st_intents s !! _) as [i|] eqn:Ei; [|done].
  destruct (decideGuard env q a i) as [r|] eqn:Eg.
  - simplify_eq. by destruct (decideGuard_not_ok env q a i).
  - exists i. split; [done|]. by apply decideGuard_None.
Qed.

(** The last step of a denial, from any store where the row is denied. *)
Lemma fanIn_denied q id u now d s i b :
  dq_approve q = false -> auth_userId (dq_auth q) = u ->
  st_intents s !! id = Some i -> it_status i = pending_approval ->
  st_approvals s !! dq_id q = Some b -> ap_status b = ap_denied -> ap_id b = dq_id q ->
  (forall k x, st_approvals s !! k = Some x -> ap_id x = k) ->
  let s' := (fanInDecision q id (ap_id b) now d s).1 in
  (exists i', st_intents s' !! id = Some i' /\ it_status i' = rejected /\ lc_decidedByUserId (it_life i') = Some u)
  /\ forall k x, st_approvals s' !! k = Some x -> ap_intentId x = Some id -> ap_status x <> ap_pending.
Proof.
  intros Hap Hu Hi Hst Hb Hbst Hbid Hkeys. cbv zeta. unfold fanInDecision, transitionIntent, transition_ok.
  rewrite Hi, Hap, Hst, bool_decide_eq_true_2 by set_solver. cbn -[expireSiblings]. split.
  - eexists. rewrite lookup_insert_eq. split_and!; [done|done|]. cbn. by rewrite Hu.
  - intros k x Hx Hint Hp. unfold expireSiblings in Hx.
    apply sql_update_Some in Hx as (y & Hy & [[-> Hg]|[-> _]]); [|done].
    rewrite Hint, Hp, !bool_decide_eq_true_2 in Hg by done. cbn in Hg. bool_hyps.
    apply Hkeys in Hy as Hyk. assert (Heq : k = dq_id q) by congruence. subst k. congruence.
Qed.

Lemma run_alone_S f env p s :
  run_alone (S f) env p s =
  match proc_step digest toolDescription JSON_parse sha256 enc decr webauthn_verify verifyMobileSignature env p s with
  | (s', inl p') => run_alone f env p' s'
  | (s', inr r) => (s', Some r)
  end.
Proof. done. Qed.

(** What a denial leaves of intent [id]. *)
Definition denied_by (q : DecideRequest) (id : string) (s' : Store) : Prop :=
  (exists i', st_intents s' !! id = Some i' /\ it_status i' = rejected
              /\ lc_decidedByUserId (it_life i') = Some (auth_userId (dq_auth q)))
  /\ forall k x, st_approvals s' !! k = Some x -> ap_intentId x = Some id -> ap_status x <> ap_pending.

Lemma deny_tail env q linked d b s id i :
  dq_approve q = false -> e_fail env = false -> ap_intentId b = Some id -> id <> EmptyString ->
  st_intents s !! id = Some i -> it_status i = pending_approval ->
  st_approvals s !! dq_id q = Some b -> ap_status b = ap_denied -> ap_id b = dq_id q ->
  (forall k x, st_approvals s !! k = Some x -> ap_id x = k) ->
  exists s', run_alone 4 env (PDecideExecution q (Some linked) d b) s = (s', Some R_ok) /\ denied_by q id s'.
Proof.
  intros Hap Hf Hai Hne Hi Hist Hb Hst Hid Hkeys. destruct id as [|c id]; [done|].
  cbn [IntentHandlers.run_alone proc_step]. unfold step_decideExecution at 1.
  set (s1 := if truthy (ap_executionId b) && negb (e_fail env) then _ else s).
  assert (H1 : st_intents s1 = st_intents s /\ st_approvals s1 = st_approvals s) by (unfold s1; by case_match).
  destruct H1 as [Hi1 Ha1]. clearbody s1. rewrite <- Hi1 in Hi. rewrite <- Ha1 in Hb, Hkeys.
  assert (Hfan : forall f s2, st_intents s2 = st_intents s1 -> st_approvals s2 !! dq_id q = Some b ->
            (forall k x, st_approvals s2 !! k = Some x -> ap_id x = k) ->
            exists s', run_alone (S f) env (PDecideFanIn q (Some linked) d b) s2 = (s', Some R_ok)
                       /\ denied_by q (String c id) s').
  { intros f s2 Hi2 Hb2 Hk2. cbn [IntentHandlers.run_alone proc_step]. unfold step_decideFanIn. rewrite Hai, Hf. eexists. split; [done|].
    eapply fanIn_denied; eauto. by rewrite Hi2. }
  assert (Helev : exists s', (let (s', r) := proc_step digest toolDescription JSON_parse sha256 enc decr webauthn_verify
      verifyMobileSignature env (PDecideElevation q (Some linked) d b) s1 in
      match r with inl p => run_alone 2 env p s' | inr r => (s', Some r) end) = (s', Some R_ok)
      /\ denied_by q (String c id) s'); [|exact Helev].
  cbn [proc_step]. unfold step_decideElevation.
  destruct (ap_elevationRequestId b) as [[|e1 e2]|]; [apply (Hfan _ s1); auto| |apply (Hfan _ s1); auto].
  destruct (st_elevations s1 !! _) as [el|]; [|apply (Hfan _ s1); auto].
  rewrite Hf. destruct (bool_decide _ && _ && _) eqn:Eg; [|rewrite ?Eg; apply (Hfan _ s1); auto].
  set (s2 := if e_failLate env then s1 else _).
  assert (H2 : st_intents s2 = st_intents s1 /\ st_approvals s2 = st_approvals s1) by (unfold s2; by case_match).
  destruct H2 as [Hi2 Ha2]. clearbody s2. rewrite <- Ha2 in Hb, Hkeys.
  rewrite run_alone_S. cbn [proc_step]. unfold step_decideElevSiblings at 1. rewrite Hf.
  apply Hfan; [done|..].
  - cbn [with_approvals st_approvals]. rewrite (sql_update_lookup_Some _ _ _ _ _ Hb).
    rewrite (bool_decide_eq_true_2 (ap_id b = ap_id b)) by done. cbn. by rewrite andb_false_r.
  - intros k x Hx. cbn [with_approvals st_approvals] in Hx.
    apply sql_update_Some in Hx as (y & Hy & [[-> _]|[-> _]]); [by apply Hkeys|]. by apply Hkeys in Hy.
Qed.

(** A denial always goes through: the addressee of a pending, unexpired row of a
    pending intent denies it with no factor and whatever permissions they still
    have, the intent is rejected on their decision, and no approval row of it is
    left pending. *)
Lemma deny_rejects_the_intent env q s a id i :
  store_inv digest s -> st_approvals s !! dq_id q = Some a ->
  ap_userId a = auth_userId (dq_auth q) -> ap_status a = ap_pending -> e_js env < ap_expiresAt a ->
  ap_intentId a = Some id -> id <> EmptyString ->
  st_intents s !! id = Some i -> it_status i = pending_approval ->
  dq_approve q = false -> dq_proof q = None -> e_fail env = false ->
  exists s', decideHandler env q s = (s', Some R_ok)
    /\ denied_by q id s'.
Proof.
  intros Hinv Ha Hu Hst Hexp Hai Hne Hi Hist Hap Hpr Hf.
  destruct (inv_approval _ _ Hinv _ _ Ha) as [Hid Hb]. destruct (Hb _ Hai) as (i0 & Hi0 & Hbd). simplify_eq.
  assert (Hkeys : forall k x, st_approvals s !! k = Some x -> ap_id x = k) by apply (inv_approval _ _ Hinv).
  unfold IntentHandlers.decideHandler, HANDLER_FUEL. cbn [IntentHandlers.run_alone proc_step].
  unfold step_decide at 1. rewrite Ha, !bool_decide_eq_true_2 by done. cbn [negb].
  replace (ap_expiresAt a <=? e_js env) with false by (symmetry; apply Z.leb_gt; lia).
  destruct id as [|c id]; [done|]. rewrite Hai. cbn [truthy IntentHandlers.run_alone proc_step].
  unfold step_decideIntent at 1. rewrite Hai, Hi.
  assert (Hg : decideGuard env q a i = None).
  { unfold decideGuard. rewrite Hbd, bool_decide_eq_true_2, Hap by done. by rewrite andb_false_r. }
  rewrite Hg. cbn [IntentHandlers.run_alone proc_step]. unfold step_decideAssure at 1.
  rewrite (deny_passes webauthn_verify verifyMobileSignature) by done.
  replace (selfApprovalRefused q (Some i) _) with false by (unfold selfApprovalRefused; by rewrite Hap).
  cbn [IntentHandlers.run_alone proc_step]. unfold step_decideCas at 1.
  cbn [with_auth st_approvals]. rewrite Ha, !bool_decide_eq_true_2 by done.
  replace (e_js env <? ap_expiresAt a) with true by (symmetry; by apply Z.ltb_lt). rewrite Hap. cbn [andb].
  eapply deny_tail; try done; cbn [with_approvals with_auth st_intents st_approvals]; try done.
  - by rewrite lookup_insert_eq.
  - intros k x Hx. apply lookup_insert_Some in Hx as [[<- <-]|[_ Hx]]; [done|by apply Hkeys].
Qed.

(** ** Cancel *)

(** [cancelActionIntent] asks for the caller's permissions with the organization
    alone, so an approver who holds their role through the partner and has no
    membership row in the organization is refused, although the comment there
    admits every approver. *)
Lemma partner_approvers_cannot_cancel h env auth id s i :
  e_perms env = resolvePermissions h None (e_dir env) ->
  st_intents s !! id = Some i -> auth_canAccessOrg auth (ic_orgId (it_content i)) = true ->
  ic_requestedByUserId (it_content i) <> Some (auth_userId auth) ->
  Forall (fun m => ou_userId m = auth_userId auth -> ou_orgId m <> ic_orgId (it_content i))
    (dr_organizationUsers (e_dir env)) ->
  cancelActionIntent env auth id s = (s, Some R_forbidden).
Proof.
  intros Hp Hi Hacc Hreq Hno. unfold IntentHandlers.cancelActionIntent, HANDLER_FUEL.
  rewrite run_alone_S. cbn [proc_step]. unfold step_cancel. rewrite Hi, Hacc, Hp. cbn [negb].
  rewrite (bool_decide_eq_false_2 (ic_requestedByUserId _ = _)) by done.
  assert (Hnone : resolvePermissions h None (e_dir env) (auth_userId auth)
            {| pc_partnerId := None; pc_orgId := Some (ic_orgId (it_content i)) |} = None).
  { unfold resolvePermissions. cbn [pc_orgId pc_partnerId]. unfold resolveOrgAxis.
    destruct (select1 h _) as [m|] eqn:Es; [|done]. exfalso.
    apply select1_elem, list_filter_elem in Es as [Hin Hm]. bool_hyps.
    rewrite Forall_forall in Hno. by destruct (Hno m); [apply list_elem_of_In|..]. }
  by rewrite Hnone.
Qed.

(** ** Reveal *)

Lemma clean_not_revealed env auth id s i pw :
  st_intents s !! id = Some i -> hasSecretKey (lc_result (it_life i)) = false ->
  (revealSecret env auth id s).2 <> Some (R_revealed pw).
Proof.
  intros Hi Hk. unfold IntentHandlers.revealSecret, HANDLER_FUEL. rewrite run_alone_S. cbn [proc_step].
  unfold step_reveal. rewrite Hi.
  destruct (negb (auth_canAccessOrg _ _) || _ || _) eqn:Eg; [done|]. bool_hyps. exfalso.
  match goal with E : hasSealedTemporaryPassword _ = true |- _ => apply hasSealed_hasSecretKey in E end.
  destruct (lc_result (it_life i)) as [r|]; [change (default ∅ (Some r)) with r in *; congruence|done].
Qed.

(** A credential is disclosed only for a completed intent of an organization the
    caller can access, within seven days of execution, to the requester (or, when
    the intent has no requesting user, to someone who may decide for the
    organization); what is disclosed is what the stored result unseals to, and
    afterwards no one is shown it again. *)
Lemma reveal_is_for_the_requester env auth id s s' pw :
  revealSecret env auth id s = (s', Some (R_revealed pw)) ->
  exists i r t, st_intents s !! id = Some i /\ it_status i = completed /\ lc_result (it_life i) = Some r
    /\ auth_canAccessOrg auth (ic_orgId (it_content i)) = true
    /\ (truthy (ic_requestedByUserId (it_content i)) = true ->
        ic_requestedByUserId (it_content i) = Some (auth_userId auth))
    /\ (truthy (ic_requestedByUserId (it_content i)) = false ->
        exists perms, e_perms env (auth_userId auth)
          {| pc_partnerId := auth_partnerId auth; pc_orgId := Some (ic_orgId (it_content i)) |} = Some perms
          /\ canAccessOrg perms (ic_orgId (it_content i)) = true /\ userCanDecideApprovals perms = true)
    /\ lc_executedAt (it_life i) = Some t /\ e_js env - t <= REVEAL_WINDOW_DAYS * 86400000
    /\ unsealTemporaryPassword sha256 decr (e_crypto env) r = Ok (Some pw)
    /\ forall env' auth' pw', (revealSecret env' auth' id s').2 <> Some (R_revealed pw').
Proof.
  unfold IntentHandlers.revealSecret at 1, HANDLER_FUEL. rewrite run_alone_S. cbn [proc_step]. unfold step_reveal.
  intros Hr. destruct (st_intents s !! id) as [i|] eqn:Hi; [|done].
  destruct (negb (auth_canAccessOrg _ _) || _ || _) eqn:Eg; [done|]. bool_hyps.
  destruct (negb (if truthy _ then _ else _)) eqn:Ea; [done|].
  destruct (lc_executedAt (it_life i)) as [t|] eqn:Et; [|done].
  destruct (bool_decide (t = 0) || _) eqn:Ew; [done|].
  rewrite run_alone_S in Hr. cbn [proc_step] in Hr. unfold step_revealOpen at 1 in Hr.
  destruct (lc_result (it_life i)) as [r|] eqn:El; [|done]. change (default ∅ (Some r)) with r in *.
  destruct (unsealTemporaryPassword _ _ _ _) as [[[|c pw']|]|] eqn:Eu; try done.
  rewrite run_alone_S in Hr. cbn [proc_step] in Hr. unfold step_revealBurn at 1 in Hr.
  destruct (burnTemporaryPassword _ _ _) as [s1 [|]] eqn:Eb; simplify_eq.
  apply burn_true in Eb as (j & Hj & _ & ->). simplify_eq.
  apply orb_false_iff in Ew as [_ Ew]. apply Z.ltb_ge in Ew. apply negb_false_iff in Ea.
  exists i, r, t. split_and!; try done.
  - intros Ht. rewrite Ht in Ea. by bool_hyps.
  - intros Ht. rewrite Ht in Ea. destruct (e_perms _ _ _) as [perms|]; [|done]. bool_hyps. eauto.
  - intros env' auth' pw2. eapply clean_not_revealed; [by apply lookup_insert_eq|]. exact (burnResult_clean _ _).
Qed.

End decide.

(** ** Creation *)

(** The approval rows of an intent, as the users they are addressed to. *)
Definition addressed (s : Store) (id u : string) : Prop :=
  exists k a, st_approvals s !! k = Some a /\ ap_intentId a = Some id /\ ap_userId a = u.

Lemma insertApprovals_lookup p id rows t k u :
  NoDup rows.*1 -> (k, u) ∈ rows -> insertApprovals p id rows t !! k = Some (approvalRowFor p id k u).
Proof.
  induction rows as [|[k' v] rows IH]; [by rewrite elem_of_nil|]. cbn. rewrite list.NoDup_cons. intros [Hk Hnd] Hin.
  apply elem_of_cons in Hin as [[= <- <-]|Hin]; [apply lookup_insert_eq|].
  rewrite lookup_insert_ne; [by apply IH|]. intros ->. apply Hk. apply list_elem_of_fmap. by exists (k, u).
Qed.

Lemma commit_addressed p newId rowIds now pick fail s s' c digest u :
  store_inv digest s -> commitIntent p newId rowIds now pick fail s = (s', Ok c) -> cr_isNew c = true ->
  addressed s' newId u <-> u ∈ fanOutUsers p.
Proof.
  intros Hinv Hc Hn.
  destruct (commitIntent_cases _ _ _ _ _ _ _ _ _ Hc)
    as [[_ Hold]|(f & _ & Hnew & Hlen & Hnd & Hfr & Hid & Hcon & _ & _ & _ & Ea & _)].
  { by rewrite (Hold c) in Hn. }
  unfold addressed. rewrite Ea. split.
  - intros (k & a & Hk & Hi & Hu). destruct (decide (k ∈ (zip rowIds (fanOutUsers p)).*1)) as [Hin|Hin].
    + destruct (insertApprovals_Some _ _ _ _ _ _ Hk Hin) as (v & Hz & ->). cbn in Hu. subst v.
      by apply elem_of_zip_r in Hz.
    + rewrite insertApprovals_None in Hk by done. destruct (inv_approval _ _ Hinv _ _ Hk) as [_ Hx].
      destruct (Hx _ Hi) as (j & ? & _). congruence.
  - intros Hu. apply list_elem_of_lookup in Hu as [n Hn'].
    destruct (lookup_lt_is_Some_2 rowIds n) as [k Hk]; [apply lookup_lt_Some in Hn'; lia|].
    assert (Hz : (k, u) ∈ zip rowIds (fanOutUsers p)).
    { apply list_elem_of_lookup. exists n. apply lookup_zip_Some. done. }
    exists k, (approvalRowFor p newId k u). split; [|done]. apply insertApprovals_lookup; [|done].
    by rewrite fst_zip by lia.
Qed.

(** What a successful preparation has established. *)
Lemma prepareIntent_facts digest desc reg dir now auth inp p :
  prepareIntent digest desc reg dir now auth inp = Ok p ->
  exists g org canonical,
    checkGuardrails reg (ci_toolName inp) (ci_input inp) = Ok g /\ gc_allowed g = true
    /\ tier_geb (gc_tier g) 4 = false /\ tier_leb (gc_tier g) 2 = false
    /\ pr_tierIsNumber p = bool_decide (gc_tier g <> TInherited)
    /\ resolveWritableToolOrgId auth (ci_orgId inp) = Ok org /\ ic_orgId (pr_content p) = org
    /\ canonicalizeArguments (ci_input inp) = Ok canonical
    /\ ic_idempotencyKey (pr_content p) = default (deriveIdempotencyKey digest (auth_userId auth) (ci_toolName inp)
                                                   (digest canonical)) (ci_idempotencyKey inp)
    /\ pr_requesterId p = auth_userId auth
    /\ pr_eligibleApprovers p = List.filter (fun u => negb (bool_decide (u = auth_userId auth))) (resolveIntentApprovers dir org)
    /\ pr_requesterEligible p = bool_decide (auth_userId auth ∈ resolveIntentApprovers dir org).
Proof.
  unfold prepareIntent. intros Hp. result_ok Hp. simplify_eq.
  destruct (checkGuardrails _ _ _) as [g|] eqn:Eg; [|done]. destruct (resolveWritableToolOrgId _ _) as [org|] eqn:Eo; [|done].
  destruct (canonicalizeArguments _) as [canonical|] eqn:Ec; [|done]. simplify_eq. bool_hyps.
  eexists _, _, _. split_and!; try done; cbn; by destruct (ci_idempotencyKey inp).
Qed.

Lemma fanOutUsers_spec p (E : list string) r u :
  pr_requesterId p = r -> pr_eligibleApprovers p = List.filter (fun v => negb (bool_decide (v = r))) E ->
  pr_requesterEligible p = bool_decide (r ∈ E) ->
  u ∈ fanOutUsers p <-> u ∈ E /\ (u <> r \/ forall v, v ∈ E -> v = r).
Proof.
  intros Hr He Hq. unfold fanOutUsers. rewrite Hr, Hq.
  assert (Hel : forall v, v ∈ pr_eligibleApprovers p <-> v ∈ E /\ v <> r).
  { intros v. rewrite He, list_filter_elem, negb_true_iff, bool_decide_eq_false. done. }
  destruct (pr_eligibleApprovers p) as [|x l].
  - assert (Hall : forall v, v ∈ E -> v = r).
    { intros v Hv. apply dec_stable. intros Hne. by apply (not_elem_of_nil v), Hel. }
    case_bool_decide as Hin; [|rewrite elem_of_nil; naive_solver].
    rewrite list_elem_of_singleton. naive_solver.
  - rewrite Hel. split; [naive_solver|]. intros [Hu [Hne|Hall]]; [done|]. exfalso.
    destruct (proj1 (Hel x)) as [Hx Hxr]; [apply list_elem_of_here|]. by apply Hxr, Hall.
Qed.

Lemma fanOutUsers_empty p (E : list string) r :
  pr_requesterId p = r -> pr_eligibleApprovers p = List.filter (fun v => negb (bool_decide (v = r))) E ->
  pr_requesterEligible p = bool_decide (r ∈ E) -> fanOutUsers p = [] <-> E = [].
Proof.
  intros Hr He Hq. pose proof (fun u => fanOutUsers_spec p E r u Hr He Hq) as Hspec. split; intros Hx.
  - destruct E as [|x E]; [done|]. exfalso. rewrite Hx in Hspec.
    destruct (decide (x = r)) as [->|Hne].
    + unfold fanOutUsers in Hx. rewrite He, Hq, bool_decide_eq_true_2 in Hx by apply list_elem_of_here.
      by destruct (List.filter _ _).
    + apply (not_elem_of_nil x), Hspec. split; [apply list_elem_of_here|by left].
  - apply elem_of_nil_inv. intros v Hv. apply Hspec in Hv as [Hv _]. rewrite Hx in Hv. by apply not_elem_of_nil in Hv.
Qed.

Lemma tier_three t : tier_geb t 4 = false -> tier_leb t 2 = false -> t <> TInherited -> t = TNum 3.
Proof. destruct t as [n|]; [|done]. cbn. intros. bool_hyps. f_equal. lia. Qed.

(** A new intent is created only for an allowed Tier-3 action, in an organization
    the caller may write; exactly the eligible approvers of that organization
    other than the requester are asked, the requester only when nobody else is
    eligible, and with no one eligible the intent is cancelled at once. *)
Lemma creation_asks_the_approvers digest desc reg dir auth inp newId rowIds now pick fail s s' c :
  store_inv digest s ->
  createActionIntent digest desc reg dir auth inp newId rowIds now pick fail s = (s', Ok c) -> cr_isNew c = true ->
  exists g org, checkGuardrails reg (ci_toolName inp) (ci_input inp) = Ok g
    /\ gc_allowed g = true /\ gc_tier g = TNum 3
    /\ (auth_orgId auth = Some org \/ auth_canAccessOrg auth org = true)
    /\ (forall u, addressed s' newId u <->
          u ∈ resolveIntentApprovers dir org
          /\ (u <> auth_userId auth \/ forall v, v ∈ resolveIntentApprovers dir org -> v = auth_userId auth))
    /\ (cr_status c = cancelled <-> resolveIntentApprovers dir org = []).
Proof.
  unfold createActionIntent. intros Hinv Hc Hn.
  destruct (prepareIntent _ _ _ _ _ _ _) as [p|e] eqn:Ep; [|by simplify_eq].
  destruct (prepareIntent_facts _ _ _ _ _ _ _ _ Ep)
    as (g & org & can & Hg & Hal & H4 & H2 & Htn & Horg & _ & _ & _ & Hr & He & Hq).
  assert (Hnum : pr_tierIsNumber p = true).
  { unfold commitIntent in Hc. destruct (pr_tierIsNumber p); [done|]. rewrite orb_true_r in Hc. by simplify_eq. }
  rewrite Htn in Hnum. bool_hyps.
  exists g, org. split_and!; [done..|by apply tier_three|by eapply resolveWritable_reach| |].
  - intros u. rewrite (commit_addressed _ _ _ _ _ _ _ _ _ _ _ Hinv Hc Hn). by apply fanOutUsers_spec.
  - destruct (commitIntent_cases _ _ _ _ _ _ _ _ _ Hc)
      as [[_ Hold]|(f & _ & _ & _ & _ & _ & _ & _ & _ & Hst & _ & _ & _ & _ & c' & [= <-] & _ & _ & ->)].
    { by rewrite (Hold c) in Hn. }
    assert (Hemp : fanOutUsers p = [] <-> resolveIntentApprovers dir org = []).
    { by apply (fanOutUsers_empty p _ _ Hr He Hq). }
    rewrite <- Hemp. destruct Hst as [[-> ?]|[-> ?]]; done.
Qed.

(** Creating is idempotent: while the intent a request created is still awaiting
    its decision, the same request again, by the same caller, at any later time and
    with any directory, either is refused or answers with that same intent, and
    changes nothing. *)
Lemma replay_converges digest desc reg dir auth inp newId rowIds now pick fail s s1 c
    desc2 reg2 dir2 newId2 rowIds2 now2 pick2 fail2 s2 r2 :
  store_inv digest s ->
  createActionIntent digest desc reg dir auth inp newId rowIds now pick fail s = (s1, Ok c) ->
  cr_isNew c = true -> cr_status c = pending_approval ->
  createActionIntent digest desc2 reg2 dir2 auth inp newId2 rowIds2 now2 pick2 fail2 s1 = (s2, r2) ->
  s2 = s1 /\ forall c2, r2 = Ok c2 -> cr_intentId c2 = cr_intentId c /\ cr_isNew c2 = false.
Proof.
  unfold createActionIntent. intros Hinv Hc Hn Hst Hc2.
  destruct (prepareIntent digest desc _ _ _ _ _) as [p|e] eqn:Ep; [|by simplify_eq].
  destruct (prepareIntent digest desc2 _ _ _ _ _) as [p2|e] eqn:Ep2; [|by simplify_eq].
  destruct (prepareIntent_facts _ _ _ _ _ _ _ _ Ep) as (g & org & can & _ & _ & _ & _ & _ & Ho & Hor & Hcan & Hk & _).
  destruct (prepareIntent_facts _ _ _ _ _ _ _ _ Ep2) as (g2 & org2 & can2 & _ & _ & _ & _ & _ & Ho2 & Hor2' & Hcan2 & Hk2' & _).
  assert (Hk2 : ic_idempotencyKey (pr_content p2) = ic_idempotencyKey (pr_content p)) by congruence.
  assert (Hor2 : ic_orgId (pr_content p2) = ic_orgId (pr_content p)) by congruence.
  clear Hk2' Hor2' Hk Hor.
  destruct (commitIntent_cases _ _ _ _ _ _ _ _ _ Hc)
    as [[_ Hold]|(f & Hlive & Hnew & _ & _ & _ & Hid & Hcon & _ & _ & Ei & _ & _ & _ & c' & [= <-] & _ & Hci & Hcs)].
  { by rewrite (Hold c) in Hn. }
  assert (Hlf : liveWithKey (ic_orgId (pr_content p)) (ic_idempotencyKey (pr_content p)) f = true).
  { unfold liveWithKey. rewrite Hcon, <- Hcs, Hst, !bool_decide_eq_true_2 by done. done. }
  unfold commitIntent in Hc2. rewrite Hk2, Hor2 in Hc2.
  destruct (fail2 || _); [by simplify_eq|].
  assert (Hin : f ∈ sql_select (liveWithKey (ic_orgId (pr_content p)) (ic_idempotencyKey (pr_content p))) (st_intents s1)).
  { apply sql_select_elem. split; [|done]. exists newId. by rewrite Ei, lookup_insert_eq. }
  rewrite bool_decide_eq_false_2 in Hc2 by (intros E; rewrite E in Hin; by apply not_elem_of_nil in Hin).
  cbn [negb] in Hc2. destruct (select1 pick2 _) as [x|] eqn:Es; simplify_eq; [|done]. split; [done|].
  intros c2 [= <-]. cbn. split; [|done]. transitivity (it_id f); [f_equal|congruence].
  apply select1_elem, sql_select_elem in Es as [(k & Hx) Hlx]. rewrite Ei in Hx.
  apply lookup_insert_Some in Hx as [[_ ->]|[_ Hx]]; [done|]. rewrite (Hlive _ _ Hx) in Hlx. done.
Qed.

(** ** Witnesses *)

Definition demo_created : Store * result CreateError CreationResult :=
  createActionIntent (fun s => s) (fun _ => None) {| tr_aiTools := ∅; tr_extension := ∅ |} two_admins
    (demo_auth_of "ann") demo_request "intent" ["row"%string] 1000 0 false empty_store.

Definition demo_creation : CreationResult :=
  {| cr_intentId := "intent"; cr_status := pending_approval; cr_approvalRequestIds := ["row"%string];
     cr_requesterApprovalRequestId := None; cr_isNew := true |}.

Lemma demo_created_eq : demo_created = (demo_created.1, Ok demo_creation).
Proof. vm_compute. reflexivity. Qed.

Lemma empty_inv : store_inv (fun s => s) empty_store.
Proof. split; intros *; cbn; rewrite lookup_empty; done. Qed.

Lemma creation_asks_witness : addressed demo_created.1 "intent" "u" /\ cr_status demo_creation = pending_approval.
Proof.
  destruct (creation_asks_the_approvers _ _ _ _ _ _ _ _ _ _ _ _ _ _ empty_inv demo_created_eq eq_refl)
    as (g & org & _ & _ & _ & Hr & Ha & _).
  split; [|reflexivity].
  assert (org = "org"%string) as ->.
  { destruct Hr as [Hr|Hr]; [by injection Hr|]. apply bool_decide_eq_true in Hr. set_solver. }
  apply Ha. split; [|by left]. apply (bool_decide_unpack _). vm_compute. exact I.
Defined.

Lemma replay_witness :
  cr_isNew demo_creation = true
  /\ (createActionIntent (fun s => s) (fun _ => None) {| tr_aiTools := ∅; tr_extension := ∅ |} two_admins
        (demo_auth_of "ann") demo_request "other" ["row2"%string] 2000 0 false demo_created.1).1 = demo_created.1.
Proof.
  split; [reflexivity|].
  exact (proj1 (replay_converges _ _ _ _ _ _ _ _ _ _ _ _ _ _ _ _ _ _ _ _ _ _ _ _ empty_inv demo_created_eq
                  eq_refl eq_refl (surjective_pairing _))).
Defined.

Definition sole_store : Store := sy_store (demo_trace acts_created).

Lemma demo_store_inv acts : store_inv (fun s => s) (sy_store (demo_trace acts)).
Proof. exact (si_store _ _ (reach _ _ _ _ _ _ _ _ _ (demo_reachable acts))). Qed.

Lemma approve_authority_witness :
  exists s', decideHandler (fun s => s) (fun _ => None) (fun _ => None) of_text toy_enc toy_dec demo_wv demo_mv
    (demo_world two_admins 2000) (demo_decide "u" true) sole_store = (s', Some R_ok)
  /\ exists i, st_intents sole_store !! "intent"%string = Some i
       /\ may_approve (demo_world two_admins 2000) "u" (Some "p"%string) (it_content i).
Proof.
  destruct (decideHandler (fun s => s) (fun _ => None) (fun _ => None) of_text toy_enc toy_dec demo_wv demo_mv
    (demo_world two_admins 2000) (demo_decide "u" true) sole_store) as [s' r] eqn:E.
  pose proof E as Er. apply (f_equal snd) in Er. vm_compute in Er. subst r. exists s'. split; [reflexivity|].
  destruct (st_approvals sole_store !! "row"%string) as [a|] eqn:Ea; [|vm_compute in Ea; discriminate].
  destruct (approve_needs_live_authority _ _ _ _ _ _ _ _ _ _ _ _ a "intent" E eq_refl Ea) as (_ & _ & i & Hi & _ & Hm).
  - vm_compute in Ea. injection Ea as <-. reflexivity.
  - discriminate.
  - exists i. split; [exact Hi|exact Hm].
Defined.

Lemma deny_rejects_witness :
  exists s', decideHandler (fun s => s) (fun _ => None) (fun _ => None) of_text toy_enc toy_dec demo_wv demo_mv
    (demo_world two_admins 2000) (demo_decide "u" false) sole_store = (s', Some R_ok)
  /\ denied_by (demo_decide "u" false) "intent" s'.
Proof.
  destruct (st_approvals sole_store !! "row"%string) as [a|] eqn:Ea; [|vm_compute in Ea; discriminate].
  destruct (st_intents sole_store !! "intent"%string) as [i|] eqn:Ei; [|vm_compute in Ei; discriminate].
  pose proof Ea as Ea'. pose proof Ei as Ei'.
  vm_compute in Ea'. injection Ea' as Ea'. vm_compute in Ei'. injection Ei' as Ei'.
  apply (deny_rejects_the_intent _ _ _ _ _ _ _ _ (demo_world two_admins 2000) (demo_decide "u" false) sole_store
           a "intent" i (demo_store_inv acts_created) Ea);
    try (subst a; reflexivity); try reflexivity; try discriminate; try exact Ei; subst i; reflexivity.
Defined.

Lemma cancel_witness :
  "u"%string ∈ resolveIntentApprovers two_admins "org"
  /\ cancelActionIntent (fun s => s) (fun _ => None) (fun _ => None) of_text toy_enc toy_dec demo_wv demo_mv
       (demo_world two_admins 2000) (demo_auth_of "u") "intent" sole_store = (sole_store, Some R_forbidden).
Proof.
  split; [apply (bool_decide_unpack _); vm_compute; exact I|].
  destruct (st_intents sole_store !! "intent"%string) as [i|] eqn:Ei; [|vm_compute in Ei; discriminate].
  pose proof Ei as Ei'. vm_compute in Ei'. injection Ei' as Ei'.
  apply (partner_approvers_cannot_cancel _ _ _ _ _ _ _ _ 0 _ _ _ _ i); [reflexivity|exact Ei|..].
  - subst i. reflexivity.
  - subst i. discriminate.
  - constructor.
Defined.

Lemma reveal_witness :
  (revealSecret (fun s => s) (fun _ => None) (fun _ => None) of_text toy_enc toy_dec demo_wv demo_mv
     (demo_world two_admins 4000) (demo_auth_of "ann") "intent" (sy_store (demo_trace acts_completed))).2
    = Some (R_revealed "pw")
  /\ exists i, st_intents (sy_store (demo_trace acts_completed)) !! "intent"%string = Some i /\ it_status i = completed.
Proof.
  destruct (revealSecret (fun s => s) (fun _ => None) (fun _ => None) of_text toy_enc toy_dec demo_wv demo_mv
     (demo_world two_admins 4000) (demo_auth_of "ann") "intent" (sy_store (demo_trace acts_completed))) as [s' r] eqn:E.
  pose proof E as Er. apply (f_equal snd) in Er. vm_compute in Er. subst r. split; [reflexivity|].
  destruct (reveal_is_for_the_requester _ _ _ _ _ _ _ _ _ _ _ _ _ _ E) as (i & r & t & Hi & Hs & _).
  exists i. split; [exact Hi|exact Hs].
Defined.
