(* ===== verification/CommandTypes.v ===== *)
(** * Types of device commands, their deadlines and their credentials

    The tables of services/commandQueue.ts, the deadlines of
    services/commandTimeouts.ts and services/sensitiveCommandPayload.ts, which
    encrypts the credentials some payloads carry before a command is stored and
    decrypts them when it is handed to the agent. *)

From stdpp Require Import base gmap strings list option.
From Stdlib Require Import ZArith Lia Ascii QArith Qround Lqa.
From S2P Require Import Prelude Json SecretCrypto.

Open Scope Z_scope.

(** ** Tables *)

Definition BACKUP_COMMAND_TYPES : list string :=
  ["backup_run"; "backup_stop"; "backup_restore"; "backup_verify"; "backup_test_restore"; "backup_cleanup";
    "vm_restore_from_backup"; "vm_instant_boot"; "bmr_recover"; "mssql_backup"; "mssql_restore";
    "hyperv_backup"; "hyperv_restore"]%string.

Definition AUDITED_COMMANDS : list string :=
  ["kill_process"; "start_service"; "stop_service"; "restart_service"; "task_run"; "task_enable";
    "task_disable"; "registry_set"; "registry_delete"; "registry_key_create"; "registry_key_delete";
    "file_write"; "file_delete"; "file_mkdir"; "file_rename"; "file_copy"; "file_trash_restore";
    "file_trash_purge"; "terminal_start"; "script"; "patch_scan"; "install_patches"; "rollback_patches";
    "software_install"; "software_uninstall"; "software_update"; "cis_benchmark"; "apply_cis_remediation";
    "security_scan"; "security_threat_quarantine"; "security_threat_remove"; "security_threat_restore";
    "sensitive_data_scan"; "encrypt_file"; "secure_delete_file"; "quarantine_file"; "take_screenshot";
    "computer_action"; "capture_pprof"; "manage_startup_item"; "apply_audit_policy_baseline";
    "peripheral_policy_sync"; "reboot"; "schedule_reboot"; "reboot_safe_mode"; "self_uninstall"; "backup_run";
    "backup_stop"; "backup_restore"; "backup_verify"; "backup_test_restore"; "vss_writer_list";
    "mssql_backup"; "mssql_restore"; "mssql_verify"; "hyperv_backup"; "hyperv_restore"; "hyperv_checkpoint";
    "hyperv_vm_state"; "vm_restore_from_backup"; "vm_instant_boot"; "bmr_recover"; "vault_sync";
    "vault_configure"; "collect_evidence"; "execute_containment"]%string.

Definition INTERACTIVE_COMMAND_TYPES : list string :=
  ["file_list"; "file_list_drives"; "file_read"; "file_write"; "file_delete"; "file_mkdir"; "file_rename";
    "file_copy"; "file_trash_list"; "file_trash_restore"; "file_trash_purge"; "terminal_start";
    "terminal_data"; "terminal_resize"; "terminal_stop"; "take_screenshot"; "computer_action"]%string.

Definition EXCLUDED_COMMAND_TYPES : list string :=
  ["terminal_start"; "terminal_data"; "terminal_resize"; "terminal_stop"]%string.

Definition SHORT_TIMEOUT_TYPES : list string :=
  ["list_processes"; "get_process"; "kill_process"; "list_services"; "get_service"; "start_service";
    "stop_service"; "restart_service"; "event_logs_list"; "event_logs_query"; "event_log_get"; "tasks_list";
    "task_get"; "task_run"; "task_enable"; "task_disable"; "task_history"; "registry_keys"; "registry_values";
    "registry_get"; "registry_set"; "registry_delete"; "registry_key_create"; "registry_key_delete";
    "file_list"; "file_read"; "file_write"; "file_delete"; "file_mkdir"; "file_rename"; "file_copy";
    "file_trash_list"; "file_trash_restore"; "file_trash_purge"; "file_list_drives"; "take_screenshot";
    "computer_action"; "set_log_level"; "capture_pprof"; "peripheral_policy_sync"; "collect_boot_performance";
    "manage_startup_item"; "collect_audit_policy"; "security_collect_status"]%string.

Definition MEDIUM_TIMEOUT_TYPES : list string :=
  ["security_scan"; "patch_scan"; "software_uninstall"; "filesystem_analysis"; "reboot_safe_mode";
    "self_uninstall"; "collect_evidence"; "execute_containment"; "rollback_patches";
    "collect_reliability_metrics"; "apply_cis_remediation"; "apply_audit_policy_baseline";
    "security_threat_quarantine"; "security_threat_remove"; "security_threat_restore";
    "backup_restore"]%string.

Definition RESTORE_TIMEOUT_TYPES : list string :=
  ["vm_restore_from_backup"; "vm_instant_boot"; "bmr_recover"; "mssql_restore"; "hyperv_restore"]%string.

Definition LONG_TIMEOUT_TYPES : list string :=
  ["install_patches"; "backup_verify"; "backup_test_restore"; "backup_cleanup"; "mssql_backup";
    "hyperv_backup"; "cis_benchmark"; "sensitive_data_scan"; "encrypt_file"; "secure_delete_file";
    "quarantine_file"]%string.

(** ** Deadlines *)

Definition FIVE_MINUTES : Z := 5 * 60 * 1000.
Definition THIRTY_MINUTES : Z := 30 * 60 * 1000.
Definition SIXTY_MINUTES : Z := 60 * 60 * 1000.
Definition TWO_HOURS : Z := 2 * 60 * 60 * 1000.
Definition SEVEN_DAYS : Z := 7 * 24 * 60 * 60 * 1000.
Definition DEFAULT_TIMEOUT_MS : Z := THIRTY_MINUTES.
Definition SCRIPT_GRACE_BUFFER_MS : Z := 5 * 60 * 1000.
Definition DEFAULT_SCRIPT_TIMEOUT_S : Z := 300.

(** The number a JSON numeral stands for, in exact arithmetic: [-]digits, with an
    optional fraction and exponent. A numeral of JSON always parses. *)
Definition decimal (s : string) : option Q :=
  match str_split "." s with
  | [i] => inject_Z <$> parse_dec i
  | [i; f] => (fun n => inject_Z n / inject_Z (10 ^ Z.of_nat (String.length f)))%Q <$> parse_dec (i ++ f)
  | _ => None
  end.

Definition signed_exponent (s : string) : option Z :=
  match s with
  | String "+" r => parse_dec r
  | String "-" r => Z.opp <$> parse_dec r
  | _ => parse_dec s
  end.

Definition unsigned_numeral (s : string) : option Q :=
  match str_split "e" s with
  | [m] => decimal m
  | [m; x] => match decimal m, signed_exponent x with
              | Some q, Some e => Some (q * Qpower (10 # 1) e)%Q
              | _, _ => None
              end
  | _ => None
  end.

Definition numeral (s : string) : Q :=
  match s with
  | String "-" r => Qopp (default 0%Q (unsigned_numeral r))
  | _ => default 0%Q (unsigned_numeral s)
  end.

(** [payload?.key] of a payload that may be null. *)
Definition payload_get (k : string) (payload : json) : json :=
  match payload with JObj members => json_get k members | _ => JUndef end.

(** [getCommandTimeoutMs(commandType, payload)]. The product with a fractional
    number of seconds is exact here. *)
Definition getCommandTimeoutMs (commandType : string) (payload : json) : Q :=
  if bool_decide (commandType = "script"%string) then
    let timeoutSeconds := match payload_get "timeoutSeconds" payload with
                          | JNum t => numeral t
                          | _ => inject_Z DEFAULT_SCRIPT_TIMEOUT_S
                          end in
    (timeoutSeconds * inject_Z 1000 + inject_Z SCRIPT_GRACE_BUFFER_MS)%Q
  else inject_Z
    (if bool_decide (commandType = "software_install"%string) then SEVEN_DAYS
     else if bool_decide (commandType ∈ SHORT_TIMEOUT_TYPES) then FIVE_MINUTES
     else if bool_decide (commandType ∈ MEDIUM_TIMEOUT_TYPES) then THIRTY_MINUTES
     else if bool_decide (commandType ∈ RESTORE_TIMEOUT_TYPES) then SIXTY_MINUTES
     else if bool_decide (commandType ∈ LONG_TIMEOUT_TYPES) then TWO_HOURS
     else DEFAULT_TIMEOUT_MS).

(** [Math.round(timeoutMs / 60000)] *)
Definition timeoutMinutes (timeoutMs : Q) : Z := Qfloor (timeoutMs / inject_Z 60000 + (1 # 2))%Q.

(** [elapsed < timeoutMs] *)
Definition within (elapsed : Z) (timeoutMs : Q) : bool :=
  if Qlt_le_dec (inject_Z elapsed) timeoutMs then true else false.

(** ** Credentials in payloads *)

Definition COMMAND_PAYLOAD_AAD : string := "device_commands.payload".

(** The names every object inherits: [type in SENSITIVE_PAYLOAD_FIELDS] and
    [SENSITIVE_PAYLOAD_FIELDS[type]] see them too. *)
Definition OBJECT_PROTOTYPE : list string :=
  ["constructor"; "__defineGetter__"; "__defineSetter__"; "hasOwnProperty"; "__lookupGetter__";
   "__lookupSetter__"; "isPrototypeOf"; "propertyIsEnumerable"; "toString"; "valueOf"; "__proto__";
   "toLocaleString"]%string.

Inductive Fields : Type :=
| FieldsUndefined
| FieldsNotIterable
| FieldsOf (fields : list string).

Definition SENSITIVE_PAYLOAD_FIELDS (type : string) : Fields :=
  if bool_decide (type = "encryption_rotate_key"%string)
  then FieldsOf ["password"; "currentRecoveryKey"]%string
  else if bool_decide (type ∈ OBJECT_PROTOTYPE) then FieldsNotIterable
  else FieldsUndefined.

Definition hasSensitivePayload (type : string) : bool :=
  match SENSITIVE_PAYLOAD_FIELDS type with FieldsUndefined => false | _ => true end.

Inductive PayloadError : Type :=
| NotIterable
| CryptoFailed (e : CryptoError).

(** A secret column value as a JSON value. *)
Definition of_secret (v : option string) : json := match v with Some s => JStr s | None => JNull end.

Definition commandOptions : SecretCryptoOptions :=
  {| opt_aad := Some COMMAND_PAYLOAD_AAD; opt_strict := false |}.

(** [for (const field of fields) if (typeof out[field] === 'string' && out[field])
    out[field] = f(out[field])] *)
Fixpoint mapFields (f : nat -> string -> result CryptoError (option string)) (n : nat) (fields : list string)
    (out : list (string * json)) : result PayloadError (list (string * json)) :=
  match fields with
  | [] => Ok out
  | field :: rest =>
      match json_get field out with
      | JStr (String _ _ as value) =>
          match f n value with
          | Ok v => mapFields f (S n) rest (assign_prop field (of_secret v) out)
          | Err e => Err (CryptoFailed e)
          end
      | _ => mapFields f (S n) rest out
      end
  end.

Section payloads.
Context (sha256 : string -> bytes).
Context (enc : bytes -> bytes -> option string -> bytes -> bytes * bytes).
Context (dec : bytes -> bytes -> option string -> bytes -> bytes -> option bytes).
Context (env : CryptoEnv).

(** [encryptSensitivePayloadFields(type, payload)]; [ivs n] is the nonce drawn for
    the [n]-th field. *)
Definition encryptSensitivePayloadFields (ivs : nat -> bytes) (type : string) (payload : list (string * json))
  : result PayloadError (list (string * json)) :=
  match SENSITIVE_PAYLOAD_FIELDS type with
  | FieldsUndefined => Ok payload
  | FieldsNotIterable => Err NotIterable
  | FieldsOf fields =>
      mapFields (fun n value => encryptSecret sha256 enc env (ivs n) (Some value) commandOptions) 0 fields payload
  end.

(** [decryptSensitivePayloadFields(type, payload)] *)
Definition decryptSensitivePayloadFields (type : string) (payload : json) : result PayloadError json :=
  match SENSITIVE_PAYLOAD_FIELDS type, payload with
  | FieldsNotIterable, JObj _ => Err NotIterable
  | FieldsOf fields, JObj members =>
      let! out := mapFields (fun _ value => decryptSecret sha256 dec env (Some value) commandOptions) 0 fields members in
      Ok (JObj out)
  | _, _ => Ok payload
  end.

(** What travels to the agent: [{ id, type, payload }]. *)
Record DeliverableCommand : Type := {
  dc_id : string;
  dc_type : string;
  dc_payload : json;
}.

(** [decryptCommandForDelivery(cmd)]: [None] is the null of the catch block. *)
Definition decryptCommandForDelivery (cmd : DeliverableCommand) : option DeliverableCommand :=
  match decryptSensitivePayloadFields (dc_type cmd) (dc_payload cmd) with
  | Ok payload => Some {| dc_id := dc_id cmd; dc_type := dc_type cmd; dc_payload := payload |}
  | Err _ => None
  end.

(** [decryptCommandsForDelivery(commands)] *)
Definition decryptCommandsForDelivery (commands : list DeliverableCommand) : list DeliverableCommand :=
  omap decryptCommandForDelivery commands.
End payloads.
