(* ===== verification/CommandStore.v ===== *)
(** * The table [device_commands] and its statements

    One definition per statement on [device_commands] of
    services/commandDispatch.ts, services/commandQueue.ts,
    routes/agents/commands.ts, routes/agentWs.ts, jobs/staleCommandReaper.ts,
    services/tenantOffboarding.ts, routes/admin/abuse.ts and the routes that
    cancel or remove a queued command. The table has no row-level security; a
    statement runs atomically, a transaction of several statements is one
    definition. *)

From stdpp Require Import base gmap strings list option sorting.
From Stdlib Require Import ZArith Lia Ascii QArith.
From S2P Require Import Prelude Json SecretCrypto CommandTypes.

Open Scope Z_scope.

(** ** Rows *)

(** The column is a bare varchar; these are the values the sources write. *)
Inductive CommandStatus : Type := c_pending | c_sent | c_completed | c_failed | c_cancelled.
#[export] Instance CommandStatus_eq_dec : EqDecision CommandStatus.
Proof. solve_decision. Defined.

Inductive TargetRole : Type := role_agent | role_watchdog.
#[export] Instance TargetRole_eq_dec : EqDecision TargetRole.
Proof. solve_decision. Defined.

Record DeviceCommand : Type := {
  cm_id : string;
  cm_deviceId : string;
  cm_type : string;
  cm_payload : json;
  cm_status : CommandStatus;
  cm_targetRole : TargetRole;
  cm_createdBy : option string;
  cm_createdAt : Z;
  cm_executedAt : option Z;
  cm_completedAt : option Z;
  cm_result : json;
}.

(** The columns of a device that the command paths read. *)
Record DeviceRow : Type := {
  dw_id : string;
  dw_agentId : string;
  dw_orgId : string;
  dw_status : string;
  dw_watchdogLastSeen : option Z;
  dw_tokenSuspended : bool;
}.

Abbreviation CommandTable := (gmap string DeviceCommand).

(** [ACCEPTED_COMMAND_RESULT_STATUSES], [NON_TERMINAL_COMMAND_STATUSES] *)
Definition live (c : DeviceCommand) : bool :=
  match cm_status c with c_pending | c_sent => true | _ => false end.

Definition is_status (st : CommandStatus) (c : DeviceCommand) : bool := bool_decide (cm_status c = st).
Definition of_type (ty : string) (c : DeviceCommand) : bool := bool_decide (cm_type c = ty).

(** [.values({ deviceId, type, payload, status: 'pending', ... })] *)
Definition new_command (id deviceId type : string) (payload : json) (role : TargetRole)
    (createdBy : option string) (createdAt : Z) : DeviceCommand :=
  {| cm_id := id; cm_deviceId := deviceId; cm_type := type; cm_payload := payload; cm_status := c_pending;
     cm_targetRole := role; cm_createdBy := createdBy; cm_createdAt := createdAt;
     cm_executedAt := None; cm_completedAt := None; cm_result := JNull |}.

(** [.set({ status, executedAt })] *)
Definition set_delivery (st : CommandStatus) (executedAt : option Z) (c : DeviceCommand) : DeviceCommand :=
  {| cm_id := cm_id c; cm_deviceId := cm_deviceId c; cm_type := cm_type c; cm_payload := cm_payload c;
     cm_status := st; cm_targetRole := cm_targetRole c; cm_createdBy := cm_createdBy c;
     cm_createdAt := cm_createdAt c; cm_executedAt := executedAt; cm_completedAt := cm_completedAt c;
     cm_result := cm_result c |}.

(** [.set({ status, completedAt, result })], with the payload kept or blanked. *)
Definition set_terminal (st : CommandStatus) (completedAt : Z) (res : json) (blank : bool) (c : DeviceCommand)
  : DeviceCommand :=
  {| cm_id := cm_id c; cm_deviceId := cm_deviceId c; cm_type := cm_type c;
     cm_payload := if blank then JNull else cm_payload c;
     cm_status := st; cm_targetRole := cm_targetRole c; cm_createdBy := cm_createdBy c;
     cm_createdAt := cm_createdAt c; cm_executedAt := cm_executedAt c; cm_completedAt := Some completedAt;
     cm_result := res |}.

(** [UPDATE ... WHERE id = $id AND p RETURNING id] *)
Definition update1 (id : string) (p : DeviceCommand -> bool) (f : DeviceCommand -> DeviceCommand) (t : CommandTable)
  : CommandTable * bool :=
  match t !! id with
  | Some c => if p c then (<[id := f c]> t, true) else (t, false)
  | None => (t, false)
  end.

(** [INSERT]: a second row with the same primary key is an error. *)
Definition insert1 (c : DeviceCommand) (t : CommandTable) : option CommandTable :=
  match t !! cm_id c with Some _ => None | None => Some (<[cm_id c := c]> t) end.

Fixpoint insert_all (cs : list DeviceCommand) (t : CommandTable) : option CommandTable :=
  match cs with
  | [] => Some t
  | c :: rest => match insert1 c t with Some t' => insert_all rest t' | None => None end
  end.

(** [.limit(n)]: the limit of the reaper may be [Number.MAX_SAFE_INTEGER]. *)
Fixpoint limit {A} (n : Z) (l : list A) : list A :=
  match l with
  | [] => []
  | x :: l' => if 0 <? n then x :: limit (n - 1) l' else []
  end.

(** [.orderBy(deviceCommands.createdAt)] *)
Definition created_le (a b : DeviceCommand) : Prop := cm_createdAt a <= cm_createdAt b.
#[export] Instance created_le_dec : RelDecision created_le.
Proof. intros a b. unfold created_le. apply _. Defined.

(** A stored object: [jsonb] has no undefined members. *)
Definition stored (members : list (string * json)) : json :=
  JObj (List.filter (fun kv => negb (is_undef kv.2)) members).

(** ** services/commandDispatch.ts *)

Definition claimPendingCommandForDelivery (id : string) (executedAt : Z) (t : CommandTable) : CommandTable * bool :=
  update1 id (is_status c_pending) (set_delivery c_sent (Some executedAt)) t.

Definition releaseClaimedCommandDelivery (id : string) (executedAt : Z) (t : CommandTable) : CommandTable :=
  (update1 id (fun c => is_status c_sent c && bool_decide (cm_executedAt c = Some executedAt))
     (set_delivery c_pending None) t).1.

Definition claimable (deviceId : string) (role : TargetRole) (c : DeviceCommand) : bool :=
  bool_decide (cm_deviceId c = deviceId) && is_status c_pending c && bool_decide (cm_targetRole c = role).

Definition allowed (allow : option (list string)) (c : DeviceCommand) : bool :=
  match allow with Some l => bool_decide (cm_type c ∈ l) | None => true end.

(** The loop over the selected rows; [clock n] is the [n]-th [new Date()]. *)
Fixpoint claimEach (deviceId : string) (role : TargetRole) (clock : nat -> Z) (n : nat)
    (selected : list DeviceCommand) (t : CommandTable) : CommandTable * list DeviceCommand :=
  match selected with
  | [] => (t, [])
  | c :: rest =>
      match t !! cm_id c with
      | Some r =>
          if claimable deviceId role r then
            let r' := set_delivery c_sent (Some (clock n)) r in
            let '(t', claimed) := claimEach deviceId role clock (S n) rest (<[cm_id c := r']> t) in
            (t', r' :: claimed)
          else claimEach deviceId role clock (S n) rest t
      | None => claimEach deviceId role clock (S n) rest t
      end
  end.

(** [claimPendingCommandsForDevice(deviceId, limit, targetRole, typeAllowlist)];
    [locked] are the rows other transactions hold, which SKIP LOCKED passes over. *)
Definition claimPendingCommandsForDevice (deviceId : string) (lim : Z) (role : TargetRole)
    (allow : option (list string)) (locked : string -> bool) (clock : nat -> Z) (t : CommandTable)
  : CommandTable * list DeviceCommand :=
  let pendingCommands :=
    limit lim (merge_sort created_le
      (sql_select (fun c => claimable deviceId role c && allowed allow c && negb (locked (cm_id c))) t)) in
  claimEach deviceId role clock 0 pendingCommands t.

(** ** services/commandQueue.ts *)

(** [String(n)] *)
Definition show_int (n : Z) : string := if n <? 0 then ("-" ++ dec (- n))%string else dec n.

(** [Command timed out after ${timeoutMs}ms] *)
Definition waitTimeoutResult (timeoutMs : Z) : json :=
  stored [("status", JStr "timeout"); ("error", JStr ("Command timed out after " ++ show_int timeoutMs ++ "ms"))]%string.

(** The update of [waitForCommandResult] once the time is up. *)
Definition timeOutWaited (id : string) (timeoutMs completedAt : Z) (t : CommandTable) : CommandTable :=
  (update1 id live (set_terminal c_failed completedAt (waitTimeoutResult timeoutMs) false) t).1.

(** [getPendingCommands(deviceId, limit)] *)
Definition getPendingCommands (deviceId : string) (lim : Z) (t : CommandTable) : list DeviceCommand :=
  limit lim (merge_sort created_le
    (sql_select (fun c => bool_decide (cm_deviceId c = deviceId) && is_status c_pending c) t)).

(** [markCommandsSent(commandIds)]: one update per id. *)
Fixpoint markCommandsSent (ids : list string) (clock : nat -> Z) (n : nat) (t : CommandTable) : CommandTable :=
  match ids with
  | [] => t
  | id :: rest =>
      markCommandsSent rest clock (S n)
        (update1 id (is_status c_pending) (set_delivery c_sent (Some (clock n))) t).1
  end.

(** [result.status === 'completed' ? 'completed' : 'failed'] *)
Definition terminalStatus (status : string) : CommandStatus :=
  if bool_decide (status = "completed"%string) then c_completed else c_failed.

(** [submitCommandResult(commandId, result)] *)
Definition submitCommandResult (id status : string) (res : json) (now : Z) (t : CommandTable) : CommandTable * bool :=
  update1 id (is_status c_sent) (set_terminal (terminalStatus status) now res false) t.

(** The delete of [queueBackupStopCommand] and of [removeQueuedRestoreDispatch]. *)
Definition deletePending (id : string) (t : CommandTable) : CommandTable * bool :=
  match t !! id with
  | Some c => if is_status c_pending c then (delete id t, true) else (t, false)
  | None => (t, false)
  end.

(** The re-arm of [rearmIdempotentCommandForDelivery]: a cancelled row stays. *)
Definition rearm (c : DeviceCommand) : DeviceCommand :=
  {| cm_id := cm_id c; cm_deviceId := cm_deviceId c; cm_type := cm_type c; cm_payload := cm_payload c;
     cm_status := c_pending; cm_targetRole := cm_targetRole c; cm_createdBy := cm_createdBy c;
     cm_createdAt := cm_createdAt c; cm_executedAt := None; cm_completedAt := None; cm_result := JNull |}.

Definition rearmUpdate (id : string) (t : CommandTable) : CommandTable :=
  (update1 id (fun c => negb (is_status c_cancelled c)) rearm t).1.

(** ** Results of agents: the terminal compare-and-set *)

Definition accepts (deviceId : string) (role : TargetRole) (c : DeviceCommand) : bool :=
  bool_decide (cm_deviceId c = deviceId) && bool_decide (cm_targetRole c = role) && live c.

(** routes/agents/commands.ts blanks the payload of a type that carries credentials. *)
Definition restResultCas (id deviceId : string) (role : TargetRole) (type status : string) (res : json) (now : Z)
    (t : CommandTable) : CommandTable * bool :=
  update1 id (accepts deviceId role) (set_terminal (terminalStatus status) now res (hasSensitivePayload type)) t.

(** routes/agentWs.ts leaves the payload as it is. *)
Definition wsResultCas (id deviceId status : string) (res : json) (now : Z) (t : CommandTable) : CommandTable * bool :=
  update1 id (accepts deviceId role_agent) (set_terminal (terminalStatus status) now res false) t.

(** ** jobs/staleCommandReaper.ts *)

Definition MAX_SAFE_INTEGER : Z := 9007199254740991.

Definition resolveMaxReapPerRun (raw : Z) : Z :=
  if 0 <? raw then raw else if raw =? 0 then MAX_SAFE_INTEGER else 5000.

Definition SHORTEST_TIMEOUT_MS : Z := 5 * 60 * 1000.

(** The rows the SQL of [reapStaleDeviceCommands] selects; [draining] tells the
    devices whose organization or partner is offboarding. *)
Definition staleCandidate (now : Z) (draining : string -> bool) (c : DeviceCommand) : bool :=
  live c && (cm_createdAt c <? now - SHORTEST_TIMEOUT_MS)
  && negb (bool_decide (cm_type c ∈ EXCLUDED_COMMAND_TYPES))
  && negb (of_type "self_uninstall" c && draining (cm_deviceId c)).

Definition staleCommands (now cap : Z) (draining : string -> bool) (t : CommandTable) : list DeviceCommand :=
  limit cap (merge_sort created_le (sql_select (staleCandidate now draining) t)).

Definition referenceTime (c : DeviceCommand) : Z :=
  match cm_status c, cm_executedAt c with c_sent, Some t => t | _, _ => cm_createdAt c end.

(** [now - referenceTime < timeoutMs] *)
Definition stillFresh (now : Z) (c : DeviceCommand) : bool :=
  within (now - referenceTime c) (getCommandTimeoutMs (cm_type c) (cm_payload c)).

Definition staleError (c : DeviceCommand) : string :=
  let minutes := show_int (timeoutMinutes (getCommandTimeoutMs (cm_type c) (cm_payload c))) in
  if is_status c_sent c
  then ("Server-side timeout: no response from agent after " ++ minutes ++ " minutes")%string
  else ("Command expired: agent never received the command (" ++ minutes ++ " min timeout)")%string.

Definition staleResult (c : DeviceCommand) : json :=
  stored [("status", JStr "timeout"); ("error", JStr (staleError c)); ("timedOutBy", JStr "server")]%string.

(** The update for one selected row [c]. *)
Definition failStale (c : DeviceCommand) (completedAt : Z) (t : CommandTable) : CommandTable * bool :=
  update1 (cm_id c) live (set_terminal c_failed completedAt (staleResult c) false) t.

(** The cancel of a queued install whose deployment expired. *)
Definition cancelExpiredInstall (id errorMessage : string) (now : Z) (t : CommandTable) : CommandTable :=
  (update1 id (is_status c_pending)
     (set_terminal c_cancelled now (stored [("status", JStr "cancelled"); ("error", JStr errorMessage);
                                            ("cancelledBy", JStr "stale-command-reaper")]%string) false) t).1.

(** ** Cancellation *)

(** routes/software.ts: the queued commands of a cancelled deployment. *)
Definition cancelDeploymentCommands (ids : list string) (user : option string) (now : Z) (t : CommandTable) : CommandTable :=
  sql_update (fun c => bool_decide (cm_id c ∈ ids) && is_status c_pending c)
    (set_terminal c_cancelled now
       (stored [("status", JStr "cancelled"); ("error", JStr "Deployment cancelled before delivery");
                ("cancelledBy", JStr (default "software-deployment-cancel" user))]%string) false) t.

(** routes/scripts.ts: the queued command of a cancelled execution. *)
Definition cancelExecutionCommands (deviceId executionId user : string) (now : Z) (t : CommandTable) : CommandTable :=
  sql_update (fun c => bool_decide (cm_deviceId c = deviceId) && is_status c_pending c
                       && match payload_get "executionId" (cm_payload c) with
                          | JUndef | JNull => false
                          | v => bool_decide (js_String v = executionId)
                          end)
    (set_terminal c_cancelled now (stored [("cancelled", JBool true); ("cancelledBy", JStr user)]%string) false) t.

(** routes/backup/verificationScheduled.ts *)
Definition markVerificationCommandTimedOut (id : string) (now : Z) (t : CommandTable) : CommandTable * bool :=
  update1 id live
    (set_terminal c_failed now
       (stored [("status", JStr "timeout"); ("error", JStr "Verification timed out after 30 minutes");
                ("timedOutBy", JStr "verification-timeout-check")]%string) false) t.

(** The live commands of some devices but their uninstalls, cancelled with [reason]. *)
Definition cancelOthers (deviceIds : list string) (reason : string) (now : Z) (t : CommandTable) : CommandTable :=
  sql_update (fun c => bool_decide (cm_deviceId c ∈ deviceIds) && negb (of_type "self_uninstall" c) && live c)
    (set_terminal c_cancelled now (stored [("reason", JStr reason)]%string) false) t.

Definition liveUninstall (c : DeviceCommand) : bool := of_type "self_uninstall" c && live c.

(** The uninstalls of [values(deviceIds.map(...))]. *)
Definition uninstalls (deviceIds : list string) (createdBy : option string) (newIds : nat -> string) (dbNow : Z)
  : list DeviceCommand :=
  imap (fun n d => new_command (newIds n) d "self_uninstall" (JObj [("removeConfig"%string, JBool true)])
                     role_agent createdBy dbNow) deviceIds.

(** services/tenantOffboarding.ts, [queueDrainUninstalls]: the devices are those of
    the organizations that are not decommissioned, locked for the transaction.
    The answer counts the devices, the uninstalls queued and the commands
    cancelled; [None] is a failed insert, which rolls everything back. *)
Definition queueDrainUninstalls (deviceIds : list string) (createdBy : option string) (newIds : nat -> string)
    (now dbNow : Z) (t : CommandTable) : option (CommandTable * (nat * nat * nat)) :=
  match deviceIds with
  | [] => Some (t, (0, 0, 0)%nat)
  | _ =>
      let cancelled := length (sql_select (fun c => bool_decide (cm_deviceId c ∈ deviceIds)
                                 && negb (of_type "self_uninstall" c) && live c) t) in
      let t1 := cancelOthers deviceIds "tenant_offboarding" now t in
      let alreadyQueued := cm_deviceId <$>
        sql_select (fun c => bool_decide (cm_deviceId c ∈ deviceIds) && liveUninstall c) t1 in
      let toQueue := List.filter (fun d => negb (bool_decide (d ∈ alreadyQueued))) deviceIds in
      match insert_all (uninstalls toQueue createdBy newIds dbNow) t1 with
      | Some t2 => Some (t2, (length deviceIds, length toQueue, cancelled))
      | None => None
      end
  end.

(** [cancelDrainUninstallsForOrgIds(orgIds, reason)], on the organizations' devices. *)
Definition cancelDrainUninstalls (deviceIds : list string) (reason : string) (now : Z) (t : CommandTable) : CommandTable :=
  sql_update (fun c => bool_decide (cm_deviceId c ∈ deviceIds) && liveUninstall c)
    (set_terminal c_cancelled now (stored [("reason", JStr reason)]%string) false) t.

(** The two statements of [collectAndCancelOutstanding] that concern what is left. *)
Definition outstandingUninstalls (deviceIds : list string) (t : CommandTable) : list DeviceCommand :=
  sql_select (fun c => bool_decide (cm_deviceId c ∈ deviceIds) && liveUninstall c) t.

Definition cancelOutstanding (ids : list string) (now : Z) (t : CommandTable) : CommandTable :=
  sql_update (fun c => bool_decide (cm_id c ∈ ids) && live c)
    (set_terminal c_cancelled now
       (stored [("status", JStr "cancelled"); ("reason", JStr "offboarding_window_closed");
                ("error", JStr "Offboarding drain window closed: agent never confirmed the uninstall")]%string) false) t.

(** routes/admin/abuse.ts: an uninstall for every device of the partner, then the
    other live commands cancelled. *)
Definition suspendForAbuse (deviceIds : list string) (callerId : string) (newIds : nat -> string) (now dbNow : Z)
    (t : CommandTable) : option CommandTable :=
  match deviceIds with
  | [] => Some t
  | _ =>
      match insert_all (uninstalls deviceIds (Some callerId) newIds dbNow) t with
      | Some t1 => Some (cancelOthers deviceIds "partner_suspended_for_abuse" now t1)
      | None => None
      end
  end.
