(* ===== verification/Commands.v ===== *)
(** * Device commands: queueing, dispatch, delivery, results and expiry

    services/commandQueue.ts ([executeCommand], [queueCommandForExecution],
    [queueBackupStopCommand], [rearmIdempotentCommandForDelivery],
    [waitForCommandResult]), services/commandDelivery.ts, the two ways an agent
    reports a result (routes/agents/commands.ts and [processCommandResult] of
    routes/agentWs.ts) and [reapStaleDeviceCommands] of
    jobs/staleCommandReaper.ts.

    An operation is a process; one step of a process is one statement (or one
    transaction) together with the synchronous code up to the next [await]. The
    world around a step is its environment: clocks, random ids, the devices, the
    open sockets, the encryption keys. Metrics and log lines are left out. *)

From stdpp Require Import base gmap strings list option sorting.
From Stdlib Require Import ZArith Lia Ascii QArith.
From S2P Require Import Prelude Json SecretCrypto CommandTypes CommandStore.

Open Scope Z_scope.

(** ** The world around a step *)

(** [ce_clock] gives the successive readings of the clock inside a step.
    [ce_draining]: the organization or the partner of the device is offboarding.
    [ce_auditOk], [ce_queryOk]: the audit insert, a release of a batch or the
    lifecycle re-check does not throw. *)
Record CEnv : Type := {
  ce_now : Z;
  ce_clock : nat -> Z;
  ce_dbNow : Z;
  ce_newId : string;
  ce_newIds : nat -> string;
  ce_devices : gmap string DeviceRow;
  ce_connected : string -> bool;
  ce_sendOk : bool;
  ce_locked : string -> bool;
  ce_draining : string -> bool;
  ce_auditOk : bool;
  ce_queryOk : bool;
  ce_crypto : CryptoEnv;
}.

(** [sendCommandToAgent(agentId, command)]: a socket exists and takes the frame. *)
Definition sendCommandToAgent (e : CEnv) (agentId : string) : bool := ce_connected e agentId && ce_sendOk e.

(** ** Requests *)

Record ExecArgs : Type := {
  xa_deviceId : string;
  xa_type : string;
  xa_payload : json;
  xa_userId : option string;
  xa_timeoutMs : Z;
  xa_preferHeartbeat : bool;
  xa_targetRole : TargetRole;
}.

Record QueueArgs : Type := {
  qa_deviceId : string;
  qa_type : string;
  qa_payload : json;
  qa_userId : option string;
  qa_preferHeartbeat : bool;
  qa_expectedOrgId : option string;
}.

(** A command another service inserts and sends itself, with its payload as it is:
    a script (services/scriptExecution.ts) or a wake-up through a relay
    (services/wakeOnLan.ts). *)
Record DirectArgs : Type := {
  da_deviceId : string;
  da_agentId : string;
  da_type : string;
  da_payload : json;
  da_createdBy : option string;
  da_wake : bool;
}.

(** What an agent reports ([commandResultSchema]); [JUndef] for an absent number. *)
Record AgentResult : Type := {
  ar_status : string;
  ar_exitCode : json;
  ar_stdout : option string;
  ar_stderr : option string;
  ar_durationMs : json;
  ar_error : option string;
  ar_result : json;
}.

Record RearmInput : Type := {
  ri_commandId : string;
  ri_deviceId : string;
  ri_sessionId : string;
  ri_finalizationId : string;
}.

(** ** Processes *)

(** What follows a claim, send and release: [queueCommandForExecution], the same
    for [queueBackupStopCommand], a script, a wake-up, the re-arm. *)
Inductive After : Type := AfQueue | AfStop | AfScript | AfWake | AfRearm.

Record Dispatch : Type := {
  dx_command : DeviceCommand;
  dx_agentId : string;
  dx_payload : json;
  dx_plain : bool;
  dx_after : After;
}.

Inductive Proc : Type :=
| PExec (a : ExecArgs)
| PExecInsert (a : ExecArgs) (agentId orgId : string)
| PExecClaim (a : ExecArgs) (agentId id : string)
| PExecSend (a : ExecArgs) (agentId id : string) (claimedAt : Z) (delivered : DeliverableCommand) (attempt : nat)
| PExecRelease (a : ExecArgs) (id : string) (claimedAt : Z)
| PPoll (id : string) (timeoutMs startTime : Z)
| PPollRead (id : string)
| PQueue (q : QueueArgs) (after : After)
| PQueueInsert (q : QueueArgs) (after : After) (agentId : string)
| PDirect (a : DirectArgs)
| PDispatchClaim (x : Dispatch)
| PDispatchSend (x : Dispatch) (claimedAt : Z) (delivered : DeliverableCommand)
| PDispatchRelease (x : Dispatch) (claimedAt : Z)
| PStopDelete (id : string)
| PRearm (i : RearmInput)
| PBatch (deviceId : string) (role : TargetRole) (tenantDraining : bool)
| PBatchDeliver (deviceId : string) (role : TargetRole) (claimed : list DeviceCommand)
| PBatchRelease (deviceId : string) (role : TargetRole) (todo : list DeviceCommand) (delivered : list DeliverableCommand)
| PRest (deviceId : string) (role : TargetRole) (id : string) (data : AgentResult)
| PRestCas (deviceId : string) (role : TargetRole) (command : DeviceCommand) (data : AgentResult)
    (stdout validationError : option string)
| PWs (agentId : string) (deviceId : option string) (id : string) (result : AgentResult) (consumed : bool)
| PWsRecheck (agentId deviceId : string) (command : DeviceCommand) (result : AgentResult)
| PWsCas (agentId deviceId : string) (command : DeviceCommand) (result : AgentResult)
    (stdout validationError : option string)
| PReap (rawCap : Z)
| PReapLoop (now : Z) (todo : list DeviceCommand) (reaped : nat)
| PFinalize (deviceIds : list string)
| PFinalizeCancel (ids : list string).

Inductive Answer : Type :=
| AnsResult (r : json)
| AnsQueued (c : DeviceCommand)
| AnsError (e : string)
| AnsCommands (l : list DeliverableCommand)
| AnsRearm (refused : option string)
| AnsReaped (n : nat)
| AnsSuccess
| AnsNotFound
| AnsRoleMismatch
| AnsOrphan
| AnsSevered
| AnsThrown.

Inductive Continuation : Type := Next (p : Proc) | Done (a : Answer).

(** Where a command is handed over: on the socket of an agent, or in the response to a
    poll of a device. *)
Inductive Dest : Type :=
| ToSocket (agentId : string)
| ToPoll (deviceId : string) (role : TargetRole).

(** What a step does besides changing the table. [EvHandled]: the result is
    passed to the handlers of the command's type. *)
Inductive Event : Type :=
| EvInserted (c : DeviceCommand)
| EvDelivered (dest : Dest) (d : DeliverableCommand)
| EvRecorded (id : string) (res : json)
| EvHandled (id : string)
| EvCommandAudit (orgId : string) (actor : option string) (action id : string)
| EvResultAudit (id : string) (success : bool)
| EvExpired (id : string).

Record StepResult : Type := {
  sr_table : CommandTable;
  sr_events : list Event;
  sr_spawn : list Proc;
  sr_next : Continuation;
}.

Definition stay (t : CommandTable) (k : Continuation) : StepResult :=
  {| sr_table := t; sr_events := []; sr_spawn := []; sr_next := k |}.
Definition emit (t : CommandTable) (evs : list Event) (k : Continuation) : StepResult :=
  {| sr_table := t; sr_events := evs; sr_spawn := []; sr_next := k |}.

(** ** Texts and small helpers *)

Definition DEVICE_UNREACHABLE_ERROR : string :=
  "Device is not currently reachable over the live connection. Please try again in a moment.".
Definition WATCHDOG_STALE_MS : Z := 10 * 60 * 1000.
Definition SEND_RETRY_ATTEMPTS : nat := 3.

(** [{ status: 'failed', error }] *)
Definition failed_result (err : string) : list (string * json) :=
  [("status", JStr "failed"); ("error", JStr err)]%string.

Definition with_commandId (id : string) (r : list (string * json)) : json :=
  JObj (assign_prop "commandId" (JStr id) r).

(** [{ ...(result.result ?? { ... }), commandId }] *)
Definition finalResult (id : string) (c : DeviceCommand) : json :=
  with_commandId id
    match cm_result c with
    | JNull | JUndef => failed_result "Command did not complete"
    | JObj members => members
    | _ => []
    end.

Definition cannotExecute (status : string) : string := ("Device is " ++ status ++ ", cannot execute command")%string.

Definition deliverable (c : DeviceCommand) : DeliverableCommand :=
  {| dc_id := cm_id c; dc_type := cm_type c; dc_payload := cm_payload c |}.

(** [userId || null] *)
Definition or_null (u : option string) : option string := if truthy u then u else None.

(** [userId && userId !== deviceId ? userId : null] *)
Definition safeUserId (deviceId : string) (u : option string) : option string :=
  if truthy u && negb (opt_eqb u (Some deviceId)) then u else None.

(** The audit entry of a command whose type is audited; the insert runs on its own
    and a failure is only logged. *)
Definition commandAudit (e : CEnv) (orgId : string) (actor : option string) (c : DeviceCommand) : list Event :=
  if bool_decide (cm_type c ∈ AUDITED_COMMANDS) && ce_auditOk e
  then [EvCommandAudit orgId actor ("agent.command." ++ cm_type c)%string (cm_id c)] else [].

(** ** Results of agents *)

Definition RESTORE_COMMAND_TYPES : list string := ["backup_restore"; "vm_restore_from_backup"; "vm_instant_boot"]%string.
Definition DR_COMMAND_TYPES : list string :=
  ["vm_restore_from_backup"; "vm_instant_boot"; "hyperv_restore"; "mssql_restore"; "bmr_recover"]%string.
Definition VERIFICATION_COMMAND_TYPES : list string := ["backup_verify"; "backup_test_restore"]%string.
Definition VAULT_COMMAND_TYPES : list string := ["vault_sync"]%string.

Inductive CriticalResultFamily : Type := fam_verification | fam_vault | fam_dr | fam_restore.

Definition detectResultValidationFamily (type : string) : option CriticalResultFamily :=
  if bool_decide (type ∈ VERIFICATION_COMMAND_TYPES) then Some fam_verification
  else if bool_decide (type ∈ VAULT_COMMAND_TYPES) then Some fam_vault
  else if bool_decide (type ∈ DR_COMMAND_TYPES) then Some fam_dr
  else if bool_decide (type ∈ RESTORE_COMMAND_TYPES) then Some fam_restore
  else None.

(** [TERMINAL_TRANSITION_FAMILIES_ON_VALIDATION_FAILURE] *)
Definition finalizedOnRejection (type : string) : bool :=
  match detectResultValidationFamily type with
  | Some fam_verification | Some fam_restore => true
  | _ => false
  end.

Definition isRawStdoutArtifactCommand (type : string) : bool := bool_decide (type = "capture_pprof"%string).

Definition opt_str (s : option string) : json := match s with Some s => JStr s | None => JUndef end.

Definition commandResultToStdout (r : AgentResult) : option string :=
  match ar_stdout r with
  | Some s => Some s
  | None => if is_undef (ar_result r) then None else Some (stringify (ar_result r))
  end.

(** [/^[0-9a-f]{8}-[0-9a-f]{4}-[1-5][0-9a-f]{3}-[89ab][0-9a-f]{3}-[0-9a-f]{12}$/i] *)
Definition hex_part (n : nat) (s : string) : bool := (String.length s =? n)%nat && str_forallb is_hex s.
Definition starts_in (l : list ascii) (s : string) : bool :=
  match s with String c _ => bool_decide (ascii_lower c ∈ l) | EmptyString => false end.
Definition uuidRegex (s : string) : bool :=
  match str_split "-" s with
  | [a; b; c; d; f] =>
      hex_part 8 a && hex_part 4 b && hex_part 4 c && starts_in ["1"; "2"; "3"; "4"; "5"]%char c
      && hex_part 4 d && starts_in ["8"; "9"; "a"; "b"]%char d && hex_part 12 f
  | _ => false
  end.

(** [redactSecretsFromOutput] of services/secretRedaction.ts and
    [validateCriticalCommandResult] of services/agentCommandResultValidation.ts:
    any functions. The second throws a message, returns null, or gives the
    normalized output and the structured result. *)
Section results.
Context (redact : string -> string)
        (validate : string -> string -> AgentResult -> result string (option (option string * json))).

Definition redactAgentResultErrorFields (r : AgentResult) : AgentResult :=
  {| ar_status := ar_status r; ar_exitCode := ar_exitCode r; ar_stdout := ar_stdout r;
     ar_stderr := redact <$> ar_stderr r; ar_durationMs := ar_durationMs r; ar_error := redact <$> ar_error r;
     ar_result := ar_result r |}.

Definition buildStoredCommandResult (type : string) (r : AgentResult) (stdout : option string) : json :=
  stored [("status", JStr (ar_status r)); ("exitCode", ar_exitCode r);
          ("stdout", opt_str (if isRawStdoutArtifactCommand type then stdout else redact <$> stdout));
          ("stderr", opt_str (redact <$> ar_stderr r)); ("durationMs", ar_durationMs r);
          ("error", opt_str (redact <$> ar_error r))]%string.

(** [normalizeCriticalResultIfNeeded]: the result, its output, the rejection. *)
Definition normalizeCriticalResultIfNeeded (type id : string) (r : AgentResult)
  : AgentResult * option string * option string :=
  match detectResultValidationFamily type with
  | None => (r, commandResultToStdout r, None)
  | Some _ =>
      match validate type id r with
      | Ok None => (r, commandResultToStdout r, None)
      | Ok (Some (normalizedStdout, structuredResult)) =>
          let stdout := match normalizedStdout with Some s => Some s | None => ar_stdout r end in
          ({| ar_status := ar_status r; ar_exitCode := ar_exitCode r; ar_stdout := stdout;
              ar_stderr := ar_stderr r; ar_durationMs := ar_durationMs r; ar_error := ar_error r;
              ar_result := structuredResult |}, stdout, None)
      | Err message =>
          let reason := ("Rejected malformed " ++ type ++ " result: " ++ message)%string in
          ({| ar_status := "failed"; ar_exitCode := ar_exitCode r; ar_stdout := ar_stdout r;
              ar_stderr := ar_stderr r; ar_durationMs := ar_durationMs r; ar_error := Some reason;
              ar_result := ar_result r |}, commandResultToStdout r, Some reason)
      end
  end.
End results.

(** ** The steps *)

Section steps.
Context (sha256 : string -> bytes)
        (dec : bytes -> bytes -> option string -> bytes -> bytes -> option bytes)
        (redact : string -> string)
        (validate : string -> string -> AgentResult -> result string (option (option string * json))).

Abbreviation decryptFor e := (decryptCommandForDelivery sha256 dec (ce_crypto e)).

(** *** [executeCommand] *)

Definition dispatchViaWs (a : ExecArgs) : bool :=
  bool_decide (xa_targetRole a = role_agent) && negb (xa_preferHeartbeat a).

Definition interactive (type : string) : bool := bool_decide (type ∈ INTERACTIVE_COMMAND_TYPES).

(** The watchdog has not reported for more than [WATCHDOG_STALE_MS]. *)
Definition watchdogStale (e : CEnv) (d : DeviceRow) : bool :=
  match dw_watchdogLastSeen d with Some seen => WATCHDOG_STALE_MS <? ce_now e - seen | None => true end.

(** The checks on the device; [None] when the command may be queued. *)
Definition execRefusal (e : CEnv) (a : ExecArgs) (d : DeviceRow) : option string :=
  if bool_decide (xa_targetRole a = role_watchdog) && watchdogStale e d
  then Some "Watchdog is not reporting; cannot dispatch watchdog command"%string
  else if bool_decide (xa_targetRole a = role_agent) && negb (bool_decide (dw_status d = "online"%string))
  then Some (cannotExecute (dw_status d))
  else if truthy (Some (dw_agentId d)) && dispatchViaWs a && interactive (xa_type a) && negb (ce_connected e (dw_agentId d))
  then Some DEVICE_UNREACHABLE_ERROR
  else None.

Definition step_exec (e : CEnv) (a : ExecArgs) (t : CommandTable) : StepResult :=
  match ce_devices e !! xa_deviceId a with
  | None => stay t (Done (AnsResult (JObj (failed_result "Device not found"))))
  | Some d =>
      match execRefusal e a d with
      | Some err => stay t (Done (AnsResult (JObj (failed_result err))))
      | None => stay t (Next (PExecInsert a (dw_agentId d) (dw_orgId d)))
      end
  end.

Definition step_exec_insert (e : CEnv) (a : ExecArgs) (agentId orgId : string) (t : CommandTable) : StepResult :=
  let createdBy := safeUserId (xa_deviceId a) (xa_userId a) in
  let c := new_command (ce_newId e) (xa_deviceId a) (xa_type a) (xa_payload a) (xa_targetRole a) createdBy (ce_dbNow e) in
  match insert1 c t with
  | None => stay t (Done AnsThrown)
  | Some t' =>
      emit t' (EvInserted c :: commandAudit e orgId createdBy c)
        (Next (if truthy (Some agentId) && dispatchViaWs a then PExecClaim a agentId (cm_id c)
               else PPoll (cm_id c) (xa_timeoutMs a) (ce_now e)))
  end.

Definition step_exec_claim (e : CEnv) (a : ExecArgs) (agentId id : string) (t : CommandTable) : StepResult :=
  match claimPendingCommandForDelivery id (ce_now e) t with
  | (t', true) =>
      stay t' (Next (match decryptFor e {| dc_id := id; dc_type := xa_type a; dc_payload := xa_payload a |} with
                     | Some d => PExecSend a agentId id (ce_now e) d 0
                     | None => PExecRelease a id (ce_now e)
                     end))
  | (t', false) => stay t' (Next (PPoll id (xa_timeoutMs a) (ce_now e)))
  end.

Definition step_exec_send (e : CEnv) (a : ExecArgs) (agentId id : string) (claimedAt : Z) (d : DeliverableCommand)
    (attempt : nat) (t : CommandTable) : StepResult :=
  if sendCommandToAgent e agentId
  then emit t [EvDelivered (ToSocket agentId) d] (Next (PPoll id (xa_timeoutMs a) (ce_now e)))
  else if (S attempt <? SEND_RETRY_ATTEMPTS)%nat then stay t (Next (PExecSend a agentId id claimedAt d (S attempt)))
  else stay t (Next (PExecRelease a id claimedAt)).

Definition step_exec_release (e : CEnv) (a : ExecArgs) (id : string) (claimedAt : Z) (t : CommandTable) : StepResult :=
  stay (releaseClaimedCommandDelivery id claimedAt t)
    (if interactive (xa_type a)
     then Done (AnsResult (with_commandId id (failed_result DEVICE_UNREACHABLE_ERROR)))
     else Next (PPoll id (xa_timeoutMs a) (ce_now e))).

(** [waitForCommandResult]: one turn of the loop, or the write when time is up. *)
Definition step_poll (e : CEnv) (id : string) (timeoutMs startTime : Z) (t : CommandTable) : StepResult :=
  if ce_now e - startTime <? timeoutMs then
    match t !! id with
    | None => stay t (Done AnsThrown)
    | Some c =>
        match cm_status c with
        | c_completed | c_failed => stay t (Done (AnsResult (finalResult id c)))
        | _ => stay t (Next (PPoll id timeoutMs startTime))
        end
    end
  else stay (timeOutWaited id timeoutMs (ce_now e) t) (Next (PPollRead id)).

Definition step_poll_read (id : string) (t : CommandTable) : StepResult :=
  stay t (Done (match t !! id with Some c => AnsResult (finalResult id c) | None => AnsThrown end)).

(** *** [queueCommand], [queueCommandForExecution], [queueBackupStopCommand] *)

Definition queueCommand (e : CEnv) (q : QueueArgs) (t : CommandTable)
  : option (CommandTable * list Event * DeviceCommand) :=
  let createdBy := or_null (qa_userId q) in
  let c := new_command (ce_newId e) (qa_deviceId q) (qa_type q) (qa_payload q) role_agent createdBy (ce_dbNow e) in
  match insert1 c t with
  | None => None
  | Some t' =>
      let audit := match ce_devices e !! qa_deviceId q with
                   | Some d => commandAudit e (dw_orgId d) createdBy c
                   | None => []
                   end in
      Some (t', EvInserted c :: audit, c)
  end.

Definition step_queue (e : CEnv) (q : QueueArgs) (after : After) (t : CommandTable) : StepResult :=
  match ce_devices e !! qa_deviceId q with
  | None => stay t (Done (AnsError "Device not found"))
  | Some d =>
      if negb (bool_decide (qa_expectedOrgId q = None)) && negb (opt_eqb (qa_expectedOrgId q) (Some (dw_orgId d)))
      then stay t (Done (AnsError "Device not found"))
      else if negb (bool_decide (dw_status d = "online"%string))
      then stay t (Done (AnsError (cannotExecute (dw_status d))))
      else stay t (Next (PQueueInsert q after (dw_agentId d)))
  end.

(** What the caller of a dispatch gets when the command was sent, or was not. *)
Definition after_sent (x : Dispatch) (claimedAt : Z) : Continuation :=
  match dx_after x with
  | AfQueue | AfStop => Done (AnsQueued (set_delivery c_sent (Some claimedAt) (dx_command x)))
  | AfScript | AfWake => Done AnsSuccess
  | AfRearm => Done (AnsRearm None)
  end.

Definition after_unsent (x : Dispatch) : Continuation :=
  match dx_after x with
  | AfQueue => Done (AnsQueued (dx_command x))
  | AfStop => Next (PStopDelete (cm_id (dx_command x)))
  | AfScript => Done AnsSuccess
  | AfWake => Done (AnsError "WS_SEND_FAILED")
  | AfRearm => Done (AnsRearm (Some "delivery_failed"%string))
  end.

Definition step_queue_insert (e : CEnv) (q : QueueArgs) (after : After) (agentId : string) (t : CommandTable) : StepResult :=
  match queueCommand e q t with
  | None => stay t (Done AnsThrown)
  | Some (t', evs, c) =>
      let x := {| dx_command := c; dx_agentId := agentId; dx_payload := qa_payload q; dx_plain := false;
                  dx_after := after |} in
      emit t' evs (if truthy (Some agentId) && negb (qa_preferHeartbeat q) then Next (PDispatchClaim x) else after_unsent x)
  end.

Definition step_direct (e : CEnv) (a : DirectArgs) (t : CommandTable) : StepResult :=
  let c := new_command (ce_newId e) (da_deviceId a) (da_type a) (da_payload a) role_agent (da_createdBy a) (ce_dbNow e) in
  match insert1 c t with
  | None => stay t (Done AnsThrown)
  | Some t' =>
      let x := {| dx_command := c; dx_agentId := da_agentId a; dx_payload := da_payload a; dx_plain := true;
                  dx_after := if da_wake a then AfWake else AfScript |} in
      emit t' [EvInserted c] (if da_wake a || truthy (Some (da_agentId a)) then Next (PDispatchClaim x) else after_unsent x)
  end.

(** *** Claim, send, release *)

Definition dispatchPayload (e : CEnv) (x : Dispatch) : option DeliverableCommand :=
  let d := {| dc_id := cm_id (dx_command x); dc_type := cm_type (dx_command x); dc_payload := dx_payload x |} in
  if dx_plain x then Some d else decryptFor e d.

Definition step_dispatch_claim (e : CEnv) (x : Dispatch) (t : CommandTable) : StepResult :=
  match claimPendingCommandForDelivery (cm_id (dx_command x)) (ce_now e) t with
  | (t', true) =>
      stay t' (Next (match dispatchPayload e x with
                     | Some d => PDispatchSend x (ce_now e) d
                     | None => PDispatchRelease x (ce_now e)
                     end))
  | (t', false) => stay t' (after_unsent x)
  end.

Definition step_dispatch_send (e : CEnv) (x : Dispatch) (claimedAt : Z) (d : DeliverableCommand) (t : CommandTable)
  : StepResult :=
  if sendCommandToAgent e (dx_agentId x)
  then emit t [EvDelivered (ToSocket (dx_agentId x)) d] (after_sent x claimedAt)
  else stay t (Next (PDispatchRelease x claimedAt)).

Definition step_dispatch_release (x : Dispatch) (claimedAt : Z) (t : CommandTable) : StepResult :=
  stay (releaseClaimedCommandDelivery (cm_id (dx_command x)) claimedAt t) (after_unsent x).

Definition step_stop_delete (id : string) (t : CommandTable) : StepResult :=
  stay (deletePending id t).1 (Done (AnsError "Backup stop could not be dispatched immediately")).

(** *** [rearmIdempotentCommandForDelivery] *)

Definition rearmPayload (i : RearmInput) : json :=
  JObj [("sessionId"%string, JStr (ri_sessionId i)); ("finalizationId"%string, JStr (ri_finalizationId i))].

Definition is_string (s : string) (v : json) : bool := match v with JStr x => bool_decide (x = s) | _ => false end.

(** The stored row is the one the input names. *)
Definition rearmMatches (i : RearmInput) (c : DeviceCommand) : bool :=
  bool_decide (cm_deviceId c = ri_deviceId i) && of_type "desktop_stream_stop" c
  && bool_decide (cm_targetRole c = role_agent)
  && match cm_payload c with
     | JObj members =>
         (length members =? 2)%nat && is_string (ri_sessionId i) (json_get "sessionId" members)
         && is_string (ri_finalizationId i) (json_get "finalizationId" members)
     | _ => false
     end.

Definition step_rearm (e : CEnv) (i : RearmInput) (t : CommandTable) : StepResult :=
  match t !! ri_commandId i with
  | None => stay t (Done (AnsRearm (Some "command_conflict"%string)))
  | Some c =>
      if negb (rearmMatches i c) then stay t (Done (AnsRearm (Some "command_conflict"%string)))
      else
        match ce_devices e !! ri_deviceId i with
        | Some d =>
            if negb (truthy (Some (dw_agentId d))) then stay t (Done (AnsRearm (Some "agent_disconnected"%string)))
            else
              let t' := rearmUpdate (ri_commandId i) t in
              if negb (ce_connected e (dw_agentId d))
              then stay t' (Done (AnsRearm (Some "agent_disconnected"%string)))
              else stay t' (Next (PDispatchClaim
                     {| dx_command := c; dx_agentId := dw_agentId d; dx_payload := rearmPayload i; dx_plain := true;
                        dx_after := AfRearm |}))
        | None => stay t (Done (AnsRearm (Some "agent_disconnected"%string)))
        end
  end.

(** *** Delivery in the response to a poll or a heartbeat *)

Definition BATCH_LIMIT : Z := 10.

Definition step_batch (e : CEnv) (deviceId : string) (role : TargetRole) (tenantDraining : bool) (t : CommandTable)
  : StepResult :=
  let allow := if tenantDraining then Some ["self_uninstall"%string] else None in
  let '(t', claimed) := claimPendingCommandsForDevice deviceId BATCH_LIMIT role allow (ce_locked e) (ce_clock e) t in
  stay t' (Next (PBatchDeliver deviceId role claimed)).

Definition answerBatch (deviceId : string) (role : TargetRole) (ds : list DeliverableCommand) (t : CommandTable) : StepResult :=
  emit t (EvDelivered (ToPoll deviceId role) <$> ds) (Done (AnsCommands ds)).

(** [decryptClaimedCommandsForDelivery(claimed)]: decrypt, then release one by one
    what could not be decrypted. *)
Definition step_batch_deliver (e : CEnv) (deviceId : string) (role : TargetRole) (claimed : list DeviceCommand)
    (t : CommandTable) : StepResult :=
  let ds := decryptCommandsForDelivery sha256 dec (ce_crypto e) (deliverable <$> claimed) in
  if (length ds =? length claimed)%nat then answerBatch deviceId role ds t
  else stay t (Next (PBatchRelease deviceId role
                       (List.filter (fun c => negb (bool_decide (cm_id c ∈ (dc_id <$> ds)))) claimed) ds)).

(** A release that throws is logged and the loop goes on. *)
Definition step_batch_release (e : CEnv) (deviceId : string) (role : TargetRole) (todo : list DeviceCommand)
    (ds : list DeliverableCommand) (t : CommandTable) : StepResult :=
  match todo with
  | [] => answerBatch deviceId role ds t
  | c :: rest =>
      stay (match cm_executedAt c with
            | Some at_ => if ce_queryOk e then releaseClaimedCommandDelivery (cm_id c) at_ t else t
            | None => t
            end) (Next (PBatchRelease deviceId role rest ds))
  end.

(** *** Results over HTTP *)

Definition step_rest (deviceId : string) (role : TargetRole) (id : string) (data : AgentResult) (t : CommandTable)
  : StepResult :=
  if negb (uuidRegex id) then stay t (Done AnsSuccess)
  else
    match t !! id with
    | Some c =>
        if negb (bool_decide (cm_deviceId c = deviceId)) then stay t (Done AnsNotFound)
        else if negb (bool_decide (cm_targetRole c = role)) then stay t (Done AnsRoleMismatch)
        else if negb (live c) then stay t (Done AnsSuccess)
        else
          let '(raw, stdout, validationError) := normalizeCriticalResultIfNeeded validate (cm_type c) id data in
          stay t (Next (PRestCas deviceId role c (redactAgentResultErrorFields redact raw) stdout validationError))
    | None => stay t (Done AnsNotFound)
    end.

(** The follow-up collection after an audit baseline was applied. *)
Definition followUp (c : DeviceCommand) (data : AgentResult) : list Proc :=
  if of_type "apply_audit_policy_baseline" c && bool_decide (ar_status data = "completed"%string)
  then [PQueue {| qa_deviceId := cm_deviceId c; qa_type := "collect_audit_policy"; qa_payload := JObj [];
                  qa_userId := None; qa_preferHeartbeat := false; qa_expectedOrgId := None |} AfQueue]
  else [].

Definition succeeded (r : AgentResult) : bool := bool_decide (ar_status r = "completed"%string).

Definition step_rest_cas (e : CEnv) (deviceId : string) (role : TargetRole) (c : DeviceCommand) (data : AgentResult)
    (stdout validationError : option string) (t : CommandTable) : StepResult :=
  let res := buildStoredCommandResult redact (cm_type c) data stdout in
  match restResultCas (cm_id c) deviceId role (cm_type c) (ar_status data) res (ce_now e) t with
  | (t', false) => stay t' (Done AnsSuccess)
  | (t', true) =>
      match validationError with
      | Some _ => emit t' [EvRecorded (cm_id c) res] (Done AnsSuccess)
      | None =>
          {| sr_table := t';
             sr_events := [EvRecorded (cm_id c) res; EvHandled (cm_id c); EvResultAudit (cm_id c) (succeeded data)];
             sr_spawn := followUp c data; sr_next := Done AnsSuccess |}
      end
  end.

(** *** Results over the socket *)

(** The command an agent may answer: by device id, or through the device of the
    agent. *)
Definition wsLookup (e : CEnv) (agentId : string) (deviceId : option string) (id : string) (t : CommandTable)
  : option (DeviceCommand * string) :=
  match t !! id with
  | None => None
  | Some c =>
      match deviceId with
      | Some (String _ _ as did) => if accepts did role_agent c then Some (c, did) else None
      | _ =>
          match ce_devices e !! cm_deviceId c with
          | Some d => if bool_decide (dw_agentId d = agentId) && accepts (cm_deviceId c) role_agent c
                      then Some (c, cm_deviceId c) else None
          | None => None
          end
      end
  end.

(** [processCommandResult]; [consumed]: a promise in memory awaited this id. An
    orphaned result belongs to a job without a row. *)
Definition step_ws (e : CEnv) (agentId : string) (deviceId : option string) (id : string) (result : AgentResult)
    (consumed : bool) (t : CommandTable) : StepResult :=
  if consumed then stay t (Done AnsSuccess)
  else if negb (uuidRegex id) then stay t (Done AnsOrphan)
  else
    match wsLookup e agentId deviceId id t with
    | None => stay t (Done AnsOrphan)
    | Some (c, did) => stay t (Next (PWsRecheck agentId did c (redactAgentResultErrorFields redact result)))
    end.

(** [isAgentDeviceStillAuthorized(agentId)]: open when the query fails or finds nothing. *)
Definition isAgentDeviceStillAuthorized (e : CEnv) (agentId : string) : bool :=
  if negb (ce_queryOk e) then true
  else match List.find (fun d => bool_decide (dw_agentId d = agentId)) (sql_rows (ce_devices e)) with
       | None => true
       | Some d => negb (bool_decide (dw_status d = "decommissioned"%string))
                   && negb (bool_decide (dw_status d = "quarantined"%string)) && negb (dw_tokenSuspended d)
       end.

Definition step_ws_recheck (e : CEnv) (agentId did : string) (c : DeviceCommand) (result : AgentResult) (t : CommandTable)
  : StepResult :=
  if negb (isAgentDeviceStillAuthorized e agentId) then stay t (Done AnsSevered)
  else let '(normalized, stdout, validationError) := normalizeCriticalResultIfNeeded validate (cm_type c) (cm_id c) result in
       stay t (Next (PWsCas agentId did c normalized stdout validationError)).

Definition step_ws_cas (e : CEnv) (did : string) (c : DeviceCommand) (result : AgentResult)
    (stdout validationError : option string) (t : CommandTable) : StepResult :=
  let res := buildStoredCommandResult redact (cm_type c) result stdout in
  match wsResultCas (cm_id c) did (ar_status result) res (ce_now e) t with
  | (t', false) => stay t' (Done AnsSuccess)
  | (t', true) =>
      let handled := match validationError with
                     | Some _ => if finalizedOnRejection (cm_type c) then [EvHandled (cm_id c)] else []
                     | None => [EvHandled (cm_id c)]
                     end in
      emit t' (EvRecorded (cm_id c) res :: EvResultAudit (cm_id c) (succeeded result) :: handled) (Done AnsSuccess)
  end.

(** *** [reapStaleDeviceCommands] *)

Definition step_reap (e : CEnv) (rawCap : Z) (t : CommandTable) : StepResult :=
  stay t (Next (PReapLoop (ce_now e)
                  (staleCommands (ce_now e) (resolveMaxReapPerRun rawCap) (ce_draining e) t) 0)).

(** One selected row; [EvExpired] stands for [propagateTimedOutDeviceCommand]. *)
Definition step_reap_loop (e : CEnv) (now : Z) (todo : list DeviceCommand) (reaped : nat) (t : CommandTable) : StepResult :=
  match todo with
  | [] => stay t (Done (AnsReaped reaped))
  | c :: rest =>
      if stillFresh now c then stay t (Next (PReapLoop now rest reaped))
      else match failStale c (ce_now e) t with
           | (t', true) => emit t' [EvExpired (cm_id c)] (Next (PReapLoop now rest (S reaped)))
           | (t', false) => stay t' (Next (PReapLoop now rest reaped))
           end
  end.

(** *** All of them *)

Definition proc_step (e : CEnv) (p : Proc) (t : CommandTable) : StepResult :=
  match p with
  | PExec a => step_exec e a t
  | PExecInsert a agentId orgId => step_exec_insert e a agentId orgId t
  | PExecClaim a agentId id => step_exec_claim e a agentId id t
  | PExecSend a agentId id at_ d n => step_exec_send e a agentId id at_ d n t
  | PExecRelease a id at_ => step_exec_release e a id at_ t
  | PPoll id timeoutMs start => step_poll e id timeoutMs start t
  | PPollRead id => step_poll_read id t
  | PQueue q after => step_queue e q after t
  | PQueueInsert q after agentId => step_queue_insert e q after agentId t
  | PDirect a => step_direct e a t
  | PDispatchClaim x => step_dispatch_claim e x t
  | PDispatchSend x at_ d => step_dispatch_send e x at_ d t
  | PDispatchRelease x at_ => step_dispatch_release x at_ t
  | PStopDelete id => step_stop_delete id t
  | PRearm i => step_rearm e i t
  | PBatch did role draining => step_batch e did role draining t
  | PBatchDeliver did role claimed => step_batch_deliver e did role claimed t
  | PBatchRelease did role todo ds => step_batch_release e did role todo ds t
  | PRest did role id data => step_rest did role id data t
  | PRestCas did role c data out err => step_rest_cas e did role c data out err t
  | PWs agentId did id r consumed => step_ws e agentId did id r consumed t
  | PWsRecheck agentId did c r => step_ws_recheck e agentId did c r t
  | PWsCas agentId did c r out err => step_ws_cas e did c r out err t
  | PReap cap => step_reap e cap t
  | PReapLoop now todo n => step_reap_loop e now todo n t
  | PFinalize devs => stay t (Next (PFinalizeCancel (cm_id <$> outstandingUninstalls devs t)))
  | PFinalizeCancel ids => stay (cancelOutstanding ids (ce_now e) t) (Done AnsSuccess)
  end.
End steps.
