(* ===== verification/CommandSystem.v ===== *)
(** * The command queue: every interleaving of callers, agents and jobs

    The state is the table, the processes in flight and what has happened so far.
    An action spawns a process, runs one of them for a step in any environment,
    loses one (a crash, a failed statement), or runs one of the statements of the
    other services. *)

From stdpp Require Import base gmap strings list option sorting.
From Stdlib Require Import ZArith Lia Ascii QArith.
From S2P Require Import Prelude Json SecretCrypto CommandTypes CommandStore Commands.

Open Scope Z_scope.

(** ** The system *)

Record CWorld : Type := {
  cw_table : CommandTable;
  cw_procs : list Proc;
  cw_log : list Event;
  cw_answers : list Answer;
}.

(** [queueBackupStopCommand(deviceId, { userId })] *)
Definition queueBackupStopCommand (deviceId : string) (userId : option string) : Proc :=
  PQueue {| qa_deviceId := deviceId; qa_type := "backup_stop"; qa_payload := JObj [("reason"%string, JStr "cancelled")];
            qa_userId := userId; qa_preferHeartbeat := false; qa_expectedOrgId := None |} AfStop.

(** The operations others call. *)
Definition is_start (p : Proc) : bool :=
  match p with
  | PExec _ | PDirect _ | PRearm _ | PBatch _ _ _ | PRest _ _ _ _ | PWs _ _ _ _ _ | PReap _ | PFinalize _ => true
  | PQueue _ AfQueue | PQueue _ AfStop => true
  | _ => false
  end.

(** The statements of the other services: a command left for the next poll
    ([queueCommand] from a worker, or an insert of its own, the id drawn at random
    or given), the cancellations, the tenant transitions, and the two updates of
    the polling protocol that nothing calls any more. *)
Inductive Stmt : Type :=
| SQueue (q : QueueArgs)
| SInsert (id : option string) (deviceId type : string) (payload : json) (role : TargetRole) (createdBy : option string)
| SMarkSent (ids : list string)
| SSubmit (id status : string) (res : json)
| SCancelDeployment (ids : list string) (user : option string)
| SCancelExecution (deviceId executionId user : string)
| SVerificationTimeout (id : string)
| SExpireInstall (id errorMessage : string)
| SRemoveRestore (id : string)
| SDrain (orgIds : list string) (createdBy : option string)
| SCancelDrain (orgIds : list string) (reason : string)
| SAbuse (deviceIds : list string) (callerId : string).

(** The devices of the organizations; those an offboarding drains are not
    decommissioned. *)
Definition orgDevices (e : CEnv) (orgIds : list string) : list string :=
  dw_id <$> sql_select (fun d => bool_decide (dw_orgId d ∈ orgIds)) (ce_devices e).
Definition drainDevices (e : CEnv) (orgIds : list string) : list string :=
  dw_id <$> sql_select (fun d => bool_decide (dw_orgId d ∈ orgIds)
                                 && negb (bool_decide (dw_status d = "decommissioned"%string))) (ce_devices e).

(** A statement that fails changes nothing. The second component lists the rows
    inserted and the results recorded. *)
Definition run_stmt (e : CEnv) (st : Stmt) (t : CommandTable) : CommandTable * list Event :=
  match st with
  | SQueue q => match queueCommand e q t with Some (t', evs, _) => (t', evs) | None => (t, []) end
  | SInsert id did ty payload role createdBy =>
      let c := new_command (default (ce_newId e) id) did ty payload role createdBy (ce_dbNow e) in
      match insert1 c t with Some t' => (t', [EvInserted c]) | None => (t, []) end
  | SMarkSent ids => (markCommandsSent ids (ce_clock e) 0 t, [])
  | SSubmit id status res =>
      let '(t', ok) := submitCommandResult id status res (ce_now e) t in (t', if ok then [EvRecorded id res] else [])
  | SCancelDeployment ids user => (cancelDeploymentCommands ids user (ce_now e) t, [])
  | SCancelExecution did xid user => (cancelExecutionCommands did xid user (ce_now e) t, [])
  | SVerificationTimeout id => ((markVerificationCommandTimedOut id (ce_now e) t).1, [])
  | SExpireInstall id msg => (cancelExpiredInstall id msg (ce_now e) t, [])
  | SRemoveRestore id => ((deletePending id t).1, [])
  | SDrain orgIds createdBy =>
      let devs := drainDevices e orgIds in
      match queueDrainUninstalls devs createdBy (ce_newIds e) (ce_now e) (ce_dbNow e) t with
      | Some (t', _) =>
          (t', EvInserted <$> List.filter (fun c => bool_decide (t !! cm_id c = None)) (sql_rows t'))
      | None => (t, [])
      end
  | SCancelDrain orgIds reason => (cancelDrainUninstalls (orgDevices e orgIds) reason (ce_now e) t, [])
  | SAbuse devs callerId =>
      match suspendForAbuse devs callerId (ce_newIds e) (ce_now e) (ce_dbNow e) t with
      | Some t' => (t', EvInserted <$> List.filter (fun c => bool_decide (t !! cm_id c = None)) (sql_rows t'))
      | None => (t, [])
      end
  end.

Inductive CAction : Type :=
| CSpawn (p : Proc)
| CRun (n : nat) (e : CEnv)
| CCrash (n : nat)
| CStmt (st : Stmt) (e : CEnv).

Definition next_procs (k : Continuation) : list Proc := match k with Next p => [p] | Done _ => [] end.
Definition next_answers (k : Continuation) : list Answer := match k with Next _ => [] | Done a => [a] end.

Section system.
Context (sha256 : string -> bytes)
        (dec : bytes -> bytes -> option string -> bytes -> bytes -> option bytes)
        (redact : string -> string)
        (validate : string -> string -> AgentResult -> result string (option (option string * json))).

Abbreviation step := (proc_step sha256 dec redact validate).

Definition cworld_step (a : CAction) (w : CWorld) : CWorld :=
  match a with
  | CSpawn p =>
      if is_start p
      then {| cw_table := cw_table w; cw_procs := cw_procs w ++ [p]; cw_log := cw_log w; cw_answers := cw_answers w |}
      else w
  | CRun n e =>
      match cw_procs w !! n with
      | Some p =>
          let r := step e p (cw_table w) in
          {| cw_table := sr_table r;
             cw_procs := take n (cw_procs w) ++ next_procs (sr_next r) ++ drop (S n) (cw_procs w) ++ sr_spawn r;
             cw_log := cw_log w ++ sr_events r; cw_answers := cw_answers w ++ next_answers (sr_next r) |}
      | None => w
      end
  | CCrash n =>
      {| cw_table := cw_table w; cw_procs := take n (cw_procs w) ++ drop (S n) (cw_procs w); cw_log := cw_log w;
         cw_answers := cw_answers w |}
  | CStmt st e =>
      let '(t', evs) := run_stmt e st (cw_table w) in
      {| cw_table := t'; cw_procs := cw_procs w; cw_log := cw_log w ++ evs; cw_answers := cw_answers w |}
  end.

Definition cw_initial : CWorld := {| cw_table := ∅; cw_procs := []; cw_log := []; cw_answers := [] |}.

Fixpoint cw_trace (acts : list CAction) (w : CWorld) : CWorld :=
  match acts with [] => w | a :: rest => cw_trace rest (cworld_step a w) end.

Definition cw_reachable (w : CWorld) : Prop := exists acts, w = cw_trace acts cw_initial.
End system.
