(* ===== verification/CommandInvariants.v ===== *)
(** * Invariants of the command queue

    Every action moves every row along an edge of the life cycle of a command.
    A claim is a token: a row gives up one token when it is claimed, and gets it
    back when the claim is released. *)

From stdpp Require Import base gmap strings list option sorting.
From Stdlib Require Import ZArith Lia Ascii QArith.
From S2P Require Import Prelude Json SecretCrypto CommandTypes CommandStore Commands.
From S2P Require Import CommandSystem.

Open Scope Z_scope.

(** ** The life cycle of a command *)

Definition terminal (st : CommandStatus) : bool :=
  match st with c_pending | c_sent => false | _ => true end.

(** A row before and after an action; [None] is no row. *)
Inductive cmd_edge : option DeviceCommand -> option DeviceCommand -> Prop :=
| ed_same o : cmd_edge o o
| ed_insert c : c = new_command (cm_id c) (cm_deviceId c) (cm_type c) (cm_payload c) (cm_targetRole c)
                      (cm_createdBy c) (cm_createdAt c) ->
    cmd_edge None (Some c)
| ed_claim c at_ : cm_status c = c_pending -> cmd_edge (Some c) (Some (set_delivery c_sent (Some at_) c))
| ed_release c : cm_status c = c_sent -> cmd_edge (Some c) (Some (set_delivery c_pending None c))
| ed_settle c st at_ res blank : live c = true -> terminal st = true ->
    cmd_edge (Some c) (Some (set_terminal st at_ res blank c))
| ed_delete c : cm_status c = c_pending -> cmd_edge (Some c) None
| ed_rearm c : cm_type c = "desktop_stream_stop"%string -> cm_status c <> c_cancelled -> cm_payload c <> JNull ->
    cmd_edge (Some c) (Some (rearm c)).
#[export] Hint Constructors cmd_edge : bl4ck.

Definition table_edge (t t' : CommandTable) : Prop := forall k, cmd_edge (t !! k) (t' !! k).

Lemma live_spec c : live c = true <-> cm_status c = c_pending \/ cm_status c = c_sent.
Proof. unfold live. destruct (cm_status c); naive_solver. Qed.

Lemma not_live_terminal c : live c = negb (terminal (cm_status c)).
Proof. unfold live, terminal. by destruct (cm_status c). Qed.

Lemma terminalStatus_terminal s : terminal (terminalStatus s) = true.
Proof. unfold terminalStatus. by case_bool_decide. Qed.

(** ** One row *)

Lemma update1_spec id p f t t' b :
  update1 id p f t = (t', b) ->
  t' = t /\ b = false \/ (exists c, t !! id = Some c /\ p c = true /\ t' = <[id := f c]> t /\ b = true).
Proof. unfold update1. intros. repeat case_match; simplify_eq; eauto 10. Qed.

Lemma update1_edge id p f t :
  (forall c, p c = true -> cmd_edge (Some c) (Some (f c))) -> table_edge t (update1 id p f t).1.
Proof.
  intros Hf k. destruct (update1 id p f t) as [t' b] eqn:E.
  apply update1_spec in E as [[-> _]|(c & Hc & Hp & -> & _)]; [constructor|]. cbn [fst].
  destruct (decide (k = id)) as [->|Hk]; [rewrite lookup_insert_eq, Hc; auto|]. rewrite lookup_insert_ne by done. constructor.
Qed.

Lemma sql_update_edge p f t :
  (forall c, p c = true -> cmd_edge (Some c) (Some (f c))) -> table_edge t (sql_update p f t).
Proof.
  intros Hf k. rewrite lookup_sql_update. destruct (t !! k) as [c|]; cbn; [|constructor].
  destruct (p c) eqn:Hp; [auto|constructor].
Qed.

Lemma insert1_spec c t t' : insert1 c t = Some t' -> t !! cm_id c = None /\ t' = <[cm_id c := c]> t.
Proof. unfold insert1. intros. by case_match; simplify_eq. Qed.

Lemma insert1_edge c t t' :
  insert1 c t = Some t' -> c = new_command (cm_id c) (cm_deviceId c) (cm_type c) (cm_payload c) (cm_targetRole c)
                                 (cm_createdBy c) (cm_createdAt c) -> table_edge t t'.
Proof.
  intros [Hn ->]%insert1_spec Hc k. destruct (decide (k = cm_id c)) as [->|Hk].
  - rewrite lookup_insert_eq, Hn. by constructor.
  - rewrite lookup_insert_ne by done. constructor.
Qed.

Lemma claim_edge id at_ t : table_edge t (claimPendingCommandForDelivery id at_ t).1.
Proof. apply update1_edge. intros c H. unfold is_status in H. bool_hyps. by constructor. Qed.

Lemma release_edge id at_ t : table_edge t (releaseClaimedCommandDelivery id at_ t).
Proof. apply update1_edge. intros c H. unfold is_status in H. bool_hyps. by constructor. Qed.

Lemma settle_edge id p st at_ res blank t :
  (forall c, p c = true -> live c = true) -> terminal st = true ->
  table_edge t (update1 id p (set_terminal st at_ res blank) t).1.
Proof. intros Hp Hst. apply update1_edge. intros c Hc. constructor; auto. Qed.

Lemma settle_all_edge p st at_ res blank t :
  (forall c, p c = true -> live c = true) -> terminal st = true ->
  table_edge t (sql_update p (set_terminal st at_ res blank) t).
Proof. intros Hp Hst. apply sql_update_edge. intros c Hc. constructor; auto. Qed.

Lemma pending_live c : is_status c_pending c = true -> live c = true.
Proof. unfold is_status, live. intros. by bool_hyps; case_match. Qed.

Lemma sent_live c : is_status c_sent c = true -> live c = true.
Proof. unfold is_status, live. intros. by bool_hyps; case_match. Qed.

Lemma accepts_live did role c : accepts did role c = true -> live c = true.
Proof. unfold accepts. intros. by bool_hyps. Qed.

Lemma delete_edge id t : table_edge t (deletePending id t).1.
Proof.
  unfold deletePending. intros k. destruct (t !! id) as [c|] eqn:Hc; [|constructor].
  destruct (is_status c_pending c) eqn:Hp; [|constructor]. cbn. unfold is_status in Hp. bool_hyps.
  destruct (decide (k = id)) as [->|Hk]; [rewrite lookup_delete_eq, Hc; by constructor|]. rewrite lookup_delete_ne by done. constructor.
Qed.

Lemma table_edge_refl t : table_edge t t.
Proof. intros k. constructor. Qed.
#[export] Hint Resolve table_edge_refl pending_live sent_live accepts_live terminalStatus_terminal : bl4ck.

(** ** Statements on several rows *)

(** What a batch of claims does to a row. *)
Lemma claimEach_row did role clock n sel t t' cl k :
  claimEach did role clock n sel t = (t', cl) ->
  t' !! k = t !! k \/ exists c at_, t !! k = Some c /\ claimable did role c = true
                                    /\ t' !! k = Some (set_delivery c_sent (Some at_) c).
Proof.
  revert n t t' cl. induction sel as [|c sel IH]; intros n t t' cl H; cbn [claimEach] in H; [simplify_eq; auto|].
  destruct (t !! cm_id c) as [r|] eqn:Hr; [|by eauto]. destruct (claimable did role r) eqn:Hp; [|by eauto].
  destruct (claimEach _ _ _ (S n) sel _) as [t1 l1] eqn:E. simplify_eq. apply IH in E.
  destruct (decide (k = cm_id c)) as [->|Hk].
  - rewrite lookup_insert_eq in E. right. exists r.
    destruct E as [E|(c' & at_ & Hc' & Hp' & E)]; [by eauto|]. simplify_eq. unfold claimable, is_status in Hp'. by bool_hyps.
  - by rewrite lookup_insert_ne in E.
Qed.

Lemma claimEach_edge did role clock n sel t : table_edge t (claimEach did role clock n sel t).1.
Proof.
  intros k. destruct (claimEach did role clock n sel t) as [t' cl] eqn:E. cbn [fst].
  apply (claimEach_row _ _ _ _ _ _ _ _ k) in E as [->|(c & at_ & -> & Hp & ->)]; [constructor|].
  unfold claimable, is_status in Hp. bool_hyps. by constructor.
Qed.

Lemma markCommandsSent_row ids clock n t k :
  markCommandsSent ids clock n t !! k = t !! k
  \/ exists c at_, t !! k = Some c /\ cm_status c = c_pending
                   /\ markCommandsSent ids clock n t !! k = Some (set_delivery c_sent (Some at_) c).
Proof.
  revert n t. induction ids as [|id ids IH]; intros n t; cbn [markCommandsSent]; [by left|].
  destruct (update1 _ _ _ _) as [t1 b] eqn:E. cbn [fst]. apply update1_spec in E as [[-> _]|(c & Hc & Hp & -> & _)]; [done|].
  destruct (IH (S n) (<[id := set_delivery c_sent (Some (clock n)) c]> t)) as [Heq|(c' & at_ & Hc' & Hs & Heq)]; rewrite Heq.
  - destruct (decide (k = id)) as [->|Hk]; [|left; by rewrite lookup_insert_ne].
    rewrite lookup_insert_eq, Hc. right. unfold is_status in Hp. bool_hyps. by exists c, (clock n).
  - destruct (decide (k = id)) as [->|Hk]; [rewrite lookup_insert_eq in Hc'; by simplify_eq|].
    rewrite lookup_insert_ne in Hc' by done. right. by exists c', at_.
Qed.

Lemma markCommandsSent_edge ids clock n t : table_edge t (markCommandsSent ids clock n t).
Proof.
  intros k. destruct (markCommandsSent_row ids clock n t k) as [->|(c & at_ & -> & Hp & ->)]; [constructor|by constructor].
Qed.

Lemma insert_all_row cs t t' k :
  insert_all cs t = Some t' ->
  (t' !! k = t !! k /\ (t !! k = None -> k ∉ cm_id <$> cs))
  \/ (t !! k = None /\ exists c, c ∈ cs /\ cm_id c = k /\ t' !! k = Some c).
Proof.
  revert t. induction cs as [|c cs IH]; intros t H; cbn [insert_all] in H.
  { simplify_eq. left. split; [done|]. intros _. apply not_elem_of_nil. }
  destruct (insert1 c t) as [t1|] eqn:E; [|done]. apply insert1_spec in E as [Hn ->]. apply IH in H.
  destruct (decide (k = cm_id c)) as [->|Hk].
  - right. split; [done|]. rewrite lookup_insert_eq in H. exists c. split; [left|]. split; [done|].
    destruct H as [[-> _]|[? _]]; [done|discriminate].
  - rewrite lookup_insert_ne in H by done. destruct H as [[Heq Hni]|(Hnone & c' & Hin & Hid & Heq)].
    + left. split; [done|]. intros Hk'. rewrite fmap_cons, not_elem_of_cons. auto.
    + right. split; [done|]. exists c'. split; [by right|done].
Qed.

Lemma uninstalls_elem devs u ids now c :
  c ∈ uninstalls devs u ids now ->
  exists n d, devs !! n = Some d /\ c = new_command (ids n) d "self_uninstall" (JObj [("removeConfig"%string, JBool true)])
                                           role_agent u now.
Proof. unfold uninstalls. intros (n & d & -> & H)%elem_of_lookup_imap. eauto. Qed.

Lemma uninstall_type id d payload role u now : of_type "self_uninstall" (new_command id d "self_uninstall" payload role u now) = true.
Proof. done. Qed.

Lemma cancelOthers_edge devs reason now t : table_edge t (cancelOthers devs reason now t).
Proof. apply settle_all_edge; [|done]. intros c H. by bool_hyps. Qed.

(** Cancelling everything but the uninstalls, then queueing uninstalls. *)
Lemma queueDrainUninstalls_edge devs u ids now dbNow t t' r :
  queueDrainUninstalls devs u ids now dbNow t = Some (t', r) -> table_edge t t'.
Proof.
  unfold queueDrainUninstalls. destruct devs as [|d devs]; [intros [= -> <-]; apply table_edge_refl|].
  destruct (insert_all _ _) as [t2|] eqn:E; [|done]. intros [= -> _] k.
  destruct (insert_all_row _ _ _ k E) as [[Heq _]|(Hn & c & Hc & _ & Heq)]; rewrite Heq; [apply cancelOthers_edge|].
  apply uninstalls_elem in Hc as (n & d' & _ & ->). unfold cancelOthers in Hn. rewrite lookup_sql_update in Hn.
  destruct (t !! k); [done|]. by constructor.
Qed.

Lemma suspendForAbuse_edge devs u ids now dbNow t t' :
  suspendForAbuse devs u ids now dbNow t = Some t' -> table_edge t t'.
Proof.
  unfold suspendForAbuse. destruct devs as [|d devs]; [intros [= ->]; apply table_edge_refl|].
  destruct (insert_all _ _) as [t1|] eqn:E; [|done]. intros [= <-] k.
  unfold cancelOthers. rewrite lookup_sql_update.
  destruct (insert_all_row _ _ _ k E) as [[Heq _]|(Hn & c & Hc & _ & Heq)]; rewrite Heq.
  - pose proof (cancelOthers_edge (d :: devs) "partner_suspended_for_abuse" now t k) as H. unfold cancelOthers in H.
    by rewrite lookup_sql_update in H.
  - apply uninstalls_elem in Hc as (n & d' & _ & ->). rewrite Hn. cbn [fmap option_fmap option_map].
    rewrite uninstall_type. cbn [negb]. rewrite andb_false_r. by constructor.
Qed.

(** ** Every action moves rows along edges *)

Lemma queueCommand_spec e q t t' evs c :
  queueCommand e q t = Some (t', evs, c) ->
  c = new_command (ce_newId e) (qa_deviceId q) (qa_type q) (qa_payload q) role_agent (or_null (qa_userId q)) (ce_dbNow e)
  /\ insert1 c t = Some t' /\ exists audit, evs = EvInserted c :: audit /\ Forall (fun ev => match ev with EvCommandAudit _ _ _ _ => True | _ => False end) audit.
Proof.
  unfold queueCommand. destruct (insert1 _ t) as [t1|] eqn:E; [|done]. intros [= <- <- <-]. split; [done|]. split; [done|].
  eexists. split; [done|]. unfold commandAudit. repeat case_match; repeat constructor.
Qed.

Lemma batch_claim_edge did lim role allow locked clock t :
  table_edge t (claimPendingCommandsForDevice did lim role allow locked clock t).1.
Proof. apply claimEach_edge. Qed.

Ltac edge := first [apply batch_claim_edge | apply table_edge_refl | apply claim_edge | apply release_edge | apply delete_edge
                   | apply markCommandsSent_edge
                   | eapply insert1_edge; [eassumption|reflexivity]
                   | apply settle_edge; [intros ? ?; by eauto with bl4ck|by eauto with bl4ck]
                   | apply settle_all_edge; [intros ? ?; bool_hyps; by eauto with bl4ck|done]
                   | eapply queueDrainUninstalls_edge; eassumption
                   | eapply suspendForAbuse_edge; eassumption].

Section edges.
Context (sha256 : string -> bytes)
        (dec : bytes -> bytes -> option string -> bytes -> bytes -> option bytes)
        (redact : string -> string)
        (validate : string -> string -> AgentResult -> result string (option (option string * json))).

Abbreviation step := (proc_step sha256 dec redact validate).

Lemma rearm_edge i c t : t !! ri_commandId i = Some c -> rearmMatches i c = true -> table_edge t (rearmUpdate (ri_commandId i) t).
Proof.
  intros Hc Hm k. unfold rearmUpdate. destruct (update1 _ _ _ _) as [t' b] eqn:E.
  apply update1_spec in E as [[-> _]|(c' & Hc' & Hp & -> & _)]; [constructor|]. simplify_eq. cbn [fst].
  destruct (decide (k = ri_commandId i)) as [->|Hk]; [|rewrite lookup_insert_ne by done; constructor].
  rewrite lookup_insert_eq, Hc. unfold rearmMatches, of_type, is_status in *. bool_hyps. constructor; [done|done|].
  intros Hj. by rewrite Hj in *.
Qed.

Lemma proc_step_edge e p t : table_edge t (sr_table (step e p t)).
Proof.
  destruct p; cbn [proc_step]; try apply table_edge_refl.
  all: unfold step_exec, step_exec_insert, step_exec_claim, step_exec_send, step_exec_release, step_poll,
    step_queue, step_queue_insert, step_direct, step_dispatch_claim, step_dispatch_send, step_batch, step_batch_deliver,
    step_batch_release, step_rest, step_rest_cas, step_ws, step_ws_recheck, step_ws_cas, step_reap_loop, answerBatch, step_rearm.
  all: repeat case_match; simplify_eq; cbn [stay emit sr_table]; try edge.
  all: try match goal with H : ?f = (?t', _) |- table_edge _ ?t' => replace t' with (f.1) by (by rewrite H); edge end.
  all: try (match goal with H : queueCommand _ _ _ = Some _ |- _ => apply queueCommand_spec in H as (-> & Hi & _) end; edge).
  all: try (eapply rearm_edge; [eassumption|by bool_hyps]).
Qed.

Lemma run_stmt_edge e st t : table_edge t (run_stmt e st t).1.
Proof.
  destruct st; cbn [run_stmt]; try edge.
  all: repeat case_match; simplify_eq; cbn [fst]; try edge.
  - match goal with H : queueCommand _ _ _ = Some _ |- _ => apply queueCommand_spec in H as (-> & Hi & _) end. edge.
  - match goal with H : ?f = (?t', _) |- table_edge _ ?t' => replace t' with (f.1) by (by rewrite H) end. edge.
  - match goal with H : ?f = (?t', _) |- table_edge _ ?t' => replace t' with (f.1) by (by rewrite H) end. edge.
  - apply settle_all_edge; [|done]. intros c H. unfold liveUninstall in H. by bool_hyps.
Qed.

Lemma cworld_step_edge a w : table_edge (cw_table w) (cw_table (cworld_step sha256 dec redact validate a w)).
Proof.
  destruct a as [p|n e|n|st e]; cbn [cworld_step].
  - case_match; apply table_edge_refl.
  - destruct (cw_procs w !! n); [apply proc_step_edge|apply table_edge_refl].
  - apply table_edge_refl.
  - pose proof (run_stmt_edge e st (cw_table w)). by destruct (run_stmt e st (cw_table w)).
Qed.
End edges.

(** ** Tokens *)

Definition ind (id k : string) : nat := if bool_decide (id = k) then 1 else 0.

(** The claims a process holds on command [k]: it will send it, or release it. *)
Definition holds (k : string) (p : Proc) : nat :=
  match p with
  | PExecSend _ _ id _ _ _ | PExecRelease _ id _ => ind id k
  | PDispatchSend x _ _ | PDispatchRelease x _ => ind (cm_id (dx_command x)) k
  | PBatchDeliver _ _ claimed => count_if (fun c => bool_decide (cm_id c = k)) claimed
  | PBatchRelease _ _ todo ds =>
      count_if (fun c => bool_decide (cm_id c = k)) todo + count_if (fun d => bool_decide (dc_id d = k)) ds
  | _ => 0
  end.

Definition held (k : string) (ps : list Proc) : nat := sum_list_with (holds k) ps.

Definition is_delivery (k : string) (ev : Event) : bool :=
  match ev with EvDelivered _ d => bool_decide (dc_id d = k) | _ => false end.
Definition is_settling (k : string) (ev : Event) : bool :=
  match ev with EvRecorded id _ | EvExpired id => bool_decide (id = k) | _ => false end.

(** A row that can still be claimed, or that may yet be inserted. *)
Definition avail (o : option DeviceCommand) : nat :=
  match o with Some c => if is_status c_pending c then 1 else 0 | None => 1 end.
(** A row that has no outcome yet. *)
Definition open_ (o : option DeviceCommand) : nat :=
  match o with Some c => if live c then 1 else 0 | None => 1 end.

Lemma held_app k ps qs : held k (ps ++ qs) = (held k ps + held k qs)%nat.
Proof. apply sum_list_with_app. Qed.

Lemma avail_edge k t t' : table_edge t t' ->
  (avail (t' !! k) <= avail (t !! k))%nat
  \/ exists c, t !! k = Some c /\ (t' !! k = Some (set_delivery c_pending None c) /\ cm_status c = c_sent
                                 \/ cm_type c = "desktop_stream_stop"%string).
Proof.
  intros H. specialize (H k). inversion H as [o Ho|c Hc|c at_ Hs|c Hs|c st at_ res blank Hl Ht|c Hs|c Hty Hs Hp]; subst; cbn; unfold is_status.
  - left. lia.
  - left. destruct (bool_decide _); lia.
  - left. rewrite bool_decide_eq_false_2 by done. lia.
  - right. eauto 10.
  - left. rewrite bool_decide_eq_false_2 by (intros Hst; cbn in Hst; by rewrite Hst in Ht). lia.
  - left. rewrite bool_decide_eq_true_2 by done. lia.
  - right. eauto 10.
Qed.

Lemma open_edge k t t' : table_edge t t' ->
  (open_ (t' !! k) <= open_ (t !! k))%nat \/ exists c, t !! k = Some c /\ cm_type c = "desktop_stream_stop"%string.
Proof.
  intros H. specialize (H k). inversion H as [o Ho|c Hc|c at_ Hs|c Hs|c st at_ res blank Hl Ht|c Hs|c Hty Hs Hp]; subst; cbn.
  - left. lia.
  - left. destruct (live c); lia.
  - left. unfold live. rewrite Hs. cbn. lia.
  - left. unfold live. rewrite Hs. cbn. lia.
  - left. rewrite Hl, not_live_terminal. cbn. rewrite Ht. cbn. lia.
  - left. unfold live. rewrite Hs. lia.
  - right. eauto.
Qed.

(** *** The statements, in tokens *)

Lemma ind_refl k : ind k k = 1%nat.
Proof. unfold ind. by rewrite bool_decide_eq_true_2. Qed.
Lemma ind_ne id k : id <> k -> ind id k = 0%nat.
Proof. intros. unfold ind. by rewrite bool_decide_eq_false_2. Qed.

(** A table whose rows are stored under their ids. *)
Definition keyed (t : CommandTable) : Prop := forall k c, t !! k = Some c -> cm_id c = k.

Lemma avail_insert (id : string) c (t : CommandTable) k : (avail (<[id := c]> t !! k) = if bool_decide (id = k) then avail (Some c) else avail (t !! k))%nat.
Proof. case_bool_decide as E; [subst; by rewrite lookup_insert_eq|by rewrite lookup_insert_ne]. Qed.

Lemma claim_avail id at_ t t' k :
  claimPendingCommandForDelivery id at_ t = (t', true) -> (avail (t' !! k) + ind id k <= avail (t !! k))%nat.
Proof.
  intros [[_ [=]]|(c & Hc & Hp & -> & _)]%update1_spec. rewrite avail_insert.
  destruct (decide (id = k)) as [->|Hne].
  - rewrite ind_refl, bool_decide_eq_true_2, Hc by done. cbn. rewrite Hp. unfold is_status. rewrite bool_decide_eq_false_2 by done. lia.
  - rewrite (ind_ne _ _ Hne), bool_decide_eq_false_2 by done. lia.
Qed.

Lemma claim_fails id at_ t t' : claimPendingCommandForDelivery id at_ t = (t', false) -> t' = t.
Proof. by intros [[-> _]|(c & _ & _ & _ & [=])]%update1_spec. Qed.

Lemma release_avail id at_ t k :
  (avail (releaseClaimedCommandDelivery id at_ t !! k) <= avail (t !! k) + ind id k)%nat.
Proof.
  unfold releaseClaimedCommandDelivery. destruct (update1 _ _ _ _) as [t' b] eqn:E. cbn [fst].
  apply update1_spec in E as [[-> _]|(c & Hc & Hp & -> & _)]; [lia|]. rewrite avail_insert.
  destruct (decide (id = k)) as [->|Hne].
  - rewrite ind_refl, bool_decide_eq_true_2 by done. cbn. destruct (is_status c_pending _); lia.
  - rewrite (ind_ne _ _ Hne), bool_decide_eq_false_2 by done. lia.
Qed.

Lemma settle_avail id p st at_ res blank t k : terminal st = true ->
  (avail ((update1 id p (set_terminal st at_ res blank) t).1 !! k) <= avail (t !! k))%nat.
Proof.
  intros Hst. destruct (update1 _ _ _ _) as [t' b] eqn:E. cbn [fst].
  apply update1_spec in E as [[-> _]|(c & Hc & Hp & -> & _)]; [lia|]. rewrite avail_insert. case_bool_decide; [|lia].
  cbn. unfold is_status. rewrite bool_decide_eq_false_2 by (intros Hs; cbn in Hs; by rewrite Hs in Hst). lia.
Qed.

Lemma settle_all_avail p st at_ res blank t k : terminal st = true ->
  (avail (sql_update p (set_terminal st at_ res blank) t !! k) <= avail (t !! k))%nat.
Proof.
  intros Hst. rewrite lookup_sql_update. destruct (t !! k) as [c|]; cbn; [|lia]. destruct (p c); [|lia].
  unfold is_status. rewrite bool_decide_eq_false_2 by (intros Hs; cbn in Hs; by rewrite Hs in Hst). lia.
Qed.

Lemma insert1_avail c t t' k : insert1 c t = Some t' -> (avail (t' !! k) <= avail (t !! k))%nat.
Proof.
  intros [Hn ->]%insert1_spec. rewrite avail_insert. case_bool_decide; [|lia]. subst. rewrite Hn. cbn. case_match; lia.
Qed.

Lemma insert_all_avail cs t t' k : insert_all cs t = Some t' -> (avail (t' !! k) <= avail (t !! k))%nat.
Proof.
  intros H. destruct (insert_all_row _ _ _ k H) as [[-> _]|(-> & c & _ & _ & ->)]; [lia|]. cbn. case_match; lia.
Qed.

Lemma delete_avail id t k : (avail ((deletePending id t).1 !! k) <= avail (t !! k))%nat.
Proof.
  unfold deletePending. destruct (t !! id) as [c|] eqn:Hc; [|done]. destruct (is_status c_pending c) eqn:Hp; [|done]. cbn [fst].
  destruct (decide (k = id)) as [->|Hk]; [rewrite lookup_delete_eq, Hc; cbn; rewrite Hp; lia|by rewrite lookup_delete_ne].
Qed.

Lemma mark_avail ids clock n t k : (avail (markCommandsSent ids clock n t !! k) <= avail (t !! k))%nat.
Proof.
  destruct (markCommandsSent_row ids clock n t k) as [->|(c & at_ & -> & Hs & ->)]; [lia|]. cbn. unfold is_status.
  rewrite bool_decide_eq_false_2 by done. lia.
Qed.

(** Every command a batch claims was available, once. *)
Lemma claimEach_avail did role clock n sel t t' cl k : keyed t ->
  claimEach did role clock n sel t = (t', cl) ->
  (avail (t' !! k) + count_if (fun c => bool_decide (cm_id c = k)) cl <= avail (t !! k))%nat.
Proof.
  revert n t t' cl. induction sel as [|c sel IH]; intros n t t' cl Hk H; cbn [claimEach] in H.
  { simplify_eq. unfold count_if. cbn. lia. }
  destruct (t !! cm_id c) as [r|] eqn:Hr; [|by eauto]. destruct (claimable did role r) eqn:Hp; [|by eauto].
  destruct (claimEach _ _ _ (S n) sel _) as [t1 l1] eqn:E. simplify_eq. pose proof (Hk _ _ Hr) as Hid.
  apply IH in E.
  2:{ intros k' c' Hc'. destruct (decide (k' = cm_id c)) as [->|Hne]; [rewrite lookup_insert_eq in Hc'; by simplify_eq|].
      rewrite lookup_insert_ne in Hc' by done. eauto. }
  rewrite count_if_cons. rewrite avail_insert in E. cbn [cm_id set_delivery]. rewrite Hid.
  case_bool_decide as Hc; [|lia]. subst k. rewrite Hr. unfold claimable in Hp. bool_hyps. cbn in E |- *.
  replace (is_status c_pending r) with true. unfold is_status in E. rewrite bool_decide_eq_false_2 in E by done. lia.
Qed.
