(* ===== verification/CommandTokens.v ===== *)
(** * Claims are never duplicated

    The token argument for the command queue: no step creates a claim or a
    delivery that a row did not pay for. *)

From stdpp Require Import base gmap strings list option sorting.
From Stdlib Require Import ZArith Lia Ascii QArith.
From S2P Require Import Prelude Json SecretCrypto CommandTypes CommandStore Commands.
From S2P Require Import CommandSystem CommandInvariants.

Open Scope Z_scope.

(** The command a process is about to send is the one it claimed. *)
Definition proc_ids (p : Proc) : Prop :=
  match p with
  | PExecSend _ _ id _ d _ => dc_id d = id
  | PDispatchSend x _ d => dc_id d = cm_id (dx_command x)
  | _ => True
  end.

(** The tokens after a step are covered by those before. *)
Definition within_budget (k : string) (t : CommandTable) (r : StepResult) (h : nat) : Prop :=
  (avail (sr_table r !! k) + held k (next_procs (sr_next r)) + held k (sr_spawn r)
   + count_if (is_delivery k) (sr_events r) <= avail (t !! k) + h)%nat.

Lemma no_delivery k evs :
  Forall (fun ev => match ev with EvDelivered _ _ => False | _ => True end) evs -> count_if (is_delivery k) evs = 0%nat.
Proof.
  induction 1 as [|ev evs Hev _ IH]; [done|]. rewrite count_if_cons, IH. by destruct ev.
Qed.

Lemma commandAudit_quiet k e orgId actor c : count_if (is_delivery k) (commandAudit e orgId actor c) = 0%nat.
Proof. unfold commandAudit. by case_match. Qed.

Lemma holds_after_unsent k x : held k (next_procs (after_unsent x)) = 0%nat.
Proof. unfold after_unsent. by destruct (dx_after x). Qed.
Lemma holds_after_sent k x at_ : held k (next_procs (after_sent x at_)) = 0%nat.
Proof. unfold after_sent. by destruct (dx_after x). Qed.
Lemma holds_followUp k c r : held k (followUp c r) = 0%nat.
Proof. unfold followUp. by case_match. Qed.

Lemma held_one k p : held k [p] = holds k p.
Proof. unfold held. cbn. lia. Qed.

Create Rewrite HintDb tokens.
#[local] Hint Rewrite commandAudit_quiet holds_after_unsent holds_after_sent holds_followUp held_one @count_if_cons : tokens.

Section tokens.
Context (sha256 : string -> bytes)
        (dec : bytes -> bytes -> option string -> bytes -> bytes -> option bytes)
        (redact : string -> string)
        (validate : string -> string -> AgentResult -> result string (option (option string * json))).

Abbreviation step := (proc_step sha256 dec redact validate).
Abbreviation decryptFor e := (decryptCommandForDelivery sha256 dec (ce_crypto e)).

Lemma decrypt_keeps ce c d :
  decryptCommandForDelivery sha256 dec ce c = Some d ->
  dc_id d = dc_id c /\ dc_type d = dc_type c
  /\ decryptSensitivePayloadFields sha256 dec ce (dc_type c) (dc_payload c) = Ok (dc_payload d).
Proof. unfold decryptCommandForDelivery. intros. by case_match; simplify_eq. Qed.

(** Decrypting a batch keeps the ids of what it returns. *)
Lemma decrypt_batch_count ce k l :
  (count_if (fun d => bool_decide (dc_id d = k)) (decryptCommandsForDelivery sha256 dec ce (deliverable <$> l))
   <= count_if (fun c => bool_decide (cm_id c = k)) l)%nat.
Proof.
  unfold decryptCommandsForDelivery. induction l as [|c l IH]; [done|]. rewrite fmap_cons, count_if_cons. cbn [omap list_omap].
  destruct (decryptCommandForDelivery _ _ _ _) as [d|] eqn:E; [|lia]. apply decrypt_keeps in E as (Hid & _). rewrite count_if_cons, Hid.
  cbn. lia.
Qed.

Lemma count_if_filter_le {A} (p q : A -> bool) l : (count_if p (List.filter q l) <= count_if p l)%nat.
Proof. induction l as [|x l IH]; [done|]. cbn [List.filter]. destruct (q x); rewrite ?count_if_cons; lia. Qed.

(** What is not decrypted is released: together they are the claimed ones. *)
Lemma batch_split ce k claimed :
  let ds := decryptCommandsForDelivery sha256 dec ce (deliverable <$> claimed) in
  (count_if (fun c => bool_decide (cm_id c = k))
     (List.filter (fun c => negb (bool_decide (cm_id c ∈ (dc_id <$> ds)))) claimed)
   + count_if (fun d => bool_decide (dc_id d = k)) ds
   <= count_if (fun c => bool_decide (cm_id c = k)) claimed)%nat.
Proof.
  intros ds. destruct (decide (k ∈ dc_id <$> ds)) as [Hin|Hni].
  - rewrite count_if_zero; [apply decrypt_batch_count|]. intros c [_ Hc]%list_filter_elem. bool_hyps.
    apply bool_decide_eq_false_2. intros Hk. by subst k.
  - rewrite (count_if_zero _ ds), Nat.add_0_r; [apply count_if_filter_le|].
    intros d Hd. apply bool_decide_eq_false_2. intros <-. apply Hni. by apply list_elem_of_fmap_2.
Qed.

Lemma deliveries_of k dest ds :
  count_if (is_delivery k) (EvDelivered dest <$> ds) = count_if (fun d => bool_decide (dc_id d = k)) ds.
Proof. induction ds as [|d ds IH]; [done|]. by rewrite fmap_cons, !count_if_cons, IH. Qed.

(** *** One lemma per step that touches claims *)

Ltac tally := unfold within_budget; cbn [stay emit sr_table sr_events sr_spawn sr_next next_procs];
  autorewrite with tokens; cbn [holds is_delivery held sum_list_with count_if List.filter length].

Lemma budget_insert k t c t' evs ps h :
  insert1 c t = Some t' -> Forall (fun ev => match ev with EvCommandAudit _ _ _ _ => True | _ => False end) evs ->
  held k (next_procs ps) = 0%nat -> within_budget k t (emit t' (EvInserted c :: evs) ps) h.
Proof.
  intros Hi Hev Hp. pose proof (insert1_avail _ _ _ k Hi). tally. rewrite Hp, no_delivery; [cbn; lia|].
  eapply Forall_impl; [apply Hev|]. by intros [].
Qed.

Lemma budget_claim k t t' id at_ p h :
  claimPendingCommandForDelivery id at_ t = (t', true) -> holds k p = ind id k -> within_budget k t (stay t' (Next p)) h.
Proof. intros Hc Hp. pose proof (claim_avail _ _ _ _ k Hc). tally. rewrite Hp. lia. Qed.

Lemma budget_release k t id at_ ps :
  held k (next_procs ps) = 0%nat -> within_budget k t (stay (releaseClaimedCommandDelivery id at_ t) ps) (ind id k).
Proof. intros Hp. pose proof (release_avail id at_ t k). tally. rewrite Hp. cbn. lia. Qed.

Lemma budget_calm k t t' evs ps sp h :
  (avail (t' !! k) <= avail (t !! k))%nat -> held k (next_procs ps) = 0%nat -> held k sp = 0%nat ->
  count_if (is_delivery k) evs = 0%nat ->
  within_budget k t {| sr_table := t'; sr_events := evs; sr_spawn := sp; sr_next := ps |} h.
Proof. intros. unfold within_budget. cbn [sr_table sr_events sr_spawn sr_next]. lia. Qed.

Lemma commandAudit_kind e orgId actor c :
  Forall (fun ev => match ev with EvCommandAudit _ _ _ _ => True | _ => False end) (commandAudit e orgId actor c).
Proof. unfold commandAudit. case_match; repeat constructor. Qed.

Lemma settle_step_avail id p st at_ res blank t t' b k : terminal st = true ->
  update1 id p (set_terminal st at_ res blank) t = (t', b) -> (avail (t' !! k) <= avail (t !! k))%nat.
Proof. intros Hst E. pose proof (settle_avail id p st at_ res blank t k Hst) as H. by rewrite E in H. Qed.

Lemma step_rearm_budget e i t k h :
  (forall c, t !! k = Some c -> cm_type c <> "desktop_stream_stop"%string) -> within_budget k t (step_rearm e i t) h.
Proof.
  intros Hty. unfold step_rearm. destruct (t !! ri_commandId i) as [c|] eqn:Hc; [|by apply budget_calm].
  destruct (rearmMatches i c) eqn:Hm; [cbn [negb]|by apply budget_calm].
  destruct (decide (k = ri_commandId i)) as [->|Hk].
  { exfalso. apply (Hty c Hc). unfold rearmMatches, of_type in Hm. by bool_hyps. }
  assert (Ha : (avail (rearmUpdate (ri_commandId i) t !! k) <= avail (t !! k))%nat).
  { unfold rearmUpdate. destruct (update1 _ _ _ _) as [t' b] eqn:E. cbn [fst].
    apply update1_spec in E as [[-> _]|(c' & _ & _ & -> & _)]; [done|]. by rewrite lookup_insert_ne. }
  repeat case_match; by apply budget_calm.
Qed.

Lemma step_budget e p t k : keyed t -> proc_ids p ->
  (forall c, t !! k = Some c -> cm_type c <> "desktop_stream_stop"%string) ->
  within_budget k t (step e p t) (holds k p).
Proof.
  intros Hk Hp Hty. destruct p; cbn [proc_step holds].
  - unfold step_exec. repeat case_match; by apply budget_calm.
  - unfold step_exec_insert. case_match; [|by apply budget_calm]. eapply budget_insert; [eassumption|apply commandAudit_kind|by case_match].
  - unfold step_exec_claim. destruct (claimPendingCommandForDelivery _ _ _) as [t' []] eqn:E.
    + eapply budget_claim; [eassumption|]. by case_match.
    + apply claim_fails in E as ->. by apply budget_calm.
  - unfold step_exec_send. cbn in Hp. repeat case_match; tally; rewrite ?Hp; unfold ind; lia.
  - apply budget_release. by case_match.
  - unfold step_poll. repeat case_match; apply budget_calm; try done. by apply settle_avail.
  - by apply budget_calm.
  - unfold step_queue. repeat case_match; by apply budget_calm.
  - unfold step_queue_insert. destruct (queueCommand e q t) as [[[t' evs] c]|] eqn:E; [|by apply budget_calm].
    apply queueCommand_spec in E as (-> & Hi & audit & -> & Ha). eapply budget_insert; [done|done|].
    case_match; [done|apply holds_after_unsent].
  - unfold step_direct. case_match; [|by apply budget_calm]. eapply budget_insert; [eassumption|constructor|].
    case_match; [done|apply holds_after_unsent].
  - unfold step_dispatch_claim. destruct (claimPendingCommandForDelivery _ _ _) as [t' []] eqn:E.
    + eapply budget_claim; [eassumption|]. by case_match.
    + apply claim_fails in E as ->. apply budget_calm; [done|apply holds_after_unsent|done|done].
  - unfold step_dispatch_send. cbn in Hp. case_match; tally; rewrite ?Hp; unfold ind; lia.
  - apply budget_release, holds_after_unsent.
  - apply budget_calm; try done. apply delete_avail.
  - apply step_rearm_budget; auto.
  - unfold step_batch, claimPendingCommandsForDevice. destruct (claimEach _ _ _ _ _ _) as [t' cl] eqn:E.
    pose proof (claimEach_avail _ _ _ _ _ _ _ _ k Hk E). tally. lia.
  - unfold step_batch_deliver. case_match.
    + unfold answerBatch. tally. rewrite deliveries_of. pose proof (decrypt_batch_count (ce_crypto e) k claimed). lia.
    + tally. pose proof (batch_split (ce_crypto e) k claimed). cbn in *. lia.
  - unfold step_batch_release, answerBatch. destruct todo as [|c rest]; [tally; rewrite deliveries_of; cbn; lia|].
    rewrite count_if_cons. tally. 
    repeat case_match; try (pose proof (release_avail (cm_id c) z t k) as Hr; unfold ind in Hr); repeat case_bool_decide; lia.
  - unfold step_rest. repeat case_match; by apply budget_calm.
  - unfold step_rest_cas. destruct (restResultCas _ _ _ _ _ _ _ _) as [t' b] eqn:E.
    apply (settle_step_avail _ _ _ _ _ _ _ _ _ k) in E; [|by eauto with bl4ck]. repeat case_match; apply budget_calm; try done.
    apply holds_followUp.
  - unfold step_ws. repeat case_match; by apply budget_calm.
  - unfold step_ws_recheck. repeat case_match; by apply budget_calm.
  - unfold step_ws_cas. destruct (wsResultCas _ _ _ _ _ _) as [t' b] eqn:E.
    apply (settle_step_avail _ _ _ _ _ _ _ _ _ k) in E; [|by eauto with bl4ck]. repeat case_match; by apply budget_calm.
  - by apply budget_calm.
  - unfold step_reap_loop. destruct todo as [|c rest]; [by apply budget_calm|]. case_match; [by apply budget_calm|].
    destruct (failStale _ _ _) as [t' b] eqn:E. apply (settle_step_avail _ _ _ _ _ _ _ _ _ k) in E; [|done].
    case_match; by apply budget_calm.
  - by apply budget_calm.
  - apply budget_calm; try done. by apply settle_all_avail.
Qed.

(** *** A command gets one outcome *)

Definition is_handling (k : string) (ev : Event) : bool :=
  match ev with EvHandled id => bool_decide (id = k) | _ => false end.

(** A settling update, with the event it emits when it changes the row. *)
Lemma settle_once id p st at_ res blank t t' k ev :
  (forall c, p c = true -> live c = true) -> terminal st = true ->
  update1 id p (set_terminal st at_ res blank) t = (t', true) -> is_settling k ev = bool_decide (id = k) ->
  (open_ (t' !! k) + (if is_settling k ev then 1 else 0) <= open_ (t !! k))%nat.
Proof.
  intros Hp Hst [[_ [=]]|(c & Hc & Hpc & -> & _)]%update1_spec Hev. rewrite Hev.
  destruct (decide (id = k)) as [->|Hne].
  - rewrite lookup_insert_eq, Hc, bool_decide_eq_true_2 by done. cbn. rewrite (Hp c Hpc), not_live_terminal. cbn. rewrite Hst. done.
  - rewrite lookup_insert_ne, bool_decide_eq_false_2 by done. lia.
Qed.

Definition settles_once (k : string) (t : CommandTable) (r : StepResult) : Prop :=
  (open_ (sr_table r !! k) + count_if (is_settling k) (sr_events r) <= open_ (t !! k))%nat
  /\ (count_if (is_handling k) (sr_events r) <= count_if (is_settling k) (sr_events r))%nat.

(** A step that emits no outcome. *)
Lemma settles_calm k t r : table_edge t (sr_table r) ->
  (forall c, t !! k = Some c -> cm_type c <> "desktop_stream_stop"%string) ->
  Forall (fun ev => match ev with EvRecorded _ _ | EvExpired _ | EvHandled _ => False | _ => True end) (sr_events r) ->
  settles_once k t r.
Proof.
  intros He Hty Hev. unfold settles_once. rewrite !count_if_zero.
  - destruct (open_edge k _ _ He) as [?|(c & Hc & Hd)]; [lia|]. by destruct (Hty c Hc).
  - intros ev Hin. rewrite Forall_forall in Hev. specialize (Hev ev Hin). by destruct ev.
  - intros ev Hin. rewrite Forall_forall in Hev. specialize (Hev ev Hin). by destruct ev.
Qed.

Lemma step_settles e p t k : (forall c, t !! k = Some c -> cm_type c <> "desktop_stream_stop"%string) ->
  settles_once k t (step e p t).
Proof.
  intros Hty. pose proof (proc_step_edge sha256 dec redact validate e p t) as He.
  destruct p; cbn [proc_step] in He |- *;
    try (apply settles_calm; [exact He|exact Hty|];
         unfold step_exec, step_exec_claim, step_exec_send, step_exec_release, step_poll, step_poll_read, step_queue,
           step_dispatch_claim, step_dispatch_send, step_dispatch_release, step_stop_delete, step_rearm, step_batch,
           step_rest, step_ws, step_ws_recheck, step_reap, step_batch_deliver, step_batch_release, answerBatch,
           step_direct, step_exec_insert, step_queue_insert, commandAudit;
         clear He; repeat case_match; cbn [stay emit sr_events]; try (by repeat constructor); fail).
  - apply settles_calm; [exact He|exact Hty|]. unfold step_queue_insert.
    destruct (queueCommand e q t) as [[[t' evs] c]|] eqn:E; [|constructor].
    apply queueCommand_spec in E as (_ & _ & audit & -> & Ha). constructor; [done|].
    eapply Forall_impl; [apply Ha|]. by intros [].
  - apply settles_calm; [exact He|exact Hty|]. unfold step_batch_deliver, answerBatch. case_match; [|constructor].
    apply Forall_fmap, Forall_true. by intros.
  - apply settles_calm; [exact He|exact Hty|]. unfold step_batch_release, answerBatch. case_match; [|constructor].
    apply Forall_fmap, Forall_true. by intros.
  - unfold step_rest_cas in *. destruct (restResultCas _ _ _ _ _ _ _ _) as [t' []] eqn:E; [|by apply settles_calm].
    clear He. unfold settles_once.
    pose proof (settle_once _ _ _ _ _ _ _ _ k (EvRecorded (cm_id command) JNull) (accepts_live deviceId role)
      (terminalStatus_terminal _) E eq_refl) as Ho. cbn [is_settling] in Ho.
    destruct validationError; cbn [emit sr_events sr_table]; rewrite !count_if_cons; cbn [is_settling is_handling count_if List.filter length];
      split; case_bool_decide; lia.
  - unfold step_ws_cas in *. destruct (wsResultCas _ _ _ _ _ _) as [t' []] eqn:E; [|by apply settles_calm].
    clear He. unfold settles_once.
    pose proof (settle_once _ _ _ _ _ _ _ _ k (EvRecorded (cm_id command) JNull) (accepts_live deviceId role_agent)
      (terminalStatus_terminal _) E eq_refl) as Ho. cbn [is_settling] in Ho.
    destruct validationError; [destruct (finalizedOnRejection _)|]; cbn [emit sr_events sr_table]; rewrite !count_if_cons; cbn [is_settling is_handling count_if List.filter length];
      split; case_bool_decide; lia.
  - unfold step_reap_loop in *. destruct todo as [|c rest]; [by apply settles_calm|]. case_match; [by apply settles_calm|].
    destruct (failStale _ _ _) as [t' []] eqn:E; [|by apply settles_calm]. clear He. unfold settles_once.
    pose proof (settle_once _ _ _ _ _ _ _ _ k (EvExpired (cm_id c)) (fun c H => H) (eq_refl : terminal c_failed = true) E eq_refl) as Ho. cbn [is_settling] in Ho.
    cbn [emit sr_events sr_table]. rewrite !count_if_cons. cbn [is_settling is_handling count_if List.filter length].
    split; case_bool_decide; lia.
Qed.
End tokens.

(** *** The statements *)

Lemma drain_avail devs u ids now dbNow t t' r k :
  queueDrainUninstalls devs u ids now dbNow t = Some (t', r) -> (avail (t' !! k) <= avail (t !! k))%nat.
Proof.
  unfold queueDrainUninstalls. destruct devs as [|d devs]; [by intros [= -> <-]|].
  destruct (insert_all _ _) as [t2|] eqn:E; [|done]. intros [= -> _].
  etransitivity; [apply (insert_all_avail _ _ _ k E)|by apply settle_all_avail].
Qed.

Lemma abuse_avail devs u ids now dbNow t t' k :
  suspendForAbuse devs u ids now dbNow t = Some t' -> (avail (t' !! k) <= avail (t !! k))%nat.
Proof.
  unfold suspendForAbuse. destruct devs as [|d devs]; [by intros [= ->]|].
  destruct (insert_all _ _) as [t1|] eqn:E; [|done]. intros [= <-].
  etransitivity; [by apply settle_all_avail|apply (insert_all_avail _ _ _ k E)].
Qed.

(** No statement frees a claim, or delivers anything. *)
Lemma run_stmt_avail e st t k : (avail ((run_stmt e st t).1 !! k) <= avail (t !! k))%nat.
Proof.
  destruct st; cbn [run_stmt].
  - destruct (queueCommand e q t) as [[[t' evs] c]|] eqn:E; [|done]. apply queueCommand_spec in E as (-> & Hi & _).
    by apply (insert1_avail _ _ _ k Hi).
  - destruct (insert1 _ t) as [t'|] eqn:E; [|done]. by apply (insert1_avail _ _ _ k E).
  - apply mark_avail.
  - destruct (submitCommandResult _ _ _ _ _) as [t' b] eqn:E. apply (settle_step_avail _ _ _ _ _ _ _ _ _ k) in E; [done|].
    by eauto with bl4ck.
  - by apply settle_all_avail.
  - by apply settle_all_avail.
  - by apply settle_avail.
  - by apply settle_avail.
  - apply delete_avail.
  - destruct (queueDrainUninstalls _ _ _ _ _ _) as [[t' r]|] eqn:E; [|done]. by apply (drain_avail _ _ _ _ _ _ _ _ k E).
  - by apply settle_all_avail.
  - destruct (suspendForAbuse _ _ _ _ _ _) as [t'|] eqn:E; [|done]. by apply (abuse_avail _ _ _ _ _ _ _ k E).
Qed.

(** The events of a statement: rows inserted, and at most one result. *)
Lemma run_stmt_events e st t :
  Forall (fun ev => match ev with EvInserted _ | EvCommandAudit _ _ _ _ => True | _ => False end) (run_stmt e st t).2
  \/ exists id status res, st = SSubmit id status res /\ (run_stmt e st t).2 = [EvRecorded id res]
                           /\ (submitCommandResult id status res (ce_now e) t).2 = true.
Proof.
  destruct st as [q| | |id status res| | | | | | | |]; cbn [run_stmt]; try (left; by repeat constructor).
  - left. destruct (queueCommand e q t) as [[[t' evs] c]|] eqn:E; [|constructor].
    apply queueCommand_spec in E as (_ & _ & audit & -> & Ha). constructor; [done|]. eapply Forall_impl; [apply Ha|]. by intros [].
  - left. case_match; repeat constructor.
  - destruct (submitCommandResult _ _ _ _ _) as [t' []] eqn:E; [right|left; constructor].
    exists id, status, res. by rewrite E.
  - left. repeat case_match; cbn [snd]; [apply Forall_fmap, Forall_true; by intros|constructor].
  - left. repeat case_match; cbn [snd]; [apply Forall_fmap, Forall_true; by intros|constructor].
Qed.

Lemma run_stmt_settles e st t k : (forall c, t !! k = Some c -> cm_type c <> "desktop_stream_stop"%string) ->
  (open_ ((run_stmt e st t).1 !! k) + count_if (is_settling k) (run_stmt e st t).2 <= open_ (t !! k))%nat
  /\ count_if (is_handling k) (run_stmt e st t).2 = 0%nat /\ count_if (is_delivery k) (run_stmt e st t).2 = 0%nat.
Proof.
  intros Hty. destruct (run_stmt_events e st t) as [Hev|(id & status & res & -> & Hev & Hok)].
  - rewrite Forall_forall in Hev. rewrite !count_if_zero by (intros ev Hin; specialize (Hev ev Hin); by destruct ev).
    destruct (open_edge k _ _ (run_stmt_edge e st t)) as [?|(c & Hc & Hd)]; [lia|]. by destruct (Hty c Hc).
  - rewrite Hev. cbn [run_stmt]. destruct (submitCommandResult _ _ _ _ _) as [t' b] eqn:E. cbn in Hok. subst b.
    pose proof (settle_once _ _ _ _ _ _ _ _ k (EvRecorded id JNull) sent_live (terminalStatus_terminal _) E eq_refl) as Ho.
    cbn [is_settling] in Ho. rewrite !count_if_cons. cbn [fst is_settling is_handling is_delivery count_if List.filter length].
    split; [|done]. case_bool_decide; lia.
Qed.
