(* ===== verification/CommandTheorems.v ===== *)
(** * What holds of the command queue under every interleaving

    The invariant of the reachable states, and the theorems that follow: a command
    is handed over at most once and gets one outcome, it goes to the agent of its own
    device, and every row follows the life cycle of a command. *)

From stdpp Require Import base gmap strings list option sorting.
From Stdlib Require Import ZArith Lia Ascii QArith.
From S2P Require Import Prelude Json SecretCrypto CommandTypes CommandStore Commands.
From S2P Require Import CommandSystem CommandInvariants CommandTokens.

Open Scope Z_scope.

(** ** Rows and the commands they come from *)

Definition STOP : string := "desktop_stream_stop".

(** The columns an update never changes. *)
Definition same_command (c0 c : DeviceCommand) : Prop :=
  cm_id c = cm_id c0 /\ cm_deviceId c = cm_deviceId c0 /\ cm_type c = cm_type c0 /\ cm_targetRole c = cm_targetRole c0
  /\ cm_createdBy c = cm_createdBy c0 /\ cm_createdAt c = cm_createdAt c0.

(** Row [c] was inserted as [c0]; its payload is the original one, or blank once
    the command is over. *)
Definition origin (c0 c : DeviceCommand) : Prop :=
  same_command c0 c /\ (cm_payload c = cm_payload c0 \/ live c = false /\ cm_payload c = JNull).

Lemma origin_refl c : origin c c.
Proof. repeat split; auto. Qed.

Lemma origin_edge c0 c o : origin c0 c -> cmd_edge (Some c) o -> match o with Some c' => origin c0 c' | None => True end.
Proof.
  unfold origin, same_command. intros (Hs & Hp) He.
  inversion He as [? Ho|? Hc|? at_ Hst|? Hst|? st at_ res blank Hl Ht|? Hst|? Hty Hst Hpl]; subst; cbn; [done|..|done|]; (split; [done|]).
  - destruct Hp as [?|[Hl _]]; [by left|]. unfold live in Hl. by rewrite Hst in Hl.
  - destruct Hp as [?|[Hl _]]; [by left|]. unfold live in Hl. by rewrite Hst in Hl.
  - rewrite Hl in Hp. destruct Hp as [Hp|[[=] _]]. destruct blank; [right|by left].
    rewrite not_live_terminal. cbn. by rewrite Ht.
  - destruct Hp as [?|[_ ?]]; [by left|done].
Qed.

Definition inserted (log : list Event) (c : DeviceCommand) : Prop := EvInserted c ∈ log.

Lemma inserted_app log evs c : inserted log c -> inserted (log ++ evs) c.
Proof. intros. apply elem_of_app. by left. Qed.

(** ** The abstract life cycle *)

Inductive Phase : Type :=
| Queued
| InFlight
| Over (st : CommandStatus) (res : json).

(** A command as its callers see it: id, device, type, consumer, and where it is. *)
Record AbsCommand : Type := {
  ab_key : string * string * string * TargetRole;
  ab_phase : Phase;
}.

Definition ab_type (a : AbsCommand) : string := (ab_key a).1.2.
Definition at_phase (a : AbsCommand) (ph : Phase) : AbsCommand := {| ab_key := ab_key a; ab_phase := ph |}.

(** What may happen to a command: it is queued; handed out; returned when the hand
    out fails; finished with an outcome; withdrawn while queued. Only a stop of a
    desktop stream is queued again, unless it was cancelled. *)
Inductive life : option AbsCommand -> option AbsCommand -> Prop :=
| lf_submit a : ab_phase a = Queued -> life None (Some a)
| lf_hand_out a : ab_phase a = Queued -> life (Some a) (Some (at_phase a InFlight))
| lf_return a : ab_phase a = InFlight -> life (Some a) (Some (at_phase a Queued))
| lf_finish a st res : ab_phase a = Queued \/ ab_phase a = InFlight -> terminal st = true ->
    life (Some a) (Some (at_phase a (Over st res)))
| lf_withdraw a : ab_phase a = Queued -> life (Some a) None
| lf_repeat a : ab_type a = STOP -> (forall res, ab_phase a <> Over c_cancelled res) -> life (Some a) (Some (at_phase a Queued)).

(** The abstract state of a row. *)
Definition abs_phase (c : DeviceCommand) : Phase :=
  match cm_status c with
  | c_pending => Queued
  | c_sent => InFlight
  | st => Over st (cm_result c)
  end.

Definition abs (c : DeviceCommand) : AbsCommand :=
  {| ab_key := (cm_id c, cm_deviceId c, cm_type c, cm_targetRole c); ab_phase := abs_phase c |}.

Lemma abs_live c : live c = true -> abs_phase c = Queued \/ abs_phase c = InFlight.
Proof. unfold live, abs_phase. destruct (cm_status c); auto; done. Qed.

Lemma abs_terminal st at_ res blank c : terminal st = true -> abs (set_terminal st at_ res blank c) = at_phase (abs c) (Over st res).
Proof. intros H. unfold abs, at_phase, abs_phase. cbn. by destruct st. Qed.

(** Every edge of a row is a move of the abstract command, or none. *)
Lemma edge_refines o o' : cmd_edge o o' -> abs <$> o = abs <$> o' \/ life (abs <$> o) (abs <$> o').
Proof.
  intros [?|c Hc|c at_ Hs|c Hs|c st at_ res blank Hl Ht|c Hs|c Hty Hs Hp]; [by left|right; cbn..].
  - constructor. rewrite Hc. done.
  - apply (lf_hand_out (abs c)). cbn. unfold abs_phase. by rewrite Hs.
  - apply (lf_return (abs c)). cbn. unfold abs_phase. by rewrite Hs.
  - rewrite abs_terminal by done. apply lf_finish; [by apply abs_live|done].
  - apply lf_withdraw. cbn. unfold abs_phase. by rewrite Hs.
  - apply (lf_repeat (abs c)); [done|]. intros r. cbn. unfold abs_phase. destruct (cm_status c); congruence.
Qed.

(** A finished command is final, but for a stop. *)
Lemma edge_frozen c o : cmd_edge (Some c) o -> live c = false -> cm_type c <> STOP -> o = Some c.
Proof.
  intros He Hl Hty. inversion He as [? Ho|? Hc|? at_ Hs|? Hs|? st at_ res blank Hl' Ht|? Hs|? Hty' Hs Hp]; subst;
    try done; try congruence; unfold live in Hl; by rewrite Hs in Hl.
Qed.

Section runs.
Context (sha256 : string -> bytes)
        (dec : bytes -> bytes -> option string -> bytes -> bytes -> option bytes)
        (redact : string -> string)
        (validate : string -> string -> AgentResult -> result string (option (option string * json))).

Abbreviation step := (proc_step sha256 dec redact validate).
Abbreviation wstep := (cworld_step sha256 dec redact validate).
Abbreviation reachable := (cw_reachable sha256 dec redact validate).

(** What the steps of a run had around them: a device [did] whose row named the agent
    [agentId]; a caller that sends a command itself, to an agent of its choice; the keys. *)
Context (named : string -> string -> Prop) (given : DirectArgs -> Prop) (keys : CryptoEnv -> Prop).

(** The command was handed in by a caller that sends it itself. *)
Definition handed_in (c : DeviceCommand) (agentId : string) : Prop :=
  exists a, given a /\ da_deviceId a = cm_deviceId c /\ da_agentId a = agentId /\ da_type a = cm_type c /\ da_payload a = cm_payload c.

(** The payload of a stop that is sent again: the two members of the stored one. *)
Definition rearmed (c : DeviceCommand) (payload : json) : Prop :=
  exists members s f, cm_type c = STOP /\ cm_payload c = JObj members /\ length members = 2%nat
    /\ json_get "sessionId" members = JStr s /\ json_get "finalizationId" members = JStr f
    /\ payload = JObj [("sessionId"%string, JStr s); ("finalizationId"%string, JStr f)].

Definition decrypted (c : DeviceCommand) (payload : json) : Prop :=
  exists env, keys env /\ decryptSensitivePayloadFields sha256 dec env (cm_type c) (cm_payload c) = Ok payload.

(** What is handed over is the stored payload with its credentials decrypted; only the
    commands of a caller that sends them itself go out as stored. *)
Definition carries (c : DeviceCommand) (d : DeliverableCommand) : Prop :=
  cm_id c = dc_id d /\ cm_type c = dc_type d
  /\ (decrypted c (dc_payload d) \/ rearmed c (dc_payload d)
      \/ (exists agentId, handed_in c agentId) /\ dc_payload d = cm_payload c).

(** The agent is the one of the device the command is for. *)
Definition own_agent (c : DeviceCommand) (agentId : string) : Prop :=
  cm_targetRole c = role_agent /\ (named (cm_deviceId c) agentId \/ handed_in c agentId).

Definition addressed (dest : Dest) (c : DeviceCommand) : Prop :=
  match dest with
  | ToSocket agentId => own_agent c agentId
  | ToPoll did role => cm_deviceId c = did /\ cm_targetRole c = role
  end.

Definition rightly_delivered (log : list Event) (dest : Dest) (d : DeliverableCommand) : Prop :=
  exists c, inserted log c /\ addressed dest c /\ carries c d.

(** The command a dispatch works for. *)
Definition dispatch_ok (log : list Event) (x : Dispatch) : Prop :=
  exists c, inserted log c /\ cm_id c = cm_id (dx_command x) /\ cm_type c = cm_type (dx_command x) /\ own_agent c (dx_agentId x)
            /\ (if dx_plain x then rearmed c (dx_payload x) \/ handed_in c (dx_agentId x) /\ cm_payload c = dx_payload x
                else cm_payload c = dx_payload x).

Definition exec_ok (log : list Event) (a : ExecArgs) (agentId id : string) : Prop :=
  exists c, inserted log c /\ cm_id c = id /\ cm_type c = xa_type a /\ own_agent c agentId /\ cm_payload c = xa_payload a.

Definition proc_ok (log : list Event) (p : Proc) : Prop :=
  match p with
  | PExecInsert a agentId _ => named (xa_deviceId a) agentId
  | PExecClaim a agentId id => exec_ok log a agentId id
  | PExecSend a agentId id _ d _ => dc_id d = id /\ rightly_delivered log (ToSocket agentId) d
  | PQueueInsert q _ agentId => named (qa_deviceId q) agentId
  | PDirect a => given a
  | PDispatchClaim x => dispatch_ok log x
  | PDispatchSend x _ d => dc_id d = cm_id (dx_command x) /\ rightly_delivered log (ToSocket (dx_agentId x)) d
  | PBatchDeliver did role claimed =>
      Forall (fun c => exists c0, inserted log c0 /\ addressed (ToPoll did role) c0 /\ origin c0 c /\ live c = true) claimed
  | PBatchRelease did role _ ds => Forall (rightly_delivered log (ToPoll did role)) ds
  | _ => True
  end.

(** The environment of a step, and an action, in these terms. *)
Definition env_ok (e : CEnv) : Prop :=
  (forall did d, ce_devices e !! did = Some d -> named did (dw_agentId d)) /\ keys (ce_crypto e).

Definition action_ok (a : CAction) : Prop :=
  match a with
  | CRun _ e => env_ok e
  | CSpawn (PDirect d) => given d
  | _ => True
  end.

Definition event_ok (log : list Event) (ev : Event) : Prop :=
  match ev with EvDelivered dest d => rightly_delivered log dest d | _ => True end.

Record cw_inv (w : CWorld) : Prop := {
  ci_keyed : keyed (cw_table w);
  ci_rows k c : cw_table w !! k = Some c -> exists c0, inserted (cw_log w) c0 /\ origin c0 c;
  ci_procs : Forall (proc_ok (cw_log w)) (cw_procs w);
  ci_events : Forall (event_ok (cw_log w)) (cw_log w);
  ci_once k : (forall c, inserted (cw_log w) c -> cm_id c = k -> cm_type c <> STOP) ->
    (avail (cw_table w !! k) + held k (cw_procs w) + count_if (is_delivery k) (cw_log w) <= 1)%nat
    /\ (open_ (cw_table w !! k) + count_if (is_settling k) (cw_log w) <= 1)%nat
    /\ (count_if (is_handling k) (cw_log w) <= count_if (is_settling k) (cw_log w))%nat;
}.

Lemma rightly_delivered_app log evs dest d : rightly_delivered log dest d -> rightly_delivered (log ++ evs) dest d.
Proof. intros (c & Hc & H). exists c. split; [by apply inserted_app|done]. Qed.

Lemma proc_ok_app log evs p : proc_ok log p -> proc_ok (log ++ evs) p.
Proof.
  destruct p; cbn; try done.
  - intros (c & Hc & H). exists c. split; [by apply inserted_app|done].
  - intros [? ?]. split; [done|by apply rightly_delivered_app].
  - intros (c & Hc & H). exists c. split; [by apply inserted_app|done].
  - intros [? ?]. split; [done|by apply rightly_delivered_app].
  - intros H. eapply Forall_impl; [exact H|]. intros c (c0 & Hc & H0). exists c0. split; [by apply inserted_app|done].
  - intros H. eapply Forall_impl; [exact H|]. intros d. apply rightly_delivered_app.
Qed.

Lemma proc_ok_ids log p : proc_ok log p -> proc_ids p.
Proof. destruct p; cbn; naive_solver. Qed.

(** ** New rows are announced *)

(** The rows of [t'] that [t] lacks are those [evs] announces. *)
Definition announced (t t' : CommandTable) (evs : list Event) : Prop :=
  forall k c, t !! k = None -> t' !! k = Some c -> EvInserted c ∈ evs /\ cm_id c = k.

Lemma announced_update t t' evs : (forall k, t !! k = None -> t' !! k = None) -> announced t t' evs.
Proof. intros H k c Hn Hc. by rewrite H in Hc. Qed.

Lemma announced_insert1 c t t' evs : insert1 c t = Some t' -> EvInserted c ∈ evs -> announced t t' evs.
Proof.
  intros [Hn ->]%insert1_spec Hin k c' Hk Hc'. destruct (decide (k = cm_id c)) as [->|Hne].
  - rewrite lookup_insert_eq in Hc'. by simplify_eq.
  - rewrite lookup_insert_ne in Hc' by done. congruence.
Qed.

Lemma update1_none id p f t k : t !! k = None -> (update1 id p f t).1 !! k = None.
Proof.
  intros Hk. destruct (update1 id p f t) as [t' b] eqn:E. apply update1_spec in E as [[-> _]|(c & Hc & _ & -> & _)]; [done|].
  cbn [fst]. rewrite lookup_insert_ne; [done|]. intros ->. congruence.
Qed.

Lemma claimEach_none did role clock n sel t k : t !! k = None -> (claimEach did role clock n sel t).1 !! k = None.
Proof.
  intros Hk. destruct (claimEach _ _ _ _ _ _) as [t' cl] eqn:E. cbn [fst].
  destruct (claimEach_row _ _ _ _ _ _ _ _ k E) as [->|(c & at_ & Hc & _)]; [done|congruence].
Qed.

Lemma deletePending_none id t k : t !! k = None -> (deletePending id t).1 !! k = None.
Proof.
  intros Hk. unfold deletePending. destruct (t !! id); [|done]. case_match; [|done]. cbn [fst].
  destruct (decide (k = id)) as [->|Hne]; [by rewrite lookup_delete_eq|by rewrite lookup_delete_ne].
Qed.

Ltac no_new_rows := apply announced_update; intros k0 Hk0;
  first [exact Hk0 | by apply update1_none | by apply claimEach_none | by apply deletePending_none | by apply sql_update_lookup_None
        | match goal with H : ?f = (?t', _) |- ?t' !! _ = None => replace t' with (f.1) by (by rewrite H) end;
          first [by apply update1_none | by apply claimEach_none]].

Lemma step_announced e p t : announced t (sr_table (step e p t)) (sr_events (step e p t)).
Proof.
  destruct p; cbn [proc_step]; try no_new_rows.
  - unfold step_exec. repeat case_match; no_new_rows.
  - unfold step_exec_insert. case_match; [|no_new_rows]. eapply announced_insert1; [eassumption|left].
  - unfold step_exec_claim. repeat case_match; no_new_rows.
  - unfold step_exec_send. repeat case_match; no_new_rows.
  - unfold step_poll. repeat case_match; no_new_rows.
  - unfold step_queue. repeat case_match; no_new_rows.
  - unfold step_queue_insert. destruct (queueCommand e q t) as [[[t' evs] c]|] eqn:E; [|no_new_rows].
    apply queueCommand_spec in E as (-> & Hi & audit & -> & _). eapply announced_insert1; [exact Hi|left].
  - unfold step_direct. case_match; [|no_new_rows]. eapply announced_insert1; [eassumption|left].
  - unfold step_dispatch_claim. repeat case_match; no_new_rows.
  - unfold step_dispatch_send. case_match; no_new_rows.
  - unfold step_rearm. repeat case_match; no_new_rows.
  - unfold step_batch. destruct (claimPendingCommandsForDevice _ _ _ _ _ _ _) eqn:E. no_new_rows.
  - unfold step_batch_deliver. case_match; no_new_rows.
  - unfold step_batch_release. repeat case_match; no_new_rows.
  - unfold step_rest. repeat case_match; no_new_rows.
  - unfold step_rest_cas. destruct (restResultCas _ _ _ _ _ _ _ _) as [t' []] eqn:E; [case_match|]; no_new_rows.
  - unfold step_ws. repeat case_match; no_new_rows.
  - unfold step_ws_recheck. repeat case_match; no_new_rows.
  - unfold step_ws_cas. destruct (wsResultCas _ _ _ _ _ _) as [t' []] eqn:E; no_new_rows.
  - unfold step_reap_loop. destruct todo; [no_new_rows|]. case_match; [no_new_rows|].
    destruct (failStale _ _ _) as [t' []] eqn:E; no_new_rows.
Qed.

Lemma announced_diff t t' : keyed t' ->
  announced t t' (EvInserted <$> List.filter (fun c => bool_decide (t !! cm_id c = None)) (sql_rows t')).
Proof.
  intros Hk k c Hn Hc. pose proof (Hk k c Hc) as <-. split; [|done]. apply list_elem_of_fmap_2, list_filter_elem.
  split; [apply sql_rows_elem; eauto|by apply bool_decide_eq_true_2].
Qed.

Lemma sql_update_keyed p f (t : CommandTable) : (forall c, cm_id (f c) = cm_id c) -> keyed t -> keyed (sql_update p f t).
Proof. intros Hf Hk k c (c0 & H & [[-> _]|[-> _]])%sql_update_Some; [|rewrite Hf]; by apply Hk. Qed.

Lemma insert_all_keyed cs t t' : insert_all cs t = Some t' -> keyed t -> keyed t'.
Proof.
  intros H Hk k c Hc. destruct (insert_all_row _ _ _ k H) as [[Heq _]|(_ & c' & _ & Hid & Heq)]; rewrite Heq in Hc.
  - by apply Hk.
  - by simplify_eq.
Qed.

Lemma stmt_announced e st t : keyed t -> announced t (run_stmt e st t).1 (run_stmt e st t).2.
Proof.
  intros Hk. destruct st; cbn [run_stmt]; try no_new_rows.
  - destruct (queueCommand e q t) as [[[t' evs] c]|] eqn:E; [|no_new_rows].
    apply queueCommand_spec in E as (-> & Hi & audit & -> & _). eapply announced_insert1; [exact Hi|left].
  - destruct (insert1 _ t) eqn:E; [|no_new_rows]. eapply announced_insert1; [exact E|left].
  - apply announced_update. intros k Hn. cbn [fst]. destruct (markCommandsSent_row ids (ce_clock e) 0 t k) as [->|(c & _ & Hc & _)]; [done|congruence].
  - destruct (submitCommandResult _ _ _ _ _) as [t' b] eqn:E. no_new_rows.
  - destruct (queueDrainUninstalls _ _ _ _ _ _) as [[t' r]|] eqn:E; [|no_new_rows]. apply announced_diff.
    unfold queueDrainUninstalls in E. destruct (drainDevices e orgIds); [by simplify_eq|].
    destruct (insert_all _ _) as [t2|] eqn:Ei; [|done]. simplify_eq. eapply insert_all_keyed; [exact Ei|by apply sql_update_keyed].
  - destruct (suspendForAbuse _ _ _ _ _ _) as [t'|] eqn:E; [|no_new_rows]. apply announced_diff.
    unfold suspendForAbuse in E. destruct deviceIds; [by simplify_eq|].
    destruct (insert_all _ _) as [t1|] eqn:Ei; [|done]. simplify_eq. apply sql_update_keyed; [done|]. by eapply insert_all_keyed.
Qed.

(** ** Processes keep track of the command they work for *)

Definition rows_ok (log : list Event) (t : CommandTable) : Prop :=
  forall k c, t !! k = Some c -> exists c0, inserted log c0 /\ origin c0 c.

(** The processes and the events a step leaves behind. *)
Definition sound_step (log : list Event) (r : StepResult) : Prop :=
  Forall (proc_ok (log ++ sr_events r)) (next_procs (sr_next r) ++ sr_spawn r)
  /\ Forall (event_ok (log ++ sr_events r)) (sr_events r).

Lemma sound_calm log t k : Forall (proc_ok log) (next_procs k) -> sound_step log (stay t k).
Proof. intros H. unfold sound_step. cbn. rewrite !app_nil_r. by repeat constructor. Qed.

Lemma inserted_new log c evs : inserted (log ++ EvInserted c :: evs) c.
Proof. apply elem_of_app. right. left. Qed.

Lemma audit_events_ok log e orgId actor c : Forall (event_ok log) (commandAudit e orgId actor c).
Proof. unfold commandAudit. case_match; repeat constructor. Qed.

Lemma next_after_unsent log x : Forall (proc_ok log) (next_procs (after_unsent x)).
Proof. unfold after_unsent. destruct (dx_after x); repeat constructor. Qed.
Lemma next_after_sent log x at_ : Forall (proc_ok log) (next_procs (after_sent x at_)).
Proof. unfold after_sent. destruct (dx_after x); repeat constructor. Qed.

Lemma claimEach_elem did role clock n sel t t' cl c :
  claimEach did role clock n sel t = (t', cl) -> c ∈ cl ->
  exists k r at_, t !! k = Some r /\ claimable did role r = true /\ c = set_delivery c_sent (Some at_) r.
Proof.
  revert n t t' cl. induction sel as [|c0 sel IH]; intros n t t' cl H Hc; cbn [claimEach] in H; simplify_eq; [by apply not_elem_of_nil in Hc|].
  destruct (t !! cm_id c0) as [r|] eqn:Hr; [|by eauto]. destruct (claimable did role r) eqn:Hp; [|by eauto].
  destruct (claimEach _ _ _ (S n) sel _) as [t1 l1] eqn:E. simplify_eq. apply elem_of_cons in Hc as [->|Hc]; [by eauto 6|].
  destruct (IH _ _ _ _ E Hc) as (k & r' & at_ & Hr' & Hp' & ->). destruct (decide (k = cm_id c0)) as [->|Hne].
  - rewrite lookup_insert_eq in Hr'. simplify_eq. unfold claimable, is_status in Hp'. by bool_hyps.
  - rewrite lookup_insert_ne in Hr' by done. eauto 6.
Qed.

Lemma batch_sound log t did role allow locked clock t' cl : rows_ok log t ->
  claimPendingCommandsForDevice did BATCH_LIMIT role allow locked clock t = (t', cl) ->
  proc_ok log (PBatchDeliver did role cl).
Proof.
  intros Hrows E. cbn. apply Forall_forall. intros c Hc.
  destruct (claimEach_elem _ _ _ _ _ _ _ _ _ E Hc) as (k & r & at_ & Hr & Hp & ->).
  destruct (Hrows k r Hr) as (c0 & Hc0 & Ho). exists c0. split; [done|]. unfold claimable, is_status in Hp. bool_hyps.
  pose proof Ho as ((_ & Hd & _ & Hrole & _) & _). split; [split; congruence|]. split; [|done].
  by apply (origin_edge c0 r (Some (set_delivery c_sent (Some at_) r)) Ho), ed_claim.
Qed.

Lemma decrypt_batch_sound log ce did role claimed :
  keys ce -> proc_ok log (PBatchDeliver did role claimed) ->
  Forall (rightly_delivered log (ToPoll did role)) (decryptCommandsForDelivery sha256 dec ce (deliverable <$> claimed)).
Proof.
  intros Hk H. apply Forall_forall. unfold decryptCommandsForDelivery.
  intros d (x & (c & -> & Hc)%list_elem_of_fmap & Hd)%list_elem_of_omap.
  cbn in H. rewrite Forall_forall in H. destruct (H c Hc) as (c0 & Hc0 & Ha & ((Hid & _ & Hty & _) & Hp) & Hl).
  apply decrypt_keeps in Hd as (Hd1 & Hd2 & Hd3). exists c0. split; [done|]. split; [done|].
  rewrite Hl in Hp. destruct Hp as [Hp|[[=] _]]. cbn in Hd1, Hd2, Hd3.
  split; [congruence|]. split; [congruence|]. left. exists ce. by rewrite <- Hty, <- Hp.
Qed.

Lemma answerBatch_sound log did role ds t :
  Forall (rightly_delivered log (ToPoll did role)) ds -> sound_step log (answerBatch did role ds t).
Proof.
  intros H. split; cbn; [constructor|]. apply Forall_fmap. eapply Forall_impl; [exact H|]. intros d. apply rightly_delivered_app.
Qed.

Ltac calm := apply sound_calm; by repeat constructor.

Lemma dispatch_payload_ok e log x at_ d : env_ok e -> dispatch_ok log x -> dispatchPayload sha256 dec e x = Some d ->
  proc_ok log (PDispatchSend x at_ d).
Proof.
  intros [_ Hk] (c & Hc & Hid & Hty & Hown & Hpl) E. unfold dispatchPayload in E. destruct (dx_plain x).
  - simplify_eq. split; [done|]. exists c. split_and!; [done|done|]. unfold carries. cbn. split_and!; [done|done|]. right.
    destruct Hpl as [?|[? ?]]; [by left|right]. split; [by eexists|done].
  - apply decrypt_keeps in E as (H1 & H2 & H3). cbn in *. split; [done|]. exists c. split_and!; [done|done|]. unfold carries.
    split_and!; [congruence|congruence|]. left. exists (ce_crypto e). split; [done|congruence].
Qed.

Lemma rearmed_payload i c : rearmMatches i c = true -> rearmed c (rearmPayload i).
Proof.
  unfold rearmMatches, of_type. intros H. bool_hyps. destruct (cm_payload c) as [| | | | | |members|] eqn:E; try done. bool_hyps.
  match goal with H : (length members =? 2)%nat = true |- _ => apply Nat.eqb_eq in H end.
  assert (Hs : forall s v, is_string s v = true -> v = JStr s) by (intros s [] Hv; cbn in Hv; try done; by bool_hyps; subst).
  exists members, (ri_sessionId i), (ri_finalizationId i). split_and!; auto.
Qed.

Lemma step_rearm_sound e i t log : env_ok e -> rows_ok log t -> sound_step log (step_rearm e i t).
Proof.
  intros [Hn _] Hrows. unfold step_rearm. destruct (t !! ri_commandId i) as [c|] eqn:Hc; [|by apply sound_calm].
  destruct (rearmMatches i c) eqn:Hm; cbn [negb]; [|by apply sound_calm]. pose proof (rearmed_payload i c Hm) as (ms & s & f & Hst & Hpl & Hre).
  destruct (Hrows _ _ Hc) as (c0 & Hc0 & (Hid & Hdev & Hty & Hrole & _) & Hp0).
  assert (Hpay : cm_payload c = cm_payload c0) by (destruct Hp0 as [?|[_ ?]]; [done|congruence]).
  unfold rearmMatches, of_type in Hm. bool_hyps. destruct (ce_devices e !! ri_deviceId i) as [d|] eqn:Hd; [|by apply sound_calm].
  repeat case_match; try calm. apply sound_calm. constructor; [|constructor]. exists c0. cbn. split_and!; try done; try congruence.
  - split; [congruence|]. left. replace (cm_deviceId c0) with (ri_deviceId i) by congruence. by apply Hn.
  - left. exists ms, s, f. split_and!; try apply Hre; congruence.
Qed.

Lemma step_sound e p t log : env_ok e -> rows_ok log t -> proc_ok log p -> sound_step log (step e p t).
Proof.
  intros He Hrows Hp. destruct p; cbn [proc_step].
  - unfold step_exec. destruct (ce_devices e !! xa_deviceId a) as [d|] eqn:Hd; [|calm]. case_match; [calm|].
    apply sound_calm. repeat constructor. by apply He.
  - unfold step_exec_insert. case_match; [|by apply sound_calm]. split; cbn [emit sr_events sr_next sr_spawn next_procs]; rewrite ?app_nil_r.
    + constructor; [|constructor]. case_match eqn:Ed; [|done]. unfold dispatchViaWs in Ed. bool_hyps. cbn. eexists.
      split; [apply inserted_new|]. cbn. unfold own_agent. cbn. split_and!; try done. by left.
    + constructor; [done|apply audit_events_ok].
  - unfold step_exec_claim. repeat case_match; apply sound_calm; repeat constructor; cbn; simplify_eq.
    + match goal with H : decryptCommandForDelivery _ _ _ _ = Some _ |- _ => apply decrypt_keeps in H as (H1 & _) end. done.
    + match goal with H : decryptCommandForDelivery _ _ _ _ = Some _ |- _ => apply decrypt_keeps in H as (H1 & H2 & H3) end.
      destruct Hp as (c & Hc & Hid & Hty & Hown & Hpl). exists c. unfold carries. cbn in *. split_and!; try done; try congruence.
      left. exists (ce_crypto e). split; [apply He|congruence].
  - unfold step_exec_send. destruct Hp as [Hid Hd]. repeat case_match; [|calm..].
    split; cbn; repeat constructor. by apply rightly_delivered_app.
  - unfold step_exec_release. apply sound_calm. case_match; repeat constructor.
  - unfold step_poll. repeat case_match; calm.
  - by apply sound_calm.
  - unfold step_queue. destruct (ce_devices e !! qa_deviceId q) as [d|] eqn:Hd; [|calm]. repeat case_match; try calm.
    apply sound_calm. repeat constructor. by apply He.
  - unfold step_queue_insert. destruct (queueCommand e q t) as [[[t' evs] c]|] eqn:E; [|by apply sound_calm].
    apply queueCommand_spec in E as (-> & Hi & audit & -> & Ha). split; cbn [emit sr_events sr_next sr_spawn]; rewrite ?app_nil_r.
    + case_match; [|apply next_after_unsent]. constructor; [|constructor]. eexists. split; [apply inserted_new|]. cbn. unfold own_agent. cbn. auto 10.
    + constructor; [done|]. eapply Forall_impl; [exact Ha|]. by intros [].
  - unfold step_direct. case_match; [|by apply sound_calm]. split; cbn [emit sr_events sr_next sr_spawn]; rewrite ?app_nil_r; [|by repeat constructor].
    case_match; [|apply next_after_unsent]. constructor; [|constructor].
    match goal with |- context [EvInserted ?c] => set (c0 := c) end. assert (Hin : handed_in c0 (da_agentId a)) by by exists a.
    exists c0. split; [apply inserted_new|]. cbn. unfold own_agent. cbn. auto 10.
  - unfold step_dispatch_claim. destruct (claimPendingCommandForDelivery _ _ _) as [t' []]; [|apply sound_calm, next_after_unsent].
    apply sound_calm. constructor; [|constructor]. destruct (dispatchPayload _ _ e x) as [d|] eqn:E; [|done]. by apply (dispatch_payload_ok e).
  - unfold step_dispatch_send. destruct Hp as [Hid Hd]. case_match; [|calm].
    split; cbn [emit sr_events sr_next sr_spawn]; rewrite ?app_nil_r; [apply next_after_sent|]. repeat constructor. by apply rightly_delivered_app.
  - apply sound_calm, next_after_unsent.
  - by apply sound_calm.
  - by apply step_rearm_sound.
  - unfold step_batch. destruct (claimPendingCommandsForDevice _ _ _ _ _ _ _) as [t' cl] eqn:E. apply sound_calm.
    constructor; [|constructor]. by eapply batch_sound.
  - unfold step_batch_deliver. pose proof (decrypt_batch_sound log (ce_crypto e) _ _ _ (proj2 He) Hp) as Hds.
    case_match; [by apply answerBatch_sound|]. apply sound_calm. by repeat constructor.
  - unfold step_batch_release. case_match; [by apply answerBatch_sound|]. apply sound_calm. by repeat constructor.
  - unfold step_rest. repeat case_match; calm.
  - unfold step_rest_cas. destruct (restResultCas _ _ _ _ _ _ _ _) as [t' []]; [|by apply sound_calm].
    case_match; (split; [|by repeat constructor]); [by cbn|]. cbn. unfold followUp. case_match; by repeat constructor.
  - unfold step_ws. repeat case_match; calm.
  - unfold step_ws_recheck. repeat case_match; calm.
  - unfold step_ws_cas. destruct (wsResultCas _ _ _ _ _ _) as [t' []]; [|by apply sound_calm].
    split; [by cbn|]. repeat constructor. repeat case_match; by repeat constructor.
  - calm.
  - unfold step_reap_loop. destruct todo; [by apply sound_calm|]. case_match; [calm|].
    destruct (failStale _ _ _) as [t' []]; [|calm]. split; by repeat constructor.
  - calm.
  - by apply sound_calm.
Qed.

(** ** The invariant *)

Lemma rows_ok_step log t t' evs : rows_ok log t -> table_edge t t' -> announced t t' evs -> rows_ok (log ++ evs) t'.
Proof.
  intros Hr He Ha k c Hc. destruct (t !! k) as [c1|] eqn:Hk.
  - destruct (Hr k c1 Hk) as (c0 & Hc0 & Ho). exists c0. split; [by apply inserted_app|].
    specialize (He k). rewrite Hk, Hc in He. exact (origin_edge c0 c1 (Some c) Ho He).
  - destruct (Ha k c Hk Hc) as [Hin _]. exists c. split; [|apply origin_refl]. apply elem_of_app. by right.
Qed.

Lemma keyed_step t t' evs : keyed t -> table_edge t t' -> announced t t' evs -> keyed t'.
Proof.
  intros Hr He Ha k c Hc. destruct (t !! k) as [c1|] eqn:Hk; [|by apply (Ha k c)].
  specialize (He k). rewrite Hk, Hc in He. pose proof (origin_edge c1 c1 (Some c) (origin_refl c1) He) as ((Hid & _) & _).
  rewrite Hid. by apply Hr.
Qed.

Lemma procs_grow log evs ps : Forall (proc_ok log) ps -> Forall (proc_ok (log ++ evs)) ps.
Proof. intros H. eapply Forall_impl; [exact H|]. intros p. apply proc_ok_app. Qed.

Lemma events_grow log evs : Forall (event_ok log) log -> Forall (event_ok (log ++ evs)) evs -> Forall (event_ok (log ++ evs)) (log ++ evs).
Proof.
  intros H Hn. apply Forall_app. split; [|done]. eapply Forall_impl; [exact H|]. intros [| dest d | | | | |]; try done.
  apply rightly_delivered_app.
Qed.

(** A command id that no stop command ever had: its row, if any, is not one. *)
Lemma not_stop_row w k : cw_inv w -> (forall c, inserted (cw_log w) c -> cm_id c = k -> cm_type c <> STOP) ->
  forall c, cw_table w !! k = Some c -> cm_type c <> "desktop_stream_stop"%string.
Proof.
  intros Hw Hs c Hc. destruct (ci_rows w Hw k c Hc) as (c0 & Hc0 & (Hid & _ & Hty & _) & _).
  pose proof (ci_keyed w Hw k c Hc) as Hk. rewrite Hty. apply (Hs c0 Hc0). congruence.
Qed.

Lemma split_procs n (ps : list Proc) p : ps !! n = Some p -> ps = take n ps ++ p :: drop (S n) ps.
Proof. intros H. by rewrite take_drop_middle. Qed.

Lemma run_inv n e w p : env_ok e -> cw_inv w -> cw_procs w !! n = Some p -> cw_inv (wstep (CRun n e) w).
Proof.
  intros Henv Hw Hn. cbn [cworld_step]. rewrite Hn. pose proof (split_procs _ _ _ Hn) as Hsplit.
  pose proof (proc_step_edge sha256 dec redact validate e p (cw_table w)) as He.
  pose proof (step_announced e p (cw_table w)) as Ha.
  assert (Hp : proc_ok (cw_log w) p) by (eapply Forall_lookup_1; [apply ci_procs, Hw|exact Hn]).
  destruct (step_sound e p (cw_table w) (cw_log w) Henv (ci_rows w Hw) Hp) as [Hps Hev]. apply Forall_app in Hps as [Hnext Hspawn].
  constructor; cbn [cw_table cw_procs cw_log].
  - by eapply keyed_step; [apply ci_keyed, Hw| |].
  - by apply rows_ok_step with (t := cw_table w); [exact (ci_rows w Hw)| |].
  - pose proof (procs_grow _ (sr_events (step e p (cw_table w))) _ (ci_procs w Hw)) as Hold. rewrite Hsplit in Hold.
    apply Forall_app in Hold as [H1 H2]. apply Forall_cons_iff in H2 as [_ H2].
    repeat (apply Forall_app; split); done.
  - apply events_grow; [apply ci_events, Hw|done].
  - intros k Hs. assert (Hs' : forall c, inserted (cw_log w) c -> cm_id c = k -> cm_type c <> STOP).
    { intros c Hc. apply Hs. by apply inserted_app. }
    destruct (ci_once w Hw k Hs') as (H1 & H2 & H3). pose proof (not_stop_row w k Hw Hs') as Hty.
    pose proof (step_budget sha256 dec redact validate e p _ k (ci_keyed w Hw) (proc_ok_ids _ _ Hp) Hty) as Hb.
    destruct (step_settles sha256 dec redact validate e p _ k Hty) as [Ho Hh]. unfold within_budget in Hb.
    rewrite Hsplit, held_app in H1. change (p :: drop (S n) (cw_procs w)) with ([p] ++ drop (S n) (cw_procs w)) in H1.
    rewrite held_app, held_one in H1. rewrite !held_app, !count_if_app. lia.
Qed.

Lemma crash_inv n w : cw_inv w -> cw_inv (wstep (CCrash n) w).
Proof.
  intros Hw. destruct (cw_procs w !! n) as [p|] eqn:Hn.
  - pose proof (split_procs _ _ _ Hn) as Hsplit. cbn [cworld_step]. constructor; cbn [cw_table cw_procs cw_log]; try apply Hw.
    + pose proof (ci_procs w Hw) as Hold. rewrite Hsplit in Hold. apply Forall_app in Hold as [H1 H2].
      apply Forall_cons_iff in H2 as [_ H2]. by apply Forall_app.
    + intros k Hs. destruct (ci_once w Hw k Hs) as (H1 & H2 & H3). rewrite Hsplit, held_app in H1.
      change (p :: drop (S n) (cw_procs w)) with ([p] ++ drop (S n) (cw_procs w)) in H1. rewrite held_app in H1. rewrite held_app. lia.
  - cbn [cworld_step]. apply lookup_ge_None in Hn. rewrite take_ge, drop_ge, app_nil_r by lia. by destruct w.
Qed.

Lemma stmt_inv st e w : cw_inv w -> cw_inv (wstep (CStmt st e) w).
Proof.
  intros Hw. cbn [cworld_step]. pose proof (run_stmt_edge e st (cw_table w)) as He.
  pose proof (stmt_announced e st _ (ci_keyed w Hw)) as Ha. pose proof (run_stmt_events e st (cw_table w)) as Hev.
  pose proof (fun k => run_stmt_avail e st (cw_table w) k) as Hav. pose proof (fun k => run_stmt_settles e st (cw_table w) k) as Hse.
  destruct (run_stmt e st (cw_table w)) as [t' evs]. cbn [fst snd] in *. constructor; cbn [cw_table cw_procs cw_log].
  - by eapply keyed_step; [apply ci_keyed, Hw| |].
  - by apply rows_ok_step with (t := cw_table w); [exact (ci_rows w Hw)| |].
  - apply procs_grow, Hw.
  - apply events_grow; [apply Hw|]. destruct Hev as [Hev|(id & status & res & _ & -> & _)]; [|by repeat constructor].
    eapply Forall_impl; [exact Hev|]. by intros [].
  - intros k Hs. assert (Hs' : forall c, inserted (cw_log w) c -> cm_id c = k -> cm_type c <> STOP).
    { intros c Hc. apply Hs. by apply inserted_app. }
    destruct (ci_once w Hw k Hs') as (H1 & H2 & H3). destruct (Hse k (not_stop_row w k Hw Hs')) as (H4 & H5 & H6).
    specialize (Hav k). rewrite !count_if_app. lia.
Qed.

Lemma cworld_step_inv a w : action_ok a -> cw_inv w -> cw_inv (wstep a w).
Proof.
  destruct a as [p|n e|n|st e]; intros Ha Hw.
  - cbn [cworld_step]. destruct (is_start p) eqn:Hp; [|done]. constructor; cbn [cw_table cw_procs cw_log]; try apply Hw.
    + apply Forall_app. split; [apply Hw|]. repeat constructor. by destruct p.
    + intros k Hs. rewrite held_app, held_one. replace (holds k p) with 0%nat by (by destruct p). rewrite Nat.add_0_r. by apply Hw.
  - destruct (cw_procs w !! n) as [p|] eqn:Hn; [by eapply run_inv|]. cbn [cworld_step]. by rewrite Hn.
  - by apply crash_inv.
  - by apply stmt_inv.
Qed.

Lemma cw_initial_inv : cw_inv cw_initial.
Proof.
  constructor; cbn; [intros k c; by rewrite lookup_empty..|constructor|constructor|]. intros k _. by rewrite lookup_empty.
Qed.

Lemma cw_trace_inv acts w : Forall action_ok acts -> cw_inv w -> cw_inv (cw_trace sha256 dec redact validate acts w).
Proof.
  intros Ha. revert w. induction Ha as [|a acts Ha _ IH]; intros w Hw; [done|]. cbn. apply IH. by apply cworld_step_inv.
Qed.
End runs.

Section theorems.
Context (sha256 : string -> bytes)
        (dec : bytes -> bytes -> option string -> bytes -> bytes -> option bytes)
        (redact : string -> string)
        (validate : string -> string -> AgentResult -> result string (option (option string * json))).

Abbreviation wstep := (cworld_step sha256 dec redact validate).
Abbreviation reachable := (cw_reachable sha256 dec redact validate).
Abbreviation trace := (cw_trace sha256 dec redact validate).

(** ** What a run had around it *)

(** In some step of the run the row of device [did] named the agent [agentId]. *)
Definition named_in (acts : list CAction) (did agentId : string) : Prop :=
  exists n e d, CRun n e ∈ acts /\ ce_devices e !! did = Some d /\ dw_agentId d = agentId.

Definition given_in (acts : list CAction) (a : DirectArgs) : Prop := CSpawn (PDirect a) ∈ acts.

Definition keys_in (acts : list CAction) (k : CryptoEnv) : Prop := exists n e, CRun n e ∈ acts /\ ce_crypto e = k.

Lemma run_actions_ok acts : Forall (action_ok (named_in acts) (given_in acts) (keys_in acts)) acts.
Proof.
  apply Forall_forall. intros [p|n e|n|st e] H; cbn; [by destruct p| |done|done]. split; [|by exists n, e].
  intros did d Hd. by exists n, e, d.
Qed.

Lemma cw_run_inv acts : cw_inv sha256 dec (named_in acts) (given_in acts) (keys_in acts) (trace acts cw_initial).
Proof. apply cw_trace_inv; [apply run_actions_ok|apply cw_initial_inv]. Qed.

(** ** Theorems *)

(** C8: Whatever callers, agents, workers and the reaper do at once, with every send
    failure and crash: a command is handed to its agent at most once, it gets at
    most one outcome (the result of its agent, or its expiry by the reaper), and its
    result is passed to the handlers of its type at most once. The exception is the
    stop of a desktop stream, which is made to be repeated. *)
Theorem commands_are_delivered_once w k : reachable w ->
  (forall c, EvInserted c ∈ cw_log w -> cm_id c = k -> cm_type c <> STOP) ->
  (count_if (is_delivery k) (cw_log w) <= 1)%nat
  /\ (count_if (is_settling k) (cw_log w) <= 1)%nat /\ (count_if (is_handling k) (cw_log w) <= 1)%nat.
Proof. intros [acts ->] Hs. destruct (ci_once _ _ _ _ _ _ (cw_run_inv acts) k Hs) as (H1 & H2 & H3). lia. Qed.

(** C22: What goes over the socket of an agent is a command queued for the agent of a device,
    and the agent is the one the row of that very device named when some step of the run read
    the devices, or the one a caller that sends the command itself (a script, a wake-up) gave
    for it. What goes out in the answer to a poll is a command queued for the device and the
    consumer (agent or watchdog) that polls. The type is the one it was queued with. The
    payload is the stored one with its credentials decrypted with the keys of a step of the
    run; it is the stored one as it is only for the commands callers send themselves, and
    for a desktop stop that is sent again the two members of the stored one. *)
Theorem commands_reach_their_own_device acts dest d :
  let w := trace acts cw_initial in
  EvDelivered dest d ∈ cw_log w ->
  exists c, EvInserted c ∈ cw_log w /\ addressed (named_in acts) (given_in acts) dest c
    /\ carries sha256 dec (given_in acts) (keys_in acts) c d.
Proof.
  intros w Hd. pose proof (ci_events _ _ _ _ _ _ (cw_run_inv acts)) as H. rewrite Forall_forall in H. exact (H _ Hd).
Qed.

(** The abstract state of row [k] after the first [i] actions of a run. *)
Definition row_after (acts : list CAction) (w : CWorld) (k : string) (i : nat) : option AbsCommand :=
  abs <$> cw_table (trace (take i acts) w) !! k.

Lemma trace_snoc acts a w : trace (acts ++ [a]) w = wstep a (trace acts w).
Proof. revert w. induction acts as [|b acts IH]; intros w; [done|]. apply IH. Qed.

Lemma row_moves acts w k i : row_after acts w k i = row_after acts w k (S i) \/ life (row_after acts w k i) (row_after acts w k (S i)).
Proof.
  unfold row_after. destruct (acts !! i) as [a|] eqn:E.
  - rewrite (take_S_r _ _ a E), trace_snoc. apply edge_refines, cworld_step_edge.
  - apply lookup_ge_None in E. left. by rewrite !take_ge by lia.
Qed.

(** A move keeps the key. *)
Lemma life_key o o' a a' : o = o' \/ life o o' -> o = Some a -> o' = Some a' -> ab_key a' = ab_key a.
Proof. intros [->|H] -> E; [congruence|]. inversion H; subst; simplify_eq; done. Qed.

Lemma row_key acts w k i n a a' :
  row_after acts w k i = Some a -> row_after acts w k (i + n) = Some a' ->
  (forall j, (i <= j <= i + n)%nat -> row_after acts w k j <> None) -> ab_key a' = ab_key a.
Proof.
  intros Ha. revert a'. induction n as [|n IH]; intros a' Ha' Hp; [rewrite Nat.add_0_r in Ha'; congruence|].
  replace (i + S n)%nat with (S (i + n)) in Ha' by lia.
  destruct (row_after acts w k (i + n)) as [b|] eqn:Hb; [|by destruct (Hp (i + n)%nat ltac:(lia))].
  rewrite (life_key _ _ b a' (row_moves acts w k (i + n))) by done. apply IH; [done|]. intros j Hj. apply Hp. lia.
Qed.

Lemma finished_frozen acts w k c : cw_table w !! k = Some c -> live c = false -> cm_type c <> STOP -> cw_table (trace acts w) !! k = Some c.
Proof.
  revert w. induction acts as [|a acts IH]; intros w Hc Hl Hty; [done|]. cbn. apply IH; [|done|done].
  pose proof (cworld_step_edge sha256 dec redact validate a w k) as He. rewrite Hc in He. by apply edge_frozen.
Qed.

(** C11: The table refines a small life cycle. Along every run each action leaves a command
    where it is or makes one move of it (queued; handed out; returned; finished, once; withdrawn
    while queued; a desktop stop queued again unless it was cancelled); as long as its row
    is there its id, device, type and consumer stay; and once it is finished nothing
    changes its row, unless it is the stop of a desktop stream. *)
Theorem commands_refine_the_lifecycle acts w k :
  (forall i, row_after acts w k i = row_after acts w k (S i) \/ life (row_after acts w k i) (row_after acts w k (S i)))
  /\ (forall i n a a', row_after acts w k i = Some a -> row_after acts w k (i + n) = Some a' ->
       (forall j, (i <= j <= i + n)%nat -> row_after acts w k j <> None) -> ab_key a' = ab_key a)
  /\ (forall c, cw_table w !! k = Some c -> live c = false -> cm_type c <> STOP -> cw_table (trace acts w) !! k = Some c).
Proof. split_and!; [apply row_moves|apply row_key|apply finished_frozen]. Qed.
End theorems.
