(* ===== verification/CommandBehaviour.v ===== *)
(** * What the operations of the command queue do

    The expiry of stale commands, the tenant drain, the credentials of a payload,
    and the behaviours where the code does less than it means to. *)

From stdpp Require Import base gmap strings list option sorting.
From Stdlib Require Import ZArith Lia Ascii QArith Qround Lqa.
From S2P Require Import Prelude Json SecretCrypto CommandTypes CommandStore Commands.
From S2P Require Import CommandSystem CommandInvariants CommandTokens CommandTheorems.

Open Scope Z_scope.

(** ** Running an operation undisturbed *)

Section running.
Context (sha256 : string -> bytes)
        (dec : bytes -> bytes -> option string -> bytes -> bytes -> option bytes)
        (redact : string -> string)
        (validate : string -> string -> AgentResult -> result string (option (option string * json))).

Abbreviation step := (proc_step sha256 dec redact validate).

(** The process to its end, alone and in one environment. *)
Fixpoint run_proc (fuel : nat) (e : CEnv) (p : Proc) (t : CommandTable) : option (CommandTable * Answer) :=
  match fuel with
  | O => None
  | S f =>
      let r := step e p t in
      match sr_next r with
      | Next p' => run_proc f e p' (sr_table r)
      | Done a => Some (sr_table r, a)
      end
  end.

(** ** The reaper *)

Lemma limit_all {A} (n : Z) (l : list A) : Z.of_nat (length l) <= n -> limit n l = l.
Proof.
  revert n. induction l as [|x l IH]; intros n H; [done|]. cbn [limit length] in *.
  rewrite (proj2 (Z.ltb_lt 0 n)) by lia. rewrite IH; [done|lia].
Qed.

Lemma limit_sub {A} (n : Z) (l : list A) x : x ∈ limit n l -> x ∈ l.
Proof.
  revert n. induction l as [|y l IH]; intros n; cbn [limit]; [done|]. destruct (0 <? n); [|by intros ?%not_elem_of_nil].
  rewrite !elem_of_cons. intros [->|Hx]; [by left|right; by eapply IH].
Qed.

(** A row the reaper of now closes. *)
Definition expired (e : CEnv) (c : DeviceCommand) : bool :=
  staleCandidate (ce_now e) (ce_draining e) c && negb (stillFresh (ce_now e) c).

Definition closed (e : CEnv) (c : DeviceCommand) : DeviceCommand :=
  set_terminal c_failed (ce_now e) (staleResult c) false c.

(** The loop over selected rows that nothing else touches. *)
Lemma reap_loop_runs e now todo : forall n t,
  NoDup (cm_id <$> todo) -> (forall c, c ∈ todo -> t !! cm_id c = Some c /\ live c = true) ->
  exists t' n', (forall fuel, (length todo < fuel)%nat -> run_proc fuel e (PReapLoop now todo n) t = Some (t', AnsReaped n'))
    /\ (forall k, k ∉ cm_id <$> todo -> t' !! k = t !! k)
    /\ (forall c, c ∈ todo -> t' !! cm_id c = Some (if stillFresh now c then c else closed e c)).
Proof.
  induction todo as [|c todo IH]; intros n t Hnd Hin.
  { exists t, n. split; [intros [|f] Hf; [by apply Nat.nlt_0_r in Hf|done]|]. split; [done|]. by intros c ?%not_elem_of_nil. }
  rewrite fmap_cons in Hnd. apply NoDup_cons in Hnd as [Hni Hnd]. destruct (Hin c) as [Hc Hl]; [left|].
  set (t1 := if stillFresh now c then t else <[cm_id c := closed e c]> t). set (n1 := if stillFresh now c then n else S n).
  assert (Hstep : forall fuel, run_proc (S fuel) e (PReapLoop now (c :: todo) n) t = run_proc fuel e (PReapLoop now todo n1) t1).
  { intros fuel. cbn [run_proc proc_step step_reap_loop]. unfold t1, n1. destruct (stillFresh now c); [done|].
    unfold failStale, update1. rewrite Hc, Hl. done. }
  destruct (IH n1 t1 Hnd) as (t' & n' & Hrun & Hout & Hrows).
  { intros c' Hc'. destruct (Hin c') as [Hlk Hl']; [by right|]. split; [|done]. unfold t1. destruct (stillFresh now c); [done|].
    rewrite lookup_insert_ne; [done|]. intros Heq. apply Hni. rewrite Heq. by apply list_elem_of_fmap_2. }
  exists t', n'. split; [|split].
  - intros [|f] Hf; [by apply Nat.nlt_0_r in Hf|]. rewrite Hstep. apply Hrun. cbn in Hf. lia.
  - intros k Hk. rewrite fmap_cons, not_elem_of_cons in Hk. destruct Hk as [Hk1 Hk2]. rewrite Hout by done. unfold t1.
    destruct (stillFresh now c); [done|]. by rewrite lookup_insert_ne.
  - intros c' [->|Hc']%elem_of_cons; [|by apply Hrows]. rewrite Hout by done. unfold t1. destruct (stillFresh now c); [done|].
    by rewrite lookup_insert_eq.
Qed.

(** The rows a query returns, keyed, have distinct ids. *)
Lemma keyed_select_ids p (t : CommandTable) : keyed t -> NoDup (cm_id <$> sql_select p t).
Proof.
  intros Hk. unfold sql_select, sql_rows.
  assert (Hkeys : forall l, (forall k c, (k, c) ∈ l -> cm_id c = k) -> NoDup l.*1 -> NoDup (cm_id <$> List.filter p l.*2)).
  { induction l as [|[k c] l IH]; intros Hl Hnd; cbn; [constructor|]. rewrite fmap_cons in Hnd. apply NoDup_cons in Hnd as [Hni Hnd].
    assert (IH' := IH (fun k' c' H => Hl k' c' ltac:(by right)) Hnd). destruct (p c); [|done].
    rewrite fmap_cons. apply NoDup_cons. split; [|done]. intros (c' & Hid & [Hc' _]%list_filter_elem)%list_elem_of_fmap.
    apply list_elem_of_fmap in Hc' as ([k' c''] & -> & Hin). apply Hni. rewrite <- (Hl k c ltac:(left)), Hid.
    cbn. rewrite (Hl k' c'' ltac:(by right)). by apply (list_elem_of_fmap_2 fst) in Hin. }
  apply Hkeys; [|apply NoDup_fst_map_to_list]. intros k c H%elem_of_map_to_list. by apply Hk.
Qed.

Lemma stale_in_table now cap draining t c : keyed t -> c ∈ staleCommands now cap draining t ->
  t !! cm_id c = Some c /\ staleCandidate now draining c = true.
Proof.
  unfold staleCommands. intros Hk H%limit_sub. rewrite merge_sort_Permutation in H. apply sql_select_elem in H as [[k Hc] Hs].
  by rewrite (Hk k c Hc).
Qed.

Lemma candidate_live now draining c : staleCandidate now draining c = true -> live c = true.
Proof. unfold staleCandidate. intros. by bool_hyps. Qed.

(** A run of the reaper closes the expired rows among those it selects. *)
Lemma reap_runs e raw t : keyed t ->
  NoDup (cm_id <$> staleCommands (ce_now e) (resolveMaxReapPerRun raw) (ce_draining e) t) ->
  exists t' n fuel0, (forall fuel, (fuel0 <= fuel)%nat -> run_proc fuel e (PReap raw) t = Some (t', AnsReaped n))
    /\ (forall k, k ∉ cm_id <$> staleCommands (ce_now e) (resolveMaxReapPerRun raw) (ce_draining e) t -> t' !! k = t !! k)
    /\ (forall c, c ∈ staleCommands (ce_now e) (resolveMaxReapPerRun raw) (ce_draining e) t ->
        t' !! cm_id c = Some (if stillFresh (ce_now e) c then c else closed e c)).
Proof.
  intros Hk Hnd. set (todo := staleCommands _ _ _ _) in *.
  destruct (reap_loop_runs e (ce_now e) todo 0 t Hnd) as (t' & n & Hrun & Hout & Hrows).
  { intros c Hc. destruct (stale_in_table _ _ _ _ _ Hk Hc) as [Hlk Hs]. split; [done|by eapply candidate_live]. }
  exists t', n, (S (S (length todo))). split; [|done]. intros [|fuel] Hf; [lia|]. cbn [run_proc proc_step]. apply Hrun. lia.
Qed.

Lemma limit_prefix {A} (n : Z) (l : list A) : exists l2, l = limit n l ++ l2.
Proof.
  revert n. induction l as [|x l IH]; intros n; cbn [limit]; [by exists []|]. destruct (0 <? n); [|by exists (x :: l)].
  destruct (IH (n - 1)) as [l2 Hl]. exists l2. cbn. by rewrite <- Hl.
Qed.

Lemma stale_ids now cap draining t : keyed t -> NoDup (cm_id <$> staleCommands now cap draining t).
Proof.
  intros Hk. unfold staleCommands. set (l := merge_sort _ _). destruct (limit_prefix cap l) as [l2 Hl].
  assert (Hnd : NoDup (cm_id <$> l)).
  { unfold l. rewrite merge_sort_Permutation. by apply keyed_select_ids. }
  rewrite Hl, fmap_app in Hnd. by apply NoDup_app in Hnd as [? _].
Qed.

(** A deadline is never shorter than what the query assumes, as long as a script
    does not ask for a negative time. *)
Definition sane_script (payload : json) : Prop :=
  match payload_get "timeoutSeconds" payload with JNum n => (0 <= numeral n)%Q | _ => True end.

Lemma timeout_at_least_shortest type payload : sane_script payload ->
  (inject_Z SHORTEST_TIMEOUT_MS <= getCommandTimeoutMs type payload)%Q.
Proof.
  intros Hs. unfold getCommandTimeoutMs. case_bool_decide.
  - unfold sane_script in Hs. change (inject_Z SHORTEST_TIMEOUT_MS) with (300000 # 1).
    change (inject_Z SCRIPT_GRACE_BUFFER_MS) with (300000 # 1). change (inject_Z 1000) with (1000 # 1).
    change (inject_Z DEFAULT_SCRIPT_TIMEOUT_S) with (300 # 1).
    destruct (payload_get "timeoutSeconds" payload) as [| | |n| | | |]; try lra.
  - rewrite <- Zle_Qle. repeat case_bool_decide; vm_compute; discriminate.
Qed.

Lemma within_false elapsed q : within elapsed q = false <-> (q <= inject_Z elapsed)%Q.
Proof.
  unfold within. destruct (Qlt_le_dec _ _) as [H|H]; split; try done. intros H'. exfalso. by apply (Qlt_not_le _ _ H).
Qed.

(** Past its deadline, by the clock that counts for it: since it was handed out,
    or since it was created. *)
Definition overdue (e : CEnv) (c : DeviceCommand) : Prop :=
  (getCommandTimeoutMs (cm_type c) (cm_payload c) < inject_Z (ce_now e - referenceTime c))%Q.

(** The commands the reaper looks after. *)
Definition reapable (e : CEnv) (c : DeviceCommand) : Prop :=
  live c = true /\ (cm_type c ∉ EXCLUDED_COMMAND_TYPES)
  /\ ~ (cm_type c = "self_uninstall"%string /\ ce_draining e (cm_deviceId c) = true).

(** The pre-filter of the query loses nothing that is overdue. *)
Lemma overdue_expired e c : reapable e c -> cm_createdAt c <= referenceTime c -> sane_script (cm_payload c) ->
  overdue e c -> expired e c = true.
Proof.
  intros (Hl & Hty & Hdr) Hc Hs Ho. unfold expired, staleCandidate, stillFresh, overdue in *.
  rewrite (proj2 (within_false _ _)) by (by apply Qlt_le_weak). rewrite Hl, bool_decide_eq_false_2 by done.
  pose proof (timeout_at_least_shortest (cm_type c) (cm_payload c) Hs) as Hmin.
  assert (SHORTEST_TIMEOUT_MS < ce_now e - referenceTime c) as Hlt.
  { rewrite Zlt_Qlt. by eapply Qle_lt_trans. }
  rewrite (proj2 (Z.ltb_lt _ _)) by lia. cbn.
  destruct (of_type "self_uninstall" c && ce_draining e (cm_deviceId c)) eqn:E; [|done].
  exfalso. unfold of_type in E. bool_hyps. by apply Hdr.
Qed.

(** C25: When no more rows pass the filter of its query than its cap, a run of the
    reaper ends, closes exactly those of them whose deadline has passed and leaves
    every other row as it is; and every live command of a kind it looks after that
    is past its deadline is closed: the age filter loses nothing, because no
    deadline is shorter than it. (For a row handed out no earlier than it was
    created, and a script that does not ask for a negative time.) *)
Theorem overdue_commands_are_closed e raw t : keyed t ->
  Z.of_nat (length (sql_select (staleCandidate (ce_now e) (ce_draining e)) t)) <= resolveMaxReapPerRun raw ->
  exists t' n fuel0, (forall fuel, (fuel0 <= fuel)%nat -> run_proc fuel e (PReap raw) t = Some (t', AnsReaped n))
    /\ forall k c, t !! k = Some c ->
       t' !! k = Some (if expired e c then closed e c else c)
       /\ (reapable e c -> cm_createdAt c <= referenceTime c -> sane_script (cm_payload c) -> overdue e c ->
           t' !! k = Some (closed e c)).
Proof.
  intros Hk Hcap. destruct (reap_runs e raw t Hk (stale_ids _ _ _ _ Hk)) as (t' & n & fuel0 & Hrun & Hout & Hrows).
  exists t', n, fuel0. split; [done|]. intros k c Hc. pose proof (Hk k c Hc) as <-.
  assert (Hmain : t' !! cm_id c = Some (if expired e c then closed e c else c)).
  { unfold expired. destruct (staleCandidate (ce_now e) (ce_draining e) c) eqn:Hs.
    - rewrite Hrows; [by destruct (stillFresh _ c)|]. unfold staleCommands.
      rewrite limit_all; rewrite merge_sort_Permutation; [apply sql_select_elem; eauto|done].
    - rewrite Hout, Hc; [done|]. intros (c' & Hid & Hc')%list_elem_of_fmap.
      destruct (stale_in_table _ _ _ _ _ Hk Hc') as [Hlk Hs']. rewrite <- Hid in Hlk. congruence. }
  split; [done|]. intros Hr Ht Hs Ho. rewrite Hmain. by rewrite overdue_expired.
Qed.

Lemma limit_split {A} (n : Z) (l : list A) x : x ∈ limit n l -> exists l1 l2, l = l1 ++ x :: l2 /\ Z.of_nat (length l1) < n.
Proof.
  revert n. induction l as [|y l IH]; intros n; cbn [limit]; [by intros ?%not_elem_of_nil|].
  destruct (Z.ltb_spec 0 n); [|by intros ?%not_elem_of_nil]. intros [->|Hx]%elem_of_cons; [by exists [], l|].
  destruct (IH _ Hx) as (l1 & l2 & -> & Hlen). exists (y :: l1), l2. split; [done|]. cbn. lia.
Qed.

(** The query orders by age before it knows the deadlines: as many older rows that
    may still wait as the cap allows keep an overdue row out, run after run. *)
Lemma backlog_hides_overdue_commands e raw t c (bs : list DeviceCommand) : keyed t ->
  t !! cm_id c = Some c -> NoDup bs -> resolveMaxReapPerRun raw <= Z.of_nat (length bs) ->
  (forall b, b ∈ bs -> t !! cm_id b = Some b /\ staleCandidate (ce_now e) (ce_draining e) b = true
                       /\ cm_createdAt b < cm_createdAt c) ->
  exists t' n fuel0, (forall fuel, (fuel0 <= fuel)%nat -> run_proc fuel e (PReap raw) t = Some (t', AnsReaped n))
    /\ t' !! cm_id c = Some c.
Proof.
  intros Hk Hc Hnd Hlen Hbs. destruct (reap_runs e raw t Hk (stale_ids _ _ _ _ Hk)) as (t' & n & fuel0 & Hrun & Hout & _).
  exists t', n, fuel0. split; [done|]. rewrite Hout; [done|]. intros (c' & Hid & Hc')%list_elem_of_fmap.
  destruct (stale_in_table _ _ _ _ _ Hk Hc') as [Hlk _]. rewrite <- Hid, Hc in Hlk. assert (c' = c) as -> by congruence. clear Hlk Hid.
  unfold staleCommands in Hc'. set (l := merge_sort _ _) in Hc'.
  destruct (limit_split _ _ _ Hc') as (l1 & l2 & Hl & Hlt).
  assert (Hsort : StronglySorted created_le (l1 ++ c :: l2)).
  { rewrite <- Hl. apply StronglySorted_merge_sort; [intros a b d|intros a b]; unfold created_le; lia. }
  assert (Hsub : bs ⊆ l1).
  { intros b Hb. destruct (Hbs b Hb) as (Hlk & Hs & Hage). assert (Hin : b ∈ l).
    { unfold l. rewrite merge_sort_Permutation. apply sql_select_elem. eauto. }
    rewrite Hl, elem_of_app, elem_of_cons in Hin. destruct Hin as [?|[->|Hin]]; [done|lia|].
    apply StronglySorted_app_1_r, StronglySorted_cons in Hsort as [Hall _]. rewrite Forall_forall in Hall.
    specialize (Hall b Hin). unfold created_le in Hall. lia. }
  pose proof (submseteq_length _ _ (NoDup_submseteq _ _ Hnd Hsub)). lia.
Qed.
End running.

(** ** The drain of a tenant *)

(** Nothing to change: the table stays as it is. *)
Lemma sql_update_id {A} (p : A -> bool) f (t : gmap string A) : (forall k c, t !! k = Some c -> p c = false) -> sql_update p f t = t.
Proof.
  intros H. apply map_eq. intros k. rewrite lookup_sql_update. destruct (t !! k) as [c|] eqn:E; [cbn; by rewrite (H k c E)|done].
Qed.

Lemma insert_all_mono cs t t' k c : insert_all cs t = Some t' -> t !! k = Some c -> t' !! k = Some c.
Proof. intros H Hc. destruct (insert_all_row _ _ _ k H) as [[Heq _]|(Hn & _)]; congruence. Qed.

Lemma insert_all_present cs t t' c : insert_all cs t = Some t' -> c ∈ cs -> t' !! cm_id c = Some c.
Proof.
  revert t. induction cs as [|x cs IH]; intros t H Hc; [by apply not_elem_of_nil in Hc|]. cbn [insert_all] in H.
  destruct (insert1 x t) as [t1|] eqn:E; [|done]. apply elem_of_cons in Hc as [->|Hc]; [|by eauto].
  apply insert1_spec in E as [_ ->]. eapply insert_all_mono; [exact H|]. by rewrite lookup_insert_eq.
Qed.

(** The live commands of the drained devices are uninstalls, and each has one. *)
Definition drained (devs : list string) (t : CommandTable) : Prop :=
  (forall d, d ∈ devs -> exists k c, t !! k = Some c /\ cm_deviceId c = d /\ liveUninstall c = true)
  /\ (forall k c, t !! k = Some c -> cm_deviceId c ∈ devs -> live c = true -> cm_type c = "self_uninstall"%string).

Lemma drain_drains devs u ids now dbNow t t' r :
  queueDrainUninstalls devs u ids now dbNow t = Some (t', r) -> drained devs t'.
Proof.
  unfold queueDrainUninstalls. destruct devs as [|d0 devs0]; [intros [= -> _]; split; [by intros d ?%not_elem_of_nil|by intros k c _ ?%not_elem_of_nil]|].
  set (devs := d0 :: devs0). set (t1 := cancelOthers devs _ now t). set (queued := cm_deviceId <$> _).
  destruct (insert_all _ t1) as [t2|] eqn:E; [|done]. intros [= -> _]. split.
  - intros d Hd. destruct (decide (d ∈ queued)) as [Hq|Hq].
    + apply list_elem_of_fmap in Hq as (c & -> & Hc). apply sql_select_elem in Hc as [[k Hk] Hc]. bool_hyps.
      exists k, c. split; [by eapply insert_all_mono|done].
    + assert (Hf : d ∈ List.filter (fun d => negb (bool_decide (d ∈ queued))) devs).
      { apply list_filter_elem. split; [done|]. by rewrite bool_decide_eq_false_2. }
      apply list_elem_of_lookup in Hf as [n Hn].
      set (c := new_command (ids n) d "self_uninstall" (JObj [("removeConfig"%string, JBool true)]) role_agent u dbNow).
      exists (cm_id c), c. split; [|done]. apply (insert_all_present _ _ _ _ E). unfold uninstalls.
      apply elem_of_lookup_imap. by exists n, d.
  - intros k c Hc Hd Hl. destruct (insert_all_row _ _ _ k E) as [[Heq _]|(_ & c' & Hc' & _ & Heq)]; rewrite Heq in Hc.
    + unfold t1, cancelOthers in Hc. apply sql_update_Some in Hc as (c0 & Hc0 & [[-> Hp]|[-> Hp]]).
      * rewrite Hl, bool_decide_eq_true_2, andb_true_r in Hp by done. cbn in Hp. unfold of_type in Hp. by bool_hyps.
      * rewrite not_live_terminal in Hl. done.
    + apply uninstalls_elem in Hc' as (n & d & _ & ->). by simplify_eq.
Qed.

(** When the offboarding of a tenant queues its uninstalls, every device ends up
    with one that is waiting or handed out and with no other live command, and
    repeating the drain queues and cancels nothing. *)
Lemma drain_leaves_only_uninstalls devs u ids now dbNow t t' r :
  queueDrainUninstalls devs u ids now dbNow t = Some (t', r) ->
  drained devs t'
  /\ forall u' ids' now' dbNow', queueDrainUninstalls devs u' ids' now' dbNow' t' = Some (t', (length devs, 0, 0)%nat).
Proof.
  intros H. pose proof (drain_drains _ _ _ _ _ _ _ _ H) as [Hhave Honly]. split; [done|]. intros u' ids' now' dbNow'.
  unfold queueDrainUninstalls. destruct devs as [|d0 devs0]; [done|]. set (devs := d0 :: devs0) in *.
  assert (Hno : forall k c, t' !! k = Some c -> bool_decide (cm_deviceId c ∈ devs) && negb (of_type "self_uninstall" c) && live c = false).
  { intros k c Hc. destruct (live c) eqn:Hl; [|by rewrite andb_false_r]. case_bool_decide as Hd; [|done]. unfold of_type.
    by rewrite bool_decide_eq_true_2 by (by eapply Honly). }
  assert (Ht1 : cancelOthers devs "tenant_offboarding" now' t' = t') by by apply sql_update_id. rewrite Ht1.
  rewrite (filter_none _ devs).
  - cbn [uninstalls imap insert_all length]. do 3 f_equal. unfold sql_select. rewrite filter_none; [done|].
    intros c [k Hc]%sql_rows_elem. by apply (Hno k).
  - intros d Hd. apply negb_false_iff, bool_decide_eq_true_2. destruct (Hhave d Hd) as (k & c & Hc & <- & Hl).
    apply list_elem_of_fmap_2, sql_select_elem. split; [eauto|]. rewrite bool_decide_eq_true_2 by done. done.
Qed.

(** ** Credentials in payloads *)

Section members.
Implicit Types (out : list (string * json)) (k f : string) (v : json).

Lemma get_assign k v out : json_get k (assign_prop k v out) = v.
Proof.
  induction out as [|[k' v'] out IH]; cbn; [by rewrite bool_decide_eq_true_2|].
  case_bool_decide as E; cbn; [by rewrite bool_decide_eq_true_2|by rewrite bool_decide_eq_false_2].
Qed.

Lemma get_assign_ne k f v out : k <> f -> json_get f (assign_prop k v out) = json_get f out.
Proof.
  intros Hne. induction out as [|[k' v'] out IH]; cbn; [by rewrite bool_decide_eq_false_2|].
  destruct (decide (k' = k)) as [->|Hk].
  - rewrite bool_decide_eq_true_2 by done. cbn. by rewrite bool_decide_eq_false_2.
  - rewrite bool_decide_eq_false_2 by done. cbn. case_bool_decide; [done|apply IH].
Qed.

Lemma assign_twice k v w out : assign_prop k v (assign_prop k w out) = assign_prop k v out.
Proof.
  induction out as [|[k' v'] out IH]; cbn; [by rewrite bool_decide_eq_true_2|].
  case_bool_decide as E; cbn; [by rewrite bool_decide_eq_true_2|by rewrite bool_decide_eq_false_2, IH].
Qed.

Lemma assign_get k out : json_get k out <> JUndef -> assign_prop k (json_get k out) out = out.
Proof.
  induction out as [|[k' v'] out IH]; cbn; [done|]. case_bool_decide as E; [by subst|]. intros H. by rewrite IH.
Qed.

Lemma assign_swap k f v w out : k <> f -> json_get k out <> JUndef -> json_get f out <> JUndef ->
  assign_prop k v (assign_prop f w out) = assign_prop f w (assign_prop k v out).
Proof.
  intros Hne. induction out as [|[k' v'] out IH]; cbn [json_get assign_prop]; [done|].
  destruct (decide (k' = k)) as [->|Hk].
  - rewrite (bool_decide_eq_true_2 (k = k)), (bool_decide_eq_false_2 (k = f)) by done. intros _ Hf.
    cbn [assign_prop]. by rewrite (bool_decide_eq_true_2 (k = k)), (bool_decide_eq_false_2 (k = f)) by done.
  - rewrite (bool_decide_eq_false_2 (k' = k)) by done. intros Hget. destruct (decide (k' = f)) as [->|Hf'].
    + rewrite (bool_decide_eq_true_2 (f = f)) by done. intros _. cbn [assign_prop].
      by rewrite (bool_decide_eq_false_2 (f = k)), (bool_decide_eq_true_2 (f = f)) by done.
    + rewrite (bool_decide_eq_false_2 (k' = f)) by done. intros Hgf. cbn [assign_prop].
      rewrite (bool_decide_eq_false_2 (k' = k)), (bool_decide_eq_false_2 (k' = f)) by done. by rewrite IH.
Qed.
End members.

(** A field that [mapFields] rewrites. *)
Definition secret_text (v : json) : option string :=
  match v with JStr (String _ _ as s) => Some s | _ => None end.

Section map_fields.
Context (f g : nat -> string -> result CryptoError (option string)) (good : string -> Prop).
Hypothesis Hfg : forall n v r, good v -> f n v = Ok r ->
  exists c, r = Some c /\ c <> EmptyString /\ forall m, g m c = Ok (Some v).

Lemma mapFields_other n fields out out' k : mapFields f n fields out = Ok out' -> k ∉ fields -> json_get k out' = json_get k out.
Proof.
  revert n out. induction fields as [|x fields IH]; intros n out H Hk; cbn [mapFields] in H; [by simplify_eq|].
  apply not_elem_of_cons in Hk as [Hkx Hk]. repeat case_match; simplify_eq; try by eauto.
  rewrite (IH _ _ H Hk). by apply get_assign_ne.
Qed.

(** Assigning another member commutes with the rewriting. *)
Lemma mapFields_assign n fields out out' k v : mapFields f n fields out = Ok out' -> k ∉ fields -> json_get k out <> JUndef ->
  mapFields f n fields (assign_prop k v out) = Ok (assign_prop k v out').
Proof.
  revert n out. induction fields as [|x fields IH]; intros n out H Hk Hget; cbn [mapFields] in H |- *; [by simplify_eq|].
  apply not_elem_of_cons in Hk as [Hkx Hk]. rewrite get_assign_ne by done.
  destruct (json_get x out) as [| | | |[|ch s]| | |] eqn:E; try by apply IH.
  destruct (f n _) as [r|e]; [|done]. rewrite (assign_swap x k) by (done || by rewrite E).
  apply IH; [done|done|]. by rewrite get_assign_ne.
Qed.

(** Every such field is rewritten. *)
Lemma mapFields_all n fields out out' k s : NoDup fields -> mapFields f n fields out = Ok out' -> k ∈ fields ->
  secret_text (json_get k out) = Some s -> good s ->
  exists i c, f i s = Ok (Some c) /\ json_get k out' = JStr c.
Proof.
  revert n out. induction fields as [|x fields IH]; intros n out Hnd H Hk Hs Hgood; [by apply not_elem_of_nil in Hk|].
  apply NoDup_cons in Hnd as [Hx Hnd]. cbn [mapFields] in H. destruct (decide (k = x)) as [->|Hne].
  - assert (E : json_get x out = JStr s /\ s <> EmptyString) by (unfold secret_text in Hs; repeat case_match; by simplify_eq).
    destruct E as [E Hs']. rewrite E in H. destruct s as [|ch s']; [done|]. destruct (f n _) as [r|e] eqn:Ef; [|done].
    destruct (Hfg _ _ _ Hgood Ef) as (c & -> & _ & _). exists n, c. split; [done|].
    rewrite (mapFields_other _ _ _ _ _ H Hx). apply get_assign.
  - apply elem_of_cons in Hk as [->|Hk]; [done|].
    repeat case_match; simplify_eq; try (by eapply IH). eapply IH; try done. by rewrite get_assign_ne.
Qed.

Lemma mapFields_back n m fields out out' : NoDup fields ->
  (forall k s, k ∈ fields -> secret_text (json_get k out) = Some s -> good s) ->
  mapFields f n fields out = Ok out' -> mapFields g m fields out' = Ok out.
Proof.
  revert n m out out'. induction fields as [|x fields IH]; intros n m out out' Hnd Hgood H; [by simplify_eq|].
  apply NoDup_cons in Hnd as [Hx Hnd]. cbn [mapFields] in H.
  assert (Hgood' : forall k s, k ∈ fields -> secret_text (json_get k out) = Some s -> good s).
  { intros k s Hk. apply Hgood. by right. }
  destruct (secret_text (json_get x out)) as [s|] eqn:Es.
  - assert (E : json_get x out = JStr s /\ s <> EmptyString) by (unfold secret_text in Es; repeat case_match; by simplify_eq).
    destruct E as [E Hs]. rewrite E in H. destruct s as [|ch s']; [done|]. destruct (f n _) as [r|e] eqn:Ef; [|done].
    destruct (Hfg _ _ _ (Hgood x _ ltac:(left) Es) Ef) as (c & -> & Hc & Hg). cbn [of_secret] in H.
    assert (Hmid : json_get x out' = JStr c) by (rewrite (mapFields_other _ _ _ _ _ H Hx); apply get_assign).
    cbn [mapFields]. rewrite Hmid. destruct c as [|cc c']; [done|]. rewrite Hg. cbn [of_secret]. apply IH with (n := S n); [done|done|].
    apply (mapFields_assign _ _ _ _ x (JStr (String ch s'))) in H; [|done|by rewrite get_assign].
    rewrite assign_twice, <- E, assign_get in H by (by rewrite E). by rewrite <- E.
  - assert (Hsame : json_get x out' = json_get x out).
    { repeat case_match; simplify_eq; by rewrite (mapFields_other _ _ _ _ _ H Hx). }
    cbn [mapFields]. rewrite Hsame. unfold secret_text in Es. repeat case_match; simplify_eq; by eapply IH.
Qed.
End map_fields.

Section credentials.
Context (sha256 : string -> bytes).
Context {enc dec} `{!Aead enc dec}.

Lemma encryptSecret_some env iv v options r : v <> EmptyString -> encryptSecret sha256 enc env iv (Some v) options = Ok r ->
  exists c, r = Some c.
Proof.
  intros Nv H. unfold encryptSecret in H. destruct v as [|ch v']; [done|]. case_match; [simplify_eq; eauto|].
  result_ok H. destruct a; result_ok H; repeat case_match; simplify_eq; eauto.
Qed.

Lemma encrypted_looks_encrypted env iv v options c : v <> EmptyString -> isEncryptedSecret v = false ->
  encryptSecret sha256 enc env iv (Some v) options = Ok (Some c) -> isEncryptedSecret c = true.
Proof.
  intros Nv Hne H. destruct (encrypt_shape _ _ _ _ _ _ Nv Hne H) as [(k & key & aad & _ & _ & _ & ->)|[(k & key & _ & _ & _ & ->)|(key & _ & _ & ->)]].
  - apply v3_prefix.
  - apply v2_prefix.
  - apply v1_prefix.
Qed.

(** C36: The credentials of a command are encrypted in the stored payload, and the payload
    decrypted for delivery is the one the caller gave, member by member: for a payload none of
    whose strings already looks encrypted. (A credential that begins with one of the
    envelopes' prefixes, such as [enc:v1:], is taken for encrypted and stored as given.) *)
Theorem command_credentials_roundtrip env ivs type payload out :
  (forall n, Forall is_byte (ivs n) /\ ivs n <> []) ->
  (forall k s, json_get k payload = JStr s -> isEncryptedSecret s = false) ->
  encryptSensitivePayloadFields sha256 enc env ivs type payload = Ok out ->
  decryptSensitivePayloadFields sha256 dec env type (JObj out) = Ok (JObj payload)
  /\ forall k s, type = "encryption_rotate_key"%string -> k = "password"%string \/ k = "currentRecoveryKey"%string ->
      json_get k payload = JStr s -> s <> EmptyString ->
      exists c, json_get k out = JStr c /\ isEncryptedSecret c = true.
Proof.
  intros Hiv Hplain H. unfold encryptSensitivePayloadFields, decryptSensitivePayloadFields in *.
  destruct (SENSITIVE_PAYLOAD_FIELDS type) as [| |fields] eqn:Ef.
  { simplify_eq. split; [done|]. intros k s ->. done. }
  { done. }
  assert (fields = ["password"; "currentRecoveryKey"]%string) as ->.
  { unfold SENSITIVE_PAYLOAD_FIELDS in Ef. repeat case_bool_decide; by simplify_eq. }
  assert (Hnd : NoDup ["password"; "currentRecoveryKey"]%string) by (repeat constructor; set_solver).
  set (good := fun s => s <> EmptyString /\ isEncryptedSecret s = false).
  assert (Hfg : forall n v r, good v -> encryptSecret sha256 enc env (ivs n) (Some v) commandOptions = Ok r ->
    exists c, r = Some c /\ c <> EmptyString
              /\ forall m : nat, decryptSecret sha256 dec env (Some c) commandOptions = Ok (Some v)).
  { intros n v r [Nv Hne] Hr. destruct (encryptSecret_some _ _ _ _ _ Nv Hr) as [c ->]. exists c. split; [done|].
    pose proof (encrypted_looks_encrypted _ _ _ _ _ Nv Hne Hr) as Hc. split; [by intros ->|]. intros _.
    destruct (Hiv n). exact (decrypt_encrypted sha256 env (ivs n) v commandOptions false c ltac:(done) ltac:(done) Nv Hne Hr). }
  assert (Hgood : forall k s, secret_text (json_get k payload) = Some s -> good s).
  { intros k s Hs. unfold secret_text in Hs. repeat case_match; simplify_eq. split; [done|]. by eapply Hplain. }
  split.
  - rewrite (mapFields_back _ _ good Hfg 0 0 _ payload out Hnd (fun k s _ => Hgood k s) H). done.
  - intros k s _ Hk Hs Ns. assert (Hst : secret_text (json_get k payload) = Some s) by (rewrite Hs; by destruct s).
    destruct (mapFields_all _ _ good Hfg 0 _ payload out k s Hnd H) as (i & c & Hc & Hget); [|done|by eapply Hgood|].
    { rewrite !elem_of_cons. destruct Hk as [->| ->]; auto. }
    exists c. split; [done|]. destruct (Hgood k s Hst) as [_ Hne]. by eapply encrypted_looks_encrypted.
Qed.
End credentials.
