(* ===== verification/CommandRaces.v ===== *)
(** * Races and witnesses of the command queue

    Concrete runs: what a caller, an agent and the reaper can do to each other, and
    an instance of every theorem of the command queue. *)

From stdpp Require Import base gmap strings list option sorting.
From Stdlib Require Import ZArith Lia Ascii QArith.
From S2P Require Import Prelude Json SecretCrypto CommandTypes CommandStore Commands.
From S2P Require Import CommandSystem CommandInvariants CommandTokens CommandTheorems CommandBehaviour.

Open Scope Z_scope.

(** ** A device and its surroundings *)

Definition cmdId : string := "0a1b2c3d-0000-4000-8000-000000000001".

Definition demo_device : DeviceRow :=
  {| dw_id := "dev"; dw_agentId := "agent"; dw_orgId := "org"; dw_status := "online"; dw_watchdogLastSeen := None;
     dw_tokenSuspended := false |}.

(** At time [now]; the socket is open, and takes frames when [sendOk]. *)
Definition demo_cenv (now : Z) (sendOk : bool) : CEnv :=
  {| ce_now := now; ce_clock := fun n => now + Z.of_nat n; ce_dbNow := now; ce_newId := cmdId;
     ce_newIds := fun n => dec (Z.of_nat n); ce_devices := {[ "dev"%string := demo_device ]};
     ce_connected := fun _ => true; ce_sendOk := sendOk; ce_locked := fun _ => false; ce_draining := fun _ => false;
     ce_auditOk := true; ce_queryOk := true; ce_crypto := demo_env |}.

Definition demo_exec (type : string) : ExecArgs :=
  {| xa_deviceId := "dev"; xa_type := type; xa_payload := JObj [("path"%string, JStr "/tmp/x")]; xa_userId := Some "user"%string;
     xa_timeoutMs := 30000; xa_preferHeartbeat := false; xa_targetRole := role_agent |}.

Definition demo_result : AgentResult :=
  {| ar_status := "completed"; ar_exitCode := JNum "0"; ar_stdout := Some "ok"%string; ar_stderr := None;
     ar_durationMs := JNum "12"; ar_error := None; ar_result := JUndef |}.

Section races.
Context (sha256 : string -> bytes)
        (dec : bytes -> bytes -> option string -> bytes -> bytes -> option bytes)
        (redact : string -> string)
        (validate : string -> string -> AgentResult -> result string (option (option string * json))).

Abbreviation trace acts := (cw_trace sha256 dec redact validate acts cw_initial).

(** The socket refuses the frame three times; then the device polls. *)
Definition acts_unreachable (type : string) : list CAction :=
  CSpawn (PExec (demo_exec type)) :: CRun 0 (demo_cenv 0 true) :: CRun 0 (demo_cenv 1 true) :: CRun 0 (demo_cenv 2 true)
  :: CRun 0 (demo_cenv 3 false) :: CRun 0 (demo_cenv 503 false) :: CRun 0 (demo_cenv 1003 false) :: CRun 0 (demo_cenv 1004 true)
  :: CSpawn (PBatch "dev" role_agent false) :: CRun 0 (demo_cenv 5000 true) :: CRun 0 (demo_cenv 5001 true) :: [].

(** For every interactive type, [executeCommand] can answer that the device is not
    reachable although the command is then handed to the agent: after the failed
    sends it puts the command back in the queue, where the next poll collects it. *)
Lemma unreachable_commands_still_run type : interactive type = true ->
  let w := trace (acts_unreachable type) in
  AnsResult (with_commandId cmdId (failed_result DEVICE_UNREACHABLE_ERROR)) ∈ cw_answers w
  /\ exists d, EvDelivered (ToPoll "dev" role_agent) d ∈ cw_log w /\ dc_id d = cmdId /\ dc_type d = type.
Proof.
  intros Hi. unfold interactive in Hi. apply bool_decide_eq_true in Hi. unfold INTERACTIVE_COMMAND_TYPES in Hi.
  repeat (apply elem_of_cons in Hi as [->|Hi]); [..|by apply not_elem_of_nil in Hi].
  all: vm_compute; split; [left|]; eexists; (split; [repeat (first [left | right])|]); done.
Qed.

(** A command waits ten minutes; the reaper selects it, the device polls and gets
    it, the reaper then closes it. *)
Definition acts_expired_after_delivery : list CAction :=
  CStmt (SQueue {| qa_deviceId := "dev"; qa_type := "list_processes"; qa_payload := JObj []; qa_userId := None;
                   qa_preferHeartbeat := false; qa_expectedOrgId := None |}) (demo_cenv 0 true)
  :: CSpawn (PReap 5000) :: CRun 0 (demo_cenv 600000 true)
  :: CSpawn (PBatch "dev" role_agent false) :: CRun 1 (demo_cenv 600001 true) :: CRun 1 (demo_cenv 600002 true)
  :: CRun 0 (demo_cenv 600003 true) :: [].

(** The reaper can close a command just after a poll handed it over: it decides on the
    row it read and its update accepts a row that is sent by now, so the row says
    that the agent never received the command, and the agent's result is dropped. *)
Lemma reaper_closes_a_delivered_command :
  let w := trace acts_expired_after_delivery in
  (exists d, EvDelivered (ToPoll "dev" role_agent) d ∈ cw_log w /\ dc_id d = cmdId)
  /\ exists c, cw_table w !! cmdId = Some c /\ cm_status c = c_failed /\ cm_executedAt c = Some 600001
     /\ payload_get "error" (cm_result c)
        = JStr "Command expired: agent never received the command (5 min timeout)".
Proof.
  vm_compute. split; [eexists; split; [repeat (first [left | right])|done]|]. eexists. split; [reflexivity|]. done.
Qed.

(** A stop of a backup that a poll collects in time is still reported as not
    dispatched: the delete finds no pending row, and its answer is not looked at. *)
Lemma backup_stop_reported_lost_runs :
  exists acts, let w := trace acts in
  AnsError "Backup stop could not be dispatched immediately" ∈ cw_answers w
  /\ exists d, EvDelivered (ToPoll "dev" role_agent) d ∈ cw_log w /\ dc_id d = cmdId /\ dc_type d = "backup_stop"%string.
Proof.
  exists (CSpawn (queueBackupStopCommand "dev" None) :: CRun 0 (demo_cenv 0 true) :: CRun 0 (demo_cenv 1 true)
          :: CRun 0 (demo_cenv 2 true) :: CRun 0 (demo_cenv 3 false) :: CRun 0 (demo_cenv 4 true)
          :: CSpawn (PBatch "dev" role_agent false) :: CRun 1 (demo_cenv 5 true) :: CRun 1 (demo_cenv 6 true)
          :: CRun 0 (demo_cenv 7 true) :: []).
  vm_compute. split; [repeat (first [left | right])|]. eexists. split; [repeat (first [left | right])|done].
Qed.

(** The two ways to report a result treat the credentials of a payload
    differently: over HTTP it is blanked, over the socket it stays in the table. *)
Lemma socket_results_keep_credentials e c did agentId res out err t :
  t !! cm_id c = Some c -> accepts did role_agent c = true -> hasSensitivePayload (cm_type c) = true ->
  (exists c', sr_table (proc_step sha256 dec redact validate e (PRestCas did role_agent c res out err) t) !! cm_id c = Some c'
              /\ live c' = false /\ cm_payload c' = JNull)
  /\ (exists c', sr_table (proc_step sha256 dec redact validate e (PWsCas agentId did c res out err) t) !! cm_id c = Some c'
              /\ live c' = false /\ cm_payload c' = cm_payload c).
Proof.
  intros Hc Ha Hs. cbn [proc_step]. unfold step_rest_cas, step_ws_cas, restResultCas, wsResultCas, update1. rewrite Hc, Ha, Hs. split.
  - destruct err; cbn [emit sr_table]; rewrite lookup_insert_eq; (eexists; split; [done|]);
      rewrite not_live_terminal; cbn; by rewrite terminalStatus_terminal.
  - cbn [emit sr_table]. rewrite lookup_insert_eq. eexists. split; [done|]. rewrite not_live_terminal. cbn. by rewrite terminalStatus_terminal.
Qed.

(** A malformed result is audited when it comes over the socket, and is not when
    it comes over HTTP. *)
Lemma rejected_results_are_audited_on_one_side e c did agentId res out reason t :
  t !! cm_id c = Some c -> accepts did role_agent c = true ->
  (forall ok, EvResultAudit (cm_id c) ok ∉ sr_events (proc_step sha256 dec redact validate e (PRestCas did role_agent c res out (Some reason)) t))
  /\ EvResultAudit (cm_id c) (succeeded res) ∈ sr_events (proc_step sha256 dec redact validate e (PWsCas agentId did c res out (Some reason)) t).
Proof.
  intros Hc Ha. cbn [proc_step]. unfold step_rest_cas, step_ws_cas, restResultCas, wsResultCas, update1. rewrite Hc, Ha. split.
  - cbn. intros ok [?|?%not_elem_of_nil]%elem_of_cons; done.
  - cbn. right. left.
Qed.

(** A stop command that was cancelled is not queued again. *)
Lemma cancelled_stop_is_not_rearmed e i c t :
  t !! ri_commandId i = Some c -> cm_status c = c_cancelled -> sr_table (step_rearm e i t) = t.
Proof.
  intros Hc Hs. unfold step_rearm, rearmUpdate, update1, is_status. rewrite Hc, Hs. cbn. repeat case_match; done.
Qed.
End races.

(** ** Witnesses *)

Definition no_validation (type id : string) (r : AgentResult) : result string (option (option string * json)) := Ok None.
Abbreviation demo_trace acts := (cw_trace of_text toy_dec (fun s => s) no_validation acts cw_initial).

(** [executeCommand] runs to its answer: sent over the socket, answered, read. *)
Definition acts_answered : list CAction :=
  CSpawn (PExec (demo_exec "file_delete")) :: CRun 0 (demo_cenv 0 true) :: CRun 0 (demo_cenv 1 true) :: CRun 0 (demo_cenv 2 true)
  :: CRun 0 (demo_cenv 3 true) :: CSpawn (PWs "agent" (Some "dev"%string) cmdId demo_result false)
  :: CRun 1 (demo_cenv 10 true) :: CRun 1 (demo_cenv 11 true) :: CRun 1 (demo_cenv 12 true) :: CRun 0 (demo_cenv 500 true) :: [].

Example answered :
  cw_answers (demo_trace acts_answered)
  = [AnsSuccess; AnsResult (JObj [("status", JStr "completed"); ("exitCode", JNum "0"); ("stdout", JStr "ok");
                                  ("durationMs", JNum "12"); ("commandId", JStr cmdId)])]%string.
Proof. by vm_compute. Qed.

Lemma delivered_once_witness :
  count_if (is_delivery cmdId) (cw_log (demo_trace acts_answered)) = 1%nat
  /\ (count_if (is_delivery cmdId) (cw_log (demo_trace acts_answered)) <= 1)%nat
  /\ (count_if (is_settling cmdId) (cw_log (demo_trace acts_answered)) <= 1)%nat
  /\ (count_if (is_handling cmdId) (cw_log (demo_trace acts_answered)) <= 1)%nat.
Proof.
  split; [by vm_compute|].
  apply (commands_are_delivered_once of_text toy_dec (fun s => s) no_validation (demo_trace acts_answered) cmdId).
  - by exists acts_answered.
  - assert (Hall : Forall (fun ev => match ev with EvInserted c => cm_type c <> STOP | _ => True end) (cw_log (demo_trace acts_answered))).
    { vm_compute. repeat constructor; discriminate. }
    intros c Hc _. rewrite Forall_forall in Hall. exact (Hall _ Hc).
Defined.

Lemma own_device_witness :
  exists c, EvInserted c ∈ cw_log (demo_trace acts_answered)
    /\ addressed (named_in acts_answered) (given_in acts_answered) (ToSocket "agent") c
    /\ carries of_text toy_dec (given_in acts_answered) (keys_in acts_answered) c
         {| dc_id := cmdId; dc_type := "file_delete"; dc_payload := JObj [("path"%string, JStr "/tmp/x")] |}.
Proof.
  apply (commands_reach_their_own_device of_text toy_dec (fun s => s) no_validation acts_answered).
  vm_compute. repeat (first [left | right]).
Defined.

Lemma commands_lifecycle_witness :
  (forall i, row_after of_text toy_dec (fun s => s) no_validation acts_answered cw_initial cmdId i
             = row_after of_text toy_dec (fun s => s) no_validation acts_answered cw_initial cmdId (S i)
             \/ life (row_after of_text toy_dec (fun s => s) no_validation acts_answered cw_initial cmdId i)
                  (row_after of_text toy_dec (fun s => s) no_validation acts_answered cw_initial cmdId (S i)))
  /\ exists a, abs <$> cw_table (demo_trace acts_answered) !! cmdId = Some a /\ ab_phase a <> Queued.
Proof.
  split.
  - exact (proj1 (commands_refine_the_lifecycle of_text toy_dec (fun s => s) no_validation acts_answered cw_initial cmdId)).
  - vm_compute. eexists. split; [reflexivity|discriminate].
Defined.

Definition stale_command : DeviceCommand := new_command cmdId "dev" "list_processes" (JObj []) role_agent None 0.

Lemma overdue_closed_witness :
  exists t' n fuel0,
    (forall fuel, (fuel0 <= fuel)%nat ->
       run_proc of_text toy_dec (fun s => s) no_validation fuel (demo_cenv 600000 true) (PReap 0) {[ cmdId := stale_command ]}
       = Some (t', AnsReaped n))
    /\ t' !! cmdId = Some (closed (demo_cenv 600000 true) stale_command).
Proof.
  destruct (overdue_commands_are_closed of_text toy_dec (fun s => s) no_validation (demo_cenv 600000 true) 0 {[ cmdId := stale_command ]})
    as (t' & n & fuel0 & Hrun & Hrows).
  - intros k c Hc. apply lookup_singleton_Some in Hc as [<- <-]. reflexivity.
  - vm_compute. discriminate.
  - exists t', n, fuel0. split; [exact Hrun|]. destruct (Hrows cmdId stale_command) as [_ Hover]; [by vm_compute|]. apply Hover.
    + split; [by vm_compute|]. split; [apply (bool_decide_eq_true_1 _); by vm_compute|]. intros [_ Hd]. by vm_compute in Hd.
    + vm_compute. discriminate.
    + exact I.
    + by vm_compute.
Defined.

Lemma drain_witness :
  drained ["dev"%string] {[ "0"%string := new_command "0" "dev" "self_uninstall" (JObj [("removeConfig"%string, JBool true)]) role_agent None 7 ]}.
Proof.
  refine (proj1 (drain_leaves_only_uninstalls ["dev"%string] None (ce_newIds (demo_cenv 7 true)) 7 7 ∅ _ (1, 1, 0)%nat _)).
  by vm_compute.
Defined.

Definition rotate_payload : list (string * json) := [("password"%string, JStr "pw"); ("reason"%string, JStr "lost")].

Definition rotate_stored : list (string * json) :=
  match encryptSensitivePayloadFields of_text toy_enc demo_env (fun _ => demo_iv) "encryption_rotate_key" rotate_payload with
  | Ok out => out
  | Err _ => []
  end.

Lemma credentials_witness :
  decryptSensitivePayloadFields of_text toy_dec demo_env "encryption_rotate_key" (JObj rotate_stored) = Ok (JObj rotate_payload)
  /\ exists c, json_get "password" rotate_stored = JStr c /\ isEncryptedSecret c = true.
Proof.
  destruct (command_credentials_roundtrip of_text (enc := toy_enc) (dec := toy_dec) demo_env (fun _ => demo_iv)
              "encryption_rotate_key" rotate_payload rotate_stored) as [Hd Henc].
  - intros _. split; [exact demo_iv_bytes|discriminate].
  - intros k s Hs. unfold rotate_payload in Hs. cbn in Hs. repeat case_bool_decide; simplify_eq; by vm_compute.
  - by vm_compute.
  - split; [exact Hd|]. by apply (Henc "password"%string "pw"%string); [|left| |discriminate].
Defined.

Lemma unreachable_witness :
  AnsResult (with_commandId cmdId (failed_result DEVICE_UNREACHABLE_ERROR)) ∈ cw_answers (demo_trace (acts_unreachable "file_delete"))
  /\ exists d, EvDelivered (ToPoll "dev" role_agent) d ∈ cw_log (demo_trace (acts_unreachable "file_delete"))
               /\ dc_id d = cmdId /\ dc_type d = "file_delete"%string.
Proof.
  exact (unreachable_commands_still_run of_text toy_dec (fun s => s) no_validation "file_delete" eq_refl).
Defined.
