(* ===== verification/DeskStore.v ===== *)
(** * The service desk: tickets, their feed, time entries and parts

    The tables of db/schema/portal.ts ([tickets], [ticket_comments]), of
    db/schema/timeTracking.ts and the alert links, and the rows the desk looks up
    elsewhere: organizations, users, devices, categories, statuses and settings.
    Ids of tickets and of work are the database's random ids; the feed is named by
    position. Columns that no modelled decision reads are left out: the legacy
    ticket number, attachments, the mail thread keys, updated stamps. *)

From stdpp Require Import base gmap strings list option.
From Stdlib Require Import ZArith.
From S2P Require Import Prelude Json Money BillingStore.

(** ** Tickets *)

Inductive TicketStatus : Type := tks_new | tks_open | tks_pending | tks_on_hold | tks_resolved | tks_closed.
#[export] Instance TicketStatus_eq : EqDecision TicketStatus.
Proof. solve_decision. Defined.

Inductive TicketSlaPriority : Type := prio_low | prio_normal | prio_high | prio_urgent.
#[export] Instance TicketSlaPriority_eq : EqDecision TicketSlaPriority.
Proof. solve_decision. Defined.

Inductive TicketSource : Type := tsrc_portal | tsrc_email | tsrc_alert | tsrc_manual | tsrc_api | tsrc_ai.
#[export] Instance TicketSource_eq : EqDecision TicketSource.
Proof. solve_decision. Defined.

Record TicketHead : Type := {
  th_orgId : string;
  th_partnerId : option string;
  th_internalNumber : option string;
  th_source : TicketSource;
  th_createdAt : Z;
}.

(** The columns [updateTicketFields] may edit. *)
Record TicketFields : Type := {
  tf_subject : string;
  tf_description : option string;
  tf_categoryId : option string;
  tf_priority : TicketSlaPriority;
  tf_dueDate : option Z;
  tf_responseSlaMinutes : option Z;
  tf_resolutionSlaMinutes : option Z;
  tf_deviceId : option string;
  tf_tags : list string;
  tf_submittedBy : option string;
  tf_submitterName : option string;
  tf_submitterEmail : option string;
}.

(** The columns of the status, its stamps and the pause ledger. *)
Record TicketLife : Type := {
  tl_status : TicketStatus;
  tl_statusId : option string;
  tl_pendingReason : option string;
  tl_resolvedAt : option Z;
  tl_closedAt : option Z;
  tl_closedBy : option string;
  tl_resolutionNote : option string;
  tl_slaPausedAt : option Z;
  tl_slaPausedMinutes : option Z;
}.

Record Ticket : Type := {
  tk_head : TicketHead;
  tk_fields : TicketFields;
  tk_life : TicketLife;
  tk_assignedTo : option string;
  tk_firstResponseAt : option Z;
  tk_slaBreachedAt : option Z;
  tk_slaBreachReason : option string;
  tk_deletedAt : option Z;
  tk_deletedBy : option string;
}.

Definition tk_status (t : Ticket) : TicketStatus := tl_status (tk_life t).
Definition tk_orgId (t : Ticket) : string := th_orgId (tk_head t).

Definition set_head (f : TicketHead -> TicketHead) (t : Ticket) : Ticket :=
  {| tk_head := f (tk_head t); tk_fields := tk_fields t; tk_life := tk_life t; tk_assignedTo := tk_assignedTo t;
     tk_firstResponseAt := tk_firstResponseAt t; tk_slaBreachedAt := tk_slaBreachedAt t;
     tk_slaBreachReason := tk_slaBreachReason t; tk_deletedAt := tk_deletedAt t; tk_deletedBy := tk_deletedBy t |}.

Definition set_fields (f : TicketFields -> TicketFields) (t : Ticket) : Ticket :=
  {| tk_head := tk_head t; tk_fields := f (tk_fields t); tk_life := tk_life t; tk_assignedTo := tk_assignedTo t;
     tk_firstResponseAt := tk_firstResponseAt t; tk_slaBreachedAt := tk_slaBreachedAt t;
     tk_slaBreachReason := tk_slaBreachReason t; tk_deletedAt := tk_deletedAt t; tk_deletedBy := tk_deletedBy t |}.

Definition set_tlife (f : TicketLife -> TicketLife) (t : Ticket) : Ticket :=
  {| tk_head := tk_head t; tk_fields := tk_fields t; tk_life := f (tk_life t); tk_assignedTo := tk_assignedTo t;
     tk_firstResponseAt := tk_firstResponseAt t; tk_slaBreachedAt := tk_slaBreachedAt t;
     tk_slaBreachReason := tk_slaBreachReason t; tk_deletedAt := tk_deletedAt t; tk_deletedBy := tk_deletedBy t |}.

Definition set_assignee (a : option string) (t : Ticket) : Ticket :=
  {| tk_head := tk_head t; tk_fields := tk_fields t; tk_life := tk_life t; tk_assignedTo := a;
     tk_firstResponseAt := tk_firstResponseAt t; tk_slaBreachedAt := tk_slaBreachedAt t;
     tk_slaBreachReason := tk_slaBreachReason t; tk_deletedAt := tk_deletedAt t; tk_deletedBy := tk_deletedBy t |}.

Definition set_firstResponse (at_ : Z) (t : Ticket) : Ticket :=
  {| tk_head := tk_head t; tk_fields := tk_fields t; tk_life := tk_life t; tk_assignedTo := tk_assignedTo t;
     tk_firstResponseAt := Some at_; tk_slaBreachedAt := tk_slaBreachedAt t;
     tk_slaBreachReason := tk_slaBreachReason t; tk_deletedAt := tk_deletedAt t; tk_deletedBy := tk_deletedBy t |}.

Definition set_breach (at_ : option Z) (reason : option string) (t : Ticket) : Ticket :=
  {| tk_head := tk_head t; tk_fields := tk_fields t; tk_life := tk_life t; tk_assignedTo := tk_assignedTo t;
     tk_firstResponseAt := tk_firstResponseAt t; tk_slaBreachedAt := at_; tk_slaBreachReason := reason;
     tk_deletedAt := tk_deletedAt t; tk_deletedBy := tk_deletedBy t |}.

Definition set_deletion (at_ : option Z) (by_ : option string) (t : Ticket) : Ticket :=
  {| tk_head := tk_head t; tk_fields := tk_fields t; tk_life := tk_life t; tk_assignedTo := tk_assignedTo t;
     tk_firstResponseAt := tk_firstResponseAt t; tk_slaBreachedAt := tk_slaBreachedAt t;
     tk_slaBreachReason := tk_slaBreachReason t; tk_deletedAt := at_; tk_deletedBy := by_ |}.

(** ** The feed of a ticket *)

Inductive CommentType : Type :=
  cmt_comment | cmt_internal | cmt_status_change | cmt_assignment | cmt_time_entry | cmt_system.
#[export] Instance CommentType_eq : EqDecision CommentType.
Proof. solve_decision. Defined.

Inductive AuthorType : Type := by_internal | by_portal | by_email.
#[export] Instance AuthorType_eq : EqDecision AuthorType.
Proof. solve_decision. Defined.

Record TicketComment : Type := {
  tc_ticketId : string;
  tc_userId : option string;
  tc_portalUserId : option string;
  tc_authorName : option string;
  tc_authorType : AuthorType;
  tc_commentType : CommentType;
  tc_content : string;
  tc_isPublic : bool;
  tc_oldValue : option string;
  tc_newValue : option string;
  tc_deletedAt : option Z;
  tc_editedAt : option Z;
  tc_createdAt : Z;
}.

(** ** Work *)

(** A row of [time_entries]: what billing reads, and the rest. *)
Record TimeRow : Type := {
  tr_entry : TimeEntry;
  tr_partnerId : string;
  tr_userId : string;
  tr_startedAt : Z;
  tr_approvedBy : option string;
  tr_approvedAt : option Z;
}.

Record PartRow : Type := {
  pr_part : TicketPart;
  pr_partNumber : option string;
  pr_vendor : option string;
  pr_addedBy : option string;
  pr_notes : option string;
}.

Record AlertLink : Type := {
  al_orgId : string;
  al_createdBy : option string;
}.

(** ** What the desk looks up *)

Record OrgRow : Type := { or_partnerId : string; or_name : string }.
Record PortalUserRow : Type := { pu_orgId : string; pu_name : option string; pu_email : string }.
Record CategoryRow : Type := {
  cg_partnerId : string;
  cg_responseSlaMinutes : option Z;
  cg_resolutionSlaMinutes : option Z;
  cg_defaultBillable : bool;
  cg_defaultHourlyRate : option Decimal;
}.
Record StatusRow : Type := {
  sr_id : string;
  sr_partnerId : string;
  sr_coreStatus : TicketStatus;
  sr_name : string;
  sr_isActive : bool;
  sr_isSystem : bool;
}.
Record OrgTicketSettings : Type := {
  os_slaOverrides : json;
  os_defaultHourlyRate : option Decimal;
  os_defaultBillable : option bool;
}.
Record AlertRow : Type := {
  ar_orgId : string;
  ar_title : option string;
  ar_message : option string;
  ar_deviceId : option string;
  ar_severity : option string;
}.
Record FormRow : Type := {
  fo_orgId : option string;
  fo_partnerId : option string;
  fo_isActive : bool;
  fo_showInPortal : bool;
  fo_links : list string;
}.

Record DeskDir : Type := {
  dd_orgs : string -> option OrgRow;
  dd_users : string -> option string;
  dd_devices : string -> option string;
  dd_portalUsers : string -> option PortalUserRow;
  dd_categories : string -> option CategoryRow;
  dd_statuses : list StatusRow;
  dd_settings : string -> option OrgTicketSettings;
  dd_priorities : string -> TicketSlaPriority -> option (option Z * option Z);
  dd_alerts : string -> option AlertRow;
  dd_forms : string -> option FormRow;
}.

(** ** The store *)

Inductive SlaTargetKind : Type := sla_response | sla_resolution.
#[export] Instance SlaTargetKind_eq : EqDecision SlaTargetKind.
Proof. solve_decision. Defined.

(** What the desk announces. *)
Inductive DeskEvent : Type :=
| ticket_created (id : string)
| ticket_status_changed (id : string) (from to_ : TicketStatus)
| ticket_updated (id : string)
| ticket_assigned (id : string) (assignee : option string)
| ticket_commented (id : string) (isPublic : bool)
| ticket_sla_breached (id : string) (target : SlaTargetKind)
| time_entry_created (id : string)
| time_entry_updated (id : string)
| time_entry_deleted (id : string)
| time_entry_approved (ids : list string).
#[export] Instance DeskEvent_eq : EqDecision DeskEvent.
Proof. solve_decision. Defined.

Record DeskStore : Type := {
  dk_tickets : gmap string Ticket;
  dk_comments : list TicketComment;
  dk_links : gmap (string * string) AlertLink;
  dk_sequences : gmap (string * Z) Z;
  dk_time : gmap string TimeRow;
  dk_parts : gmap string PartRow;
  dk_events : list DeskEvent;
}.

Definition with_tickets (f : gmap string Ticket -> gmap string Ticket) (s : DeskStore) : DeskStore :=
  {| dk_tickets := f (dk_tickets s); dk_comments := dk_comments s; dk_links := dk_links s;
     dk_sequences := dk_sequences s; dk_time := dk_time s; dk_parts := dk_parts s; dk_events := dk_events s |}.
Definition with_comments (f : list TicketComment -> list TicketComment) (s : DeskStore) : DeskStore :=
  {| dk_tickets := dk_tickets s; dk_comments := f (dk_comments s); dk_links := dk_links s;
     dk_sequences := dk_sequences s; dk_time := dk_time s; dk_parts := dk_parts s; dk_events := dk_events s |}.
Definition with_links (f : gmap (string * string) AlertLink -> gmap (string * string) AlertLink) (s : DeskStore) : DeskStore :=
  {| dk_tickets := dk_tickets s; dk_comments := dk_comments s; dk_links := f (dk_links s);
     dk_sequences := dk_sequences s; dk_time := dk_time s; dk_parts := dk_parts s; dk_events := dk_events s |}.
Definition with_ticket_sequences (f : gmap (string * Z) Z -> gmap (string * Z) Z) (s : DeskStore) : DeskStore :=
  {| dk_tickets := dk_tickets s; dk_comments := dk_comments s; dk_links := dk_links s;
     dk_sequences := f (dk_sequences s); dk_time := dk_time s; dk_parts := dk_parts s; dk_events := dk_events s |}.
Definition with_time (f : gmap string TimeRow -> gmap string TimeRow) (s : DeskStore) : DeskStore :=
  {| dk_tickets := dk_tickets s; dk_comments := dk_comments s; dk_links := dk_links s;
     dk_sequences := dk_sequences s; dk_time := f (dk_time s); dk_parts := dk_parts s; dk_events := dk_events s |}.
Definition with_parts (f : gmap string PartRow -> gmap string PartRow) (s : DeskStore) : DeskStore :=
  {| dk_tickets := dk_tickets s; dk_comments := dk_comments s; dk_links := dk_links s;
     dk_sequences := dk_sequences s; dk_time := dk_time s; dk_parts := f (dk_parts s); dk_events := dk_events s |}.
Definition announce (e : DeskEvent) (s : DeskStore) : DeskStore :=
  {| dk_tickets := dk_tickets s; dk_comments := dk_comments s; dk_links := dk_links s;
     dk_sequences := dk_sequences s; dk_time := dk_time s; dk_parts := dk_parts s; dk_events := dk_events s ++ [e] |}.

Definition empty_desk : DeskStore :=
  {| dk_tickets := ∅; dk_comments := []; dk_links := ∅; dk_sequences := ∅; dk_time := ∅; dk_parts := ∅; dk_events := [] |}.
