(* ===== verification/Tickets.v ===== *)
(** * Tickets: services/ticketService.ts and its lookups

    One definition per call of services/ticketService.ts, with services/ticketSla.ts,
    ticketNumbers.ts, the settings of ticketConfigService.ts, the form lookup of
    ticketFormService.ts, the portal's comment routes and the direct updates of
    services/inboundEmail/inboundEmailService.ts.

    A call reads first and writes later: its statements run in the transaction of
    the request, which sees what others commit in between. A call is therefore a
    function from the store to a [Plan] (or an error), and the write of the plan on
    whatever the store is by then. Audit rows, triage feedback and notifications are
    left out. *)

From stdpp Require Import base gmap strings list option sorting.
From Stdlib Require Import ZArith Ascii.
From S2P Require Import Prelude Json Money BillingStore Invoices DeskStore.

Open Scope Z_scope.

(** ** Service levels: services/ticketSla.ts *)

Definition PRIORITY_SLA_DEFAULTS (p : TicketSlaPriority) : option Z * option Z :=
  match p with
  | prio_urgent => (Some 60, Some 240)
  | prio_high => (Some 240, Some 1440)
  | prio_normal | prio_low => (None, None)
  end.

(** [a ?? b] *)
Definition orElse {A} (a b : option A) : option A := match a with Some x => Some x | None => b end.

Record ResolveSlaTargetsInput : Type := {
  rs_override : option Z * option Z;
  rs_category : option Z * option Z;
  rs_org : option Z * option Z;
  rs_partner : option Z * option Z;
  rs_priority : TicketSlaPriority;
}.

Definition resolveSlaTargets (i : ResolveSlaTargetsInput) : option Z * option Z :=
  let pick f := orElse (f (rs_override i)) (orElse (f (rs_category i)) (orElse (f (rs_org i)) (orElse (f (rs_partner i))
                  (f (PRIORITY_SLA_DEFAULTS (rs_priority i)))))) in
  (pick fst, pick snd).

Definition target_name (k : SlaTargetKind) : string :=
  match k with sla_response => "response" | sla_resolution => "resolution" end.

Definition target_of (s : string) : option SlaTargetKind :=
  if bool_decide (s = "response"%string) then Some sla_response
  else if bool_decide (s = "resolution"%string) then Some sla_resolution else None.

(** A JavaScript [Set] keeps the order of insertion. *)
Definition set_add (k : SlaTargetKind) (l : list SlaTargetKind) : list SlaTargetKind :=
  if bool_decide (k ∈ l) then l else l ++ [k].

Definition breachedTargets (reason : option string) : list SlaTargetKind :=
  fold_left (fun out part => match target_of (trim part) with Some k => set_add k out | None => out end)
    (str_split "," (default EmptyString reason)) [].

Definition appendBreachTarget (reason : option string) (target : SlaTargetKind) : string :=
  let existing := breachedTargets reason in
  if bool_decide (target ∈ existing) then default (target_name target) reason
  else match existing with
       | [] => target_name target
       | _ => str_join "," (target_name <$> existing) ++ "," ++ target_name target
       end.

(** ** Settings: services/ticketConfigService.ts *)

(** A number of the stored JSON is its text; [None] for all that is not a whole
    number from zero up. *)
Definition parseSlaMinutes (v : json) : option Z := match v with JNum t => parse_dec t | _ => None end.

Definition priority_name (p : TicketSlaPriority) : string :=
  match p with prio_low => "low" | prio_normal => "normal" | prio_high => "high" | prio_urgent => "urgent" end.

Definition member (k : string) (v : json) : json :=
  match v with JObj members => json_get k members | _ => JUndef end.

Definition getOrgSlaOverride (dir : DeskDir) (orgId : string) (p : TicketSlaPriority) : option Z * option Z :=
  match dd_settings dir orgId with
  | None => (None, None)
  | Some row =>
      let tier := member (priority_name p) (os_slaOverrides row) in
      (parseSlaMinutes (member "responseMinutes" tier), parseSlaMinutes (member "resolutionMinutes" tier))
  end.

Definition getPartnerPrioritySla (dir : DeskDir) (partnerId : string) (p : TicketSlaPriority) : option Z * option Z :=
  match dd_priorities dir partnerId p with
  | None => (None, None)
  | Some (r, s) => let keep v := if (default 0 v <? 0) then None else v in (keep r, keep s)
  end.

Definition getSystemStatusId (dir : DeskDir) (partnerId : string) (core : TicketStatus) : option string :=
  sr_id <$> List.find (fun r => bool_decide (sr_partnerId r = partnerId) && bool_decide (sr_coreStatus r = core)
                                && sr_isSystem r) (dd_statuses dir).

Definition getTicketStatusById (dir : DeskDir) (id : string) : option StatusRow :=
  List.find (fun r => bool_decide (sr_id r = id)) (dd_statuses dir).

Record BillingDefaults : Type := { bd_hourlyRate : option Decimal; bd_billable : option bool }.

Definition getOrgBillingDefaults (dir : DeskDir) (orgId : string) : option BillingDefaults :=
  (fun r => {| bd_hourlyRate := os_defaultHourlyRate r; bd_billable := os_defaultBillable r |}) <$> dd_settings dir orgId.

(** ** Errors, actors, environments *)

Inductive TicketError : Type :=
| TICKET_NOT_FOUND | ORGANIZATION_NOT_FOUND | SUBJECT_REQUIRED | FORM_REFUSED (message : string)
| DEVICE_NOT_FOUND | DEVICE_WRONG_ORG | ASSIGNEE_NOT_FOUND | ASSIGNEE_WRONG_PARTNER | TICKET_PARTNER_UNRESOLVABLE
| REQUESTER_NOT_FOUND | REQUESTER_WRONG_ORG | CATEGORY_NOT_FOUND | CATEGORY_WRONG_PARTNER
| INVALID_INPUT | STATUS_NOT_FOUND | STATUS_INACTIVE | INVALID_TRANSITION | RESOLUTION_NOTE_REQUIRED
| CONCURRENT_MODIFICATION | ALERT_NOT_FOUND | ALERT_WRONG_ORG | ALERT_ALREADY_LINKED | LINK_NOT_FOUND
| COMMENT_NOT_FOUND | COMMENT_IS_SYSTEM | COMMENT_ALREADY_DELETED | COMMENT_NOT_OWN | COMMENT_TOO_LONG | STAFF_REPLIED
| TICKET_ALREADY_DELETED | TICKET_NOT_DELETED | TARGET_ORG_NOT_FOUND | MOVE_WRONG_PARTNER | DUPLICATE_ID.
#[export] Instance TicketError_eq : EqDecision TicketError.
Proof. solve_decision. Defined.

Abbreviation outcome A := (result TicketError A).

Record TicketActor : Type := { ac_userId : string; ac_name : option string }.

(** What a phase of a call reads from outside: its clock, the random id of a new
    ticket, the year of the local clock, and the directory. *)
Record DeskEnv : Type := {
  de_now : Z;
  de_newId : string;
  de_year : Z;
  de_dir : DeskDir;
}.

(** ** Status transitions *)

Definition TICKET_STATUS_TRANSITIONS (s : TicketStatus) : list TicketStatus :=
  match s with
  | tks_new => [tks_open; tks_pending; tks_on_hold; tks_resolved; tks_closed]
  | tks_open => [tks_pending; tks_on_hold; tks_resolved; tks_closed]
  | tks_pending => [tks_open; tks_on_hold; tks_resolved; tks_closed]
  | tks_on_hold => [tks_open; tks_pending; tks_resolved; tks_closed]
  | tks_resolved => [tks_open; tks_closed]
  | tks_closed => [tks_open]
  end.

Definition is_paused (s : TicketStatus) : bool := bool_decide (s = tks_pending) || bool_decide (s = tks_on_hold).
Definition is_done (s : TicketStatus) : bool := bool_decide (s = tks_resolved) || bool_decide (s = tks_closed).

Definition status_text (s : TicketStatus) : string :=
  match s with
  | tks_new => "new" | tks_open => "open" | tks_pending => "pending" | tks_on_hold => "on_hold"
  | tks_resolved => "resolved" | tks_closed => "closed"
  end.

Record ChangeStatusOptions : Type := { co_resolutionNote : option string; co_pendingReason : option string }.

(** Whole minutes between two instants, never negative. *)
Definition elapsedMinutes (from to_ : Z) : Z := Z.max 0 ((to_ - from) / 60000).

(** The columns a status change sets: [old] is the row as it was read, [row] the row
    that is written to. *)
Definition status_patch (old : TicketLife) (toStatus : TicketStatus) (statusId : option string) (opts : ChangeStatusOptions)
    (userId : string) (now : Z) (row : TicketLife) : TicketLife :=
  let reopen := bool_decide (toStatus = tks_open) && is_done (tl_status old) in
  {| tl_status := toStatus;
     tl_statusId := statusId;
     tl_pendingReason := if is_paused toStatus then co_pendingReason opts else None;
     tl_resolvedAt := if is_done toStatus then Some (default now (tl_resolvedAt old))
                      else if reopen then None else tl_resolvedAt row;
     tl_closedAt := if bool_decide (toStatus = tks_closed) then Some now else if reopen then None else tl_closedAt row;
     tl_closedBy := if bool_decide (toStatus = tks_closed) then Some userId else if reopen then None else tl_closedBy row;
     tl_resolutionNote := if bool_decide (toStatus = tks_resolved) then co_resolutionNote opts else tl_resolutionNote row;
     tl_slaPausedAt := if negb (is_paused (tl_status old)) && is_paused toStatus then Some now
                       else if is_paused (tl_status old) && negb (is_paused toStatus) then None
                       else tl_slaPausedAt row;
     tl_slaPausedMinutes :=
       if is_paused (tl_status old) && negb (is_paused toStatus) then
         match tl_slaPausedAt old with
         | Some at_ => Some (default 0 (tl_slaPausedMinutes old) + elapsedMinutes at_ now)
         | None => tl_slaPausedMinutes row
         end
       else tl_slaPausedMinutes row |}.

(** ** Plans *)

(** The requester columns of an edit: [None] leaves a column alone. *)
Record RequesterPatch : Type := {
  rp_submittedBy : option (option string);
  rp_submitterName : option (option string);
  rp_submitterEmail : option (option string);
}.

(** The other columns of an edit: [None] is [undefined]. *)
Record UpdateTicketFieldsInput : Type := {
  uf_subject : option string;
  uf_description : option string;
  uf_categoryId : option (option string);
  uf_priority : option TicketSlaPriority;
  uf_dueDate : option (option Z);
  uf_responseSlaMinutes : option (option Z);
  uf_resolutionSlaMinutes : option (option Z);
  uf_deviceId : option (option string);
  uf_tags : option (list string);
  uf_requester : RequesterPatch;
}.

(** What a call has decided when it has read. *)
Inductive Plan : Type :=
| PNothing
| PCreate (t : Ticket) (partnerId : string) (alert : option (string * AlertRow)) (by_ : TicketActor)
| PLabel (id : string) (from : TicketStatus) (fromId statusId : option string) (name : option string) (by_ : TicketActor)
| PStatus (id : string) (old : TicketLife) (to_ : TicketStatus) (statusId : option string) (opts : ChangeStatusOptions)
    (name : option string) (by_ : TicketActor) (now : Z)
| PFields (id : string) (patch : UpdateTicketFieldsInput) (labels : list string) (by_ : TicketActor)
| PAssign (id : string) (assignee prev : option string) (opens : bool) (by_ : TicketActor)
| PComment (c : TicketComment) (stamp announced : bool)
| PLink (id alertId : string) (l : AlertLink) (title : string) (by_ : TicketActor)
| PUnlink (id alertId : string) (by_ : TicketActor)
| PEdit (n : nat) (content : string)
| PErase (n : nat)
| PDelete (id : string) (by_ : TicketActor)
| PRestore (id : string)
| PMove (id targetOrgId targetName : string) (by_ : TicketActor)
| PInbound (id partnerId : string) (reopen : bool) (c : TicketComment).

(** ** Reads *)

Definition getTicketOrThrow (id : string) (s : DeskStore) : outcome Ticket :=
  match dk_tickets s !! id with Some t => Ok t | None => Err TICKET_NOT_FOUND end.

Definition resolveTicketPartnerId (dir : DeskDir) (t : Ticket) : option string :=
  if truthy (th_partnerId (tk_head t)) then th_partnerId (tk_head t) else or_partnerId <$> dd_orgs dir (tk_orgId t).

Definition assertAssigneeInPartner (dir : DeskDir) (assigneeId : string) (partnerId : option string) : outcome unit :=
  match dd_users dir assigneeId with
  | None => Err ASSIGNEE_NOT_FOUND
  | Some p =>
      let! _ := check (truthy partnerId) TICKET_PARTNER_UNRESOLVABLE in
      check (bool_decide (Some p = partnerId)) ASSIGNEE_WRONG_PARTNER
  end.

Definition assertRequesterInOrg (dir : DeskDir) (portalUserId orgId : string) : outcome PortalUserRow :=
  match dd_portalUsers dir portalUserId with
  | None => Err REQUESTER_NOT_FOUND
  | Some u => let! _ := check (bool_decide (pu_orgId u = orgId)) REQUESTER_WRONG_ORG in Ok u
  end.

Definition assertCategoryInPartner (dir : DeskDir) (categoryId : string) (partnerId : option string) : outcome CategoryRow :=
  match dd_categories dir categoryId with
  | None => Err CATEGORY_NOT_FOUND
  | Some c =>
      let! _ := check (truthy partnerId) TICKET_PARTNER_UNRESOLVABLE in
      let! _ := check (bool_decide (Some (cg_partnerId c) = partnerId)) CATEGORY_WRONG_PARTNER in
      Ok c
  end.

Definition assertDeviceInOrg (dir : DeskDir) (deviceId orgId : string) : outcome unit :=
  match dd_devices dir deviceId with
  | None => Err DEVICE_NOT_FOUND
  | Some o => check (bool_decide (o = orgId)) DEVICE_WRONG_ORG
  end.

(** ** Intake forms: services/ticketFormService.ts *)

Record AppliedIntakeForm : Type := {
  in_subjectFromForm : string;
  in_descriptionBlock : string;
  in_categoryId : option string;
  in_defaultPriority : option TicketSlaPriority;
  in_defaultTags : list string;
}.

Definition isOrgAllowedForPartnerWideForm (f : FormRow) (orgId : string) : bool :=
  match fo_links f with [] => true | l => bool_decide (orgId ∈ l) end.

Definition getTicketFormForOrg (dir : DeskDir) (formId orgId partnerId : string) (requirePortalVisible : bool)
  : outcome FormRow :=
  match dd_forms dir formId with
  | None => Err (FORM_REFUSED "Ticket form not found")
  | Some f =>
      let ownedByOrg := bool_decide (fo_orgId f = Some orgId) in
      let partnerWide := bool_decide (fo_orgId f = None) && bool_decide (fo_partnerId f = Some partnerId) in
      let! _ := check (ownedByOrg || partnerWide) (FORM_REFUSED "Ticket form is not available for this organization") in
      let! _ := check (negb partnerWide || isOrgAllowedForPartnerWideForm f orgId)
                  (FORM_REFUSED "Ticket form is not available for this organization") in
      let! _ := check (fo_isActive f) (FORM_REFUSED "Ticket form is inactive") in
      let! _ := check (negb requirePortalVisible || fo_showInPortal f)
                  (FORM_REFUSED "Ticket form is not available in the portal") in
      Ok f
  end.

(** ** Create *)

Record CreateTicketInput : Type := {
  ci_orgId : string;
  ci_subject : option string;
  ci_description : option string;
  ci_deviceId : option string;
  ci_categoryId : option string;
  ci_priority : option TicketSlaPriority;
  ci_dueDate : option Z;
  ci_assigneeId : option string;
  ci_form : option (string * json);
  ci_source : TicketSource;
  ci_submittedBy : option string;
  ci_submitterEmail : option string;
  ci_submitterName : option string;
}.

(** The requester columns: given, of a portal user, free text, or the actor's name. *)
Definition resolveRequester (dir : DeskDir) (i : CreateTicketInput) (by_ : TicketActor)
  : outcome (option string * option string * option string) :=
  if bool_decide (ci_source i = tsrc_portal) || bool_decide (ci_source i = tsrc_email)
  then Ok (ci_submittedBy i, ci_submitterName i, ci_submitterEmail i)
  else if truthy (ci_submittedBy i) then
    let id := default EmptyString (ci_submittedBy i) in
    let! u := assertRequesterInOrg dir id (ci_orgId i) in
    Ok (Some id, orElse (ci_submitterName i) (pu_name u), orElse (ci_submitterEmail i) (Some (pu_email u)))
  else if truthy (ci_submitterName i) || truthy (ci_submitterEmail i)
  then Ok (None, ci_submitterName i, ci_submitterEmail i)
  else Ok (None, ac_name by_, None).

Definition blank_line : string := String "010" (String "010" EmptyString).

(** [[a, b].filter(Boolean).join('\n\n') || null] *)
Definition joinDescription (a b : option string) : option string :=
  match str_join blank_line (List.filter (fun s => truthy (Some s)) (omap id [a; b])) with
  | EmptyString => None
  | s => Some s
  end.

Section intake.
(** Validation and rendering of the responses of a form. *)
Context (applyIntakeForm : FormRow -> json -> result string AppliedIntakeForm).

Definition resolveIntake (dir : DeskDir) (i : CreateTicketInput) (partnerId : string) : outcome (option AppliedIntakeForm) :=
  match ci_form i with
  | Some (formId, responses) =>
      if truthy (Some formId) then
        let! f := getTicketFormForOrg dir formId (ci_orgId i) partnerId (bool_decide (ci_source i = tsrc_portal)) in
        match applyIntakeForm f responses with Ok a => Ok (Some a) | Err m => Err (FORM_REFUSED m) end
      else Ok None
  | None => Ok None
  end.

(** A guard for an optional id: none, or empty, asks for nothing. *)
Definition guard_opt {A} (v : option string) (f : string -> outcome A) : outcome (option A) :=
  match v with
  | Some x => if truthy v then (let! a := f x in Ok (Some a)) else Ok None
  | None => Ok None
  end.

Definition createTicket_read (env : DeskEnv) (i : CreateTicketInput) (alert : option (string * AlertRow)) (by_ : TicketActor)
  : outcome Plan :=
  let dir := de_dir env in
  match dd_orgs dir (ci_orgId i) with
  | None => Err ORGANIZATION_NOT_FOUND
  | Some org =>
      let partnerId := or_partnerId org in
      let! intake := resolveIntake dir i partnerId in
      let given := trim (default EmptyString (ci_subject i)) in
      let rawSubject := if truthy (Some given) then given else default EmptyString (in_subjectFromForm <$> intake) in
      let! _ := check (truthy (Some rawSubject)) SUBJECT_REQUIRED in
      let! _ := guard_opt (ci_deviceId i) (fun d => assertDeviceInOrg dir d (ci_orgId i)) in
      let! _ := guard_opt (ci_assigneeId i) (fun a => assertAssigneeInPartner dir a (Some partnerId)) in
      let categoryId := orElse (ci_categoryId i) (intake ≫= in_categoryId) in
      let! category := guard_opt categoryId (fun c => assertCategoryInPartner dir c (Some partnerId)) in
      let! requester := resolveRequester dir i by_ in
      let priority := default prio_normal (orElse (ci_priority i) (intake ≫= in_defaultPriority)) in
      let status := if truthy (ci_assigneeId i) then tks_open else tks_new in
      let sla := resolveSlaTargets
        {| rs_override := (None, None);
           rs_category := (category ≫= cg_responseSlaMinutes, category ≫= cg_resolutionSlaMinutes);
           rs_org := getOrgSlaOverride dir (ci_orgId i) priority;
           rs_partner := getPartnerPrioritySla dir partnerId priority;
           rs_priority := priority |} in
      Ok (PCreate
        {| tk_head := {| th_orgId := ci_orgId i; th_partnerId := Some partnerId; th_internalNumber := None;
                         th_source := ci_source i; th_createdAt := de_now env |};
           tk_fields := {| tf_subject := str_take 255 rawSubject;
                           tf_description := joinDescription (trim <$> ci_description i) (in_descriptionBlock <$> intake);
                           tf_categoryId := categoryId; tf_priority := priority; tf_dueDate := ci_dueDate i;
                           tf_responseSlaMinutes := sla.1; tf_resolutionSlaMinutes := sla.2;
                           tf_deviceId := ci_deviceId i; tf_tags := default [] (in_defaultTags <$> intake);
                           tf_submittedBy := requester.1.1; tf_submitterName := requester.1.2;
                           tf_submitterEmail := requester.2 |};
           tk_life := {| tl_status := status; tl_statusId := getSystemStatusId dir partnerId status;
                         tl_pendingReason := None; tl_resolvedAt := None; tl_closedAt := None; tl_closedBy := None;
                         tl_resolutionNote := None; tl_slaPausedAt := None; tl_slaPausedMinutes := Some 0 |};
           tk_assignedTo := ci_assigneeId i; tk_firstResponseAt := None; tk_slaBreachedAt := None;
           tk_slaBreachReason := None; tk_deletedAt := None; tk_deletedBy := None |} partnerId alert by_)
  end.

Definition SEVERITY_TO_PRIORITY (severity : string) : option TicketSlaPriority :=
  if bool_decide (severity = "critical"%string) then Some prio_urgent
  else if bool_decide (severity = "high"%string) then Some prio_high
  else if bool_decide (severity = "medium"%string) then Some prio_normal
  else if bool_decide (severity ∈ ["low"; "info"]%string) then Some prio_low else None.

Record AlertOverrides : Type := {
  ao_subject : option string;
  ao_description : option string;
  ao_categoryId : option string;
  ao_priority : option TicketSlaPriority;
  ao_assigneeId : option string;
}.

Definition createTicketFromAlert_read (env : DeskEnv) (alertId : string) (o : AlertOverrides) (by_ : TicketActor)
  : outcome Plan :=
  match dd_alerts (de_dir env) alertId with
  | None => Err ALERT_NOT_FOUND
  | Some a =>
      createTicket_read env
        {| ci_orgId := ar_orgId a; ci_subject := orElse (ao_subject o) (orElse (ar_title a) (Some ("Alert " ++ alertId)%string));
           ci_description := orElse (ao_description o) (ar_message a); ci_deviceId := ar_deviceId a;
           ci_categoryId := ao_categoryId o;
           ci_priority := orElse (ao_priority o)
             (orElse (SEVERITY_TO_PRIORITY (default EmptyString (ar_severity a))) (Some prio_normal));
           ci_dueDate := None; ci_assigneeId := ao_assigneeId o; ci_form := None; ci_source := tsrc_alert;
           ci_submittedBy := None; ci_submitterEmail := None; ci_submitterName := None |} (Some (alertId, a)) by_
  end.
End intake.

(** ** Status, fields, assignment *)

(** [changeTicketStatus(ticketId, { status, statusId }, opts, actor)] *)
Definition changeTicketStatus_read (env : DeskEnv) (id : string) (status : option TicketStatus) (statusId : option string)
    (opts : ChangeStatusOptions) (by_ : TicketActor) (s : DeskStore) : outcome Plan :=
  let dir := de_dir env in
  let! t := getTicketOrThrow id s in
  let from := tk_status t in
  let partnerId := resolveTicketPartnerId dir t in
  let! target :=
    match status, statusId with
    | None, Some sid =>
        match getTicketStatusById dir sid with
        | None => Err STATUS_NOT_FOUND
        | Some row =>
            let! _ := check (bool_decide (Some (sr_partnerId row) = partnerId)) STATUS_NOT_FOUND in
            let! _ := check (sr_isActive row) STATUS_INACTIVE in
            Ok (sr_coreStatus row, Some sid, Some (sr_name row))
        end
    | Some st, None => Ok (st, if truthy partnerId then partnerId ≫= (fun p => getSystemStatusId dir p st) else None, None)
    | _, _ => Err INVALID_INPUT
    end in
  let '(to_, sid, name) := target in
  if bool_decide (to_ = from) then
    if bool_decide (sid = tl_statusId (tk_life t)) then Ok PNothing
    else Ok (PLabel id from (tl_statusId (tk_life t)) sid name by_)
  else
    let! _ := check (bool_decide (to_ ∈ TICKET_STATUS_TRANSITIONS from)) INVALID_TRANSITION in
    let! _ := check (negb (bool_decide (to_ = tks_resolved)) || truthy (co_resolutionNote opts)) RESOLUTION_NOTE_REQUIRED in
    Ok (PStatus id (tk_life t) to_ sid opts name by_ (de_now env)).

(** A column of an edit that differs from the row. *)
Definition changed_opt {A} `{EqDecision A} (old : A) (new_ : option A) : option A :=
  match new_ with Some v => if bool_decide (v = old) then None else Some v | None => None end.

Definition label_of {A} (v : option A) (label : string) : list string := match v with Some _ => [label] | None => [] end.

(** [UPDATE_FIELD_LABELS], in canonical order, with the requester last. *)
Definition update_labels (p : UpdateTicketFieldsInput) (requesterChanged : bool) : list string :=
  (label_of (uf_subject p) "subject" ++ label_of (uf_description p) "description" ++ label_of (uf_categoryId p) "category"
   ++ label_of (uf_priority p) "priority" ++ label_of (uf_dueDate p) "due date"
   ++ label_of (uf_responseSlaMinutes p) "response SLA" ++ label_of (uf_resolutionSlaMinutes p) "resolution SLA"
   ++ label_of (uf_deviceId p) "device" ++ label_of (uf_tags p) "tags"
   ++ (if requesterChanged then ["requester"%string] else []))%list.

(** The requester triple as it will be written: a portal user fills in what is not given. *)
Definition requesterPatch (dir : DeskDir) (orgId : string) (r : RequesterPatch) : outcome RequesterPatch :=
  match rp_submittedBy r with
  | Some (Some id) =>
      let! u := assertRequesterInOrg dir id orgId in
      Ok {| rp_submittedBy := Some (Some id);
            rp_submitterName := Some (default (pu_name u) (rp_submitterName r));
            rp_submitterEmail := Some (default (Some (pu_email u)) (rp_submitterEmail r)) |}
  | _ => Ok r
  end.

Definition requesterChanged (r : RequesterPatch) (f : TicketFields) : bool :=
  negb (bool_decide (changed_opt (tf_submittedBy f) (rp_submittedBy r) = None)
        && bool_decide (changed_opt (tf_submitterName f) (rp_submitterName r) = None)
        && bool_decide (changed_opt (tf_submitterEmail f) (rp_submitterEmail r) = None)).

Definition no_requester : RequesterPatch := {| rp_submittedBy := None; rp_submitterName := None; rp_submitterEmail := None |}.

Definition updateTicketFields_read (env : DeskEnv) (id : string) (u : UpdateTicketFieldsInput) (by_ : TicketActor)
    (s : DeskStore) : outcome Plan :=
  let dir := de_dir env in
  let! t := getTicketOrThrow id s in
  let f := tk_fields t in
  let! _ := match uf_deviceId u with Some (Some d) => assertDeviceInOrg dir d (tk_orgId t) | _ => Ok tt end in
  let! _ := match uf_categoryId u with
            | Some (Some c) => let! _ := assertCategoryInPartner dir c (resolveTicketPartnerId dir t) in Ok tt
            | _ => Ok tt
            end in
  let! r := requesterPatch dir (tk_orgId t) (uf_requester u) in
  let rc := requesterChanged r f in
  let patch :=
    {| uf_subject := changed_opt (tf_subject f) (uf_subject u);
       uf_description := if bool_decide (Some <$> uf_description u = Some (tf_description f)) then None else uf_description u;
       uf_categoryId := changed_opt (tf_categoryId f) (uf_categoryId u);
       uf_priority := changed_opt (tf_priority f) (uf_priority u);
       uf_dueDate := changed_opt (tf_dueDate f) (uf_dueDate u);
       uf_responseSlaMinutes := changed_opt (tf_responseSlaMinutes f) (uf_responseSlaMinutes u);
       uf_resolutionSlaMinutes := changed_opt (tf_resolutionSlaMinutes f) (uf_resolutionSlaMinutes u);
       uf_deviceId := changed_opt (tf_deviceId f) (uf_deviceId u);
       uf_tags := changed_opt (tf_tags f) (uf_tags u);
       uf_requester := if rc then r else no_requester |} in
  match update_labels patch rc with
  | [] => Ok PNothing
  | labels => Ok (PFields id patch labels by_)
  end.

(** [SET column = value] for the columns of the patch. *)
Definition apply_fields (p : UpdateTicketFieldsInput) (f : TicketFields) : TicketFields :=
  {| tf_subject := default (tf_subject f) (uf_subject p);
     tf_description := match uf_description p with Some d => Some d | None => tf_description f end;
     tf_categoryId := default (tf_categoryId f) (uf_categoryId p);
     tf_priority := default (tf_priority f) (uf_priority p);
     tf_dueDate := default (tf_dueDate f) (uf_dueDate p);
     tf_responseSlaMinutes := default (tf_responseSlaMinutes f) (uf_responseSlaMinutes p);
     tf_resolutionSlaMinutes := default (tf_resolutionSlaMinutes f) (uf_resolutionSlaMinutes p);
     tf_deviceId := default (tf_deviceId f) (uf_deviceId p);
     tf_tags := default (tf_tags f) (uf_tags p);
     tf_submittedBy := default (tf_submittedBy f) (rp_submittedBy (uf_requester p));
     tf_submitterName := default (tf_submitterName f) (rp_submitterName (uf_requester p));
     tf_submitterEmail := default (tf_submitterEmail f) (rp_submitterEmail (uf_requester p)) |}.

Definition assignTicket_read (env : DeskEnv) (id : string) (assigneeId : option string) (by_ : TicketActor) (s : DeskStore)
  : outcome Plan :=
  let! t := getTicketOrThrow id s in
  let! _ := guard_opt assigneeId (fun a => assertAssigneeInPartner (de_dir env) a (resolveTicketPartnerId (de_dir env) t)) in
  Ok (PAssign id assigneeId (tk_assignedTo t) (truthy assigneeId && bool_decide (tk_status t = tks_new)) by_).

(** ** The feed *)

Definition feed (id : string) (by_ : TicketActor) (ty : CommentType) (content : string) (old new_ : option string) (now : Z)
  : TicketComment :=
  {| tc_ticketId := id; tc_userId := Some (ac_userId by_); tc_portalUserId := None; tc_authorName := ac_name by_;
     tc_authorType := by_internal; tc_commentType := ty; tc_content := content; tc_isPublic := false;
     tc_oldValue := old; tc_newValue := new_; tc_deletedAt := None; tc_editedAt := None; tc_createdAt := now |}.

Definition addTicketComment_read (env : DeskEnv) (id content : string) (isPublic : bool) (by_ : TicketActor) (s : DeskStore)
  : outcome Plan :=
  let! t := getTicketOrThrow id s in
  Ok (PComment
    {| tc_ticketId := id; tc_userId := Some (ac_userId by_); tc_portalUserId := None; tc_authorName := ac_name by_;
       tc_authorType := by_internal; tc_commentType := if isPublic then cmt_comment else cmt_internal;
       tc_content := content; tc_isPublic := isPublic; tc_oldValue := None; tc_newValue := None;
       tc_deletedAt := None; tc_editedAt := None; tc_createdAt := de_now env |}
    (isPublic && bool_decide (tk_firstResponseAt t = None)) true).

Definition SYSTEM_COMMENT_TYPES : list CommentType := [cmt_status_change; cmt_assignment; cmt_time_entry; cmt_system].

Definition assertCommentEditable (c : TicketComment) (by_ : TicketActor) (canManageAny : bool) : outcome unit :=
  let! _ := check (negb (bool_decide (tc_commentType c ∈ SYSTEM_COMMENT_TYPES))) COMMENT_IS_SYSTEM in
  let! _ := check (bool_decide (tc_deletedAt c = None)) COMMENT_ALREADY_DELETED in
  check (bool_decide (tc_userId c = Some (ac_userId by_)) || canManageAny) COMMENT_NOT_OWN.

(** What [editTicketComment] and [deleteTicketComment] check. *)
Definition editableComment (n : nat) (by_ : TicketActor) (canManageAny : bool) (expectedTicketId : option string)
    (s : DeskStore) : outcome TicketComment :=
  match dk_comments s !! n with
  | None => Err COMMENT_NOT_FOUND
  | Some c =>
      let! _ := getTicketOrThrow (tc_ticketId c) s in
      let! _ := check (match expectedTicketId with Some e => bool_decide (tc_ticketId c = e) | None => true end)
                  COMMENT_NOT_FOUND in
      let! _ := assertCommentEditable c by_ canManageAny in
      Ok c
  end.

Definition editTicketComment_read (n : nat) (content : string) (by_ : TicketActor) (canManageAny : bool)
    (expectedTicketId : option string) (s : DeskStore) : outcome Plan :=
  let! _ := editableComment n by_ canManageAny expectedTicketId s in Ok (PEdit n content).

Definition deleteTicketComment_read (n : nat) (by_ : TicketActor) (canManageAny : bool) (expectedTicketId : option string)
    (s : DeskStore) : outcome Plan :=
  let! _ := editableComment n by_ canManageAny expectedTicketId s in Ok (PErase n).

(** [portalCommentMutable]: rows in the order of insertion. *)
Definition portalCommentMutable (n : nat) (portalUserId : string) (s : DeskStore) : outcome unit :=
  match dk_comments s !! n with
  | None => Err TICKET_NOT_FOUND
  | Some c =>
      let! _ := check (bool_decide (tc_deletedAt c = None)) TICKET_NOT_FOUND in
      let! _ := check (bool_decide (tc_portalUserId c = Some portalUserId)) TICKET_NOT_FOUND in
      let later := take 50 (List.filter (fun l => bool_decide (tc_ticketId l = tc_ticketId c)
                                                   && (tc_createdAt c <? tc_createdAt l)) (dk_comments s)) in
      check (forallb (fun l => bool_decide (tc_authorType l = by_portal)) later) STAFF_REPLIED
  end.

(** routes/portal/tickets.ts *)
Definition portalComment_read (env : DeskEnv) (id content userId orgId : string) (name : option string) (s : DeskStore)
  : outcome Plan :=
  let! t := getTicketOrThrow id s in
  let! _ := check (bool_decide (tk_orgId t = orgId) && bool_decide (tf_submittedBy (tk_fields t) = Some userId)
                   && bool_decide (tk_deletedAt t = None)) TICKET_NOT_FOUND in
  Ok (PComment
    {| tc_ticketId := id; tc_userId := None; tc_portalUserId := Some userId; tc_authorName := name;
       tc_authorType := by_portal; tc_commentType := cmt_comment; tc_content := content; tc_isPublic := true;
       tc_oldValue := None; tc_newValue := None; tc_deletedAt := None; tc_editedAt := None; tc_createdAt := de_now env |}
    false false).

Definition portalEdit_read (n : nat) (id content userId : string) (name : option string) (s : DeskStore) : outcome Plan :=
  let! _ := check (Z.of_nat (String.length content) <=? 5000) COMMENT_TOO_LONG in
  let! _ := portalCommentMutable n userId s in
  editTicketComment_read n content {| ac_userId := userId; ac_name := name |} true (Some id) s.

Definition portalErase_read (n : nat) (id userId : string) (s : DeskStore) : outcome Plan :=
  let! _ := portalCommentMutable n userId s in
  deleteTicketComment_read n {| ac_userId := userId; ac_name := None |} true (Some id) s.

(** ** Alerts, deletion, moves, inbound mail *)

Definition linkAlert_checked (id alertId : string) (a : AlertRow) (by_ : TicketActor) (t : Ticket) : outcome Plan :=
  let! _ := check (bool_decide (ar_orgId a = tk_orgId t)) ALERT_WRONG_ORG in
  Ok (PLink id alertId {| al_orgId := tk_orgId t; al_createdBy := Some (ac_userId by_) |} (default alertId (ar_title a)) by_).

Definition linkAlertToTicket_read (env : DeskEnv) (id alertId : string) (by_ : TicketActor) (s : DeskStore) : outcome Plan :=
  let! t := getTicketOrThrow id s in
  match dd_alerts (de_dir env) alertId with
  | None => Err ALERT_NOT_FOUND
  | Some a => linkAlert_checked id alertId a by_ t
  end.

Definition unlinkAlertFromTicket_read (id alertId : string) (by_ : TicketActor) (s : DeskStore) : outcome Plan :=
  let! _ := getTicketOrThrow id s in Ok (PUnlink id alertId by_).

Definition softDeleteTicket_read (id : string) (by_ : TicketActor) (s : DeskStore) : outcome Plan :=
  let! t := getTicketOrThrow id s in
  let! _ := check (bool_decide (tk_deletedAt t = None)) TICKET_ALREADY_DELETED in
  Ok (PDelete id by_).

Definition restoreTicket_read (id : string) (s : DeskStore) : outcome Plan :=
  let! t := getTicketOrThrow id s in
  let! _ := check (negb (bool_decide (tk_deletedAt t = None))) TICKET_NOT_DELETED in
  Ok (PRestore id).

Definition moveTicketOrg_read (env : DeskEnv) (id targetOrgId : string) (by_ : TicketActor) (s : DeskStore) : outcome Plan :=
  let! t := getTicketOrThrow id s in
  if bool_decide (tk_orgId t = targetOrgId) then Ok PNothing
  else match dd_orgs (de_dir env) targetOrgId with
       | None => Err TARGET_ORG_NOT_FOUND
       | Some target =>
           let! _ := check (bool_decide (or_partnerId <$> dd_orgs (de_dir env) (tk_orgId t) = Some (or_partnerId target)))
                       MOVE_WRONG_PARTNER in
           Ok (PMove id targetOrgId (or_name target) by_)
       end.

(** A mail that was matched to the ticket: a comment, and a reopening when it is resolved. *)
Definition inboundReply_read (env : DeskEnv) (id partnerId text : string) (sender : option string) (name : option string)
    (s : DeskStore) : outcome Plan :=
  let! t := getTicketOrThrow id s in
  let! _ := check (bool_decide (th_partnerId (tk_head t) = Some partnerId) && negb (bool_decide (tk_status t = tks_closed))
                   && bool_decide (tk_deletedAt t = None)) TICKET_NOT_FOUND in
  Ok (PInbound id partnerId (bool_decide (tk_status t = tks_resolved))
    {| tc_ticketId := id; tc_userId := None; tc_portalUserId := sender; tc_authorName := name;
       tc_authorType := by_email; tc_commentType := cmt_comment; tc_content := text; tc_isPublic := true;
       tc_oldValue := None; tc_newValue := None; tc_deletedAt := None; tc_editedAt := None; tc_createdAt := de_now env |}).

(** ** Writes *)

Definition formatInternalNumber (year counter : Z) : string := ("T-" ++ dec year ++ "-" ++ padStart4 (dec counter))%string.

(** The upsert of the partner's counter, in a transaction of its own. *)
Definition allocateInternalTicketNumber (partnerId : string) (year : Z) (s : DeskStore) : DeskStore * string :=
  let counter := default 0 (dk_sequences s !! (partnerId, year)) + 1 in
  (with_ticket_sequences (<[(partnerId, year) := counter]>) s, formatInternalNumber year counter).

(** [UPDATE tickets SET f WHERE id = id AND p RETURNING *]: no row is an error. *)
Definition cas_ticket (id : string) (p : Ticket -> bool) (f : Ticket -> Ticket) (e : TicketError) (s : DeskStore)
  : outcome DeskStore :=
  match dk_tickets s !! id with
  | Some t => if p t then Ok (with_tickets (<[id := f t]>) s) else Err e
  | None => Err e
  end.

Definition add_feed (c : TicketComment) (s : DeskStore) : DeskStore := with_comments (fun l => l ++ [c]) s.

Definition set_number (n : string) (h : TicketHead) : TicketHead :=
  {| th_orgId := th_orgId h; th_partnerId := th_partnerId h; th_internalNumber := Some n; th_source := th_source h;
     th_createdAt := th_createdAt h |}.
Definition set_org (o : string) (h : TicketHead) : TicketHead :=
  {| th_orgId := o; th_partnerId := th_partnerId h; th_internalNumber := th_internalNumber h; th_source := th_source h;
     th_createdAt := th_createdAt h |}.
Definition set_device (d : option string) (f : TicketFields) : TicketFields :=
  {| tf_subject := tf_subject f; tf_description := tf_description f; tf_categoryId := tf_categoryId f;
     tf_priority := tf_priority f; tf_dueDate := tf_dueDate f; tf_responseSlaMinutes := tf_responseSlaMinutes f;
     tf_resolutionSlaMinutes := tf_resolutionSlaMinutes f; tf_deviceId := d; tf_tags := tf_tags f;
     tf_submittedBy := tf_submittedBy f; tf_submitterName := tf_submitterName f; tf_submitterEmail := tf_submitterEmail f |}.
Definition set_label (sid : option string) (l : TicketLife) : TicketLife :=
  {| tl_status := tl_status l; tl_statusId := sid; tl_pendingReason := tl_pendingReason l; tl_resolvedAt := tl_resolvedAt l;
     tl_closedAt := tl_closedAt l; tl_closedBy := tl_closedBy l; tl_resolutionNote := tl_resolutionNote l;
     tl_slaPausedAt := tl_slaPausedAt l; tl_slaPausedMinutes := tl_slaPausedMinutes l |}.
Definition set_opened (l : TicketLife) : TicketLife :=
  {| tl_status := tks_open; tl_statusId := tl_statusId l; tl_pendingReason := tl_pendingReason l;
     tl_resolvedAt := tl_resolvedAt l; tl_closedAt := tl_closedAt l; tl_closedBy := tl_closedBy l;
     tl_resolutionNote := tl_resolutionNote l; tl_slaPausedAt := tl_slaPausedAt l;
     tl_slaPausedMinutes := tl_slaPausedMinutes l |}.
Definition set_reopened (l : TicketLife) : TicketLife :=
  {| tl_status := tks_open; tl_statusId := tl_statusId l; tl_pendingReason := tl_pendingReason l; tl_resolvedAt := None;
     tl_closedAt := tl_closedAt l; tl_closedBy := tl_closedBy l; tl_resolutionNote := tl_resolutionNote l;
     tl_slaPausedAt := tl_slaPausedAt l; tl_slaPausedMinutes := tl_slaPausedMinutes l |}.

Definition edit_comment (f : TicketComment -> TicketComment) (n : nat) (s : DeskStore) : outcome DeskStore :=
  match dk_comments s !! n with
  | Some c => Ok (with_comments (<[n := f c]>) s)
  | None => Err COMMENT_NOT_FOUND
  end.

Definition set_content (content : string) (now : Z) (c : TicketComment) : TicketComment :=
  {| tc_ticketId := tc_ticketId c; tc_userId := tc_userId c; tc_portalUserId := tc_portalUserId c;
     tc_authorName := tc_authorName c; tc_authorType := tc_authorType c; tc_commentType := tc_commentType c;
     tc_content := content; tc_isPublic := tc_isPublic c; tc_oldValue := tc_oldValue c; tc_newValue := tc_newValue c;
     tc_deletedAt := tc_deletedAt c; tc_editedAt := Some now; tc_createdAt := tc_createdAt c |}.
Definition set_erased (now : Z) (c : TicketComment) : TicketComment :=
  {| tc_ticketId := tc_ticketId c; tc_userId := tc_userId c; tc_portalUserId := tc_portalUserId c;
     tc_authorName := tc_authorName c; tc_authorType := tc_authorType c; tc_commentType := tc_commentType c;
     tc_content := tc_content c; tc_isPublic := tc_isPublic c; tc_oldValue := tc_oldValue c; tc_newValue := tc_newValue c;
     tc_deletedAt := Some now; tc_editedAt := tc_editedAt c; tc_createdAt := tc_createdAt c |}.

(** [UPDATE time_entries / ticket_parts / ticket_alert_links SET org_id = o WHERE ticket_id = id] *)
Definition set_te_org (o : string) (t : TimeEntry) : TimeEntry :=
  {| te_orgId := Some o; te_ticketId := te_ticketId t; te_endedAt := te_endedAt t;
     te_durationMinutes := te_durationMinutes t; te_description := te_description t; te_isBillable := te_isBillable t;
     te_hourlyRate := te_hourlyRate t; te_billingStatus := te_billingStatus t; te_isApproved := te_isApproved t |}.
Definition set_tp_org (o : string) (p : TicketPart) : TicketPart :=
  {| tp_ticketId := tp_ticketId p; tp_orgId := o; tp_createdAt := tp_createdAt p; tp_description := tp_description p;
     tp_quantity := tp_quantity p; tp_unitPrice := tp_unitPrice p; tp_costBasis := tp_costBasis p;
     tp_catalogItemId := tp_catalogItemId p; tp_isBillable := tp_isBillable p; tp_billingStatus := tp_billingStatus p |}.
Definition set_entry (f : TimeEntry -> TimeEntry) (r : TimeRow) : TimeRow :=
  {| tr_entry := f (tr_entry r); tr_partnerId := tr_partnerId r; tr_userId := tr_userId r; tr_startedAt := tr_startedAt r;
     tr_approvedBy := tr_approvedBy r; tr_approvedAt := tr_approvedAt r |}.
Definition set_part (f : TicketPart -> TicketPart) (r : PartRow) : PartRow :=
  {| pr_part := f (pr_part r); pr_partNumber := pr_partNumber r; pr_vendor := pr_vendor r; pr_addedBy := pr_addedBy r;
     pr_notes := pr_notes r |}.

Definition restamp (id o : string) (s : DeskStore) : DeskStore :=
  with_links (map_imap (fun k l => Some (if bool_decide (k.1 = id)
                                         then {| al_orgId := o; al_createdBy := al_createdBy l |} else l)))
  (with_parts (sql_update (fun r => bool_decide (tp_ticketId (pr_part r) = id)) (set_part (set_tp_org o)))
  (with_time (sql_update (fun r => bool_decide (te_ticketId (tr_entry r) = Some id)) (set_entry (set_te_org o))) s)).

Definition link_write (id alertId : string) (l : AlertLink) (title : string) (by_ : TicketActor) (now : Z) (s : DeskStore)
  : outcome DeskStore :=
  match dk_links s !! (id, alertId) with
  | Some _ => Err ALERT_ALREADY_LINKED
  | None => Ok (add_feed (feed id by_ cmt_system ("Linked alert: " ++ title) None (Some alertId) now)
                  (with_links (<[(id, alertId) := l]>) s))
  end.

(** ** The write of each call *)

Definition createTicket_write (env : DeskEnv) (t : Ticket) (partnerId : string) (alert : option (string * AlertRow))
    (by_ : TicketActor) (s : DeskStore) : outcome DeskStore :=
  let '(s1, number) := allocateInternalTicketNumber partnerId (de_year env) s in
  let! _ := check (bool_decide (dk_tickets s !! de_newId env = None)) DUPLICATE_ID in
  let s2 := announce (ticket_created (de_newId env)) (with_tickets (<[de_newId env := set_head (set_number number) t]>) s1) in
  match alert with
  | None => Ok s2
  | Some (alertId, a) =>
      link_write (de_newId env) alertId {| al_orgId := tk_orgId t; al_createdBy := Some (ac_userId by_) |}
        (default alertId (ar_title a)) by_ (de_now env) s2
  end.

(** Another label of the same status. *)
Definition changeLabel_write (id : string) (from : TicketStatus) (fromId sid name : option string) (by_ : TicketActor) (now : Z)
    (s : DeskStore) : outcome DeskStore :=
  let! s1 := cas_ticket id (fun t => bool_decide (tk_status t = from)
               && (if truthy fromId then bool_decide (tl_statusId (tk_life t) = fromId)
                   else bool_decide (tl_statusId (tk_life t) = None)))
               (set_tlife (set_label sid)) CONCURRENT_MODIFICATION s in
  Ok (match name with
      | Some n => if truthy name
                  then add_feed (feed id by_ cmt_status_change n (Some (status_text from)) (Some (status_text from)) now) s1
                  else s1
      | None => s1
      end).

Definition changeTicketStatus_write (id : string) (old : TicketLife) (to_ : TicketStatus) (sid : option string)
    (opts : ChangeStatusOptions) (name : option string) (by_ : TicketActor) (at_ now : Z) (s : DeskStore) : outcome DeskStore :=
  let! s1 := cas_ticket id (fun t => bool_decide (tk_status t = tl_status old))
               (set_tlife (status_patch old to_ sid opts (ac_userId by_) at_)) CONCURRENT_MODIFICATION s in
  Ok (announce (ticket_status_changed id (tl_status old) to_)
       (add_feed (feed id by_ cmt_status_change
                    (default EmptyString (orElse (co_resolutionNote opts) (orElse (co_pendingReason opts) name)))
                    (Some (status_text (tl_status old))) (Some (status_text to_)) now) s1)).

Definition updateTicketFields_write (id : string) (patch : UpdateTicketFieldsInput) (labels : list string) (by_ : TicketActor)
    (now : Z) (s : DeskStore) : outcome DeskStore :=
  let! s1 := cas_ticket id (fun _ => true) (set_fields (apply_fields patch)) TICKET_NOT_FOUND s in
  Ok (announce (ticket_updated id)
       (add_feed (feed id by_ cmt_system ("Updated " ++ str_join ", " labels) None None now) s1)).

Definition assignTicket_write (id : string) (assignee prev : option string) (opens : bool) (by_ : TicketActor) (now : Z)
    (s : DeskStore) : outcome DeskStore :=
  let! s1 := cas_ticket id (fun t => bool_decide (tk_assignedTo t = prev))
               (fun t => (if opens then set_tlife set_opened else (fun x => x)) (set_assignee assignee t)) CONCURRENT_MODIFICATION s in
  Ok (announce (ticket_assigned id assignee) (add_feed (feed id by_ cmt_assignment EmptyString prev assignee now) s1)).

Definition addTicketComment_write (c : TicketComment) (stamp announced : bool) (now : Z) (s : DeskStore) : outcome DeskStore :=
  let s1 := add_feed c s in
  let s2 := if stamp then with_tickets (alter (set_firstResponse now) (tc_ticketId c)) s1 else s1 in
  Ok (if announced then announce (ticket_commented (tc_ticketId c) (tc_isPublic c)) s2 else s2).

Definition unlinkAlert_write (id alertId : string) (by_ : TicketActor) (now : Z) (s : DeskStore) : outcome DeskStore :=
  match dk_links s !! (id, alertId) with
  | None => Err LINK_NOT_FOUND
  | Some _ => Ok (add_feed (feed id by_ cmt_system "Unlinked alert" (Some alertId) None now)
                    (with_links (delete (id, alertId)) s))
  end.

Definition softDeleteTicket_write (id : string) (by_ : TicketActor) (now : Z) (s : DeskStore) : outcome DeskStore :=
  cas_ticket id (fun t => bool_decide (tk_deletedAt t = None)) (set_deletion (Some now) (Some (ac_userId by_)))
    TICKET_ALREADY_DELETED s.

Definition restoreTicket_write (id : string) (s : DeskStore) : outcome DeskStore :=
  cas_ticket id (fun t => negb (bool_decide (tk_deletedAt t = None))) (set_deletion None None) TICKET_NOT_DELETED s.

Definition moveTicketOrg_write (id target name : string) (by_ : TicketActor) (now : Z) (s : DeskStore) : outcome DeskStore :=
  let! s1 := cas_ticket id (fun _ => true) (fun t => set_fields (set_device None) (set_head (set_org target) t))
               TICKET_NOT_FOUND s in
  Ok (announce (ticket_updated id)
       (add_feed (feed id by_ cmt_system ("Moved to " ++ name) None None now) (restamp id target s1))).

(** [POST /devices/:id/move-org]: what its transaction does to the desk, for any device
    and any organization (the guards of the route only say who may ask for which). The
    tickets of the device get the organization, and with them their work and the links of
    the device's alerts. *)
Definition of_device (deviceId : string) (t : Ticket) : bool := bool_decide (tf_deviceId (tk_fields t) = Some deviceId).

Definition moveDeviceOrg (dir : DeskDir) (deviceId o : string) (s : DeskStore) : DeskStore :=
  let moves id := from_option (of_device deviceId) false (dk_tickets s !! id) in
  let its_alert k := match dd_alerts dir k with Some a => bool_decide (ar_deviceId a = Some deviceId) | None => false end in
  with_parts (sql_update (fun r => moves (tp_ticketId (pr_part r))) (set_part (set_tp_org o)))
  (with_time (sql_update (fun r => from_option moves false (te_ticketId (tr_entry r))) (set_entry (set_te_org o)))
  (with_links (map_imap (fun k l => Some (if its_alert k.2 then {| al_orgId := o; al_createdBy := al_createdBy l |} else l)))
  (with_tickets (sql_update (of_device deviceId) (set_head (set_org o))) s))).

(** The comment of a mail, and the conditional update of the ticket. *)
Definition inboundReply_write (id partnerId : string) (reopen : bool) (c : TicketComment) (s : DeskStore) : outcome DeskStore :=
  let s1 := announce (ticket_commented id true) (add_feed c s) in
  Ok (if reopen
      then with_tickets (fun m => match m !! id with
             | Some t => if bool_decide (th_partnerId (tk_head t) = Some partnerId) && bool_decide (tk_status t = tks_resolved)
                         then <[id := set_tlife set_reopened t]> m else m
             | None => m
             end) s1
      else s1).

(** The write of a plan. *)
Definition write_plan (env : DeskEnv) (p : Plan) (s : DeskStore) : outcome DeskStore :=
  let now := de_now env in
  match p with
  | PNothing => Ok s
  | PCreate t partnerId alert by_ => createTicket_write env t partnerId alert by_ s
  | PLabel id from fromId sid name by_ => changeLabel_write id from fromId sid name by_ now s
  | PStatus id old to_ sid opts name by_ at_ => changeTicketStatus_write id old to_ sid opts name by_ at_ now s
  | PFields id patch labels by_ => updateTicketFields_write id patch labels by_ now s
  | PAssign id assignee prev opens by_ => assignTicket_write id assignee prev opens by_ now s
  | PComment c stamp announced => addTicketComment_write c stamp announced now s
  | PLink id alertId l title by_ => link_write id alertId l title by_ now s
  | PUnlink id alertId by_ => unlinkAlert_write id alertId by_ now s
  | PEdit n content => edit_comment (set_content content now) n s
  | PErase n => edit_comment (set_erased now) n s
  | PDelete id by_ => softDeleteTicket_write id by_ now s
  | PRestore id => restoreTicket_write id s
  | PMove id target name by_ => moveTicketOrg_write id target name by_ now s
  | PInbound id partnerId reopen c => inboundReply_write id partnerId reopen c s
  end.

(** One write at a time. *)
Ltac unfold_writes H :=
  cbv beta iota zeta delta [write_plan createTicket_write changeLabel_write changeTicketStatus_write updateTicketFields_write assignTicket_write
       addTicketComment_write unlinkAlert_write softDeleteTicket_write restoreTicket_write moveTicketOrg_write inboundReply_write
       allocateInternalTicketNumber] in H.

(** ** The breach sweep: jobs/ticketSlaWorker.ts *)

Definition MAX_BREACHES_PER_RUN : nat := 200.

(** [string_to_array(text, ',')]: the empty text has no parts. *)
Definition string_to_array (t : string) : list string := match t with EmptyString => [] | _ => str_split "," t end.

Definition sla_minutes (k : SlaTargetKind) (t : Ticket) : option Z :=
  match k with sla_response => tf_responseSlaMinutes (tk_fields t) | sla_resolution => tf_resolutionSlaMinutes (tk_fields t) end.

Definition sla_unmet (k : SlaTargetKind) (t : Ticket) : bool :=
  match k with
  | sla_response => bool_decide (tk_firstResponseAt t = None)
  | sla_resolution => bool_decide (tl_resolvedAt (tk_life t) = None)
  end.

Definition already_breached (k : SlaTargetKind) (t : Ticket) : bool :=
  bool_decide (target_name k ∈ string_to_array (default EmptyString (tk_slaBreachReason t))).

(** The rows of [due], at the database's clock. *)
Definition breach_due (k : SlaTargetKind) (dbNow : Z) (t : Ticket) : bool :=
  (bool_decide (tk_status t = tks_new) || bool_decide (tk_status t = tks_open))
  && bool_decide (tl_slaPausedAt (tk_life t) = None) && sla_unmet k t
  && match sla_minutes k t with
     | Some m => negb (already_breached k t)
                 && (th_createdAt (tk_head t) + (m + default 0 (tl_slaPausedMinutes (tk_life t))) * 60000 <=? dbNow)
     | None => false
     end.

Definition stamp_reason (k : SlaTargetKind) (reason : option string) : string :=
  match default EmptyString reason with
  | EmptyString => target_name k
  | r => (r ++ "," ++ target_name k)%string
  end.

Definition set_breached (k : SlaTargetKind) (dbNow : Z) (t : Ticket) : Ticket :=
  set_breach (Some (default dbNow (tk_slaBreachedAt t))) (Some (stamp_reason k (tk_slaBreachReason t))) t.

Definition older (a b : string * Ticket) : Prop := th_createdAt (tk_head a.2) <= th_createdAt (tk_head b.2).
#[export] Instance older_dec : RelDecision older.
Proof. unfold older. solve_decision. Defined.

(** [FOR UPDATE SKIP LOCKED]: [locked] are the rows other transactions hold. *)
Definition due_tickets (k : SlaTargetKind) (dbNow : Z) (locked : string -> bool) (m : gmap string Ticket) : list string :=
  (take MAX_BREACHES_PER_RUN
    (List.filter (fun r => negb (locked r.1))
      (merge_sort older (List.filter (fun r => breach_due k dbNow r.2) (map_to_list m))))).*1.

Definition stampBreaches (k : SlaTargetKind) (dbNow : Z) (locked : string -> bool) (s : DeskStore) : DeskStore * list string :=
  let ids := due_tickets k dbNow locked (dk_tickets s) in
  (with_tickets (map_imap (fun id t => Some (if bool_decide (id ∈ ids) then set_breached k dbNow t else t))) s, ids).

(** Both targets in one transaction, then one event per stamp. *)
Definition sweepTicketSlaBreaches (dbNow : Z) (locked : string -> bool) (s : DeskStore) : DeskStore :=
  let '(s1, response) := stampBreaches sla_response dbNow locked s in
  let '(s2, resolution) := stampBreaches sla_resolution dbNow locked s1 in
  fold_left (fun st e => announce e st)
    (((fun id => ticket_sla_breached id sla_response) <$> response)
     ++ ((fun id => ticket_sla_breached id sla_resolution) <$> resolution)) s2.
