(* ===== verification/TicketSystem.v ===== *)
(** * The service desk: calls that overlap

    The state is the store and the calls that have read and not yet written. An
    action starts a call, writes the plan of one, loses one, runs a call at once, or
    runs the breach sweep. *)

From stdpp Require Import base gmap strings list option sorting.
From Stdlib Require Import ZArith Lia Ascii.
From S2P Require Import Prelude Json Money BillingStore Invoices DeskStore.
From S2P Require Import Tickets.

Open Scope Z_scope.

(** ** The system *)

Inductive TicketOp : Type :=
| OpCreate (i : CreateTicketInput) (by_ : TicketActor)
| OpFromAlert (alertId : string) (o : AlertOverrides) (by_ : TicketActor)
| OpStatus (id : string) (status : option TicketStatus) (statusId : option string) (opts : ChangeStatusOptions) (by_ : TicketActor)
| OpFields (id : string) (u : UpdateTicketFieldsInput) (by_ : TicketActor)
| OpAssign (id : string) (assignee : option string) (by_ : TicketActor)
| OpComment (id content : string) (isPublic : bool) (by_ : TicketActor)
| OpEdit (n : nat) (content : string) (by_ : TicketActor) (canManageAny : bool) (expected : option string)
| OpErase (n : nat) (by_ : TicketActor) (canManageAny : bool) (expected : option string)
| OpPortalComment (id content userId orgId : string) (name : option string)
| OpPortalEdit (n : nat) (id content userId : string) (name : option string)
| OpPortalErase (n : nat) (id userId : string)
| OpLink (id alertId : string) (by_ : TicketActor)
| OpUnlink (id alertId : string) (by_ : TicketActor)
| OpDelete (id : string) (by_ : TicketActor)
| OpRestore (id : string)
| OpMove (id targetOrgId : string) (by_ : TicketActor)
| OpInbound (id partnerId text : string) (sender name : option string).

Record TWorld : Type := { tw_store : DeskStore; tw_plans : list Plan }.

Inductive TAction : Type :=
| AStart (op : TicketOp) (env : DeskEnv)
| AFinish (n : nat) (env : DeskEnv)
| ALose (n : nat)
| ACall (op : TicketOp) (env : DeskEnv)
| ASweep (dbNow : Z) (locked : string -> bool).

Section system.
Context (applyIntakeForm : FormRow -> json -> result string AppliedIntakeForm).

Definition read_op (env : DeskEnv) (op : TicketOp) (s : DeskStore) : outcome Plan :=
  match op with
  | OpCreate i by_ => createTicket_read applyIntakeForm env i None by_
  | OpFromAlert alertId o by_ => createTicketFromAlert_read applyIntakeForm env alertId o by_
  | OpStatus id st sid opts by_ => changeTicketStatus_read env id st sid opts by_ s
  | OpFields id u by_ => updateTicketFields_read env id u by_ s
  | OpAssign id a by_ => assignTicket_read env id a by_ s
  | OpComment id content isPublic by_ => addTicketComment_read env id content isPublic by_ s
  | OpEdit n content by_ any expected => editTicketComment_read n content by_ any expected s
  | OpErase n by_ any expected => deleteTicketComment_read n by_ any expected s
  | OpPortalComment id content userId orgId name => portalComment_read env id content userId orgId name s
  | OpPortalEdit n id content userId name => portalEdit_read n id content userId name s
  | OpPortalErase n id userId => portalErase_read n id userId s
  | OpLink id alertId by_ => linkAlertToTicket_read env id alertId by_ s
  | OpUnlink id alertId by_ => unlinkAlertFromTicket_read id alertId by_ s
  | OpDelete id by_ => softDeleteTicket_read id by_ s
  | OpRestore id => restoreTicket_read id s
  | OpMove id target by_ => moveTicketOrg_read env id target by_ s
  | OpInbound id partnerId text sender name => inboundReply_read env id partnerId text sender name s
  end.

(** A call that nothing overtakes. *)
Definition call (env : DeskEnv) (op : TicketOp) (s : DeskStore) : outcome DeskStore :=
  let! p := read_op env op s in write_plan env p s.

(** An error leaves the store as it was: the transaction of the request rolls back. *)
Definition keep {A} (s : A) (r : outcome A) : A := match r with Ok s' => s' | Err _ => s end.

Definition tstep (a : TAction) (w : TWorld) : TWorld :=
  match a with
  | AStart op env =>
      match read_op env op (tw_store w) with
      | Ok p => {| tw_store := tw_store w; tw_plans := tw_plans w ++ [p] |}
      | Err _ => w
      end
  | AFinish n env =>
      match tw_plans w !! n with
      | Some p => {| tw_store := keep (tw_store w) (write_plan env p (tw_store w)); tw_plans := delete n (tw_plans w) |}
      | None => w
      end
  | ALose n => {| tw_store := tw_store w; tw_plans := delete n (tw_plans w) |}
  | ACall op env => {| tw_store := keep (tw_store w) (call env op (tw_store w)); tw_plans := tw_plans w |}
  | ASweep dbNow locked =>
      {| tw_store := sweepTicketSlaBreaches dbNow locked (tw_store w); tw_plans := tw_plans w |}
  end.

(** Which calls may be overtaken between their read and their write. *)
Definition allowed (late : TicketOp -> bool) (a : TAction) : Prop :=
  match a with AStart op _ => late op = true | _ => True end.

Inductive treachable (late : TicketOp -> bool) : TWorld -> Prop :=
| tr_start : treachable late {| tw_store := empty_desk; tw_plans := [] |}
| tr_step w a : treachable late w -> allowed late a -> treachable late (tstep a w).

Definition any_op (op : TicketOp) : bool := true.

(** Every call but an assignment. *)
Definition not_assign (op : TicketOp) : bool := match op with OpAssign _ _ _ => false | _ => true end.

(** ** What a write does to the tickets *)

(** What happens to the status columns of a row. *)
Inductive tickets_life (p : Plan) (k : string) : (TicketLife -> TicketLife) -> TicketLife -> Prop :=
| tl_label l sid : tickets_life p k (set_label sid) l
| tl_status_change l old to_ sid opts name by_ at_ : p = PStatus k old to_ sid opts name by_ at_ ->
    tl_status l = tl_status old -> tickets_life p k (status_patch old to_ sid opts (ac_userId by_) at_) l
| tl_reopened l : tl_status l = tks_resolved -> tickets_life p k set_reopened l.

(** One row changed by [f] under a condition, or a new row, or none. *)
Inductive ticket_edge (p : Plan) (env : DeskEnv) (k : string) : option Ticket -> option Ticket -> Prop :=
| te_same o : ticket_edge p env k o o
| te_new t partnerId alert by_ number : p = PCreate t partnerId alert by_ ->
    ticket_edge p env k None (Some (set_head (set_number number) t))
| te_life t f : tickets_life p k f (tk_life t) -> ticket_edge p env k (Some t) (Some (set_tlife f t))
| te_assigned t a prev opens by_ : p = PAssign k a prev opens by_ ->
    ticket_edge p env k (Some t) (Some ((if opens then set_tlife set_opened else (fun x => x)) (set_assignee a t)))
| te_other t f : (forall x, tk_life (f x) = tk_life x /\ tk_slaBreachReason (f x) = tk_slaBreachReason x
                            /\ tk_firstResponseAt (f x) = tk_firstResponseAt x) ->
    ticket_edge p env k (Some t) (Some (f t))
| te_response t c ann : p = PComment c true ann -> ticket_edge p env k (Some t) (Some (set_firstResponse (de_now env) t)).

Lemma cas_ticket_spec id p f e s s' : cas_ticket id p f e s = Ok s' ->
  exists t, dk_tickets s !! id = Some t /\ p t = true /\ s' = with_tickets (<[id := f t]>) s.
Proof. unfold cas_ticket. intros H. repeat case_match; simplify_eq. eauto. Qed.

Lemma cas_edge plan env id p f e s s' k : cas_ticket id p f e s = Ok s' ->
  (forall t, p t = true -> ticket_edge plan env id (Some t) (Some (f t))) ->
  ticket_edge plan env k (dk_tickets s !! k) (dk_tickets s' !! k).
Proof.
  intros (t & Ht & Hp & ->)%cas_ticket_spec Hf. cbn. destruct (decide (k = id)) as [->|Hk].
  - rewrite lookup_insert_eq, Ht. by apply Hf.
  - rewrite lookup_insert_ne by done. constructor.
Qed.

Lemma link_write_tickets id aid l title by_ now s s' : link_write id aid l title by_ now s = Ok s' -> dk_tickets s' = dk_tickets s.
Proof. unfold link_write. intros H. case_match; by simplify_eq. Qed.

Lemma edit_comment_tickets f n s s' : edit_comment f n s = Ok s' -> dk_tickets s' = dk_tickets s.
Proof. unfold edit_comment. intros H. case_match; by simplify_eq. Qed.

Lemma write_edge env p s s' k : write_plan env p s = Ok s' -> ticket_edge p env k (dk_tickets s !! k) (dk_tickets s' !! k).
Proof.
  intros H. destruct p; unfold_writes H.
  - simplify_eq. constructor.
  - result_ok H. bool_hyps.
    assert (E : dk_tickets s' = <[de_newId env := set_head (set_number (formatInternalNumber (de_year env)
       (default 0 (dk_sequences s !! (partnerId, de_year env)) + 1))) t]> (dk_tickets s)).
    { destruct alert as [[aid ar]|]; [by rewrite (link_write_tickets _ _ _ _ _ _ _ _ H)|by simplify_eq]. }
    rewrite E. destruct (decide (k = de_newId env)) as [->|Hk].
    + rewrite lookup_insert_eq, Hg. by econstructor.
    + rewrite lookup_insert_ne by done. constructor.
  - result_ok H. assert (E : dk_tickets s' = dk_tickets a) by (repeat case_match; by simplify_eq). rewrite E.
    eapply cas_edge; [exact Hg|]. intros t _. constructor. constructor.
  - result_ok H. simplify_eq. cbn. eapply cas_edge; [exact Hg|]. intros t Ht. apply te_life.
    eapply tl_status_change; [done|]. by apply bool_decide_eq_true in Ht.
  - result_ok H. simplify_eq. cbn. eapply cas_edge; [exact Hg|]. intros t _. by apply te_other.
  - result_ok H. simplify_eq. cbn. eapply cas_edge; [exact Hg|]. intros t _. by econstructor.
  - simplify_eq. assert (E : forall b ev st, dk_tickets (if b : bool then announce ev st else st) = dk_tickets st) by (by intros []).
    rewrite E. destruct stamp; [|constructor]. cbn. destruct (decide (k = tc_ticketId c)) as [->|Hk].
    + rewrite lookup_alter_eq. destruct (dk_tickets s !! _); [|constructor]. by econstructor.
    + rewrite lookup_alter_ne by done. constructor.
  - rewrite (link_write_tickets _ _ _ _ _ _ _ _ H). constructor.
  - case_match; simplify_eq. constructor.
  - rewrite (edit_comment_tickets _ _ _ _ H). constructor.
  - rewrite (edit_comment_tickets _ _ _ _ H). constructor.
  - eapply cas_edge; [exact H|]. intros t _. by apply te_other.
  - eapply cas_edge; [exact H|]. intros t _. by apply te_other.
  - result_ok H. simplify_eq. cbn. eapply cas_edge; [exact Hg|]. intros t _.
    by apply (te_other _ _ _ _ (fun t => set_fields (set_device None) (set_head (set_org targetOrgId) t))).
  - simplify_eq. destruct reopen; [|constructor]. cbn. destruct (dk_tickets s !! id) as [t|] eqn:Et; [|constructor].
    case_match eqn:Ec; [|constructor]. bool_hyps. destruct (decide (k = id)) as [->|Hk].
    + rewrite lookup_insert_eq, Et. constructor. by constructor.
    + rewrite lookup_insert_ne by done. constructor.
Qed.
End system.
