(* ===== verification/TicketTheorems.v ===== *)
(** * What holds of tickets, whatever overlaps

    The status table and its stamps, the one-shot breach events, the pause ledger,
    and what an assignment that is overtaken can do. *)

From stdpp Require Import base gmap strings list option sorting.
From Stdlib Require Import ZArith Lia Ascii Btauto.
From S2P Require Import Prelude Json Money BillingStore Invoices DeskStore.
From S2P Require Import Tickets TicketSystem.

Open Scope Z_scope.

(** ** Stamps *)

(** The stamps of a row say what its status says. *)
Record stamps_agree (l : TicketLife) : Prop := {
  sa_paused : is_paused (tl_status l) = true <-> tl_slaPausedAt l <> None;
  sa_resolved : is_done (tl_status l) = true <-> tl_resolvedAt l <> None;
  sa_closed : tl_status l = tks_closed <-> tl_closedAt l <> None;
  sa_closedBy : tl_status l = tks_closed <-> tl_closedBy l <> None;
  sa_reason : tl_pendingReason l <> None -> is_paused (tl_status l) = true;
  sa_minutes : 0 <= default 0 (tl_slaPausedMinutes l);
}.

(** The status moves along the table. *)
Definition status_edge (a b : TicketStatus) : Prop := b = a \/ b ∈ TICKET_STATUS_TRANSITIONS a.

Lemma elapsed_nonneg a b : 0 <= elapsedMinutes a b.
Proof. unfold elapsedMinutes. lia. Qed.

(** The change of a row that agrees with what was read of it. *)
Lemma patch_agrees old to_ sid opts u now l :
  stamps_agree old -> stamps_agree l -> tl_status l = tl_status old -> to_ ∈ TICKET_STATUS_TRANSITIONS (tl_status old) ->
  stamps_agree (status_patch old to_ sid opts u now l).
Proof.
  intros [o1 o2 o3 o4 o5 o6] [l1 l2 l3 l4 l5 l6] E Hin.
  assert (Hto : bool_decide (to_ ∈ TICKET_STATUS_TRANSITIONS (tl_status old)) = true) by by apply bool_decide_eq_true. clear Hin.
  destruct old as [ost osid orea ores ocl ocb onote opa omin], l as [st lsid rea res cl cb note pa min]; cbn in *. subst st.
  assert (Hmin : forall x y, 0 <= default 0 omin + elapsedMinutes x y).
  { intros x y. pose proof (elapsed_nonneg x y). destruct omin; cbn in *; lia. }
  destruct ost, to_; try discriminate Hto; unfold status_patch; cbn in *; constructor; cbn in *;
    first [done | assumption | by split | (split; [done|intros Hx; discriminate (proj2 l3 Hx)])
           | (split; [done|intros Hx; discriminate (proj2 l4 Hx)]) | (destruct opa; cbn; first [apply Hmin | assumption])].
Qed.

Lemma opened_agrees l : stamps_agree l -> tl_status l = tks_new -> stamps_agree (set_opened l).
Proof. intros [] E. rewrite E in *. unfold set_opened. constructor; cbn in *; naive_solver. Qed.

Lemma reopened_agrees l : stamps_agree l -> tl_status l = tks_resolved -> stamps_agree (set_reopened l).
Proof. intros [] E. rewrite E in *. unfold set_reopened. constructor; cbn in *; naive_solver. Qed.

Lemma label_agrees l sid : stamps_agree l -> stamps_agree (set_label sid l).
Proof. intros []. by constructor. Qed.

(** What a plan carries from its read. *)
Definition plan_ok (p : Plan) : Prop :=
  match p with
  | PCreate t _ _ _ => stamps_agree (tk_life t) /\ tk_slaBreachReason t = None
  | PStatus _ old to_ _ _ _ _ _ => stamps_agree old /\ to_ ∈ TICKET_STATUS_TRANSITIONS (tl_status old)
  | _ => True
  end.

Definition tickets_ok (s : DeskStore) : Prop := forall k t, dk_tickets s !! k = Some t -> stamps_agree (tk_life t).

(** One row along one write: the assignment, when it opens, must find what it read. *)
Lemma edge_agrees p env k t o :
  plan_ok p -> stamps_agree (tk_life t) ->
  (forall a prev by_, p = PAssign k a prev true by_ -> tk_status t = tks_new) ->
  ticket_edge p env k (Some t) o ->
  exists t', o = Some t' /\ stamps_agree (tk_life t') /\ status_edge (tk_status t) (tk_status t').
Proof.
  intros Hp Ht Ha He. inversion He as [| |? f Hf|? a prev opens by_ Hpa|? f Hf|]; subst.
  - eexists. split_and!; [done|done|by left].
  - eexists. split; [done|]. unfold tk_status in *. cbn. clear He Ha. revert Ht Hf. generalize (tk_life t). intros l0 Ht Hf.
    destruct Hf as [l sid|l old to_ sid opts name by_ at_ Hpe E|l E].
    + split; [by apply label_agrees|by left].
    + subst p. destruct Hp as [Hold Hto]. split; [|right; cbn; by rewrite E].
      by apply patch_agrees.
    + split; [by apply reopened_agrees|]. right. rewrite E. set_solver.
  - eexists. split; [done|]. destruct opens; [|split; [done|by left]]. specialize (Ha _ _ _ eq_refl). cbn. split.
    + by apply opened_agrees.
    + right. unfold tk_status in *. rewrite Ha. set_solver.
  - eexists. split; [done|]. destruct (Hf t) as (E & _ & _). unfold tk_status. rewrite E. split; [done|by left].
  - eexists. split_and!; [done|done|by left].
Qed.

Lemma new_edge_agrees p env k t : plan_ok p -> ticket_edge p env k None (Some t) -> stamps_agree (tk_life t).
Proof. intros Hp He. inversion He; subst. apply Hp. Qed.

(** ** Reads *)

Lemma getTicket_ok id s t : getTicketOrThrow id s = Ok t -> dk_tickets s !! id = Some t.
Proof. unfold getTicketOrThrow. by case_match; intros; simplify_eq. Qed.

Section reads.
Context (applyIntakeForm : FormRow -> json -> result string AppliedIntakeForm).
Abbreviation read_op := (read_op applyIntakeForm).

Lemma create_plan env i al by_ p : createTicket_read applyIntakeForm env i al by_ = Ok p ->
  exists t pid, p = PCreate t pid al by_ /\ stamps_agree (tk_life t) /\ tk_slaBreachReason t = None
    /\ tl_slaPausedMinutes (tk_life t) = Some 0 /\ is_paused (tk_status t) = false.
Proof.
  unfold createTicket_read. destruct (dd_orgs _ _) as [org|]; [|done]. intros H. result_ok H. simplify_eq. eexists _, _. split; [done|].
  destruct (truthy (ci_assigneeId i)); (split_and!; [|done|done|done]); constructor; cbn; naive_solver.
Qed.

(** What a read guarantees of its plan. *)
Definition planned (env : DeskEnv) (op : TicketOp) (s : DeskStore) (p : Plan) : Prop :=
  match p with
  | PCreate t _ _ _ => stamps_agree (tk_life t) /\ tk_slaBreachReason t = None
      /\ tl_slaPausedMinutes (tk_life t) = Some 0 /\ is_paused (tk_status t) = false
  | PStatus id old to_ _ _ _ _ at_ =>
      exists t, dk_tickets s !! id = Some t /\ old = tk_life t /\ at_ = de_now env /\ to_ ∈ TICKET_STATUS_TRANSITIONS (tl_status old)
  | PAssign id _ _ opens _ => not_assign op = false
      /\ (opens = true -> exists t, dk_tickets s !! id = Some t /\ tk_status t = tks_new)
  | _ => True
  end.

Ltac plain_read H := repeat (result_ok H; repeat case_match; simplify_eq); done.

Lemma read_planned env op s p : read_op env op s = Ok p -> planned env op s p.
Proof.
  destruct op; cbn [TicketSystem.read_op]; intros H.
  - apply create_plan in H as (t & pid & -> & Ht). done.
  - unfold createTicketFromAlert_read in H. case_match; [|done]. by apply create_plan in H as (t & pid & -> & Ht).
  - unfold changeTicketStatus_read in H. result_ok H. destruct a0 as [[to_ sid] name].
    destruct (bool_decide (to_ = _)); [destruct (bool_decide (sid = _)); by simplify_eq|]. result_ok H. simplify_eq. bool_hyps. eexists. split_and!; [by apply getTicket_ok|done|done|done].
  - unfold updateTicketFields_read in H. plain_read H.
  - unfold assignTicket_read in H. result_ok H. simplify_eq. split; [done|]. intros Ho. bool_hyps.
    eexists. split; [by apply getTicket_ok|done].
  - unfold addTicketComment_read in H. plain_read H.
  - unfold editTicketComment_read in H. plain_read H.
  - unfold deleteTicketComment_read in H. plain_read H.
  - unfold portalComment_read in H. plain_read H.
  - unfold portalEdit_read, editTicketComment_read in H. plain_read H.
  - unfold portalErase_read, deleteTicketComment_read in H. plain_read H.
  - unfold linkAlertToTicket_read, linkAlert_checked in H. plain_read H.
  - unfold unlinkAlertFromTicket_read in H. plain_read H.
  - unfold softDeleteTicket_read in H. plain_read H.
  - unfold restoreTicket_read in H. plain_read H.
  - unfold moveTicketOrg_read in H. plain_read H.
  - unfold inboundReply_read in H. plain_read H.
Qed.

Lemma planned_ok env op s p : tickets_ok s -> planned env op s p -> plan_ok p.
Proof. intros Hs. destruct p; cbn; try done; [tauto|]. intros (t & Ht & -> & _ & H). split; [by eapply Hs|done]. Qed.

(** ** The status table under every interleaving *)

(** An opening assignment finds its ticket new. *)
Definition fresh_assign (p : Plan) (s : DeskStore) : Prop :=
  match p with
  | PAssign id _ _ true _ => forall t, dk_tickets s !! id = Some t -> tk_status t = tks_new
  | _ => True
  end.

(** The rows of the old store are there, moved along the table. *)
Definition moved (s s' : DeskStore) : Prop :=
  forall k t, dk_tickets s !! k = Some t ->
  exists t', dk_tickets s' !! k = Some t' /\ status_edge (tk_status t) (tk_status t').

Lemma moved_refl s : moved s s.
Proof. intros k t Ht. exists t. split; [done|by left]. Qed.

Lemma write_agrees env p s s' : tickets_ok s -> plan_ok p -> fresh_assign p s -> write_plan env p s = Ok s' ->
  tickets_ok s' /\ moved s s'.
Proof.
  intros Hs Hp Hf H. split; intros k t Ht; pose proof (write_edge env p s s' k H) as He; rewrite Ht in He.
  - destruct (dk_tickets s !! k) as [t0|] eqn:E; [|by eapply new_edge_agrees].
    eapply edge_agrees in He as (t' & [= ->] & ? & _); [done|done|by eapply Hs|].
    intros a prev by_ ->. by eapply Hf.
  - eapply edge_agrees in He as (t' & -> & _ & ?); [by eauto|done|by eapply Hs|]. intros a prev by_ ->. by eapply Hf.
Qed.

Lemma stamp_lookup k dbNow locked s id :
  dk_tickets (stampBreaches k dbNow locked s).1 !! id
  = (fun t => if bool_decide (id ∈ (stampBreaches k dbNow locked s).2) then set_breached k dbNow t else t) <$> dk_tickets s !! id.
Proof. cbn. rewrite map_lookup_imap. by destruct (dk_tickets s !! id). Qed.

Lemma announce_all_tickets es s : dk_tickets (fold_left (fun st e => announce e st) es s) = dk_tickets s.
Proof. revert s. induction es as [|e es IH]; intros s; [done|]. cbn. by rewrite IH. Qed.

Lemma announce_all_events es s : dk_events (fold_left (fun st e => announce e st) es s) = dk_events s ++ es.
Proof.
  revert s. induction es as [|e es IH]; intros s; cbn; [by rewrite app_nil_r|]. rewrite IH. cbn. by rewrite <- app_assoc.
Qed.

(** The two rounds of a sweep, one after the other. *)
Definition sweep1 dbNow locked s := stampBreaches sla_response dbNow locked s.
Definition sweep2 dbNow locked s := stampBreaches sla_resolution dbNow locked (sweep1 dbNow locked s).1.

Lemma sweep_tickets dbNow locked s : dk_tickets (sweepTicketSlaBreaches dbNow locked s) = dk_tickets (sweep2 dbNow locked s).1.
Proof.
  unfold sweepTicketSlaBreaches, sweep2, sweep1. destruct (stampBreaches sla_response _ _ s) as [s1 r]. cbn [fst].
  destruct (stampBreaches sla_resolution _ _ s1) as [s2 r2]. by rewrite announce_all_tickets.
Qed.

Lemma sweep_events dbNow locked s : dk_events (sweepTicketSlaBreaches dbNow locked s)
  = dk_events s ++ ((fun id => ticket_sla_breached id sla_response) <$> (sweep1 dbNow locked s).2)
                ++ ((fun id => ticket_sla_breached id sla_resolution) <$> (sweep2 dbNow locked s).2).
Proof.
  unfold sweepTicketSlaBreaches, sweep2, sweep1. destruct (stampBreaches sla_response _ _ s) as [s1 r] eqn:E1. cbn [fst snd].
  destruct (stampBreaches sla_resolution _ _ s1) as [s2 r2] eqn:E2. rewrite announce_all_events. cbn [snd].
  unfold stampBreaches in E1, E2. by simplify_eq.
Qed.

Lemma sweep_life dbNow locked s k t : dk_tickets s !! k = Some t ->
  exists t', dk_tickets (sweepTicketSlaBreaches dbNow locked s) !! k = Some t' /\ tk_life t' = tk_life t.
Proof.
  intros Ht. rewrite sweep_tickets. unfold sweep2, sweep1. rewrite !stamp_lookup, Ht. eexists. split; [done|].
  cbn. by repeat case_bool_decide.
Qed.

Lemma sweep_back dbNow locked s k t' : dk_tickets (sweepTicketSlaBreaches dbNow locked s) !! k = Some t' ->
  exists t, dk_tickets s !! k = Some t /\ tk_life t' = tk_life t.
Proof.
  destruct (dk_tickets s !! k) as [t|] eqn:E.
  - intros H. destruct (sweep_life dbNow locked _ _ _ E) as (t1 & H1 & ?). exists t. by simplify_eq.
  - rewrite sweep_tickets. unfold sweep2, sweep1. by rewrite !stamp_lookup, E.
Qed.

(** Plans in flight are as their reads left them, and none is an assignment. *)
Definition table_inv (w : TWorld) : Prop :=
  tickets_ok (tw_store w)
  /\ Forall (fun p => plan_ok p /\ forall id a prev o by_, p <> PAssign id a prev o by_) (tw_plans w).

Lemma fresh_other p s : (forall id a prev o by_, p <> PAssign id a prev o by_) -> fresh_assign p s.
Proof. intros H. destruct p as [| | | | |id a prev [] by_| | | | | | | | |]; cbn; try done. by destruct (H id a prev true by_). Qed.

Lemma call_agrees env op s s' : tickets_ok s -> call applyIntakeForm env op s = Ok s' -> tickets_ok s' /\ moved s s'.
Proof.
  unfold call. intros Hs (p & Hr & Hw)%rbind_Ok. pose proof (read_planned _ _ _ _ Hr) as Hp.
  eapply write_agrees; [done|by eapply planned_ok| |done].
  destruct p as [| | | | |id a prev [] by_| | | | | | | | |]; cbn; try done. destruct Hp as [_ Hn]. intros t Ht.
  destruct (Hn eq_refl) as (t' & Ht' & ?). by simplify_eq.
Qed.

Lemma keep_agrees s r : tickets_ok s -> (forall s', r = Ok s' -> tickets_ok s' /\ moved s s') ->
  tickets_ok (keep s r) /\ moved s (keep s r).
Proof. intros Hs Hr. destruct r; cbn; [by apply Hr|split; [done|apply moved_refl]]. Qed.

Abbreviation tstep := (tstep applyIntakeForm).
Abbreviation treachable := (treachable applyIntakeForm).

Lemma step_table w a : table_inv w -> allowed not_assign a -> table_inv (tstep a w) /\ moved (tw_store w) (tw_store (tstep a w)).
Proof.
  intros [Hs Hps] Ha. destruct a as [op env|n env|n|op env|dbNow locked]; cbn in *.
  - destruct (TicketSystem.read_op _ env op _) as [p|] eqn:Hr; [|split; [done|apply moved_refl]].
    split; [|apply moved_refl]. split; [done|]. apply Forall_app. split; [done|]. constructor; [|constructor].
    pose proof (read_planned _ _ _ _ Hr) as Hp. split; [by eapply planned_ok|]. intros id a prev o by_ ->. destruct Hp. congruence.
  - destruct (tw_plans w !! n) as [p|] eqn:Hp; [|split; [done|apply moved_refl]].
    destruct (proj1 (Forall_lookup _ _) Hps _ _ Hp) as [Hok Hno].
    destruct (keep_agrees (tw_store w) (write_plan env p (tw_store w)) Hs) as [H1 H2].
    { intros s' Hw. eapply write_agrees; [done|done|by apply fresh_other|done]. }
    split; [|done]. split; [done|]. by apply Forall_delete.
  - split; [|apply moved_refl]. split; [done|by apply Forall_delete].
  - destruct (keep_agrees (tw_store w) (call applyIntakeForm env op (tw_store w)) Hs) as [H1 H2]; [by intros; eapply call_agrees|].
    by split.
  - split; [split; [|done]|].
    + intros k t' (t & Ht & ->)%sweep_back. by eapply Hs.
    + intros k t Ht. destruct (sweep_life dbNow locked _ _ _ Ht) as (t' & ? & E). exists t'. split; [done|].
      left. unfold tk_status. by rewrite E.
Qed.

Lemma reachable_table w : treachable not_assign w -> table_inv w.
Proof.
  induction 1 as [|w a _ IH Ha]; [|by apply step_table]. split; [|constructor]. intros k t Ht. cbn in Ht.
  by rewrite lookup_empty in Ht.
Qed.

(** C15: Whatever calls of the desk, portal comments, mails and breach sweeps overlap (an
    assignment writing right after its read), the stamps of every ticket say what its
    status says: the service clock is paused exactly while it is pending or on hold,
    it has a resolution date exactly while it is resolved or closed, a closing date
    and somebody who closed it exactly while it is closed; and every step moves every
    ticket along the table of transitions and loses none. *)
Theorem tickets_follow_the_status_table w : treachable not_assign w ->
  (forall k t, dk_tickets (tw_store w) !! k = Some t -> stamps_agree (tk_life t))
  /\ forall a, allowed not_assign a -> moved (tw_store w) (tw_store (tstep a w)).
Proof.
  intros Hw%reachable_table. split; [exact (proj1 Hw)|]. intros a Ha. by apply step_table.
Qed.

(** ** Breaches *)

Lemma split_nonempty sep x : str_split sep x <> [].
Proof. destruct x as [|c x]; [done|]. cbn. case_bool_decide; [done|]. by destruct (str_split sep x). Qed.

Lemma split_append sep x y : str_split sep (x ++ String sep y)%string = str_split sep x ++ str_split sep y.
Proof.
  induction x as [|c x IH].
  { change ("" ++ String sep y)%string with (String sep y). cbn [str_split]. by rewrite bool_decide_eq_true_2. }
  change (String c x ++ String sep y)%string with (String c (x ++ String sep y)). cbn [str_split]. rewrite IH.
  case_bool_decide; [done|]. pose proof (split_nonempty sep x). by destruct (str_split sep x).
Qed.

(** What the SQL appends is one more part of the text. *)
Lemma stamped_parts k r :
  string_to_array (stamp_reason k r) = string_to_array (default EmptyString r) ++ [target_name k].
Proof.
  unfold stamp_reason. destruct (default EmptyString r) as [|c x] eqn:E; [by destruct k|].
  change (string_to_array (String c x)) with (str_split "," (String c x)).
  change (string_to_array (String c x ++ "," ++ target_name k)) with (str_split "," (String c x ++ String "," (target_name k))).
  rewrite split_append. by destruct k.
Qed.

Lemma target_name_inj a b : target_name a = target_name b -> a = b.
Proof. by destruct a, b. Qed.

Lemma breached_after k j dbNow t :
  already_breached j (set_breached k dbNow t) = bool_decide (j = k) || already_breached j t.
Proof.
  unfold already_breached, set_breached. cbn. rewrite stamped_parts. apply eq_true_iff_eq. rewrite orb_true_iff, !bool_decide_eq_true.
  rewrite elem_of_app, list_elem_of_singleton. split; [intros [?|?%target_name_inj]; auto|intros [->|?]; auto].
Qed.

Definition is_breach (id : string) (k : SlaTargetKind) (e : DeskEvent) : bool :=
  bool_decide (e = ticket_sla_breached id k).

(** What the row remembers of the target. *)
Definition breach_bit (k : SlaTargetKind) (o : option Ticket) : nat :=
  match o with Some t => if already_breached k t then 1 else 0 | None => 0 end.

Definition breaches_ok (s : DeskStore) : Prop :=
  forall id k, (count_if (is_breach id k) (dk_events s) <= breach_bit k (dk_tickets s !! id))%nat.

Definition no_breach (e : DeskEvent) : Prop := forall id k, is_breach id k e = false.

Lemma link_write_events id aid l title by_ now s s' : link_write id aid l title by_ now s = Ok s' -> dk_events s' = dk_events s.
Proof. unfold link_write. intros H. case_match; by simplify_eq. Qed.

Lemma cas_ticket_events id p f e s s' : cas_ticket id p f e s = Ok s' -> dk_events s' = dk_events s.
Proof. by intros (t & _ & _ & ->)%cas_ticket_spec. Qed.

Lemma edit_comment_events f n s s' : edit_comment f n s = Ok s' -> dk_events s' = dk_events s.
Proof. unfold edit_comment. intros H. case_match; by simplify_eq. Qed.

Ltac quiet := intros ??; by apply bool_decide_eq_false_2.

(** A call announces at most one thing, and never a breach. *)
Lemma write_events env p s s' : write_plan env p s = Ok s' ->
  exists es, dk_events s' = dk_events s ++ es /\ Forall no_breach es.
Proof.
  intros H. assert (Hone : forall e, no_breach e -> forall l l', l = l' -> exists es, l ++ [e] = l' ++ es /\ Forall no_breach es).
  { intros e He l l' ->. exists [e]. split; [done|by repeat constructor]. }
  assert (Hnil : forall l l' : list DeskEvent, l = l' -> exists es, l = l' ++ es /\ Forall no_breach es).
  { intros l l' ->. exists []. split; [by rewrite app_nil_r|constructor]. }
  destruct p; unfold_writes H.
  - simplify_eq. by apply Hnil.
  - result_ok H. destruct alert as [[aid ar]|].
    + apply link_write_events in H. rewrite H. apply Hone; [quiet|done].
    + simplify_eq. apply Hone; [quiet|done].
  - result_ok H. apply Hnil. apply cas_ticket_events in Hg. rewrite <- Hg. repeat case_match; by simplify_eq.
  - result_ok H. simplify_eq. apply Hone; [quiet|]. exact (cas_ticket_events _ _ _ _ _ _ Hg).
  - result_ok H. simplify_eq. apply Hone; [quiet|]. exact (cas_ticket_events _ _ _ _ _ _ Hg).
  - result_ok H. simplify_eq. apply Hone; [quiet|]. exact (cas_ticket_events _ _ _ _ _ _ Hg).
  - simplify_eq. destruct announced, stamp; cbn; first [by apply Hnil|apply Hone; [quiet|done]].
  - apply Hnil. by eapply link_write_events.
  - case_match; simplify_eq. by apply Hnil.
  - apply Hnil. by eapply edit_comment_events.
  - apply Hnil. by eapply edit_comment_events.
  - apply Hnil. by eapply cas_ticket_events.
  - apply Hnil. by eapply cas_ticket_events.
  - result_ok H. simplify_eq. apply Hone; [quiet|]. exact (cas_ticket_events _ _ _ _ _ _ Hg).
  - simplify_eq. destruct reopen; (apply Hone; [quiet|done]).
Qed.

Lemma edge_bit p env k o o' tgt : ticket_edge p env k o o' -> (breach_bit tgt o <= breach_bit tgt o')%nat.
Proof.
  intros He. destruct He as [| |t f _|t a prev opens by_ _|t f Hf|]; cbn; try lia; unfold already_breached; cbn; try lia.
  - destruct opens; cbn; lia.
  - destruct (Hf t) as (_ & -> & _). lia.
Qed.

Lemma write_breaches env p s s' : breaches_ok s -> write_plan env p s = Ok s' -> breaches_ok s'.
Proof.
  intros Hs H id k. destruct (write_events _ _ _ _ H) as (es & -> & Hes). rewrite count_if_app, (count_if_zero _ es).
  - pose proof (edge_bit _ _ _ _ _ k (write_edge env p s s' id H)). specialize (Hs id k). lia.
  - intros e He. rewrite Forall_forall in Hes. by apply Hes.
Qed.

Definition due_rows (k : SlaTargetKind) (dbNow : Z) (m : gmap string Ticket) : list (string * Ticket) :=
  List.filter (fun r => breach_due k dbNow r.2) (map_to_list m).

Lemma due_rows_elem k dbNow m id t : (id, t) ∈ due_rows k dbNow m <-> m !! id = Some t /\ breach_due k dbNow t = true.
Proof. unfold due_rows. by rewrite list_filter_elem, elem_of_map_to_list. Qed.

Lemma filter_keys_nodup {A B} (p : A * B -> bool) (l : list (A * B)) : NoDup l.*1 -> NoDup (List.filter p l).*1.
Proof.
  induction l as [|x l IH]; cbn; [done|]. intros [Hx Hl]%NoDup_cons. destruct (p x); cbn; [|by apply IH].
  constructor; [|by apply IH]. intros (y & E & [Hy _]%list_filter_elem)%list_elem_of_fmap. apply Hx. rewrite E. by apply list_elem_of_fmap_2.
Qed.

Lemma due_tickets_nodup k dbNow locked m : NoDup (due_tickets k dbNow locked m).
Proof.
  unfold due_tickets. rewrite fmap_take. eapply sublist_NoDup; [|apply sublist_take]. apply filter_keys_nodup.
  rewrite (merge_sort_Permutation older). apply filter_keys_nodup, NoDup_fst_map_to_list.
Qed.

Lemma due_tickets_elem k dbNow locked m id : id ∈ due_tickets k dbNow locked m ->
  exists t, m !! id = Some t /\ breach_due k dbNow t = true.
Proof.
  unfold due_tickets. intros ([i t] & -> & H)%list_elem_of_fmap. apply (elem_of_sublist _ _ _) with (2 := sublist_take _ _) in H.
  apply list_filter_elem in H as [H _]. rewrite (merge_sort_Permutation older) in H. exists t. by apply due_rows_elem in H.
Qed.

Lemma due_tickets_all k dbNow locked m id t : (length (due_rows k dbNow m) <= MAX_BREACHES_PER_RUN)%nat ->
  m !! id = Some t -> breach_due k dbNow t = true -> locked id = false -> id ∈ due_tickets k dbNow locked m.
Proof.
  intros Hcap Ht Hd Hl. unfold due_tickets. rewrite take_ge.
  - apply list_elem_of_fmap. exists (id, t). split; [done|]. apply list_filter_elem. split; [|cbn; by rewrite Hl].
    rewrite (merge_sort_Permutation older). by apply due_rows_elem.
  - etrans; [apply filter_length_le|]. by rewrite (merge_sort_Permutation older).
Qed.

Lemma due_not_breached k dbNow t : breach_due k dbNow t = true -> already_breached k t = false.
Proof. unfold breach_due. intros H. bool_hyps. case_match; [|done]. by bool_hyps. Qed.

Lemma stamp_bit k dbNow locked s id j : breach_bit j (dk_tickets (stampBreaches k dbNow locked s).1 !! id)
  = (breach_bit j (dk_tickets s !! id)
     + if bool_decide (j = k) && bool_decide (id ∈ (stampBreaches k dbNow locked s).2) then 1 else 0)%nat.
Proof.
  rewrite stamp_lookup. set (ids := (stampBreaches k dbNow locked s).2). destruct (bool_decide (id ∈ ids)) eqn:Hin.
  - apply bool_decide_eq_true in Hin. unfold ids in Hin. cbn in Hin. apply due_tickets_elem in Hin as (t & Ht & Hd).
    rewrite Ht. cbn. rewrite breached_after. destruct (decide (j = k)) as [->|Hj].
    + rewrite (due_not_breached _ _ _ Hd), bool_decide_eq_true_2 by done. done.
    + rewrite bool_decide_eq_false_2 by done. cbn. lia.
  - rewrite andb_false_r. destruct (dk_tickets s !! id); cbn; lia.
Qed.

Lemma count_stamped id j k ids : NoDup ids ->
  count_if (is_breach id j) ((fun i => ticket_sla_breached i k) <$> ids)
  = (if bool_decide (j = k) && bool_decide (id ∈ ids) then 1 else 0)%nat.
Proof.
  induction 1 as [|x l Hx Hl IH]; [cbn; by rewrite andb_false_r|]. cbn [fmap list_fmap]. rewrite count_if_cons.
  change (list_fmap string DeskEvent (fun i => ticket_sla_breached i k) l) with ((fun i => ticket_sla_breached i k) <$> l).
  rewrite IH. unfold is_breach. destruct (decide (j = k)) as [->|Hj].
  - rewrite (bool_decide_eq_true_2 (k = k)) by done. cbn. destruct (decide (x = id)) as [->|Hne].
    + rewrite bool_decide_eq_true_2, (bool_decide_eq_false_2 (id ∈ l)), bool_decide_eq_true_2 by (done || by left). done.
    + rewrite bool_decide_eq_false_2 by congruence. cbn. repeat case_bool_decide; try done; set_solver.
  - rewrite !(bool_decide_eq_false_2 (j = k)), bool_decide_eq_false_2 by congruence. done.
Qed.

Lemma sweep_breaches dbNow locked s : breaches_ok s -> breaches_ok (sweepTicketSlaBreaches dbNow locked s).
Proof.
  intros Hs id k. rewrite sweep_tickets, sweep_events, !count_if_app. unfold sweep2. rewrite stamp_bit. unfold sweep1. rewrite stamp_bit.
  rewrite !count_stamped by apply due_tickets_nodup. specialize (Hs id k). lia.
Qed.

Lemma step_breaches a w : breaches_ok (tw_store w) -> breaches_ok (tw_store (tstep a w)).
Proof.
  intros Hs. destruct a as [op env|n env|n|op env|dbNow locked]; cbn.
  - by destruct (TicketSystem.read_op _ _ _ _).
  - destruct (tw_plans w !! n) as [p|]; [|done]. cbn. destruct (write_plan env p _) eqn:E; [by eapply write_breaches|done].
  - done.
  - destruct (call _ env op _) as [s'|] eqn:E; [|done]. unfold call in E. apply rbind_Ok in E as (p & _ & E). by eapply write_breaches.
  - by apply sweep_breaches.
Qed.

(** Stamping one target leaves the other as due as it was. *)
Lemma due_after_response dbNow at_ t : breach_due sla_resolution dbNow (set_breached sla_response at_ t) = breach_due sla_resolution dbNow t.
Proof. unfold breach_due. by rewrite breached_after. Qed.

Lemma due_rows_after dbNow locked s :
  length (due_rows sla_resolution dbNow (dk_tickets (sweep1 dbNow locked s).1)) = length (due_rows sla_resolution dbNow (dk_tickets s)).
Proof.
  unfold sweep1. cbn. set (ids := due_tickets sla_response dbNow locked (dk_tickets s)). unfold due_rows.
  assert (E : map_to_list (map_imap (fun id t => Some (if bool_decide (id ∈ ids) then set_breached sla_response dbNow t else t)) (dk_tickets s))
    ≡ₚ (fun r => (r.1, if bool_decide (r.1 ∈ ids) then set_breached sla_response dbNow r.2 else r.2)) <$> map_to_list (dk_tickets s)).
  { apply NoDup_Permutation; [apply NoDup_map_to_list| |].
    - apply (NoDup_fmap_1 fst). rewrite <- list_fmap_compose. apply (NoDup_fst_map_to_list (dk_tickets s)).
    - intros [id t]. rewrite elem_of_map_to_list, map_lookup_imap, list_elem_of_fmap. split.
      + intros H. destruct (dk_tickets s !! id) as [t0|] eqn:Et; [|done]. cbn in H. exists (id, t0). cbn. split; [by simplify_eq|].
        by apply elem_of_map_to_list.
      + intros ([i t0] & [= -> ->] & H%elem_of_map_to_list). by rewrite H. }
  etrans; [apply Permutation_length, filter_permutation, E|].
  clear E. induction (map_to_list (dk_tickets s)) as [|[i t] l IH]; [done|]. cbn.
  case_bool_decide; cbn; rewrite ?due_after_response; destruct (breach_due _ _ t); cbn; first [exact IH | f_equal; exact IH].
Qed.

(** A sweep that takes all that is due announces it. *)
Lemma sweep_stamped dbNow locked s id t k : dk_tickets s !! id = Some t -> locked id = false ->
  (forall j, (length (due_rows j dbNow (dk_tickets s)) <= MAX_BREACHES_PER_RUN)%nat) ->
  count_if (is_breach id k) (dk_events (sweepTicketSlaBreaches dbNow locked s))
  = (count_if (is_breach id k) (dk_events s) + if breach_due k dbNow t then 1 else 0)%nat.
Proof.
  intros Ht Hl Hcap. rewrite sweep_events, !count_if_app, !count_stamped by apply due_tickets_nodup.
  assert (E1 : bool_decide (id ∈ (sweep1 dbNow locked s).2) = breach_due sla_response dbNow t).
  { apply eq_bool_prop_intro. rewrite bool_decide_spec. split.
    - intros (t' & Ht' & Hd)%due_tickets_elem. simplify_eq. by rewrite Hd.
    - intros Hd%Is_true_true. by eapply due_tickets_all. }
  assert (Ht1 : exists t1, dk_tickets (sweep1 dbNow locked s).1 !! id = Some t1 /\ breach_due sla_resolution dbNow t1 = breach_due sla_resolution dbNow t).
  { eexists. split; [unfold sweep1; rewrite stamp_lookup, Ht; reflexivity|]. cbv beta.
    match goal with |- context [if ?b then set_breached _ _ _ else _] => destruct b end; [by rewrite due_after_response|done]. }
  destruct Ht1 as (t1 & Ht1 & Hd1).
  assert (E2 : bool_decide (id ∈ (sweep2 dbNow locked s).2) = breach_due sla_resolution dbNow t).
  { rewrite <- Hd1. apply eq_bool_prop_intro. rewrite bool_decide_spec. split.
    - intros (t' & Ht' & Hd)%due_tickets_elem. simplify_eq. by rewrite Hd.
    - intros Hd%Is_true_true. eapply due_tickets_all; [by rewrite due_rows_after|done..]. }
  rewrite E1, E2. clear. destruct k; generalize (breach_due sla_response dbNow t), (breach_due sla_resolution dbNow t);
    intros [] []; repeat case_bool_decide; cbn; (lia || done).
Qed.

(** ** The text of the breaches and its two readers *)

Definition breach_texts : list (option string) :=
  [None; Some "response"; Some "resolution"; Some "response,resolution"; Some "resolution,response"]%string.

Definition texts_ok (s : DeskStore) : Prop := forall id t, dk_tickets s !! id = Some t -> tk_slaBreachReason t ∈ breach_texts.

Definition sql_breached (k : SlaTargetKind) (r : option string) : bool :=
  bool_decide (target_name k ∈ string_to_array (default EmptyString r)).

Definition text_agrees (k : SlaTargetKind) (r : option string) : bool :=
  Bool.eqb (bool_decide (k ∈ breachedTargets r)) (sql_breached k r)
  && (sql_breached k r || bool_decide (stamp_reason k r = appendBreachTarget r k)
                          && bool_decide (Some (stamp_reason k r) ∈ breach_texts)).

(** On the texts the sweep writes, the functions of ticketSla.ts and the SQL agree. *)
Lemma text_mirrors r k : r ∈ breach_texts -> text_agrees k r = true.
Proof.
  assert (H : forallb (fun r => text_agrees sla_response r && text_agrees sla_resolution r) breach_texts = true) by (vm_compute; reflexivity).
  rewrite forallb_forall in H. intros Hr%list_elem_of_In. apply H in Hr. apply andb_true_iff in Hr as [H1 H2]. destruct k; [exact H1|exact H2].
Qed.

Lemma text_grows r k : r ∈ breach_texts -> sql_breached k r = false -> Some (stamp_reason k r) ∈ breach_texts.
Proof.
  intros H%(text_mirrors r k) Hn. unfold text_agrees in H. rewrite Hn in H. cbn [orb] in H.
  apply andb_true_iff in H as [_ H]. apply andb_true_iff in H as [_ H]. by apply bool_decide_eq_true in H.
Qed.

Lemma edge_text p env k t t' : ticket_edge p env k (Some t) (Some t') -> tk_slaBreachReason t' = tk_slaBreachReason t.
Proof.
  intros He. inversion He as [| |? f Hf|? a prev opens by_ Hpa|? f Hf|]; subst; try done; [by destruct opens|].
  by destruct (Hf t) as (_ & -> & _).
Qed.

Definition fresh_plans (p : Plan) : Prop := match p with PCreate t _ _ _ => tk_slaBreachReason t = None | _ => True end.

Lemma write_texts env p s s' : texts_ok s -> fresh_plans p -> write_plan env p s = Ok s' -> texts_ok s'.
Proof.
  intros Hs Hp H id t' Ht'. pose proof (write_edge env p s s' id H) as He. rewrite Ht' in He.
  destruct (dk_tickets s !! id) as [t|] eqn:Et; [rewrite (edge_text _ _ _ _ _ He); by eapply Hs|].
  inversion He; subst. cbn in *. rewrite Hp. by left.
Qed.

Lemma stamp_texts k dbNow locked s : texts_ok s -> texts_ok (stampBreaches k dbNow locked s).1.
Proof.
  intros Hs id t'. rewrite stamp_lookup. case_bool_decide as Hin.
  - cbn in Hin. apply due_tickets_elem in Hin as (t & Ht & Hd). rewrite Ht. intros [= <-]. cbn. apply text_grows; [by eapply Hs|].
    by apply due_not_breached in Hd.
  - destruct (dk_tickets s !! id) as [t|] eqn:E; intros [= <-]. by eapply Hs.
Qed.

Lemma sweep_texts dbNow locked s : texts_ok s -> texts_ok (sweepTicketSlaBreaches dbNow locked s).
Proof.
  intros Hs id t. rewrite sweep_tickets. unfold sweep2. refine (stamp_texts sla_resolution _ _ _ _ id t).
  unfold sweep1. exact (stamp_texts sla_response _ _ _ Hs).
Qed.

Lemma planned_fresh env op s p : planned env op s p -> fresh_plans p.
Proof. destruct p; cbn; tauto. Qed.

Lemma reachable_texts w : treachable any_op w -> texts_ok (tw_store w) /\ Forall fresh_plans (tw_plans w).
Proof.
  induction 1 as [|w a _ [Hs Hp] _]; [split; [|constructor]; intros id t Ht; cbn in Ht; by rewrite lookup_empty in Ht|].
  destruct a as [op env|n env|n|op env|dbNow locked]; cbn.
  - destruct (TicketSystem.read_op _ _ _ _) as [p|] eqn:E; [|done]. split; [done|]. apply Forall_app. split; [done|].
    repeat constructor. by eapply planned_fresh, read_planned.
  - destruct (tw_plans w !! n) as [p|] eqn:E; [|done]. cbn. split; [|by apply Forall_delete].
    destruct (write_plan env p _) eqn:Hw; [|done]. eapply write_texts; [done| |done]. by eapply Forall_lookup_1.
  - split; [done|by apply Forall_delete].
  - split; [|done]. destruct (call _ env op _) as [s'|] eqn:E; [|done]. unfold call in E. apply rbind_Ok in E as (p & Hr & E).
    eapply write_texts; [done| |done]. by eapply planned_fresh, read_planned.
  - split; [by apply sweep_texts|done].
Qed.

(** ** What a sweep announces *)

Lemma breaches_reached w : treachable any_op w -> breaches_ok (tw_store w).
Proof. induction 1 as [|w a _ IH _]; [|by apply step_breaches]. intros id k. cbn. lia. Qed.

(** The row remembers no announcement that was not made. *)
Definition remembered (s : DeskStore) : Prop :=
  forall id k, (breach_bit k (dk_tickets s !! id) <= count_if (is_breach id k) (dk_events s))%nat.

Lemma write_remembered env p s s' : remembered s -> fresh_plans p -> write_plan env p s = Ok s' -> remembered s'.
Proof.
  intros Hs Hp H id k. destruct (write_events _ _ _ _ H) as (es & -> & _). rewrite count_if_app.
  pose proof (write_edge env p s s' id H) as He. destruct (dk_tickets s' !! id) as [t'|] eqn:Et'; [|cbn; lia].
  destruct (dk_tickets s !! id) as [t|] eqn:Et.
  - specialize (Hs id k). rewrite Et in Hs. cbn in *. unfold already_breached in *. rewrite (edge_text _ _ _ _ _ He). lia.
  - inversion He; subst. cbn in Hp |- *. unfold already_breached.
    change (tk_slaBreachReason (set_head (set_number number) t)) with (tk_slaBreachReason t). rewrite Hp. cbn.
    rewrite bool_decide_eq_false_2 by apply not_elem_of_nil. lia.
Qed.

Lemma sweep_remembered dbNow locked s : remembered s -> remembered (sweepTicketSlaBreaches dbNow locked s).
Proof.
  intros Hs id k. rewrite sweep_tickets, sweep_events, !count_if_app. unfold sweep2. rewrite stamp_bit. unfold sweep1. rewrite stamp_bit.
  rewrite !count_stamped by apply due_tickets_nodup. specialize (Hs id k). lia.
Qed.

Lemma reachable_remembered w : treachable any_op w -> remembered (tw_store w).
Proof.
  induction 1 as [|w a Hw IH _]; [intros id k; cbn; rewrite lookup_empty; cbn; lia|]. destruct (reachable_texts _ Hw) as [_ Hp].
  destruct a as [op env|n env|n|op env|dbNow locked]; cbn.
  - by destruct (TicketSystem.read_op _ _ _ _).
  - destruct (tw_plans w !! n) as [p|] eqn:E; [|done]. cbn. destruct (write_plan env p _) eqn:H; [|done].
    eapply write_remembered; [done| |done]. by eapply Forall_lookup_1.
  - done.
  - destruct (call _ env op _) as [s'|] eqn:E; [|done]. unfold call in E. apply rbind_Ok in E as (p & Hr & E).
    eapply write_remembered; [done| |done]. by eapply planned_fresh, read_planned.
  - by apply sweep_remembered.
Qed.

(** When a target of a ticket is missed: its minutes after the ticket was created, and the
    minutes it was paused on top. *)
Definition deadline (k : SlaTargetKind) (t : Ticket) : option Z :=
  (fun minutes => th_createdAt (tk_head t) + (minutes + default 0 (tl_slaPausedMinutes (tk_life t))) * 60000)
  <$> match k with sla_response => tf_responseSlaMinutes (tk_fields t) | sla_resolution => tf_resolutionSlaMinutes (tk_fields t) end.

(** The target is missed at [now] by a ticket that is being worked on. *)
Definition missed (k : SlaTargetKind) (now : Z) (t : Ticket) : bool :=
  match deadline k t with Some d => d <=? now | None => false end
  && match k with sla_response => bool_decide (tk_firstResponseAt t = None) | sla_resolution => bool_decide (tl_resolvedAt (tk_life t) = None) end
  && bool_decide (tk_status t ∈ [tks_new; tks_open]) && bool_decide (tl_slaPausedAt (tk_life t) = None).

Definition announced (s : DeskStore) (k : SlaTargetKind) (id : string) : Prop := ticket_sla_breached id k ∈ dk_events s.
#[export] Instance announced_dec s k id : Decision (announced s k id).
Proof. unfold announced. apply _. Defined.

(** The tickets with a missed target that is not announced yet. *)
Definition unannounced (k : SlaTargetKind) (now : Z) (s : DeskStore) : list (string * Ticket) :=
  List.filter (fun r => missed k now r.2 && negb (bool_decide (announced s k r.1))) (map_to_list (dk_tickets s)).

Lemma announced_count s k id : announced s k id <-> (0 < count_if (is_breach id k) (dk_events s))%nat.
Proof.
  rewrite count_if_pos. unfold is_breach. split.
  - intros H. exists (ticket_sla_breached id k). split; [done|by apply bool_decide_eq_true].
  - intros (e & He & ->%bool_decide_eq_true). done.
Qed.

(** The selection of the sweep, in these terms. *)
Lemma due_spec w id t k now : treachable any_op w -> dk_tickets (tw_store w) !! id = Some t ->
  breach_due k now t = missed k now t && negb (bool_decide (announced (tw_store w) k id)).
Proof.
  intros Hw Ht. assert (E : bool_decide (announced (tw_store w) k id) = already_breached k t).
  { pose proof (breaches_reached _ Hw id k) as H1. pose proof (reachable_remembered _ Hw id k) as H2. rewrite Ht in H1, H2. cbn in H1, H2.
    apply eq_bool_prop_intro. rewrite bool_decide_spec, announced_count. destruct (already_breached k t); cbn; split; try done; lia. }
  rewrite E. unfold breach_due, missed, deadline, sla_unmet, sla_minutes.
  assert (Es : bool_decide (tk_status t ∈ [tks_new; tks_open]) = bool_decide (tk_status t = tks_new) || bool_decide (tk_status t = tks_open)).
  { destruct (tk_status t); done. }
  rewrite Es. destruct k; cbn.
  - destruct (tf_responseSlaMinutes (tk_fields t)); cbn; [|by rewrite andb_false_r]. btauto.
  - destruct (tf_resolutionSlaMinutes (tk_fields t)); cbn; [|by rewrite andb_false_r]. btauto.
Qed.

Lemma due_rows_unannounced w k now : treachable any_op w -> due_rows k now (dk_tickets (tw_store w)) = unannounced k now (tw_store w).
Proof.
  intros Hw. unfold due_rows, unannounced. apply filter_ext_in. intros [id t] H%list_elem_of_In%elem_of_map_to_list. by apply due_spec.
Qed.


(** In every reachable state the breach text of a ticket reads the same in SQL and in
    services/ticketSla.ts: the same targets are breached, and what the sweep would
    append is what [appendBreachTarget] returns. *)
Lemma breach_text_mirrors_the_service w id t k : treachable any_op w -> dk_tickets (tw_store w) !! id = Some t ->
  already_breached k t = bool_decide (k ∈ breachedTargets (tk_slaBreachReason t))
  /\ (already_breached k t = false ->
      stamp_reason k (tk_slaBreachReason t) = appendBreachTarget (tk_slaBreachReason t) k).
Proof.
  intros [Hs _]%reachable_texts Ht. pose proof (text_mirrors _ k (Hs _ _ Ht)) as H. unfold text_agrees in H.
  change (sql_breached k (tk_slaBreachReason t)) with (already_breached k t) in H.
  apply andb_true_iff in H as [H1%Bool.eqb_prop H2]. split; [done|]. intros E. rewrite E in H2. cbn [orb] in H2.
  apply andb_true_iff in H2 as [H2 _]. by apply bool_decide_eq_true in H2.
Qed.
End reads.
