(* ===== verification/TicketBehaviour.v ===== *)
(** * The pause ledger, races and runs of the service desk

    What the ledger of paused minutes is worth, what an overtaken assignment and a
    plain assignment do, what deletion leaves, and an instance of the theorems. *)

From stdpp Require Import base gmap strings list option sorting.
From Stdlib Require Import ZArith Lia Ascii.
From S2P Require Import Prelude Json Money BillingStore Invoices DeskStore.
From S2P Require Import Tickets TicketSystem TicketTheorems.

Open Scope Z_scope.

(** ** The pauses of a history *)

(** Of the statuses a ticket went through, with their instants: the finished pauses,
    and the start of the one it is in. Going from one paused status to another is
    one pause. *)
Fixpoint pauses (since : option Z) (h : list (TicketStatus * Z)) : list (Z * Z) * option Z :=
  match h with
  | [] => ([], since)
  | (st, t) :: h' =>
      match since, is_paused st with
      | None, true => pauses (Some t) h'
      | Some a, false => let '(l, o) := pauses None h' in ((a, t) :: l, o)
      | _, _ => pauses since h'
      end
  end.

Definition pausedMs (l : list (Z * Z)) : Z := fold_right (fun p acc => p.2 - p.1 + acc) 0 l.
Definition pausedMinutes (l : list (Z * Z)) : Z := fold_right (fun p acc => elapsedMinutes p.1 p.2 + acc) 0 l.

Lemma pauses_snoc h st t : forall since, pauses since (h ++ [(st, t)]) =
  let '(l, o) := pauses since h in
  match o, is_paused st with
  | None, true => (l, Some t)
  | Some a, false => (l ++ [(a, t)], None)
  | _, _ => (l, o)
  end.
Proof.
  induction h as [|[st0 t0] h IH]; intros since; cbn [app pauses].
  - by destruct since, (is_paused st).
  - destruct since as [a|], (is_paused st0); try apply IH. rewrite IH. destruct (pauses None h) as [l o].
    by destruct o, (is_paused st).
Qed.

Lemma pausedMinutes_snoc l a t : pausedMinutes (l ++ [(a, t)]) = pausedMinutes l + elapsedMinutes a t.
Proof. unfold pausedMinutes. induction l as [|p l IH]; cbn [app fold_right fst snd] in *; lia. Qed.

(** On a clock that does not go back every pause ends after it began. *)
Lemma pauses_ordered h : forall since, StronglySorted Z.le h.*2 -> (forall a, since = Some a -> Forall (Z.le a) h.*2) ->
  Forall (fun p => p.1 <= p.2) (pauses since h).1.
Proof.
  induction h as [|[st t] h IH]; intros since Hs Ha; cbn [pauses]; [constructor|]. cbn in Hs.
  apply StronglySorted_inv in Hs as [Hs Ht]. destruct since as [a|], (is_paused st).
  - apply IH; [done|]. intros a' [= <-]. specialize (Ha a eq_refl). cbn in Ha. by inversion Ha.
  - specialize (IH None Hs ltac:(done)). destruct (pauses None h) as [l o]. constructor; [|done].
    specialize (Ha a eq_refl). cbn in Ha. by inversion Ha.
  - apply IH; [done|]. by intros a [= <-].
  - by apply IH.
Qed.

Lemma paused_bounds l : Forall (fun p => p.1 <= p.2) l ->
  60000 * pausedMinutes l <= pausedMs l <= 60000 * pausedMinutes l + 59999 * Z.of_nat (length l).
Proof.
  induction 1 as [|[a b] l Hp _ IH]; [done|]. cbn [pausedMs pausedMinutes fold_right length fst snd] in *.
  fold (pausedMs l) (pausedMinutes l). unfold elapsedMinutes. pose proof (Z.div_mod (b - a) 60000 ltac:(lia)).
  pose proof (Z.mod_pos_bound (b - a) 60000 ltac:(lia)). pose proof (Z.div_pos (b - a) 60000 ltac:(cbn in Hp; lia) ltac:(lia)). lia.
Qed.

Section ledger.
Context (applyIntakeForm : FormRow -> json -> result string AppliedIntakeForm).
Abbreviation call := (call applyIntakeForm).

(** The history of a ticket while calls run one after the other: the statuses its row
    shows, each with the clock of the call that brought it. *)
Definition note (k : string) (now : Z) (s s' : DeskStore) (h : list (TicketStatus * Z)) : list (TicketStatus * Z) :=
  match dk_tickets s !! k, dk_tickets s' !! k with
  | None, Some t' => [(tk_status t', now)]
  | Some t, Some t' => if bool_decide (tk_status t' = tk_status t) then h else h ++ [(tk_status t', now)]
  | _, _ => h
  end.

Inductive history (k : string) : DeskStore -> list (TicketStatus * Z) -> Prop :=
| hi_start : history k empty_desk []
| hi_call env op s h : history k s h ->
    history k (keep s (call env op s)) (note k (de_now env) s (keep s (call env op s)) h)
| hi_sweep dbNow locked s h : history k s h -> history k (sweepTicketSlaBreaches dbNow locked s) h.

(** The row's ledger is that of the history. *)
Definition ledger_ok (l : TicketLife) (h : list (TicketStatus * Z)) : Prop :=
  tl_slaPausedAt l = (pauses None h).2 /\ default 0 (tl_slaPausedMinutes l) = pausedMinutes (pauses None h).1.

Definition history_ok (k : string) (s : DeskStore) (h : list (TicketStatus * Z)) : Prop :=
  tickets_ok s /\ match dk_tickets s !! k with Some t => ledger_ok (tk_life t) h | None => True end.

Lemma ledger_status old to_ sid opts u now h :
  stamps_agree old -> to_ ∈ TICKET_STATUS_TRANSITIONS (tl_status old) -> ledger_ok old h ->
  ledger_ok (status_patch old to_ sid opts u now old) (h ++ [(to_, now)]).
Proof.
  intros Hw Hto [H1 H2]. unfold ledger_ok. rewrite pauses_snoc. destruct (pauses None h) as [l o]. cbn [fst snd] in *.
  pose proof (sa_paused _ Hw) as Hp. unfold status_patch. cbn [tl_slaPausedAt tl_slaPausedMinutes].
  destruct (is_paused (tl_status old)) eqn:Eo, (is_paused to_) eqn:Et; cbn [andb negb]; rewrite H1 in *.
  - destruct o; [done|naive_solver].
  - destruct o as [a|]; [|naive_solver]. cbn [fst snd default]. split; [done|]. by rewrite pausedMinutes_snoc, H2.
  - destruct o; [naive_solver|]. done.
  - destruct o; [naive_solver|]. done.
Qed.

Lemma ledger_quiet l f h st t : tl_slaPausedAt (f l) = tl_slaPausedAt l -> tl_slaPausedMinutes (f l) = tl_slaPausedMinutes l ->
  stamps_agree l -> is_paused (tl_status l) = false -> is_paused st = false -> ledger_ok l h -> ledger_ok (f l) (h ++ [(st, t)]).
Proof.
  intros E1 E2 Hw Hl Hst [H1 H2]. unfold ledger_ok. rewrite pauses_snoc, E1, E2. pose proof (sa_paused _ Hw) as Hp.
  rewrite Hl in Hp. destruct (pauses None h) as [ps o]. cbn [fst snd] in *. rewrite Hst. destruct o; [naive_solver|done].
Qed.

Lemma edge_ledger env op s p k t t' h :
  planned env op s p -> dk_tickets s !! k = Some t -> stamps_agree (tk_life t) -> ledger_ok (tk_life t) h ->
  ticket_edge p env k (Some t) (Some t') ->
  ledger_ok (tk_life t') (if bool_decide (tk_status t' = tk_status t) then h else h ++ [(tk_status t', de_now env)]).
Proof.
  intros Hp Ht Hw Hl He.
  assert (Hsame : forall l', tl_slaPausedAt l' = tl_slaPausedAt (tk_life t) ->
    tl_slaPausedMinutes l' = tl_slaPausedMinutes (tk_life t) -> ledger_ok l' h).
  { intros l' E1 E2. unfold ledger_ok. by rewrite E1, E2. }
  inversion He as [| |? f Hf|? a prev opens by_ Hpa|? f Hf|]; subst; clear He.
  - by rewrite bool_decide_eq_true_2.
  - unfold tk_status in *. cbn. inversion Hf as [l sid|l old to_ sid opts name by_ at_ Hpe E|l E]; subst.
    + rewrite bool_decide_eq_true_2 by done. by apply Hsame.
    + destruct Hp as (t0 & Ht0 & -> & -> & Hto). rewrite Ht in Ht0. injection Ht0 as <-. rewrite bool_decide_eq_false_2.
      * by apply ledger_status.
      * cbn. intros ->. destruct (tl_status (tk_life t)); set_solver.
    + rewrite E, bool_decide_eq_false_2 by done. apply ledger_quiet; [done|done|done|by rewrite E|done|done].
  - destruct opens; [|rewrite bool_decide_eq_true_2 by done; done]. destruct Hp as [_ Hn]. destruct (Hn eq_refl) as (t0 & Ht0 & E).
    rewrite Ht in Ht0. injection Ht0 as <-. unfold tk_status in *. cbn. rewrite E, bool_decide_eq_false_2 by done.
    apply ledger_quiet; [done|done|done|by rewrite E|done|done].
  - destruct (Hf t) as (E & _ & _). unfold tk_status. rewrite E, bool_decide_eq_true_2 by done. done.
  - rewrite bool_decide_eq_true_2 by done. done.
Qed.

Lemma new_ledger env op s p k t' : planned env op s p -> ticket_edge p env k None (Some t') ->
  ledger_ok (tk_life t') [(tk_status t', de_now env)].
Proof.
  intros Hp He. inversion He; subst. destruct Hp as (Hw & _ & Hm & Hn). unfold ledger_ok, tk_status in *. cbn. rewrite Hn. cbn.
  rewrite Hm. split; [|done]. pose proof (sa_paused _ Hw) as Hpa. rewrite Hn in Hpa. destruct (tl_slaPausedAt _); naive_solver.
Qed.

Lemma history_invariant k s h : history k s h -> history_ok k s h.
Proof.
  induction 1 as [|env op s h _ [Hs Hk]|dbNow locked s h _ [Hs Hk]].
  - split; [|done]. intros j t Ht. cbn in Ht. by rewrite lookup_empty in Ht.
  - destruct (call env op s) as [s'|] eqn:Hc; cbn [keep].
    + split; [by eapply call_agrees|]. unfold TicketSystem.call in Hc. apply rbind_Ok in Hc as (p & Hr & Hw).
      apply read_planned in Hr. pose proof (write_edge env p s s' k Hw) as He. unfold note.
      destruct (dk_tickets s !! k) as [t|] eqn:Et, (dk_tickets s' !! k) as [t'|] eqn:Et'; try done.
      * eapply edge_ledger; [done|done|by eapply Hs|done|done].
      * by eapply new_ledger.
    + split; [done|]. unfold note. destruct (dk_tickets s !! k); [|done]. by rewrite bool_decide_eq_true_2.
  - split; [intros j t' (t & Ht & ->)%sweep_back; by eapply Hs|].
    destruct (dk_tickets (sweepTicketSlaBreaches _ _ _) !! k) as [t'|] eqn:E; [|done].
    apply sweep_back in E as (t & Ht & ->). by rewrite Ht in Hk.
Qed.

(** C20: While calls run one after the other, the ledger of a ticket is the sum of its
    pauses in whole minutes, a pause being one stay in pending and on hold, and the
    pause it is in began when the row says; so on a clock that does not go back the
    deadlines grant at most the time the ticket was really paused, and less than a
    minute per pause is lost. *)
Theorem pause_ledger_is_accurate k s h t : history k s h -> dk_tickets s !! k = Some t ->
  tl_slaPausedAt (tk_life t) = (pauses None h).2
  /\ default 0 (tl_slaPausedMinutes (tk_life t)) = pausedMinutes (pauses None h).1
  /\ (StronglySorted Z.le h.*2 ->
      let paused := pausedMs (pauses None h).1 in let granted := 60000 * default 0 (tl_slaPausedMinutes (tk_life t)) in
      granted <= paused <= granted + 59999 * Z.of_nat (length (pauses None h).1)).
Proof.
  intros [_ Hk]%history_invariant Ht. rewrite Ht in Hk. destruct Hk as [H1 H2]. split_and!; [done|done|]. cbn zeta. rewrite H2.
  intros Hs. apply paused_bounds, pauses_ordered; done.
Qed.
End ledger.

(** ** An assignment that a resolution overtakes *)

Section overtaken_assignment.
Context (applyIntakeForm : FormRow -> json -> result string AppliedIntakeForm).
Abbreviation call := (call applyIntakeForm).
Abbreviation read_op := (read_op applyIntakeForm).

(** What a change to resolved or closed leaves of a new ticket. *)
Lemma done_row env id st opts by_ s s1 t : st = tks_resolved \/ st = tks_closed -> dk_tickets s !! id = Some t -> tk_status t = tks_new ->
  call env (OpStatus id (Some st) None opts by_) s = Ok s1 ->
  exists t1, dk_tickets s1 !! id = Some t1 /\ tk_assignedTo t1 = tk_assignedTo t /\ tk_status t1 = st
    /\ tl_resolvedAt (tk_life t1) = Some (default (de_now env) (tl_resolvedAt (tk_life t))).
Proof.
  intros Hst Ht Hn (p & Hr & Hw)%rbind_Ok. cbn in Hr. unfold changeTicketStatus_read, getTicketOrThrow in Hr. rewrite Ht in Hr. cbn in Hr.
  rewrite Hn, bool_decide_eq_false_2 in Hr by (intros E; subst; by destruct Hst). result_ok Hr. simplify_eq.
  unfold_writes Hw. apply rbind_Ok in Hw as (s0 & (t0 & Ht0 & _ & ->)%cas_ticket_spec & Hw). simplify_eq. cbn.
  eexists. split; [apply lookup_insert_eq|]. split_and!; [done|done|]. cbn. by destruct Hst as [-> | ->].
Qed.

(** A sweep finds no resolution overdue that has a date. *)
Lemma resolved_never_breaches dbNow locked s id t : dk_tickets s !! id = Some t -> tl_resolvedAt (tk_life t) <> None ->
  announced (sweepTicketSlaBreaches dbNow locked s) sla_resolution id -> announced s sla_resolution id.
Proof.
  intros Ht Hd. unfold announced. rewrite sweep_events, !elem_of_app. intros [H|[H|H]]; [done|..]; exfalso.
  - by apply list_elem_of_fmap in H as (? & [=] & _).
  - apply list_elem_of_fmap in H as (i & [= <-] & (t1 & Ht1 & H)%due_tickets_elem).
    unfold sweep1 in Ht1. rewrite stamp_lookup, Ht in Ht1.
    assert (E : tk_life t1 = tk_life t) by (injection Ht1 as <-; by case_bool_decide).
    unfold breach_due, sla_unmet in H. rewrite E in H. by bool_hyps.
Qed.

(** C38: Whenever a ticket that is new is resolved or closed between the read and the write
    of an assignment to somebody, the write goes through and puts it back to open without
    leaving the resolution: the row is open with a resolution date, the feed gets the
    assignment and no change of status, and as long as the row stays so no sweep, at any
    later time, announces its resolution overdue. *)
Theorem late_assignment_undoes_a_resolution env1 env2 env3 id u by1 st opts by2 s s1 t p :
  dk_tickets s !! id = Some t -> tk_status t = tks_new -> u <> EmptyString ->
  read_op env1 (OpAssign id (Some u) by1) s = Ok p ->
  st = tks_resolved \/ st = tks_closed -> call env2 (OpStatus id (Some st) None opts by2) s = Ok s1 ->
  exists s2 t2 c, write_plan env3 p s1 = Ok s2
    /\ dk_tickets s2 !! id = Some t2 /\ tk_status t2 = tks_open /\ tl_resolvedAt (tk_life t2) <> None
    /\ dk_comments s2 = dk_comments s1 ++ [c] /\ tc_commentType c = cmt_assignment
    /\ forall dbNow locked, announced (sweepTicketSlaBreaches dbNow locked s2) sla_resolution id -> announced s2 sla_resolution id.
Proof.
  intros Ht Hn Hu Hr Hst Hc. destruct (done_row _ _ _ _ _ _ _ _ Hst Ht Hn Hc) as (t1 & Ht1 & Ha & _ & Hd).
  cbn in Hr. unfold assignTicket_read, getTicketOrThrow in Hr. rewrite Ht in Hr. cbn [rbind] in Hr.
  apply rbind_Ok in Hr as (? & _ & Hr). simplify_eq. rewrite Hn, bool_decide_eq_true_2, andb_true_r by done.
  destruct u as [|ch u]; [done|]. cbn [write_plan]. unfold assignTicket_write, cas_ticket. rewrite Ht1, bool_decide_eq_true_2 by done. cbn [rbind].
  eexists _, (set_tlife set_opened (set_assignee _ t1)), _. split; [reflexivity|].
  split_and!; [apply lookup_insert_eq|done|cbn; by rewrite Hd|reflexivity|done|].
  intros dbNow locked. eapply resolved_never_breaches; [apply lookup_insert_eq|cbn; by rewrite Hd].
Qed.
End overtaken_assignment.

(** ** A desk *)

Definition no_forms (f : FormRow) (r : json) : result string AppliedIntakeForm := Err "no form"%string.

Definition desk_status (core : TicketStatus) (name : string) : StatusRow :=
  {| sr_id := "st-" ++ status_text core; sr_partnerId := "acme"; sr_coreStatus := core; sr_name := name; sr_isActive := true;
     sr_isSystem := true |}.

Definition desk_dir : DeskDir :=
  {| dd_orgs := fun o => if bool_decide (o ∈ ["bakery"; "garage"]%string) then Some {| or_partnerId := "acme"; or_name := o |} else None;
     dd_users := fun u => if bool_decide (u ∈ ["ann"; "bob"]%string) then Some "acme"%string else None;
     dd_devices := fun _ => None; dd_portalUsers := fun _ => None; dd_categories := fun _ => None;
     dd_statuses := [desk_status tks_new "New"; desk_status tks_open "Open"; desk_status tks_pending "Waiting";
                     desk_status tks_on_hold "On hold"; desk_status tks_resolved "Resolved"; desk_status tks_closed "Closed"];
     dd_settings := fun _ => None; dd_priorities := fun _ _ => None; dd_alerts := fun _ => None; dd_forms := fun _ => None |}.

(** The environment of a call at a minute. *)
Definition desk_at (minute : Z) : DeskEnv :=
  {| de_now := minute * 60000; de_newId := "t1"; de_year := 2026; de_dir := desk_dir |}.

Definition ann : TicketActor := {| ac_userId := "ann"; ac_name := Some "Ann"%string |}.

Definition oven : CreateTicketInput :=
  {| ci_orgId := "bakery"; ci_subject := Some "The oven is down"%string; ci_description := None; ci_deviceId := None;
     ci_categoryId := None; ci_priority := Some prio_urgent; ci_dueDate := None; ci_assigneeId := None; ci_form := None;
     ci_source := tsrc_manual; ci_submittedBy := None; ci_submitterEmail := None; ci_submitterName := None |}.

Definition no_options : ChangeStatusOptions := {| co_resolutionNote := None; co_pendingReason := None |}.
Definition with_note : ChangeStatusOptions := {| co_resolutionNote := Some "Fuse replaced"%string; co_pendingReason := None |}.

Definition empty_tworld : TWorld := {| tw_store := empty_desk; tw_plans := [] |}.
Definition trun (l : list TAction) : TWorld := fold_left (fun w a => tstep no_forms a w) l empty_tworld.

Lemma trun_reachable late l : Forall (allowed late) l -> treachable no_forms late (trun l).
Proof.
  unfold trun. induction l as [|a l IH] using rev_ind; intros H; [apply tr_start|].
  apply Forall_app in H as [H1 H2]. rewrite fold_left_app. cbn. apply tr_step; [by apply IH|]. by inversion H2.
Qed.

Definition to_status (st : TicketStatus) (o : ChangeStatusOptions) (minute : Z) : TAction :=
  ACall (OpStatus "t1" (Some st) None o ann) (desk_at minute).

(** A ticket of the desk, as it is after a run. *)
Definition desk_ticket (l : list TAction) : option Ticket := dk_tickets (tw_store (trun l)) !! "t1"%string.

(** Resolved while an assignment is under way. *)
Definition overtaken : list TAction :=
  [ACall (OpCreate oven ann) (desk_at 0); AStart (OpAssign "t1" (Some "bob"%string) ann) (desk_at 1);
   to_status tks_resolved with_note 2; AFinish 0 (desk_at 3)].

(** A ticket opened by its assignment keeps the label of the new status, and so does a
    ticket that a mail reopens keep that of the resolved one. *)
Lemma assignment_keeps_the_label :
  (fun t => (tk_status t, tl_statusId (tk_life t))) <$> desk_ticket
    [ACall (OpCreate oven ann) (desk_at 0); ACall (OpAssign "t1" (Some "bob"%string) ann) (desk_at 1)]
  = Some (tks_open, Some "st-new"%string).
Proof. by vm_compute. Qed.

Lemma mail_keeps_the_label :
  (fun t => (tk_status t, tl_statusId (tk_life t))) <$> desk_ticket
    [ACall (OpCreate oven ann) (desk_at 0); to_status tks_resolved with_note 2;
     ACall (OpInbound "t1" "acme" "It is down again" None None) (desk_at 3)]
  = Some (tks_open, Some "st-resolved"%string).
Proof. by vm_compute. Qed.

(** A deleted ticket is still swept. *)
Lemma deleted_tickets_still_breach :
  dk_events (tw_store (trun [ACall (OpCreate oven ann) (desk_at 0); ACall (OpDelete "t1" ann) (desk_at 1);
    ASweep (61 * 60000) (fun _ => false)]))
  = [ticket_created "t1"; ticket_sla_breached "t1" sla_response].
Proof. by vm_compute. Qed.

(** ** Instances *)

Definition busy_desk : list TAction :=
  [ACall (OpCreate oven ann) (desk_at 0); to_status tks_pending no_options 10;
   AStart (OpStatus "t1" (Some tks_open) None no_options ann) (desk_at 20); to_status tks_on_hold no_options 21;
   AFinish 0 (desk_at 22); to_status tks_open no_options 40; ASweep (95 * 60000) (fun _ => false)].

Lemma status_table_witness :
  (fun t => (tk_status t, tl_slaPausedMinutes (tk_life t), tk_slaBreachReason t)) <$> desk_ticket busy_desk
    = Some (tks_open, Some 30, Some "response"%string)
  /\ (forall k t, dk_tickets (tw_store (trun busy_desk)) !! k = Some t -> stamps_agree (tk_life t))
     /\ forall a, allowed not_assign a -> moved (tw_store (trun busy_desk)) (tw_store (tstep no_forms a (trun busy_desk))).
Proof.
  split; [by vm_compute|]. apply (tickets_follow_the_status_table no_forms (trun busy_desk)). apply trun_reachable.
  repeat constructor.
Defined.


(** The run above, as an instance. *)
Definition new_desk : DeskStore := tw_store (trun (take 1 overtaken)).
Definition resolved_desk : DeskStore := tw_store (trun (take 3 overtaken)).

Lemma late_assignment_witness : exists s2 t2, dk_tickets s2 !! "t1"%string = Some t2 /\ tk_status t2 = tks_open /\ tl_resolvedAt (tk_life t2) <> None.
Proof.
  destruct (dk_tickets new_desk !! "t1"%string) as [t|] eqn:Et; [|by vm_compute in Et].
  destruct (read_op no_forms (desk_at 1) (OpAssign "t1" (Some "bob"%string) ann) new_desk) as [p|] eqn:Ep; [|by vm_compute in Ep].
  assert (Hn : tk_status t = tks_new) by (vm_compute in Et; injection Et as <-; reflexivity).
  assert (Hc : call no_forms (desk_at 2) (OpStatus "t1" (Some tks_resolved) None with_note ann) new_desk = Ok resolved_desk)
    by (vm_compute; reflexivity).
  destruct (late_assignment_undoes_a_resolution no_forms (desk_at 1) (desk_at 2) (desk_at 3) "t1" "bob" ann tks_resolved with_note ann
    new_desk resolved_desk t p Et Hn ltac:(discriminate) Ep (or_introl eq_refl) Hc) as (s2 & t2 & c & _ & H1 & H2 & H3 & _).
  exists s2, t2. auto.
Defined.

Definition paused_desk (n : nat) : DeskStore :=
  fold_left (fun s e => keep s (call no_forms (desk_at e.2) e.1 s))
    (take n [(OpCreate oven ann, 0); (OpStatus "t1" (Some tks_pending) None no_options ann, 10);
             (OpStatus "t1" (Some tks_on_hold) None no_options ann, 21); (OpStatus "t1" (Some tks_open) None no_options ann, 40)])
    empty_desk.

Lemma pause_ledger_witness : exists h t, history no_forms "t1" (paused_desk 4) h /\ dk_tickets (paused_desk 4) !! "t1"%string = Some t
  /\ pauses None h = ([(600000, 2400000)], None) /\ default 0 (tl_slaPausedMinutes (tk_life t)) = pausedMinutes (pauses None h).1.
Proof.
  pose (h := note "t1" (de_now (desk_at 40)) (paused_desk 3) (paused_desk 4)
        (note "t1" (de_now (desk_at 21)) (paused_desk 2) (paused_desk 3)
          (note "t1" (de_now (desk_at 10)) (paused_desk 1) (paused_desk 2)
             (note "t1" (de_now (desk_at 0)) empty_desk (paused_desk 1) [])))).
  assert (Hh : history no_forms "t1" (paused_desk 4) h).
  { apply (hi_call no_forms "t1" (desk_at 40)), (hi_call no_forms "t1" (desk_at 21)), (hi_call no_forms "t1" (desk_at 10)),
      (hi_call no_forms "t1" (desk_at 0)), hi_start. }
  exists h. eexists. split; [exact Hh|]. split; [vm_compute; reflexivity|]. split; [vm_compute; reflexivity|].
  eapply (pause_ledger_is_accurate no_forms "t1" (paused_desk 4) h); [exact Hh|vm_compute; reflexivity].
Defined.
