(* ===== verification/TimeEntries.v ===== *)
(** * Time entries and parts: services/timeEntryService.ts

    One definition per call of services/timeEntryService.ts that writes, and the
    timesheet. A call is one transaction of the request; [updateTimeEntry] is cut
    between its read and its write. Instants are milliseconds; a request's numbers
    are rationals, stored with two digits. Row-level security is that of the tables:
    time entries by partner, parts by organization. Audit records, the list and
    export queries are left out. *)

From stdpp Require Import base gmap strings list option sorting.
From Stdlib Require Import ZArith QArith.
From S2P Require Import Prelude Json Tenant Money BillingStore Invoices.
From S2P Require Import DeskStore Tickets.

Open Scope Z_scope.

Inductive TimeEntryServiceErrorCode : Type :=
| TE_TICKET_NOT_FOUND | TE_TICKET_WRONG_PARTNER | TE_TICKET_ORG_DENIED | TE_ENTRY_NOT_FOUND | TE_PART_NOT_FOUND
| TE_NOT_OWN_ENTRY | TE_ADMIN_REQUIRED | TE_APPROVED_IMMUTABLE | TE_NO_RUNNING_TIMER | TE_ENTRY_RUNNING
| TE_PARTNER_UNRESOLVABLE | TE_INVALID_RANGE | TE_DUPLICATE_ID | TE_POLICY_VIOLATION | TE_INVALID_UUID.
#[export] Instance TimeEntryServiceErrorCode_eq : EqDecision TimeEntryServiceErrorCode.
Proof. solve_decision. Defined.

Abbreviation timed A := (result TimeEntryServiceErrorCode A).

Record TimeEntryActor : Type := {
  ta_userId : string;
  ta_name : option string;
  ta_partnerId : option string;
  ta_manageAll : bool;
  ta_accessibleOrgIds : option (list string);
}.

(** What a call reads from outside: the context of its transaction, the clock at each
    reading, the random id of a new row, and the directory. *)
Record TimeEnv : Type := {
  tv_ctx : DbAccessContext;
  tv_clock : nat -> Z;
  tv_newId : string;
  tv_dir : DeskDir;
}.

Definition sees_time (env : TimeEnv) (r : TimeRow) : bool := breeze_has_partner_access (tv_ctx env) (Some (tr_partnerId r)).
Definition sees_part (env : TimeEnv) (r : PartRow) : bool := breeze_has_org_access (tv_ctx env) (Some (tp_orgId (pr_part r))).

Definition tr_running (r : TimeRow) : bool := bool_decide (te_endedAt (tr_entry r) = None).

(** ** Links to tickets *)

(** Whole minutes, rounded down. *)
Definition computeDurationMinutes (startedAt endedAt : Z) : Z := (endedAt - startedAt) / 60000.

Definition toRate (rate : option Q) : option Decimal := toFixed 2 <$> rate.

Definition getTicketForTimeTracking (ticketId : string) (s : DeskStore) : timed Ticket :=
  match dk_tickets s !! ticketId with Some t => Ok t | None => Err TE_TICKET_NOT_FOUND end.

Definition resolveTicketPartner (dir : DeskDir) (t : Ticket) : option string :=
  if truthy (th_partnerId (tk_head t)) then th_partnerId (tk_head t) else or_partnerId <$> dd_orgs dir (tk_orgId t).

Record TicketLink : Type := {
  lk_orgId : string;
  lk_partnerId : string;
  lk_defaultBillable : bool;
  lk_defaultHourlyRate : option Decimal;
}.

Definition resolveTicketLink (env : TimeEnv) (ticketId : string) (actor : TimeEntryActor) (s : DeskStore) : timed TicketLink :=
  let! t := getTicketForTimeTracking ticketId s in
  let partner := resolveTicketPartner (tv_dir env) t in
  let! _ := check (truthy partner) TE_PARTNER_UNRESOLVABLE in
  let partnerId := default EmptyString partner in
  let! _ := check (negb (truthy (ta_partnerId actor)) || bool_decide (Some partnerId = ta_partnerId actor)) TE_TICKET_WRONG_PARTNER in
  let! _ := check (match ta_accessibleOrgIds actor with None => true | Some l => bool_decide (tk_orgId t ∈ l) end)
              TE_TICKET_ORG_DENIED in
  let org := getOrgBillingDefaults (tv_dir env) (tk_orgId t) in
  let category := if truthy (tf_categoryId (tk_fields t)) then tf_categoryId (tk_fields t) ≫= dd_categories (tv_dir env) else None in
  Ok {| lk_orgId := tk_orgId t; lk_partnerId := partnerId;
        lk_defaultBillable := default false (orElse (org ≫= bd_billable) (cg_defaultBillable <$> category));
        lk_defaultHourlyRate := orElse (org ≫= bd_hourlyRate) (category ≫= cg_defaultHourlyRate) |}.

(** The link of a new entry: partner, organization and defaults. *)
Definition entryLink (env : TimeEnv) (ticketId : option string) (actor : TimeEntryActor) (s : DeskStore)
  : timed (option TicketLink) :=
  match ticketId with
  | Some id => if truthy ticketId then (let! l := resolveTicketLink env id actor s in Ok (Some l)) else Ok None
  | None => Ok None
  end.

Definition link_partner (actor : TimeEntryActor) (l : option TicketLink) : option string :=
  match l with Some k => Some (lk_partnerId k) | None => ta_partnerId actor end.

(** ** The feed *)

Definition fmtMinutes (minutes : option Z) : string :=
  let m := Z.max 0 (default 0 minutes) in
  let h := m / 60 in
  let rest := m mod 60 in
  if h =? 0 then (dec rest ++ "m")%string
  else if rest =? 0 then (dec h ++ "h")%string else (dec h ++ "h " ++ dec rest ++ "m")%string.

Definition actor_name (actor : TimeEntryActor) : string := default "Technician"%string (ta_name actor).

Definition insertTimeEntryFeedComment (ticketId : option string) (actor : TimeEntryActor) (content : string) (now : Z)
    (s : DeskStore) : DeskStore :=
  match ticketId with
  | Some id =>
      if truthy ticketId
      then add_feed {| tc_ticketId := id; tc_userId := Some (ta_userId actor); tc_portalUserId := None;
                       tc_authorName := ta_name actor; tc_authorType := by_internal; tc_commentType := cmt_time_entry;
                       tc_content := content; tc_isPublic := false; tc_oldValue := None; tc_newValue := None;
                       tc_deletedAt := None; tc_editedAt := None; tc_createdAt := now |} s
      else s
  | None => s
  end.

Definition logged_line (actor : TimeEntryActor) (r : TimeRow) : string :=
  (actor_name actor ++ " logged " ++ fmtMinutes (te_durationMinutes (tr_entry r))
   ++ (if te_isBillable (tr_entry r) then " (billable)" else ""))%string.

(** The feed comment of a finished entry. *)
Definition log_entry (actor : TimeEntryActor) (r : TimeRow) (now : Z) (s : DeskStore) : DeskStore :=
  insertTimeEntryFeedComment (te_ticketId (tr_entry r)) actor (logged_line actor r) now s.

(** ** Create, start, stop *)

(** What the database checks of a new row: an empty text is no uuid, and the policy. *)
Definition insertable (env : TimeEnv) (r : TimeRow) : timed unit :=
  let! _ := check (negb (bool_decide (te_ticketId (tr_entry r) = Some EmptyString))) TE_INVALID_UUID in
  check (sees_time env r) TE_POLICY_VIOLATION.

(** [INSERT INTO time_entries], and the primary key. *)
Definition insert_time (env : TimeEnv) (r : TimeRow) (s : DeskStore) : timed DeskStore :=
  let! _ := insertable env r in
  let! _ := check (bool_decide (dk_time s !! tv_newId env = None)) TE_DUPLICATE_ID in
  Ok (with_time (<[tv_newId env := r]>) s).

Record CreateTimeEntryInput : Type := {
  ce_ticketId : option string;
  ce_startedAt : Z;
  ce_endedAt : Z;
  ce_description : option string;
  ce_isBillable : option bool;
  ce_hourlyRate : option (option Q);
  ce_billingStatus : option BillingStatus;
}.

(** The row of a new entry. *)
Definition new_entry (ticketId : option string) (link : option TicketLink) (partnerId : string) (actor : TimeEntryActor)
    (startedAt : Z) (endedAt : option Z) (description : option string) (isBillable : bool) (rate : option Decimal)
    (status : BillingStatus) : TimeRow :=
  {| tr_entry := {| te_orgId := lk_orgId <$> link; te_ticketId := ticketId; te_endedAt := endedAt;
                    te_durationMinutes := computeDurationMinutes startedAt <$> endedAt; te_description := description;
                    te_isBillable := isBillable; te_hourlyRate := rate; te_billingStatus := status; te_isApproved := false |};
     tr_partnerId := partnerId; tr_userId := ta_userId actor; tr_startedAt := startedAt; tr_approvedBy := None;
     tr_approvedAt := None |}.

Definition createTimeEntry (env : TimeEnv) (input : CreateTimeEntryInput) (actor : TimeEntryActor) (s : DeskStore)
  : timed DeskStore :=
  let! link := entryLink env (ce_ticketId input) actor s in
  let partner := link_partner actor link in
  let! _ := check (truthy partner) TE_PARTNER_UNRESOLVABLE in
  let! _ := check (ce_startedAt input <? ce_endedAt input) TE_INVALID_RANGE in
  let r := new_entry (ce_ticketId input) link (default EmptyString partner) actor (ce_startedAt input) (Some (ce_endedAt input))
             (ce_description input)
             (default (default false (lk_defaultBillable <$> link)) (ce_isBillable input))
             (match ce_hourlyRate input with Some q => toRate q | None => link ≫= lk_defaultHourlyRate end)
             (default not_billed (ce_billingStatus input)) in
  let! s1 := insert_time env r s in
  Ok (announce (time_entry_created (tv_newId env)) (log_entry actor r (tv_clock env 0) s1)).

Record StopOverrides : Type := { so_description : option string; so_isBillable : option bool }.
Definition no_overrides : StopOverrides := {| so_description := None; so_isBillable := None |}.

(** What a stop writes; the duration is computed by the database. *)
Definition set_stopped (now : Z) (o : StopOverrides) (r : TimeRow) : TimeRow :=
  set_entry (fun t => {| te_orgId := te_orgId t; te_ticketId := te_ticketId t; te_endedAt := Some now;
                         te_durationMinutes := Some (computeDurationMinutes (tr_startedAt r) now);
                         te_description := match so_description o with Some d => Some d | None => te_description t end;
                         te_isBillable := default (te_isBillable t) (so_isBillable o); te_hourlyRate := te_hourlyRate t;
                         te_billingStatus := te_billingStatus t; te_isApproved := te_isApproved t |}) r.

Definition running_of (env : TimeEnv) (userId : string) (r : TimeRow) : bool :=
  bool_decide (tr_userId r = userId) && tr_running r && sees_time env r.

(** The stopped row with its id, if any. *)
Definition stopRunningEntry (env : TimeEnv) (now : Z) (o : StopOverrides) (actor : TimeEntryActor) (s : DeskStore)
  : DeskStore * option (string * TimeRow) :=
  let mine := running_of env (ta_userId actor) in
  (with_time (sql_update mine (set_stopped now o)) s,
   (fun e => (e.1, set_stopped now o e.2)) <$> List.find (fun e => mine e.2) (map_to_list (dk_time s))).

(** [time_entries_one_running_per_user_uq], which policies do not hide rows from. *)
Definition has_running (userId : string) (s : DeskStore) : bool :=
  existsb (fun r => bool_decide (tr_userId r = userId) && tr_running r) (sql_rows (dk_time s)).

(** Auto-stop, then [INSERT ... ON CONFLICT DO NOTHING]: [None] when it conflicts. *)
Definition start_attempt (env : TimeEnv) (stopAt startAt : Z) (mk : Z -> TimeRow) (actor : TimeEntryActor) (s : DeskStore)
  : timed (DeskStore * bool) :=
  let '(s1, stopped) := stopRunningEntry env stopAt no_overrides actor s in
  let s2 := match stopped with Some e => log_entry actor e.2 stopAt s1 | None => s1 end in
  let! _ := insertable env (mk startAt) in
  if has_running (ta_userId actor) s2 || negb (bool_decide (dk_time s2 !! tv_newId env = None)) then Ok (s2, false)
  else Ok (with_time (<[tv_newId env := mk startAt]>) s2, true).

Definition startTimer (env : TimeEnv) (ticketId description : option string) (actor : TimeEntryActor) (s : DeskStore)
  : timed DeskStore :=
  let! link := entryLink env ticketId actor s in
  let partner := link_partner actor link in
  let! _ := check (truthy partner) TE_PARTNER_UNRESOLVABLE in
  let mk at_ := new_entry ticketId link (default EmptyString partner) actor at_ None description
                  (default false (lk_defaultBillable <$> link)) (link ≫= lk_defaultHourlyRate) not_billed in
  let! first := start_attempt env (tv_clock env 0) (tv_clock env 1) mk actor s in
  let! last := if first.2 then Ok first else start_attempt env (tv_clock env 2) (tv_clock env 3) mk actor first.1 in
  let! _ := check last.2 TE_ENTRY_RUNNING in
  Ok (announce (time_entry_created (tv_newId env)) last.1).

Definition stopTimer (env : TimeEnv) (o : StopOverrides) (actor : TimeEntryActor) (s : DeskStore) : timed DeskStore :=
  let '(s1, stopped) := stopRunningEntry env (tv_clock env 0) o actor s in
  match stopped with
  | None => Err TE_NO_RUNNING_TIMER
  | Some (id, r) => Ok (announce (time_entry_updated id) (log_entry actor r (tv_clock env 0) s1))
  end.

(** ** Update, delete, approve *)

Definition entryOrgAllowed (r : TimeRow) (accessibleOrgIds : option (list string)) : bool :=
  match accessibleOrgIds, te_orgId (tr_entry r) with
  | None, _ | _, None => true
  | Some l, Some o => bool_decide (o ∈ l)
  end.

(** [orgAxisSql]: the same condition as SQL. *)
Definition orgAxisSql (accessibleOrgIds : option (list string)) (r : TimeRow) : bool :=
  match accessibleOrgIds with
  | None => true
  | Some [] => bool_decide (te_orgId (tr_entry r) = None)
  | Some l => bool_decide (te_orgId (tr_entry r) = None) || existsb (fun o => bool_decide (te_orgId (tr_entry r) = Some o)) l
  end.

Definition getEntryOr404 (env : TimeEnv) (id : string) (actor : TimeEntryActor) (s : DeskStore) : timed TimeRow :=
  match dk_time s !! id with
  | None => Err TE_ENTRY_NOT_FOUND
  | Some r =>
      let! _ := check (sees_time env r) TE_ENTRY_NOT_FOUND in
      let! _ := check (entryOrgAllowed r (ta_accessibleOrgIds actor)) TE_ENTRY_NOT_FOUND in
      Ok r
  end.

Definition assertCanMutate (r : TimeRow) (actor : TimeEntryActor) : timed unit :=
  let! _ := check (bool_decide (tr_userId r = ta_userId actor) || ta_manageAll actor) TE_NOT_OWN_ENTRY in
  check (negb (te_isApproved (tr_entry r)) || ta_manageAll actor) TE_APPROVED_IMMUTABLE.

Record UpdateTimeEntryInput : Type := {
  ue_ticketId : option (option string);
  ue_startedAt : option Z;
  ue_endedAt : option Z;
  ue_description : option (option string);
  ue_isBillable : option bool;
  ue_hourlyRate : option (option Q);
  ue_billingStatus : option BillingStatus;
}.

(** The columns an update sets: [ts_link] is the ticket and its organization. *)
Record TimeSet : Type := {
  ts_link : option (option string * option string);
  ts_startedAt : option Z;
  ts_endedAt : option Z;
  ts_description : option (option string);
  ts_isBillable : option bool;
  ts_hourlyRate : option (option Decimal);
  ts_billingStatus : option BillingStatus;
  ts_durationMinutes : option Z;
}.

Definition is_given {A} (v : option A) : bool := match v with Some _ => true | None => false end.

(** The read: what the write will set. *)
Definition updateTimeEntry_read (env : TimeEnv) (id : string) (input : UpdateTimeEntryInput) (actor : TimeEntryActor)
    (s : DeskStore) : timed TimeSet :=
  let! r := getEntryOr404 env id actor s in
  let! _ := assertCanMutate r actor in
  let startedAt := default (tr_startedAt r) (ue_startedAt input) in
  let endedAt := orElse (ue_endedAt input) (te_endedAt (tr_entry r)) in
  let! _ := check (match endedAt with Some e => startedAt <? e | None => true end) TE_INVALID_RANGE in
  let! link := match ue_ticketId input with
               | None => Ok None
               | Some None => Ok (Some (None, None))
               | Some (Some ticketId) =>
                   let! l := resolveTicketLink env ticketId actor s in
                   let! _ := check (bool_decide (lk_partnerId l = tr_partnerId r)) TE_TICKET_WRONG_PARTNER in
                   Ok (Some (Some ticketId, Some (lk_orgId l)))
               end in
  Ok {| ts_link := link; ts_startedAt := ue_startedAt input; ts_endedAt := ue_endedAt input;
        ts_description := ue_description input; ts_isBillable := ue_isBillable input;
        ts_hourlyRate := toRate <$> ue_hourlyRate input; ts_billingStatus := ue_billingStatus input;
        ts_durationMinutes := if is_given (ue_startedAt input) || is_given (ue_endedAt input)
                              then computeDurationMinutes startedAt <$> endedAt else None |}.

(** [UPDATE time_entries SET ...]: approval is cleared by every edit. *)
Definition apply_time_set (p : TimeSet) (r : TimeRow) : TimeRow :=
  let t := tr_entry r in
  {| tr_entry := {| te_orgId := match ts_link p with Some l => l.2 | None => te_orgId t end;
                    te_ticketId := match ts_link p with Some l => l.1 | None => te_ticketId t end;
                    te_endedAt := orElse (ts_endedAt p) (te_endedAt t);
                    te_durationMinutes := orElse (ts_durationMinutes p) (te_durationMinutes t);
                    te_description := default (te_description t) (ts_description p);
                    te_isBillable := default (te_isBillable t) (ts_isBillable p);
                    te_hourlyRate := default (te_hourlyRate t) (ts_hourlyRate p);
                    te_billingStatus := default (te_billingStatus t) (ts_billingStatus p);
                    te_isApproved := false |};
     tr_partnerId := tr_partnerId r; tr_userId := tr_userId r;
     tr_startedAt := default (tr_startedAt r) (ts_startedAt p); tr_approvedBy := None; tr_approvedAt := None |}.

Definition updateTimeEntry_write (id : string) (p : TimeSet) (s : DeskStore) : DeskStore :=
  announce (time_entry_updated id) (with_time (alter (apply_time_set p) id) s).

Definition updateTimeEntry (env : TimeEnv) (id : string) (input : UpdateTimeEntryInput) (actor : TimeEntryActor)
    (s : DeskStore) : timed DeskStore :=
  let! p := updateTimeEntry_read env id input actor s in Ok (updateTimeEntry_write id p s).

Definition deleteTimeEntry (env : TimeEnv) (id : string) (actor : TimeEntryActor) (s : DeskStore) : timed DeskStore :=
  let! r := getEntryOr404 env id actor s in
  let! _ := assertCanMutate r actor in
  let line := (actor_name actor ++ " removed a"
               ++ match te_durationMinutes (tr_entry r) with Some m => " " ++ fmtMinutes (Some m) | None => "" end
               ++ " time entry")%string in
  Ok (announce (time_entry_deleted id)
        (insertTimeEntryFeedComment (te_ticketId (tr_entry r)) actor line (tv_clock env 0) (with_time (delete id) s))).

Record BulkApproveResult : Type := { ba_updated : nat; ba_skipped : nat; ba_notFound : nat; ba_running : nat }.

Definition set_approval (approve : bool) (userId : string) (now : Z) (r : TimeRow) : TimeRow :=
  let t := tr_entry r in
  {| tr_entry := {| te_orgId := te_orgId t; te_ticketId := te_ticketId t; te_endedAt := te_endedAt t;
                    te_durationMinutes := te_durationMinutes t; te_description := te_description t;
                    te_isBillable := te_isBillable t; te_hourlyRate := te_hourlyRate t;
                    te_billingStatus := te_billingStatus t; te_isApproved := approve |};
     tr_partnerId := tr_partnerId r; tr_userId := tr_userId r; tr_startedAt := tr_startedAt r;
     tr_approvedBy := if approve then Some userId else None; tr_approvedAt := if approve then Some now else None |}.

(** The candidate of an id, if the caller sees it. *)
Definition candidate (env : TimeEnv) (actor : TimeEntryActor) (s : DeskStore) (id : string) : option TimeRow :=
  match dk_time s !! id with
  | Some r => if sees_time env r && orgAxisSql (ta_accessibleOrgIds actor) r then Some r else None
  | None => None
  end.

Definition eligible_ids (env : TimeEnv) (ids : list string) (actor : TimeEntryActor) (s : DeskStore) : list string :=
  List.filter (fun id => match candidate env actor s id with Some r => negb (tr_running r) | None => false end) ids.

Definition approveTimeEntries (env : TimeEnv) (ids : list string) (approve : bool) (actor : TimeEntryActor) (s : DeskStore)
  : timed (DeskStore * BulkApproveResult) :=
  let! _ := check (ta_manageAll actor) TE_ADMIN_REQUIRED in
  let eligible := eligible_ids env ids actor s in
  let s1 := with_time (map_imap (fun id r => Some (if bool_decide (id ∈ eligible)
                                                   then set_approval approve (ta_userId actor) (tv_clock env 0) r else r))) s in
  let s2 := if approve && negb (bool_decide (eligible = [])) then announce (time_entry_approved eligible) s1 else s1 in
  Ok (s2, {| ba_updated := length eligible; ba_skipped := length ids - length eligible;
             ba_notFound := count_if (fun id => bool_decide (candidate env actor s id = None)) ids;
             ba_running := count_if (fun id => match candidate env actor s id with Some r => tr_running r | None => false end) ids |}).

(** ** Parts *)

Record TicketPartInput : Type := {
  pi_description : string;
  pi_partNumber : option string;
  pi_vendor : option string;
  pi_catalogItemId : option string;
  pi_quantity : Q;
  pi_unitPrice : option Q;
  pi_costBasis : option Q;
  pi_isBillable : option bool;
  pi_billingStatus : option BillingStatus;
  pi_notes : option string;
}.

Definition addTicketPart (env : TimeEnv) (ticketId : string) (input : TicketPartInput) (actor : TimeEntryActor) (s : DeskStore)
  : timed DeskStore :=
  let! link := resolveTicketLink env ticketId actor s in
  let r := {| pr_part := {| tp_ticketId := ticketId; tp_orgId := lk_orgId link; tp_createdAt := tv_clock env 0;
                            tp_description := pi_description input; tp_quantity := toFixed 2 (pi_quantity input);
                            tp_unitPrice := toFixed 2 (default 0%Q (pi_unitPrice input));
                            tp_costBasis := toFixed 2 <$> pi_costBasis input; tp_catalogItemId := pi_catalogItemId input;
                            tp_isBillable := default (lk_defaultBillable link) (pi_isBillable input);
                            tp_billingStatus := default not_billed (pi_billingStatus input) |};
              pr_partNumber := pi_partNumber input; pr_vendor := pi_vendor input; pr_addedBy := Some (ta_userId actor);
              pr_notes := pi_notes input |} in
  let! _ := check (sees_part env r) TE_POLICY_VIOLATION in
  let! _ := check (bool_decide (dk_parts s !! tv_newId env = None)) TE_DUPLICATE_ID in
  Ok (with_parts (<[tv_newId env := r]>) s).

Definition getPartOr404 (env : TimeEnv) (id : string) (s : DeskStore) : timed PartRow :=
  match dk_parts s !! id with
  | Some r => let! _ := check (sees_part env r) TE_PART_NOT_FOUND in Ok r
  | None => Err TE_PART_NOT_FOUND
  end.

(** [Partial<TicketPartInput>]: [None] leaves a column alone. *)
Record UpdatePartInput : Type := {
  up_description : option string;
  up_partNumber : option string;
  up_vendor : option string;
  up_catalogItemId : option (option string);
  up_quantity : option Q;
  up_unitPrice : option Q;
  up_costBasis : option (option Q);
  up_isBillable : option bool;
  up_billingStatus : option BillingStatus;
  up_notes : option string;
}.

Definition apply_part (u : UpdatePartInput) (r : PartRow) : PartRow :=
  let p := pr_part r in
  {| pr_part := {| tp_ticketId := tp_ticketId p; tp_orgId := tp_orgId p; tp_createdAt := tp_createdAt p;
                   tp_description := default (tp_description p) (up_description u);
                   tp_quantity := default (tp_quantity p) (toFixed 2 <$> up_quantity u);
                   tp_unitPrice := default (tp_unitPrice p) (toFixed 2 <$> up_unitPrice u);
                   tp_costBasis := match up_costBasis u with Some c => toFixed 2 <$> c | None => tp_costBasis p end;
                   tp_catalogItemId := default (tp_catalogItemId p) (up_catalogItemId u);
                   tp_isBillable := default (tp_isBillable p) (up_isBillable u);
                   tp_billingStatus := default (tp_billingStatus p) (up_billingStatus u) |};
     pr_partNumber := orElse (up_partNumber u) (pr_partNumber r); pr_vendor := orElse (up_vendor u) (pr_vendor r);
     pr_addedBy := pr_addedBy r; pr_notes := orElse (up_notes u) (pr_notes r) |}.

Definition updateTicketPart (env : TimeEnv) (id : string) (u : UpdatePartInput) (s : DeskStore) : timed DeskStore :=
  let! _ := getPartOr404 env id s in Ok (with_parts (alter (apply_part u) id) s).

Definition deleteTicketPart (env : TimeEnv) (id : string) (s : DeskStore) : timed DeskStore :=
  let! _ := getPartOr404 env id s in Ok (with_parts (delete id) s).

(** ** The timesheet *)

Record TimesheetDay : Type := {
  td_date : string;
  td_totalMinutes : Z;
  td_billableMinutes : Z;
  td_entries : list TimeRow;
}.

(** [days.set(key, day)] on a map that keeps the order of insertion. *)
Definition days_set (d : TimesheetDay) (days : list TimesheetDay) : list TimesheetDay :=
  if existsb (fun x => bool_decide (td_date x = td_date d)) days
  then (fun x => if bool_decide (td_date x = td_date d) then d else x) <$> days
  else days ++ [d].

Definition day_ms : Z := 86400000.

Definition empty_day (key : string) : TimesheetDay :=
  {| td_date := key; td_totalMinutes := 0; td_billableMinutes := 0; td_entries := [] |}.

Definition week_days (weekStart : Z) : list TimesheetDay :=
  fold_left (fun days i => days_set (empty_day (iso_of_ms (weekStart + Z.of_nat i * day_ms))) days) (seq 0 7) [].

(** The day of an entry gets it; an entry of no day is passed over. *)
Definition add_to_day (r : TimeRow) (d : TimesheetDay) : TimesheetDay :=
  let minutes := default 0 (te_durationMinutes (tr_entry r)) in
  {| td_date := td_date d; td_totalMinutes := td_totalMinutes d + minutes;
     td_billableMinutes := td_billableMinutes d + (if te_isBillable (tr_entry r) then minutes else 0);
     td_entries := td_entries d ++ [r] |}.

Definition book_entry (days : list TimesheetDay) (r : TimeRow) : list TimesheetDay :=
  (fun d => if bool_decide (td_date d = iso_of_ms (tr_startedAt r)) then add_to_day r d else d) <$> days.

Record Timesheet : Type := {
  sh_weekStart : string;
  sh_days : list TimesheetDay;
  sh_totalMinutes : Z;
  sh_billableMinutes : Z;
}.

Definition earlier (a b : TimeRow) : Prop := tr_startedAt a <= tr_startedAt b.
#[export] Instance earlier_dec : RelDecision earlier.
Proof. unfold earlier. solve_decision. Defined.

Definition in_week (userId : string) (weekStart : Z) (accessibleOrgIds : option (list string)) (r : TimeRow) : bool :=
  bool_decide (tr_userId r = userId) && (weekStart <=? tr_startedAt r) && (tr_startedAt r <? weekStart + 7 * day_ms)
  && orgAxisSql accessibleOrgIds r.

(** [asc(startedAt)]; equal starts in an unspecified order. *)
Definition timesheet_rows (env : TimeEnv) (userId : string) (weekStart : Z) (accessibleOrgIds : option (list string))
    (s : DeskStore) : list TimeRow :=
  merge_sort earlier (sql_select (fun r => sees_time env r && in_week userId weekStart accessibleOrgIds r) (dk_time s)).

Definition sum_days (f : TimesheetDay -> Z) (days : list TimesheetDay) : Z := fold_left (fun acc d => acc + f d) days 0.

Definition getTimesheet (env : TimeEnv) (userId : string) (weekStart : Z) (accessibleOrgIds : option (list string))
    (s : DeskStore) : Timesheet :=
  let days := fold_left book_entry (timesheet_rows env userId weekStart accessibleOrgIds s) (week_days weekStart) in
  {| sh_weekStart := iso_of_ms weekStart; sh_days := days; sh_totalMinutes := sum_days td_totalMinutes days;
     sh_billableMinutes := sum_days td_billableMinutes days |}.

(** ** The calls *)

Inductive WorkOp : Type :=
| WCreate (input : CreateTimeEntryInput)
| WStart (ticketId description : option string)
| WStop (o : StopOverrides)
| WUpdate (id : string) (input : UpdateTimeEntryInput)
| WDelete (id : string)
| WApprove (ids : list string) (approve : bool)
| WAddPart (ticketId : string) (input : TicketPartInput)
| WUpdatePart (id : string) (u : UpdatePartInput)
| WDeletePart (id : string).

Definition work_call (env : TimeEnv) (actor : TimeEntryActor) (op : WorkOp) (s : DeskStore) : timed DeskStore :=
  match op with
  | WCreate input => createTimeEntry env input actor s
  | WStart ticketId description => startTimer env ticketId description actor s
  | WStop o => stopTimer env o actor s
  | WUpdate id input => updateTimeEntry env id input actor s
  | WDelete id => deleteTimeEntry env id actor s
  | WApprove ids approve => let! r := approveTimeEntries env ids approve actor s in Ok r.1
  | WAddPart ticketId input => addTicketPart env ticketId input actor s
  | WUpdatePart id u => updateTicketPart env id u s
  | WDeletePart id => deleteTicketPart env id s
  end.
