(* ===== verification/TimeTheorems.v ===== *)
(** * Time entries and parts: what the calls do to the rows

    Every call of services/timeEntryService.ts is a sequence of elementary changes of
    the two tables. From them: the rows stay well-formed, a user has one running
    timer, a call stays in the caller's partner and organizations, and the totals of
    a timesheet are those of its rows. *)

From stdpp Require Import base gmap strings list option sorting.
From Stdlib Require Import ZArith QArith Lia.
From S2P Require Import Prelude Json Tenant Money BillingStore Invoices.
From S2P Require Import DeskStore Tickets TimeEntries.

Open Scope Z_scope.

(** ** Elementary changes *)

Section changes.
Context (env : TimeEnv) (actor : TimeEntryActor) (tickets : gmap string Ticket).

(** The caller may link work to this ticket, whose partner is [p]. *)
Definition may_link (id p : string) (t : Ticket) : Prop :=
  tickets !! id = Some t /\ resolveTicketPartner (tv_dir env) t = Some p
  /\ (truthy (ta_partnerId actor) = true -> ta_partnerId actor = Some p)
  /\ match ta_accessibleOrgIds actor with None => True | Some l => tk_orgId t ∈ l end.

(** The ticket and the organization of a row of partner [p]. *)
Definition linked (p : string) (ticketId orgId : option string) : Prop :=
  match ticketId with
  | None => orgId = None
  | Some id => exists t, may_link id p t /\ orgId = Some (tk_orgId t)
  end.

(** The caller may change the row. *)
Definition may_edit (r : TimeRow) : Prop :=
  sees_time env r = true /\ entryOrgAllowed r (ta_accessibleOrgIds actor) = true
  /\ (tr_userId r = ta_userId actor \/ ta_manageAll actor = true)
  /\ (te_isApproved (tr_entry r) = true -> ta_manageAll actor = true).

Record new_row (r : TimeRow) : Prop := {
  nr_visible : sees_time env r = true;
  nr_user : tr_userId r = ta_userId actor;
  nr_plain : te_isApproved (tr_entry r) = false /\ tr_approvedBy r = None /\ tr_approvedAt r = None;
  nr_duration : te_durationMinutes (tr_entry r) = computeDurationMinutes (tr_startedAt r) <$> te_endedAt (tr_entry r);
  nr_link : linked (tr_partnerId r) (te_ticketId (tr_entry r)) (te_orgId (tr_entry r));
}.

(** What the read of an update has decided for a row. *)
Record edit_of (input : UpdateTimeEntryInput) (r : TimeRow) (p : TimeSet) : Prop := {
  eo_may : may_edit r;
  eo_status : ts_billingStatus p = ue_billingStatus input;
  eo_times : ts_startedAt p = ue_startedAt input /\ ts_endedAt p = ue_endedAt input;
  eo_duration : ts_durationMinutes p
    = if is_given (ue_startedAt input) || is_given (ue_endedAt input)
      then computeDurationMinutes (default (tr_startedAt r) (ue_startedAt input)) <$> orElse (ue_endedAt input) (te_endedAt (tr_entry r))
      else None;
  eo_link : forall l, ts_link p = Some l -> linked (tr_partnerId r) l.1 l.2;
}.

(** Only this change makes a row run. *)
Definition free_to_run (m : gmap string TimeRow) (r : TimeRow) : Prop :=
  tr_running r = true -> forall k x, m !! k = Some x -> tr_userId x = tr_userId r -> tr_running x = false.

(** [keeps] says which writes of a billing status an update may make. *)
Inductive time_change (keeps : option BillingStatus -> Prop) (m : gmap string TimeRow) : gmap string TimeRow -> Prop :=
| tch_insert r : m !! tv_newId env = None -> new_row r -> free_to_run m r -> time_change keeps m (<[tv_newId env := r]> m)
| tch_stop now o : time_change keeps m (sql_update (running_of env (ta_userId actor)) (set_stopped now o) m)
| tch_edit id r input p : m !! id = Some r -> edit_of input r p -> keeps (ue_billingStatus input) ->
    time_change keeps m (<[id := apply_time_set p r]> m)
| tch_delete id r : m !! id = Some r -> may_edit r -> time_change keeps m (delete id m)
| tch_approve (ids : list string) approve now : ta_manageAll actor = true ->
    (forall id, id ∈ ids -> exists r, m !! id = Some r /\ sees_time env r = true
                            /\ orgAxisSql (ta_accessibleOrgIds actor) r = true /\ tr_running r = false) ->
    time_change keeps m (map_imap (fun id r => Some (if bool_decide (id ∈ ids) then set_approval approve (ta_userId actor) now r else r)) m).

Inductive part_change (keeps : option BillingStatus -> Prop) (m : gmap string PartRow) : gmap string PartRow -> Prop :=
| pch_insert r t : m !! tv_newId env = None -> sees_part env r = true -> tickets !! tp_ticketId (pr_part r) = Some t ->
    tp_orgId (pr_part r) = tk_orgId t -> part_change keeps m (<[tv_newId env := r]> m)
| pch_edit id r u : m !! id = Some r -> sees_part env r = true -> keeps (up_billingStatus u) ->
    part_change keeps m (<[id := apply_part u r]> m)
| pch_delete id r : m !! id = Some r -> sees_part env r = true -> part_change keeps m (delete id m).
End changes.

(** ** Every call is made of them *)

(** The statuses an update writes. *)
Definition op_status (op : WorkOp) : option BillingStatus :=
  match op with WUpdate _ input => ue_billingStatus input | WUpdatePart _ u => up_billingStatus u | _ => None end.

Lemma resolve_may_link env id actor s l : resolveTicketLink env id actor s = Ok l ->
  exists t, may_link env actor (dk_tickets s) id (lk_partnerId l) t /\ lk_orgId l = tk_orgId t.
Proof.
  unfold resolveTicketLink, getTicketForTimeTracking. intros H. destruct (dk_tickets s !! id) as [t|] eqn:Et; [|done].
  cbn [rbind] in H. result_ok H. simplify_eq. cbn. exists t. split; [|done]. unfold may_link.
  destruct (resolveTicketPartner _ t) as [p|] eqn:Ep; [|done]. cbn in *. split_and!; try done.
  - intros Ht. rewrite Ht in *. cbn [negb orb] in *. by bool_hyps.
  - destruct (ta_accessibleOrgIds actor); [|done]. by bool_hyps.
Qed.

Lemma entry_linked env id actor s l : entryLink env id actor s = Ok l -> id <> Some EmptyString ->
  linked env actor (dk_tickets s) (default EmptyString (link_partner actor l)) id (lk_orgId <$> l).
Proof.
  unfold entryLink, linked. intros H Hne. destruct id as [id|]; [|by simplify_eq].
  assert (Ht : truthy (Some id) = true) by (by destruct id). rewrite Ht in H. result_ok H. simplify_eq.
  apply resolve_may_link in Hg as (t & Hm & E). exists t. cbn. by rewrite E.
Qed.

Lemma insertable_new env id l actor s st en d b rate status u :
  let r := new_entry id l (default EmptyString (link_partner actor l)) actor st en d b rate status in
  entryLink env id actor s = Ok l -> insertable env r = Ok u -> new_row env actor (dk_tickets s) r.
Proof.
  intros r Hl H. unfold insertable in H. result_ok H. bool_hyps. split; try done. cbn in *. by apply entry_linked.
Qed.

Lemma feed_time t actor c now s : dk_time (insertTimeEntryFeedComment t actor c now s) = dk_time s
  /\ dk_parts (insertTimeEntryFeedComment t actor c now s) = dk_parts s
  /\ dk_tickets (insertTimeEntryFeedComment t actor c now s) = dk_tickets s.
Proof. unfold insertTimeEntryFeedComment. by repeat case_match. Qed.

Lemma has_running_false u s : has_running u s = false -> forall k x, dk_time s !! k = Some x -> tr_userId x = u -> tr_running x = false.
Proof.
  unfold has_running. intros H k x Hx Hu. destruct (tr_running x) eqn:E; [|done]. exfalso.
  assert (Hb : existsb (fun r => bool_decide (tr_userId r = u) && tr_running r) (sql_rows (dk_time s)) = true).
  { apply existsb_exists. exists x. split; [apply list_elem_of_In, sql_rows_elem; eauto|]. by rewrite bool_decide_eq_true_2. }
  congruence.
Qed.

Lemma can_mutate r actor u : assertCanMutate r actor = Ok u ->
  (tr_userId r = ta_userId actor \/ ta_manageAll actor = true) /\ (te_isApproved (tr_entry r) = true -> ta_manageAll actor = true).
Proof.
  unfold assertCanMutate. intros H. result_ok H. split; [|intros E; by rewrite E in H].
  apply orb_true_iff in Hg as [Hg|Hg]; [left; by bool_hyps|by right].
Qed.

Section call.
Context (env : TimeEnv) (actor : TimeEntryActor).

(** The effect of a call on the two tables. *)
Definition work_effect (keeps : option BillingStatus -> Prop) (s s' : DeskStore) : Prop :=
  rtc (time_change env actor (dk_tickets s) keeps) (dk_time s) (dk_time s')
  /\ rtc (part_change env (dk_tickets s) keeps) (dk_parts s) (dk_parts s') /\ dk_tickets s' = dk_tickets s.

Lemma edit_read_spec s id input p : updateTimeEntry_read env id input actor s = Ok p ->
  exists r, dk_time s !! id = Some r /\ edit_of env actor (dk_tickets s) input r p.
Proof.
  unfold updateTimeEntry_read, getEntryOr404. intros H. destruct (dk_time s !! id) as [r|] eqn:Er; [|done].
  exists r. split; [done|]. apply rbind_Ok in H as (r' & H0 & H). result_ok H0. simplify_eq.
  apply rbind_Ok in H as ([] & Ha & H). apply rbind_Ok in H as ([] & _ & H). apply rbind_Ok in H as (l & Hl & H).
  simplify_eq. apply can_mutate in Ha. split; [by destruct Ha|done|done|done|].
  cbn. intros [tid org] ->. destruct (ue_ticketId input) as [[id'|]|]; [|by simplify_eq|by simplify_eq].
  apply rbind_Ok in Hl as (k & (t & Hm & E)%resolve_may_link & Hl). result_ok Hl. simplify_eq. bool_hyps. exists t. cbn.
  match goal with H : lk_partnerId _ = _ |- _ => rewrite <- H end. by rewrite <- E.
Qed.

Lemma stop_effect keeps now o s : work_effect keeps s (stopRunningEntry env now o actor s).1.
Proof. split_and!; [|done|done]. apply rtc_once, tch_stop. Qed.

Lemma attempt_effect keeps stopAt startAt mk s s' b tickets :
  start_attempt env stopAt startAt mk actor s = Ok (s', b) -> tickets = dk_tickets s ->
  (forall u, insertable env (mk startAt) = Ok u -> new_row env actor tickets (mk startAt)) -> work_effect keeps s s'.
Proof.
  intros H -> Hnew. unfold start_attempt in H. destruct (stopRunningEntry env stopAt no_overrides actor s) as [s1 e] eqn:E.
  pose proof (stop_effect keeps stopAt no_overrides s) as (Ht & Hp & Hk). rewrite E in *. cbn [fst] in *.
  set (s2 := match e with Some e => log_entry actor e.2 stopAt s1 | None => s1 end) in *.
  assert (E2 : dk_time s2 = dk_time s1 /\ dk_parts s2 = dk_parts s1 /\ dk_tickets s2 = dk_tickets s1)
    by (unfold s2; destruct e; [apply feed_time|done]).
  destruct E2 as (E2 & E3 & E4). apply rbind_Ok in H as (u & Hu & H). apply Hnew in Hu.
  destruct (_ || _) eqn:Ec; simplify_eq; unfold work_effect; cbn; rewrite ?E2, ?E3, ?E4; [done|].
  bool_hyps. split_and!; [|done|done]. eapply rtc_r; [done|]. rewrite <- E2. apply tch_insert; [done|done|].
  intros _ k x Hx Hux. eapply has_running_false; [done|done|]. rewrite Hux. apply (nr_user _ _ _ _ Hu).
Qed.

Lemma effect_trans keeps s s1 s2 : work_effect keeps s s1 -> work_effect keeps s1 s2 -> work_effect keeps s s2.
Proof. intros (H1 & H2 & H3) (G1 & G2 & G3). rewrite H3 in *. split_and!; [by etrans|by etrans|done]. Qed.

(** The effect of [s'] is that of a store with the same rows. *)
Lemma effect_same keeps s s1 s' : work_effect keeps s s1 -> dk_time s' = dk_time s1 -> dk_parts s' = dk_parts s1 ->
  dk_tickets s' = dk_tickets s1 -> work_effect keeps s s'.
Proof. unfold work_effect. by intros H -> -> ->. Qed.

Lemma effect_feed keeps e t c now s s1 :
  work_effect keeps s s1 -> work_effect keeps s (announce e (insertTimeEntryFeedComment t actor c now s1)).
Proof. intros H. destruct (feed_time t actor c now s1) as (E1 & E2 & E3). by eapply effect_same. Qed.

Lemma work_call_effect op s s' (keeps : option BillingStatus -> Prop) :
  work_call env actor op s = Ok s' -> keeps (op_status op) -> work_effect keeps s s'.
Proof.
  intros H Hk. destruct op as [input|tid d|o|id input|id|ids approve|tid input|id u|id]; cbn [work_call op_status] in H, Hk.
  - unfold createTimeEntry in H. apply rbind_Ok in H as (l & Hl & H). apply rbind_Ok in H as ([] & _ & H).
    apply rbind_Ok in H as ([] & _ & H). apply rbind_Ok in H as (s1 & Hi & H). simplify_eq. apply effect_feed.
    unfold insert_time in Hi. apply rbind_Ok in Hi as (u & Hu & Hi). result_ok Hi. simplify_eq. bool_hyps. split_and!; [|done|done].
    apply rtc_once, tch_insert; [done|by eapply insertable_new|done].
  - unfold startTimer in H. apply rbind_Ok in H as (l & Hl & H). apply rbind_Ok in H as ([] & _ & H).
    apply rbind_Ok in H as ([s1 b1] & H1 & H). apply rbind_Ok in H as ([s2 b2] & H2 & H). result_ok H. simplify_eq.
    eapply (effect_same _ _ s2); [|done..]. assert (W1 : work_effect keeps s s1).
    { eapply attempt_effect; [done|done|]. intros u Hu. by eapply insertable_new. }
    destruct b1; cbn [fst snd] in H2; [by simplify_eq|]. eapply effect_trans; [done|]. destruct W1 as (_ & _ & Ek).
    eapply (attempt_effect _ _ _ _ _ _ _ (dk_tickets s)); [done|done|]. intros u Hu. by eapply insertable_new.
  - unfold stopTimer in H. pose proof (stop_effect keeps (tv_clock env 0) o s) as W.
    destruct (stopRunningEntry env _ o actor s) as [s1 [[id r]|]]; [|done]. simplify_eq. by apply effect_feed.
  - unfold updateTimeEntry in H. apply rbind_Ok in H as (p & (r & Hr & He)%edit_read_spec & H). simplify_eq.
    split_and!; [|done|done]. cbn. apply rtc_once. rewrite (alter_present _ _ _ _ Hr). by eapply tch_edit.
  - unfold deleteTimeEntry, getEntryOr404 in H. destruct (dk_time s !! id) as [r|] eqn:Er; [|done].
    apply rbind_Ok in H as (r' & H0 & H). result_ok H0. simplify_eq. apply rbind_Ok in H as ([] & Hm%can_mutate & H). simplify_eq.
    apply effect_feed. split_and!; [|done|done]. apply rtc_once. eapply tch_delete; [done|]. by destruct Hm.
  - apply rbind_Ok in H as (x & H & Hx). unfold approveTimeEntries in H. apply rbind_Ok in H as (u & Hu%check_Ok & H).
    simplify_eq. cbn [fst]. eapply (effect_same _ _ (with_time _ s)); [|by destruct (approve && _)..]. split_and!; [|done|done].
    cbn. apply rtc_once, tch_approve; [done|]. intros id Hid. unfold eligible_ids in Hid.
    apply list_filter_elem in Hid as [_ Hid]. unfold candidate in Hid. destruct (dk_time s !! id) as [r|]; [|done].
    exists r. destruct (sees_time env r && _) eqn:Es; [|done]. by bool_hyps.
  - unfold addTicketPart in H. apply rbind_Ok in H as (l & (t & (Ht & _) & El)%resolve_may_link & H). result_ok H.
    simplify_eq. bool_hyps. split_and!; [done| |done]. cbn. apply rtc_once. by eapply pch_insert.
  - unfold updateTicketPart, getPartOr404 in H. destruct (dk_parts s !! id) as [r|] eqn:Er; [|done]. result_ok H. result_ok Hg.
    simplify_eq. split_and!; [done| |done]. cbn. apply rtc_once. rewrite (alter_present _ _ _ _ Er). by eapply pch_edit.
  - unfold deleteTicketPart, getPartOr404 in H. destruct (dk_parts s !! id) as [r|] eqn:Er; [|done]. result_ok H. result_ok Hg.
    simplify_eq. split_and!; [done| |done]. cbn. apply rtc_once. by eapply pch_delete.
Qed.
End call.

(** ** The rows *)

(** Durations are those of the interval, and an approved entry is finished and says
    who approved it and when. *)
Record row_ok (r : TimeRow) : Prop := {
  ro_duration : te_durationMinutes (tr_entry r) = computeDurationMinutes (tr_startedAt r) <$> te_endedAt (tr_entry r);
  ro_approved : te_isApproved (tr_entry r) = true <-> tr_approvedBy r <> None;
  ro_approvedAt : te_isApproved (tr_entry r) = true <-> tr_approvedAt r <> None;
  ro_finished : te_isApproved (tr_entry r) = true -> tr_running r = false;
}.

Definition rows_ok (m : gmap string TimeRow) : Prop := forall k r, m !! k = Some r -> row_ok r.

Definition one_running (m : gmap string TimeRow) : Prop :=
  forall k1 k2 r1 r2, m !! k1 = Some r1 -> m !! k2 = Some r2 -> tr_userId r1 = tr_userId r2 ->
    tr_running r1 = true -> tr_running r2 = true -> k1 = k2.

(** A row has the organization of its ticket, and its partner. *)
Definition placed (tickets : gmap string Ticket) (r : TimeRow) : Prop :=
  match te_ticketId (tr_entry r) with
  | None => te_orgId (tr_entry r) = None
  | Some id => exists t, tickets !! id = Some t /\ te_orgId (tr_entry r) = Some (tk_orgId t)
                 /\ (truthy (th_partnerId (tk_head t)) = true -> th_partnerId (tk_head t) = Some (tr_partnerId r))
  end.

Definition all_placed (tickets : gmap string Ticket) (m : gmap string TimeRow) : Prop := forall k r, m !! k = Some r -> placed tickets r.

Definition parts_placed (tickets : gmap string Ticket) (m : gmap string PartRow) : Prop :=
  forall k r, m !! k = Some r -> exists t, tickets !! tp_ticketId (pr_part r) = Some t /\ tp_orgId (pr_part r) = tk_orgId t.

Lemma linked_placed env actor tickets r p o tid :
  linked env actor tickets p tid o -> tr_partnerId r = p -> te_ticketId (tr_entry r) = tid -> te_orgId (tr_entry r) = o -> placed tickets r.
Proof.
  unfold linked, placed. intros H <- <- <-. destruct (te_ticketId (tr_entry r)) as [id|]; [|done].
  destruct H as (t & (Ht & Hp & _) & Ho). exists t. split_and!; [done|done|]. intros Htr. unfold resolveTicketPartner in Hp.
  by rewrite Htr in Hp.
Qed.

Lemma stop_row_ok now o r : row_ok r -> te_isApproved (tr_entry r) = false -> row_ok (set_stopped now o r).
Proof. intros [H1 H2 H3 H4] E. by split; cbn. Qed.

Lemma running_unapproved env u r : row_ok r -> running_of env u r = true -> te_isApproved (tr_entry r) = false.
Proof.
  intros Hr H. unfold running_of in H. bool_hyps. destruct (te_isApproved (tr_entry r)) eqn:E; [|done].
  pose proof (ro_finished _ Hr E). congruence.
Qed.

Lemma edit_row_ok env actor tickets input r p : row_ok r -> edit_of env actor tickets input r p -> row_ok (apply_time_set p r).
Proof.
  intros [H1 _ _ _] He. pose proof (eo_duration _ _ _ _ _ _ He) as Hd. destruct (eo_times _ _ _ _ _ _ He) as [Hs Hend].
  split; cbn; try done. rewrite Hd, Hs, Hend.
  destruct (ue_startedAt input), (ue_endedAt input); cbn; try done. by destruct (te_endedAt (tr_entry r)); cbn in *.
Qed.

Section preserved.
Context (env : TimeEnv) (actor : TimeEntryActor) (tickets : gmap string Ticket) (keeps : option BillingStatus -> Prop).
Abbreviation change := (time_change env actor tickets keeps).

Lemma change_rows m m' : rows_ok m -> change m m' -> rows_ok m'.
Proof.
  intros Hm Hc k r' Hr'. destruct Hc as [r Hn Hr _|now o|id r input p Hr He _|id r Hr _|ids approve now Hall Hids].
  - destruct (decide (k = tv_newId env)) as [->|Hk]; [|rewrite lookup_insert_ne in Hr' by done; by eapply Hm].
    rewrite lookup_insert_eq in Hr'. simplify_eq. destruct (nr_plain _ _ _ _ Hr) as (E1 & E2 & E3).
    split; [apply (nr_duration _ _ _ _ Hr)|..]; rewrite ?E1, ?E2, ?E3; naive_solver.
  - apply sql_update_Some in Hr' as (r & Hr & [[-> Hp]|[-> Hp]]); [by eapply Hm|].
    apply stop_row_ok; [by eapply Hm|eapply running_unapproved; [by eapply Hm|done]].
  - destruct (decide (k = id)) as [->|Hk]; [|rewrite lookup_insert_ne in Hr' by done; by eapply Hm].
    rewrite lookup_insert_eq in Hr'. simplify_eq. eapply edit_row_ok; [by eapply Hm|done].
  - apply lookup_delete_Some in Hr' as [_ Hr']. by eapply Hm.
  - rewrite map_lookup_imap in Hr'. destruct (m !! k) as [r|] eqn:Hr; [|done]. cbn in Hr'. case_bool_decide as Hin; simplify_eq; [|by eapply Hm].
    destruct (Hids k Hin) as (r0 & Hr0 & _ & _ & Hrun). simplify_eq. destruct (Hm _ _ Hr) as [H1 _ _ _].
    split; [done|..]; cbn; destruct approve; naive_solver.
Qed.

(** Rows of before, with their users, and none of them made to run. *)
Definition calmer (m m' : gmap string TimeRow) : Prop :=
  forall k r', m' !! k = Some r' -> exists r, m !! k = Some r /\ tr_userId r' = tr_userId r /\ (tr_running r' = true -> tr_running r = true).

Lemma calmer_one m m' : one_running m -> calmer m m' -> one_running m'.
Proof.
  intros H Hc k1 k2 r1 r2 H1 H2 Hu Hr1 Hr2. destruct (Hc _ _ H1) as (x1 & G1 & U1 & R1), (Hc _ _ H2) as (x2 & G2 & U2 & R2).
  eapply (H k1 k2 x1 x2); auto. congruence.
Qed.

Lemma calmer_update m id r r' : m !! id = Some r -> tr_userId r' = tr_userId r -> (tr_running r' = true -> tr_running r = true) ->
  calmer m (<[id := r']> m).
Proof.
  intros Hr Hu Hrun k x Hx. destruct (decide (k = id)) as [->|Hk].
  - rewrite lookup_insert_eq in Hx. simplify_eq. eauto.
  - rewrite lookup_insert_ne in Hx by done. eauto.
Qed.

Lemma change_running m m' : one_running m -> change m m' -> one_running m'.
Proof.
  intros Hm Hc. destruct Hc as [r Hn Hr Hf|now o|id r input p Hr He _|id r Hr _|ids approve now Hall Hids].
  - intros k1 k2 r1 r2 H1 H2 Hu Hr1 Hr2. rewrite lookup_insert_Some in H1, H2.
    destruct H1 as [[<- <-]|[N1 H1]], H2 as [[<- <-]|[N2 H2]]; try done; [| |by eapply Hm].
    + exfalso. by rewrite (Hf Hr1 _ _ H2) in Hr2.
    + exfalso. by rewrite (Hf Hr2 _ _ H1) in Hr1.
  - apply (calmer_one m); [done|]. intros k r' (r & Hr & [[-> Hp]|[-> Hp]])%sql_update_Some; exists r; [done|]. by split_and!.
  - apply (calmer_one m); [done|]. eapply calmer_update; [done|done|]. unfold tr_running. cbn.
    by destruct (ts_endedAt p).
  - apply (calmer_one m); [done|]. intros k r' [_ H]%lookup_delete_Some. eauto.
  - apply (calmer_one m); [done|]. intros k r' H. rewrite map_lookup_imap in H. destruct (m !! k) as [r|]; [|done]. cbn in H.
    exists r. split; [done|]. case_bool_decide; by simplify_eq.
Qed.

Lemma change_placed m m' : all_placed tickets m -> change m m' -> all_placed tickets m'.
Proof.
  intros Hm Hc k r' Hr'. destruct Hc as [r Hn Hr _|now o|id r input p Hr He _|id r Hr _|ids approve now Hall Hids].
  - destruct (decide (k = tv_newId env)) as [->|Hk]; [|rewrite lookup_insert_ne in Hr' by done; by eapply Hm].
    rewrite lookup_insert_eq in Hr'. simplify_eq. eapply linked_placed; [apply (nr_link _ _ _ _ Hr)|done..].
  - apply sql_update_Some in Hr' as (r & Hr & [[-> Hp]|[-> Hp]]); by eapply (Hm k r).
  - destruct (decide (k = id)) as [->|Hk]; [|rewrite lookup_insert_ne in Hr' by done; by eapply Hm].
    rewrite lookup_insert_eq in Hr'. simplify_eq. destruct (ts_link p) as [l|] eqn:El.
    + pose proof (eo_link _ _ _ _ _ _ He _ El) as Hl. eapply linked_placed; [exact Hl|done|..]; cbn; by rewrite El.
    + pose proof (Hm _ _ Hr) as Hp. unfold placed in *. cbn. by rewrite El.
  - apply lookup_delete_Some in Hr' as [_ Hr']. by eapply Hm.
  - rewrite map_lookup_imap in Hr'. destruct (m !! k) as [r|] eqn:Hr; [|done]. cbn in Hr'. injection Hr' as <-.
    pose proof (Hm _ _ Hr). by case_bool_decide.
Qed.

Lemma part_change_placed m m' : parts_placed tickets m -> part_change env tickets keeps m m' -> parts_placed tickets m'.
Proof.
  intros Hm Hc k r' Hr'. destruct Hc as [r t Hn Hv Ht Ho|id r u Hr Hv _|id r Hr Hv].
  - apply lookup_insert_Some in Hr' as [[_ <-]|[_ Hr']]; [eauto|by eapply Hm].
  - apply lookup_insert_Some in Hr' as [[_ <-]|[_ Hr']]; [by apply (Hm _ _ Hr)|by eapply Hm].
  - apply lookup_delete_Some in Hr' as [_ Hr']. by eapply Hm.
Qed.
End preserved.

(** ** Scope *)

(** The SQL condition and the test on a fetched row are one. *)
Lemma orgAxis_entryOrg r orgs : orgAxisSql orgs r = entryOrgAllowed r orgs.
Proof.
  unfold orgAxisSql, entryOrgAllowed. destruct orgs as [l|]; [|done]. destruct (te_orgId (tr_entry r)) as [o|]; cbn; [|by destruct l].
  assert (E : existsb (fun x => bool_decide (Some o = Some x)) l = bool_decide (o ∈ l)).
  { apply eq_true_iff_eq. rewrite existsb_exists, bool_decide_eq_true. split.
    - intros (x & Hx & Heq). bool_hyps. simplify_eq. by apply list_elem_of_In.
    - intros Hin. exists o. split; [by apply list_elem_of_In|by apply bool_decide_eq_true]. }
  destruct l; [|exact E]. cbn. symmetry. apply bool_decide_eq_false. set_solver.
Qed.

Section scope.
Context (env : TimeEnv) (actor : TimeEntryActor).

Definition mine (r : TimeRow) : Prop := tr_userId r = ta_userId actor.
Definition managed (r : TimeRow) : Prop := ta_manageAll actor = true /\ entryOrgAllowed r (ta_accessibleOrgIds actor) = true.

(** The row may be changed: it is the caller's running timer, or in his
    organizations and his own or under his management. *)
Definition in_scope (r : TimeRow) : Prop :=
  sees_time env r = true
  /\ (mine r /\ tr_running r = true
      \/ (mine r \/ ta_manageAll actor = true) /\ entryOrgAllowed r (ta_accessibleOrgIds actor) = true).

Definition left_in_scope (r : TimeRow) : Prop := sees_time env r = true /\ (mine r \/ managed r).

Definition scoped {A} (P Q : A -> Prop) (o o' : option A) : Prop :=
  o' = o \/ (forall r, o = Some r -> P r) /\ (forall r, o' = Some r -> Q r).

Lemma scoped_trans {A} (P Q : A -> Prop) a b c : scoped P Q a b -> scoped P Q b c -> scoped P Q a c.
Proof. intros [->|[H1 H2]] [->|[G1 G2]]; [by left|by right|by right|by right]. Qed.

Lemma linked_allowed tickets p tid o r : linked env actor tickets p tid o -> te_orgId (tr_entry r) = o ->
  entryOrgAllowed r (ta_accessibleOrgIds actor) = true.
Proof.
  unfold linked, entryOrgAllowed. intros H <-. destruct (ta_accessibleOrgIds actor) as [l|] eqn:El; [|done].
  destruct tid as [id|]; [|by rewrite H]. destruct H as (t & (_ & _ & _ & Ho) & ->). rewrite El in Ho. by apply bool_decide_eq_true.
Qed.

Lemma change_scope tickets keeps m m' k : time_change env actor tickets keeps m m' -> scoped in_scope left_in_scope (m !! k) (m' !! k).
Proof.
  intros Hc. destruct Hc as [r Hn Hr _|now o|id r input p Hr He _|id r Hr He|ids approve now Hall Hids].
  - destruct (decide (k = tv_newId env)) as [->|Hk]; [|left; by rewrite lookup_insert_ne]. right. rewrite Hn, lookup_insert_eq.
    split; [done|]. intros r' [= <-]. split; [apply (nr_visible _ _ _ _ Hr)|left; apply (nr_user _ _ _ _ Hr)].
  - rewrite lookup_sql_update. destruct (m !! k) as [r|]; [|by left]. cbn. destruct (running_of _ _ r) eqn:E; [|by left]. right.
    unfold running_of in E. bool_hyps. split; intros r' [= <-]; (split; [done|]); left; done.
  - destruct (decide (k = id)) as [->|Hk]; [|left; by rewrite lookup_insert_ne]. right. rewrite Hr, lookup_insert_eq.
    destruct (eo_may _ _ _ _ _ _ He) as (Hv & Ho & Hm & _). split; intros r' [= <-]; (split; [done|]); [by right|].
    destruct Hm as [Hm|Hm]; [by left|]. right. split; [done|]. destruct (ts_link p) as [l|] eqn:El.
    + eapply linked_allowed; [apply (eo_link _ _ _ _ _ _ He _ El)|]. cbn. by rewrite El.
    + unfold entryOrgAllowed in *. cbn. by rewrite El.
  - destruct (decide (k = id)) as [->|Hk]; [|left; by rewrite lookup_delete_ne]. right. rewrite Hr, lookup_delete_eq.
    split; [|done]. intros r' [= <-]. destruct He as (Hv & Ho & Hm & _). split; [done|by right].
  - rewrite map_lookup_imap. destruct (m !! k) as [r|] eqn:Hr; [|by left]. cbn. case_bool_decide as Hin; [|by left]. right.
    destruct (Hids k Hin) as (r0 & Hr0 & Hv & Ho & _). rewrite Hr in Hr0. injection Hr0 as <-. rewrite orgAxis_entryOrg in Ho.
    split; intros r' [= <-]; (split; [done|]); right; [by split; [right|]|by split].
Qed.

Lemma part_change_scope tickets keeps m m' k : part_change env tickets keeps m m' ->
  scoped (fun r => sees_part env r = true) (fun r => sees_part env r = true) (m !! k) (m' !! k).
Proof.
  intros Hc. destruct Hc as [r t Hn Hv Ht Ho|id r u Hr Hv _|id r Hr Hv].
  - destruct (decide (k = tv_newId env)) as [->|Hk]; [|left; by rewrite lookup_insert_ne]. right. rewrite Hn, lookup_insert_eq. naive_solver.
  - destruct (decide (k = id)) as [->|Hk]; [|left; by rewrite lookup_insert_ne]. right. rewrite Hr, lookup_insert_eq. naive_solver.
  - destruct (decide (k = id)) as [->|Hk]; [|left; by rewrite lookup_delete_ne]. right. rewrite Hr, lookup_delete_eq. naive_solver.
Qed.

Lemma rtc_scoped {A} (R : gmap string A -> gmap string A -> Prop) (P Q : A -> Prop) k :
  (forall m m', R m m' -> scoped P Q (m !! k) (m' !! k)) -> forall m m', rtc R m m' -> scoped P Q (m !! k) (m' !! k).
Proof. intros H m m'. induction 1 as [|m m1 m' Hs _ IH]; [by left|]. eapply scoped_trans; [by apply H|done]. Qed.
End scope.

(** C18: A call touches only what its caller may touch: a time entry it changes or deletes
    is visible to the caller's partner and either the caller's own running timer or
    an entry of his organizations that is his own or that he may manage; what it
    leaves is his own or in the organizations he manages; and a part it adds,
    changes or deletes is of an organization he has access to. *)
Theorem time_calls_stay_in_scope env actor op s s' k : work_call env actor op s = Ok s' ->
  scoped (in_scope env actor) (left_in_scope env actor) (dk_time s !! k) (dk_time s' !! k)
  /\ scoped (fun r => sees_part env r = true) (fun r => sees_part env r = true) (dk_parts s !! k) (dk_parts s' !! k).
Proof.
  intros H. destruct (work_call_effect env actor op s s' (fun _ => True) H I) as (Ht & Hp & _). split.
  - eapply rtc_scoped; [|done]. intros. by eapply change_scope.
  - eapply rtc_scoped; [|done]. intros. by eapply part_change_scope.
Qed.

(** ** Timesheets *)

Definition sum_rows (f : TimeRow -> Z) (l : list TimeRow) : Z := fold_right (fun r acc => f r + acc) 0 l.
Definition minutes_of (r : TimeRow) : Z := default 0 (te_durationMinutes (tr_entry r)).
Definition billable_of (r : TimeRow) : Z := if te_isBillable (tr_entry r) then minutes_of r else 0.

Lemma sum_rows_perm f l l' : l ≡ₚ l' -> sum_rows f l = sum_rows f l'.
Proof. unfold sum_rows. induction 1; cbn; lia. Qed.

Lemma sum_days_cons f d days : sum_days f (d :: days) = f d + sum_days f days.
Proof.
  unfold sum_days. cbn [fold_left]. assert (H : forall l a, fold_left (fun acc d => acc + f d) l a = a + fold_left (fun acc d => acc + f d) l 0).
  { induction l as [|x l IH]; intros a; cbn [fold_left]; [lia|].
    rewrite (IH (a + f x)), (IH (0 + f x)). lia. }
  rewrite H. lia.
Qed.

Lemma book_dates days r : td_date <$> book_entry days r = td_date <$> days.
Proof. unfold book_entry. rewrite <- list_fmap_compose. apply list_fmap_ext. intros i d _. cbn. by case_bool_decide. Qed.

Lemma book_cons d days r :
  book_entry (d :: days) r = (if bool_decide (td_date d = iso_of_ms (tr_startedAt r)) then add_to_day r d else d) :: book_entry days r.
Proof. done. Qed.

Lemma book_away days r : iso_of_ms (tr_startedAt r) ∉ td_date <$> days -> book_entry days r = days.
Proof.
  induction days as [|d days IH]; intros H; [done|]. rewrite fmap_cons in H. rewrite book_cons, IH by set_solver.
  rewrite bool_decide_eq_false_2; [done|set_solver].
Qed.

Lemma book_sum f g days r : NoDup (td_date <$> days) -> iso_of_ms (tr_startedAt r) ∈ td_date <$> days ->
  (forall d, f (add_to_day r d) = f d + g r) -> sum_days f (book_entry days r) = sum_days f days + g r.
Proof.
  intros Hn Hin Hf. induction days as [|d days IH]; [set_solver|]. rewrite fmap_cons in Hn, Hin.
  apply NoDup_cons in Hn as [Hd Hn]. rewrite book_cons, !sum_days_cons. case_bool_decide as E.
  - rewrite book_away by (rewrite <- E; done). rewrite Hf. lia.
  - rewrite IH; [lia|done|set_solver].
Qed.

Lemma book_all f g rows : forall days, NoDup (td_date <$> days) -> Forall (fun r => iso_of_ms (tr_startedAt r) ∈ td_date <$> days) rows ->
  (forall r d, f (add_to_day r d) = f d + g r) -> sum_days f (fold_left book_entry rows days) = sum_days f days + sum_rows g rows.
Proof.
  induction rows as [|r rows IH]; intros days Hn Hall Hf; [cbn [fold_left sum_rows fold_right]; lia|]. apply Forall_cons in Hall as [Hr Hall]. cbn [fold_left].
  change (sum_rows g (r :: rows)) with (g r + sum_rows g rows).
  rewrite IH; [|by rewrite book_dates|by rewrite book_dates|done]. rewrite (book_sum f g) by done. lia.
Qed.

Lemma days_set_dates d days : NoDup (td_date <$> days) ->
  NoDup (td_date <$> days_set d days) /\ td_date d ∈ td_date <$> days_set d days /\ (forall x, x ∈ td_date <$> days -> x ∈ td_date <$> days_set d days).
Proof.
  intros Hn. unfold days_set. destruct (existsb _ days) eqn:E.
  - assert (Ed : td_date <$> ((fun x => if bool_decide (td_date x = td_date d) then d else x) <$> days) = td_date <$> days).
    { rewrite <- list_fmap_compose. apply list_fmap_ext. intros i x _. cbn. case_bool_decide as Ex; [by rewrite Ex|done]. }
    rewrite Ed. split_and!; [done| |done]. apply existsb_exists in E as (x & Hx & Heq). bool_hyps. rewrite <- Heq.
    by apply list_elem_of_fmap_2, list_elem_of_In.
  - assert (Hnot : td_date d ∉ td_date <$> days).
    { intros (x & Hd & Hx)%list_elem_of_fmap. assert (H : existsb (fun y => bool_decide (td_date y = td_date d)) days = true).
      { apply existsb_exists. exists x. split; [by apply list_elem_of_In|by apply bool_decide_eq_true]. }
      congruence. }
    rewrite fmap_app. cbn. split_and!; [|set_solver|set_solver]. apply NoDup_app. split_and!; [done|set_solver|repeat constructor; set_solver].
Qed.

Lemma fold_days mk l : forall days, NoDup (td_date <$> days) ->
  let out := fold_left (fun days (i : nat) => days_set (mk i) days) l days in
  NoDup (td_date <$> out) /\ (forall x, x ∈ td_date <$> days -> x ∈ td_date <$> out) /\ forall i, i ∈ l -> td_date (mk i) ∈ td_date <$> out.
Proof.
  induction l as [|i l IH]; intros days Hn; cbn [fold_left]; [split_and!; [done|done|set_solver]|].
  destruct (days_set_dates (mk i) days Hn) as (H1 & H2 & H3). destruct (IH _ H1) as (G1 & G2 & G3). split_and!; [done|auto|].
  intros j [->|Hj]%elem_of_cons; auto.
Qed.

Lemma week_dates ws : NoDup (td_date <$> week_days ws)
  /\ forall i, (i < 7)%nat -> iso_of_ms (ws + Z.of_nat i * day_ms) ∈ td_date <$> week_days ws.
Proof.
  unfold week_days. pose proof (fold_days (fun i => empty_day (iso_of_ms (ws + Z.of_nat i * day_ms))) (seq 0 7) [] ltac:(constructor)) as H.
  cbn zeta in H. destruct H as (Hn & _ & Hin). split; [exact Hn|]. intros i Hi. apply Hin, elem_of_seq. lia.
Qed.

Lemma sum_zero f days : Forall (fun d => f d = 0) days -> sum_days f days = 0.
Proof. induction 1 as [|d days Hd _ IH]; [done|]. rewrite sum_days_cons. lia. Qed.

Lemma week_empty f ws : (forall key, f (empty_day key) = 0) -> sum_days f (week_days ws) = 0.
Proof.
  intros Hf. apply sum_zero. unfold week_days. assert (H : Forall (fun d => f d = 0) []) by constructor. revert H.
  generalize (@nil TimesheetDay). generalize (seq 0 7). induction l as [|i l IH]; intros days H; [done|]. cbn [fold_left]. apply IH.
  unfold days_set. destruct (existsb _ days); [|apply Forall_app; split; [done|by repeat constructor]].
  apply Forall_fmap. eapply Forall_impl; [done|]. intros d Hd. cbn. by case_bool_decide.
Qed.

(** The date of an instant is that of the midnight before it. *)
Lemma iso_midnight ws t : ws mod day_ms = 0 -> ws <= t < ws + 7 * day_ms ->
  exists i, (i < 7)%nat /\ iso_of_ms t = iso_of_ms (ws + Z.of_nat i * day_ms).
Proof.
  intros Hw Ht. exists (Z.to_nat ((t - ws) / day_ms)).
  assert (Hb : 0 <= (t - ws) / day_ms < 7) by (split; [apply Z.div_pos|apply Z.div_lt_upper_bound]; unfold day_ms in *; lia).
  split; [lia|]. rewrite Z2Nat.id by lia. unfold iso_of_ms.
  replace ((ws + (t - ws) / day_ms * day_ms) / 86400000) with (t / 86400000); [done|].
  fold day_ms. rewrite Z.div_add by done. pose proof (Z.div_mod ws day_ms ltac:(done)) as E. rewrite Hw in E.
  replace (t - ws) with (t + - (ws / day_ms) * day_ms) by lia. rewrite Z.div_add by done. lia.
Qed.

(** A week that starts at midnight, UTC, has every minute of the user's entries the
    caller may see that start in it, once: its totals are the sums of their durations
    and of the billable ones. *)
Lemma timesheet_totals_are_exact env userId weekStart orgs s : weekStart mod day_ms = 0 ->
  let rows := sql_select (fun r => sees_time env r && in_week userId weekStart orgs r) (dk_time s) in
  let sheet := getTimesheet env userId weekStart orgs s in
  sh_totalMinutes sheet = sum_rows minutes_of rows /\ sh_billableMinutes sheet = sum_rows billable_of rows.
Proof.
  intros Hw rows sheet. pose proof (merge_sort_Permutation earlier rows) as Hp. fold (timesheet_rows env userId weekStart orgs s) in Hp.
  destruct (week_dates weekStart) as [Hn Hin].
  assert (Hall : Forall (fun r => iso_of_ms (tr_startedAt r) ∈ td_date <$> week_days weekStart) (timesheet_rows env userId weekStart orgs s)).
  { apply Forall_forall. intros r Hr. assert (Hr' : r ∈ rows) by (by rewrite <- Hp). apply sql_select_elem in Hr' as [_ Hr']. bool_hyps.
    unfold in_week in *. bool_hyps. destruct (iso_midnight weekStart (tr_startedAt r)) as (i & Hi & ->); [done|lia|].
    by apply Hin. }
  unfold sheet, getTimesheet. cbn [sh_totalMinutes sh_billableMinutes].
  by rewrite (book_all td_totalMinutes minutes_of), (book_all td_billableMinutes billable_of), !(sum_rows_perm _ _ _ Hp), !week_empty.
Qed.
