(* ===== verification/WorkSystem.v ===== *)
(** * The service desk and billing on one database

    Billing reads the work the desk records and marks it billed. Each side of the
    model has the two tables of work as it sees them; a step of one side is followed
    by the other side's view of what it wrote. Calls run one after the other.

    The rows stay as they should across both sides, work is billed once as long as
    nobody sets a billing status back by hand, and a run in which somebody does. *)

From stdpp Require Import base gmap strings list option sorting.
From Stdlib Require Import ZArith QArith Lia.
From S2P Require Import Prelude Json Tenant Money BillingStore Invoices.
From S2P Require Import BillingSystem BillingTheorems DeskStore Tickets TicketSystem.
From S2P Require Import TicketTheorems TimeEntries TimeTheorems.

Open Scope Z_scope.

(** ** What a ticket call does to work *)

(** A move: the tickets that move, and the organization they move to. *)
Abbreviation Move := (option ((string -> bool) * string)).

(** The organization a row of this ticket has after the move. *)
Definition org_after (mv : Move) (id : string) (org : string) : string :=
  match mv with Some (moves, o) => if moves id then o else org | None => org end.

(** The tickets keep their partners, and their organizations but for a move. *)
Definition heads (mv : Move) (m m' : gmap string Ticket) : Prop :=
  forall id t, m !! id = Some t -> exists t', m' !! id = Some t' /\ th_partnerId (tk_head t') = th_partnerId (tk_head t)
    /\ tk_orgId t' = org_after mv id (tk_orgId t).

Definition moved_entry (mv : Move) (r : TimeRow) : TimeRow :=
  match mv, te_ticketId (tr_entry r) with
  | Some (moves, o), Some id => if moves id then set_entry (set_te_org o) r else r
  | _, _ => r
  end.

Definition moved_part (mv : Move) (r : PartRow) : PartRow :=
  match mv with Some (moves, o) => if moves (tp_ticketId (pr_part r)) then set_part (set_tp_org o) r else r | None => r end.

Definition moved_work (mv : Move) (s s' : DeskStore) : Prop :=
  heads mv (dk_tickets s) (dk_tickets s')
  /\ (forall k, dk_time s' !! k = moved_entry mv <$> dk_time s !! k)
  /\ (forall k, dk_parts s' !! k = moved_part mv <$> dk_parts s !! k).

(** Nothing moves. *)
Lemma at_rest s s' : heads None (dk_tickets s) (dk_tickets s') -> dk_time s' = dk_time s -> dk_parts s' = dk_parts s ->
  moved_work None s s'.
Proof. intros H E1 E2. split_and!; [done|..]; intros k; [rewrite E1; by destruct (dk_time s !! k)|rewrite E2; by destruct (dk_parts s !! k)]. Qed.

Lemma heads_refl m : heads None m m.
Proof. intros id t H. by exists t. Qed.

Lemma heads_insert m id t f : m !! id = Some t -> tk_head (f t) = tk_head t -> heads None m (<[id := f t]> m).
Proof.
  intros Ht Hf k x Hx. destruct (decide (k = id)) as [->|Hk].
  - rewrite lookup_insert_eq. simplify_eq. exists (f t). unfold tk_orgId. by rewrite Hf.
  - rewrite lookup_insert_ne by done. by exists x.
Qed.

Lemma heads_new m id t : m !! id = None -> heads None m (<[id := t]> m).
Proof. intros Hn k x Hx. exists x. rewrite lookup_insert_ne by (intros ->; congruence). done. Qed.

Lemma cas_work id p f e s s' : cas_ticket id p f e s = Ok s' -> (forall t, tk_head (f t) = tk_head t) -> moved_work None s s'.
Proof. intros (t & Ht & _ & ->)%cas_ticket_spec Hf. apply at_rest; [|done..]. by apply heads_insert. Qed.

(** What does not show in the tables. *)
Lemma moved_same mv s s1 s2 : moved_work mv s s1 -> dk_tickets s2 = dk_tickets s1 -> dk_time s2 = dk_time s1 -> dk_parts s2 = dk_parts s1 ->
  moved_work mv s s2.
Proof. unfold moved_work. by intros H -> -> ->. Qed.

Lemma link_write_work id aid l title by_ now s s' : link_write id aid l title by_ now s = Ok s' ->
  dk_tickets s' = dk_tickets s /\ dk_time s' = dk_time s /\ dk_parts s' = dk_parts s.
Proof. unfold link_write. intros H. case_match; by simplify_eq. Qed.

Lemma edit_comment_work f n s s' : edit_comment f n s = Ok s' ->
  dk_tickets s' = dk_tickets s /\ dk_time s' = dk_time s /\ dk_parts s' = dk_parts s.
Proof. unfold edit_comment. intros H. case_match; by simplify_eq. Qed.

Lemma moved_none s s' : dk_tickets s' = dk_tickets s /\ dk_time s' = dk_time s /\ dk_parts s' = dk_parts s -> moved_work None s s'.
Proof. intros (E1 & E2 & E3). apply at_rest; [|done..]. rewrite E1. apply heads_refl. Qed.

Lemma write_work env p s s' : write_plan env p s = Ok s' -> exists mv, moved_work mv s s'.
Proof.
  intros H. destruct p; unfold_writes H.
  7: { exists None. simplify_eq. eapply (moved_same _ _ (if stamp then with_tickets (alter (set_firstResponse (de_now env)) (tc_ticketId c)) (add_feed c s) else add_feed c s));
      [|by destruct announced..]. destruct stamp; [|by apply moved_none]. apply at_rest; [|done..]. cbn.
    destruct (dk_tickets s !! tc_ticketId c) as [t|] eqn:Et; [rewrite (alter_present _ _ _ _ Et); by apply heads_insert|].
    intros k t Ht. exists t. rewrite lookup_alter_ne by (intros E; subst; congruence). done. }
  all: try (exists None; by eapply cas_work).
  - exists None. simplify_eq. by apply moved_none.
  - exists None. result_ok H. bool_hyps. destruct alert as [[aid ar]|]; [apply link_write_work in H as (E1 & E2 & E3)|simplify_eq];
      (apply at_rest; [|done..]); rewrite ?E1; by apply heads_new.
  - exists None. result_ok H. eapply (moved_same _ _ a); [by eapply cas_work| | |]; repeat case_match; by simplify_eq.
  - exists None. result_ok H. simplify_eq. eapply (moved_same _ _ a); [by eapply cas_work|done..].
  - exists None. result_ok H. simplify_eq. eapply (moved_same _ _ a); [by eapply cas_work|done..].
  - exists None. result_ok H. simplify_eq. eapply (moved_same _ _ a); [eapply cas_work; [done|]; by destruct opens|done..].
  - exists None. by eapply moved_none, link_write_work.
  - exists None. case_match; simplify_eq. by apply moved_none.
  - exists None. by eapply moved_none, edit_comment_work.
  - exists None. by eapply moved_none, edit_comment_work.
  - exists (Some (fun k => bool_decide (k = id), targetOrgId)). result_ok H. simplify_eq. apply cas_ticket_spec in Hg as (t & Ht & _ & ->).
    split_and!.
    + intros k x Hx. cbn. case_bool_decide as Hk.
      * subst. rewrite lookup_insert_eq. simplify_eq. by eexists.
      * rewrite lookup_insert_ne by done. by exists x.
    + intros k. etrans; [apply lookup_sql_update|]. cbn. destruct (dk_time s !! k) as [r|]; [|done]. cbn. f_equal. unfold moved_entry.
      destruct (te_ticketId (tr_entry r)) as [i|]; [|done]. by repeat case_bool_decide; simplify_eq.
    + intros k. etrans; [apply lookup_sql_update|]. cbn. by destruct (dk_parts s !! k).
  - exists None. simplify_eq. destruct reopen; [|by apply moved_none]. apply at_rest; [|done..]. cbn.
    destruct (dk_tickets s !! id) as [t|] eqn:Et; [|apply heads_refl]. case_match; [|apply heads_refl]. by apply heads_insert.
Qed.

Lemma stamp_work k dbNow locked s : moved_work None s (stampBreaches k dbNow locked s).1.
Proof.
  apply at_rest; [|done..]. intros id t Ht. rewrite stamp_lookup, Ht. cbn. eexists. split; [done|]. by case_bool_decide.
Qed.

Lemma device_work dir deviceId o s :
  moved_work (Some (fun id => from_option (of_device deviceId) false (dk_tickets s !! id), o)) s (moveDeviceOrg dir deviceId o s).
Proof.
  split_and!.
  - intros id t Ht. pose proof (lookup_sql_update (of_device deviceId) (set_head (set_org o)) (dk_tickets s) id) as E. rewrite Ht in E.
    eexists. split; [exact E|]. unfold org_after. rewrite Ht. cbn. by destruct (of_device deviceId t).
  - intros k. etrans; [apply lookup_sql_update|]. cbn. destruct (dk_time s !! k) as [r|]; [|done]. cbn. f_equal. unfold moved_entry.
    by destruct (te_ticketId (tr_entry r)).
  - intros k. etrans; [apply lookup_sql_update|]. cbn. by destruct (dk_parts s !! k).
Qed.

Lemma announce_all_work es s : let s' := fold_left (fun st e => announce e st) es s in
  dk_tickets s' = dk_tickets s /\ dk_time s' = dk_time s /\ dk_parts s' = dk_parts s.
Proof. revert s. induction es as [|e es IH]; intros s; [done|]. apply (IH (announce e s)). Qed.

Lemma rest_trans s s1 s2 : moved_work None s s1 -> moved_work None s1 s2 -> moved_work None s s2.
Proof.
  intros (H1 & T1 & P1) (H2 & T2 & P2). split_and!.
  - intros id t Ht. destruct (H1 _ _ Ht) as (t1 & Ht1 & G1 & O1), (H2 _ _ Ht1) as (t2 & Ht2 & G2 & O2). exists t2.
    cbn in *. split_and!; [done|congruence|congruence].
  - intros k. rewrite T2, T1. by destruct (dk_time s !! k).
  - intros k. rewrite P2, P1. by destruct (dk_parts s !! k).
Qed.

Lemma sweep_work dbNow locked s : moved_work None s (sweepTicketSlaBreaches dbNow locked s).
Proof.
  unfold sweepTicketSlaBreaches. pose proof (stamp_work sla_response dbNow locked s) as H1.
  destruct (stampBreaches sla_response dbNow locked s) as [s1 r]. pose proof (stamp_work sla_resolution dbNow locked s1) as H2.
  destruct (stampBreaches sla_resolution dbNow locked s1) as [s2 r2]. cbn [fst] in *.
  eapply moved_same; [|by apply announce_all_work..]. by eapply rest_trans.
Qed.

(** ** The composed system *)

Record WorkWorld : Type := { ww_desk : DeskStore; ww_bill : BillSys }.

(** Billing's view of what the desk wrote, and the desk's of what billing wrote. *)
Definition push (d : DeskStore) (b : BillSys) : BillSys :=
  {| sy_store := with_sources (fun _ => tr_entry <$> dk_time d) (fun _ => pr_part <$> dk_parts d) (sy_store b); sy_runs := sy_runs b |}.

Definition pull (b : BillSys) (d : DeskStore) : DeskStore :=
  with_time (map_imap (fun k r => Some (set_entry (fun t => default t (bs_time (sy_store b) !! k)) r)))
    (with_parts (map_imap (fun k r => Some (set_part (fun p => default p (bs_parts (sy_store b) !! k)) r))) d).

(** A random id is new: no line of an invoice names it. *)
Definition unnamed (s : BillStore) (k : string) : Prop := forall n l, bs_lines s !! n = Some l -> ln_sourceId l <> Some k.

Section composed.
Context (applyIntakeForm : FormRow -> json -> result string AppliedIntakeForm).

(** [writes] says which billing statuses a request may write by hand. *)
Inductive work_step (writes : BillingStatus -> bool) : WorkWorld -> WorkWorld -> Prop :=
| wk_work env actor op d d' b : work_call env actor op d = Ok d' -> match op_status op with Some st => writes st = true | None => True end ->
    unnamed (sy_store b) (tv_newId env) -> work_step writes {| ww_desk := d; ww_bill := b |} {| ww_desk := d'; ww_bill := push d' b |}
| wk_ticket env op d d' b : call applyIntakeForm env op d = Ok d' ->
    work_step writes {| ww_desk := d; ww_bill := b |} {| ww_desk := d'; ww_bill := push d' b |}
| wk_sweep dbNow locked d b :
    work_step writes {| ww_desk := d; ww_bill := b |}
      {| ww_desk := sweepTicketSlaBreaches dbNow locked d; ww_bill := push (sweepTicketSlaBreaches dbNow locked d) b |}
| wk_device dir deviceId o d b :
    work_step writes {| ww_desk := d; ww_bill := b |}
      {| ww_desk := moveDeviceOrg dir deviceId o d; ww_bill := push (moveDeviceOrg dir deviceId o d) b |}
| wk_bill d b b' : bill_step b b' -> work_step writes {| ww_desk := d; ww_bill := b |} {| ww_desk := pull b' d; ww_bill := b' |}.

Definition first_world : WorkWorld := {| ww_desk := empty_desk; ww_bill := {| sy_store := empty_bills ∅ ∅; sy_runs := [] |} |}.

Definition work_reachable (writes : BillingStatus -> bool) (w : WorkWorld) : Prop := rtc (work_step writes) first_world w.

(** Any status, and any but the one that opens work for billing again. *)
Definition any_status (st : BillingStatus) : bool := true.
Definition not_reopened (st : BillingStatus) : bool := negb (bool_decide (st = not_billed)).

(** The rows of the desk are as they should be, and billing sees the same. *)
Record work_ok (w : WorkWorld) : Prop := {
  wo_time : bs_time (sy_store (ww_bill w)) = tr_entry <$> dk_time (ww_desk w);
  wo_parts : bs_parts (sy_store (ww_bill w)) = pr_part <$> dk_parts (ww_desk w);
  wo_wf : bill_wf (sy_store (ww_bill w));
  wo_rows : rows_ok (dk_time (ww_desk w));
  wo_running : one_running (dk_time (ww_desk w));
  wo_placed : all_placed (dk_tickets (ww_desk w)) (dk_time (ww_desk w));
  wo_partsPlaced : parts_placed (dk_tickets (ww_desk w)) (dk_parts (ww_desk w));
}.

Lemma push_time d b : bs_time (sy_store (push d b)) = tr_entry <$> dk_time d.
Proof. done. Qed.

Lemma push_wf d b : bill_wf (sy_store b) -> bill_wf (sy_store (push d b)).
Proof. intros [H1 H2 H3 H4]. by split. Qed.

Lemma ok_pushed d b :
  bill_wf (sy_store b) -> rows_ok (dk_time d) -> one_running (dk_time d) -> all_placed (dk_tickets d) (dk_time d) ->
  parts_placed (dk_tickets d) (dk_parts d) -> work_ok {| ww_desk := d; ww_bill := push d b |}.
Proof. intros. split; cbn; try done. by apply push_wf. Qed.

Lemma rtc_keeps {A} (R : A -> A -> Prop) (P : A -> Prop) x y : (forall a b, P a -> R a b -> P b) -> P x -> rtc R x y -> P y.
Proof. intros H Hx. induction 1; eauto. Qed.

Lemma work_call_ok env actor op d d' b : work_call env actor op d = Ok d' -> work_ok {| ww_desk := d; ww_bill := b |} ->
  work_ok {| ww_desk := d'; ww_bill := push d' b |}.
Proof.
  intros H [_ _ Hwf Hr H1 Hp Hq]. cbn in *. destruct (work_call_effect env actor op d d' (fun _ => True) H I) as (Ht & Hpt & Ek).
  apply ok_pushed; [done|..]; rewrite ?Ek.
  - eapply rtc_keeps; [|done|done]. intros. by eapply change_rows.
  - eapply rtc_keeps; [|done|done]. intros. by eapply change_running.
  - eapply (rtc_keeps _ (all_placed (dk_tickets d))); [|done|done]. intros. by eapply change_placed.
  - eapply (rtc_keeps _ (parts_placed (dk_tickets d))); [|done|done]. intros. by eapply part_change_placed.
Qed.

(** The rows after a move, and where they come from. *)
Lemma moved_time mv s s' k r' : moved_work mv s s' -> dk_time s' !! k = Some r' -> exists r, dk_time s !! k = Some r /\ r' = moved_entry mv r.
Proof. intros (_ & H & _). rewrite H. intros (r & Hr & ->)%fmap_Some. by exists r. Qed.

Lemma moved_parts_row mv s s' k r' : moved_work mv s s' -> dk_parts s' !! k = Some r' -> exists r, dk_parts s !! k = Some r /\ r' = moved_part mv r.
Proof. intros (_ & _ & H). rewrite H. intros (r & Hr & ->)%fmap_Some. by exists r. Qed.

(** A move writes an organization, and nothing else. *)
Lemma moved_entry_is mv r : moved_entry mv r = r \/ exists o, moved_entry mv r = set_entry (set_te_org o) r.
Proof. unfold moved_entry. repeat case_match; eauto. Qed.

Lemma moved_part_is mv r : moved_part mv r = r \/ exists o, moved_part mv r = set_part (set_tp_org o) r.
Proof. unfold moved_part. repeat case_match; eauto. Qed.

Lemma org_row_ok o r : row_ok r -> row_ok (set_entry (set_te_org o) r).
Proof. intros [H1 H2 H3 H4]. by split. Qed.

Lemma moved_rows mv s s' : moved_work mv s s' -> rows_ok (dk_time s) -> rows_ok (dk_time s').
Proof.
  intros Hm Hr k r' (r & Hk & ->)%(moved_time _ _ _ _ _ Hm). destruct (moved_entry_is mv r) as [->|[o ->]]; [|apply org_row_ok]; by eapply Hr.
Qed.

Lemma moved_running mv s s' : moved_work mv s s' -> one_running (dk_time s) -> one_running (dk_time s').
Proof.
  intros Hm Hr. eapply calmer_one; [done|]. intros k r' (r & Hk & ->)%(moved_time _ _ _ _ _ Hm). exists r. split; [done|].
  by destruct (moved_entry_is mv r) as [->|[o ->]].
Qed.

Lemma moved_placed mv s s' : moved_work mv s s' -> all_placed (dk_tickets s) (dk_time s) -> all_placed (dk_tickets s') (dk_time s').
Proof.
  intros Hm Hp k r' (r & Hk & ->)%(moved_time _ _ _ _ _ Hm). pose proof (Hp _ _ Hk) as Hpl. unfold placed in *.
  destruct (te_ticketId (tr_entry r)) as [id|] eqn:Ei.
  - destruct Hpl as (t & Ht & Ho & Hpa). destruct Hm as [Hh _]. destruct (Hh _ _ Ht) as (t' & Ht' & Ep & Eo).
    assert (E : moved_entry mv r = r /\ tk_orgId t' = tk_orgId t \/ moved_entry mv r = set_entry (set_te_org (tk_orgId t')) r).
    { unfold moved_entry, org_after in *. rewrite Ei. destruct mv as [[moves o]|]; [|by left]. destruct (moves id); [right; by rewrite Eo|by left]. }
    destruct E as [[-> E]| ->]; cbn; rewrite Ei; exists t'; rewrite Ep; (split_and!; [done| |done]); [by rewrite E|done].
  - assert (moved_entry mv r = r) as -> by (unfold moved_entry; rewrite Ei; by destruct mv as [[]|]). by rewrite Ei.
Qed.

Lemma moved_parts mv s s' : moved_work mv s s' -> parts_placed (dk_tickets s) (dk_parts s) -> parts_placed (dk_tickets s') (dk_parts s').
Proof.
  intros Hm Hp k r' (r & Hk & ->)%(moved_parts_row _ _ _ _ _ Hm). destruct (Hp _ _ Hk) as (t & Ht & Ho). destruct Hm as [Hh _].
  destruct (Hh _ _ Ht) as (t' & Ht' & _ & Eo). exists t'. unfold moved_part, org_after in *. destruct mv as [[moves o]|]; [|by rewrite Eo].
  destruct (moves (tp_ticketId (pr_part r))); cbn; by rewrite Eo.
Qed.

Lemma moved_ok mv d d' b : moved_work mv d d' -> work_ok {| ww_desk := d; ww_bill := b |} -> work_ok {| ww_desk := d'; ww_bill := push d' b |}.
Proof.
  intros Hm [_ _ Hwf Hr H1 Hp Hq]. cbn in *. apply ok_pushed; [done|by eapply moved_rows|by eapply moved_running|by eapply moved_placed|by eapply moved_parts].
Qed.
End composed.

(** ** What billing does to work *)

Definition restatus_te (t t' : TimeEntry) : Prop := exists st, t' = set_te_status st t.
Definition restatus_tp (p p' : TicketPart) : Prop := exists st, p' = set_tp_status st p.

(** Billing rewrites statuses and nothing else. *)
Definition restated (s s' : BillStore) : Prop :=
  (forall k, option_Forall2 restatus_te (bs_time s !! k) (bs_time s' !! k))
  /\ forall k, option_Forall2 restatus_tp (bs_parts s !! k) (bs_parts s' !! k).

Lemma restatus_te_refl t : restatus_te t t.
Proof. exists (te_billingStatus t). by destruct t. Qed.

Lemma restatus_tp_refl p : restatus_tp p p.
Proof. exists (tp_billingStatus p). by destruct p. Qed.

Lemma restated_same s s' : bs_time s' = bs_time s -> bs_parts s' = bs_parts s -> restated s s'.
Proof.
  intros E1 E2. split; intros k; rewrite ?E1, ?E2.
  - destruct (bs_time s !! k); constructor. apply restatus_te_refl.
  - destruct (bs_parts s !! k); constructor. apply restatus_tp_refl.
Qed.

Lemma restated_trans s s1 s2 : restated s s1 -> restated s1 s2 -> restated s s2.
Proof.
  intros [H1 H2] [G1 G2]. split; intros k.
  - specialize (H1 k). specialize (G1 k). destruct H1 as [t t1 [st ->]|]; [|done]. inversion G1 as [? t2 [st2 ->]|]; subst. constructor. by exists st2.
  - specialize (H2 k). specialize (G2 k). destruct H2 as [t t1 [st ->]|]; [|done]. inversion G2 as [? t2 [st2 ->]|]; subst. constructor. by exists st2.
Qed.

Lemma restated_flip st tids pids s s0 : bs_time s0 = bs_time s -> bs_parts s0 = bs_parts s -> restated s (flip_sources st tids pids s0).
Proof.
  intros E1 E2. split; intros k; cbn; rewrite map_lookup_imap, ?E1, ?E2.
  - destruct (bs_time s !! k); cbn; constructor. case_bool_decide; [by exists st|apply restatus_te_refl].
  - destruct (bs_parts s !! k); cbn; constructor. case_bool_decide; [by exists st|apply restatus_tp_refl].
Qed.

Lemma ichange_restated s s' : bill_wf s -> ichange s s' -> restated s s'.
Proof.
  intros Hwf Hc. destruct (change_class _ _ Hwf Hc) as [(E1 & E2 & _)|(id & [(env & r & cur & dep & am & _ & _ & _ & ->)|(reason & now & _ & ->)])].
  - by apply restated_same.
  - by apply restated_flip.
  - by apply restated_flip.
Qed.

Lemma ichanges_facts s s' : ichanges s s' -> bill_wf s -> bill_wf s' /\ restated s s' /\ (billed_once s -> billed_once s').
Proof.
  induction 1 as [s|s s1 s2 Hc _ IH]; intros Hwf; [split; [done|split; [by apply restated_same|done]]|].
  destruct IH as (H1 & H2 & H3); [by eapply wf_preserved|]. split; [done|split].
  - eapply restated_trans; [eapply ichange_restated; done|done].
  - intros Ho. apply H3, (once_preserved _ _ Hwf Ho Hc).
Qed.

(** The desk's rows after a billing step: the same, with other statuses. *)
Lemma pull_time b d k r' : dk_time (pull b d) !! k = Some r' ->
  exists r, dk_time d !! k = Some r /\ r' = set_entry (fun t => default t (bs_time (sy_store b) !! k)) r.
Proof. cbn. rewrite map_lookup_imap. destruct (dk_time d !! k) as [r|]; [|done]. cbn. intros [= <-]. eauto. Qed.

Lemma pull_parts b d k r' : dk_parts (pull b d) !! k = Some r' ->
  exists r, dk_parts d !! k = Some r /\ r' = set_part (fun p => default p (bs_parts (sy_store b) !! k)) r.
Proof. cbn. rewrite map_lookup_imap. destruct (dk_parts d !! k) as [r|]; [|done]. cbn. intros [= <-]. eauto. Qed.

Lemma restated_row s s' k r : restated s s' -> bs_time s !! k = Some (tr_entry r) ->
  exists st, set_entry (fun t => default t (bs_time s' !! k)) r = set_entry (set_te_status st) r.
Proof.
  intros [H _] E. specialize (H k). rewrite E in H. destruct (bs_time s' !! k) as [t'|]; inversion H as [? ? [st ->]|].
  by exists st.
Qed.

Lemma restated_part s s' k r : restated s s' -> bs_parts s !! k = Some (pr_part r) ->
  exists st, set_part (fun t => default t (bs_parts s' !! k)) r = set_part (set_tp_status st) r.
Proof.
  intros [_ H] E. specialize (H k). rewrite E in H. destruct (bs_parts s' !! k) as [t'|]; inversion H as [? ? [st ->]|].
  by exists st.
Qed.

Lemma bill_step_ok d b b' : bill_step b b' -> work_ok {| ww_desk := d; ww_bill := b |} -> work_ok {| ww_desk := pull b' d; ww_bill := b' |}.
Proof.
  intros Hb [Et Ep Hwf Hr H1 Hp Hq]. cbn in *. destruct (ichanges_facts _ _ (bill_step_changes _ _ Hb) Hwf) as (Hwf' & Hre & _).
  assert (Htime : forall k r', dk_time (pull b' d) !! k = Some r' -> exists r st, dk_time d !! k = Some r /\ r' = set_entry (set_te_status st) r).
  { intros k r' (r & Hk & ->)%pull_time. destruct (restated_row (sy_store b) (sy_store b') k r) as [st E]; [done|by rewrite Et, lookup_fmap, Hk|].
    exists r, st. by rewrite E. }
  assert (Hparts : forall k r', dk_parts (pull b' d) !! k = Some r' -> exists r st, dk_parts d !! k = Some r /\ r' = set_part (set_tp_status st) r).
  { intros k r' (r & Hk & ->)%pull_parts. destruct (restated_part (sy_store b) (sy_store b') k r) as [st E]; [done|by rewrite Ep, lookup_fmap, Hk|].
    exists r, st. by rewrite E. }
  destruct Hre as [R1 R2]. split; cbn; [| |done| | | |].
  - apply map_eq. intros k. rewrite lookup_fmap, map_lookup_imap. specialize (R1 k). rewrite Et, lookup_fmap in R1.
    destruct (dk_time d !! k) as [r|]; cbn in *; inversion R1; subst; [|done]. cbn. done.
  - apply map_eq. intros k. rewrite lookup_fmap, map_lookup_imap. specialize (R2 k). rewrite Ep, lookup_fmap in R2.
    destruct (dk_parts d !! k) as [r|]; cbn in *; inversion R2; subst; [|done]. cbn. done.
  - intros k r' (r & st & Hk & ->)%Htime. destruct (Hr _ _ Hk). by split.
  - eapply calmer_one; [exact H1|]. intros k r' (r & st & Hk & ->)%Htime. by exists r.
  - intros k r' (r & st & Hk & ->)%Htime. by apply (Hp _ _ Hk).
  - intros k r' (r & st & Hk & ->)%Hparts. by apply (Hq _ _ Hk).
Qed.

(** ** Billed once *)

(** A status may vanish with its row; it opens for billing only if it was open. *)
Definition status_step (o o' : option BillingStatus) : Prop := o' = None \/ o <> None /\ (o' = Some not_billed -> o = Some not_billed).

Lemma status_step_refl o : status_step o o.
Proof. unfold status_step. destruct o; [by right|by left]. Qed.

Lemma status_step_trans a b c : status_step a b -> status_step b c -> status_step a c.
Proof. unfold status_step. naive_solver. Qed.

Definition te_status (o : option TimeRow) : option BillingStatus := (fun r => te_billingStatus (tr_entry r)) <$> o.
Definition tp_status (o : option PartRow) : option BillingStatus := (fun r => tp_billingStatus (pr_part r)) <$> o.

Definition keeps_billed (o : option BillingStatus) : Prop := o <> Some not_billed.

Lemma status_kept (st : BillingStatus) w : keeps_billed w -> default st w = not_billed -> st = not_billed.
Proof. unfold keeps_billed. destruct w; cbn; intros; congruence. Qed.

Lemma change_status env actor tickets m m' k : time_change env actor tickets keeps_billed m m' -> k <> tv_newId env ->
  status_step (te_status (m !! k)) (te_status (m' !! k)).
Proof.
  intros Hc Hk. destruct Hc as [r Hn Hr _|now o|id r input p Hr He Hw|id r Hr He|ids approve now Hall Hids].
  - rewrite lookup_insert_ne by done. apply status_step_refl.
  - rewrite lookup_sql_update. destruct (m !! k) as [r|]; [|by left]. right. split; [done|]. cbn. by destruct (running_of _ _ r).
  - destruct (decide (k = id)) as [->|Hne]; [|rewrite lookup_insert_ne by done; apply status_step_refl].
    rewrite lookup_insert_eq, Hr. right. split; [done|]. cbn. rewrite (eo_status _ _ _ _ _ _ He). intros [= E]. f_equal. by eapply status_kept.
  - destruct (decide (k = id)) as [->|Hne]; [rewrite lookup_delete_eq; by left|rewrite lookup_delete_ne by done; apply status_step_refl].
  - rewrite map_lookup_imap. destruct (m !! k) as [r|]; [|by left]. right. split; [done|]. cbn. by case_bool_decide.
Qed.

Lemma part_change_status env tickets m m' k : part_change env tickets keeps_billed m m' -> k <> tv_newId env ->
  status_step (tp_status (m !! k)) (tp_status (m' !! k)).
Proof.
  intros Hc Hk. destruct Hc as [r t Hn Hv Ht Ho|id r u Hr Hv Hw|id r Hr Hv].
  - rewrite lookup_insert_ne by done. apply status_step_refl.
  - destruct (decide (k = id)) as [->|Hne]; [|rewrite lookup_insert_ne by done; apply status_step_refl].
    rewrite lookup_insert_eq, Hr. right. split; [done|]. cbn. intros [= E]. f_equal. by eapply status_kept.
  - destruct (decide (k = id)) as [->|Hne]; [rewrite lookup_delete_eq; by left|rewrite lookup_delete_ne by done; apply status_step_refl].
Qed.

Lemma rtc_status {A} (R : gmap string A -> gmap string A -> Prop) (f : option A -> option BillingStatus) k :
  (forall m m', R m m' -> status_step (f (m !! k)) (f (m' !! k))) -> forall m m', rtc R m m' -> status_step (f (m !! k)) (f (m' !! k)).
Proof. intros H m m'. induction 1 as [|m m1 m' Hs _ IH]; [apply status_step_refl|]. eapply status_step_trans; [by apply H|done]. Qed.

(** Other work tables, whose statuses do not open where a line names the work. *)
Lemma once_pushed d b :
  billed_once (sy_store b) ->
  (forall id ty k, bills (sy_store b) id ty k -> status_step (source_status (sy_store b) ty k) (source_status (sy_store (push d b)) ty k)) ->
  billed_once (sy_store (push d b)).
Proof.
  intros [Hm Hs] Hst. split.
  - intros id ty k Hl Hb E. destruct (Hst id ty k Hb) as [E'|[_ E']]; [congruence|]. by eapply Hm; eauto.
  - intros id1 id2 ty k Hl1 Hl2 Hb1 Hb2 Hn. destruct (Hst id1 ty k Hb1) as [E'|[E' _]]; [done|]. by eapply Hs.
Qed.

Lemma source_of_rows w ty k : work_ok w -> source_status (sy_store (ww_bill w)) ty k
  = match ty with src_time_entry => te_status (dk_time (ww_desk w) !! k) | src_part => tp_status (dk_parts (ww_desk w) !! k) | _ => None end.
Proof.
  intros Hw. destruct ty; cbn; try done.
  - rewrite (wo_time _ Hw), lookup_fmap. by destruct (dk_time (ww_desk w) !! k).
  - rewrite (wo_parts _ Hw), lookup_fmap. by destruct (dk_parts (ww_desk w) !! k).
Qed.

Lemma once_desk d d' b : work_ok {| ww_desk := d; ww_bill := b |} -> work_ok {| ww_desk := d'; ww_bill := push d' b |} ->
  billed_once (sy_store b) ->
  (forall k, (exists id ty, bills (sy_store b) id ty k) ->
     status_step (te_status (dk_time d !! k)) (te_status (dk_time d' !! k)) /\ status_step (tp_status (dk_parts d !! k)) (tp_status (dk_parts d' !! k))) ->
  billed_once (sy_store (push d' b)).
Proof.
  intros Hw Hw' Ho Hst. apply once_pushed; [done|]. intros id ty k Hb. destruct (Hst k) as [H1 H2]; [by exists id, ty|].
  pose proof (source_of_rows _ ty k Hw) as E. pose proof (source_of_rows _ ty k Hw') as E'. cbn [ww_desk ww_bill] in *. rewrite E, E'.
  destruct ty; try done; by left.
Qed.

Lemma moved_status mv d d' k : moved_work mv d d' ->
  status_step (te_status (dk_time d !! k)) (te_status (dk_time d' !! k)) /\ status_step (tp_status (dk_parts d !! k)) (tp_status (dk_parts d' !! k)).
Proof.
  intros (_ & Ht & Hp). rewrite Ht, Hp. split.
  - destruct (dk_time d !! k) as [r|]; [|by left]. right. split; [done|]. cbn. by destruct (moved_entry_is mv r) as [->|[o ->]].
  - destruct (dk_parts d !! k) as [r|]; [|by left]. right. split; [done|]. cbn. by destruct (moved_part_is mv r) as [->|[o ->]].
Qed.

Lemma work_call_once env actor op d d' b :
  work_call env actor op d = Ok d' -> match op_status op with Some st => not_reopened st = true | None => True end ->
  unnamed (sy_store b) (tv_newId env) -> work_ok {| ww_desk := d; ww_bill := b |} -> billed_once (sy_store b) -> billed_once (sy_store (push d' b)).
Proof.
  intros H Hop Hun Hw Ho. assert (Hk : keeps_billed (op_status op)).
  { intros E. rewrite E in Hop. done. }
  destruct (work_call_effect env actor op d d' keeps_billed H Hk) as (Ht & Hp & _).
  apply (once_desk d d' b); [done|by eapply work_call_ok|done|]. intros k (id & ty & n & l & Hl & _ & _ & Hs & _).
  assert (Hne : k <> tv_newId env) by (intros ->; by eapply Hun). split.
  - eapply rtc_status; [|done]. intros. by eapply change_status.
  - eapply rtc_status; [|done]. intros. by eapply part_change_status.
Qed.

Section reach.
Context (applyIntakeForm : FormRow -> json -> result string AppliedIntakeForm).
Abbreviation work_step := (work_step applyIntakeForm).

Lemma call_moves env op d d' : call applyIntakeForm env op d = Ok d' -> exists mv, moved_work mv d d'.
Proof. unfold call. intros (p & _ & H)%rbind_Ok. by eapply write_work. Qed.

Lemma step_ok writes w w' : work_step writes w w' -> work_ok w -> work_ok w'.
Proof.
  destruct 1 as [env actor op d d' b H _ _|env op d d' b H|dbNow locked d b|dir deviceId o d b|d b b' H].
  - by eapply work_call_ok.
  - apply call_moves in H as [mv H]. by eapply moved_ok.
  - apply (moved_ok None), sweep_work.
  - eapply moved_ok, device_work.
  - by apply bill_step_ok.
Qed.

Lemma first_ok : work_ok first_world.
Proof. split; [done|done|by split|..]; intros k; intros; cbn in *; by rewrite lookup_empty in *. Qed.

Lemma reachable_work_ok writes w : work_reachable applyIntakeForm writes w -> work_ok w.
Proof. apply rtc_keeps; [|apply first_ok]. intros. by eapply step_ok. Qed.

Lemma step_once w w' : work_step not_reopened w w' -> work_ok w -> billed_once (sy_store (ww_bill w)) -> billed_once (sy_store (ww_bill w')).
Proof.
  destruct 1 as [env actor op d d' b H Hop Hun|env op d d' b H|dbNow locked d b|dir deviceId o d b|d b b' H]; intros Hw Ho; cbn [ww_bill ww_desk] in *.
  - by eapply work_call_once.
  - apply call_moves in H as [mv H]. apply (once_desk d d' b); [done|by eapply moved_ok|done|]. intros k _. by eapply moved_status.
  - apply (once_desk d _ b); [done|exact (moved_ok None _ _ _ (sweep_work _ _ _) Hw)|done|]. intros k _. eapply moved_status, sweep_work.
  - apply (once_desk d _ b); [done|exact (moved_ok _ _ _ _ (device_work dir deviceId o d) Hw)|done|]. intros k _. eapply moved_status, device_work.
  - apply (ichanges_facts _ _ (bill_step_changes _ _ H) (wo_wf _ Hw)), Ho.
Qed.

Lemma reachable_billed w : work_reachable applyIntakeForm not_reopened w -> work_ok w /\ billed_once (sy_store (ww_bill w)).
Proof.
  apply (rtc_keeps _ (fun w => work_ok w /\ billed_once (sy_store (ww_bill w)))).
  - intros x y [H1 H2] Hs. split; [by eapply step_ok|by eapply step_once].
  - split; [apply first_ok|]. split; [intros id ty k (i & Hi & _)|intros id1 id2 ty k (i & Hi & _)]; cbn in Hi; by rewrite lookup_empty in Hi.
Qed.

(** C19: Whatever calls of the desk, of time tracking and of billing follow each other, the
    duration of every time entry is that of its interval in whole minutes and unset
    while it runs, an approved entry is finished and says who approved it and when,
    a user has at most one running timer in all partners, and billing sees the same
    entries. *)
Theorem time_entries_stay_consistent writes w : work_reachable applyIntakeForm writes w ->
  rows_ok (dk_time (ww_desk w)) /\ one_running (dk_time (ww_desk w))
  /\ bs_time (sy_store (ww_bill w)) = tr_entry <$> dk_time (ww_desk w).
Proof. intros H%reachable_work_ok. by destruct H. Qed.

(** C17: As long as the calls of the desk, of time tracking and of billing run one after the
    other, work follows its ticket: an entry has the organization of its ticket, and its
    partner when the ticket names one, an entry without a ticket has none, and a part has
    the organization of its ticket, also after the ticket was moved to another
    organization by itself or with its device. (A call that records work reads the ticket
    before it inserts, so a move that commits in between leaves that work behind.) *)
Theorem work_follows_its_ticket writes w : work_reachable applyIntakeForm writes w ->
  all_placed (dk_tickets (ww_desk w)) (dk_time (ww_desk w)) /\ parts_placed (dk_tickets (ww_desk w)) (dk_parts (ww_desk w)).
Proof. intros H%reachable_work_ok. by destruct H. Qed.

(** C6: With the desk, time tracking and billing on one database, as long as their calls run
    one after the other and no request writes a billing status back to open, a recorded
    time entry or part is billed by at most one invoice that is issued and not void, and
    is not open for billing while one bills it: editing, approving, stopping, moving and
    deleting work in between do not matter. (Two issues that overlap can bill the same
    work: see [overlapping_issues_bill_twice].) *)
Theorem recorded_work_is_billed_once w id1 id2 ty k : work_reachable applyIntakeForm not_reopened w ->
  let s := sy_store (ww_bill w) in
  live s id1 -> live s id2 -> bills s id1 ty k -> bills s id2 ty k -> source_status s ty k <> None ->
  id1 = id2 /\ source_status s ty k <> Some not_billed.
Proof. intros [_ [Hm Hs]]%reachable_billed s H1 H2 B1 B2 Hn. split; [by eapply Hs|by eapply Hm]. Qed.
End reach.
