(* ===== verification/WorkRuns.v ===== *)
(** * Runs of the service desk with billing

    Runs on given data, as instances of the theorems, and what goes wrong: an update
    that is overtaken by a stop, a timer that starts ahead of the clock, a week that does
    not start at midnight. *)

From stdpp Require Import base gmap strings list option sorting.
From Stdlib Require Import ZArith QArith Lia.
From S2P Require Import Prelude Json Tenant Money BillingStore Invoices.
From S2P Require Import BillingSystem BillingTheorems DeskStore Tickets TicketSystem.
From S2P Require Import TicketTheorems TicketBehaviour TimeEntries TimeTheorems WorkSystem.

Open Scope Z_scope.

(** ** Steps as functions *)

Definition do_work (env : TimeEnv) (actor : TimeEntryActor) (op : WorkOp) (w : WorkWorld) : WorkWorld :=
  match work_call env actor op (ww_desk w) with
  | Ok d' => {| ww_desk := d'; ww_bill := push d' (ww_bill w) |}
  | Err _ => w
  end.

Definition do_ticket (env : DeskEnv) (op : TicketOp) (w : WorkWorld) : WorkWorld :=
  match call no_forms env op (ww_desk w) with
  | Ok d' => {| ww_desk := d'; ww_bill := push d' (ww_bill w) |}
  | Err _ => w
  end.

Definition after_bill (w : WorkWorld) (s' : BillStore) : WorkWorld :=
  let b' := {| sy_store := s'; sy_runs := sy_runs (ww_bill w) |} in {| ww_desk := pull b' (ww_desk w); ww_bill := b' |}.

Definition do_draft (env : BillEnv) (ticketId : string) (actor : InvoiceActor) (w : WorkWorld) : WorkWorld :=
  match assembleDraftFromTicket env ticketId actor (sy_store (ww_bill w)) with Ok (s', _) => after_bill w s' | Err _ => w end.

Definition do_issue (env : BillEnv) (id : nat) (actor : InvoiceActor) (w : WorkWorld) : WorkWorld :=
  match issueInvoice env id actor (sy_store (ww_bill w)) with Ok s' => after_bill w s' | Err _ => w end.

Definition unnamedb (s : BillStore) (k : string) : bool :=
  forallb (fun e => negb (bool_decide (ln_sourceId e.2 = Some k))) (map_to_list (bs_lines s)).

Lemma unnamed_b s k : unnamedb s k = true -> unnamed s k.
Proof.
  unfold unnamedb. rewrite forallb_forall. intros H n l Hl. specialize (H (n, l)). cbn in H. apply elem_of_map_to_list, list_elem_of_In in Hl.
  apply H in Hl. by bool_hyps.
Qed.

Section steps.
Context (writes : BillingStatus -> bool).
Abbreviation reach := (work_reachable no_forms writes).

Lemma reach_work env actor op w : reach w -> match op_status op with Some st => writes st | None => true end = true ->
  unnamedb (sy_store (ww_bill w)) (tv_newId env) = true -> reach (do_work env actor op w).
Proof.
  intros Hw Hop Hu. unfold do_work. destruct (work_call env actor op (ww_desk w)) as [d'|] eqn:E; [|done]. eapply rtc_r; [exact Hw|].
  destruct w as [d b]. eapply wk_work; [exact E|by destruct (op_status op)|by apply unnamed_b].
Qed.

Lemma reach_ticket env op w : reach w -> reach (do_ticket env op w).
Proof.
  intros Hw. unfold do_ticket. destruct (call no_forms env op (ww_desk w)) as [d'|] eqn:E; [|done]. eapply rtc_r; [exact Hw|].
  destruct w as [d b]. by eapply wk_ticket.
Qed.

Lemma reach_bill w s' : reach w -> invoice_step (sy_store (ww_bill w)) s' -> reach (after_bill w s').
Proof. intros Hw H. eapply rtc_r; [exact Hw|]. destruct w as [d [s rs]]. apply wk_bill. by apply step_invoice. Qed.

Lemma reach_draft env ticketId actor w : reach w -> reach (do_draft env ticketId actor w).
Proof.
  intros Hw. unfold do_draft. destruct (assembleDraftFromTicket _ _ _ _) as [[s' id]|] eqn:E; [|done]. apply reach_bill; [done|].
  by eapply do_assembleDraftFromTicket.
Qed.

Lemma reach_issue env id actor w : 0 <= be_now env -> reach w -> reach (do_issue env id actor w).
Proof.
  intros Hn Hw. unfold do_issue. destruct (issueInvoice _ _ _ _) as [s'|] eqn:E; [|done]. apply reach_bill; [done|]. by eapply do_issueInvoice.
Qed.
End steps.

(** ** The data *)

Definition acme_ctx : DbAccessContext :=
  {| dc_scope := partner; dc_accessibleOrgIds := Some ["bakery"; "garage"]%string; dc_accessiblePartnerIds := Some ["acme"%string] |}.

Definition time_at (minute : Z) (newId : string) : TimeEnv :=
  {| tv_ctx := acme_ctx; tv_clock := fun _ => minute * 60000; tv_newId := newId; tv_dir := desk_dir |}.

Definition tess : TimeEntryActor :=
  {| ta_userId := "ann"; ta_name := Some "Tess"%string; ta_partnerId := Some "acme"%string; ta_manageAll := true;
     ta_accessibleOrgIds := Some ["bakery"; "garage"]%string |}.

Definition fuse : TicketPartInput :=
  {| pi_description := "Fuse"; pi_partNumber := None; pi_vendor := None; pi_catalogItemId := None; pi_quantity := 2 # 1;
     pi_unitPrice := Some (1250 # 100)%Q; pi_costBasis := None; pi_isBillable := Some true; pi_billingStatus := None; pi_notes := None |}.

Definition only_status (st : BillingStatus) : UpdatePartInput :=
  {| up_description := None; up_partNumber := None; up_vendor := None; up_catalogItemId := None; up_quantity := None;
     up_unitPrice := None; up_costBasis := None; up_isBillable := None; up_billingStatus := Some st; up_notes := None |}.

Definition acme_bills : BillEnv :=
  {| be_now := 1781524800000; be_org := fun _ => None; be_partner := fun _ => None; be_items := ∅; be_overrides := ∅;
     be_components := fun _ => []; be_devices := []; be_seats := []; be_ticketOrg := fun _ => Some "bakery"%string;
     be_orgPartner := fun _ => Some "acme"%string |}.

Definition acme_actor : InvoiceActor :=
  {| ia_userId := Some "ann"%string; ia_partnerId := Some "acme"%string; ia_accessibleOrgIds := None; ia_allowedSiteIds := None |}.

(** A part on a ticket is drafted, and the draft is issued. *)
Definition world1 : WorkWorld := do_work (time_at 5 "p1") tess (WAddPart "t1" fuse) (do_ticket (desk_at 0) (OpCreate oven ann) first_world).
Definition world2 : WorkWorld := do_issue acme_bills 0 acme_actor (do_draft acme_bills "t1" acme_actor world1).

Lemma world2_reachable writes : work_reachable no_forms writes world2.
Proof.
  apply reach_issue; [done|]. apply reach_draft. apply reach_work; [|done|by vm_compute]. apply reach_ticket. constructor.
Qed.

(** An invoice of a run is live and bills a part. *)
Definition bills_part (s : BillStore) (id n : nat) (k : string) : bool :=
  match bs_invoices s !! id, bs_lines s !! n with
  | Some i, Some l => negb (bool_decide (iv_status i = inv_draft)) && negb (bool_decide (iv_status i = inv_void))
                      && bool_decide (ln_invoiceId l = id) && bool_decide (ln_sourceType l = src_part) && bool_decide (ln_sourceId l = Some k)
  | _, _ => false
  end.

Lemma bills_part_spec s id n k : bills_part s id n k = true -> k <> EmptyString -> live s id /\ bills s id src_part k.
Proof.
  unfold bills_part. intros H Hk. destruct (bs_invoices s !! id) as [i|] eqn:Ei; [|done]. destruct (bs_lines s !! n) as [l|] eqn:El; [|done].
  bool_hyps. split; [by exists i|by exists n, l].
Qed.

Lemma recorded_once_witness : source_status (sy_store (ww_bill world2)) src_part "p1" <> Some not_billed.
Proof.
  destruct (bills_part_spec (sy_store (ww_bill world2)) 0 1 "p1") as [L B]; [by vm_compute|done|].
  assert (Hn : source_status (sy_store (ww_bill world2)) src_part "p1" <> None) by (vm_compute; discriminate).
  exact (proj2 (recorded_work_is_billed_once no_forms world2 0 0 src_part "p1" (world2_reachable not_reopened) L L B B Hn)).
Defined.

(** ** Timers *)

Definition timed_run (l : list (TimeEnv * WorkOp)) : DeskStore :=
  fold_left (fun s e => match work_call e.1 tess e.2 s with Ok s' => s' | Err _ => s end) l empty_desk.

Definition start_at (ms : Z) : UpdateTimeEntryInput :=
  {| ue_ticketId := None; ue_startedAt := Some ms; ue_endedAt := None; ue_description := None; ue_isBillable := None;
     ue_hourlyRate := None; ue_billingStatus := None |}.

Definition span (s : DeskStore) (k : string) : option (Z * option Z * option Z) :=
  (fun r => (tr_startedAt r, te_endedAt (tr_entry r), te_durationMinutes (tr_entry r))) <$> dk_time s !! k.

(** An update that backdates a running timer, overtaken by the stop: the entry is
    fifty minutes long and counts twenty. *)
Lemma overtaken_update_leaves_a_stale_duration :
  let running := timed_run [(time_at 30 "e1", WStart None None)] in
  exists p, updateTimeEntry_read (time_at 40 "x") "e1" (start_at 0) tess running = Ok p
    /\ span (updateTimeEntry_write "e1" p (timed_run [(time_at 30 "e1", WStart None None); (time_at 50 "x", WStop no_overrides)])) "e1"
       = Some (0, Some 3000000, Some 20).
Proof. eexists. split; vm_compute; reflexivity. Qed.

(** A running timer put four minutes ahead and stopped a minute later: minus three minutes. *)
Lemma timer_ahead_of_the_clock_goes_negative :
  span (timed_run [(time_at 0 "e1", WStart None None); (time_at 0 "x", WUpdate "e1" (start_at 240000)); (time_at 1 "x", WStop no_overrides)]) "e1"
  = Some (240000, Some 60000, Some (-3)).
Proof. by vm_compute. Qed.

(** Starting a timer stops the one that runs. *)
Lemma start_stops_the_other :
  span (timed_run [(time_at 0 "e1", WStart None None); (time_at 7 "e2", WStart None None)]) "e1" = Some (0, Some 420000, Some 7).
Proof. by vm_compute. Qed.

Definition two_timers : WorkWorld := do_work (time_at 7 "e2") tess (WStart (Some "t1"%string) None)
  (do_work (time_at 5 "e1") tess (WStart (Some "t1"%string) None) (do_ticket (desk_at 0) (OpCreate oven ann) first_world)).

Definition two_timers_moved : WorkWorld := do_ticket (desk_at 8) (OpMove "t1" "garage" ann) two_timers.

Lemma two_timers_reachable : work_reachable no_forms any_status two_timers.
Proof.
  apply reach_work; [|done|by vm_compute]. apply reach_work; [|done|by vm_compute]. apply reach_ticket. constructor.
Qed.

Lemma consistent_witness : map_size (dk_time (ww_desk two_timers)) = 2%nat /\ one_running (dk_time (ww_desk two_timers)).
Proof.
  split; [by vm_compute|]. exact (proj1 (proj2 (time_entries_stay_consistent no_forms any_status two_timers two_timers_reachable))).
Defined.

Lemma follows_witness :
  (fun r => te_orgId (tr_entry r)) <$> dk_time (ww_desk two_timers_moved) !! "e1"%string = Some (Some "garage"%string)
  /\ all_placed (dk_tickets (ww_desk two_timers_moved)) (dk_time (ww_desk two_timers_moved)).
Proof.
  split; [by vm_compute|]. refine (proj1 (work_follows_its_ticket no_forms any_status two_timers_moved _)).
  apply reach_ticket, two_timers_reachable.
Defined.

Lemma scope_witness : scoped (in_scope (time_at 9 "x") tess) (left_in_scope (time_at 9 "x") tess)
  (dk_time (ww_desk two_timers) !! "e1"%string) None.
Proof.
  destruct (work_call (time_at 9 "x") tess (WDelete "e1") (ww_desk two_timers)) as [s'|] eqn:E; [|by vm_compute in E].
  pose proof (proj1 (time_calls_stay_in_scope (time_at 9 "x") tess (WDelete "e1") (ww_desk two_timers) s' "e1" E)) as H.
  assert (En : dk_time s' !! "e1"%string = None) by (vm_compute in E; injection E as <-; vm_compute; reflexivity).
  rewrite En in H. exact H.
Defined.

(** ** Timesheets *)

Definition june_8 : Z := 1780876800000.

Definition night_shift : CreateTimeEntryInput :=
  {| ce_ticketId := None; ce_startedAt := june_8 + 7 * day_ms + 3600000; ce_endedAt := june_8 + 7 * day_ms + 7200000; ce_description := None;
     ce_isBillable := Some true; ce_hourlyRate := None; ce_billingStatus := None |}.

Definition night_store : DeskStore := timed_run [(time_at 0 "n1", WCreate night_shift)].

(** A week that starts at noon reads an entry of its eighth date and leaves it out of the
    days and of the totals. *)
Lemma noon_week_loses_its_last_entry :
  length (timesheet_rows (time_at 0 "x") "ann" (june_8 + 43200000) None night_store) = 1%nat
  /\ sh_totalMinutes (getTimesheet (time_at 0 "x") "ann" (june_8 + 43200000) None night_store) = 0.
Proof. by vm_compute. Qed.

Lemma timesheet_witness : (june_8 + 7 * day_ms) mod day_ms = 0
  /\ sh_totalMinutes (getTimesheet (time_at 0 "x") "ann" (june_8 + 7 * day_ms) None night_store) = 60.
Proof.
  split; [by vm_compute|].
  rewrite (proj1 (timesheet_totals_are_exact (time_at 0 "x") "ann" (june_8 + 7 * day_ms) None night_store ltac:(vm_compute; reflexivity))).
  by vm_compute.
Defined.

(** Work is recorded on a deleted ticket. *)
Lemma deleted_tickets_take_work :
  let w := do_ticket (desk_at 1) (OpDelete "t1" ann) (do_ticket (desk_at 0) (OpCreate oven ann) first_world) in
  (fun t => tk_deletedAt t) <$> dk_tickets (ww_desk w) !! "t1"%string = Some (Some 60000)
  /\ (fun r => te_ticketId (tr_entry r)) <$> dk_time (ww_desk (do_work (time_at 5 "e1") tess (WStart (Some "t1"%string) None) w)) !! "e1"%string
     = Some (Some "t1"%string).
Proof. by vm_compute. Qed.
