(* ===== verification/WorkReopened.v ===== *)
(** * Work that is opened for billing again

    The billing status of a part is a column of its update
    (services/timeEntryService.ts), and a draft gathers what says not billed: a part of an
    issued invoice that is set back is drafted and issued a second time. *)

From stdpp Require Import base gmap strings list option sorting.
From Stdlib Require Import ZArith QArith Lia.
From S2P Require Import Prelude Json Tenant Money BillingStore Invoices.
From S2P Require Import QuoteSystem BillingSystem BillingTheorems AcceptTheorems BillingBehaviour.
From S2P Require Import DeskStore Tickets TicketSystem TicketTheorems TicketBehaviour TimeEntries.
From S2P Require Import TimeTheorems WorkSystem WorkRuns.

Open Scope Z_scope.

(** ** Drafts *)

(** A draft assembled from some work: its row, its lines; the rest of the tables stays. *)
Record assembled (h : InvoiceHead) (specs : list DraftLineSpec) (s s' : BillStore) : Prop := {
  as_row : exists i, bs_invoices s' !! bs_nextId s = Some i /\ iv_head i = h /\ iv_siteId i = None /\ iv_status i = inv_draft;
  as_lines : lines_of (bs_nextId s) s' ≡ₚ imap (fun k d => spec_line (bs_nextId s) (ih_orgId h) d (Z.of_nat k)) specs;
  as_old : forall n l, bs_lines s !! n = Some l -> bs_lines s' !! n = Some l;
  as_others : forall id, id <> bs_nextId s -> bs_invoices s' !! id = bs_invoices s !! id;
  as_time : bs_time s' = bs_time s;
  as_parts : bs_parts s' = bs_parts s;
}.

Lemma insert_lines_rest ls s :
  bs_invoices (insert_lines ls s) = bs_invoices s /\ bs_time (insert_lines ls s) = bs_time s /\ bs_parts (insert_lines ls s) = bs_parts s.
Proof. revert s. induction ls as [|l ls IH]; intros s; [done|]. cbn [insert_lines]. by destruct (IH (insert_line l s).1) as (-> & -> & ->). Qed.

Lemma assemble_ok env h specs s :
  bill_wf s -> specs <> [] -> exists s', assemble env h None specs s = Ok (s', bs_nextId s) /\ assembled h specs s s'.
Proof.
  intros Hw Hne. unfold assemble. rewrite bool_decide_eq_true_2 by done. cbn [check rbind].
  set (ls := imap (fun k d => spec_line (bs_nextId s) (ih_orgId h) d (Z.of_nat k)) specs).
  assert (Hls : Forall (fun l => ln_invoiceId l = bs_nextId s) ls) by (apply Forall_forall; by intros l (k & x & -> & _)%elem_of_lookup_imap).
  pose proof (new_invoice_lines (draft_invoice h None None) ls s Hw Hls) as Hl. unfold insert_invoice in *. cbn [fst] in Hl. cbn zeta iota beta.
  set (s1 := bump_id (with_invoices (<[bs_nextId s := draft_invoice h None None]>) s)) in *. unfold materializeLines. fold ls.
  destruct (insert_lines_rest ls s1) as (Ei & Et & Ep). destruct (insert_lines_at ls s1) as (El & _).
  assert (Hrow : bs_invoices (insert_lines ls s1) !! bs_nextId s = Some (draft_invoice h None None)) by (rewrite Ei; apply lookup_insert_eq).
  unfold recomputeInvoiceTotals, getOwnedInvoiceOr404. rewrite Hrow. cbn [rbind assertDraft check bool_decide decide].
  eexists. split; [reflexivity|]. split.
  - eexists. split; [cbn; by rewrite lookup_alter_eq, Hrow|]. done.
  - exact Hl.
  - intros n l Hn. cbn. rewrite El. unfold s1. cbn. rewrite insert_rows_lookup, decide_False; [done|]. apply (wf_line _ Hw) in Hn. lia.
  - intros id Hid. cbn. rewrite lookup_alter_ne, Ei by done. unfold s1. cbn. by rewrite lookup_insert_ne.
  - cbn. by rewrite Et.
  - cbn. by rewrite Ep.
Qed.

(** What the guard looks at in a fresh draft was gathered as not billed. *)
Definition gathered_open (s : BillStore) (d : DraftLineSpec) : Prop :=
  ds_customerVisible d = true
  /\ (forall k, ds_sourceId d = Some k -> ds_sourceType d = src_time_entry -> exists t, bs_time s !! k = Some t /\ te_billingStatus t = not_billed)
  /\ (forall k, ds_sourceId d = Some k -> ds_sourceType d = src_part -> exists p, bs_parts s !! k = Some p /\ tp_billingStatus p = not_billed).

Lemma gathered_all ticketId s : Forall (gathered_open s) (gatherTicketBillables ticketId s).
Proof.
  unfold gatherTicketBillables. apply Forall_app. split; apply Forall_fmap, Forall_forall; intros [k x] Hx; apply list_filter_elem in Hx as [Hx Hp];
    apply elem_of_map_to_list in Hx; bool_hyps; unfold time_unbilled, part_unbilled in *; bool_hyps; split_and!; cbn; try done; intros ? [= <-] _; eauto.
Qed.

Lemma gathered_part ticketId s k p : bs_parts s !! k = Some p -> tp_ticketId p = ticketId -> part_unbilled p = true ->
  ticketPartToLineSpec (k, p) ∈ gatherTicketBillables ticketId s.
Proof.
  intros Hp Ht Hu. apply elem_of_app. right. apply list_elem_of_fmap_2, list_filter_elem. split; [by apply elem_of_map_to_list|].
  rewrite Hu. by rewrite bool_decide_eq_true_2.
Qed.

(** Such a draft can be issued by whoever may see it. *)
Lemma assembled_issues env h specs s s' actor :
  assembled h specs s s' -> specs <> [] -> Forall (gathered_open s) specs ->
  requireOrgAccess actor (ih_orgId h) = Ok tt -> requireSiteAccess actor None = Ok tt ->
  exists r, issue_check (bs_nextId s) actor s' = Ok r /\ issueInvoice env (bs_nextId s) actor s' = Ok (emit (invoice_issued (bs_nextId s)) (issue_commit env (bs_nextId s) r s')).
Proof.
  intros [(i & Hi & Hh & Hsite & Hd) Hl _ _ Et Ep] Hne Hg Ho Hs. rewrite Forall_forall in Hg.
  assert (Hline : forall l, l ∈ lines_of (bs_nextId s) s' -> exists d, d ∈ specs /\ ln_customerVisible l = ds_customerVisible d
    /\ ln_sourceType l = ds_sourceType d /\ ln_sourceId l = ds_sourceId d).
  { intros l. rewrite Hl. intros (k & d & -> & Hk)%elem_of_lookup_imap. exists d. split; [by eapply list_elem_of_lookup_2|done]. }
  unfold issueInvoice. assert (Hc : exists r, issue_check (bs_nextId s) actor s' = Ok r /\ ir_timeIds r = source_ids src_time_entry (lines_of (bs_nextId s) s')
    /\ ir_partIds r = source_ids src_part (lines_of (bs_nextId s) s')).
  { unfold issue_check, open_draft, getOwnedInvoiceOr404, assertDraft, requireInvoiceAccess, iv_orgId. rewrite Hi. cbn [rbind]. rewrite bool_decide_eq_true_2 by done.
    cbn [check rbind]. rewrite Hh, Hsite, Ho, Hs. cbn [rbind]. assert (Hv : existsb ln_customerVisible (lines_of (bs_nextId s) s') = true).
    { apply existsb_exists. destruct specs as [|d specs]; [done|]. pose proof (proj1 (Hg d ltac:(left))) as Hvis.
      eexists. split; [apply list_elem_of_In; rewrite Hl; left|done]. }
    rewrite Hv. cbn [check rbind]. by eexists. }
  destruct Hc as (r & Hr & Ert & Erp). exists r. split; [done|]. rewrite Hr. cbn [rbind].
  assert (Hsrc : forall ty k, k ∈ source_ids ty (lines_of (bs_nextId s) s') -> exists d, d ∈ specs /\ ds_sourceType d = ty /\ ds_sourceId d = Some k).
  { intros ty k (l & Hin & Hk)%list_elem_of_omap. destruct (_ && _) eqn:E; [|done]. bool_hyps. destruct (Hline l Hin) as (d & Hd' & _ & E1 & E2).
    exists d. split_and!; [done|congruence|congruence]. }
  assert (Hgd : issue_guard r s' = Ok tt); [|by rewrite Hgd]. unfold issue_guard. rewrite Ert, Erp, Et, Ep.
  assert (Hnil : forall p (ids : list string), (forall k, k ∈ ids -> p k = false) -> List.filter p ids = []).
  { intros p ids Hp. induction ids as [|k ids IH]; [done|]. cbn. rewrite (Hp k) by left. apply IH. intros j Hj. apply Hp. by right. }
  rewrite !Hnil.
  - by rewrite !bool_decide_eq_true_2.
  - intros k (d & Hd' & E1 & E2)%Hsrc. destruct (Hg d Hd') as (_ & _ & H). destruct (H k E2 E1) as (p & -> & ->). apply bool_decide_eq_false_2. by intros [].
  - intros k (d & Hd' & E1 & E2)%Hsrc. destruct (Hg d Hd') as (_ & H & _). destruct (H k E2 E1) as (t & -> & ->). apply bool_decide_eq_false_2. by intros [].
Qed.

Section reopened.
Context (applyIntakeForm : FormRow -> json -> result string AppliedIntakeForm).

(** C39: The billing status of a part is one field of its update, and nothing checks that an
    invoice has billed the part. Take any run of the desk with billing, and a billable part
    that an issued, not voided invoice bills: whoever sees the part can set it back to not
    billed, and whoever may draft for its ticket then gets a second draft with it and can
    issue that; two different invoices, issued and not void, charge the part. *)
Theorem work_reopened_by_hand_is_billed_twice w env actor k r id1 benv biller partner org :
  work_reachable applyIntakeForm any_status w ->
  live (sy_store (ww_bill w)) id1 -> bills (sy_store (ww_bill w)) id1 src_part k ->
  dk_parts (ww_desk w) !! k = Some r -> tp_isBillable (pr_part r) = true -> sees_part env r = true ->
  requirePartner biller = Ok partner -> be_ticketOrg benv (tp_ticketId (pr_part r)) = Some org ->
  requireOrgAccess biller org = Ok tt -> requireSiteAccess biller None = Ok tt ->
  exists d, work_call env actor (WUpdatePart k (only_status not_billed)) (ww_desk w) = Ok d
    /\ exists s2 id2 s3, assembleDraftFromTicket benv (tp_ticketId (pr_part r)) biller (sy_store (push d (ww_bill w))) = Ok (s2, id2)
       /\ issueInvoice benv id2 biller s2 = Ok s3
       /\ id1 <> id2 /\ live s3 id1 /\ bills s3 id1 src_part k /\ live s3 id2 /\ bills s3 id2 src_part k.
Proof.
  intros Hw L1 B1 Hr Hb Hsee Hp Ho Hoa Hsa. pose proof (wo_wf _ (reachable_work_ok _ _ _ Hw)) as Hwf.
  cbn [work_call]. unfold updateTicketPart, getPartOr404. rewrite Hr. cbn [rbind]. rewrite Hsee. cbn [check rbind].
  set (d := with_parts (alter (apply_part (only_status not_billed)) k) (ww_desk w)). exists d. split; [done|].
  set (s := sy_store (push d (ww_bill w))). pose proof (push_wf d (ww_bill w) Hwf) as Hws. fold s in Hws.
  set (p := pr_part (apply_part (only_status not_billed) r)). assert (Hpk : bs_parts s !! k = Some p).
  { unfold s, d. cbn. by rewrite lookup_fmap, lookup_alter_eq, Hr. }
  pose proof (gathered_part (tp_ticketId (pr_part r)) s k p Hpk eq_refl) as Hin.
  assert (Hu : part_unbilled p = true) by (unfold part_unbilled, p; cbn; by rewrite Hb). specialize (Hin Hu).
  set (specs := gatherTicketBillables (tp_ticketId (pr_part r)) s) in *. assert (Hne : specs <> []) by (intros E; rewrite E in Hin; inversion Hin).
  set (h := {| ih_partnerId := partner; ih_orgId := org; ih_createdBy := ia_userId biller; ih_replacesInvoiceId := None |}).
  destruct (assemble_ok benv h specs s Hws Hne) as (s2 & Ha & Has).
  destruct (assembled_issues benv h specs s s2 biller Has Hne (gathered_all _ s) Hoa Hsa) as (rd & _ & Hiss).
  destruct Has as [(i & Hi & _ & _ & Hd) Hl Hold Hoth _ _].
  assert (Hid : id1 <> bs_nextId s).
  { destruct L1 as (i1 & Hi1 & _). pose proof (wf_id _ Hwf _ _ Hi1) as Hlt. change (bs_nextId s) with (bs_nextId (sy_store (ww_bill w))). lia. }
  exists s2, (bs_nextId s), (emit (invoice_issued (bs_nextId s)) (issue_commit benv (bs_nextId s) rd s2)).
  assert (Hdraft : is_draft s2 (bs_nextId s)) by by exists i.
  assert (L1' : live s2 id1) by (destruct L1 as (i1 & Hi1 & Hst); exists i1; split; [rewrite Hoth by done; exact Hi1|done]).
  split_and!; [|exact Hiss|exact Hid| | | |].
  - unfold assembleDraftFromTicket. rewrite Hp. cbn [rbind]. rewrite Ho, Hoa, Hsa. exact Ha.
  - apply (commit_live benv (bs_nextId s) rd s2 id1 Hdraft). by right.
  - destruct B1 as (n & l & Hn & Hl1 & Hty & Hk & Hk0). exists n, l. split_and!; try done. exact (Hold n l Hn).
  - apply (commit_live benv (bs_nextId s) rd s2 _ Hdraft). by left.
  - destruct B1 as (_ & _ & _ & _ & _ & _ & Hk0). apply list_elem_of_lookup in Hin as [j Hj].
    assert (Hin2 : spec_line (bs_nextId s) org (ticketPartToLineSpec (k, p)) (Z.of_nat j) ∈ lines_of (bs_nextId s) s2).
    { rewrite Hl. apply elem_of_lookup_imap. by exists j, (ticketPartToLineSpec (k, p)). }
    apply lines_of_elem in Hin2 as (n & Hn & _). exists n. eexists. split; [exact Hn|]. done.
Qed.
End reopened.

Lemma reopened_witness :
  exists d s2 id2 s3, work_call (time_at 9 "x") tess (WUpdatePart "p1" (only_status not_billed)) (ww_desk world2) = Ok d
    /\ assembleDraftFromTicket acme_bills "t1" acme_actor (sy_store (push d (ww_bill world2))) = Ok (s2, id2)
    /\ issueInvoice acme_bills id2 acme_actor s2 = Ok s3 /\ bills s3 0 src_part "p1" /\ bills s3 id2 src_part "p1".
Proof.
  destruct (bills_part_spec (sy_store (ww_bill world2)) 0 1 "p1") as [L B]; [by vm_compute|done|].
  assert (Hr : exists r, dk_parts (ww_desk world2) !! "p1"%string = Some r /\ tp_isBillable (pr_part r) = true /\ tp_ticketId (pr_part r) = "t1"%string
    /\ sees_part (time_at 9 "x") r = true) by (eexists; split_and!; vm_compute; reflexivity).
  destruct Hr as (r & Hr & Hb & Ht & Hs).
  destruct (work_reopened_by_hand_is_billed_twice no_forms world2 (time_at 9 "x") tess "p1" r 0 acme_bills acme_actor "acme" "bakery"
              (world2_reachable any_status) L B Hr Hb Hs eq_refl eq_refl eq_refl eq_refl) as (d & Hd & s2 & id2 & s3 & Ha & Hi & _ & _ & B1 & _ & B2).
  rewrite Ht in Ha. exists d, s2, id2, s3. split; [exact Hd|]. split; [exact Ha|]. split; [exact Hi|]. split; [exact B1|exact B2].
Defined.
